(* ===== verification/_CoqProject ===== *)
-Q . S2P
Prelude.v
CTypes.v
Buffer.v
BufFmt.v
BufFmtSpec.v
Id.v
Argument.v
Command.v
Channel.v
Notify.v
Status.v
SkePayload.v
Utf8.v
Auth.v
Cipher.v
CipherBlocks.v
Hash.v
HashFns.v
HashSpec.v
Hmac.v
Packet.v
PacketReceive.v
PacketSpec.v
PacketDeliver.v
PacketProps.v
PacketSafety.v
Message.v
MessageSpec.v
MessageProps.v
Attrs.v
AttrsSpec.v
HashTable.v
HashTableSpec.v
HashKeys.v
SilcList.v
SilcDList.v
IdCache.v
IdCacheSpec.v
Algs.v
SkeGroup.v
SkeKeys.v
SkeKeySpec.v
SkeState.v
Ske.v
SkeFsm.v
SkeRun.v
SkeTotal.v
SkeInv.v
SkeAuth.v
SkeResp.v
SkeNego.v
ConnAuth.v
ConnAuthSpec.v
ClientState.v
ClientNick.v
ClientEntry.v
ClientDb.v
ClientTables.v
ClientCache.v
ClientInv.v
ClientRefs.v
ClientUsers.v
ClientNames.v
ClientAdd.v
ClientRun.v
Aes.v
AesSpec.v
AesField.v
AesRounds.v
AesKeys.v
AesProps.v
AesInstance.v
Sched.v
SchedSpec.v
SchedProps.v
Mp.v
Rsa.v
Pkcs1.v
Pkcs1Spec.v
PkcsRsa.v
