(* ===== verification/Prelude.v ===== *)
(** * The SILC toolkit 1.1.11: the core library

    A development about the C library under src/lib: the byte-level codecs of
    the SILC protocol, the packet engine that carries them, the key exchange and
    the connection authentication that set it up, the cryptography they use, and
    the containers, the scheduler and the entries of the client library.

    ** How the parts of the program fit together

    An application (the client library, src/lib/silcclient) speaks the SILC
    protocol through packets.  A packet (src/lib/silccore/silcpacket.c) carries
    a payload: a command, a channel payload, a notification, a key exchange
    payload, ...  Payloads are written and read with silc_buffer_format and
    silc_buffer_unformat (src/lib/silcutil/silcbuffmt.c) on a SilcBuffer
    (silcbuffer.h), integers with the macros of silctypes.h.  The packet engine
    pads, encrypts (src/lib/silccrypt/silccipher.c, aes.c) and authenticates
    (silchmac.c) a packet, writes it to a stream, and on the other side takes
    packets out of a stream of bytes and hands them to callbacks.

    ** Files and sources

    - Prelude: lists indexed by Z, bytes, machine integers, tactics.
    - CTypes: the byte order macros of silctypes.h, the guards of silcmemory.c.
    - Buffer: silcbuffer.h.
    - BufFmt, BufFmtSpec: silcbuffmt.c; BufFmtSpec has the specification, a
      parser and a printer on byte lists, and the refinement.
    - Id: silcid.c.  Argument: silcargument.c.  Command: silccommand.c.
      Channel: silcchannel.c.  Notify: silcnotify.c.  Status: silcstatus.c.
      Auth: silcauth.c.  SkePayload: silcske/payload.c.
    - Utf8: silcutf8.c.
    - Cipher: silccipher.c and the CBC and CTR modes of aes.c, over an abstract
      block function; the class CipherAlg is the function table of a cipher,
      CipherLaws what the packet engine relies on, with an instance per mode.
    - Aes: the AES block function of aes.c and rijndael_internal.h, tables, key
      schedules and rounds.  AesSpec: FIPS-197 over the field GF(2^8).
      AesField, AesRounds, AesKeys: tables, rounds and schedules against it.
      AesProps: the theorems.  AesInstance: AES as an instance of the block
      function that Cipher and the key exchange are proved against.
    - CipherBlocks: the class of ciphers that work on whole blocks, for the
      payloads that decrypt piecewise; instances for CBC and CTR.
    - Hash: silchash.c over the class HashAlg, the function table of a hash
      function, with HashLaws, what it must compute.  HashFns: sha1.c, sha256.c
      and md5.c, translated down to the rounds.  HashSpec: that each is the
      iteration of its compression function over the padded message, and so an
      instance of HashAlg with the laws.
    - Hmac: silchmac.c.
    - Packet, PacketReceive: silcpacket.c.  PacketSpec: the plain packet, what
      sending puts into the output buffer, what decrypting and parsing gives.
      PacketDeliver: a round of the receiving loop, the loop, and reading in
      pieces.  PacketProps: sequences of messages.  PacketSafety: arbitrary
      input, and the packet processors.
    - Message: silcmessage.c, the message payload of channel and private
      messages with its signature payload.  MessageSpec: encoding and parsing
      as functions of byte lists.  MessageProps: the theorems.
    - Algs: the registries of silccipher.c, silchash.c, silchmac.c and
      silcpkcs.c, algorithms by name, the default tables.
    - SkeGroup: silcske/groups.c and silcmath/mpbin.c over the integers.
    - SkeKeys: key material and keys in use (silcske.c); SkeKeySpec: the key
      material as functions of byte lists, and that both ends' keys match.
    - SkeState: the SKE context (silcske_i.h) with one update per field.  Ske:
      version, negotiation, random numbers, HASH, packets with retransmission.
      SkeFsm: the states of initiator and responder.  SkeRun: rekey, the
      callbacks, the machine of silcfsm.c, events ([ske_step]) and the entry
      points.
    - SkeTotal: which state follows which.  SkeInv: the principle of an
      invariant of one side over all sequences of events (class SkeInvariant),
      its instances for the initiator (SkeAuth) and the responder (SkeResp).
      SkeNego: negotiation.
    - ConnAuth, ConnAuthSpec: silcske/silcconnauth.c, its states, machine and
      events; what a responder accepts (ca_accepts), the invariant of a side
      (class ConnSide), and the exchange of two ends.
    - HashTable, HashTableSpec: silchashtable.c, over any type of keys; the class
      HashLaws is what the hash and compare functions promise, the specification
      is the list of the entries in the order of their addition.  HashKeys: the
      hash and compare functions of silcutil.c and their laws.
    - SilcList: silclist.h in a memory of links, against a sequence with a
      cursor.  SilcDList: silcdlist.h on top of it.
    - Attrs, AttrsSpec: silccore/silcattrs.c, the attributes of WHOIS and their
      objects; the class AttrCodecs stands for vCards and MIME messages.
    - ClientState: the entries of the client library in memory (ClientConn) and
      programs on them (CM).  ClientNick, ClientEntry, ClientDb:
      silcclient/client_entry.c and the users of channels in client_channel.c.
      ClientTables, ClientCache: the tables and caches as finite maps, also while
      they are walked.  ClientInv: the invariant and the rules for programs (wp).
      ClientRefs, ClientUsers, ClientNames, ClientAdd: each operation keeps it.
      ClientRun: sequences of operations.
    - Sched: the timeout tasks of silcutil/silcschedule.c, callbacks as programs
      on the scheduler.  SchedSpec: the invariant of queue and free list and that
      each operation keeps it.  SchedProps: runs, and uninitialising.
    - Mp: silcmath/modinv.c and silcprimegen.c over the integers.
    - Rsa: silccrypt/rsa.c.  Pkcs1, Pkcs1Spec: silccrypt/silcpkcs1.c with the
      scheme without hash OIDs.  PkcsRsa: that scheme as an instance of the
      classes PkcsOps and PkcsLaws, from which public key authentication (Auth)
      is proved.
    - IdCache, IdCacheSpec: silcapputil/silcidcache.c, three hash tables over a
      heap of entries.

    ** How C is modelled

    A byte is a Z in [0, 256); memory is a list of bytes; integers are Z with
    the conversions u8, u16, u32, u64 where the code converts.  A byte that was
    never written, or lies outside its object, reads as [indet] = -1, which is
    no byte, so a result that depends on it shows.  A SilcBuffer is the three
    segments its four pointers delimit.  A NULL pointer is None.  State is
    passed explicitly: an operation takes the objects it changes and returns
    them.  Failure is None, or the return value of the code.

    Assumptions: allocations of more than 0 and fewer than 2^30 bytes succeed,
    others fail as in silcmemory.c; no SILC_DEBUG; LP64; SilcStack arguments are
    NULL; the C locale and no iconv.  Locks are not modelled: the functions run
    with their lock held.  The scheduler's clock stays within 34 years of some time
    and tasks wait up to 17 years, so that differences fit into the 32 bits in which
    the code compares them.  Random bytes, signatures, hash and block functions
    and what the operating system answers are parameters of the code that uses
    them, with their laws as classes and a concrete instance of each for the
    witnesses; the hash functions, AES and RSA of the library are instances.

    ** Fuel

    Loops over a counter are structural.  silc_packet_read_process, select_item,
    silc_channel_payload_parse_list, silc_argument_list_parse_decoded and the
    UTF-8 loops take fuel; that the length of the data is enough is part of
    their theorems (silc_packet_stream_io_total for the packet engine, for any
    input).  Euclid's algorithm in silc_mp_modinv has fuel of its own
    (modinv_fuel, the bits of both numbers and four), which silc_mp_modinv_spec
    shows to be enough.  The searches for primes and for the public exponent are unbounded in
    the code and take fuel as an argument; that some fuel is enough is proved for
    the exponent (silc_rsa_generate_keys_pair), and for primes when there is a
    number within reach that passes the test (silc_math_gen_prime_spec).

    ** What the theorems show

    - Codecs: parsing succeeds exactly on the encodings of well-formed values
      and returns them (Id, Argument, Command, Channel, Notify, SkePayload,
      Auth, BufFmtSpec, Utf8), with the exceptions of the code stated.
    - Packet engine: messages are delivered in order, once and unchanged under
      any fragmentation (silc_packet_delivery); nothing is delivered without a
      right MAC (silc_packet_authentic); processing terminates; processors are
      asked by priority.
    - Cryptography: the modes are inverse, HMAC is RFC 2104, the hash functions
      do not depend on how the data is cut (silc_hash_functions_spec).
    - Messages: what one side encrypts, signs and encodes the other side reads
      and verifies; nothing is decrypted without a right MAC.
    - Key exchange: whatever happens, a side that completes with OK has the
      secret, the key material and the signatures that belong together
      (silc_ske_initiator_authentic, silc_ske_responder_authentic); both ends set matching keys, which is what
      the packet engine's theorems start from (silc_ske_set_keys_match); the key
      material is the protocol's; both sides negotiate the same algorithms; the
      state machine comes to rest after every event (run_fuel = 12 states, the
      longest chain has five).
    - Connection authentication: TRUE only for the configured passphrase or a
      signature by the key found, at most once, without a NULL pointer
      (silc_connauth_responder_authentic); both ends complete with the same
      verdict (silc_connauth_exchange_outcome).
    - Attributes: lists are parsed exactly from what was encoded
      (silc_attribute_payload_parse_iff), what is signed is the encoding of what
      the signature covers (silc_attribute_get_verify_data_covers), and objects
      are given back (silc_attribute_object_roundtrip).
    - Containers: the hash table is a multimap and its traversals end
      (silc_hash_table_multimap, silc_hash_table_traversal), the list a sequence
      with a cursor (silc_list_refines), the ID cache finds exactly the entries
      that are in it (silc_idcache_searches).
    - Client library: no entry is used after it was freed, reference counts are
      right and the lists agree, whatever is done with the entries
      (silc_client_references, silc_client_get_client_by_id_finds).
    - AES is the cipher of FIPS-197 (aes_fips_197), and decryption, with its own
      key schedule, inverts encryption (aes_decrypt_inverts).
    - The scheduler calls each timeout task once, in time and not after it was
      deleted, and uses no task it freed, whatever the callbacks do
      (silc_schedule_runs); a round calls all that is due, up to 41 tasks
      (silc_schedule_dispatch_timeout_calls); it waits until the earliest task
      (silc_schedule_select_timeout_waits); in the end all are freed
      (silc_schedule_uninit_frees).
    - RSA: keys are generated, the operations undo each other
      (silc_rsa_generate_keys_pair); exactly the signatures of full length are
      accepted (silc_pkcs1_verify_no_oid_iff), those made are among them
      (silc_pkcs1_sign_verify_no_oid), and decryption gives back the data unless
      padding left from the stack is zero (silc_pkcs1_encrypt_decrypt).
    - Errors of the code that modelling showed are theorems too: see
      silc_hmac_rfc2104, unformat_OFFSET, silc_status_get_args_id,
      silc_utf8_output_bounds, silc_message_payload_bounds,
      silc_message_payload_parse_frees;
      silc_ske_verification_bypass and silc_ske_second_packet_crash are runs
      of the key exchange; silc_hash_table_replace_loses,
      silc_hash_table_add_ext_lost, silc_dlist_del_turns_round and
      silc_idcache_update_duplicate are runs of the containers; late_wait is
      a run of the scheduler; unlink_not_linked one of the packet processors.

    ** Not modelled

    The irssi client (src/apps) and the client library's handlers, operating
    system interface and threads, UDP and wrapper packet streams, the formats of
    SILC keys and PKCS #1 with hash OIDs, multi-precision arithmetic (vendored), the block functions of Twofish and
    Blowfish, stringprep with its Unicode tables (vendored), descriptor tasks
    and signals of the scheduler, ASN.1, SFTP, MIME and vCard. *)

From stdpp Require Export base tactics list option numbers.
From Stdlib Require Export ZArith Lia ZifyBool.

Open Scope Z_scope.

(** * Lists indexed by Z *)

Abbreviation zlen l := (Z.of_nat (length l)).

Definition ztake {A} (n : Z) (l : list A) : list A := take (Z.to_nat n) l.
Definition zdrop {A} (n : Z) (l : list A) : list A := drop (Z.to_nat n) l.
Definition zrepeat {A} (x : A) (n : Z) : list A := replicate (Z.to_nat n) x.

(** An indeterminate byte: what a read of memory that was never written, or
    that lies outside the object pointed to, gives.  It is not a byte value. *)
Definition indet : Z := -1.

Definition byte_at (l : list Z) (i : Z) : Z := nth (Z.to_nat i) l indet.

(** The bytes a [memcpy] of [n] bytes from the area [l] copies: past the end of
    the area they are indeterminate. *)
Definition mem_read (l : list Z) (n : Z) : list Z :=
  ztake n l ++ zrepeat indet (n - zlen l).

(** * Machine integers *)

Definition u8 (x : Z) : Z := x mod 2 ^ 8.
Definition u16 (x : Z) : Z := x mod 2 ^ 16.
Definition u32 (x : Z) : Z := x mod 2 ^ 32.
Definition u64 (x : Z) : Z := x mod 2 ^ 64.
Definition s32 (x : Z) : Z := (x + 2 ^ 31) mod 2 ^ 32 - 2 ^ 31.

Definition is_byte (x : Z) : Prop := 0 <= x < 256.
Abbreviation bytes_ok := (Forall is_byte).

#[export] Instance is_byte_dec x : Decision (is_byte x).
Proof. unfold is_byte. apply _. Defined.

Create HintDb silc.
Create Rewrite HintDb silc_len.

#[export] Hint Rewrite @length_app @length_take @length_drop @length_replicate
  @length_cons @length_nil : silc_len.

(** Length arithmetic: rewrites the lengths of list expressions and calls
    [lia]. *)
Ltac len :=
  unfold ztake, zdrop, zrepeat in *; autorewrite with silc_len in *;
  simpl length in *; lia.

Lemma u8_id x : 0 <= x < 256 -> u8 x = x.
Proof. intros; apply Z.mod_small; lia. Qed.
Lemma u16_id x : 0 <= x < 65536 -> u16 x = x.
Proof. intros; apply Z.mod_small; lia. Qed.
Lemma u32_id x : 0 <= x < 4294967296 -> u32 x = x.
Proof. intros; apply Z.mod_small; lia. Qed.
Lemma u64_id x : 0 <= x < 2 ^ 64 -> u64 x = x.
Proof. intros; apply Z.mod_small; lia. Qed.
Lemma s32_id x : - 2147483648 <= x < 2147483648 -> s32 x = x.
Proof. intros; unfold s32; rewrite Z.mod_small; lia. Qed.

Lemma u8_range x : 0 <= u8 x < 256.
Proof. apply Z.mod_pos_bound; lia. Qed.
Lemma u16_range x : 0 <= u16 x < 65536.
Proof. apply Z.mod_pos_bound; lia. Qed.
Lemma u32_range x : 0 <= u32 x < 4294967296.
Proof. apply Z.mod_pos_bound; lia. Qed.
Lemma u64_range x : 0 <= u64 x < 2 ^ 64.
Proof. apply Z.mod_pos_bound; lia. Qed.

#[export] Hint Resolve u8_range u16_range u32_range u64_range : silc.

(** [Z.lor] of a shifted part and a part below the shift is a sum. *)
Lemma lor_shiftl_add a b n :
  0 <= n -> 0 <= b < 2 ^ n -> Z.lor (Z.shiftl a n) b = a * 2 ^ n + b.
Proof.
  intros Hn Hb. rewrite Z.shiftl_mul_pow2 by done.
  assert (Z.land (a * 2 ^ n) b = 0) as H0.
  2: { pose proof (Z.add_lor_land (a * 2 ^ n) b). lia. }
  apply Z.bits_inj'; intros i Hi. rewrite Z.land_spec, Z.bits_0.
  destruct (Z.ltb_spec i n).
  - rewrite Z.mul_pow2_bits_low by lia. done.
  - rewrite <- (Z.mod_small b (2 ^ n)) by lia.
    rewrite Z.mod_pow2_bits_high by lia. apply andb_false_r.
Qed.

(** * Lists *)

Section lists.
Context {A : Type}.
Implicit Types l k : list A.

Lemma ztake_app_exact n l k : n = zlen l -> ztake n (l ++ k) = l.
Proof. intros ->. unfold ztake. rewrite Nat2Z.id. by rewrite take_app_length. Qed.

Lemma zdrop_app_exact n l k : n = zlen l -> zdrop n (l ++ k) = k.
Proof. intros ->. unfold zdrop. rewrite Nat2Z.id. by rewrite drop_app_length. Qed.

Lemma ztake_0 l : ztake 0 l = [].
Proof. done. Qed.
Lemma zdrop_0 l : zdrop 0 l = l.
Proof. done. Qed.

Lemma ztake_all n l : zlen l <= n -> ztake n l = l.
Proof. intros. unfold ztake. apply take_ge. lia. Qed.
Lemma zdrop_all n l : zlen l <= n -> zdrop n l = [].
Proof. intros. unfold zdrop. apply drop_ge. lia. Qed.

Lemma zdrop_nil n : zdrop n (@nil A) = [].
Proof. apply drop_nil. Qed.

Lemma ztake_zdrop n l : ztake n l ++ zdrop n l = l.
Proof. apply take_drop. Qed.

Lemma zlen_ztake n l : 0 <= n <= zlen l -> zlen (ztake n l) = n.
Proof. intros; len. Qed.
Lemma zlen_zdrop n l : 0 <= n <= zlen l -> zlen (zdrop n l) = zlen l - n.
Proof. intros; len. Qed.

Lemma zdrop_zdrop n m l :
  0 <= n -> 0 <= m -> zdrop n (zdrop m l) = zdrop (m + n) l.
Proof. intros. unfold zdrop. rewrite drop_drop. f_equal. lia. Qed.

Lemma ztake_app_le n l k : n <= zlen l -> ztake n (l ++ k) = ztake n l.
Proof. intros. unfold ztake. apply take_app_le. lia. Qed.
Lemma zdrop_app_le n l k : n <= zlen l -> zdrop n (l ++ k) = zdrop n l ++ k.
Proof. intros. unfold zdrop. apply drop_app_le. lia. Qed.

Lemma ztake_app_ge n l k : zlen l <= n -> ztake n (l ++ k) = l ++ ztake (n - zlen l) k.
Proof. intros. unfold ztake. rewrite take_app_ge by lia. do 2 f_equal. lia. Qed.
Lemma zdrop_app_ge n l k : zlen l <= n -> zdrop n (l ++ k) = zdrop (n - zlen l) k.
Proof. intros. unfold zdrop. rewrite drop_app_ge by lia. f_equal. lia. Qed.

Lemma zsplit n l : 0 <= n <= zlen l ->
  exists a b, l = a ++ b /\ zlen a = n.
Proof.
  intros. exists (ztake n l), (zdrop n l).
  split; [by rewrite ztake_zdrop|by apply zlen_ztake].
Qed.
End lists.

Lemma mem_read_exact l n : n = zlen l -> mem_read l n = l.
Proof.
  intros ->. unfold mem_read, zrepeat. rewrite ztake_all, Z.sub_diag by lia.
  apply app_nil_r.
Qed.

Lemma zlen_mem_read l n : 0 <= n -> zlen (mem_read l n) = n.
Proof. intros. unfold mem_read. len. Qed.

Lemma mem_read_le l n : 0 <= n <= zlen l -> mem_read l n = ztake n l.
Proof.
  intros. unfold mem_read, zrepeat.
  replace (Z.to_nat (n - zlen l)) with 0%nat by lia. apply app_nil_r.
Qed.

(** A decidable check, for concrete strings. *)
Lemma bytes_ok_check l : forallb (fun x => (0 <=? x) && (x <? 256)) l = true -> bytes_ok l.
Proof.
  intros H. apply List.Forall_forall. intros x Hx. rewrite forallb_forall in H.
  specialize (H x Hx). unfold is_byte. apply andb_true_iff in H as [? ?]. lia.
Qed.

(** A property of all byte values, by evaluation. *)
Lemma byte_forall (P : Z -> bool) :
  forallb P (map Z.of_nat (seq 0 256)) = true -> forall b, is_byte b -> P b = true.
Proof.
  rewrite forallb_forall. intros H b Hb. apply H. apply List.in_map_iff.
  exists (Z.to_nat b). unfold is_byte in Hb. split; [lia|]. apply List.in_seq. lia.
Qed.

(** * Case analysis on Z comparisons in boolean position *)

Ltac zcase :=
  match goal with
  | |- context [?a <? ?b] => destruct (Z.ltb_spec a b)
  | |- context [?a <=? ?b] => destruct (Z.leb_spec a b)
  | |- context [?a =? ?b] => destruct (Z.eqb_spec a b)
  | |- context [?a >? ?b] => rewrite (Z.gtb_ltb a b)
  | |- context [?a >=? ?b] => rewrite (Z.geb_leb a b)
  end.

Lemma byte_at_app_l l k i : 0 <= i < zlen l -> byte_at (l ++ k) i = byte_at l i.
Proof. intros. unfold byte_at. apply app_nth1. lia. Qed.
Lemma byte_at_app_r l k i : zlen l <= i -> byte_at (l ++ k) i = byte_at k (i - zlen l).
Proof. intros. unfold byte_at. rewrite app_nth2 by lia. f_equal. lia. Qed.

Lemma byte_at_split l i : 0 <= i < zlen l -> zdrop i l = byte_at l i :: zdrop (i + 1) l.
Proof.
  intros. unfold zdrop, byte_at. replace (Z.to_nat (i + 1)) with (S (Z.to_nat i)) by lia.
  apply drop_S. destruct (lookup_lt_is_Some_2 l (Z.to_nat i)) as [x Hx]; [lia|].
  rewrite Hx. f_equal. symmetry. by apply nth_lookup_Some.
Qed.

Lemma byte_at_ok l i : bytes_ok l -> 0 <= i < zlen l -> is_byte (byte_at l i).
Proof.
  intros Hl Hi. unfold byte_at. destruct (lookup_lt_is_Some_2 l (Z.to_nat i)) as [x Hx]; [lia|].
  rewrite (nth_lookup_Some l _ _ x) by done. by eapply Forall_lookup_1.
Qed.

Lemma zlen_0_nil {A} (l : list A) : zlen l = 0 -> l = [].
Proof. destruct l; simpl; [done|lia]. Qed.

(** [case_cmps]: every comparison in the goal decided, contradictions closed. *)
Ltac case_cmps := repeat zcase; cbn [andb orb negb]; try (exfalso; lia).

(** The test of a return value against -1. *)
Ltac ret_case :=
  match goal with |- context [?a =? -1] => destruct (Z.eqb_spec a (-1)) end.

(** The head condition of a goal [(if c then _ else _) = _], when arithmetic
    decides it. *)
Ltac if_head :=
  match goal with
  | |- (if ?c then _ else _) = _ =>
      first [ replace c with true by lia | replace c with false by lia ]; cbv iota
  end.
