(* ===== verification/CTypes.v ===== *)
(** The byte-order macros of lib/silcutil/silctypes.h and the allocation guard
    of lib/silcutil/silcmemory.c.

    A [GET] macro is a function of the bytes at [cp]; a [PUT] macro is the list
    of bytes it stores at [cp].  The little endian macros are the portable
    versions (no SILC_I486). *)

From S2P Require Import Prelude.

(** ** silctypes.h *)

Definition SILC_GET16_MSB (cp : list Z) : Z :=
  Z.lor (Z.shiftl (u8 (byte_at cp 0)) 8) (u8 (byte_at cp 1)).

Definition SILC_GET32_MSB (cp : list Z) : Z :=
  Z.lor (Z.lor (Z.lor (u32 (Z.shiftl (u8 (byte_at cp 0)) 24))
                      (Z.shiftl (u8 (byte_at cp 1)) 16))
               (Z.shiftl (u8 (byte_at cp 2)) 8))
        (u8 (byte_at cp 3)).

Definition SILC_GET_WORD (cp : list Z) : Z :=
  Z.lor (Z.lor (Z.lor (Z.shiftl (u8 (byte_at cp 0)) 24)
                      (Z.shiftl (u8 (byte_at cp 1)) 16))
               (Z.shiftl (u8 (byte_at cp 2)) 8))
        (u8 (byte_at cp 3)).

Definition SILC_GET64_MSB (cp : list Z) : Z :=
  Z.lor (u64 (Z.shiftl (SILC_GET_WORD cp) 32)) (SILC_GET_WORD (zdrop 4 cp)).

Definition SILC_GET16_LSB (cp : list Z) : Z :=
  Z.lor (u8 (byte_at cp 0)) (Z.shiftl (u8 (byte_at cp 1)) 8).

Definition SILC_GET32_LSB (cp : list Z) : Z :=
  Z.lor (Z.lor (Z.lor (u8 (byte_at cp 0))
                      (Z.shiftl (u8 (byte_at cp 1)) 8))
               (Z.shiftl (u8 (byte_at cp 2)) 16))
        (u32 (Z.shiftl (u8 (byte_at cp 3)) 24)).

Definition SILC_PUT16_MSB (l : Z) : list Z := [u8 (Z.shiftr l 8); u8 l].

Definition SILC_PUT32_MSB (l : Z) : list Z :=
  [u8 (Z.shiftr l 24); u8 (Z.shiftr l 16); u8 (Z.shiftr l 8); u8 l].

Definition SILC_PUT64_MSB (l : Z) : list Z :=
  SILC_PUT32_MSB (u32 (Z.shiftr (u64 l) 32)) ++ SILC_PUT32_MSB (u32 l).

Definition SILC_PUT16_LSB (l : Z) : list Z := [u8 l; u8 (Z.shiftr l 8)].

Definition SILC_PUT32_LSB (l : Z) : list Z :=
  [u8 l; u8 (Z.shiftr l 8); u8 (Z.shiftr l 16); u8 (Z.shiftr l 24)].

(** ** silcmemory.c

    [silc_malloc], [silc_calloc] and [silc_realloc] refuse a request of zero
    bytes or of [SILC_MAX_ALLOC] bytes and more; any other request is assumed
    to be served by the C library. *)

Definition SILC_MAX_ALLOC : Z := 1024 * 1024 * 1024.

Definition silc_malloc_ok (size : Z) : bool :=
  negb ((size <=? 0) || (SILC_MAX_ALLOC <=? size)).

Definition silc_calloc_ok (items size : Z) : bool :=
  negb ((u64 (size * items) <=? 0) || (SILC_MAX_ALLOC <=? u64 (size * items))).

(** The copy has one more byte, a NUL. *)
Definition silc_memdup (ptr : list Z) (size : Z) : option (list Z) :=
  if silc_malloc_ok (u64 (size + 1)) then Some (mem_read ptr size) else None.

(** ** Big endian reference encoding *)

Fixpoint be_encode (n : nat) (x : Z) : list Z :=
  match n with
  | O => []
  | S k => be_encode k (x / 256) ++ [x mod 256]
  end.

Definition be_decode (l : list Z) : Z := foldl (fun acc b => acc * 256 + b) 0 l.

Lemma be_decode_snoc l b : be_decode (l ++ [b]) = be_decode l * 256 + b.
Proof. unfold be_decode. by rewrite foldl_app. Qed.

Lemma length_be_encode n x : length (be_encode n x) = n.
Proof.
  revert x; induction n as [|n IH]; intros x; [done|].
  simpl. rewrite length_app, IH. simpl. lia.
Qed.

Lemma be_decode_encode n x :
  be_decode (be_encode n x) = x mod 256 ^ (Z.of_nat n).
Proof.
  revert x; induction n as [|n IH]; intros x.
  - simpl. unfold be_decode. simpl. by rewrite Z.mod_1_r.
  - simpl be_encode. rewrite be_decode_snoc, IH.
    rewrite Nat2Z.inj_succ, Z.pow_succ_r by lia.
    pose proof (Z.pow_pos_nonneg 256 (Z.of_nat n)).
    rewrite Z.rem_mul_r by lia. lia.
Qed.

Lemma be_decode_range l :
  bytes_ok l -> 0 <= be_decode l < 256 ^ zlen l.
Proof.
  induction l as [|b l IH] using rev_ind; intros Hb; [by unfold be_decode|].
  rewrite Forall_app, Forall_singleton in Hb. destruct Hb as [Hl Hb].
  rewrite be_decode_snoc, length_app. simpl.
  replace (Z.of_nat (length l + 1)) with (Z.succ (zlen l)) by lia.
  rewrite Z.pow_succ_r by lia. unfold is_byte in Hb. specialize (IH Hl).
  lia.
Qed.

Lemma be_encode_decode l :
  bytes_ok l -> be_encode (length l) (be_decode l) = l.
Proof.
  induction l as [|b l IH] using rev_ind; intros Hb; [done|].
  rewrite Forall_app, Forall_singleton in Hb. destruct Hb as [Hl Hb].
  rewrite be_decode_snoc, length_app. simpl length.
  rewrite Nat.add_1_r. simpl. unfold is_byte in Hb.
  rewrite Z.div_add_l, (Z.div_small b), Z.add_0_r, IH by (done || lia).
  rewrite Z.add_comm, Z_mod_plus_full, Z.mod_small by lia. done.
Qed.

(** ** The macros are the reference encoding *)

Lemma SILC_PUT16_MSB_be x : SILC_PUT16_MSB x = be_encode 2 x.
Proof. unfold SILC_PUT16_MSB, be_encode, u8. by rewrite Z.shiftr_div_pow2. Qed.

Lemma SILC_PUT32_MSB_be x : SILC_PUT32_MSB x = be_encode 4 x.
Proof.
  unfold SILC_PUT32_MSB, be_encode, u8. rewrite !Z.shiftr_div_pow2 by lia.
  rewrite !Z.div_div by lia. done.
Qed.

Lemma be_encode_app n m x :
  be_encode (n + m) x = be_encode n (x / 256 ^ Z.of_nat m) ++ be_encode m x.
Proof.
  revert x; induction m as [|m IH]; intros x.
  - simpl. rewrite Nat.add_0_r, Z.div_1_r, app_nil_r. done.
  - rewrite Nat.add_succ_r. simpl be_encode. rewrite IH, app_assoc.
    pose proof (Z.pow_pos_nonneg 256 (Z.of_nat m)).
    rewrite Nat2Z.inj_succ, Z.pow_succ_r, Z.div_div by lia. done.
Qed.

Lemma be_encode_mod n x : be_encode n (x mod 256 ^ Z.of_nat n) = be_encode n x.
Proof.
  revert x; induction n as [|n IH]; intros x; [done|]. simpl be_encode.
  pose proof (Z.pow_pos_nonneg 256 (Z.of_nat n)).
  rewrite Nat2Z.inj_succ, Z.pow_succ_r by lia.
  rewrite Z.rem_mul_r by lia.
  rewrite (Z.mul_comm 256 _), Z.div_add, Z.div_small, Z.add_0_l, IH
    by (try apply Z.mod_pos_bound; lia).
  rewrite Z_mod_plus_full, Z.mod_mod by lia. done.
Qed.

Lemma SILC_PUT64_MSB_be x : SILC_PUT64_MSB x = be_encode 8 x.
Proof.
  unfold SILC_PUT64_MSB, u32, u64. rewrite !SILC_PUT32_MSB_be.
  rewrite Z.shiftr_div_pow2 by lia.
  change (2 ^ 32) with (256 ^ Z.of_nat 4).
  change (2 ^ 64) with (256 ^ Z.of_nat 8).
  rewrite !be_encode_mod.
  rewrite <- (be_encode_mod 8 x), (be_encode_app 4 4). f_equal.
  rewrite <- (be_encode_mod 4 (x mod _)).
  assert ((x mod 256 ^ Z.of_nat 8) mod 256 ^ Z.of_nat 4 = x mod 256 ^ Z.of_nat 4) as ->.
  { change (256 ^ Z.of_nat 8) with (256 ^ Z.of_nat 4 * 256 ^ Z.of_nat 4).
    rewrite Z.rem_mul_r, (Z.mul_comm _ (_ mod _)), Z_mod_plus_full by lia.
    by rewrite Z.mod_mod by lia. }
  by rewrite be_encode_mod.
Qed.

Ltac get_be :=
  unfold byte_at; simpl nth; rewrite !u8_id by assumption;
  rewrite ?u32_id by (rewrite Z.shiftl_mul_pow2; lia).

Lemma SILC_GET16_MSB_be a b l :
  is_byte a -> is_byte b -> SILC_GET16_MSB (a :: b :: l) = be_decode [a; b].
Proof.
  unfold is_byte, SILC_GET16_MSB. intros. get_be.
  rewrite lor_shiftl_add by lia. unfold be_decode. simpl. lia.
Qed.

Lemma SILC_GET_WORD_be a b c d l :
  is_byte a -> is_byte b -> is_byte c -> is_byte d ->
  SILC_GET_WORD (a :: b :: c :: d :: l) = be_decode [a; b; c; d].
Proof.
  unfold is_byte, SILC_GET_WORD. intros. get_be.
  rewrite <- !Z.lor_assoc.
  rewrite (lor_shiftl_add c d), (lor_shiftl_add b), (lor_shiftl_add a) by lia.
  unfold be_decode. simpl. lia.
Qed.

Lemma SILC_GET32_MSB_be a b c d l :
  is_byte a -> is_byte b -> is_byte c -> is_byte d ->
  SILC_GET32_MSB (a :: b :: c :: d :: l) = be_decode [a; b; c; d].
Proof.
  intros. rewrite <- (SILC_GET_WORD_be a b c d l) by done.
  unfold SILC_GET32_MSB, SILC_GET_WORD, is_byte in *. by get_be.
Qed.

Lemma SILC_GET64_MSB_be a b c d e f g h l :
  Forall is_byte [a; b; c; d; e; f; g; h] ->
  SILC_GET64_MSB (a :: b :: c :: d :: e :: f :: g :: h :: l) =
  be_decode [a; b; c; d; e; f; g; h].
Proof.
  intros H. rewrite !Forall_cons_iff in H. destruct_and! H.
  unfold SILC_GET64_MSB, zdrop. simpl drop.
  rewrite !SILC_GET_WORD_be by done. unfold is_byte in *.
  unfold be_decode. simpl.
  rewrite u64_id by (rewrite Z.shiftl_mul_pow2; lia).
  rewrite lor_shiftl_add by lia. lia.
Qed.

Lemma bytes_ok_PUT16_MSB x : bytes_ok (SILC_PUT16_MSB x).
Proof. repeat constructor; unfold is_byte; apply u8_range. Qed.
Lemma bytes_ok_PUT32_MSB x : bytes_ok (SILC_PUT32_MSB x).
Proof. repeat constructor; unfold is_byte; apply u8_range. Qed.
Lemma bytes_ok_PUT64_MSB x : bytes_ok (SILC_PUT64_MSB x).
Proof. apply Forall_app. split; apply bytes_ok_PUT32_MSB. Qed.
#[export] Hint Resolve bytes_ok_PUT16_MSB bytes_ok_PUT32_MSB bytes_ok_PUT64_MSB : silc.

Lemma SILC_GET16_PUT16_MSB x l : SILC_GET16_MSB (SILC_PUT16_MSB x ++ l) = u16 x.
Proof.
  unfold SILC_PUT16_MSB. simpl app.
  rewrite SILC_GET16_MSB_be by (unfold is_byte; apply u8_range).
  change [u8 (Z.shiftr x 8); u8 x] with (SILC_PUT16_MSB x).
  rewrite SILC_PUT16_MSB_be. apply (be_decode_encode 2).
Qed.

Lemma SILC_GET32_PUT32_MSB x l : SILC_GET32_MSB (SILC_PUT32_MSB x ++ l) = u32 x.
Proof.
  unfold SILC_PUT32_MSB. simpl app.
  rewrite SILC_GET32_MSB_be by (unfold is_byte; apply u8_range).
  change (be_decode (SILC_PUT32_MSB x) = u32 x).
  rewrite SILC_PUT32_MSB_be. apply (be_decode_encode 4).
Qed.

Lemma SILC_GET64_PUT64_MSB x l : SILC_GET64_MSB (SILC_PUT64_MSB x ++ l) = u64 x.
Proof.
  pose proof (bytes_ok_PUT64_MSB x) as H. revert H.
  unfold SILC_PUT64_MSB, SILC_PUT32_MSB. simpl app. intros H.
  rewrite SILC_GET64_MSB_be by done.
  change (be_decode (SILC_PUT64_MSB x) = u64 x).
  rewrite SILC_PUT64_MSB_be. apply (be_decode_encode 8).
Qed.

Lemma length_PUT16_MSB x : length (SILC_PUT16_MSB x) = 2%nat.
Proof. done. Qed.
Lemma length_PUT32_MSB x : length (SILC_PUT32_MSB x) = 4%nat.
Proof. done. Qed.
Lemma length_PUT64_MSB x : length (SILC_PUT64_MSB x) = 8%nat.
Proof. done. Qed.
#[export] Hint Rewrite length_PUT16_MSB length_PUT32_MSB length_PUT64_MSB : silc_len.

Lemma SILC_GET16_MSB_range l : 0 <= SILC_GET16_MSB l < 65536.
Proof.
  unfold SILC_GET16_MSB. pose proof (u8_range (byte_at l 0)).
  pose proof (u8_range (byte_at l 1)). rewrite lor_shiftl_add by lia. lia.
Qed.

Lemma SILC_GET32_MSB_range l : 0 <= SILC_GET32_MSB l < 4294967296.
Proof.
  unfold SILC_GET32_MSB.
  pose proof (u8_range (byte_at l 0)). pose proof (u8_range (byte_at l 1)).
  pose proof (u8_range (byte_at l 2)). pose proof (u8_range (byte_at l 3)).
  rewrite u32_id by (rewrite Z.shiftl_mul_pow2; lia).
  rewrite <- !Z.lor_assoc.
  rewrite (lor_shiftl_add (u8 (byte_at l 2))), (lor_shiftl_add (u8 (byte_at l 1))),
    (lor_shiftl_add (u8 (byte_at l 0))) by lia. lia.
Qed.

#[global] Arguments SILC_PUT16_MSB : simpl never.
#[global] Arguments SILC_PUT32_MSB : simpl never.
#[global] Arguments SILC_PUT64_MSB : simpl never.
#[global] Arguments SILC_GET16_MSB : simpl never.
#[global] Arguments SILC_GET32_MSB : simpl never.
#[global] Arguments SILC_GET64_MSB : simpl never.
#[global] Arguments byte_at : simpl never.
#[global] Arguments u8 : simpl never.
#[global] Arguments u16 : simpl never.
#[global] Arguments u32 : simpl never.
#[global] Arguments u64 : simpl never.
#[global] Arguments s32 : simpl never.
