(* ===== verification/Buffer.v ===== *)
(** lib/silcutil/silcbuffer.h: the SilcBuffer.

    A SilcBuffer is one memory area and four pointers head <= data <= tail <=
    end into it.  The model keeps the three segments the pointers delimit: the
    bytes [head, data), [data, tail) and [tail, end).  Moving a pointer moves
    bytes between two segments; the order of the pointers is thereby built in.
    The functions are those of a build without SILC_DEBUG, where a request that
    does not fit returns NULL and leaves the buffer alone.  The SilcStack
    variants (salloc, srealloc, senlarge, ...) are these functions when the
    stack is NULL. *)

From S2P Require Import Prelude CTypes.

Record SilcBuffer := {
  b_head : list Z;  (** [head, data) *)
  b_data : list Z;  (** [data, tail) *)
  b_tail : list Z;  (** [tail, end) *)
}.

Definition b_area (x : SilcBuffer) : list Z := b_head x ++ b_data x ++ b_tail x.

Definition silc_buffer_truelen (x : SilcBuffer) : Z :=
  u32 (zlen (b_head x) + zlen (b_data x) + zlen (b_tail x)).
Definition silc_buffer_len (x : SilcBuffer) : Z := u32 (zlen (b_data x)).
Definition silc_buffer_headlen (x : SilcBuffer) : Z := u32 (zlen (b_head x)).
Definition silc_buffer_taillen (x : SilcBuffer) : Z := u32 (zlen (b_tail x)).

(** A buffer structure whose four pointers are NULL. *)
Definition buffer_null : SilcBuffer := {| b_head := []; b_data := []; b_tail := [] |}.

Definition silc_buffer_alloc (len : Z) : option SilcBuffer :=
  if len =? 0 then Some buffer_null
  else if silc_calloc_ok len 1
       then Some {| b_head := []; b_data := []; b_tail := zrepeat 0 len |}
       else None.

Definition silc_buffer_steal (sb : SilcBuffer) : list Z * Z * SilcBuffer :=
  (b_area sb, silc_buffer_truelen sb, buffer_null).

Definition silc_buffer_set (data : list Z) : SilcBuffer :=
  {| b_head := []; b_data := data; b_tail := [] |}.

Definition silc_buffer_pull (sb : SilcBuffer) (len : Z) : SilcBuffer :=
  if silc_buffer_len sb <? len then sb
  else {| b_head := b_head sb ++ ztake len (b_data sb);
          b_data := zdrop len (b_data sb);
          b_tail := b_tail sb |}.

Definition silc_buffer_push (sb : SilcBuffer) (len : Z) : SilcBuffer :=
  if zlen (b_head sb) <? len then sb
  else {| b_head := ztake (zlen (b_head sb) - len) (b_head sb);
          b_data := zdrop (zlen (b_head sb) - len) (b_head sb) ++ b_data sb;
          b_tail := b_tail sb |}.

Definition silc_buffer_pull_tail (sb : SilcBuffer) (len : Z) : SilcBuffer :=
  if silc_buffer_taillen sb <? len then sb
  else {| b_head := b_head sb;
          b_data := b_data sb ++ ztake len (b_tail sb);
          b_tail := zdrop len (b_tail sb) |}.

Definition silc_buffer_push_tail (sb : SilcBuffer) (len : Z) : SilcBuffer :=
  if zlen (b_data sb) <? len then sb
  else {| b_head := b_head sb;
          b_data := ztake (zlen (b_data sb) - len) (b_data sb);
          b_tail := zdrop (zlen (b_data sb) - len) (b_data sb) ++ b_tail sb |}.

Definition silc_buffer_put_head (sb : SilcBuffer) (data : list Z) (len : Z) : SilcBuffer :=
  if silc_buffer_headlen sb <? len then sb
  else {| b_head := mem_read data len ++ zdrop len (b_head sb);
          b_data := b_data sb; b_tail := b_tail sb |}.

Definition silc_buffer_put (sb : SilcBuffer) (data : list Z) (len : Z) : SilcBuffer :=
  if silc_buffer_len sb <? len then sb
  else {| b_head := b_head sb;
          b_data := mem_read data len ++ zdrop len (b_data sb);
          b_tail := b_tail sb |}.

Definition silc_buffer_put_tail (sb : SilcBuffer) (data : list Z) (len : Z) : SilcBuffer :=
  if silc_buffer_taillen sb <? len then sb
  else {| b_head := b_head sb; b_data := b_data sb;
          b_tail := mem_read data len ++ zdrop len (b_tail sb) |}.

Definition silc_buffer_alloc_size (len : Z) : option SilcBuffer :=
  match silc_buffer_alloc len with
  | None => None
  | Some sb => Some (silc_buffer_pull_tail sb len)
  end.

Definition silc_buffer_reset (sb : SilcBuffer) : SilcBuffer :=
  {| b_head := []; b_data := []; b_tail := b_area sb |}.

Definition silc_buffer_clear (sb : SilcBuffer) : SilcBuffer :=
  silc_buffer_reset
    {| b_head := zrepeat 0 (zlen (b_head sb)); b_data := zrepeat 0 (zlen (b_data sb));
       b_tail := zrepeat 0 (zlen (b_tail sb)) |}.

Definition silc_buffer_start (sb : SilcBuffer) : SilcBuffer :=
  {| b_head := []; b_data := b_head sb ++ b_data sb; b_tail := b_tail sb |}.

Definition silc_buffer_end (sb : SilcBuffer) : SilcBuffer :=
  {| b_head := b_head sb; b_data := b_data sb ++ b_tail sb; b_tail := [] |}.

Definition silc_buffer_copy (sb : SilcBuffer) : option SilcBuffer :=
  match silc_buffer_alloc_size (silc_buffer_len sb) with
  | None => None
  | Some sb_new => Some (silc_buffer_put sb_new (b_data sb) (silc_buffer_len sb))
  end.

Definition silc_buffer_clone (sb : SilcBuffer) : option SilcBuffer :=
  match silc_buffer_alloc_size (silc_buffer_truelen sb) with
  | None => None
  | Some sb_new =>
      let area := b_area (silc_buffer_put sb_new (b_area sb) (silc_buffer_truelen sb)) in
      let h := silc_buffer_headlen sb in
      let d := silc_buffer_len sb in
      Some {| b_head := ztake h area; b_data := ztake d (zdrop h area);
              b_tail := zdrop d (zdrop h area) |}
  end.

(** The bytes [realloc] adds are indeterminate. *)
Definition silc_buffer_realloc (sb : option SilcBuffer) (newsize : Z) : option SilcBuffer :=
  match sb with
  | None => silc_buffer_alloc newsize
  | Some sb =>
      if newsize <=? silc_buffer_truelen sb then Some sb
      else if silc_malloc_ok newsize
      then Some {| b_head := b_head sb; b_data := b_data sb;
                   b_tail := b_tail sb ++ zrepeat indet (newsize - silc_buffer_truelen sb) |}
      else None
  end.

Definition silc_buffer_realloc_size (sb : option SilcBuffer) (newsize : Z) : option SilcBuffer :=
  match silc_buffer_realloc sb newsize with
  | None => None
  | Some sb => Some (silc_buffer_pull_tail sb (silc_buffer_taillen sb))
  end.

Definition silc_buffer_enlarge (sb : SilcBuffer) (size : Z) : bool * SilcBuffer :=
  if silc_buffer_len sb <? size then
    if u32 (silc_buffer_taillen sb + silc_buffer_len sb) <? size then
      match silc_buffer_realloc (Some sb)
              (u32 (silc_buffer_truelen sb +
                    u32 (size - silc_buffer_taillen sb - silc_buffer_len sb))) with
      | None => (false, sb)
      | Some sb => (true, silc_buffer_pull_tail sb (u32 (size - silc_buffer_len sb)))
      end
    else (true, silc_buffer_pull_tail sb (u32 (size - silc_buffer_len sb)))
  else (true, sb).

(** * The invariant: an area of less than [SILC_MAX_ALLOC] bytes

    Every area the library allocates has it; it implies that no pointer
    difference is truncated by the cast to SilcUInt32. *)

Definition b_size (x : SilcBuffer) : Z :=
  zlen (b_head x) + zlen (b_data x) + zlen (b_tail x).
Definition buf_ok (x : SilcBuffer) : Prop := b_size x < SILC_MAX_ALLOC.

Lemma zlen_b_area x : zlen (b_area x) = b_size x.
Proof. unfold b_area, b_size. len. Qed.

Ltac buf_arith := unfold buf_ok, b_size, SILC_MAX_ALLOC in *; simpl in *; len.

Lemma buffer_len_ok x : buf_ok x -> silc_buffer_len x = zlen (b_data x).
Proof. intros. apply u32_id. buf_arith. Qed.
Lemma buffer_headlen_ok x : buf_ok x -> silc_buffer_headlen x = zlen (b_head x).
Proof. intros. apply u32_id. buf_arith. Qed.
Lemma buffer_taillen_ok x : buf_ok x -> silc_buffer_taillen x = zlen (b_tail x).
Proof. intros. apply u32_id. buf_arith. Qed.
Lemma buffer_truelen_ok x : buf_ok x -> silc_buffer_truelen x = b_size x.
Proof. intros. apply u32_id. buf_arith. Qed.

Lemma silc_malloc_ok_true n : 0 < n < SILC_MAX_ALLOC -> silc_malloc_ok n = true.
Proof. unfold silc_malloc_ok. intros. repeat zcase; simpl; lia. Qed.
Lemma silc_calloc_ok_true n m :
  0 < m * n < SILC_MAX_ALLOC -> silc_calloc_ok n m = true.
Proof.
  unfold silc_calloc_ok, SILC_MAX_ALLOC. intros. rewrite u64_id by lia.
  repeat zcase; simpl; lia.
Qed.

(** * What each operation does on a buffer it fits *)

Lemma buffer_set_ok l : zlen l < SILC_MAX_ALLOC -> buf_ok (silc_buffer_set l).
Proof. buf_arith. Qed.
Lemma buffer_set_len l :
  zlen l < SILC_MAX_ALLOC -> silc_buffer_len (silc_buffer_set l) = zlen l.
Proof. intros. rewrite buffer_len_ok; [done|by apply buffer_set_ok]. Qed.

Lemma buffer_pull_app h d k t n :
  buf_ok {| b_head := h; b_data := d ++ k; b_tail := t |} -> n = zlen d ->
  silc_buffer_pull {| b_head := h; b_data := d ++ k; b_tail := t |} n =
  {| b_head := h ++ d; b_data := k; b_tail := t |}.
Proof.
  intros Hok ->. unfold silc_buffer_pull. rewrite buffer_len_ok by done. simpl.
  zcase; [len|]. by rewrite ztake_app_exact, zdrop_app_exact.
Qed.

Lemma buffer_pull_all h d t n :
  buf_ok {| b_head := h; b_data := d; b_tail := t |} -> n = zlen d ->
  silc_buffer_pull {| b_head := h; b_data := d; b_tail := t |} n =
  {| b_head := h ++ d; b_data := []; b_tail := t |}.
Proof.
  intros Hok Hn. pose proof (buffer_pull_app h d [] t n) as H.
  rewrite app_nil_r in H. by apply H.
Qed.

Lemma buffer_push_app h k d t n :
  n = zlen k ->
  silc_buffer_push {| b_head := h ++ k; b_data := d; b_tail := t |} n =
  {| b_head := h; b_data := k ++ d; b_tail := t |}.
Proof.
  intros ->. unfold silc_buffer_push. simpl. zcase; [len|].
  rewrite ztake_app_exact, zdrop_app_exact by len. done.
Qed.

Lemma buffer_push_0 b : silc_buffer_push b 0 = b.
Proof.
  destruct b as [h d t]. unfold silc_buffer_push. simpl. zcase; [lia|].
  rewrite Z.sub_0_r, ztake_all, zdrop_all by lia. done.
Qed.

Lemma buffer_pull_0 b : silc_buffer_pull b 0 = b.
Proof.
  destruct b as [h d t]. unfold silc_buffer_pull.
  pose proof (u32_range (zlen d)). unfold silc_buffer_len; simpl.
  zcase; [lia|]. rewrite ztake_0, zdrop_0, app_nil_r. done.
Qed.

(** [pull] and [push] are inverse. *)
Lemma buffer_push_pull b n :
  buf_ok b -> 0 <= n <= zlen (b_data b) ->
  silc_buffer_push (silc_buffer_pull b n) n = b.
Proof.
  destruct b as [h d t]; simpl. intros Hok Hn.
  destruct (zsplit n d Hn) as (x & y & -> & <-).
  rewrite buffer_pull_app by done. by apply buffer_push_app.
Qed.

Lemma buffer_pull_ok b n : buf_ok b -> buf_ok (silc_buffer_pull b n).
Proof.
  intros Hok. unfold silc_buffer_pull. zcase; [done|].
  destruct b as [h d t]. unfold ztake, zdrop. buf_arith.
Qed.

Lemma buffer_push_ok b n : 0 <= n -> buf_ok b -> buf_ok (silc_buffer_push b n).
Proof.
  intros Hn Hok. unfold silc_buffer_push. zcase; [done|].
  destruct b as [h d t]. unfold ztake, zdrop. buf_arith.
Qed.

Lemma buffer_alloc_size_ok n :
  0 <= n < SILC_MAX_ALLOC ->
  silc_buffer_alloc_size n =
    Some {| b_head := []; b_data := zrepeat 0 n; b_tail := [] |}.
Proof.
  intros Hn. unfold silc_buffer_alloc_size, silc_buffer_alloc. zcase.
  - subst. unfold silc_buffer_pull_tail. simpl. done.
  - rewrite silc_calloc_ok_true by lia. unfold silc_buffer_pull_tail.
    rewrite buffer_taillen_ok by buf_arith. simpl. zcase; [len|].
    rewrite ztake_all, zdrop_all by len. done.
Qed.

(** * Writing [s] bytes at the data pointer *)

(** The buffer after [x] was written at data and data moved past it: what [x]
    covers of the data and then of the tail segment is overwritten. *)
Definition buf_write (b : SilcBuffer) (x : list Z) : SilcBuffer :=
  {| b_head := b_head b ++ x;
     b_data := zdrop (zlen x) (b_data b);
     b_tail := zdrop (zlen x - zlen (b_data b)) (b_tail b) |}.

(** The area still fits the allocator after a write of [n] bytes. *)
Definition buf_fits (b : SilcBuffer) (n : Z) : Prop :=
  b_size b + Z.max 0 (n - zlen (b_data b) - zlen (b_tail b)) < SILC_MAX_ALLOC.

#[export] Instance buf_fits_dec b n : Decision (buf_fits b n).
Proof. unfold buf_fits. apply _. Defined.

Lemma buf_write_app b x y : buf_write (buf_write b x) y = buf_write b (x ++ y).
Proof.
  destruct b as [h d t]. unfold buf_write, zdrop. simpl.
  rewrite app_assoc, !drop_drop. f_equal.
  - f_equal. len.
  - f_equal. rewrite length_drop. len.
Qed.

Lemma buf_write_nil b : buf_write b [] = b.
Proof.
  destruct b as [h d t]. unfold buf_write, zdrop. simpl.
  rewrite app_nil_r, drop_0. replace (Z.to_nat _) with 0%nat by lia.
  by rewrite drop_0.
Qed.

Lemma buf_write_size b x :
  b_size (buf_write b x) =
  b_size b + Z.max 0 (zlen x - zlen (b_data b) - zlen (b_tail b)).
Proof. destruct b as [h d t]. unfold buf_write, b_size. simpl. len. Qed.

Lemma buf_fits_app_l b (x y : list Z) : buf_fits b (zlen (x ++ y)) -> buf_fits b (zlen x).
Proof. unfold buf_fits. len. Qed.

Lemma buf_fits_app_r b (x y : list Z) :
  buf_fits b (zlen (x ++ y)) -> buf_fits (buf_write b x) (zlen y).
Proof.
  unfold buf_fits. rewrite buf_write_size. unfold buf_write; simpl. len.
Qed.

Lemma buf_fits_ok b n : buf_fits b n -> buf_ok b.
Proof. unfold buf_fits, buf_ok. lia. Qed.

Lemma buf_write_ok b x : buf_fits b (zlen x) -> buf_ok (buf_write b x).
Proof. unfold buf_ok. rewrite buf_write_size. done. Qed.

(** Enlarging to [n] bytes succeeds exactly when the area fits. *)
Lemma buffer_enlarge_fits b n :
  buf_ok b -> 0 <= n < 2 ^ 31 ->
  (silc_buffer_enlarge b n).1 = bool_decide (buf_fits b n).
Proof.
  intros Hok Hn. unfold silc_buffer_enlarge.
  rewrite (u32_id (silc_buffer_taillen b + _));
    rewrite !buffer_len_ok, !buffer_taillen_ok, ?buffer_truelen_ok by done;
    [|buf_arith].
  zcase; [zcase|]; simpl; try (symmetry; apply bool_decide_eq_true; unfold buf_fits; buf_arith).
  unfold silc_buffer_realloc. rewrite buffer_truelen_ok by done.
  rewrite (u32_id (n - _ - _)) by buf_arith.
  rewrite u32_id by buf_arith.
  zcase; [unfold b_size in *; lia|].
  destruct (silc_malloc_ok _) eqn:E; simpl; symmetry;
    [apply bool_decide_eq_true|apply bool_decide_eq_false];
    unfold silc_malloc_ok, buf_fits, b_size in *; revert E; repeat zcase; simpl;
    intros; first [done | lia].
Qed.

(** Put and pull together are [buf_write]. *)
Lemma buffer_put_pull b x n :
  buf_ok b -> 0 <= n <= zlen (b_data b) ->
  silc_buffer_pull (silc_buffer_put b x n) n = buf_write b (mem_read x n).
Proof.
  intros Hok Hn. pose proof (zlen_mem_read x n).
  unfold silc_buffer_put, buf_write. rewrite buffer_len_ok by done.
  zcase; [lia|]. rewrite buffer_pull_app; [|buf_arith|lia].
  rewrite H by lia. f_equal. unfold zdrop.
  replace (Z.to_nat (n - _)) with 0%nat by lia. by rewrite drop_0.
Qed.

(** An enlarged buffer has room, and the same bytes around what is written. *)
Lemma buffer_enlarge_write b n :
  0 <= n -> buf_fits b n ->
  exists b', silc_buffer_enlarge b n = (true, b') /\ buf_ok b' /\
    n <= zlen (b_data b') /\
    forall x, zlen x = n -> buf_write b' x = buf_write b x.
Proof.
  intros Hn Hf. pose proof (buf_fits_ok _ _ Hf) as Hok.
  destruct b as [h d t]. unfold silc_buffer_enlarge.
  rewrite (u32_id (silc_buffer_taillen _ + _));
    rewrite !buffer_len_ok, !buffer_taillen_ok, ?buffer_truelen_ok by done;
    [|buf_arith].
  simpl b_data; simpl b_tail. unfold buf_fits, b_size in Hf; simpl in Hf.
  zcase; [zcase|].
  - unfold silc_buffer_realloc. rewrite buffer_truelen_ok by done.
    rewrite (u32_id (n - _ - _)) by buf_arith.
    rewrite u32_id by buf_arith. unfold b_size; simpl.
    zcase; [lia|]. rewrite silc_malloc_ok_true by lia.
    eexists; split; [done|]. unfold silc_buffer_pull_tail.
    rewrite (buffer_taillen_ok {| b_head := h |}) by buf_arith.
    rewrite buffer_len_ok by buf_arith. simpl b_tail. simpl b_data.
    rewrite u32_id by buf_arith.
    zcase; [len|]. split_and!; [unfold zdrop, ztake; buf_arith|simpl; len|].
    intros x <-. unfold buf_write, zdrop, ztake; simpl.
    f_equal; rewrite !drop_ge by len; done.
  - eexists; split; [done|]. unfold silc_buffer_pull_tail.
    rewrite buffer_taillen_ok by done. simpl.
    rewrite u32_id by buf_arith. zcase; [lia|].
    split_and!; [unfold zdrop, ztake; buf_arith|simpl; len|].
    intros x <-. unfold buf_write; simpl. f_equal.
    + rewrite (zdrop_all _ d) by lia. rewrite zdrop_all; [done|len].
    + unfold zdrop. rewrite drop_drop. f_equal. len.
  - eexists; split; [done|]. done.
Qed.

(** * Moving pointers and writing: what every sequence of operations keeps *)

Inductive BufferOp :=
| OpPull (len : Z) | OpPush (len : Z) | OpPullTail (len : Z) | OpPushTail (len : Z)
| OpStart | OpEnd | OpReset | OpClear
| OpPutHead (x : list Z) (len : Z) | OpPut (x : list Z) (len : Z)
| OpPutTail (x : list Z) (len : Z).

Definition run_op (sb : SilcBuffer) (op : BufferOp) : SilcBuffer :=
  match op with
  | OpPull len => silc_buffer_pull sb len
  | OpPush len => silc_buffer_push sb len
  | OpPullTail len => silc_buffer_pull_tail sb len
  | OpPushTail len => silc_buffer_push_tail sb len
  | OpStart => silc_buffer_start sb
  | OpEnd => silc_buffer_end sb
  | OpReset => silc_buffer_reset sb
  | OpClear => silc_buffer_clear sb
  | OpPutHead x len => silc_buffer_put_head sb x len
  | OpPut x len => silc_buffer_put sb x len
  | OpPutTail x len => silc_buffer_put_tail sb x len
  end.

(** The operations that only move pointers. *)
Definition op_moves (op : BufferOp) : Prop :=
  match op with
  | OpClear | OpPutHead _ _ | OpPut _ _ | OpPutTail _ _ => False
  | _ => True
  end.

(** Lengths are SilcUInt32 values. *)
Definition op_wf (op : BufferOp) : Prop :=
  match op with
  | OpPull n | OpPush n | OpPullTail n | OpPushTail n
  | OpPutHead _ n | OpPut _ n | OpPutTail _ n => 0 <= n
  | _ => True
  end.

Lemma buffer_pull_area b n : b_area (silc_buffer_pull b n) = b_area b.
Proof.
  unfold silc_buffer_pull, b_area. zcase; [done|]. simpl.
  rewrite <- app_assoc, (app_assoc (ztake _ _)), ztake_zdrop. done.
Qed.

Lemma buffer_push_area b n : b_area (silc_buffer_push b n) = b_area b.
Proof.
  unfold silc_buffer_push, b_area. zcase; [done|]. simpl.
  rewrite <- app_assoc, (app_assoc (ztake _ _)), ztake_zdrop. done.
Qed.

Lemma buffer_pull_tail_area b n : b_area (silc_buffer_pull_tail b n) = b_area b.
Proof.
  unfold silc_buffer_pull_tail, b_area. zcase; [done|]. simpl.
  rewrite <- app_assoc, ztake_zdrop. done.
Qed.

Lemma buffer_push_tail_area b n : b_area (silc_buffer_push_tail b n) = b_area b.
Proof.
  unfold silc_buffer_push_tail, b_area. zcase; [done|]. simpl.
  rewrite (app_assoc (ztake _ _)), ztake_zdrop. done.
Qed.

Lemma run_op_area op b : op_moves op -> b_area (run_op b op) = b_area b.
Proof.
  destruct op; simpl; intros; try done; auto using buffer_pull_area, buffer_push_area,
    buffer_pull_tail_area, buffer_push_tail_area;
    unfold b_area; simpl; rewrite ?app_nil_r, <- ?app_assoc; done.
Qed.

Lemma zlen_overwrite (x l : list Z) n :
  0 <= n <= zlen l -> zlen (mem_read x n ++ zdrop n l) = zlen l.
Proof.
  intros. pose proof (zlen_mem_read x n). pose proof (zlen_zdrop n l).
  rewrite length_app. lia.
Qed.

(** A put changes only the segment it writes to. *)
Lemma run_op_size op b : op_wf op -> buf_ok b -> b_size (run_op b op) = b_size b.
Proof.
  intros Hw Hok. destruct op;
    try (rewrite <- !zlen_b_area, run_op_area by done; reflexivity); simpl in *.
  - destruct b as [h d t]. unfold b_size, b_area; cbn. unfold b_area; cbn. len.
  - unfold silc_buffer_put_head. rewrite buffer_headlen_ok by done. zcase; [done|].
    unfold b_size; simpl. rewrite zlen_overwrite by lia. done.
  - unfold silc_buffer_put. rewrite buffer_len_ok by done. zcase; [done|].
    unfold b_size; simpl. rewrite zlen_overwrite by lia. done.
  - unfold silc_buffer_put_tail. rewrite buffer_taillen_ok by done. zcase; [done|].
    unfold b_size; simpl. rewrite zlen_overwrite by lia. done.
Qed.

Lemma run_ops_size ops b :
  Forall op_wf ops -> buf_ok b ->
  buf_ok (foldl run_op b ops) /\ b_size (foldl run_op b ops) = b_size b.
Proof.
  revert b; induction ops as [|op ops IH]; intros b Hw Hok; simpl; [done|].
  apply Forall_cons_iff in Hw as [Hw1 Hw]. pose proof (run_op_size op b Hw1 Hok) as E.
  destruct (IH (run_op b op) Hw) as [? ->]; [unfold buf_ok in *; by rewrite E|done].
Qed.

Lemma run_ops_area ops b :
  Forall op_moves ops -> b_area (foldl run_op b ops) = b_area b.
Proof.
  revert b; induction ops as [|op ops IH]; intros b Hm; simpl; [done|].
  apply Forall_cons_iff in Hm as [Hm1 Hm]. by rewrite IH, run_op_area.
Qed.

(** * Properties *)

(** No sequence of buffer operations, in range or out of range, makes the
    area grow or shrink, so the pointers stay inside it; and a sequence that
    only moves pointers changes no byte of the area. *)
Theorem buffer_ops_keep_area ops b :
  Forall op_wf ops -> buf_ok b ->
  buf_ok (foldl run_op b ops) /\
  zlen (b_area (foldl run_op b ops)) = zlen (b_area b) /\
  (Forall op_moves ops -> b_area (foldl run_op b ops) = b_area b).
Proof.
  intros Hw Hok. destruct (run_ops_size ops b Hw Hok) as [? E].
  split_and!; [done|by rewrite !zlen_b_area|apply run_ops_area].
Qed.

Definition witness_buf : SilcBuffer :=
  {| b_head := [1; 2]; b_data := [3; 4; 5]; b_tail := [6] |}.
Definition witness_ops : list BufferOp := [OpPull 2; OpPush 9; OpPush 3; OpPullTail 1; OpStart].

Lemma buffer_ops_keep_area_witness :
  b_area (foldl run_op witness_buf witness_ops) = [1; 2; 3; 4; 5; 6].
Proof.
  destruct (buffer_ops_keep_area witness_ops witness_buf) as (_ & _ & H).
  - repeat constructor; simpl; lia.
  - vm_compute; reflexivity.
  - rewrite H; [vm_compute; reflexivity|repeat constructor].
Defined.

(** silc_buffer_copy returns a new buffer with exactly the data area, and
    silc_buffer_clone one with the same bytes and the same pointers. *)
Theorem buffer_copy_clone b :
  buf_ok b ->
  silc_buffer_copy b = Some (silc_buffer_set (b_data b)) /\
  silc_buffer_clone b = Some b.
Proof.
  intros Hok. assert (b_size b < SILC_MAX_ALLOC) as Hs by done.
  unfold silc_buffer_copy, silc_buffer_clone.
  rewrite buffer_len_ok, buffer_headlen_ok, buffer_truelen_ok by done.
  rewrite !buffer_alloc_size_ok by (unfold b_size in *; lia).
  unfold silc_buffer_put. rewrite !buffer_len_ok by buf_arith. cbn [b_data].
  assert (forall x n, 0 <= n -> zlen x = n ->
    mem_read x n ++ zdrop n (zrepeat 0 n) = x) as Hput.
  { intros x n ? Hx. rewrite mem_read_exact, (zdrop_all n), app_nil_r by (len || done). done. }
  split.
  - case_cmps; [len|]. rewrite Hput by lia. done.
  - pose proof (zlen_b_area b). zcase; [len|].
    rewrite Hput by (unfold b_size in *; lia). cbn [b_head b_tail].
    replace (b_area {| b_head := []; b_data := b_area b; b_tail := [] |}) with (b_area b)
      by (symmetry; apply app_nil_r).
    unfold b_area.
    rewrite (ztake_app_exact _ (b_head b)), !(zdrop_app_exact _ (b_head b)) by done.
    rewrite ztake_app_exact, zdrop_app_exact by done.
    by destruct b.
Qed.

Lemma buffer_copy_clone_witness :
  silc_buffer_copy witness_buf = Some (silc_buffer_set [3; 4; 5]) /\
  silc_buffer_clone witness_buf = Some witness_buf.
Proof. apply (buffer_copy_clone witness_buf). vm_compute; reflexivity. Defined.
