(* ===== verification/BufFmt.v ===== *)
(** lib/silcutil/silcbuffmt.c: formatting data into, and unformatting data out
    of, a SilcBuffer.

    The variable arguments are a list of parameters that ends where
    SILC_PARAM_END stands.  The parameter types the two switches treat alike
    share a constructor.  [silc_buffer_format] and [silc_buffer_unformat] are
    silc_buffer_sformat_vp and silc_buffer_sunformat_vp with a NULL stack. *)

From S2P Require Import Prelude CTypes Buffer.

Inductive StrWidth := W8 | W16 | W32.

(** * Formatting *)

Inductive FormatParam :=
  (** SILC_PARAM_FUNC: the callback gives tmp_len and the buffer it leaves *)
| F_FUNC (func : SilcBuffer -> Z * SilcBuffer)
  (** SILC_PARAM_UI*_STRING(_ALLOC): NULL, or the characters before the NUL *)
| F_STRING (x : option (list Z))
  (** SILC_PARAM_UI*_NSTRING(_ALLOC), UI_XNSTRING(_ALLOC), DATA(_ALLOC) *)
| F_DATA (x : option (list Z)) (len : Z)
| F_UI8_CHAR (x : Z)
| F_UI16_SHORT (x : Z)
| F_UI32_INT (x : Z)
| F_UI64_INT (x : Z)
| F_SI8_CHAR (x : Z)
| F_SI16_SHORT (x : Z)
| F_SI32_INT (x : Z)
| F_SI64_INT (x : Z)
| F_BUFFER (x : option SilcBuffer)
| F_OFFSET (offst : Z)
| F_ADVANCE.

Record FormatState := { fs_dst : SilcBuffer; fs_flen : Z; fs_advance : bool }.

(** FORMAT_HAS_SPACE(NULL, b, req): enlarge, and count the bytes in flen. *)
Definition FORMAT_HAS_SPACE (st : FormatState) (req : Z) : bool * FormatState :=
  match silc_buffer_enlarge (fs_dst st) req with
  | (false, dst) =>
      (false, {| fs_dst := dst; fs_flen := fs_flen st; fs_advance := fs_advance st |})
  | (true, dst) =>
      (true, {| fs_dst := dst; fs_flen := s32 (fs_flen st + req);
                fs_advance := fs_advance st |})
  end.

(** silc_buffer_put followed by silc_buffer_pull. *)
Definition format_put_pull (st : FormatState) (x : list Z) (n : Z) : FormatState :=
  {| fs_dst := silc_buffer_pull (silc_buffer_put (fs_dst st) x n) n;
     fs_flen := fs_flen st; fs_advance := fs_advance st |}.

Definition format_data (st : FormatState) (x : list Z) (n : Z) : bool * FormatState :=
  match FORMAT_HAS_SPACE st n with
  | (false, st) => (false, st)
  | (true, st) => (true, format_put_pull st x n)
  end.

Definition fs_set_dst (st : FormatState) (dst : SilcBuffer) (flen : Z) : FormatState :=
  {| fs_dst := dst; fs_flen := flen; fs_advance := fs_advance st |}.

(** One round of the loop; [false] is [goto fail]. *)
Definition format_step (st : FormatState) (fmt : FormatParam) : bool * FormatState :=
  match fmt with
  | F_FUNC func =>
      let '(tmp_len, dst) := func (fs_dst st) in
      if tmp_len <? 0 then (false, fs_set_dst st dst (fs_flen st))
      else if tmp_len =? 0 then (true, fs_set_dst st dst (fs_flen st))
      else (true, fs_set_dst st (silc_buffer_pull dst tmp_len)
                             (s32 (fs_flen st + tmp_len)))
  | F_STRING x =>
      let tmp_len := match x with Some s => u32 (zlen s) | None => 0 end in
      match x with
      | Some s => if tmp_len =? 0 then (true, st) else format_data st s tmp_len
      | None => (true, st)
      end
  | F_DATA x tmp_len =>
      match x with
      | Some s => if tmp_len =? 0 then (true, st) else format_data st s tmp_len
      | None => (true, st)
      end
  | F_UI8_CHAR x => format_data st [u8 x] 1
  | F_UI16_SHORT x => format_data st (SILC_PUT16_MSB (u16 x)) 2
  | F_UI32_INT x => format_data st (SILC_PUT32_MSB x) 4
  | F_UI64_INT x => format_data st (SILC_PUT64_MSB x) 8
  | F_SI8_CHAR x => format_data st [u8 x] 1
  | F_SI16_SHORT x => format_data st (SILC_PUT16_MSB x) 2
  | F_SI32_INT x => format_data st (SILC_PUT32_MSB x) 4
  | F_SI64_INT x => format_data st (SILC_PUT64_MSB x) 8
  | F_BUFFER x =>
      match x with
      | Some x =>
          if silc_buffer_len x =? 0 then (true, st)
          else match FORMAT_HAS_SPACE st (u32 (silc_buffer_len x + 4)) with
               | (false, st) => (false, st)
               | (true, st) =>
                   let st := format_put_pull st (SILC_PUT32_MSB (silc_buffer_len x)) 4 in
                   (true, format_put_pull st (b_data x) (silc_buffer_len x))
               end
      | None => (true, st)
      end
  | F_OFFSET offst =>
      if offst =? 0 then (true, st)
      else if 1 <? offst then
        if silc_buffer_len (fs_dst st) <? offst then (false, st)
        else (true, fs_set_dst st (silc_buffer_pull (fs_dst st) offst)
                               (s32 (fs_flen st + offst)))
      else
        if s32 (silc_buffer_headlen (fs_dst st)) <? - offst then (false, st)
        else (true, fs_set_dst st (silc_buffer_push (fs_dst st) (u32 (- offst)))
                               (s32 (fs_flen st + - offst)))
  | F_ADVANCE =>
      (true, {| fs_dst := fs_dst st; fs_flen := fs_flen st; fs_advance := true |})
  end.

Fixpoint format_loop (st : FormatState) (ap : list FormatParam) : bool * FormatState :=
  match ap with
  | [] => (true, st)
  | fmt :: ap =>
      match format_step st fmt with
      | (true, st) => format_loop st ap
      | (false, st) => (false, st)
      end
  end.

(** Gives the return value and the buffer. *)
Definition silc_buffer_format (dst : SilcBuffer) (ap : list FormatParam) : Z * SilcBuffer :=
  let '(ok, st) := format_loop {| fs_dst := dst; fs_flen := 0; fs_advance := false |} ap in
  let dst := if fs_advance st then fs_dst st
             else silc_buffer_push (fs_dst st) (u32 (fs_flen st)) in
  ((if ok then fs_flen st else -1), dst).

(** * Unformatting *)

(** A destination pointer is [true] when it is not NULL. *)
Inductive UnformatOut :=
| ONum (x : Z)
| OPtr (x : option (list Z))  (** [None]: NULL, or the destination was not assigned *)
| OBuf (x : SilcBuffer).

Inductive UnformatParam :=
  (** SILC_PARAM_FUNC: its case has no break and runs into the case of
      SILC_PARAM_UI_XNSTRING, which takes the next two arguments *)
| U_FUNC (func : SilcBuffer -> Z * SilcBuffer * list UnformatOut) (x : bool) (len2 : Z)
| U_DATA (x : bool) (len2 : Z)        (** UI_XNSTRING, DATA *)
| U_DATA_ALLOC (x : bool) (len2 : Z)  (** UI_XNSTRING_ALLOC, DATA_ALLOC *)
| U_UI8_CHAR (x : bool)
| U_UI16_SHORT (x : bool)
| U_UI32_INT (x : bool)
| U_UI64_INT (x : bool)
| U_SI8_CHAR (x : bool)
| U_SI16_SHORT (x : bool)
| U_SI32_INT (x : bool)
| U_SI64_INT (x : bool)
| U_STRING (w : StrWidth) (x : bool)
| U_STRING_ALLOC (w : StrWidth) (x : bool)
| U_NSTRING (w : StrWidth) (x len3 : bool)
| U_NSTRING_ALLOC (w : StrWidth) (x len3 : bool)
| U_BUFFER
| U_BUFFER_ALLOC (x : SilcBuffer)
| U_OFFSET (offst : Z)
| U_ADVANCE.

Record UnformatState := {
  us_src : SilcBuffer;
  us_advance : bool;
  us_out : list UnformatOut;
}.

Definition UNFORMAT_HAS_SPACE (b : SilcBuffer) (req : Z) : bool :=
  negb (silc_buffer_len b <? req) && negb (u32 (req + 1) <=? 0).

Definition us_step (st : UnformatState) (src : SilcBuffer) (out : list UnformatOut)
  : bool * UnformatState :=
  (true, {| us_src := src; us_advance := us_advance st; us_out := us_out st ++ out |}).

Definition onum (x : bool) (n : Z) : list UnformatOut := if x then [ONum n] else [].

(** [*x = src->data] *)
Definition optr (x : bool) (p : option (list Z)) : list UnformatOut :=
  if x then [OPtr p] else [].

(** silc_scalloc(NULL, len2 + 1, 1) and memcpy *)
Definition unformat_dup (src : SilcBuffer) (len2 : Z) : option (list Z) :=
  if silc_calloc_ok (u32 (len2 + 1)) 1 then Some (mem_read (b_data src) len2) else None.

Definition s16 (x : Z) : Z := (x + 2 ^ 15) mod 2 ^ 16 - 2 ^ 15.
Definition s8 (x : Z) : Z := (x + 2 ^ 7) mod 2 ^ 8 - 2 ^ 7.
Definition s64 (x : Z) : Z := (x + 2 ^ 63) mod 2 ^ 64 - 2 ^ 63.

(** The integer cases: check, read, pull. *)
Definition unformat_num (st : UnformatState) (x : bool) (n : Z) (get : list Z -> Z)
  : bool * UnformatState :=
  let src := us_src st in
  if UNFORMAT_HAS_SPACE src n
  then us_step st (silc_buffer_pull src n) (onum x (get (b_data src)))
  else (false, st).

Definition width_bytes (w : StrWidth) : Z :=
  match w with W8 => 1 | W16 => 2 | W32 => 4 end.

Definition width_get (w : StrWidth) (d : list Z) : Z :=
  match w with
  | W8 => u8 (byte_at d 0)
  | W16 => SILC_GET16_MSB d
  | W32 => SILC_GET32_MSB d
  end.

(** The cases with a length prefix: check and read the prefix, pull it, check
    that the data is there, hand it to [k], pull it. *)
Definition unformat_prefixed (st : UnformatState) (w : StrWidth)
    (k : SilcBuffer -> Z -> option (list UnformatOut)) : bool * UnformatState :=
  let src := us_src st in
  if UNFORMAT_HAS_SPACE src (width_bytes w) then
    let len2 := width_get w (b_data src) in
    let src := silc_buffer_pull src (width_bytes w) in
    let st' := {| us_src := src; us_advance := us_advance st; us_out := us_out st |} in
    if UNFORMAT_HAS_SPACE src len2 then
      match k src len2 with
      | Some out => us_step st' (silc_buffer_pull src len2) out
      | None => (false, st')
      end
    else (false, st')
  else (false, st).

(** Case SILC_PARAM_UI_XNSTRING. *)
Definition unformat_xnstring (st : UnformatState) (x : bool) (len2 : Z)
  : bool * UnformatState :=
  let src := us_src st in
  if UNFORMAT_HAS_SPACE src len2 then
    us_step st (silc_buffer_pull src len2)
      (optr x (if len2 =? 0 then None else Some (mem_read (b_data src) len2)))
  else (false, st).

Definition unformat_step (st : UnformatState) (fmt : UnformatParam) : bool * UnformatState :=
  let src := us_src st in
  match fmt with
  | U_FUNC func x len2 =>
      let '(tmp_len, src, out) := func src in
      let st := {| us_src := src; us_advance := us_advance st; us_out := us_out st ++ out |} in
      if tmp_len <? 0 then (false, st)
      else if tmp_len =? 0 then unformat_xnstring st x len2
      else if UNFORMAT_HAS_SPACE src tmp_len then
        unformat_xnstring
          {| us_src := silc_buffer_pull src tmp_len; us_advance := us_advance st;
             us_out := us_out st |} x len2
      else (false, st)
  | U_DATA x len2 => unformat_xnstring st x len2
  | U_DATA_ALLOC x len2 =>
      if UNFORMAT_HAS_SPACE src len2 then
        us_step st (silc_buffer_pull src len2)
          (optr x (if len2 =? 0 then None else unformat_dup src len2))
      else (false, st)
  | U_UI8_CHAR x => unformat_num st x 1 (fun d => byte_at d 0)
  | U_UI16_SHORT x => unformat_num st x 2 SILC_GET16_MSB
  | U_UI32_INT x => unformat_num st x 4 SILC_GET32_MSB
  | U_UI64_INT x => unformat_num st x 8 SILC_GET64_MSB
  | U_SI8_CHAR x => unformat_num st x 1 (fun d => s8 (byte_at d 0))
  | U_SI16_SHORT x => unformat_num st x 2 (fun d => s16 (SILC_GET16_MSB d))
  | U_SI32_INT x => unformat_num st x 4 (fun d => s32 (SILC_GET32_MSB d))
  | U_SI64_INT x => unformat_num st x 8 (fun d => s64 (SILC_GET64_MSB d))
  | U_STRING w x =>
      unformat_prefixed st w (fun src len2 =>
        Some (optr x (Some (mem_read (b_data src) len2))))
  | U_STRING_ALLOC w x =>
      unformat_prefixed st w (fun src len2 =>
        Some (optr x (if len2 =? 0 then None else unformat_dup src len2)))
  | U_NSTRING w x len3 =>
      unformat_prefixed st w (fun src len2 =>
        Some (onum len3 len2 ++ optr x (Some (mem_read (b_data src) len2))))
  | U_NSTRING_ALLOC w x len3 =>
      match w with
      | W32 => (false, st)  (* no such case in the switch: default *)
      | _ =>
          unformat_prefixed st w (fun src len2 =>
            Some (onum len3 len2 ++
                  optr x (if len2 =? 0 then None else unformat_dup src len2)))
      end
  | U_BUFFER =>
      unformat_prefixed st W32 (fun src len2 =>
        Some [OBuf (silc_buffer_set (mem_read (b_data src) len2))])
  | U_BUFFER_ALLOC x =>
      unformat_prefixed st W32 (fun src len2 =>
        match silc_buffer_format x [F_DATA (Some (b_data src)) len2] with
        | (ret, x) => if ret <? 0 then None else Some [OBuf x]
        end)
  | U_OFFSET offst =>
      if offst =? 0 then (true, st)
      else if 1 <? offst then
        if UNFORMAT_HAS_SPACE src offst then us_step st (silc_buffer_pull src offst) []
        else (false, st)
      else us_step st (silc_buffer_push src (u32 (- offst))) []
  | U_ADVANCE =>
      (true, {| us_src := src; us_advance := true; us_out := us_out st |})
  end.

Fixpoint unformat_loop (st : UnformatState) (ap : list UnformatParam)
  : bool * UnformatState :=
  match ap with
  | [] => (true, st)
  | fmt :: ap =>
      match unformat_step st fmt with
      | (true, st) => unformat_loop st ap
      | (false, st) => (false, st)
      end
  end.

(** Gives the return value, what was stored through the destination pointers
    (in order), and the buffer. *)
Definition silc_buffer_unformat (src : SilcBuffer) (ap : list UnformatParam)
  : Z * list UnformatOut * SilcBuffer :=
  let start_ptr := zlen (b_head src) in
  let '(ok, st) := unformat_loop {| us_src := src; us_advance := false; us_out := [] |} ap in
  let len := s32 (zlen (b_head (us_src st)) - start_ptr) in
  if ok then
    if us_advance st then (0, us_out st, us_src st)
    else (len, us_out st, silc_buffer_push (us_src st) (u32 len))
  else (-1, us_out st, silc_buffer_push (us_src st) (u32 len)).

(** What a destination holds after a call: numbers and pointers start as zero
    and NULL, as in the structures silc_calloc returns. *)
Definition out_num (out : list UnformatOut) (i : nat) : Z :=
  match nth_error out i with Some (ONum x) => x | _ => 0 end.
Definition out_ptr (out : list UnformatOut) (i : nat) : option (list Z) :=
  match nth_error out i with Some (OPtr x) => x | _ => None end.

(** The bytes behind a pointer; NULL has none. *)
Definition ptr_bytes (p : option (list Z)) : list Z :=
  match p with Some l => l | None => [] end.
