(* ===== verification/BufFmtSpec.v ===== *)
(** What silc_buffer_format and silc_buffer_unformat promise their callers.

    [fmt_bytes] and [parse] are the abstract codec: the bytes a parameter list
    writes, and the values a parameter list reads from a byte string.  The
    refinement theorems say that the code computes them on the data segment of
    the buffer and puts the data pointer back.  The payload codecs are verified
    against this interface only. *)

From S2P Require Import Prelude CTypes Buffer BufFmt.

(** * Formatting *)

(** The bytes a parameter writes. *)
Definition fmt_bytes1 (f : FormatParam) : list Z :=
  match f with
  | F_FUNC _ | F_OFFSET _ | F_ADVANCE => []
  | F_STRING x => match x with Some s => s | None => [] end
  | F_DATA x n => match x with Some s => mem_read s n | None => [] end
  | F_UI8_CHAR x | F_SI8_CHAR x => [u8 x]
  | F_UI16_SHORT x => SILC_PUT16_MSB (u16 x)
  | F_SI16_SHORT x => SILC_PUT16_MSB x
  | F_UI32_INT x | F_SI32_INT x => SILC_PUT32_MSB x
  | F_UI64_INT x | F_SI64_INT x => SILC_PUT64_MSB x
  | F_BUFFER x =>
      match x with
      | Some x => if zlen (b_data x) =? 0 then []
                  else SILC_PUT32_MSB (zlen (b_data x)) ++ b_data x
      | None => []
      end
  end.

Definition fmt_bytes (ap : list FormatParam) : list Z := concat (map fmt_bytes1 ap).

(** Parameters that only write data; lengths are SilcUInt32 values. *)
Definition fmt_plain (f : FormatParam) : Prop :=
  match f with
  | F_FUNC _ | F_OFFSET _ | F_ADVANCE => False
  | F_STRING (Some s) => zlen s < SILC_MAX_ALLOC
  | F_DATA _ n => 0 <= n
  | F_BUFFER (Some x) => buf_ok x
  | _ => True
  end.

Section format.
Implicit Types st : FormatState.

Definition st_write st (x : list Z) : FormatState :=
  {| fs_dst := buf_write (fs_dst st) x; fs_flen := fs_flen st + zlen x;
     fs_advance := fs_advance st |}.

(** flen counts the bytes written and does not overflow. *)
Definition st_room st (n : Z) : Prop :=
  0 <= fs_flen st /\ fs_flen st + n < 2 ^ 31.

Lemma FORMAT_HAS_SPACE_ok st n :
  0 <= n -> buf_fits (fs_dst st) n -> st_room st n ->
  exists dst', FORMAT_HAS_SPACE st n =
      (true, {| fs_dst := dst'; fs_flen := fs_flen st + n;
                fs_advance := fs_advance st |}) /\
    buf_ok dst' /\ n <= zlen (b_data dst') /\
    forall x, zlen x = n -> buf_write dst' x = buf_write (fs_dst st) x.
Proof.
  intros Hn Hf [? ?]. unfold FORMAT_HAS_SPACE.
  destruct (buffer_enlarge_write _ _ Hn Hf) as (b' & -> & ? & ? & ?).
  exists b'. rewrite s32_id by lia. done.
Qed.

Lemma format_data_ok st x n :
  0 <= n -> buf_fits (fs_dst st) n -> st_room st n ->
  format_data st x n = (true, st_write st (mem_read x n)).
Proof.
  intros Hn Hf Hr. unfold format_data.
  destruct (FORMAT_HAS_SPACE_ok st n Hn Hf Hr) as (b' & -> & Hok & Hle & Hw).
  unfold format_put_pull; simpl. rewrite buffer_put_pull by (done || lia).
  rewrite Hw by (by apply zlen_mem_read). unfold st_write.
  by rewrite zlen_mem_read.
Qed.

Lemma format_data_exact st x n :
  n = zlen x -> buf_fits (fs_dst st) (zlen x) -> st_room st (zlen x) ->
  format_data st x n = (true, st_write st x).
Proof.
  intros -> Hf Hr. rewrite format_data_ok by (done || lia).
  by rewrite mem_read_exact.
Qed.

Lemma format_data_fail st x n :
  0 <= n < 2 ^ 31 -> buf_ok (fs_dst st) -> ~ buf_fits (fs_dst st) n ->
  exists st', format_data st x n = (false, st') /\
    b_head (fs_dst st') = b_head (fs_dst st) /\
    fs_flen st' = fs_flen st /\ fs_advance st' = fs_advance st.
Proof.
  intros Hn Hok Hf. unfold format_data, FORMAT_HAS_SPACE.
  pose proof (buffer_enlarge_fits _ _ Hok Hn) as He.
  rewrite bool_decide_eq_false_2 in He by done.
  destruct (silc_buffer_enlarge _ _) as [ok b'] eqn:E; simpl in He; subst ok.
  eexists; split; [done|]. simpl. split_and!; try done.
  revert E. unfold silc_buffer_enlarge. repeat case_match; intros; by simplify_eq.
Qed.

Lemma st_write_nil st : st_write st [] = st.
Proof. destruct st. unfold st_write; simpl. by rewrite buf_write_nil, Z.add_0_r. Qed.

Lemma st_write_app st x y : st_write (st_write st x) y = st_write st (x ++ y).
Proof.
  unfold st_write; simpl. rewrite buf_write_app. f_equal. len.
Qed.

Lemma format_step_plain st f :
  fmt_plain f -> buf_fits (fs_dst st) (zlen (fmt_bytes1 f)) ->
  st_room st (zlen (fmt_bytes1 f)) ->
  format_step st f = (true, st_write st (fmt_bytes1 f)).
Proof.
  destruct f as [|x|x n|x|x|x|x|x|x|x|x|x|x|]; simpl; intros Hp Hf Hr; try done;
    try (apply format_data_exact; [reflexivity|exact Hf|exact Hr]).
  - destruct x as [s|]; [|by rewrite st_write_nil].
    rewrite u32_id by (unfold SILC_MAX_ALLOC in *; lia). zcase.
    + destruct s; [by rewrite st_write_nil|done].
    + rewrite format_data_ok by (done || lia). by rewrite mem_read_exact.
  - destruct x as [s|]; [|by rewrite st_write_nil]. zcase.
    + subst. unfold mem_read, zrepeat. rewrite ztake_0.
      replace (Z.to_nat _) with 0%nat by lia. by rewrite st_write_nil.
    + rewrite zlen_mem_read in * by done. by apply format_data_ok.
  - destruct x as [x|]; [|by rewrite st_write_nil]. rewrite buffer_len_ok by done.
    revert Hf Hr. destruct (Z.eqb_spec (zlen (b_data x)) 0) as [|Hne];
      intros Hf Hr; [by rewrite st_write_nil|].
    set (n := zlen (b_data x)) in *. set (p := SILC_PUT32_MSB n).
    change (_ :: _ :: _ :: _ :: b_data x) with (p ++ b_data x) in *.
    assert (zlen (p ++ b_data x) = n + 4) as Hlen by (unfold p, n; len).
    assert (n < SILC_MAX_ALLOC) by (unfold n; buf_arith).
    rewrite Hlen in Hf, Hr. unfold SILC_MAX_ALLOC in *. rewrite u32_id by lia.
    destruct (FORMAT_HAS_SPACE_ok st (n + 4)) as (b' & -> & Hok & Hle & Hw);
      [lia|done|done|].
    unfold format_put_pull; cbn [fs_dst fs_flen fs_advance].
    rewrite (buffer_put_pull b' p 4) by (done || lia).
    rewrite (mem_read_exact p 4) by done.
    rewrite buffer_put_pull.
    + rewrite mem_read_exact, buf_write_app, Hw by done.
      unfold st_write. by rewrite Hlen.
    + apply buf_write_ok. unfold buf_fits. revert Hok Hle. unfold p. buf_arith.
    + unfold p; simpl. unfold zdrop. len.
Qed.

Lemma format_loop_plain ap st :
  Forall fmt_plain ap -> buf_fits (fs_dst st) (zlen (fmt_bytes ap)) ->
  st_room st (zlen (fmt_bytes ap)) ->
  format_loop st ap = (true, st_write st (fmt_bytes ap)).
Proof.
  revert st; induction ap as [|f ap IH]; intros st Hp Hf Hr; simpl.
  { by rewrite st_write_nil. }
  apply Forall_cons_iff in Hp as [Hp1 Hp]. unfold fmt_bytes in *; simpl in *.
  rewrite format_step_plain; [|done|by eapply buf_fits_app_l|].
  2: { unfold st_room in *. len. }
  rewrite IH; [by rewrite st_write_app|done|by apply buf_fits_app_r|].
  unfold st_room in *; simpl. len.
Qed.
End format.

(** The contract of silc_buffer_format on parameters that write data: what is
    written starts at the data pointer, what lies behind it survives, and the
    data pointer comes back. *)
Lemma format_plain b ap :
  Forall fmt_plain ap -> buf_fits b (zlen (fmt_bytes ap)) ->
  zlen (fmt_bytes ap) < SILC_MAX_ALLOC ->
  silc_buffer_format b ap =
    (zlen (fmt_bytes ap),
     {| b_head := b_head b;
        b_data := fmt_bytes ap ++ zdrop (zlen (fmt_bytes ap)) (b_data b);
        b_tail := zdrop (zlen (fmt_bytes ap) - zlen (b_data b)) (b_tail b) |}).
Proof.
  intros Hp Hf Hlt. unfold silc_buffer_format, SILC_MAX_ALLOC in *.
  rewrite format_loop_plain; simpl; [|done|done|unfold st_room; simpl; lia].
  rewrite u32_id by lia. unfold buf_write. by rewrite buffer_push_app.
Qed.

(** The common case: a freshly allocated buffer of exactly the right size. *)
Lemma format_exact ap n :
  Forall fmt_plain ap -> n = zlen (fmt_bytes ap) -> n < SILC_MAX_ALLOC ->
  silc_buffer_format {| b_head := []; b_data := zrepeat 0 n; b_tail := [] |} ap =
    (n, silc_buffer_set (fmt_bytes ap)).
Proof.
  intros Hp -> Hlt. rewrite format_plain; simpl; try done.
  - unfold silc_buffer_set. rewrite !zdrop_all by len. by rewrite app_nil_r.
  - unfold buf_fits, b_size; simpl. len.
Qed.

(** * Unformatting *)

Definition parse_num (x : bool) (n : Z) (get : list Z -> Z) (d : list Z)
  : option (list UnformatOut * list Z) :=
  if zlen d <? n then None else Some (onum x (get d), zdrop n d).

Definition dup_bytes (d : list Z) : option (list Z) :=
  if zlen d =? 0 then None
  else if zlen d + 1 <? SILC_MAX_ALLOC then Some d else None.

Definition parse_data (len2 : Z) (k : list Z -> list UnformatOut) (d : list Z)
  : option (list UnformatOut * list Z) :=
  if zlen d <? len2 then None else Some (k (ztake len2 d), zdrop len2 d).

Definition parse_prefixed (w : StrWidth) (k : list Z -> list UnformatOut) (d : list Z)
  : option (list UnformatOut * list Z) :=
  if zlen d <? width_bytes w then None
  else parse_data (width_get w d) k (zdrop (width_bytes w) d).

(** The values a parameter reads from [d], and the bytes it leaves. *)
Definition parse1 (p : UnformatParam) (d : list Z) : option (list UnformatOut * list Z) :=
  match p with
  | U_FUNC _ _ _ | U_OFFSET _ | U_ADVANCE | U_BUFFER_ALLOC _ => None
  | U_DATA x len2 =>
      parse_data len2 (fun s => optr x (if zlen s =? 0 then None else Some s)) d
  | U_DATA_ALLOC x len2 => parse_data len2 (fun s => optr x (dup_bytes s)) d
  | U_UI8_CHAR x => parse_num x 1 (fun d => byte_at d 0) d
  | U_UI16_SHORT x => parse_num x 2 SILC_GET16_MSB d
  | U_UI32_INT x => parse_num x 4 SILC_GET32_MSB d
  | U_UI64_INT x => parse_num x 8 SILC_GET64_MSB d
  | U_SI8_CHAR x => parse_num x 1 (fun d => s8 (byte_at d 0)) d
  | U_SI16_SHORT x => parse_num x 2 (fun d => s16 (SILC_GET16_MSB d)) d
  | U_SI32_INT x => parse_num x 4 (fun d => s32 (SILC_GET32_MSB d)) d
  | U_SI64_INT x => parse_num x 8 (fun d => s64 (SILC_GET64_MSB d)) d
  | U_STRING w x => parse_prefixed w (fun s => optr x (Some s)) d
  | U_STRING_ALLOC w x => parse_prefixed w (fun s => optr x (dup_bytes s)) d
  | U_NSTRING w x l => parse_prefixed w (fun s => onum l (zlen s) ++ optr x (Some s)) d
  | U_NSTRING_ALLOC w x l =>
      match w with
      | W32 => None
      | _ => parse_prefixed w (fun s => onum l (zlen s) ++ optr x (dup_bytes s)) d
      end
  | U_BUFFER => parse_prefixed W32 (fun s => [OBuf (silc_buffer_set s)]) d
  end.

Fixpoint parse (ap : list UnformatParam) (d : list Z) : option (list UnformatOut * list Z) :=
  match ap with
  | [] => Some ([], d)
  | p :: ap =>
      match parse1 p d with
      | None => None
      | Some (o, d) =>
          match parse ap d with
          | None => None
          | Some (os, d) => Some (o ++ os, d)
          end
      end
  end.

Definition unf_plain (p : UnformatParam) : Prop :=
  match p with
  | U_FUNC _ _ _ | U_OFFSET _ | U_ADVANCE | U_BUFFER_ALLOC _ => False
  | U_DATA _ n | U_DATA_ALLOC _ n => 0 <= n < 2 ^ 32
  | _ => True
  end.

Lemma width_bytes_pos w : 0 < width_bytes w <= 4.
Proof. by destruct w. Qed.

Lemma width_get_range w d : 0 <= width_get w d < 2 ^ 32.
Proof.
  destruct w; simpl; [pose proof (u8_range (byte_at d 0))|
    pose proof (SILC_GET16_MSB_range d)|pose proof (SILC_GET32_MSB_range d)]; lia.
Qed.

(** [b] is [b0] with the data pointer moved forward; [d] is what is left. *)
Definition at_pos (b0 : SilcBuffer) (d : list Z) (b : SilcBuffer) : Prop :=
  exists c, b_data b0 = c ++ d /\
    b = {| b_head := b_head b0 ++ c; b_data := d; b_tail := b_tail b0 |}.

Section unformat.
Variable b0 : SilcBuffer.
Hypothesis b0_ok : buf_ok b0.
Implicit Types st : UnformatState.

Lemma at_pos_ok d b : at_pos b0 d b -> buf_ok b.
Proof. intros (c & Hc & ->). revert b0_ok. unfold buf_ok, b_size. rewrite Hc. simpl. len. Qed.

Lemma at_pos_data d b : at_pos b0 d b -> b_data b = d.
Proof. by intros (c & ? & ->). Qed.

Lemma at_pos_start : at_pos b0 (b_data b0) b0.
Proof. exists []. destruct b0; simpl. by rewrite app_nil_r. Qed.

Lemma at_pos_has_space d b n :
  at_pos b0 d b -> 0 <= n < 2 ^ 32 ->
  UNFORMAT_HAS_SPACE b n = negb (zlen d <? n).
Proof.
  intros Hp Hn. unfold UNFORMAT_HAS_SPACE.
  pose proof (at_pos_ok _ _ Hp) as Hok.
  rewrite buffer_len_ok, (at_pos_data _ _ Hp) by done.
  zcase; [done|]. simpl.
  assert (zlen d < SILC_MAX_ALLOC).
  { rewrite <- (at_pos_data _ _ Hp). buf_arith. }
  unfold SILC_MAX_ALLOC in *. rewrite u32_id by lia. zcase; [lia|done].
Qed.

Lemma at_pos_pull d b n :
  at_pos b0 d b -> 0 <= n <= zlen d -> at_pos b0 (zdrop n d) (silc_buffer_pull b n).
Proof.
  intros Hp Hn. pose proof (at_pos_ok _ _ Hp) as Hok.
  destruct Hp as (c & Hc & ->). destruct (zsplit n d Hn) as (x & y & -> & <-).
  rewrite buffer_pull_app by done. rewrite zdrop_app_exact by done.
  exists (c ++ x). by rewrite <- !app_assoc.
Qed.

(** Both outcomes of a step, in terms of the abstract parser. *)
Definition step_refines st (r : bool * UnformatState)
    (s : option (list UnformatOut * list Z)) : Prop :=
  us_advance r.2 = us_advance st /\
  match s with
  | Some (o, d') => r.1 = true /\ at_pos b0 d' (us_src r.2) /\ us_out r.2 = us_out st ++ o
  | None => r.1 = false /\ exists d', at_pos b0 d' (us_src r.2)
  end.

Lemma unformat_num_refines st d x n get :
  at_pos b0 d (us_src st) -> 0 <= n < 2 ^ 32 ->
  step_refines st (unformat_num st x n get) (parse_num x n get d).
Proof.
  intros Hp Hn. unfold unformat_num, parse_num.
  rewrite (at_pos_has_space d) by done. zcase; simpl.
  - split; [done|]. simpl. eauto.
  - split; [done|]. simpl. rewrite (at_pos_data _ _ Hp).
    split_and!; [done|apply at_pos_pull; [done|lia]|done].
Qed.

Lemma at_pos_mem_read d b n :
  at_pos b0 d b -> 0 <= n <= zlen d -> mem_read (b_data b) n = ztake n d.
Proof. intros Hp Hn. rewrite (at_pos_data _ _ Hp). by apply mem_read_le. Qed.

Lemma at_pos_dup d b n :
  at_pos b0 d b -> 0 <= n <= zlen d ->
  (if n =? 0 then None else unformat_dup b n) = dup_bytes (ztake n d).
Proof.
  intros Hp Hn. unfold unformat_dup, dup_bytes. rewrite zlen_ztake by done.
  destruct (Z.eqb_spec n 0); [done|]. pose proof (at_pos_ok _ _ Hp) as Hok.
  assert (zlen d < SILC_MAX_ALLOC) by (rewrite <- (at_pos_data _ _ Hp); buf_arith).
  unfold SILC_MAX_ALLOC in *. rewrite u32_id by lia.
  rewrite (at_pos_mem_read d) by done.
  zcase; [rewrite silc_calloc_ok_true by (unfold SILC_MAX_ALLOC; lia); done|].
  unfold silc_calloc_ok, SILC_MAX_ALLOC. rewrite u64_id by lia.
  repeat zcase; simpl; lia || done.
Qed.

Lemma unformat_prefixed_refines st d w k kk :
  at_pos b0 d (us_src st) ->
  (forall b d n, at_pos b0 d b -> 0 <= n <= zlen d -> k b n = Some (kk (ztake n d))) ->
  step_refines st (unformat_prefixed st w k) (parse_prefixed w kk d).
Proof.
  intros Hp Hk. unfold unformat_prefixed, parse_prefixed, parse_data.
  pose proof (width_bytes_pos w). pose proof (width_get_range w d).
  rewrite (at_pos_has_space d) by (done || lia). zcase; simpl.
  { split; [done|]. simpl. eauto. }
  rewrite (at_pos_data _ _ Hp).
  assert (at_pos b0 (zdrop (width_bytes w) d)
            (silc_buffer_pull (us_src st) (width_bytes w))) as Hp'
    by (apply at_pos_pull; [done|lia]).
  rewrite (at_pos_has_space _ _ _ Hp') by done. zcase; simpl.
  { split; [done|]. simpl. eauto. }
  erewrite Hk by (done || lia). split; [done|]. simpl.
  split_and!; [done|apply at_pos_pull; [done|lia]|done].
Qed.

Lemma unformat_step_refines st d p :
  unf_plain p -> at_pos b0 d (us_src st) ->
  step_refines st (unformat_step st p) (parse1 p d).
Proof.
  intros Hpl Hp.
  destruct p as [|x n|x n|x|x|x|x|x|x|x|x|w x|w x|w x l|w x l| | | |];
    simpl in *; try done; try (by apply unformat_num_refines);
    try (by apply unformat_prefixed_refines; [done|]; intros b d' n' ? ?; simpl;
      rewrite ?(at_pos_mem_read d') by done;
      rewrite ?(at_pos_dup d') by done; rewrite ?zlen_ztake by done).
  - unfold unformat_xnstring, parse_data. rewrite (at_pos_has_space d) by done.
    zcase; simpl.
    + split; [done|]. simpl. eauto.
    + split; [done|]. simpl. rewrite zlen_ztake by lia.
      rewrite (at_pos_mem_read d) by (done || lia).
      split_and!; [done|apply at_pos_pull; [done|lia]|done].
  - unfold parse_data. rewrite (at_pos_has_space d) by done. zcase; simpl.
    + split; [done|]. simpl. eauto.
    + split; [done|]. simpl. rewrite (at_pos_dup d) by (done || lia).
      split_and!; [done|apply at_pos_pull; [done|lia]|done].
  - destruct w; [| |split; [done|]; simpl; eauto];
      (apply unformat_prefixed_refines; [done|]; intros b d' n' ? ?;
       rewrite (at_pos_dup d') by done; by rewrite zlen_ztake).
Qed.

Lemma unformat_loop_refines ap st d :
  Forall unf_plain ap -> at_pos b0 d (us_src st) ->
  step_refines st (unformat_loop st ap) (parse ap d).
Proof.
  revert st d; induction ap as [|p ap IH]; intros st d Hpl Hp; simpl.
  { split; [done|]. simpl. by rewrite app_nil_r. }
  apply Forall_cons_iff in Hpl as [Hp1 Hpl].
  pose proof (unformat_step_refines st d p Hp1 Hp) as [Ha Hs].
  destruct (unformat_step st p) as [ok st1]; simpl in *.
  destruct (parse1 p d) as [[o d1]|]; [|by destruct Hs as [-> ?]].
  destruct Hs as (-> & Hp' & Ho).
  destruct (IH st1 d1 Hpl Hp') as [Ha' Hs'].
  destruct (parse ap d1) as [[os d2]|]; (split; [congruence|]); [|done].
  destruct Hs' as (-> & ? & Ho'). rewrite Ho', Ho, app_assoc. done.
Qed.

Lemma at_pos_push_back d b :
  at_pos b0 d b ->
  silc_buffer_push b (u32 (s32 (zlen (b_head b) - zlen (b_head b0)))) = b0 /\
  s32 (zlen (b_head b) - zlen (b_head b0)) = zlen (b_data b0) - zlen d.
Proof.
  intros (c & Hc & ->); simpl.
  assert (zlen (b_data b0) < SILC_MAX_ALLOC) by buf_arith.
  rewrite Hc in *. autorewrite with silc_len in *. unfold SILC_MAX_ALLOC in *.
  rewrite s32_id, u32_id by (rewrite ?s32_id; lia).
  split; [|lia]. rewrite buffer_push_app by lia.
  destruct b0; simpl in *. by subst.
Qed.
End unformat.

(** The contract of silc_buffer_unformat, success. *)
Lemma unformat_some b ap outs rest :
  buf_ok b -> Forall unf_plain ap -> parse ap (b_data b) = Some (outs, rest) ->
  silc_buffer_unformat b ap = (zlen (b_data b) - zlen rest, outs, b).
Proof.
  intros Hok Hpl Hparse. unfold silc_buffer_unformat.
  destruct (unformat_loop_refines b Hok ap
    {| us_src := b; us_advance := false; us_out := [] |} (b_data b) Hpl
    (at_pos_start b Hok)) as [Ha Hs].
  destruct (unformat_loop _ _) as [ok st]; simpl in *. rewrite Hparse in Hs.
  destruct Hs as (-> & Hp & ->). rewrite Ha.
  destruct (at_pos_push_back b Hok _ _ Hp) as [-> ->]. done.
Qed.

(** The contract of silc_buffer_unformat, failure: the buffer is put back. *)
Lemma unformat_none b ap :
  buf_ok b -> Forall unf_plain ap -> parse ap (b_data b) = None ->
  exists outs, silc_buffer_unformat b ap = (-1, outs, b).
Proof.
  intros Hok Hpl Hparse. unfold silc_buffer_unformat.
  destruct (unformat_loop_refines b Hok ap
    {| us_src := b; us_advance := false; us_out := [] |} (b_data b) Hpl
    (at_pos_start b Hok)) as [Ha Hs].
  destruct (unformat_loop _ _) as [ok st]; simpl in *. rewrite Hparse in Hs.
  destruct Hs as (-> & d' & Hp).
  destruct (at_pos_push_back b Hok _ _ Hp) as [-> _]. eauto.
Qed.

(** * Reading back what was written *)

Definition prepend (o : list UnformatOut) (r : option (list UnformatOut * list Z))
  : option (list UnformatOut * list Z) :=
  match r with Some (os, d) => Some (o ++ os, d) | None => None end.

Lemma parse_cons p ap d :
  parse (p :: ap) d =
  match parse1 p d with None => None | Some (o, d) => prepend o (parse ap d) end.
Proof. simpl. by repeat case_match. Qed.

Lemma parse_num_app x n get s d :
  n = zlen s -> parse_num x n get (s ++ d) = Some (onum x (get (s ++ d)), d).
Proof.
  intros ->. unfold parse_num. zcase; [len|]. by rewrite zdrop_app_exact.
Qed.

Lemma parse_data_app n k s d :
  n = zlen s -> parse_data n k (s ++ d) = Some (k s, d).
Proof.
  intros ->. unfold parse_data. zcase; [len|].
  by rewrite ztake_app_exact, zdrop_app_exact.
Qed.

Definition width_put (w : StrWidth) (n : Z) : list Z :=
  match w with W8 => [u8 n] | W16 => SILC_PUT16_MSB n | W32 => SILC_PUT32_MSB n end.
Definition width_bound (w : StrWidth) : Z :=
  match w with W8 => 256 | W16 => 65536 | W32 => 4294967296 end.

Lemma width_get_put w n d :
  0 <= n < width_bound w -> width_get w (width_put w n ++ d) = n.
Proof.
  destruct w; cbn; intros.
  - change (u8 (u8 n) = n). rewrite !(u8_id n) by done. done.
  - rewrite SILC_GET16_PUT16_MSB. by apply u16_id.
  - rewrite SILC_GET32_PUT32_MSB. by apply u32_id.
Qed.

Lemma length_width_put w n : zlen (width_put w n) = width_bytes w.
Proof. by destruct w. Qed.

Lemma parse_prefixed_app w k s d :
  zlen s < width_bound w ->
  parse_prefixed w k (width_put w (zlen s) ++ s ++ d) = Some (k s, d).
Proof.
  intros Hs. unfold parse_prefixed. pose proof (length_width_put w (zlen s)).
  zcase; [len|]. rewrite width_get_put by lia.
  rewrite zdrop_app_exact by done. by apply parse_data_app.
Qed.

Section reading.
Variables (ap : list UnformatParam) (d : list Z).

Lemma parse_U8 c : is_byte c ->
  parse (U_UI8_CHAR true :: ap) (c :: d) = prepend [ONum c] (parse ap d).
Proof.
  intros _. change (c :: d) with ([c] ++ d). rewrite parse_cons. unfold parse1.
  by rewrite parse_num_app.
Qed.

Lemma parse_U16 x :
  parse (U_UI16_SHORT true :: ap) (SILC_PUT16_MSB x ++ d) =
  prepend [ONum (u16 x)] (parse ap d).
Proof.
  rewrite parse_cons. unfold parse1. rewrite parse_num_app by done.
  by rewrite SILC_GET16_PUT16_MSB.
Qed.

Lemma parse_U32 x :
  parse (U_UI32_INT true :: ap) (SILC_PUT32_MSB x ++ d) =
  prepend [ONum (u32 x)] (parse ap d).
Proof.
  rewrite parse_cons. unfold parse1. rewrite parse_num_app by done.
  by rewrite SILC_GET32_PUT32_MSB.
Qed.

Lemma parse_U64 x :
  parse (U_UI64_INT true :: ap) (SILC_PUT64_MSB x ++ d) =
  prepend [ONum (u64 x)] (parse ap d).
Proof.
  rewrite parse_cons. unfold parse1. rewrite parse_num_app by done.
  by rewrite SILC_GET64_PUT64_MSB.
Qed.

Lemma parse_DATA n s : n = zlen s ->
  parse (U_DATA true n :: ap) (s ++ d) =
  prepend [OPtr (if zlen s =? 0 then None else Some s)] (parse ap d).
Proof. intros. rewrite parse_cons. unfold parse1. by rewrite parse_data_app. Qed.

Lemma parse_DATA_ALLOC n s : n = zlen s ->
  parse (U_DATA_ALLOC true n :: ap) (s ++ d) =
  prepend [OPtr (dup_bytes s)] (parse ap d).
Proof. intros. rewrite parse_cons. unfold parse1. by rewrite parse_data_app. Qed.

Lemma parse_NSTRING16_ALLOC n s : n = zlen s -> zlen s < 65536 ->
  parse (U_NSTRING_ALLOC W16 true true :: ap) (SILC_PUT16_MSB n ++ s ++ d) =
  prepend [ONum (zlen s); OPtr (dup_bytes s)] (parse ap d).
Proof.
  intros -> ?. rewrite parse_cons. unfold parse1.
  by rewrite (parse_prefixed_app W16).
Qed.

Lemma parse_NSTRING16 n s : n = zlen s -> zlen s < 65536 ->
  parse (U_NSTRING W16 true true :: ap) (SILC_PUT16_MSB n ++ s ++ d) =
  prepend [ONum (zlen s); OPtr (Some s)] (parse ap d).
Proof.
  intros -> ?. rewrite parse_cons. unfold parse1.
  by rewrite (parse_prefixed_app W16).
Qed.

End reading.

(** ** Inversion: on byte strings a successful read determines the bytes *)

Lemma bytes_ok_split n (l : list Z) :
  bytes_ok l -> bytes_ok (ztake n l) /\ bytes_ok (zdrop n l).
Proof. intros H. rewrite <- Forall_app. by rewrite ztake_zdrop. Qed.

Lemma PUT16_GET16 l :
  bytes_ok l -> 2 <= zlen l -> l = SILC_PUT16_MSB (SILC_GET16_MSB l) ++ zdrop 2 l.
Proof.
  destruct l as [|a [|b l]]; cbn [length]; try lia. intros Hb _.
  rewrite !Forall_cons_iff in Hb. destruct_and! Hb.
  rewrite SILC_GET16_MSB_be, SILC_PUT16_MSB_be by done.
  change 2%nat with (length [a; b]).
  rewrite be_encode_decode by (repeat apply Forall_cons_2; done || apply Forall_nil_2). done.
Qed.

Lemma PUT32_GET32 l :
  bytes_ok l -> 4 <= zlen l -> l = SILC_PUT32_MSB (SILC_GET32_MSB l) ++ zdrop 4 l.
Proof.
  destruct l as [|a [|b [|c [|e l]]]]; cbn [length]; try lia. intros Hb _.
  rewrite !Forall_cons_iff in Hb. destruct_and! Hb.
  rewrite SILC_GET32_MSB_be, SILC_PUT32_MSB_be by done.
  change 4%nat with (length [a; b; c; e]).
  rewrite be_encode_decode by (repeat apply Forall_cons_2; done || apply Forall_nil_2). done.
Qed.

Lemma parse_data_inv n k d o d' :
  0 <= n -> parse_data n k d = Some (o, d') ->
  exists s, d = s ++ d' /\ zlen s = n /\ o = k s.
Proof.
  unfold parse_data. zcase; [done|]. intros ? [= <- <-].
  exists (ztake n d). split_and!; [by rewrite ztake_zdrop|apply zlen_ztake; lia|done].
Qed.

Lemma parse_cons_inv p ap d r :
  parse (p :: ap) d = Some r ->
  exists o d' os, parse1 p d = Some (o, d') /\ parse ap d' = Some (os, r.2) /\
    r.1 = o ++ os.
Proof.
  rewrite parse_cons. destruct (parse1 p d) as [[o d']|]; [|done].
  destruct (parse ap d') as [[os d2]|] eqn:E; simpl; [|done].
  intros [= <-]. by exists o, d', os.
Qed.

Section reading_inv.
Variables (ap : list UnformatParam) (d : list Z) (r : list UnformatOut * list Z).
Hypothesis d_ok : bytes_ok d.

Lemma parse_U8_inv :
  parse (U_UI8_CHAR true :: ap) d = Some r ->
  exists c d' os, d = c :: d' /\ is_byte c /\ bytes_ok d' /\
    parse ap d' = Some (os, r.2) /\ r.1 = ONum c :: os.
Proof.
  intros (o & d' & os & H1 & H2 & H3)%parse_cons_inv. revert H1.
  cbn. unfold parse_num. zcase; [done|]. intros [= <- <-].
  destruct d as [|c l]; [simpl in *; lia|].
  apply Forall_cons_iff in d_ok as [? ?]. by exists c, l, os.
Qed.

Lemma parse_U16_inv :
  parse (U_UI16_SHORT true :: ap) d = Some r ->
  exists x d' os, d = SILC_PUT16_MSB x ++ d' /\ 0 <= x < 65536 /\ bytes_ok d' /\
    parse ap d' = Some (os, r.2) /\ r.1 = ONum x :: os.
Proof.
  intros (o & d' & os & H1 & H2 & H3)%parse_cons_inv. revert H1.
  cbn. unfold parse_num. zcase; [done|]. intros [= <- <-].
  exists (SILC_GET16_MSB d), (zdrop 2 d), os.
  split_and!; try done; try apply SILC_GET16_MSB_range.
  - by apply PUT16_GET16.
  - by apply bytes_ok_split.
Qed.

Lemma parse_U32_inv :
  parse (U_UI32_INT true :: ap) d = Some r ->
  exists x d' os, d = SILC_PUT32_MSB x ++ d' /\ 0 <= x < 4294967296 /\ bytes_ok d' /\
    parse ap d' = Some (os, r.2) /\ r.1 = ONum x :: os.
Proof.
  intros (o & d' & os & H1 & H2 & H3)%parse_cons_inv. revert H1.
  cbn. unfold parse_num. zcase; [done|]. intros [= <- <-].
  exists (SILC_GET32_MSB d), (zdrop 4 d), os.
  split_and!; try done; try apply SILC_GET32_MSB_range.
  - by apply PUT32_GET32.
  - by apply bytes_ok_split.
Qed.

Lemma parse_DATA_inv n :
  0 <= n -> parse (U_DATA true n :: ap) d = Some r ->
  exists s d' os, d = s ++ d' /\ zlen s = n /\ bytes_ok s /\ bytes_ok d' /\
    parse ap d' = Some (os, r.2) /\
    r.1 = OPtr (if zlen s =? 0 then None else Some s) :: os.
Proof.
  intros Hn (o & d' & os & H1 & H2 & H3)%parse_cons_inv.
  apply parse_data_inv in H1 as (s & Hd & Hs & ->); [|done].
  rewrite Hd, Forall_app in d_ok. destruct d_ok. by exists s, d', os.
Qed.

Lemma parse_DATA_ALLOC_inv n :
  0 <= n -> parse (U_DATA_ALLOC true n :: ap) d = Some r ->
  exists s d' os, d = s ++ d' /\ zlen s = n /\ bytes_ok s /\ bytes_ok d' /\
    parse ap d' = Some (os, r.2) /\ r.1 = OPtr (dup_bytes s) :: os.
Proof.
  intros Hn (o & d' & os & H1 & H2 & H3)%parse_cons_inv.
  apply parse_data_inv in H1 as (s & Hd & Hs & ->); [|done].
  rewrite Hd, Forall_app in d_ok. destruct d_ok. by exists s, d', os.
Qed.

Lemma parse_prefixed16_inv k o d' :
  parse_prefixed W16 k d = Some (o, d') ->
  exists s, d = SILC_PUT16_MSB (zlen s) ++ s ++ d' /\ zlen s < 65536 /\
    bytes_ok s /\ bytes_ok d' /\ o = k s.
Proof.
  unfold parse_prefixed; cbn. zcase; [done|]. intros H1.
  pose proof (SILC_GET16_MSB_range d).
  apply parse_data_inv in H1 as (s & Hd & Hs & ->); [|lia].
  pose proof (PUT16_GET16 d d_ok) as Hput. rewrite Hd, <- Hs in Hput.
  pose proof (proj2 (bytes_ok_split 2 d d_ok)) as Hb. rewrite Hd, Forall_app in Hb.
  destruct Hb. exists s. split_and!; try done; [apply Hput; lia|lia].
Qed.

Lemma parse_NSTRING16_ALLOC_inv :
  parse (U_NSTRING_ALLOC W16 true true :: ap) d = Some r ->
  exists s d' os, d = SILC_PUT16_MSB (zlen s) ++ s ++ d' /\ zlen s < 65536 /\
    bytes_ok s /\ bytes_ok d' /\
    parse ap d' = Some (os, r.2) /\ r.1 = ONum (zlen s) :: OPtr (dup_bytes s) :: os.
Proof.
  intros (o & d' & os & H1 & H2 & H3)%parse_cons_inv.
  apply parse_prefixed16_inv in H1 as (s & ? & ? & ? & ? & ->).
  by exists s, d', os.
Qed.

Lemma parse_NSTRING16_inv :
  parse (U_NSTRING W16 true true :: ap) d = Some r ->
  exists s d' os, d = SILC_PUT16_MSB (zlen s) ++ s ++ d' /\ zlen s < 65536 /\
    bytes_ok s /\ bytes_ok d' /\
    parse ap d' = Some (os, r.2) /\ r.1 = ONum (zlen s) :: OPtr (Some s) :: os.
Proof.
  intros (o & d' & os & H1 & H2 & H3)%parse_cons_inv.
  apply parse_prefixed16_inv in H1 as (s & ? & ? & ? & ? & ->).
  by exists s, d', os.
Qed.
End reading_inv.

Lemma parse_nil_inv d r : parse [] d = Some r -> r = ([], d).
Proof. by intros [= <-]. Qed.

Lemma dup_bytes_some s : 0 < zlen s < SILC_MAX_ALLOC - 1 -> dup_bytes s = Some s.
Proof. unfold dup_bytes. intros. repeat zcase; lia || done. Qed.
Lemma dup_bytes_nil s : zlen s = 0 -> dup_bytes s = None.
Proof. unfold dup_bytes. intros ->. done. Qed.

(** ** Reading one block of data, the commonest call *)

Section read_data.
Variables (b : SilcBuffer) (n : Z).
Hypothesis (b_ok : buf_ok b) (n_range : 0 <= n <= zlen (b_data b)).

Lemma n_small : 0 <= n < SILC_MAX_ALLOC.
Proof. clear -b_ok n_range. buf_arith. Qed.

Lemma unformat_DATA :
  silc_buffer_unformat b [U_DATA true n] =
    (n, [OPtr (if n =? 0 then None else Some (ztake n (b_data b)))], b).
Proof.
  pose proof n_small. pose proof (zlen_ztake n (b_data b)) as Hl.
  pose proof (ztake_zdrop n (b_data b)) as Hd.
  erewrite (unformat_some _ _ _ (zdrop n (b_data b))); [|done| |].
  - rewrite zlen_zdrop by done. do 2 f_equal. lia.
  - repeat constructor; unfold SILC_MAX_ALLOC in *; simpl; lia.
  - rewrite <- Hd at 1. rewrite parse_DATA by (symmetry; auto). rewrite Hl by done. done.
Qed.

Lemma unformat_DATA_ALLOC :
  silc_buffer_unformat b [U_DATA_ALLOC true n] =
    (n, [OPtr (dup_bytes (ztake n (b_data b)))], b).
Proof.
  pose proof n_small. pose proof (zlen_ztake n (b_data b)) as Hl.
  pose proof (ztake_zdrop n (b_data b)) as Hd.
  erewrite (unformat_some _ _ _ (zdrop n (b_data b))); [|done| |].
  - rewrite zlen_zdrop by done. do 2 f_equal. lia.
  - repeat constructor; unfold SILC_MAX_ALLOC in *; simpl; lia.
  - rewrite <- Hd at 1. rewrite parse_DATA_ALLOC by (symmetry; auto). done.
Qed.
End read_data.

(** A pointer read back has the bytes that were read, also when there are none. *)
Lemma ptr_bytes_data s : ptr_bytes (if zlen s =? 0 then None else Some s) = s.
Proof. case_match eqn:E; [|done]. apply Z.eqb_eq in E. by apply zlen_0_nil in E as ->. Qed.

Lemma ptr_bytes_dup s : zlen s < SILC_MAX_ALLOC - 1 -> ptr_bytes (dup_bytes s) = s.
Proof.
  intros. unfold dup_bytes. destruct (Z.eqb_spec (zlen s) 0) as [E|].
  - by apply zlen_0_nil in E as ->.
  - case_cmps. done.
Qed.

(** ** A format that does not fit *)

Lemma format_step_fail st f :
  fmt_plain f -> buf_ok (fs_dst st) -> zlen (fmt_bytes1 f) < 2 ^ 31 ->
  ~ buf_fits (fs_dst st) (zlen (fmt_bytes1 f)) ->
  exists st', format_step st f = (false, st') /\
    b_head (fs_dst st') = b_head (fs_dst st) /\
    fs_flen st' = fs_flen st /\ fs_advance st' = fs_advance st.
Proof.
  intros Hp Hok Hlt Hf.
  assert (zlen (fmt_bytes1 f) <> 0) as Hne.
  { intros E. apply Hf. rewrite E. unfold buf_fits. unfold buf_ok in Hok. lia. }
  destruct f as [|x|x n|x|x|x|x|x|x|x|x|x|x|]; simpl in *; try done;
    try (by apply format_data_fail).
  - destruct x as [s|]; [|done].
    rewrite u32_id by (unfold SILC_MAX_ALLOC in *; lia).
    zcase; [lia|]. apply format_data_fail; done || lia.
  - destruct x as [s|]; [|done]. rewrite zlen_mem_read in * by done.
    zcase; [lia|]. apply format_data_fail; done || lia.
  - destruct x as [x|]; [|done]. rewrite buffer_len_ok by done.
    destruct (Z.eqb_spec (zlen (b_data x)) 0); [done|].
    assert (zlen (b_data x) < SILC_MAX_ALLOC) by buf_arith. unfold SILC_MAX_ALLOC in *.
    rewrite u32_id by lia. change (_ :: _ :: _ :: _ :: b_data x) with
      (SILC_PUT32_MSB (zlen (b_data x)) ++ b_data x) in *.
    destruct (format_data_fail st [] (zlen (b_data x) + 4)) as (st' & E & ?);
      [lia|done|intros H1; apply Hf; revert H1; unfold buf_fits; len|].
    exists st'. split; [|done]. revert E. unfold format_data.
    destruct (FORMAT_HAS_SPACE _ _) as [[] ?]; [done|]. congruence.
Qed.

Lemma format_loop_fail ap st :
  Forall fmt_plain ap -> buf_ok (fs_dst st) ->
  st_room st (zlen (fmt_bytes ap)) -> ~ buf_fits (fs_dst st) (zlen (fmt_bytes ap)) ->
  exists st' p, format_loop st ap = (false, st') /\
    b_head (fs_dst st') = b_head (fs_dst st) ++ p /\
    fs_flen st' = fs_flen st + zlen p /\ zlen p <= zlen (fmt_bytes ap) /\
    fs_advance st' = fs_advance st.
Proof.
  revert st; induction ap as [|f ap IH]; intros st Hp Hok Hr Hf.
  { destruct Hf. unfold buf_fits, fmt_bytes; simpl. unfold buf_ok in Hok. lia. }
  apply Forall_cons_iff in Hp as [Hp1 Hp].
  change (fmt_bytes (f :: ap)) with (fmt_bytes1 f ++ fmt_bytes ap) in *.
  rewrite length_app in Hr, Hf |- *. unfold st_room in Hr.
  cbn [format_loop].
  destruct (decide (buf_fits (fs_dst st) (zlen (fmt_bytes1 f)))) as [H1|H1].
  - rewrite format_step_plain by (done || unfold st_room; lia).
    destruct (IH (st_write st (fmt_bytes1 f))) as (st' & p & E & Hh & Hl & Hle & Ha).
    + done.
    + by apply buf_write_ok.
    + unfold st_room; cbn [st_write fs_flen]. lia.
    + intros H2. apply Hf. unfold buf_fits in *. cbn [st_write fs_dst] in H2.
      rewrite buf_write_size in H2. unfold buf_write in H2; simpl in H2. len.
    + exists st', (fmt_bytes1 f ++ p). rewrite E, Hh, Hl. cbn.
      rewrite app_assoc, length_app. split_and!; done || lia.
  - destruct (format_step_fail st f) as (st' & E & Hh & Hl & Ha); try done; [lia|].
    rewrite E. exists st', []. rewrite Hh, Hl, app_nil_r. split_and!; done || simpl; lia.
Qed.

Lemma format_too_large b ap :
  Forall fmt_plain ap -> buf_ok b -> zlen (fmt_bytes ap) < 2 ^ 31 ->
  ~ buf_fits b (zlen (fmt_bytes ap)) ->
  exists b', silc_buffer_format b ap = (-1, b') /\ b_head b' = b_head b.
Proof.
  intros Hp Hok Hlt Hf. unfold silc_buffer_format.
  destruct (format_loop_fail ap {| fs_dst := b; fs_flen := 0; fs_advance := false |})
    as (st' & p & -> & Hh & Hl & Hle & Ha); try done.
  rewrite Ha. simpl in *. rewrite Hl, u32_id by lia.
  destruct (fs_dst st') as [h d t]; simpl in *. subst h. rewrite buffer_push_app by done.
  eexists; split; [done|]. done.
Qed.

(** ** The parameter that reads what a parameter writes, and what it gives *)

Definition dual (f : FormatParam) : option (UnformatParam * list UnformatOut) :=
  match f with
  | F_UI8_CHAR x => Some (U_UI8_CHAR true, [ONum (u8 x)])
  | F_UI16_SHORT x => Some (U_UI16_SHORT true, [ONum (u16 x)])
  | F_UI32_INT x => Some (U_UI32_INT true, [ONum (u32 x)])
  | F_UI64_INT x => Some (U_UI64_INT true, [ONum (u64 x)])
  | F_SI8_CHAR x => Some (U_SI8_CHAR true, [ONum (s8 x)])
  | F_SI16_SHORT x => Some (U_SI16_SHORT true, [ONum (s16 x)])
  | F_SI32_INT x => Some (U_SI32_INT true, [ONum (s32 x)])
  | F_SI64_INT x => Some (U_SI64_INT true, [ONum (s64 x)])
  | F_DATA (Some s) n =>
      if zlen s =? n then Some (U_DATA true n, [OPtr (if n =? 0 then None else Some s)])
      else None
  | F_BUFFER (Some x) =>
      if zlen (b_data x) =? 0 then None
      else Some (U_BUFFER, [OBuf (silc_buffer_set (b_data x))])
  | _ => None
  end.

Lemma signed_wrap m h x : 0 < m -> (x mod m + h) mod m = (x + h) mod m.
Proof. intros. by rewrite Zplus_mod_idemp_l. Qed.

Lemma s8_u8 x : s8 (u8 x) = s8 x.
Proof. unfold s8, u8. by rewrite signed_wrap by lia. Qed.
Lemma s16_u16 x : s16 (u16 x) = s16 x.
Proof. unfold s16, u16. by rewrite signed_wrap by lia. Qed.
Lemma s32_u32 x : s32 (u32 x) = s32 x.
Proof. unfold s32, u32. by rewrite signed_wrap by lia. Qed.
Lemma s64_u64 x : s64 (u64 x) = s64 x.
Proof. unfold s64, u64. by rewrite signed_wrap by lia. Qed.

Lemma parse_dual f p o d :
  fmt_plain f -> dual f = Some (p, o) ->
  parse1 p (fmt_bytes1 f ++ d) = Some (o, d).
Proof.
  intros Hp Hd. destruct f as [|x|x n|x|x|x|x|x|x|x|x|x|x|]; 
    cbn [dual fmt_plain fmt_bytes1] in *; try done;
    try (injection Hd as <- <-; unfold parse1;
         try change (u8 x :: d) with ([u8 x] ++ d);
         rewrite parse_num_app by done; unfold onum).
  - destruct x as [s|]; [|done].
    destruct (Z.eqb_spec (zlen s) n) as [<-|]; [|done]. injection Hd as <- <-.
    rewrite mem_read_exact by done. unfold parse1. by rewrite parse_data_app.
  - done.
  - by rewrite SILC_GET16_PUT16_MSB, (u16_id (u16 x)) by apply u16_range.
  - by rewrite SILC_GET32_PUT32_MSB.
  - by rewrite SILC_GET64_PUT64_MSB.
  - change (byte_at ([u8 x] ++ d) 0) with (u8 x). by rewrite s8_u8.
  - by rewrite SILC_GET16_PUT16_MSB, s16_u16.
  - by rewrite SILC_GET32_PUT32_MSB, s32_u32.
  - by rewrite SILC_GET64_PUT64_MSB, s64_u64.
  - destruct x as [x|]; [|done].
    destruct (Z.eqb_spec (zlen (b_data x)) 0); [done|]. injection Hd as <- <-.
    rewrite <- app_assoc. unfold parse1. rewrite (parse_prefixed_app W32); [done|].
    simpl. unfold buf_ok, b_size, SILC_MAX_ALLOC in Hp. lia.
Qed.

Lemma parse_duals ap ds d :
  Forall fmt_plain ap -> mapM dual ap = Some ds ->
  parse (map fst ds) (fmt_bytes ap ++ d) = Some (concat (map snd ds), d).
Proof.
  intros Hp Hd. apply mapM_Some_1 in Hd. revert Hp.
  induction Hd as [|f [p o] ap ds Hf Hds IH]; intros Hp; [done|].
  apply Forall_cons_iff in Hp as [Hp1 Hp].
  change (fmt_bytes (f :: ap)) with (fmt_bytes1 f ++ fmt_bytes ap).
  rewrite <- app_assoc. cbn [map fst snd concat]. rewrite parse_cons.
  rewrite (parse_dual f p o) by done. by rewrite IH.
Qed.

Lemma duals_plain ap ds :
  Forall fmt_plain ap -> mapM dual ap = Some ds -> zlen (fmt_bytes ap) < 2 ^ 32 ->
  Forall unf_plain (map fst ds).
Proof.
  intros Hp Hd. apply mapM_Some_1 in Hd. revert Hp.
  induction Hd as [|f [p o] ap ds Hf Hds IH]; intros Hp Hlt; [by constructor|].
  apply Forall_cons_iff in Hp as [Hp1 Hp].
  change (fmt_bytes (f :: ap)) with (fmt_bytes1 f ++ fmt_bytes ap) in Hlt.
  rewrite length_app in Hlt. cbn [map fst]. constructor; [|apply IH; done || lia].
  destruct f as [|x|x n|x|x|x|x|x|x|x|x|x|x|]; cbn [dual] in Hf; try done;
    try (by injection Hf as <- <-).
  - destruct x as [s|]; [|done]. destruct (Z.eqb_spec (zlen s) n) as [<-|]; [|done].
    injection Hf as <- <-. cbn [fmt_bytes1] in Hlt. rewrite mem_read_exact in Hlt by done.
    simpl. lia.
  - destruct x as [x|]; [|done]. case_match; [done|]. by injection Hf as <- <-.
Qed.

(** ** Reading depends on the bytes that are read only *)

Definition get_local (get : list Z -> Z) (n : Z) : Prop :=
  forall d k, n <= zlen d -> get (d ++ k) = get d.

Lemma GET16_local : get_local SILC_GET16_MSB 2.
Proof. intros d k H. unfold SILC_GET16_MSB. by rewrite !byte_at_app_l by lia. Qed.
Lemma GET32_local : get_local SILC_GET32_MSB 4.
Proof. intros d k H. unfold SILC_GET32_MSB. by rewrite !byte_at_app_l by lia. Qed.
Lemma GET_WORD_local : get_local SILC_GET_WORD 4.
Proof. intros d k H. unfold SILC_GET_WORD. by rewrite !byte_at_app_l by lia. Qed.
Lemma GET64_local : get_local SILC_GET64_MSB 8.
Proof.
  intros d k H. unfold SILC_GET64_MSB. rewrite zdrop_app_le by lia.
  rewrite !GET_WORD_local; [done|len|lia].
Qed.

Lemma parse_num_local x n get d k o rest :
  get_local get n -> 0 <= n -> parse_num x n get d = Some (o, rest) ->
  parse_num x n get (d ++ k) = Some (o, rest ++ k).
Proof.
  unfold parse_num. intros Hg Hn. zcase; [done|]. intros [= <- <-].
  rewrite Hg, zdrop_app_le by lia. zcase; [len|done].
Qed.

Lemma parse_data_local n f d k o rest :
  parse_data n f d = Some (o, rest) -> parse_data n f (d ++ k) = Some (o, rest ++ k).
Proof.
  unfold parse_data. zcase; [done|]. intros [= <- <-].
  rewrite ztake_app_le, zdrop_app_le by lia. zcase; [len|done].
Qed.

Lemma parse_prefixed_local w f d k o rest :
  parse_prefixed w f d = Some (o, rest) -> parse_prefixed w f (d ++ k) = Some (o, rest ++ k).
Proof.
  unfold parse_prefixed. pose proof (width_bytes_pos w).
  destruct (Z.ltb_spec (zlen d) (width_bytes w)) as [|Hw]; [done|]. intros Hd.
  rewrite zdrop_app_le by lia. zcase; [len|].
  replace (width_get w (d ++ k)) with (width_get w d); [by apply parse_data_local|].
  destruct w; cbn [width_get width_bytes] in *;
    [by rewrite byte_at_app_l by lia|by rewrite GET16_local|by rewrite GET32_local].
Qed.

Lemma parse1_local p d k o rest :
  parse1 p d = Some (o, rest) -> parse1 p (d ++ k) = Some (o, rest ++ k).
Proof.
  assert (get_local (fun d => byte_at d 0) 1) as H8
    by (intros d' k' ?; by apply byte_at_app_l; lia).
  assert (forall get n f, get_local get n -> get_local (fun d => f (get d)) n) as Hf
    by (intros get n f Hg d' k' ?; by rewrite Hg).
  destruct p as [|x n|x n|x|x|x|x|x|x|x|x|w x|w x|w x l|w x l| | | |];
    cbn [parse1]; try done;
    eauto using parse_data_local, parse_prefixed_local, GET16_local, GET32_local, GET64_local.
  all: try (apply parse_num_local; [|lia];
    auto using GET16_local, GET32_local, GET64_local).
  destruct w; [apply parse_prefixed_local..|done].
Qed.

Lemma parse_local ap d k o rest :
  parse ap d = Some (o, rest) -> parse ap (d ++ k) = Some (o, rest ++ k).
Proof.
  revert d o rest; induction ap as [|p ap IH]; intros d o rest; [by intros [= <- <-]|].
  rewrite !parse_cons. destruct (parse1 p d) as [[o1 d1]|] eqn:E; [|done].
  rewrite (parse1_local _ _ k _ _ E).
  destruct (parse ap d1) as [[o2 d2]|] eqn:E2; cbn [prepend]; [|done].
  rewrite (IH _ _ _ E2). by intros [= <- <-].
Qed.

(** ** An offset before data: the bytes skipped stay *)

Lemma format_OFFSET_DATA h d x n t :
  2 <= zlen h -> zlen h + n < SILC_MAX_ALLOC -> n = zlen x -> n = zlen d ->
  buf_ok {| b_head := []; b_data := h ++ d; b_tail := t |} ->
  silc_buffer_format {| b_head := []; b_data := h ++ d; b_tail := t |}
    [F_OFFSET (zlen h); F_DATA (Some x) n] =
  (zlen h + n, {| b_head := []; b_data := h ++ x; b_tail := t |}).
Proof.
  intros Hh Hm Hn Hd Hok. unfold SILC_MAX_ALLOC in Hm.
  set (st0 := {| fs_dst := {| b_head := []; b_data := h ++ d; b_tail := t |};
                 fs_flen := 0; fs_advance := false |}).
  set (st := {| fs_dst := {| b_head := h; b_data := d; b_tail := t |};
                fs_flen := zlen h; fs_advance := false |}).
  assert (format_step st0 (F_OFFSET (zlen h)) = (true, st)) as E1.
  { unfold format_step, st0. cbn [fs_dst fs_flen fs_advance fs_set_dst].
    destruct (Z.eqb_spec (zlen h) 0); [lia|]. destruct (Z.ltb_spec 1 (zlen h)); [|lia].
    rewrite buffer_len_ok by done. cbn [b_data].
    destruct (Z.ltb_spec (zlen (h ++ d)) (zlen h)); [exfalso; len|].
    rewrite buffer_pull_app, s32_id by (done || lia). done. }
  assert (format_step st (F_DATA (Some x) n) = (true, st_write st x)) as E2.
  { unfold format_step. destruct (Z.eqb_spec n 0) as [En|].
    - rewrite (zlen_0_nil x) by lia. by rewrite st_write_nil.
    - apply format_data_exact; [done| |].
      + unfold buf_fits, b_size. cbn [st fs_dst b_head b_data b_tail].
        revert Hok. unfold buf_ok, b_size. cbn [b_head b_data b_tail]. len.
      + unfold st_room. cbn [st fs_flen]. lia. }
  unfold silc_buffer_format. fold st0. cbn [format_loop]. rewrite E1, E2.
  cbn [st_write st fs_flen fs_advance fs_dst]. unfold buf_write.
  cbn [b_head b_data b_tail]. rewrite zdrop_all by lia.
  unfold zdrop. replace (Z.to_nat (zlen x - zlen d)) with 0%nat by lia. rewrite drop_0.
  rewrite u32_id, <- Hn by lia. f_equal.
  rewrite <- (app_nil_l (h ++ x)) at 1.
  rewrite buffer_push_app by len. by rewrite app_nil_r.
Qed.

(** ** Appending to a buffer that is full, or to none *)

Definition obuf_data (sb : option SilcBuffer) : list Z :=
  match sb with Some b => b_data b | None => [] end.

Definition obuf_full (sb : option SilcBuffer) : Prop := sb = option_map (fun b => silc_buffer_set (b_data b)) sb.

Lemma buffer_append_format sb len ap :
  obuf_full sb -> Forall fmt_plain ap -> len = zlen (fmt_bytes ap) -> 0 < len ->
  zlen (obuf_data sb) + len < SILC_MAX_ALLOC ->
  match silc_buffer_realloc sb
          (match sb with Some b => u32 (silc_buffer_truelen b + len) | None => len end) with
  | None => None
  | Some buffer =>
      let buffer := silc_buffer_pull buffer (silc_buffer_len buffer) in
      let buffer := (silc_buffer_format (silc_buffer_pull_tail buffer len) ap).2 in
      Some (silc_buffer_push buffer (silc_buffer_headlen buffer))
  end = Some (silc_buffer_set (obuf_data sb ++ fmt_bytes ap)).
Proof.
  intros Hsb Hp Hlen Hpos Hlt. set (d := obuf_data sb) in *.
  assert (exists t, zlen t = len /\ silc_buffer_realloc sb
    (match sb with Some b => u32 (silc_buffer_truelen b + len) | None => len end) =
    Some {| b_head := []; b_data := d; b_tail := t |}) as (t & Ht & ->).
  { unfold d in *. destruct sb as [b|]; cbn [obuf_data] in *.
    - injection Hsb as ->. cbn [silc_buffer_set b_data] in *.
      assert (buf_ok (silc_buffer_set (b_data b))) as Hok by (apply buffer_set_ok; lia).
      exists (zrepeat indet len). split; [len|]. unfold silc_buffer_realloc.
      rewrite buffer_truelen_ok by done. unfold b_size; cbn [b_head b_data b_tail silc_buffer_set].
      cbn [length]. unfold SILC_MAX_ALLOC in *. rewrite u32_id by lia. zcase; [lia|].
      rewrite silc_malloc_ok_true by (unfold SILC_MAX_ALLOC; lia). cbn [app]. do 4 f_equal. lia.
    - exists (zrepeat 0 len). split; [len|]. unfold silc_buffer_realloc, silc_buffer_alloc.
      cbn [length] in Hlt. zcase; [lia|]. by rewrite silc_calloc_ok_true by lia. }
  assert (buf_ok {| b_head := []; b_data := d; b_tail := t |}) as Hok
    by (unfold buf_ok, b_size; cbn [b_head b_data b_tail length]; lia).
  rewrite (buffer_pull_all [] d t) by (rewrite ?buffer_len_ok; done). cbn [app].
  unfold silc_buffer_pull_tail. rewrite (buffer_taillen_ok {| b_head := d |})
    by (unfold buf_ok, b_size; cbn [b_head b_data b_tail length]; lia). cbn [b_head b_data b_tail app].
  zcase; [lia|]. rewrite ztake_all, zdrop_all by lia.
  rewrite format_plain; [|done| |lia].
  2: { unfold buf_fits, b_size; cbn [b_head b_data b_tail length]. lia. }
  cbn [snd b_head b_data b_tail]. rewrite zdrop_nil, (zdrop_all _ t), app_nil_r by lia.
  unfold silc_buffer_headlen. cbn [b_head]. rewrite u32_id by (unfold SILC_MAX_ALLOC in *; lia).
  pose proof (buffer_push_app [] d (fmt_bytes ap) [] _ eq_refl) as E. cbn [app] in E. by rewrite E.
Qed.

(** ** Blocks of data with a 16 bit length *)

(** A non-empty block of data with its 16 bit length. *)
Definition blk_wf (p : option (list Z)) (n : Z) : Prop :=
  match p with
  | Some s => zlen s = n /\ 1 <= n < 65536 /\ bytes_ok s
  | None => False
  end.

Definition blk_wire (p : option (list Z)) : list Z :=
  SILC_PUT16_MSB (zlen (ptr_bytes p)) ++ ptr_bytes p.

Lemma blk_wf_len p n : blk_wf p n -> zlen (ptr_bytes p) = n /\ 1 <= n < 65536.
Proof. destruct p; simpl; [|done]. tauto. Qed.

Lemma blk_wire_len p n : blk_wf p n -> zlen (blk_wire p) = 2 + n.
Proof. intros [Hl _]%blk_wf_len. unfold blk_wire. len. Qed.

Lemma blk_wire_ok p n : blk_wf p n -> bytes_ok (blk_wire p).
Proof.
  destruct p; [|done]. intros (? & ? & ?). unfold blk_wire.
  apply Forall_app. auto with silc.
Qed.

(** Formatting a block. *)
Lemma blk_fmt p n ap :
  blk_wf p n -> fmt_bytes (F_UI16_SHORT n :: F_DATA p n :: ap) = blk_wire p ++ fmt_bytes ap.
Proof.
  intros Hb. destruct (blk_wf_len _ _ Hb) as [Hl Hr]. unfold fmt_bytes, blk_wire.
  cbn [map concat fmt_bytes1]. rewrite u16_id, Hl, <- app_assoc by lia. do 2 f_equal.
  destruct p; [|done]. by rewrite mem_read_exact.
Qed.

(** Unformatting a block. *)
Lemma blk_parse p n ap d :
  blk_wf p n ->
  parse (U_NSTRING_ALLOC W16 true true :: ap) (blk_wire p ++ d) =
  prepend [ONum n; OPtr p] (parse ap d).
Proof.
  intros Hb. destruct (blk_wf_len _ _ Hb) as [Hl Hr]. unfold blk_wire.
  rewrite <- app_assoc, parse_NSTRING16_ALLOC by lia. rewrite Hl.
  destruct p as [s|]; [|done]. cbn [ptr_bytes] in *.
  by rewrite dup_bytes_some by (unfold SILC_MAX_ALLOC; lia).
Qed.

Lemma blk_of_dup s :
  bytes_ok s -> 1 <= zlen s < 65536 ->
  blk_wf (dup_bytes s) (zlen s) /\ ptr_bytes (dup_bytes s) = s.
Proof. intros ? ?. rewrite dup_bytes_some by (unfold SILC_MAX_ALLOC; lia). done. Qed.

(** A block that may be empty: no pointer and the length zero. *)
Definition oblk_wf (p : option (list Z)) (n : Z) : Prop := p = None /\ n = 0 \/ blk_wf p n.

Lemma oblk_wf_len p n : oblk_wf p n -> zlen (ptr_bytes p) = n /\ 0 <= n < 65536.
Proof. intros [[-> ->]|H%blk_wf_len]; [done|lia]. Qed.

Lemma oblk_wire_len p n : oblk_wf p n -> zlen (blk_wire p) = 2 + n.
Proof. intros [Hl _]%oblk_wf_len. unfold blk_wire. len. Qed.

Lemma oblk_wire_ok p n : oblk_wf p n -> bytes_ok (blk_wire p).
Proof.
  intros [[-> ->]|H]; [|by eapply blk_wire_ok]. unfold blk_wire. cbn [ptr_bytes].
  apply Forall_app. split; [auto with silc|by apply Forall_nil_2].
Qed.

Lemma oblk_fmt p n ap :
  oblk_wf p n -> fmt_bytes (F_UI16_SHORT n :: F_DATA p n :: ap) = blk_wire p ++ fmt_bytes ap.
Proof. intros [[-> ->]|H]; [done|by apply blk_fmt]. Qed.

Lemma oblk_parse p n ap d :
  oblk_wf p n ->
  parse (U_NSTRING_ALLOC W16 true true :: ap) (blk_wire p ++ d) =
  prepend [ONum n; OPtr p] (parse ap d).
Proof.
  intros [[-> ->]|H]; [|by apply blk_parse]. unfold blk_wire. cbn [ptr_bytes length].
  rewrite <- app_assoc. by rewrite parse_NSTRING16_ALLOC.
Qed.

Lemma oblk_of_dup s :
  bytes_ok s -> zlen s < 65536 ->
  oblk_wf (dup_bytes s) (zlen s) /\ ptr_bytes (dup_bytes s) = s.
Proof.
  intros ? ?. destruct (Z.eqb_spec (zlen s) 0) as [E|].
  - apply zlen_0_nil in E as ->. split; [by left|done].
  - destruct (blk_of_dup s) as [? ?]; [done|lia|]. split; [by right|done].
Qed.

(** A block that was read, as the wire form of what the caller gets. *)
Lemma parse_block_inv ap d r :
  bytes_ok d -> parse (U_NSTRING_ALLOC W16 true true :: ap) d = Some r ->
  exists p n d' os, d = blk_wire p ++ d' /\ oblk_wf p n /\ bytes_ok d' /\
    parse ap d' = Some (os, r.2) /\ r.1 = ONum n :: OPtr p :: os.
Proof.
  intros Hd (s & d' & os & -> & Hl & Hs & Hd' & Hp & Ho)%parse_NSTRING16_ALLOC_inv; [|done].
  destruct (oblk_of_dup s Hs Hl) as [Hw He].
  exists (dup_bytes s), (zlen s), d', os. split_and!; try done.
  unfold blk_wire. by rewrite He, <- app_assoc.
Qed.

(** * Properties *)


Definition witness_format : list FormatParam :=
  [F_UI16_SHORT 70000; F_SI8_CHAR (-2); F_DATA (Some [7; 8; 9]) 3; F_UI32_INT 305419896;
   F_BUFFER (Some (silc_buffer_set [42]))].

Definition witness_duals : list (UnformatParam * list UnformatOut) :=
  [(U_UI16_SHORT true, [ONum 4464]); (U_SI8_CHAR true, [ONum (-2)]);
   (U_DATA true 3, [OPtr (Some [7; 8; 9])]); (U_UI32_INT true, [ONum 305419896]);
   (U_BUFFER, [OBuf (silc_buffer_set [42])])].


(** silc_buffer_format on parameters that write data, both ways it can
    end.  If the area can be enlarged it returns the number of bytes written,
    the bytes are at the data pointer, what the write did not cover
    survives, and the pointer is where it was; if the enlarged area would
    reach SILC_MAX_ALLOC it returns -1 with the data pointer where it was. *)
Theorem silc_buffer_format_spec b ap :
  Forall fmt_plain ap -> buf_ok b -> zlen (fmt_bytes ap) < SILC_MAX_ALLOC ->
  let n := zlen (fmt_bytes ap) in
  if decide (buf_fits b n)
  then silc_buffer_format b ap =
         (n, {| b_head := b_head b; b_data := fmt_bytes ap ++ zdrop n (b_data b);
                b_tail := zdrop (n - zlen (b_data b)) (b_tail b) |})
  else exists b', silc_buffer_format b ap = (-1, b') /\ b_head b' = b_head b.
Proof.
  intros Hp Hok Hlt n. destruct (decide _) as [Hf|Hf].
  - by apply format_plain.
  - apply format_too_large; try done. unfold SILC_MAX_ALLOC in Hlt. lia.
Qed.

Lemma silc_buffer_format_spec_witness :
  silc_buffer_format (silc_buffer_set [1; 2; 3]) [F_UI16_SHORT 513] =
  (2, {| b_head := []; b_data := [2; 1; 3]; b_tail := [] |}).
Proof.
  pose proof (silc_buffer_format_spec (silc_buffer_set [1; 2; 3]) [F_UI16_SHORT 513]
    ltac:(repeat constructor) eq_refl eq_refl) as H.
  vm_compute in H |- *. exact H.
Defined.

(** silc_buffer_unformat computes the abstract parser on the data area: it
    returns the values and the number of bytes the parser consumes, or -1
    exactly when the parser runs out of bytes, and in both cases the buffer is
    as it was.  The result depends on no byte outside the data area. *)
Theorem silc_buffer_unformat_spec b ap :
  buf_ok b -> Forall unf_plain ap ->
  match parse ap (b_data b) with
  | Some (outs, rest) =>
      silc_buffer_unformat b ap = (zlen (b_data b) - zlen rest, outs, b) /\
      forall h k t, buf_ok {| b_head := h; b_data := b_data b ++ k; b_tail := t |} ->
        (silc_buffer_unformat {| b_head := h; b_data := b_data b ++ k; b_tail := t |} ap).1 =
        (zlen (b_data b) - zlen rest, outs)
  | None => exists outs, silc_buffer_unformat b ap = (-1, outs, b)
  end.
Proof.
  intros Hok Hp. destruct (parse ap (b_data b)) as [[outs rest]|] eqn:E.
  - split; [by apply unformat_some|]. intros h k t Hok'.
    rewrite (unformat_some _ _ outs (rest ++ k)); [|done|done|by apply parse_local].
    cbn. f_equal. len.
  - by apply unformat_none.
Qed.

Lemma silc_buffer_unformat_spec_witness :
  silc_buffer_unformat (silc_buffer_set [1; 0; 2; 7; 8; 9])
    [U_UI8_CHAR true; U_NSTRING W16 true true] =
  (5, [ONum 1; ONum 2; OPtr (Some [7; 8])], silc_buffer_set [1; 0; 2; 7; 8; 9]).
Proof.
  pose proof (silc_buffer_unformat_spec (silc_buffer_set [1; 0; 2; 7; 8; 9])
    [U_UI8_CHAR true; U_NSTRING W16 true true] eq_refl ltac:(repeat constructor)) as H.
  exact (proj1 H).
Defined.

(** SILC_PARAM_OFFSET moves the data pointer forward by an offset of two
    or more, checking that the bytes are there, but an offset of one does
    nothing: the code asks [offst > 1] and then pushes by the unsigned
    negation of 1, which no buffer has room for. *)
Theorem unformat_OFFSET b n ap :
  buf_ok b -> 2 <= n < 2 ^ 31 -> Forall unf_plain ap ->
  silc_buffer_unformat b (U_OFFSET 1 :: ap) = silc_buffer_unformat b ap /\
  (zlen (b_data b) < n -> silc_buffer_unformat b (U_OFFSET n :: ap) = (-1, [], b)) /\
  (n <= zlen (b_data b) -> forall outs rest,
     parse ap (zdrop n (b_data b)) = Some (outs, rest) ->
     silc_buffer_unformat b (U_OFFSET n :: ap) = (zlen (b_data b) - zlen rest, outs, b)).
Proof.
  intros Hok Hn Hp. set (st := {| us_src := b; us_advance := false; us_out := [] |}).
  split_and!.
  - assert (unformat_step st (U_OFFSET 1) = (true, st)) as E.
    { unfold unformat_step, us_step. cbn. unfold silc_buffer_push.
      assert (zlen (b_head b) < SILC_MAX_ALLOC) by buf_arith.
      change (u32 (- (1))) with 4294967295. unfold SILC_MAX_ALLOC in *. by case_cmps. }
    unfold silc_buffer_unformat. fold st. cbn [unformat_loop]. by rewrite E.
  - intros Hlt. unfold silc_buffer_unformat. fold st. cbn [unformat_loop unformat_step].
    unfold st; cbn [us_src]. rewrite (at_pos_has_space b Hok (b_data b)) by
      (by apply at_pos_start || lia). case_cmps. cbn. rewrite Z.sub_diag, buffer_push_0. done.
  - intros Hle outs rest Hr. unfold silc_buffer_unformat. fold st.
    cbn [unformat_loop unformat_step]. unfold st; cbn [us_src].
    pose proof (at_pos_start b Hok) as Hs.
    rewrite (at_pos_has_space b Hok (b_data b)) by (done || lia). case_cmps.
    cbn [negb us_step us_out us_advance app].
    pose proof (at_pos_pull b Hok (b_data b) b n Hs ltac:(lia)) as Hs'.
    destruct (unformat_loop_refines b Hok ap {| us_src := silc_buffer_pull b n;
      us_advance := false; us_out := [] |} (zdrop n (b_data b)) Hp Hs') as [Ha Hx].
    destruct (unformat_loop _ ap) as [ok st']; cbn [fst snd] in *. rewrite Hr in Hx.
    destruct Hx as (-> & Hp' & ->). rewrite Ha.
    by destruct (at_pos_push_back b Hok _ _ Hp') as [-> ->].
Qed.

Lemma unformat_OFFSET_witness :
  silc_buffer_unformat (silc_buffer_set [5; 6; 7]) [U_OFFSET 1; U_UI8_CHAR true] =
    (1, [ONum 5], silc_buffer_set [5; 6; 7]) /\
  silc_buffer_unformat (silc_buffer_set [5; 6; 7]) [U_OFFSET 2; U_UI8_CHAR true] =
    (3, [ONum 7], silc_buffer_set [5; 6; 7]).
Proof.
  destruct (unformat_OFFSET (silc_buffer_set [5; 6; 7]) 2 [U_UI8_CHAR true] eq_refl
    ltac:(lia) ltac:(repeat constructor)) as (H1 & _ & H2).
  split; [rewrite H1; vm_compute; reflexivity|].
  rewrite (H2 ltac:(vm_compute; congruence) [ONum 7] []); vm_compute; reflexivity.
Defined.
