(* ===== verification/Id.v ===== *)
(** lib/silccore/silcid.c: SILC IDs and the ID Payload. *)

From S2P Require Import Prelude CTypes Buffer BufFmt BufFmtSpec.

Definition SILC_PACKET_MAX_ID_LEN : Z := 28.
Definition CLIENTID_HASH_LEN : Z := 11.

Definition ID_SERVER_LEN_PART : Z := 4.
Definition ID_CLIENT_LEN_PART : Z := CLIENTID_HASH_LEN + 1.
Definition ID_CHANNEL_LEN_PART : Z := 4.

Definition SILC_ID_NONE : Z := 0.
Definition SILC_ID_SERVER : Z := 1.
Definition SILC_ID_CLIENT : Z := 2.
Definition SILC_ID_CHANNEL : Z := 3.

Record SilcIDIP := { ip_data : list Z; ip_data_len : Z }.

Record SilcServerID := { sid_ip : SilcIDIP; sid_port : Z; sid_rnd : Z }.
Record SilcClientID := { cid_ip : SilcIDIP; cid_rnd : Z; cid_hash : list Z }.
Record SilcChannelID := { chid_ip : SilcIDIP; chid_port : Z; chid_rnd : Z }.

(** An ID and its type: the [void *] and SilcIdType arguments of the routines,
    and the tagged union SilcID.  [IdOther] is a type the switches do not know. *)
Inductive SilcID :=
| IdServer (id : SilcServerID)
| IdClient (id : SilcClientID)
| IdChannel (id : SilcChannelID)
| IdOther (type : Z).

Definition silc_id_type (id : SilcID) : Z :=
  match id with
  | IdServer _ => SILC_ID_SERVER
  | IdClient _ => SILC_ID_CLIENT
  | IdChannel _ => SILC_ID_CHANNEL
  | IdOther t => t
  end.

(** Sizes of the structures (16 byte address, its length, then the fields at
    their natural alignment). *)
Definition sizeof_SilcServerID : Z := 22.
Definition sizeof_SilcClientID : Z := 29.
Definition sizeof_SilcChannelID : Z := 22.

Definition silc_id_get_len (id : SilcID) : Z :=
  match id with
  | IdServer s => ID_SERVER_LEN_PART + ip_data_len (sid_ip s)
  | IdClient c => ID_CLIENT_LEN_PART + ip_data_len (cid_ip c)
  | IdChannel c => ID_CHANNEL_LEN_PART + ip_data_len (chid_ip c)
  | IdOther _ => 0
  end.

(** Gives the string; its length is *ret_id_len. *)
Definition silc_id_id2str (id : SilcID) (ret_id_size : Z) : option (list Z) :=
  let id_len := silc_id_get_len id in
  if ret_id_size <? id_len then None
  else if SILC_PACKET_MAX_ID_LEN <? id_len then None
  else
    match id with
    | IdServer s =>
        Some (mem_read (ip_data (sid_ip s)) (ip_data_len (sid_ip s)) ++
              SILC_PUT16_MSB (sid_port s) ++ SILC_PUT16_MSB (sid_rnd s))
    | IdClient c =>
        Some (mem_read (ip_data (cid_ip c)) (ip_data_len (cid_ip c)) ++
              [cid_rnd c] ++ mem_read (cid_hash c) CLIENTID_HASH_LEN)
    | IdChannel c =>
        Some (mem_read (ip_data (chid_ip c)) (ip_data_len (chid_ip c)) ++
              SILC_PUT16_MSB (chid_port c) ++ SILC_PUT16_MSB (chid_rnd c))
    | IdOther _ => None
    end.

(** The address part: 16 zeroed bytes the first 4 or 16 of which are copied. *)
Definition str2ip (id : list Z) (id_len len_part : Z) : SilcIDIP :=
  let n := if len_part + 4 <? id_len then 16 else 4 in
  {| ip_data := mem_read id n ++ zrepeat 0 (16 - n); ip_data_len := n |}.

Definition silc_id_str2id (id : list Z) (id_len type ret_id_size : Z) : option SilcID :=
  if SILC_PACKET_MAX_ID_LEN <? id_len then None
  else if type =? SILC_ID_SERVER then
    if negb (id_len =? ID_SERVER_LEN_PART + 4) && negb (id_len =? ID_SERVER_LEN_PART + 16)
    then None
    else if ret_id_size <? sizeof_SilcServerID then None
    else
      let ip := str2ip id id_len ID_SERVER_LEN_PART in
      Some (IdServer {| sid_ip := ip;
                        sid_port := SILC_GET16_MSB (zdrop (ip_data_len ip) id);
                        sid_rnd := SILC_GET16_MSB (zdrop (ip_data_len ip + 2) id) |})
  else if type =? SILC_ID_CLIENT then
    if negb (id_len =? ID_CLIENT_LEN_PART + 4) && negb (id_len =? ID_CLIENT_LEN_PART + 16)
    then None
    else if ret_id_size <? sizeof_SilcClientID then None
    else
      let ip := str2ip id id_len ID_CLIENT_LEN_PART in
      Some (IdClient {| cid_ip := ip;
                        cid_rnd := byte_at id (ip_data_len ip);
                        cid_hash := mem_read (zdrop (ip_data_len ip + 1) id)
                                             CLIENTID_HASH_LEN |})
  else if type =? SILC_ID_CHANNEL then
    if negb (id_len =? ID_CHANNEL_LEN_PART + 4) && negb (id_len =? ID_CHANNEL_LEN_PART + 16)
    then None
    else if ret_id_size <? sizeof_SilcChannelID then None
    else
      let ip := str2ip id id_len ID_CHANNEL_LEN_PART in
      Some (IdChannel {| chid_ip := ip;
                         chid_port := SILC_GET16_MSB (zdrop (ip_data_len ip) id);
                         chid_rnd := SILC_GET16_MSB (zdrop (ip_data_len ip + 2) id) |})
  else None.

(** silc_id_str2id2: the size of the union member for the type. *)
Definition silc_id_str2id2 (id : list Z) (id_len type : Z) : option SilcID :=
  if type =? SILC_ID_CLIENT then silc_id_str2id id id_len type sizeof_SilcClientID
  else if type =? SILC_ID_SERVER then silc_id_str2id id id_len type sizeof_SilcServerID
  else if type =? SILC_ID_CHANNEL then silc_id_str2id id id_len type sizeof_SilcChannelID
  else None.

(** * ID Payload *)

Record SilcIDPayload := { idp_type : Z; idp_len : Z; idp_id : option (list Z) }.

Definition silc_id_payload_parse (payload : list Z) : option SilcIDPayload :=
  let buffer := silc_buffer_set payload in
  let '(ret, out, buffer) :=
    silc_buffer_unformat buffer [U_UI16_SHORT true; U_UI16_SHORT true] in
  if ret =? -1 then None
  else
    let type := out_num out 0 in
    let len := out_num out 1 in
    if SILC_ID_CHANNEL <? type then None
    else
      let buffer := silc_buffer_pull buffer 4 in
      if (silc_buffer_len buffer <? len) || (SILC_PACKET_MAX_ID_LEN <? len) then None
      else
        let '(ret, out, buffer) := silc_buffer_unformat buffer [U_DATA_ALLOC true len] in
        if ret =? -1 then None
        else Some {| idp_type := type; idp_len := len; idp_id := out_ptr out 0 |}.

Definition silc_id_payload_parse_id (data : list Z) : option SilcID :=
  let buffer := silc_buffer_set data in
  let '(ret, out, buffer) :=
    silc_buffer_unformat buffer [U_UI16_SHORT true; U_UI16_SHORT true] in
  if ret =? -1 then None
  else
    let type := out_num out 0 in
    let idlen := out_num out 1 in
    if SILC_ID_CHANNEL <? type then None
    else
      let buffer := silc_buffer_pull buffer 4 in
      if (silc_buffer_len buffer <? idlen) || (SILC_PACKET_MAX_ID_LEN <? idlen) then None
      else
        let '(ret, out, buffer) := silc_buffer_unformat buffer [U_DATA true idlen] in
        if ret =? -1 then None
        else
          let id_data := ptr_bytes (out_ptr out 0) in
          if type =? SILC_ID_CLIENT then
            silc_id_str2id id_data idlen type sizeof_SilcClientID
          else if type =? SILC_ID_SERVER then
            silc_id_str2id id_data idlen type sizeof_SilcServerID
          else silc_id_str2id id_data idlen type sizeof_SilcChannelID.

Definition silc_id_payload_encode_data (id : list Z) (id_len type : Z) : option SilcBuffer :=
  match silc_buffer_alloc_size (u32 (4 + id_len)) with
  | None => None
  | Some buffer =>
      Some (silc_buffer_format buffer
              [F_UI16_SHORT type; F_UI16_SHORT id_len; F_DATA (Some id) id_len]).2
  end.

Definition silc_id_payload_encode (id : SilcID) : option SilcBuffer :=
  match silc_id_id2str id 32 with
  | None => None
  | Some id_data =>
      silc_id_payload_encode_data id_data (silc_id_get_len id) (silc_id_type id)
  end.

Definition silc_id_payload_get_type (payload : option SilcIDPayload) : Z :=
  match payload with Some p => idp_type p | None => 0 end.

Definition silc_id_payload_get_id (payload : option SilcIDPayload) (ret_id_len : Z)
  : option SilcID :=
  match payload with
  | None => None
  | Some p => silc_id_str2id (ptr_bytes (idp_id p)) (idp_len p) (idp_type p) ret_id_len
  end.

Definition silc_id_payload_get_data (payload : option SilcIDPayload) : option (list Z) :=
  match payload with
  | None => None
  | Some p => silc_memdup (ptr_bytes (idp_id p)) (idp_len p)
  end.

Definition silc_id_payload_get_len (payload : option SilcIDPayload) : Z :=
  match payload with Some p => idp_len p | None => 0 end.

(** silc_id_dup: a copy of the structure for a known type, NULL otherwise. *)
Definition silc_id_dup (id : SilcID) : option SilcID :=
  match id with IdOther _ => None | _ => Some id end.

(** * Well-formed IDs *)

Definition ip_wf (ip : SilcIDIP) : Prop :=
  exists a, ip_data ip = a ++ zrepeat 0 (16 - ip_data_len ip) /\ bytes_ok a /\
    zlen a = ip_data_len ip /\ (ip_data_len ip = 4 \/ ip_data_len ip = 16).

Definition id_wf (id : SilcID) : Prop :=
  match id with
  | IdServer s => ip_wf (sid_ip s) /\ 0 <= sid_port s < 65536 /\ 0 <= sid_rnd s < 65536
  | IdClient c => ip_wf (cid_ip c) /\ is_byte (cid_rnd c) /\
                  bytes_ok (cid_hash c) /\ zlen (cid_hash c) = CLIENTID_HASH_LEN
  | IdChannel c => ip_wf (chid_ip c) /\ 0 <= chid_port c < 65536 /\ 0 <= chid_rnd c < 65536
  | IdOther _ => False
  end.

Lemma ip_read a ip :
  ip_data ip = a ++ zrepeat 0 (16 - ip_data_len ip) -> zlen a = ip_data_len ip ->
  mem_read (ip_data ip) (ip_data_len ip) = a.
Proof.
  intros -> Ha. rewrite mem_read_le by (rewrite <- Ha; len). by apply ztake_app_exact.
Qed.

Lemma ip_eta ip a :
  ip_data ip = a ++ zrepeat 0 (16 - ip_data_len ip) ->
  ip = {| ip_data := a ++ zrepeat 0 (16 - ip_data_len ip); ip_data_len := ip_data_len ip |}.
Proof. by destruct ip; simpl; intros ->. Qed.

(** Reading back the address of a string that starts with it. *)
Lemma str2ip_app a k part n :
  zlen a = n -> n = 4 \/ n = 16 -> zlen k = part ->
  str2ip (a ++ k) (zlen (a ++ k)) part =
    {| ip_data := a ++ zrepeat 0 (16 - n); ip_data_len := n |}.
Proof.
  intros Ha Hn Hk. unfold str2ip.
  replace (if part + 4 <? _ then 16 else 4) with n by (autorewrite with silc_len; zcase; lia).
  rewrite mem_read_le, ztake_app_exact by len. done.
Qed.

(** Server and channel IDs: an address, a port and a random number. *)
Definition ip_port_rnd (ip : SilcIDIP) (x y : Z) : list Z :=
  mem_read (ip_data ip) (ip_data_len ip) ++ SILC_PUT16_MSB x ++ SILC_PUT16_MSB y.

Lemma ip_port_rnd_ok ip x y s :
  ip_wf ip -> 0 <= x < 65536 -> 0 <= y < 65536 -> s = ip_port_rnd ip x y ->
  zlen s = 4 + ip_data_len ip /\ bytes_ok s /\ str2ip s (zlen s) 4 = ip /\
  SILC_GET16_MSB (zdrop (ip_data_len ip) s) = x /\
  SILC_GET16_MSB (zdrop (ip_data_len ip + 2) s) = y.
Proof.
  intros (a & Hd & Hab & Ha & Hn) Hx Hy ->. unfold ip_port_rnd.
  rewrite (ip_read a) by done. split_and!.
  - len.
  - rewrite !Forall_app. auto with silc.
  - rewrite (str2ip_app _ _ _ (ip_data_len ip)) by (done || len).
    symmetry. by apply ip_eta.
  - rewrite zdrop_app_exact by done. rewrite SILC_GET16_PUT16_MSB. by apply u16_id.
  - rewrite app_assoc, zdrop_app_exact by len.
    rewrite <- (app_nil_r (SILC_PUT16_MSB y)), SILC_GET16_PUT16_MSB. by apply u16_id.
Qed.

(** Client IDs: an address, a random byte and a hash. *)
Definition ip_rnd_hash (ip : SilcIDIP) (r : Z) (h : list Z) : list Z :=
  mem_read (ip_data ip) (ip_data_len ip) ++ [r] ++ mem_read h CLIENTID_HASH_LEN.

Lemma ip_rnd_hash_ok ip r h s :
  ip_wf ip -> is_byte r -> bytes_ok h -> zlen h = CLIENTID_HASH_LEN ->
  s = ip_rnd_hash ip r h ->
  zlen s = 12 + ip_data_len ip /\ bytes_ok s /\ str2ip s (zlen s) 12 = ip /\
  byte_at s (ip_data_len ip) = r /\
  mem_read (zdrop (ip_data_len ip + 1) s) CLIENTID_HASH_LEN = h.
Proof.
  intros (a & Hd & Hab & Ha & Hn) Hr Hh Hl ->. unfold ip_rnd_hash.
  rewrite (ip_read a), (mem_read_exact h) by done.
  unfold CLIENTID_HASH_LEN in *. split_and!.
  - len.
  - rewrite !Forall_app, Forall_singleton. done.
  - rewrite (str2ip_app _ _ _ (ip_data_len ip)) by (done || len).
    symmetry. by apply ip_eta.
  - rewrite byte_at_app_r by lia. by rewrite Ha, Z.sub_diag.
  - rewrite app_assoc, zdrop_app_exact by len. by apply mem_read_exact.
Qed.

Ltac unfold_id :=
  unfold silc_id_id2str, silc_id_str2id2, silc_id_str2id, silc_id_get_len, silc_id_type,
    ID_SERVER_LEN_PART, ID_CLIENT_LEN_PART, ID_CHANNEL_LEN_PART, SILC_PACKET_MAX_ID_LEN,
    SILC_ID_CLIENT, SILC_ID_SERVER, SILC_ID_CHANNEL, CLIENTID_HASH_LEN,
    sizeof_SilcServerID, sizeof_SilcClientID, sizeof_SilcChannelID in *;
  cbn [sid_ip sid_port sid_rnd cid_ip cid_rnd cid_hash chid_ip chid_port chid_rnd] in *.

Lemma ip_wf_len ip : ip_wf ip -> ip_data_len ip = 4 \/ ip_data_len ip = 16.
Proof. by intros (a & ? & ? & ? & ?). Qed.

(** The string of a well-formed ID, and what it parses to. *)
Lemma id_str_roundtrip_aux id size :
  id_wf id -> 28 <= size ->
  exists s, silc_id_id2str id size = Some s /\ zlen s = silc_id_get_len id /\
    bytes_ok s /\ zlen s <= 28 /\
    silc_id_str2id2 s (zlen s) (silc_id_type id) = Some id.
Proof.
  intros Hwf Hsize.
  destruct id as [[ip p r]|[ip r h]|[ip p r]|]; [| | |done]; cbn in Hwf;
    destruct Hwf as (Hip & H1 & H2); try destruct H2 as [H2 H3];
    pose proof (ip_wf_len ip Hip) as Hn; unfold_id; case_cmps;
    (eexists; split; [done|]);
    match goal with |- context [zlen ?l = _] => set (s := l) end.
  - destruct (ip_port_rnd_ok ip p r s) as (Hl & Hb & Hs & Hg1 & Hg2); try done; try lia.
    rewrite Hs, Hg1, Hg2. split_and!; try done; [lia|]. case_cmps; try lia; done.
  - destruct (ip_rnd_hash_ok ip r h s) as (Hl & Hb & Hs & Hg1 & Hg2); try done.
    unfold CLIENTID_HASH_LEN in Hg2; change (11 + 1) with 12. rewrite Hs, Hg1, Hg2.
    split_and!; try done; [lia|]. case_cmps; try lia; done.
  - destruct (ip_port_rnd_ok ip p r s) as (Hl & Hb & Hs & Hg1 & Hg2); try done; try lia.
    rewrite Hs, Hg1, Hg2. split_and!; try done; [lia|]. case_cmps; try lia; done.
Qed.

(** Conversely, a string an ID is read from is the string of that ID. *)
Lemma ip_port_split s n :
  bytes_ok s -> zlen s = n + 4 -> n = 4 \/ n = 16 ->
  exists a x y, s = a ++ SILC_PUT16_MSB x ++ SILC_PUT16_MSB y /\ zlen a = n /\
    bytes_ok a /\ 0 <= x < 65536 /\ 0 <= y < 65536.
Proof.
  intros Hb Hl Hn. destruct (zsplit n s) as (a & k & -> & Ha); [lia|].
  rewrite Forall_app in Hb. destruct Hb as [Hab Hkb]. rewrite length_app in Hl.
  destruct (bytes_ok_split 2 k Hkb) as [_ Hkb'].
  assert (zlen k = 4) as Hk by lia.
  pose proof (PUT16_GET16 k Hkb ltac:(lia)) as E1.
  pose proof (PUT16_GET16 (zdrop 2 k) Hkb' ltac:(len)) as E2.
  rewrite (zlen_0_nil (zdrop 2 (zdrop 2 k))), app_nil_r in E2 by len.
  exists a, (SILC_GET16_MSB k), (SILC_GET16_MSB (zdrop 2 k)).
  rewrite <- E2, <- E1. split_and!; try done; apply SILC_GET16_MSB_range.
Qed.

Lemma ip_wf_str2ip a n : zlen a = n -> bytes_ok a -> n = 4 \/ n = 16 ->
  ip_wf {| ip_data := a ++ zrepeat 0 (16 - n); ip_data_len := n |}.
Proof. intros. by exists a. Qed.

Lemma ip_port_parsed s n :
  bytes_ok s -> zlen s = n + 4 -> n = 4 \/ n = 16 ->
  let ip := str2ip s (zlen s) 4 in
  ip_wf ip /\ ip_data_len ip = n /\
  s = ip_port_rnd ip (SILC_GET16_MSB (zdrop n s)) (SILC_GET16_MSB (zdrop (n + 2) s)).
Proof.
  intros Hb Hl Hn ip. destruct (ip_port_split s n) as (a & x & y & Hs & Ha & ? & ? & ?);
    [done..|]. set (r := SILC_PUT16_MSB x ++ SILC_PUT16_MSB y) in Hs.
  assert (ip = {| ip_data := a ++ zrepeat 0 (16 - n); ip_data_len := n |}) as Hip.
  { unfold ip. rewrite Hs. by apply str2ip_app. }
  assert (ip_wf ip) as Hwf by (rewrite Hip; by apply ip_wf_str2ip).
  assert (s = ip_port_rnd ip x y) as Hs'.
  { unfold ip_port_rnd. rewrite Hip, (ip_read a) by done. done. }
  destruct (ip_port_rnd_ok ip x y s) as (_ & _ & _ & Hg1 & Hg2); try done.
  assert (ip_data_len ip = n) as Hn' by (by rewrite Hip).
  rewrite Hn' in Hg1, Hg2. by rewrite Hg1, Hg2.
Qed.

Lemma ip_rnd_parsed s n :
  bytes_ok s -> zlen s = n + 12 -> n = 4 \/ n = 16 ->
  let ip := str2ip s (zlen s) 12 in
  let h := mem_read (zdrop (n + 1) s) CLIENTID_HASH_LEN in
  ip_wf ip /\ ip_data_len ip = n /\ s = ip_rnd_hash ip (byte_at s n) h /\
  is_byte (byte_at s n) /\ bytes_ok h /\ zlen h = CLIENTID_HASH_LEN.
Proof.
  intros Hb Hl Hn ip h. destruct (zsplit n s) as (a & k & Hs & Ha); [lia|].
  assert (zlen k = 12) as Hk by (rewrite Hs in Hl; len).
  assert (ip = {| ip_data := a ++ zrepeat 0 (16 - n); ip_data_len := n |}) as Hip.
  { unfold ip. rewrite Hs. by apply str2ip_app. }
  rewrite Hs, Forall_app in Hb. destruct Hb as [Hab Hkb].
  destruct k as [|r k]; [done|]. apply Forall_cons_iff in Hkb as [Hr Hkb].
  assert (zlen k = CLIENTID_HASH_LEN) as Hk' by (unfold CLIENTID_HASH_LEN; len).
  assert (h = k) as Hh.
  { unfold h. change (r :: k) with ([r] ++ k) in Hs. rewrite Hs, app_assoc.
    rewrite zdrop_app_exact by len. by apply mem_read_exact. }
  assert (byte_at s n = r) as Hby.
  { rewrite Hs, byte_at_app_r, Ha, Z.sub_diag by lia. done. }
  split_and!; try congruence.
  - rewrite Hip. by apply ip_wf_str2ip.
  - by rewrite Hip.
  - rewrite Hby, Hh, Hip. unfold ip_rnd_hash.
    rewrite (ip_read a), mem_read_exact by done. done.
Qed.

Lemma id_len_guard n p :
  negb (n =? p + 4) && negb (n =? p + 16) = false -> n = p + 4 \/ n = p + 16.
Proof. case_cmps; done || lia. Qed.

Lemma str_id_roundtrip_aux s t id size :
  bytes_ok s -> silc_id_str2id2 s (zlen s) t = Some id -> 28 <= size ->
  id_wf id /\ silc_id_type id = t /\ silc_id_id2str id size = Some s.
Proof.
  intros Hb Hs Hsize. revert Hs. unfold_id. change (11 + 1) with 12.
  destruct (Z.eqb_spec t 2) as [->|]; [|destruct (Z.eqb_spec t 1) as [->|];
    [|destruct (Z.eqb_spec t 3) as [->|]; [|done]]]; cbn [Z.eqb Pos.eqb];
    (destruct (_ <? zlen s); [done|]); cbn [Z.ltb Z.compare Pos.compare Pos.compare_cont];
    destruct (_ && _) eqn:E; try done; apply id_len_guard in E.
  - destruct (ip_rnd_parsed s (zlen s - 12)) as (Hip & Hn & Hs & Hr & Hh & Hhl);
      [done|lia..|].
    rewrite Hn. intros [= <-]. cbn [id_wf cid_ip cid_rnd cid_hash].
    split_and!; try done.
    case_cmps. f_equal. symmetry. exact Hs.
  - destruct (ip_port_parsed s (zlen s - 4)) as (Hip & Hn & Hs);
      [done|lia..|].
    rewrite Hn. intros [= <-]. cbn [id_wf sid_ip sid_port sid_rnd].
    split_and!; try done; try apply SILC_GET16_MSB_range.
    case_cmps. f_equal. symmetry. exact Hs.
  - destruct (ip_port_parsed s (zlen s - 4)) as (Hip & Hn & Hs);
      [done|lia..|].
    rewrite Hn. intros [= <-]. cbn [id_wf chid_ip chid_port chid_rnd].
    split_and!; try done; try apply SILC_GET16_MSB_range.
    case_cmps. f_equal. symmetry. exact Hs.
Qed.

(** * The payload *)

(** The type and the raw ID at the start of [data]. *)
Definition id_body (data : list Z) : option (Z * list Z) :=
  if zlen data <? 4 then None
  else
    let type := SILC_GET16_MSB data in
    let len := SILC_GET16_MSB (zdrop 2 data) in
    if 3 <? type then None
    else if (zlen data - 4 <? len) || (28 <? len) then None
    else Some (type, ztake len (zdrop 4 data)).

Lemma id_header data :
  zlen data < SILC_MAX_ALLOC -> 4 <= zlen data ->
  silc_buffer_unformat (silc_buffer_set data) [U_UI16_SHORT true; U_UI16_SHORT true] =
    (4, [ONum (SILC_GET16_MSB data); ONum (SILC_GET16_MSB (zdrop 2 data))],
     silc_buffer_set data) /\
  silc_buffer_pull (silc_buffer_set data) 4 =
    {| b_head := ztake 4 data; b_data := zdrop 4 data; b_tail := [] |}.
Proof.
  intros Hm H4. pose proof (buffer_set_ok _ Hm) as Hok. split.
  - erewrite (unformat_some _ _ _ (zdrop 4 data)); [|done|by repeat constructor|].
    + rewrite zlen_zdrop by lia. simpl. do 3 f_equal. lia.
    + cbn. unfold parse_num. case_cmps; try len.
      rewrite zdrop_zdrop by lia. done.
  - unfold silc_buffer_pull. rewrite buffer_set_len by done. case_cmps. done.
Qed.

Lemma id_header_short data : zlen data < 4 ->
  exists outs, silc_buffer_unformat (silc_buffer_set data)
    [U_UI16_SHORT true; U_UI16_SHORT true] = (-1, outs, silc_buffer_set data).
Proof.
  intros H. apply unformat_none; [by apply buffer_set_ok; unfold SILC_MAX_ALLOC; lia|
    by repeat constructor|].
  cbn. unfold parse_num. case_cmps; try done. len.
Qed.

Lemma silc_id_payload_parse_id_spec data :
  zlen data < SILC_MAX_ALLOC ->
  silc_id_payload_parse_id data =
  match id_body data with
  | Some (type, s) => silc_id_str2id2 s (zlen s) type
  | None => None
  end.
Proof.
  intros Hm. unfold silc_id_payload_parse_id, id_body. zcase.
  { by destruct (id_header_short data H) as (outs & ->). }
  destruct (id_header data Hm H) as [-> Hp].
  cbn [Z.eqb out_num nth_error]. unfold SILC_ID_CHANNEL. zcase; [done|]. rewrite Hp.
  assert (buf_ok {| b_head := ztake 4 data; b_data := zdrop 4 data; b_tail := [] |}) as Hok.
  { rewrite <- Hp. by apply buffer_pull_ok, buffer_set_ok. }
  rewrite buffer_len_ok by done. cbn [b_data]. rewrite zlen_zdrop by lia.
  set (len := SILC_GET16_MSB (zdrop 2 data)).
  pose proof (SILC_GET16_MSB_range (zdrop 2 data)) as Hr.
  unfold SILC_PACKET_MAX_ID_LEN. destruct (_ || _) eqn:E; [done|].
  assert (0 <= len <= zlen data - 4 /\ len <= 28) as [Hl H28]
    by (revert E; case_cmps; done || lia).
  assert (zlen (ztake len (zdrop 4 data)) = len) as Hs by (apply zlen_ztake; len).
  rewrite unformat_DATA by (done || cbn [b_data]; len). zcase; [lia|].
  pose proof (ptr_bytes_data (ztake len (zdrop 4 data))) as Hpb. rewrite Hs in Hpb.
  cbn [out_ptr nth_error b_data]. rewrite !Hpb.
  set (s := ztake len (zdrop 4 data)) in *.
  rewrite Hs. unfold silc_id_str2id2. unfold SILC_ID_CLIENT, SILC_ID_SERVER, SILC_ID_CHANNEL.
  destruct (Z.eqb_spec (SILC_GET16_MSB data) 2); [done|].
  destruct (Z.eqb_spec (SILC_GET16_MSB data) 1); [done|].
  destruct (Z.eqb_spec (SILC_GET16_MSB data) 3); [done|].
  unfold silc_id_str2id, SILC_ID_CLIENT, SILC_ID_SERVER, SILC_ID_CHANNEL.
  case_cmps; try done; lia.
Qed.

Lemma silc_id_payload_parse_spec data :
  zlen data < SILC_MAX_ALLOC ->
  silc_id_payload_parse data =
  match id_body data with
  | Some (type, s) =>
      Some {| idp_type := type; idp_len := zlen s; idp_id := dup_bytes s |}
  | None => None
  end.
Proof.
  intros Hm. unfold silc_id_payload_parse, id_body. zcase.
  { by destruct (id_header_short data H) as (outs & ->). }
  destruct (id_header data Hm H) as [-> Hp].
  cbn [Z.eqb out_num nth_error]. unfold SILC_ID_CHANNEL. zcase; [done|]. rewrite Hp.
  assert (buf_ok {| b_head := ztake 4 data; b_data := zdrop 4 data; b_tail := [] |}) as Hok.
  { rewrite <- Hp. by apply buffer_pull_ok, buffer_set_ok. }
  rewrite buffer_len_ok by done. cbn [b_data]. rewrite zlen_zdrop by lia.
  set (len := SILC_GET16_MSB (zdrop 2 data)).
  pose proof (SILC_GET16_MSB_range (zdrop 2 data)) as Hr.
  unfold SILC_PACKET_MAX_ID_LEN. destruct (_ || _) eqn:E; [done|].
  assert (0 <= len <= zlen data - 4 /\ len <= 28) as [Hl H28]
    by (revert E; case_cmps; done || lia).
  rewrite unformat_DATA_ALLOC by (done || cbn [b_data]; len). zcase; [lia|].
  rewrite zlen_ztake by len. done.
Qed.

(** ** The wire form *)

Definition id_wire (type : Z) (s : list Z) : list Z :=
  SILC_PUT16_MSB type ++ SILC_PUT16_MSB (zlen s) ++ s.

Lemma silc_id_payload_encode_data_spec s type :
  zlen s < 65536 -> 0 <= type < 65536 ->
  silc_id_payload_encode_data s (zlen s) type = Some (silc_buffer_set (id_wire type s)).
Proof.
  intros Hs Ht. unfold silc_id_payload_encode_data.
  rewrite u32_id, buffer_alloc_size_ok by (unfold SILC_MAX_ALLOC; lia).
  assert (fmt_bytes [F_UI16_SHORT type; F_UI16_SHORT (zlen s); F_DATA (Some s) (zlen s)]
          = id_wire type s) as E.
  { unfold fmt_bytes. cbn [map concat fmt_bytes1].
    rewrite !u16_id, mem_read_exact, app_nil_r by (done || lia). done. }
  rewrite format_exact.
  - by rewrite E.
  - repeat constructor. simpl. lia.
  - rewrite E. unfold id_wire. len.
  - unfold SILC_MAX_ALLOC. lia.
Qed.

Lemma id_body_wire type s rest :
  0 <= type <= 3 -> zlen s <= 28 -> id_body (id_wire type s ++ rest) = Some (type, s).
Proof.
  intros Ht Hs. unfold id_body, id_wire. rewrite <- !app_assoc.
  rewrite (zdrop_app_exact 2) by done.
  rewrite !SILC_GET16_PUT16_MSB, !u16_id by lia.
  rewrite (app_assoc (SILC_PUT16_MSB type)), (zdrop_app_exact 4) by done.
  rewrite ztake_app_exact by done.
  autorewrite with silc_len. case_cmps; done.
Qed.

Lemma id_body_inv data type s :
  bytes_ok data -> id_body data = Some (type, s) ->
  0 <= type <= 3 /\ zlen s <= 28 /\ bytes_ok s /\ exists rest, data = id_wire type s ++ rest.
Proof.
  intros Hb. unfold id_body. pose proof (SILC_GET16_MSB_range data).
  pose proof (SILC_GET16_MSB_range (zdrop 2 data)). zcase; [done|]. zcase; [done|].
  destruct (_ || _) eqn:E; [done|]. intros [= <- <-].
  assert (0 <= SILC_GET16_MSB (zdrop 2 data) <= zlen data - 4 /\
    SILC_GET16_MSB (zdrop 2 data) <= 28) as [Hl H28] by (revert E; case_cmps; done || lia).
  destruct (bytes_ok_split 2 data Hb) as [_ Hb2].
  destruct (bytes_ok_split 2 _ Hb2) as [_ Hb4]. rewrite zdrop_zdrop in Hb4 by lia.
  rewrite zlen_ztake by len. split_and!; try lia.
  - by apply bytes_ok_split.
  - exists (zdrop (SILC_GET16_MSB (zdrop 2 data)) (zdrop 4 data)).
    unfold id_wire. rewrite zlen_ztake by len.
    rewrite <- !app_assoc, ztake_zdrop, (PUT16_GET16 data) at 1 by (done || lia).
    f_equal. rewrite (PUT16_GET16 (zdrop 2 data)) at 1 by (done || len).
    f_equal. by rewrite zdrop_zdrop by lia.
Qed.

Lemma silc_id_payload_encode_spec id :
  id_wf id -> exists s, silc_id_payload_encode id =
      Some (silc_buffer_set (id_wire (silc_id_type id) s)) /\
    bytes_ok s /\ zlen s <= 28 /\ silc_id_id2str id 32 = Some s /\
    silc_id_str2id2 s (zlen s) (silc_id_type id) = Some id.
Proof.
  intros Hwf. destruct (id_str_roundtrip_aux id 32) as (s & Hs & Hl & Hb & H28 & Hr);
    [done|lia|]. exists s. unfold silc_id_payload_encode. rewrite Hs, <- Hl.
  rewrite silc_id_payload_encode_data_spec; [done|lia|].
  destruct id; simpl in Hwf; try done;
    unfold silc_id_type, SILC_ID_SERVER, SILC_ID_CLIENT, SILC_ID_CHANNEL; lia.
Qed.

Lemma id_type_range id : id_wf id -> 0 <= silc_id_type id <= 3.
Proof.
  destruct id; simpl; try done;
    unfold SILC_ID_SERVER, SILC_ID_CLIENT, SILC_ID_CHANNEL; lia.
Qed.

Lemma parse_id_encode id b rest :
  id_wf id -> silc_id_payload_encode id = Some b ->
  zlen (b_data b ++ rest) < SILC_MAX_ALLOC ->
  silc_id_payload_parse_id (b_data b ++ rest) = Some id.
Proof.
  intros Hwf Hb Hm. destruct (silc_id_payload_encode_spec id Hwf) as (s & He & _ & Hs & _ & Hr).
  rewrite Hb in He. injection He as ->. rewrite silc_id_payload_parse_id_spec by done.
  cbn [b_data silc_buffer_set]. rewrite id_body_wire by (try apply id_type_range; done).
  done.
Qed.

(** * Properties *)

(** silc_id_payload_parse_id accepts exactly the ID Payloads: on received
    bytes it returns an ID if and only if the bytes start with what
    silc_id_payload_encode makes of that ID, and the ID is well-formed (a 4 or
    16 byte address, ports and random numbers in range, an 11 byte hash).  So
    encoding and parsing are inverse, and nothing malformed gets through. *)
Theorem silc_id_payload_parse_id_iff data id :
  bytes_ok data -> zlen data < SILC_MAX_ALLOC ->
  silc_id_payload_parse_id data = Some id <->
  id_wf id /\ exists b rest, silc_id_payload_encode id = Some b /\ data = b_data b ++ rest.
Proof.
  intros Hb Hm. split.
  - rewrite silc_id_payload_parse_id_spec by done.
    destruct (id_body data) as [[t s]|] eqn:E; [|done]. intros Hid.
    destruct (id_body_inv _ _ _ Hb E) as (Ht & Hs & Hsb & rest & ->).
    destruct (str_id_roundtrip_aux s t id 32 Hsb Hid ltac:(lia)) as (Hwf & Hty & Hstr).
    split; [done|].
    destruct (silc_id_payload_encode_spec id Hwf) as (s' & He & _ & _ & Hs' & _).
    rewrite Hstr in Hs'. injection Hs' as <-. rewrite He, Hty. by eexists _, rest.
  - intros (Hwf & b & rest & Hb' & ->). by apply parse_id_encode.
Qed.

Definition witness_id_wire : list Z := [0; 1; 0; 8; 127; 0; 0; 1; 2; 194; 18; 52; 255].
Definition witness_id : SilcID :=
  IdServer {| sid_ip := {| ip_data := [127; 0; 0; 1; 0; 0; 0; 0; 0; 0; 0; 0; 0; 0; 0; 0];
                           ip_data_len := 4 |};
              sid_port := 706; sid_rnd := 4660 |}.

Lemma witness_id_wire_ok : bytes_ok witness_id_wire.
Proof. repeat constructor; unfold is_byte; lia. Qed.

Lemma silc_id_payload_parse_id_iff_witness :
  id_wf witness_id /\ exists b rest,
    silc_id_payload_encode witness_id = Some b /\ witness_id_wire = b_data b ++ rest.
Proof.
  apply (silc_id_payload_parse_id_iff witness_id_wire witness_id witness_id_wire_ok).
  - vm_compute; reflexivity.
  - vm_compute; reflexivity.
Defined.

(** The two ways to read an ID Payload agree: silc_id_payload_parse followed
    by silc_id_payload_get_id gives what silc_id_payload_parse_id gives,
    for every input, accepted or not. *)
Theorem silc_id_payload_get_id_parse data size :
  zlen data < SILC_MAX_ALLOC -> sizeof_SilcClientID <= size ->
  silc_id_payload_get_id (silc_id_payload_parse data) size = silc_id_payload_parse_id data.
Proof.
  intros Hm Hsize.
  rewrite silc_id_payload_parse_id_spec, silc_id_payload_parse_spec by done.
  destruct (id_body data) as [[t s]|] eqn:E; [|done].
  assert (zlen s <= 28) as Hs.
  { revert E. unfold id_body. pose proof (SILC_GET16_MSB_range (zdrop 2 data)).
    repeat (case_match; [done|]). intros [= <- <-].
    match goal with H : (_ || _) = false |- _ => revert H end. case_cmps; try done.
    intros _. len. }
  simpl. rewrite ptr_bytes_dup by (unfold SILC_MAX_ALLOC; lia). unfold_id.
  destruct (Z.eqb_spec t 2) as [->|]; [|destruct (Z.eqb_spec t 1) as [->|];
    [|destruct (Z.eqb_spec t 3) as [->|]]]; cbn [Z.eqb Pos.eqb]; try done;
    case_cmps; try done; lia.
Qed.

Lemma silc_id_payload_get_id_parse_witness :
  silc_id_payload_get_id (silc_id_payload_parse witness_id_wire) 29 = Some witness_id.
Proof.
  rewrite (silc_id_payload_get_id_parse witness_id_wire 29) by (vm_compute; congruence).
  vm_compute; reflexivity.
Defined.

(** silc_id_id2str and silc_id_str2id2 are inverse: a string of bytes that
    parses is the string of the ID it parses to, and a well-formed ID is read
    back from its string, whose length is silc_id_get_len. *)
Theorem silc_id_str2id2_id2str id s size :
  bytes_ok s -> 28 <= size ->
  silc_id_str2id2 s (zlen s) (silc_id_type id) = Some id <->
  id_wf id /\ zlen s = silc_id_get_len id /\ silc_id_id2str id size = Some s.
Proof.
  intros Hb Hsize. split.
  - intros H. destruct (str_id_roundtrip_aux s _ id size Hb H Hsize) as (Hwf & _ & Hs).
    split_and!; try done.
    destruct (id_str_roundtrip_aux id size Hwf Hsize) as (s' & Hs' & Hl & _).
    congruence.
  - intros (Hwf & _ & Hs).
    destruct (id_str_roundtrip_aux id size Hwf Hsize) as (s' & Hs' & _ & _ & _ & Hr).
    congruence.
Qed.

Lemma silc_id_str2id2_id2str_witness :
  id_wf witness_id /\ 8 = silc_id_get_len witness_id /\
  silc_id_id2str witness_id 28 = Some [127; 0; 0; 1; 2; 194; 18; 52].
Proof.
  apply (silc_id_str2id2_id2str witness_id [127; 0; 0; 1; 2; 194; 18; 52] 28).
  - repeat constructor; unfold is_byte; lia.
  - lia.
  - vm_compute; reflexivity.
Defined.
