(* ===== verification/Argument.v ===== *)
(** lib/silccore/silcargument.c: the Argument Payload and the Argument List
    Payload.

    The three parallel arrays argv, argv_lens and argv_types are one list of
    [Arg] records; argc is its length.  An argument pointer that is NULL is
    [None]. *)

From S2P Require Import Prelude CTypes Buffer BufFmt BufFmtSpec Id.

Record Arg := { arg_type : Z; arg_len : Z; arg_data : option (list Z) }.

Record SilcArgumentPayload := { ap_argv : list Arg; ap_pos : Z }.

Definition ap_argc (p : SilcArgumentPayload) : Z := zlen (ap_argv p).

(** * Parsing *)

Fixpoint argument_parse_loop (n : nat) (buffer : SilcBuffer) (argv : list Arg)
  : option (list Arg * SilcBuffer) :=
  match n with
  | O => Some (argv, buffer)
  | S n =>
      let '(ret, out, buffer) :=
        silc_buffer_unformat buffer [U_UI16_SHORT true; U_UI8_CHAR true] in
      let p_len := out_num out 0 in
      if (ret =? -1) || (u32 (silc_buffer_len buffer - 3) <? p_len) then None
      else
        let buffer := silc_buffer_pull buffer 3 in
        let '(ret, data, buffer) := silc_buffer_unformat buffer [U_DATA_ALLOC true p_len] in
        if ret =? -1 then None
        else
          argument_parse_loop n (silc_buffer_pull buffer p_len)
            (argv ++ [{| arg_type := out_num out 1; arg_len := p_len;
                         arg_data := out_ptr data 0 |}])
  end.

Definition silc_argument_payload_parse (payload : list Z) (argc : Z)
  : option SilcArgumentPayload :=
  let buffer := silc_buffer_set payload in
  if negb (silc_calloc_ok argc 8) then None
  else if negb (silc_calloc_ok argc 4) then None
  else
    match argument_parse_loop (Z.to_nat argc) buffer [] with
    | None => None
    | Some (argv, buffer) =>
        if negb (silc_buffer_len buffer =? 0) then None
        else Some {| ap_argv := argv; ap_pos := 0 |}
    end.

(** * Encoding *)

Definition args_total (w : Z -> Z) (argv : list Arg) : Z :=
  foldl (fun len a => u32 (len + (3 + w (arg_len a)))) 0 argv.

(** The loop that puts the arguments; [w] is the cast of the length. *)
Fixpoint argument_put_loop (w : Z -> Z) (buffer : SilcBuffer) (argv : list Arg)
  : SilcBuffer :=
  match argv with
  | [] => buffer
  | a :: argv =>
      let buffer :=
        (silc_buffer_format buffer
           [F_UI16_SHORT (arg_len a); F_UI8_CHAR (arg_type a);
            F_DATA (arg_data a) (w (arg_len a))]).2 in
      argument_put_loop w (silc_buffer_pull buffer (u32 (3 + w (arg_len a)))) argv
  end.

Definition silc_argument_payload_encode (argv : list Arg) : option SilcBuffer :=
  let len := args_total u16 argv in
  match silc_buffer_alloc_size len with
  | None => None
  | Some buffer => Some (silc_buffer_push (argument_put_loop u16 buffer argv) len)
  end.

Definition silc_argument_payload_encode_one (args : option SilcBuffer) (arg : option (list Z))
    (arg_len arg_type : Z) : option SilcBuffer :=
  let len := 3 + u16 arg_len in
  match silc_buffer_realloc args
          (match args with Some b => u32 (silc_buffer_truelen b + len) | None => len end) with
  | None => None
  | Some buffer =>
      let buffer := silc_buffer_pull buffer (silc_buffer_len buffer) in
      let buffer := silc_buffer_pull_tail buffer len in
      let buffer :=
        (silc_buffer_format buffer
           [F_UI16_SHORT arg_len; F_UI8_CHAR arg_type; F_DATA arg (u16 arg_len)]).2 in
      Some (silc_buffer_push buffer (u32 (zlen (b_head buffer))))
  end.

Definition silc_argument_payload_encode_payload (payload : SilcArgumentPayload)
  : option SilcBuffer :=
  let len := args_total id (ap_argv payload) in
  match silc_buffer_alloc_size len with
  | None => None
  | Some buffer => Some (silc_buffer_push (argument_put_loop id buffer (ap_argv payload)) len)
  end.

(** * Access *)

Definition silc_argument_get_arg_num (payload : option SilcArgumentPayload) : Z :=
  match payload with Some p => ap_argc p | None => 0 end.

(** What a get operation returns: the pointer, the type and the length. *)
Definition ArgOut : Type := option (list Z) * Z * Z.

Definition arg_out (a : Arg) : ArgOut := (arg_data a, arg_type a, arg_len a).
Definition arg_out_null : ArgOut := (None, 0, 0).

(** [argv[pos]]; outside the arrays the three values are indeterminate. *)
Definition ap_at (p : SilcArgumentPayload) (i : Z) : ArgOut :=
  match ap_argv p !! Z.to_nat i with
  | Some a => arg_out a
  | None => (Some [], indet, indet)
  end.

Definition silc_argument_get_first_arg (payload : SilcArgumentPayload)
  : ArgOut * SilcArgumentPayload :=
  (ap_at payload 0, {| ap_argv := ap_argv payload; ap_pos := 1 |}).

Definition silc_argument_get_next_arg (payload : SilcArgumentPayload)
  : ArgOut * SilcArgumentPayload :=
  if ap_argc payload <=? ap_pos payload then (arg_out_null, payload)
  else (ap_at payload (ap_pos payload),
        {| ap_argv := ap_argv payload; ap_pos := u32 (ap_pos payload + 1) |}).

(** The search loop: the first argument with the type, if any. *)
Fixpoint arg_type_loop (argv : list Arg) (type : Z) : option Arg :=
  match argv with
  | [] => None
  | a :: argv => if arg_type a =? type then Some a else arg_type_loop argv type
  end.

(** The pointer and the length. *)
Definition silc_argument_get_arg_type (payload : option SilcArgumentPayload) (type : Z)
  : option (list Z) * Z :=
  match payload with
  | None => (None, 0)
  | Some p =>
      match arg_type_loop (ap_argv p) type with
      | None => (None, 0)
      | Some a => (arg_data a, arg_len a)
      end
  end.

(** * Decoded arguments *)

Inductive SilcArgumentDecodeType :=
| SILC_ARGUMENT_ID
| SILC_ARGUMENT_PUBLIC_KEY
| SILC_ARGUMENT_ATTRIBUTES
| SILC_ARGUMENT_UINT32
| SILC_ARGUMENT_BOOL
| SILC_ARGUMENT_OTHER.  (** any other value: the default case *)

Section decode.

(** Two parsers of other components: silc_public_key_payload_decode (silcpk) and
    silc_attribute_payload_parse (silcattrs). *)
Context {PublicKey Attributes : Type}.
Variable silc_public_key_payload_decode : list Z -> option PublicKey.
Variable silc_attribute_payload_parse : list Z -> option Attributes.

Inductive Decoded :=
| DecId (id : SilcID)
| DecPublicKey (key : PublicKey)
| DecAttributes (attrs : option Attributes)
| DecUInt32 (x : Z)
| DecBool (b : bool).

(** [ret_arg] and [ret_arg_alloc] say which of the pointers is not NULL.
    [None] is FALSE; [Some v] is TRUE with [v] stored through the pointers that
    the case uses, if any. *)
Definition silc_argument_decode (data : list Z) (data_len : Z)
    (dec_type : SilcArgumentDecodeType) (ret_arg ret_arg_alloc : bool)
  : option (option Decoded) :=
  match dec_type with
  | SILC_ARGUMENT_ID =>
      if ret_arg || ret_arg_alloc then
        match silc_id_payload_parse_id (mem_read data data_len) with
        | None => None
        | Some id => Some (Some (DecId id))
        end
      else Some None
  | SILC_ARGUMENT_PUBLIC_KEY =>
      if negb ret_arg_alloc then None
      else
        match silc_public_key_payload_decode (mem_read data data_len) with
        | None => None
        | Some key => Some (Some (DecPublicKey key))
        end
  | SILC_ARGUMENT_ATTRIBUTES =>
      if negb ret_arg_alloc then None
      else Some (Some (DecAttributes (silc_attribute_payload_parse (mem_read data data_len))))
  | SILC_ARGUMENT_UINT32 =>
      if negb (data_len =? 4) then None
      else if ret_arg || ret_arg_alloc then Some (Some (DecUInt32 (SILC_GET32_MSB data)))
      else Some None
  | SILC_ARGUMENT_BOOL =>
      if negb (data_len =? 1) then None
      else if ret_arg || ret_arg_alloc then Some (Some (DecBool (byte_at data 0 =? 1)))
      else Some None
  | SILC_ARGUMENT_OTHER => None
  end.

Definition silc_argument_get_decoded (payload : option SilcArgumentPayload) (type : Z)
    (dec_type : SilcArgumentDecodeType) (ret_arg ret_arg_alloc : bool)
  : option (option Decoded) :=
  match silc_argument_get_arg_type payload type with
  | (None, _) => None
  | (Some tmp, tmp_len) => silc_argument_decode tmp tmp_len dec_type ret_arg ret_arg_alloc
  end.

(** ** Argument List Payload *)

Definition silc_argument_list_parse (payload : list Z) : option SilcArgumentPayload :=
  if zlen payload <? 5 then None
  else silc_argument_payload_parse (zdrop 2 payload) (SILC_GET16_MSB payload).

(** The while loop, run at most [fuel] times; [None] is lack of fuel. *)
Fixpoint argument_list_loop (fuel : nat) (dec_type : SilcArgumentDecodeType)
    (arg : SilcArgumentPayload) (cur : ArgOut) (list : list (Z * option Decoded))
  : option (Datatypes.list (Z * option Decoded)) :=
  match fuel with
  | O => None
  | S fuel =>
      match cur with
      | (None, _, _) => Some list
      | (Some data, type, data_len) =>
          let list :=
            match silc_argument_decode data data_len dec_type false true with
            | Some v => list ++ [(type, v)]
            | None => list
            end in
          let '(cur, arg) := silc_argument_get_next_arg arg in
          argument_list_loop fuel dec_type arg cur list
      end
  end.

Definition silc_argument_list_parse_decoded (fuel : nat) (payload : list Z)
    (dec_type : SilcArgumentDecodeType) : option (option (list (Z * option Decoded))) :=
  match silc_argument_list_parse payload with
  | None => Some None
  | Some arg =>
      let '(cur, arg) := silc_argument_get_first_arg arg in
      match argument_list_loop fuel dec_type arg cur [] with
      | None => None
      | Some l => Some (Some l)
      end
  end.
End decode.

(** * Well-formed arguments and their wire form *)

Definition arg_wf (a : Arg) : Prop :=
  is_byte (arg_type a) /\ arg_len a < 65536 /\
  match arg_data a with
  | None => arg_len a = 0
  | Some d => zlen d = arg_len a /\ 0 < arg_len a /\ bytes_ok d
  end.

Definition arg_wire (a : Arg) : list Z :=
  SILC_PUT16_MSB (arg_len a) ++ [arg_type a] ++ ptr_bytes (arg_data a).

Definition args_wire (argv : list Arg) : list Z := concat (map arg_wire argv).

Lemma arg_wf_len a : arg_wf a -> 0 <= arg_len a < 65536 /\ zlen (ptr_bytes (arg_data a)) = arg_len a.
Proof.
  intros (_ & ? & Hd). destruct (arg_data a); simpl; [|subst; lia].
  destruct Hd as (? & ? & ?). lia.
Qed.

Lemma arg_wire_len a : arg_wf a -> zlen (arg_wire a) = 3 + arg_len a.
Proof.
  intros Ha. destruct (arg_wf_len a Ha) as [? Hl]. unfold arg_wire.
  rewrite !length_app, <- Hl. simpl. lia.
Qed.

Lemma arg_wire_ok a : arg_wf a -> bytes_ok (arg_wire a).
Proof.
  intros (? & ? & Hd). unfold arg_wire. rewrite !Forall_app. split_and!.
  - auto with silc.
  - by rewrite Forall_singleton.
  - destruct (arg_data a); simpl; [tauto|by apply Forall_nil_2].
Qed.

(** What one argument's three format parameters write. *)
Lemma arg_format_bytes a w :
  arg_wf a -> w (arg_len a) = arg_len a ->
  let ap := [F_UI16_SHORT (arg_len a); F_UI8_CHAR (arg_type a);
             F_DATA (arg_data a) (w (arg_len a))] in
  Forall fmt_plain ap /\ fmt_bytes ap = arg_wire a.
Proof.
  intros Ha Hw ap. destruct (arg_wf_len a Ha) as [Hr Hl]. split.
  - repeat constructor. unfold fmt_plain. lia.
  - unfold ap, fmt_bytes, arg_wire. cbn [map concat fmt_bytes1].
    rewrite u16_id, u8_id by (try apply Ha; lia). rewrite Hw, app_nil_r.
    do 2 f_equal. destruct (arg_data a); [|done]. by apply mem_read_exact.
Qed.

(** The put loop fills the buffer with the wire form. *)
Lemma argument_put_loop_spec w argv h d :
  Forall arg_wf argv -> (forall a, a ∈ argv -> w (arg_len a) = arg_len a) ->
  zlen d = zlen (args_wire argv) -> zlen h + zlen d < SILC_MAX_ALLOC ->
  argument_put_loop w {| b_head := h; b_data := d; b_tail := [] |} argv =
  {| b_head := h ++ args_wire argv; b_data := []; b_tail := [] |}.
Proof.
  revert h d; induction argv as [|a argv IH]; intros h d Hwf Hw Hd Hlt.
  { cbn. rewrite app_nil_r. unfold args_wire in Hd; simpl in Hd.
    by rewrite (zlen_0_nil d Hd). }
  apply Forall_cons_iff in Hwf as [Ha Hwf].
  change (args_wire (a :: argv)) with (arg_wire a ++ args_wire argv) in *.
  rewrite length_app in Hd. pose proof (arg_wire_len a Ha) as Hal.
  destruct (arg_wf_len a Ha) as [Hr _].
  destruct (arg_format_bytes a w Ha) as [Hp Hb]; [apply Hw; by left|].
  cbn [argument_put_loop]. rewrite format_plain; rewrite ?Hb; try done.
  2: { unfold buf_fits, b_size; cbn [b_head b_data b_tail]. rewrite Hal; cbn [length]; lia. }
  2: { unfold SILC_MAX_ALLOC in *; lia. }
  cbn [snd b_head b_data b_tail].
  rewrite zdrop_nil.
  rewrite Hw by (by left). rewrite u32_id by lia.
  rewrite buffer_pull_app; [|unfold buf_ok, b_size; cbn [b_head b_data b_tail]; len|lia].
  rewrite IH; [by rewrite app_assoc|done| |len|len].
  intros a' ?. apply Hw. by right.
Qed.

Lemma args_total_spec w argv n :
  Forall arg_wf argv -> (forall a, a ∈ argv -> w (arg_len a) = arg_len a) ->
  0 <= n -> n + zlen (args_wire argv) < SILC_MAX_ALLOC ->
  foldl (fun len a => u32 (len + (3 + w (arg_len a)))) n argv = n + zlen (args_wire argv).
Proof.
  revert n; induction argv as [|a argv IH]; intros n Hwf Hw Hn Hlt; [simpl; lia|].
  apply Forall_cons_iff in Hwf as [Ha Hwf].
  change (args_wire (a :: argv)) with (arg_wire a ++ args_wire argv) in *.
  rewrite length_app in Hlt |- *. pose proof (arg_wire_len a Ha) as Hal.
  destruct (arg_wf_len a Ha) as [Hr _]. cbn [foldl].
  rewrite Hw by (by left). unfold SILC_MAX_ALLOC in *. rewrite u32_id by lia.
  rewrite IH; [lia|done| |lia|lia]. intros a' ?. apply Hw. by right.
Qed.

Lemma args_u16 argv a : Forall arg_wf argv -> a ∈ argv -> u16 (arg_len a) = arg_len a.
Proof.
  intros Hwf Ha. apply u16_id. rewrite Forall_forall in Hwf.
  by apply arg_wf_len, Hwf, list_elem_of_In.
Qed.

Lemma encode_loop_spec w argv :
  Forall arg_wf argv -> (forall a, a ∈ argv -> w (arg_len a) = arg_len a) ->
  zlen (args_wire argv) < SILC_MAX_ALLOC ->
  match silc_buffer_alloc_size (args_total w argv) with
  | None => None
  | Some buffer =>
      Some (silc_buffer_push (argument_put_loop w buffer argv) (args_total w argv))
  end = Some (silc_buffer_set (args_wire argv)).
Proof.
  intros Hwf Hw Hlt. unfold args_total. rewrite args_total_spec by (done || lia).
  rewrite Z.add_0_l, buffer_alloc_size_ok by lia.
  rewrite argument_put_loop_spec; [|done|done|len|simpl; len]. cbn [app].
  pose proof (buffer_push_app [] (args_wire argv) [] [] _ eq_refl) as E. cbn [app] in E.
  rewrite E, app_nil_r. done.
Qed.

Lemma silc_argument_payload_encode_spec argv :
  Forall arg_wf argv -> zlen (args_wire argv) < SILC_MAX_ALLOC ->
  silc_argument_payload_encode argv = Some (silc_buffer_set (args_wire argv)).
Proof. intros. apply encode_loop_spec; eauto using args_u16. Qed.

Lemma silc_argument_payload_encode_payload_spec p :
  Forall arg_wf (ap_argv p) -> zlen (args_wire (ap_argv p)) < SILC_MAX_ALLOC ->
  silc_argument_payload_encode_payload p = Some (silc_buffer_set (args_wire (ap_argv p))).
Proof. intros. by apply (encode_loop_spec id). Qed.

(** ** The parse loop *)

Lemma args_wire_app l k : args_wire (l ++ k) = args_wire l ++ args_wire k.
Proof. unfold args_wire. by rewrite map_app, concat_app. Qed.

(** One round on a buffer at which an argument's wire form stands. *)
Lemma arg_parse_round b a d n acc :
  buf_ok b -> arg_wf a -> b_data b = arg_wire a ++ d ->
  exists b', argument_parse_loop (S n) b acc = argument_parse_loop n b' (acc ++ [a]) /\
    buf_ok b' /\ b_data b' = d.
Proof.
  intros Hok Ha Hd. destruct (arg_wf_len a Ha) as [Hr Hl].
  destruct b as [h dd t]; cbn [b_data] in Hd; subst dd. unfold arg_wire.
  set (l16 := SILC_PUT16_MSB (arg_len a)). set (s := ptr_bytes (arg_data a)) in *.
  rewrite <- !app_assoc. cbn [argument_parse_loop].
  set (b := {| b_head := h; b_data := l16 ++ [arg_type a] ++ s ++ d; b_tail := t |}).
  assert (buf_ok b) as Hokb by (revert Hok; unfold b, arg_wire, buf_ok, b_size;
    cbn [b_head b_data b_tail]; fold l16 s; by rewrite <- !app_assoc).
  rewrite (unformat_some b _ [ONum (arg_len a); ONum (arg_type a)] (s ++ d));
    [|done|by repeat constructor|].
  2: { unfold b, l16; cbn [b_data app].
       rewrite parse_U16, parse_U8, (u16_id _ Hr) by apply Ha. done. }
  cbn [out_num nth_error].
  rewrite buffer_len_ok by done. unfold b at 1 2; cbn [b_data].
  assert (zlen (l16 ++ [arg_type a] ++ s ++ d) = 3 + arg_len a + zlen d) as Hlen
    by (unfold l16; len).
  assert (zlen d + arg_len a + 3 < SILC_MAX_ALLOC) as Hm
    by (revert Hokb; unfold b, buf_ok, b_size; cbn [b_head b_data b_tail]; lia).
  rewrite !Hlen, u32_id by (unfold SILC_MAX_ALLOC in *; lia).
  assert (zlen (s ++ d) = arg_len a + zlen d) as Hsd by len. rewrite Hsd.
  destruct (_ || _) eqn:E; [exfalso; revert E; case_cmps; done || lia|]. clear E.
  set (b2 := silc_buffer_pull b 3).
  assert (b2 = {| b_head := h ++ l16 ++ [arg_type a]; b_data := s ++ d; b_tail := t |}) as Hb2.
  { unfold b2, b. rewrite (app_assoc l16). apply buffer_pull_app; [|done].
    by rewrite <- app_assoc. }
  assert (buf_ok b2) as Hok2 by (by apply buffer_pull_ok).
  rewrite (unformat_some b2 _ [OPtr (dup_bytes s)] d);
    [|done|repeat constructor; simpl; lia|rewrite Hb2; cbn [b_data]; by rewrite parse_DATA_ALLOC].
  assert (zlen (b_data b2) = arg_len a + zlen d) as -> by (by rewrite Hb2).
  zcase; [lia|]. cbn [out_ptr nth_error].
  exists (silc_buffer_pull b2 (arg_len a)). split_and!.
  - do 2 f_equal. replace (dup_bytes s) with (arg_data a); [by destruct a|].
    destruct Ha as (_ & _ & Hx). unfold s in *.
    destruct (arg_data a); cbn [ptr_bytes] in *.
    + rewrite dup_bytes_some by (unfold SILC_MAX_ALLOC; lia). done.
    + done.
  - by apply buffer_pull_ok.
  - rewrite Hb2. rewrite buffer_pull_app by (rewrite <- ?Hb2; done || lia). done.
Qed.

Lemma arg_parse_loop_some argv b d acc :
  buf_ok b -> Forall arg_wf argv -> b_data b = args_wire argv ++ d ->
  exists b', argument_parse_loop (length argv) b acc = Some (acc ++ argv, b') /\
    buf_ok b' /\ b_data b' = d.
Proof.
  revert b acc; induction argv as [|a argv IH]; intros b acc Hok Hwf Hd.
  { exists b. cbn. by rewrite app_nil_r. }
  apply Forall_cons_iff in Hwf as [Ha Hwf].
  change (args_wire (a :: argv)) with (arg_wire a ++ args_wire argv) in Hd.
  rewrite <- app_assoc in Hd.
  destruct (arg_parse_round b a _ (length argv) acc Hok Ha Hd) as (b1 & E & Hok1 & Hd1).
  cbn [length]. rewrite E.
  destruct (IH b1 (acc ++ [a]) Hok1 Hwf Hd1) as (b2 & E2 & ? & ?).
  exists b2. rewrite E2, <- app_assoc. done.
Qed.

(** A round that goes on started at an argument's wire form. *)
Lemma arg_parse_round_inv b n acc r :
  buf_ok b -> bytes_ok (b_data b) -> argument_parse_loop (S n) b acc = Some r ->
  exists a d, arg_wf a /\ b_data b = arg_wire a ++ d /\ bytes_ok d.
Proof.
  intros Hok Hb. cbn [argument_parse_loop].
  destruct (parse [U_UI16_SHORT true; U_UI8_CHAR true] (b_data b)) as [[outs rest]|] eqn:Ep.
  2: { destruct (unformat_none b [U_UI16_SHORT true; U_UI8_CHAR true]) as (o & ->);
         [done|by repeat constructor|done|]. done. }
  rewrite (unformat_some b _ outs rest) by (done || by repeat constructor).
  apply parse_U16_inv in Ep as (x & d' & os & Hd & Hx & Hb' & Ep & Ho); [|done].
  apply parse_U8_inv in Ep as (c & d2 & os' & Hd' & Hc & Hb2 & Ep & Ho'); [|done].
  apply parse_nil_inv in Ep. cbn [fst snd] in *. injection Ep as -> ->.
  subst d' os outs. cbn [out_num nth_error].
  assert (zlen (b_data b) = 3 + zlen d2) as Hlen by (rewrite Hd; len).
  assert (zlen (b_data b) < SILC_MAX_ALLOC) by buf_arith.
  rewrite buffer_len_ok, Hlen by done.
  rewrite u32_id by (unfold SILC_MAX_ALLOC in *; lia).
  destruct (_ || _) eqn:E; [done|]. intros _.
  assert (x <= zlen d2) as Hxd by (revert E; case_cmps; done || lia).
  destruct (zsplit x d2) as (s & d & -> & Hs); [lia|].
  rewrite Forall_app in Hb2. destruct Hb2 as [Hsb Hdb].
  exists {| arg_type := c; arg_len := x; arg_data := if zlen s =? 0 then None else Some s |}, d.
  split_and!; [|unfold arg_wire; cbn [arg_len arg_type arg_data];
                by rewrite ptr_bytes_data, Hd, <- !app_assoc|done].
  unfold arg_wf; cbn [arg_len arg_type arg_data]. split_and!; [done|lia|].
  zcase; [lia|]. split_and!; done || lia.
Qed.

Lemma arg_parse_loop_inv n b acc l b' :
  buf_ok b -> bytes_ok (b_data b) -> argument_parse_loop n b acc = Some (l, b') ->
  exists argv, l = acc ++ argv /\ length argv = n /\ Forall arg_wf argv /\
    b_data b = args_wire argv ++ b_data b' /\ buf_ok b'.
Proof.
  revert b acc; induction n as [|n IH]; intros b acc Hok Hb Hl.
  { injection Hl as <- <-. exists []. rewrite app_nil_r. by split_and!. }
  destruct (arg_parse_round_inv b n acc _ Hok Hb Hl) as (a & d & Ha & Hd & Hdb).
  destruct (arg_parse_round b a d n acc Hok Ha Hd) as (b1 & E & Hok1 & Hd1).
  rewrite E in Hl. rewrite <- Hd1 in Hdb.
  destruct (IH b1 _ Hok1 Hdb Hl) as (argv & -> & Hn & Hwf & Hd2 & Hok2).
  exists (a :: argv). rewrite <- app_assoc. cbn [length]. split_and!; try done.
  - lia.
  - by constructor.
  - change (args_wire (a :: argv)) with (arg_wire a ++ args_wire argv).
    by rewrite Hd, <- Hd1, Hd2, app_assoc.
Qed.

(** Parsing as a relation: exactly the wire forms of [argc] well-formed arguments. *)
Lemma argument_parse_some data argc p :
  bytes_ok data -> zlen data < SILC_MAX_ALLOC -> 0 < argc < 2 ^ 27 ->
  silc_argument_payload_parse data argc = Some p <->
  ap_pos p = 0 /\ ap_argc p = argc /\ Forall arg_wf (ap_argv p) /\ data = args_wire (ap_argv p).
Proof.
  intros Hb Hm Hargc. unfold silc_argument_payload_parse.
  rewrite !silc_calloc_ok_true by (unfold SILC_MAX_ALLOC; lia). cbn [negb].
  pose proof (buffer_set_ok data Hm) as Hok. split.
  - destruct (argument_parse_loop _ _ _) as [[argv b']|] eqn:E; [|done].
    destruct (arg_parse_loop_inv _ _ _ _ _ Hok Hb E) as (l & El & Hn & Hwf & Hd & Hok').
    cbn [app] in El. subst l. destruct (silc_buffer_len b' =? 0) eqn:Ez; [|done].
    intros [= <-]. cbn. unfold ap_argc; cbn. apply Z.eqb_eq in Ez.
    rewrite buffer_len_ok in Ez by done.
    rewrite (zlen_0_nil (b_data b') Ez), app_nil_r in Hd. split_and!; done || lia.
  - intros (Hp & Ha & Hwf & ->). unfold ap_argc in Ha. rewrite <- Ha, Nat2Z.id.
    destruct (arg_parse_loop_some (ap_argv p) (silc_buffer_set (args_wire (ap_argv p))) [] []
      Hok Hwf) as (b' & -> & Hok' & Hd').
    { cbn. by rewrite app_nil_r. }
    rewrite buffer_len_ok, Hd' by done. cbn. destruct p; cbn in *. by rewrite Hp.
Qed.

Lemma bytes_ok_args_wire argv : Forall arg_wf argv -> bytes_ok (args_wire argv).
Proof.
  induction argv as [|a argv IH]; intros Hwf; [by apply Forall_nil_2|].
  apply Forall_cons_iff in Hwf as [Ha Hwf].
  apply Forall_app. split; [by apply arg_wire_ok|by apply IH].
Qed.

Lemma args_wire_bound argv : Forall arg_wf argv -> zlen (args_wire argv) <= 65538 * zlen argv.
Proof.
  induction argv as [|a argv IH]; intros Hwf; [done|].
  apply Forall_cons_iff in Hwf as [Ha Hwf]. specialize (IH Hwf).
  change (args_wire (a :: argv)) with (arg_wire a ++ args_wire argv).
  rewrite length_app. pose proof (arg_wire_len a Ha). destruct (arg_wf_len a Ha) as [? _].
  cbn [length]. lia.
Qed.

(** ** Appending one argument *)

Lemma encode_one_obuf sb a :
  obuf_full sb -> arg_wf a -> zlen (obuf_data sb) + zlen (arg_wire a) < SILC_MAX_ALLOC ->
  silc_argument_payload_encode_one sb (arg_data a) (arg_len a) (arg_type a) =
  Some (silc_buffer_set (obuf_data sb ++ arg_wire a)).
Proof.
  intros Hsb Ha Hlt. pose proof (arg_wire_len a Ha) as Hl. destruct (arg_wf_len a Ha) as [Hr _].
  destruct (arg_format_bytes a id Ha eq_refl) as [Hp Hb]. unfold id in *.
  unfold silc_argument_payload_encode_one. rewrite (u16_id (arg_len a)) by done. rewrite <- Hb.
  apply buffer_append_format; rewrite ?Hb; done || lia.
Qed.

Lemma encode_one_spec d a :
  arg_wf a -> zlen d + zlen (arg_wire a) < SILC_MAX_ALLOC ->
  silc_argument_payload_encode_one (Some (silc_buffer_set d)) (arg_data a) (arg_len a)
    (arg_type a) = Some (silc_buffer_set (d ++ arg_wire a)).
Proof. intros. by apply (encode_one_obuf (Some (silc_buffer_set d))). Qed.

Lemma encode_one_first a :
  arg_wf a ->
  silc_argument_payload_encode_one None (arg_data a) (arg_len a) (arg_type a) =
  Some (silc_buffer_set (arg_wire a)).
Proof.
  intros Ha. apply (encode_one_obuf None); [done..|]. pose proof (arg_wire_len a Ha).
  destruct (arg_wf_len a Ha) as [Hr _]. cbn [obuf_data length]. unfold SILC_MAX_ALLOC. lia.
Qed.

Definition encode_ones (b : option SilcBuffer) (argv : list Arg) : option SilcBuffer :=
  foldl (fun b a => silc_argument_payload_encode_one b (arg_data a) (arg_len a) (arg_type a))
    b argv.

Lemma encode_ones_spec d argv :
  Forall arg_wf argv -> zlen d + zlen (args_wire argv) < SILC_MAX_ALLOC ->
  encode_ones (Some (silc_buffer_set d)) argv = Some (silc_buffer_set (d ++ args_wire argv)).
Proof.
  revert d; induction argv as [|a argv IH]; intros d Hwf Hlt; [by rewrite app_nil_r|].
  apply Forall_cons_iff in Hwf as [Ha Hwf].
  change (args_wire (a :: argv)) with (arg_wire a ++ args_wire argv) in *.
  rewrite length_app in Hlt. unfold encode_ones in *. cbn [foldl].
  rewrite encode_one_spec by (done || lia). rewrite IH by (done || len).
  by rewrite app_assoc.
Qed.

(** ** Walking the arguments *)

(** The state after [n] calls of silc_argument_get_next_arg. *)
Fixpoint next_args (n : nat) (p : SilcArgumentPayload) : SilcArgumentPayload :=
  match n with
  | O => p
  | S n => (silc_argument_get_next_arg (next_args n p)).2
  end.

Lemma next_args_pos p i n :
  0 <= ap_pos p <= ap_argc p -> ap_argc p < 2 ^ 32 -> i = Z.of_nat n ->
  next_args n p = {| ap_argv := ap_argv p; ap_pos := Z.min (ap_argc p) (ap_pos p + i) |}.
Proof.
  intros Hp Hm ->. induction n as [|n IH].
  { destruct p; cbn in *. f_equal. lia. }
  cbn [next_args]. rewrite IH. unfold silc_argument_get_next_arg, ap_argc; cbn.
  unfold ap_argc in *. zcase; cbn; f_equal; [lia|]. rewrite u32_id; lia.
Qed.

Lemma ap_at_lookup p i a : ap_argv p !! i = Some a -> ap_at p (Z.of_nat i) = arg_out a.
Proof.
  intros H. unfold ap_at. by rewrite Nat2Z.id, H.
Qed.

Lemma arg_type_loop_app l a k type :
  arg_type a = type -> Forall (fun a => arg_type a <> type) l ->
  arg_type_loop (l ++ a :: k) type = Some a.
Proof.
  intros Ha. induction l as [|b l IH]; intros Hf; cbn [app arg_type_loop]; [by zcase|].
  apply Forall_cons_iff in Hf as [Hb Hf]. zcase; [done|auto].
Qed.

Lemma arg_type_loop_spec argv type :
  match arg_type_loop argv type with
  | Some a => exists l k, argv = l ++ a :: k /\ arg_type a = type /\
                Forall (fun a => arg_type a <> type) l
  | None => Forall (fun a => arg_type a <> type) argv
  end.
Proof.
  induction argv as [|a argv IH]; cbn [arg_type_loop]; [by apply Forall_nil_2|].
  zcase; [by exists [], argv; split_and!; [..|apply Forall_nil_2]|].
  destruct (arg_type_loop argv type) as [a'|].
  - destruct IH as (l & k & -> & Ha & Hl). exists (a :: l), k.
    split_and!; [done|done|by apply Forall_cons_2].
  - by apply Forall_cons_2.
Qed.

(** ** The decoded list *)

Lemma argument_parse_loop_length n b acc l b' :
  argument_parse_loop n b acc = Some (l, b') -> length l = (length acc + n)%nat.
Proof.
  revert b acc; induction n as [|n IH]; intros b acc; cbn [argument_parse_loop].
  { intros [= <- <-]. lia. }
  repeat case_match; try done. intros Hl. apply IH in Hl. rewrite Hl, length_app.
  cbn [length]. lia.
Qed.

Lemma argument_parse_argc payload argc p :
  silc_argument_payload_parse payload argc = Some p -> 0 <= argc < 2 ^ 32 ->
  length (ap_argv p) = Z.to_nat argc /\ ap_argv p <> [].
Proof.
  unfold silc_argument_payload_parse. intros H Hargc. revert H.
  destruct (silc_calloc_ok argc 8) eqn:E8; cbn [negb]; [|done]. case_match; [done|].
  destruct (argument_parse_loop _ _ _) as [[l b']|] eqn:E; [|done].
  apply argument_parse_loop_length in E. case_match; [done|]. intros [= <-]. cbn in *.
  split; [lia|]. intros ->. cbn in E.
  unfold silc_calloc_ok in E8. rewrite u64_id in E8 by lia. revert E8. case_cmps; done || lia.
Qed.

Section decoded_list.
Context {PublicKey Attributes : Type}.
Variable silc_public_key_payload_decode : list Z -> option PublicKey.
Variable silc_attribute_payload_parse : list Z -> option Attributes.

Let decode := silc_argument_decode silc_public_key_payload_decode silc_attribute_payload_parse.
Let loop := argument_list_loop silc_public_key_payload_decode silc_attribute_payload_parse.

(** The arguments before the first NULL one; those that do not decode are
    left out. *)
Fixpoint decoded_args (dt : SilcArgumentDecodeType) (argv : list Arg)
  : list (Z * option (@Decoded PublicKey Attributes)) :=
  match argv with
  | [] => []
  | a :: argv =>
      match arg_data a with
      | None => []
      | Some d =>
          match decode d (arg_len a) dt false true with
          | Some v => [(arg_type a, v)]
          | None => []
          end ++ decoded_args dt argv
      end
  end.

Lemma argument_list_loop_next fuel dt pre l acc :
  (length l < fuel)%nat -> zlen (pre ++ l) < 2 ^ 31 ->
  let arg := {| ap_argv := pre ++ l; ap_pos := zlen pre |} in
  loop fuel dt (silc_argument_get_next_arg arg).2 (silc_argument_get_next_arg arg).1 acc =
  Some (acc ++ decoded_args dt l).
Proof.
  revert fuel pre acc; induction l as [|a l IH]; intros fuel pre acc Hf Hm;
    unfold silc_argument_get_next_arg, ap_argc; cbn [ap_argv ap_pos];
    destruct fuel as [|fuel]; try (exfalso; cbn [length] in Hf; lia).
  - zcase; [|len]. cbn. by rewrite app_nil_r.
  - zcase; [len|]. cbn [fst snd]. rewrite (ap_at_lookup _ (length pre) a);
      [|cbn [ap_argv]; by rewrite list_lookup_middle].
    unfold loop, arg_out. cbn [argument_list_loop decoded_args].
    destruct (arg_data a) as [d|]; [|by rewrite app_nil_r].
    rewrite u32_id by len. cbn [length] in Hf.
    assert (pre ++ a :: l = (pre ++ [a]) ++ l) as E by (by rewrite <- app_assoc).
    rewrite E in *. assert (zlen pre + 1 = zlen (pre ++ [a])) as -> by len.
    pose proof (IH fuel (pre ++ [a])
      (match decode d (arg_len a) dt false true with
       | Some v => acc ++ [(arg_type a, v)] | None => acc end) ltac:(lia) Hm) as IH'.
    cbn zeta in IH'. unfold loop, decode in *.
    destruct (silc_argument_get_next_arg _) as [cur arg]. cbn [fst snd] in IH'.
    rewrite IH'. case_match; by rewrite <- ?app_assoc.
Qed.

Lemma argument_list_decoded fuel payload dt :
  (Z.to_nat (SILC_GET16_MSB payload) < fuel)%nat ->
  silc_argument_list_parse_decoded silc_public_key_payload_decode
    silc_attribute_payload_parse fuel payload dt =
  Some match silc_argument_list_parse payload with
       | None => None
       | Some p => Some (decoded_args dt (ap_argv p))
       end.
Proof.
  intros Hf. unfold silc_argument_list_parse_decoded.
  destruct (silc_argument_list_parse payload) as [p|] eqn:E; [|done].
  unfold silc_argument_list_parse in E. case_match; [done|].
  pose proof (SILC_GET16_MSB_range payload).
  apply argument_parse_argc in E as [Hl Hne]; [|lia].
  pose proof (argument_list_loop_next fuel dt [] (ap_argv p) []
    ltac:(lia) ltac:(cbn [app]; lia)) as Hloop.
  cbn zeta in Hloop. cbn [app length] in Hloop.
  unfold silc_argument_get_next_arg, ap_argc in Hloop. cbn [ap_argv ap_pos] in Hloop.
  destruct (Z.leb_spec (zlen (ap_argv p)) (Z.of_nat 0)).
  { exfalso. apply Hne. apply zlen_0_nil. lia. }
  cbn [fst snd] in Hloop. unfold silc_argument_get_first_arg, loop in *.
  change (u32 (Z.of_nat 0 + 1)) with 1 in Hloop.
  change (ap_at {| ap_argv := ap_argv p; ap_pos := Z.of_nat 0 |} (Z.of_nat 0))
    with (ap_at p 0) in Hloop.
  by rewrite Hloop.
Qed.
End decoded_list.

(** ** Properties *)

(** C35. silc_argument_payload_parse accepts, for a given argument count, exactly
    the byte strings silc_argument_payload_encode produces for that many
    well-formed arguments, which may be empty (no data is NULL data), and returns
    those arguments with the position at the start: nothing is lost, truncated or
    left over, in either direction. *)
Theorem silc_argument_payload_parse_iff data argc p :
  bytes_ok data -> zlen data < SILC_MAX_ALLOC -> 0 < argc < 2 ^ 14 ->
  silc_argument_payload_parse data argc = Some p <->
  ap_pos p = 0 /\ ap_argc p = argc /\ Forall arg_wf (ap_argv p) /\
  silc_argument_payload_encode (ap_argv p) = Some (silc_buffer_set data).
Proof.
  intros Hb Hm Hargc. rewrite argument_parse_some by (done || lia).
  assert (Forall arg_wf (ap_argv p) -> ap_argc p = argc ->
    zlen (args_wire (ap_argv p)) < SILC_MAX_ALLOC) as Hlt.
  { intros Hwf Ha. pose proof (args_wire_bound _ Hwf). unfold ap_argc, SILC_MAX_ALLOC in *. lia. }
  split; intros (Hp & Ha & Hwf & Hd); split_and!; try done.
  - rewrite silc_argument_payload_encode_spec by auto. by rewrite <- Hd.
  - rewrite silc_argument_payload_encode_spec in Hd by auto. by injection Hd.
Qed.

Definition witness_args : list Arg :=
  [{| arg_type := 2; arg_len := 3; arg_data := Some [104; 105; 33] |};
   {| arg_type := 1; arg_len := 0; arg_data := None |};
   {| arg_type := 2; arg_len := 4; arg_data := Some [0; 0; 1; 0] |}].
Definition witness_args_wire : list Z :=
  [0; 3; 2; 104; 105; 33; 0; 0; 1; 0; 4; 2; 0; 0; 1; 0].

Lemma witness_args_wf : Forall arg_wf witness_args.
Proof.
  unfold witness_args, arg_wf, is_byte.
  repeat constructor; cbn [arg_type arg_len arg_data length]; lia.
Qed.

Lemma witness_args_wire_ok : bytes_ok witness_args_wire.
Proof. repeat constructor; unfold is_byte; lia. Qed.

Lemma silc_argument_payload_parse_iff_witness :
  silc_argument_payload_encode witness_args = Some (silc_buffer_set witness_args_wire).
Proof.
  apply (silc_argument_payload_parse_iff witness_args_wire 3
    {| ap_argv := witness_args; ap_pos := 0 |} witness_args_wire_ok eq_refl ltac:(lia)).
  vm_compute; reflexivity.
Defined.

(** Adding arguments one at a time with silc_argument_payload_encode_one,
    from a NULL buffer, builds exactly the buffer silc_argument_payload_encode
    builds at once. *)
Theorem silc_argument_payload_encode_one_all argv :
  Forall arg_wf argv -> argv <> [] -> zlen (args_wire argv) < SILC_MAX_ALLOC ->
  encode_ones None argv = silc_argument_payload_encode argv.
Proof.
  intros Hwf Hne Hlt. rewrite silc_argument_payload_encode_spec by done.
  destruct argv as [|a argv]; [done|]. apply Forall_cons_iff in Hwf as [Ha Hwf].
  change (args_wire (a :: argv)) with (arg_wire a ++ args_wire argv) in *.
  rewrite length_app in Hlt. unfold encode_ones. cbn [foldl].
  rewrite encode_one_first by done. exact (encode_ones_spec (arg_wire a) argv Hwf ltac:(lia)).
Qed.

Lemma silc_argument_payload_encode_one_all_witness :
  encode_ones None witness_args = Some (silc_buffer_set witness_args_wire).
Proof.
  rewrite (silc_argument_payload_encode_one_all witness_args witness_args_wf
    ltac:(done) eq_refl). vm_compute; reflexivity.
Defined.

(** silc_argument_get_first_arg and then silc_argument_get_next_arg walk all
    arguments in order, each once, and then return NULL however often they are
    called; silc_argument_get_arg_type returns the first argument of the type
    and NULL only if there is none. *)
Theorem silc_argument_access p a :
  ap_argc p < 2 ^ 32 ->
  (forall i, ap_argv p !! i = Some a ->
     match i with
     | O => (silc_argument_get_first_arg p).1
     | S n => (silc_argument_get_next_arg
                (next_args n (silc_argument_get_first_arg p).2)).1
     end = arg_out a) /\
  (forall n, ap_argv p <> [] -> ap_argc p <= Z.of_nat n + 1 ->
     (silc_argument_get_next_arg (next_args n (silc_argument_get_first_arg p).2)).1 =
     arg_out_null) /\
  (forall type l k, ap_argv p = l ++ a :: k -> arg_type a = type ->
     Forall (fun a => arg_type a <> type) l ->
     silc_argument_get_arg_type (Some p) type = (arg_data a, arg_len a)) /\
  (forall type, Forall (fun a => arg_type a <> type) (ap_argv p) ->
     silc_argument_get_arg_type (Some p) type = (None, 0)).
Proof.
  intros Hm. split_and!.
  - intros [|n] Hi; [exact (ap_at_lookup p 0 a Hi)|].
    pose proof (lookup_lt_Some _ _ _ Hi) as Hlt. unfold silc_argument_get_first_arg; cbn [snd].
    rewrite (next_args_pos _ (Z.of_nat n)); cbn [ap_argv ap_pos]; unfold ap_argc in *;
      cbn [ap_argv] in *; [|lia..|done].
    unfold silc_argument_get_next_arg, ap_argc; cbn [ap_argv ap_pos]. zcase; [lia|]. cbn [fst].
    replace (Z.min _ _) with (Z.of_nat (S n)) by lia. by apply ap_at_lookup.
  - intros n Hne Hn. unfold silc_argument_get_first_arg; cbn [snd].
    assert (1 <= ap_argc p) by (unfold ap_argc; destruct (ap_argv p); [done|cbn [length]; lia]).
    rewrite (next_args_pos _ (Z.of_nat n)); cbn [ap_argv ap_pos]; unfold ap_argc in *;
      cbn [ap_argv] in *; [|lia..|done].
    unfold silc_argument_get_next_arg, ap_argc; cbn [ap_argv ap_pos]. zcase; [done|lia].
  - intros type l k Hl Ha Hf. cbn [silc_argument_get_arg_type]. rewrite Hl.
    by rewrite arg_type_loop_app.
  - intros type Hf. cbn [silc_argument_get_arg_type].
    pose proof (arg_type_loop_spec (ap_argv p) type) as H.
    destruct (arg_type_loop _ _) as [b|]; [|done].
    destruct H as (l & k & Hl & Hb & _). rewrite Hl, Forall_app, Forall_cons_iff in Hf.
    by destruct Hf as (_ & ? & _).
Qed.

Lemma silc_argument_access_witness :
  (silc_argument_get_next_arg (silc_argument_get_first_arg
     {| ap_argv := witness_args; ap_pos := 2 |}).2).1 = (None, 1, 0) /\
  silc_argument_get_arg_type (Some {| ap_argv := witness_args; ap_pos := 0 |}) 2 =
    (Some [104; 105; 33], 3).
Proof.
  split.
  - apply (silc_argument_access {| ap_argv := witness_args; ap_pos := 2 |}
      {| arg_type := 1; arg_len := 0; arg_data := None |} eq_refl) with (i := 1%nat).
    reflexivity.
  - apply (silc_argument_access {| ap_argv := witness_args; ap_pos := 0 |}
      {| arg_type := 2; arg_len := 3; arg_data := Some [104; 105; 33] |} eq_refl)
      with (l := []) (k := tail witness_args); [reflexivity|reflexivity|constructor].
Defined.

(** silc_argument_list_parse_decoded always terminates (one round per
    argument is enough) and returns NULL exactly when the list payload is
    malformed; otherwise it returns, in order, the decoded values of the
    arguments that decode, up to the first argument without data, where the
    walk stops. *)
Theorem silc_argument_list_parse_decoded_spec
    {PublicKey Attributes : Type} (pk : list Z -> option PublicKey)
    (attrs : list Z -> option Attributes) fuel payload dt :
  (Z.to_nat (SILC_GET16_MSB payload) < fuel)%nat ->
  silc_argument_list_parse_decoded pk attrs fuel payload dt =
  Some match silc_argument_list_parse payload with
       | None => None
       | Some p => Some (decoded_args pk attrs dt (ap_argv p))
       end.
Proof. apply argument_list_decoded. Qed.

Lemma silc_argument_list_parse_decoded_spec_witness :
  silc_argument_list_parse_decoded (fun _ => @None unit) (fun _ => @None unit) 4
    [0; 2; 0; 4; 1; 0; 0; 1; 0; 0; 3; 2; 7; 7; 7] SILC_ARGUMENT_UINT32 =
  Some (Some [(1, Some (DecUInt32 256))]).
Proof.
  rewrite (silc_argument_list_parse_decoded_spec (fun _ => @None unit) (fun _ => @None unit))
    by (vm_compute; lia).
  vm_compute; reflexivity.
Defined.
