(* ===== verification/Command.v ===== *)
(** lib/silccore/silccommand.c: the Command Payload and the command status. *)

From S2P Require Import Prelude CTypes Buffer BufFmt BufFmtSpec Argument.

Definition SILC_STATUS_OK : Z := 0.
Definition SILC_STATUS_ERR_NO_SUCH_NICK : Z := 10.
Definition SILC_COMMAND_PAYLOAD_LEN : Z := 6.

Record SilcCommandPayload := {
  cp_cmd : Z;
  cp_ident : Z;
  cp_args : option SilcArgumentPayload;
}.

Definition silc_command_payload_parse (payload : list Z) : option SilcCommandPayload :=
  let buffer := silc_buffer_set payload in
  let '(ret, out, buffer) :=
    silc_buffer_unformat buffer
      [U_UI16_SHORT true; U_UI8_CHAR true; U_UI8_CHAR true; U_UI16_SHORT true] in
  if ret =? -1 then None
  else
    let p_len := out_num out 0 in
    let cmd := out_num out 1 in
    let args_num := out_num out 2 in
    let ident := out_num out 3 in
    if negb (p_len =? silc_buffer_len buffer) then None
    else if cmd =? 0 then None
    else
      let buffer := silc_buffer_pull buffer SILC_COMMAND_PAYLOAD_LEN in
      if negb (args_num =? 0) then
        match silc_argument_payload_parse (b_data buffer) args_num with
        | None => None
        | Some args => Some {| cp_cmd := cmd; cp_ident := ident; cp_args := Some args |}
        end
      else Some {| cp_cmd := cmd; cp_ident := ident; cp_args := None |}.

(** The part the two encoders share: the buffer, the header and then the
    arguments, if there is a buffer of them. *)
Definition command_encode_args (cmd argc ident : Z) (args : option SilcBuffer)
  : option SilcBuffer :=
  let len := match args with Some b => silc_buffer_len b | None => 0 end in
  let len := u32 (len + SILC_COMMAND_PAYLOAD_LEN) in
  match silc_buffer_alloc_size len with
  | None => None
  | Some buffer =>
      let buffer :=
        (silc_buffer_format buffer
           [F_UI16_SHORT len; F_UI8_CHAR cmd; F_UI8_CHAR argc; F_UI16_SHORT ident]).2 in
      match args with
      | None => Some buffer
      | Some args =>
          let buffer := silc_buffer_pull buffer SILC_COMMAND_PAYLOAD_LEN in
          let buffer :=
            (silc_buffer_format buffer
               [F_DATA (Some (b_data args)) (silc_buffer_len args)]).2 in
          Some (silc_buffer_push buffer SILC_COMMAND_PAYLOAD_LEN)
      end
  end.

Definition silc_command_payload_encode (cmd : Z) (argv : list Arg) (ident : Z)
  : option SilcBuffer :=
  let argc := zlen argv in
  if negb (argc =? 0) then
    match silc_argument_payload_encode argv with
    | None => None
    | Some args => command_encode_args cmd argc ident (Some args)
    end
  else command_encode_args cmd argc ident None.

Definition silc_command_payload_encode_payload (payload : SilcCommandPayload)
  : option SilcBuffer :=
  match cp_args payload with
  | Some a =>
      command_encode_args (cp_cmd payload) (silc_argument_get_arg_num (Some a))
        (cp_ident payload) (silc_argument_payload_encode_payload a)
  | None => command_encode_args (cp_cmd payload) 0 (cp_ident payload) None
  end.

(** The loop over the variable arguments {type, data, data_len}: arguments
    without a type, data or length are left out.  [None] is [goto out]. *)
Fixpoint command_collect_args (ap : list Arg) (argv : list Arg) : option (list Arg) :=
  match ap with
  | [] => Some argv
  | a :: ap =>
      match arg_data a with
      | None => command_collect_args ap argv
      | Some x =>
          if (arg_type a =? 0) || (arg_len a =? 0) then command_collect_args ap argv
          else
            match silc_memdup x (arg_len a) with
            | None => None
            | Some d =>
                command_collect_args ap
                  (argv ++ [{| arg_type := arg_type a; arg_len := arg_len a;
                               arg_data := Some d |}])
            end
      end
  end.

Definition silc_command_payload_encode_vap (cmd ident : Z) (ap : list Arg)
  : option SilcBuffer :=
  let argc := zlen ap in
  if negb (argc =? 0) && negb (silc_calloc_ok argc 8 && silc_calloc_ok argc 4) then None
  else
    match command_collect_args ap [] with
    | None => None
    | Some argv => silc_command_payload_encode cmd argv ident
    end.

Definition silc_command_reply_payload_encode_vap (cmd status error ident : Z)
    (ap : list Arg) : option SilcBuffer :=
  let argc := u32 (zlen ap + 1) in
  if negb (silc_calloc_ok argc 8 && silc_calloc_ok argc 4) then None
  else
    match silc_memdup [status; error] 2 with
    | None => None
    | Some d =>
        match command_collect_args ap
                [{| arg_type := 1; arg_len := 2; arg_data := Some d |}] with
        | None => None
        | Some argv => silc_command_payload_encode cmd argv ident
        end
    end.

Definition silc_command_get (payload : SilcCommandPayload) : Z := cp_cmd payload.
Definition silc_command_get_args (payload : SilcCommandPayload)
  : option SilcArgumentPayload := cp_args payload.
Definition silc_command_get_ident (payload : SilcCommandPayload) : Z := cp_ident payload.

(** The return value, and the status and the error if they are stored. *)
Definition silc_command_get_status (payload : SilcCommandPayload)
  : bool * option (Z * Z) :=
  match cp_args payload with
  | None => (false, None)
  | Some args =>
      match silc_argument_get_arg_type (Some args) 1 with
      | (None, _) => (false, None)
      | (Some tmp, tmp_len) =>
          if negb (tmp_len =? 2) then (false, None)
          else if (byte_at tmp 0 =? 0) && negb (byte_at tmp 1 =? 0) then
            let s := u8 (SILC_GET16_MSB tmp) in
            let error := if SILC_STATUS_ERR_NO_SUCH_NICK <=? s then s else 0 in
            (s <? SILC_STATUS_ERR_NO_SUCH_NICK, Some (s, error))
          else
            let status := byte_at tmp 0 in
            let error := if SILC_STATUS_ERR_NO_SUCH_NICK <=? byte_at tmp 0
                         then byte_at tmp 0 else byte_at tmp 1 in
            ((byte_at tmp 0 <? SILC_STATUS_ERR_NO_SUCH_NICK) &&
             (byte_at tmp 1 =? SILC_STATUS_OK), Some (status, error))
      end
  end.

Definition silc_command_set_ident (payload : SilcCommandPayload) (ident : Z)
  : SilcCommandPayload :=
  {| cp_cmd := cp_cmd payload; cp_ident := ident; cp_args := cp_args payload |}.
Definition silc_command_set_command (payload : SilcCommandPayload) (command : Z)
  : SilcCommandPayload :=
  {| cp_cmd := command; cp_ident := cp_ident payload; cp_args := cp_args payload |}.

(** * The wire form *)

Definition cmd_args (p : SilcCommandPayload) : list Arg :=
  match cp_args p with Some a => ap_argv a | None => [] end.

Definition cmd_wf (p : SilcCommandPayload) : Prop :=
  0 < cp_cmd p < 256 /\ 0 <= cp_ident p < 65536 /\
  match cp_args p with
  | None => True
  | Some a => ap_pos a = 0 /\ 0 < ap_argc a < 256 /\ Forall arg_wf (ap_argv a)
  end /\
  zlen (args_wire (cmd_args p)) + 6 < 65536.

Definition cmd_frame (cmd ident argc : Z) (body : list Z) : list Z :=
  SILC_PUT16_MSB (zlen body + 6) ++ [cmd] ++ [argc] ++ SILC_PUT16_MSB ident ++ body.

Definition cmd_wire (cmd ident : Z) (argv : list Arg) : list Z :=
  cmd_frame cmd ident (zlen argv) (args_wire argv).

(** What the parser ignores: bytes after the header of a command without
    arguments. *)
Definition cmd_junk (p : SilcCommandPayload) (rest : list Z) : Prop :=
  match cp_args p with Some _ => rest = [] | None => zlen rest + 6 < 65536 end.

Lemma command_encode_args_spec cmd ident argv args :
  Forall arg_wf argv -> 0 < cmd < 256 -> 0 <= ident < 65536 -> zlen argv < 256 ->
  zlen (args_wire argv) + 6 < 65536 ->
  args = Some (silc_buffer_set (args_wire argv)) \/ args = None /\ argv = [] ->
  command_encode_args cmd (zlen argv) ident args =
  Some (silc_buffer_set (cmd_wire cmd ident argv)).
Proof.
  intros Hwf Hc Hi Hn Hl Hargs. unfold command_encode_args.
  set (w := args_wire argv) in *.
  assert (match args with Some b => silc_buffer_len b | None => 0 end = zlen w) as ->.
  { destruct Hargs as [->|[-> ->]]; [|done].
    apply buffer_set_len. unfold SILC_MAX_ALLOC. lia. }
  unfold SILC_COMMAND_PAYLOAD_LEN. rewrite u32_id by lia.
  rewrite buffer_alloc_size_ok by (unfold SILC_MAX_ALLOC; lia).
  set (ap := [_; _; _; _]).
  set (hdr := SILC_PUT16_MSB (zlen w + 6) ++ [cmd] ++ [zlen argv] ++ SILC_PUT16_MSB ident).
  assert (fmt_bytes ap = hdr) as Hb.
  { unfold ap, fmt_bytes. cbn [map concat fmt_bytes1].
    rewrite !u16_id, !u8_id, app_nil_r by lia. done. }
  assert (zlen hdr = 6) as Hh by done.
  rewrite format_plain; rewrite ?Hb, ?Hh; [|by repeat constructor| |by unfold SILC_MAX_ALLOC].
  2: { unfold buf_fits, b_size, SILC_MAX_ALLOC; cbn [b_head b_data b_tail]. len. }
  cbn [snd b_head b_data b_tail].
  assert (zdrop 6 (zrepeat 0 (zlen w + 6)) = zrepeat 0 (zlen w)) as ->.
  { unfold zdrop, zrepeat. rewrite drop_replicate. f_equal. lia. }
  rewrite zdrop_nil.
  assert (cmd_wire cmd ident argv = hdr ++ w) as ->
    by (unfold cmd_wire, cmd_frame, hdr; by rewrite <- !app_assoc).
  destruct Hargs as [->|[-> ->]].
  2: { unfold w, args_wire. cbn [map concat]. done. }
  cbn [b_data silc_buffer_set].
  rewrite buffer_pull_app; [|unfold buf_ok, b_size, SILC_MAX_ALLOC;
    cbn [b_head b_data b_tail]; len|done]. cbn [app].
  change {| b_head := []; b_data := w; b_tail := [] |} with (silc_buffer_set w).
  rewrite buffer_set_len by (unfold SILC_MAX_ALLOC; lia).
  assert (fmt_bytes [F_DATA (Some w) (zlen w)] = w) as Hw.
  { unfold fmt_bytes. cbn [map concat fmt_bytes1]. by rewrite mem_read_exact, app_nil_r. }
  rewrite format_plain; rewrite ?Hw.
  2: { repeat constructor. simpl. lia. }
  2: { unfold buf_fits, b_size, SILC_MAX_ALLOC; cbn [b_head b_data b_tail]. len. }
  2: { unfold SILC_MAX_ALLOC; lia. }
  cbn [snd b_head b_data b_tail]. rewrite zdrop_nil, zdrop_all, app_nil_r by len.
  pose proof (buffer_push_app [] hdr w [] 6 Hh) as E. cbn [app] in E. by rewrite E.
Qed.

Lemma command_encode_payload_spec p :
  cmd_wf p ->
  silc_command_payload_encode_payload p =
  Some (silc_buffer_set (cmd_wire (cp_cmd p) (cp_ident p) (cmd_args p))).
Proof.
  intros (Hc & Hi & Ha & Hl). unfold silc_command_payload_encode_payload, cmd_args in *.
  destruct (cp_args p) as [a|].
  - destruct Ha as (_ & Hn & Hwf).
    rewrite silc_argument_payload_encode_payload_spec by (done || unfold SILC_MAX_ALLOC; lia).
    apply command_encode_args_spec; try done; [apply Hn|by left].
  - apply (command_encode_args_spec _ _ []); try done. by right.
Qed.

Lemma command_encode_spec cmd ident argv :
  Forall arg_wf argv -> 0 < cmd < 256 -> 0 <= ident < 65536 -> zlen argv < 256 ->
  zlen (args_wire argv) + 6 < 65536 ->
  silc_command_payload_encode cmd argv ident =
  Some (silc_buffer_set (cmd_wire cmd ident argv)).
Proof.
  intros Hwf Hc Hi Hn Hl. unfold silc_command_payload_encode.
  destruct (Z.eqb_spec (zlen argv) 0) as [E|]; cbn [negb].
  - apply zlen_0_nil in E as ->. apply (command_encode_args_spec _ _ []); try done. by right.
  - rewrite silc_argument_payload_encode_spec by (done || unfold SILC_MAX_ALLOC; lia).
    apply command_encode_args_spec; try done. by left.
Qed.

Definition command_hdr : list UnformatParam :=
  [U_UI16_SHORT true; U_UI8_CHAR true; U_UI8_CHAR true; U_UI16_SHORT true].

Lemma command_hdr_plain : Forall unf_plain command_hdr.
Proof. by repeat constructor. Qed.

(** The header read from the wire form, and what is left. *)
Lemma command_parse_header data outs rest :
  bytes_ok data ->
  parse command_hdr data =
    Some (outs, rest) ->
  exists len cmd argc ident,
    data = SILC_PUT16_MSB len ++ [cmd] ++ [argc] ++ SILC_PUT16_MSB ident ++ rest /\
    outs = [ONum len; ONum cmd; ONum argc; ONum ident] /\
    0 <= len < 65536 /\ is_byte cmd /\ is_byte argc /\ 0 <= ident < 65536 /\ bytes_ok rest.
Proof.
  intros Hb Hp.
  apply parse_U16_inv in Hp as (len & d1 & o1 & -> & ? & Hb1 & Hp & Ho1); [|done].
  apply parse_U8_inv in Hp as (cmd & d2 & o2 & -> & ? & Hb2 & Hp & Ho2); [|done].
  apply parse_U8_inv in Hp as (argc & d3 & o3 & -> & ? & Hb3 & Hp & Ho3); [|done].
  apply parse_U16_inv in Hp as (ident & d4 & o4 & -> & ? & Hb4 & Hp & Ho4); [|done].
  apply parse_nil_inv in Hp. cbn [fst snd] in *. injection Hp as -> ->. subst.
  by exists len, cmd, argc, ident.
Qed.

Lemma command_header_parse len cmd argc ident rest :
  0 <= len < 65536 -> is_byte cmd -> is_byte argc -> 0 <= ident < 65536 ->
  parse command_hdr
    (SILC_PUT16_MSB len ++ [cmd] ++ [argc] ++ SILC_PUT16_MSB ident ++ rest) =
  Some ([ONum len; ONum cmd; ONum argc; ONum ident], rest).
Proof.
  intros. unfold command_hdr. cbn [app]. rewrite parse_U16, parse_U8, parse_U8, parse_U16 by done.
  by rewrite !u16_id.
Qed.

Lemma command_pull_header len cmd argc ident rest :
  let data := SILC_PUT16_MSB len ++ [cmd] ++ [argc] ++ SILC_PUT16_MSB ident ++ rest in
  zlen data < SILC_MAX_ALLOC ->
  b_data (silc_buffer_pull (silc_buffer_set data) SILC_COMMAND_PAYLOAD_LEN) = rest /\
  zlen data = 6 + zlen rest.
Proof.
  intros data Hm. assert (zlen data = 6 + zlen rest) as Hl by (unfold data; len).
  unfold silc_buffer_pull. rewrite buffer_set_len by done. unfold SILC_COMMAND_PAYLOAD_LEN.
  zcase; [lia|]. split; [|done].
  cbn [b_data silc_buffer_set]. unfold data. rewrite !app_assoc.
  rewrite zdrop_app_exact by len. done.
Qed.

Lemma command_parse_some data p :
  bytes_ok data -> zlen data < SILC_MAX_ALLOC ->
  silc_command_payload_parse data = Some p <->
  cmd_wf p /\ exists rest, cmd_junk p rest /\
    data = cmd_frame (cp_cmd p) (cp_ident p) (zlen (cmd_args p)) (args_wire (cmd_args p) ++ rest).
Proof.
  intros Hb Hm. unfold silc_command_payload_parse. fold command_hdr.
  pose proof (buffer_set_ok data Hm) as Hok. split.
  - destruct (parse command_hdr
                (b_data (silc_buffer_set data))) as [[outs rest]|] eqn:Ep.
    2: { destruct (unformat_none _ _ Hok command_hdr_plain Ep) as (o & ->). done. }
    rewrite (unformat_some _ _ outs rest Hok command_hdr_plain Ep).
    apply command_parse_header in Ep as (len & cmd & argc & ident & Hd & -> & Hl & Hc & Ha & Hi & Hr);
      [|done].
    cbn [b_data silc_buffer_set] in Hd.
    destruct (command_pull_header len cmd argc ident rest) as [Hpull Hlen]; [by rewrite <- Hd|].
    cbn [out_num nth_error]. rewrite <- Hd in Hpull, Hlen. rewrite Hpull, buffer_set_len by done.
    zcase; [done|]. destruct (Z.eqb_spec len (zlen data)) as [->|]; cbn [negb]; [|done].
    destruct (Z.eqb_spec cmd 0); [done|]. unfold is_byte in *.
    assert (data = cmd_frame cmd ident argc rest) as Hw.
    { rewrite Hd at 1. unfold cmd_frame. do 2 f_equal. lia. }
    unfold cmd_wf, cmd_args, cmd_junk.
    destruct (Z.eqb_spec argc 0) as [->|]; cbn [negb].
    + intros [= <-]. cbn [cp_args cp_cmd cp_ident]. split; [split_and!; done || simpl; lia|].
      exists rest. split; [lia|done].
    + destruct (silc_argument_payload_parse rest argc) as [a|] eqn:Ea; [|done].
      intros [= <-]. cbn [cp_args cp_cmd cp_ident].
      apply argument_parse_some in Ea as (Hp & Hac & Hwf & ->); [|done|lia|lia].
      split; [split_and!; done || lia|]. exists []. rewrite app_nil_r. split; [done|].
      unfold ap_argc in Hac. by rewrite Hac.
  - intros [(Hc & Hi & Ha & Hl) (rest & Hj & Hd)].
    assert (zlen (cmd_args p) < 256) as Hn.
    { unfold cmd_args, ap_argc in *. destruct (cp_args p); [lia|done]. }
    set (body := args_wire (cmd_args p) ++ rest) in *.
    assert (0 <= zlen body + 6 < 65536) as Hbl.
    { unfold body, cmd_junk, cmd_args in *. destruct (cp_args p); [subst rest|];
        [rewrite app_nil_r|unfold args_wire; cbn [map concat app]]; lia. }
    rewrite (unformat_some (silc_buffer_set data) _
      [ONum (zlen body + 6); ONum (cp_cmd p); ONum (zlen (cmd_args p)); ONum (cp_ident p)]
      body Hok command_hdr_plain).
    2: { cbn [b_data silc_buffer_set]. rewrite Hd. apply command_header_parse;
         unfold is_byte; lia. }
    destruct (command_pull_header (zlen body + 6) (cp_cmd p) (zlen (cmd_args p)) (cp_ident p)
      body) as [Hpull Hlen]; [by rewrite Hd in Hm|].
    fold (cmd_frame (cp_cmd p) (cp_ident p) (zlen (cmd_args p)) body) in Hpull, Hlen.
    rewrite <- Hd in Hpull, Hlen. cbn [out_num nth_error].
    rewrite Hpull, buffer_set_len by done.
    zcase; [cbn [b_data silc_buffer_set] in *; lia|].
    destruct (Z.eqb_spec (zlen body + 6) (zlen data)); cbn [negb]; [|lia].
    destruct (Z.eqb_spec (cp_cmd p) 0); [lia|].
    unfold cmd_args, cmd_junk in *. destruct p as [cmd ident [a|]];
      cbn [cp_cmd cp_ident cp_args] in *; [|done].
    destruct Ha as (Hp & Han & Hwf). unfold ap_argc in Han. zcase; [lia|]. cbn [negb].
    subst rest. unfold body. rewrite app_nil_r.
    rewrite (proj2 (argument_parse_some (args_wire (ap_argv a)) (zlen (ap_argv a)) a
      ltac:(by apply bytes_ok_args_wire) ltac:(unfold SILC_MAX_ALLOC; lia) ltac:(lia))
      ltac:(done)). done.
Qed.

Lemma cmd_frame_ok cmd ident argc body :
  is_byte cmd -> is_byte argc -> bytes_ok body -> bytes_ok (cmd_frame cmd ident argc body).
Proof.
  intros. unfold cmd_frame. rewrite !Forall_app, !Forall_singleton. auto 6 with silc.
Qed.

Lemma cmd_frame_len cmd ident argc body : zlen (cmd_frame cmd ident argc body) = 6 + zlen body.
Proof. unfold cmd_frame. len. Qed.

(** ** Variable arguments and replies *)

Definition va_keep (a : Arg) : bool :=
  match arg_data a with
  | None => false
  | Some _ => negb ((arg_type a =? 0) || (arg_len a =? 0))
  end.

Lemma command_collect_args_spec ap acc :
  Forall arg_wf ap -> command_collect_args ap acc = Some (acc ++ List.filter va_keep ap).
Proof.
  revert acc; induction ap as [|a ap IH]; intros acc Hwf; cbn; [by rewrite app_nil_r|].
  apply Forall_cons_iff in Hwf as [Ha Hwf]. unfold va_keep at 1.
  destruct (arg_data a) as [x|] eqn:Ex; [|by apply IH].
  destruct (_ || _); cbn [negb]; [by apply IH|].
  destruct Ha as (_ & ? & Hx). rewrite Ex in Hx. destruct Hx as (Hx & ? & _).
  unfold silc_memdup. rewrite u64_id, silc_malloc_ok_true by (unfold SILC_MAX_ALLOC; lia).
  rewrite mem_read_exact, IH by done. rewrite <- app_assoc. cbn. do 3 f_equal.
  destruct a; cbn in *. by rewrite Ex.
Qed.

Definition status_arg (status error : Z) : Arg :=
  {| arg_type := 1; arg_len := 2; arg_data := Some [status; error] |}.

(** What the receiver of a reply learns.  A status of zero with an error is the
    protocol 1.0 form, a 16 bit status. *)
Definition reply_status (status error : Z) : bool * option (Z * Z) :=
  if 10 <=? status then (false, Some (status, status))
  else if (0 <? status) || (error =? 0) then (error =? 0, Some (status, error))
  else if 10 <=? error then (false, Some (error, error))
  else (true, Some (error, 0)).

Lemma get_status_reply status error argv pos cmd ident :
  is_byte status -> is_byte error ->
  silc_command_get_status {| cp_cmd := cmd; cp_ident := ident;
    cp_args := Some {| ap_argv := status_arg status error :: argv; ap_pos := pos |} |} =
  reply_status status error.
Proof.
  unfold is_byte. intros Hs He. unfold silc_command_get_status, reply_status.
  unfold SILC_STATUS_ERR_NO_SUCH_NICK, SILC_STATUS_OK. cbn [cp_args].
  change (silc_argument_get_arg_type _ 1) with (Some [status; error], 2). cbn iota beta.
  change (byte_at [status; error] 0) with status.
  change (byte_at [status; error] 1) with error.
  assert (status = 0 -> u8 (SILC_GET16_MSB [status; error]) = error) as H0.
  { intros ->. rewrite SILC_GET16_MSB_be by (unfold is_byte; lia).
    unfold be_decode; cbn [foldl]. by rewrite Z.mul_0_l, !Z.add_0_l, u8_id. }
  cbn [Z.eqb Pos.eqb negb].
  destruct (Z.eqb_spec status 0) as [->|]; cbn [andb];
    [destruct (Z.eqb_spec error 0) as [->|]; cbn [negb]; [|rewrite H0 by done]|];
    case_cmps; try done.
Qed.

(** * Properties *)

(** silc_command_payload_parse is the inverse of
    silc_command_payload_encode_payload: what a well-formed payload encodes to
    parses to that payload, a payload with arguments is parsed only from its
    own encoding, and every payload that is parsed is well-formed.  (After
    the header of a payload without arguments any bytes are accepted, as long
    as the length field counts them.) *)
Theorem silc_command_payload_parse_encode data p :
  bytes_ok data -> zlen data < SILC_MAX_ALLOC ->
  (silc_command_payload_parse data = Some p ->
     cmd_wf p /\ SILC_GET16_MSB data = zlen data /\
     (cp_args p <> None ->
      silc_command_payload_encode_payload p = Some (silc_buffer_set data))) /\
  (cmd_wf p -> silc_command_payload_encode_payload p = Some (silc_buffer_set data) ->
   silc_command_payload_parse data = Some p).
Proof.
  intros Hb Hm. rewrite command_parse_some by done. split.
  - intros [Hwf (rest & Hj & Hd)]. split; [done|]. split.
    + rewrite Hd. rewrite cmd_frame_len. unfold cmd_frame.
      rewrite SILC_GET16_PUT16_MSB, u16_id; [lia|].
      destruct Hwf as (_ & _ & _ & Hl). unfold cmd_junk, cmd_args in *.
      destruct (cp_args p); [subst rest|]; [rewrite app_nil_r|unfold args_wire; cbn [map concat app]]; lia.
    + intros Hne. rewrite command_encode_payload_spec by done. unfold cmd_junk in Hj.
      destruct (cp_args p) eqn:E; [|done]. subst rest. rewrite app_nil_r in Hd.
      by rewrite Hd.
  - intros Hwf He. rewrite command_encode_payload_spec in He by done. injection He as He.
    split; [done|]. exists []. rewrite app_nil_r. split; [|done].
    unfold cmd_junk. by destruct (cp_args p).
Qed.

Definition witness_cmd : SilcCommandPayload :=
  {| cp_cmd := 2; cp_ident := 258; cp_args := Some {| ap_argv := witness_args; ap_pos := 0 |} |}.

Lemma silc_command_payload_parse_encode_witness :
  silc_command_payload_parse ([0; 22; 2; 3; 1; 2] ++ witness_args_wire) = Some witness_cmd.
Proof.
  apply silc_command_payload_parse_encode.
  - apply Forall_app. split; [repeat constructor; unfold is_byte; lia|apply witness_args_wire_ok].
  - vm_compute; reflexivity.
  - unfold cmd_wf, witness_cmd. cbn [cp_cmd cp_ident cp_args cmd_args ap_argv ap_pos].
    split_and!; try (vm_compute; reflexivity || discriminate || congruence);
      [apply witness_args_wf].
  - vm_compute; reflexivity.
Defined.

(** A command reply carries its status: what
    silc_command_reply_payload_encode_vap builds is parsed back to the same
    command, identifier and arguments (the status first, then the given
    arguments that have a type, data and a length), and
    silc_command_get_status reports success exactly for a non-error status
    without an error, and repeats an error status as the error. *)
Theorem silc_command_reply_status cmd ident status error ap :
  0 < cmd < 256 -> 0 <= ident < 65536 -> is_byte status -> is_byte error ->
  Forall arg_wf ap -> zlen ap < 255 ->
  zlen (args_wire (status_arg status error :: List.filter va_keep ap)) + 6 < 65536 ->
  exists b p, silc_command_reply_payload_encode_vap cmd status error ident ap = Some b /\
    silc_command_payload_parse (b_data b) = Some p /\
    silc_command_get p = cmd /\ silc_command_get_ident p = ident /\
    silc_command_get_args p =
      Some {| ap_argv := status_arg status error :: List.filter va_keep ap; ap_pos := 0 |} /\
    silc_command_get_status p = reply_status status error.
Proof.
  intros Hc Hi Hs He Hwf Hn Hl. unfold silc_command_reply_payload_encode_vap.
  rewrite u32_id, !silc_calloc_ok_true by (unfold SILC_MAX_ALLOC; lia). cbn [andb negb].
  change (silc_memdup [status; error] 2) with (Some [status; error]).
  cbn iota beta. fold (status_arg status error). rewrite command_collect_args_spec by done. cbn [app].
  set (argv := status_arg status error :: _) in *.
  assert (Forall arg_wf argv) as Hwf'.
  { apply Forall_cons_2.
    - unfold arg_wf, status_arg. cbn [arg_type arg_len arg_data].
      split_and!; try done. repeat apply Forall_cons_2; try done.
    - exact (List.incl_Forall (List.incl_filter va_keep ap) Hwf). }
  assert (zlen argv < 256) as Hn'.
  { unfold argv. cbn [length]. pose proof (List.filter_length_le va_keep ap). lia. }
  assert (zlen argv > 0) by (unfold argv; cbn [length]; lia).
  rewrite command_encode_spec by done. set (p := {| cp_cmd := cmd; cp_ident := ident;
    cp_args := Some {| ap_argv := argv; ap_pos := 0 |} |}).
  exists (silc_buffer_set (cmd_wire cmd ident argv)), p. split; [done|]. split.
  - cbn [b_data silc_buffer_set]. apply command_parse_some.
    + unfold is_byte in *. apply cmd_frame_ok; [unfold is_byte; lia..|by apply bytes_ok_args_wire].
    + unfold cmd_wire. rewrite cmd_frame_len. unfold SILC_MAX_ALLOC. lia.
    + split; [unfold cmd_wf, p, ap_argc; cbn [cp_cmd cp_ident cp_args ap_pos ap_argv cmd_args];
              split_and!; done || lia|].
      exists []. by rewrite app_nil_r.
  - split_and!; try done. by apply get_status_reply.
Qed.

Lemma silc_command_reply_status_witness :
  exists b p, silc_command_reply_payload_encode_vap 4 10 0 7
      [{| arg_type := 2; arg_len := 1; arg_data := Some [33] |}] = Some b /\
    silc_command_payload_parse (b_data b) = Some p /\
    silc_command_get_status p = (false, Some (10, 10)).
Proof.
  destruct (silc_command_reply_status 4 7 10 0
    [{| arg_type := 2; arg_len := 1; arg_data := Some [33] |}])
    as (b & p & Hb & Hp & _ & _ & _ & Hst); unfold is_byte; try lia.
  - repeat constructor; unfold is_byte; cbn [arg_type arg_len]; lia.
  - vm_compute; reflexivity.
  - vm_compute; reflexivity.
  - exists b, p. split; [exact Hb|]. split; [exact Hp|]. exact Hst.
Defined.
