(* ===== verification/Channel.v ===== *)
(** lib/silccore/silcchannel.c: the Channel Payload, lists of them, and the
    Channel Key Payload. *)

From S2P Require Import Prelude CTypes Buffer BufFmt BufFmtSpec Id.

(** * Channel Payload *)

Record SilcChannelPayload := {
  ch_name : option (list Z);
  ch_id : option (list Z);
  ch_mode : Z;
  ch_name_len : Z;
  ch_id_len : Z;
}.

(** The unformat call and the checks that follow it, in
    silc_channel_payload_parse and in each round of
    silc_channel_payload_parse_list. *)
Definition channel_payload_unformat (buffer : SilcBuffer)
  : option (SilcChannelPayload * SilcBuffer) :=
  let '(ret, out, buffer) :=
    silc_buffer_unformat buffer
      [U_NSTRING_ALLOC W16 true true; U_NSTRING_ALLOC W16 true true; U_UI32_INT true] in
  if ret =? -1 then None
  else
    let name_len := out_num out 0 in
    let id_len := out_num out 2 in
    let room := u32 (silc_buffer_len buffer - 8) in
    if ((name_len <? 1) || (room <? name_len)) || ((id_len <? 1) || (room <? id_len)) ||
       (room <? id_len + name_len)
    then None
    else Some ({| ch_name := out_ptr out 1; ch_id := out_ptr out 3; ch_mode := out_num out 4;
                  ch_name_len := name_len; ch_id_len := id_len |}, buffer).

Definition silc_channel_payload_parse (payload : list Z) : option SilcChannelPayload :=
  match channel_payload_unformat (silc_buffer_set payload) with
  | None => None
  | Some (newp, _) => Some newp
  end.

(** The while loop, run at most [fuel] times; the outer [None] is lack of fuel. *)
Fixpoint channel_parse_loop (fuel : nat) (buffer : SilcBuffer) (l : list SilcChannelPayload)
  : option (option (list SilcChannelPayload)) :=
  match fuel with
  | O => None
  | S fuel =>
      if silc_buffer_len buffer =? 0 then Some (Some l)
      else
        match channel_payload_unformat buffer with
        | None => Some None
        | Some (newp, buffer) =>
            let len := u32 (2 + ch_name_len newp + 2 + ch_id_len newp + 4) in
            if silc_buffer_len buffer <? len then Some (Some l)
            else channel_parse_loop fuel (silc_buffer_pull buffer len) (l ++ [newp])
        end
  end.

Definition silc_channel_payload_parse_list (fuel : nat) (payload : list Z)
  : option (option (list SilcChannelPayload)) :=
  channel_parse_loop fuel (silc_buffer_set payload) [].

Definition silc_channel_payload_encode (channel_name : option (list Z)) (channel_name_len : Z)
    (channel_id : option (list Z)) (channel_id_len mode : Z) : option SilcBuffer :=
  match silc_buffer_alloc_size (u32 (2 + channel_name_len + 2 + channel_id_len + 4)) with
  | None => None
  | Some buffer =>
      Some (silc_buffer_format buffer
              [F_UI16_SHORT channel_name_len; F_DATA channel_name channel_name_len;
               F_UI16_SHORT channel_id_len; F_DATA channel_id channel_id_len;
               F_UI32_INT mode]).2
  end.

Definition silc_channel_get_name (payload : SilcChannelPayload) : option (list Z) * Z :=
  (ch_name payload, ch_name_len payload).
Definition silc_channel_get_id (payload : SilcChannelPayload) : option (list Z) * Z :=
  (ch_id payload, ch_id_len payload).
Definition silc_channel_get_id_parse (payload : SilcChannelPayload) : option SilcID :=
  silc_id_str2id (ptr_bytes (ch_id payload)) (ch_id_len payload) SILC_ID_CHANNEL
    sizeof_SilcChannelID.
Definition silc_channel_get_mode (payload : SilcChannelPayload) : Z := ch_mode payload.

(** * Channel Key Payload *)

Record SilcChannelKeyPayload := {
  ck_id : option (list Z);
  ck_cipher : option (list Z);
  ck_key : option (list Z);
  ck_id_len : Z;
  ck_cipher_len : Z;
  ck_key_len : Z;
}.

Definition silc_channel_key_payload_parse (payload : list Z) : option SilcChannelKeyPayload :=
  let buffer := silc_buffer_set payload in
  let '(ret, out, buffer) :=
    silc_buffer_unformat buffer
      [U_NSTRING_ALLOC W16 true true; U_NSTRING_ALLOC W16 true true;
       U_NSTRING_ALLOC W16 true true] in
  if ret =? -1 then None
  else
    let id_len := out_num out 0 in
    let cipher_len := out_num out 2 in
    let key_len := out_num out 4 in
    if (id_len <? 1) || (key_len <? 1) || (cipher_len <? 1) ||
       (u32 (silc_buffer_len buffer - 6) <? id_len + cipher_len + key_len)
    then None
    else Some {| ck_id := out_ptr out 1; ck_cipher := out_ptr out 3; ck_key := out_ptr out 5;
                 ck_id_len := id_len; ck_cipher_len := cipher_len; ck_key_len := key_len |}.

Definition silc_channel_key_payload_encode (id_len : Z) (id : option (list Z))
    (cipher_len : Z) (cipher : option (list Z)) (key_len : Z) (key : option (list Z))
  : option SilcBuffer :=
  let len := u32 (2 + id_len + 2 + key_len + 2 + cipher_len) in
  match silc_buffer_alloc_size len with
  | None => None
  | Some buffer =>
      Some (silc_buffer_format buffer
              [F_UI16_SHORT id_len; F_DATA id id_len; F_UI16_SHORT cipher_len;
               F_DATA cipher cipher_len; F_UI16_SHORT key_len; F_DATA key key_len]).2
  end.

Definition silc_channel_key_get_id (payload : SilcChannelKeyPayload) : option (list Z) * Z :=
  (ck_id payload, ck_id_len payload).
Definition silc_channel_key_get_cipher (payload : SilcChannelKeyPayload)
  : option (list Z) * Z := (ck_cipher payload, ck_cipher_len payload).
Definition silc_channel_key_get_key (payload : SilcChannelKeyPayload) : option (list Z) * Z :=
  (ck_key payload, ck_key_len payload).

(** * Wire forms *)

Definition ch_wf (p : SilcChannelPayload) : Prop :=
  blk_wf (ch_name p) (ch_name_len p) /\ blk_wf (ch_id p) (ch_id_len p) /\
  0 <= ch_mode p < 2 ^ 32.

Definition ch_wire (p : SilcChannelPayload) : list Z :=
  blk_wire (ch_name p) ++ blk_wire (ch_id p) ++ SILC_PUT32_MSB (ch_mode p).

Definition ck_wf (p : SilcChannelKeyPayload) : Prop :=
  blk_wf (ck_id p) (ck_id_len p) /\ blk_wf (ck_cipher p) (ck_cipher_len p) /\
  blk_wf (ck_key p) (ck_key_len p).

Definition ck_wire (p : SilcChannelKeyPayload) : list Z :=
  blk_wire (ck_id p) ++ blk_wire (ck_cipher p) ++ blk_wire (ck_key p).

Lemma ch_wire_len p : ch_wf p -> zlen (ch_wire p) = ch_name_len p + ch_id_len p + 8.
Proof.
  intros (Hn & Hi & _). unfold ch_wire. rewrite !length_app.
  apply blk_wire_len in Hn, Hi. change (length (SILC_PUT32_MSB _)) with 4%nat. lia.
Qed.

Lemma ck_wire_len p :
  ck_wf p -> zlen (ck_wire p) = ck_id_len p + ck_cipher_len p + ck_key_len p + 6.
Proof.
  intros (Hn & Hi & Hk). unfold ck_wire. rewrite !length_app.
  apply blk_wire_len in Hn, Hi, Hk. lia.
Qed.

Definition channel_fields : list UnformatParam :=
  [U_NSTRING_ALLOC W16 true true; U_NSTRING_ALLOC W16 true true; U_UI32_INT true].

Lemma channel_fields_plain : Forall unf_plain channel_fields.
Proof. by repeat constructor. Qed.

Lemma channel_unformat_wire b p d :
  buf_ok b -> ch_wf p -> b_data b = ch_wire p ++ d ->
  channel_payload_unformat b = Some (p, b).
Proof.
  intros Hok Hwf Hd. pose proof (ch_wire_len p Hwf) as Hl.
  destruct Hwf as (Hn & Hi & Hm). unfold channel_payload_unformat. fold channel_fields.
  rewrite (unformat_some b channel_fields
    [ONum (ch_name_len p); OPtr (ch_name p); ONum (ch_id_len p); OPtr (ch_id p);
     ONum (ch_mode p)] d Hok channel_fields_plain).
  2: { rewrite Hd. unfold ch_wire, channel_fields. rewrite <- !app_assoc.
       rewrite (blk_parse _ _ _ _ Hn), (blk_parse _ _ _ _ Hi), parse_U32.
       by rewrite u32_id. }
  destruct (blk_wf_len _ _ Hn) as [_ ?]. destruct (blk_wf_len _ _ Hi) as [_ ?].
  assert (zlen (b_data b) = ch_name_len p + ch_id_len p + 8 + zlen d) as Hlen
    by (rewrite Hd, length_app; lia).
  assert (zlen (b_data b) < SILC_MAX_ALLOC) by buf_arith.
  rewrite buffer_len_ok, Hlen by done. cbn [out_num nth_error out_ptr].
  rewrite u32_id by (unfold SILC_MAX_ALLOC in *; lia). case_cmps. by destruct p.
Qed.

Lemma channel_unformat_inv b p b' :
  buf_ok b -> bytes_ok (b_data b) -> channel_payload_unformat b = Some (p, b') ->
  b' = b /\ ch_wf p /\ exists d, b_data b = ch_wire p ++ d /\ bytes_ok d.
Proof.
  intros Hok Hb. unfold channel_payload_unformat. fold channel_fields.
  destruct (parse channel_fields (b_data b)) as [[outs rest]|] eqn:Ep.
  2: { destruct (unformat_none _ _ Hok channel_fields_plain Ep) as (o & ->). done. }
  rewrite (unformat_some _ _ _ _ Hok channel_fields_plain Ep). unfold channel_fields in Ep.
  apply parse_NSTRING16_ALLOC_inv in Ep as (n & d1 & o1 & Hd & ? & Hnb & Hb1 & Ep & Ho); [|done].
  apply parse_NSTRING16_ALLOC_inv in Ep as (i & d2 & o2 & -> & ? & Hib & Hb2 & Ep & Ho2); [|done].
  apply parse_U32_inv in Ep as (m & d3 & o3 & -> & ? & Hb3 & Ep & Ho3); [|done].
  apply parse_nil_inv in Ep. cbn [fst snd] in *. injection Ep as -> <-. subst.
  ret_case; [done|]. cbn [out_num nth_error out_ptr].
  destruct (_ || _) eqn:E; [done|]. intros [= <- <-]. split; [done|].
  assert (1 <= zlen n /\ 1 <= zlen i) as [? ?] by (revert E; case_cmps; done || lia).
  destruct (blk_of_dup n) as [Hn Hn']; [done|lia|].
  destruct (blk_of_dup i) as [Hi Hi']; [done|lia|]. split; [done|].
  exists rest. split; [|done]. unfold ch_wire, blk_wire. cbn [ch_name ch_id ch_mode].
  by rewrite Hd, Hn', Hi', <- !app_assoc.
Qed.

Lemma channel_encode_spec p :
  ch_wf p ->
  silc_channel_payload_encode (ch_name p) (ch_name_len p) (ch_id p) (ch_id_len p) (ch_mode p) =
  Some (silc_buffer_set (ch_wire p)).
Proof.
  intros Hwf. pose proof (ch_wire_len p Hwf) as Hl. destruct Hwf as (Hn & Hi & Hm).
  unfold silc_channel_payload_encode.
  destruct (blk_wf_len _ _ Hn) as [_ ?]. destruct (blk_wf_len _ _ Hi) as [_ ?].
  rewrite u32_id, buffer_alloc_size_ok by (unfold SILC_MAX_ALLOC; lia).
  assert (fmt_bytes [F_UI16_SHORT (ch_name_len p); F_DATA (ch_name p) (ch_name_len p);
    F_UI16_SHORT (ch_id_len p); F_DATA (ch_id p) (ch_id_len p); F_UI32_INT (ch_mode p)] =
    ch_wire p) as E.
  { rewrite (blk_fmt _ _ _ Hn), (blk_fmt _ _ _ Hi). unfold fmt_bytes, ch_wire.
    cbn [map concat fmt_bytes1]. by rewrite app_nil_r. }
  rewrite format_exact; [by rewrite E| |rewrite E; lia|unfold SILC_MAX_ALLOC; lia].
  repeat constructor; simpl; lia.
Qed.

Definition key_fields : list UnformatParam :=
  [U_NSTRING_ALLOC W16 true true; U_NSTRING_ALLOC W16 true true;
   U_NSTRING_ALLOC W16 true true].

Lemma key_fields_plain : Forall unf_plain key_fields.
Proof. by repeat constructor. Qed.

Lemma channel_key_encode_spec p :
  ck_wf p ->
  silc_channel_key_payload_encode (ck_id_len p) (ck_id p) (ck_cipher_len p) (ck_cipher p)
    (ck_key_len p) (ck_key p) = Some (silc_buffer_set (ck_wire p)).
Proof.
  intros Hwf. pose proof (ck_wire_len p Hwf) as Hl. destruct Hwf as (Hn & Hi & Hk).
  unfold silc_channel_key_payload_encode.
  destruct (blk_wf_len _ _ Hn) as [_ ?]. destruct (blk_wf_len _ _ Hi) as [_ ?].
  destruct (blk_wf_len _ _ Hk) as [_ ?].
  rewrite u32_id, buffer_alloc_size_ok by (unfold SILC_MAX_ALLOC; lia).
  assert (fmt_bytes [F_UI16_SHORT (ck_id_len p); F_DATA (ck_id p) (ck_id_len p);
    F_UI16_SHORT (ck_cipher_len p); F_DATA (ck_cipher p) (ck_cipher_len p);
    F_UI16_SHORT (ck_key_len p); F_DATA (ck_key p) (ck_key_len p)] = ck_wire p) as E.
  { rewrite (blk_fmt _ _ _ Hn), (blk_fmt _ _ _ Hi), (blk_fmt _ _ _ Hk).
    unfold fmt_bytes, ck_wire. cbn [map concat]. by rewrite app_nil_r. }
  rewrite format_exact; [by rewrite E| |rewrite E; lia|unfold SILC_MAX_ALLOC; lia].
  repeat constructor; simpl; lia.
Qed.

(** ** The list loop *)

Definition chs_wire (l : list SilcChannelPayload) : list Z := concat (map ch_wire l).

Lemma chs_wire_length l : Forall ch_wf l -> (length l <= length (chs_wire l))%nat.
Proof.
  induction l as [|p l IH]; intros Hwf; [done|]. apply Forall_cons_iff in Hwf as [Hp Hwf].
  change (chs_wire (p :: l)) with (ch_wire p ++ chs_wire l).
  pose proof (ch_wire_len p Hp). destruct (blk_wf_len _ _ (proj1 Hp)) as [_ ?].
  destruct (blk_wf_len _ _ (proj1 (proj2 Hp))) as [_ ?].
  specialize (IH Hwf). rewrite length_app. cbn [length]. lia.
Qed.

(** One round on the wire form of a payload. *)
Lemma channel_round b p d acc fuel :
  buf_ok b -> ch_wf p -> b_data b = ch_wire p ++ d ->
  exists b', channel_parse_loop (S fuel) b acc = channel_parse_loop fuel b' (acc ++ [p]) /\
    buf_ok b' /\ b_data b' = d.
Proof.
  intros Hok Hwf Hd. pose proof (ch_wire_len p Hwf) as Hl.
  pose proof Hwf as (Hn & Hi & _).
  destruct (blk_wf_len _ _ Hn) as [_ ?]. destruct (blk_wf_len _ _ Hi) as [_ ?].
  assert (zlen (b_data b) = zlen (ch_wire p) + zlen d) as Hlen by (rewrite Hd; len).
  assert (zlen (b_data b) < SILC_MAX_ALLOC) by buf_arith.
  exists (silc_buffer_pull b (zlen (ch_wire p))). split_and!.
  - cbn [channel_parse_loop]. rewrite buffer_len_ok by done. zcase; [lia|].
    rewrite (channel_unformat_wire b p d) by done. rewrite u32_id by lia.
    rewrite buffer_len_ok by done. zcase; [lia|]. do 2 f_equal. lia.
  - by apply buffer_pull_ok.
  - destruct b as [h dd t]; cbn [b_data] in *. subst dd.
    by rewrite buffer_pull_app.
Qed.

Lemma channel_loop_some l b acc fuel :
  buf_ok b -> Forall ch_wf l -> b_data b = chs_wire l -> (length l < fuel)%nat ->
  channel_parse_loop fuel b acc = Some (Some (acc ++ l)).
Proof.
  revert b acc fuel; induction l as [|p l IH]; intros b acc fuel Hok Hwf Hd Hf;
    (destruct fuel as [|fuel]; [exfalso; cbn [length] in Hf; lia|]).
  - cbn [channel_parse_loop]. rewrite buffer_len_ok, Hd by done. cbn. by rewrite app_nil_r.
  - apply Forall_cons_iff in Hwf as [Hp Hwf].
    change (chs_wire (p :: l)) with (ch_wire p ++ chs_wire l) in Hd.
    destruct (channel_round b p _ acc fuel Hok Hp Hd) as (b' & E & Hok' & Hd').
    rewrite E, IH by (done || cbn [length] in Hf; lia). by rewrite <- app_assoc.
Qed.

(** Any bytes: the loop ends, and a list only comes from its wire form. *)
Lemma channel_loop_inv fuel b acc :
  buf_ok b -> bytes_ok (b_data b) -> (length (b_data b) < fuel)%nat ->
  channel_parse_loop fuel b acc = Some None \/
  exists l, channel_parse_loop fuel b acc = Some (Some (acc ++ l)) /\
    Forall ch_wf l /\ b_data b = chs_wire l.
Proof.
  revert b acc; induction fuel as [|fuel IH]; intros b acc Hok Hb Hf; [lia|].
  cbn [channel_parse_loop]. rewrite buffer_len_ok by done.
  destruct (Z.eqb_spec (zlen (b_data b)) 0) as [E|].
  { right. exists []. rewrite app_nil_r. split_and!; [done|by constructor|].
    by rewrite (zlen_0_nil _ E). }
  destruct (channel_payload_unformat b) as [[p b1]|] eqn:Eu; [|by left].
  destruct (channel_unformat_inv b p b1 Hok Hb Eu) as (-> & Hp & d & Hd & Hdb).
  destruct (channel_round b p d acc fuel Hok Hp Hd) as (b' & Er & Hok' & Hd').
  cbn [channel_parse_loop] in Er. rewrite buffer_len_ok, Eu in Er by done.
  destruct (Z.eqb_spec (zlen (b_data b)) 0); [done|]. rewrite buffer_len_ok in Er by done.
  rewrite buffer_len_ok, Er by done. pose proof (ch_wire_len p Hp).
  destruct (blk_wf_len _ _ (proj1 Hp)) as [_ ?].
  destruct (blk_wf_len _ _ (proj1 (proj2 Hp))) as [_ ?].
  rewrite <- Hd' in Hdb.
  destruct (IH b' (acc ++ [p]) Hok' Hdb) as [->|(l & -> & Hwf & Hd2)].
  - rewrite Hd'. rewrite Hd, length_app in Hf. lia.
  - by left.
  - right. exists (p :: l). rewrite <- app_assoc. split_and!; [done|by constructor|].
    change (chs_wire (p :: l)) with (ch_wire p ++ chs_wire l). by rewrite <- Hd2, Hd', Hd.
Qed.

Lemma channel_key_parse_some data p :
  bytes_ok data -> zlen data < SILC_MAX_ALLOC ->
  silc_channel_key_payload_parse data = Some p <->
  ck_wf p /\ exists rest, data = ck_wire p ++ rest.
Proof.
  intros Hb Hm. unfold silc_channel_key_payload_parse. fold key_fields.
  pose proof (buffer_set_ok data Hm) as Hok. split.
  - destruct (parse key_fields (b_data (silc_buffer_set data))) as [[outs rest]|] eqn:Ep.
    2: { destruct (unformat_none _ _ Hok key_fields_plain Ep) as (o & ->). done. }
    rewrite (unformat_some _ _ _ _ Hok key_fields_plain Ep). unfold key_fields in Ep.
    cbn [b_data silc_buffer_set] in *.
    apply parse_NSTRING16_ALLOC_inv in Ep as (n & d1 & o1 & Hd & ? & Hnb & Hb1 & Ep & Ho); [|done].
    apply parse_NSTRING16_ALLOC_inv in Ep as (i & d2 & o2 & -> & ? & Hib & Hb2 & Ep & Ho2); [|done].
    apply parse_NSTRING16_ALLOC_inv in Ep as (k & d3 & o3 & -> & ? & Hkb & Hb3 & Ep & Ho3); [|done].
    apply parse_nil_inv in Ep. cbn [fst snd] in *. injection Ep as -> <-. subst o2 o1 outs.
    ret_case; [done|]. cbn [out_num nth_error out_ptr].
    destruct (_ || _) eqn:E; [done|]. intros [= <-].
    assert (1 <= zlen n /\ 1 <= zlen i /\ 1 <= zlen k) as (? & ? & ?)
      by (revert E; case_cmps; done || lia).
    destruct (blk_of_dup n) as [Hn Hn']; [done|lia|].
    destruct (blk_of_dup i) as [Hi Hi']; [done|lia|].
    destruct (blk_of_dup k) as [Hk Hk']; [done|lia|]. split; [done|].
    exists rest. unfold ck_wire, blk_wire. cbn [ck_id ck_cipher ck_key].
    by rewrite Hd, Hn', Hi', Hk', <- !app_assoc.
  - intros (Hwf & rest & Hd). pose proof (ck_wire_len p Hwf) as Hl.
    destruct Hwf as (Hn & Hi & Hk).
    rewrite (unformat_some _ key_fields
      [ONum (ck_id_len p); OPtr (ck_id p); ONum (ck_cipher_len p); OPtr (ck_cipher p);
       ONum (ck_key_len p); OPtr (ck_key p)] rest Hok key_fields_plain).
    2: { cbn [b_data silc_buffer_set]. rewrite Hd. unfold ck_wire, key_fields.
         rewrite <- !app_assoc.
         by rewrite (blk_parse _ _ _ _ Hn), (blk_parse _ _ _ _ Hi), (blk_parse _ _ _ _ Hk). }
    destruct (blk_wf_len _ _ Hn) as [_ ?]. destruct (blk_wf_len _ _ Hi) as [_ ?].
    destruct (blk_wf_len _ _ Hk) as [_ ?].
    assert (zlen data = zlen (ck_wire p) + zlen rest) as Hlen by (rewrite Hd; len).
    cbn [b_data silc_buffer_set out_num out_ptr nth_error].
    change {| b_head := []; b_data := data; b_tail := [] |} with (silc_buffer_set data).
    rewrite buffer_set_len, u32_id by (done || unfold SILC_MAX_ALLOC in *; lia).
    case_cmps. by destruct p.
Qed.

(** * Properties *)

(** silc_channel_payload_parse_list ends on every input (each round consumes
    bytes) and accepts exactly the concatenations of what
    silc_channel_payload_encode makes of well-formed payloads, returning those
    payloads in order. *)
Theorem silc_channel_payload_parse_list_iff fuel data l :
  bytes_ok data -> zlen data < SILC_MAX_ALLOC -> (length data < fuel)%nat ->
  silc_channel_payload_parse_list fuel data <> None /\
  (silc_channel_payload_parse_list fuel data = Some (Some l) <->
   Forall ch_wf l /\
   data = concat (map (fun p => match silc_channel_payload_encode (ch_name p) (ch_name_len p)
                                        (ch_id p) (ch_id_len p) (ch_mode p) with
                                | Some b => b_data b
                                | None => []
                                end) l)).
Proof.
  intros Hb Hm Hf. unfold silc_channel_payload_parse_list.
  pose proof (buffer_set_ok data Hm) as Hok.
  assert (Forall ch_wf l -> concat (map (fun p => match silc_channel_payload_encode (ch_name p)
    (ch_name_len p) (ch_id p) (ch_id_len p) (ch_mode p) with
    | Some b => b_data b | None => [] end) l) = chs_wire l) as Henc.
  { intros Hwf. unfold chs_wire. f_equal. apply map_ext_Forall.
    apply (List.Forall_impl _ (P := ch_wf)); [|done].
    intros p Hp. by rewrite channel_encode_spec. }
  pose proof (channel_loop_inv fuel (silc_buffer_set data) [] Hok Hb Hf) as Hinv.
  split; [|split].
  - by destruct Hinv as [->|(? & -> & _)].
  - intros E. rewrite E in Hinv. destruct Hinv as [|(l' & Hl & Hwf & Hd)]; [done|].
    injection Hl as ->. split; [done|]. by rewrite Henc.
  - intros [Hwf Hd]. rewrite Henc in Hd by done. apply (channel_loop_some l); try done.
    pose proof (chs_wire_length l Hwf). rewrite Hd in Hf. lia.
Qed.

Definition witness_channel : SilcChannelPayload :=
  {| ch_name := Some [115; 105; 108; 99]; ch_id := Some [1; 2]; ch_mode := 259;
     ch_name_len := 4; ch_id_len := 2 |}.
Definition witness_channel_wire : list Z :=
  [0; 4; 115; 105; 108; 99; 0; 2; 1; 2; 0; 0; 1; 3].

Lemma witness_channel_wire_ok : bytes_ok witness_channel_wire.
Proof. repeat constructor; unfold is_byte; lia. Qed.

Lemma silc_channel_payload_parse_list_iff_witness :
  Forall ch_wf [witness_channel; witness_channel].
Proof.
  apply (silc_channel_payload_parse_list_iff 29 (witness_channel_wire ++ witness_channel_wire)).
  - apply Forall_app. split; apply witness_channel_wire_ok.
  - vm_compute; reflexivity.
  - vm_compute; lia.
  - vm_compute; reflexivity.
Defined.

(** silc_channel_payload_parse accepts exactly the bytes that start with what
    silc_channel_payload_encode makes of a well-formed payload (the padding
    that follows is ignored), and returns that payload. *)
Theorem silc_channel_payload_parse_iff data p :
  bytes_ok data -> zlen data < SILC_MAX_ALLOC ->
  silc_channel_payload_parse data = Some p <->
  ch_wf p /\ exists b rest,
    silc_channel_payload_encode (ch_name p) (ch_name_len p) (ch_id p) (ch_id_len p) (ch_mode p) =
      Some b /\ data = b_data b ++ rest.
Proof.
  intros Hb Hm. unfold silc_channel_payload_parse.
  pose proof (buffer_set_ok data Hm) as Hok. split.
  - destruct (channel_payload_unformat _) as [[p' b']|] eqn:E; [|done]. intros [= ->].
    destruct (channel_unformat_inv _ _ _ Hok Hb E) as (_ & Hwf & d & Hd & _).
    split; [done|]. rewrite channel_encode_spec by done. by eexists _, d.
  - intros (Hwf & b & rest & He & Hd). rewrite channel_encode_spec in He by done.
    injection He as <-. by rewrite (channel_unformat_wire _ p rest).
Qed.

Lemma silc_channel_payload_parse_iff_witness :
  ch_wf witness_channel /\ exists b rest,
    silc_channel_payload_encode (ch_name witness_channel) 4 (ch_id witness_channel) 2 259 =
      Some b /\ witness_channel_wire ++ [0; 0] = b_data b ++ rest.
Proof.
  apply (silc_channel_payload_parse_iff (witness_channel_wire ++ [0; 0]) witness_channel).
  - apply Forall_app. split; [apply witness_channel_wire_ok|repeat constructor; unfold is_byte; lia].
  - vm_compute; reflexivity.
  - vm_compute; reflexivity.
Defined.

(** silc_channel_key_payload_parse accepts exactly the bytes that start with
    what silc_channel_key_payload_encode makes of a non-empty ID, cipher name
    and key, and returns these. *)
Theorem silc_channel_key_payload_parse_iff data p :
  bytes_ok data -> zlen data < SILC_MAX_ALLOC ->
  silc_channel_key_payload_parse data = Some p <->
  ck_wf p /\ exists b rest,
    silc_channel_key_payload_encode (ck_id_len p) (ck_id p) (ck_cipher_len p) (ck_cipher p)
      (ck_key_len p) (ck_key p) = Some b /\ data = b_data b ++ rest.
Proof.
  intros Hb Hm. rewrite channel_key_parse_some by done. split.
  - intros (Hwf & rest & Hd). split; [done|]. rewrite channel_key_encode_spec by done.
    by eexists _, rest.
  - intros (Hwf & b & rest & He & Hd). split; [done|].
    rewrite channel_key_encode_spec in He by done. injection He as <-. by exists rest.
Qed.

Lemma silc_channel_key_payload_parse_iff_witness :
  silc_channel_key_payload_parse [0; 1; 9; 0; 2; 97; 101; 0; 3; 1; 2; 3] =
  Some {| ck_id := Some [9]; ck_cipher := Some [97; 101]; ck_key := Some [1; 2; 3];
          ck_id_len := 1; ck_cipher_len := 2; ck_key_len := 3 |}.
Proof.
  apply silc_channel_key_payload_parse_iff.
  - repeat constructor; unfold is_byte; lia.
  - vm_compute; reflexivity.
  - split.
    + unfold ck_wf, blk_wf, is_byte. cbn.
      split_and!; try lia; repeat constructor; unfold is_byte; lia.
    + eexists _, []. split; [vm_compute; reflexivity|vm_compute; reflexivity].
Defined.
