(* ===== verification/Notify.v ===== *)
(** lib/silccore/silcnotify.c: the Notify Payload. *)

From S2P Require Import Prelude CTypes Buffer BufFmt BufFmtSpec Argument.

Record SilcNotifyPayload := {
  np_type : Z;
  np_argc : Z;
  np_args : option SilcArgumentPayload;
}.

Definition silc_notify_payload_parse (payload : list Z) : option SilcNotifyPayload :=
  let buffer := silc_buffer_set payload in
  let '(ret, out, buffer) :=
    silc_buffer_unformat buffer [U_UI16_SHORT true; U_UI16_SHORT true; U_UI8_CHAR true] in
  if ret =? -1 then None
  else
    let type := out_num out 0 in
    let len := out_num out 1 in
    let argc := out_num out 2 in
    if silc_buffer_len buffer <? len then None
    else if negb (argc =? 0) then
      let buffer := silc_buffer_pull buffer 5 in
      match silc_argument_payload_parse (b_data buffer) argc with
      | None => None
      | Some args => Some {| np_type := type; np_argc := argc; np_args := Some args |}
      end
    else Some {| np_type := type; np_argc := argc; np_args := None |}.

(** The loop over the variable arguments {data, data_len}: the type of an
    argument is its position, counting those left out.  [None] is the return
    after a failed allocation. *)
Fixpoint notify_collect_args (i : Z) (ap : list (option (list Z) * Z)) (argv : list Arg)
  : option (list Arg) :=
  match ap with
  | [] => Some argv
  | (None, _) :: ap => notify_collect_args (i + 1) ap argv
  | (Some x, x_len) :: ap =>
      if x_len =? 0 then notify_collect_args (i + 1) ap argv
      else
        match silc_memdup x x_len with
        | None => None
        | Some d =>
            notify_collect_args (i + 1) ap
              (argv ++ [{| arg_type := i + 1; arg_len := x_len; arg_data := Some d |}])
        end
  end.

(** The payload buffer of type, argument count and argument bytes; no OFFSET
    call is made without arguments. *)
Definition notify_format (type len k : Z) (args : option SilcBuffer) : option SilcBuffer :=
  match silc_buffer_alloc_size len with
  | None => None
  | Some buffer =>
      let buffer :=
        (silc_buffer_format buffer
           [F_UI16_SHORT type; F_UI16_SHORT len; F_UI8_CHAR k]).2 in
      match args with
      | Some args =>
          Some (silc_buffer_format buffer
                  [F_OFFSET 5; F_DATA (Some (b_data args)) (silc_buffer_len args)]).2
      | None => Some buffer
      end
  end.

(** A failing silc_argument_payload_encode is not checked by the code, which
    then reads through NULL; the model returns NULL there. *)
Definition silc_notify_payload_encode (type : Z) (ap : list (option (list Z) * Z))
  : option SilcBuffer :=
  let argc := zlen ap in
  if negb (argc =? 0) then
    if negb (silc_calloc_ok argc 8) then None
    else if negb (silc_calloc_ok argc 4) then None
    else
      match notify_collect_args 0 ap [] with
      | None => None
      | Some argv =>
          match silc_argument_payload_encode argv with
          | None => None
          | Some args =>
              let k := zlen argv in
              notify_format type (u32 (silc_buffer_len args + 5)) k
                (if negb (k =? 0) then Some args else None)
          end
      end
  else notify_format type 5 0 None.

Definition silc_notify_payload_encode_args (type argc : Z) (args : option SilcBuffer)
  : option SilcBuffer :=
  let len := u32 (5 + match args with Some b => silc_buffer_len b | None => 0 end) in
  notify_format type len argc args.

Definition silc_notify_get_type (payload : SilcNotifyPayload) : Z := np_type payload.
Definition silc_notify_get_arg_num (payload : SilcNotifyPayload) : Z := np_argc payload.
Definition silc_notify_get_args (payload : SilcNotifyPayload)
  : option SilcArgumentPayload := np_args payload.

(** * The wire form *)

Definition notify_wire (type argc : Z) (argv : list Arg) : list Z :=
  (SILC_PUT16_MSB type ++ SILC_PUT16_MSB (zlen (args_wire argv) + 5) ++ [argc]) ++
  args_wire argv.

Lemma notify_wire_len type argc argv :
  zlen (notify_wire type argc argv) = 5 + zlen (args_wire argv).
Proof. unfold notify_wire. len. Qed.

Lemma notify_format_spec type argv args len :
  0 <= type < 65536 -> 0 <= zlen argv < 256 -> len = zlen (args_wire argv) + 5 ->
  len < 65536 ->
  args = Some (silc_buffer_set (args_wire argv)) \/ args = None /\ argv = [] ->
  notify_format type len (zlen argv) args =
  Some (silc_buffer_set (notify_wire type (zlen argv) argv)).
Proof.
  intros Ht Hn -> Hl Hargs. unfold notify_format. set (w := args_wire argv) in *.
  rewrite buffer_alloc_size_ok by (unfold SILC_MAX_ALLOC; lia).
  set (ap := [_; _; _]).
  set (hdr := SILC_PUT16_MSB type ++ SILC_PUT16_MSB (zlen w + 5) ++ [zlen argv]).
  assert (fmt_bytes ap = hdr) as Hb.
  { unfold ap, fmt_bytes. cbn [map concat fmt_bytes1].
    rewrite !u16_id, !u8_id by lia. done. }
  assert (zlen hdr = 5) as Hh by done.
  rewrite format_plain; rewrite ?Hb, ?Hh; [|by repeat constructor| |by unfold SILC_MAX_ALLOC].
  2: { unfold buf_fits, b_size, SILC_MAX_ALLOC; cbn [b_head b_data b_tail]. len. }
  cbn [snd b_head b_data b_tail].
  assert (zdrop 5 (zrepeat 0 (zlen w + 5)) = zrepeat 0 (zlen w)) as ->.
  { unfold zdrop, zrepeat. rewrite drop_replicate. f_equal. lia. }
  rewrite zdrop_nil.
  change (notify_wire type (zlen argv) argv) with (hdr ++ w).
  destruct Hargs as [->|[-> ->]].
  2: { unfold w, args_wire. cbn [map concat]. done. }
  cbn [b_data silc_buffer_set].
  change {| b_head := []; b_data := w; b_tail := [] |} with (silc_buffer_set w).
  rewrite buffer_set_len by (unfold SILC_MAX_ALLOC; lia). rewrite <- Hh.
  rewrite format_OFFSET_DATA; [done|lia|unfold SILC_MAX_ALLOC; lia|done|len|].
  unfold buf_ok, b_size, SILC_MAX_ALLOC; cbn [b_head b_data b_tail]. len.
Qed.

Definition notify_hdr : list UnformatParam :=
  [U_UI16_SHORT true; U_UI16_SHORT true; U_UI8_CHAR true].

Lemma notify_hdr_plain : Forall unf_plain notify_hdr.
Proof. by repeat constructor. Qed.

(** What a payload with these arguments is parsed to. *)
Definition notify_payload (type : Z) (argv : list Arg) : SilcNotifyPayload :=
  {| np_type := type; np_argc := zlen argv;
     np_args := if zlen argv =? 0 then None else Some {| ap_argv := argv; ap_pos := 0 |} |}.

Lemma notify_parse_wire type argv :
  0 <= type < 65536 -> zlen argv < 256 -> zlen (args_wire argv) + 5 < 65536 ->
  Forall arg_wf argv ->
  silc_notify_payload_parse (notify_wire type (zlen argv) argv) =
  Some (notify_payload type argv).
Proof.
  intros Ht Hn Hl Hwf. unfold silc_notify_payload_parse. fold notify_hdr.
  pose proof (notify_wire_len type (zlen argv) argv) as Hw.
  set (data := notify_wire type (zlen argv) argv) in *.
  assert (buf_ok (silc_buffer_set data)) as Hok
    by (apply buffer_set_ok; unfold SILC_MAX_ALLOC; lia).
  rewrite (unformat_some (silc_buffer_set data) notify_hdr
    [ONum type; ONum (zlen (args_wire argv) + 5); ONum (zlen argv)] (args_wire argv)
    Hok notify_hdr_plain).
  2: { cbn [b_data silc_buffer_set]. unfold data, notify_wire, notify_hdr.
       rewrite <- !app_assoc. cbn [app].
       rewrite parse_U16, parse_U16, parse_U8 by (unfold is_byte; lia).
       by rewrite !u16_id by lia. }
  ret_case; [exfalso; cbn [b_data silc_buffer_set] in *; lia|]. cbn [out_num nth_error].
  rewrite buffer_set_len by (unfold SILC_MAX_ALLOC; lia). unfold notify_payload.
  destruct (Z.ltb_spec (zlen data) (zlen (args_wire argv) + 5)); [lia|].
  destruct (Z.eqb_spec (zlen argv) 0); cbn [negb]; [done|].
  assert (b_data (silc_buffer_pull (silc_buffer_set data) 5) = args_wire argv) as ->.
  { unfold silc_buffer_pull. rewrite buffer_set_len by (unfold SILC_MAX_ALLOC; lia).
    zcase; [lia|]. cbn [b_data silc_buffer_set]. unfold data, notify_wire.
    by apply zdrop_app_exact. }
  rewrite (proj2 (argument_parse_some (args_wire argv) (zlen argv)
    {| ap_argv := argv; ap_pos := 0 |} ltac:(by apply bytes_ok_args_wire)
    ltac:(unfold SILC_MAX_ALLOC; lia) ltac:(lia)) ltac:(done)). done.
Qed.

(** The arguments of a notify call that are sent. *)
Fixpoint notify_kept (i : Z) (ap : list (option (list Z) * Z)) : list Arg :=
  match ap with
  | [] => []
  | (x, n) :: ap =>
      match x with
      | Some d => if n =? 0 then [] else [{| arg_type := i + 1; arg_len := n; arg_data := x |}]
      | None => []
      end ++ notify_kept (i + 1) ap
  end.

(** A data pointer comes with the length of its data. *)
Definition va_wf (x : option (list Z) * Z) : Prop :=
  match x.1 with
  | Some d => bytes_ok d /\ zlen d = x.2 /\ x.2 < 65536
  | None => True
  end.

Lemma notify_collect_spec i ap acc :
  Forall va_wf ap -> notify_collect_args i ap acc = Some (acc ++ notify_kept i ap).
Proof.
  revert i acc; induction ap as [|[[x|] n] ap IH]; intros i acc Hwf; cbn;
    [by rewrite app_nil_r| |]; apply Forall_cons_iff in Hwf as [Hx Hwf]; [|by apply IH].
  destruct Hx as (Hb & Hn & Hlt); cbn in Hb, Hn, Hlt.
  destruct (Z.eqb_spec n 0); [by apply IH|].
  unfold silc_memdup. rewrite u64_id, silc_malloc_ok_true by (unfold SILC_MAX_ALLOC; lia).
  rewrite mem_read_exact, IH by done. by rewrite <- app_assoc.
Qed.

Lemma notify_kept_wf i ap :
  Forall va_wf ap -> 0 <= i -> i + zlen ap < 256 ->
  Forall arg_wf (notify_kept i ap) /\ (length (notify_kept i ap) <= length ap)%nat.
Proof.
  revert i; induction ap as [|[x n] ap IH]; intros i Hwf Hi Hl; cbn [notify_kept].
  { split; [by apply Forall_nil_2|done]. }
  apply Forall_cons_iff in Hwf as [Hx Hwf]. cbn [length] in Hl.
  destruct (IH (i + 1) Hwf ltac:(lia) ltac:(lia)) as [H1 H2].
  destruct x as [d|]; [destruct (Z.eqb_spec n 0)|]; cbn [app length]; (split; [|lia]); try done.
  apply Forall_cons_2; [|done]. destruct Hx as (Hb & Hn & Hlt); cbn in Hb, Hn, Hlt.
  unfold arg_wf, is_byte; cbn [arg_type arg_len arg_data]. split_and!; done || lia.
Qed.

(** * Properties *)

(** A notify sent with silc_notify_payload_encode is parsed to the same
    type and to the arguments that were given data, each with its position in
    the call as its type; an argument without data leaves a gap in the types
    and is not sent.  silc_notify_payload_encode_args builds the same payload
    from encoded arguments. *)
Theorem silc_notify_payload_parse_encode type ap :
  0 <= type < 65536 -> Forall va_wf ap -> zlen ap < 256 ->
  zlen (args_wire (notify_kept 0 ap)) + 5 < 65536 ->
  exists b, silc_notify_payload_encode type ap = Some b /\
    silc_notify_payload_encode_args type (zlen (notify_kept 0 ap))
      (silc_argument_payload_encode (notify_kept 0 ap)) = Some b /\
    silc_notify_payload_parse (b_data b) = Some (notify_payload type (notify_kept 0 ap)).
Proof.
  intros Ht Hwf Hn Hl. destruct (notify_kept_wf 0 ap) as [Hk Hkn]; [done|done|lia|].
  assert (zlen (notify_kept 0 ap) < 256) as Hkn' by lia.
  exists (silc_buffer_set (notify_wire type (zlen (notify_kept 0 ap)) (notify_kept 0 ap))).
  rewrite silc_argument_payload_encode_spec by (done || unfold SILC_MAX_ALLOC; lia).
  split_and!.
  - unfold silc_notify_payload_encode. destruct (Z.eqb_spec (zlen ap) 0) as [E|]; cbn [negb].
    { apply zlen_0_nil in E as ->. apply (notify_format_spec type []); try done. by right. }
    rewrite !silc_calloc_ok_true by (unfold SILC_MAX_ALLOC; lia). cbn [negb].
    rewrite notify_collect_spec by done. cbn [app].
    rewrite silc_argument_payload_encode_spec by (done || unfold SILC_MAX_ALLOC; lia).
    rewrite buffer_set_len, u32_id by (unfold SILC_MAX_ALLOC; lia).
    apply notify_format_spec; try done; [lia..|].
    destruct (Z.eqb_spec (zlen (notify_kept 0 ap)) 0) as [E|]; cbn [negb]; [|by left].
    right. split; [done|]. by apply zlen_0_nil.
  - unfold silc_notify_payload_encode_args.
    rewrite buffer_set_len, u32_id by (unfold SILC_MAX_ALLOC; lia).
    apply notify_format_spec; try done; [lia..|by left].
  - cbn [b_data silc_buffer_set]. by apply notify_parse_wire.
Qed.

Lemma silc_notify_payload_parse_encode_witness :
  exists b, silc_notify_payload_encode 9 [(Some [1; 2], 2); (None, 0); (Some [7], 1)] = Some b /\
    silc_notify_payload_parse (b_data b) =
      Some {| np_type := 9; np_argc := 2; np_args := Some {| ap_pos := 0; ap_argv :=
        [{| arg_type := 1; arg_len := 2; arg_data := Some [1; 2] |};
         {| arg_type := 3; arg_len := 1; arg_data := Some [7] |}] |} |}.
Proof.
  destruct (silc_notify_payload_parse_encode 9 [(Some [1; 2], 2); (None, 0); (Some [7], 1)])
    as (b & Hb & _ & Hp).
  - lia.
  - unfold va_wf, is_byte. repeat constructor; cbn; unfold is_byte; lia.
  - vm_compute; reflexivity.
  - vm_compute; reflexivity.
  - exists b. split; [exact Hb|exact Hp].
Defined.
