(* ===== verification/Status.v ===== *)
(** lib/silccore/silcstatus.c: the arguments of an error status.

    The code reads a local SilcID that silc_id_payload_parse_id did not fill;
    what such a structure holds is a variable of the section, so the theorems
    hold for any contents. *)

From S2P Require Import Prelude CTypes Buffer Id Argument.

Definition SILC_STATUS_ERR_NO_SUCH_CHANNEL : Z := 11.
Definition SILC_STATUS_ERR_NO_SUCH_NICK : Z := 10.
Definition SILC_STATUS_ERR_NO_SUCH_SERVER : Z := 12.
Definition SILC_STATUS_ERR_BAD_CLIENT_ID : Z := 20.
Definition SILC_STATUS_ERR_BAD_CHANNEL_ID : Z := 21.
Definition SILC_STATUS_ERR_NO_SUCH_CLIENT_ID : Z := 22.
Definition SILC_STATUS_ERR_NO_SUCH_CHANNEL_ID : Z := 23.
Definition SILC_STATUS_ERR_NOT_ON_CHANNEL : Z := 25.
Definition SILC_STATUS_ERR_USER_NOT_ON_CHANNEL : Z := 26.
Definition SILC_STATUS_ERR_USER_ON_CHANNEL : Z := 27.
Definition SILC_STATUS_ERR_CHANNEL_IS_FULL : Z := 34.
Definition SILC_STATUS_ERR_NOT_INVITED : Z := 35.
Definition SILC_STATUS_ERR_BANNED_FROM_CHANNEL : Z := 36.
Definition SILC_STATUS_ERR_NO_CHANNEL_PRIV : Z := 39.
Definition SILC_STATUS_ERR_NO_CHANNEL_FOPRIV : Z := 40.
Definition SILC_STATUS_ERR_UNKNOWN_ALGORITHM : Z := 46.
Definition SILC_STATUS_ERR_NO_SUCH_SERVER_ID : Z := 47.
Definition SILC_STATUS_ERR_NO_SUCH_SERVICE : Z := 49.
Definition SILC_STATUS_ERR_BAD_SERVER_ID : Z := 51.

Inductive StatusArg :=
| SA_data (data : list Z)
| SA_id (id : SilcID).

Definition status_in (status : Z) (l : list Z) : bool := existsb (Z.eqb status) l.

(** The labels of the cases of the switch, in its order. *)
Definition status_data : list Z :=
  [SILC_STATUS_ERR_NO_SUCH_NICK; SILC_STATUS_ERR_NO_SUCH_CHANNEL;
   SILC_STATUS_ERR_NO_SUCH_SERVER; SILC_STATUS_ERR_NO_SUCH_SERVICE;
   SILC_STATUS_ERR_UNKNOWN_ALGORITHM].
Definition status_client : list Z :=
  [SILC_STATUS_ERR_NO_SUCH_CLIENT_ID; SILC_STATUS_ERR_BAD_CLIENT_ID].
Definition status_server : list Z :=
  [SILC_STATUS_ERR_NO_SUCH_SERVER_ID; SILC_STATUS_ERR_BAD_SERVER_ID].
Definition status_channel : list Z :=
  [SILC_STATUS_ERR_NO_SUCH_CHANNEL_ID; SILC_STATUS_ERR_BAD_CHANNEL_ID;
   SILC_STATUS_ERR_NOT_ON_CHANNEL; SILC_STATUS_ERR_CHANNEL_IS_FULL;
   SILC_STATUS_ERR_NOT_INVITED; SILC_STATUS_ERR_BANNED_FROM_CHANNEL;
   SILC_STATUS_ERR_NO_CHANNEL_PRIV; SILC_STATUS_ERR_NO_CHANNEL_FOPRIV].
Definition status_user : list Z :=
  [SILC_STATUS_ERR_USER_NOT_ON_CHANNEL; SILC_STATUS_ERR_USER_ON_CHANNEL].

Section status.

(** The contents of the local [SilcID id] after a failed parse: as a client,
    server or channel ID, and with the type it happens to have. *)
Variables (raw_client : SilcClientID) (raw_server : SilcServerID)
  (raw_channel : SilcChannelID) (raw_id raw_id2 : SilcID).

(** The cases with one ID: note that the test of the parse result is the one
    in the code, which returns 0 when the parse succeeds. *)
Definition status_one_id (args : SilcArgumentPayload) (raw : SilcID)
  : Z * option StatusArg * option StatusArg :=
  match silc_argument_get_arg_type (Some args) 2 with
  | (None, _) => (0, None, None)
  | (Some tmp, len) =>
      match silc_id_payload_parse_id (mem_read tmp len) with
      | Some _ => (0, None, None)
      | None =>
          match silc_id_dup raw with
          | None => (0, None, None)
          | Some id => (1, Some (SA_id id), None)
          end
      end
  end.

(** The return value, *ret_arg1 and *ret_arg2 ([None]: not assigned, or NULL). *)
Definition silc_status_get_args (status : Z) (args : SilcArgumentPayload)
  : Z * option StatusArg * option StatusArg :=
  let num := silc_argument_get_arg_num (Some args) in
  if 3 <? num then (0, None, None)
  else if num =? 0 then (0, None, None)
  else if status_in status status_data then
    match silc_argument_get_arg_type (Some args) 2 with
    | (None, _) => (0, None, None)
    | (Some tmp, len) =>
        match silc_memdup tmp len with
        | None => (0, None, None)
        | Some d => (1, Some (SA_data d), None)
        end
    end
  else if status_in status status_client then status_one_id args (IdClient raw_client)
  else if status_in status status_server then status_one_id args (IdServer raw_server)
  else if status_in status status_channel then status_one_id args (IdChannel raw_channel)
  else if status_in status status_user then
    match status_one_id args raw_id with
    | (1, ret_arg1, _) =>
        match silc_argument_get_arg_type (Some args) 3 with
        | (None, _) => (1, ret_arg1, None)
        | (Some tmp, len) =>
            match silc_id_payload_parse_id (mem_read tmp len) with
            | Some _ => (0, ret_arg1, None)
            | None =>
                match silc_id_dup raw_id2 with
                | None => (1, ret_arg1, None)
                | Some id => (2, ret_arg1, Some (SA_id id))
                end
            end
        end
    | r => r
    end
  else (0, None, None).

Definition status_id_codes : list Z :=
  status_client ++ status_server ++ status_channel ++ status_user.

Lemma status_one_id_valid args raw tmp len id :
  silc_argument_get_arg_type (Some args) 2 = (Some tmp, len) ->
  silc_id_payload_parse_id (mem_read tmp len) = Some id ->
  status_one_id args raw = (0, None, None).
Proof. intros Ha Hp. unfold status_one_id. by rewrite Ha, Hp. Qed.

Lemma status_in_id_codes status :
  status_in status status_id_codes = true ->
  status_in status status_data = false /\
  (status_in status status_client || status_in status status_server ||
   status_in status status_channel || status_in status status_user) = true.
Proof.
  unfold status_in. intros (x & Hin & E%Z.eqb_eq)%existsb_exists. subst x. revert status Hin.
  by apply List.Forall_forall; repeat constructor.
Qed.

(** The arguments of an ID status are never delivered: for every status
    that names a client, server or channel, silc_status_get_args returns
    0 without storing an ID whenever argument 2 is a valid ID Payload.  Only
    for bytes that are no ID Payload does it go on, and what it then stores
    is a copy of the local structure that was never filled in. *)
Theorem silc_status_get_args_id status args tmp len :
  status_in status status_id_codes = true ->
  silc_argument_get_arg_type (Some args) 2 = (Some tmp, len) ->
  match silc_id_payload_parse_id (mem_read tmp len) with
  | Some _ => silc_status_get_args status args = (0, None, None)
  | None =>
      0 < ap_argc args <= 3 -> status_in status status_client = true ->
      silc_status_get_args status args = (1, Some (SA_id (IdClient raw_client)), None)
  end.
Proof.
  intros Hs Ha. destruct (status_in_id_codes status Hs) as [Hd Hid].
  unfold silc_status_get_args. rewrite Hd.
  destruct (silc_id_payload_parse_id (mem_read tmp len)) as [id|] eqn:Ep.
  - assert (forall raw, status_one_id args raw = (0, None, None)) as E
      by (intros raw; by apply (status_one_id_valid args raw tmp len id)).
    rewrite !E. repeat case_match; done.
  - intros Hn Hc. rewrite Hc. unfold silc_argument_get_arg_num. case_cmps.
    unfold status_one_id. by rewrite Ha, Ep.
Qed.
End status.

Definition witness_status_args : SilcArgumentPayload :=
  {| ap_argv := [{| arg_type := 1; arg_len := 2; arg_data := Some [22; 0] |};
                 {| arg_type := 2; arg_len := 13; arg_data := Some witness_id_wire |}];
     ap_pos := 0 |}.
Definition witness_raw_ip : SilcIDIP := {| ip_data := []; ip_data_len := 0 |}.

(** A valid ID in argument 2, and 0 is returned. *)
Lemma silc_status_get_args_id_witness :
  silc_status_get_args
    {| cid_ip := witness_raw_ip; cid_rnd := 0; cid_hash := [] |}
    {| sid_ip := witness_raw_ip; sid_port := 0; sid_rnd := 0 |}
    {| chid_ip := witness_raw_ip; chid_port := 0; chid_rnd := 0 |}
    witness_id witness_id SILC_STATUS_ERR_NO_SUCH_CLIENT_ID witness_status_args = (0, None, None).
Proof.
  pose proof (silc_status_get_args_id
    {| cid_ip := witness_raw_ip; cid_rnd := 0; cid_hash := [] |}
    {| sid_ip := witness_raw_ip; sid_port := 0; sid_rnd := 0 |}
    {| chid_ip := witness_raw_ip; chid_port := 0; chid_rnd := 0 |}
    witness_id witness_id SILC_STATUS_ERR_NO_SUCH_CLIENT_ID witness_status_args
    witness_id_wire 13 eq_refl eq_refl) as H.
  assert (silc_id_payload_parse_id (mem_read witness_id_wire 13) = Some witness_id) as E
    by (vm_compute; reflexivity).
  rewrite E in H. exact H.
Defined.
