(* ===== verification/SkePayload.v ===== *)
(** lib/silcske/payload.c: the Key Exchange Start Payload and the Key Exchange
    Payload of the SILC Key Exchange protocol.

    A pointer field and its length field are one [SkeField].  The multiple
    precision integers of lib/silcmath are a parameter: a type with the
    conversions to and from big endian bytes. *)

From S2P Require Import Prelude CTypes Buffer BufFmt BufFmtSpec.

Inductive SilcSKEStatus :=
| SILC_SKE_STATUS_OK
| SILC_SKE_STATUS_ERROR
| SILC_SKE_STATUS_BAD_PAYLOAD
| SILC_SKE_STATUS_UNKNOWN_GROUP
| SILC_SKE_STATUS_UNKNOWN_CIPHER
| SILC_SKE_STATUS_UNKNOWN_PKCS
| SILC_SKE_STATUS_UNKNOWN_HASH_FUNCTION
| SILC_SKE_STATUS_UNKNOWN_HMAC
| SILC_SKE_STATUS_UNSUPPORTED_PUBLIC_KEY
| SILC_SKE_STATUS_INCORRECT_SIGNATURE
| SILC_SKE_STATUS_BAD_VERSION
| SILC_SKE_STATUS_INVALID_COOKIE
| SILC_SKE_STATUS_PUBLIC_KEY_NOT_PROVIDED
| SILC_SKE_STATUS_BAD_RESERVED_FIELD
| SILC_SKE_STATUS_BAD_PAYLOAD_LENGTH
| SILC_SKE_STATUS_SIGNATURE_ERROR
| SILC_SKE_STATUS_OUT_OF_MEMORY
| SILC_SKE_STATUS_TIMEOUT
| SILC_SKE_STATUS_PROBE_TIMEOUT.

Definition SILC_SKE_COOKIE_LEN : Z := 16.
Definition SILC_SKE_SP_FLAG_MUTUAL : Z := 4.
Definition SILC_SKE_PK_TYPE_SILC : Z := 1.
Definition SILC_SKE_PK_TYPE_SPKI : Z := 5.

Record SkeField := { f_data : option (list Z); f_len : Z }.

(** * Start Payload *)

Record SilcSKEStartPayload := {
  sp_flags : Z;
  sp_len : Z;
  sp_cookie : SkeField;
  sp_version : SkeField;
  sp_ke_grp : SkeField;
  sp_pkcs_alg : SkeField;
  sp_enc_alg : SkeField;
  sp_hash_alg : SkeField;
  sp_hmac_alg : SkeField;
  sp_comp_alg : SkeField;
}.

(** SILC_STR_UI_SHORT of the length and SILC_STR_UI_XNSTRING of the data. *)
Definition field_params (f : SkeField) : list FormatParam :=
  [F_UI16_SHORT (f_len f); F_DATA (f_data f) (f_len f)].

Definition silc_ske_payload_start_encode (payload : option SilcSKEStartPayload)
  : SilcSKEStatus * option SilcBuffer :=
  match payload with
  | None => (SILC_SKE_STATUS_ERROR, None)
  | Some p =>
      match silc_buffer_alloc_size (sp_len p) with
      | None => (SILC_SKE_STATUS_OUT_OF_MEMORY, None)
      | Some buf =>
          let '(ret, buf) :=
            silc_buffer_format buf
              ([F_UI8_CHAR 0; F_UI8_CHAR (sp_flags p); F_UI16_SHORT (sp_len p);
                F_DATA (f_data (sp_cookie p)) (f_len (sp_cookie p))] ++
               field_params (sp_version p) ++ field_params (sp_ke_grp p) ++
               field_params (sp_pkcs_alg p) ++ field_params (sp_enc_alg p) ++
               field_params (sp_hash_alg p) ++ field_params (sp_hmac_alg p) ++
               field_params (sp_comp_alg p)) in
          if ret =? -1 then (SILC_SKE_STATUS_ERROR, None)
          else (SILC_SKE_STATUS_OK, Some buf)
      end
  end.

Definition is_null (p : option (list Z)) : bool :=
  match p with Some _ => false | None => true end.

Definition field_out (out : list UnformatOut) (i : nat) : SkeField :=
  {| f_data := out_ptr out (S i); f_len := out_num out i |}.

Definition silc_ske_payload_start_decode (buffer : SilcBuffer)
  : SilcSKEStatus * option SilcSKEStartPayload :=
  let nstring := U_NSTRING_ALLOC W16 true true in
  let '(ret, out, buffer) :=
    silc_buffer_unformat buffer
      [U_UI8_CHAR true; U_UI8_CHAR true; U_UI16_SHORT true;
       U_DATA_ALLOC true SILC_SKE_COOKIE_LEN;
       nstring; nstring; nstring; nstring; nstring; nstring; nstring] in
  if ret =? -1 then (SILC_SKE_STATUS_BAD_PAYLOAD, None)
  else
    let tmp := out_num out 0 in
    let p := {| sp_flags := out_num out 1; sp_len := out_num out 2;
                sp_cookie := {| f_data := out_ptr out 3; f_len := SILC_SKE_COOKIE_LEN |};
                sp_version := field_out out 4; sp_ke_grp := field_out out 6;
                sp_pkcs_alg := field_out out 8; sp_enc_alg := field_out out 10;
                sp_hash_alg := field_out out 12; sp_hmac_alg := field_out out 14;
                sp_comp_alg := field_out out 16 |} in
    if negb (tmp =? 0) then (SILC_SKE_STATUS_BAD_RESERVED_FIELD, None)
    else if negb (sp_len p =? silc_buffer_len buffer)
    then (SILC_SKE_STATUS_BAD_PAYLOAD_LENGTH, None)
    else if is_null (f_data (sp_cookie p)) || (f_len (sp_version p) =? 0) ||
            (f_len (sp_ke_grp p) =? 0) || (f_len (sp_pkcs_alg p) =? 0) ||
            (f_len (sp_enc_alg p) =? 0) || (f_len (sp_hash_alg p) =? 0) ||
            (f_len (sp_hmac_alg p) =? 0)
    then (SILC_SKE_STATUS_BAD_PAYLOAD, None)
    else if negb (sp_len p =? 4 + f_len (sp_cookie p) + f_len (sp_version p) +
                    f_len (sp_ke_grp p) + f_len (sp_pkcs_alg p) + f_len (sp_enc_alg p) +
                    f_len (sp_hash_alg p) + f_len (sp_hmac_alg p) + f_len (sp_comp_alg p) + 2 * 7)
    then (SILC_SKE_STATUS_BAD_PAYLOAD, None)
    else (SILC_SKE_STATUS_OK, Some p).

(** * Key Exchange Payload *)

Section ke.
Context {SilcMPInt : Type}.
Variable silc_mp_mp2bin : SilcMPInt -> list Z.
Variable silc_mp_bin2mp : list Z -> SilcMPInt.

Record SilcSKEKEPayload := {
  ke_pk : SkeField;
  ke_pk_type : Z;
  ke_x : SilcMPInt;
  ke_sign : SkeField;
}.

(** [start_flags] is ske->start_payload->flags, or [None] without a start payload. *)
Definition silc_ske_payload_ke_encode (start_flags : option Z)
    (payload : option SilcSKEKEPayload) : SilcSKEStatus * option SilcBuffer :=
  match payload with
  | None => (SILC_SKE_STATUS_ERROR, None)
  | Some p =>
      let mutual := match start_flags with
                    | Some fl => negb (Z.land fl SILC_SKE_SP_FLAG_MUTUAL =? 0)
                    | None => false
                    end in
      if mutual && is_null (f_data (ke_sign p)) then (SILC_SKE_STATUS_ERROR, None)
      else
        let x_str := silc_mp_mp2bin (ke_x p) in
        let x_len := zlen x_str in
        match silc_buffer_alloc_size
                (u32 (4 + f_len (ke_pk p) + 2 + x_len + 2 + f_len (ke_sign p))) with
        | None => (SILC_SKE_STATUS_OUT_OF_MEMORY, None)
        | Some buf =>
            let '(ret, buf) :=
              silc_buffer_format buf
                [F_UI16_SHORT (f_len (ke_pk p)); F_UI16_SHORT (ke_pk_type p);
                 F_DATA (f_data (ke_pk p)) (f_len (ke_pk p));
                 F_UI16_SHORT x_len; F_DATA (Some x_str) x_len;
                 F_UI16_SHORT (f_len (ke_sign p));
                 F_DATA (f_data (ke_sign p)) (f_len (ke_sign p))] in
            if ret =? -1 then (SILC_SKE_STATUS_ERROR, None)
            else (SILC_SKE_STATUS_OK, Some buf)
        end
  end.

(** Gives the status, the payload and the buffer, whose data pointer is left
    behind the fixed header when that was read. *)
Definition silc_ske_payload_ke_decode (start_flags : option Z) (buffer : SilcBuffer)
  : SilcSKEStatus * option SilcSKEKEPayload * SilcBuffer :=
  let len2 := silc_buffer_len buffer in
  let '(ret, out, buffer) :=
    silc_buffer_unformat buffer [U_UI16_SHORT true; U_UI16_SHORT true] in
  if ret =? -1 then (SILC_SKE_STATUS_BAD_PAYLOAD, None, buffer)
  else
    let pk_len := out_num out 0 in
    let pk_type := out_num out 1 in
    if match start_flags with
       | Some _ => ((pk_type <? SILC_SKE_PK_TYPE_SILC) || (SILC_SKE_PK_TYPE_SPKI <? pk_type)) ||
                   (pk_len =? 0)
       | None => false
       end
    then (SILC_SKE_STATUS_BAD_PAYLOAD, None, buffer)
    else
      let tot_len := pk_len + 4 in
      let buffer := silc_buffer_pull buffer 4 in
      let '(ret, out, buffer) :=
        silc_buffer_unformat buffer
          [U_DATA_ALLOC true pk_len; U_NSTRING_ALLOC W16 true true;
           U_NSTRING_ALLOC W16 true true] in
      if ret =? -1 then (SILC_SKE_STATUS_BAD_PAYLOAD, None, buffer)
      else
        let x_len := out_num out 1 in
        let sign := field_out out 3 in
        let tot_len := u32 (tot_len + (x_len + 2)) in
        let tot_len := u32 (tot_len + (f_len sign + 2)) in
        if x_len <? 16 then (SILC_SKE_STATUS_BAD_PAYLOAD, None, buffer)
        else if match start_flags with
                | Some fl => negb (Z.land fl SILC_SKE_SP_FLAG_MUTUAL =? 0)
                | None => false
                end && ((f_len sign <? 3) || is_null (f_data sign))
        then (SILC_SKE_STATUS_BAD_PAYLOAD, None, buffer)
        else if negb (tot_len =? len2) then (SILC_SKE_STATUS_BAD_PAYLOAD_LENGTH, None, buffer)
        else (SILC_SKE_STATUS_OK,
              Some {| ke_pk := {| f_data := out_ptr out 0; f_len := pk_len |};
                      ke_pk_type := pk_type;
                      ke_x := silc_mp_bin2mp (ptr_bytes (out_ptr out 2));
                      ke_sign := sign |}, buffer).
End ke.

(** * Well-formed payloads and their wire form *)

Definition field_wire (f : SkeField) : list Z := blk_wire (f_data f).
Definition field_opt (f : SkeField) : Prop := oblk_wf (f_data f) (f_len f).
Definition field_req (f : SkeField) : Prop := blk_wf (f_data f) (f_len f).

(** The fields with a length on the wire, in order. *)
Definition sp_fields (p : SilcSKEStartPayload) : list SkeField :=
  [sp_version p; sp_ke_grp p; sp_pkcs_alg p; sp_enc_alg p; sp_hash_alg p; sp_hmac_alg p;
   sp_comp_alg p].

Definition sp_total (p : SilcSKEStartPayload) : Z :=
  4 + SILC_SKE_COOKIE_LEN + f_len (sp_version p) + f_len (sp_ke_grp p) +
  f_len (sp_pkcs_alg p) + f_len (sp_enc_alg p) + f_len (sp_hash_alg p) +
  f_len (sp_hmac_alg p) + f_len (sp_comp_alg p) + 14.

Definition sp_wf (p : SilcSKEStartPayload) : Prop :=
  is_byte (sp_flags p) /\ sp_len p < 65536 /\ sp_len p = sp_total p /\
  blk_wf (f_data (sp_cookie p)) (f_len (sp_cookie p)) /\
  f_len (sp_cookie p) = SILC_SKE_COOKIE_LEN /\
  field_req (sp_version p) /\ field_req (sp_ke_grp p) /\ field_req (sp_pkcs_alg p) /\
  field_req (sp_enc_alg p) /\ field_req (sp_hash_alg p) /\ field_req (sp_hmac_alg p) /\
  field_opt (sp_comp_alg p).

Definition sp_wire (p : SilcSKEStartPayload) : list Z :=
  [0] ++ [sp_flags p] ++ SILC_PUT16_MSB (sp_len p) ++ ptr_bytes (f_data (sp_cookie p)) ++
  concat (map field_wire (sp_fields p)).

Lemma field_req_opt f : field_req f -> field_opt f.
Proof. by right. Qed.

Lemma sp_wf_fields p : sp_wf p -> Forall field_opt (sp_fields p).
Proof.
  intros (_ & _ & _ & _ & _ & ? & ? & ? & ? & ? & ? & ?).
  unfold sp_fields. repeat apply Forall_cons_2; auto using field_req_opt, Forall_nil_2.
Qed.

Lemma fields_fmt fs ap :
  Forall field_opt fs ->
  fmt_bytes (concat (map field_params fs) ++ ap) = concat (map field_wire fs) ++ fmt_bytes ap.
Proof.
  induction fs as [|f fs IH]; intros Hf; [done|]. apply Forall_cons_iff in Hf as [H1 Hf].
  cbn [map concat]. unfold field_params at 1. cbn [app].
  rewrite (oblk_fmt _ _ _ H1), (IH Hf). by rewrite <- app_assoc.
Qed.

Lemma fields_fmt_plain fs : Forall field_opt fs -> Forall fmt_plain (concat (map field_params fs)).
Proof.
  induction fs as [|f fs IH]; intros Hf; [by apply Forall_nil_2|].
  apply Forall_cons_iff in Hf as [H1 Hf]. cbn [map concat field_params app].
  repeat apply Forall_cons_2; [done| |by apply IH]. simpl. apply oblk_wf_len in H1. lia.
Qed.

Lemma fields_len fs :
  Forall field_opt fs ->
  zlen (concat (map field_wire fs)) = foldr (fun f n => 2 + f_len f + n) 0 fs.
Proof.
  induction fs as [|f fs IH]; intros Hf; [done|]. apply Forall_cons_iff in Hf as [H1 Hf].
  cbn [map concat foldr]. rewrite length_app, <- (IH Hf).
  pose proof (oblk_wire_len _ _ H1). unfold field_wire at 1. lia.
Qed.

Lemma fields_wire_ok fs : Forall field_opt fs -> bytes_ok (concat (map field_wire fs)).
Proof.
  induction fs as [|f fs IH]; intros Hf; [by apply Forall_nil_2|].
  apply Forall_cons_iff in Hf as [H1 Hf]. cbn [map concat]. apply Forall_app.
  split; [by eapply oblk_wire_ok|by apply IH].
Qed.

Lemma sp_wire_len p : sp_wf p -> zlen (sp_wire p) = sp_len p.
Proof.
  intros Hwf. pose proof (fields_len _ (sp_wf_fields p Hwf)) as Hf.
  destruct Hwf as (_ & _ & Ht & Hc & Hcl & _). apply blk_wf_len in Hc as [Hc _].
  unfold sp_wire. rewrite !length_app. cbn [foldr sp_fields] in Hf.
  rewrite Ht. unfold sp_total. change (length (SILC_PUT16_MSB _)) with 2%nat.
  unfold sp_fields in *. cbn [length]. lia.
Qed.

Lemma start_encode_spec p :
  sp_wf p ->
  silc_ske_payload_start_encode (Some p) = (SILC_SKE_STATUS_OK, Some (silc_buffer_set (sp_wire p))).
Proof.
  intros Hwf. pose proof (sp_wire_len p Hwf) as Hlen.
  pose proof (sp_wf_fields p Hwf) as Hfs.
  destruct Hwf as (Hb & Hl & Ht & Hc & Hcl & _). destruct (blk_wf_len _ _ Hc) as [Hc1 Hc2].
  unfold silc_ske_payload_start_encode.
  rewrite buffer_alloc_size_ok by (unfold SILC_MAX_ALLOC; lia).
  set (ap := _ ++ _ ++ _).
  assert (ap = [F_UI8_CHAR 0; F_UI8_CHAR (sp_flags p); F_UI16_SHORT (sp_len p);
    F_DATA (f_data (sp_cookie p)) (f_len (sp_cookie p))] ++
    (concat (map field_params (sp_fields p)) ++ [])) as Hap by (unfold ap; by rewrite app_nil_r).
  assert (fmt_bytes ap = sp_wire p) as E.
  { rewrite Hap. unfold fmt_bytes. rewrite map_app, concat_app.
    change (concat (map fmt_bytes1 (?a ++ []))) with (fmt_bytes (a ++ [])).
    fold (fmt_bytes (concat (map field_params (sp_fields p)) ++ [])).
    rewrite (fields_fmt _ [] Hfs). unfold fmt_bytes, sp_wire. cbn [map concat fmt_bytes1].
    change (u8 0) with 0. rewrite !app_nil_r, u8_id, u16_id by (done || lia).
    rewrite <- !app_assoc. do 3 f_equal.
    destruct (f_data (sp_cookie p)); [|done]. by rewrite mem_read_exact. }
  rewrite format_exact.
  - rewrite E. ret_case; [lia|]. done.
  - rewrite Hap. apply Forall_app. split; [repeat constructor; simpl; lia|].
    rewrite app_nil_r. by apply fields_fmt_plain.
  - by rewrite E.
  - unfold SILC_MAX_ALLOC; lia.
Qed.

Definition start_params : list UnformatParam :=
  let nstring := U_NSTRING_ALLOC W16 true true in
  [U_UI8_CHAR true; U_UI8_CHAR true; U_UI16_SHORT true;
   U_DATA_ALLOC true SILC_SKE_COOKIE_LEN;
   nstring; nstring; nstring; nstring; nstring; nstring; nstring].

Lemma start_params_plain : Forall unf_plain start_params.
Proof. by repeat constructor. Qed.

Lemma start_parse_wire p :
  sp_wf p ->
  parse start_params (sp_wire p) =
  Some ([ONum 0; ONum (sp_flags p); ONum (sp_len p); OPtr (f_data (sp_cookie p))] ++
        concat (map (fun f => [ONum (f_len f); OPtr (f_data f)]) (sp_fields p)), []).
Proof.
  intros (Hb & Hl & Ht & Hc & Hcl & H1 & H2 & H3 & H4 & H5 & H6 & H7).
  assert (0 <= sp_len p) as Hl0.
  { rewrite Ht. unfold sp_total, SILC_SKE_COOKIE_LEN.
    apply blk_wf_len in H1, H2, H3, H4, H5, H6. apply oblk_wf_len in H7. lia. }
  apply blk_wf_len in Hc as Hc'. destruct Hc' as [Hc1 _]. rewrite Hcl in Hc1.
  unfold start_params, sp_wire, sp_fields. cbn [map concat app].
  rewrite parse_U8, parse_U8, parse_U16, u16_id by (done || lia).
  rewrite parse_DATA_ALLOC by done.
  unfold field_req, field_opt, field_wire in *.
  rewrite (blk_parse _ _ _ _ H1), (blk_parse _ _ _ _ H2), (blk_parse _ _ _ _ H3),
    (blk_parse _ _ _ _ H4), (blk_parse _ _ _ _ H5), (blk_parse _ _ _ _ H6),
    (oblk_parse _ _ _ _ H7). cbn [parse prepend app].
  rewrite dup_bytes_some by (rewrite Hc1; by unfold SILC_MAX_ALLOC).
  destruct (f_data (sp_cookie p)); done.
Qed.

Lemma start_decode_wire b p :
  buf_ok b -> sp_wf p -> b_data b = sp_wire p ->
  silc_ske_payload_start_decode b = (SILC_SKE_STATUS_OK, Some p).
Proof.
  intros Hok Hwf Hd. pose proof (sp_wire_len p Hwf) as Hlen.
  pose proof (start_parse_wire p Hwf) as Hp. rewrite <- Hd in Hp.
  unfold silc_ske_payload_start_decode. fold start_params.
  rewrite (unformat_some _ _ _ _ Hok start_params_plain Hp).
  destruct Hwf as (Hb & Hl & Ht & Hc & Hcl & H1 & H2 & H3 & H4 & H5 & H6 & H7).
  apply blk_wf_len in H1, H2, H3, H4, H5, H6. ret_case; [rewrite Hd in *; simpl in *; lia|].
  unfold field_out, sp_fields. cbn [app map concat out_num out_ptr nth_error
    sp_len sp_cookie sp_version sp_ke_grp sp_pkcs_alg sp_enc_alg sp_hash_alg sp_hmac_alg
    sp_comp_alg f_data f_len Z.eqb negb].
  rewrite buffer_len_ok, Hd, Hlen by done.
  destruct (Z.eqb_spec (sp_len p) (sp_len p)); [|done]. cbn [negb].
  destruct (f_data (sp_cookie p)) as [c|] eqn:Ec; [|done]. cbn [is_null orb].
  unfold sp_total in Ht. case_cmps.
  destruct p as [fl ln [cd cl] [] [] [] [] [] [] []]. cbn in *. by subst.
Qed.

Lemma start_decode_inv b p :
  buf_ok b -> bytes_ok (b_data b) ->
  silc_ske_payload_start_decode b = (SILC_SKE_STATUS_OK, Some p) ->
  sp_wf p /\ b_data b = sp_wire p.
Proof.
  intros Hok Hb. unfold silc_ske_payload_start_decode. fold start_params.
  destruct (parse start_params (b_data b)) as [[outs rest]|] eqn:Ep.
  2: { destruct (unformat_none _ _ Hok start_params_plain Ep) as (o & ->). done. }
  rewrite (unformat_some _ _ _ _ Hok start_params_plain Ep). unfold start_params in Ep.
  ret_case; [done|]. clear n.
  apply parse_U8_inv in Ep as (r & d1 & o1 & Hd & ? & Hb1 & Ep & Ho); [|done].
  apply parse_U8_inv in Ep as (fl & d2 & o2 & -> & ? & Hb2 & Ep & Ho2); [|done].
  apply parse_U16_inv in Ep as (l & d3 & o3 & -> & ? & Hb3 & Ep & Ho3); [|done].
  apply parse_DATA_ALLOC_inv in Ep as (c & d4 & o4 & -> & Hcl & Hcb & Hb4 & Ep & Ho4); [|done..].
  apply parse_block_inv in Ep as (p1 & n1 & d5 & o5 & -> & W1 & Hb5 & Ep & Ho5); [|done].
  apply parse_block_inv in Ep as (p2 & n2 & d6 & o6 & -> & W2 & Hb6 & Ep & Ho6); [|done].
  apply parse_block_inv in Ep as (p3 & n3 & d7 & o7 & -> & W3 & Hb7 & Ep & Ho7); [|done].
  apply parse_block_inv in Ep as (p4 & n4 & d8 & o8 & -> & W4 & Hb8 & Ep & Ho8); [|done].
  apply parse_block_inv in Ep as (p5 & n5 & d9 & o9 & -> & W5 & Hb9 & Ep & Ho9); [|done].
  apply parse_block_inv in Ep as (p6 & n6 & d10 & o10 & -> & W6 & Hb10 & Ep & Ho10); [|done].
  apply parse_block_inv in Ep as (p7 & n7 & d11 & o11 & -> & W7 & Hb11 & Ep & Ho11); [|done].
  apply parse_nil_inv in Ep. cbn [fst snd] in *. injection Ep as -> <-. subst.
  unfold field_out. cbn [out_num out_ptr nth_error
    sp_len sp_cookie sp_version sp_ke_grp sp_pkcs_alg sp_enc_alg sp_hash_alg sp_hmac_alg
    sp_comp_alg f_data f_len].
  destruct (Z.eqb_spec r 0) as [->|]; cbn [negb]; [|done].
  destruct (Z.eqb_spec l (silc_buffer_len b)) as [El|]; cbn [negb]; [|done].
  destruct (is_null _ || _ || _ || _ || _ || _ || _) eqn:En; [done|].
  rewrite !orb_false_iff, !Z.eqb_neq in En. destruct En as ((((((En & ?) & ?) & ?) & ?) & ?) & ?).
  destruct (Z.eqb_spec l (4 + SILC_SKE_COOKIE_LEN + n1 + n2 + n3 + n4 + n5 + n6 + n7 + 2 * 7))
    as [Hl|]; cbn [negb]; [|done].
  intros [= <-].
  assert (forall q n, oblk_wf q n -> n <> 0 -> blk_wf q n) as Hreq by (by intros q n [[-> ->]|]).
  rewrite dup_bytes_some by (unfold SILC_MAX_ALLOC, SILC_SKE_COOKIE_LEN in *; lia).
  assert (zlen rest = 0) as Hr.
  { rewrite buffer_len_ok, Hd in El by done. revert El. rewrite Hl. autorewrite with silc_len.
    apply oblk_wire_len in W1, W2, W3, W4, W5, W6, W7. rewrite !Nat2Z.inj_succ, !Nat2Z.inj_add.
    unfold SILC_SKE_COOKIE_LEN in *. lia. }
  apply zlen_0_nil in Hr as ->. split.
  - unfold sp_wf, field_req, field_opt, sp_total, SILC_SKE_COOKIE_LEN in *.
    cbn [sp_flags sp_len sp_cookie sp_version sp_ke_grp sp_pkcs_alg sp_enc_alg sp_hash_alg
      sp_hmac_alg sp_comp_alg f_data f_len]. split_and!; auto; try lia.
    split_and!; done || lia.
  - rewrite Hd. unfold sp_wire, sp_fields, field_wire.
    cbn [sp_flags sp_len sp_cookie sp_version sp_ke_grp sp_pkcs_alg sp_enc_alg sp_hash_alg
      sp_hmac_alg sp_comp_alg f_data f_len map concat ptr_bytes app]. done.
Qed.

(** ** The Key Exchange Payload *)

Section ke_spec.
Context {SilcMPInt : Type}.
Variable silc_mp_mp2bin : SilcMPInt -> list Z.
Variable silc_mp_bin2mp : list Z -> SilcMPInt.
Implicit Types p : @SilcSKEKEPayload SilcMPInt.

Definition mutual (start_flags : option Z) : bool :=
  match start_flags with
  | Some fl => negb (Z.land fl SILC_SKE_SP_FLAG_MUTUAL =? 0)
  | None => false
  end.

(** What the decoder checks: in a key exchange that has a start payload a public
    key of a known type, a Diffie-Hellman value of 16 bytes or more, and a
    signature when both parties authenticate. *)
Definition ke_wf (start_flags : option Z) p (x : list Z) : Prop :=
  field_opt (ke_pk p) /\ 0 <= ke_pk_type p < 65536 /\
  (start_flags <> None -> field_req (ke_pk p) /\ 1 <= ke_pk_type p <= 5) /\
  bytes_ok x /\ 16 <= zlen x < 65536 /\
  field_opt (ke_sign p) /\ (mutual start_flags = true -> 3 <= f_len (ke_sign p)).

Definition ke_wire p (x : list Z) : list Z :=
  SILC_PUT16_MSB (f_len (ke_pk p)) ++ SILC_PUT16_MSB (ke_pk_type p) ++
  ptr_bytes (f_data (ke_pk p)) ++ blk_wire (Some x) ++ field_wire (ke_sign p).

Lemma ke_wire_len fl p x :
  ke_wf fl p x -> zlen (ke_wire p x) = f_len (ke_pk p) + zlen x + f_len (ke_sign p) + 8.
Proof.
  intros (Hpk & _ & _ & _ & Hx & Hs & _). unfold ke_wire, blk_wire, field_wire.
  apply oblk_wf_len in Hpk as [Hpk _]. pose proof (oblk_wire_len _ _ Hs).
  cbn [ptr_bytes]. rewrite !length_app. unfold blk_wire in *. rewrite length_app in *.
  change (length (SILC_PUT16_MSB _)) with 2%nat in *. lia.
Qed.

Lemma mutual_sign p fl :
  field_opt (ke_sign p) -> (mutual fl = true -> 3 <= f_len (ke_sign p)) ->
  mutual fl && is_null (f_data (ke_sign p)) = false.
Proof.
  intros Hs Hm. destruct (mutual fl); [|done]. cbn [andb].
  destruct Hs as [[Hn Hl]|Hs]; [exfalso; specialize (Hm eq_refl); lia|].
  by destruct (f_data (ke_sign p)).
Qed.

Lemma ke_encode_spec fl p :
  ke_wf fl p (silc_mp_mp2bin (ke_x p)) ->
  silc_ske_payload_ke_encode silc_mp_mp2bin fl (Some p) =
  (SILC_SKE_STATUS_OK, Some (silc_buffer_set (ke_wire p (silc_mp_mp2bin (ke_x p))))).
Proof.
  intros Hwf. pose proof (ke_wire_len _ _ _ Hwf) as Hlen.
  set (x := silc_mp_mp2bin (ke_x p)) in *. destruct Hwf as (Hpk & Ht & _ & Hxb & Hx & Hs & Hm).
  unfold silc_ske_payload_ke_encode. fold x. fold (mutual fl).
  rewrite (mutual_sign p fl Hs Hm).
  apply oblk_wf_len in Hpk as Hpk'. destruct Hpk' as [Hpl Hpr].
  apply oblk_wf_len in Hs as Hs'. destruct Hs' as [Hsl Hsr].
  rewrite u32_id, buffer_alloc_size_ok by (unfold SILC_MAX_ALLOC; lia).
  set (ap := [_; _; _; _; _; _; _]).
  assert (fmt_bytes ap = ke_wire p x) as E.
  { unfold ap. set (tl := F_UI16_SHORT (zlen x) :: _).
    assert (fmt_bytes tl = blk_wire (Some x) ++ field_wire (ke_sign p)) as Et.
    { unfold tl. rewrite (blk_fmt (Some x) (zlen x)) by (unfold blk_wf; split_and!; done || lia).
      rewrite (oblk_fmt _ _ [] Hs). by rewrite app_nil_r. }
    unfold ke_wire. rewrite <- Et. unfold fmt_bytes. cbn [map concat fmt_bytes1].
    rewrite !u16_id by lia. do 2 f_equal. f_equal.
    destruct (f_data (ke_pk p)); [|done]. by rewrite mem_read_exact. }
  rewrite format_exact.
  - rewrite E. ret_case; [lia|]. done.
  - repeat constructor; simpl; lia.
  - rewrite E. lia.
  - unfold SILC_MAX_ALLOC; lia.
Qed.

Definition ke_hdr : list UnformatParam := [U_UI16_SHORT true; U_UI16_SHORT true].
Definition ke_rest (n : Z) : list UnformatParam :=
  [U_DATA_ALLOC true n; U_NSTRING_ALLOC W16 true true; U_NSTRING_ALLOC W16 true true].

Lemma ke_hdr_plain : Forall unf_plain ke_hdr.
Proof. by repeat constructor. Qed.
Lemma ke_rest_plain n : 0 <= n < 65536 -> Forall unf_plain (ke_rest n).
Proof. intros. repeat constructor; simpl; lia. Qed.

Lemma ke_decode_wire fl p x b :
  buf_ok b -> ke_wf fl p x -> b_data b = ke_wire p x -> silc_mp_bin2mp x = ke_x p ->
  silc_ske_payload_ke_decode silc_mp_bin2mp fl b =
  (SILC_SKE_STATUS_OK, Some p, silc_buffer_pull b 4).
Proof.
  intros Hok Hwf Hd Hx. pose proof (ke_wire_len _ _ _ Hwf) as Hlen.
  destruct Hwf as (Hpk & Ht & Hfl & Hxb & Hxl & Hs & Hm).
  apply oblk_wf_len in Hpk as Hpk'. destruct Hpk' as [Hpl Hpr].
  apply oblk_wf_len in Hs as Hs'. destruct Hs' as [Hsl Hsr].
  unfold silc_ske_payload_ke_decode. fold ke_hdr. fold (mutual fl).
  set (tl := ptr_bytes (f_data (ke_pk p)) ++ blk_wire (Some x) ++ field_wire (ke_sign p)).
  rewrite (unformat_some b ke_hdr [ONum (f_len (ke_pk p)); ONum (ke_pk_type p)] tl
    Hok ke_hdr_plain).
  2: { rewrite Hd. unfold ke_wire, ke_hdr. rewrite parse_U16, parse_U16.
       by rewrite !u16_id by lia. }
  assert (zlen (b_data b) = 4 + zlen tl) as Htl.
  { rewrite Hd. unfold ke_wire. fold tl. rewrite !length_app.
    change (length (SILC_PUT16_MSB _)) with 2%nat. lia. }
  ret_case; [lia|]. cbn [out_num nth_error].
  replace (match fl with Some _ => _ | None => false end) with false.
  2: { symmetry. destruct fl; [|done]. destruct Hfl as [Hr ?]; [done|].
       apply blk_wf_len in Hr. unfold SILC_SKE_PK_TYPE_SILC, SILC_SKE_PK_TYPE_SPKI.
       case_cmps. done. }
  fold (ke_rest (f_len (ke_pk p))). set (b2 := silc_buffer_pull b 4).
  assert (buf_ok b2) as Hok2 by (by apply buffer_pull_ok).
  assert (b_data b2 = tl) as Hd2.
  { unfold b2, silc_buffer_pull. rewrite buffer_len_ok by done. zcase; [lia|].
    cbn [b_data]. rewrite Hd. unfold ke_wire. fold tl. rewrite app_assoc.
    by apply zdrop_app_exact. }
  rewrite (unformat_some b2 _ [OPtr (f_data (ke_pk p)); ONum (zlen x); OPtr (Some x);
    ONum (f_len (ke_sign p)); OPtr (f_data (ke_sign p))] [] Hok2 (ke_rest_plain _ Hpr)).
  2: { rewrite Hd2. unfold tl, ke_rest. rewrite parse_DATA_ALLOC by done.
       rewrite (blk_parse (Some x) (zlen x)) by (unfold blk_wf; split_and!; done || lia).
       rewrite <- (app_nil_r (field_wire _)). rewrite (oblk_parse _ _ _ _ Hs).
       cbn [parse prepend app]. do 3 f_equal.
       destruct Hpk as [[-> ?]|Hpk]; [done|]. apply blk_wf_len in Hpk as [? ?].
       destruct (f_data (ke_pk p)); cbn [ptr_bytes] in *; [|cbn in *; lia].
       rewrite dup_bytes_some by (unfold SILC_MAX_ALLOC; lia). done. }
  ret_case; [simpl in *; lia|]. unfold field_out. cbn [out_num out_ptr nth_error f_len f_data].
  destruct (Z.ltb_spec (zlen x) 16); [lia|].
  replace (mutual fl && _) with false.
  2: { symmetry. pose proof (mutual_sign p fl Hs Hm) as H0. destruct (mutual fl); [|done].
       cbn [andb] in *. rewrite H0. specialize (Hm eq_refl). zcase; [lia|done]. }
  rewrite buffer_len_ok, Hd, Hlen by done. rewrite !u32_id by (rewrite ?u32_id; lia).
  destruct (Z.eqb_spec (f_len (ke_pk p) + 4 + (zlen x + 2) + (f_len (ke_sign p) + 2))
    (f_len (ke_pk p) + zlen x + f_len (ke_sign p) + 8)); [|lia].
  cbn [negb ptr_bytes]. rewrite Hx. destruct p as [[] ? ? []]. done.
Qed.

Lemma ke_decode_inv fl p b b' :
  buf_ok b -> bytes_ok (b_data b) ->
  silc_ske_payload_ke_decode silc_mp_bin2mp fl b = (SILC_SKE_STATUS_OK, Some p, b') ->
  exists x, ke_wf fl p x /\ b_data b = ke_wire p x /\ ke_x p = silc_mp_bin2mp x.
Proof.
  intros Hok Hb. unfold silc_ske_payload_ke_decode. fold ke_hdr. fold (mutual fl).
  destruct (parse ke_hdr (b_data b)) as [[outs rest]|] eqn:Ep.
  2: { destruct (unformat_none _ _ Hok ke_hdr_plain Ep) as (o & ->). done. }
  rewrite (unformat_some _ _ _ _ Hok ke_hdr_plain Ep). unfold ke_hdr in Ep.
  apply parse_U16_inv in Ep as (pl & d1 & o1 & Hd & Hpl & Hb1 & Ep & Ho); [|done].
  apply parse_U16_inv in Ep as (pt & d2 & o2 & -> & Hpt & Hb2 & Ep & Ho2); [|done].
  apply parse_nil_inv in Ep. cbn [fst snd] in *. injection Ep as -> <-. subst o1 outs.
  ret_case; [done|]. clear n. cbn [out_num nth_error].
  destruct (match fl with Some _ => _ | None => false end) eqn:Efl; [done|].
  assert (zlen (b_data b) = 4 + zlen rest) as Hlen by (rewrite Hd; len).
  fold (ke_rest pl). set (b2 := silc_buffer_pull b 4).
  assert (buf_ok b2) as Hok2 by (by apply buffer_pull_ok).
  assert (b_data b2 = rest) as Hd2.
  { unfold b2, silc_buffer_pull. rewrite buffer_len_ok by done. zcase; [lia|].
    cbn [b_data]. rewrite Hd, app_assoc. by apply zdrop_app_exact. }
  destruct (parse (ke_rest pl) (b_data b2)) as [[outs rest2]|] eqn:Ep.
  2: { destruct (unformat_none _ _ Hok2 (ke_rest_plain _ Hpl) Ep) as (o & ->). done. }
  rewrite (unformat_some _ _ _ _ Hok2 (ke_rest_plain _ Hpl) Ep). unfold ke_rest in Ep.
  rewrite Hd2 in Ep.
  apply parse_DATA_ALLOC_inv in Ep as (pk & d4 & o4 & -> & Hpkl & Hpkb & Hb4 & Ep & Ho4);
    [|done|lia].
  apply parse_NSTRING16_ALLOC_inv in Ep as (x & d5 & o5 & -> & Hxl & Hxb & Hb5 & Ep & Ho5); [|done].
  apply parse_block_inv in Ep as (sg & sl & d6 & o6 & -> & Ws & Hb6 & Ep & Ho6); [|done].
  apply parse_nil_inv in Ep. cbn [fst snd] in *. injection Ep as -> <-. subst o5 o4 outs.
  ret_case; [done|]. clear n. unfold field_out. cbn [out_num out_ptr nth_error f_len f_data].
  destruct (Z.ltb_spec (zlen x) 16); [done|].
  destruct (mutual fl && _) eqn:Em; [done|].
  destruct (Z.eqb_spec (u32 (u32 (pl + 4 + (zlen x + 2)) + (sl + 2))) (silc_buffer_len b))
    as [El|]; cbn [negb]; [|done].
  intros [= <- _].
  apply oblk_wf_len in Ws as Ws'. destruct Ws' as [Hsl Hsr].
  assert (zlen rest2 = 0) as Hr.
  { rewrite buffer_len_ok, Hlen in El by done. rewrite !u32_id in El by (rewrite ?u32_id; lia).
    revert El. pose proof (oblk_wire_len _ _ Ws). autorewrite with silc_len.
    rewrite !Nat2Z.inj_add. lia. }
  apply zlen_0_nil in Hr as ->. rewrite app_nil_r in *.
  assert (dup_bytes x = Some x) as Hdx by (apply dup_bytes_some; unfold SILC_MAX_ALLOC; lia).
  destruct (oblk_of_dup pk Hpkb ltac:(lia)) as [Wpk Hpk].
  exists x. split_and!.
  - unfold ke_wf, field_opt, field_req. cbn [ke_pk ke_pk_type ke_sign f_data f_len].
    rewrite <- Hpkl. split_and!; try done; try lia.
    destruct fl; [|done]. intros _. unfold SILC_SKE_PK_TYPE_SILC, SILC_SKE_PK_TYPE_SPKI in Efl.
    split; [|lia]. by destruct Wpk as [[_ ?]|?]; [lia|].
  - rewrite Hd. unfold ke_wire, field_wire, blk_wire.
    cbn [ke_pk ke_pk_type ke_sign f_data f_len ptr_bytes].
    by rewrite Hpk, <- !app_assoc.
  - cbn [ke_x]. by rewrite Hdx.
Qed.
End ke_spec.

(** * Properties *)

(** C26. silc_ske_payload_start_decode accepts exactly what
    silc_ske_payload_start_encode produces: it returns OK with a payload if
    and only if the payload is well-formed (mandatory fields present, lengths
    that add up to the length field, cookie of 16 bytes) and the bytes are its
    encoding. *)
Theorem silc_ske_payload_start_decode_iff b p :
  buf_ok b -> bytes_ok (b_data b) ->
  silc_ske_payload_start_decode b = (SILC_SKE_STATUS_OK, Some p) <->
  sp_wf p /\ silc_ske_payload_start_encode (Some p) =
             (SILC_SKE_STATUS_OK, Some (silc_buffer_set (b_data b))).
Proof.
  intros Hok Hb. split.
  - intros H. destruct (start_decode_inv b p Hok Hb H) as [Hwf Hd].
    split; [done|]. by rewrite start_encode_spec, Hd.
  - intros [Hwf He]. rewrite start_encode_spec in He by done. injection He as He.
    by apply start_decode_wire.
Qed.

Definition witness_field (l : list Z) : SkeField := {| f_data := Some l; f_len := zlen l |}.
Definition witness_start : SilcSKEStartPayload :=
  {| sp_flags := 2; sp_len := 41; sp_cookie := witness_field (zrepeat 7 16);
     sp_version := witness_field [49]; sp_ke_grp := witness_field [50];
     sp_pkcs_alg := witness_field [51]; sp_enc_alg := witness_field [52; 52];
     sp_hash_alg := witness_field [53]; sp_hmac_alg := witness_field [54];
     sp_comp_alg := {| f_data := None; f_len := 0 |} |}.

Lemma silc_ske_payload_start_decode_iff_witness : sp_wf witness_start.
Proof.
  apply (silc_ske_payload_start_decode_iff (silc_buffer_set (sp_wire witness_start))).
  - vm_compute; reflexivity.
  - apply bytes_ok_check. vm_compute; reflexivity.
  - vm_compute; reflexivity.
Defined.

(** The Key Exchange Payload: a decoded payload passed every check (a public
    key of a known type and a signature where they are required, a
    Diffie-Hellman value of at least 16 bytes, no byte left over) and the
    bytes are its wire form; and what silc_ske_payload_ke_encode produces
    for such a payload decodes to it, when the integer survives the conversion
    to bytes and back. *)
Theorem silc_ske_payload_ke_roundtrip {MP : Type} (mp2bin : MP -> list Z)
    (bin2mp : list Z -> MP) fl p b :
  buf_ok b -> bytes_ok (b_data b) ->
  (forall b', silc_ske_payload_ke_decode bin2mp fl b = (SILC_SKE_STATUS_OK, Some p, b') ->
     exists x, ke_wf fl p x /\ b_data b = ke_wire p x /\ ke_x p = bin2mp x) /\
  (ke_wf fl p (mp2bin (ke_x p)) -> bin2mp (mp2bin (ke_x p)) = ke_x p ->
   silc_ske_payload_ke_encode mp2bin fl (Some p) =
     (SILC_SKE_STATUS_OK, Some (silc_buffer_set (b_data b))) ->
   silc_ske_payload_ke_decode bin2mp fl b =
     (SILC_SKE_STATUS_OK, Some p, silc_buffer_pull b 4)).
Proof.
  intros Hok Hb. split.
  - intros b' H. by eapply ke_decode_inv.
  - intros Hwf Hx He. rewrite ke_encode_spec in He by done. injection He as He.
    by eapply ke_decode_wire.
Qed.

Definition witness_ke : @SilcSKEKEPayload Z :=
  {| ke_pk := witness_field [1; 2]; ke_pk_type := 1; ke_x := 2 ^ 130;
     ke_sign := witness_field [9; 9; 9] |}.

Lemma silc_ske_payload_ke_roundtrip_witness :
  let mp2bin := be_encode 17 in
  let b := silc_buffer_set (ke_wire witness_ke (mp2bin (2 ^ 130))) in
  silc_ske_payload_ke_decode be_decode (Some 4) b =
    (SILC_SKE_STATUS_OK, Some witness_ke, silc_buffer_pull b 4).
Proof.
  apply (silc_ske_payload_ke_roundtrip (be_encode 17) be_decode (Some 4) witness_ke).
  - vm_compute; reflexivity.
  - apply bytes_ok_check. vm_compute; reflexivity.
  - unfold ke_wf, field_opt, field_req, oblk_wf, blk_wf, witness_ke, witness_field.
    cbn [ke_pk ke_pk_type ke_x ke_sign f_data f_len].
    split_and!; try (intros _; split_and!); try (right; split_and!);
      try (apply bytes_ok_check; vm_compute; reflexivity);
      vm_compute; try congruence; reflexivity.
  - vm_compute; reflexivity.
  - vm_compute; reflexivity.
Defined.
