(* ===== verification/Utf8.v ===== *)
(** lib/silcutil/silcutf8.c: encoding to and decoding from UTF-8.

    The output pointer is [Some size], or [None] for NULL, where the routines
    only count.  The result is the return value and the bytes stored at the
    start of the output, also when the call fails half-way.  [isprint] and
    [isdigit] are those of the C locale, and SILC_STRING_LOCALE is the build
    without iconv, its 8-bit fallback.  silc_utf8_strcasecmp needs stringprep,
    which is not modelled. *)

From S2P Require Import Prelude CTypes Buffer.

Inductive SilcStringEncoding :=
| SILC_STRING_ASCII | SILC_STRING_ASCII_ESC | SILC_STRING_BMP | SILC_STRING_BMP_LSB
| SILC_STRING_UNIVERSAL | SILC_STRING_UNIVERSAL_LSB | SILC_STRING_LOCALE
| SILC_STRING_UTF8 | SILC_STRING_PRINTABLE | SILC_STRING_VISIBLE | SILC_STRING_TELETEX
| SILC_STRING_NUMERICAL | SILC_STRING_LDAP_DN | SILC_STRING_OTHER.

Definition isprint (c : Z) : bool := (32 <=? c) && (c <=? 126).
Definition isdigit (c : Z) : bool := (48 <=? c) && (c <=? 57).

(** * Decoding *)

(** The character at the start of [utf8]: its value, the number of its bytes
    and what follows it. *)
Definition utf8_char (utf8 : list Z) : option (Z * Z * list Z) :=
  let b i := byte_at utf8 i in
  let cont i := Z.land (b i) 0xc0 =? 0x80 in
  let low i := Z.land (b i) 0x3f in
  if Z.land (b 0) 0x80 =? 0 then Some (Z.land (b 0) 0x7f, 1, zdrop 1 utf8)
  else if Z.land (b 0) 0xe0 =? 0xc0 then
    if zlen utf8 <=? 1 then None
    else if negb (cont 1) then None
    else
      let charval := Z.lor (Z.shiftl (Z.land (b 0) 0x1f) 6) (low 1) in
      if charval <? 0x80 then None else Some (charval, 2, zdrop 2 utf8)
  else if Z.land (b 0) 0xf0 =? 0xe0 then
    if zlen utf8 <=? 2 then None
    else if negb (cont 1) || negb (cont 2) then None
    else if (b 0 =? 0xed) && (0xa0 <=? b 1) && (b 1 <=? 0xbf) &&
            (0x80 <=? b 2) && (b 2 <=? 0xbf) then None
    else
      let charval := Z.lor (Z.lor (Z.shiftl (Z.land (b 0) 0xf) 12)
                                  (Z.shiftl (low 1) 6)) (low 2) in
      if charval <? 0x800 then None else Some (charval, 3, zdrop 3 utf8)
  else if Z.land (b 0) 0xf8 =? 0xf0 then
    if zlen utf8 <=? 3 then None
    else if negb (cont 1) || negb (cont 2) || negb (cont 3) then None
    else
      let charval := Z.lor (Z.lor (Z.lor (Z.shiftl (Z.land (b 0) 0x7) 18)
                                         (Z.shiftl (low 1) 12))
                                  (Z.shiftl (low 2) 6)) (low 3) in
      if charval <? 0x10000 then None else Some (charval, 4, zdrop 4 utf8)
  else if Z.land (b 0) 0xfc =? 0xf8 then
    if zlen utf8 <=? 4 then None
    else if negb (cont 1) || negb (cont 2) || negb (cont 3) || negb (cont 4) then None
    else
      let charval := Z.lor (Z.lor (Z.lor (Z.lor (Z.shiftl (Z.land (b 0) 0x3) 24)
                                                (Z.shiftl (low 1) 18))
                                         (Z.shiftl (low 2) 12))
                                  (Z.shiftl (low 3) 6)) (low 4) in
      if charval <? 0x200000 then None else Some (charval, 5, zdrop 5 utf8)
  else if Z.land (b 0) 0xfe =? 0xfc then
    if zlen utf8 <=? 5 then None
    else if negb (cont 1) || negb (cont 2) || negb (cont 3) || negb (cont 4) ||
            negb (cont 5) then None
    else
      let charval := Z.lor (Z.lor (Z.lor (Z.lor (Z.lor (Z.shiftl (Z.land (b 0) 0x1) 30)
                                                       (Z.shiftl (low 1) 24))
                                                (Z.shiftl (low 2) 18))
                                         (Z.shiftl (low 3) 12))
                                  (Z.shiftl (low 4) 6)) (low 5) in
      if charval <? 0x4000000 then None else Some (charval, 6, zdrop 6 utf8)
  else None.

(** [if (bin) { if (enclen + need > bin_size) return 0; ... }]: the bytes are
    appended unless the output is NULL.  [None] is the return. *)
Definition put_bytes (bin : option Z) (enclen need : Z) (out x : list Z) : option (list Z) :=
  match bin with
  | None => Some out
  | Some bin_size => if bin_size <? u32 (enclen + need) then None else Some (out ++ x)
  end.

Definition hex_digit (n : Z) : Z := if n <? 10 then 48 + n else 55 + n.

(** The characters an LDAP DN escapes wherever they stand. *)
Definition dn_special (cv : Z) : bool :=
  (cv =? 44) || (cv =? 43) || (cv =? 34) || (cv =? 92) || (cv =? 60) || (cv =? 62) ||
  (cv =? 59).

(** One byte of the LDAP_DN case; [last] says that the character is the last
    one.  The NUL that snprintf stores behind the two hex digits is overwritten
    by the next byte, or lies behind the result. *)
Definition dn_escape (cv enclen : Z) (last : bool) : list Z :=
  if (enclen =? 0) && ((cv =? 35) || (cv =? 32)) then [92; cv]
  else if last && (cv =? 32) then [92; cv]
  else if dn_special cv then [92; cv]
  else if negb (isprint cv) then [92; hex_digit (Z.shiftr cv 4); hex_digit (Z.land cv 15)]
  else [cv].

Fixpoint dn_bytes (bin : option Z) (cvs : list Z) (last : bool) (enclen : Z) (out : list Z)
  : option (Z * list Z) :=
  match cvs with
  | [] => Some (enclen, out)
  | cv :: cvs =>
      let x := dn_escape cv enclen last in
      match put_bytes bin enclen (zlen x) out x with
      | None => None
      | Some out => dn_bytes bin cvs last (u32 (enclen + zlen x)) out
      end
  end.

(** The switch on the encoding. *)
Definition decode_put (bin : option Z) (enc : SilcStringEncoding) (charval : Z)
    (raw : list Z) (last : bool) (enclen : Z) (out : list Z) : option (Z * list Z) :=
  let put n x := match put_bytes bin enclen n out x with
                 | None => None
                 | Some out => Some (u32 (enclen + n), out)
                 end in
  match enc with
  | SILC_STRING_ASCII | SILC_STRING_PRINTABLE | SILC_STRING_VISIBLE
  | SILC_STRING_TELETEX | SILC_STRING_NUMERICAL => put 1 [u8 charval]
  | SILC_STRING_BMP => put 2 (SILC_PUT16_MSB charval)
  | SILC_STRING_BMP_LSB => put 2 (SILC_PUT16_LSB charval)
  | SILC_STRING_UNIVERSAL => put 4 (SILC_PUT32_MSB charval)
  | SILC_STRING_UNIVERSAL_LSB => put 4 (SILC_PUT32_LSB charval)
  | SILC_STRING_LDAP_DN => dn_bytes bin raw last enclen out
  | _ => None
  end.

(** The loop; one round per character, so the length is enough fuel. *)
Fixpoint utf8_decode_loop (fuel : nat) (enc : SilcStringEncoding) (bin : option Z)
    (utf8 : list Z) (enclen : Z) (out : list Z) : Z * list Z :=
  match utf8 with
  | [] => (enclen, out)
  | _ =>
      match fuel with
      | O => (0, out)
      | S fuel =>
          match utf8_char utf8 with
          | None => (0, out)
          | Some (charval, bytes, rest) =>
              match decode_put bin enc charval (ztake bytes utf8) (zlen rest =? 0)
                      enclen out with
              | None => (0, out)
              | Some (enclen, out) => utf8_decode_loop fuel enc bin rest enclen out
              end
          end
      end
  end.

(** silc_utf8_valid decodes as ASCII without an output. *)
Definition silc_utf8_valid (utf8 : list Z) : bool :=
  negb ((utf8_decode_loop (length utf8) SILC_STRING_ASCII None utf8 0 []).1 =? 0).

Definition silc_utf8_decode (utf8 : list Z) (enc : SilcStringEncoding) (bin : option Z)
  : Z * list Z :=
  if zlen utf8 =? 0 then (0, [])
  else
    match enc with
    | SILC_STRING_UTF8 =>
        let bin_size := match bin with Some n => n | None => 0 end in
        if negb (silc_utf8_valid utf8) || (bin_size <? zlen utf8) then (0, [])
        else (zlen utf8, utf8)
    | SILC_STRING_LOCALE => utf8_decode_loop (length utf8) SILC_STRING_ASCII bin utf8 0 []
    | _ => utf8_decode_loop (length utf8) enc bin utf8 0 []
    end.

(** * Encoding *)

(** The bytes of a character, by the size of its value. *)
Definition utf8_bytes (charval : Z) : list Z :=
  let lead sh m h := u8 (Z.lor (Z.land (Z.shiftr charval sh) m) h) in
  let cont sh := u8 (Z.lor (Z.land (Z.shiftr charval sh) 0x3f) 0x80) in
  let last := u8 (Z.lor (Z.land charval 0x3f) 0x80) in
  if charval <? 0x80 then [u8 charval]
  else if charval <? 0x800 then [lead 6 0x1f 0xc0; last]
  else if charval <? 0x10000 then [lead 12 0xf 0xe0; cont 6; last]
  else if charval <? 0x200000 then [lead 18 0x7 0xf0; cont 12; cont 6; last]
  else if charval <? 0x4000000 then [lead 24 0x3 0xf8; cont 18; cont 12; cont 6; last]
  else [lead 30 0x1 0xfc; cont 24; cont 18; cont 12; cont 6; last].

(** The room the code asks for: the case of one byte compares [enclen] itself
    with the size. *)
Definition utf8_need (charval : Z) : Z :=
  if charval <? 0x80 then 0 else zlen (utf8_bytes charval).

Definition encode_put (utf8 : option Z) (charval enclen : Z) (out : list Z)
  : option (Z * list Z) :=
  match put_bytes utf8 enclen (utf8_need charval) out (utf8_bytes charval) with
  | None => None
  | Some out => Some (u32 (enclen + zlen (utf8_bytes charval)), out)
  end.

(** The loop over the input: the characters of one, two or four bytes. *)
Fixpoint utf8_encode_loop (enc : SilcStringEncoding) (utf8 : option Z) (bin : list Z)
    (enclen : Z) (out : list Z) : Z * list Z :=
  match bin with
  | [] => (enclen, out)
  | a :: bin =>
      let step charval rest_loop :=
        match encode_put utf8 charval enclen out with
        | None => (0, out)
        | Some (enclen, out) => rest_loop enclen out
        end in
      match enc with
      | SILC_STRING_ASCII | SILC_STRING_TELETEX => step a (utf8_encode_loop enc utf8 bin)
      | SILC_STRING_BMP =>
          match bin with
          | b :: bin => step (SILC_GET16_MSB [a; b]) (utf8_encode_loop enc utf8 bin)
          | _ => (0, out)
          end
      | SILC_STRING_BMP_LSB =>
          match bin with
          | b :: bin => step (SILC_GET16_LSB [a; b]) (utf8_encode_loop enc utf8 bin)
          | _ => (0, out)
          end
      | SILC_STRING_UNIVERSAL =>
          match bin with
          | b :: c :: d :: bin =>
              step (SILC_GET32_MSB [a; b; c; d]) (utf8_encode_loop enc utf8 bin)
          | _ => (0, out)
          end
      | SILC_STRING_UNIVERSAL_LSB =>
          match bin with
          | b :: c :: d :: bin =>
              step (SILC_GET32_LSB [a; b; c; d]) (utf8_encode_loop enc utf8 bin)
          | _ => (0, out)
          end
      | SILC_STRING_PRINTABLE | SILC_STRING_VISIBLE =>
          if negb (isprint a) then (0, out) else step a (utf8_encode_loop enc utf8 bin)
      | SILC_STRING_NUMERICAL =>
          if negb (a =? 32) && negb (isdigit a) then (0, out)
          else step a (utf8_encode_loop enc utf8 bin)
      | _ => (0, out)
      end
  end.

Definition hex_value (c : Z) : option Z :=
  if isdigit c then Some (c - 48)
  else if (65 <=? c) && (c <=? 70) then Some (c - 55)
  else if (97 <=? c) && (c <=? 102) then Some (c - 87)
  else None.

Definition isspace (c : Z) : bool := (c =? 32) || ((9 <=? c) && (c <=? 13)).

(** sscanf with the format %02X on the bytes up to the NUL: blanks are skipped,
    then at most two characters are read, a sign counting as one. *)
Fixpoint sscanf_02X (s : list Z) : option Z :=
  match s with
  | [] => None
  | c :: s =>
      if isspace c then sscanf_02X s
      else if (c =? 43) || (c =? 45) then
        match s with
        | d :: _ => match hex_value d with
                    | Some v => Some (if c =? 45 then u32 (- v) else v)
                    | None => None
                    end
        | [] => None
        end
      else
        match hex_value c with
        | None => None
        | Some v =>
            match s with
            | d :: _ =>
                if (c =? 48) && ((d =? 120) || (d =? 88)) then None
                else match hex_value d with Some w => Some (16 * v + w) | None => Some v end
            | [] => Some v
            end
        end
  end.

(** After the backslash: these characters stand for themselves. *)
Definition dn_plain (cv : Z) : bool := dn_special cv || (cv =? 32) || (cv =? 35).

(** The loop that removes the escapes of an LDAP DN. *)
Fixpoint utf8_unescape_loop (utf8 : option Z) (bin : list Z) (enclen : Z) (out : list Z)
  : Z * list Z :=
  match bin with
  | [] => (enclen, out)
  | c :: bin1 =>
      if c =? 92 then
        match bin1 with
        | [] => (0, out)
        | cv :: bin2 =>
            if negb (dn_plain cv) then
              match bin2 with
              | [] => (0, out)
              | _ :: bin3 =>
                  match sscanf_02X bin1 with
                  | None => (0, out)
                  | Some hexval =>
                      match put_bytes utf8 enclen 1 out [u8 hexval] with
                      | None => (0, out)
                      | Some out => utf8_unescape_loop utf8 bin3 (u32 (enclen + 1)) out
                      end
                  end
              end
            else
              match put_bytes utf8 enclen 1 out [cv] with
              | None => (0, out)
              | Some out => utf8_unescape_loop utf8 bin2 (u32 (enclen + 1)) out
              end
        end
      else
        match put_bytes utf8 enclen 1 out [c] with
        | None => (0, out)
        | Some out => utf8_unescape_loop utf8 bin1 (u32 (enclen + 1)) out
        end
  end.

Definition silc_utf8_encode (bin : list Z) (bin_encoding : SilcStringEncoding)
    (utf8 : option Z) : Z * list Z :=
  if zlen bin =? 0 then (0, [])
  else
    match bin_encoding with
    | SILC_STRING_UTF8 =>
        if negb (silc_utf8_valid bin) then (0, [])
        else match utf8 with
             | None => (zlen bin, [])
             | Some utf8_size => if utf8_size <? zlen bin then (0, []) else (zlen bin, bin)
             end
    | SILC_STRING_LDAP_DN => utf8_unescape_loop utf8 bin 0 []
    | SILC_STRING_LOCALE => utf8_encode_loop SILC_STRING_ASCII utf8 bin 0 []
    | enc => utf8_encode_loop enc utf8 bin 0 []
    end.

Definition silc_utf8_encoded_len (bin : list Z) (bin_encoding : SilcStringEncoding) : Z :=
  (silc_utf8_encode bin bin_encoding None).1.

Definition silc_utf8_decoded_len (bin : list Z) (bin_encoding : SilcStringEncoding) : Z :=
  (silc_utf8_decode bin bin_encoding None).1.

(** * Wide characters *)

(** The first [k] characters of the output; the rest of it was zeroed. *)
Fixpoint get_wide (n : nat) (tmp : list Z) : list Z :=
  match n with
  | O => []
  | S n => SILC_GET16_MSB tmp :: get_wide n (zdrop 2 tmp)
  end.

Definition silc_utf8_c2w (utf8 : list Z) (utf8_wide_size : Z) : Z * list Z :=
  let tmp_len := silc_utf8_decoded_len utf8 SILC_STRING_BMP in
  if tmp_len =? 0 then (0, [])
  else if utf8_wide_size <? tmp_len / 2 then (0, [])
  else if negb (silc_malloc_ok tmp_len) then (0, [])
  else
    let tmp := (silc_utf8_decode utf8 SILC_STRING_BMP (Some tmp_len)).2 in
    let k := (tmp_len + 1) / 2 in
    (u32 (k + 1), get_wide (Z.to_nat k) tmp).

(** The loop [for (i = 0, k = 0; i < wide_str_len; i += 2, k++)] fills only half
    of [tmp]; what it does not fill is indeterminate. *)
Definition put_wide (wide_str : list Z) : list Z :=
  let n := (zlen wide_str + 1) / 2 in
  concat (map SILC_PUT16_MSB (ztake n wide_str)) ++ zrepeat indet (2 * zlen wide_str - 2 * n).

Definition silc_utf8_w2c (wide_str : list Z) (utf8_size : Z) : Z * list Z :=
  let wide_str_len := zlen wide_str in
  if utf8_size <? u32 (wide_str_len * 2) then (0, [])
  else if negb (silc_malloc_ok (u32 (wide_str_len * 2))) then (0, [])
  else silc_utf8_encode (put_wide wide_str) SILC_STRING_BMP (Some utf8_size).

Example utf8_smoke :
  silc_utf8_encode [65; 228] SILC_STRING_ASCII (Some 10) = (3, [65; 195; 164]) /\
  silc_utf8_decode [65; 195; 164] SILC_STRING_ASCII (Some 10) = (2, [65; 228]) /\
  silc_utf8_decode [226; 130; 172; 44] SILC_STRING_LDAP_DN (Some 20) =
    (11, [92; 69; 50; 92; 56; 50; 92; 65; 67; 92; 44]) /\
  silc_utf8_encode [92; 69; 50; 92; 56; 50; 92; 65; 67; 92; 44] SILC_STRING_LDAP_DN (Some 20) =
    (4, [226; 130; 172; 44]).
Proof. vm_compute. repeat split; reflexivity. Qed.

(** * The characters *)

(** The values a UTF-8 string can hold here: 31 bits, no surrogate. *)
Definition char_ok (c : Z) : Prop := 0 <= c < 2 ^ 31 /\ ~ (0xD800 <= c <= 0xDFFF).

#[export] Instance char_ok_dec c : Decision (char_ok c).
Proof. unfold char_ok. apply _. Defined.

(** ** Bytes as arithmetic *)

(** [lia] with division and modulo by constants. *)
Ltac zlia := Z.to_euclidean_division_equations; lia.

Lemma land_ones_add x n h k :
  0 <= n -> h = k * 2 ^ n -> Z.lor (Z.land x (Z.ones n)) h = x mod 2 ^ n + h.
Proof.
  intros Hn ->. rewrite Z.land_ones, Z.lor_comm by done.
  rewrite <- (Z.shiftl_mul_pow2 k n) at 1 by done.
  rewrite lor_shiftl_add by (try done; apply Z.mod_pos_bound, Z.pow_pos_nonneg; lia). lia.
Qed.

(** A byte with the bits of [h] above [n] bits of the value. *)
Lemma utf8_lead c sh n m h k :
  m = Z.ones n -> 0 <= sh -> 0 <= n -> h = k * 2 ^ n -> 0 <= h -> h + 2 ^ n <= 256 ->
  u8 (Z.lor (Z.land (Z.shiftr c sh) m) h) = c / 2 ^ sh mod 2 ^ n + h.
Proof.
  intros -> Hs Hn Hh H0 Hle. rewrite (land_ones_add _ n h k) by done.
  rewrite Z.shiftr_div_pow2 by done. apply u8_id.
  pose proof (Z.mod_pos_bound (c / 2 ^ sh) (2 ^ n)). lia.
Qed.

Lemma utf8_bytes_arith c :
  0 <= c < 2 ^ 31 ->
  utf8_bytes c =
  if c <? 0x80 then [c]
  else if c <? 0x800 then [c / 2 ^ 6 + 0xc0; c mod 64 + 0x80]
  else if c <? 0x10000 then [c / 2 ^ 12 + 0xe0; c / 2 ^ 6 mod 64 + 0x80; c mod 64 + 0x80]
  else if c <? 0x200000 then
    [c / 2 ^ 18 + 0xf0; c / 2 ^ 12 mod 64 + 0x80; c / 2 ^ 6 mod 64 + 0x80; c mod 64 + 0x80]
  else if c <? 0x4000000 then
    [c / 2 ^ 24 + 0xf8; c / 2 ^ 18 mod 64 + 0x80; c / 2 ^ 12 mod 64 + 0x80;
     c / 2 ^ 6 mod 64 + 0x80; c mod 64 + 0x80]
  else
    [c / 2 ^ 30 + 0xfc; c / 2 ^ 24 mod 64 + 0x80; c / 2 ^ 18 mod 64 + 0x80;
     c / 2 ^ 12 mod 64 + 0x80; c / 2 ^ 6 mod 64 + 0x80; c mod 64 + 0x80].
Proof.
  intros Hc. unfold utf8_bytes.
  assert (u8 (Z.lor (Z.land c 0x3f) 0x80) = c mod 64 + 0x80) as ->.
  { pose proof (utf8_lead c 0 6 0x3f 0x80 2 eq_refl) as H. rewrite Z.shiftr_0_r in H.
    change (2 ^ 0) with 1 in H. rewrite Z.div_1_r in H. apply H; lia. }
  rewrite (utf8_lead c 6 5 0x1f 0xc0 6 eq_refl), (utf8_lead c 12 4 0xf 0xe0 14 eq_refl),
    (utf8_lead c 18 3 0x7 0xf0 30 eq_refl), (utf8_lead c 24 2 0x3 0xf8 62 eq_refl),
    (utf8_lead c 30 1 0x1 0xfc 126 eq_refl), (utf8_lead c 6 6 0x3f 0x80 2 eq_refl),
    (utf8_lead c 12 6 0x3f 0x80 2 eq_refl), (utf8_lead c 18 6 0x3f 0x80 2 eq_refl),
    (utf8_lead c 24 6 0x3f 0x80 2 eq_refl) by lia.
  change (2 ^ 6) with 64. change (2 ^ 12) with 4096. change (2 ^ 18) with 262144.
  change (2 ^ 24) with 16777216. change (2 ^ 30) with 1073741824.
  change (2 ^ 5) with 32. change (2 ^ 4) with 16. change (2 ^ 3) with 8.
  change (2 ^ 2) with 4. change (2 ^ 1) with 2.
  repeat zcase; repeat f_equal; try (apply u8_id; lia); apply Z.mod_small; zlia.
Qed.

(** ** The tests of the decoder, on bytes *)

Lemma byte_tests b :
  is_byte b ->
  (Z.land b 0x80 =? 0) = (b <? 0x80) /\
  (Z.land b 0xe0 =? 0xc0) = (0xc0 <=? b) && (b <? 0xe0) /\
  (Z.land b 0xf0 =? 0xe0) = (0xe0 <=? b) && (b <? 0xf0) /\
  (Z.land b 0xf8 =? 0xf0) = (0xf0 <=? b) && (b <? 0xf8) /\
  (Z.land b 0xfc =? 0xf8) = (0xf8 <=? b) && (b <? 0xfc) /\
  (Z.land b 0xfe =? 0xfc) = (0xfc <=? b) && (b <? 0xfe) /\
  (Z.land b 0xc0 =? 0x80) = (0x80 <=? b) && (b <? 0xc0).
Proof.
  intros Hb. pose proof (byte_forall (fun b =>
    eqb (Z.land b 0x80 =? 0) (b <? 0x80) &&
    eqb (Z.land b 0xe0 =? 0xc0) ((0xc0 <=? b) && (b <? 0xe0)) &&
    eqb (Z.land b 0xf0 =? 0xe0) ((0xe0 <=? b) && (b <? 0xf0)) &&
    eqb (Z.land b 0xf8 =? 0xf0) ((0xf0 <=? b) && (b <? 0xf8)) &&
    eqb (Z.land b 0xfc =? 0xf8) ((0xf8 <=? b) && (b <? 0xfc)) &&
    eqb (Z.land b 0xfe =? 0xfc) ((0xfc <=? b) && (b <? 0xfe)) &&
    eqb (Z.land b 0xc0 =? 0x80) ((0x80 <=? b) && (b <? 0xc0)))
    ltac:(vm_compute; reflexivity) b Hb) as H. cbn beta in H.
  rewrite !andb_true_iff, !eqb_true_iff in H. tauto.
Qed.

Lemma byte_masks b :
  Z.land b 0x7f = b mod 128 /\ Z.land b 0x1f = b mod 32 /\ Z.land b 0xf = b mod 16 /\
  Z.land b 0x7 = b mod 8 /\ Z.land b 0x3 = b mod 4 /\ Z.land b 0x1 = b mod 2 /\
  Z.land b 0x3f = b mod 64.
Proof.
  split_and!; [apply (Z.land_ones b 7)|apply (Z.land_ones b 5)|apply (Z.land_ones b 4)|
    apply (Z.land_ones b 3)|apply (Z.land_ones b 2)|apply (Z.land_ones b 1)|
    apply (Z.land_ones b 6)]; lia.
Qed.

(** A value put together from its digits. *)
Lemma lor_digits_2 a b : 0 <= b < 64 -> Z.lor (Z.shiftl a 6) b = a * 64 + b.
Proof. intros. by rewrite lor_shiftl_add. Qed.

Lemma lor_digits_3 a b c :
  0 <= b < 64 -> 0 <= c < 64 ->
  Z.lor (Z.lor (Z.shiftl a 12) (Z.shiftl b 6)) c = (a * 64 + b) * 64 + c.
Proof.
  intros. rewrite <- Z.lor_assoc. rewrite (lor_shiftl_add b c 6) by lia.
  rewrite (lor_shiftl_add a _ 12) by lia. lia.
Qed.

Lemma lor_digits_4 a b c d :
  0 <= b < 64 -> 0 <= c < 64 -> 0 <= d < 64 ->
  Z.lor (Z.lor (Z.lor (Z.shiftl a 18) (Z.shiftl b 12)) (Z.shiftl c 6)) d =
  ((a * 64 + b) * 64 + c) * 64 + d.
Proof.
  intros. rewrite <- !Z.lor_assoc. rewrite (lor_shiftl_add c d 6) by lia.
  rewrite (lor_shiftl_add b _ 12), (lor_shiftl_add a _ 18) by lia. lia.
Qed.

Lemma lor_digits_5 a b c d e :
  0 <= b < 64 -> 0 <= c < 64 -> 0 <= d < 64 -> 0 <= e < 64 ->
  Z.lor (Z.lor (Z.lor (Z.lor (Z.shiftl a 24) (Z.shiftl b 18)) (Z.shiftl c 12))
    (Z.shiftl d 6)) e = (((a * 64 + b) * 64 + c) * 64 + d) * 64 + e.
Proof.
  intros. rewrite <- !Z.lor_assoc. rewrite (lor_shiftl_add d e 6) by lia.
  rewrite (lor_shiftl_add c _ 12), (lor_shiftl_add b _ 18), (lor_shiftl_add a _ 24) by lia. lia.
Qed.

Lemma lor_digits_6 a b c d e f :
  0 <= b < 64 -> 0 <= c < 64 -> 0 <= d < 64 -> 0 <= e < 64 -> 0 <= f < 64 ->
  Z.lor (Z.lor (Z.lor (Z.lor (Z.lor (Z.shiftl a 30) (Z.shiftl b 24)) (Z.shiftl c 18))
    (Z.shiftl d 12)) (Z.shiftl e 6)) f =
  ((((a * 64 + b) * 64 + c) * 64 + d) * 64 + e) * 64 + f.
Proof.
  intros. rewrite <- !Z.lor_assoc. rewrite (lor_shiftl_add e f 6) by lia.
  rewrite (lor_shiftl_add d _ 12), (lor_shiftl_add c _ 18), (lor_shiftl_add b _ 24),
    (lor_shiftl_add a _ 30) by lia. lia.
Qed.

(** ** The decoder, case by case *)

Definition is_cont (b : Z) : bool := (0x80 <=? b) && (b <? 0xc0).

Lemma ba0 a l : byte_at (a :: l) 0 = a.
Proof. done. Qed.
Lemma ba1 a b l : byte_at (a :: b :: l) 1 = b.
Proof. done. Qed.
Lemma ba2 a b c l : byte_at (a :: b :: c :: l) 2 = c.
Proof. done. Qed.
Lemma ba3 a b c d l : byte_at (a :: b :: c :: d :: l) 3 = d.
Proof. done. Qed.
Lemma ba4 a b c d e l : byte_at (a :: b :: c :: d :: e :: l) 4 = e.
Proof. done. Qed.
Lemma ba5 a b c d e f l : byte_at (a :: b :: c :: d :: e :: f :: l) 5 = f.
Proof. done. Qed.

Ltac open_char :=
  unfold utf8_char; cbv beta zeta; rewrite ?ba5, ?ba4, ?ba3, ?ba2, ?ba1, ba0;
  repeat match goal with
  | H : is_byte ?b |- context [Z.land ?b 0xc0 =? 0x80] =>
      rewrite (proj2 (proj2 (proj2 (proj2 (proj2 (proj2 (byte_tests b H)))))));
      change ((0x80 <=? b) && (b <? 0xc0)) with (is_cont b)
  end.

Ltac lead_tests b H :=
  let T := fresh "T" in pose proof (byte_tests b H) as T;
  destruct T as (-> & -> & -> & -> & -> & -> & _).

Lemma low_cont b : is_cont b = true -> Z.land b 0x3f = b - 0x80 /\ 0 <= b - 0x80 < 64.
Proof.
  unfold is_cont. rewrite andb_true_iff, Z.leb_le, Z.ltb_lt. intros ?.
  destruct (byte_masks b) as (_ & _ & _ & _ & _ & _ & ->). zlia.
Qed.

Ltac lows :=
  repeat match goal with
  | H : is_cont ?b = true |- context [Z.land ?b 0x3f] =>
      let E := fresh in destruct (low_cont b H) as [E ?]; rewrite E; clear E
  end.

Lemma utf8_char_1 b0 l : 0 <= b0 < 0x80 -> utf8_char (b0 :: l) = Some (b0, 1, l).
Proof.
  intros Hb. assert (is_byte b0) as H0 by (unfold is_byte; lia).
  open_char. lead_tests b0 H0. if_head.
  destruct (byte_masks b0) as (-> & _). rewrite Z.mod_small by lia. done.
Qed.

Lemma utf8_char_2 b0 b1 l :
  0xc0 <= b0 < 0xe0 -> is_byte b1 ->
  utf8_char (b0 :: b1 :: l) =
  let c := (b0 - 0xc0) * 64 + (b1 - 0x80) in
  if is_cont b1 && (0x80 <=? c) then Some (c, 2, l) else None.
Proof.
  intros Hb H1. assert (is_byte b0) as H0 by (unfold is_byte; lia).
  open_char. lead_tests b0 H0. do 2 if_head. cbn [length]. if_head.
  destruct (is_cont b1) eqn:C1; [|done]. cbn [negb andb]. lows.
  destruct (byte_masks b0) as (_ & E & _); rewrite E, lor_digits_2 by lia.
  replace (b0 mod 32) with (b0 - 0xc0) by zlia. case_cmps; done.
Qed.

Lemma utf8_char_3 b0 b1 b2 l :
  0xe0 <= b0 < 0xf0 -> is_byte b1 -> is_byte b2 ->
  utf8_char (b0 :: b1 :: b2 :: l) =
  let c := ((b0 - 0xe0) * 64 + (b1 - 0x80)) * 64 + (b2 - 0x80) in
  if is_cont b1 && is_cont b2 && (0x800 <=? c) && negb ((0xd800 <=? c) && (c <=? 0xdfff))
  then Some (c, 3, l) else None.
Proof.
  intros Hb H1 H2. assert (is_byte b0) as H0 by (unfold is_byte; lia).
  open_char. lead_tests b0 H0. do 3 if_head. cbn [length]. if_head.
  destruct (is_cont b1) eqn:C1; [|done]. destruct (is_cont b2) eqn:C2; [|done].
  cbn [negb orb andb]. lows. destruct (byte_masks b0) as (_ & _ & E & _).
  rewrite E, lor_digits_3 by lia. clear E. replace (b0 mod 16) with (b0 - 0xe0) by zlia.
  cbv zeta. set (c := ((b0 - 0xe0) * 64 + (b1 - 0x80)) * 64 + (b2 - 0x80)).
  match goal with |- (if ?x then None else if ?y then None else _) = _ =>
    replace x with ((0xd800 <=? c) && (c <=? 0xdfff)) by lia end.
  destruct ((0xd800 <=? c) && (c <=? 0xdfff)); cbn [negb]; [by rewrite andb_false_r|].
  case_cmps; done.
Qed.

Lemma utf8_char_4 b0 b1 b2 b3 l :
  0xf0 <= b0 < 0xf8 -> is_byte b1 -> is_byte b2 -> is_byte b3 ->
  utf8_char (b0 :: b1 :: b2 :: b3 :: l) =
  let c := (((b0 - 0xf0) * 64 + (b1 - 0x80)) * 64 + (b2 - 0x80)) * 64 + (b3 - 0x80) in
  if is_cont b1 && is_cont b2 && is_cont b3 && (0x10000 <=? c)
  then Some (c, 4, l) else None.
Proof.
  intros Hb H1 H2 H3. assert (is_byte b0) as H0 by (unfold is_byte; lia).
  open_char. lead_tests b0 H0. do 4 if_head. cbn [length]. if_head.
  destruct (is_cont b1) eqn:C1; [|done]. destruct (is_cont b2) eqn:C2; [|done].
  destruct (is_cont b3) eqn:C3; [|done].
  cbn [negb orb andb]. lows. destruct (byte_masks b0) as (_ & _ & _ & E & _).
  rewrite E, lor_digits_4 by lia. clear E. replace (b0 mod 8) with (b0 - 0xf0) by zlia.
  case_cmps; done.
Qed.

Lemma utf8_char_5 b0 b1 b2 b3 b4 l :
  0xf8 <= b0 < 0xfc -> is_byte b1 -> is_byte b2 -> is_byte b3 -> is_byte b4 ->
  utf8_char (b0 :: b1 :: b2 :: b3 :: b4 :: l) =
  let c := ((((b0 - 0xf8) * 64 + (b1 - 0x80)) * 64 + (b2 - 0x80)) * 64 + (b3 - 0x80)) * 64 +
           (b4 - 0x80) in
  if is_cont b1 && is_cont b2 && is_cont b3 && is_cont b4 && (0x200000 <=? c)
  then Some (c, 5, l) else None.
Proof.
  intros Hb H1 H2 H3 H4. assert (is_byte b0) as H0 by (unfold is_byte; lia).
  open_char. lead_tests b0 H0. do 5 if_head. cbn [length]. if_head.
  destruct (is_cont b1) eqn:C1; [|done]. destruct (is_cont b2) eqn:C2; [|done].
  destruct (is_cont b3) eqn:C3; [|done]. destruct (is_cont b4) eqn:C4; [|done].
  cbn [negb orb andb]. lows. destruct (byte_masks b0) as (_ & _ & _ & _ & E & _).
  rewrite E, lor_digits_5 by lia. clear E. replace (b0 mod 4) with (b0 - 0xf8) by zlia.
  case_cmps; done.
Qed.

Lemma utf8_char_6 b0 b1 b2 b3 b4 b5 l :
  0xfc <= b0 < 0xfe -> is_byte b1 -> is_byte b2 -> is_byte b3 -> is_byte b4 -> is_byte b5 ->
  utf8_char (b0 :: b1 :: b2 :: b3 :: b4 :: b5 :: l) =
  let c := (((((b0 - 0xfc) * 64 + (b1 - 0x80)) * 64 + (b2 - 0x80)) * 64 + (b3 - 0x80)) * 64 +
            (b4 - 0x80)) * 64 + (b5 - 0x80) in
  if is_cont b1 && is_cont b2 && is_cont b3 && is_cont b4 && is_cont b5 && (0x4000000 <=? c)
  then Some (c, 6, l) else None.
Proof.
  intros Hb H1 H2 H3 H4 H5. assert (is_byte b0) as H0 by (unfold is_byte; lia).
  open_char. lead_tests b0 H0. do 6 if_head. cbn [length]. if_head.
  destruct (is_cont b1) eqn:C1; [|done]. destruct (is_cont b2) eqn:C2; [|done].
  destruct (is_cont b3) eqn:C3; [|done]. destruct (is_cont b4) eqn:C4; [|done].
  destruct (is_cont b5) eqn:C5; [|done].
  cbn [negb orb andb]. lows. destruct (byte_masks b0) as (_ & _ & _ & _ & _ & E & _).
  rewrite E, lor_digits_6 by lia. clear E. replace (b0 mod 2) with (b0 - 0xfc) by zlia.
  case_cmps; done.
Qed.

Lemma is_cont_low x : 0 <= x < 64 -> is_cont (x + 0x80) = true /\ is_byte (x + 0x80).
Proof. unfold is_cont, is_byte. lia. Qed.

(** A character's bytes are read back. *)
Lemma utf8_char_bytes c l :
  char_ok c -> utf8_char (utf8_bytes c ++ l) = Some (c, zlen (utf8_bytes c), l).
Proof.
  intros [Hc Hs]. rewrite utf8_bytes_arith by done.
  assert (forall x, is_cont (x mod 64 + 0x80) = true /\ is_byte (x mod 64 + 0x80)) as Hm.
  { intros x. apply is_cont_low, Z.mod_pos_bound. lia. }
  destruct (Hm c) as [M0 B0]. destruct (Hm (c / 2 ^ 6)) as [M1 B1].
  destruct (Hm (c / 2 ^ 12)) as [M2 B2]. destruct (Hm (c / 2 ^ 18)) as [M3 B3].
  destruct (Hm (c / 2 ^ 24)) as [M4 B4]. clear Hm.
  change (2 ^ 6) with 64 in *. change (2 ^ 12) with 4096 in *. change (2 ^ 18) with 262144 in *.
  change (2 ^ 24) with 16777216 in *. change (2 ^ 30) with 1073741824 in *.
  zcase; [|zcase; [|zcase; [|zcase; [|zcase]]]]; cbn [app length].
  - apply utf8_char_1. lia.
  - rewrite utf8_char_2 by (done || zlia). cbv zeta. rewrite M0.
    replace ((c / 64 + 192 - 192) * 64 + (c mod 64 + 128 - 128)) with c by zlia. by if_head.
  - rewrite utf8_char_3 by (done || zlia). cbv zeta. rewrite M0, M1.
    replace (((c / 4096 + 224 - 224) * 64 + (c / 64 mod 64 + 128 - 128)) * 64 +
      (c mod 64 + 128 - 128)) with c by zlia. by if_head.
  - rewrite utf8_char_4 by (done || zlia). cbv zeta. rewrite M0, M1, M2.
    replace ((((c / 262144 + 240 - 240) * 64 + (c / 4096 mod 64 + 128 - 128)) * 64 +
      (c / 64 mod 64 + 128 - 128)) * 64 + (c mod 64 + 128 - 128)) with c by zlia. by if_head.
  - rewrite utf8_char_5 by (done || zlia). cbv zeta. rewrite M0, M1, M2, M3.
    replace (((((c / 16777216 + 248 - 248) * 64 + (c / 262144 mod 64 + 128 - 128)) * 64 +
      (c / 4096 mod 64 + 128 - 128)) * 64 + (c / 64 mod 64 + 128 - 128)) * 64 +
      (c mod 64 + 128 - 128)) with c by zlia. by if_head.
  - rewrite utf8_char_6 by (done || zlia). cbv zeta. rewrite M0, M1, M2, M3, M4.
    replace ((((((c / 1073741824 + 252 - 252) * 64 + (c / 16777216 mod 64 + 128 - 128)) * 64 +
      (c / 262144 mod 64 + 128 - 128)) * 64 + (c / 4096 mod 64 + 128 - 128)) * 64 +
      (c / 64 mod 64 + 128 - 128)) * 64 + (c mod 64 + 128 - 128)) with c by zlia. by if_head.
Qed.

(** Only a character's bytes are read. *)
Definition char_read (l : list Z) (c n : Z) (d : list Z) : Prop :=
  char_ok c /\ l = utf8_bytes c ++ d /\ n = zlen (utf8_bytes c).

Lemma char_read_1 b0 d : 0 <= b0 < 0x80 -> char_read (b0 :: d) b0 1 d.
Proof.
  intros Hb. unfold char_read, char_ok. rewrite utf8_bytes_arith by lia. zcase; [|lia].
  split_and!; done || lia.
Qed.

Ltac cont_ranges :=
  repeat match goal with
  | H : is_cont ?b = true |- _ => unfold is_cont in H; apply andb_true_iff in H as [?%Z.leb_le ?%Z.ltb_lt]
  end.

Lemma char_read_2 b0 b1 d c :
  0xc0 <= b0 < 0xe0 -> is_cont b1 = true -> c = (b0 - 0xc0) * 64 + (b1 - 0x80) -> 0x80 <= c ->
  char_read (b0 :: b1 :: d) c 2 d.
Proof.
  intros Hb H1 Hc Hl. cont_ranges. unfold char_read, char_ok.
  rewrite utf8_bytes_arith by lia. change (2 ^ 6) with 64. repeat if_head.
  zcase; [lia|]. zcase; [|lia]. split_and!; [lia..| |done].
  cbn [app]. repeat f_equal; zlia.
Qed.

Lemma char_read_3 b0 b1 b2 d c :
  0xe0 <= b0 < 0xf0 -> is_cont b1 = true -> is_cont b2 = true ->
  c = ((b0 - 0xe0) * 64 + (b1 - 0x80)) * 64 + (b2 - 0x80) -> 0x800 <= c ->
  ~ (0xd800 <= c <= 0xdfff) -> char_read (b0 :: b1 :: b2 :: d) c 3 d.
Proof.
  intros Hb H1 H2 Hc Hl Hs. cont_ranges. unfold char_read, char_ok.
  rewrite utf8_bytes_arith by lia. change (2 ^ 6) with 64. change (2 ^ 12) with 4096.
  do 2 (zcase; [lia|]). zcase; [|lia]. split_and!; [lia..|done| |done].
  cbn [app]. repeat f_equal; zlia.
Qed.

Lemma char_read_4 b0 b1 b2 b3 d c :
  0xf0 <= b0 < 0xf8 -> is_cont b1 = true -> is_cont b2 = true -> is_cont b3 = true ->
  c = (((b0 - 0xf0) * 64 + (b1 - 0x80)) * 64 + (b2 - 0x80)) * 64 + (b3 - 0x80) ->
  0x10000 <= c -> char_read (b0 :: b1 :: b2 :: b3 :: d) c 4 d.
Proof.
  intros Hb H1 H2 H3 Hc Hl. cont_ranges. unfold char_read, char_ok.
  rewrite utf8_bytes_arith by lia. change (2 ^ 6) with 64. change (2 ^ 12) with 4096.
  change (2 ^ 18) with 262144.
  do 3 (zcase; [lia|]). zcase; [|lia]. split_and!; [lia..| |done].
  cbn [app]. repeat f_equal; zlia.
Qed.

Lemma char_read_5 b0 b1 b2 b3 b4 d c :
  0xf8 <= b0 < 0xfc -> is_cont b1 = true -> is_cont b2 = true -> is_cont b3 = true ->
  is_cont b4 = true ->
  c = ((((b0 - 0xf8) * 64 + (b1 - 0x80)) * 64 + (b2 - 0x80)) * 64 + (b3 - 0x80)) * 64 +
      (b4 - 0x80) -> 0x200000 <= c ->
  char_read (b0 :: b1 :: b2 :: b3 :: b4 :: d) c 5 d.
Proof.
  intros Hb H1 H2 H3 H4 Hc Hl. cont_ranges. unfold char_read, char_ok.
  rewrite utf8_bytes_arith by lia. change (2 ^ 6) with 64. change (2 ^ 12) with 4096.
  change (2 ^ 18) with 262144. change (2 ^ 24) with 16777216.
  do 4 (zcase; [lia|]). zcase; [|lia]. split_and!; [lia..| |done].
  cbn [app]. repeat f_equal; zlia.
Qed.

Lemma char_read_6 b0 b1 b2 b3 b4 b5 d c :
  0xfc <= b0 < 0xfe -> is_cont b1 = true -> is_cont b2 = true -> is_cont b3 = true ->
  is_cont b4 = true -> is_cont b5 = true ->
  c = (((((b0 - 0xfc) * 64 + (b1 - 0x80)) * 64 + (b2 - 0x80)) * 64 + (b3 - 0x80)) * 64 +
       (b4 - 0x80)) * 64 + (b5 - 0x80) -> 0x4000000 <= c ->
  char_read (b0 :: b1 :: b2 :: b3 :: b4 :: b5 :: d) c 6 d.
Proof.
  intros Hb H1 H2 H3 H4 H5 Hc Hl. cont_ranges. unfold char_read, char_ok.
  rewrite utf8_bytes_arith by lia. change (2 ^ 6) with 64. change (2 ^ 12) with 4096.
  change (2 ^ 18) with 262144. change (2 ^ 24) with 16777216. change (2 ^ 30) with 1073741824.
  do 5 (zcase; [lia|]). split_and!; [lia..| |done].
  cbn [app]. repeat f_equal; zlia.
Qed.

Lemma utf8_char_short b0 l (n : Z) :
  is_byte b0 -> 0xc0 <= b0 ->
  (b0 < 0xe0 /\ n = 2) \/ (0xe0 <= b0 < 0xf0 /\ n = 3) \/ (0xf0 <= b0 < 0xf8 /\ n = 4) \/
  (0xf8 <= b0 < 0xfc /\ n = 5) \/ (0xfc <= b0 < 0xfe /\ n = 6) ->
  zlen (b0 :: l) < n -> utf8_char (b0 :: l) = None.
Proof.
  intros H0 Hb Hn Hl. unfold utf8_char. cbv beta zeta. rewrite ba0. lead_tests b0 H0.
  destruct Hn as [[? ->]|[[? ->]|[[? ->]|[[? ->]|[? ->]]]]].
  - do 3 if_head. done.
  - do 4 if_head. done.
  - do 5 if_head. done.
  - do 6 if_head. done.
  - do 7 if_head. done.
Qed.

Lemma utf8_char_bad b0 l :
  is_byte b0 -> 0x80 <= b0 < 0xc0 \/ 0xfe <= b0 -> utf8_char (b0 :: l) = None.
Proof.
  intros H0 Hb. unfold utf8_char. cbv beta zeta. rewrite ba0. lead_tests b0 H0.
  do 6 if_head. done.
Qed.

(** The lead byte says how many bytes must be there. *)
Definition lead_len (b : Z) : Z :=
  if b <? 0xe0 then 2 else if b <? 0xf0 then 3 else if b <? 0xf8 then 4
  else if b <? 0xfc then 5 else 6.

Lemma utf8_char_long b0 l x :
  is_byte b0 -> 0x80 <= b0 -> utf8_char (b0 :: l) = Some x ->
  0xc0 <= b0 < 0xfe /\ 2 <= zlen (b0 :: l) /\
  (0xe0 <= b0 -> 3 <= zlen (b0 :: l)) /\ (0xf0 <= b0 -> 4 <= zlen (b0 :: l)) /\
  (0xf8 <= b0 -> 5 <= zlen (b0 :: l)) /\ (0xfc <= b0 -> 6 <= zlen (b0 :: l)).
Proof.
  intros H0 Hb H.
  destruct (decide (b0 < 0xc0 \/ 0xfe <= b0)); [by rewrite utf8_char_bad in H by (done || lia)|].
  split; [lia|]. destruct (decide (lead_len b0 <= zlen (b0 :: l))) as [Hn|n0].
  - revert Hn. unfold lead_len. repeat zcase; lia.
  - rewrite (utf8_char_short b0 l (lead_len b0)) in H; try done; try lia.
    unfold lead_len. repeat zcase; lia.
Qed.

Ltac read_char H lemma :=
  cbv zeta in H;
  match type of H with (if ?c then _ else _) = _ => destruct c eqn:? end; [|discriminate H];
  repeat match goal with E : _ && _ = true |- _ => apply andb_true_iff in E as [? ?] end;
  injection H as <- <- <-; apply lemma; (assumption || reflexivity || lia).

(** The next byte of a list that arithmetic says is not empty. *)
Ltac next_byte l b :=
  let B := fresh "B" in
  destruct l as [|b l]; [exfalso; rewrite ?length_cons, ?length_nil in *; lia|];
  match goal with Hl : Forall is_byte (b :: l) |- _ => apply Forall_cons_iff in Hl as [B Hl] end.

Lemma utf8_char_inv l c n d :
  bytes_ok l -> l <> [] -> utf8_char l = Some (c, n, d) -> char_read l c n d.
Proof.
  intros Hl Hne H. destruct l as [|b0 l]; [done|]. clear Hne.
  apply Forall_cons_iff in Hl as [H0 Hl].
  destruct (Z.ltb_spec b0 0x80).
  { unfold is_byte in H0. rewrite utf8_char_1 in H by lia. injection H as <- <- <-.
    apply char_read_1. lia. }
  destruct (utf8_char_long b0 l _ H0 ltac:(lia) H) as (Hr & L2 & L3 & L4 & L5 & L6).
  destruct (Z.ltb_spec b0 0xe0).
  { next_byte l b1. rewrite utf8_char_2 in H by (done || lia). read_char H char_read_2. }
  next_byte l b1. destruct (Z.ltb_spec b0 0xf0).
  { next_byte l b2. rewrite utf8_char_3 in H by (done || lia). read_char H char_read_3. }
  next_byte l b2. destruct (Z.ltb_spec b0 0xf8).
  { next_byte l b3. rewrite utf8_char_4 in H by (done || lia). read_char H char_read_4. }
  next_byte l b3. destruct (Z.ltb_spec b0 0xfc).
  { next_byte l b4. rewrite utf8_char_5 in H by (done || lia). read_char H char_read_5. }
  next_byte l b4. next_byte l b5.
  rewrite utf8_char_6 in H by (done || lia). read_char H char_read_6.
Qed.

(** * The routines on strings of characters *)

(** The string of the characters [cs]. *)
Definition utf8_str (cs : list Z) : list Z := concat (map utf8_bytes cs).

Lemma utf8_bytes_len c : 1 <= zlen (utf8_bytes c) <= 6.
Proof. unfold utf8_bytes. repeat zcase; simpl; lia. Qed.

Lemma utf8_bytes_nonempty c : utf8_bytes c <> [].
Proof. pose proof (utf8_bytes_len c). intros E. rewrite E in *. simpl in *. lia. Qed.

Lemma utf8_str_len cs : zlen cs <= zlen (utf8_str cs).
Proof.
  induction cs as [|c cs IH]; [done|]. unfold utf8_str in *. cbn [map concat].
  pose proof (utf8_bytes_len c). rewrite length_app, length_cons. lia.
Qed.

Lemma bytes_ok_utf8_bytes c : bytes_ok (utf8_bytes c).
Proof.
  unfold utf8_bytes. repeat zcase;
    repeat apply Forall_cons_2; try apply Forall_nil_2; unfold is_byte; apply u8_range.
Qed.

(** The loop of the decoder takes one character per round. *)
Lemma utf8_decode_loop_char fuel enc bin c rest enclen out :
  char_ok c ->
  utf8_decode_loop (S fuel) enc bin (utf8_bytes c ++ rest) enclen out =
  match decode_put bin enc c (utf8_bytes c) (zlen rest =? 0) enclen out with
  | None => (0, out)
  | Some (enclen, out) => utf8_decode_loop fuel enc bin rest enclen out
  end.
Proof.
  intros Hc. cbn [utf8_decode_loop]. rewrite utf8_char_bytes by done.
  rewrite ztake_app_exact by done.
  destruct (utf8_bytes c ++ rest) eqn:E; [|done].
  apply app_eq_nil in E as [E _]. by destruct (utf8_bytes_nonempty c).
Qed.

(** What is not a character ends it. *)
Lemma utf8_decode_loop_stop fuel enc bin l enclen out :
  l <> [] -> utf8_char l = None -> utf8_decode_loop fuel enc bin l enclen out = (0, out).
Proof. intros Hl H. destruct l; [done|]. destruct fuel; [done|]. cbn [utf8_decode_loop]. by rewrite H. Qed.

Lemma utf8_valid_loop_str fuel cs enclen :
  Forall char_ok cs -> (length cs <= fuel)%nat -> 0 <= enclen -> enclen + zlen cs < 2 ^ 32 ->
  utf8_decode_loop fuel SILC_STRING_ASCII None (utf8_str cs) enclen [] = (enclen + zlen cs, []).
Proof.
  revert fuel enclen; induction cs as [|c cs IH]; intros fuel enclen Hcs Hf He Hle.
  - destruct fuel; cbn; f_equal; lia.
  - apply Forall_cons_iff in Hcs as [Hc Hcs]. rewrite length_cons in *.
    destruct fuel as [|fuel]; [lia|].
    unfold utf8_str. cbn [map concat]. fold (utf8_str cs).
    rewrite utf8_decode_loop_char by done. cbn [decode_put put_bytes].
    rewrite u32_id, IH by (done || lia). f_equal. lia.
Qed.

Lemma utf8_valid_loop_inv fuel l enclen :
  bytes_ok l -> (length l <= fuel)%nat ->
  (utf8_decode_loop fuel SILC_STRING_ASCII None l enclen []).1 <> 0 ->
  exists cs, Forall char_ok cs /\ l = utf8_str cs.
Proof.
  revert l enclen; induction fuel as [|fuel IH]; intros l enclen Hb Hf Hr.
  - destruct l; [|simpl in Hf; lia]. by exists [].
  - destruct (decide (l = [])) as [->|Hl]; [by exists []|].
    destruct (utf8_char l) as [[[c n] d]|] eqn:E;
      [|by rewrite utf8_decode_loop_stop in Hr].
    destruct (utf8_char_inv l c n d Hb Hl E) as (Hc & -> & _).
    rewrite utf8_decode_loop_char in Hr by done. cbn [decode_put put_bytes] in Hr.
    rewrite Forall_app in Hb. destruct Hb as [_ Hb].
    pose proof (utf8_bytes_len c). rewrite length_app in Hf.
    destruct (IH d _ Hb ltac:(lia) Hr) as (cs & Hcs & ->).
    exists (c :: cs). split; [by constructor|done].
Qed.

(** C36. [silc_utf8_valid] accepts exactly the non-empty strings that are the
    concatenation of the shortest encodings of 31-bit characters that are no
    surrogates: overlong forms, stray continuation bytes, truncated characters
    and the bytes 0xfe and 0xff are refused. *)
Theorem silc_utf8_valid_iff (s : list Z) :
  bytes_ok s -> zlen s < 2 ^ 32 ->
  silc_utf8_valid s = true <->
  exists cs, cs <> [] /\ Forall char_ok cs /\ s = utf8_str cs.
Proof.
  intros Hb Hs. unfold silc_utf8_valid. rewrite negb_true_iff, Z.eqb_neq. split.
  - intros H. destruct (utf8_valid_loop_inv _ _ _ Hb (Nat.le_refl _) H) as (cs & Hcs & ->).
    exists cs. split; [|done]. by intros ->.
  - intros (cs & Hne & Hcs & ->). pose proof (utf8_str_len cs).
    rewrite utf8_valid_loop_str by (done || lia). cbn [fst].
    destruct cs; [done|]. rewrite length_cons. lia.
Qed.

Definition witness_chars : list Z := [65; 228; 0x20ac; 0x1f600; 0x7fffffff].

Lemma witness_chars_ok : Forall char_ok witness_chars.
Proof. apply (bool_decide_unpack _). by vm_compute. Qed.

Lemma silc_utf8_valid_iff_witness :
  silc_utf8_valid (utf8_str witness_chars) = true /\ silc_utf8_valid [0xc1; 0x81] = false.
Proof.
  split; [|by vm_compute].
  apply (proj2 (silc_utf8_valid_iff (utf8_str witness_chars)
    ltac:(apply bytes_ok_check; by vm_compute) ltac:(by vm_compute))).
  exists witness_chars. split; [done|]. split; [apply witness_chars_ok|done].
Defined.

(** ** The fixed-width encodings *)

Lemma SILC_GET16_LSB_MSB a b : SILC_GET16_LSB [a; b] = SILC_GET16_MSB [b; a].
Proof. unfold SILC_GET16_LSB, SILC_GET16_MSB. rewrite !ba0, !ba1. apply Z.lor_comm. Qed.

Lemma SILC_GET32_LSB_MSB a b c d : SILC_GET32_LSB [a; b; c; d] = SILC_GET32_MSB [d; c; b; a].
Proof.
  unfold SILC_GET32_LSB, SILC_GET32_MSB. rewrite !ba0, !ba1, !ba2, !ba3.
  rewrite Z.lor_comm, (Z.lor_comm (Z.lor _ _) (Z.shiftl (u8 c) 16)), Z.lor_assoc.
  rewrite (Z.lor_comm (u8 a)), Z.lor_assoc. done.
Qed.

Lemma SILC_GET16_LSB_PUT x : SILC_GET16_LSB (SILC_PUT16_LSB x) = u16 x.
Proof.
  unfold SILC_PUT16_LSB. rewrite SILC_GET16_LSB_MSB. apply (SILC_GET16_PUT16_MSB x []).
Qed.

Lemma SILC_GET32_LSB_PUT x : SILC_GET32_LSB (SILC_PUT32_LSB x) = u32 x.
Proof.
  unfold SILC_PUT32_LSB. rewrite SILC_GET32_LSB_MSB. apply (SILC_GET32_PUT32_MSB x []).
Qed.

(** A character as an encoding stores it, and the characters it can store. *)
Definition enc_unit (enc : SilcStringEncoding) (c : Z) : list Z :=
  match enc with
  | SILC_STRING_BMP => SILC_PUT16_MSB c
  | SILC_STRING_BMP_LSB => SILC_PUT16_LSB c
  | SILC_STRING_UNIVERSAL => SILC_PUT32_MSB c
  | SILC_STRING_UNIVERSAL_LSB => SILC_PUT32_LSB c
  | _ => [c]
  end.

Definition enc_char (enc : SilcStringEncoding) (c : Z) : Prop :=
  match enc with
  | SILC_STRING_ASCII | SILC_STRING_TELETEX => 0 <= c < 256
  | SILC_STRING_PRINTABLE | SILC_STRING_VISIBLE => 32 <= c <= 126
  | SILC_STRING_NUMERICAL => c = 32 \/ 48 <= c <= 57
  | SILC_STRING_BMP | SILC_STRING_BMP_LSB => 0 <= c < 65536 /\ char_ok c
  | SILC_STRING_UNIVERSAL | SILC_STRING_UNIVERSAL_LSB => char_ok c
  | _ => False
  end.

#[export] Instance enc_char_dec enc c : Decision (enc_char enc c).
Proof. destruct enc; simpl; apply _. Defined.

Definition enc_str (enc : SilcStringEncoding) (cs : list Z) : list Z :=
  concat (map (enc_unit enc) cs).

Lemma enc_char_ok enc c : enc_char enc c -> char_ok c.
Proof. unfold char_ok. destruct enc; simpl; unfold char_ok; intros; lia. Qed.

Lemma enc_unit_len enc c : 1 <= zlen (enc_unit enc c) <= 4.
Proof. destruct enc; simpl; lia. Qed.

Lemma utf8_encode_loop_unit enc utf8 c rest enclen out :
  enc_char enc c ->
  utf8_encode_loop enc utf8 (enc_unit enc c ++ rest) enclen out =
  match encode_put utf8 c enclen out with
  | None => (0, out)
  | Some (enclen, out) => utf8_encode_loop enc utf8 rest enclen out
  end.
Proof.
  intros Hc. destruct enc; cbn [enc_char] in Hc; try done;
    unfold enc_unit, SILC_PUT16_MSB, SILC_PUT16_LSB, SILC_PUT32_MSB, SILC_PUT32_LSB;
    cbn [app utf8_encode_loop]; try done.
  - pose proof (SILC_GET16_PUT16_MSB c []) as E. unfold SILC_PUT16_MSB in E.
    cbn [app] in E. rewrite E. rewrite u16_id by lia. done.
  - pose proof (SILC_GET16_LSB_PUT c) as E. unfold SILC_PUT16_LSB in E.
    rewrite E. rewrite u16_id by lia. done.
  - pose proof (SILC_GET32_PUT32_MSB c []) as E. unfold SILC_PUT32_MSB in E.
    cbn [app] in E. rewrite E. unfold char_ok in Hc.
    rewrite u32_id by lia. done.
  - pose proof (SILC_GET32_LSB_PUT c) as E. unfold SILC_PUT32_LSB in E.
    rewrite E. unfold char_ok in Hc.
    rewrite u32_id by lia. done.
  - unfold isprint. replace ((32 <=? c) && (c <=? 126)) with true by lia. done.
  - unfold isprint. replace ((32 <=? c) && (c <=? 126)) with true by lia. done.
  - unfold isdigit. replace (negb (c =? 32) && negb ((48 <=? c) && (c <=? 57))) with false by lia.
    done.
Qed.

Lemma decode_put_unit enc bin c raw last enclen out :
  enc_char enc c ->
  decode_put bin enc c raw last enclen out =
  match put_bytes bin enclen (zlen (enc_unit enc c)) out (enc_unit enc c) with
  | None => None
  | Some out => Some (u32 (enclen + zlen (enc_unit enc c)), out)
  end.
Proof.
  intros Hc. destruct enc; cbn [enc_char] in Hc; try done; cbn [decode_put enc_unit];
    rewrite u8_id by lia; done.
Qed.

(** What the output holds when it was given. *)
Definition stored (bin : option Z) (l : list Z) : list Z :=
  match bin with Some _ => l | None => [] end.

Lemma put_bytes_fits bin enclen need out x :
  0 <= enclen -> 0 <= need -> enclen + need < 2 ^ 32 ->
  (forall n, bin = Some n -> enclen + need <= n) ->
  put_bytes bin enclen need out x = Some (out ++ stored bin x).
Proof.
  intros He Hn Hl Hb. unfold put_bytes. destruct bin as [n|]; cbn [stored].
  - rewrite u32_id by lia. specialize (Hb n eq_refl). zcase; [lia|done].
  - by rewrite app_nil_r.
Qed.

Lemma stored_app bin l k : stored bin (l ++ k) = stored bin l ++ stored bin k.
Proof. by destruct bin. Qed.

Lemma encode_loop_str enc utf8 cs enclen out :
  Forall (enc_char enc) cs -> 0 <= enclen -> enclen + zlen (utf8_str cs) < 2 ^ 32 ->
  (forall n, utf8 = Some n -> enclen + zlen (utf8_str cs) <= n) ->
  utf8_encode_loop enc utf8 (enc_str enc cs) enclen out =
  (enclen + zlen (utf8_str cs), out ++ stored utf8 (utf8_str cs)).
Proof.
  revert enclen out; induction cs as [|c cs IH]; intros enclen out Hcs He Hl Hn.
  - assert (stored utf8 [] = []) as E by (by destruct utf8).
    cbn. rewrite E, app_nil_r. f_equal; lia.
  - apply Forall_cons_iff in Hcs as [Hc Hcs].
    unfold enc_str, utf8_str in *. cbn [map concat] in *. fold (enc_str enc cs) in *.
    fold (utf8_str cs) in *. rewrite length_app in *. rewrite utf8_encode_loop_unit by done.
    assert (0 <= utf8_need c <= zlen (utf8_bytes c)) as Hneed.
    { unfold utf8_need. pose proof (utf8_bytes_len c). zcase; lia. }
    unfold encode_put. rewrite put_bytes_fits; try lia.
    2: { intros n E. specialize (Hn n E). lia. }
    rewrite u32_id by lia. rewrite IH; try done; try lia.
    2: { intros n E. specialize (Hn n E). lia. }
    rewrite stored_app, app_assoc. f_equal. lia.
Qed.

Lemma decode_loop_str fuel enc bin cs enclen out :
  Forall (enc_char enc) cs -> (length cs <= fuel)%nat ->
  0 <= enclen -> enclen + zlen (enc_str enc cs) < 2 ^ 32 ->
  (forall n, bin = Some n -> enclen + zlen (enc_str enc cs) <= n) ->
  utf8_decode_loop fuel enc bin (utf8_str cs) enclen out =
  (enclen + zlen (enc_str enc cs), out ++ stored bin (enc_str enc cs)).
Proof.
  revert fuel enclen out; induction cs as [|c cs IH]; intros fuel enclen out Hcs Hf He Hl Hn.
  - assert (stored bin [] = []) as E by (by destruct bin).
    destruct fuel; cbn; rewrite E, app_nil_r; f_equal; lia.
  - apply Forall_cons_iff in Hcs as [Hc Hcs].
    unfold enc_str, utf8_str in *. cbn [map concat] in *. fold (enc_str enc cs) in *.
    fold (utf8_str cs) in *. rewrite length_app in *. rewrite length_cons in Hf.
    destruct fuel as [|fuel]; [lia|].
    rewrite utf8_decode_loop_char by (by eapply enc_char_ok).
    rewrite decode_put_unit by done. pose proof (enc_unit_len enc c).
    rewrite put_bytes_fits; try lia.
    2: { intros n E. specialize (Hn n E). lia. }
    rewrite u32_id by lia. rewrite IH; try done; try lia.
    2: { intros n E. specialize (Hn n E). lia. }
    rewrite stored_app, app_assoc. f_equal. lia.
Qed.

(** Encoding to UTF-8 and back, for every fixed-width encoding: a
    non-empty string of characters the encoding can store is encoded to the
    concatenation of their UTF-8 forms, decoding gives the string back, and
    [silc_utf8_encoded_len] and [silc_utf8_decoded_len] compute the lengths. *)
Theorem silc_utf8_decode_encode (enc : SilcStringEncoding) (cs : list Z) (size n : Z) :
  cs <> [] -> Forall (enc_char enc) cs ->
  zlen (utf8_str cs) < 2 ^ 32 -> zlen (enc_str enc cs) < 2 ^ 32 ->
  zlen (utf8_str cs) <= size -> zlen (enc_str enc cs) <= n ->
  silc_utf8_encoded_len (enc_str enc cs) enc = zlen (utf8_str cs) /\
  silc_utf8_encode (enc_str enc cs) enc (Some size) = (zlen (utf8_str cs), utf8_str cs) /\
  silc_utf8_decoded_len (utf8_str cs) enc = zlen (enc_str enc cs) /\
  silc_utf8_decode (utf8_str cs) enc (Some n) = (zlen (enc_str enc cs), enc_str enc cs).
Proof.
  intros Hne Hcs Hu Hb Hs Hn.
  assert (zlen (enc_str enc cs) <> 0) as Nb.
  { destruct cs as [|c cs]; [done|]. unfold enc_str. cbn [map concat]. rewrite length_app.
    pose proof (enc_unit_len enc c). lia. }
  pose proof (utf8_str_len cs).
  assert (zlen (utf8_str cs) <> 0) as Nu by (destruct cs; [done|rewrite length_cons in *; lia]).
  assert (forall o, silc_utf8_encode (enc_str enc cs) enc o =
    utf8_encode_loop enc o (enc_str enc cs) 0 []) as E1.
  { intros o. unfold silc_utf8_encode. destruct (Z.eqb_spec (zlen (enc_str enc cs)) 0); [done|].
    destruct cs as [|c cs]; [done|]. apply Forall_cons_iff in Hcs as [Hc _].
    destruct enc; done. }
  assert (forall o, silc_utf8_decode (utf8_str cs) enc o =
    utf8_decode_loop (length (utf8_str cs)) enc o (utf8_str cs) 0 []) as E2.
  { intros o. unfold silc_utf8_decode. destruct (Z.eqb_spec (zlen (utf8_str cs)) 0); [done|].
    destruct cs as [|c cs]; [done|]. apply Forall_cons_iff in Hcs as [Hc _].
    destruct enc; done. }
  unfold silc_utf8_encoded_len, silc_utf8_decoded_len.
  rewrite !E1, !E2.
  rewrite (encode_loop_str enc None), (encode_loop_str enc (Some size)),
    (decode_loop_str _ enc None), (decode_loop_str _ enc (Some n))
    by (done || lia || (intros ? [= <-]; lia)).
  done.
Qed.

Definition witness_bmp : list Z := [65; 228; 0x20ac].

Lemma silc_utf8_decode_encode_witness :
  Forall (enc_char SILC_STRING_BMP) witness_bmp /\
  silc_utf8_encode [0; 65; 0; 228; 0x20; 0xac] SILC_STRING_BMP (Some 6) =
    (6, [65; 0xc3; 0xa4; 0xe2; 0x82; 0xac]) /\
  silc_utf8_decode [65; 0xc3; 0xa4; 0xe2; 0x82; 0xac] SILC_STRING_BMP (Some 6) =
    (6, [0; 65; 0; 228; 0x20; 0xac]).
Proof.
  assert (Forall (enc_char SILC_STRING_BMP) witness_bmp) as Hw.
  { apply (bool_decide_unpack _). by vm_compute. }
  pose proof (silc_utf8_decode_encode SILC_STRING_BMP witness_bmp 6 6 ltac:(done) Hw
    ltac:(by vm_compute) ltac:(by vm_compute) ltac:(by vm_compute) ltac:(by vm_compute))
    as (_ & He & _ & Hd).
  split; [exact Hw|]. split; [exact He|exact Hd].
Defined.

(** ** The bounds of the output *)

Lemma put_bytes_bound n enclen need out x out' :
  put_bytes (Some n) enclen need out x = Some out' ->
  u32 (enclen + need) <= n /\ out' = out ++ x.
Proof. unfold put_bytes. zcase; [done|]. intros [= <-]. split; [lia|done]. Qed.

Lemma dn_escape_len cv enclen last : 1 <= zlen (dn_escape cv enclen last) <= 3.
Proof.
  unfold dn_escape. repeat match goal with |- context [if ?c then _ else _] => destruct c end;
    simpl; lia.
Qed.

(** A store that leaves the length of the output correct and within [n]. *)
Lemma put_bytes_keeps n enclen out x out' :
  n + 6 < 2 ^ 32 -> enclen = zlen out -> zlen out <= n -> zlen x <= 6 ->
  put_bytes (Some n) enclen (zlen x) out x = Some out' ->
  u32 (enclen + zlen x) = zlen out' /\ zlen out' <= n.
Proof.
  intros Hn He Hl Hx H. apply put_bytes_bound in H as [Hb ->]. rewrite length_app.
  rewrite u32_id in * by lia. lia.
Qed.

Lemma dn_bytes_keeps n cvs last enclen out e o :
  n + 6 < 2 ^ 32 -> enclen = zlen out -> zlen out <= n ->
  dn_bytes (Some n) cvs last enclen out = Some (e, o) -> e = zlen o /\ zlen o <= n.
Proof.
  intros Hn. revert enclen out; induction cvs as [|cv cvs IH]; intros enclen out He Hl H;
    cbn [dn_bytes] in H; [by injection H as <- <-|].
  cbv zeta in H. destruct (put_bytes _ _ _ _ _) as [out'|] eqn:E; [|done].
  pose proof (dn_escape_len cv enclen last).
  apply put_bytes_keeps in E as [E1 E2]; [|lia..].
  by apply IH in H.
Qed.

Lemma decode_put_keeps n enc c raw last enclen out e o :
  n + 6 < 2 ^ 32 -> enclen = zlen out -> zlen out <= n ->
  decode_put (Some n) enc c raw last enclen out = Some (e, o) -> e = zlen o /\ zlen o <= n.
Proof.
  intros Hn He Hl H. destruct enc; cbn [decode_put] in H; try done;
    try (by eapply dn_bytes_keeps in H);
    match type of H with context [put_bytes ?b ?e ?k ?o ?x] =>
      change k with (zlen x) in H; destruct (put_bytes b e (zlen x) o x) eqn:E end; try done;
    apply put_bytes_keeps in E as [E1 E2]; try done; injection H as <- <-; done.
Qed.

Lemma decode_loop_bound fuel n enc l enclen out :
  n + 6 < 2 ^ 32 -> enclen = zlen out -> zlen out <= n ->
  zlen (utf8_decode_loop fuel enc (Some n) l enclen out).2 <= n.
Proof.
  intros Hn. revert l enclen out; induction fuel as [|fuel IH]; intros l enclen out He Hl;
    (destruct l as [|b l]; [done|]); cbn [utf8_decode_loop]; [done|].
  destruct (utf8_char (b :: l)) as [[[c k] d]|]; [|done].
  destruct (decode_put _ _ _ _ _ _ _) as [[e o]|] eqn:E; [|done].
  apply decode_put_keeps in E as [E1 E2]; [|done..]. by apply IH.
Qed.

Lemma encode_put_keeps n c enclen out e o :
  n + 7 < 2 ^ 32 -> enclen = zlen out -> zlen out <= n + 1 ->
  encode_put (Some n) c enclen out = Some (e, o) -> e = zlen o /\ zlen o <= n + 1.
Proof.
  intros Hn He Hl H. unfold encode_put in H.
  destruct (put_bytes _ _ _ _ _) as [out'|] eqn:E; [|done]. injection H as <- <-.
  apply put_bytes_bound in E as [Hb ->]. rewrite length_app. unfold utf8_need in Hb.
  pose proof (utf8_bytes_len c). rewrite u32_id in Hb by (zcase; lia).
  rewrite u32_id by lia. destruct (Z.ltb_spec c 0x80); [|lia].
  split; [lia|]. unfold utf8_bytes. zcase; [|lia]. rewrite length_cons, length_nil. lia.
Qed.

Lemma encode_loop_bound k n enc bin enclen out :
  n + 7 < 2 ^ 32 -> (length bin <= k)%nat -> enclen = zlen out -> zlen out <= n + 1 ->
  zlen (utf8_encode_loop enc (Some n) bin enclen out).2 <= n + 1.
Proof.
  intros Hn. revert bin enclen out; induction k as [|k IH]; intros bin enclen out Hk He Hl;
    (destruct bin as [|a bin]; [done|]); rewrite length_cons in Hk; [lia|].
  assert (forall c l, (length l <= k)%nat ->
    zlen (match encode_put (Some n) c enclen out with
          | None => (0, out)
          | Some (enclen, out) => utf8_encode_loop enc (Some n) l enclen out
          end).2 <= n + 1) as Hstep.
  { intros c l Hlen. destruct (encode_put _ _ _ _) as [[e o]|] eqn:E; [|done].
    apply encode_put_keeps in E as [E1 E2]; [|done..]. by apply IH. }
  destruct enc; cbn [utf8_encode_loop]; try done; try (apply Hstep; lia);
    try (match goal with |- context [if ?c then _ else _] => destruct c end; [done|apply Hstep; lia]).
  - destruct bin as [|b bin]; [done|]. rewrite length_cons in Hk. apply Hstep. lia.
  - destruct bin as [|b bin]; [done|]. rewrite length_cons in Hk. apply Hstep. lia.
  - destruct bin as [|b [|c [|d bin]]]; try done. rewrite !length_cons in Hk. apply Hstep. lia.
  - destruct bin as [|b [|c [|d bin]]]; try done. rewrite !length_cons in Hk. apply Hstep. lia.
Qed.

Lemma unescape_loop_bound k n bin enclen out :
  n + 7 < 2 ^ 32 -> (length bin <= k)%nat -> enclen = zlen out -> zlen out <= n ->
  zlen (utf8_unescape_loop (Some n) bin enclen out).2 <= n.
Proof.
  intros Hn. revert bin enclen out; induction k as [|k IH]; intros bin enclen out Hk He Hl;
    (destruct bin as [|a bin]; [done|]); rewrite length_cons in Hk; [lia|].
  assert (forall x l, (length l <= k)%nat ->
    zlen (match put_bytes (Some n) enclen 1 out [x] with
          | None => (0, out)
          | Some out => utf8_unescape_loop (Some n) l (u32 (enclen + 1)) out
          end).2 <= n) as Hstep.
  { intros x l Hlen. change 1 with (zlen [x]).
    destruct (put_bytes _ _ _ _ _) as [o|] eqn:E; [|done].
    apply put_bytes_keeps in E as [E1 E2]; try done; try lia; by apply IH. }
  cbn [utf8_unescape_loop]. destruct (a =? 92); [|apply Hstep; lia].
  destruct bin as [|b bin]; [done|]. rewrite length_cons in Hk.
  destruct (negb _); [|apply Hstep; lia]. destruct bin as [|c bin]; [done|].
  rewrite length_cons in Hk. destruct (sscanf_02X _); [|done]. apply Hstep. lia.
Qed.

Lemma encode_loop_ascii k n enclen out :
  zlen out = enclen -> enclen + Z.of_nat k <= n + 1 -> n + 7 < 2 ^ 32 ->
  utf8_encode_loop SILC_STRING_ASCII (Some n) (replicate k 65) enclen out =
  (enclen + Z.of_nat k, out ++ replicate k 65).
Proof.
  revert enclen out; induction k as [|k IH]; intros enclen out He Hk Hn.
  - cbn. rewrite app_nil_r. f_equal. lia.
  - cbn [replicate utf8_encode_loop]. unfold encode_put, utf8_need, utf8_bytes, put_bytes.
    change (65 <? 128) with true. cbv iota zeta. change (zlen [u8 65]) with 1.
    rewrite Z.add_0_r, !u32_id by lia. zcase; [lia|].
    rewrite IH by (rewrite ?length_app, ?length_cons, ?length_nil; lia).
    rewrite <- app_assoc. change (u8 65) with 65. f_equal. lia.
Qed.

(** What the UTF-8 routines store stays within the output, but for one
    byte: the decoder never stores more than [size] bytes, the encoder never
    more than [size + 1], whatever the input and the encoding.  The bound of
    the encoder is reached: for every size, [size + 1] ASCII letters are
    stored and reported, since the case of one byte tests the length before
    the byte is added to it. *)
Theorem silc_utf8_output_bounds (s : list Z) (enc : SilcStringEncoding) (size : Z) :
  0 <= size < 2 ^ 32 - 7 ->
  zlen (silc_utf8_decode s enc (Some size)).2 <= size /\
  zlen (silc_utf8_encode s enc (Some size)).2 <= size + 1 /\
  silc_utf8_encode (zrepeat 65 (size + 1)) SILC_STRING_ASCII (Some size) =
    (size + 1, zrepeat 65 (size + 1)).
Proof.
  intros Hs. split_and!.
  - unfold silc_utf8_decode. destruct (Z.eqb_spec (zlen s) 0); [simpl; lia|].
    destruct enc; try (apply decode_loop_bound; simpl; lia).
    destruct (silc_utf8_valid s); [|simpl; lia]. cbn [negb orb]. zcase; simpl; lia.
  - unfold silc_utf8_encode. destruct (Z.eqb_spec (zlen s) 0); [simpl; lia|].
    destruct enc; try (apply (encode_loop_bound (length s)); simpl; lia).
    + destruct (silc_utf8_valid s); [|simpl; lia]. cbn [negb]. zcase; simpl; lia.
    + pose proof (unescape_loop_bound (length s) size s 0 []) as H.
      specialize (H ltac:(lia) ltac:(lia) eq_refl ltac:(simpl; lia)). lia.
  - unfold silc_utf8_encode, zrepeat. rewrite length_replicate.
    replace (Z.of_nat (Z.to_nat (size + 1)) =? 0) with false by lia.
    rewrite encode_loop_ascii by (simpl; lia). cbn [app]. f_equal. lia.
Qed.

Lemma silc_utf8_output_bounds_witness :
  silc_utf8_encode [65; 65] SILC_STRING_ASCII (Some 1) = (2, [65; 65]).
Proof. apply (silc_utf8_output_bounds [] SILC_STRING_ASCII 1). split; [done|reflexivity]. Defined.
