(* ===== verification/Auth.v ===== *)
(** lib/silccore/silcauth.c: the Authentication Payload, the authentication
    routines and the Key Agreement Payload.

    Signatures are an interface, [PkcsOps] with its law [PkcsLaws]: what
    silc_pkcs_sign makes with a private key, silc_pkcs_verify accepts with the
    public key that belongs to it.  The random data of a public key
    authentication is an argument. *)

From S2P Require Import Prelude CTypes Buffer BufFmt BufFmtSpec Id Utf8.

Definition SILC_AUTH_NONE : Z := 0.
Definition SILC_AUTH_PASSWORD : Z := 1.
Definition SILC_AUTH_PUBLIC_KEY : Z := 2.

(** * Authentication Payload *)

Record SilcAuthPayload := {
  au_len : Z;
  au_method : Z;
  au_random_len : Z;
  au_random_data : option (list Z);
  au_auth_len : Z;
  au_auth_data : option (list Z);
}.

Definition silc_auth_payload_parse (data : list Z) : option SilcAuthPayload :=
  let buffer := silc_buffer_set data in
  let '(ret, out, buffer) :=
    silc_buffer_unformat buffer
      [U_UI16_SHORT true; U_UI16_SHORT true;
       U_NSTRING_ALLOC W16 true true; U_NSTRING_ALLOC W16 true true] in
  if ret =? -1 then None
  else
    let newp := {| au_len := out_num out 0; au_method := out_num out 1;
                   au_random_len := out_num out 2; au_random_data := out_ptr out 3;
                   au_auth_len := out_num out 4; au_auth_data := out_ptr out 5 |} in
    if negb (au_len newp =? silc_buffer_len buffer) ||
       (u32 (silc_buffer_len buffer - 8) <? au_random_len newp + au_auth_len newp) then None
    else if au_auth_len newp <? 1 then None
    else if (au_method newp =? SILC_AUTH_PASSWORD) && negb (au_random_len newp =? 0) then None
    else if (au_method newp =? SILC_AUTH_PUBLIC_KEY) && (au_random_len newp <? 128) then None
    else Some newp.

(** The authentication data to send: a passphrase is made UTF-8.  [None] is the
    return of NULL. *)
Definition auth_utf8 (method : Z) (auth_data : list Z) : option (list Z) :=
  if (method =? SILC_AUTH_PASSWORD) && negb (silc_utf8_valid auth_data) then
    let autf8_len := silc_utf8_encoded_len auth_data SILC_STRING_ASCII in
    if autf8_len =? 0 then None
    else
      let '(auth_len, autf8) :=
        silc_utf8_encode auth_data SILC_STRING_ASCII (Some autf8_len) in
      Some (ztake (u16 auth_len) autf8)
  else Some auth_data.

Definition silc_auth_payload_encode (method : Z) (random_data : option (list Z))
    (random_len : Z) (auth_data : list Z) : option SilcBuffer :=
  match auth_utf8 method auth_data with
  | None => None
  | Some auth_data =>
      let auth_len := zlen auth_data in
      let len := 2 + 2 + 2 + random_len + 2 + auth_len in
      match silc_buffer_alloc_size len with
      | None => None
      | Some buffer =>
          Some (silc_buffer_format buffer
                  [F_UI16_SHORT len; F_UI16_SHORT method; F_UI16_SHORT random_len;
                   F_DATA random_data random_len; F_UI16_SHORT auth_len;
                   F_DATA (Some auth_data) auth_len]).2
      end
  end.

Definition silc_auth_get_method (payload : SilcAuthPayload) : Z := au_method payload.
Definition silc_auth_get_public_data (payload : SilcAuthPayload) : option (list Z) * Z :=
  (au_random_data payload, au_random_len payload).
Definition silc_auth_get_data (payload : SilcAuthPayload) : option (list Z) * Z :=
  (au_auth_data payload, au_auth_len payload).

(** * Authentication routines *)

(** What silcpk.h and silcpkcs.h offer to this file. *)
Class PkcsOps := {
  SilcPublicKey : Type;
  SilcPrivateKey : Type;
  SilcHash : Type;
  silc_pkcs_public_key_encode : SilcPublicKey -> option (list Z);
  (** at most [size] bytes of signature; the hash is computed first *)
  silc_pkcs_sign : SilcPrivateKey -> list Z -> Z -> SilcHash -> option (list Z);
  silc_pkcs_verify : SilcPublicKey -> list Z -> list Z -> SilcHash -> bool;
}.

(** What it promises: signatures are byte strings that fit, and verify. *)
Class PkcsLaws `(PkcsOps) := {
  key_pair : SilcPublicKey -> SilcPrivateKey -> Prop;
  pkcs_sign_bytes prv d n h sig :
    silc_pkcs_sign prv d n h = Some sig -> bytes_ok sig /\ 1 <= zlen sig <= n;
  pkcs_verify_sign pub prv d n h sig :
    key_pair pub prv -> silc_pkcs_sign prv d n h = Some sig ->
    silc_pkcs_verify pub sig d h = true;
}.

Section pkcs.
Context `{PkcsOps}.

Definition silc_auth_public_key_encode_data (public_key : SilcPublicKey)
    (randomdata : option (list Z)) (random_len : Z) (id : SilcID) : option (list Z) :=
  match silc_pkcs_public_key_encode public_key with
  | None => None
  | Some pk =>
      match silc_id_id2str id 32 with
      | None => None
      | Some id_data =>
          match silc_buffer_alloc_size (u32 (random_len + zlen id_data + zlen pk)) with
          | None => None
          | Some buf =>
              Some (b_data (silc_buffer_format buf
                [F_DATA randomdata random_len; F_DATA (Some id_data) (zlen id_data);
                 F_DATA (Some pk) (zlen pk)]).2)
          end
      end
  end.

Definition silc_auth_public_key_auth_generate_wpub (public_key : SilcPublicKey)
    (private_key : SilcPrivateKey) (pubdata : list Z) (hash : SilcHash) (id : SilcID)
  : option SilcBuffer :=
  match silc_auth_public_key_encode_data public_key (Some pubdata) (zlen pubdata) id with
  | None => None
  | Some tmp =>
      match silc_pkcs_sign private_key tmp 65536 hash with
      | None => None
      | Some auth_data =>
          silc_auth_payload_encode SILC_AUTH_PUBLIC_KEY (Some pubdata) (u16 (zlen pubdata))
            (ztake (u16 (zlen auth_data)) auth_data)
      end
  end.

(** [randomdata] is what the random number generator gives, 256 bytes. *)
Definition silc_auth_public_key_auth_generate (public_key : SilcPublicKey)
    (private_key : SilcPrivateKey) (randomdata : option (list Z)) (hash : SilcHash)
    (id : SilcID) : option SilcBuffer :=
  match randomdata with
  | None => None
  | Some randomdata =>
      silc_auth_public_key_auth_generate_wpub public_key private_key randomdata hash id
  end.

Definition silc_auth_public_key_auth_verify (payload : SilcAuthPayload)
    (public_key : SilcPublicKey) (hash : SilcHash) (id : SilcID) : bool :=
  match silc_auth_public_key_encode_data public_key (au_random_data payload)
          (au_random_len payload) id with
  | None => false
  | Some tmp =>
      silc_pkcs_verify public_key (mem_read (ptr_bytes (au_auth_data payload))
        (au_auth_len payload)) tmp hash
  end.

Definition silc_auth_public_key_auth_verify_data (payload : list Z)
    (public_key : SilcPublicKey) (hash : SilcHash) (id : SilcID) : bool :=
  match silc_auth_payload_parse payload with
  | None => false
  | Some auth_payload => silc_auth_public_key_auth_verify auth_payload public_key hash id
  end.

(** The [const void *auth_data]: a passphrase, a public key or NULL. *)
Inductive AuthSecret :=
| SecretNull
| SecretPassphrase (auth_data : list Z)
| SecretPublicKey (public_key : SilcPublicKey).

(** A passphrase taken for a key, or a key for a passphrase, is not modelled:
    the caller knows the method. *)
Definition silc_auth_verify (payload : option SilcAuthPayload) (auth_method : Z)
    (secret : AuthSecret) (hash : SilcHash) (id : SilcID) : bool :=
  match payload with
  | None => false
  | Some payload =>
      if negb (auth_method =? au_method payload) then false
      else if au_method payload =? SILC_AUTH_NONE then true
      else if au_method payload =? SILC_AUTH_PASSWORD then
        match secret with
        | SecretPassphrase auth_data =>
            if (au_auth_len payload =? 0) || negb (au_auth_len payload =? zlen auth_data)
            then false
            else bool_decide (mem_read (ptr_bytes (au_auth_data payload)) (zlen auth_data)
                              = auth_data)
        | _ => false
        end
      else if au_method payload =? SILC_AUTH_PUBLIC_KEY then
        match secret with
        | SecretPublicKey public_key =>
            silc_auth_public_key_auth_verify payload public_key hash id
        | _ => false
        end
      else false
  end.

Definition silc_auth_verify_data (payload : list Z) (auth_method : Z) (secret : AuthSecret)
    (hash : SilcHash) (id : SilcID) : bool :=
  match silc_auth_payload_parse payload with
  | None => false
  | Some auth_payload =>
      if au_auth_len auth_payload =? 0 then false
      else silc_auth_verify (Some auth_payload) auth_method secret hash id
  end.
End pkcs.

(** * Key Agreement Payload *)

Record SilcKeyAgreementPayload := {
  ka_hostname_len : Z;
  ka_hostname : option (list Z);
  ka_protocol : Z;
  ka_port : Z;
}.

Definition silc_key_agreement_payload_parse (payload : list Z)
  : option SilcKeyAgreementPayload :=
  let buffer := silc_buffer_set payload in
  let '(ret, out, buffer) :=
    silc_buffer_unformat buffer
      [U_NSTRING_ALLOC W16 true true; U_UI16_SHORT true; U_UI16_SHORT true] in
  if (ret =? -1) || (u32 (silc_buffer_len buffer - 6) <? out_num out 0) then None
  else Some {| ka_hostname_len := out_num out 0; ka_hostname := out_ptr out 1;
               ka_protocol := out_num out 2; ka_port := out_num out 3 |}.

(** [hostname] is the characters before the NUL. *)
Definition silc_key_agreement_payload_encode (hostname : option (list Z)) (protocol port : Z)
  : option SilcBuffer :=
  let len := match hostname with Some h => u32 (zlen h) | None => 0 end in
  match silc_buffer_alloc_size (u32 (2 + len + 4)) with
  | None => None
  | Some buffer =>
      Some (silc_buffer_format buffer
              [F_UI16_SHORT len; F_DATA hostname len; F_UI16_SHORT protocol;
               F_UI16_SHORT port]).2
  end.

Definition silc_key_agreement_get_hostname (payload : SilcKeyAgreementPayload) := ka_hostname payload.
Definition silc_key_agreement_get_protocol (payload : SilcKeyAgreementPayload) : Z :=
  ka_protocol payload.
Definition silc_key_agreement_get_port (payload : SilcKeyAgreementPayload) : Z := ka_port payload.

(** * Wire forms *)

(** What silc_auth_payload_parse checks of the fields. *)
Definition auth_wf (p : SilcAuthPayload) : Prop :=
  0 <= au_len p < 65536 /\ 0 <= au_method p < 65536 /\
  oblk_wf (au_random_data p) (au_random_len p) /\ blk_wf (au_auth_data p) (au_auth_len p) /\
  (au_method p = SILC_AUTH_PASSWORD -> au_random_len p = 0) /\
  (au_method p = SILC_AUTH_PUBLIC_KEY -> 128 <= au_random_len p).

Definition auth_wire (p : SilcAuthPayload) : list Z :=
  SILC_PUT16_MSB (au_len p) ++ SILC_PUT16_MSB (au_method p) ++
  blk_wire (au_random_data p) ++ blk_wire (au_auth_data p).

Lemma auth_wire_len p :
  auth_wf p -> zlen (auth_wire p) = 8 + au_random_len p + au_auth_len p.
Proof.
  intros (_ & _ & Hr & Ha & _). unfold auth_wire. rewrite !length_app, !length_PUT16_MSB.
  apply oblk_wire_len in Hr. apply blk_wire_len in Ha. lia.
Qed.

Definition auth_params : list UnformatParam :=
  [U_UI16_SHORT true; U_UI16_SHORT true;
   U_NSTRING_ALLOC W16 true true; U_NSTRING_ALLOC W16 true true].

Lemma auth_params_plain : Forall unf_plain auth_params.
Proof. by repeat constructor. Qed.

(** The bytes of the payload may be followed by others that the length field
    counts. *)
Lemma auth_parse_wire data p rest :
  zlen data < SILC_MAX_ALLOC -> auth_wf p -> au_len p = zlen data ->
  data = auth_wire p ++ rest -> silc_auth_payload_parse data = Some p.
Proof.
  intros Hm Hwf Hlen Hd. pose proof (auth_wire_len p Hwf) as Hl.
  pose proof (buffer_set_ok data Hm) as Hok.
  destruct Hwf as (? & ? & Hr & Ha & Hpw & Hpk).
  destruct (oblk_wf_len _ _ Hr) as [_ ?]. destruct (blk_wf_len _ _ Ha) as [_ ?].
  assert (zlen data = zlen (auth_wire p) + zlen rest) as Hlen' by (rewrite Hd; len).
  unfold silc_auth_payload_parse. fold auth_params.
  rewrite (unformat_some _ auth_params
    [ONum (au_len p); ONum (au_method p); ONum (au_random_len p); OPtr (au_random_data p);
     ONum (au_auth_len p); OPtr (au_auth_data p)] rest Hok auth_params_plain).
  2: { cbn [b_data silc_buffer_set]. rewrite Hd. unfold auth_wire, auth_params.
       rewrite <- !app_assoc, !parse_U16, (oblk_parse _ _ _ _ Hr), (blk_parse _ _ _ _ Ha).
       rewrite !u16_id by lia. done. }
  cbn [b_data silc_buffer_set out_num out_ptr nth_error].
  change {| b_head := []; b_data := data; b_tail := [] |} with (silc_buffer_set data).
  rewrite buffer_set_len, u32_id by (done || unfold SILC_MAX_ALLOC in *; lia).
  cbn [au_len au_method au_random_len au_auth_len].
  unfold SILC_AUTH_PASSWORD, SILC_AUTH_PUBLIC_KEY in *.
  if_head. if_head. if_head. if_head. if_head. by destruct p.
Qed.

Lemma auth_parse_some data p :
  bytes_ok data -> zlen data < SILC_MAX_ALLOC -> silc_auth_payload_parse data = Some p ->
  auth_wf p /\ au_len p = zlen data /\ exists rest, data = auth_wire p ++ rest.
Proof.
  intros Hb Hm. unfold silc_auth_payload_parse. fold auth_params.
  pose proof (buffer_set_ok data Hm) as Hok.
  destruct (parse auth_params (b_data (silc_buffer_set data))) as [[outs rest]|] eqn:Ep.
  2: { destruct (unformat_none _ _ Hok auth_params_plain Ep) as (o & ->). done. }
  rewrite (unformat_some _ _ _ _ Hok auth_params_plain Ep). unfold auth_params in Ep.
  cbn [b_data silc_buffer_set] in *.
  apply parse_U16_inv in Ep as (n & d1 & o1 & Hd & ? & Hb1 & Ep & Ho); [|done].
  apply parse_U16_inv in Ep as (m & d2 & o2 & -> & ? & Hb2 & Ep & Ho2); [|done].
  apply parse_block_inv in Ep as (r & rn & d3 & o3 & -> & Hr & Hb3 & Ep & Ho3); [|done].
  apply parse_block_inv in Ep as (a & an & d4 & o4 & -> & Ha & Hb4 & Ep & Ho4); [|done].
  apply parse_nil_inv in Ep. cbn [fst snd] in *. injection Ep as -> <-. subst o3 o2 o1 outs.
  ret_case; [done|]. cbn [out_num out_ptr nth_error].
  change {| b_head := []; b_data := data; b_tail := [] |} with (silc_buffer_set data).
  rewrite buffer_set_len by done. cbn [au_len au_method au_random_len au_auth_len].
  unfold SILC_AUTH_PASSWORD, SILC_AUTH_PUBLIC_KEY.
  destruct (_ || _) eqn:E1; [done|]. destruct (an <? 1) eqn:E2; [done|].
  destruct (_ && _) eqn:E3; [done|]. destruct ((m =? 2) && _) eqn:E4; [done|].
  intros [= <-]. destruct (oblk_wf_len _ _ Hr) as [_ ?].
  assert (blk_wf a an) as Ha' by (destruct Ha as [[-> ->]|]; [lia|done]).
  split_and!.
  - unfold auth_wf, SILC_AUTH_PASSWORD, SILC_AUTH_PUBLIC_KEY.
    cbn [au_len au_method au_random_len au_random_data au_auth_len au_auth_data].
    split_and!; done || lia.
  - cbn [au_len]. lia.
  - exists rest. unfold auth_wire. cbn [au_len au_method au_random_data au_auth_data].
    by rewrite Hd, <- !app_assoc.
Qed.

(** What silc_auth_payload_encode makes of a method, random data and
    authentication data as they are sent. *)
Definition opt_bytes (s : list Z) : option (list Z) := match s with [] => None | _ => Some s end.

Definition auth_payload (method : Z) (random_data auth_data : list Z) : SilcAuthPayload :=
  {| au_len := 8 + zlen random_data + zlen auth_data; au_method := method;
     au_random_len := zlen random_data; au_random_data := opt_bytes random_data;
     au_auth_len := zlen auth_data; au_auth_data := Some auth_data |}.

Lemma oblk_wf_opt s : bytes_ok s -> zlen s < 65536 -> oblk_wf (opt_bytes s) (zlen s).
Proof.
  intros. destruct s as [|a s]; [by left|]. right. split; [done|]. split; [|done].
  rewrite length_cons in *. lia.
Qed.

Lemma auth_encode_spec method random_data auth_data u :
  auth_utf8 method auth_data = Some u -> auth_wf (auth_payload method random_data u) ->
  silc_auth_payload_encode method (opt_bytes random_data) (zlen random_data) auth_data =
  Some (silc_buffer_set (auth_wire (auth_payload method random_data u))).
Proof.
  intros Hu Hwf. pose proof (auth_wire_len _ Hwf) as Hl.
  destruct Hwf as (? & ? & Hr & Ha & _).
  cbn [au_len au_method au_random_len au_random_data au_auth_len au_auth_data auth_payload] in *.
  unfold silc_auth_payload_encode. rewrite Hu.
  replace (2 + 2 + 2 + zlen random_data + 2 + zlen u) with (8 + zlen random_data + zlen u) by lia.
  rewrite buffer_alloc_size_ok by (unfold SILC_MAX_ALLOC; lia).
  assert (fmt_bytes [F_UI16_SHORT (8 + zlen random_data + zlen u); F_UI16_SHORT method;
    F_UI16_SHORT (zlen random_data); F_DATA (opt_bytes random_data) (zlen random_data);
    F_UI16_SHORT (zlen u); F_DATA (Some u) (zlen u)] =
    auth_wire (auth_payload method random_data u)) as E.
  { pose proof (oblk_fmt _ _ [F_UI16_SHORT (zlen u); F_DATA (Some u) (zlen u)] Hr) as E1.
    rewrite (blk_fmt _ _ _ Ha) in E1. unfold fmt_bytes in E1 |- *.
    cbn [map concat fmt_bytes1] in E1 |- *. rewrite E1. unfold auth_wire.
    cbn [au_len au_method au_random_data au_auth_data auth_payload].
    rewrite !u16_id, app_nil_r by lia. done. }
  rewrite format_exact; [by rewrite E| |rewrite E; lia|unfold SILC_MAX_ALLOC; lia].
  repeat constructor; simpl; lia.
Qed.

(** ** The passphrase that is sent *)

(** A passphrase as UTF-8. *)
Definition pass_utf8 (s : list Z) : list Z := if silc_utf8_valid s then s else utf8_str s.

Lemma enc_str_ascii s : enc_str SILC_STRING_ASCII s = s.
Proof.
  induction s as [|c s IH]; [done|]. unfold enc_str in *. cbn [map concat enc_unit].
  by rewrite IH.
Qed.

Lemma byte_chars s : bytes_ok s -> Forall (enc_char SILC_STRING_ASCII) s.
Proof. apply Forall_impl. intros c Hc. apply Hc. Qed.

Lemma byte_chars_ok s : bytes_ok s -> Forall char_ok s.
Proof. apply Forall_impl. unfold is_byte, char_ok. lia. Qed.

Lemma utf8_encode_bytes s utf8 :
  s <> [] -> bytes_ok s -> zlen (utf8_str s) < 2 ^ 32 ->
  (forall n, utf8 = Some n -> zlen (utf8_str s) <= n) ->
  silc_utf8_encode s SILC_STRING_ASCII utf8 = (zlen (utf8_str s), stored utf8 (utf8_str s)).
Proof.
  intros Hne Hs Hl Hn. unfold silc_utf8_encode. destruct (Z.eqb_spec (zlen s) 0) as [E|].
  { by apply zlen_0_nil in E. }
  pose proof (encode_loop_str SILC_STRING_ASCII utf8 s 0 []) as H.
  rewrite enc_str_ascii in H. by apply H; [apply byte_chars| | |].
Qed.

Lemma auth_utf8_pass s :
  s <> [] -> bytes_ok s -> zlen (utf8_str s) < 65536 ->
  auth_utf8 SILC_AUTH_PASSWORD s = Some (pass_utf8 s).
Proof.
  intros Hne Hs Hl. unfold auth_utf8, pass_utf8. cbn [Z.eqb Pos.eqb SILC_AUTH_PASSWORD andb].
  destruct (silc_utf8_valid s); [done|]. cbn [negb]. unfold silc_utf8_encoded_len.
  rewrite utf8_encode_bytes by (done || lia). cbn [fst].
  pose proof (utf8_str_len s). destruct s as [|a s]; [done|]. rewrite length_cons in *.
  zcase; [lia|]. rewrite utf8_encode_bytes; [|done|done|lia|by intros ? [= <-]].
  rewrite u16_id by lia. by rewrite ztake_all.
Qed.

Lemma pass_utf8_len s : zlen (pass_utf8 s) <= zlen (utf8_str s).
Proof. unfold pass_utf8. pose proof (utf8_str_len s). destruct (silc_utf8_valid s); lia. Qed.

Lemma bytes_ok_utf8_str s : bytes_ok (utf8_str s).
Proof.
  unfold utf8_str. induction s as [|c s IH]; [by constructor|]. cbn [map concat].
  apply Forall_app. split; [apply bytes_ok_utf8_bytes|done].
Qed.

Lemma pass_utf8_ok s : bytes_ok s -> bytes_ok (pass_utf8 s).
Proof.
  intros. unfold pass_utf8. destruct (silc_utf8_valid s); [done|apply bytes_ok_utf8_str].
Qed.

(** What is sent is valid UTF-8. *)
Lemma pass_utf8_valid s :
  s <> [] -> bytes_ok s -> zlen (utf8_str s) < 65536 -> silc_utf8_valid (pass_utf8 s) = true.
Proof.
  intros Hne Hs Hl. unfold pass_utf8. destruct (silc_utf8_valid s) eqn:E; [done|].
  unfold silc_utf8_valid. pose proof (utf8_str_len s).
  rewrite utf8_valid_loop_str by (done || lia || by apply byte_chars_ok). cbn [fst].
  destruct s; [done|]. rewrite length_cons. lia.
Qed.

Lemma pass_payload_wf s :
  s <> [] -> bytes_ok s -> zlen (utf8_str s) < 65528 ->
  auth_wf (auth_payload SILC_AUTH_PASSWORD [] (pass_utf8 s)).
Proof.
  intros Hne Hs Hl. pose proof (pass_utf8_len s). pose proof (utf8_str_len s).
  assert (1 <= zlen (pass_utf8 s)).
  { unfold pass_utf8. destruct s; [done|]. destruct (silc_utf8_valid _);
      rewrite length_cons in *; lia. }
  unfold auth_wf, SILC_AUTH_PASSWORD, SILC_AUTH_PUBLIC_KEY.
  cbn [auth_payload au_len au_method au_random_len au_random_data au_auth_len au_auth_data
    length opt_bytes]. split_and!; try (done || lia); [by left|].
  split; [done|]. split; [lia|]. by apply pass_utf8_ok.
Qed.

Lemma auth_payload_roundtrip method random_data auth_data u :
  auth_utf8 method auth_data = Some u -> auth_wf (auth_payload method random_data u) ->
  exists b,
    silc_auth_payload_encode method (opt_bytes random_data) (zlen random_data) auth_data =
      Some b /\
    silc_auth_payload_parse (b_data b) = Some (auth_payload method random_data u).
Proof.
  intros Hu Hwf. eexists. split; [by apply auth_encode_spec|]. cbn [b_data silc_buffer_set].
  pose proof (auth_wire_len _ Hwf) as Hl. pose proof Hwf as (Hle & _).
  cbn [au_len au_random_len au_auth_len auth_payload] in *.
  apply (auth_parse_wire _ _ []); [unfold SILC_MAX_ALLOC; lia|done| |by rewrite app_nil_r].
  cbn [au_len auth_payload]. lia.
Qed.

Section verify.
Context `{PkcsOps}.

Lemma verify_password u q h id :
  1 <= zlen u ->
  silc_auth_verify (Some (auth_payload SILC_AUTH_PASSWORD [] u)) SILC_AUTH_PASSWORD
    (SecretPassphrase q) h id = bool_decide (u = q).
Proof.
  intros Hu. unfold silc_auth_verify.
  cbn [au_method au_auth_len au_auth_data auth_payload SILC_AUTH_PASSWORD SILC_AUTH_NONE
    Z.eqb Pos.eqb negb ptr_bytes].
  destruct (_ || _) eqn:E.
  - symmetry. apply bool_decide_eq_false_2. intros ->. lia.
  - rewrite mem_read_exact by lia. done.
Qed.

(** What is signed: the random data, the ID and the public key. *)
Lemma encode_data_some pub r id tmp :
  1 <= zlen r < 65536 ->
  silc_auth_public_key_encode_data pub (Some r) (zlen r) id = Some tmp ->
  silc_auth_public_key_encode_data pub (opt_bytes r) (zlen r) id = Some tmp.
Proof. intros Hr. destruct r; [simpl in Hr; lia|done]. Qed.
End verify.

(** * Key agreement *)

Definition ka_wire (p : SilcKeyAgreementPayload) : list Z :=
  blk_wire (ka_hostname p) ++ SILC_PUT16_MSB (ka_protocol p) ++ SILC_PUT16_MSB (ka_port p).

Definition ka_wf (p : SilcKeyAgreementPayload) : Prop :=
  oblk_wf (ka_hostname p) (ka_hostname_len p) /\
  0 <= ka_protocol p < 65536 /\ 0 <= ka_port p < 65536.

Definition ka_params : list UnformatParam :=
  [U_NSTRING_ALLOC W16 true true; U_UI16_SHORT true; U_UI16_SHORT true].

Lemma ka_params_plain : Forall unf_plain ka_params.
Proof. by repeat constructor. Qed.

Lemma ka_wire_len p : ka_wf p -> zlen (ka_wire p) = 6 + ka_hostname_len p.
Proof.
  intros (Hh & _). unfold ka_wire. rewrite !length_app, !length_PUT16_MSB.
  apply oblk_wire_len in Hh. lia.
Qed.

Lemma ka_parse_wire p rest :
  zlen (ka_wire p ++ rest) < SILC_MAX_ALLOC -> ka_wf p ->
  silc_key_agreement_payload_parse (ka_wire p ++ rest) = Some p.
Proof.
  intros Hm Hwf. pose proof (ka_wire_len p Hwf) as Hl. rewrite length_app in Hm.
  destruct Hwf as (Hh & Hp & Hq). unfold silc_key_agreement_payload_parse. fold ka_params.
  destruct (oblk_wf_len _ _ Hh) as [_ ?].
  assert (zlen (ka_wire p ++ rest) < SILC_MAX_ALLOC) as Hm' by (rewrite length_app; lia).
  rewrite (unformat_some _ ka_params
    [ONum (ka_hostname_len p); OPtr (ka_hostname p); ONum (ka_protocol p); ONum (ka_port p)]
    rest (buffer_set_ok _ Hm') ka_params_plain).
  2: { cbn [b_data silc_buffer_set]. unfold ka_wire, ka_params.
       rewrite <- !app_assoc, (oblk_parse _ _ _ _ Hh), !parse_U16, !u16_id by lia. done. }
  cbn [b_data silc_buffer_set out_num out_ptr nth_error].
  change {| b_head := []; b_data := ka_wire p ++ rest; b_tail := [] |}
    with (silc_buffer_set (ka_wire p ++ rest)).
  rewrite buffer_set_len, length_app, u32_id
    by (done || rewrite ?length_app; unfold SILC_MAX_ALLOC in *; lia).
  if_head. by destruct p.
Qed.

(** The Key Agreement Payload is read back. *)
Lemma silc_key_agreement_payload_parse_encode (hostname : list Z) protocol port :
  bytes_ok hostname -> 1 <= zlen hostname < 65536 -> 0 <= protocol < 65536 ->
  0 <= port < 65536 ->
  exists b, silc_key_agreement_payload_encode (Some hostname) protocol port = Some b /\
    silc_key_agreement_payload_parse (b_data b) =
    Some {| ka_hostname_len := zlen hostname; ka_hostname := Some hostname;
            ka_protocol := protocol; ka_port := port |}.
Proof.
  intros Hb Hl Hp Hq. set (p := {| ka_hostname_len := zlen hostname |}).
  assert (blk_wf (Some hostname) (zlen hostname)) as Hh by done.
  assert (ka_wf p) as Hwf by (split; [by right|done]).
  pose proof (ka_wire_len p Hwf) as Hw. cbn [ka_hostname_len p] in Hw.
  exists (silc_buffer_set (ka_wire p)). split.
  - unfold silc_key_agreement_payload_encode. cbv zeta.
    rewrite (u32_id (zlen hostname)), (u32_id (2 + _ + _)) by lia.
    rewrite buffer_alloc_size_ok by (unfold SILC_MAX_ALLOC; lia).
    assert (fmt_bytes [F_UI16_SHORT (zlen hostname); F_DATA (Some hostname) (zlen hostname);
      F_UI16_SHORT protocol; F_UI16_SHORT port] = ka_wire p) as E.
    { rewrite (blk_fmt _ _ _ Hh). unfold fmt_bytes, ka_wire. cbn [map concat fmt_bytes1].
      rewrite !u16_id, app_nil_r by lia. done. }
    rewrite format_exact; [by rewrite E| |rewrite E; lia|unfold SILC_MAX_ALLOC; lia].
    repeat constructor; simpl; lia.
  - cbn [b_data silc_buffer_set]. rewrite <- (app_nil_r (ka_wire p)).
    apply ka_parse_wire; [rewrite app_nil_r; unfold SILC_MAX_ALLOC; lia|done].
Qed.

(** * Properties *)

(** silc_auth_payload_parse accepts exactly the bytes whose length field is
    their length and that start with well-formed fields: non-empty
    authentication data, no random data with a passphrase and at least 128
    bytes of it with a public key; it returns these fields. *)
Theorem silc_auth_payload_parse_iff data p :
  bytes_ok data -> zlen data < SILC_MAX_ALLOC ->
  silc_auth_payload_parse data = Some p <->
  auth_wf p /\ au_len p = zlen data /\ exists rest, data = auth_wire p ++ rest.
Proof.
  intros Hb Hm. split; [by apply auth_parse_some|].
  intros (Hwf & Hl & rest & Hd). by eapply auth_parse_wire.
Qed.

Lemma silc_auth_payload_parse_iff_witness :
  auth_wf (auth_payload SILC_AUTH_PASSWORD [] [97; 98]).
Proof.
  apply (silc_auth_payload_parse_iff [0; 10; 0; 1; 0; 0; 0; 2; 97; 98]).
  - apply bytes_ok_check. reflexivity.
  - reflexivity.
  - vm_compute. reflexivity.
Defined.

(** Passphrase authentication: for every non-empty passphrase the payload is
    made, what it carries is valid UTF-8 (the passphrase itself when it is, its
    bytes taken as characters otherwise), and silc_auth_verify_data accepts the
    payload exactly with that UTF-8 passphrase. *)
Theorem silc_auth_password_verify `{PkcsOps} (s : list Z) (h : SilcHash) (id : SilcID) :
  s <> [] -> bytes_ok s -> zlen (utf8_str s) < 65528 ->
  silc_utf8_valid (pass_utf8 s) = true /\
  exists b, silc_auth_payload_encode SILC_AUTH_PASSWORD None 0 s = Some b /\
    forall q, silc_auth_verify_data (b_data b) SILC_AUTH_PASSWORD (SecretPassphrase q) h id
              = true <-> q = pass_utf8 s.
Proof.
  intros Hne Hs Hl. split; [apply pass_utf8_valid; done || lia|].
  pose proof (pass_payload_wf s Hne Hs Hl) as Hwf.
  destruct (auth_payload_roundtrip SILC_AUTH_PASSWORD [] s (pass_utf8 s)) as (b & He & Hp);
    [apply auth_utf8_pass; done || lia|done|].
  exists b. split; [exact He|]. intros q. unfold silc_auth_verify_data. rewrite Hp.
  destruct Hwf as (_ & _ & _ & Ha & _). apply blk_wf_len in Ha as [_ Ha].
  cbn [au_auth_len auth_payload] in *. zcase; [lia|]. rewrite verify_password by lia.
  rewrite bool_decide_eq_true. split; congruence.
Qed.

(** C38. Public key authentication: when silc_auth_public_key_auth_generate_wpub
    makes a payload with the private key of a pair, at least 128 bytes of
    public data and room for the lengths, silc_auth_verify_data accepts it
    with the public key and the same ID. *)
Theorem silc_auth_public_key_verify `{PkcsLaws} pub prv (pubdata : list Z) h id tmp sig :
  key_pair pub prv -> bytes_ok pubdata -> 128 <= zlen pubdata ->
  silc_auth_public_key_encode_data pub (Some pubdata) (zlen pubdata) id = Some tmp ->
  silc_pkcs_sign prv tmp 65536 h = Some sig -> 8 + zlen pubdata + zlen sig < 65536 ->
  exists b, silc_auth_public_key_auth_generate_wpub pub prv pubdata h id = Some b /\
    silc_auth_verify_data (b_data b) SILC_AUTH_PUBLIC_KEY (SecretPublicKey pub) h id = true.
Proof.
  intros Hk Hb Hl Ht Hs Hsz. destruct (pkcs_sign_bytes _ _ _ _ _ Hs) as [Hsb Hsl].
  assert (opt_bytes pubdata = Some pubdata) as Eo by (destruct pubdata; [simpl in Hl; lia|done]).
  assert (auth_wf (auth_payload SILC_AUTH_PUBLIC_KEY pubdata sig)) as Hwf.
  { unfold auth_wf, SILC_AUTH_PASSWORD, SILC_AUTH_PUBLIC_KEY.
    cbn [auth_payload au_len au_method au_random_len au_random_data au_auth_len au_auth_data].
    split_and!; try lia; [by apply oblk_wf_opt; [|lia]|]. split; [done|]. split; [lia|done]. }
  destruct (auth_payload_roundtrip SILC_AUTH_PUBLIC_KEY pubdata sig sig eq_refl Hwf)
    as (b & He & Hp). rewrite Eo in He.
  exists b. split.
  - unfold silc_auth_public_key_auth_generate_wpub. rewrite Ht, Hs, !u16_id, ztake_all by lia.
    done.
  - unfold silc_auth_verify_data. rewrite Hp. cbn [au_auth_len auth_payload]. zcase; [lia|].
    unfold silc_auth_verify.
    cbn [au_method auth_payload SILC_AUTH_PUBLIC_KEY SILC_AUTH_NONE SILC_AUTH_PASSWORD
      Z.eqb Pos.eqb negb].
    unfold silc_auth_public_key_auth_verify.
    cbn [au_random_data au_random_len au_auth_data au_auth_len auth_payload ptr_bytes].
    rewrite Eo, Ht, mem_read_exact by done. eapply pkcs_verify_sign; [exact Hk|exact Hs].
Qed.

(** A signature scheme: a key is a byte, and the signature its value and the
    number of bytes signed. *)
#[local] Instance toy_pkcs : PkcsOps := {|
  SilcPublicKey := Z; SilcPrivateKey := Z; SilcHash := unit;
  silc_pkcs_public_key_encode k := Some [u8 k];
  silc_pkcs_sign k d n h := if n <? 2 then None else Some [u8 k; u8 (zlen d)];
  silc_pkcs_verify k sig d h := bool_decide (sig = [u8 k; u8 (zlen d)]) |}.

#[local] Instance toy_pkcs_laws : PkcsLaws toy_pkcs.
Proof.
  exists (fun pub prv : Z => pub = prv).
  - intros prv d n h sig. simpl. zcase; [done|]. intros [= <-]. split; [|simpl; lia].
    repeat apply Forall_cons_2; try apply Forall_nil_2; unfold is_byte; apply u8_range.
  - intros pub prv d n h sig ->. simpl. zcase; [done|]. intros [= <-].
    by apply bool_decide_eq_true_2.
Defined.

Definition witness_pubdata : list Z := zrepeat 7 128.
Definition witness_channel_id : SilcID :=
  IdChannel {| chid_ip := {| ip_data := [127; 0; 0; 1]; ip_data_len := 4 |};
               chid_port := 706; chid_rnd := 4660 |}.

Lemma silc_auth_password_verify_witness :
  exists b, silc_auth_payload_encode SILC_AUTH_PASSWORD None 0 [228] = Some b /\
    b_data b = [0; 10; 0; 1; 0; 0; 0; 2; 195; 164] /\
    silc_auth_verify_data (b_data b) SILC_AUTH_PASSWORD (SecretPassphrase [195; 164]) tt
      witness_channel_id = true.
Proof.
  destruct (silc_auth_password_verify (H := toy_pkcs) [228] tt witness_channel_id ltac:(done)
    ltac:(by apply bytes_ok_check) ltac:(done)) as (_ & b & He & Hv).
  exists b. split; [exact He|]. split.
  - vm_compute in He. injection He as <-. reflexivity.
  - apply Hv. vm_compute. reflexivity.
Defined.

Lemma silc_auth_public_key_verify_witness :
  exists b, silc_auth_public_key_auth_generate_wpub (H := toy_pkcs) 5 5 witness_pubdata tt
              witness_channel_id = Some b /\
    silc_auth_verify_data (b_data b) SILC_AUTH_PUBLIC_KEY (SecretPublicKey 5) tt
      witness_channel_id = true.
Proof.
  apply (silc_auth_public_key_verify (H := toy_pkcs) 5 5 witness_pubdata tt witness_channel_id
    (witness_pubdata ++ [127; 0; 0; 1; 2; 194; 18; 52; 5]) [5; 137]).
  - exact (eq_refl 5).
  - apply bytes_ok_check. reflexivity.
  - by vm_compute.
  - vm_compute. reflexivity.
  - vm_compute. reflexivity.
  - by vm_compute.
Defined.
