(* ===== verification/Cipher.v ===== *)
(** lib/silccrypt/silccipher.c and the modes of lib/silccrypt/aes.c: ciphers as
    the rest of the library sees them, and AES in CBC and CTR mode over an
    abstract block function.

    [CipherAlg] is the function table SilcCipherObject; [CipherLaws] is what the
    packet engine relies on: decryption inverts encryption, also when the first
    block is decrypted on its own.  CBC and CTR mode are instances, for any
    block function that [BlockLaws] holds of. *)

From S2P Require Import Prelude CTypes.

Definition SILC_CIPHER_MAX_IV_SIZE : Z := 16.
Definition SILC_CIPHER_MODE_CBC : Z := 2.
Definition SILC_CIPHER_MODE_CTR : Z := 3.

(** * The interface *)

(** encrypt and decrypt take the source and the IV, and give the destination
    and the IV they leave, or fail. *)
Class CipherAlg := {
  cipher_context : Type;
  alg_set_iv : cipher_context -> option (list Z) -> cipher_context;
  alg_encrypt : cipher_context -> list Z -> list Z -> option (list Z * list Z * cipher_context);
  alg_decrypt : cipher_context -> list Z -> list Z -> option (list Z * list Z * cipher_context);
  alg_block_len : Z;
  alg_iv_len : Z;
  alg_mode : Z;
}.

Section cipher.
Context `{CipherAlg}.

Record SilcCipher := { c_context : cipher_context; c_iv : list Z }.

Definition silc_cipher_encrypt (cipher : SilcCipher) (src : list Z) (iv : option (list Z))
  : option (list Z * option (list Z) * SilcCipher) :=
  match iv with
  | Some iv =>
      match alg_encrypt (c_context cipher) src iv with
      | Some (dst, iv, ctx) => Some (dst, Some iv, {| c_context := ctx; c_iv := c_iv cipher |})
      | None => None
      end
  | None =>
      match alg_encrypt (c_context cipher) src (c_iv cipher) with
      | Some (dst, iv, ctx) => Some (dst, None, {| c_context := ctx; c_iv := iv |})
      | None => None
      end
  end.

Definition silc_cipher_decrypt (cipher : SilcCipher) (src : list Z) (iv : option (list Z))
  : option (list Z * option (list Z) * SilcCipher) :=
  match iv with
  | Some iv =>
      match alg_decrypt (c_context cipher) src iv with
      | Some (dst, iv, ctx) => Some (dst, Some iv, {| c_context := ctx; c_iv := c_iv cipher |})
      | None => None
      end
  | None =>
      match alg_decrypt (c_context cipher) src (c_iv cipher) with
      | Some (dst, iv, ctx) => Some (dst, None, {| c_context := ctx; c_iv := iv |})
      | None => None
      end
  end.

Definition silc_cipher_set_iv (cipher : SilcCipher) (iv : option (list Z)) : SilcCipher :=
  {| c_context := alg_set_iv (c_context cipher) iv;
     c_iv := match iv with
             | Some iv => mem_read iv alg_iv_len ++ zdrop alg_iv_len (c_iv cipher)
             | None => c_iv cipher
             end |}.

Definition silc_cipher_get_iv (cipher : SilcCipher) : list Z := c_iv cipher.

(** A store through the pointer silc_cipher_get_iv gives. *)
Definition cipher_put_iv (cipher : SilcCipher) (iv : list Z) : SilcCipher :=
  {| c_context := c_context cipher; c_iv := iv |}.

Definition silc_cipher_get_block_len (cipher : SilcCipher) : Z := alg_block_len.
Definition silc_cipher_get_iv_len (cipher : SilcCipher) : Z := alg_iv_len.
Definition silc_cipher_get_mode (cipher : SilcCipher) : Z := alg_mode.
End cipher.

(** What a context does is decided by its key once silc_cipher_set_iv has
    started a new block, which the packet engine does for CTR mode only. *)
Definition alg_start `{CipherAlg} (ctx : cipher_context) : cipher_context :=
  if alg_mode =? SILC_CIPHER_MODE_CTR then alg_set_iv ctx None else ctx.

(** A length the mode can process. *)
Definition alg_whole `{CipherAlg} (n : Z) : Prop :=
  alg_mode = SILC_CIPHER_MODE_CTR \/ n mod 16 = 0.

Class CipherLaws `(CipherAlg) := {
  alg_peer : cipher_context -> cipher_context -> Prop;
  alg_block_len_16 : alg_block_len = 16;
  alg_iv_len_16 : alg_iv_len = 16;
  (** decryption inverts encryption and leaves the same IV *)
  alg_dec_enc e d x iv :
    alg_peer e d -> bytes_ok x -> bytes_ok iv -> zlen iv = 16 -> alg_whole (zlen x) ->
    exists y iv' e' d',
      alg_encrypt (alg_set_iv e None) x iv = Some (y, iv', e') /\
      alg_decrypt (alg_start d) y iv = Some (x, iv', d') /\
      zlen y = zlen x /\ bytes_ok y /\ bytes_ok iv' /\ zlen iv' = 16 /\
      alg_peer e' d';
  (** decryption does not change the key *)
  alg_dec_peer e d y iv x iv' d' :
    alg_peer e d -> alg_decrypt (alg_start d) y iv = Some (x, iv', d') -> alg_peer e d';
  (** the first block may be decrypted first *)
  alg_dec_split d y x iv iv2 d2 :
    bytes_ok y -> bytes_ok iv -> zlen iv = 16 -> 16 <= zlen y ->
    alg_decrypt (alg_start d) y iv = Some (x, iv2, d2) ->
    exists iv1 d1 d2',
      alg_decrypt (alg_start d) (ztake 16 y) iv = Some (ztake 16 x, iv1, d1) /\
      zlen iv1 = 16 /\ bytes_ok iv1 /\
      alg_decrypt (alg_set_iv d1 (Some iv1)) (zdrop 16 y) iv1 = Some (zdrop 16 x, iv2, d2') /\
      forall e, alg_peer e d2 -> alg_peer e d2';
}.

(** * The modes of aes.c *)

(** aes_encrypt and aes_decrypt on a block of 16 bytes, with the key schedule
    of a context. *)
Class BlockCipher := {
  block_key : Type;
  aes_encrypt : block_key -> list Z -> list Z;
  aes_decrypt : block_key -> list Z -> list Z;
}.

Definition is_block (b : list Z) : Prop := zlen b = 16 /\ bytes_ok b.

Class BlockLaws `(BlockCipher) := {
  aes_encrypt_block k b : is_block b -> is_block (aes_encrypt k b);
  aes_decrypt_encrypt k b : is_block b -> aes_decrypt k (aes_encrypt k b) = b;
}.

(** The four words of a block, xored with those of another one. *)
Definition xor_block (a b : list Z) : list Z :=
  SILC_PUT32_MSB (Z.lxor (SILC_GET32_MSB a) (SILC_GET32_MSB b)) ++
  SILC_PUT32_MSB (Z.lxor (SILC_GET32_MSB (zdrop 4 a)) (SILC_GET32_MSB (zdrop 4 b))) ++
  SILC_PUT32_MSB (Z.lxor (SILC_GET32_MSB (zdrop 8 a)) (SILC_GET32_MSB (zdrop 8 b))) ++
  SILC_PUT32_MSB (Z.lxor (SILC_GET32_MSB (zdrop 12 a)) (SILC_GET32_MSB (zdrop 12 b))).

Section modes.
Context `{BlockCipher}.

(** ** CBC *)

(** [while (nb--)] *)
Fixpoint cbc_encrypt_loop (k : block_key) (nb : nat) (src iv : list Z) : list Z * list Z :=
  match nb with
  | O => ([], iv)
  | S nb =>
      let iv := aes_encrypt k (xor_block iv (ztake 16 src)) in
      let '(dst, iv2) := cbc_encrypt_loop k nb (zdrop 16 src) iv in
      (iv ++ dst, iv2)
  end.

Fixpoint cbc_decrypt_loop (k : block_key) (nb : nat) (src iv : list Z) : list Z * list Z :=
  match nb with
  | O => ([], iv)
  | S nb =>
      let tmp := ztake 16 src in
      let b := xor_block (aes_decrypt k tmp) iv in
      let '(dst, iv2) := cbc_decrypt_loop k nb (zdrop 16 src) tmp in
      (b ++ dst, iv2)
  end.

Definition silc_aes_cbc_encrypt (ctx : block_key) (src iv : list Z)
  : option (list Z * list Z * block_key) :=
  if negb (Z.land (zlen src) 15 =? 0) then None
  else
    let '(dst, iv) := cbc_encrypt_loop ctx (Z.to_nat (Z.shiftr (zlen src) 4)) src iv in
    Some (dst, iv, ctx).

Definition silc_aes_cbc_decrypt (ctx : block_key) (src iv : list Z)
  : option (list Z * list Z * block_key) :=
  if negb (Z.land (zlen src) 15 =? 0) then None
  else
    let '(dst, iv) := cbc_decrypt_loop ctx (Z.to_nat (Z.shiftr (zlen src) 4)) src iv in
    Some (dst, iv, ctx).

Definition silc_aes_cbc_set_iv (ctx : block_key) (iv : option (list Z)) : block_key := ctx.

(** ** CTR *)

(** [inf.b[2]], the number of bytes of [pad] used. *)
Record CtrContext := { ctr_key : block_key; ctr_used : Z; ctr_pad : list Z }.

(** [for (k = 15; k >= 0; k--) if (++iv[k]) break;], from the last byte. *)
Fixpoint ctr_incr_rev (iv : list Z) : list Z :=
  match iv with
  | [] => []
  | b :: iv => if u8 (b + 1) =? 0 then 0 :: ctr_incr_rev iv else u8 (b + 1) :: iv
  end.

Definition ctr_incr (iv : list Z) : list Z := rev (ctr_incr_rev (rev iv)).

Fixpoint ctr_loop (k : block_key) (src iv pad : list Z) (i : Z) : list Z * list Z * list Z * Z :=
  match src with
  | [] => ([], iv, pad, i)
  | x :: src =>
      if i =? 16 then
        let iv := ctr_incr iv in
        let pad := aes_encrypt k iv in
        let '(dst, iv2, pad2, i2) := ctr_loop k src iv pad 1 in
        (Z.lxor x (byte_at pad 0) :: dst, iv2, pad2, i2)
      else
        let '(dst, iv2, pad2, i2) := ctr_loop k src iv pad (i + 1) in
        (Z.lxor x (byte_at pad i) :: dst, iv2, pad2, i2)
  end.

Definition silc_aes_ctr_encrypt (ctx : CtrContext) (src iv : list Z)
  : option (list Z * list Z * CtrContext) :=
  let i := if ctr_used ctx =? 0 then 16 else ctr_used ctx in
  let '(dst, iv, pad, i) := ctr_loop (ctr_key ctx) src iv (ctr_pad ctx) i in
  Some (dst, iv, {| ctr_key := ctr_key ctx; ctr_used := i; ctr_pad := pad |}).

Definition silc_aes_ctr_decrypt (ctx : CtrContext) (src iv : list Z)
  : option (list Z * list Z * CtrContext) := silc_aes_ctr_encrypt ctx src iv.

Definition silc_aes_ctr_set_iv (ctx : CtrContext) (iv : option (list Z)) : CtrContext :=
  {| ctr_key := ctr_key ctx; ctr_used := 0; ctr_pad := ctr_pad ctx |}.

(** The entries of silc_default_ciphers. *)
Definition aes_cbc : CipherAlg := {|
  alg_set_iv := silc_aes_cbc_set_iv; alg_encrypt := silc_aes_cbc_encrypt;
  alg_decrypt := silc_aes_cbc_decrypt; alg_block_len := 16; alg_iv_len := 16;
  alg_mode := SILC_CIPHER_MODE_CBC |}.

Definition aes_ctr : CipherAlg := {|
  alg_set_iv := silc_aes_ctr_set_iv; alg_encrypt := silc_aes_ctr_encrypt;
  alg_decrypt := silc_aes_ctr_decrypt; alg_block_len := 16; alg_iv_len := 16;
  alg_mode := SILC_CIPHER_MODE_CTR |}.
End modes.

(** * Words *)

Lemma lxor_range n a b : 0 <= n -> 0 <= a < 2 ^ n -> 0 <= b < 2 ^ n -> 0 <= Z.lxor a b < 2 ^ n.
Proof.
  intros Hn Ha Hb. replace (Z.lxor a b) with (Z.lxor a b mod 2 ^ n).
  { apply Z.mod_pos_bound. lia. }
  apply Z.bits_inj'. intros i Hi. destruct (Z.ltb_spec i n).
  - by rewrite Z.mod_pow2_bits_low.
  - rewrite Z.mod_pow2_bits_high by lia. rewrite Z.lxor_spec.
    rewrite <- (Z.mod_small a (2 ^ n)), <- (Z.mod_small b (2 ^ n)) by lia.
    by rewrite !Z.mod_pow2_bits_high by lia.
Qed.

Definition is_word (w : Z) : Prop := 0 <= w < 2 ^ 32.

Definition of_words (a b c d : Z) : list Z :=
  SILC_PUT32_MSB a ++ SILC_PUT32_MSB b ++ SILC_PUT32_MSB c ++ SILC_PUT32_MSB d.

Lemma of_words_block a b c d : is_block (of_words a b c d).
Proof.
  split; [done|]. unfold of_words. repeat (apply Forall_app; split); auto with silc.
Qed.

Lemma word_bytes a b c d :
  is_byte a -> is_byte b -> is_byte c -> is_byte d ->
  exists w, is_word w /\ [a; b; c; d] = SILC_PUT32_MSB w.
Proof.
  intros Ha Hb Hc Hd. assert (bytes_ok [a; b; c; d]) as H
    by (repeat apply Forall_cons_2; done || apply Forall_nil_2).
  exists (be_decode [a; b; c; d]). split.
  - apply (be_decode_range _ H).
  - rewrite SILC_PUT32_MSB_be. symmetry. apply (be_encode_decode _ H).
Qed.

Lemma block_words x :
  is_block x -> exists a b c d, is_word a /\ is_word b /\ is_word c /\ is_word d /\
    x = of_words a b c d.
Proof.
  intros [Hl Hb].
  do 16 (destruct x as [|? x]; [exfalso; cbn [length] in Hl; lia|];
         apply Forall_cons_iff in Hb as [? Hb]).
  destruct x; [|exfalso; cbn [length] in Hl; lia]. unfold of_words.
  destruct (word_bytes z z0 z1 z2) as (a & ? & E0); [done..|].
  destruct (word_bytes z3 z4 z5 z6) as (b & ? & E1); [done..|].
  destruct (word_bytes z7 z8 z9 z10) as (c & ? & E2); [done..|].
  destruct (word_bytes z11 z12 z13 z14) as (d & ? & E3); [done..|].
  exists a, b, c, d. rewrite <- E0, <- E1, <- E2, <- E3. done.
Qed.

Lemma of_words_get a b c d :
  is_word a -> is_word b -> is_word c -> is_word d ->
  SILC_GET32_MSB (of_words a b c d) = a /\
  SILC_GET32_MSB (zdrop 4 (of_words a b c d)) = b /\
  SILC_GET32_MSB (zdrop 8 (of_words a b c d)) = c /\
  SILC_GET32_MSB (zdrop 12 (of_words a b c d)) = d.
Proof.
  intros Ha Hb Hc Hd. unfold of_words.
  assert (forall x (l : list Z), zdrop 4 (SILC_PUT32_MSB x ++ l) = l) as D
    by (intros; by apply zdrop_app_exact).
  rewrite <- (zdrop_zdrop 4 8), <- (zdrop_zdrop 4 4) by lia. rewrite !D.
  rewrite <- (app_nil_r (SILC_PUT32_MSB d)).
  rewrite !SILC_GET32_PUT32_MSB. unfold is_word in *. by rewrite !u32_id by lia.
Qed.

Lemma xor_block_words a b c d a' b' c' d' :
  is_word a -> is_word b -> is_word c -> is_word d ->
  is_word a' -> is_word b' -> is_word c' -> is_word d' ->
  xor_block (of_words a b c d) (of_words a' b' c' d') =
  of_words (Z.lxor a a') (Z.lxor b b') (Z.lxor c c') (Z.lxor d d').
Proof.
  intros. unfold xor_block.
  destruct (of_words_get a b c d) as (-> & -> & -> & ->); [done..|].
  destruct (of_words_get a' b' c' d') as (-> & -> & -> & ->); done.
Qed.

Lemma xor_block_block a b : is_block a -> is_block b -> is_block (xor_block a b).
Proof.
  intros (x & y & z & w & ? & ? & ? & ? & ->)%block_words
    (x' & y' & z' & w' & ? & ? & ? & ? & ->)%block_words.
  rewrite xor_block_words by done. apply of_words_block.
Qed.

(** What CBC xors in, it xors out. *)
Lemma xor_block_cancel a b : is_block a -> is_block b -> xor_block (xor_block a b) a = b.
Proof.
  intros (x & y & z & w & ? & ? & ? & ? & ->)%block_words
    (x' & y' & z' & w' & ? & ? & ? & ? & ->)%block_words.
  assert (forall p q, is_word p -> is_word q -> is_word (Z.lxor p q)) as X
    by (intros; by apply lxor_range).
  assert (forall p q, Z.lxor (Z.lxor p q) p = q) as C.
  { intros. by rewrite (Z.lxor_comm p q), Z.lxor_assoc, Z.lxor_nilpotent, Z.lxor_0_r. }
  rewrite !xor_block_words by auto. by rewrite !C.
Qed.

(** * CBC is a cipher *)

Lemma zlen_xor_block a b : zlen (xor_block a b) = 16.
Proof. done. Qed.

Lemma bytes_ok_cut n (l : list Z) : bytes_ok l -> bytes_ok (ztake n l) /\ bytes_ok (zdrop n l).
Proof. intros H. rewrite <- Forall_app. by rewrite ztake_zdrop. Qed.

Lemma land_15 n : 0 <= n -> (Z.land n 15 =? 0) = (n mod 16 =? 0).
Proof. intros. change 15 with (Z.ones 4). by rewrite (Z.land_ones n 4). Qed.

Lemma whole_rounds n : 0 <= n -> n mod 16 = 0 -> n = 16 * Z.of_nat (Z.to_nat (Z.shiftr n 4)).
Proof.
  intros Hn Hm. rewrite Z.shiftr_div_pow2 by lia. change (2 ^ 4) with 16.
  rewrite Z2Nat.id by (apply Z.div_pos; lia). pose proof (Z.div_mod n 16). lia.
Qed.

Section cbc.
Context `{BlockLaws}.

Lemma cbc_decrypt_encrypt_loop k nb x iv :
  zlen x = 16 * Z.of_nat nb -> bytes_ok x -> is_block iv ->
  let '(y, iv') := cbc_encrypt_loop k nb x iv in
  zlen y = zlen x /\ bytes_ok y /\ is_block iv' /\ cbc_decrypt_loop k nb y iv = (x, iv').
Proof.
  revert x iv; induction nb as [|nb IH]; intros x iv Hl Hb Hiv.
  - cbn. rewrite (zlen_0_nil x) by lia. split_and!; done.
  - destruct (zsplit 16 x) as (b & x' & -> & Hb16); [lia|]. rewrite length_app in Hl.
    apply Forall_app in Hb as [Hbb Hx']. cbn [cbc_encrypt_loop].
    rewrite ztake_app_exact, zdrop_app_exact by lia.
    assert (is_block b) as Hbk by done.
    pose proof (aes_encrypt_block k _ (xor_block_block iv b Hiv Hbk)) as [He Heb].
    set (c := aes_encrypt k (xor_block iv b)) in *.
    specialize (IH x' c ltac:(lia) Hx' (conj He Heb)).
    destruct (cbc_encrypt_loop k nb x' c) as [y iv'] eqn:E. destruct IH as (Hy & Hyb & Hv & Hd).
    rewrite !length_app. split_and!; try lia; try done; [by apply Forall_app|].
    cbn [cbc_decrypt_loop]. rewrite ztake_app_exact, zdrop_app_exact by lia. rewrite Hd.
    unfold c. rewrite aes_decrypt_encrypt by (by apply xor_block_block).
    by rewrite xor_block_cancel.
Qed.

Lemma aes_cbc_dec_enc k x iv :
  bytes_ok x -> is_block iv -> zlen x mod 16 = 0 ->
  exists y iv', silc_aes_cbc_encrypt k x iv = Some (y, iv', k) /\
    silc_aes_cbc_decrypt k y iv = Some (x, iv', k) /\
    zlen y = zlen x /\ bytes_ok y /\ is_block iv'.
Proof.
  intros Hb Hiv Hm. unfold silc_aes_cbc_encrypt, silc_aes_cbc_decrypt.
  pose proof (cbc_decrypt_encrypt_loop k (Z.to_nat (Z.shiftr (zlen x) 4)) x iv) as L.
  destruct (cbc_encrypt_loop _ _ _ _) as [y iv'].
  destruct L as (Hl & Hy & Hv & Hd); [apply whole_rounds; lia|done..|].
  exists y, iv'. rewrite !land_15, Hl by lia. destruct (Z.eqb_spec (zlen x mod 16) 0); [|done].
  cbn [negb]. by rewrite Hd.
Qed.

Lemma aes_cbc_dec_split k y x iv iv2 k2 :
  bytes_ok y -> is_block iv -> 16 <= zlen y ->
  silc_aes_cbc_decrypt k y iv = Some (x, iv2, k2) ->
  exists iv1,
    silc_aes_cbc_decrypt k (ztake 16 y) iv = Some (ztake 16 x, iv1, k) /\ is_block iv1 /\
    silc_aes_cbc_decrypt k (zdrop 16 y) iv1 = Some (zdrop 16 x, iv2, k2).
Proof.
  intros Hy Hiv Hl. unfold silc_aes_cbc_decrypt. rewrite zlen_ztake, zlen_zdrop by lia.
  rewrite !land_15 by lia. destruct (Z.eqb_spec (zlen y mod 16) 0) as [Hm|]; [|done]. cbn [negb].
  pose proof (whole_rounds (zlen y) ltac:(lia) Hm) as Hr.
  pose proof (whole_rounds (zlen y - 16) ltac:(lia) ltac:(rewrite Zminus_mod, Hm; done)) as Hr'.
  destruct (Z.eqb_spec ((zlen y - 16) mod 16) 0) as [|n];
    [|destruct n; rewrite Zminus_mod, Hm; done]. cbn [negb].
  replace (Z.to_nat (Z.shiftr (zlen y) 4)) with (S (Z.to_nat (Z.shiftr (zlen y - 16) 4))) by lia.
  change (16 mod 16 =? 0) with true. cbn [negb].
  change (Z.to_nat (Z.shiftr 16 4)) with 1%nat. cbn [cbc_decrypt_loop].
  remember (xor_block (aes_decrypt k (ztake 16 y)) iv) as b eqn:Eb.
  assert (zlen b = 16) as Lb by (rewrite Eb; apply zlen_xor_block). destruct (cbc_decrypt_loop k _ (zdrop 16 y) _) as [x' iv'] eqn:E.
  intros [= <- <- <-]. exists (ztake 16 y).
  assert (ztake 16 (ztake 16 y) = ztake 16 y) as E1 by (apply ztake_all; rewrite zlen_ztake; lia).
  rewrite E1, <- Eb, E, ztake_app_exact, zdrop_app_exact by done.
  rewrite app_nil_r. split; [done|]. split; [|done].
  split; [apply zlen_ztake; lia|by apply bytes_ok_cut].
Qed.

#[export] Instance aes_cbc_laws : CipherLaws aes_cbc.
Proof.
  exists (fun e d : block_key => e = d); try done.
  - intros e d x iv <- Hx Hiv Hl [Hw|Hm]; [done|].
    destruct (aes_cbc_dec_enc e x iv Hx (conj Hl Hiv) Hm) as (y & iv' & He & Hd & ? & ? & ? & ?).
    by exists y, iv', e, e.
  - intros e d y iv x iv' d' -> Hd. cbn in Hd. unfold silc_aes_cbc_decrypt in Hd.
    destruct (negb _); [done|]. destruct (cbc_decrypt_loop _ _ _ _). by injection Hd.
  - intros d y x iv iv2 d2 Hy Hiv Hl Hn Hd.
    destruct (aes_cbc_dec_split d y x iv iv2 d2 Hy (conj Hl Hiv) Hn Hd)
      as (iv1 & H1 & [? ?] & H2).
    by exists iv1, d, d2.
Defined.
End cbc.

(** * CTR is a cipher *)

Section ctr.
Context `{BlockLaws}.

Lemma length_ctr_incr iv : length (ctr_incr iv) = length iv.
Proof.
  unfold ctr_incr. rewrite length_rev. rewrite <- (length_rev iv).
  induction (rev iv) as [|b l IH]; [done|]. cbn [ctr_incr_rev].
  destruct (u8 (b + 1) =? 0); cbn [length]; lia.
Qed.

Lemma bytes_ok_rev (l : list Z) : bytes_ok l -> bytes_ok (rev l).
Proof. apply List.Forall_rev. Qed.

Lemma bytes_ok_ctr_incr iv : bytes_ok iv -> bytes_ok (ctr_incr iv).
Proof.
  intros Hb. unfold ctr_incr. apply bytes_ok_rev. apply bytes_ok_rev in Hb.
  induction (rev iv) as [|b l IH]; [done|]. apply Forall_cons_iff in Hb as [? Hl].
  cbn [ctr_incr_rev]. destruct (u8 (b + 1) =? 0); apply Forall_cons_2;
    try done; try (unfold is_byte; lia); [by apply IH|unfold is_byte; apply u8_range].
Qed.

Lemma ctr_incr_block iv : is_block iv -> is_block (ctr_incr iv).
Proof. intros [? ?]. split; [by rewrite length_ctr_incr|by apply bytes_ok_ctr_incr]. Qed.

Lemma lxor_byte a b : is_byte a -> is_byte b -> is_byte (Z.lxor a b).
Proof. intros. by apply (lxor_range 8). Qed.

(** The state of the key stream: a block of it, unless a new one starts. *)
Definition ctr_ok (pad : list Z) (i : Z) : Prop := i = 16 \/ 1 <= i < 16 /\ is_block pad.

(** Decryption walks through the same key stream. *)
Lemma ctr_loop_inv k x iv pad i :
  bytes_ok x -> is_block iv -> ctr_ok pad i ->
  let '(y, iv2, pad2, i2) := ctr_loop k x iv pad i in
  zlen y = zlen x /\ bytes_ok y /\ is_block iv2 /\ ctr_ok pad2 i2 /\
  ctr_loop k y iv pad i = (x, iv2, pad2, i2).
Proof.
  intros Hx. revert iv pad i; induction Hx as [|b x Hb Hx IH]; intros iv pad i Hiv Hok;
    cbn [ctr_loop]; [done|].
  assert (forall c, Z.lxor (Z.lxor b c) c = b) as C
    by (intros; by rewrite Z.lxor_assoc, Z.lxor_nilpotent, Z.lxor_0_r).
  destruct (Z.eqb_spec i 16) as [->|].
  - pose proof (ctr_incr_block iv Hiv) as Hi.
    pose proof (aes_encrypt_block k _ Hi) as He.
    set (iv1 := ctr_incr iv) in *. set (pad1 := aes_encrypt k iv1) in *.
    specialize (IH iv1 pad1 1 Hi ltac:(right; done)).
    destruct (ctr_loop k x iv1 pad1 1) as [[[y iv2] pad2] i2].
    destruct IH as (Hl & Hy & Hv & Ho & Hd). cbn [ctr_loop]. fold iv1. fold pad1.
    change (16 =? 16) with true. cbv iota. rewrite Hd, C.
    rewrite !length_cons. split_and!; try done; try lia. apply Forall_cons_2; [|done].
    apply lxor_byte; [done|]. apply byte_at_ok; [apply He|]. destruct He. lia.
  - destruct Hok as [->|[Hr Hp]]; [done|].
    specialize (IH iv pad (i + 1) Hiv).
    destruct (ctr_loop k x iv pad (i + 1)) as [[[y iv2] pad2] i2].
    destruct IH as (Hl & Hy & Hv & Ho & Hd).
    { destruct (Z.eqb_spec (i + 1) 16); [by left|right; split; [lia|done]]. }
    cbn [ctr_loop]. destruct (Z.eqb_spec i 16); [done|]. rewrite Hd, C.
    rewrite !length_cons. split_and!; try done; try lia. apply Forall_cons_2; [|done].
    apply lxor_byte; [done|]. apply byte_at_ok; [apply Hp|]. destruct Hp. lia.
Qed.

(** The pad is not used before a block starts. *)
Lemma ctr_loop_start k x iv pad pad' :
  x <> [] -> ctr_loop k x iv pad 16 = ctr_loop k x iv pad' 16.
Proof. by destruct x. Qed.

Lemma ctr_loop_app k x x' iv pad i :
  ctr_loop k (x ++ x') iv pad i =
  let '(y, iv1, pad1, i1) := ctr_loop k x iv pad i in
  let '(y', iv2, pad2, i2) := ctr_loop k x' iv1 pad1 i1 in
  (y ++ y', iv2, pad2, i2).
Proof.
  revert iv pad i; induction x as [|b x IH]; intros iv pad i; cbn [ctr_loop app].
  - by destruct (ctr_loop k x' iv pad i) as [[[? ?] ?] ?].
  - destruct (i =? 16); rewrite IH; destruct (ctr_loop k x _ _ _) as [[[? iv1] pad1] i1];
      by destruct (ctr_loop k x' iv1 pad1 i1) as [[[? ?] ?] ?].
Qed.

(** The position in the block after [n] bytes. *)
Lemma ctr_loop_pos k x iv pad i :
  1 <= i <= 16 -> i + zlen x <= 16 ->
  let '(_, _, _, i2) := ctr_loop k x iv pad i in i2 = i + zlen x.
Proof.
  revert iv pad i; induction x as [|b x IH]; intros iv pad i Hi Hl; cbn [ctr_loop];
    [simpl; lia|]. rewrite length_cons in Hl. destruct (Z.eqb_spec i 16); [lia|].
  specialize (IH iv pad (i + 1) ltac:(lia) ltac:(lia)).
  destruct (ctr_loop k x iv pad (i + 1)) as [[[? ?] ?] ?]. rewrite length_cons. lia.
Qed.

Lemma ctr_loop_block k x iv pad :
  zlen x = 16 -> let '(_, _, _, i2) := ctr_loop k x iv pad 16 in i2 = 16.
Proof.
  intros Hl. destruct x as [|b x]; [simpl in Hl; lia|]. rewrite length_cons in Hl.
  cbn [ctr_loop]. change (16 =? 16) with true. cbv iota.
  pose proof (ctr_loop_pos k x (ctr_incr iv) (aes_encrypt k (ctr_incr iv)) 1) as P.
  destruct (ctr_loop k x _ _ 1) as [[[? ?] ?] ?]. lia.
Qed.

(** The loop with the fields the context keeps. *)
Definition ctr_run (k : block_key) (x iv pad : list Z) (i : Z)
  : option (list Z * list Z * CtrContext) :=
  let '(y, iv2, pad2, i2) := ctr_loop k x iv pad i in
  Some (y, iv2, {| ctr_key := k; ctr_used := i2; ctr_pad := pad2 |}).

Lemma ctr_encrypt_run ctx x iv :
  ctr_used ctx = 0 \/ ctr_used ctx = 16 ->
  silc_aes_ctr_encrypt ctx x iv = ctr_run (ctr_key ctx) x iv (ctr_pad ctx) 16.
Proof. unfold silc_aes_ctr_encrypt, ctr_run. by intros [-> | ->]. Qed.

Lemma ctr_run_inv k x iv pad pad' :
  bytes_ok x -> is_block iv ->
  exists y iv2 c c', ctr_run k x iv pad 16 = Some (y, iv2, c) /\
    ctr_run k y iv pad' 16 = Some (x, iv2, c') /\ ctr_key c = k /\ ctr_key c' = k /\
    zlen y = zlen x /\ bytes_ok y /\ is_block iv2.
Proof.
  intros Hx Hiv. unfold ctr_run.
  pose proof (ctr_loop_inv k x iv pad 16 Hx Hiv ltac:(by left)) as L.
  destruct (ctr_loop k x iv pad 16) as [[[y iv2] pad2] i2] eqn:E.
  destruct L as (Hl & Hy & Hv & _ & Hd). destruct y as [|b y].
  - destruct x as [|b x]; [|exfalso; rewrite length_cons in Hl; simpl in Hl; lia].
    cbn in E |- *. injection E as <- <- <-.
    by do 4 eexists.
  - exists (b :: y), iv2. do 2 eexists. split; [done|].
    rewrite (ctr_loop_start _ _ _ pad' pad), Hd by done. done.
Qed.

Lemma ctr_run_split k y iv pad x iv2 c2 :
  bytes_ok y -> is_block iv -> 16 <= zlen y ->
  ctr_run k y iv pad 16 = Some (x, iv2, c2) ->
  exists iv1 c1, ctr_run k (ztake 16 y) iv pad 16 = Some (ztake 16 x, iv1, c1) /\
    ctr_key c1 = k /\ is_block iv1 /\ forall pad', exists c',
    ctr_run k (zdrop 16 y) iv1 pad' 16 = Some (zdrop 16 x, iv2, c') /\ ctr_key c' = k.
Proof.
  intros Hy Hiv Hl Hr. destruct (zsplit 16 y) as (a & b & -> & Ha); [lia|].
  rewrite ztake_app_exact, zdrop_app_exact by done. unfold ctr_run in *.
  rewrite ctr_loop_app in Hr. apply Forall_app in Hy as [Hab Hbb].
  pose proof (ctr_loop_inv k a iv pad 16 Hab Hiv ltac:(by left)) as La.
  pose proof (ctr_loop_block k a iv pad Ha) as Ba.
  destruct (ctr_loop k a iv pad 16) as [[[xa iv1] pad1] i1]. subst i1.
  destruct La as (Hxa & _ & Hv1 & _ & _).
  destruct (ctr_loop k b iv1 pad1 16) as [[[xb iv3] pad3] i3] eqn:Eb.
  injection Hr as <- <- <-. rewrite ztake_app_exact, zdrop_app_exact by lia.
  do 2 eexists. split; [done|]. split; [done|]. split; [done|]. intros pad'.
  destruct b as [|z b].
  - cbn in Eb |- *. injection Eb as <- <- <- <-. by eexists.
  - rewrite (ctr_loop_start _ _ _ pad' pad1), Eb by done. by eexists.
Qed.

#[export] Instance aes_ctr_laws : CipherLaws aes_ctr.
Proof.
  exists (fun e d : CtrContext => ctr_key e = ctr_key d); try done.
  - intros e d x iv Hk Hx Hiv Hl _.
    destruct (ctr_run_inv (ctr_key d) x iv (ctr_pad e) (ctr_pad d) Hx (conj Hl Hiv))
      as (y & iv' & c & c' & He & Hd & Kc & Kc' & ? & ? & ? & ?).
    exists y, iv', c, c'. cbn. rewrite !ctr_encrypt_run by (by left).
    cbn [ctr_key ctr_pad silc_aes_ctr_set_iv]. rewrite Hk.
    split_and!; try done. congruence.
  - intros e d y iv x iv' d' Hk Hd. cbn in Hd. unfold silc_aes_ctr_decrypt in Hd.
    rewrite ctr_encrypt_run in Hd by (by left). unfold ctr_run in Hd.
    destruct (ctr_loop _ _ _ _ _) as [[[? ?] ?] ?]. by injection Hd as _ _ <-.
  - intros d y x iv iv2 d2 Hy Hiv Hl Hn Hd. cbn in Hd |- *.
    unfold silc_aes_ctr_decrypt in *. rewrite ctr_encrypt_run in Hd by (by left).
    cbn [ctr_key ctr_pad silc_aes_ctr_set_iv] in Hd.
    pose proof Hd as Hk. unfold ctr_run in Hk. destruct (ctr_loop _ _ _ _ _) as [[[? ?] ?] ?].
    injection Hk as _ _ Hk.
    destruct (ctr_run_split _ _ _ _ _ _ _ Hy (conj Hl Hiv) Hn Hd)
      as (iv1 & c1 & H1 & Kc & [? ?] & H2).
    destruct (H2 (ctr_pad c1)) as (c' & H2' & Kc'). exists iv1, c1, c'.
    rewrite !ctr_encrypt_run by (by left). cbn [ctr_key ctr_pad silc_aes_ctr_set_iv].
    rewrite H1, Kc, H2'. split_and!; try done.
    intros e He. rewrite He, <- Hk. done.
Defined.
End ctr.

(** * A packet, encrypted at once and decrypted in two parts *)

Section packets.
Context `{CipherLaws}.

(** The cipher as the receiver uses it on the first block. *)
Definition cipher_start (r : SilcCipher) : SilcCipher :=
  if silc_cipher_get_mode r =? SILC_CIPHER_MODE_CTR then silc_cipher_set_iv r None else r.

(** Sender and receiver of one direction. *)
Definition cipher_sync (s r : SilcCipher) : Prop :=
  alg_peer (c_context s) (c_context r) /\ c_iv s = c_iv r /\ is_block (c_iv s).

Lemma cipher_send_receive s r x iv :
  alg_peer (c_context s) (c_context r) -> c_iv s = iv -> is_block iv -> zlen (c_iv r) = 16 ->
  bytes_ok x -> 16 <= zlen x -> alg_whole (zlen x) ->
  exists y s' iv1 r1 r',
    silc_cipher_encrypt (silc_cipher_set_iv s None) x None = Some (y, None, s') /\
    zlen y = zlen x /\ bytes_ok y /\
    silc_cipher_decrypt (cipher_start r) (ztake 16 y) (Some iv) =
      Some (ztake 16 x, Some iv1, r1) /\
    silc_cipher_decrypt (silc_cipher_set_iv r1 (Some iv1)) (zdrop 16 y) None =
      Some (zdrop 16 x, None, r') /\
    cipher_sync s' r'.
Proof.
  intros Hp Hs [Hl Hb] Hr Hx Hn Hw.
  destruct (alg_dec_enc _ _ x iv Hp Hx Hb Hl Hw)
    as (y & iv2 & e' & d2 & He & Hd & Hly & Hyb & Hvb & Hvl & Hp').
  assert (16 <= zlen y) as Hny by lia.
  destruct (alg_dec_split _ y x iv iv2 d2 Hyb Hb Hl Hny Hd)
    as (iv1 & d1 & d2' & H1 & Hl1 & Hb1 & H2 & Hp2).
  exists y, {| c_context := e'; c_iv := iv2 |}, iv1,
    {| c_context := d1; c_iv := c_iv (cipher_start r) |},
    {| c_context := d2'; c_iv := iv2 |}.
  assert (c_context (cipher_start r) = alg_start (c_context r)) as Es.
  { unfold cipher_start, silc_cipher_get_mode, alg_start. by destruct (_ =? _). }
  assert (zlen (c_iv (cipher_start r)) = 16) as Ev.
  { unfold cipher_start. by destruct (_ =? _). }
  split_and!; try done.
  - unfold silc_cipher_encrypt, silc_cipher_set_iv. cbn [c_context c_iv].
    by rewrite Hs, He.
  - unfold silc_cipher_decrypt. by rewrite Es, H1.
  - unfold silc_cipher_decrypt, silc_cipher_set_iv. cbn [c_context c_iv].
    rewrite alg_iv_len_16, mem_read_exact, (zdrop_all 16 (c_iv _)), app_nil_r by lia. by rewrite H2.
  - split; [|done]. by apply Hp2.
Qed.
End packets.

(** * Properties *)

(** C28. AES in CBC and in CTR mode, over any invertible block function: what
    silc_cipher_encrypt makes of a packet (of whole blocks, in CBC mode)
    silc_cipher_decrypt gives back, when the receiver decrypts the first block
    with a copy of the IV and the rest after silc_cipher_set_iv, as the packet
    engine does; both ciphers end with the same IV and context, ready for the
    next packet. *)
Theorem silc_cipher_aes_roundtrip `{BlockLaws} (ctr : bool) :
  let alg := if ctr then aes_ctr else aes_cbc in
  let peers := if ctr return @cipher_context (if ctr then aes_ctr else aes_cbc) ->
                             @cipher_context (if ctr then aes_ctr else aes_cbc) -> Prop
               then fun e d => ctr_key e = ctr_key d else eq in
  forall (s r : @SilcCipher alg) x,
  peers (c_context s) (c_context r) -> c_iv s = c_iv r -> is_block (c_iv s) ->
  bytes_ok x -> 16 <= zlen x -> ctr = true \/ zlen x mod 16 = 0 ->
  exists y s' iv1 r1 r',
    silc_cipher_encrypt (silc_cipher_set_iv s None) x None = Some (y, None, s') /\
    zlen y = zlen x /\
    silc_cipher_decrypt (cipher_start r) (ztake 16 y) (Some (c_iv r)) =
      Some (ztake 16 x, Some iv1, r1) /\
    silc_cipher_decrypt (silc_cipher_set_iv r1 (Some iv1)) (zdrop 16 y) None =
      Some (zdrop 16 x, None, r') /\
    peers (c_context s') (c_context r') /\ c_iv s' = c_iv r' /\ is_block (c_iv s').
Proof.
  destruct ctr; cbv zeta iota; intros s r x Hp Hv Hb Hx Hn Hw.
  - destruct (cipher_send_receive (H := aes_ctr) s r x (c_iv r)) as
      (y & s' & iv1 & r1 & r' & ? & ? & ? & ? & ? & ? & ? & ?);
      try done; [by rewrite <- Hv|rewrite <- Hv; apply Hb|by left|].
    by exists y, s', iv1, r1, r'.
  - destruct (cipher_send_receive (H := aes_cbc) s r x (c_iv r)) as
      (y & s' & iv1 & r1 & r' & ? & ? & ? & ? & ? & ? & ? & ?);
      try done; [by rewrite <- Hv|rewrite <- Hv; apply Hb|right; by destruct Hw|].
    by exists y, s', iv1, r1, r'.
Qed.

(** A block function: xor with the key. *)
#[export] Instance toy_cipher : BlockCipher :=
  {| block_key := { k : list Z | is_block k };
     aes_encrypt k b := xor_block (proj1_sig k) b;
     aes_decrypt k b := xor_block b (proj1_sig k) |}.

#[export] Instance toy_cipher_laws : BlockLaws toy_cipher.
Proof.
  split.
  - intros [k Hk] b Hb. by apply xor_block_block.
  - intros [k Hk] b Hb. by apply xor_block_cancel.
Defined.

Lemma toy_key_block : is_block (zrepeat 3 16).
Proof. split; [done|]. apply bytes_ok_check. reflexivity. Qed.

Definition toy_key : @block_key toy_cipher := exist _ (zrepeat 3 16) toy_key_block.

Lemma witness_iv_block : is_block (zrepeat 7 16).
Proof. split; [done|]. apply bytes_ok_check. reflexivity. Qed.

Definition witness_cbc : @SilcCipher (aes_cbc (H := toy_cipher)) :=
  @Build_SilcCipher (aes_cbc (H := toy_cipher)) toy_key (zrepeat 7 16).

Lemma silc_cipher_aes_roundtrip_witness :
  exists y s' iv1 r1 r',
    silc_cipher_encrypt (silc_cipher_set_iv witness_cbc None) (zrepeat 1 32) None =
      Some (y, None, s') /\
    silc_cipher_decrypt (cipher_start witness_cbc) (ztake 16 y) (Some (zrepeat 7 16)) =
      Some (zrepeat 1 16, Some iv1, r1) /\
    silc_cipher_decrypt (silc_cipher_set_iv r1 (Some iv1)) (zdrop 16 y) None =
      Some (zrepeat 1 16, None, r').
Proof.
  destruct (silc_cipher_aes_roundtrip (H := toy_cipher) false witness_cbc witness_cbc
    (zrepeat 1 32) eq_refl eq_refl witness_iv_block ltac:(by apply bytes_ok_check) ltac:(done)
    ltac:(by right)) as (y & s' & iv1 & r1 & r' & He & _ & H1 & H2 & _).
  exists y, s', iv1, r1, r'. split; [exact He|]. split; [exact H1|exact H2].
Defined.
