(* ===== verification/CipherBlocks.v ===== *)
(** Ciphers on whole blocks: what silcmessage.c relies on, which encrypts and
    decrypts multiples of the block length with a context it never restarts.
    The modes of aes.c are instances. *)

From S2P Require Import Prelude CTypes Cipher.

Class CipherBlocks `(CipherAlg) := {
  (** the same key, both between blocks *)
  blk_peer : cipher_context -> cipher_context -> Prop;
  blk_block_len : alg_block_len = 16;
  blk_iv_len : alg_iv_len = 16;
  blk_dec_enc e d x iv :
    blk_peer e d -> bytes_ok x -> is_block iv -> zlen x mod 16 = 0 ->
    exists y iv' e' d',
      alg_encrypt e x iv = Some (y, iv', e') /\ alg_decrypt d y iv = Some (x, iv', d') /\
      zlen y = zlen x /\ bytes_ok y /\ is_block iv' /\ blk_peer e' d';
  blk_enc_app e d x1 x2 iv :
    blk_peer e d -> bytes_ok x1 -> is_block iv -> zlen x1 mod 16 = 0 ->
    alg_encrypt e (x1 ++ x2) iv =
    match alg_encrypt e x1 iv with
    | None => None
    | Some (y1, iv, e) =>
        match alg_encrypt e x2 iv with
        | None => None
        | Some (y2, iv, e) => Some (y1 ++ y2, iv, e)
        end
    end;
}.

(** The first part may be decrypted on its own. *)
Lemma blk_dec_two `{CipherBlocks} e d x1 x2 iv :
  blk_peer e d -> bytes_ok x1 -> bytes_ok x2 -> is_block iv ->
  zlen x1 mod 16 = 0 -> zlen x2 mod 16 = 0 ->
  exists y1 y2 iv1 iv2 e1 e2 d1 d2,
    alg_encrypt e x1 iv = Some (y1, iv1, e1) /\ alg_decrypt d y1 iv = Some (x1, iv1, d1) /\
    alg_encrypt e (x1 ++ x2) iv = Some (y1 ++ y2, iv2, e2) /\
    alg_decrypt d1 y2 iv1 = Some (x2, iv2, d2) /\
    zlen y1 = zlen x1 /\ zlen y2 = zlen x2 /\ bytes_ok y1 /\ bytes_ok y2 /\
    is_block iv1 /\ is_block iv2 /\ blk_peer e1 d1 /\ blk_peer e2 d2.
Proof.
  intros Hp Hb1 Hb2 Hiv Hm1 Hm2. rewrite (blk_enc_app e d) by done.
  destruct (blk_dec_enc e d x1 iv) as (y1 & iv1 & e1 & d1 & -> & Hd1 & ? & ? & ? & Hp1); [done..|].
  destruct (blk_dec_enc e1 d1 x2 iv1) as (y2 & iv2 & e2 & d2 & -> & Hd2 & ? & ? & ? & Hp2); [done..|].
  by exists y1, y2, iv1, iv2, e1, e2, d1, d2.
Qed.

Section modes.
Context `{BlockLaws}.

Lemma cbc_encrypt_loop_app k n m x y iv :
  zlen x = 16 * Z.of_nat n ->
  cbc_encrypt_loop k (n + m) (x ++ y) iv =
  let '(c1, iv) := cbc_encrypt_loop k n x iv in
  let '(c2, iv) := cbc_encrypt_loop k m y iv in (c1 ++ c2, iv).
Proof.
  revert x iv; induction n as [|n IH]; intros x iv Hx.
  - rewrite (zlen_0_nil x) by lia. cbn. by destruct (cbc_encrypt_loop k m y iv).
  - cbn [Nat.add cbc_encrypt_loop]. rewrite ztake_app_le, zdrop_app_le by lia.
    rewrite IH by (rewrite zlen_zdrop; lia).
    destruct (cbc_encrypt_loop k n (zdrop 16 x) _) as [c1 iv1].
    destruct (cbc_encrypt_loop k m y iv1). by rewrite app_assoc.
Qed.

#[export] Instance aes_cbc_blocks : CipherBlocks aes_cbc.
Proof.
  exists (fun e d : block_key => e = d); try done.
  - intros e d x iv <- Hx Hiv Hm.
    destruct (aes_cbc_dec_enc e x iv Hx Hiv Hm) as (y & iv' & He & Hd & ? & ? & ?).
    by exists y, iv', e, e.
  - intros e d x1 x2 iv _ Hb Hiv Hm. cbn. unfold silc_aes_cbc_encrypt.
    rewrite length_app, Nat2Z.inj_add, !land_15 by lia.
    rewrite (proj2 (Z.eqb_eq (zlen x1 mod 16) 0) Hm). cbn [negb].
    assert ((zlen x1 + zlen x2) mod 16 = zlen x2 mod 16) as ->
      by (by rewrite Z.add_mod, Hm, Z.add_0_l, Z.mod_mod).
    destruct (zlen x2 mod 16 =? 0) eqn:E2; cbn [negb].
    2: { by destruct (cbc_encrypt_loop _ _ x1 _). }
    apply Z.eqb_eq in E2.
    pose proof (whole_rounds (zlen x1) ltac:(lia) Hm) as R1.
    pose proof (whole_rounds (zlen x2) ltac:(lia) E2) as R2.
    pose proof (whole_rounds (zlen x1 + zlen x2) ltac:(lia)
      ltac:(by rewrite Z.add_mod, Hm, E2)) as R.
    replace (Z.to_nat (Z.shiftr (zlen x1 + zlen x2) 4))
      with (Z.to_nat (Z.shiftr (zlen x1) 4) + Z.to_nat (Z.shiftr (zlen x2) 4))%nat by lia.
    rewrite cbc_encrypt_loop_app by lia.
    destruct (cbc_encrypt_loop e _ x1 iv) as [c1 iv1].
    by destruct (cbc_encrypt_loop e _ x2 iv1).
Defined.

Lemma ctr_loop_blocks k n : forall x iv pad,
  zlen x = 16 * Z.of_nat n -> let '(_, _, _, i2) := ctr_loop k x iv pad 16 in i2 = 16.
Proof.
  induction n as [|n IH]; intros x iv pad Hx.
  - by rewrite (zlen_0_nil x) by lia.
  - destruct (zsplit 16 x) as (a & b & -> & Ha); [lia|]. rewrite ctr_loop_app.
    pose proof (ctr_loop_block k a iv pad Ha) as Ba.
    destruct (ctr_loop k a iv pad 16) as [[[ya iv1] pad1] i1]. subst i1.
    rewrite length_app in Hx. specialize (IH b iv1 pad1 ltac:(lia)).
    by destruct (ctr_loop k b iv1 pad1 16) as [[[? ?] ?] ?].
Qed.

Lemma ctr_run_blocks k x iv pad y iv2 c :
  zlen x mod 16 = 0 -> ctr_run k x iv pad 16 = Some (y, iv2, c) -> ctr_used c = 16.
Proof.
  intros Hm. unfold ctr_run.
  pose proof (ctr_loop_blocks k _ x iv pad (whole_rounds (zlen x) ltac:(lia) Hm)) as B.
  destruct (ctr_loop k x iv pad 16) as [[[? ?] ?] ?]. by intros [= _ _ <-].
Qed.

#[export] Instance aes_ctr_blocks : CipherBlocks aes_ctr.
Proof.
  exists (fun e d : CtrContext => ctr_key e = ctr_key d /\
    (ctr_used e = 0 \/ ctr_used e = 16) /\ (ctr_used d = 0 \/ ctr_used d = 16)); try done.
  - intros e d x iv (Hk & Ue & Ud) Hx Hiv Hm.
    destruct (ctr_run_inv (ctr_key d) x iv (ctr_pad e) (ctr_pad d) Hx Hiv)
      as (y & iv' & c & c' & He & Hd & Kc & Kc' & Hl & ? & ?).
    exists y, iv', c, c'. cbn. unfold silc_aes_ctr_decrypt.
    rewrite !ctr_encrypt_run by done. rewrite Hk.
    pose proof (ctr_run_blocks _ _ _ _ _ _ _ Hm He) as U1.
    rewrite <- Hl in Hm. pose proof (ctr_run_blocks _ _ _ _ _ _ _ Hm Hd) as U2.
    split_and!; try done; [congruence|by right|by right].
  - intros e d x1 x2 iv (Hk & Ue & _) Hx Hiv Hm. cbn.
    rewrite !ctr_encrypt_run by done.
    pose proof (ctr_run_blocks (ctr_key e) x1 iv (ctr_pad e)) as U.
    unfold ctr_run in *. rewrite ctr_loop_app.
    destruct (ctr_loop _ x1 iv _ 16) as [[[y1 iv1] pad1] i1].
    specialize (U _ _ _ Hm eq_refl). cbn in U. subst i1.
    rewrite ctr_encrypt_run by (by right). unfold ctr_run. cbn [ctr_key ctr_pad].
    by destruct (ctr_loop _ x2 iv1 _ 16) as [[[? ?] ?] ?].
Defined.
End modes.
