(* ===== verification/Hash.v ===== *)
(** lib/silccrypt/silchash.c: hash functions as the rest of the library sees
    them.

    [HashAlg] is the function table SilcHashObject.  [HashLaws] states what the
    clients rely on: after init, update and final compute a function of the
    concatenation of the data, given in pieces of fewer than 2^31 bytes, with a
    digest of hash_len bytes.  HashFns has the instances of the library. *)

From S2P Require Import Prelude CTypes.

(** * Hash functions: silchash.c *)

Class HashAlg := {
  hash_context : Type;
  alg_hash_init : hash_context -> hash_context;
  alg_hash_update : hash_context -> list Z -> hash_context;
  alg_hash_final : hash_context -> list Z * hash_context;
  alg_hash_len : Z;
  alg_hash_block_len : Z;
}.

Class HashLaws `(HashAlg) := {
  hash_fn : list Z -> list Z;
  hash_final_fn c l :
    Forall (fun x => zlen x < 2 ^ 31) l ->
    (alg_hash_final (foldl alg_hash_update (alg_hash_init c) l)).1 = hash_fn (concat l);
  hash_fn_bytes l : bytes_ok (hash_fn l);
  hash_fn_len l : zlen (hash_fn l) = alg_hash_len;
  hash_len_block : 0 < alg_hash_len <= alg_hash_block_len;
  hash_block_len_64 : alg_hash_block_len <= 64;
}.

Section hash.
Context `{HashAlg}.

Definition silc_hash_len (hash : hash_context) : Z := alg_hash_len.
Definition silc_hash_block_len (hash : hash_context) : Z := alg_hash_block_len.
Definition silc_hash_init (hash : hash_context) : hash_context := alg_hash_init hash.
Definition silc_hash_update (hash : hash_context) (data : list Z) : hash_context :=
  alg_hash_update hash data.
Definition silc_hash_final (hash : hash_context) : list Z * hash_context := alg_hash_final hash.
Definition silc_hash_make (hash : hash_context) (data : list Z) : list Z * hash_context :=
  silc_hash_final (silc_hash_update (silc_hash_init hash) data).
End hash.
