(* ===== verification/HashFns.v ===== *)
(** lib/silccrypt/sha1.c, sha256.c and md5.c: the hash functions of the library.

    Each buffers its input in its own way.  [md_fn] is what all three are meant
    to compute, iterating a compression function over the padded message; the
    compression functions are translated from the code. *)

From S2P Require Import Prelude CTypes Hash.

(** [memcpy(&buf[j], data, n)] into an array. *)
Definition buf_put (buf : list Z) (j : Z) (data : list Z) (n : Z) : list Z :=
  ztake j buf ++ mem_read data n ++ zdrop (j + n) buf.

Definition rol (x n : Z) : Z := Z.lor (u32 (Z.shiftl x n)) (Z.shiftr x (32 - n)).
Definition ror (x n : Z) : Z := Z.lor (Z.shiftr x n) (u32 (Z.shiftl x (32 - n))).
Definition not32 (x : Z) : Z := Z.lxor x (2 ^ 32 - 1).
Definition word (l : list Z) (i : Z) : Z := nth (Z.to_nat i) l 0.

(** * SHA-1 *)

Record SHA1_CTX := {
  sha1_state : list Z;
  sha1_count0 : Z;
  sha1_count1 : Z;
  sha1_buffer : list Z;
}.

Definition SHA1Init (ctx : SHA1_CTX) : SHA1_CTX :=
  {| sha1_state := [0x67452301; 0xEFCDAB89; 0x98BADCFE; 0x10325476; 0xC3D2E1F0];
     sha1_count0 := 0; sha1_count1 := 0; sha1_buffer := sha1_buffer ctx |}.

(** The functions and constants of R0 to R4. *)
Definition sha1_f (i b c d : Z) : Z :=
  if i <? 20 then Z.lxor d (Z.land b (Z.lxor c d))
  else if i <? 40 then Z.lxor (Z.lxor b c) d
  else if i <? 60 then Z.lor (Z.land b c) (Z.land d (Z.lor b c))
  else Z.lxor (Z.lxor b c) d.

Definition sha1_k (i : Z) : Z :=
  if i <? 20 then 0x5A827999 else if i <? 40 then 0x6ED9EBA1
  else if i <? 60 then 0x8F1BBCDC else 0xCA62C1D6.

(** [blk0] and [blk1]: word i, and the array of 16 words it is stored in. *)
Definition sha1_blk (w data : list Z) (i : Z) : Z * list Z :=
  let x := if i <? 16 then SILC_GET_WORD (zdrop (4 * i) data)
           else rol (Z.lxor (Z.lxor (Z.lxor (word w ((i + 13) mod 16)) (word w ((i + 8) mod 16)))
                                    (word w ((i + 2) mod 16))) (word w (i mod 16))) 1 in
  (x, ztake (i mod 16) w ++ [x] ++ zdrop (i mod 16 + 1) w).

(** The rounds [i], i + 1, ...; the variables change their roles from one to
    the next. *)
Fixpoint sha1_rounds (n : nat) (i : Z) (data w : list Z) (a b c d e : Z) : list Z :=
  match n with
  | O => [a; b; c; d; e]
  | S n =>
      let '(x, w) := sha1_blk w data i in
      let e := u32 (e + u32 (sha1_f i b c d + x + sha1_k i + rol a 5)) in
      sha1_rounds n (i + 1) data w e a (rol b 30) c d
  end.

Definition SHA1Transform (state data : list Z) : list Z :=
  let r := sha1_rounds 80 0 data (zrepeat indet 16)
             (word state 0) (word state 1) (word state 2) (word state 3) (word state 4) in
  [u32 (word state 0 + word r 0); u32 (word state 1 + word r 1); u32 (word state 2 + word r 2);
   u32 (word state 3 + word r 3); u32 (word state 4 + word r 4)].

(** [for ( ; i + 63 < len; i += 64)] *)
Fixpoint sha1_update_loop (fuel : nat) (state data : list Z) (i : Z) : list Z * Z :=
  match fuel with
  | O => (state, i)
  | S fuel =>
      if i + 63 <? zlen data
      then sha1_update_loop fuel (SHA1Transform state (zdrop i data)) data (i + 64)
      else (state, i)
  end.

Definition SHA1Update (ctx : SHA1_CTX) (data : list Z) : SHA1_CTX :=
  let len := zlen data in
  let j := Z.land (Z.shiftr (sha1_count0 ctx) 3) 63 in
  let bits := u32 (Z.shiftl len 3) in
  let count0 := u32 (sha1_count0 ctx + bits) in
  let count1 := if count0 <? bits then u32 (sha1_count1 ctx + 1) else sha1_count1 ctx in
  let count1 := u32 (count1 + Z.shiftr len 29) in
  if 63 <? u32 (j + len) then
    let buffer := buf_put (sha1_buffer ctx) j data (64 - j) in
    let state := SHA1Transform (sha1_state ctx) buffer in
    let '(state, i) := sha1_update_loop (length data) state data (64 - j) in
    {| sha1_state := state; sha1_count0 := count0; sha1_count1 := count1;
       sha1_buffer := buf_put buffer 0 (zdrop i data) (len - i) |}
  else
    {| sha1_state := sha1_state ctx; sha1_count0 := count0; sha1_count1 := count1;
       sha1_buffer := buf_put (sha1_buffer ctx) j data len |}.

(** [while ((context->count[0] & 504) != 448)] *)
Fixpoint sha1_pad_loop (fuel : nat) (ctx : SHA1_CTX) : SHA1_CTX :=
  match fuel with
  | O => ctx
  | S fuel =>
      if negb (Z.land (sha1_count0 ctx) 504 =? 448)
      then sha1_pad_loop fuel (SHA1Update ctx [0]) else ctx
  end.

Definition sha1_wiped : SHA1_CTX :=
  {| sha1_state := SHA1Transform (zrepeat 0 5) (zrepeat 0 64);
     sha1_count0 := 0; sha1_count1 := 0; sha1_buffer := zrepeat 0 64 |}.

Definition SHA1Final (ctx : SHA1_CTX) : list Z * SHA1_CTX :=
  let finalcount := SILC_PUT32_MSB (sha1_count1 ctx) ++ SILC_PUT32_MSB (sha1_count0 ctx) in
  let ctx := SHA1Update ctx [0x80] in
  let ctx := sha1_pad_loop 64 ctx in
  let ctx := SHA1Update ctx finalcount in
  (concat (map SILC_PUT32_MSB (sha1_state ctx)), sha1_wiped).

(** * SHA-256 *)

Record sha256_state := {
  s256_length : Z;
  s256_state : list Z;
  s256_curlen : Z;
  s256_buf : list Z;
}.

Definition sha256_init (md : sha256_state) : sha256_state :=
  {| s256_length := 0;
     s256_state := [0x6A09E667; 0xBB67AE85; 0x3C6EF372; 0xA54FF53A;
                    0x510E527F; 0x9B05688C; 0x1F83D9AB; 0x5BE0CD19];
     s256_curlen := 0; s256_buf := s256_buf md |}.

Definition Ch (x y z : Z) : Z := Z.lxor z (Z.land x (Z.lxor y z)).
Definition Maj (x y z : Z) : Z := Z.lor (Z.land (Z.lor x y) z) (Z.land x y).
Definition Sigma0 (x : Z) : Z := Z.lxor (Z.lxor (ror x 2) (ror x 13)) (ror x 22).
Definition Sigma1 (x : Z) : Z := Z.lxor (Z.lxor (ror x 6) (ror x 11)) (ror x 25).
Definition Gamma0 (x : Z) : Z := Z.lxor (Z.lxor (ror x 7) (ror x 18)) (Z.shiftr x 3).
Definition Gamma1 (x : Z) : Z := Z.lxor (Z.lxor (ror x 17) (ror x 19)) (Z.shiftr x 10).

(** The words from [i] to 63. *)
Fixpoint sha256_words (n : nat) (i : Z) (w : list Z) : list Z :=
  match n with
  | O => w
  | S n =>
      sha256_words n (i + 1)
        (w ++ [u32 (Gamma1 (word w (i - 2)) + word w (i - 7) + Gamma0 (word w (i - 15)) +
                    word w (i - 16))])
  end.

(** [RND(S[a], ..., S[a + 7], i, ki)], the indices modulo 8. *)
Definition RND (w : list Z) (i a ki : Z) (S : list Z) : list Z :=
  let s := fun j => (a + j) mod 8 in
  let t0 := u32 (word S (s 7) + Sigma1 (word S (s 4)) +
                 Ch (word S (s 4)) (word S (s 5)) (word S (s 6)) + ki + word w i) in
  let t1 := u32 (Sigma0 (word S (s 0)) + Maj (word S (s 0)) (word S (s 1)) (word S (s 2))) in
  let S := <[Z.to_nat (s 3) := u32 (word S (s 3) + t0)]> S in
  <[Z.to_nat (s 7) := u32 (t0 + t1)]> S.

Definition sha256_rnds (w : list Z) : list (list Z -> list Z) :=
     RND w 0 0 0x428a2f98 :: RND w 1 7 0x71374491 ::
     RND w 2 6 0xb5c0fbcf :: RND w 3 5 0xe9b5dba5 ::
     RND w 4 4 0x3956c25b :: RND w 5 3 0x59f111f1 ::
     RND w 6 2 0x923f82a4 :: RND w 7 1 0xab1c5ed5 ::
     RND w 8 0 0xd807aa98 :: RND w 9 7 0x12835b01 ::
     RND w 10 6 0x243185be :: RND w 11 5 0x550c7dc3 ::
     RND w 12 4 0x72be5d74 :: RND w 13 3 0x80deb1fe ::
     RND w 14 2 0x9bdc06a7 :: RND w 15 1 0xc19bf174 ::
     RND w 16 0 0xe49b69c1 :: RND w 17 7 0xefbe4786 ::
     RND w 18 6 0x0fc19dc6 :: RND w 19 5 0x240ca1cc ::
     RND w 20 4 0x2de92c6f :: RND w 21 3 0x4a7484aa ::
     RND w 22 2 0x5cb0a9dc :: RND w 23 1 0x76f988da ::
     RND w 24 0 0x983e5152 :: RND w 25 7 0xa831c66d ::
     RND w 26 6 0xb00327c8 :: RND w 27 5 0xbf597fc7 ::
     RND w 28 4 0xc6e00bf3 :: RND w 29 3 0xd5a79147 ::
     RND w 30 2 0x06ca6351 :: RND w 31 1 0x14292967 ::
     RND w 32 0 0x27b70a85 :: RND w 33 7 0x2e1b2138 ::
     RND w 34 6 0x4d2c6dfc :: RND w 35 5 0x53380d13 ::
     RND w 36 4 0x650a7354 :: RND w 37 3 0x766a0abb ::
     RND w 38 2 0x81c2c92e :: RND w 39 1 0x92722c85 ::
     RND w 40 0 0xa2bfe8a1 :: RND w 41 7 0xa81a664b ::
     RND w 42 6 0xc24b8b70 :: RND w 43 5 0xc76c51a3 ::
     RND w 44 4 0xd192e819 :: RND w 45 3 0xd6990624 ::
     RND w 46 2 0xf40e3585 :: RND w 47 1 0x106aa070 ::
     RND w 48 0 0x19a4c116 :: RND w 49 7 0x1e376c08 ::
     RND w 50 6 0x2748774c :: RND w 51 5 0x34b0bcb5 ::
     RND w 52 4 0x391c0cb3 :: RND w 53 3 0x4ed8aa4a ::
     RND w 54 2 0x5b9cca4f :: RND w 55 1 0x682e6ff3 ::
     RND w 56 0 0x748f82ee :: RND w 57 7 0x78a5636f ::
     RND w 58 6 0x84c87814 :: RND w 59 5 0x8cc70208 ::
     RND w 60 4 0x90befffa :: RND w 61 3 0xa4506ceb ::
     RND w 62 2 0xbef9a3f7 :: RND w 63 1 0xc67178f2 :: [].

Definition sha256_compress (state buf : list Z) : list Z :=
  let w := map (fun i => SILC_GET32_MSB (zdrop (4 * Z.of_nat i) buf)) (seq 0 16) in
  let w := sha256_words 48 16 w in
  let s := fold_left (fun S rnd => rnd S) (sha256_rnds w) (ztake 8 state) in
  map (fun i => u32 (nth i state 0 + nth i s 0)) (seq 0 8).

Fixpoint sha256_process_loop (fuel : nat) (md : sha256_state) (data : list Z) : sha256_state :=
  match fuel with
  | O => md
  | S fuel =>
      if 0 <? zlen data then
        if (s256_curlen md =? 0) && (64 <=? zlen data) then
          sha256_process_loop fuel
            {| s256_length := u64 (s256_length md + 64 * 8);
               s256_state := sha256_compress (s256_state md) data;
               s256_curlen := s256_curlen md; s256_buf := s256_buf md |} (zdrop 64 data)
        else
          let n := Z.min (zlen data) (64 - s256_curlen md) in
          let buf := buf_put (s256_buf md) (s256_curlen md) data n in
          let curlen := u32 (s256_curlen md + n) in
          sha256_process_loop fuel
            (if curlen =? 64
             then {| s256_length := u64 (s256_length md + 64 * 8);
                     s256_state := sha256_compress (s256_state md) buf;
                     s256_curlen := 0; s256_buf := buf |}
             else {| s256_length := s256_length md; s256_state := s256_state md;
                     s256_curlen := curlen; s256_buf := buf |}) (zdrop n data)
      else md
  end.

Definition sha256_process (md : sha256_state) (data : list Z) : sha256_state :=
  if 64 <? s256_curlen md then md else sha256_process_loop (length data) md data.

(** [buf[curlen++] = 0] up to [n]. *)
Definition s256_zeros (buf : list Z) (curlen n : Z) : list Z :=
  buf_put buf curlen (zrepeat 0 (n - curlen)) (Z.max 0 (n - curlen)).

(** [None]: nothing is stored to the digest. *)
Definition sha256_done (md : sha256_state) : option (list Z) * sha256_state :=
  if 64 <=? s256_curlen md then (None, md)
  else
    let length := u64 (s256_length md + u32 (s256_curlen md * 8)) in
    let buf := buf_put (s256_buf md) (s256_curlen md) [0x80] 1 in
    let curlen := s256_curlen md + 1 in
    let '(state, buf, curlen) :=
      if 56 <? curlen then
        let buf := s256_zeros buf curlen 64 in
        (sha256_compress (s256_state md) buf, buf, 0)
      else (s256_state md, buf, curlen) in
    let buf := s256_zeros buf curlen 56 in
    let buf := buf_put buf 56 (SILC_PUT64_MSB length) 8 in
    let state := sha256_compress state buf in
    (Some (concat (map SILC_PUT32_MSB state)),
     {| s256_length := length; s256_state := state; s256_curlen := 56; s256_buf := buf |}).

(** * MD5 *)

Record MD5Context := {
  md5_buf : list Z;
  md5_bits0 : Z;
  md5_bits1 : Z;
  md5_in : list Z;
}.

Definition MD5Init (ctx : MD5Context) : MD5Context :=
  {| md5_buf := [0x67452301; 0xefcdab89; 0x98badcfe; 0x10325476];
     md5_bits0 := 0; md5_bits1 := 0; md5_in := md5_in ctx |}.

Definition F1 (x y z : Z) : Z := Z.lxor z (Z.land x (Z.lxor y z)).
Definition F2 (x y z : Z) : Z := F1 z x y.
Definition F3 (x y z : Z) : Z := Z.lxor (Z.lxor x y) z.
Definition F4 (x y z : Z) : Z := Z.lxor y (Z.lor x (not32 z)).

(** The steps: the function, the word, the constant and the shift. *)
Definition md5_steps : list ((Z -> Z -> Z -> Z) * Z * Z * Z) :=
  [(F1,  0, 0xd76aa478,  7); (F1,  1, 0xe8c7b756, 12); (F1,  2, 0x242070db, 17); (F1,  3, 0xc1bdceee, 22);
   (F1,  4, 0xf57c0faf,  7); (F1,  5, 0x4787c62a, 12); (F1,  6, 0xa8304613, 17); (F1,  7, 0xfd469501, 22);
   (F1,  8, 0x698098d8,  7); (F1,  9, 0x8b44f7af, 12); (F1, 10, 0xffff5bb1, 17); (F1, 11, 0x895cd7be, 22);
   (F1, 12, 0x6b901122,  7); (F1, 13, 0xfd987193, 12); (F1, 14, 0xa679438e, 17); (F1, 15, 0x49b40821, 22);
   (F2,  1, 0xf61e2562,  5); (F2,  6, 0xc040b340,  9); (F2, 11, 0x265e5a51, 14); (F2,  0, 0xe9b6c7aa, 20);
   (F2,  5, 0xd62f105d,  5); (F2, 10, 0x02441453,  9); (F2, 15, 0xd8a1e681, 14); (F2,  4, 0xe7d3fbc8, 20);
   (F2,  9, 0x21e1cde6,  5); (F2, 14, 0xc33707d6,  9); (F2,  3, 0xf4d50d87, 14); (F2,  8, 0x455a14ed, 20);
   (F2, 13, 0xa9e3e905,  5); (F2,  2, 0xfcefa3f8,  9); (F2,  7, 0x676f02d9, 14); (F2, 12, 0x8d2a4c8a, 20);
   (F3,  5, 0xfffa3942,  4); (F3,  8, 0x8771f681, 11); (F3, 11, 0x6d9d6122, 16); (F3, 14, 0xfde5380c, 23);
   (F3,  1, 0xa4beea44,  4); (F3,  4, 0x4bdecfa9, 11); (F3,  7, 0xf6bb4b60, 16); (F3, 10, 0xbebfbc70, 23);
   (F3, 13, 0x289b7ec6,  4); (F3,  0, 0xeaa127fa, 11); (F3,  3, 0xd4ef3085, 16); (F3,  6, 0x04881d05, 23);
   (F3,  9, 0xd9d4d039,  4); (F3, 12, 0xe6db99e5, 11); (F3, 15, 0x1fa27cf8, 16); (F3,  2, 0xc4ac5665, 23);
   (F4,  0, 0xf4292244,  6); (F4,  7, 0x432aff97, 10); (F4, 14, 0xab9423a7, 15); (F4,  5, 0xfc93a039, 21);
   (F4, 12, 0x655b59c3,  6); (F4,  3, 0x8f0ccc92, 10); (F4, 10, 0xffeff47d, 15); (F4,  1, 0x85845dd1, 21);
   (F4,  8, 0x6fa87e4f,  6); (F4, 15, 0xfe2ce6e0, 10); (F4,  6, 0xa3014314, 15); (F4, 13, 0x4e0811a1, 21);
   (F4,  4, 0xf7537e82,  6); (F4, 11, 0xbd3af235, 10); (F4,  2, 0x2ad7d2bb, 15); (F4,  9, 0xeb86d391, 21)].

(** MD5STEP, the variables changing their roles. *)
Fixpoint md5_rounds (steps : list ((Z -> Z -> Z -> Z) * Z * Z * Z)) (inp : list Z) (w x y z : Z)
  : list Z :=
  match steps with
  | [] => [w; x; y; z]
  | (f, i, k, s) :: steps =>
      let w := u32 (w + u32 (f x y z + u32 (word inp i + k))) in
      let w := u32 (rol w s + x) in
      md5_rounds steps inp z w x y
  end.

Definition MD5Transform (buf kbuf : list Z) : list Z :=
  let inp := map (fun i => SILC_GET32_LSB (zdrop (4 * Z.of_nat i) kbuf)) (seq 0 16) in
  let r := md5_rounds md5_steps inp (word buf 0) (word buf 1) (word buf 2) (word buf 3) in
  [u32 (word buf 0 + word r 0); u32 (word buf 1 + word r 1);
   u32 (word buf 2 + word r 2); u32 (word buf 3 + word r 3)].

(** [while (len >= 64)] *)
Fixpoint md5_update_loop (fuel : nat) (buf inp data : list Z) : list Z * list Z * list Z :=
  match fuel with
  | O => (buf, inp, data)
  | S fuel =>
      if 64 <=? zlen data then
        let inp := buf_put inp 0 data 64 in
        md5_update_loop fuel (MD5Transform buf inp) inp (zdrop 64 data)
      else (buf, inp, data)
  end.

(** The chunks from the first whole one on. *)
Definition md5_chunks (buf inp data : list Z) : list Z * list Z :=
  let '(buf, inp, data) := md5_update_loop (length data) buf inp data in
  (buf, buf_put inp 0 data (zlen data)).

Definition MD5Update (ctx : MD5Context) (data : list Z) : MD5Context :=
  let len := zlen data in
  let t := md5_bits0 ctx in
  let bits0 := u32 (t + u32 (Z.shiftl len 3)) in
  let bits1 := if bits0 <? t then u32 (md5_bits1 ctx + 1) else md5_bits1 ctx in
  let bits1 := u32 (bits1 + Z.shiftr len 29) in
  let t := Z.land (Z.shiftr t 3) 0x3f in
  let '(buf, inp) :=
    if negb (t =? 0) then
      if len <? 64 - t then (md5_buf ctx, buf_put (md5_in ctx) t data len)
      else
        let inp := buf_put (md5_in ctx) t data (64 - t) in
        md5_chunks (MD5Transform (md5_buf ctx) inp) inp (zdrop (64 - t) data)
    else md5_chunks (md5_buf ctx) (md5_in ctx) data in
  {| md5_buf := buf; md5_bits0 := bits0; md5_bits1 := bits1; md5_in := inp |}.

Definition md5_wiped : MD5Context :=
  {| md5_buf := zrepeat 0 4; md5_bits0 := 0; md5_bits1 := 0; md5_in := zrepeat 0 64 |}.

Definition MD5Final (ctx : MD5Context) : list Z * MD5Context :=
  let count := Z.land (Z.shiftr (md5_bits0 ctx) 3) 0x3F in
  let inp := buf_put (md5_in ctx) count [0x80] 1 in
  let p := count + 1 in
  let count := 64 - 1 - count in
  let '(buf, inp) :=
    if count <? 8 then
      let inp := buf_put inp p (zrepeat 0 count) count in
      (MD5Transform (md5_buf ctx) inp, buf_put inp 0 (zrepeat 0 56) 56)
    else (md5_buf ctx, buf_put inp p (zrepeat 0 (count - 8)) (count - 8)) in
  let inp := buf_put inp 56 (SILC_PUT32_LSB (md5_bits0 ctx)) 4 in
  let inp := buf_put inp 60 (SILC_PUT32_LSB (md5_bits1 ctx)) 4 in
  let buf := MD5Transform buf inp in
  (concat (map SILC_PUT32_LSB [word buf 0; word buf 1; word buf 2; word buf 3]), md5_wiped).
