(* ===== verification/HashSpec.v ===== *)
(** The hash functions of HashFns compute the iteration of their compression
    functions over the padded message, in whatever pieces the message comes:
    they are instances of HashLaws. *)

From S2P Require Import Prelude CTypes Hash HashFns.

(** [lia] with division by constants. *)
Ltac dlia := Z.to_euclidean_division_equations; lia.

(** * Arrays of words *)

Lemma byte_at_cut l n i : 0 <= i -> 0 <= n -> n + i < 64 ->
  byte_at (zdrop n (ztake 64 l)) i = byte_at (zdrop n l) i.
Proof.
  intros. unfold byte_at, zdrop, ztake.
  rewrite !List.nth_skipn. rewrite List.nth_firstn.
  destruct (Nat.ltb_spec (Z.to_nat n + Z.to_nat i) (Z.to_nat 64)); [done|lia].
Qed.

Lemma get_word_cut l n : 0 <= n <= 60 ->
  SILC_GET_WORD (zdrop n (ztake 64 l)) = SILC_GET_WORD (zdrop n l).
Proof. intros. unfold SILC_GET_WORD. by rewrite !byte_at_cut by lia. Qed.
Lemma get32_cut l n : 0 <= n <= 60 ->
  SILC_GET32_MSB (zdrop n (ztake 64 l)) = SILC_GET32_MSB (zdrop n l).
Proof. intros. unfold SILC_GET32_MSB. by rewrite !byte_at_cut by lia. Qed.
Lemma get32_lsb_cut l n : 0 <= n <= 60 ->
  SILC_GET32_LSB (zdrop n (ztake 64 l)) = SILC_GET32_LSB (zdrop n l).
Proof. intros. unfold SILC_GET32_LSB. by rewrite !byte_at_cut by lia. Qed.

Lemma sha1_rounds_cut data n : forall i w a b c d e, 0 <= i ->
  sha1_rounds n i (ztake 64 data) w a b c d e = sha1_rounds n i data w a b c d e.
Proof.
  induction n as [|n IH]; intros i w a b c d e Hi; [done|]. cbn [sha1_rounds].
  assert (sha1_blk w (ztake 64 data) i = sha1_blk w data i) as ->.
  { unfold sha1_blk. destruct (Z.ltb_spec i 16); [|done]. by rewrite get_word_cut by lia. }
  destruct (sha1_blk w data i). apply IH. lia.
Qed.

Lemma SHA1Transform_cut st data : SHA1Transform st (ztake 64 data) = SHA1Transform st data.
Proof. unfold SHA1Transform. by rewrite sha1_rounds_cut. Qed.

Lemma sha256_compress_cut st data :
  sha256_compress st (ztake 64 data) = sha256_compress st data.
Proof.
  unfold sha256_compress. do 3 f_equal.
  assert (map (fun i => SILC_GET32_MSB (zdrop (4 * Z.of_nat i) (ztake 64 data))) (seq 0 16) =
    map (fun i => SILC_GET32_MSB (zdrop (4 * Z.of_nat i) data)) (seq 0 16)) as ->; [|done].
  apply List.map_ext_in. intros i Hi%List.in_seq. apply get32_cut. lia.
Qed.

Lemma MD5Transform_cut st data : MD5Transform st (ztake 64 data) = MD5Transform st data.
Proof.
  unfold MD5Transform.
  assert (map (fun i => SILC_GET32_LSB (zdrop (4 * Z.of_nat i) (ztake 64 data))) (seq 0 16) =
    map (fun i => SILC_GET32_LSB (zdrop (4 * Z.of_nat i) data)) (seq 0 16)) as ->; [|done].
  apply List.map_ext_in. intros i Hi%List.in_seq. apply get32_lsb_cut. lia.
Qed.

Lemma MD5Transform_words st data (b := MD5Transform st data) :
  [word b 0; word b 1; word b 2; word b 3] = b.
Proof. done. Qed.

Lemma length_SHA1Transform st data : zlen (SHA1Transform st data) = 5.
Proof. done. Qed.
Lemma length_sha256_compress st data : zlen (sha256_compress st data) = 8.
Proof. unfold sha256_compress. by rewrite length_map. Qed.
Lemma length_MD5Transform st data : zlen (MD5Transform st data) = 4.
Proof. done. Qed.
#[local] Opaque SHA1Transform sha256_compress MD5Transform.

Lemma buf_put_app t k d n :
  0 <= n <= zlen d -> buf_put (t ++ k) (zlen t) d n = t ++ ztake n d ++ zdrop n k.
Proof.
  intros Hn. unfold buf_put. rewrite ztake_app_exact by done. rewrite mem_read_le by done.
  do 2 f_equal. rewrite <- zdrop_zdrop by lia. by rewrite zdrop_app_exact.
Qed.

Lemma buf_put_0 k d n : 0 <= n <= zlen d -> buf_put k 0 d n = ztake n d ++ zdrop n k.
Proof. intros Hn. by apply (buf_put_app [] k d n). Qed.

Lemma zdrop_suffix {A} (a t d : list A) : d = a ++ t -> zdrop (zlen d - zlen t) d = t.
Proof. intros ->. apply zdrop_app_exact. rewrite length_app. lia. Qed.

(** * Iterated compression *)

Section md.
Variable compress : list Z -> list Z -> list Z.
Hypothesis compress_cut : forall st data, compress st (ztake 64 data) = compress st data.

Fixpoint md_iter (n : nat) (st data : list Z) : list Z :=
  match n with
  | O => st
  | S n => md_iter n (compress st (ztake 64 data)) (zdrop 64 data)
  end.

(** The whole blocks of [data]. *)
Definition blocks (st data : list Z) : list Z := md_iter (Z.to_nat (zlen data / 64)) st data.

Lemma md_iter_app n m x y : forall st,
  zlen x = 64 * Z.of_nat n -> md_iter (n + m) st (x ++ y) = md_iter m (md_iter n st x) y.
Proof.
  revert x; induction n as [|n IH]; intros x st Hx.
  - by rewrite (zlen_0_nil x) by lia.
  - cbn [Nat.add md_iter]. rewrite ztake_app_le, zdrop_app_le by lia. apply IH.
    rewrite zlen_zdrop by lia. lia.
Qed.

Lemma md_iter_prefix n x y : forall st,
  zlen x = 64 * Z.of_nat n -> md_iter n st (x ++ y) = md_iter n st x.
Proof.
  intros st Hx. rewrite <- (Nat.add_0_r n) at 1. by rewrite md_iter_app.
Qed.

Lemma blocks_app st x y :
  zlen x mod 64 = 0 -> blocks st (x ++ y) = blocks (blocks st x) y.
Proof.
  intros Hx. unfold blocks. rewrite length_app.
  assert (zlen x = 64 * (zlen x / 64)) as E by dlia.
  replace (Z.to_nat (Z.of_nat (length x + length y) / 64))
    with (Z.to_nat (zlen x / 64) + Z.to_nat (zlen y / 64))%nat by dlia.
  apply md_iter_app. lia.
Qed.

Lemma blocks_short st t : zlen t < 64 -> blocks st t = st.
Proof. intros Ht. unfold blocks. by rewrite Z.div_small by lia. Qed.

Lemma blocks_one st b : zlen b = 64 -> blocks st b = compress st b.
Proof.
  intros Hb. unfold blocks. rewrite Hb. change (Z.to_nat (64 / 64)) with 1%nat. cbn [md_iter].
  apply compress_cut.
Qed.

Variable init : list Z.

(** After the message [m]: the blocks of it have been compressed, and [t] is
    waiting. *)
Definition holds (st t m : list Z) : Prop :=
  exists x, m = x ++ t /\ zlen x mod 64 = 0 /\ zlen t < 64 /\ st = blocks init x.

Lemma holds_nil : holds init [] [].
Proof. by exists []. Qed.

Lemma holds_len st t m : holds st t m -> zlen t = zlen m mod 64.
Proof. intros (x & -> & Hx & Ht & _). rewrite length_app. dlia. Qed.

Lemma holds_short st t m d : holds st t m -> zlen t + zlen d < 64 -> holds st (t ++ d) (m ++ d).
Proof.
  intros (x & -> & Hx & Ht & ->) Hd. exists x. rewrite app_assoc, length_app.
  split_and!; done || dlia.
Qed.

(** [y] fills up blocks, [t'] is left. *)
Lemma holds_blocks st t m d y t' :
  holds st t m -> t ++ d = y ++ t' -> zlen y mod 64 = 0 -> zlen t' < 64 ->
  holds (blocks st y) t' (m ++ d).
Proof.
  intros (x & -> & Hx & Ht & ->) Hd Hy Ht'. exists (x ++ y).
  rewrite <- !app_assoc, Hd. split; [done|]. rewrite blocks_app by done.
  rewrite length_app. split_and!; done || dlia.
Qed.

Lemma holds_done st m : holds st [] m -> st = blocks init m /\ zlen m mod 64 = 0.
Proof. intros (x & -> & Hx & _ & ->). by rewrite app_nil_r. Qed.

(** The padding: a one bit, zeros, and the length in bits. *)
Definition md_pad (len_bytes : Z -> list Z) (m : list Z) : list Z :=
  m ++ [0x80] ++ zrepeat 0 ((55 - zlen m) mod 64) ++ len_bytes (u64 (8 * zlen m)).

(** The last blocks: two when fewer than 8 bytes are free after the one bit. *)
Lemma md_pad_blocks lb st t m :
  holds st t m -> zlen (lb (u64 (8 * zlen m))) = 8 ->
  blocks init (md_pad lb m) =
  if 56 <=? zlen t
  then compress (compress st (t ++ [0x80] ++ zrepeat 0 (63 - zlen t)))
                (zrepeat 0 56 ++ lb (u64 (8 * zlen m)))
  else compress st (t ++ [0x80] ++ zrepeat 0 (55 - zlen t) ++ lb (u64 (8 * zlen m))).
Proof.
  intros Hh Hlb. pose proof (holds_len _ _ _ Hh) as Ht. destruct Hh as (x & E & Hx & Ht64 & ->).
  unfold md_pad. set (n := zlen m) in *. rewrite E, <- app_assoc, blocks_app by done.
  destruct (Z.leb_spec 56 (zlen t)).
  - replace ((55 - n) mod 64) with ((63 - zlen t) + 56) by dlia.
    assert (zrepeat 0 (63 - zlen t + 56) = zrepeat 0 (63 - zlen t) ++ zrepeat 0 56) as ->
      by (unfold zrepeat; rewrite Z2Nat.inj_add by lia; apply replicate_add).
    replace (t ++ [0x80] ++ (zrepeat 0 (63 - zlen t) ++ zrepeat 0 56) ++ lb (u64 (8 * n)))
      with ((t ++ [0x80] ++ zrepeat 0 (63 - zlen t)) ++ zrepeat 0 56 ++ lb (u64 (8 * n)))
      by (by rewrite <- !app_assoc).
    assert (zlen (t ++ [0x80] ++ zrepeat 0 (63 - zlen t)) = 64) as E1.
    { rewrite !length_app. unfold zrepeat. rewrite length_replicate. simpl length. lia. }
    rewrite blocks_app by (by rewrite E1). rewrite (blocks_one _ _ E1). apply blocks_one.
    rewrite length_app. unfold zrepeat. rewrite length_replicate. lia.
  - replace ((55 - n) mod 64) with (55 - zlen t) by dlia. apply blocks_one.
    rewrite !length_app. unfold zrepeat. rewrite length_replicate. simpl length. lia.
Qed.
End md.

(** ** The bit counters *)

Definition bits_lo (n : Z) : Z := u32 (8 * n).
Definition bits_hi (n : Z) : Z := u32 (8 * n / 2 ^ 32).

Lemma bits_mod64 n : Z.land (Z.shiftr (bits_lo n) 3) 63 = n mod 64.
Proof.
  unfold bits_lo, u32. change 63 with (Z.ones 6). rewrite Z.land_ones, Z.shiftr_div_pow2 by lia.
  change (2 ^ 3) with 8. change (2 ^ 6) with 64. change (2 ^ 32) with 4294967296. dlia.
Qed.

Lemma bits_add n len :
  0 <= n -> 0 <= len < 2 ^ 31 ->
  u32 (bits_lo n + u32 (Z.shiftl len 3)) = bits_lo (n + len) /\
  u32 ((if bits_lo (n + len) <? u32 (Z.shiftl len 3) then u32 (bits_hi n + 1) else bits_hi n) +
       Z.shiftr len 29) = bits_hi (n + len) /\
  (bits_lo (n + len) <? bits_lo n) = (bits_lo (n + len) <? u32 (Z.shiftl len 3)).
Proof.
  intros Hn Hl. unfold bits_lo, bits_hi, u32.
  rewrite Z.shiftl_mul_pow2, Z.shiftr_div_pow2 by lia.
  change (2 ^ 3) with 8. change (2 ^ 29) with 536870912. change (2 ^ 32) with 4294967296.
  repeat split; repeat zcase; dlia.
Qed.

(** * SHA-1 *)

Definition sha1_init_state : list Z :=
  [0x67452301; 0xEFCDAB89; 0x98BADCFE; 0x10325476; 0xC3D2E1F0].

Abbreviation sha1_blocks := (blocks SHA1Transform).

Definition sha1_ok (ctx : SHA1_CTX) (m : list Z) : Prop :=
  exists t k, sha1_buffer ctx = t ++ k /\
    holds SHA1Transform sha1_init_state (sha1_state ctx) t m /\
    sha1_count0 ctx = bits_lo (zlen m) /\ sha1_count1 ctx = bits_hi (zlen m).

(** The whole blocks from [i] on. *)
Lemma sha1_update_loop_spec data fuel : forall st i,
  0 <= i <= zlen data -> zlen data - i < 64 * Z.of_nat fuel + 64 ->
  exists y t, zdrop i data = y ++ t /\ zlen y mod 64 = 0 /\ zlen t < 64 /\
    sha1_update_loop fuel st data i = (sha1_blocks st y, zlen data - zlen t).
Proof.
  induction fuel as [|fuel IH]; intros st i Hi Hf; cbn [sha1_update_loop].
  - exists [], (zdrop i data). rewrite zlen_zdrop by lia.
    split_and!; done || lia || (f_equal; lia).
  - destruct (Z.ltb_spec (i + 63) (zlen data)).
    + destruct (IH (SHA1Transform st (zdrop i data)) (i + 64)) as (y & t & E & Hy & Ht & ->); [lia..|].
      rewrite <- (zdrop_zdrop 64 i) in E by lia.
      assert (zlen (ztake 64 (zdrop i data)) = 64) as H64
        by (rewrite zlen_ztake; [done|rewrite zlen_zdrop; lia]).
      exists (ztake 64 (zdrop i data) ++ y), t.
      rewrite <- app_assoc, <- E, ztake_zdrop, length_app.
      split; [done|]. split; [dlia|]. split; [done|]. f_equal.
      rewrite (blocks_app SHA1Transform) by (by rewrite H64). f_equal.
      rewrite (blocks_one SHA1Transform SHA1Transform_cut) by done. by rewrite SHA1Transform_cut.
    + exists [], (zdrop i data). rewrite zlen_zdrop by lia.
      split_and!; done || lia || (f_equal; lia).
Qed.

Lemma SHA1Update_ok ctx m d :
  sha1_ok ctx m -> zlen d < 2 ^ 31 -> sha1_ok (SHA1Update ctx d) (m ++ d).
Proof.
  intros (t & k & Hb & Hh & H0' & H1') Hd. pose proof (holds_len _ _ _ _ _ Hh) as Ht.
  destruct (bits_add (zlen m) (zlen d)) as (B0 & B1 & _); [lia..|].
  unfold SHA1Update. rewrite H0', H1', bits_mod64, <- Ht, B0, B1.
  assert (zlen (m ++ d) = zlen m + zlen d) as Hmd by (rewrite length_app; lia).
  pose proof Hh as (_ & _ & _ & Ht64 & _).
  rewrite u32_id by lia. rewrite Hb. destruct (Z.ltb_spec 63 (zlen t + zlen d)).
  - rewrite buf_put_app by lia.
    destruct (sha1_update_loop_spec d (length d)
      (SHA1Transform (sha1_state ctx) (t ++ ztake (64 - zlen t) d ++ zdrop (64 - zlen t) k))
      (64 - zlen t)) as (y & t' & E & Hy & Ht' & ->); [lia..|].
    assert (zlen t' <= zlen d) as Htd.
    { apply (f_equal (fun l => zlen l)) in E. rewrite zlen_zdrop, length_app in E by lia. lia. }
    replace (zlen d - (zlen d - zlen t')) with (zlen t') by lia.
    assert (zdrop (zlen d - zlen t') d = t') as Edt.
    { apply (zdrop_suffix (ztake (64 - zlen t) d ++ y)).
      by rewrite <- app_assoc, <- E, ztake_zdrop. }
    rewrite Edt, buf_put_0, (ztake_all (zlen t') t') by lia. eexists t', _. split; [reflexivity|].
    cbn [sha1_state sha1_count0 sha1_count1]. rewrite Hmd. split; [|done].
    set (b := ztake (64 - zlen t) d) in *.
    assert (zlen (t ++ b) = 64) as Hb64
      by (unfold b; rewrite length_app, Nat2Z.inj_add, zlen_ztake; lia).
    rewrite app_assoc, <- (SHA1Transform_cut _ ((t ++ b) ++ _)), ztake_app_exact by done.
    rewrite <- (blocks_one SHA1Transform SHA1Transform_cut) by done.
    rewrite <- blocks_app by (by rewrite Hb64).
    apply (holds_blocks SHA1Transform sha1_init_state _ t); try done.
    + rewrite <- app_assoc, <- (app_assoc t), <- E. unfold b. by rewrite ztake_zdrop.
    + rewrite length_app. dlia.
  - rewrite buf_put_app, ztake_all by lia. exists (t ++ d), (zdrop (zlen d) k).
    cbn [sha1_buffer sha1_state sha1_count0 sha1_count1]. rewrite Hmd, app_assoc.
    split; [done|]. split; [|done]. apply holds_short; [done|lia].
Qed.

Lemma bits_pad n : 0 <= n -> (Z.land (bits_lo n) 504 =? 448) = (n mod 64 =? 56).
Proof.
  intros Hn. assert (Z.land (bits_lo n) 504 = 8 * (n mod 64)) as ->.
  { assert (bits_lo n = Z.shiftl (n mod 2 ^ 29) 3) as ->.
    { unfold bits_lo, u32. rewrite Z.shiftl_mul_pow2 by lia. change (2 ^ 3) with 8.
      change (2 ^ 32) with 4294967296. change (2 ^ 29) with 536870912. dlia. }
    change 504 with (Z.shiftl (Z.ones 6) 3). rewrite <- Z.shiftl_land, Z.land_ones by lia.
    rewrite Z.shiftl_mul_pow2 by lia. change (2 ^ 3) with 8. change (2 ^ 29) with 536870912.
    change (2 ^ 6) with 64. dlia. }
  dlia.
Qed.

Lemma sha1_pad_loop_ok fuel : forall ctx m,
  sha1_ok ctx m -> (56 - zlen m) mod 64 <= Z.of_nat fuel ->
  sha1_ok (sha1_pad_loop fuel ctx) (m ++ zrepeat 0 ((56 - zlen m) mod 64)).
Proof.
  induction fuel as [|fuel IH]; intros ctx m Hc Hf; cbn [sha1_pad_loop].
  - replace ((56 - zlen m) mod 64) with 0 by dlia. by rewrite app_nil_r.
  - pose proof Hc as (_ & _ & _ & _ & -> & _). rewrite bits_pad by lia.
    destruct (Z.eqb_spec (zlen m mod 64) 56); cbn [negb].
    + replace ((56 - zlen m) mod 64) with 0 by dlia. by rewrite app_nil_r.
    + assert ((56 - zlen m) mod 64 = 1 + (56 - zlen (m ++ [0])) mod 64) as E
        by (rewrite length_app; simpl; dlia).
      replace (zrepeat 0 ((56 - zlen m) mod 64))
        with ([0] ++ zrepeat 0 ((56 - zlen (m ++ [0])) mod 64)).
      2: { rewrite E. unfold zrepeat. rewrite Z2Nat.inj_add by dlia. done. }
      rewrite app_assoc. apply IH; [by apply SHA1Update_ok|lia].
Qed.

Lemma bits_lo_u64 n : bits_lo n = u32 (u64 (8 * n)).
Proof.
  unfold bits_lo, u64, u32. change (2 ^ 32) with 4294967296.
  change (2 ^ 64) with 18446744073709551616. dlia.
Qed.

Lemma bits_hi_u64 n : bits_hi n = u32 (Z.shiftr (u64 (8 * n)) 32).
Proof.
  unfold bits_hi, u64, u32. rewrite Z.shiftr_div_pow2 by lia. change (2 ^ 32) with 4294967296.
  change (2 ^ 64) with 18446744073709551616. dlia.
Qed.

Lemma u64_bits n : SILC_PUT32_MSB (bits_hi n) ++ SILC_PUT32_MSB (bits_lo n) =
  SILC_PUT64_MSB (u64 (8 * n)).
Proof.
  unfold SILC_PUT64_MSB. rewrite bits_hi_u64, bits_lo_u64. do 3 f_equal.
  unfold u64. by rewrite Z.mod_mod.
Qed.

Definition sha1_fn (m : list Z) : list Z :=
  concat (map SILC_PUT32_MSB (sha1_blocks sha1_init_state (md_pad SILC_PUT64_MSB m))).

Lemma SHA1Final_fn ctx m : sha1_ok ctx m -> (SHA1Final ctx).1 = sha1_fn m.
Proof.
  intros Hc. unfold SHA1Final. cbn [fst]. unfold sha1_fn. do 2 f_equal.
  pose proof Hc as (_ & _ & _ & _ & Hc0 & Hc1). rewrite Hc0, Hc1, u64_bits.
  assert (sha1_ok (SHA1Update ctx [0x80]) (m ++ [0x80])) as H1' by (by apply SHA1Update_ok).
  apply (sha1_pad_loop_ok 64) in H1'; [|dlia].
  apply (SHA1Update_ok _ _ (SILC_PUT64_MSB (u64 (8 * zlen m)))) in H1'; [|done].
  destruct H1' as (t & k & _ & Hh & _). pose proof (holds_len _ _ _ _ _ Hh) as Ht.
  assert (t = []) as ->.
  { apply zlen_0_nil. rewrite Ht, !length_app. unfold zrepeat. rewrite length_replicate.
    change (length (SILC_PUT64_MSB (u64 (8 * zlen m)))) with 8%nat.
    change (length [128]) with 1%nat. dlia. }
  apply holds_done in Hh as [-> _]. unfold md_pad. rewrite <- !app_assoc.
  replace (56 - zlen (m ++ [128])) with (55 - zlen m); [done|].
  rewrite length_app. change (length [128]) with 1%nat. lia.
Qed.

#[export] Instance sha1 : HashAlg :=
  {| hash_context := SHA1_CTX; alg_hash_init := SHA1Init; alg_hash_update := SHA1Update;
     alg_hash_final := SHA1Final; alg_hash_len := 20; alg_hash_block_len := 64 |}.

(** The digest: the words of the state. *)
Section words.
Variable put : Z -> list Z.
Hypothesis put_bytes : forall x, bytes_ok (put x).
Hypothesis put_len : forall x, zlen (put x) = 4.

Lemma concat_words_bytes l : bytes_ok (concat (map put l)).
Proof.
  induction l as [|x l IH]; [constructor|]. cbn [map concat]. by apply Forall_app.
Qed.

Lemma concat_words_len l : zlen (concat (map put l)) = 4 * zlen l.
Proof.
  induction l as [|x l IH]; [done|]. cbn [map concat]. rewrite length_app, Nat2Z.inj_add, IH, put_len.
  cbn [length]. lia.
Qed.
End words.

Lemma bytes_ok_PUT32_LSB x : bytes_ok (SILC_PUT32_LSB x).
Proof. repeat constructor; apply u8_range. Qed.

Lemma blocks_words compress n st data :
  (forall st b, zlen (compress st b) = n) -> zlen st = n -> zlen (blocks compress st data) = n.
Proof.
  intros Hc. unfold blocks. generalize (Z.to_nat (zlen data / 64)) as k. intros k.
  revert st data. induction k as [|k IH]; intros st data Hs; [done|]. cbn [md_iter]. by apply IH.
Qed.

(** Updates keep an invariant between the context and the message. *)
Lemma foldl_update {C : Type} (ok : C -> list Z -> Prop) (update : C -> list Z -> C) l :
  (forall c m d, ok c m -> zlen d < 2 ^ 31 -> ok (update c d) (m ++ d)) ->
  forall c m, ok c m -> Forall (fun x => zlen x < 2 ^ 31) l -> ok (foldl update c l) (m ++ concat l).
Proof.
  intros Hu. induction l as [|x l IH]; intros c m Hc Hl; cbn [foldl concat].
  - by rewrite app_nil_r.
  - apply Forall_cons_iff in Hl as [Hx Hl]. rewrite app_assoc. apply IH; [by apply Hu|done].
Qed.

#[export] Instance sha1_laws : HashLaws sha1.
Proof.
  exists sha1_fn; try done.
  - intros c l Hl. apply (SHA1Final_fn _ (concat l)).
    apply (foldl_update sha1_ok SHA1Update l SHA1Update_ok (SHA1Init c) [] ); [|done].
    exists [], (sha1_buffer c). split; [done|]. split; [apply holds_nil|done].
  - intros l. apply (concat_words_bytes _ bytes_ok_PUT32_MSB).
  - intros l. unfold sha1_fn.
    rewrite (concat_words_len SILC_PUT32_MSB) by done.
    rewrite (blocks_words _ 5); [done|apply length_SHA1Transform|done].
Defined.

(** * SHA-256 *)

Definition sha256_init_state : list Z :=
  [0x6A09E667; 0xBB67AE85; 0x3C6EF372; 0xA54FF53A; 0x510E527F; 0x9B05688C; 0x1F83D9AB; 0x5BE0CD19].

Definition sha256_ok (md : sha256_state) (m : list Z) : Prop :=
  exists t k, s256_buf md = t ++ k /\
    holds sha256_compress sha256_init_state (s256_state md) t m /\
    s256_curlen md = zlen t /\ s256_length md = u64 (8 * (zlen m - zlen t)).

Lemma u64_add64 a : u64 (u64 (8 * a) + 64 * 8) = u64 (8 * (a + 64)).
Proof. unfold u64. change (2 ^ 64) with 18446744073709551616. dlia. Qed.

(** Filling the buffer. *)
Definition sha256_fill (md : sha256_state) (data : list Z) (n : Z) : sha256_state :=
  let buf := buf_put (s256_buf md) (s256_curlen md) data n in
  let curlen := u32 (s256_curlen md + n) in
  if curlen =? 64
  then {| s256_length := u64 (s256_length md + 64 * 8);
          s256_state := sha256_compress (s256_state md) buf; s256_curlen := 0; s256_buf := buf |}
  else {| s256_length := s256_length md; s256_state := s256_state md;
          s256_curlen := curlen; s256_buf := buf |}.

Lemma sha256_fill_ok md m data n :
  sha256_ok md m -> n = Z.min (zlen data) (64 - s256_curlen md) ->
  sha256_ok (sha256_fill md data n) (m ++ ztake n data).
Proof.
  intros (t & k & Hb & Hh & Hc & Hl) Hn. pose proof Hh as (_ & _ & _ & Ht & _).
  assert (zlen (ztake n data) = n) as Etn by (apply zlen_ztake; lia).
  assert (zlen (m ++ ztake n data) = zlen m + n) as Em by (rewrite length_app; lia).
  unfold sha256_fill. rewrite Hb, Hc, u32_id, buf_put_app by lia.
  destruct (Z.eqb_spec (zlen t + n) 64); unfold sha256_ok;
    cbn [s256_buf s256_state s256_curlen s256_length];
    rewrite Em, Hl.
  - exists [], (t ++ ztake n data ++ zdrop n k). split; [done|].
    assert (zlen (t ++ ztake n data) = 64) as E64 by (rewrite length_app; lia).
    rewrite app_assoc, <- (sha256_compress_cut _ ((t ++ _) ++ _)), ztake_app_exact by done.
    rewrite <- (blocks_one sha256_compress sha256_compress_cut) by done. split.
    { apply (holds_blocks _ _ _ t m); [done|by rewrite app_nil_r|by rewrite E64|done]. }
    split; [done|]. rewrite u64_add64. do 2 f_equal. cbn [length]. lia.
  - exists (t ++ ztake n data), (zdrop n k). rewrite app_assoc. split; [done|]. split.
    { apply holds_short; [done|lia]. }
    rewrite length_app. split; [lia|]. do 2 f_equal. lia.
Qed.

Lemma sha256_process_loop_ok fuel : forall md m data,
  sha256_ok md m -> zlen data <= Z.of_nat fuel ->
  sha256_ok (sha256_process_loop fuel md data) (m ++ data).
Proof.
  induction fuel as [|fuel IH]; intros md m data Hmd Hf; cbn [sha256_process_loop].
  { rewrite (zlen_0_nil data) by lia. by rewrite app_nil_r. }
  destruct (Z.ltb_spec 0 (zlen data)).
  2: { rewrite (zlen_0_nil data) by lia. by rewrite app_nil_r. }
  pose proof Hmd as (t & k & Hb & Hh & Hc & Hl). pose proof Hh as (_ & _ & _ & Ht & _).
  destruct ((s256_curlen md =? 0) && (64 <=? zlen data)) eqn:E0.
  - apply andb_true_iff in E0 as [H0'%Z.eqb_eq H64%Z.leb_le].
    assert (zlen (ztake 64 data) = 64) as El by (rewrite zlen_ztake; lia).
    assert (m ++ data = (m ++ ztake 64 data) ++ zdrop 64 data) as ->
      by (by rewrite <- app_assoc, ztake_zdrop).
    apply IH; [|rewrite zlen_zdrop; lia].
    assert (t = []) as -> by (apply zlen_0_nil; lia).
    exists [], k. cbn [s256_buf s256_state s256_curlen s256_length]. split; [done|].
    rewrite <- sha256_compress_cut.
    rewrite <- (blocks_one sha256_compress sha256_compress_cut) by done. split.
    { apply (holds_blocks _ _ _ [] m); [done|by rewrite app_nil_r|by rewrite El|done]. }
    split; [done|]. rewrite Hl, u64_add64, length_app. do 2 f_equal. cbn [length]. lia.
  - set (n := Z.min (zlen data) (64 - s256_curlen md)).
    assert (m ++ data = (m ++ ztake n data) ++ zdrop n data) as ->
      by (by rewrite <- app_assoc, ztake_zdrop).
    apply IH; [by apply sha256_fill_ok|]. rewrite zlen_zdrop; lia.
Qed.

Lemma sha256_process_ok md m data :
  sha256_ok md m -> sha256_ok (sha256_process md data) (m ++ data).
Proof.
  intros Hmd. unfold sha256_process. pose proof Hmd as (t & k & _ & (_ & _ & _ & Ht & _) & Hc & _).
  destruct (Z.ltb_spec 64 (s256_curlen md)); [lia|]. apply sha256_process_loop_ok; [done|lia].
Qed.

Lemma s256_zeros_app p k n : zlen p <= n ->
  s256_zeros (p ++ k) (zlen p) n = p ++ zrepeat 0 (n - zlen p) ++ zdrop (n - zlen p) k.
Proof.
  intros Hn. unfold s256_zeros. rewrite Z.max_r by lia.
  assert (zlen (zrepeat 0 (n - zlen p)) = n - zlen p) as E
    by (unfold zrepeat; rewrite length_replicate; lia).
  rewrite buf_put_app by lia. by rewrite ztake_all by lia.
Qed.

Lemma s256_zeros_0 k : s256_zeros k 0 56 = zrepeat 0 56 ++ zdrop 56 k.
Proof. by apply (s256_zeros_app [] k 56). Qed.

Lemma length_zrepeat {A} (x : A) n : 0 <= n -> zlen (zrepeat x n) = n.
Proof. intros. unfold zrepeat. rewrite length_replicate. lia. Qed.

(** The length at the end of the last block. *)
Lemma buf_put_last (q k d : list Z) j n :
  zlen q = j -> zlen d = n -> j + n = 64 -> ztake 64 (buf_put (q ++ k) j d n) = q ++ d.
Proof.
  intros <- <- E. rewrite buf_put_app, (ztake_all (zlen d) d), app_assoc by lia.
  apply ztake_app_exact. rewrite length_app. lia.
Qed.

Definition sha256_fn (m : list Z) : list Z :=
  concat (map SILC_PUT32_MSB
    (blocks sha256_compress sha256_init_state (md_pad SILC_PUT64_MSB m))).

Lemma sha256_done_fn md m : sha256_ok md m -> (sha256_done md).1 = Some (sha256_fn m).
Proof.
  intros (t & k & Hb & Hh & Hc & Hl). unfold sha256_fn.
  rewrite (md_pad_blocks _ sha256_compress_cut _ _ _ t m Hh) by done.
  pose proof Hh as (_ & _ & _ & Ht & _).
  unfold sha256_done. rewrite Hc, Hl, Hb. destruct (Z.leb_spec 64 (zlen t)); [lia|].
  assert (u64 (u64 (8 * (zlen m - zlen t)) + u32 (zlen t * 8)) = u64 (8 * zlen m)) as ->.
  { rewrite u32_id by lia. unfold u64. change (2 ^ 64) with 18446744073709551616. dlia. }
  rewrite buf_put_app by (cbn [length]; lia). change (ztake 1 [128]) with [128].
  set (p := t ++ [128]). rewrite (app_assoc t [128]). fold p.
  assert (zlen t + 1 = zlen p) as -> by (unfold p; rewrite length_app; cbn [length]; lia).
  assert (zlen p = zlen t + 1) as Ep by (unfold p; rewrite length_app; cbn [length]; lia).
  destruct (Z.ltb_spec 56 (zlen p)); destruct (Z.leb_spec 56 (zlen t)); try lia; cbn [fst].
  - rewrite s256_zeros_app by lia.
    rewrite <- (sha256_compress_cut _ (p ++ _)), app_assoc, ztake_app_exact
      by (rewrite length_app; pose proof (length_zrepeat 0 (64 - zlen p)); lia).
    rewrite s256_zeros_0.
    rewrite <- (sha256_compress_cut _ (buf_put _ _ _ _)), buf_put_last by done.
    replace (64 - zlen p) with (63 - zlen t) by lia. unfold p. by rewrite <- app_assoc.
  - rewrite s256_zeros_app by lia. rewrite app_assoc.
    rewrite <- (sha256_compress_cut _ (buf_put _ _ _ _)), buf_put_last; [|..|done|done].
    2: { rewrite length_app. pose proof (length_zrepeat 0 (56 - zlen p)). lia. }
    replace (56 - zlen p) with (55 - zlen t) by lia. unfold p. by rewrite <- !app_assoc.
Qed.

(** [sha256_done] with the digest buffer left as it is on failure. *)
Definition silc_sha256_final (md : sha256_state) : list Z * sha256_state :=
  let '(digest, md) := sha256_done md in (default (zrepeat indet 32) digest, md).

#[export] Instance sha256 : HashAlg :=
  {| hash_context := sha256_state; alg_hash_init := sha256_init;
     alg_hash_update := sha256_process; alg_hash_final := silc_sha256_final;
     alg_hash_len := 32; alg_hash_block_len := 64 |}.

#[export] Instance sha256_laws : HashLaws sha256.
Proof.
  exists sha256_fn; try done.
  - intros c l Hl. cbn. unfold silc_sha256_final.
    assert (sha256_ok (foldl sha256_process (sha256_init c) l) (concat l)) as E.
    { apply (foldl_update sha256_ok sha256_process l (fun c m d H _ => sha256_process_ok c m d H)
        (sha256_init c) []); [|done].
      exists [], (s256_buf c). split; [done|]. split; [apply holds_nil|done]. }
    apply sha256_done_fn in E. destruct (sha256_done _). cbn in E. by subst.
  - intros l. apply (concat_words_bytes _ bytes_ok_PUT32_MSB).
  - intros l. unfold sha256_fn.
    rewrite (concat_words_len SILC_PUT32_MSB) by done.
    rewrite (blocks_words _ 8); [done|apply length_sha256_compress|done].
Defined.

(** * MD5 *)

Definition md5_init_state : list Z := [0x67452301; 0xefcdab89; 0x98badcfe; 0x10325476].

Definition md5_ok (ctx : MD5Context) (m : list Z) : Prop :=
  exists t k, md5_in ctx = t ++ k /\
    holds MD5Transform md5_init_state (md5_buf ctx) t m /\
    md5_bits0 ctx = bits_lo (zlen m) /\ md5_bits1 ctx = bits_hi (zlen m).

Lemma md5_update_loop_spec fuel : forall buf inp data,
  zlen data < 64 * Z.of_nat fuel + 64 ->
  exists y t k, data = y ++ t /\ zlen y mod 64 = 0 /\ zlen t < 64 /\
    md5_update_loop fuel buf inp data = (blocks MD5Transform buf y, k, t).
Proof.
  induction fuel as [|fuel IH]; intros buf inp data Hf; cbn [md5_update_loop].
  { exists [], data, inp. split_and!; done || lia. }
  destruct (Z.leb_spec 64 (zlen data)).
  2: { exists [], data, inp. split_and!; done || lia. }
  rewrite buf_put_0, <- (MD5Transform_cut _ (ztake 64 data ++ _)), ztake_app_exact
    by (rewrite ?zlen_ztake; lia).
  assert (zlen (ztake 64 data) = 64) as E64 by (rewrite zlen_ztake; lia).
  destruct (IH (MD5Transform buf (ztake 64 data)) (ztake 64 data ++ zdrop 64 inp) (zdrop 64 data))
    as (y & t & k & E & Hy & Ht & ->); [rewrite zlen_zdrop; lia|].
  exists (ztake 64 data ++ y), t, k. rewrite <- app_assoc, <- E, ztake_zdrop, length_app.
  split; [done|]. split; [dlia|]. split; [done|].
  rewrite blocks_app by (by rewrite E64).
  by rewrite (blocks_one MD5Transform MD5Transform_cut _ _ E64).
Qed.

Lemma md5_chunks_spec buf inp data :
  exists y t k, data = y ++ t /\ zlen y mod 64 = 0 /\ zlen t < 64 /\
    md5_chunks buf inp data = (blocks MD5Transform buf y, t ++ k).
Proof.
  unfold md5_chunks.
  destruct (md5_update_loop_spec (length data) buf inp data) as (y & t & k & E & Hy & Ht & ->); [lia|].
  exists y, t, (zdrop (zlen t) k). rewrite buf_put_0, ztake_all by lia. done.
Qed.

Lemma MD5Update_ok ctx m d :
  md5_ok ctx m -> zlen d < 2 ^ 31 -> md5_ok (MD5Update ctx d) (m ++ d).
Proof.
  intros (t & k & Hb & Hh & H0' & H1') Hd. pose proof (holds_len _ _ _ _ _ Hh) as Ht.
  destruct (bits_add (zlen m) (zlen d)) as (B0 & B1 & B2); [lia..|]. rewrite <- B2 in B1.
  unfold MD5Update. rewrite H0', H1', B0, B1. change 0x3f with 63. rewrite bits_mod64, <- Ht.
  assert (zlen (m ++ d) = zlen m + zlen d) as Hmd by (rewrite length_app; lia).
  pose proof Hh as (_ & _ & _ & Ht64 & _). unfold md5_ok. rewrite Hmd.
  destruct (Z.eqb_spec (zlen t) 0) as [Z0|Z0]; cbn [negb];
    [|rewrite Hb; destruct (Z.ltb_spec (zlen d) (64 - zlen t))].
  - destruct (md5_chunks_spec (md5_buf ctx) (md5_in ctx) d) as (y & t' & k' & -> & Hy & Ht' & ->).
    exists t', k'. cbn [md5_buf md5_in md5_bits0 md5_bits1]. split; [done|]. split; [|done].
    apply (holds_blocks _ _ _ t m); try done. by rewrite (zlen_0_nil t).
  - rewrite buf_put_app, ztake_all by lia. exists (t ++ d), (zdrop (zlen d) k).
    cbn [md5_buf md5_in md5_bits0 md5_bits1]. rewrite app_assoc. split; [done|]. split; [|done].
    apply holds_short; [done|lia].
  - rewrite buf_put_app by lia. set (b := ztake (64 - zlen t) d).
    assert (zlen (t ++ b) = 64) as E64
      by (unfold b; rewrite length_app, Nat2Z.inj_add, zlen_ztake; lia).
    rewrite app_assoc, <- (MD5Transform_cut _ ((t ++ b) ++ _)), ztake_app_exact by done.
    rewrite <- (blocks_one MD5Transform MD5Transform_cut) by done.
    set (st := blocks MD5Transform (md5_buf ctx) (t ++ b)).
    destruct (md5_chunks_spec st ((t ++ b) ++ zdrop (64 - zlen t) k) (zdrop (64 - zlen t) d))
      as (y & t' & k' & E & Hy & Ht' & ->).
    exists t', k'. cbn [md5_buf md5_in md5_bits0 md5_bits1]. split; [done|]. split; [|done].
    unfold st. rewrite <- blocks_app by (by rewrite E64).
    apply (holds_blocks _ _ _ t m); try done.
    + rewrite <- app_assoc, <- (app_assoc t), <- E. unfold b. by rewrite ztake_zdrop.
    + rewrite length_app. dlia.
Qed.

Definition md5_len_bytes (x : Z) : list Z :=
  SILC_PUT32_LSB (u32 x) ++ SILC_PUT32_LSB (u32 (Z.shiftr x 32)).

Definition md5_fn (m : list Z) : list Z :=
  concat (map SILC_PUT32_LSB
    (blocks MD5Transform md5_init_state (md_pad md5_len_bytes m))).

(** The two halves of the length. *)
Lemma md5_put_len q k n : zlen q = 56 ->
  ztake 64 (buf_put (buf_put (q ++ k) 56 (SILC_PUT32_LSB (bits_lo n)) 4) 60
                    (SILC_PUT32_LSB (bits_hi n)) 4) = q ++ md5_len_bytes (u64 (8 * n)).
Proof.
  intros Hq. unfold md5_len_bytes. rewrite <- bits_lo_u64, <- bits_hi_u64. rewrite <- Hq at 1.
  rewrite buf_put_app, (ztake_all 4 (SILC_PUT32_LSB _)) by done.
  rewrite (app_assoc q), buf_put_last, <- app_assoc; [done| |done|done].
  rewrite length_app, Nat2Z.inj_add, Hq. done.
Qed.

Lemma MD5Final_fn ctx m : md5_ok ctx m -> (MD5Final ctx).1 = md5_fn m.
Proof.
  intros (t & k & Hb & Hh & H0' & H1'). unfold md5_fn.
  rewrite (md_pad_blocks _ MD5Transform_cut _ _ _ t m Hh) by done.
  pose proof (holds_len _ _ _ _ _ Hh) as Ht. pose proof Hh as (_ & _ & _ & Ht64 & _).
  unfold MD5Final. rewrite H0', H1', Hb. change 0x3F with 63. rewrite bits_mod64, <- Ht.
  rewrite buf_put_app by (cbn [length]; lia). change (ztake 1 [128]) with [128].
  set (p := t ++ [128]). rewrite (app_assoc t [128]). fold p.
  assert (zlen t + 1 = zlen p) as -> by (unfold p; rewrite length_app; cbn [length]; lia).
  assert (zlen p = zlen t + 1) as Ep by (unfold p; rewrite length_app; cbn [length]; lia).
  destruct (Z.ltb_spec (64 - 1 - zlen t) 8); destruct (Z.leb_spec 56 (zlen t)); try lia; cbn [fst].
  - rewrite MD5Transform_words.
    rewrite <- (MD5Transform_cut _ (buf_put (p ++ _) _ _ _)), buf_put_last
      by (rewrite ?length_zrepeat; lia).
    rewrite (buf_put_0 _ (zrepeat 0 56) 56) by done. rewrite (ztake_all 56) by done.
    rewrite <- (MD5Transform_cut _ (buf_put _ 60 _ _)), md5_put_len by done.
    replace (64 - 1 - zlen t) with (63 - zlen t) by lia. unfold p. by rewrite <- app_assoc.
  - rewrite MD5Transform_words. set (n := 64 - 1 - zlen t - 8).
    assert (zlen (zrepeat 0 n) = n) as En by (apply length_zrepeat; lia).
    rewrite (buf_put_app p _ (zrepeat 0 n) n) by lia. rewrite (ztake_all n), app_assoc by lia.
    rewrite <- (MD5Transform_cut _ (buf_put _ 60 _ _)), md5_put_len
      by (rewrite length_app; lia).
    replace n with (55 - zlen t) by lia. unfold p. by rewrite <- !app_assoc.
Qed.

#[export] Instance md5 : HashAlg :=
  {| hash_context := MD5Context; alg_hash_init := MD5Init; alg_hash_update := MD5Update;
     alg_hash_final := MD5Final; alg_hash_len := 16; alg_hash_block_len := 64 |}.

#[export] Instance md5_laws : HashLaws md5.
Proof.
  exists md5_fn; try done.
  - intros c l Hl. apply (MD5Final_fn _ (concat l)).
    apply (foldl_update md5_ok MD5Update l MD5Update_ok (MD5Init c) []); [|done].
    exists [], (md5_in c). split; [done|]. split; [apply holds_nil|done].
  - intros l. apply (concat_words_bytes _ bytes_ok_PUT32_LSB).
  - intros l. unfold md5_fn.
    rewrite (concat_words_len SILC_PUT32_LSB) by done.
    rewrite (blocks_words _ 4); [done|apply length_MD5Transform|done].
Defined.

(** * The hash functions of the library *)

(** silc_hash_init, silc_hash_update for each piece, silc_hash_final. *)
Definition hash_pieces (A : HashAlg) (c : @hash_context A) (l : list (list Z)) : list Z :=
  (silc_hash_final (foldl silc_hash_update (silc_hash_init c) l)).1.

(** C34. Each hash function computes, for data given in any pieces shorter than 2^31
    bytes, the iteration of its compression function over the concatenation of the
    pieces padded with a one bit, zeros and the length in bits, whatever the context
    held before: SHA-1 and SHA-256 with big endian words and length, MD5 with little
    endian ones. *)
Theorem silc_hash_functions_spec l (Hl : Forall (fun x => zlen x < 2 ^ 31) l) c1 c2 c3 :
  hash_pieces sha1 c1 l =
    concat (map SILC_PUT32_MSB
      (blocks SHA1Transform sha1_init_state (md_pad SILC_PUT64_MSB (concat l)))) /\
  hash_pieces sha256 c2 l =
    concat (map SILC_PUT32_MSB
      (blocks sha256_compress sha256_init_state (md_pad SILC_PUT64_MSB (concat l)))) /\
  hash_pieces md5 c3 l =
    concat (map SILC_PUT32_LSB
      (blocks MD5Transform md5_init_state (md_pad md5_len_bytes (concat l)))).
Proof.
  split; [exact (hash_final_fn (HashLaws := sha1_laws) c1 l Hl)|].
  split; [exact (hash_final_fn (HashLaws := sha256_laws) c2 l Hl)|].
  exact (hash_final_fn (HashLaws := md5_laws) c3 l Hl).
Qed.

(** "abc" in two pieces, with the digests of the standards. *)
Definition abc_pieces : list (list Z) := [[97]; []; [98; 99]].

Lemma silc_hash_functions_spec_witness :
  Forall (fun x => zlen x < 2 ^ 31) abc_pieces /\
  hash_pieces sha1 sha1_wiped abc_pieces =
    [169; 153; 62; 54; 71; 6; 129; 106; 186; 62; 37; 113; 120; 80; 194; 108; 156; 208; 216; 157] /\
  hash_pieces sha256 (sha256_init (Build_sha256_state 7 [] 9 [])) abc_pieces =
    [186; 120; 22; 191; 143; 1; 207; 234; 65; 65; 64; 222; 93; 174; 34; 35; 176; 3; 97; 163;
     150; 23; 122; 156; 180; 16; 255; 97; 242; 0; 21; 173] /\
  hash_pieces md5 md5_wiped abc_pieces =
    [144; 1; 80; 152; 60; 210; 79; 176; 214; 150; 63; 125; 40; 225; 127; 114].
Proof.
  assert (Forall (fun x : list Z => zlen x < 2 ^ 31) abc_pieces) as Hl by (repeat constructor).
  split; [exact Hl|].
  destruct (silc_hash_functions_spec abc_pieces Hl sha1_wiped
    (sha256_init (Build_sha256_state 7 [] 9 [])) md5_wiped) as (H1 & H2 & H3).
  split; [rewrite H1; vm_compute; reflexivity|].
  split; [rewrite H2; vm_compute; reflexivity|].
  rewrite H3; vm_compute; reflexivity.
Defined.
