(* ===== verification/Hmac.v ===== *)
(** lib/silccrypt/silchmac.c: HMAC, over any hash function of silchash.c that
    satisfies HashLaws. *)

From S2P Require Import Prelude CTypes Hash.

Section hmac.
Context `{HashAlg}.

(** * HMAC *)

(** [hmac->len] is the length of the MAC; [None] is a key that was not set. *)
Record SilcHmac := {
  hmac_len : Z;
  hmac_hash : hash_context;
  inner_pad : list Z;
  outer_pad : list Z;
  hmac_key : option (list Z);
}.

(** The pad of a key: 64 zeroed bytes that start with the key, the first
    block_len of them xored. *)
Definition hmac_pad (key : list Z) (block_len c : Z) : list Z :=
  let pad := mem_read key (zlen key) ++ zrepeat 0 (64 - zlen key) in
  map (fun b => Z.lxor b c) (ztake block_len pad) ++ zdrop block_len pad.

Definition silc_hmac_init_internal (hmac : SilcHmac) (key : list Z) : SilcHmac :=
  let block_len := silc_hash_block_len (hmac_hash hmac) in
  let '(key, hash) :=
    if block_len <? zlen key then
      let '(hvalue, hash) := silc_hash_make (hmac_hash hmac) key in
      (mem_read hvalue (silc_hash_len hash), hash)
    else (key, hmac_hash hmac) in
  {| hmac_len := hmac_len hmac; hmac_hash := hash;
     inner_pad := hmac_pad key block_len 0x36;
     outer_pad := hmac_pad key block_len 0x5c;
     hmac_key := hmac_key hmac |}.

Definition hmac_set_hash (hmac : SilcHmac) (hash : hash_context) : SilcHmac :=
  {| hmac_len := hmac_len hmac; hmac_hash := hash; inner_pad := inner_pad hmac;
     outer_pad := outer_pad hmac; hmac_key := hmac_key hmac |}.

Definition silc_hmac_init_with_key (hmac : SilcHmac) (key : list Z) : SilcHmac :=
  let hmac := silc_hmac_init_internal hmac key in
  let hash := silc_hash_init (hmac_hash hmac) in
  hmac_set_hash hmac
    (silc_hash_update hash (mem_read (inner_pad hmac) (silc_hash_block_len hash))).

(** A NULL key has the length 0. *)
Definition silc_hmac_init (hmac : SilcHmac) : SilcHmac :=
  silc_hmac_init_with_key hmac (match hmac_key hmac with Some k => k | None => [] end).

Definition silc_hmac_update (hmac : SilcHmac) (data : list Z) : SilcHmac :=
  hmac_set_hash hmac (silc_hash_update (hmac_hash hmac) data).

(** The MAC; its length is [hmac_len]. *)
Definition silc_hmac_final (hmac : SilcHmac) : list Z * SilcHmac :=
  let '(mac, hash) := silc_hash_final (hmac_hash hmac) in
  let hash := silc_hash_init hash in
  let hash := silc_hash_update hash (mem_read (outer_pad hmac) (silc_hash_block_len hash)) in
  let hash := silc_hash_update hash (mem_read mac (silc_hash_len hash)) in
  let '(mac, hash) := silc_hash_final hash in
  (mem_read mac (hmac_len hmac), hmac_set_hash hmac hash).

Definition silc_hmac_len (hmac : SilcHmac) : Z := hmac_len hmac.

Definition silc_hmac_set_key (hmac : SilcHmac) (key : list Z) : SilcHmac :=
  {| hmac_len := hmac_len hmac; hmac_hash := hmac_hash hmac; inner_pad := inner_pad hmac;
     outer_pad := outer_pad hmac;
     hmac_key := if silc_malloc_ok (zlen key) then Some key else None |}.

Definition silc_hmac_get_key (hmac : SilcHmac) : option (list Z) := hmac_key hmac.

Definition silc_hmac_make (hmac : SilcHmac) (data : list Z) : list Z * SilcHmac :=
  silc_hmac_final (silc_hmac_update (silc_hmac_init hmac) data).

Definition silc_hmac_make_with_key (hmac : SilcHmac) (data key : list Z) : list Z * SilcHmac :=
  silc_hmac_final (silc_hmac_update (silc_hmac_init_with_key hmac key) data).

(** The MAC goes to [return_hash], but what is copied over its first
    [truncated_len] bytes is [hvalue], which was never written. *)
Definition silc_hmac_make_truncated (hmac : SilcHmac) (data : list Z) (truncated_len : Z)
  : list Z * SilcHmac :=
  let '(return_hash, hmac) := silc_hmac_final (silc_hmac_update (silc_hmac_init hmac) data) in
  (zrepeat indet truncated_len ++ zdrop truncated_len return_hash, hmac).
End hmac.

(** * RFC 2104 *)

Section spec.
Context `{HashLaws}.

(** The key as a block: hashed when it is longer than one, and padded. *)
Definition block_of_key (key : list Z) : list Z :=
  let k := if alg_hash_block_len <? zlen key then hash_fn key else key in
  k ++ zrepeat 0 (alg_hash_block_len - zlen k).

Definition xor_all (c : Z) (l : list Z) : list Z := map (fun b => Z.lxor b c) l.

Definition hmac_fn (len : Z) (key data : list Z) : list Z :=
  ztake len (hash_fn (xor_all 0x5c (block_of_key key) ++
                      hash_fn (xor_all 0x36 (block_of_key key) ++ data))).

Lemma hmac_pad_block key c :
  zlen key <= alg_hash_block_len ->
  mem_read (hmac_pad key alg_hash_block_len c) alg_hash_block_len =
  xor_all c (key ++ zrepeat 0 (alg_hash_block_len - zlen key)).
Proof.
  intros Hk. pose proof hash_len_block. pose proof hash_block_len_64. unfold hmac_pad.
  rewrite (mem_read_exact key) by done.
  set (pad := key ++ zrepeat 0 (64 - zlen key)).
  assert (zlen pad = 64) as Hp by (unfold pad; len).
  rewrite mem_read_le by (rewrite length_app, length_map; len).
  rewrite ztake_app_exact by (rewrite length_map, zlen_ztake; lia).
  unfold xor_all. f_equal. unfold pad, ztake, zrepeat.
  rewrite take_app_ge by lia. f_equal. rewrite take_replicate. f_equal. lia.
Qed.

Lemma hash_step c l x :
  alg_hash_update (foldl alg_hash_update (alg_hash_init c) l) x =
  foldl alg_hash_update (alg_hash_init c) (l ++ [x]).
Proof. by rewrite foldl_app. Qed.

(** What is given to the hash function at once: a SilcUInt32 counts it. *)
Definition hash_pieces (l : list (list Z)) : Prop := Forall (fun x => zlen x < 2 ^ 31) l.

Lemma block_of_key_len key : zlen key < 2 ^ 31 -> zlen (block_of_key key) < 2 ^ 31.
Proof.
  pose proof hash_len_block. pose proof hash_block_len_64. intros Hk. unfold block_of_key.
  zcase; rewrite length_app; unfold zrepeat; rewrite length_replicate; [|lia].
  pose proof (hash_fn_len key). lia.
Qed.

Lemma xor_all_len c l : zlen (xor_all c l) = zlen l.
Proof. unfold xor_all. by rewrite length_map. Qed.

(** silc_hmac_init hashes the inner block, and leaves the outer one. *)
Lemma hmac_init_spec m key :
  zlen key < 2 ^ 31 ->
  exists c,
    let m' := silc_hmac_init_with_key m key in
    hmac_hash m' = foldl alg_hash_update (alg_hash_init c) [xor_all 0x36 (block_of_key key)] /\
    mem_read (outer_pad m') alg_hash_block_len = xor_all 0x5c (block_of_key key) /\
    hmac_len m' = hmac_len m /\ hmac_key m' = hmac_key m.
Proof.
  intros Hkl. pose proof hash_len_block. unfold silc_hmac_init_with_key, silc_hmac_init_internal,
    silc_hash_block_len, silc_hash_len, silc_hash_make, silc_hash_init, silc_hash_update,
    silc_hash_final, block_of_key.
  destruct (Z.ltb_spec alg_hash_block_len (zlen key)).
  - pose proof (hash_final_fn (hmac_hash m) [key] ltac:(by constructor)) as F. cbn [foldl concat] in F.
    rewrite app_nil_r in F.
    destruct (alg_hash_final _) as [hv h]. cbn [fst] in F. subst hv.
    exists h. cbn [hmac_set_hash hmac_hash inner_pad outer_pad hmac_len hmac_key foldl].
    rewrite (mem_read_exact (hash_fn key)) by (by rewrite hash_fn_len).
    rewrite !hmac_pad_block by (rewrite hash_fn_len; lia). done.
  - exists (hmac_hash m). cbn [hmac_set_hash hmac_hash inner_pad outer_pad hmac_len hmac_key foldl].
    by rewrite !hmac_pad_block.
Qed.

(** More data goes to the inner hash only. *)
Lemma hmac_update_all m l :
  let m' := foldl silc_hmac_update m l in
  hmac_hash m' = foldl alg_hash_update (hmac_hash m) l /\
  outer_pad m' = outer_pad m /\ hmac_len m' = hmac_len m /\ hmac_key m' = hmac_key m.
Proof.
  revert m; induction l as [|x l IH]; intros m; [done|]. cbn [foldl].
  destruct (IH (silc_hmac_update m x)) as (-> & -> & -> & ->). done.
Qed.

Lemma hmac_final_spec m c l :
  hmac_hash m = foldl alg_hash_update (alg_hash_init c) l -> hmac_len m <= alg_hash_len ->
  0 <= hmac_len m -> hash_pieces l -> zlen (mem_read (outer_pad m) alg_hash_block_len) < 2 ^ 31 ->
  exists m', silc_hmac_final m =
    (ztake (hmac_len m)
       (hash_fn (mem_read (outer_pad m) alg_hash_block_len ++ hash_fn (concat l))), m') /\
    hmac_len m' = hmac_len m /\ hmac_key m' = hmac_key m.
Proof.
  intros Hh Hl Hz Hp Ho. unfold silc_hmac_final, silc_hash_final, silc_hash_init, silc_hash_update,
    silc_hash_block_len, silc_hash_len. rewrite Hh.
  pose proof (hash_final_fn c l Hp) as F. destruct (alg_hash_final _) as [d h].
  cbn [fst] in F. subst d.
  rewrite (mem_read_exact (hash_fn _)) by (by rewrite hash_fn_len).
  pose proof (hash_final_fn h
    [mem_read (outer_pad m) alg_hash_block_len; hash_fn (concat l)]) as F.
  pose proof hash_len_block. pose proof hash_block_len_64.
  specialize (F ltac:(repeat apply Forall_cons_2; try apply Forall_nil_2; cbv beta; rewrite ?hash_fn_len; lia)).
  cbn [foldl concat] in F. rewrite app_nil_r in F.
  destruct (alg_hash_final _) as [d h2]. cbn [fst] in F. subst d.
  eexists. rewrite mem_read_le by (rewrite hash_fn_len; lia). done.
Qed.

Definition key_bytes (m : SilcHmac) : list Z :=
  match hmac_key m with Some k => k | None => [] end.

(** The MAC of data given in pieces; the object can be used again. *)
Lemma hmac_pieces m l :
  0 <= hmac_len m <= alg_hash_len -> zlen (key_bytes m) < 2 ^ 31 -> hash_pieces l ->
  exists m', silc_hmac_final (foldl silc_hmac_update (silc_hmac_init m) l) =
    (hmac_fn (hmac_len m) (key_bytes m) (concat l), m') /\
    hmac_len m' = hmac_len m /\ hmac_key m' = hmac_key m.
Proof.
  intros Hl Hkb Hp. unfold silc_hmac_init. fold (key_bytes m).
  pose proof (block_of_key_len (key_bytes m) Hkb) as Hbk.
  destruct (hmac_init_spec m (key_bytes m) Hkb) as (c & Hh & Ho & Hn & Hk).
  set (m1 := silc_hmac_init_with_key m (key_bytes m)) in *.
  destruct (hmac_update_all m1 l) as (Hh' & Ho' & Hn' & Hk').
  set (m2 := foldl silc_hmac_update m1 l) in *.
  rewrite Hh, <- foldl_app in Hh'.
  destruct (hmac_final_spec m2 c _ Hh') as (m' & E & Hn2 & Hk2); [lia..| | |].
  { constructor; [by rewrite xor_all_len|done]. }
  { by rewrite Ho', Ho, xor_all_len. }
  exists m'. rewrite E, Ho', Ho. unfold hmac_fn. cbn [app concat]. rewrite Hn', Hn in *.
  split_and!; congruence.
Qed.

Lemma hmac_fn_len len key data :
  0 <= len <= alg_hash_len -> zlen (hmac_fn len key data) = len.
Proof. intros. unfold hmac_fn. apply zlen_ztake. by rewrite hash_fn_len. Qed.

Lemma hmac_fn_bytes len key data : bytes_ok (hmac_fn len key data).
Proof. unfold hmac_fn, ztake. apply Forall_take, hash_fn_bytes. Qed.
End spec.

(** * Properties *)

(** C31. The HMAC routines compute RFC 2104: whatever the pieces the data is
    given in, silc_hmac_init, silc_hmac_update and silc_hmac_final give
    H(K ^ opad, H(K ^ ipad, data)) cut to the length of the MAC, a key longer
    than a block being hashed first, and leave an object with the same key and
    length.  silc_hmac_make_truncated does not: the bytes it returns were never
    written. *)
Theorem silc_hmac_rfc2104 `{HashLaws} (m : SilcHmac) (l : list (list Z)) (n : Z) :
  0 <= hmac_len m <= alg_hash_len -> zlen (key_bytes m) < 2 ^ 31 -> hash_pieces l ->
  0 <= n <= hmac_len m ->
  (exists m', silc_hmac_final (foldl silc_hmac_update (silc_hmac_init m) l) =
     (hmac_fn (hmac_len m) (key_bytes m) (concat l), m') /\
     hmac_len m' = hmac_len m /\ hmac_key m' = hmac_key m) /\
  ztake n (silc_hmac_make_truncated m (concat l) n).1 = zrepeat indet n.
Proof.
  intros Hl Hk Hp Hn. split; [by apply hmac_pieces|]. unfold silc_hmac_make_truncated.
  destruct (silc_hmac_final _) as [h m']. cbn [fst]. apply ztake_app_exact. len.
Qed.

(** A hash function: the sum of the bytes, and their number. *)
#[export] Instance toy_hash : HashAlg :=
  {| hash_context := list Z; alg_hash_init _ := []; alg_hash_update c x := c ++ x;
     alg_hash_final c := ([u8 (foldl Z.add 0 c); u8 (zlen c)], c);
     alg_hash_len := 2; alg_hash_block_len := 64 |}.

#[export] Instance toy_hash_laws : HashLaws toy_hash.
Proof.
  exists (fun l => [u8 (foldl Z.add 0 l); u8 (zlen l)]); try done.
  - intros c l _. cbn. assert (forall a, foldl (fun c x : list Z => c ++ x) a l = a ++ concat l) as E.
    { induction l as [|x l IH]; intros a; cbn [foldl concat]; [by rewrite app_nil_r|].
      by rewrite IH, app_assoc. }
    by rewrite E.
  - intros l. repeat apply Forall_cons_2; try apply Forall_nil_2; unfold is_byte; apply u8_range.
Defined.

Definition witness_hmac : SilcHmac (H := toy_hash) :=
  {| hmac_len := 2; hmac_hash := []; inner_pad := zrepeat 0 64; outer_pad := zrepeat 0 64;
     hmac_key := Some [1; 2; 3] |}.

Lemma silc_hmac_rfc2104_witness :
  exists m', silc_hmac_final (silc_hmac_update (silc_hmac_update (silc_hmac_init witness_hmac)
      [5]) [6; 7]) = (hmac_fn 2 [1; 2; 3] [5; 6; 7], m').
Proof.
  destruct (silc_hmac_rfc2104 witness_hmac [[5]; [6; 7]] 1 ltac:(done) ltac:(done)
    ltac:(by repeat constructor) ltac:(done))
    as ((m' & E & _) & _).
  exists m'. exact E.
Defined.
