(* ===== verification/Packet.v ===== *)
(** lib/silccore/silcpacket.c: packets, packet streams, and sending.

    The fields of struct SilcPacketStreamStruct are grouped by direction.  The
    cipher and HMAC objects are those of Cipher and Hmac, over any algorithms.
    What silc_rng_get_byte_fast returns is an argument, [rnd], and so is what
    the underlying stream answers.  Locks are not modelled: every function runs
    with the stream's lock held.  UDP streams are left out. *)

From S2P Require Import Prelude CTypes Buffer BufFmt BufFmtSpec Id Cipher Hash Hmac.

(** * Constants *)

Definition SILC_PACKET_DEFAULT_SIZE : Z := 1024.
Definition SILC_PACKET_HEADER_LEN : Z := 10.
Definition SILC_PACKET_MIN_HEADER_LEN : Z := 16.
Definition SILC_PACKET_MIN_HEADER_LEN_IV : Z := 32 + 1.
Definition SILC_PACKET_MAX_PADLEN : Z := 128.
Definition SILC_PACKET_DEFAULT_PADLEN : Z := 16.
Definition SILC_PACKET_MIN_LEN : Z := SILC_PACKET_HEADER_LEN + 1.
Definition SILC_PACKET_MAX_LEN : Z := 0xffff.

Definition SILC_PACKET_CHANNEL_MESSAGE : Z := 7.
Definition SILC_PACKET_PRIVATE_MESSAGE : Z := 9.
Definition SILC_PACKET_REKEY_DONE : Z := 23.
Definition SILC_PACKET_FLAG_PRIVMSG_KEY : Z := 0x01.
Definition SILC_PACKET_FLAG_LONG_PAD : Z := 0x20.

(** * The macros *)

(** Payload length and length with padding, from the start of a packet. *)
Definition SILC_PACKET_LENGTH (packetdata : list Z) : Z * Z :=
  let truelen := SILC_GET16_MSB packetdata in
  (truelen, truelen + u8 (byte_at packetdata 4)).

Definition SILC_PACKET_DATALEN (data_len header_len : Z) : Z :=
  if SILC_PACKET_MAX_LEN <? u32 (data_len + header_len)
  then u32 (data_len - (u32 (data_len + header_len) - SILC_PACKET_MAX_LEN))
  else data_len.

Definition pad_block (blocklen : Z) : Z :=
  if blocklen =? 0 then SILC_PACKET_DEFAULT_PADLEN else blocklen.

Definition SILC_PACKET_PADLEN (packetlen blocklen : Z) : Z :=
  let padlen := SILC_PACKET_DEFAULT_PADLEN - packetlen mod pad_block blocklen in
  if padlen <? 8 then padlen + pad_block blocklen else padlen.

Definition SILC_PACKET_PADLEN_MAX (packetlen blocklen : Z) : Z :=
  SILC_PACKET_MAX_PADLEN - packetlen mod pad_block blocklen.

(** * Streams *)

(** A packet processor: the types it takes ([None]: all), the callbacks with
    their context, and its priority. *)
Record SilcPacketProcess := {
  pp_types : option (list Z);
  pp_callbacks : Z;
  pp_priority : Z;
}.

(** The engine, with the input buffers of the scheduler's context. *)
Record SilcPacketEngine := {
  e_local_is_router : bool;
  e_packet_pool : list SilcBuffer;  (** the buffers of the free packets *)
  e_inbufs : list SilcBuffer;
}.

Section packet.
Context `{CipherAlg} `{HashAlg}.

Record SendSide := {
  outbuf : SilcBuffer;
  send_key0 : option SilcCipher;
  send_key1 : option SilcCipher;
  send_hmac0 : option SilcHmac;
  send_hmac1 : option SilcHmac;
  send_psn : Z;
}.

Record ReceiveSide := {
  inbuf : option SilcBuffer;
  receive_key0 : option SilcCipher;
  receive_key1 : option SilcCipher;
  receive_hmac0 : option SilcHmac;
  receive_hmac1 : option SilcHmac;
  receive_psn : Z;
}.

Record StreamIds := {
  st_src_id : option (list Z);
  st_src_id_len : Z;
  st_src_id_type : Z;
  st_dst_id : option (list Z);
  st_dst_id_len : Z;
  st_dst_id_type : Z;
}.

Record SilcPacketStream := {
  ps_engine : SilcPacketEngine;
  ps_process : option (list SilcPacketProcess);
  ps_send : SendSide;
  ps_receive : ReceiveSide;
  ps_ids : StreamIds;
  ps_sid : Z;
  ps_is_router : bool;
  ps_destroyed : bool;
  ps_iv_included : bool;
}.

Definition set_send (ps : SilcPacketStream) (s : SendSide) : SilcPacketStream :=
  {| ps_engine := ps_engine ps; ps_process := ps_process ps; ps_send := s;
     ps_receive := ps_receive ps; ps_ids := ps_ids ps; ps_sid := ps_sid ps;
     ps_is_router := ps_is_router ps; ps_destroyed := ps_destroyed ps;
     ps_iv_included := ps_iv_included ps |}.

Definition set_outbuf (ps : SilcPacketStream) (b : SilcBuffer) (psn : Z) : SilcPacketStream :=
  let s := ps_send ps in
  set_send ps {| outbuf := b; send_key0 := send_key0 s; send_key1 := send_key1 s;
                 send_hmac0 := send_hmac0 s; send_hmac1 := send_hmac1 s; send_psn := psn |}.

(** * Packet sending *)

(** The pointer to the packet in the output buffer: the new bytes of its data
    area, the room for the MAC behind them pushed off again.  The packet lies
    in the buffer; [outbuf_store] writes it back. *)
Definition silc_packet_send_prepare (ps : SilcPacketStream) (totlen : Z)
    (hmac : option SilcHmac) : option (SilcPacketStream * SilcBuffer) :=
  let mac_len := match hmac with Some hmac => silc_hmac_len hmac | None => 0 end in
  let totlen := totlen + mac_len in
  let s := ps_send ps in
  let buf :=
    if silc_buffer_taillen (outbuf s) <? totlen
    then silc_buffer_realloc (Some (outbuf s)) (u32 (silc_buffer_truelen (outbuf s) + totlen))
    else Some (outbuf s) in
  match buf with
  | None => None
  | Some buf =>
      let packet := silc_buffer_push_tail (silc_buffer_set (ztake totlen (b_tail buf))) mac_len in
      Some (set_outbuf ps (silc_buffer_pull_tail buf totlen) (send_psn s), packet)
  end.

(** The packet is the last bytes of the data area. *)
Definition outbuf_store (buf packet : SilcBuffer) : SilcBuffer :=
  {| b_head := b_head buf;
     b_data := ztake (zlen (b_data buf) - zlen (b_area packet)) (b_data buf) ++ b_area packet;
     b_tail := b_tail buf |}.

(** The 64 bit packet counter of a counter block. *)
Definition ctr_block_incr (iv : list Z) : list Z :=
  let pc1 := SILC_GET32_MSB (zdrop 4 iv) in
  let pc2 := u32 (SILC_GET32_MSB (zdrop 8 iv) + 1) in
  let pc1 := if pc2 =? 0 then u32 (pc1 + 1) else pc1 in
  ztake 4 iv ++ SILC_PUT32_MSB pc1 ++ SILC_PUT32_MSB pc2 ++ zdrop 12 iv.

(** [memset(iv + 12, 0, 4)] *)
Definition ctr_block_reset (iv : list Z) : list Z := ztake 12 iv ++ zrepeat 0 4 ++ zdrop 16 iv.

Definition silc_packet_send_ctr_increment (ps : SilcPacketStream) (cipher : SilcCipher)
    (rnd : list Z) : SilcCipher * list Z :=
  let iv := ctr_block_reset (silc_cipher_get_iv cipher) in
  if ps_iv_included ps then
    let r0 := byte_at rnd 0 in
    let r1 := u8 (r0 + byte_at iv 4) in
    let r2 := Z.lxor r0 r1 in
    let r3 := u8 (r0 + r2) in
    let pc1 := u32 (SILC_GET32_MSB (zdrop 8 iv) + 1) in
    let ret_iv := [r0; r1; r2; r3] ++ SILC_PUT32_MSB pc1 in
    (cipher_put_iv cipher (ztake 4 iv ++ ret_iv ++ zdrop 12 iv), ret_iv)
  else (cipher_put_iv cipher (ctr_block_incr iv), []).

(** Which packets have only their header encrypted by the stream. *)
Definition packet_special (ps : SilcPacketStream) (type flags : Z) : bool :=
  ((type =? SILC_PACKET_PRIVATE_MESSAGE) &&
   negb (Z.land flags SILC_PACKET_FLAG_PRIVMSG_KEY =? 0)) ||
  ((type =? SILC_PACKET_CHANNEL_MESSAGE) &&
   negb (e_local_is_router (ps_engine ps) && ps_is_router ps)).

(** The padding and the length to encrypt. *)
Definition packet_padding (ps : SilcPacketStream) (ctr : bool)
    (type flags header_len truelen psnlen block_len : Z) : Z * Z :=
  if packet_special ps type flags then
    let padlen := if ctr then 0 else SILC_PACKET_PADLEN (header_len + psnlen) block_len in
    (padlen, header_len + padlen + psnlen)
  else
    let padlen :=
      if (type =? SILC_PACKET_CHANNEL_MESSAGE) ||
         (Z.land flags SILC_PACKET_FLAG_LONG_PAD =? 0)
      then if ctr then 0 else SILC_PACKET_PADLEN (truelen + psnlen) block_len
      else SILC_PACKET_PADLEN_MAX (truelen + psnlen) block_len in
    (padlen, truelen + padlen + psnlen).

(** The bytes from [ivlen] on, [enclen] of them, encrypted in place. *)
Definition packet_encrypt (cipher : option SilcCipher) (packet : SilcBuffer) (ivlen enclen : Z)
  : option (SilcBuffer * option SilcCipher) :=
  match cipher with
  | None => Some (packet, None)
  | Some cipher =>
      let cipher := silc_cipher_set_iv cipher None in
      let d := b_data packet in
      match silc_cipher_encrypt cipher (mem_read (zdrop ivlen d) enclen) None with
      | None => None
      | Some (dst, _, cipher) =>
          Some ({| b_head := b_head packet;
                   b_data := ztake ivlen d ++ dst ++ zdrop (ivlen + enclen) d;
                   b_tail := b_tail packet |}, Some cipher)
      end
  end.

(** The MAC of the sequence number and the packet, stored at the tail. *)
Definition packet_put_mac (hmac : option SilcHmac) (packet : SilcBuffer) (psn : list Z)
  : SilcBuffer * option SilcHmac :=
  match hmac with
  | None => (packet, None)
  | Some hmac =>
      let hmac := silc_hmac_init hmac in
      let hmac := silc_hmac_update hmac psn in
      let hmac := silc_hmac_update hmac (b_data packet) in
      let '(mac, hmac) := silc_hmac_final hmac in
      (silc_buffer_pull_tail
         {| b_head := b_head packet; b_data := b_data packet;
            b_tail := mac ++ zdrop (zlen mac) (b_tail packet) |} (zlen mac), Some hmac)
  end.

(** The return value, the stream, and the cipher and the HMAC it was given,
    which the call changes. *)
Definition silc_packet_send_raw (ps : SilcPacketStream) (type flags : Z)
    (src_id_type : Z) (src_id : option (list Z)) (src_id_len : Z)
    (dst_id_type : Z) (dst_id : option (list Z)) (dst_id_len : Z)
    (data : option (list Z)) (data_len : Z)
    (cipher : option SilcCipher) (hmac : option SilcHmac) (rnd : list Z)
  : bool * SilcPacketStream * option SilcCipher * option SilcHmac :=
  let block_len := match cipher with Some c => silc_cipher_get_block_len c | None => 0 end in
  let header_len := SILC_PACKET_HEADER_LEN + src_id_len + dst_id_len in
  let data_len := SILC_PACKET_DATALEN data_len header_len in
  let truelen := data_len + SILC_PACKET_HEADER_LEN + src_id_len + dst_id_len in
  let ctr := match cipher with
             | Some c => silc_cipher_get_mode c =? SILC_CIPHER_MODE_CTR
             | None => false
             end in
  let '(cipher, iv) :=
    match cipher with
    | None => (None, [])
    | Some c =>
        if ctr then
          let '(c, ret_iv) := silc_packet_send_ctr_increment ps c rnd in
          (Some c, if ps_iv_included ps then [ps_sid ps] ++ ret_iv else [])
        else
          (Some c, if ps_iv_included ps
                   then [ps_sid ps] ++ mem_read (silc_cipher_get_iv c) block_len else [])
    end in
  let rnd := if ctr && ps_iv_included ps then zdrop 1 rnd else rnd in
  let ivlen := zlen iv in
  let psnlen := if ps_iv_included ps && bool_decide (is_Some cipher) then 4 else 0 in
  let '(padlen, enclen) :=
    packet_padding ps ctr type flags header_len truelen psnlen block_len in
  let flags := Z.land flags (Z.lnot SILC_PACKET_FLAG_LONG_PAD) in
  let tmppad := mem_read rnd padlen in
  match silc_packet_send_prepare ps (truelen + padlen + ivlen + psnlen) hmac with
  | None => (false, ps, cipher, hmac)
  | Some (ps, packet) =>
      let buf := outbuf (ps_send ps) in
      let psn0 := send_psn (ps_send ps) in
      let psn := SILC_PUT32_MSB psn0 in
      let '(i, packet) :=
        silc_buffer_format packet
          [F_DATA (Some iv) ivlen; F_DATA (Some psn) psnlen; F_UI16_SHORT truelen;
           F_UI8_CHAR flags; F_UI8_CHAR type; F_UI8_CHAR padlen; F_UI8_CHAR 0;
           F_UI8_CHAR src_id_len; F_UI8_CHAR dst_id_len; F_UI8_CHAR src_id_type;
           F_DATA src_id src_id_len; F_UI8_CHAR dst_id_type; F_DATA dst_id dst_id_len;
           F_DATA (Some tmppad) padlen; F_DATA data data_len] in
      if i <? 0 then (false, set_outbuf ps (outbuf_store buf packet) psn0, cipher, hmac)
      else
        match packet_encrypt cipher packet ivlen enclen with
        | None =>
            (false, set_outbuf ps (outbuf_store buf packet) psn0,
             option_map (fun c => silc_cipher_set_iv c None) cipher, hmac)
        | Some (packet, cipher) =>
            let '(packet, hmac) := packet_put_mac hmac packet psn in
            let psn1 := match hmac with Some _ => u32 (psn0 + 1) | None => psn0 end in
            (true, set_outbuf ps (outbuf_store buf packet) psn1, cipher, hmac)
        end
  end.

(** ** Writing *)

Inductive SilcPacketError :=
| SILC_PACKET_ERR_READ | SILC_PACKET_ERR_WRITE | SILC_PACKET_ERR_MAC_FAILED
| SILC_PACKET_ERR_DECRYPTION_FAILED | SILC_PACKET_ERR_UNKNOWN_SID
| SILC_PACKET_ERR_MALFORMED | SILC_PACKET_ERR_NO_MEMORY.

(** The loop: [results] is what silc_stream_write returns, call by call.  It
    gives the return value, the buffer, the bytes that were written and the
    callback that is called; [None]: [results] is too short. *)
Inductive WriteCallback := WriteEos | WriteError.

Fixpoint packet_write_loop (results : list Z) (buf : SilcBuffer) (written : list Z)
  : option (bool * SilcBuffer * list Z * option WriteCallback) :=
  if 0 <? silc_buffer_len buf then
    match results with
    | [] => None
    | i :: results =>
        if i =? 0 then Some (false, silc_buffer_reset buf, written, Some WriteEos)
        else if i =? -2 then Some (false, silc_buffer_reset buf, written, Some WriteError)
        else if i =? -1 then Some (true, buf, written, None)
        else packet_write_loop results (silc_buffer_pull buf i)
               (written ++ ztake i (b_data buf))
    end
  else Some (true, silc_buffer_reset buf, written, None).

Definition silc_packet_stream_write (ps : SilcPacketStream) (results : list Z)
  : option (bool * SilcPacketStream * list Z * option WriteCallback) :=
  match packet_write_loop results (outbuf (ps_send ps)) [] with
  | None => None
  | Some (ret, buf, written, cb) =>
      Some (ret, set_outbuf ps buf (send_psn (ps_send ps)), written, cb)
  end.

(** The stream keeps the cipher and the HMAC it sent with. *)
Definition set_send_keys (ps : SilcPacketStream) (cipher : option SilcCipher)
    (hmac : option SilcHmac) : SilcPacketStream :=
  let s := ps_send ps in
  set_send ps {| outbuf := outbuf s; send_key0 := cipher; send_key1 := send_key1 s;
                 send_hmac0 := hmac; send_hmac1 := send_hmac1 s; send_psn := send_psn s |}.

(** silc_packet_send up to silc_packet_stream_write. *)
Definition packet_send_own (ps : SilcPacketStream) (type flags : Z) (data : option (list Z))
    (data_len : Z) (rnd : list Z) : bool * SilcPacketStream :=
  let ids := ps_ids ps in
  let '(ret, ps, cipher, hmac) :=
    silc_packet_send_raw ps type flags (st_src_id_type ids) (st_src_id ids) (st_src_id_len ids)
      (st_dst_id_type ids) (st_dst_id ids) (st_dst_id_len ids) data data_len
      (send_key0 (ps_send ps)) (send_hmac0 (ps_send ps)) rnd in
  (ret, set_send_keys ps cipher hmac).

Definition silc_packet_send (ps : SilcPacketStream) (type flags : Z) (data : option (list Z))
    (data_len : Z) (rnd results : list Z)
  : option (bool * SilcPacketStream * list Z * option WriteCallback) :=
  let '(ret, ps) := packet_send_own ps type flags data data_len rnd in
  if ret then silc_packet_stream_write ps results else Some (false, ps, [], None).

(** * Keys, IDs and packet processors *)

Definition set_receive (ps : SilcPacketStream) (r : ReceiveSide) : SilcPacketStream :=
  {| ps_engine := ps_engine ps; ps_process := ps_process ps; ps_send := ps_send ps;
     ps_receive := r; ps_ids := ps_ids ps; ps_sid := ps_sid ps;
     ps_is_router := ps_is_router ps; ps_destroyed := ps_destroyed ps;
     ps_iv_included := ps_iv_included ps |}.

(** [if (key[1] && new) key[1] = key[0];] under IV included, and
    [if (new) key[0] = new;] *)
Definition save_key {A} (iv_included : bool) (key0 key1 new : option A) : option A * option A :=
  (match new with Some _ => new | None => key0 end,
   if iv_included then
     match key1, new with Some _, Some _ => key0 | _, _ => key1 end
   else key1).

Definition silc_packet_set_keys (ps : SilcPacketStream)
    (send_key receive_key : option SilcCipher) (send_hmac receive_hmac : option SilcHmac)
    (rekey : bool) (rnd results : list Z)
  : option (bool * SilcPacketStream * list Z * option WriteCallback) :=
  let sent :=
    if rekey then
      let '(ret, ps) := packet_send_own ps SILC_PACKET_REKEY_DONE 0 None 0 rnd in
      if ret then silc_packet_stream_write ps results else Some (false, ps, [], None)
    else Some (true, ps, [], None) in
  match sent with
  | Some (true, ps, written, cb) =>
      let s := ps_send ps in
      let r := ps_receive ps in
      let iv := ps_iv_included ps in
      let '(sk0, sk1) := save_key iv (send_key0 s) (send_key1 s) send_key in
      let '(rk0, rk1) := save_key iv (receive_key0 r) (receive_key1 r) receive_key in
      let '(sh0, sh1) := save_key iv (send_hmac0 s) (send_hmac1 s) send_hmac in
      let '(rh0, rh1) := save_key iv (receive_hmac0 r) (receive_hmac1 r) receive_hmac in
      let ps := set_send ps {| outbuf := outbuf s; send_key0 := sk0; send_key1 := sk1;
                               send_hmac0 := sh0; send_hmac1 := sh1;
                               send_psn := send_psn s |} in
      Some (true, set_receive ps {| inbuf := inbuf r; receive_key0 := rk0; receive_key1 := rk1;
                                    receive_hmac0 := rh0; receive_hmac1 := rh1;
                                    receive_psn := receive_psn r |}, written, cb)
  | sent => sent
  end.

Definition silc_packet_get_keys (ps : SilcPacketStream)
  : option (option SilcCipher * option SilcCipher * option SilcHmac * option SilcHmac) :=
  let s := ps_send ps in
  let r := ps_receive ps in
  match send_key0 s, receive_key0 r, send_hmac0 s, receive_hmac0 r with
  | None, None, None, None => None
  | sk, rk, sh, rh => Some (sk, rk, sh, rh)
  end.

Definition set_ids (ps : SilcPacketStream) (ids : StreamIds) : SilcPacketStream :=
  {| ps_engine := ps_engine ps; ps_process := ps_process ps; ps_send := ps_send ps;
     ps_receive := ps_receive ps; ps_ids := ids; ps_sid := ps_sid ps;
     ps_is_router := ps_is_router ps; ps_destroyed := ps_destroyed ps;
     ps_iv_included := ps_iv_included ps |}.

(** The source ID is set even when the destination ID is not. *)
Definition silc_packet_set_ids (ps : SilcPacketStream) (src_id dst_id : option SilcID)
  : bool * SilcPacketStream :=
  match src_id, dst_id with
  | None, None => (false, ps)
  | _, _ =>
      let with_src :=
        match src_id with
        | None => Some ps
        | Some id =>
            match silc_id_id2str id 32 with
            | None => None
            | Some tmp =>
                match silc_memdup tmp (zlen tmp) with
                | None => None
                | Some _ =>
                    let i := ps_ids ps in
                    Some (set_ids ps
                      {| st_src_id := Some tmp; st_src_id_len := zlen tmp;
                         st_src_id_type := silc_id_type id; st_dst_id := st_dst_id i;
                         st_dst_id_len := st_dst_id_len i; st_dst_id_type := st_dst_id_type i |})
                end
            end
        end in
      match with_src with
      | None => (false, ps)
      | Some ps =>
          match dst_id with
          | None => (true, ps)
          | Some id =>
              match silc_id_id2str id 32 with
              | None => (false, ps)
              | Some tmp =>
                  match silc_memdup tmp (zlen tmp) with
                  | None => (false, ps)
                  | Some _ =>
                      let i := ps_ids ps in
                      (true, set_ids ps
                        {| st_src_id := st_src_id i; st_src_id_len := st_src_id_len i;
                           st_src_id_type := st_src_id_type i; st_dst_id := Some tmp;
                           st_dst_id_len := zlen tmp; st_dst_id_type := silc_id_type id |})
                  end
              end
          end
      end
  end.

Definition silc_packet_set_sid (ps : SilcPacketStream) (sid : Z) : bool * SilcPacketStream :=
  if negb (ps_iv_included ps) then (false, ps)
  else (true, {| ps_engine := ps_engine ps; ps_process := ps_process ps; ps_send := ps_send ps;
                 ps_receive := ps_receive ps; ps_ids := ps_ids ps; ps_sid := sid;
                 ps_is_router := ps_is_router ps; ps_destroyed := ps_destroyed ps;
                 ps_iv_included := ps_iv_included ps |}).

Definition set_process (ps : SilcPacketStream) (p : option (list SilcPacketProcess))
  : SilcPacketStream :=
  {| ps_engine := ps_engine ps; ps_process := p; ps_send := ps_send ps;
     ps_receive := ps_receive ps; ps_ids := ps_ids ps; ps_sid := ps_sid ps;
     ps_is_router := ps_is_router ps; ps_destroyed := ps_destroyed ps;
     ps_iv_included := ps_iv_included ps |}.

(** Before the first processor of a lower priority, or at the end. *)
Fixpoint process_insert (p : SilcPacketProcess) (l : list SilcPacketProcess)
  : list SilcPacketProcess :=
  match l with
  | [] => [p]
  | e :: l => if pp_priority e <? pp_priority p then p :: e :: l else e :: process_insert p l
  end.

(** The types up to SILC_PACKET_ANY or -1, each cast to a byte. *)
Fixpoint link_types (ap : list Z) : list Z :=
  match ap with
  | [] => []
  | t :: ap => if (t =? 0) || (t =? -1) then [] else u8 t :: link_types ap
  end.

Fixpoint process_delete (callbacks : Z) (l : list SilcPacketProcess) : list SilcPacketProcess :=
  match l with
  | [] => []
  | p :: l => if pp_callbacks p =? callbacks then l else p :: process_delete callbacks l
  end.

(** ** References

    A stream in memory, with its reference counter, or freed.  The counter is kept
    beside the stream: silc_packet_stream_io takes a reference while it processes
    packets and drops it again, the rest of the model does not look at it. *)
Inductive StreamMemory :=
| Stream (ps : SilcPacketStream) (refcnt : Z)
| Freed.

Definition set_destroyed (ps : SilcPacketStream) : SilcPacketStream :=
  {| ps_engine := ps_engine ps; ps_process := ps_process ps; ps_send := ps_send ps;
     ps_receive := ps_receive ps; ps_ids := ps_ids ps; ps_sid := ps_sid ps;
     ps_is_router := ps_is_router ps; ps_destroyed := true;
     ps_iv_included := ps_iv_included ps |}.

Definition silc_packet_stream_ref (ps : SilcPacketStream) (refcnt : Z) : StreamMemory :=
  Stream ps (s32 (refcnt + 1)).

(** The last reference frees the stream; one that is not the last marks it (and
    closes the underlying stream). *)
Definition silc_packet_stream_destroy (ps : SilcPacketStream) (refcnt : Z) : StreamMemory :=
  let refcnt := s32 (refcnt - 1) in
  if refcnt >? 0 then
    if ps_destroyed ps then Stream ps refcnt else Stream (set_destroyed ps) refcnt
  else Freed.

Definition silc_packet_stream_unref (ps : SilcPacketStream) (refcnt : Z) : StreamMemory :=
  let refcnt := s32 (refcnt - 1) in
  if refcnt >? 0 then Stream ps refcnt
  else silc_packet_stream_destroy ps (s32 (refcnt + 1)).

(** silc_packet_stream_link_va; [callbacks] is [None] when it is NULL or has no
    packet_receive. *)
Definition silc_packet_stream_link (ps : SilcPacketStream) (refcnt : Z) (callbacks : option Z)
    (priority : Z) (ap : list Z) : bool * StreamMemory :=
  match callbacks with
  | None => (false, Stream ps refcnt)
  | Some callbacks =>
      let types := match link_types ap with [] => None | l => Some l end in
      let p := {| pp_types := types; pp_callbacks := callbacks; pp_priority := priority |} in
      let process := match ps_process ps with Some l => l | None => [] end in
      (true, silc_packet_stream_ref (set_process ps (Some (process_insert p process))) refcnt)
  end.

(** [None]: the list of processors is NULL, and is walked.  An empty list is freed;
    the reference is dropped whether the callbacks were linked or not. *)
Definition silc_packet_stream_unlink (ps : SilcPacketStream) (refcnt : Z) (callbacks : Z)
  : option StreamMemory :=
  match ps_process ps with
  | None => None
  | Some process =>
      let process := process_delete callbacks process in
      let ps := set_process ps (match process with [] => None | l => Some l end) in
      Some (silc_packet_stream_unref ps refcnt)
  end.
End packet.
