(* ===== verification/PacketReceive.v ===== *)
(** lib/silccore/silcpacket.c: reading from the stream, taking packets out of
    the input buffer, checking, decrypting, parsing and dispatching them.

    What the callbacks of the application do is a parameter,
    [packet_receive]; what they are called with is recorded as events.  A
    callback may change the stream, but does not link or unlink processors
    while the list of them is walked; the stream's owner keeps its reference, so
    that the one silc_packet_stream_io takes and drops is never the last. *)

From S2P Require Import Prelude CTypes Buffer BufFmt BufFmtSpec Id Cipher Hash Hmac Packet.

Section receive.
Context `{CipherAlg} `{HashAlg}.

Record SilcPacket := {
  pk_buffer : SilcBuffer;
  pk_flags : Z;
  pk_type : Z;
  pk_src_id : option (list Z);
  pk_dst_id : option (list Z);
  pk_src_id_len : Z;
  pk_src_id_type : Z;
  pk_dst_id_len : Z;
  pk_dst_id_type : Z;
}.

(** The packet_receive callback of a processor, or of the engine (0): does it
    take the packet, and the stream it leaves. *)
Variable packet_receive : Z -> SilcPacketStream -> SilcPacket -> bool * SilcPacketStream.

Inductive Event :=
| EvReceive (callbacks : Z) (packet : SilcPacket)
| EvError (err : SilcPacketError)
| EvEos.

(** * Checks and decryption *)

(** The HMAC, the data, the MAC in the packet, the sequence number from the
    packet or else that of the stream. *)
Definition silc_packet_check_mac (hmac : option SilcHmac) (data : list Z) (packet_mac : list Z)
    (packet_seq : option (list Z)) (sequence : Z) : bool * option SilcHmac :=
  match hmac with
  | None => (true, None)
  | Some hmac =>
      let hmac := silc_hmac_init hmac in
      let hmac := silc_hmac_update hmac (match packet_seq with
                                         | None => SILC_PUT32_MSB sequence
                                         | Some seq => seq
                                         end) in
      let hmac := silc_hmac_update hmac data in
      let '(mac, hmac) := silc_hmac_final hmac in
      (bool_decide (mem_read packet_mac (zlen mac) = mac), Some hmac)
  end.

Definition silc_packet_receive_ctr_increment (ps : SilcPacketStream) (iv packet_iv : list Z)
  : list Z :=
  ctr_block_reset
    (if ps_iv_included ps then ztake 4 iv ++ mem_read packet_iv 8 ++ zdrop 12 iv
     else ctr_block_incr iv).

Definition silc_packet_special_len (data : list Z) : Z :=
  u8 (byte_at data 4) + u8 (byte_at data 6) + u8 (byte_at data 7) + SILC_PACKET_HEADER_LEN.

(** Decrypt the first [n] bytes of the data area, in place. *)
Definition buffer_decrypt (cipher : SilcCipher) (buffer : SilcBuffer) (n : Z)
  : option (SilcBuffer * SilcCipher) :=
  match silc_cipher_decrypt cipher (mem_read (b_data buffer) n) None with
  | None => None
  | Some (dst, _, cipher) =>
      Some ({| b_head := b_head buffer; b_data := dst ++ zdrop n (b_data buffer);
               b_tail := b_tail buffer |}, cipher)
  end.

(** [None] is the return of -1. *)
Definition silc_packet_decrypt (cipher : option SilcCipher) (buffer : SilcBuffer) (normal : bool)
  : option (Z * SilcBuffer * option SilcCipher) :=
  match cipher with
  | None => Some (if normal then 0 else 1, buffer, None)
  | Some cipher =>
      if normal then
        match buffer_decrypt cipher buffer (silc_buffer_len buffer) with
        | None => None
        | Some (buffer, cipher) => Some (0, buffer, Some cipher)
        end
      else
        let block_len := silc_cipher_get_block_len cipher in
        let buffer := silc_buffer_push buffer block_len in
        let len := u16 (silc_packet_special_len (b_data buffer) - block_len) in
        let buffer := silc_buffer_pull buffer block_len in
        if silc_buffer_len buffer <? len then None
        else
          match buffer_decrypt cipher buffer len with
          | None => None
          | Some (buffer, cipher) => Some (1, buffer, Some cipher)
          end
  end.

(** * Parsing *)

Definition packet_with_buffer (packet : SilcPacket) (b : SilcBuffer) : SilcPacket :=
  {| pk_buffer := b; pk_flags := pk_flags packet; pk_type := pk_type packet;
     pk_src_id := pk_src_id packet; pk_dst_id := pk_dst_id packet;
     pk_src_id_len := pk_src_id_len packet; pk_src_id_type := pk_src_id_type packet;
     pk_dst_id_len := pk_dst_id_len packet; pk_dst_id_type := pk_dst_id_type packet |}.

Definition silc_packet_parse (packet : SilcPacket) : bool * SilcPacket :=
  let buffer := pk_buffer packet in
  let padlen := u8 (byte_at (b_data buffer) 4) in
  let '(ret, out, buffer) :=
    silc_buffer_unformat buffer
      [U_ADVANCE; U_OFFSET 6; U_UI8_CHAR true; U_UI8_CHAR true; U_UI8_CHAR true] in
  if ret =? -1 then (false, packet_with_buffer packet buffer)
  else
    let src_id_len := out_num out 0 in
    let dst_id_len := out_num out 1 in
    let src_id_type := out_num out 2 in
    if (SILC_PACKET_MAX_ID_LEN <? src_id_len) || (SILC_PACKET_MAX_ID_LEN <? dst_id_len)
    then (false, packet_with_buffer packet buffer)
    else
      let '(ret, out, buffer) :=
        silc_buffer_unformat buffer
          [U_ADVANCE; U_DATA true src_id_len; U_UI8_CHAR true; U_DATA true dst_id_len;
           U_OFFSET padlen] in
      if ret =? -1 then (false, packet_with_buffer packet buffer)
      else
        let dst_id_type := out_num out 1 in
        let packet :=
          {| pk_buffer := buffer; pk_flags := pk_flags packet; pk_type := pk_type packet;
             pk_src_id := out_ptr out 0; pk_dst_id := out_ptr out 2;
             pk_src_id_len := pk_src_id_len packet; pk_src_id_type := pk_src_id_type packet;
             pk_dst_id_len := pk_dst_id_len packet;
             pk_dst_id_type := pk_dst_id_type packet |} in
        if (SILC_ID_CHANNEL <? src_id_type) || (SILC_ID_CHANNEL <? dst_id_type)
        then (false, packet)
        else
          (true,
           {| pk_buffer := buffer; pk_flags := pk_flags packet; pk_type := pk_type packet;
              pk_src_id := pk_src_id packet; pk_dst_id := pk_dst_id packet;
              pk_src_id_len := src_id_len; pk_src_id_type := src_id_type;
              pk_dst_id_len := dst_id_len; pk_dst_id_type := dst_id_type |}).

(** * The packet pool *)

Definition set_engine (ps : SilcPacketStream) (e : SilcPacketEngine) : SilcPacketStream :=
  {| ps_engine := e; ps_process := ps_process ps; ps_send := ps_send ps;
     ps_receive := ps_receive ps; ps_ids := ps_ids ps; ps_sid := ps_sid ps;
     ps_is_router := ps_is_router ps; ps_destroyed := ps_destroyed ps;
     ps_iv_included := ps_iv_included ps |}.

Definition set_pool (ps : SilcPacketStream) (pool : list SilcBuffer) : SilcPacketStream :=
  let e := ps_engine ps in
  set_engine ps {| e_local_is_router := e_local_is_router e; e_packet_pool := pool;
                   e_inbufs := e_inbufs e |}.

Definition set_inbufs (ps : SilcPacketStream) (inbufs : list SilcBuffer) : SilcPacketStream :=
  let e := ps_engine ps in
  set_engine ps {| e_local_is_router := e_local_is_router e;
                   e_packet_pool := e_packet_pool e; e_inbufs := inbufs |}.

(** The buffer of the packet: the first one of the pool, with what it held, or
    a new one. *)
Definition silc_packet_alloc (ps : SilcPacketStream) : SilcBuffer * SilcPacketStream :=
  match e_packet_pool (ps_engine ps) with
  | b :: pool => (b, set_pool ps pool)
  | [] => ({| b_head := []; b_data := []; b_tail := zrepeat indet SILC_PACKET_DEFAULT_SIZE |}, ps)
  end.

Definition silc_packet_free (ps : SilcPacketStream) (packet : SilcPacket) : SilcPacketStream :=
  set_pool ps (e_packet_pool (ps_engine ps) ++ [silc_buffer_reset (pk_buffer packet)]).

(** * Dispatching *)

(** Does a processor take packets of the type: all types, or one of those up
    to the terminating 0. *)
Fixpoint types_match (types : list Z) (type : Z) : bool :=
  match types with
  | [] => false
  | t :: types => if t =? 0 then false else if t =? type then true else types_match types type
  end.

Definition process_wants (p : SilcPacketProcess) (packet : SilcPacket)
    (ignore_handler : option Z) : bool :=
  match pp_types p with
  | None => true
  | Some types =>
      types_match types (pk_type packet) &&
      negb (bool_decide (ignore_handler = Some (pp_callbacks p)))
  end.

(** The stream, the events, and whether the packet was taken. *)
Fixpoint dispatch_loop (l : list SilcPacketProcess) (ps : SilcPacketStream)
    (packet : SilcPacket) (ignore_handler : option Z) (default_sent : bool)
    (events : list Event) : SilcPacketStream * list Event * bool :=
  match l with
  | [] =>
      if default_sent then (ps, events, false)
      else
        let '(taken, ps) := packet_receive 0 ps packet in
        (ps, events ++ [EvReceive 0 packet], taken)
  | p :: l =>
      let '(ps, events, taken, default_sent) :=
        if negb default_sent && (pp_priority p <=? 0) then
          let '(taken, ps) := packet_receive 0 ps packet in
          (ps, events ++ [EvReceive 0 packet], taken, true)
        else (ps, events, false, default_sent) in
      if taken then (ps, events, true)
      else if process_wants p packet ignore_handler then
        let '(taken, ps) := packet_receive (pp_callbacks p) ps packet in
        let events := events ++ [EvReceive (pp_callbacks p) packet] in
        if taken then (ps, events, true)
        else dispatch_loop l ps packet ignore_handler default_sent events
      else dispatch_loop l ps packet ignore_handler default_sent events
  end.

(** FALSE: the stream was destroyed.  A packet nobody takes goes back to the
    pool. *)
Definition silc_packet_dispatch (ps : SilcPacketStream) (packet : SilcPacket)
    (ignore_handler : option Z) : bool * SilcPacketStream * list Event :=
  let '(ps, events, taken) :=
    match ps_process ps with
    | None => dispatch_loop [] ps packet ignore_handler false []
    | Some l => dispatch_loop l ps packet ignore_handler false []
    end in
  let ps := if taken then ps else silc_packet_free ps packet in
  (negb (ps_destroyed ps), ps, events).

(** * Taking packets out of the input buffer *)

(** What the first block of a packet tells: the cipher and the HMAC that were
    chosen ([fb_old]: the previous keys), the decrypted header, the IV the
    cipher left, and the lengths of what precedes the header. *)
Record FirstBlock := {
  fb_cipher : option SilcCipher;
  fb_hmac : option SilcHmac;
  fb_old : bool;
  fb_header : list Z;
  fb_iv : list Z;
  fb_block_len : Z;
  fb_ivlen : Z;
  fb_psnlen : Z;
  fb_seq : option (list Z);
}.

(** [None]: the Security ID is unknown. *)
Definition read_first_block (ps : SilcPacketStream) (data : list Z) : option FirstBlock :=
  let r := ps_receive ps in
  match receive_key0 r with
  | None =>
      Some {| fb_cipher := None; fb_hmac := receive_hmac0 r; fb_old := false;
              fb_header := data; fb_iv := []; fb_block_len := SILC_PACKET_MIN_HEADER_LEN;
              fb_ivlen := 0; fb_psnlen := 0; fb_seq := None |}
  | Some cipher0 =>
      let block_len := silc_cipher_get_block_len cipher0 in
      let ctr := silc_cipher_get_mode cipher0 =? SILC_CIPHER_MODE_CTR in
      let iv0 := mem_read (silc_cipher_get_iv cipher0) block_len in
      let '(iv, ivlen, psnlen) :=
        if ps_iv_included ps then
          if ctr then (silc_packet_receive_ctr_increment ps iv0 (zdrop 1 data), 8 + 1, 4)
          else (mem_read (zdrop 1 data) block_len, block_len + 1, 4)
        else if ctr then (silc_packet_receive_ctr_increment ps iv0 [], 0, 0)
        else (iv0, 0, 0) in
      let sid := u8 (byte_at data 0) in
      let chosen :=
        if ps_iv_included ps && negb (sid =? ps_sid ps) then
          match receive_key1 r, receive_hmac1 r with
          | Some key1, None =>
              if (0 <? sid) && (0 <? ps_sid ps) && (ps_sid ps - 1 =? sid)
              then Some (key1, None, true) else None
          | _, _ => None
          end
        else Some (cipher0, receive_hmac0 r, false) in
      match chosen with
      | None => None
      | Some (cipher, hmac, old) =>
          let cipher :=
            if silc_cipher_get_mode cipher =? SILC_CIPHER_MODE_CTR
            then silc_cipher_set_iv cipher None else cipher in
          let '(tmp, iv, cipher) :=
            match silc_cipher_decrypt cipher (mem_read (zdrop ivlen data) block_len) (Some iv) with
            | Some (tmp, Some iv, cipher) => (tmp, iv, cipher)
            | _ => (zrepeat indet SILC_PACKET_MIN_HEADER_LEN, iv, cipher)
            end in
          Some {| fb_cipher := Some cipher; fb_hmac := hmac; fb_old := old;
                  fb_header := if ps_iv_included ps then zdrop 4 tmp else tmp;
                  fb_iv := iv; fb_block_len := block_len; fb_ivlen := ivlen;
                  fb_psnlen := psnlen;
                  fb_seq := if ps_iv_included ps then Some (ztake 4 tmp) else None |}
      end
  end.

(** The cipher and the HMAC that were used, back in the stream. *)
Definition set_receive_keys (ps : SilcPacketStream) (old : bool) (cipher : option SilcCipher)
    (hmac : option SilcHmac) (psn : Z) : SilcPacketStream :=
  let r := ps_receive ps in
  set_receive ps
    (if old
     then {| inbuf := inbuf r; receive_key0 := receive_key0 r; receive_key1 := cipher;
             receive_hmac0 := receive_hmac0 r; receive_hmac1 := hmac; receive_psn := psn |}
     else {| inbuf := inbuf r; receive_key0 := cipher; receive_key1 := receive_key1 r;
             receive_hmac0 := hmac; receive_hmac1 := receive_hmac1 r; receive_psn := psn |}).

(** Is the whole packet encrypted. *)
Definition read_normal (ps : SilcPacketStream) (type flags : Z) : bool :=
  let key := (type =? SILC_PACKET_PRIVATE_MESSAGE) &&
             negb (Z.land flags SILC_PACKET_FLAG_PRIVMSG_KEY =? 0) in
  if e_local_is_router (ps_engine ps) then
    if key then false
    else negb (type =? SILC_PACKET_CHANNEL_MESSAGE) ||
         ((type =? SILC_PACKET_CHANNEL_MESSAGE) && ps_is_router ps)
  else if key then false
  else negb (type =? SILC_PACKET_CHANNEL_MESSAGE).

(** The padding must make up whole blocks. *)
Definition bad_padding (cipher : option SilcCipher) (normal : bool) (paddedlen block_len : Z)
    (header : list Z) : bool :=
  match cipher with
  | None => false
  | Some c =>
      negb (silc_cipher_get_mode c =? SILC_CIPHER_MODE_CTR) && negb (block_len =? 0) &&
      ((normal && negb (paddedlen mod block_len =? 0)) ||
       (negb normal && negb (silc_packet_special_len header mod block_len =? 0)))
  end.

(** The packet's buffer: the decrypted header and the rest of the packet, its
    data area behind the header. *)
Definition packet_fill (b : SilcBuffer) (fb : FirstBlock) (data : list Z) (paddedlen : Z)
  : option SilcBuffer :=
  let b' := if silc_buffer_truelen b <? paddedlen
            then silc_buffer_realloc (Some b)
                   (u32 (silc_buffer_truelen b + (paddedlen - silc_buffer_truelen b)))
            else Some b in
  match b' with
  | None => None
  | Some b =>
      let n := fb_block_len fb - fb_psnlen fb in
      let b := silc_buffer_pull_tail b paddedlen in
      let b := silc_buffer_put b (fb_header fb) n in
      let b := silc_buffer_pull b n in
      Some (silc_buffer_put b (zdrop (fb_ivlen fb + fb_psnlen fb + n) data)
              (u32 (paddedlen - fb_ivlen fb - fb_psnlen fb - n)))
  end.

Definition new_packet (b : SilcBuffer) (flags type : Z) : SilcPacket :=
  {| pk_buffer := b; pk_flags := flags; pk_type := type; pk_src_id := None; pk_dst_id := None;
     pk_src_id_len := 0; pk_src_id_type := 0; pk_dst_id_len := 0; pk_dst_id_type := 0 |}.

(** How a round of the loop ends: wait for more data, [goto out] after the
    error callback, the next round, or the stream was destroyed. *)
Inductive RoundEnd := RoundWait | RoundError (err : SilcPacketError) | RoundNext | RoundDestroyed.

(** From the MAC check on: the first block is there, and the whole packet. *)
Definition read_packet (ps : SilcPacketStream) (buf : SilcBuffer) (fb : FirstBlock)
    (normal : bool) (packetlen paddedlen mac_len : Z)
  : SilcPacketStream * SilcBuffer * list Event * RoundEnd :=
  let data := b_data buf in
  let psn := receive_psn (ps_receive ps) in
  let '(ok, hmac) :=
    silc_packet_check_mac (fb_hmac fb) (mem_read data (paddedlen + fb_ivlen fb))
      (zdrop (fb_ivlen fb + paddedlen) data) (fb_seq fb) psn in
  let ps := set_receive_keys ps (fb_old fb) (fb_cipher fb) hmac psn in
  if negb ok then (ps, buf, [EvError SILC_PACKET_ERR_MAC_FAILED],
                   RoundError SILC_PACKET_ERR_MAC_FAILED)
  else if packetlen <? SILC_PACKET_MIN_LEN
  then (ps, buf, [EvError SILC_PACKET_ERR_MALFORMED], RoundError SILC_PACKET_ERR_MALFORMED)
  else
    let '(b, ps) := silc_packet_alloc ps in
    let packet := new_packet b (byte_at (fb_header fb) 2) (byte_at (fb_header fb) 3) in
    match packet_fill b fb data paddedlen with
    | None => (silc_packet_free ps packet, buf, [EvError SILC_PACKET_ERR_NO_MEMORY],
               RoundError SILC_PACKET_ERR_NO_MEMORY)
    | Some b =>
        let cipher := option_map (fun c => silc_cipher_set_iv c (Some (fb_iv fb)))
                        (fb_cipher fb) in
        match silc_packet_decrypt cipher b normal with
        | None =>
            (silc_packet_free (set_receive_keys ps (fb_old fb) cipher hmac psn)
               (packet_with_buffer packet b), buf,
             [EvError SILC_PACKET_ERR_DECRYPTION_FAILED],
             RoundError SILC_PACKET_ERR_DECRYPTION_FAILED)
        | Some (_, b, cipher) =>
            let psn := match cipher with Some _ => u32 (psn + 1) | None => psn end in
            let ps := set_receive_keys ps (fb_old fb) cipher hmac psn in
            let b := silc_buffer_push b (fb_block_len fb) in
            let buf := silc_buffer_pull buf (paddedlen + mac_len) in
            let '(ok, packet) := silc_packet_parse (packet_with_buffer packet b) in
            if negb ok
            then (silc_packet_free ps packet, buf, [EvError SILC_PACKET_ERR_MALFORMED],
                  RoundError SILC_PACKET_ERR_MALFORMED)
            else
              let '(alive, ps, events) := silc_packet_dispatch ps packet None in
              (ps, buf, events, if alive then RoundNext else RoundDestroyed)
        end
    end.

(** One round of the loop. *)
Definition read_round (ps : SilcPacketStream) (buf : SilcBuffer)
  : SilcPacketStream * SilcBuffer * list Event * RoundEnd :=
  let r := ps_receive ps in
  let min_len := if ps_iv_included ps then SILC_PACKET_MIN_HEADER_LEN_IV
                 else SILC_PACKET_MIN_HEADER_LEN in
  if silc_buffer_len buf <? min_len then (ps, buf, [], RoundWait)
  else
    let mac_len := match receive_hmac0 r with Some h => silc_hmac_len h | None => 0 end in
    match read_first_block ps (b_data buf) with
    | None => (ps, buf, [EvError SILC_PACKET_ERR_UNKNOWN_SID],
               RoundError SILC_PACKET_ERR_UNKNOWN_SID)
    | Some fb =>
        let hmac := if fb_old fb then receive_hmac1 r else receive_hmac0 r in
        let ps := set_receive_keys ps (fb_old fb) (fb_cipher fb) hmac (receive_psn r) in
        let '(packetlen, paddedlen) := SILC_PACKET_LENGTH (fb_header fb) in
        let flags := byte_at (fb_header fb) 2 in
        let type := byte_at (fb_header fb) 3 in
        let normal := read_normal ps type flags in
        if bad_padding (fb_cipher fb) normal paddedlen (fb_block_len fb) (fb_header fb)
        then (ps, buf, [EvError SILC_PACKET_ERR_MALFORMED],
              RoundError SILC_PACKET_ERR_MALFORMED)
        else if silc_buffer_len buf <? paddedlen + fb_ivlen fb + mac_len
        then (ps, buf, [], RoundWait)
        else read_packet ps buf fb normal packetlen paddedlen mac_len
    end.

Definition set_inbuf (ps : SilcPacketStream) (b : option SilcBuffer) : SilcPacketStream :=
  let r := ps_receive ps in
  set_receive ps {| inbuf := b; receive_key0 := receive_key0 r; receive_key1 := receive_key1 r;
                    receive_hmac0 := receive_hmac0 r; receive_hmac1 := receive_hmac1 r;
                    receive_psn := receive_psn r |}.

(** A buffer taken from the list becomes the stream's own. *)
Definition keep_inbuf (ps : SilcPacketStream) (buf : SilcBuffer) : SilcPacketStream :=
  let ps := match inbuf (ps_receive ps) with
            | Some _ => ps
            | None => set_inbufs ps (tl (e_inbufs (ps_engine ps)))
            end in
  set_inbuf ps (Some buf).

(** The label [out]: the buffer is emptied, and goes to the list. *)
Definition release_inbuf (ps : SilcPacketStream) (buf : SilcBuffer) : SilcPacketStream :=
  let inbufs := e_inbufs (ps_engine ps) in
  match inbuf (ps_receive ps) with
  | Some _ => set_inbuf (set_inbufs ps (inbufs ++ [silc_buffer_reset buf])) None
  | None => set_inbufs ps (silc_buffer_reset buf :: tl inbufs)
  end.

(** [None]: out of fuel. *)
Fixpoint read_loop (fuel : nat) (ps : SilcPacketStream) (buf : SilcBuffer)
    (events : list Event) : option (SilcPacketStream * list Event) :=
  if 0 <? silc_buffer_len buf then
    match fuel with
    | O => None
    | S fuel =>
        let '(ps, buf, ev, e) := read_round ps buf in
        let events := events ++ ev in
        match e with
        | RoundWait => Some (keep_inbuf ps buf, events)
        | RoundError _ | RoundDestroyed => Some (release_inbuf ps buf, events)
        | RoundNext => read_loop fuel ps buf events
        end
    end
  else Some (release_inbuf ps buf, events).

(** The buffer with the data: the stream's own, or the first one of the list. *)
Definition current_inbuf (ps : SilcPacketStream) : option SilcBuffer :=
  match inbuf (ps_receive ps) with
  | Some b => Some b
  | None => head (e_inbufs (ps_engine ps))
  end.

Definition silc_packet_read_process (fuel : nat) (ps : SilcPacketStream)
  : option (SilcPacketStream * list Event) :=
  match current_inbuf ps with
  | None => None
  | Some buf => read_loop fuel ps buf []
  end.

(** * Reading *)

(** What silc_stream_read gives: at most the room in the buffer. *)
Inductive ReadResult := ReadEos | ReadLater | ReadFailed | ReadBytes (x : list Z).

(** The buffer [b] replaces the current one. *)
Definition put_inbuf (ps : SilcPacketStream) (b : SilcBuffer) : SilcPacketStream :=
  match inbuf (ps_receive ps) with
  | Some _ => set_inbuf ps (Some b)
  | None => set_inbufs ps (b :: tl (e_inbufs (ps_engine ps)))
  end.

(** FALSE: there is nothing to process. *)
Definition silc_packet_stream_read (ps : SilcPacketStream) (read : ReadResult)
  : bool * SilcPacketStream * list Event :=
  let buf := match current_inbuf ps with
             | Some b => Some b
             | None => silc_buffer_alloc (SILC_PACKET_DEFAULT_SIZE * 65)
             end in
  match buf with
  | None => (false, ps, [])
  | Some b =>
      let b :=
        if silc_buffer_taillen b <? SILC_PACKET_DEFAULT_SIZE * 2 then
          match silc_buffer_realloc (Some b)
                  (u32 (silc_buffer_truelen b + SILC_PACKET_DEFAULT_SIZE * 2)) with
          | Some b => b
          | None => b
          end
        else b in
      match read with
      | ReadBytes x =>
          (true, put_inbuf ps (silc_buffer_pull_tail (silc_buffer_put_tail b x (zlen x)) (zlen x)),
           [])
      | ReadEos => (false, put_inbuf ps (silc_buffer_reset b), [EvEos])
      | ReadLater => (false, put_inbuf ps b, [])
      | ReadFailed => (false, put_inbuf ps (silc_buffer_reset b),
                       [EvError SILC_PACKET_ERR_READ])
      end
  end.

(** silc_packet_stream_io, SILC_STREAM_CAN_READ. *)
Definition silc_packet_stream_io (ps : SilcPacketStream) (read : ReadResult)
  : option (SilcPacketStream * list Event) :=
  if ps_destroyed ps then Some (ps, [])
  else
    match silc_packet_stream_read ps read with
    | (false, ps, events) => Some (ps, events)
    | (true, ps, events) =>
        let len := match current_inbuf ps with Some b => length (b_data b) | None => O end in
        match silc_packet_read_process (S len) ps with
        | None => None
        | Some (ps, events') => Some (ps, events ++ events')
        end
    end.
End receive.
