(* ===== verification/PacketSpec.v ===== *)
(** The packet engine, sending and receiving together: what the receiver makes
    of the bytes the sender puts on the stream. *)

From S2P Require Import Prelude CTypes Buffer BufFmt BufFmtSpec Id Cipher Hash Hmac Packet PacketReceive.

(** * The plain packet *)

Definition packet_header (truelen flags type padlen src_id_len dst_id_len : Z) : list Z :=
  SILC_PUT16_MSB truelen ++ [flags; type; padlen; 0; src_id_len; dst_id_len].

(** A packet before encryption. *)
Record Plain := {
  p_flags : Z;
  p_type : Z;
  p_src_type : Z;
  p_src : list Z;
  p_dst_type : Z;
  p_dst : list Z;
  p_pad : list Z;
  p_data : list Z;
}.

Definition p_header_len (p : Plain) : Z := 10 + zlen (p_src p) + zlen (p_dst p).
Definition p_truelen (p : Plain) : Z := p_header_len p + zlen (p_data p).

Definition plain_bytes (p : Plain) : list Z :=
  packet_header (p_truelen p) (p_flags p) (p_type p) (zlen (p_pad p)) (zlen (p_src p))
    (zlen (p_dst p)) ++
  [p_src_type p] ++ p_src p ++ [p_dst_type p] ++ p_dst p ++ p_pad p ++ p_data p.

Definition plain_ok (p : Plain) : Prop :=
  is_byte (p_flags p) /\ is_byte (p_type p) /\
  0 <= p_src_type p <= 3 /\ 0 <= p_dst_type p <= 3 /\
  zlen (p_src p) <= 28 /\ zlen (p_dst p) <= 28 /\ zlen (p_pad p) <= 128 /\
  p_truelen p < 65536 /\
  bytes_ok (p_src p) /\ bytes_ok (p_dst p) /\ bytes_ok (p_pad p) /\ bytes_ok (p_data p).

Lemma plain_len p : zlen (plain_bytes p) = p_truelen p + zlen (p_pad p).
Proof.
  unfold plain_bytes, packet_header, p_truelen, p_header_len.
  rewrite !length_app, !length_cons, !length_nil, length_PUT16_MSB. lia.
Qed.

Lemma plain_bytes_ok p : plain_ok p -> bytes_ok (plain_bytes p).
Proof.
  unfold plain_ok. intros. destruct_and!. unfold plain_bytes, packet_header.
  repeat (apply Forall_app; split); auto with silc;
    repeat apply Forall_cons_2; try apply Forall_nil_2; try done; unfold is_byte; lia.
Qed.

(** What the macros and the tests read from the first eight bytes. *)
Lemma header_fields n f t pl sl dl l :
  0 <= n < 65536 -> is_byte pl -> is_byte sl -> is_byte dl ->
  let h := packet_header n f t pl sl dl ++ l in
  SILC_PACKET_LENGTH h = (n, n + pl) /\ byte_at h 2 = f /\ byte_at h 3 = t /\
  u8 (byte_at h 4) = pl /\ silc_packet_special_len h = pl + sl + dl + 10.
Proof.
  intros Hn Hp Hs Hd. cbv zeta. unfold packet_header. rewrite <- app_assoc.
  unfold SILC_PACKET_LENGTH, silc_packet_special_len, SILC_PACKET_HEADER_LEN.
  rewrite SILC_GET16_PUT16_MSB, u16_id by done. unfold SILC_PUT16_MSB.
  cbn [app]. unfold byte_at.
  change (Z.to_nat 2) with 2%nat. change (Z.to_nat 3) with 3%nat.
  change (Z.to_nat 4) with 4%nat. change (Z.to_nat 6) with 6%nat.
  change (Z.to_nat 7) with 7%nat. cbn [nth]. rewrite !u8_id by done. done.
Qed.

(** * Padding *)

Lemma padlen_range len block_len :
  block_len = 0 \/ block_len = 16 -> 0 <= len ->
  8 <= SILC_PACKET_PADLEN len block_len < 24 /\
  (len + SILC_PACKET_PADLEN len block_len) mod 16 = 0.
Proof.
  intros Hb Hl. unfold SILC_PACKET_PADLEN, SILC_PACKET_DEFAULT_PADLEN.
  replace (pad_block block_len) with 16 by (destruct Hb as [-> | ->]; done).
  pose proof (Z.mod_pos_bound len 16). pose proof (Z.div_mod len 16).
  destruct (Z.ltb_spec (16 - len mod 16) 8).
  - split; [lia|]. replace (len + (16 - len mod 16 + 16)) with ((len / 16 + 2) * 16) by lia.
    apply Z.mod_mul. lia.
  - split; [lia|]. replace (len + (16 - len mod 16)) with ((len / 16 + 1) * 16) by lia.
    apply Z.mod_mul. lia.
Qed.

Lemma padlen_max_range len block_len :
  block_len = 0 \/ block_len = 16 -> 0 <= len ->
  112 < SILC_PACKET_PADLEN_MAX len block_len <= 128 /\
  (len + SILC_PACKET_PADLEN_MAX len block_len) mod 16 = 0.
Proof.
  intros Hb Hl. unfold SILC_PACKET_PADLEN_MAX, SILC_PACKET_MAX_PADLEN.
  replace (pad_block block_len) with 16 by (destruct Hb as [-> | ->]; done).
  pose proof (Z.mod_pos_bound len 16). pose proof (Z.div_mod len 16).
  split; [lia|]. replace (len + (128 - len mod 16)) with ((len / 16 + 8) * 16) by lia.
  apply Z.mod_mul. lia.
Qed.

Section spec.
Context `{CipherLaws} `{HashLaws}.

(** Padding is at most 128 bytes, never one byte, and fills up whole blocks
    unless the cipher is in CTR mode; what is encrypted is the whole packet or,
    for special packets, the header with the padding. *)
Lemma packet_padding_spec ps ctr type flags header_len truelen block_len padlen enclen :
  block_len = 0 \/ block_len = 16 -> 0 <= header_len <= truelen ->
  packet_padding ps ctr type flags header_len truelen 0 block_len = (padlen, enclen) ->
  0 <= padlen <= 128 /\ padlen <> 1 /\ (ctr = false -> 8 <= padlen /\ enclen mod 16 = 0) /\
  enclen = (if packet_special ps type flags then header_len else truelen) + padlen.
Proof.
  intros Hb Hl. unfold packet_padding. rewrite !Z.add_0_r.
  pose proof (padlen_range header_len block_len Hb ltac:(lia)) as [? ?].
  pose proof (padlen_range truelen block_len Hb ltac:(lia)) as [? ?].
  pose proof (padlen_max_range truelen block_len Hb ltac:(lia)) as [? ?].
  destruct (packet_special ps type flags); [|destruct (_ || _)];
    try destruct ctr; intros [= <- <-]; split_and!; try lia; try done; intros; split; done || lia.
Qed.

(** * Sending *)

Lemma send_prepare_some ps totlen hmac :
  let b := outbuf (ps_send ps) in
  let n := totlen + match hmac with Some h => hmac_len h | None => 0 end in
  0 <= totlen <= n -> b_size b + n < SILC_MAX_ALLOC ->
  exists region t,
    zlen region = n /\ b_size {| b_head := b_head b; b_data := b_data b ++ region; b_tail := t |}
      <= b_size b + n /\
    silc_packet_send_prepare ps totlen hmac =
      Some (set_outbuf ps {| b_head := b_head b; b_data := b_data b ++ region; b_tail := t |}
              (send_psn (ps_send ps)),
            {| b_head := []; b_data := ztake totlen region; b_tail := zdrop totlen region |}).
Proof.
  intros b n Hn Hsz. unfold silc_packet_send_prepare, silc_hmac_len. fold b. fold n.
  assert (buf_ok b) as Hok by (unfold buf_ok, n in *; lia).
  assert (exists x, (if silc_buffer_taillen b <? n
           then silc_buffer_realloc (Some b) (u32 (silc_buffer_truelen b + n)) else Some b) =
    Some {| b_head := b_head b; b_data := b_data b; b_tail := b_tail b ++ x |} /\
    n <= zlen (b_tail b ++ x) /\ zlen x <= n) as (x & -> & Hx & Hxl).
  { rewrite buffer_taillen_ok by done. destruct (Z.ltb_spec (zlen (b_tail b)) n).
    - unfold silc_buffer_realloc. rewrite buffer_truelen_ok by done.
      assert (0 <= b_size b) by (unfold b_size; lia).
      rewrite u32_id by (unfold SILC_MAX_ALLOC in *; lia). zcase; [lia|].
      rewrite silc_malloc_ok_true by lia. eexists. split; [done|].
      unfold zrepeat, b_size in *. rewrite length_app, length_replicate. lia.
    - exists []. rewrite app_nil_r. destruct b; split; [done|]. simpl in *. lia. }
  set (t := b_tail b ++ x) in *.
  exists (ztake n t), (zdrop n t).
  assert (zlen t = zlen (b_tail b) + zlen x) as Ht by (unfold t; len).
  assert (zlen (ztake n t) = n) as Htn by (apply zlen_ztake; lia).
  split; [done|]. split.
  { unfold b_size in *. cbn [b_head b_data b_tail]. rewrite length_app.
    rewrite zlen_zdrop by lia. lia. }
  f_equal. f_equal.
  - unfold silc_buffer_pull_tail, silc_buffer_taillen. cbn [b_head b_data b_tail].
    rewrite u32_id by (unfold b_size, SILC_MAX_ALLOC in *; lia). zcase; [lia|]. done.
  - unfold silc_buffer_push_tail, silc_buffer_set. cbn [b_head b_data b_tail].
    assert (n - (n - totlen) = totlen) as E by lia.
    rewrite Htn. fold n. replace (match hmac with Some h => hmac_len h | None => 0 end)
      with (n - totlen) by (unfold n; lia). zcase; [lia|].
    by rewrite app_nil_r, E.
Qed.

(** The cipher with the counter block of the next packet. *)
Definition next_iv (c : SilcCipher) : list Z :=
  if silc_cipher_get_mode c =? SILC_CIPHER_MODE_CTR
  then ctr_block_incr (ctr_block_reset (silc_cipher_get_iv c)) else silc_cipher_get_iv c.

Definition next_cipher (c : SilcCipher) : SilcCipher := cipher_put_iv c (next_iv c).

Definition opt_ctr (cipher : option SilcCipher) : bool :=
  match cipher with
  | Some c => silc_cipher_get_mode c =? SILC_CIPHER_MODE_CTR
  | None => false
  end.

Definition opt_block_len (cipher : option SilcCipher) : Z :=
  match cipher with Some c => silc_cipher_get_block_len c | None => 0 end.

(** The data, cut to what fits in a packet. *)
Definition sent_data (header_len : Z) (data : list Z) : list Z :=
  ztake (SILC_PACKET_DATALEN (zlen data) header_len) data.

(** The plain packet that is sent, with its padding; and how many bytes of it
    are encrypted. *)
Definition sent_plain (ps : SilcPacketStream) (type flags st : Z) (src : list Z) (dt : Z)
    (dst data : list Z) (cipher : option SilcCipher) (rnd : list Z) : Plain :=
  let hl := 10 + zlen src + zlen dst in
  let data := sent_data hl data in
  let padlen := (packet_padding ps (opt_ctr cipher) type flags hl (hl + zlen data) 0
                   (opt_block_len cipher)).1 in
  {| p_flags := Z.land flags (Z.lnot SILC_PACKET_FLAG_LONG_PAD); p_type := type;
     p_src_type := st; p_src := src; p_dst_type := dt; p_dst := dst;
     p_pad := ztake padlen rnd; p_data := data |}.

Definition plain_enclen (ps : SilcPacketStream) (p : Plain) (flags : Z) : Z :=
  (if packet_special ps (p_type p) flags then p_header_len p else p_truelen p) +
  zlen (p_pad p).

(** The bytes of a plain packet after encryption, and the cipher after it. *)
Inductive encrypted : option SilcCipher -> list Z -> Z -> list Z -> option SilcCipher -> Prop :=
| enc_none x n : encrypted None x n x None
| enc_some c x n y c' :
    silc_cipher_encrypt (silc_cipher_set_iv c None) (ztake n x) None = Some (y, None, c') ->
    zlen y = n -> encrypted (Some c) x n (y ++ zdrop n x) (Some c').

(** The MAC over sequence number and packet. *)
Inductive macced : option SilcHmac -> Z -> list Z -> list Z -> option SilcHmac -> Prop :=
| mac_none psn x : macced None psn x [] None
| mac_some h psn x h' :
    silc_hmac_final (silc_hmac_update (silc_hmac_update (silc_hmac_init h)
      (SILC_PUT32_MSB psn)) x) =
      (hmac_fn (hmac_len h) (key_bytes h) (SILC_PUT32_MSB psn ++ x), h') ->
    hmac_len h' = hmac_len h -> hmac_key h' = hmac_key h -> zlen
      (hmac_fn (hmac_len h) (key_bytes h) (SILC_PUT32_MSB psn ++ x)) = hmac_len h ->
    macced (Some h) psn x (hmac_fn (hmac_len h) (key_bytes h) (SILC_PUT32_MSB psn ++ x))
      (Some h').

Lemma macced_some h psn x :
  0 <= hmac_len h <= alg_hash_len -> zlen (key_bytes h) < 2 ^ 31 -> zlen x < 2 ^ 31 ->
  exists h', macced (Some h) psn x
    (hmac_fn (hmac_len h) (key_bytes h) (SILC_PUT32_MSB psn ++ x)) (Some h').
Proof.
  intros Hl Hk Hx. destruct (hmac_pieces h [SILC_PUT32_MSB psn; x] Hl Hk) as (h' & E & El & Ek);
    [by repeat constructor|].
  exists h'. cbn [foldl concat] in E. rewrite app_nil_r in E.
  apply mac_some; try done. by apply hmac_fn_len.
Qed.

(** What the caller gives to silc_packet_send_raw. *)
Definition send_args_ok (type flags st : Z) (src : list Z) (dt : Z) (dst data rnd : list Z)
  : Prop :=
  is_byte type /\ is_byte flags /\ 0 <= st <= 3 /\ 0 <= dt <= 3 /\
  zlen src <= 28 /\ zlen dst <= 28 /\ bytes_ok src /\ bytes_ok dst /\
  bytes_ok data /\ bytes_ok rnd /\ zlen data < 2 ^ 31 /\ 128 <= zlen rnd.

Lemma opt_block_len_16 cipher : opt_block_len cipher = 0 \/ opt_block_len cipher = 16.
Proof. destruct cipher; [right; apply alg_block_len_16|by left]. Qed.

Lemma sent_data_len hl data :
  10 <= hl <= 66 -> zlen data < 2 ^ 31 ->
  SILC_PACKET_DATALEN (zlen data) hl = zlen (sent_data hl data) /\
  hl + zlen (sent_data hl data) <= 65535.
Proof.
  intros Hh Hd. unfold sent_data, SILC_PACKET_DATALEN, SILC_PACKET_MAX_LEN.
  rewrite (u32_id (zlen data + hl)) by lia. zcase.
  - rewrite u32_id by lia. rewrite zlen_ztake by lia. lia.
  - rewrite zlen_ztake by lia. lia.
Qed.

Lemma long_pad_off flags :
  is_byte flags -> is_byte (Z.land flags (Z.lnot SILC_PACKET_FLAG_LONG_PAD)).
Proof.
  intros Hf.
  pose proof (byte_forall (fun f => let x := Z.land f (Z.lnot SILC_PACKET_FLAG_LONG_PAD) in
    (0 <=? x) && (x <? 256)) ltac:(by vm_compute) flags Hf) as T. cbv zeta beta in T.
  unfold is_byte. lia.
Qed.

Lemma sent_plain_spec ps type flags st src dt dst data cipher rnd :
  send_args_ok type flags st src dt dst data rnd ->
  let p := sent_plain ps type flags st src dt dst data cipher rnd in
  plain_ok p /\ zlen (p_pad p) <> 1 /\
  packet_padding ps (opt_ctr cipher) type flags (p_header_len p) (p_truelen p) 0
    (opt_block_len cipher) = (zlen (p_pad p), plain_enclen ps p flags) /\
  (opt_ctr cipher = false -> 8 <= zlen (p_pad p) /\ plain_enclen ps p flags mod 16 = 0).
Proof.
  intros (Ht & Hf & Hst & Hdt & Hsl & Hdl & Hsb & Hdb & Hb & Hrb & Hdn & Hrn). cbv zeta.
  set (hl := 10 + zlen src + zlen dst).
  destruct (sent_data_len hl data) as [Hd1 Hd2]; [unfold hl; lia|done|].
  unfold sent_plain, plain_enclen, p_truelen, p_header_len. cbv zeta.
  cbn [p_type p_pad p_data p_src p_dst]. fold hl.
  destruct (packet_padding ps (opt_ctr cipher) type flags hl (hl + zlen (sent_data hl data)) 0
    (opt_block_len cipher)) as [padlen enclen] eqn:E.
  pose proof E as E'. apply packet_padding_spec in E' as (P1 & P2 & P3 & P4);
    [|apply opt_block_len_16|unfold hl; lia].
  cbn [fst]. rewrite zlen_ztake by lia.
  assert (zlen (ztake padlen rnd) = padlen) as Ep by (apply zlen_ztake; lia).
  rewrite <- P4. split_and!; try done; try lia.
  unfold plain_ok, p_truelen, p_header_len.
  cbn [p_flags p_type p_src_type p_src p_dst_type p_dst p_pad p_data]. fold hl.
  rewrite Ep. split_and!; try done; try lia.
  - by apply long_pad_off.
  - by apply bytes_ok_cut.
  - by apply bytes_ok_cut.
Qed.

Lemma ztake_len_ztake {A} n (l : list A) : ztake (zlen (ztake n l)) l = ztake n l.
Proof.
  unfold ztake. rewrite Nat2Z.id, length_take.
  destruct (Nat.le_ge_cases (Z.to_nat n) (length l)).
  - by rewrite Nat.min_l.
  - rewrite Nat.min_r, !take_ge by lia. done.
Qed.

(** A pointer and what it points to. *)
Definition ptr_to (p : option (list Z)) (l : list Z) : Prop := ptr_bytes p = l.

Lemma fmt_ptr p l n : ptr_to p l -> n = zlen l -> fmt_bytes1 (F_DATA p n) = l.
Proof. intros <- ->. destruct p; [by apply mem_read_exact|done]. Qed.

(** The parameters of the format are the plain packet. *)
Lemma send_format ps type flags st src dt dst data cipher rnd psn srcp dstp datap :
  send_args_ok type flags st src dt dst data rnd ->
  ptr_to srcp src -> ptr_to dstp dst -> ptr_to datap data ->
  let p := sent_plain ps type flags st src dt dst data cipher rnd in
  fmt_bytes
    [F_DATA (Some []) 0; F_DATA (Some psn) 0; F_UI16_SHORT (p_truelen p);
     F_UI8_CHAR (p_flags p); F_UI8_CHAR type; F_UI8_CHAR (zlen (p_pad p)); F_UI8_CHAR 0;
     F_UI8_CHAR (zlen src); F_UI8_CHAR (zlen dst); F_UI8_CHAR st;
     F_DATA srcp (zlen src); F_UI8_CHAR dt; F_DATA dstp (zlen dst);
     F_DATA (Some (mem_read rnd (zlen (p_pad p)))) (zlen (p_pad p));
     F_DATA datap (zlen (p_data p))] = plain_bytes p.
Proof.
  intros Ha Hs Hd Hdt p.
  destruct (sent_plain_spec ps type flags st src dt dst data cipher rnd Ha) as (Hok & _).
  fold p in Hok. destruct Hok as (? & ? & ? & ? & ? & ? & ? & ? & _).
  destruct Ha as (? & ? & ? & ? & ? & ? & ? & ? & ? & ? & ? & ?).
  assert (mem_read rnd (zlen (p_pad p)) = p_pad p) as Ep.
  { rewrite mem_read_le by lia. unfold p, sent_plain. cbn [p_pad].
    apply ztake_len_ztake. }
  assert (0 <= p_truelen p) by (unfold p_truelen, p_header_len; lia).
  assert (fmt_bytes1 (F_DATA datap (zlen (p_data p))) = p_data p) as Edata.
  { assert (zlen (p_data p) <= zlen data) as Hle.
    { unfold p, sent_plain, sent_data. cbn [p_data]. len. }
    assert (p_data p = ztake (zlen (p_data p)) data) as Et.
    { unfold p, sent_plain, sent_data. cbn [p_data]. by rewrite ztake_len_ztake. }
    unfold ptr_to in Hdt. destruct datap as [d|]; cbn [ptr_bytes] in Hdt.
    - rewrite Hdt. cbn [fmt_bytes1]. rewrite mem_read_le by lia. done.
    - cbn [fmt_bytes1]. symmetry. apply zlen_0_nil.
      rewrite <- Hdt in Hle. change (zlen (@nil Z)) with 0 in Hle. lia. }
  unfold fmt_bytes. cbn [map concat]. rewrite Edata.
  rewrite (fmt_ptr _ _ _ Hs eq_refl), (fmt_ptr _ _ _ Hd eq_refl).
  cbn [fmt_bytes1]. rewrite Ep, (mem_read_exact (p_pad p)), app_nil_r by done.
  unfold is_byte in *.
  rewrite u16_id, !u8_id, (mem_read_le psn 0), ztake_0 by lia. done.
Qed.

Lemma encrypted_len c x n y c' : encrypted c x n y c' -> 0 <= n <= zlen x -> zlen y = zlen x.
Proof.
  intros He Hn. destruct He as [|c x n y c' E Hy]; [done|].
  rewrite length_app. pose proof (zlen_zdrop n x). lia.
Qed.

Lemma packet_encrypt_some c x n y c' h t :
  encrypted c x n y c' -> 0 <= n <= zlen x ->
  packet_encrypt c {| b_head := h; b_data := x; b_tail := t |} 0 n =
    Some ({| b_head := h; b_data := y; b_tail := t |}, c').
Proof.
  intros He Hn. destruct He as [|c x n y c' E Hy]; [done|].
  unfold packet_encrypt. cbn [b_head b_data b_tail]. rewrite zdrop_0, mem_read_le by lia.
  rewrite E. done.
Qed.

Lemma packet_put_mac_some hmac psn h x t mac hmac' :
  macced hmac psn x mac hmac' ->
  zlen t = zlen mac -> zlen t < SILC_MAX_ALLOC ->
  packet_put_mac hmac {| b_head := h; b_data := x; b_tail := t |} (SILC_PUT32_MSB psn) =
    ({| b_head := h; b_data := x ++ mac; b_tail := [] |}, hmac').
Proof.
  intros Hm Ht Hs. destruct Hm as [psn x|hm psn x h' E El Ek Ez].
  - rewrite app_nil_r, (zlen_0_nil t) by done. done.
  - unfold packet_put_mac. cbn [b_head b_data b_tail]. rewrite E.
    rewrite (zdrop_all _ t), app_nil_r by lia. f_equal.
    unfold silc_buffer_pull_tail, silc_buffer_taillen. cbn [b_head b_data b_tail].
    rewrite u32_id by (unfold SILC_MAX_ALLOC in *; lia). zcase; [lia|].
    by rewrite ztake_all, zdrop_all by lia.
Qed.

Lemma outbuf_store_some h d region t x :
  zlen region = zlen (b_area x) ->
  outbuf_store {| b_head := h; b_data := d ++ region; b_tail := t |} x =
  {| b_head := h; b_data := d ++ b_area x; b_tail := t |}.
Proof.
  intros Hr. unfold outbuf_store. cbn [b_head b_data b_tail].
  rewrite ztake_app_exact by (rewrite length_app; lia). done.
Qed.

Lemma plain_enclen_range ps p flags :
  0 <= plain_enclen ps p flags <= zlen (plain_bytes p).
Proof.
  rewrite plain_len. unfold plain_enclen, p_truelen, p_header_len.
  destruct (packet_special _ _ _); lia.
Qed.

(** The cipher and the (empty) IV field of a stream without IV included. *)
Lemma send_iv ps cipher rnd :
  ps_iv_included ps = false ->
  (match cipher with
   | None => (None, [])
   | Some c =>
       if opt_ctr cipher then
         let '(c, ret_iv) := silc_packet_send_ctr_increment ps c rnd in
         (Some c, if ps_iv_included ps then [ps_sid ps] ++ ret_iv else [])
       else
         (Some c, if ps_iv_included ps
                  then [ps_sid ps] ++ mem_read (silc_cipher_get_iv c) (opt_block_len cipher)
                  else [])
   end : option SilcCipher * list Z) = (option_map next_cipher cipher, []).
Proof.
  intros Hiv. destruct cipher as [c|]; [|done]. cbn [opt_ctr option_map].
  unfold next_cipher, next_iv, silc_packet_send_ctr_increment. rewrite Hiv.
  destruct (silc_cipher_get_mode c =? SILC_CIPHER_MODE_CTR); [done|].
  unfold cipher_put_iv, silc_cipher_get_iv. by destruct c.
Qed.

Definition next_psn (hmac : option SilcHmac) (psn : Z) : Z :=
  match hmac with Some _ => u32 (psn + 1) | None => psn end.

Lemma macced_is_some hmac psn x mac hmac' (A : Type) (a b : A) :
  macced hmac psn x mac hmac' ->
  match hmac' with Some _ => a | None => b end = match hmac with Some _ => a | None => b end.
Proof. by intros []. Qed.

Lemma macced_len hmac psn x mac hmac' :
  macced hmac psn x mac hmac' ->
  zlen mac = match hmac with Some h => hmac_len h | None => 0 end.
Proof. by intros []. Qed.

(** The packet is put behind what the output buffer holds. *)
Lemma send_raw_some ps type flags st srcp src dt dstp dst datap data cipher hmac rnd
    enc cipher' mac hmac' :
  let p := sent_plain ps type flags st src dt dst data cipher rnd in
  let b := outbuf (ps_send ps) in
  let psn := send_psn (ps_send ps) in
  ps_iv_included ps = false -> send_args_ok type flags st src dt dst data rnd ->
  ptr_to srcp src -> ptr_to dstp dst -> ptr_to datap data ->
  encrypted (option_map next_cipher cipher) (plain_bytes p) (plain_enclen ps p flags)
    enc cipher' ->
  macced hmac psn enc mac hmac' ->
  b_size b + zlen enc + zlen mac < SILC_MAX_ALLOC ->
  exists b',
    silc_packet_send_raw ps type flags st srcp (zlen src) dt dstp (zlen dst) datap (zlen data)
      cipher hmac rnd = (true, set_outbuf ps b' (next_psn hmac psn), cipher', hmac') /\
    b_head b' = b_head b /\ b_data b' = b_data b ++ enc ++ mac /\
    b_size b' <= b_size b + zlen enc + zlen mac.
Proof.
  intros p b psn Hiv Ha Hsp Hdp Hdt He Hm Hsz.
  destruct (sent_plain_spec ps type flags st src dt dst data cipher rnd Ha)
    as (Hok & _ & Hpad & _). fold p in Hok, Hpad.
  pose proof (send_format ps type flags st src dt dst data cipher rnd (SILC_PUT32_MSB psn)
    srcp dstp datap Ha Hsp Hdp Hdt) as Hfmt. cbv zeta in Hfmt. fold p in Hfmt.
  pose proof (plain_enclen_range ps p flags) as Hn.
  pose proof (encrypted_len _ _ _ _ _ He Hn) as Hel.
  pose proof (macced_len _ _ _ _ _ Hm) as Hml. rewrite plain_len in Hel.
  assert (SILC_PACKET_DATALEN (zlen data) (SILC_PACKET_HEADER_LEN + zlen src + zlen dst) =
    zlen (p_data p)) as Edl.
  { destruct Ha as (? & ? & ? & ? & ? & ? & ? & ? & ? & ? & ? & ?).
    apply sent_data_len; [unfold SILC_PACKET_HEADER_LEN; lia|done]. }
  assert (zlen (p_data p) + SILC_PACKET_HEADER_LEN + zlen src + zlen dst = p_truelen p) as Etl.
  { unfold p_truelen, p_header_len, SILC_PACKET_HEADER_LEN.
    change (p_src p) with src. change (p_dst p) with dst. lia. }
  unfold silc_packet_send_raw.
  change (match cipher with Some c => silc_cipher_get_block_len c | None => 0 end)
    with (opt_block_len cipher).
  change (match cipher with
          | Some c => silc_cipher_get_mode c =? SILC_CIPHER_MODE_CTR
          | None => false end) with (opt_ctr cipher).
  cbv zeta. rewrite Edl, Etl, (send_iv ps cipher rnd Hiv), Hiv. cbn [andb length].
  rewrite andb_false_r.
  change (SILC_PACKET_HEADER_LEN + zlen src + zlen dst) with (p_header_len p).
  rewrite Hpad.
  assert (8 <= p_truelen p) as Htr by (unfold p_truelen, p_header_len; lia).
  destruct (send_prepare_some ps (p_truelen p + zlen (p_pad p) + 0 + 0) hmac)
    as (region & t & Hr & Hbs & Ep).
  { destruct hmac as [h|]; [|lia]. inversion Hm; subst. lia. }
  { fold b. lia. }
  change (Z.of_nat 0) with 0. rewrite Ep.
  cbn [set_outbuf set_send ps_send outbuf send_psn]. fold b psn.
  change (Z.land flags (Z.lnot SILC_PACKET_FLAG_LONG_PAD)) with (p_flags p).
  rewrite !Z.add_0_r in *. rewrite <- plain_len in *.
  set (x := plain_bytes p) in *.
  assert (zlen (ztake (zlen x) region) = zlen x) as Hx by (apply zlen_ztake; lia).
  assert (zlen (zdrop (zlen x) region) = zlen mac) as Ht by (rewrite zlen_zdrop; lia).
  assert (0 <= b_size b) by (unfold b_size; lia).
  rewrite format_plain; rewrite ?Hfmt; [| |unfold buf_fits, b_size|lia].
  2: { repeat constructor; simpl; lia. }
  2: { cbn [b_head b_data b_tail length]. lia. }
  cbn [b_head b_data b_tail]. rewrite (zdrop_all (zlen x) (ztake _ _)), app_nil_r by lia.
  rewrite Hx, Z.sub_diag, zdrop_0. zcase; [lia|].
  rewrite (packet_encrypt_some _ _ _ _ _ _ _ He Hn).
  rewrite (packet_put_mac_some _ _ _ _ _ _ _ Hm Ht) by lia.
  rewrite outbuf_store_some by (unfold b_area; cbn [b_head b_data b_tail];
    rewrite !length_app, length_nil; lia).
  eexists. split.
  { rewrite (macced_is_some _ _ _ _ _ _ _ _ Hm). unfold set_outbuf, set_send.
    cbn [ps_send ps_engine ps_process ps_receive ps_ids ps_sid ps_is_router ps_destroyed
      ps_iv_included send_key0 send_key1 send_hmac0 send_hmac1]. reflexivity. }
  cbn [b_head b_data b_tail]. unfold b_area. cbn [b_head b_data b_tail].
  rewrite app_nil_r. split; [done|]. split; [done|].
  unfold b_size in *. cbn [b_head b_data b_tail] in *. rewrite !length_app in *.
  cbn [app]. rewrite ?length_app, ?length_nil. fold b in Hbs. lia.
Qed.

(** * Receiving *)

(** ** Counter blocks *)

Lemma is_block_cut x : is_block x ->
  exists a b c, x = a ++ b ++ c /\ zlen a = 4 /\ zlen b = 8 /\ zlen c = 4 /\
    bytes_ok a /\ bytes_ok b /\ bytes_ok c.
Proof.
  intros [Hl Hb]. destruct (zsplit 4 x) as (a & y & -> & Ha); [lia|]. rewrite length_app in Hl.
  destruct (zsplit 8 y) as (b & c & -> & Hc); [lia|]. rewrite length_app in Hl.
  rewrite !Forall_app in Hb. exists a, b, c. split_and!; try done; try lia; tauto.
Qed.

(** The counter is incremented before or after the block counter is cleared. *)
Lemma ctr_block_cut a b c :
  zlen a = 4 -> zlen b = 8 -> zlen c = 4 ->
  let pc1 := SILC_GET32_MSB b in
  let pc2 := u32 (SILC_GET32_MSB (zdrop 4 b) + 1) in
  ctr_block_incr (a ++ b ++ c) =
    a ++ (SILC_PUT32_MSB (if pc2 =? 0 then u32 (pc1 + 1) else pc1) ++ SILC_PUT32_MSB pc2) ++ c /\
  ctr_block_reset (a ++ b ++ c) = a ++ b ++ zrepeat 0 4.
Proof.
  intros Ha Hb Hc.
  do 4 (destruct a as [|? a]; [exfalso; cbn [length] in Ha; lia|]).
  destruct a; [|exfalso; cbn [length] in Ha; lia].
  do 8 (destruct b as [|? b]; [exfalso; cbn [length] in Hb; lia|]).
  destruct b; [|exfalso; cbn [length] in Hb; lia].
  do 4 (destruct c as [|? c]; [exfalso; cbn [length] in Hc; lia|]).
  destruct c; [|exfalso; cbn [length] in Hc; lia]. split; reflexivity.
Qed.

Lemma ctr_block_commute iv :
  is_block iv ->
  ctr_block_reset (ctr_block_incr iv) = ctr_block_incr (ctr_block_reset iv) /\
  is_block (ctr_block_incr (ctr_block_reset iv)).
Proof.
  intros (a & b & c & -> & Ha & Hb & Hc & Hab & Hbb & Hcb)%is_block_cut.
  destruct (ctr_block_cut a b c Ha Hb Hc) as [E1 E2]. cbv zeta in E1. rewrite E1, E2.
  destruct (ctr_block_cut a b (zrepeat 0 4) Ha Hb eq_refl) as [E3 _]. cbv zeta in E3. rewrite E3.
  set (m := SILC_PUT32_MSB _ ++ SILC_PUT32_MSB _). assert (zlen m = 8) as Hm by done.
  destruct (ctr_block_cut a m c Ha Hm Hc) as [_ E4]. rewrite E4. split; [done|].
  split; [rewrite !length_app; change (length (zrepeat 0 4)) with 4%nat; lia|].
  repeat (apply Forall_app; split); auto with silc. by apply bytes_ok_check.
Qed.

Lemma next_iv_block c : is_block (c_iv c) -> is_block (next_iv c).
Proof. intros Hb. unfold next_iv. destruct (_ =? _); [by apply ctr_block_commute|done]. Qed.

(** ** The ciphers of the two ends *)

Lemma next_encrypt_some s r x n :
  cipher_sync s r -> bytes_ok x -> 16 <= n <= zlen x -> alg_whole n ->
  exists y s' , silc_cipher_encrypt (silc_cipher_set_iv (next_cipher s) None) (ztake n x) None =
    Some (y, None, s') /\ zlen y = n /\ bytes_ok y.
Proof.
  intros (Hp & Hv & Hb) Hx Hn Hw.
  destruct (cipher_send_receive (next_cipher s) r (ztake n x) (next_iv s))
    as (y & s' & _ & _ & _ & He & Hl & Hy & _); try done.
  - by apply next_iv_block.
  - rewrite <- Hv. apply Hb.
  - by apply bytes_ok_cut.
  - rewrite zlen_ztake; lia.
  - by rewrite zlen_ztake by lia.
  - exists y, s'. split; [done|]. split; [|done]. rewrite Hl. by rewrite zlen_ztake by lia.
Qed.

Lemma next_decrypt s r x n y s' :
  cipher_sync s r -> bytes_ok x -> 16 <= n <= zlen x -> alg_whole n ->
  silc_cipher_encrypt (silc_cipher_set_iv (next_cipher s) None) (ztake n x) None =
    Some (y, None, s') ->
  exists iv1 r1 r',
    silc_cipher_decrypt (cipher_start r) (ztake 16 y) (Some (next_iv s)) =
      Some (ztake 16 x, Some iv1, r1) /\ cipher_sync s r1 /\
    silc_cipher_decrypt (silc_cipher_set_iv r1 (Some iv1)) (zdrop 16 y) None =
      Some (zdrop 16 (ztake n x), None, r') /\ cipher_sync s' r'.
Proof.
  intros (Hp & Hv & Hb) Hx Hn Hw E.
  destruct (cipher_send_receive (next_cipher s) r (ztake n x) (next_iv s))
    as (y' & s'' & iv1 & r1 & r' & He & Hl & Hy & H1' & H2' & Hs); try done.
  - by apply next_iv_block.
  - rewrite <- Hv. apply Hb.
  - by apply bytes_ok_cut.
  - rewrite zlen_ztake; lia.
  - by rewrite zlen_ztake by lia.
  - rewrite E in He. injection He as <- <-.
    exists iv1, r1, r'. split_and!; try done.
    + rewrite H1'. do 3 f_equal. unfold ztake. rewrite take_take. f_equal. lia.
    + clear - H1' Hp Hv Hb. unfold silc_cipher_decrypt in H1'.
      assert (c_context (cipher_start r) = alg_start (c_context r)) as Es.
      { unfold cipher_start, silc_cipher_get_mode, alg_start. by destruct (_ =? _). }
      rewrite Es in H1'.
      destruct (alg_decrypt _ _ _) as [[[? ?] ?]|] eqn:Ed; [|done]. injection H1' as _ _ <-.
      assert (c_iv (cipher_start r) = c_iv r) as Ei.
      { unfold cipher_start. by destruct (_ =? _). }
      split; [|split]; [by eapply alg_dec_peer|cbn [c_iv]; by rewrite Ei|done].
Qed.

(** The receiving side is ready for what the sender sends next. *)
Definition cipher_opt_sync (sc rc : option SilcCipher) : Prop :=
  match sc, rc with
  | None, None => True
  | Some s, Some r => cipher_sync s r
  | _, _ => False
  end.

Definition hmac_opt_sync (sh rh : option SilcHmac) : Prop :=
  match sh, rh with
  | None, None => True
  | Some s, Some r =>
      hmac_len s = hmac_len r /\ key_bytes s = key_bytes r /\
      0 <= hmac_len s <= alg_hash_len /\ zlen (key_bytes s) < 2 ^ 31
  | _, _ => False
  end.

Definition receive_sync (sc : option SilcCipher) (sh : option SilcHmac) (psn : Z)
    (r : ReceiveSide) : Prop :=
  cipher_opt_sync sc (receive_key0 r) /\ hmac_opt_sync sh (receive_hmac0 r) /\
  (is_Some sh -> is_Some sc /\ psn = receive_psn r).

(** The rest of the encrypted bytes decrypts, and leaves the ciphers ready. *)
Definition rest_decrypts (sc' : option SilcCipher) (fb : FirstBlock) (x enc : list Z) (n : Z)
  : Prop :=
  match fb_cipher fb with
  | None => enc = x /\ sc' = None
  | Some r1 =>
      exists r',
        silc_cipher_decrypt (silc_cipher_set_iv r1 (Some (fb_iv fb))) (zdrop 16 (ztake n enc))
          None = Some (zdrop 16 (ztake n x), None, r') /\
        zdrop n enc = zdrop n x /\ cipher_opt_sync sc' (Some r')
  end.

(** What decrypting the first block gives, when the data starts with the first
    16 bytes of a packet. *)
Definition first_block_of (sc sc' : option SilcCipher) (rh : option SilcHmac)
    (x enc : list Z) (n : Z) (fb : FirstBlock) : Prop :=
  fb_old fb = false /\ fb_hmac fb = rh /\ ztake 16 (fb_header fb) = ztake 16 x /\
  16 <= zlen (fb_header fb) /\ fb_block_len fb = 16 /\ fb_ivlen fb = 0 /\
  fb_psnlen fb = 0 /\ fb_seq fb = None /\ cipher_opt_sync sc (fb_cipher fb) /\
  rest_decrypts sc' fb x enc n.

Lemma receive_iv ps s r :
  ps_iv_included ps = false -> cipher_sync s r ->
  let iv0 := mem_read (silc_cipher_get_iv r) (silc_cipher_get_block_len r) in
  (if silc_cipher_get_mode r =? SILC_CIPHER_MODE_CTR
   then (silc_packet_receive_ctr_increment ps iv0 [], 0, 0) else (iv0, 0, 0)) =
  (next_iv s, 0, 0).
Proof.
  intros Hiv (_ & Hv & Hb). unfold silc_cipher_get_block_len, silc_cipher_get_iv.
  rewrite alg_block_len_16, mem_read_exact by (rewrite <- Hv; symmetry; apply Hb).
  unfold next_iv, silc_cipher_get_mode, silc_packet_receive_ctr_increment, silc_cipher_get_iv.
  rewrite Hiv, <- Hv. destruct (_ =? _); [|done]. by destruct (ctr_block_commute _ Hb) as [-> _].
Qed.

Lemma first_block_some ps sc sh psn x n enc sc' data :
  ps_iv_included ps = false -> receive_sync sc sh psn (ps_receive ps) ->
  bytes_ok x -> 16 <= n <= zlen x -> (is_Some sc -> alg_whole n) ->
  encrypted (option_map next_cipher sc) x n enc sc' ->
  ztake 16 data = ztake 16 enc -> 16 <= zlen data ->
  exists fb, read_first_block ps data = Some fb /\
    first_block_of sc sc' (receive_hmac0 (ps_receive ps)) x enc n fb.
Proof.
  intros Hiv (Hc & _ & _) Hx Hn Hw He Hd Hdl. unfold read_first_block, first_block_of.
  destruct (receive_key0 (ps_receive ps)) as [r|]; destruct sc as [s|]; try done.
  - assert (alg_whole n) as Hwn by (apply Hw; by eexists).
    cbn [option_map] in He. inversion He as [|c x' n' y s' E Hy]; subst.
    destruct (next_decrypt s r x _ y s' Hc Hx Hn Hwn E) as (iv1 & r1 & r' & D1 & S1 & D2 & S2).
    rewrite Hiv. pose proof (receive_iv ps s r Hiv Hc) as Ri. cbv zeta in Ri. rewrite Ri.
    cbn [andb]. change (if silc_cipher_get_mode r =? SILC_CIPHER_MODE_CTR
      then silc_cipher_set_iv r None else r) with (cipher_start r).
    rewrite zdrop_0. unfold silc_cipher_get_block_len. rewrite alg_block_len_16.
    rewrite mem_read_le, Hd, (ztake_app_le 16 y) by lia. rewrite D1.
    eexists. split; [done|]. cbn [fb_old fb_hmac fb_header fb_block_len fb_ivlen fb_psnlen
      fb_seq fb_cipher fb_iv]. split_and!; try done.
    + unfold ztake. rewrite take_take. f_equal.
    + rewrite zlen_ztake; lia.
    + unfold rest_decrypts. cbn [fb_cipher fb_iv]. exists r'.
      rewrite (ztake_app_exact _ y), zdrop_app_exact by done. done.
  - inversion He; subst. eexists. split; [done|].
    cbn [fb_old fb_hmac fb_header fb_block_len fb_ivlen fb_psnlen fb_seq fb_cipher fb_iv].
    split_and!; done.
Qed.

(** ** The header *)

(** The fields of the header, from the first 16 bytes. *)
Lemma first_header p h :
  plain_ok p -> 16 <= zlen (plain_bytes p) -> ztake 16 h = ztake 16 (plain_bytes p) ->
  SILC_PACKET_LENGTH h = (p_truelen p, p_truelen p + zlen (p_pad p)) /\
  byte_at h 2 = p_flags p /\ byte_at h 3 = p_type p /\
  silc_packet_special_len h = p_header_len p + zlen (p_pad p).
Proof.
  intros Hok Hl Hh. destruct Hok as (Hf & Ht & _ & _ & Hs & Hd & Hp & Hn & _).
  assert (exists l, h = packet_header (p_truelen p) (p_flags p) (p_type p) (zlen (p_pad p))
              (zlen (p_src p)) (zlen (p_dst p)) ++ l) as (l & ->).
  { rewrite <- (ztake_zdrop 16 h), Hh. unfold plain_bytes.
    set (hd := packet_header _ _ _ _ _ _).
    match goal with |- context [ztake 16 (hd ++ ?l)] =>
      exists (ztake 8 l ++ zdrop 16 h) end.
    rewrite app_assoc. f_equal. }
  assert (0 <= p_truelen p) by (unfold p_truelen, p_header_len; lia).
  destruct (header_fields (p_truelen p) (p_flags p) (p_type p) (zlen (p_pad p)) (zlen (p_src p))
    (zlen (p_dst p)) l) as (E1 & E2 & E3 & _ & E5); unfold is_byte in *; try lia.
  split_and!; try done. rewrite E5. unfold p_header_len. lia.
Qed.

(** ** Parsing *)

Lemma has_space_app h x k t n :
  buf_ok {| b_head := h; b_data := x ++ k; b_tail := t |} -> n = zlen x ->
  UNFORMAT_HAS_SPACE {| b_head := h; b_data := x ++ k; b_tail := t |} n = true.
Proof.
  intros Hok ->. unfold UNFORMAT_HAS_SPACE. rewrite buffer_len_ok by done.
  unfold buf_ok, b_size, SILC_MAX_ALLOC in *. cbn [b_head b_data b_tail] in *.
  rewrite length_app in *. rewrite u32_id by lia. lia.
Qed.

(** One step over bytes that are there. *)
Lemma unformat_pull_byte h a k t adv out :
  buf_ok {| b_head := h; b_data := a :: k; b_tail := t |} ->
  unformat_step {| us_src := {| b_head := h; b_data := a :: k; b_tail := t |};
                   us_advance := adv; us_out := out |} (U_UI8_CHAR true) =
  (true, {| us_src := {| b_head := h ++ [a]; b_data := k; b_tail := t |};
            us_advance := adv; us_out := out ++ [ONum a] |}).
Proof.
  intros Hok. cbn [unformat_step unformat_num us_src]. unfold unformat_num. cbn [us_src].
  change (a :: k) with ([a] ++ k) in *. rewrite has_space_app by done.
  by rewrite buffer_pull_app.
Qed.

Lemma unformat_pull_data h x k t adv out n :
  buf_ok {| b_head := h; b_data := x ++ k; b_tail := t |} -> n = zlen x ->
  unformat_step {| us_src := {| b_head := h; b_data := x ++ k; b_tail := t |};
                   us_advance := adv; us_out := out |} (U_DATA true n) =
  (true, {| us_src := {| b_head := h ++ x; b_data := k; b_tail := t |};
            us_advance := adv; us_out := out ++ [OPtr (if n =? 0 then None else Some x)] |}).
Proof.
  intros Hok Hn. cbn [unformat_step]. unfold unformat_xnstring. cbn [us_src].
  rewrite has_space_app by done. unfold us_step. cbn [us_advance us_out b_data].
  rewrite buffer_pull_app by done. rewrite mem_read_le by (rewrite length_app; lia).
  by rewrite ztake_app_exact.
Qed.

Lemma unformat_pull_offset h x k t adv out n :
  buf_ok {| b_head := h; b_data := x ++ k; b_tail := t |} -> n = zlen x -> n <> 1 ->
  unformat_step {| us_src := {| b_head := h; b_data := x ++ k; b_tail := t |};
                   us_advance := adv; us_out := out |} (U_OFFSET n) =
  (true, {| us_src := {| b_head := h ++ x; b_data := k; b_tail := t |};
            us_advance := adv; us_out := out |}).
Proof.
  intros Hok Hn H1'. cbn [unformat_step us_src]. destruct (Z.eqb_spec n 0) as [E|].
  - rewrite (zlen_0_nil x) by lia. by rewrite app_nil_r.
  - zcase; [|lia]. rewrite has_space_app by done. unfold us_step. cbn [us_advance us_out].
    rewrite buffer_pull_app by done. by rewrite app_nil_r.
Qed.

(** With SILC_STR_ADVANCE the buffer stays where the last parameter left it. *)
Lemma unformat_advance src ap st :
  unformat_loop {| us_src := src; us_advance := true; us_out := [] |} ap = (true, st) ->
  us_advance st = true ->
  silc_buffer_unformat src (U_ADVANCE :: ap) = (0, us_out st, us_src st).
Proof.
  intros E Ha. unfold silc_buffer_unformat. cbn [unformat_loop unformat_step us_src us_out].
  by rewrite E, Ha.
Qed.

Lemma buf_ok_move h x k t :
  buf_ok {| b_head := h; b_data := x ++ k; b_tail := t |} ->
  buf_ok {| b_head := h ++ x; b_data := k; b_tail := t |}.
Proof.
  unfold buf_ok, b_size. cbn [b_head b_data b_tail]. rewrite !length_app. lia.
Qed.

(** What the application gets of a packet. *)
Definition delivered (p : Plain) (pk : SilcPacket) : Prop :=
  b_data (pk_buffer pk) = p_data p /\ pk_flags pk = p_flags p /\ pk_type pk = p_type p /\
  ptr_bytes (pk_src_id pk) = p_src p /\ pk_src_id_len pk = zlen (p_src p) /\
  pk_src_id_type pk = p_src_type p /\
  ptr_bytes (pk_dst_id pk) = p_dst p /\ pk_dst_id_len pk = zlen (p_dst p) /\
  pk_dst_id_type pk = p_dst_type p.

Lemma ptr_bytes_if s n : n = zlen s -> ptr_bytes (if n =? 0 then None else Some s) = s.
Proof. intros ->. zcase; [by rewrite (zlen_0_nil s)|done]. Qed.

Lemma packet_parse_plain b0 p h t :
  plain_ok p -> zlen (p_pad p) <> 1 ->
  buf_ok {| b_head := h; b_data := plain_bytes p; b_tail := t |} ->
  exists pk, silc_packet_parse
      (packet_with_buffer (new_packet b0 (p_flags p) (p_type p))
         {| b_head := h; b_data := plain_bytes p; b_tail := t |}) = (true, pk) /\
    delivered p pk.
Proof.
  intros Hok Hpad Hb. destruct Hok as (Hf & Ht & Hst & Hdt & Hs & Hd & Hp & Hn & _).
  unfold silc_packet_parse. cbn [packet_with_buffer pk_buffer b_data].
  assert (u8 (byte_at (plain_bytes p) 4) = zlen (p_pad p)) as ->.
  { apply header_fields; unfold is_byte, p_truelen, p_header_len in *; lia. }
  set (h6 := SILC_PUT16_MSB (p_truelen p) ++ [p_flags p; p_type p; zlen (p_pad p); 0]).
  assert (plain_bytes p = h6 ++ zlen (p_src p) :: zlen (p_dst p) :: p_src_type p ::
    p_src p ++ p_dst_type p :: p_dst p ++ p_pad p ++ p_data p) as E by done.
  rewrite E in Hb |- *. clear E.
  assert (zlen h6 = 6) as Hh6 by done. clearbody h6.
  erewrite (unformat_advance _ [_; _; _; _]).
  2: { cbn [unformat_loop].
       rewrite unformat_pull_offset by (done || lia). apply buf_ok_move in Hb.
       rewrite unformat_pull_byte by done.
       rewrite unformat_pull_byte by (apply (buf_ok_move _ [_]) in Hb; done).
       rewrite unformat_pull_byte by (do 2 apply (buf_ok_move _ [_]) in Hb; done).
       reflexivity. }
  2: done.
  cbn [us_out us_src app out_num nth_error]. change (0 =? -1) with false. cbv iota.
  unfold SILC_PACKET_MAX_ID_LEN. zcase; [lia|]. zcase; [lia|]. cbn [orb].
  apply buf_ok_move in Hb. do 3 apply (buf_ok_move _ [_]) in Hb.
  erewrite (unformat_advance _ [_; _; _; _]).
  2: { cbn [unformat_loop].
       rewrite unformat_pull_data by done. apply buf_ok_move in Hb.
       rewrite unformat_pull_byte by done. apply (buf_ok_move _ [_]) in Hb.
       rewrite unformat_pull_data by done. apply buf_ok_move in Hb.
       rewrite unformat_pull_offset by done. reflexivity. }
  2: done.
  cbn [us_out us_src app out_num out_ptr nth_error]. change (0 =? -1) with false. cbv iota.
  unfold SILC_ID_CHANNEL. zcase; [lia|]. zcase; [lia|]. cbn [orb].
  eexists. split; [reflexivity|]. unfold delivered.
  cbn [pk_buffer pk_flags pk_type pk_src_id pk_src_id_len pk_src_id_type pk_dst_id
    pk_dst_id_len pk_dst_id_type b_data new_packet packet_with_buffer].
  rewrite !ptr_bytes_if by done. done.
Qed.

(** ** Filling and decrypting the packet's buffer *)

(** A free packet's buffer. *)
Definition pool_ok (b : SilcBuffer) : Prop :=
  b_head b = [] /\ b_data b = [] /\ zlen (b_tail b) <= 70000.

Lemma packet_fill_some b fb data n :
  pool_ok b -> fb_block_len fb = 16 -> fb_ivlen fb = 0 -> fb_psnlen fb = 0 ->
  16 <= zlen (fb_header fb) -> 16 <= n <= 70000 -> n <= zlen data ->
  exists t, packet_fill b fb data n =
      Some {| b_head := ztake 16 (fb_header fb); b_data := zdrop 16 (ztake n data);
              b_tail := t |} /\
    16 + (n - 16) + zlen t <= 70000.
Proof.
  intros (Hh & Hd & Ht) Hbl Hil Hpl Hfl Hn Hnd. unfold packet_fill. rewrite Hbl, Hil, Hpl.
  assert (exists x, (if silc_buffer_truelen b <? n
      then silc_buffer_realloc (Some b)
             (u32 (silc_buffer_truelen b + (n - silc_buffer_truelen b))) else Some b) =
    Some {| b_head := []; b_data := []; b_tail := x |} /\ n <= zlen x <= 70000) as (x & -> & Hx).
  { destruct b as [bh bd bt]. cbn [b_head b_data b_tail] in *. subst.
    assert (buf_ok {| b_head := []; b_data := []; b_tail := bt |}) as Hok
      by (unfold buf_ok, b_size, SILC_MAX_ALLOC; cbn [b_head b_data b_tail length]; lia).
    rewrite buffer_truelen_ok by done. unfold b_size. cbn [b_head b_data b_tail length].
    change (Z.of_nat 0) with 0. rewrite !Z.add_0_l. destruct (Z.ltb_spec (zlen bt) n).
    - rewrite u32_id by lia. unfold silc_buffer_realloc. rewrite buffer_truelen_ok by done.
      unfold b_size. cbn [b_head b_data b_tail length]. change (Z.of_nat 0) with 0.
      rewrite !Z.add_0_l. zcase; [lia|]. rewrite silc_malloc_ok_true by (unfold SILC_MAX_ALLOC; lia).
      eexists. split; [done|]. unfold zrepeat. rewrite length_app, length_replicate. lia.
    - exists bt. split; [done|lia]. }
  unfold silc_buffer_pull_tail, silc_buffer_taillen. cbn [b_head b_data b_tail].
  rewrite u32_id by lia. zcase; [lia|]. cbn [app].
  change (16 - 0) with 16. rewrite Z.add_0_l, !Z.sub_0_r.
  unfold silc_buffer_put at 2. unfold silc_buffer_len. cbn [b_head b_data b_tail].
  rewrite zlen_ztake by lia. rewrite u32_id by lia. zcase; [lia|].
  rewrite mem_read_le by lia.
  assert (zlen (ztake 16 (fb_header fb)) = 16) as H16 by (apply zlen_ztake; lia).
  assert (zlen (zdrop 16 (ztake n x)) = n - 16) as Hr
    by (rewrite zlen_zdrop; rewrite zlen_ztake; lia).
  rewrite buffer_pull_app; [|unfold buf_ok, b_size, SILC_MAX_ALLOC; cbn [b_head b_data b_tail];
    rewrite length_app, zlen_zdrop by lia; simpl; lia|done].
  unfold silc_buffer_put, silc_buffer_len. cbn [b_head b_data b_tail app].
  rewrite Hr, !u32_id by lia. zcase; [lia|].
  rewrite (zdrop_all (n - 16)) by lia. rewrite app_nil_r.
  rewrite mem_read_le by (rewrite zlen_zdrop; lia).
  exists (zdrop n x). split.
  - do 2 f_equal. unfold ztake, zdrop. rewrite skipn_firstn_comm. f_equal. lia.
  - rewrite zlen_zdrop by lia. lia.
Qed.
End spec.
