(* ===== verification/PacketDeliver.v ===== *)
(** The receiving half of the packet engine against the sending half: a round
    of silc_packet_read_process on a packet that was sent, and the whole input
    path on any fragmentation of a sequence of packets. *)

From S2P Require Import Prelude CTypes Buffer BufFmt BufFmtSpec Id Cipher Hash Hmac Packet PacketReceive PacketSpec.

Section deliver.
Context `{CipherLaws} `{HashLaws}.

(** ** Decrypting the rest *)

Lemma buffer_decrypt_rest sc' fb x enc n h t r1 :
  fb_cipher fb = Some r1 -> rest_decrypts sc' fb x enc n ->
  16 <= n <= zlen x -> zlen enc = zlen x ->
  exists r',
    buffer_decrypt (silc_cipher_set_iv r1 (Some (fb_iv fb)))
      {| b_head := h; b_data := zdrop 16 enc; b_tail := t |} (n - 16) =
      Some ({| b_head := h; b_data := zdrop 16 x; b_tail := t |}, r') /\
    cipher_opt_sync sc' (Some r').
Proof.
  unfold rest_decrypts. intros -> (r' & Hd & Ht & Hs) Hn He. exists r'. split; [|done].
  unfold buffer_decrypt. cbn [b_head b_data b_tail].
  rewrite mem_read_le by (rewrite zlen_zdrop by lia; lia).
  assert (ztake (n - 16) (zdrop 16 enc) = zdrop 16 (ztake n enc)) as ->.
  { unfold ztake, zdrop. rewrite skipn_firstn_comm. f_equal. lia. }
  rewrite Hd, zdrop_zdrop by lia. replace (16 + (n - 16)) with n by lia.
  rewrite Ht. do 3 f_equal. rewrite <- (ztake_zdrop n x) at 3.
  rewrite zdrop_app_le; [done|]. rewrite zlen_ztake; lia.
Qed.

Definition special_n (normal : bool) (p : Plain) : Z :=
  (if normal then p_truelen p else p_header_len p) + zlen (p_pad p).

Lemma special_n_range normal p :
  plain_ok p -> special_n normal p <= zlen (plain_bytes p) < 66000.
Proof.
  intros (_ & _ & _ & _ & _ & _ & Hp & Hn & _). rewrite plain_len.
  unfold special_n, p_truelen, p_header_len in *. destruct normal; lia.
Qed.

Lemma packet_decrypt_rest sc' fb p enc normal t :
  let x := plain_bytes p in
  plain_ok p -> 16 <= special_n normal p -> zlen enc = zlen x -> zlen t <= 70000 ->
  rest_decrypts sc' fb x enc (special_n normal p) -> ztake 16 (fb_header fb) = ztake 16 x ->
  exists k rc,
    silc_packet_decrypt (option_map (fun c => silc_cipher_set_iv c (Some (fb_iv fb)))
        (fb_cipher fb))
      {| b_head := ztake 16 (fb_header fb); b_data := zdrop 16 enc; b_tail := t |} normal =
      Some (k, {| b_head := ztake 16 x; b_data := zdrop 16 x; b_tail := t |}, rc) /\
    cipher_opt_sync sc' rc.
Proof.
  intros x Hok Hn He Ht Hr Hh. pose proof (special_n_range normal p Hok) as Hm. fold x in Hm.
  assert (zlen (zdrop 16 enc) = zlen x - 16) as Hl by (rewrite zlen_zdrop; lia).
  assert (zlen (ztake 16 x) = 16) as H16 by (apply zlen_ztake; lia).
  rewrite Hh. destruct (fb_cipher fb) as [r1|] eqn:Ec.
  - destruct (buffer_decrypt_rest sc' fb x enc (special_n normal p) (ztake 16 x) t r1 Ec Hr)
      as (r' & Hb & Hs); [lia|done|].
    exists (if normal then 0 else 1), (Some r'). split; [|done]. cbn [option_map].
    unfold silc_packet_decrypt. destruct normal.
    + unfold silc_buffer_len. cbn [b_data]. rewrite Hl, u32_id by lia.
      replace (zlen x - 16) with (special_n true p - 16)
        by (unfold special_n, x; rewrite plain_len; lia).
      by rewrite Hb.
    + unfold silc_cipher_get_block_len. rewrite alg_block_len_16.
      pose proof (buffer_push_app [] (ztake 16 x) (zdrop 16 enc) t 16) as Ep.
      cbn [app] in Ep. rewrite Ep by lia. cbn [b_data].
      rewrite buffer_pull_app; [|unfold buf_ok, b_size, SILC_MAX_ALLOC;
        cbn [b_head b_data b_tail length]; rewrite length_app; lia|lia].
      cbn [app].
      destruct (first_header p (ztake 16 x ++ zdrop 16 enc) Hok) as (_ & _ & _ & ->);
        [fold x; lia|by rewrite ztake_app_exact|].
      change (p_header_len p + zlen (p_pad p)) with (special_n false p).
      assert (special_n false p <= 194).
      { destruct Hok as (_ & _ & _ & _ & ? & ? & ? & _).
        unfold special_n, p_header_len. lia. }
      rewrite u16_id by lia. unfold silc_buffer_len. cbn [b_data]. rewrite Hl, u32_id by lia.
      zcase; [lia|]. by rewrite Hb.
  - unfold rest_decrypts in Hr. rewrite Ec in Hr. destruct Hr as [-> ->].
    exists (if normal then 0 else 1), None. done.
Qed.

(** ** The MAC *)

(** The check compares with the MAC of RFC 2104. *)
Lemma check_mac_spec h data packet_mac psn :
  0 <= hmac_len h <= alg_hash_len -> zlen (key_bytes h) < 2 ^ 31 -> zlen data < 2 ^ 31 ->
  exists h',
    silc_packet_check_mac (Some h) data packet_mac None psn =
      (bool_decide (mem_read packet_mac (hmac_len h) =
         hmac_fn (hmac_len h) (key_bytes h) (SILC_PUT32_MSB psn ++ data)), Some h') /\
    hmac_len h' = hmac_len h /\ hmac_key h' = hmac_key h.
Proof.
  intros Hl Hk Hd.
  destruct (hmac_pieces h [SILC_PUT32_MSB psn; data] Hl Hk) as (h' & E & Hl' & Hk');
    [by repeat constructor|].
  exists h'. cbn [foldl concat] in E. rewrite app_nil_r in E.
  unfold silc_packet_check_mac. rewrite E. by rewrite hmac_fn_len.
Qed.

Lemma check_mac_ok sh rh psn rpsn x mac sh' rest :
  hmac_opt_sync sh rh -> macced sh psn x mac sh' -> (is_Some sh -> psn = rpsn) ->
  zlen x < 2 ^ 31 ->
  exists rh', silc_packet_check_mac rh x (mac ++ rest) None rpsn = (true, rh') /\
    hmac_opt_sync sh' rh'.
Proof.
  intros Hs Hm Hp Hx. destruct Hm as [psn x|h psn x h' _ El Ek Ez]; destruct rh as [r|]; try done.
  - by exists None.
  - destruct Hs as (Hl & Hk & Hr & Hkl).
    rewrite (Hp ltac:(by eexists)).
    destruct (check_mac_spec r x (hmac_fn (hmac_len h) (key_bytes h) (SILC_PUT32_MSB rpsn ++ x)
      ++ rest) rpsn) as (r' & E & El' & Ek'); [lia|by rewrite <- Hk|done|].
    exists (Some r'). rewrite E. split.
    + f_equal. apply bool_decide_eq_true_2.
      pose proof (hmac_fn_len (hmac_len h) (key_bytes h) (SILC_PUT32_MSB rpsn ++ x) Hr).
      rewrite mem_read_le by (rewrite length_app; lia).
      rewrite ztake_app_exact by lia. by rewrite Hl, Hk.
    + unfold hmac_opt_sync, key_bytes in *. rewrite El, El', Ek, Ek'. done.
Qed.

(** ** The wire *)

(** Routers linked with each other encrypt channel messages as a whole. *)
Definition router_link (ps : SilcPacketStream) : bool :=
  e_local_is_router (ps_engine ps) && ps_is_router ps.

Definition link_normal (link : bool) (p : Plain) : bool :=
  negb (((p_type p =? SILC_PACKET_PRIVATE_MESSAGE) &&
         negb (Z.land (p_flags p) SILC_PACKET_FLAG_PRIVMSG_KEY =? 0)) ||
        ((p_type p =? SILC_PACKET_CHANNEL_MESSAGE) && negb link)).

Lemma read_normal_link ps p :
  read_normal ps (p_type p) (p_flags p) = link_normal (router_link ps) p.
Proof.
  unfold read_normal, link_normal, router_link, SILC_PACKET_PRIVATE_MESSAGE,
    SILC_PACKET_CHANNEL_MESSAGE.
  destruct (Z.eqb_spec (p_type p) 9) as [->|]; [|destruct (Z.eqb_spec (p_type p) 7)];
    destruct (Z.land _ _ =? 0), (e_local_is_router (ps_engine ps)), (ps_is_router ps); done.
Qed.

(** A packet the receiver can take: its encrypted part is a block or more and
    made of whole blocks unless the mode is CTR, and it is not too short. *)
Definition packet_ok (normal : bool) (sc : option SilcCipher) (p : Plain) : Prop :=
  plain_ok p /\ zlen (p_pad p) <> 1 /\ SILC_PACKET_MIN_LEN <= p_truelen p /\
  16 <= special_n normal p /\ (opt_ctr sc = false -> special_n normal p mod 16 = 0).

(** The bytes of a packet on the stream, with the ciphers and the HMACs of the
    sender before and after it. *)
Inductive wire (link : bool) (sc : option SilcCipher) (sh : option SilcHmac) (psn : Z)
    (p : Plain) : list Z -> option SilcCipher -> option SilcHmac -> Prop :=
| wire_packet enc mac sc' sh' :
    packet_ok (link_normal link p) sc p ->
    encrypted (option_map next_cipher sc) (plain_bytes p)
      (special_n (link_normal link p) p) enc sc' ->
    macced sh psn enc mac sh' ->
    wire link sc sh psn p (enc ++ mac) sc' sh'.

Lemma packet_ok_whole normal sc p : packet_ok normal sc p -> is_Some sc ->
  alg_whole (special_n normal p).
Proof.
  intros (_ & _ & _ & _ & Hm) [c ->]. cbn [opt_ctr] in Hm. unfold silc_cipher_get_mode in Hm.
  unfold alg_whole. destruct (Z.eqb_spec alg_mode SILC_CIPHER_MODE_CTR); [by left|].
  right. by apply Hm.
Qed.

(** ** One round *)

Definition recv_ok (ps : SilcPacketStream) : Prop :=
  ps_iv_included ps = false /\ ps_destroyed ps = false /\
  Forall pool_ok (e_packet_pool (ps_engine ps)).

(** What a round leaves as it was. *)
Definition kept (ps ps' : SilcPacketStream) : Prop :=
  router_link ps' = router_link ps /\ inbuf (ps_receive ps') = inbuf (ps_receive ps) /\
  e_inbufs (ps_engine ps') = e_inbufs (ps_engine ps) /\ recv_ok ps'.

(** The first block is decrypted, and the header is what was sent. *)
Lemma round_start ps sc sh psn p enc sc' data :
  let normal := link_normal (router_link ps) p in
  recv_ok ps -> receive_sync sc sh psn (ps_receive ps) -> packet_ok normal sc p ->
  encrypted (option_map next_cipher sc) (plain_bytes p) (special_n normal p) enc sc' ->
  ztake 16 data = ztake 16 enc -> 16 <= zlen data ->
  exists fb,
    read_first_block ps data = Some fb /\
    first_block_of sc sc' (receive_hmac0 (ps_receive ps)) (plain_bytes p) enc
      (special_n normal p) fb /\
    SILC_PACKET_LENGTH (fb_header fb) = (p_truelen p, zlen (plain_bytes p)) /\
    byte_at (fb_header fb) 2 = p_flags p /\ byte_at (fb_header fb) 3 = p_type p /\
    bad_padding (fb_cipher fb) normal (zlen (plain_bytes p)) 16 (fb_header fb) = false.
Proof.
  intros normal (Hiv & _) Hs Hp He Hd Hdl.
  pose proof (packet_ok_whole _ _ _ Hp) as Hw.
  destruct Hp as (Hok & _ & _ & Hn & Hm). pose proof (special_n_range normal p Hok) as Hr.
  destruct (first_block_some ps sc sh psn _ (special_n normal p) enc sc' data Hiv Hs (plain_bytes_ok _ Hok)
    ltac:(lia) Hw He Hd Hdl) as (fb & Ef & Hfb).
  exists fb. split; [done|]. split; [done|].
  destruct Hfb as (_ & _ & Hh & _ & _ & _ & _ & _ & Hc & _).
  destruct (first_header p (fb_header fb) Hok ltac:(lia) Hh) as (E1 & E2 & E3 & E4).
  rewrite plain_len. split_and!; try done.
  unfold bad_padding. destruct (fb_cipher fb) as [c|]; [|done]. destruct sc as [s|]; [|done].
  cbn [opt_ctr] in Hm. unfold silc_cipher_get_mode in *.
  destruct (alg_mode =? SILC_CIPHER_MODE_CTR); [done|]. specialize (Hm eq_refl).
  change (negb (16 =? 0)) with true. cbn [negb andb]. rewrite E4.
  unfold special_n in Hm. destruct normal; rewrite Hm; done.
Qed.

Lemma sync_mac_len sc sh psn ps x mac sh' :
  receive_sync sc sh psn (ps_receive ps) -> macced sh psn x mac sh' ->
  match receive_hmac0 (ps_receive ps) with Some h => silc_hmac_len h | None => 0 end = zlen mac.
Proof.
  intros (_ & Hs & _) Hm. rewrite (macced_len _ _ _ _ _ Hm). unfold silc_hmac_len.
  destruct sh, (receive_hmac0 _); try done. symmetry. apply Hs.
Qed.

(** A part of a packet: it waits, having decrypted the first block at most. *)
Lemma round_wait packet_receive ps buf sc sh psn p w sc' sh' rest :
  recv_ok ps -> receive_sync sc sh psn (ps_receive ps) ->
  wire (router_link ps) sc sh psn p w sc' sh' -> w = b_data buf ++ rest -> rest <> [] ->
  buf_ok buf ->
  exists ps', read_round packet_receive ps buf = (ps', buf, [], RoundWait) /\
    kept ps ps' /\ receive_sync sc sh psn (ps_receive ps').
Proof.
  intros Hr Hs Hw Ew Hrest Hb. destruct Hw as [enc mac sc' sh' Hp He Hm].
  pose proof (sync_mac_len _ _ _ _ _ _ _ Hs Hm) as Hml.
  unfold read_round. rewrite (proj1 Hr), buffer_len_ok by done.
  unfold SILC_PACKET_MIN_HEADER_LEN. destruct (Z.ltb_spec (zlen (b_data buf)) 16).
  { by exists ps. }
  pose proof Hp as (Hok & _ & _ & Hn & _).
  pose proof (special_n_range (link_normal (router_link ps) p) p Hok) as Hsr.
  pose proof (encrypted_len _ _ _ _ _ He ltac:(lia)) as Hel.
  assert (ztake 16 (b_data buf) = ztake 16 enc) as E16.
  { apply (f_equal (ztake 16)) in Ew. rewrite !ztake_app_le in Ew by lia. done. }
  destruct (round_start ps sc sh psn p enc sc' (b_data buf) Hr Hs Hp He E16 ltac:(lia))
    as (fb & -> & Hfb & -> & -> & -> & Hbad).
  destruct Hfb as (Ho & Hh & _ & _ & Hbl & Hil & _ & _ & Hc & _).
  rewrite Ho, Hbl, Hil. cbv iota.
  set (ps1 := set_receive_keys ps false (fb_cipher fb) _ _).
  rewrite read_normal_link. change (router_link ps1) with (router_link ps). rewrite Hbad.
  apply (f_equal (fun l => zlen l)) in Ew. rewrite !length_app in Ew.
  assert (0 < zlen rest) by (destruct rest; simpl; done || lia).
  rewrite Hml. zcase; [|lia]. exists ps1. split; [done|]. split; [done|].
  destruct Hs as (_ & Hsh & Hpsn). done.
Qed.

(** ** A whole packet *)

Definition takes_all
    (packet_receive : Z -> SilcPacketStream -> SilcPacket -> bool * SilcPacketStream) : Prop :=
  forall cb ps pk, packet_receive cb ps pk = (true, ps).

(** A packet the first processor asked takes is dispatched once. *)
Lemma dispatch_loop_takes packet_receive l ps pk events :
  takes_all packet_receive ->
  exists cb, dispatch_loop packet_receive l ps pk None false events =
    (ps, events ++ [EvReceive cb pk], true).
Proof.
  intros Ht. induction l as [|q l IH]; cbn [dispatch_loop].
  - rewrite Ht. by exists 0.
  - destruct (negb false && (pp_priority q <=? 0)).
    + rewrite Ht. by exists 0.
    + destruct (process_wants q pk None); [|done]. rewrite Ht. by exists (pp_callbacks q).
Qed.

Lemma dispatch_takes packet_receive ps pk :
  takes_all packet_receive -> ps_destroyed ps = false ->
  exists cb, silc_packet_dispatch packet_receive ps pk None = (true, ps, [EvReceive cb pk]).
Proof.
  intros Ht Hd. unfold silc_packet_dispatch.
  destruct (ps_process ps) as [l|];
    [destruct (dispatch_loop_takes packet_receive l ps pk [] Ht) as (cb & ->)
    |destruct (dispatch_loop_takes packet_receive [] ps pk [] Ht) as (cb & ->)];
    exists cb; by rewrite Hd.
Qed.

Lemma alloc_ok ps :
  recv_ok ps -> exists b pool, silc_packet_alloc ps = (b, set_pool ps pool) /\ pool_ok b /\
    Forall pool_ok pool.
Proof.
  intros (_ & _ & Hp). unfold silc_packet_alloc.
  destruct (e_packet_pool (ps_engine ps)) as [|b pool] eqn:E.
  - eexists _, []. split; [|split; [|done]].
    + f_equal. unfold set_pool, set_engine. rewrite <- E. destruct ps as [e ? ? ? ? ? ? ? ?].
      by destruct e.
    + split_and!; done.
  - apply Forall_cons_iff in Hp as [Hb Hp]. by exists b, pool.
Qed.

Definition event_of (p : Plain) (ev : Event) : Prop :=
  exists cb pk, ev = EvReceive cb pk /\ delivered p pk.

(** From the check of the MAC on. *)
Lemma read_packet_ok packet_receive ps buf sc sh psn p enc mac sc' sh' rest fb :
  takes_all packet_receive ->
  let normal := link_normal (router_link ps) p in
  recv_ok ps -> receive_sync sc sh psn (ps_receive ps) -> packet_ok normal sc p ->
  zlen enc = zlen (plain_bytes p) -> macced sh psn enc mac sh' ->
  first_block_of sc sc' (receive_hmac0 (ps_receive ps)) (plain_bytes p) enc
    (special_n normal p) fb ->
  byte_at (fb_header fb) 2 = p_flags p -> byte_at (fb_header fb) 3 = p_type p ->
  b_data buf = enc ++ mac ++ rest -> buf_ok buf ->
  exists ps' buf' ev,
    read_packet packet_receive ps buf fb normal (p_truelen p) (zlen (plain_bytes p)) (zlen mac) =
      (ps', buf', [ev], RoundNext) /\
    event_of p ev /\ kept ps ps' /\ receive_sync sc' sh' (next_psn sh psn) (ps_receive ps') /\
    b_data buf' = rest /\ b_size buf' = b_size buf.
Proof.
  intros Ht normal Hr Hs Hp Hel Hm Hfb Hf2 Hf3 Hd Hb.
  destruct Hp as (Hok & Hpad & Hmin & Hn & _). pose proof (special_n_range normal p Hok) as Hsr.
  set (x := plain_bytes p) in *. destruct Hs as (Hcs & Hhs & Hpsn).
  destruct Hfb as (Ho & Hh & Hhd & Hhl & Hbl & Hil & Hpl & Hseq & Hc & Hrd).
  assert (is_Some sh -> psn = receive_psn (ps_receive ps)) as Hpsn' by (intros; by apply Hpsn).
  destruct (check_mac_ok sh _ psn (receive_psn (ps_receive ps)) enc mac sh' rest Hhs Hm Hpsn'
    ltac:(lia)) as (rh' & Ecm & Hhs').
  unfold read_packet. rewrite Hh, Hil, Hseq, Ho, !Z.add_0_r, Z.add_0_l, Hd.
  rewrite mem_read_le by (rewrite !length_app; lia).
  rewrite ztake_app_exact, zdrop_app_exact by done. rewrite Ecm. cbn [negb].
  destruct (Z.ltb_spec (p_truelen p) SILC_PACKET_MIN_LEN) as [?|_]; [lia|].
  set (ps1 := set_receive_keys ps false _ _ _).
  assert (recv_ok ps1) as Hr1 by done.
  destruct (alloc_ok ps1 Hr1) as (b & pool & -> & Hpb & Hpool). rewrite Hf2, Hf3.
  destruct (packet_fill_some b fb (enc ++ mac ++ rest) (zlen x) Hpb Hbl Hil Hpl Hhl)
    as (t & -> & Htl); [lia|rewrite !length_app; lia|].
  assert (zdrop 16 (ztake (zlen x) (enc ++ mac ++ rest)) = zdrop 16 enc) as ->
    by (by rewrite ztake_app_exact).
  destruct (packet_decrypt_rest sc' fb p enc normal t Hok Hn Hel ltac:(lia) Hrd Hhd)
    as (k & rc & -> & Hcs'). fold x.
  rewrite Hbl. pose proof (buffer_push_app [] (ztake 16 x) (zdrop 16 x) t 16) as Ep.
  cbn [app] in Ep. rewrite Ep by (rewrite zlen_ztake; lia). rewrite ztake_zdrop.
  destruct (packet_parse_plain b p [] t Hok Hpad) as (pk & Epk & Hdel).
  { unfold buf_ok, b_size, SILC_MAX_ALLOC. cbn [b_head b_data b_tail length]. fold x. lia. }
  fold x in Epk. rewrite Epk. cbn [negb].
  set (psn' := match rc with Some _ => _ | None => _ end).
  set (ps2 := set_receive_keys _ false rc rh' psn').
  assert (recv_ok ps2) as Hr2 by (split_and!; [apply Hr|apply Hr|exact Hpool]).
  destruct (dispatch_takes packet_receive ps2 pk Ht (proj1 (proj2 Hr2))) as (cb & ->).
  destruct buf as [bh bd bt]. cbn [b_data] in Hd. subst bd. rewrite app_assoc in *.
  rewrite buffer_pull_app by (done || rewrite length_app; lia).
  do 3 eexists. split; [reflexivity|]. split; [by exists cb, pk|]. split; [done|].
  split; [|split; [done|unfold b_size; cbn [b_head b_data b_tail]; rewrite !length_app; lia]].
  split; [exact Hcs'|]. split; [exact Hhs'|].
  cbn [ps2 ps_receive set_receive_keys set_receive receive_psn].
  intros Hsome. assert (is_Some sh) as Hsh.
  { destruct Hm; [by inversion Hsome|by eexists]. }
  destruct (Hpsn Hsh) as [Hsc Hpe]. unfold psn', next_psn.
  destruct sh; [|by inversion Hsh]. destruct Hsc as [sc0 ->].
  unfold rest_decrypts in Hrd. destruct (fb_cipher fb); [|done].
  destruct Hrd as (r' & _ & _ & Hrs). destruct sc'; [|done]. destruct rc; [|done].
  split; [by eexists|]. by rewrite Hpe.
Qed.

Lemma round_packet packet_receive ps buf sc sh psn p w sc' sh' rest :
  takes_all packet_receive -> recv_ok ps -> receive_sync sc sh psn (ps_receive ps) ->
  wire (router_link ps) sc sh psn p w sc' sh' -> b_data buf = w ++ rest -> buf_ok buf ->
  exists ps' buf' ev,
    read_round packet_receive ps buf = (ps', buf', [ev], RoundNext) /\
    event_of p ev /\ kept ps ps' /\ receive_sync sc' sh' (next_psn sh psn) (ps_receive ps') /\
    b_data buf' = rest /\ b_size buf' = b_size buf.
Proof.
  intros Ht Hr Hs Hw Hd Hb. destruct Hw as [enc mac sc' sh' Hp He Hm].
  pose proof (sync_mac_len _ _ _ _ _ _ _ Hs Hm) as Hml. rewrite <- app_assoc in Hd.
  pose proof Hp as (Hok & _ & _ & Hn & _).
  pose proof (special_n_range (link_normal (router_link ps) p) p Hok) as Hsr.
  pose proof (encrypted_len _ _ _ _ _ He ltac:(lia)) as Hel.
  assert (zlen (b_data buf) = zlen enc + zlen mac + zlen rest) as Hl
    by (rewrite Hd, !length_app; lia).
  assert (ztake 16 (b_data buf) = ztake 16 enc) as E16
    by (rewrite Hd; apply ztake_app_le; lia).
  unfold read_round. rewrite (proj1 Hr), buffer_len_ok by done.
  unfold SILC_PACKET_MIN_HEADER_LEN. destruct (Z.ltb_spec (zlen (b_data buf)) 16); [lia|].
  destruct (round_start ps sc sh psn p enc sc' (b_data buf) Hr Hs Hp He E16 ltac:(lia))
    as (fb & -> & Hfb & -> & Ef & Et & Hbad).
  pose proof Hfb as (Ho & Hh & _ & _ & Hbl & Hil & _ & _ & Hc & _).
  rewrite Ho, Ef, Et, Hbl, Hil, Hml. cbv iota.
  set (ps1 := set_receive_keys ps false (fb_cipher fb) _ _).
  rewrite read_normal_link. change (router_link ps1) with (router_link ps). rewrite Hbad.
  zcase; [lia|].
  assert (receive_sync sc sh psn (ps_receive ps1)) as Hs1
    by (split; [exact Hc|split; apply Hs]).
  destruct (read_packet_ok packet_receive ps1 buf sc sh psn p enc mac sc' sh' rest fb Ht Hr Hs1
    Hp Hel Hm Hfb Ef Et Hd Hb) as (ps' & buf' & ev & E & Hev & Hk & Hrest).
  exists ps', buf', ev. split; [exact E|]. done.
Qed.

(** ** The loop *)

(** The bytes of a sequence of packets on the stream. *)
Inductive wires (link : bool) : option SilcCipher -> option SilcHmac -> Z -> list Plain ->
    list Z -> option SilcCipher -> option SilcHmac -> Z -> Prop :=
| wires_nil sc sh psn : wires link sc sh psn [] [] sc sh psn
| wires_cons sc sh psn p w sc1 sh1 l ws sc2 sh2 psn2 :
    wire link sc sh psn p w sc1 sh1 ->
    wires link sc1 sh1 (next_psn sh psn) l ws sc2 sh2 psn2 ->
    wires link sc sh psn (p :: l) (w ++ ws) sc2 sh2 psn2.

(** The sender, when it has sent them all. *)
Variables (sc_end : option SilcCipher) (sh_end : option SilcHmac) (psn_end : Z).

(** The unread part of a sequence of packets. *)
Definition pending (link : bool) (ps : SilcPacketStream) (l : list Plain) (ws : list Z) : Prop :=
  exists sc sh psn, wires link sc sh psn l ws sc_end sh_end psn_end /\
    receive_sync sc sh psn (ps_receive ps).

Lemma wire_not_nil link sc sh psn p w sc' sh' : wire link sc sh psn p w sc' sh' -> 16 <= zlen w.
Proof.
  intros [enc mac sc1 sh1 (Hok & _ & _ & Hn & _) He Hm].
  pose proof (special_n_range (link_normal link p) p Hok).
  pose proof (encrypted_len _ _ _ _ _ He ltac:(lia)). rewrite length_app. lia.
Qed.

(** One of two lists with a common extension is a prefix of the other. *)
Lemma app_cases {A} (a b c d : list A) :
  a ++ b = c ++ d -> (exists e, c = a ++ e /\ e <> [] /\ b = e ++ d) \/
                     (exists e, a = c ++ e /\ d = e ++ b).
Proof.
  intros E. destruct (app_eq_inv _ _ _ _ E) as [(k & -> & ->)|(k & -> & ->)].
  - right. by exists k.
  - destruct k as [|x k]; [right; exists []; by rewrite !app_nil_r|].
    left. by exists (x :: k).
Qed.

(** What the loop leaves as it was, but for the input buffer. *)
Definition loop_kept (ps ps' : SilcPacketStream) : Prop :=
  router_link ps' = router_link ps /\ recv_ok ps'.

(** How the loop leaves the buffer: with the part of a packet, kept as the
    stream's own, or empty, given back. *)
Definition left_buf (ps0 ps : SilcPacketStream) (rest : list Z) (size : Z) : Prop :=
  exists buf, b_data buf = rest /\ b_size buf = size /\
    (if decide (rest = [])
     then inbuf (ps_receive ps) = None /\ b_head buf = [] /\
       e_inbufs (ps_engine ps) =
         match inbuf (ps_receive ps0) with
         | Some _ => e_inbufs (ps_engine ps0) ++ [buf]
         | None => buf :: tl (e_inbufs (ps_engine ps0))
         end
     else inbuf (ps_receive ps) = Some buf /\
       e_inbufs (ps_engine ps) =
         match inbuf (ps_receive ps0) with
         | Some _ => e_inbufs (ps_engine ps0)
         | None => tl (e_inbufs (ps_engine ps0))
         end).

Lemma reset_size b : b_size (silc_buffer_reset b) = b_size b.
Proof. rewrite <- !zlen_b_area. unfold silc_buffer_reset, b_area. by cbn. Qed.

Lemma kept_left ps0 ps1 ps rest size :
  kept ps0 ps1 -> left_buf ps1 ps rest size -> left_buf ps0 ps rest size.
Proof. intros (_ & E1 & E2 & _). unfold left_buf. by rewrite E1, E2. Qed.

Lemma release_left ps0 ps buf :
  b_data buf = [] -> inbuf (ps_receive ps) = inbuf (ps_receive ps0) ->
  e_inbufs (ps_engine ps) = e_inbufs (ps_engine ps0) ->
  left_buf ps0 (release_inbuf ps buf) [] (b_size buf).
Proof.
  intros Hd E1 E2. exists (silc_buffer_reset buf). split; [done|]. split; [apply reset_size|].
  cbn [decide]. unfold release_inbuf. rewrite <- E1, <- E2.
  destruct (inbuf (ps_receive ps)) eqn:E; done.
Qed.

Lemma release_recv_ok ps buf : recv_ok ps ->
  recv_ok (release_inbuf ps buf) /\ router_link (release_inbuf ps buf) = router_link ps.
Proof. unfold release_inbuf. by destruct (inbuf _). Qed.

Lemma keep_left ps buf :
  b_data buf <> [] -> left_buf ps (keep_inbuf ps buf) (b_data buf) (b_size buf).
Proof.
  intros Hd. exists buf. split; [done|]. split; [done|]. rewrite decide_False by done.
  unfold keep_inbuf. by destruct (inbuf (ps_receive ps)) eqn:E.
Qed.

Lemma keep_recv_ok ps buf : recv_ok ps ->
  recv_ok (keep_inbuf ps buf) /\ router_link (keep_inbuf ps buf) = router_link ps.
Proof. unfold keep_inbuf. by destruct (inbuf _). Qed.

Lemma pending_same link ps ps' l ws :
  pending link ps l ws ->
  (forall sc sh psn, receive_sync sc sh psn (ps_receive ps) ->
     receive_sync sc sh psn (ps_receive ps')) ->
  pending link ps' l ws.
Proof.
  intros (sc & sh & psn & Hw & Hs) Hi.
  exists sc, sh, psn. split; [done|]. by apply Hi.
Qed.

Lemma pending_release link ps buf l ws :
  pending link ps l ws -> pending link (release_inbuf ps buf) l ws.
Proof.
  intros Hp. apply (pending_same _ ps); [done|]. unfold release_inbuf. by destruct (inbuf _).
Qed.

Lemma pending_keep link ps buf l ws :
  pending link ps l ws -> pending link (keep_inbuf ps buf) l ws.
Proof.
  intros Hp. apply (pending_same _ ps); [done|]. unfold keep_inbuf. by destruct (inbuf _).
Qed.

(** What a run of the loop gives. *)
Definition loop_gives (ps : SilcPacketStream) (l : list Plain) (rest : list Z) (size : Z)
    (events : list Event) (res : option (SilcPacketStream * list Event)) : Prop :=
  exists ps' evs l1 l2 part,
    res = Some (ps', events ++ evs) /\ l = l1 ++ l2 /\ Forall2 event_of l1 evs /\
    loop_kept ps ps' /\ pending (router_link ps) ps' l2 (part ++ rest) /\
    left_buf ps ps' part size /\ (rest = [] -> l2 = []).

Lemma pending_end link ps :
  pending link ps [] [] -> receive_sync sc_end sh_end psn_end (ps_receive ps).
Proof. intros (sc & sh & psn & Hw & Hs). by inversion Hw; subst. Qed.

Lemma pending_nil link ps l : pending link ps l [] -> l = [].
Proof.
  intros (sc & sh & psn & Hw & _). inversion Hw
    as [|? ? ? ? w ? ? ? ws ? ? ? Hw1 _ Ex1 Ex2 Ex3 Ex4 Ew]; [done|]. exfalso.
  apply wire_not_nil in Hw1. apply app_eq_nil in Ew as [-> _]. simpl in Hw1. lia.
Qed.

Lemma read_loop_empty ps buf events l rest :
  recv_ok ps -> pending (router_link ps) ps l rest -> b_data buf = [] ->
  loop_gives ps l rest (b_size buf) events (Some (release_inbuf ps buf, events)).
Proof.
  intros Hr Hp Hd. exists (release_inbuf ps buf), [], [], l, []. rewrite app_nil_r.
  split_and!; try done.
  - split; [|by apply release_recv_ok]. by apply release_recv_ok.
  - by apply pending_release.
  - by apply release_left.
  - intros ->. by apply pending_nil in Hp.
Qed.

Lemma read_loop_keep ps ps1 buf events l rest :
  kept ps ps1 -> pending (router_link ps) ps1 l (b_data buf ++ rest) -> b_data buf <> [] ->
  rest <> [] ->
  loop_gives ps l rest (b_size buf) events (Some (keep_inbuf ps1 buf, events)).
Proof.
  intros Hk Hp Hd Hne. pose proof Hk as (Hl & _ & _ & Hr).
  exists (keep_inbuf ps1 buf), [], [], l, (b_data buf). rewrite app_nil_r. split_and!; try done.
  - destruct (keep_recv_ok ps1 buf Hr) as [? E]. split; [by rewrite E|done].
  - by apply pending_keep.
  - apply (kept_left _ ps1); [done|]. by apply keep_left.
Qed.

(** The loop takes the packets that are there as a whole, and no more. *)
Lemma read_loop_stream packet_receive l :
  takes_all packet_receive -> forall fuel ps buf events rest,
  recv_ok ps -> pending (router_link ps) ps l (b_data buf ++ rest) -> buf_ok buf ->
  (length (b_data buf) < fuel)%nat ->
  loop_gives ps l rest (b_size buf) events (read_loop packet_receive fuel ps buf events).
Proof.
  intros Ht. induction l as [|p l IH]; intros fuel ps buf events rest Hr Hp Hb Hf;
    (destruct fuel as [|fuel]; [lia|]); cbn [read_loop]; rewrite buffer_len_ok by done;
    (destruct (Z.ltb_spec 0 (zlen (b_data buf))) as [Hpos|Hz];
     [|assert (b_data buf = []) as Hd by (apply zlen_0_nil; lia); rewrite Hd in Hp;
       by apply read_loop_empty]).
  { destruct Hp as (? & ? & ? & Hw & _). exfalso. inversion Hw as [? ? ? E|].
    destruct (b_data buf); [simpl in Hpos; lia|done]. }
  destruct Hp as (sc & sh & psn & Hw & Hs). inversion Hw
    as [|? ? ? ? w sc1 sh1 ? ws ? ? ? Hw1 Hws Ex1 Ex2 Ex3 Ex4 Ew]; subst.
  symmetry in Ew. pose proof (wire_not_nil _ _ _ _ _ _ _ _ Hw1) as Hn.
  destruct (app_cases (b_data buf) rest w ws Ew) as [(e & -> & He & ->)|(e & Hd & ->)].
  - destruct (round_wait packet_receive ps buf sc sh psn p _ sc1 sh1 e Hr Hs Hw1 eq_refl He Hb)
      as (ps1 & -> & Hk & Hs1).
    rewrite app_nil_r. apply (read_loop_keep ps ps1); [done| | |].
    + exists sc, sh, psn. split; [|done]. exact Hw.
    + intros E. by rewrite E in Hpos.
    + by destruct e.
  - destruct (round_packet packet_receive ps buf sc sh psn p w sc1 sh1 e Ht Hr Hs Hw1 Hd Hb)
      as (ps1 & buf1 & ev & -> & Hev & Hk & Hs1 & Hd1 & Hz1).
    pose proof Hk as (Hl & _ & _ & Hr1).
    destruct (IH fuel ps1 buf1 (events ++ [ev]) rest Hr1) as
      (ps' & evs & l1 & l2 & part & E & -> & Hev' & [Hl' Hr'] & Hp' & Hlb & Hall).
    + exists sc1, sh1, (next_psn sh psn). by rewrite Hl, Hd1.
    + unfold buf_ok in *. by rewrite Hz1.
    + rewrite Hd1. rewrite Hd, length_app in Hf. lia.
    + exists ps', (ev :: evs), (p :: l1), l2, part. rewrite E, <- app_assoc.
      split_and!; try done; [by constructor|split; [by rewrite Hl', Hl|done]|by rewrite <- Hl|].
      rewrite <- Hz1. by apply (kept_left _ ps1).
Qed.

(** ** Reading from the stream *)

Definition empty_buf (M : Z) (b : SilcBuffer) : Prop :=
  b_head b = [] /\ b_data b = [] /\ b_size b <= M.

(** The input buffers between two calls: the stream's own holds a part of a
    packet, [D], and those of the list are empty. *)
Definition input_ok (M : Z) (ps : SilcPacketStream) (D : list Z) : Prop :=
  match inbuf (ps_receive ps) with
  | Some b => b_data b = D /\ D <> [] /\ b_size b <= M
  | None => D = []
  end /\ Forall (empty_buf M) (e_inbufs (ps_engine ps)).

Lemma empty_buf_mono M M' b : M <= M' -> empty_buf M b -> empty_buf M' b.
Proof. unfold empty_buf. intuition lia. Qed.

Lemma current_some M ps D :
  input_ok M ps D -> 66560 <= M ->
  exists b, match current_inbuf ps with
            | Some b => Some b
            | None => silc_buffer_alloc (SILC_PACKET_DEFAULT_SIZE * 65)
            end = Some b /\ b_data b = D /\ b_size b <= M.
Proof.
  intros [Hi Hf] HM. unfold current_inbuf. destruct (inbuf (ps_receive ps)) as [b|].
  - exists b. split; [done|]. split; apply Hi.
  - destruct (e_inbufs (ps_engine ps)) as [|b l].
    + subst. cbn [head]. eexists. split; [reflexivity|]. split; [done|].
      unfold b_size, zrepeat, SILC_PACKET_DEFAULT_SIZE. cbn [b_head b_data b_tail length].
      rewrite length_replicate. lia.
    + apply Forall_cons_iff in Hf as [(_ & Hd & Hs) _]. exists b. subst. done.
Qed.

Lemma stream_read_some M ps D x :
  input_ok M ps D -> 66560 <= M -> M + 2048 < SILC_MAX_ALLOC -> zlen x <= 2048 ->
  exists b, silc_packet_stream_read ps (ReadBytes x) = (true, put_inbuf ps b, []) /\
    b_data b = D ++ x /\ b_size b <= M + 2048.
Proof.
  intros Hi HM Hmax Hx. destruct (current_some M ps D Hi HM) as (b & E & Hd & Hs).
  unfold silc_packet_stream_read. rewrite E. clear E.
  assert (exists t, (if silc_buffer_taillen b <? SILC_PACKET_DEFAULT_SIZE * 2 then
       match silc_buffer_realloc (Some b)
               (u32 (silc_buffer_truelen b + SILC_PACKET_DEFAULT_SIZE * 2)) with
       | Some b => b
       | None => b
       end else b) = {| b_head := b_head b; b_data := D; b_tail := t |} /\
     2048 <= zlen t /\ zlen (b_head b) + zlen D + zlen t <= M + 2048) as (t & -> & Ht & Hsz).
  { assert (buf_ok b) as Hok by (unfold buf_ok; lia).
    assert (0 <= b_size b) by (unfold b_size; lia).
    rewrite buffer_taillen_ok by done. unfold SILC_PACKET_DEFAULT_SIZE.
    change (1024 * 2) with 2048.
    destruct (Z.ltb_spec (zlen (b_tail b)) 2048).
    - unfold silc_buffer_realloc. rewrite buffer_truelen_ok by done.
      rewrite u32_id by (unfold SILC_MAX_ALLOC in *; lia). zcase; [lia|].
      rewrite silc_malloc_ok_true by lia. eexists. rewrite Hd. split; [done|].
      unfold b_size, zrepeat in *. rewrite Hd in *. rewrite length_app, length_replicate. lia.
    - exists (b_tail b). unfold b_size in Hs. rewrite Hd in Hs.
      split; [rewrite <- Hd; by destruct b|lia]. }
  eexists. split; [reflexivity|].
  unfold silc_buffer_put_tail, silc_buffer_taillen. cbn [b_head b_data b_tail].
  unfold SILC_MAX_ALLOC in *. rewrite u32_id by lia. zcase; [lia|].
  rewrite mem_read_exact by done.
  unfold silc_buffer_pull_tail, silc_buffer_taillen. cbn [b_head b_data b_tail].
  assert (zlen (x ++ zdrop (zlen x) t) = zlen t) as El
    by (rewrite length_app; pose proof (zlen_zdrop (zlen x) t); lia).
  rewrite El, u32_id by lia. zcase; [lia|].
  rewrite ztake_app_exact, zdrop_app_exact by done. cbn [b_data]. split; [done|].
  unfold b_size. cbn [b_head b_data b_tail]. rewrite length_app, zlen_zdrop by lia. lia.
Qed.

Lemma put_inbuf_ok M ps D b :
  input_ok M ps D -> recv_ok ps ->
  current_inbuf (put_inbuf ps b) = Some b /\ recv_ok (put_inbuf ps b) /\
  router_link (put_inbuf ps b) = router_link ps /\
  (forall sc sh psn, receive_sync sc sh psn (ps_receive ps) ->
     receive_sync sc sh psn (ps_receive (put_inbuf ps b))) /\
  Forall (empty_buf M) (match inbuf (ps_receive (put_inbuf ps b)) with
                        | Some _ => e_inbufs (ps_engine (put_inbuf ps b))
                        | None => tl (e_inbufs (ps_engine (put_inbuf ps b))) end).
Proof.
  intros [_ Hf] Hr. unfold put_inbuf, current_inbuf.
  destruct (inbuf (ps_receive ps)) eqn:E; cbn; rewrite ?E; split_and!; try done.
  by destruct Hf.
Qed.

Lemma left_input M ps0 ps part size :
  left_buf ps0 ps part size -> size <= M ->
  Forall (empty_buf M) (match inbuf (ps_receive ps0) with
                        | Some _ => e_inbufs (ps_engine ps0)
                        | None => tl (e_inbufs (ps_engine ps0)) end) ->
  input_ok M ps part.
Proof.
  intros (b & Hd & Hs & Hb) Hsz Hf. unfold input_ok. destruct (decide (part = [])) as [E|E].
  - destruct Hb as (-> & Hh & ->). split; [done|].
    assert (empty_buf M b) as He by (unfold empty_buf; subst; split_and!; done || lia).
    destruct (inbuf (ps_receive ps0)); [apply Forall_app; split; [done|by constructor]|
                                        by constructor].
  - destruct Hb as (-> & ->). split; [|done]. split_and!; done || lia.
Qed.

(** One call of the stream's I/O callback, with the next bytes of the stream. *)
Lemma stream_io_step packet_receive M ps D x rest l :
  takes_all packet_receive -> recv_ok ps -> input_ok M ps D ->
  pending (router_link ps) ps l (D ++ x ++ rest) ->
  66560 <= M -> M + 2048 < SILC_MAX_ALLOC -> zlen x <= 2048 ->
  exists ps' evs l1 l2 part,
    silc_packet_stream_io packet_receive ps (ReadBytes x) = Some (ps', evs) /\
    l = l1 ++ l2 /\ Forall2 event_of l1 evs /\ loop_kept ps ps' /\
    pending (router_link ps) ps' l2 (part ++ rest) /\ input_ok (M + 2048) ps' part /\
    (rest = [] -> l2 = []).
Proof.
  intros Ht Hr Hi Hp HM Hmax Hx.
  destruct (stream_read_some M ps D x Hi HM Hmax Hx) as (b & E & Hd & Hs).
  destruct (put_inbuf_ok M ps D b Hi Hr) as (Hc & Hr1 & Hl & Hsync & Hf).
  unfold silc_packet_stream_io. rewrite (proj1 (proj2 Hr)), E, Hc.
  unfold silc_packet_read_process. rewrite Hc.
  assert (buf_ok b) as Hb by (unfold buf_ok; lia).
  destruct (read_loop_stream packet_receive l Ht (S (length (b_data b))) (put_inbuf ps b) b []
    rest Hr1) as (ps' & evs & l1 & l2 & part & -> & -> & Hev & Hk & Hp' & Hlb & Hall);
    [|done|lia|].
  { rewrite Hl, Hd, <- app_assoc. by apply (pending_same _ ps). }
  exists ps', evs, l1, l2, part. split; [done|]. split; [done|]. split; [done|].
  rewrite Hl in Hp'. split; [by destruct Hk; split; [congruence|]|]. split; [done|].
  split; [|done]. apply (left_input _ _ _ _ _ Hlb Hs).
  eapply List.Forall_impl; [|exact Hf]. intros b' Hb'. apply (empty_buf_mono M); [lia|done].
Qed.

(** The calls for a sequence of reads. *)
Fixpoint io_all
    (packet_receive : Z -> SilcPacketStream -> SilcPacket -> bool * SilcPacketStream)
    (ps : SilcPacketStream) (chunks : list (list Z)) : option (SilcPacketStream * list Event) :=
  match chunks with
  | [] => Some (ps, [])
  | x :: chunks =>
      match silc_packet_stream_io packet_receive ps (ReadBytes x) with
      | None => None
      | Some (ps, ev) =>
          match io_all packet_receive ps chunks with
          | None => None
          | Some (ps, ev') => Some (ps, ev ++ ev')
          end
      end
  end.

Lemma io_all_stream packet_receive chunks : takes_all packet_receive -> forall M ps D l,
  recv_ok ps -> input_ok M ps D -> pending (router_link ps) ps l (D ++ concat chunks) ->
  66560 <= M -> M + 2048 * zlen chunks < SILC_MAX_ALLOC ->
  Forall (fun x => zlen x <= 2048) chunks -> (chunks = [] -> D = []) ->
  exists ps' evs,
    io_all packet_receive ps chunks = Some (ps', evs) /\ Forall2 event_of l evs /\
    loop_kept ps ps' /\ pending (router_link ps) ps' [] [] /\
    input_ok (M + 2048 * zlen chunks) ps' [].
Proof.
  intros Ht. induction chunks as [|x chunks IH]; intros M ps D l Hr Hi Hp HM Hmax Hx Hne.
  - rewrite (Hne eq_refl) in *. cbn [concat app] in Hp. pose proof (pending_nil _ _ _ Hp) as ->.
    exists ps, []. rewrite Z.mul_0_r, Z.add_0_r. done.
  - apply Forall_cons_iff in Hx as [Hx1 Hx]. cbn [concat io_all length] in *.
    destruct (stream_io_step packet_receive M ps D x (concat chunks) l Ht Hr Hi Hp HM)
      as (ps1 & ev1 & l1 & l2 & part & -> & -> & Hev1 & [Hl1 Hr1] & Hp1 & Hi1 & Hall);
      [lia|done|].
    assert (chunks = [] -> part = []) as Hpe.
    { intros ->. rewrite (Hall eq_refl) in Hp1. cbn [concat] in Hp1. rewrite app_nil_r in Hp1.
      destruct Hp1 as (? & ? & ? & Hw & _). by inversion Hw. }
    destruct (IH (M + 2048) ps1 part l2 Hr1 Hi1)
      as (ps2 & ev2 & -> & Hev2 & [Hl2 Hr2] & Hp2 & Hi2); [by rewrite Hl1|lia|lia|done|done|].
    exists ps2, (ev1 ++ ev2). split; [done|]. split; [by apply Forall2_app|].
    split; [split; [congruence|done]|]. rewrite <- Hl1. split; [done|].
    replace (M + 2048 * Z.of_nat (S (length chunks))) with (M + 2048 + 2048 * zlen chunks) by lia.
    done.
Qed.
End deliver.
