(* ===== verification/PacketProps.v ===== *)
(** The properties of the packet engine: a sequence of packets sent through
    silc_packet_send reaches the receiver's callbacks, and what was not sent
    does not. *)

From S2P Require Import Prelude CTypes Buffer BufFmt BufFmtSpec Id Cipher Hash Hmac Packet PacketReceive PacketSpec PacketDeliver.

(** A call of silc_packet_send: its arguments, the random bytes it draws, and
    how many bytes the underlying stream takes at each call (0: none now). *)
Record Message := {
  m_type : Z;
  m_flags : Z;
  m_data : list Z;
  m_rnd : list Z;
  m_caps : list Z;
}.

(** What silc_stream_write returns while there are [n] bytes to write. *)
Fixpoint stream_answers (caps : list Z) (n : Z) : list Z :=
  if 0 <? n then
    match caps with
    | [] => [-1]
    | c :: caps =>
        if c <=? 0 then [-1] else Z.min c n :: stream_answers caps (n - Z.min c n)
    end
  else [].

Section props.
Context `{CipherLaws} `{HashLaws}.

(** * Sending messages *)

Definition send_own (ps : SilcPacketStream) (m : Message) : bool * SilcPacketStream :=
  packet_send_own ps (m_type m) (m_flags m) (Some (m_data m)) (zlen (m_data m)) (m_rnd m).

Definition send_message (ps : SilcPacketStream) (m : Message)
  : option (bool * SilcPacketStream * list Z * option WriteCallback) :=
  silc_packet_send ps (m_type m) (m_flags m) (Some (m_data m)) (zlen (m_data m)) (m_rnd m)
    (stream_answers (m_caps m) (silc_buffer_len (outbuf (ps_send (send_own ps m).2)))).

(** The messages in turn: the stream, and what was written to it. *)
Fixpoint send_all (ps : SilcPacketStream) (ms : list Message)
  : option (SilcPacketStream * list Z) :=
  match ms with
  | [] => Some (ps, [])
  | m :: ms =>
      match send_message ps m with
      | Some (true, ps, w, None) =>
          match send_all ps ms with
          | Some (ps, w') => Some (ps, w ++ w')
          | None => None
          end
      | _ => None
      end
  end.

Lemma write_loop_some caps : forall buf written,
  buf_ok buf ->
  exists w buf',
    packet_write_loop (stream_answers caps (zlen (b_data buf))) buf written =
      Some (true, buf', written ++ w, None) /\
    w ++ b_data buf' = b_data buf /\ b_size buf' = b_size buf.
Proof.
  induction caps as [|c caps IH]; intros buf written Hb; cbn [stream_answers];
    (destruct (Z.ltb_spec 0 (zlen (b_data buf))) as [Hp|Hz];
     [|exists [], (silc_buffer_reset buf); cbn [packet_write_loop];
       rewrite buffer_len_ok by done; zcase; [lia|]; rewrite app_nil_r;
       rewrite (zlen_0_nil (b_data buf)) by lia; split; [done|split; [done|apply reset_size]]]).
  - exists [], buf. cbn [packet_write_loop]. rewrite buffer_len_ok by done. zcase; [|lia].
    by rewrite (app_nil_r written).
  - destruct (Z.leb_spec c 0).
    { exists [], buf. cbn [packet_write_loop]. rewrite buffer_len_ok by done. zcase; [|lia].
      by rewrite (app_nil_r written). }
    cbn [packet_write_loop]. rewrite buffer_len_ok by done. zcase; [|lia].
    set (i := Z.min c (zlen (b_data buf))). repeat (zcase; [lia|]).
    destruct buf as [h d t]. cbn [b_data] in *.
    destruct (zsplit i d) as (x & y & -> & Hx); [lia|].
    rewrite buffer_pull_app by done. rewrite ztake_app_exact by done.
    destruct (IH {| b_head := h ++ x; b_data := y; b_tail := t |} (written ++ x))
      as (w & buf' & E & Hw & Hs).
    { unfold buf_ok, b_size in *. cbn [b_head b_data b_tail] in *. rewrite !length_app in *. lia. }
    cbn [b_data] in *.
    replace (zlen (x ++ y) - i) with (zlen y) by (rewrite length_app; lia).
    exists (x ++ w), buf'. rewrite E, <- !app_assoc, Hw, Hs. split; [done|]. split; [done|].
    unfold b_size. cbn [b_head b_data b_tail]. rewrite !length_app. lia.
Qed.

(** The IDs of the stream, as silc_packet_set_ids leaves them. *)
Definition id_ok (id : option (list Z)) (len type : Z) : Prop :=
  len = zlen (ptr_bytes id) /\ len <= 28 /\ bytes_ok (ptr_bytes id) /\ 0 <= type <= 3.

Definition ids_ok (ids : StreamIds) : Prop :=
  id_ok (st_src_id ids) (st_src_id_len ids) (st_src_id_type ids) /\
  id_ok (st_dst_id ids) (st_dst_id_len ids) (st_dst_id_type ids).

Definition send_ready (ps : SilcPacketStream) : Prop :=
  ps_iv_included ps = false /\ ids_ok (ps_ids ps) /\
  (exists rc, cipher_opt_sync (send_key0 (ps_send ps)) rc) /\
  (exists rh, hmac_opt_sync (send_hmac0 (ps_send ps)) rh).

(** The header and the data are long enough to be received. *)
Definition message_ok (ids : StreamIds) (m : Message) : Prop :=
  is_byte (m_type m) /\ is_byte (m_flags m) /\ bytes_ok (m_data m) /\ bytes_ok (m_rnd m) /\
  zlen (m_data m) < 2 ^ 31 /\ 128 <= zlen (m_rnd m) /\
  1 <= st_src_id_len ids + st_dst_id_len ids + zlen (m_data m) /\
  (alg_mode = SILC_CIPHER_MODE_CTR -> 6 <= st_src_id_len ids + st_dst_id_len ids).

(** The plain packet of a message. *)
Definition message_plain (ps : SilcPacketStream) (m : Message) : Plain :=
  let ids := ps_ids ps in
  sent_plain ps (m_type m) (m_flags m) (st_src_id_type ids) (ptr_bytes (st_src_id ids))
    (st_dst_id_type ids) (ptr_bytes (st_dst_id ids)) (m_data m) (send_key0 (ps_send ps))
    (m_rnd m).

Lemma special_link ps type flags p :
  is_byte flags -> p_type p = type ->
  p_flags p = Z.land flags (Z.lnot SILC_PACKET_FLAG_LONG_PAD) ->
  packet_special ps type flags = negb (link_normal (router_link ps) p).
Proof.
  intros Hf Ht Hp. unfold packet_special, link_normal, router_link. rewrite negb_involutive, Ht, Hp.
  pose proof (byte_forall (fun f => Bool.eqb
    (Z.land (Z.land f (Z.lnot SILC_PACKET_FLAG_LONG_PAD)) SILC_PACKET_FLAG_PRIVMSG_KEY =? 0)
    (Z.land f SILC_PACKET_FLAG_PRIVMSG_KEY =? 0)) ltac:(by vm_compute) flags Hf) as E.
  apply Bool.eqb_prop in E. by rewrite E.
Qed.

Lemma plain_enclen_special ps p type flags :
  is_byte flags -> p_type p = type ->
  p_flags p = Z.land flags (Z.lnot SILC_PACKET_FLAG_LONG_PAD) ->
  plain_enclen ps p flags = special_n (link_normal (router_link ps) p) p.
Proof.
  intros Hf Ht Hp. unfold plain_enclen, special_n. rewrite Ht, (special_link ps type flags p) by done.
  by destruct (link_normal _ _).
Qed.

Lemma message_args ps m :
  ids_ok (ps_ids ps) -> message_ok (ps_ids ps) m ->
  send_args_ok (m_type m) (m_flags m) (st_src_id_type (ps_ids ps))
    (ptr_bytes (st_src_id (ps_ids ps))) (st_dst_id_type (ps_ids ps))
    (ptr_bytes (st_dst_id (ps_ids ps))) (m_data m) (m_rnd m).
Proof.
  intros [(E1 & ? & ? & ?) (E2 & ? & ? & ?)] (? & ? & ? & ? & ? & ? & _).
  unfold send_args_ok. split_and!; done || lia.
Qed.

Lemma message_packet_ok ps m :
  ids_ok (ps_ids ps) -> message_ok (ps_ids ps) m ->
  let p := message_plain ps m in
  packet_ok (link_normal (router_link ps) p) (send_key0 (ps_send ps)) p /\
  plain_enclen ps p (m_flags m) = special_n (link_normal (router_link ps) p) p.
Proof.
  intros Hi Hm p. pose proof (message_args ps m Hi Hm) as Ha.
  destruct (sent_plain_spec ps _ _ _ _ _ _ _ (send_key0 (ps_send ps)) _ Ha)
    as (Hok & Hpad & _ & Hcbc). fold (message_plain ps m) in *. fold p in Hok, Hpad, Hcbc.
  assert (plain_enclen ps p (m_flags m) = special_n (link_normal (router_link ps) p) p) as E
    by (apply (plain_enclen_special ps p (m_type m)); [apply Hm|done|done]).
  rewrite E in Hcbc. split; [|done].
  destruct Hi as [(E1 & ? & ? & ?) (E2 & ? & ? & ?)].
  destruct Hm as (? & ? & ? & ? & ? & ? & Hlen & Hctr). rewrite E1, E2 in Hlen, Hctr.
  set (hl := 10 + zlen (ptr_bytes (st_src_id (ps_ids ps))) + zlen (ptr_bytes (st_dst_id (ps_ids ps)))).
  assert (p_truelen p = hl + zlen (sent_data hl (m_data m))) as Et by done.
  assert (p_header_len p = hl) as Eh by done.
  assert (zlen (sent_data hl (m_data m)) = zlen (m_data m) \/ 65535 - hl <= zlen (sent_data hl (m_data m)))
    as Hd.
  { unfold sent_data, SILC_PACKET_DATALEN, SILC_PACKET_MAX_LEN, hl in *.
    rewrite (u32_id (zlen (m_data m) + _)) by lia. zcase.
    - right. rewrite u32_id by lia. rewrite zlen_ztake; lia.
    - left. rewrite zlen_ztake; lia. }
  unfold packet_ok, SILC_PACKET_MIN_LEN, SILC_PACKET_HEADER_LEN.
  assert (11 <= p_truelen p) by (rewrite Et; unfold hl in *; lia).
  split_and!; try done; [|apply Hcbc].
  assert (special_n (link_normal (router_link ps) p) p >= hl + zlen (p_pad p)) as Hn.
  { unfold special_n. rewrite Et, Eh. destruct (link_normal _ _); lia. }
  destruct (opt_ctr (send_key0 (ps_send ps))) eqn:Ec.
  - assert (alg_mode = SILC_CIPHER_MODE_CTR) as Hmode.
    { destruct (send_key0 (ps_send ps)); [|done]. cbn [opt_ctr] in Ec.
      unfold silc_cipher_get_mode in Ec. lia. }
    specialize (Hctr Hmode). unfold hl in *. lia.
  - destruct (Hcbc eq_refl). unfold hl in *. lia.
Qed.

(** Encryption succeeds and leaves a cipher that has a peer. *)
Lemma encrypted_exists sc p normal :
  packet_ok normal sc p -> (exists rc, cipher_opt_sync sc rc) ->
  exists enc sc', encrypted (option_map next_cipher sc) (plain_bytes p) (special_n normal p)
      enc sc' /\ exists rc, cipher_opt_sync sc' rc.
Proof.
  intros Hp [rc Hs]. pose proof (packet_ok_whole _ _ _ Hp) as Hw.
  destruct Hp as (Hok & _ & _ & Hn & _). pose proof (special_n_range normal p Hok) as Hr.
  destruct sc as [s|]; [destruct rc as [r|]; [|done]|].
  - specialize (Hw ltac:(by eexists)). pose proof (plain_bytes_ok _ Hok) as Hb.
    destruct (next_encrypt_some s r (plain_bytes p) (special_n normal p) Hs Hb ltac:(lia) Hw)
      as (y & s' & E & Hy & _).
    destruct (next_decrypt s r (plain_bytes p) (special_n normal p) y s' Hs Hb ltac:(lia) Hw E)
      as (_ & _ & r' & _ & _ & _ & Hs').
    do 2 eexists. split; [by apply (enc_some _ _ _ y s')|]. by exists (Some r').
  - exists (plain_bytes p), None. split; [constructor|]. by exists None.
Qed.

Lemma macced_exists sh psn x :
  (exists rh, hmac_opt_sync sh rh) -> zlen x < 2 ^ 31 ->
  exists mac sh', macced sh psn x mac sh' /\ (exists rh, hmac_opt_sync sh' rh) /\
    match sh' with Some h => hmac_len h | None => 0 end =
    match sh with Some h => hmac_len h | None => 0 end.
Proof.
  intros [rh Hs] Hx. destruct sh as [h|]; [destruct rh as [r|]; [|done]|].
  - destruct Hs as (Hl & Hk & Hr & Hkl). destruct (macced_some h psn x Hr Hkl Hx) as (h' & Hm).
    do 2 eexists. split; [exact Hm|]. inversion Hm; subst. split; [|done].
    exists (Some r). unfold hmac_opt_sync, key_bytes in *. split; [congruence|].
    assert (hmac_key h' = hmac_key h) as Ehk by done.
    split; [by rewrite Ehk|]. split; [lia|by rewrite Ehk].
  - exists [], None. split; [constructor|]. split; [|done]. by exists None.
Qed.

(** The longest packet with its MAC. *)
Definition packet_max (ps : SilcPacketStream) : Z :=
  66000 + match send_hmac0 (ps_send ps) with Some h => hmac_len h | None => 0 end.

(** What sending leaves as it was. *)
Definition send_kept (ps ps' : SilcPacketStream) : Prop :=
  ps_ids ps' = ps_ids ps /\ router_link ps' = router_link ps /\ packet_max ps' = packet_max ps.

(** silc_packet_send up to the write: the packet is behind what the output
    buffer holds. *)
Lemma send_own_wire ps m :
  send_ready ps -> message_ok (ps_ids ps) m ->
  b_size (outbuf (ps_send ps)) + packet_max ps < SILC_MAX_ALLOC ->
  exists ps' w,
    send_own ps m = (true, ps') /\
    wire (router_link ps) (send_key0 (ps_send ps)) (send_hmac0 (ps_send ps))
      (send_psn (ps_send ps)) (message_plain ps m) w
      (send_key0 (ps_send ps')) (send_hmac0 (ps_send ps')) /\
    send_psn (ps_send ps') = next_psn (send_hmac0 (ps_send ps)) (send_psn (ps_send ps)) /\
    send_ready ps' /\ send_kept ps ps' /\
    b_data (outbuf (ps_send ps')) = b_data (outbuf (ps_send ps)) ++ w /\
    b_size (outbuf (ps_send ps')) <= b_size (outbuf (ps_send ps)) + packet_max ps.
Proof.
  intros (Hiv & Hi & Hc & Hh) Hm Hsz.
  destruct (message_packet_ok ps m Hi Hm) as [Hp En]. pose proof (message_args ps m Hi Hm) as Ha.
  set (p := message_plain ps m) in *.
  destruct (encrypted_exists _ p _ Hp Hc) as (enc & sc' & He & Hc').
  pose proof (special_n_range (link_normal (router_link ps) p) p (proj1 Hp)) as Hr.
  pose proof (encrypted_len _ _ _ _ _ He) as Hel.
  destruct Hp as (Hok & Hpad & Hmin & Hn & Hcbc). specialize (Hel ltac:(lia)).
  destruct (macced_exists (send_hmac0 (ps_send ps)) (send_psn (ps_send ps)) enc Hh ltac:(lia))
    as (mac & sh' & Hmac & Hh' & Hml).
  pose proof (macced_len _ _ _ _ _ Hmac) as Hmacl. unfold packet_max in Hsz.
  pose proof Hi as [(E1 & _) (E2 & _)].
  rewrite <- En in He.
  destruct (send_raw_some ps (m_type m) (m_flags m) (st_src_id_type (ps_ids ps))
    (st_src_id (ps_ids ps)) _ (st_dst_id_type (ps_ids ps)) (st_dst_id (ps_ids ps)) _
    (Some (m_data m)) (m_data m) _ _ (m_rnd m) enc sc' mac sh' Hiv Ha eq_refl eq_refl eq_refl
    He Hmac) as (b' & E & Hbh & Hbd & Hbs).
  { lia. }
  eexists _, (enc ++ mac). split.
  { unfold send_own, packet_send_own. rewrite E1, E2, E. reflexivity. }
  cbn [set_send_keys set_outbuf set_send ps_send send_key0 send_hmac0 send_psn outbuf].
  rewrite En in He.
  split; [by apply wire_packet|]. split; [done|]. split; [done|].
  split; [|split; [done|unfold packet_max; lia]].
  split; [done|]. split; [done|]. unfold packet_max.
  cbn [set_send_keys set_outbuf set_send ps_send send_hmac0]. by rewrite Hml.
Qed.

Lemma send_message_wire ps m :
  send_ready ps -> message_ok (ps_ids ps) m ->
  b_size (outbuf (ps_send ps)) + packet_max ps < SILC_MAX_ALLOC ->
  exists ps' w out,
    send_message ps m = Some (true, ps', out, None) /\
    wire (router_link ps) (send_key0 (ps_send ps)) (send_hmac0 (ps_send ps))
      (send_psn (ps_send ps)) (message_plain ps m) w
      (send_key0 (ps_send ps')) (send_hmac0 (ps_send ps')) /\
    send_psn (ps_send ps') = next_psn (send_hmac0 (ps_send ps)) (send_psn (ps_send ps)) /\
    send_ready ps' /\ send_kept ps ps' /\
    out ++ b_data (outbuf (ps_send ps')) = b_data (outbuf (ps_send ps)) ++ w /\
    b_size (outbuf (ps_send ps')) <= b_size (outbuf (ps_send ps)) + packet_max ps.
Proof.
  intros Hr Hm Hsz. destruct (send_own_wire ps m Hr Hm Hsz) as
    (ps1 & w & E & Hw & Hpsn & Hr1 & Hk & Hd & Hs).
  unfold send_message, silc_packet_send. fold (send_own ps m). rewrite E. cbn [snd].
  assert (buf_ok (outbuf (ps_send ps1))) as Hb by (unfold buf_ok; lia).
  rewrite buffer_len_ok by done.
  destruct (write_loop_some (m_caps m) (outbuf (ps_send ps1)) [] Hb) as (out & b' & Ew & Hd' & Hs').
  unfold silc_packet_stream_write. rewrite Ew. cbn [app].
  do 3 eexists. split; [reflexivity|].
  cbn [set_outbuf set_send ps_send send_key0 send_hmac0 send_psn outbuf].
  split; [exact Hw|]. split; [done|]. split; [done|]. split; [done|].
  split; [by rewrite Hd'|lia].
Qed.

(** What the receiver's callbacks get of a message: its data, up to what fits
    in a packet, its type, its flags but the one that asked for long padding,
    and the IDs of the sender's stream. *)
Definition message_delivered (ids : StreamIds) (m : Message) (ev : Event) : Prop :=
  exists cb pk, ev = EvReceive cb pk /\
    pk_type pk = m_type m /\
    pk_flags pk = Z.land (m_flags m) (Z.lnot SILC_PACKET_FLAG_LONG_PAD) /\
    b_data (pk_buffer pk) =
      ztake (65535 - (10 + st_src_id_len ids + st_dst_id_len ids)) (m_data m) /\
    ptr_bytes (pk_src_id pk) = ptr_bytes (st_src_id ids) /\
    pk_src_id_len pk = st_src_id_len ids /\ pk_src_id_type pk = st_src_id_type ids /\
    ptr_bytes (pk_dst_id pk) = ptr_bytes (st_dst_id ids) /\
    pk_dst_id_len pk = st_dst_id_len ids /\ pk_dst_id_type pk = st_dst_id_type ids.

Lemma sent_data_cut hl data :
  10 <= hl <= 66 -> zlen data < 2 ^ 31 -> sent_data hl data = ztake (65535 - hl) data.
Proof.
  intros Hh Hd. unfold sent_data, SILC_PACKET_DATALEN, SILC_PACKET_MAX_LEN.
  rewrite (u32_id (zlen data + hl)) by lia. zcase.
  - rewrite u32_id by lia. f_equal. lia.
  - by rewrite !ztake_all by lia.
Qed.

Lemma event_delivered ps m ev :
  ids_ok (ps_ids ps) -> message_ok (ps_ids ps) m ->
  event_of (message_plain ps m) ev -> message_delivered (ps_ids ps) m ev.
Proof.
  intros [(E1 & ? & ? & ?) (E2 & ? & ? & ?)] Hm (cb & pk & -> & Hd).
  destruct Hm as (? & ? & ? & ? & ? & _). exists cb, pk. unfold delivered in Hd.
  cbn [message_plain sent_plain p_data p_flags p_type p_src p_src_type p_dst p_dst_type] in Hd.
  destruct Hd as (Hdt & Hf & Ht & Hs1 & Hs2 & Hs3 & Hd1 & Hd2 & Hd3).
  rewrite sent_data_cut in Hdt by lia. rewrite E1, E2. done.
Qed.

Lemma send_all_wires ms : forall ps,
  send_ready ps -> Forall (message_ok (ps_ids ps)) ms ->
  b_size (outbuf (ps_send ps)) + zlen ms * packet_max ps < SILC_MAX_ALLOC ->
  exists ps' pls ws out,
    send_all ps ms = Some (ps', out) /\
    wires (router_link ps) (send_key0 (ps_send ps)) (send_hmac0 (ps_send ps))
      (send_psn (ps_send ps)) pls ws (send_key0 (ps_send ps')) (send_hmac0 (ps_send ps'))
      (send_psn (ps_send ps')) /\
    send_ready ps' /\ send_kept ps ps' /\
    out ++ b_data (outbuf (ps_send ps')) = b_data (outbuf (ps_send ps)) ++ ws /\
    (forall evs, Forall2 event_of pls evs -> Forall2 (message_delivered (ps_ids ps)) ms evs).
Proof.
  induction ms as [|m ms IH]; intros ps Hr Hm Hsz.
  { exists ps, [], [], []. rewrite app_nil_r. split_and!; try done; [constructor|].
    intros evs Hev. inversion Hev. constructor. }
  apply Forall_cons_iff in Hm as [Hm1 Hm]. cbn [length send_all] in *.
  assert (0 <= packet_max ps).
  { destruct Hr as (_ & _ & _ & (rh & Hh)). unfold packet_max.
    destruct (send_hmac0 (ps_send ps)); [|lia]. destruct rh; [|done]. destruct Hh as (_ & _ & ? & _). lia. }
  assert (b_size (outbuf (ps_send ps)) + packet_max ps < SILC_MAX_ALLOC) as Hsz1 by nia.
  destruct (send_message_wire ps m Hr Hm1 Hsz1) as
    (ps1 & w & out1 & -> & Hw & Hpsn & Hr1 & (Ki & Kl & Km) & Hd1 & Hs1).
  destruct (IH ps1 Hr1) as (ps2 & pls & ws & out2 & -> & Hws & Hr2 & (Ki2 & Kl2 & Km2) & Hd2 & Hev);
    [by rewrite Ki|rewrite Km; nia|].
  exists ps2, (message_plain ps m :: pls), (w ++ ws), (out1 ++ out2).
  split; [done|]. split; [|split; [done|split; [|split]]].
  - rewrite Kl, Hpsn in Hws. by eapply wires_cons.
  - unfold send_kept. split_and!; congruence.
  - rewrite <- app_assoc, Hd2, app_assoc, Hd1. by rewrite <- app_assoc.
  - intros evs Hevs. inversion Hevs as [|? ev ? evs' He Hes]; subst.
    constructor; [apply event_delivered; [apply Hr|done|done]|]. rewrite <- Ki. by apply Hev.
Qed.
End props.

(** * Properties *)

(** C1. Messages sent through silc_packet_send are received, in order, once
    each and unchanged.  Sender and receiver hold matching ciphers and HMACs
    (or none) and sequence numbers; whatever number of bytes the underlying
    stream takes at each write, and in whatever pieces of at most 2048 bytes
    the receiver reads what was written and what is still to be written, the
    receiver's callbacks get exactly the messages, nothing is left in its input
    buffers, and the two ends still match. *)
Theorem silc_packet_delivery `{CipherLaws} `{HashLaws}
    (packet_receive : Z -> SilcPacketStream -> SilcPacket -> bool * SilcPacketStream)
    (s r : SilcPacketStream) (ms : list Message) (chunks : list (list Z)) (M : Z) :
  takes_all packet_receive -> send_ready s -> recv_ok r -> router_link s = router_link r ->
  receive_sync (send_key0 (ps_send s)) (send_hmac0 (ps_send s)) (send_psn (ps_send s))
    (ps_receive r) ->
  Forall (message_ok (ps_ids s)) ms -> b_data (outbuf (ps_send s)) = [] ->
  b_size (outbuf (ps_send s)) + zlen ms * packet_max s < SILC_MAX_ALLOC ->
  input_ok M r [] -> 66560 <= M -> M + 2048 * zlen chunks < SILC_MAX_ALLOC ->
  Forall (fun x => 0 < zlen x <= 2048) chunks ->
  exists s' out,
    send_all s ms = Some (s', out) /\
    (concat chunks = out ++ b_data (outbuf (ps_send s')) ->
     exists r' evs,
       io_all packet_receive r chunks = Some (r', evs) /\
       Forall2 (message_delivered (ps_ids s)) ms evs /\
       input_ok (M + 2048 * zlen chunks) r' [] /\
       receive_sync (send_key0 (ps_send s')) (send_hmac0 (ps_send s')) (send_psn (ps_send s'))
         (ps_receive r')).
Proof.
  intros Ht Hs Hr Hl Hsync Hms Hob Hosz Hin HM Hcsz Hch.
  destruct (send_all_wires ms s Hs Hms Hosz) as (s' & pls & ws & out & -> & Hw & _ & _ & Hd & Hev).
  exists s', out. split; [done|]. rewrite Hd, Hob. cbn [app]. intros Hc.
  rewrite Hl in Hw.
  destruct (io_all_stream (send_key0 (ps_send s')) (send_hmac0 (ps_send s'))
    (send_psn (ps_send s')) packet_receive chunks Ht M r [] pls Hr Hin) as
    (r' & evs & E & Hevs & Hk & Hp & Hi); [|done|done| |done|].
  - exists (send_key0 (ps_send s)), (send_hmac0 (ps_send s)), (send_psn (ps_send s)).
    split; [|exact Hsync]. cbn [app]. rewrite Hc. exact Hw.
  - eapply List.Forall_impl; [|exact Hch]. intros x Hx. cbv beta in *. lia.
  - exists r', evs. split; [done|]. split; [by apply Hev|]. split; [done|].
    by apply (pending_end _ _ _ _ _ Hp).
Qed.

Definition witness_stream (outsize : Z) : @SilcPacketStream (aes_cbc (H := toy_cipher)) toy_hash :=
  {| ps_engine := {| e_local_is_router := false; e_packet_pool := []; e_inbufs := [] |};
     ps_process := Some [{| pp_types := Some [1; 2; 0]; pp_callbacks := 5; pp_priority := 10 |}];
     ps_send := {| outbuf := {| b_head := []; b_data := []; b_tail := zrepeat 0 outsize |};
                   send_key0 := Some witness_cbc; send_key1 := None;
                   send_hmac0 := Some witness_hmac; send_hmac1 := None; send_psn := 0 |};
     ps_receive := {| inbuf := None; receive_key0 := Some witness_cbc; receive_key1 := None;
                      receive_hmac0 := Some witness_hmac; receive_hmac1 := None;
                      receive_psn := 0 |};
     ps_ids := {| st_src_id := Some [1; 2; 3; 4; 5; 6]; st_src_id_len := 6; st_src_id_type := 2;
                  st_dst_id := Some [9; 8; 7]; st_dst_id_len := 3; st_dst_id_type := 1 |};
     ps_sid := 0; ps_is_router := false; ps_destroyed := false; ps_iv_included := false |}.

Definition witness_message (type n : Z) (caps : list Z) : Message :=
  {| m_type := type; m_flags := 0; m_data := zrepeat n n; m_rnd := zrepeat 42 128;
     m_caps := caps |}.

(** A message for the processor, a channel message, and one for nobody else
    than the engine; the stream takes the bytes in pieces. *)
Definition witness_messages : list Message :=
  [witness_message 2 5 [7; 100]; witness_message 7 30 [0]; witness_message 3 1 [1; 1; 0]].

Definition takes_everything {A B : Type} (cb : Z) (ps : A) (pk : B) : bool * A := (true, ps).

Definition witness_sent : list Z :=
  match send_all (witness_stream 1024) witness_messages with
  | Some (ps, out) => out ++ b_data (outbuf (ps_send ps))
  | None => []
  end.

Definition witness_chunks : list (list Z) :=
  [ztake 3 witness_sent; ztake 60 (zdrop 3 witness_sent); zdrop 63 witness_sent].

Lemma witness_message_ok type n caps :
  is_byte type -> 1 <= n < 100 ->
  message_ok (H := aes_cbc (H := toy_cipher)) (ps_ids (witness_stream 1024))
    (witness_message type n caps).
Proof.
  intros Ht Hn. unfold message_ok, witness_message. cbn [m_type m_flags m_data m_rnd].
  split_and!; try done.
  - unfold zrepeat. apply Forall_replicate. unfold is_byte. lia.
  - by apply bytes_ok_check.
  - unfold zrepeat. rewrite length_replicate. lia.
  - cbn. lia.
Qed.

Lemma silc_packet_delivery_witness :
  exists r' evs,
    io_all takes_everything (witness_stream 1024) witness_chunks = Some (r', evs) /\
    Forall2 (message_delivered (ps_ids (witness_stream 1024))) witness_messages evs.
Proof.
  destruct (silc_packet_delivery (H := aes_cbc (H := toy_cipher)) (H1 := toy_hash)
    takes_everything (witness_stream 1024) (witness_stream 1024) witness_messages witness_chunks
    66560) as (s' & out & E & Hdel).
  - by intros cb ps pk.
  - split; [done|]. split; [|split].
    + split; (split; [done|]; split; [done|]; split; [by apply bytes_ok_check|done]).
    + exists (Some witness_cbc). split; [done|]. split; [done|exact witness_iv_block].
    + by exists (Some witness_hmac).
  - split; [done|]. split; [done|constructor].
  - done.
  - split; [split; [done|split; [done|exact witness_iv_block]]|]. split; [done|].
    intros _. split; [by eexists|done].
  - repeat apply Forall_cons_2; try apply Forall_nil_2; apply witness_message_ok; done.
  - done.
  - vm_compute. reflexivity.
  - split; [done|constructor].
  - done.
  - vm_compute. reflexivity.
  - repeat apply Forall_cons_2; try apply Forall_nil_2; vm_compute; split; congruence.
  - destruct Hdel as (r' & evs & E2 & Hev & _).
    + assert (match send_all (witness_stream 1024) witness_messages with
              | Some (ps, out) => out ++ b_data (outbuf (ps_send ps))
              | None => []
              end = concat witness_chunks) as Ec by (vm_compute; reflexivity).
      rewrite E in Ec. by rewrite Ec.
    + exists r', evs. split; [exact E2|exact Hev].
Defined.
