(* ===== verification/PacketSafety.v ===== *)
(** The receiving half of the packet engine on arbitrary input: it always
    returns, and a packet is delivered only when its MAC is right.  And the
    list of packet processors. *)

From S2P Require Import Prelude CTypes Buffer BufFmt BufFmtSpec Id Cipher Hash Hmac Packet PacketReceive PacketSpec PacketDeliver PacketProps.
From Stdlib Require Import Sorting.Sorted.

(** * Termination *)

Section total.
Context `{CipherAlg} `{HashAlg}.

(** [hmac->len] is unsigned. *)
Definition hmac_ok (hmac : option SilcHmac) : Prop :=
  match hmac with Some h => 0 <= hmac_len h | None => True end.

Definition hmacs_ok (ps : SilcPacketStream) : Prop :=
  hmac_ok (receive_hmac0 (ps_receive ps)) /\ hmac_ok (receive_hmac1 (ps_receive ps)).

Lemma check_mac_len hmac data packet_mac seq psn :
  hmac_ok hmac -> hmac_ok (silc_packet_check_mac hmac data packet_mac seq psn).2.
Proof.
  intros Hh. destruct hmac as [h|]; [|done]. unfold silc_packet_check_mac.
  set (h1 := silc_hmac_update _ data).
  assert (hmac_len h1 = hmac_len h) as E.
  { unfold h1, silc_hmac_init, silc_hmac_init_with_key, silc_hmac_init_internal.
    by destruct (if _ <? _ then _ else _). }
  clearbody h1. unfold silc_hmac_final. destruct (silc_hash_final (hmac_hash h1)).
  destruct (silc_hash_final _). cbn. by rewrite E.
Qed.

(** The hmac that is chosen, and the length of what precedes the header. *)
Lemma first_block_hmac ps data fb :
  0 <= alg_block_len -> hmacs_ok ps -> read_first_block ps data = Some fb ->
  hmac_ok (fb_hmac fb) /\ 0 <= fb_ivlen fb.
Proof.
  intros Hbl [Ho1 Ho2]. unfold read_first_block.
  destruct (receive_key0 (ps_receive ps)) as [c|]; [|by intros [= <-]].
  set (v := if ps_iv_included ps then _ else _).
  assert (0 <= v.1.2) as Hv.
  { unfold v, silc_cipher_get_block_len.
    destruct (ps_iv_included ps), (silc_cipher_get_mode c =? SILC_CIPHER_MODE_CTR); cbn; lia. }
  destruct v as [[iv ivlen] psnlen]. cbn [fst snd] in Hv.
  destruct (_ && _) in |- *.
  - destruct (receive_key1 (ps_receive ps)) as [c1|], (receive_hmac1 (ps_receive ps)); try done.
    destruct (_ && _); [|done].
    destruct (silc_cipher_decrypt _ _ _) as [[[? [?|]] ?]|]; by intros [= <-].
  - destruct (silc_cipher_decrypt _ _ _) as [[[? [?|]] ?]|]; by intros [= <-].
Qed.

Lemma set_receive_keys_ok ps old cipher hmac psn :
  hmacs_ok ps -> hmac_ok hmac -> hmacs_ok (set_receive_keys ps old cipher hmac psn).
Proof. intros [? ?] ?. by destruct old. Qed.

Variable packet_receive : Z -> SilcPacketStream -> SilcPacket -> bool * SilcPacketStream.
Hypothesis receive_ok : forall cb ps pk,
  hmacs_ok ps -> hmacs_ok (packet_receive cb ps pk).2.

Lemma dispatch_loop_ok l : forall ps pk ignore sent ev,
  hmacs_ok ps -> hmacs_ok (dispatch_loop packet_receive l ps pk ignore sent ev).1.1.
Proof.
  induction l as [|p l IH]; intros ps pk ignore sent ev Ho; cbn [dispatch_loop].
  - destruct sent; [done|]. pose proof (receive_ok 0 ps pk Ho). by destruct (packet_receive _ _ _).
  - destruct (negb sent && (pp_priority p <=? 0)).
    + pose proof (receive_ok 0 ps pk Ho). destruct (packet_receive 0 ps pk) as [[] ps1]; [done|].
      destruct (process_wants p pk ignore); [|by apply IH].
      pose proof (receive_ok (pp_callbacks p) ps1 pk H1).
      destruct (packet_receive (pp_callbacks p) ps1 pk) as [[] ps2]; [done|by apply IH].
    + destruct (process_wants p pk ignore); [|by apply IH].
      pose proof (receive_ok (pp_callbacks p) ps pk Ho).
      destruct (packet_receive (pp_callbacks p) ps pk) as [[] ps2]; [done|by apply IH].
Qed.

Lemma dispatch_ok ps pk : hmacs_ok ps ->
  hmacs_ok (silc_packet_dispatch packet_receive ps pk None).1.2.
Proof.
  intros Ho. unfold silc_packet_dispatch.
  pose proof (dispatch_loop_ok (match ps_process ps with Some l => l | None => [] end)
    ps pk None false [] Ho) as Hd.
  destruct (ps_process ps); destruct (dispatch_loop _ _ _ _ _ _ _) as [[ps1 ev] []]; done.
Qed.

(** A round that goes on with the next packet has taken bytes off the buffer. *)
Lemma read_round_next ps buf ps' buf' ev :
  0 <= alg_block_len -> hmacs_ok ps -> 0 < silc_buffer_len buf ->
  read_round packet_receive ps buf = (ps', buf', ev, RoundNext) ->
  (length (b_data buf') < length (b_data buf))%nat /\ hmacs_ok ps'.
Proof.
  intros Hbl Ho Hn. unfold read_round.
  destruct (_ <? _); [done|].
  destruct (read_first_block ps (b_data buf)) as [fb|] eqn:Efb; [|done].
  destruct (first_block_hmac ps _ fb Hbl Ho Efb) as [Hfh Hiv].
  set (hm := if fb_old fb then _ else _).
  set (mac_len := match receive_hmac0 _ with Some _ => _ | None => _ end).
  assert (0 <= mac_len) as Hm.
  { unfold mac_len, silc_hmac_len. destruct Ho as [Ho _]. by destruct (receive_hmac0 _). }
  unfold SILC_PACKET_LENGTH. set (truelen := SILC_GET16_MSB (fb_header fb)).
  set (padlen := u8 (byte_at (fb_header fb) 4)).
  pose proof (u8_range (byte_at (fb_header fb) 4)) as Hpad. fold padlen in Hpad.
  set (ps1 := set_receive_keys ps _ _ hm _).
  assert (hmacs_ok ps1) as Ho1.
  { apply set_receive_keys_ok; [done|]. unfold hm. destruct (fb_old fb); apply Ho. }
  destruct (bad_padding _ _ _ _ _); [done|].
  destruct (Z.ltb_spec (silc_buffer_len buf) (truelen + padlen + fb_ivlen fb + mac_len)); [done|].
  unfold read_packet.
  pose proof (check_mac_len (fb_hmac fb) (mem_read (b_data buf) (truelen + padlen + fb_ivlen fb))
    (zdrop (fb_ivlen fb + (truelen + padlen)) (b_data buf)) (fb_seq fb)
    (receive_psn (ps_receive ps1)) Hfh) as Hh.
  destruct (silc_packet_check_mac _ _ _ _ _) as [ok hmac]. cbn [snd] in Hh.
  destruct ok; cbn [negb]; [|done].
  destruct (Z.ltb_spec truelen SILC_PACKET_MIN_LEN) as [|Hmin]; [done|].
  unfold SILC_PACKET_MIN_LEN, SILC_PACKET_HEADER_LEN in Hmin.
  set (ps2 := set_receive_keys ps1 _ _ hmac _).
  assert (exists b pool, silc_packet_alloc ps2 = (b, set_pool ps2 pool) \/
                         silc_packet_alloc ps2 = (b, ps2)) as (b & pool & Ea).
  { unfold silc_packet_alloc. destruct (e_packet_pool _) as [|b pool].
    - eexists _, []. by right.
    - exists b, pool. by left. }
  assert (exists ps3, silc_packet_alloc ps2 = (b, ps3) /\ hmacs_ok ps3) as (ps3 & -> & Ho3).
  { assert (hmacs_ok ps2) by (by apply set_receive_keys_ok).
    destruct Ea as [-> | ->]; eexists; split; done. }
  destruct (packet_fill _ _ _ _) as [b1|]; [|done].
  destruct (silc_packet_decrypt _ _ _) as [[[k b2] cipher]|]; [|done].
  destruct (silc_packet_parse _) as [ok pk]. destruct ok; cbn [negb]; [|done].
  match goal with |- context [silc_packet_dispatch _ ?p _ _] =>
    assert (hmacs_ok p) as Ho4 by (by apply set_receive_keys_ok);
    pose proof (dispatch_ok p pk Ho4) as Ho5
  end.
  destruct (silc_packet_dispatch _ _ _ _) as [[alive ps4] events]. cbn [fst snd] in Ho5.
  destruct alive; [|done]. intros [= <- <- <-]. split; [|done].
  assert (0 < zlen (b_data buf)) as Hl.
  { unfold silc_buffer_len in Hn. destruct (b_data buf); [done|simpl; lia]. }
  unfold silc_buffer_pull. zcase; [lia|]. cbn [b_data]. unfold zdrop. rewrite length_drop. lia.
Qed.

Lemma read_loop_total fuel : forall ps buf events,
  0 <= alg_block_len -> hmacs_ok ps -> (length (b_data buf) < fuel)%nat ->
  is_Some (read_loop packet_receive fuel ps buf events).
Proof.
  induction fuel as [|fuel IH]; intros ps buf events Hbl Ho Hf; [lia|]. cbn [read_loop].
  destruct (Z.ltb_spec 0 (silc_buffer_len buf)) as [Hn|]; [|by eexists].
  destruct (read_round packet_receive ps buf) as [[[ps1 buf1] ev] e] eqn:E.
  destruct e; [by eexists|by eexists| |by eexists].
  destruct (read_round_next ps buf ps1 buf1 ev Hbl Ho Hn E). apply IH; [done|done|lia].
Qed.
End total.

(** C6. Processing input always ends: whatever bytes arrive, whatever the
    cipher, the HMAC and the callbacks do, silc_packet_stream_io returns; every
    round of the loop of silc_packet_read_process that goes on has taken bytes
    off the input buffer.  The length of the buffer is enough fuel. *)
Theorem silc_packet_stream_io_total `{CipherAlg} `{HashAlg}
    (packet_receive : Z -> SilcPacketStream -> SilcPacket -> bool * SilcPacketStream)
    (ps : SilcPacketStream) (read : ReadResult) :
  (forall cb ps pk, hmacs_ok ps -> hmacs_ok (packet_receive cb ps pk).2) ->
  0 <= alg_block_len -> hmacs_ok ps ->
  exists ps' events, silc_packet_stream_io packet_receive ps read = Some (ps', events).
Proof.
  intros Hcb Hbl Ho. unfold silc_packet_stream_io.
  destruct (ps_destroyed ps); [by do 2 eexists|].
  destruct (silc_packet_stream_read ps read) as [[[] ps1] ev] eqn:E; [|by do 2 eexists].
  assert (hmacs_ok ps1 /\ is_Some (current_inbuf ps1)) as [Ho1 [b Hb]].
  { revert E. unfold silc_packet_stream_read.
    destruct (match current_inbuf ps with Some _ => _ | None => _ end); [|done].
    destruct read; try done. intros [= <- _]. unfold put_inbuf, current_inbuf.
    destruct (inbuf (ps_receive ps)) eqn:Ei; cbn; rewrite ?Ei; split; try done; by eexists. }
  unfold silc_packet_read_process. rewrite Hb.
  destruct (read_loop_total packet_receive Hcb (S (length (b_data b))) ps1 b [] Hbl Ho1)
    as [[ps2 ev2] ->]; [lia|]. by do 2 eexists.
Qed.

(** Input that is no packet at all. *)
Lemma silc_packet_stream_io_total_witness :
  exists ps' events,
    silc_packet_stream_io takes_everything (witness_stream 64) (ReadBytes (zrepeat 77 300)) =
      Some (ps', events).
Proof.
  apply (silc_packet_stream_io_total takes_everything).
  - by intros cb ps pk.
  - done.
  - done.
Defined.

(** * Authenticity *)

Section auth.
Context `{CipherLaws} `{HashLaws}.

(** Without IV included the packet starts where the data starts. *)
Lemma first_block_plain ps data :
  ps_iv_included ps = false ->
  exists fb, read_first_block ps data = Some fb /\ fb_old fb = false /\
    fb_hmac fb = receive_hmac0 (ps_receive ps) /\ fb_ivlen fb = 0 /\ fb_seq fb = None.
Proof.
  intros Hiv. unfold read_first_block. rewrite Hiv.
  destruct (receive_key0 (ps_receive ps)) as [c|]; [|by eexists].
  destruct (silc_cipher_get_mode c =? SILC_CIPHER_MODE_CTR); cbn [andb];
    destruct (silc_cipher_decrypt _ _ _) as [[[? [?|]] ?]|]; by eexists.
Qed.

(** The bytes of a buffer start with a packet of [n] bytes and its MAC. *)
Definition mac_right (h : SilcHmac) (psn : Z) (data : list Z) (n : Z) : Prop :=
  SILC_PACKET_MIN_LEN <= n /\ n + hmac_len h <= zlen data /\
  ztake (hmac_len h) (zdrop n data) =
    hmac_fn (hmac_len h) (key_bytes h) (SILC_PUT32_MSB psn ++ ztake n data).

(** Events other than errors come after the check of the MAC. *)
Lemma read_packet_mac packet_receive ps buf fb h normal packetlen paddedlen ps' buf' evs e :
  fb_hmac fb = Some h -> 0 <= hmac_len h <= alg_hash_len -> zlen (key_bytes h) < 2 ^ 31 ->
  buf_ok buf -> fb_ivlen fb = 0 -> fb_seq fb = None ->
  packetlen <= paddedlen -> paddedlen + hmac_len h <= zlen (b_data buf) -> 0 <= paddedlen ->
  read_packet packet_receive ps buf fb normal packetlen paddedlen (hmac_len h) =
    (ps', buf', evs, e) ->
  mac_right h (receive_psn (ps_receive ps)) (b_data buf) paddedlen \/
  buf' = buf /\ exists err, evs = [EvError err] /\ e = RoundError err.
Proof.
  intros Hh Hl Hk Hb Hiv Hseq Hpp Hsz Hp. unfold read_packet. rewrite Hh, Hiv, Hseq.
  rewrite Z.add_0_r, Z.add_0_l, mem_read_le by lia.
  assert (zlen (ztake paddedlen (b_data buf)) < 2 ^ 31) as Hlt.
  { rewrite zlen_ztake by lia. unfold buf_ok, b_size, SILC_MAX_ALLOC in Hb. lia. }
  destruct (check_mac_spec h (ztake paddedlen (b_data buf)) (zdrop paddedlen (b_data buf))
    (receive_psn (ps_receive ps)) Hl Hk Hlt) as (h' & -> & _).
  destruct (bool_decide _) eqn:E; cbn [negb].
  - destruct (Z.ltb_spec packetlen SILC_PACKET_MIN_LEN).
    + intros [= <- <- <- <-]. right. split; [done|by eexists].
    + intros _. left. apply bool_decide_eq_true_1 in E. split; [lia|]. split; [done|].
      rewrite <- E. symmetry. apply mem_read_le. rewrite zlen_zdrop; lia.
  - intros [= <- <- <- <-]. right. split; [done|by eexists].
Qed.

Lemma read_round_mac packet_receive ps buf h ps' buf' evs e :
  ps_iv_included ps = false -> receive_hmac0 (ps_receive ps) = Some h ->
  0 <= hmac_len h <= alg_hash_len -> zlen (key_bytes h) < 2 ^ 31 -> buf_ok buf ->
  read_round packet_receive ps buf = (ps', buf', evs, e) ->
  (exists n, mac_right h (receive_psn (ps_receive ps)) (b_data buf) n) \/
  buf' = buf /\ (evs = [] /\ e = RoundWait \/
                 exists err, evs = [EvError err] /\ e = RoundError err).
Proof.
  intros Hiv Hh Hl Hk Hb. unfold read_round. rewrite Hiv, buffer_len_ok by done.
  destruct (_ <? _); [intros [= <- <- <- <-]; right; split; [done|by left]|].
  destruct (first_block_plain ps (b_data buf) Hiv) as (fb & -> & Hold & Hfh & Hfi & Hfs).
  rewrite Hold, Hfi, Hh. cbv iota. unfold SILC_PACKET_LENGTH, silc_hmac_len.
  set (truelen := SILC_GET16_MSB (fb_header fb)). set (padlen := u8 _).
  pose proof (SILC_GET16_MSB_range (fb_header fb)) as Ht. fold truelen in Ht.
  assert (0 <= padlen) by apply u8_range.
  set (ps1 := set_receive_keys ps _ _ _ _).
  destruct (bad_padding _ _ _ _ _).
  { intros [= <- <- <- <-]. right. split; [done|right; by eexists]. }
  destruct (Z.ltb_spec (zlen (b_data buf)) (truelen + padlen + 0 + hmac_len h)).
  { intros [= <- <- <- <-]. right. split; [done|by left]. }
  intros E. rewrite Hh in Hfh.
  destruct (read_packet_mac packet_receive ps1 buf fb h _ truelen (truelen + padlen) _ _ _ _
    Hfh Hl Hk Hb Hfi Hfs ltac:(lia) ltac:(lia) ltac:(lia) E) as [Hm|[-> Herr]]; [left; by eexists|right; split; [done|by right]].
Qed.
End auth.


(** The start of what the stream sent. *)
Definition witness_input : SilcBuffer :=
  silc_buffer_set (ztake 50 witness_sent).


(** * Packet processors *)

Section processors.
Context `{CipherAlg} `{HashAlg}.

(** Processors by falling priority. *)
Definition by_priority (p q : SilcPacketProcess) : Prop := pp_priority q <= pp_priority p.

Definition processors (ps : SilcPacketStream) : list SilcPacketProcess :=
  match ps_process ps with Some l => l | None => [] end.

Lemma process_insert_in p q l : In q (process_insert p l) <-> q = p \/ In q l.
Proof.
  induction l as [|e l IH]; cbn; [intuition|].
  destruct (_ <? _); cbn; [|rewrite IH]; intuition.
Qed.

Lemma process_insert_sorted p l :
  StronglySorted by_priority l -> StronglySorted by_priority (process_insert p l).
Proof.
  induction 1 as [|e l Hs IH Hf]; cbn; [repeat constructor|].
  destruct (Z.ltb_spec (pp_priority e) (pp_priority p)).
  - constructor; [by constructor|]. constructor; [unfold by_priority; lia|].
    eapply List.Forall_impl; [|exact Hf]. unfold by_priority. intros. lia.
  - constructor; [done|]. apply List.Forall_forall. intros q Hq.
    apply process_insert_in in Hq as [->|Hq]; [done|].
    rewrite List.Forall_forall in Hf. by apply Hf.
Qed.

(** ** The order of linking

    [linked_order l] is the list silc_packet_stream_link makes when the processors
    are linked in the order of [l]. *)
Definition linked_order (l : list SilcPacketProcess) : list SilcPacketProcess :=
  foldl (fun acc p => process_insert p acc) [] l.

Lemma linked_order_snoc l p : linked_order (l ++ [p]) = process_insert p (linked_order l).
Proof. unfold linked_order. by rewrite foldl_app. Qed.

Lemma linked_order_sorted l : StronglySorted by_priority (linked_order l).
Proof.
  induction l as [|p l IH] using rev_ind; [constructor|]. rewrite linked_order_snoc.
  by apply process_insert_sorted.
Qed.

Lemma process_insert_perm p l : process_insert p l ≡ₚ p :: l.
Proof.
  induction l as [|e l IH]; cbn; [done|]. destruct (_ <? _); [done|]. rewrite IH. by constructor.
Qed.

Lemma linked_order_perm l : linked_order l ≡ₚ l.
Proof.
  induction l as [|p l IH] using rev_ind; [done|].
  by rewrite linked_order_snoc, process_insert_perm, IH, Permutation_cons_append.
Qed.

(** Equal priorities keep the order of linking. *)
Definition of_priority (k : Z) (l : list SilcPacketProcess) : list SilcPacketProcess :=
  List.filter (fun p => pp_priority p =? k) l.

Lemma of_priority_above k p l :
  Forall (by_priority p) l -> pp_priority p < k -> of_priority k l = [].
Proof.
  intros Hf Hk. induction Hf as [|e l He Hf IH]; [done|]. unfold by_priority in He. cbn.
  destruct (Z.eqb_spec (pp_priority e) k); [lia|done].
Qed.

Lemma of_priority_insert k p l : StronglySorted by_priority l ->
  of_priority k (process_insert p l) = of_priority k l ++ of_priority k [p].
Proof.
  induction 1 as [|e l Hs IH Hf]; [done|]. cbn [process_insert].
  destruct (Z.ltb_spec (pp_priority e) (pp_priority p)) as [Hlt|Hle].
  - unfold of_priority at 1 3. cbn [List.filter]. destruct (Z.eqb_spec (pp_priority p) k) as [<-|]; [|by rewrite app_nil_r].
    change (p :: of_priority (pp_priority p) (e :: l) = of_priority (pp_priority p) (e :: l) ++ [p]).
    rewrite (of_priority_above (pp_priority p) e (e :: l)); [done| |lia].
    constructor; [unfold by_priority; lia|done].
  - unfold of_priority at 1 2. cbn [List.filter]. fold (of_priority k (process_insert p l)) (of_priority k l).
    rewrite IH. by destruct (pp_priority e =? k).
Qed.

Lemma linked_order_stable k l : of_priority k (linked_order l) = of_priority k l.
Proof.
  induction l as [|p l IH] using rev_ind; [done|]. rewrite linked_order_snoc.
  rewrite of_priority_insert by apply linked_order_sorted. rewrite IH. unfold of_priority.
  by rewrite List.filter_app.
Qed.

(** Unlinking takes one processor out of the order of linking. *)
Lemma process_delete_insert cb p l : StronglySorted by_priority l ->
  process_delete cb (process_insert p l) = l \/
  process_delete cb (process_insert p l) = process_insert p (process_delete cb l).
Proof.
  induction 1 as [|e l Hs IH Hf]; cbn [process_insert process_delete].
  - destruct (_ =? cb); [by left|by right].
  - destruct (Z.ltb_spec (pp_priority e) (pp_priority p)) as [Hlt|Hle]; cbn [process_delete].
    + destruct (pp_callbacks p =? cb); [by left|right]. destruct (pp_callbacks e =? cb).
      * destruct Hf as [|q l Hq _]; [done|]. unfold by_priority in Hq. cbn.
        by rewrite (proj2 (Z.ltb_lt _ _)) by lia.
      * cbn. by rewrite (proj2 (Z.ltb_lt _ _)) by lia.
    + destruct (pp_callbacks e =? cb); [by right|]. destruct IH as [-> | ->]; [by left|right]. cbn.
      by rewrite (proj2 (Z.ltb_ge _ _)) by lia.
Qed.

Lemma linked_order_delete cb l : exists l', l' `sublist_of` l /\
  process_delete cb (linked_order l) = linked_order l'.
Proof.
  induction l as [|p l (l' & Hl & E)] using rev_ind; [by exists []|]. rewrite linked_order_snoc.
  destruct (process_delete_insert cb p (linked_order l) (linked_order_sorted l)) as [-> | ->].
  - exists l. split; [by apply sublist_inserts_r|done].
  - exists (l' ++ [p]). rewrite E, linked_order_snoc. split; [by apply sublist_app|done].
Qed.

Lemma process_delete_perm cb l : cb ∈ map pp_callbacks l ->
  cb :: map pp_callbacks (process_delete cb l) ≡ₚ map pp_callbacks l.
Proof.
  induction l as [|e l IH]; cbn; [by intros ?%not_elem_of_nil|].
  destruct (Z.eqb_spec (pp_callbacks e) cb) as [->|Hne]; [done|].
  intros [->|Hin]%elem_of_cons; [done|]. cbn. rewrite <- IH by done. constructor.
Qed.

(** ** Linking and unlinking in any order *)

Inductive LinkOp :=
| Link (callbacks : option Z) (priority : Z) (types : list Z)
| Unlink (callbacks : Z).

(** [None]: a NULL pointer, or a stream that was freed, is used. *)
Definition run_link (s : StreamMemory) (op : LinkOp) : option StreamMemory :=
  match s, op with
  | Freed, _ => None
  | Stream ps n, Link cb prio types => Some (silc_packet_stream_link ps n cb prio types).2
  | Stream ps n, Unlink cb => silc_packet_stream_unlink ps n cb
  end.

Fixpoint run_links (s : StreamMemory) (ops : list LinkOp) : option StreamMemory :=
  match ops with
  | [] => Some s
  | op :: ops => s ← run_link s op; run_links s ops
  end.

(** The processors that were linked, in that order. *)
Definition linked_by (op : LinkOp) : list SilcPacketProcess :=
  match op with
  | Link (Some cb) prio types =>
      [{| pp_types := match link_types types with [] => None | l => Some l end;
          pp_callbacks := cb; pp_priority := prio |}]
  | _ => []
  end.

(** Only what is linked is unlinked: [linked] is what is, as a multiset. *)
Fixpoint take_one (cb : Z) (l : list Z) : list Z :=
  match l with
  | [] => []
  | c :: l => if c =? cb then l else c :: take_one cb l
  end.

Fixpoint links_paired (linked : list Z) (ops : list LinkOp) : bool :=
  match ops with
  | [] => true
  | Link (Some cb) _ _ :: ops => links_paired (cb :: linked) ops
  | Link None _ _ :: ops => links_paired linked ops
  | Unlink cb :: ops => bool_decide (cb ∈ linked) && links_paired (take_one cb linked) ops
  end.

Lemma take_one_perm cb l : cb ∈ l -> cb :: take_one cb l ≡ₚ l.
Proof.
  induction l as [|c l IH]; cbn; [by intros ?%not_elem_of_nil|].
  destruct (Z.eqb_spec c cb) as [->|Hne]; [done|].
  intros [->|Hin]%elem_of_cons; [done|]. rewrite <- (IH Hin) at 2. constructor.
Qed.

Lemma destroy_stream ps n ps' n' :
  silc_packet_stream_unref ps n = Stream ps' n' -> ps_process ps' = ps_process ps.
Proof.
  unfold silc_packet_stream_unref, silc_packet_stream_destroy.
  destruct (_ >? 0); [by intros [= <- _]|]. destruct (_ >? 0); [|done].
  destruct (ps_destroyed ps); by intros [= <- _].
Qed.

(** Whatever is linked and unlinked, the processors are in order. *)
Lemma run_link_order ps n op ps' n' L :
  processors ps = linked_order L -> run_link (Stream ps n) op = Some (Stream ps' n') ->
  exists L', L' `sublist_of` L ++ linked_by op /\ processors ps' = linked_order L'.
Proof.
  intros HL. destruct op as [[cb|] prio types|cb]; cbn [run_link linked_by].
  - intros [= <- _]. exists (L ++ linked_by (Link (Some cb) prio types)). split; [done|].
    cbn [linked_by]. rewrite linked_order_snoc. unfold processors in HL |- *. cbn. by rewrite HL.
  - intros [= <- _]. exists L. by rewrite app_nil_r.
  - unfold silc_packet_stream_unlink. destruct (ps_process ps) as [l|] eqn:El; [|done].
    intros [= E%destroy_stream]. unfold processors in HL. rewrite El in HL. subst l.
    destruct (linked_order_delete cb L) as (L' & Hs & Ed). exists L'. rewrite app_nil_r. split; [done|].
    unfold processors. rewrite E. cbn. rewrite Ed. by destruct (linked_order L').
Qed.

Lemma run_links_order ops : forall ps n ps' n' L,
  processors ps = linked_order L -> run_links (Stream ps n) ops = Some (Stream ps' n') ->
  exists L', L' `sublist_of` L ++ concat (map linked_by ops) /\ processors ps' = linked_order L'.
Proof.
  induction ops as [|op ops IH]; intros ps n ps' n' L HL; cbn [run_links].
  - intros [= <- <-]. exists L. by rewrite app_nil_r.
  - destruct (run_link (Stream ps n) op) as [[ps1 n1|]|] eqn:E; cbn [mbind option_bind]; [|by destruct ops|done].
    intros Er. destruct (run_link_order ps n op ps1 n1 L HL E) as (L1 & S1 & H1).
    destruct (IH ps1 n1 ps' n' L1 H1 Er) as (L' & S2 & H2). exists L'. split; [|done].
    etransitivity; [exact S2|]. cbn [map concat]. rewrite app_assoc. by apply sublist_app.
Qed.

(** When only what is linked is unlinked, no pointer is NULL, the stream is not
    freed, and there is a reference for each processor. *)
Lemma run_links_paired ops : forall ps m c,
  0 < m -> c ≡ₚ map pp_callbacks (processors ps) -> links_paired c ops = true ->
  m + zlen c + zlen ops < 2 ^ 31 ->
  exists ps', run_links (Stream ps (m + zlen (processors ps))) ops =
      Some (Stream ps' (m + zlen (processors ps'))) /\
    ps' = set_process ps (ps_process ps').
Proof.
  induction ops as [|op ops IH]; intros ps m c Hm Hc Hp Hb; cbn [run_links].
  - exists ps. split; [done|by destruct ps].
  - assert (zlen c = zlen (processors ps)) as Hl by (by rewrite Hc, length_map).
    destruct op as [[cb|] prio types|cb]; cbn [run_link linked_by mbind option_bind links_paired] in *.
    + cbn [silc_packet_stream_link snd]. unfold silc_packet_stream_ref.
      set (p := {| pp_types := _ |}). set (ps1 := set_process ps _).
      assert (processors ps1 = process_insert p (processors ps)) as E1 by done.
      assert (zlen (processors ps1) = zlen (processors ps) + 1) as El1
        by (rewrite E1, process_insert_perm; len).
      destruct (IH ps1 m (cb :: c)) as (ps' & E & Es); [done| |done|len|].
      * rewrite E1, process_insert_perm, Hc. done.
      * exists ps'. rewrite s32_id by (cbn [length] in Hb; lia). split; [|by rewrite Es].
        by rewrite <- E, El1, Z.add_assoc.
    + cbn [silc_packet_stream_link snd]. apply (IH ps m c); (done || len).
    + apply andb_true_iff in Hp as [Hin%bool_decide_eq_true Hp].
      unfold silc_packet_stream_unlink. pose proof Hin as Hin'. rewrite Hc in Hin'.
      unfold processors in Hin', Hl, Hc |- *. destruct (ps_process ps) as [l|] eqn:El;
        [|by apply not_elem_of_nil in Hin']. cbn [mbind option_bind].
      set (ps1 := set_process ps _).
      assert (processors ps1 = process_delete cb l) as E1
        by (unfold processors, ps1; cbn; by destruct (process_delete cb l)).
      pose proof (process_delete_perm cb l Hin') as Hd. pose proof (take_one_perm cb c Hin) as Ht.
      assert (zlen l = zlen (processors ps1) + 1) as El1.
      { rewrite E1. pose proof (Permutation_length Hd) as H1. cbn in H1. rewrite !length_map in H1. lia. }
      assert (zlen c = zlen (take_one cb c) + 1) as Ec by (rewrite <- Ht at 1; len).
      unfold silc_packet_stream_unref. rewrite s32_id by (cbn [length] in Hb; lia).
      destruct (Z.gtb_spec (m + zlen l - 1) 0); [|len].
      destruct (IH ps1 m (take_one cb c)) as (ps' & E & Es); [done| |done|len|].
      * rewrite E1. apply (Permutation_cons_inv (a := cb)). by rewrite Ht, Hd.
      * exists ps'. split; [|by rewrite Es]. unfold processors in E, El1 |- *. rewrite <- E, El1.
        by rewrite Z.add_assoc, Z.add_simpl_r.
Qed.

(** The order packets are offered in: the processors of a positive priority
    that want it, the engine's own callback, the other processors. *)
Definition candidates (l : list SilcPacketProcess) (pk : SilcPacket) : list Z :=
  map pp_callbacks
    (List.filter (fun p => process_wants p pk None)
       (List.filter (fun p => 0 <? pp_priority p) l)) ++
  0 :: map pp_callbacks
    (List.filter (fun p => process_wants p pk None)
       (List.filter (fun p => pp_priority p <=? 0) l)).

(** Who is asked, up to the first one that takes it. *)
Fixpoint offer (takes : Z -> bool) (l : list Z) : list Z * bool :=
  match l with
  | [] => ([], false)
  | c :: l =>
      if takes c then ([c], true)
      else let '(asked, taken) := offer takes l in (c :: asked, taken)
  end.

Variable takes : Z -> bool.

Definition answer (cb : Z) (ps : SilcPacketStream) (pk : SilcPacket) : bool * SilcPacketStream :=
  (takes cb, ps).

Lemma dispatch_loop_sent l : forall ps pk ev,
  dispatch_loop answer l ps pk None true ev =
  let '(asked, taken) :=
    offer takes (map pp_callbacks (List.filter (fun p => process_wants p pk None) l)) in
  (ps, ev ++ map (fun cb => EvReceive cb pk) asked, taken).
Proof.
  induction l as [|p l IH]; intros ps pk ev; [by cbn; rewrite app_nil_r|].
  cbn [dispatch_loop List.filter negb andb].
  destruct (process_wants p pk None); [|by rewrite IH]. cbn [map offer]. unfold answer at 1.
  destruct (takes (pp_callbacks p)); [done|]. rewrite IH.
  destruct (offer takes _) as [asked taken]. by rewrite <- app_assoc.
Qed.

Lemma filter_all_low l p :
  Forall (by_priority p) l -> pp_priority p <= 0 ->
  List.filter (fun p => 0 <? pp_priority p) l = [] /\
  List.filter (fun p => pp_priority p <=? 0) l = l.
Proof.
  intros Hf Hp. induction Hf as [|q l Hq Hf [IH1 IH2]]; [done|]. unfold by_priority in Hq. cbn.
  rewrite IH1, IH2. do 2 zcase; try lia. done.
Qed.

Lemma dispatch_loop_candidates l : forall ps pk ev,
  StronglySorted by_priority l ->
  dispatch_loop answer l ps pk None false ev =
  let '(asked, taken) := offer takes (candidates l pk) in
  (ps, ev ++ map (fun cb => EvReceive cb pk) asked, taken).
Proof.
  induction l as [|p l IH]; intros ps pk ev Hs; cbn [dispatch_loop].
  { unfold candidates, answer. cbn. by destruct (takes 0). }
  inversion Hs as [|? ? Hs' Hf]; subst. cbn [negb andb].
  destruct (Z.leb_spec (pp_priority p) 0) as [Hp|Hp].
  - destruct (filter_all_low l p Hf Hp) as [E1 E2]. unfold candidates. cbn [List.filter].
    rewrite E1, E2. destruct (Z.ltb_spec 0 (pp_priority p)); [lia|].
    destruct (Z.leb_spec (pp_priority p) 0); [|lia]. cbn [map List.filter app offer].
    unfold answer at 1. destruct (takes 0); [done|].
    destruct (process_wants p pk None); cbn [map offer]; [unfold answer at 1;
      destruct (takes (pp_callbacks p)); [by rewrite <- app_assoc|]|];
      rewrite dispatch_loop_sent; destruct (offer takes _) as [asked taken];
      cbn [map]; by rewrite <- !app_assoc.
  - assert (candidates (p :: l) pk =
            (if process_wants p pk None then [pp_callbacks p] else []) ++ candidates l pk) as ->.
    { unfold candidates. cbn [List.filter]. destruct (Z.ltb_spec 0 (pp_priority p)); [|lia].
      destruct (Z.leb_spec (pp_priority p) 0); [lia|]. cbn [List.filter].
      by destruct (process_wants p pk None). }
    destruct (process_wants p pk None); cbn [app offer]; [|by rewrite IH].
    unfold answer at 1. destruct (takes (pp_callbacks p)); [done|]. rewrite IH by done.
    destruct (offer takes _) as [asked taken]. by rewrite <- app_assoc.
Qed.
End processors.


Definition witness_ops : list LinkOp :=
  [Link (Some 11) (-5) [0]; Link (Some 12) 10 [4; 5; -1]; Link (Some 13) 10 [0]; Link None 1 [];
   Link (Some 14) 3 [0]; Unlink 14].

Definition witness_packet : SilcPacket := new_packet buffer_null 0 5.

Definition witness_unlinked : @SilcPacketStream (aes_cbc (H := toy_cipher)) toy_hash :=
  set_process (witness_stream 64) None.

Definition witness_linked : @SilcPacketStream (aes_cbc (H := toy_cipher)) toy_hash :=
  set_process witness_unlinked (Some
    [{| pp_types := Some [4; 5]; pp_callbacks := 12; pp_priority := 10 |};
     {| pp_types := None; pp_callbacks := 13; pp_priority := 10 |};
     {| pp_types := None; pp_callbacks := 11; pp_priority := -5 |}]).


(** Callbacks that were not linked are unlinked: with no other processor the list
    is a NULL pointer that is used; and the reference of the owner is dropped, so
    that the stream is freed while the owner holds it. *)
Example unlink_not_linked :
  silc_packet_stream_unlink witness_unlinked 1 14 = None /\
  silc_packet_stream_unlink (set_process witness_unlinked (Some [])) 1 14 = Some Freed /\
  run_links (Stream witness_unlinked 1) [Link (Some 14) 3 [0]; Unlink 14; Unlink 14] = None.
Proof. split_and!; reflexivity. Qed.
