(* ===== verification/Message.v ===== *)
(** lib/silccore/silcmessage.c: the Message Payload of channel and private
    messages, encrypted, authenticated and signed.

    Memory that is written through a pointer (the payload that is decrypted in
    place, the IV in it) is a list that the operation gives back.  Operations
    that dereference a pointer the caller may leave NULL give [None] when it
    is.  [Freed] records the calls of silc_free, in order. *)

From S2P Require Import Prelude CTypes Buffer BufFmt Id Auth Cipher Hash Hmac Packet.

Definition SILC_MESSAGE_FLAG_SIGNED : Z := 0x0020.

Definition SILC_MESSAGE_PAD (payloadlen : Z) : Z := 16 - payloadlen mod 16.

(** SILC_MESSAGE_HLEN and SILC_MESSAGE_MAX_LEN are macros without parentheses:
    [data_len + SILC_MESSAGE_HLEN], [dlen > SILC_MESSAGE_MAX_LEN] and
    [dlen - SILC_MESSAGE_MAX_LEN], as they expand. *)
Definition plus_SILC_MESSAGE_HLEN (n : Z) : Z := n + 6 + 16.
Definition gt_SILC_MESSAGE_MAX_LEN (n : Z) : bool := SILC_PACKET_MAX_LEN - 6 + 16 - 16 <? n.
Definition minus_SILC_MESSAGE_MAX_LEN (n : Z) : Z := n - SILC_PACKET_MAX_LEN - 6 + 16 - 16.

(** [memcpy(data + pos, x, len)] *)
Definition mem_put (data : list Z) (pos : Z) (x : list Z) : list Z :=
  ztake pos data ++ x ++ zdrop (pos + zlen x) data.

Inductive Freed := FreeSignData | FreePkData | FreeData | FreePad | FreePayload.

(** silc_free of what may be NULL. *)
Definition free_ptr (p : option (list Z)) (f : Freed) : list Freed :=
  match p with Some _ => [f] | None => [] end.

(** What silcpk.h offers beyond [PkcsOps]. *)
Class PkcsKeys `(PkcsOps) := {
  silc_pkcs_public_key_get_len : SilcPublicKey -> Z;
  silc_pkcs_private_key_get_len : SilcPrivateKey -> Z;
  silc_pkcs_get_type : SilcPrivateKey -> Z;
  silc_pkcs_public_key_alloc : Z -> list Z -> option SilcPublicKey;
}.

Record SilcMessageSignedPayload := {
  sig_pk_data : option (list Z);
  sig_sign_data : option (list Z);
  sig_pk_len : Z;
  sig_pk_type : Z;
  sig_sign_len : Z;
}.

Definition sig_null : SilcMessageSignedPayload :=
  {| sig_pk_data := None; sig_sign_data := None; sig_pk_len := 0; sig_pk_type := 0;
     sig_sign_len := 0 |}.

Record SilcMessagePayload := {
  msg_data : option (list Z);
  msg_pad : option (list Z);
  msg_mac : option (list Z);
  msg_sig : SilcMessageSignedPayload;
  msg_flags : Z;
  msg_data_len : Z;
  msg_pad_len : Z;
  msg_allocated : bool;
}.

Section message.
Context `{CipherAlg} `{HashAlg} `{PkcsKeys}.

(** * Static functions *)

(** [None]: SILC_MESSAGE_FLAG_SIGNED without a private key. *)
Definition silc_message_payload_datalen (data_len header_len flags : Z)
    (public_key : option SilcPublicKey) (private_key : option SilcPrivateKey) : option Z :=
  let is_signed := negb (Z.land flags SILC_MESSAGE_FLAG_SIGNED =? 0) in
  let pklen := match public_key with
               | Some k => if is_signed then silc_pkcs_public_key_get_len k else 0
               | None => 0
               end in
  match (if is_signed then match private_key with
                        | Some k => Some (silc_pkcs_private_key_get_len k / 8)
                        | None => None
                        end
         else Some 0) with
  | None => None
  | Some prlen =>
      let dlen := u32 (plus_SILC_MESSAGE_HLEN data_len + header_len + pklen + prlen) in
      Some (if gt_SILC_MESSAGE_MAX_LEN dlen
            then u32 (data_len - u32 (minus_SILC_MESSAGE_MAX_LEN dlen)) else data_len)
  end.

Definition silc_message_signed_payload_free (sig : SilcMessageSignedPayload) : list Freed :=
  free_ptr (sig_sign_data sig) FreeSignData ++ free_ptr (sig_pk_data sig) FreePkData.

(** Gives FALSE or TRUE, the structure and what was freed. *)
Definition silc_message_signed_payload_parse (data : list Z)
  : bool * SilcMessageSignedPayload * list Freed :=
  let data_len := zlen data in
  let '(ret, out, buffer) :=
    silc_buffer_unformat (silc_buffer_set data) [U_UI16_SHORT true; U_UI16_SHORT true] in
  let pk_len := out_num out 0 in
  let pk_type := out_num out 1 in
  let sig := {| sig_pk_data := None; sig_sign_data := None; sig_pk_len := pk_len;
                sig_pk_type := pk_type; sig_sign_len := 0 |} in
  if (ret =? -1) || (u32 (data_len - 4) <? pk_len) then (false, sig, [])
  else
    let buffer := silc_buffer_pull buffer 4 in
    let '(ret, out, buffer) :=
      silc_buffer_unformat buffer [U_DATA_ALLOC true pk_len; U_NSTRING_ALLOC W16 true true] in
    let sig := {| sig_pk_data := out_ptr out 0; sig_sign_data := out_ptr out 2;
                  sig_pk_len := pk_len; sig_pk_type := pk_type;
                  sig_sign_len := out_num out 1 |} in
    if (ret =? -1) || (u32 (silc_buffer_len buffer - pk_len - 2) <? sig_sign_len sig)
    then (false, sig, silc_message_signed_payload_free sig)
    else if sig_sign_len sig <? 1 then (false, sig, silc_message_signed_payload_free sig)
    else (true, sig, []).

Definition silc_message_signed_encode_data (message_payload : list Z)
    (pk : option (list Z)) (pk_len pk_type : Z) : option SilcBuffer :=
  let message_payload_len := zlen message_payload in
  match silc_buffer_alloc_size (u32 (message_payload_len + 4 + pk_len)) with
  | None => None
  | Some sign =>
      let sign := (silc_buffer_format sign
        [F_DATA (Some message_payload) message_payload_len; F_UI16_SHORT pk_len;
         F_UI16_SHORT pk_type]).2 in
      match pk with
      | Some _ =>
          if negb (pk_len =? 0) then
            let sign := silc_buffer_pull sign (u32 (message_payload_len + 4)) in
            let sign := (silc_buffer_format sign [F_DATA pk pk_len]).2 in
            Some (silc_buffer_push sign (u32 (message_payload_len + 4)))
          else Some sign
      | None => Some sign
      end
  end.

(** The buffer of the payload, once the signature is there. *)
Definition signed_payload_format (pk : option (list Z)) (pk_len pk_type : Z)
    (auth_data : list Z) : option SilcBuffer :=
  let auth_len := zlen auth_data in
  match silc_buffer_alloc_size (u32 (4 + pk_len + 2 + auth_len)) with
  | None => None
  | Some buffer =>
      let buffer := (silc_buffer_format buffer [F_UI16_SHORT pk_len; F_UI16_SHORT pk_type]).2 in
      let buffer :=
        match pk with
        | Some _ =>
            if negb (pk_len =? 0) then
              let buffer := silc_buffer_pull buffer 4 in
              let buffer := (silc_buffer_format buffer [F_DATA pk pk_len]).2 in
              silc_buffer_push buffer 4
            else buffer
        | None => buffer
        end in
      let buffer := silc_buffer_pull buffer (u32 (4 + pk_len)) in
      let buffer := (silc_buffer_format buffer
        [F_UI16_SHORT auth_len; F_DATA (Some auth_data) auth_len]).2 in
      Some (silc_buffer_push buffer (u32 (4 + pk_len)))
  end.

Definition silc_message_signed_payload_encode (message_payload : list Z)
    (public_key : option SilcPublicKey) (private_key : option SilcPrivateKey)
    (hash : option SilcHash) : option SilcBuffer :=
  match private_key, hash with
  | Some private_key, Some hash =>
      if zlen message_payload =? 0 then None
      else
        match (match public_key with
               | Some k => match silc_pkcs_public_key_encode k with
                           | Some pk => Some (Some pk)
                           | None => None
                           end
               | None => Some None
               end) with
        | None => None
        | Some pk =>
            let pk_len := zlen (ptr_bytes pk) in
            let pk_type := u16 (silc_pkcs_get_type private_key) in
            match silc_message_signed_encode_data message_payload pk pk_len pk_type with
            | None => None
            | Some sign =>
                match silc_pkcs_sign private_key (b_data sign) 65536 hash with
                | None => None
                | Some auth_data => signed_payload_format pk pk_len pk_type auth_data
                end
            end
        end
  | _, _ => None
  end.

(** * Parsing *)

(** The MAC over the payload and the IDs, or, old style, over the payload. *)
Definition message_mac_matches (data : list Z) (hmac : SilcHmac) (ids : list (list Z))
  : bool * SilcHmac :=
  let mac_len := silc_hmac_len hmac in
  let hmac := silc_hmac_init hmac in
  let hmac := silc_hmac_update hmac (mem_read data (zlen data - mac_len)) in
  let hmac := foldl silc_hmac_update hmac ids in
  let '(mac, hmac) := silc_hmac_final hmac in
  (bool_decide (mem_read (zdrop (zlen data - mac_len) data) mac_len = mac), hmac).

Definition message_check_mac (data : list Z) (hmac : SilcHmac) (sender_id receiver_id : list Z)
  : bool * SilcHmac :=
  match message_mac_matches data hmac [sender_id; receiver_id] with
  | (true, hmac) => (true, hmac)
  | (false, hmac) => message_mac_matches data hmac []
  end.

(** [n] bytes at [pos] decrypted in place, with the IV of the payload at
    [ivp], which is updated there, or else with the cipher's.  The bytes are
    taken to be disjoint from the IV. *)
Definition message_decrypt_at (cipher : SilcCipher) (data : list Z) (pos n : Z)
    (ivp : option Z) : option (list Z * SilcCipher) :=
  let iv := match ivp with Some p => Some (mem_read (zdrop p data) alg_iv_len) | None => None end in
  match silc_cipher_decrypt cipher (mem_read (zdrop pos data) n) iv with
  | None => None
  | Some (dst, iv, cipher) =>
      let data := mem_put data pos dst in
      Some (match ivp, iv with
            | Some p, Some iv => mem_put data p iv
            | _, _ => data
            end, cipher)
  end.

(** The payload decrypted, with its IV, once the MAC is accepted. *)
Definition message_decrypt_payload (data : list Z) (cipher : SilcCipher) (mac_len iv_len : Z)
  : bool * list Z * SilcCipher :=
  let data_len := zlen data in
  let block_len := silc_cipher_get_block_len cipher in
  let ivp := if iv_len =? 0 then None else Some (data_len - iv_len - mac_len) in
  match message_decrypt_at cipher data 0 block_len ivp with
  | None => (false, data, cipher)
  | Some (data, cipher) =>
      let len := SILC_GET16_MSB (zdrop 2 data) in
      let totlen := u16 (2 + (2 + len)) in
      if data_len <? totlen + iv_len + mac_len + 2 then (false, data, cipher)
      else
        let totlen := u16 (totlen + 2) in
        if block_len <=? totlen then
          match message_decrypt_at cipher data block_len
                  (u32 (u32 (totlen - block_len) + SILC_MESSAGE_PAD totlen)) ivp with
          | None => (false, data, cipher)
          | Some (data, cipher) => (true, data, cipher)
          end
        else (true, data, cipher)
  end.

Definition message_iv_len (private_message static_key : bool) (cipher : SilcCipher) : Z :=
  if negb private_message || (private_message && static_key)
  then silc_cipher_get_block_len cipher else 0.

(** Gives TRUE or FALSE, the memory at [data], and the objects it used. *)
Definition silc_message_payload_decrypt (data : list Z) (private_message static_key : bool)
    (cipher : SilcCipher) (hmac : SilcHmac) (sender_id receiver_id : list Z) (check_mac : bool)
  : bool * list Z * SilcCipher * SilcHmac :=
  let mac_len := silc_hmac_len hmac in
  let block_len := silc_cipher_get_block_len cipher in
  let iv_len := message_iv_len private_message static_key cipher in
  if zlen data <? mac_len + iv_len + block_len then (false, data, cipher, hmac)
  else
    let '(mac_ok, hmac) :=
      if check_mac then message_check_mac data hmac sender_id receiver_id else (true, hmac) in
    if negb mac_ok then (false, data, cipher, hmac)
    else
      let '(ok, data, cipher) := message_decrypt_payload data cipher mac_len iv_len in
      (ok, data, cipher, hmac).

Definition silc_message_payload_free (payload : SilcMessagePayload) : list Freed :=
  silc_message_signed_payload_free (msg_sig payload) ++
  (if msg_allocated payload then free_ptr (msg_data payload) FreeData else []) ++
  (if msg_allocated payload then free_ptr (msg_pad payload) FreePad ++ [FreePayload] else []).

(** What a call returns, what it leaves in the structure the caller passed, and
    the memory and objects it worked on. *)
Record ParseResult := {
  pr_ret : option SilcMessagePayload;
  pr_message : option SilcMessagePayload;
  pr_payload : list Z;
  pr_cipher : option SilcCipher;
  pr_hmac : option SilcHmac;
  pr_freed : list Freed;
}.

(** Unformatting the decrypted payload: the structure, whether all was well,
    and what was freed on the way. *)
Definition message_unformat (payload : list Z) (mac_len iv_len : Z) (no_allocation : bool)
  : bool * SilcMessagePayload * list Freed :=
  let '(ret, out, buffer) :=
    silc_buffer_unformat (silc_buffer_set payload)
      (if no_allocation
       then [U_UI16_SHORT true; U_NSTRING W16 true true; U_NSTRING W16 true true]
       else [U_UI16_SHORT true; U_NSTRING_ALLOC W16 true true; U_NSTRING_ALLOC W16 true true]) in
  let data_len := out_num out 1 in
  let pad_len := out_num out 3 in
  let message sig mac :=
    {| msg_data := out_ptr out 2; msg_pad := out_ptr out 4; msg_mac := mac; msg_sig := sig;
       msg_flags := out_num out 0; msg_data_len := data_len; msg_pad_len := pad_len;
       msg_allocated := negb no_allocation |} in
  let len := silc_buffer_len buffer in
  let room := u32 (len - 6 - mac_len - iv_len) in
  if ret =? -1 then (false, message sig_null None, [])
  else if (room <? data_len) || (room <? pad_len + data_len)
  then (false, message sig_null None, [])
  else
    let '(ok, sig, freed) :=
      if negb (Z.land (out_num out 0) SILC_MESSAGE_FLAG_SIGNED =? 0) &&
         (data_len + pad_len + 6 + mac_len + iv_len <? len)
      then silc_message_signed_payload_parse
             (mem_read (zdrop (6 + data_len + pad_len) payload)
                (len - iv_len - mac_len - 6 - data_len - pad_len))
      else (true, sig_null, []) in
    let mac := if ok && negb (mac_len =? 0) then Some (zdrop (len - mac_len) payload) else None in
    (ok, message sig mac, freed).

(** [message_given]: the caller passed a structure.  [None]: a cipher came
    without an HMAC. *)
Definition silc_message_payload_parse (payload : list Z) (private_message static_key : bool)
    (cipher : option SilcCipher) (hmac : option SilcHmac) (sender_id receiver_id : list Z)
    (no_allocation message_given : bool) : option ParseResult :=
  match (match cipher, hmac with
         | Some c, Some h =>
             let '(ok, payload, c, h) :=
               silc_message_payload_decrypt payload private_message static_key c h
                 sender_id receiver_id true in
             Some (ok, payload, Some c, Some h)
         | Some _, None => None
         | None, h => Some (true, payload, None, h)
         end) with
  | None => None
  | Some (false, payload, c, h) =>
      Some {| pr_ret := None; pr_message := None; pr_payload := payload; pr_cipher := c;
              pr_hmac := h; pr_freed := [] |}
  | Some (true, payload, c, h) =>
      let mac_len := match h with Some h => silc_hmac_len h | None => 0 end in
      let iv_len := match c with
                    | Some c => message_iv_len private_message static_key c
                    | None => 0
                    end in
      let '(ok, message, freed) := message_unformat payload mac_len iv_len no_allocation in
      let newp := if message_given then None else Some message in
      Some (if ok
            then {| pr_ret := newp; pr_message := Some message; pr_payload := payload;
                    pr_cipher := c; pr_hmac := h; pr_freed := freed |}
            else {| pr_ret := None; pr_message := Some message; pr_payload := payload;
                    pr_cipher := c; pr_hmac := h;
                    pr_freed := freed ++ match newp with
                                         | Some newp => silc_message_payload_free newp
                                         | None => []
                                         end |})
  end.

(** * Encoding *)

Definition message_id2str (id : SilcID) : list Z :=
  match silc_id_id2str id 32 with Some s => s | None => [] end.

(** [data] is the memory from the start of the payload to the end of the room
    for the MAC. *)
Definition silc_message_payload_encrypt (data : list Z) (data_len true_len : Z)
    (iv : option (list Z)) (sender_id : SilcClientID) (receiver_id : SilcID)
    (cipher : SilcCipher) (hmac : SilcHmac) : option (list Z * option (list Z) * SilcCipher * SilcHmac) :=
  match silc_cipher_encrypt cipher (mem_read data data_len) iv with
  | None => None
  | Some (dst, iv, cipher) =>
      let data := mem_put data 0 dst in
      let sid := message_id2str (IdClient sender_id) in
      let rid := match receiver_id with
                 | IdClient _ | IdChannel _ => message_id2str receiver_id
                 | _ => []
                 end in
      let hmac := silc_hmac_init hmac in
      let hmac := silc_hmac_update hmac (mem_read data true_len) in
      let hmac := silc_hmac_update hmac sid in
      let hmac := silc_hmac_update hmac rid in
      let '(mac, hmac) := silc_hmac_final hmac in
      Some (mem_put data true_len mac, iv, cipher, hmac)
  end.

Record SilcMessageEncode := {
  e_flags : Z;
  e_public_key : option SilcPublicKey;
  e_private_key : option SilcPrivateKey;
  e_hash : option SilcHash;
  e_cipher : option SilcCipher;
  e_hmac : option SilcHmac;
  e_iv : option (list Z);
  e_payload_len : Z;
  e_sid : SilcClientID;
  e_rid : SilcID;
}.

Definition encode_set_objects (e : SilcMessageEncode) (iv : option (list Z)) (cipher : SilcCipher)
    (hmac : SilcHmac) : SilcMessageEncode :=
  {| e_flags := e_flags e; e_public_key := e_public_key e; e_private_key := e_private_key e;
     e_hash := e_hash e; e_cipher := Some cipher; e_hmac := Some hmac; e_iv := iv;
     e_payload_len := e_payload_len e; e_sid := e_sid e; e_rid := e_rid e |}.

(** The callbacks of silc_buffer_format; the first gives also the context it
    leaves. *)
Definition silc_message_payload_encode_encrypt (e : SilcMessageEncode) (buffer : SilcBuffer)
  : Z * SilcBuffer * SilcMessageEncode :=
  match e_cipher e, e_hmac e with
  | Some cipher, Some hmac =>
      let mac_len := silc_hmac_len hmac in
      match silc_buffer_enlarge buffer mac_len with
      | (false, buffer) => (-1, buffer, e)
      | (true, buffer) =>
          let headlen := silc_buffer_headlen buffer in
          match silc_message_payload_encrypt (b_head buffer ++ b_data buffer)
                  (e_payload_len e) headlen (e_iv e) (e_sid e) (e_rid e) cipher hmac with
          | None => (-1, buffer, e)
          | Some (data, iv, cipher, hmac) =>
              (mac_len, {| b_head := ztake (zlen (b_head buffer)) data;
                           b_data := zdrop (zlen (b_head buffer)) data;
                           b_tail := b_tail buffer |}, encode_set_objects e iv cipher hmac)
          end
      end
  | _, _ => (0, buffer, e)
  end.

Definition silc_message_payload_encode_sig (e : SilcMessageEncode) (buffer : SilcBuffer)
  : Z * SilcBuffer :=
  if Z.land (e_flags e) SILC_MESSAGE_FLAG_SIGNED =? 0 then (0, buffer)
  else
    match silc_message_signed_payload_encode (b_head buffer) (e_public_key e) (e_private_key e)
            (e_hash e) with
    | None => (-1, buffer)
    | Some sig => silc_buffer_format buffer [F_DATA (Some (b_data sig)) (silc_buffer_len sig)]
    end.

(** The context after the callback that encrypts, which silc_buffer_format
    calls last, on the buffer the parameters before it leave. *)
Definition encode_context (e : SilcMessageEncode) (buffer : SilcBuffer)
    (before : list FormatParam) : SilcMessageEncode :=
  match format_loop {| fs_dst := buffer; fs_flen := 0; fs_advance := false |} before with
  | (true, st) => (silc_message_payload_encode_encrypt e (fs_dst st)).2
  | (false, _) => e
  end.

(** [rnd] is what the random number generator gives.  The outer [None] is
    SILC_MESSAGE_FLAG_SIGNED without a private key; the inner one is NULL. *)
Definition silc_message_payload_encode (flags : Z) (data : list Z) (data_len : Z)
    (generate_iv private_message : bool) (cipher : option SilcCipher) (hmac : option SilcHmac)
    (rnd : list Z) (public_key : option SilcPublicKey) (private_key : option SilcPrivateKey)
    (hash : option SilcHash) (sender_id : SilcClientID) (receiver_id : SilcID)
    (buffer : option SilcBuffer)
  : option (option SilcBuffer * option SilcCipher * option SilcHmac) :=
  let fail := Some (None, cipher, hmac) in
  if data_len =? 0 then fail
  else if negb private_message && match cipher, hmac with Some _, Some _ => false | _, _ => true end
  then fail
  else
    match (match buffer with Some b => Some b | None => silc_buffer_alloc 0 end) with
    | None => fail
    | Some buffer =>
        let buffer := silc_buffer_reset buffer in
        let generate_iv := if negb private_message then true else generate_iv in
        let iv_len := match cipher with
                      | Some c => if generate_iv then silc_cipher_get_block_len c else 0
                      | None => 0
                      end in
        let iv := mem_read rnd iv_len in
        let mac_len := match hmac with Some h => silc_hmac_len h | None => 0 end in
        match silc_message_payload_datalen data_len (mac_len + iv_len) flags
                public_key private_key with
        | None => None
        | Some data_len =>
            let pad_len := SILC_MESSAGE_PAD (u32 (6 + data_len)) in
            let pad := match cipher with
                       | Some _ => mem_read (zdrop iv_len rnd) pad_len
                       | None => zrepeat indet pad_len
                       end in
            let e := {| e_flags := flags; e_public_key := public_key;
                        e_private_key := private_key; e_hash := hash; e_cipher := cipher;
                        e_hmac := hmac; e_iv := if iv_len =? 0 then None else Some iv;
                        e_payload_len := u16 (6 + data_len + pad_len);
                        e_sid := sender_id; e_rid := receiver_id |} in
            let before :=
              [F_UI16_SHORT flags; F_UI16_SHORT data_len; F_DATA (Some data) data_len;
               F_UI16_SHORT pad_len; F_DATA (Some pad) pad_len;
               F_FUNC (silc_message_payload_encode_sig e); F_DATA (Some iv) iv_len] in
            let '(ret, buffer') := silc_buffer_format buffer
              (before ++ [F_FUNC (fun b => (silc_message_payload_encode_encrypt e b).1)]) in
            let e := encode_context e buffer before in
            Some (if ret <? 0 then None else Some buffer', e_cipher e, e_hmac e)
        end
    end.

(** * Access *)

Definition silc_message_get_flags (payload : SilcMessagePayload) : Z := msg_flags payload.
Definition silc_message_get_data (payload : SilcMessagePayload) : option (list Z) * Z :=
  (msg_data payload, msg_data_len payload).
Definition silc_message_get_mac (payload : SilcMessagePayload) : option (list Z) := msg_mac payload.

(** SILC_AUTH_OK is [true]. *)
Definition silc_message_signed_verify (message : SilcMessagePayload)
    (remote_public_key : option SilcPublicKey) (hash : option SilcHash) : bool :=
  let sig := msg_sig message in
  match remote_public_key, hash with
  | Some key, Some hash =>
      if (Z.land (msg_flags message) SILC_MESSAGE_FLAG_SIGNED =? 0) || (sig_sign_len sig =? 0)
      then false
      else
        match silc_buffer_alloc_size (u32 (6 + msg_data_len message + msg_pad_len message)) with
        | None => false
        | Some tmp =>
            let tmp := (silc_buffer_format tmp
              [F_UI16_SHORT (msg_flags message); F_UI16_SHORT (msg_data_len message);
               F_DATA (msg_data message) (msg_data_len message);
               F_UI16_SHORT (msg_pad_len message);
               F_DATA (msg_pad message) (msg_pad_len message)]).2 in
            match silc_message_signed_encode_data (b_data tmp) (sig_pk_data sig)
                    (sig_pk_len sig) (sig_pk_type sig) with
            | None => false
            | Some sign =>
                silc_pkcs_verify key (mem_read (ptr_bytes (sig_sign_data sig)) (sig_sign_len sig))
                  (b_data sign) hash
            end
        end
  | _, _ => false
  end.

Definition silc_message_signed_get_public_key (payload : SilcMessagePayload)
  : option (SilcPublicKey * list Z * Z) :=
  let sig := msg_sig payload in
  match sig_pk_data sig with
  | None => None
  | Some pk_data =>
      match silc_pkcs_public_key_alloc (sig_pk_type sig) (mem_read pk_data (sig_pk_len sig)) with
      | None => None
      | Some pk => Some (pk, pk_data, sig_pk_len sig)
      end
  end.
End message.
