(* ===== verification/MessageSpec.v ===== *)
(** What silcmessage.c sends: the wire form of a message, of what is signed and of
    the SILC_MESSAGE_FLAG_SIGNED Payload, and that silc_message_payload_encode,
    with its callbacks, makes it. *)

From S2P Require Import Prelude CTypes Buffer BufFmt BufFmtSpec Id Auth Cipher CipherBlocks Hash Hmac Packet Message.

(** * Wire forms *)

Definition plain_wire (flags : Z) (data pad : list Z) : list Z :=
  SILC_PUT16_MSB flags ++ SILC_PUT16_MSB (zlen data) ++ data ++
  SILC_PUT16_MSB (zlen pad) ++ pad.

(** What is signed, and the SILC_MESSAGE_FLAG_SIGNED Payload. *)
Definition sign_wire (payload pk : list Z) (pk_type : Z) : list Z :=
  payload ++ SILC_PUT16_MSB (zlen pk) ++ SILC_PUT16_MSB pk_type ++ pk.

Definition sig_wire (pk : list Z) (pk_type : Z) (sig : list Z) : list Z :=
  SILC_PUT16_MSB (zlen pk) ++ SILC_PUT16_MSB pk_type ++ pk ++
  SILC_PUT16_MSB (zlen sig) ++ sig.

Lemma plain_wire_len flags data pad :
  zlen (plain_wire flags data pad) = 6 + zlen data + zlen pad.
Proof. unfold plain_wire. len. Qed.

Lemma sig_wire_len pk t sig : zlen (sig_wire pk t sig) = 6 + zlen pk + zlen sig.
Proof. unfold sig_wire. len. Qed.

Lemma SILC_PUT16_MSB_u16 n : SILC_PUT16_MSB (u16 n) = SILC_PUT16_MSB n.
Proof.
  unfold SILC_PUT16_MSB. rewrite !Z.shiftr_div_pow2 by lia. unfold u8, u16.
  change (2 ^ 16) with 65536. change (2 ^ 8) with 256.
  f_equal; [|f_equal]; Z.to_euclidean_division_equations; lia.
Qed.

Lemma zdrop_zrepeat {A} (x : A) n m : 0 <= n -> zdrop n (zrepeat x m) = zrepeat x (m - n).
Proof. intros. unfold zdrop, zrepeat. rewrite drop_replicate. f_equal. lia. Qed.

(** Formatting over the front of the data area. *)
Lemma format_front h x t ap :
  buf_ok {| b_head := h; b_data := x; b_tail := t |} ->
  Forall fmt_plain ap -> zlen (fmt_bytes ap) <= zlen x ->
  (silc_buffer_format {| b_head := h; b_data := x; b_tail := t |} ap).2 =
  {| b_head := h; b_data := fmt_bytes ap ++ zdrop (zlen (fmt_bytes ap)) x; b_tail := t |}.
Proof.
  intros Hok Hp Hl. rewrite format_plain; [|done|unfold buf_fits; buf_arith|buf_arith].
  cbn [snd b_head b_data b_tail]. f_equal. unfold zdrop.
  by replace (Z.to_nat _) with 0%nat by lia.
Qed.

(** Two formats, one behind the other, fill a buffer of the right size. *)
Lemma format_at h (a b : list Z) t ap :
  buf_ok {| b_head := h; b_data := a ++ b; b_tail := t |} ->
  Forall fmt_plain ap -> zlen (fmt_bytes ap) <= zlen b ->
  silc_buffer_push (silc_buffer_format
    (silc_buffer_pull {| b_head := h; b_data := a ++ b; b_tail := t |} (zlen a)) ap).2 (zlen a) =
  {| b_head := h; b_data := a ++ fmt_bytes ap ++ zdrop (zlen (fmt_bytes ap)) b; b_tail := t |}.
Proof.
  intros Hok Hp Hl. rewrite buffer_pull_app by done. rewrite format_front; [|buf_arith|done|done].
  by apply buffer_push_app.
Qed.

Section signing.
Context `{PkcsKeys}.

Lemma fmt_short_short n t :
  fmt_bytes [F_UI16_SHORT n; F_UI16_SHORT t] = SILC_PUT16_MSB n ++ SILC_PUT16_MSB t.
Proof. unfold fmt_bytes. cbn [map concat fmt_bytes1]. by rewrite !SILC_PUT16_MSB_u16, app_nil_r. Qed.

Lemma fmt_data s : fmt_bytes [F_DATA (Some s) (zlen s)] = s.
Proof. unfold fmt_bytes. cbn [map concat fmt_bytes1]. by rewrite mem_read_exact, app_nil_r. Qed.

Lemma fmt_data_plain s : Forall fmt_plain [F_DATA (Some s) (zlen s)].
Proof. repeat constructor. simpl. lia. Qed.

(** The optional public key behind [a], in a buffer with room for it. *)
Lemma put_public_key (a : list Z) (b : Z) pk n :
  n = zlen a -> zlen (ptr_bytes pk) <= b -> zlen a + b < SILC_MAX_ALLOC ->
  let sb := {| b_head := []; b_data := a ++ zrepeat 0 b; b_tail := [] |} in
  match pk with
  | Some _ =>
      if negb (zlen (ptr_bytes pk) =? 0)
      then silc_buffer_push (silc_buffer_format (silc_buffer_pull sb n)
             [F_DATA pk (zlen (ptr_bytes pk))]).2 n
      else sb
  | None => sb
  end = {| b_head := []; b_data := a ++ ptr_bytes pk ++ zrepeat 0 (b - zlen (ptr_bytes pk));
           b_tail := [] |}.
Proof.
  intros -> Hl Hb. destruct pk as [s|]; cbn [ptr_bytes] in *; [|by rewrite Z.sub_0_r].
  destruct (Z.eqb_spec (zlen s) 0) as [E|]; cbn [negb].
  { rewrite (zlen_0_nil s) by done. by rewrite Z.sub_0_r. }
  rewrite format_at; [|buf_arith|apply fmt_data_plain|rewrite fmt_data; len].
  rewrite fmt_data. by rewrite zdrop_zrepeat by lia.
Qed.

Lemma signed_encode_data_spec payload pk t :
  zlen payload + 4 + zlen (ptr_bytes pk) < SILC_MAX_ALLOC ->
  silc_message_signed_encode_data payload pk (zlen (ptr_bytes pk)) t =
  Some (silc_buffer_set (sign_wire payload (ptr_bytes pk) t)).
Proof.
  intros Hl. unfold silc_message_signed_encode_data. unfold SILC_MAX_ALLOC in *.
  rewrite !u32_id by lia. rewrite buffer_alloc_size_ok by (unfold SILC_MAX_ALLOC; lia).
  set (n := zlen (ptr_bytes pk)) in *.
  assert (fmt_bytes [F_DATA (Some payload) (zlen payload); F_UI16_SHORT n; F_UI16_SHORT t] =
    payload ++ SILC_PUT16_MSB n ++ SILC_PUT16_MSB t) as E.
  { unfold fmt_bytes. cbn [map concat fmt_bytes1].
    by rewrite mem_read_exact, !SILC_PUT16_MSB_u16, app_nil_r. }
  rewrite format_front, E; [|buf_arith|repeat constructor; simpl; lia|rewrite E; len].
  set (a := payload ++ SILC_PUT16_MSB n ++ SILC_PUT16_MSB t).
  assert (zlen a = zlen payload + 4) as La by (unfold a; len).
  rewrite zdrop_zrepeat by lia.
  pose proof (put_public_key a (zlen payload + 4 + n - zlen a) pk (zlen payload + 4)) as P.
  cbv zeta in P. fold n in P.
  assert (n - n = 0) as Hn by lia. replace (zlen payload + 4 + n - zlen a) with n in * by lia.
  rewrite Hn, app_nil_r in P. unfold sign_wire. fold n.
  replace (payload ++ SILC_PUT16_MSB n ++ SILC_PUT16_MSB t ++ ptr_bytes pk) with (a ++ ptr_bytes pk)
    by (unfold a; by rewrite <- !app_assoc).
  destruct pk as [s|]; [destruct (negb _)|]; f_equal; apply P; unfold SILC_MAX_ALLOC; lia.
Qed.

Lemma signed_payload_format_spec pk t sig :
  zlen (ptr_bytes pk) < 65536 -> zlen sig < 65536 + 1 ->
  signed_payload_format pk (zlen (ptr_bytes pk)) t sig =
  Some (silc_buffer_set (sig_wire (ptr_bytes pk) t sig)).
Proof.
  intros Hp Hs. unfold signed_payload_format. set (n := zlen (ptr_bytes pk)) in *.
  rewrite !u32_id by lia. rewrite buffer_alloc_size_ok by (unfold SILC_MAX_ALLOC; lia).
  rewrite format_front, fmt_short_short;
    [|unfold SILC_MAX_ALLOC; buf_arith|by repeat constructor|rewrite fmt_short_short; len].
  set (a := SILC_PUT16_MSB n ++ SILC_PUT16_MSB t).
  assert (zlen a = 4) as La by (unfold a; len).
  rewrite zdrop_zrepeat by lia.
  pose proof (put_public_key a (4 + n + 2 + zlen sig - zlen a) pk 4) as P. cbv zeta in P. fold n in P.
  rewrite P by (unfold SILC_MAX_ALLOC; lia). rewrite La.
  replace (4 + n + 2 + zlen sig - 4 - n) with (2 + zlen sig) by lia.
  assert (fmt_bytes [F_UI16_SHORT (zlen sig); F_DATA (Some sig) (zlen sig)] =
    SILC_PUT16_MSB (zlen sig) ++ sig) as E.
  { unfold fmt_bytes. cbn [map concat fmt_bytes1].
    by rewrite mem_read_exact, SILC_PUT16_MSB_u16, app_nil_r. }
  rewrite app_assoc. replace (4 + n) with (zlen (a ++ ptr_bytes pk)) by (rewrite length_app; lia).
  rewrite format_at, E; [|unfold SILC_MAX_ALLOC; buf_arith|repeat constructor; simpl; lia|rewrite E; len].
  rewrite zdrop_zrepeat by lia. rewrite length_app. change (length (SILC_PUT16_MSB (zlen sig))) with 2%nat.
  replace (2 + zlen sig - Z.of_nat (2 + length sig)) with 0 by lia. rewrite app_nil_r.
  unfold silc_buffer_set, sig_wire, a. by rewrite <- !app_assoc.
Qed.

(** ** Reading the SILC_MESSAGE_FLAG_SIGNED Payload *)

Lemma signed_parse_wire pk t sig :
  zlen pk < 65536 -> 1 <= zlen sig < 65536 -> 0 <= t < 65536 ->
  silc_message_signed_payload_parse (sig_wire pk t sig) =
  (true, {| sig_pk_data := if zlen pk =? 0 then None else Some pk; sig_sign_data := Some sig;
            sig_pk_len := zlen pk; sig_pk_type := t; sig_sign_len := zlen sig |}, []).
Proof.
  intros Hp Hs Ht. pose proof (sig_wire_len pk t sig) as Hl.
  unfold silc_message_signed_payload_parse. rewrite Hl.
  assert (buf_ok (silc_buffer_set (sig_wire pk t sig))) as Hok
    by (apply buffer_set_ok; unfold SILC_MAX_ALLOC; lia).
  rewrite (unformat_some _ _ [ONum (zlen pk); ONum t] (pk ++ SILC_PUT16_MSB (zlen sig) ++ sig) Hok).
  2: { by repeat constructor. }
  2: { unfold sig_wire. cbn [b_data silc_buffer_set]. rewrite !parse_U16.
       by rewrite !u16_id by lia. }
  cbn [b_data silc_buffer_set]. rewrite u32_id by lia.
  set (d := pk ++ SILC_PUT16_MSB (zlen sig) ++ sig).
  assert (zlen d = zlen pk + 2 + zlen sig) as Ld by (unfold d; len).
  rewrite Hl, Ld. ret_case; [lia|]. cbn [out_num nth_error orb].
  destruct (Z.ltb_spec (6 + zlen pk + zlen sig - 4) (zlen pk)); [lia|].
  set (b := silc_buffer_pull _ _).
  assert (b = {| b_head := SILC_PUT16_MSB (zlen pk) ++ SILC_PUT16_MSB t; b_data := d;
                 b_tail := [] |}) as Eb.
  { unfold b, silc_buffer_set, sig_wire in Hok |- *. rewrite app_assoc in Hok |- *.
    by rewrite buffer_pull_app. }
  assert (buf_ok b) as Hokb by (rewrite Eb; unfold SILC_MAX_ALLOC; buf_arith).
  rewrite (unformat_some b _ [OPtr (dup_bytes pk); ONum (zlen sig); OPtr (Some sig)] [] Hokb).
  2: { repeat constructor; simpl; lia. }
  2: { rewrite Eb. cbn [b_data]. unfold d. rewrite parse_DATA_ALLOC by done.
       rewrite <- (app_nil_r sig) at 2. rewrite parse_NSTRING16_ALLOC by lia.
       by rewrite (dup_bytes_some sig) by (unfold SILC_MAX_ALLOC; lia). }
  assert (zlen (b_data b) = zlen d) as Lb by (by rewrite Eb).
  rewrite buffer_len_ok by done. rewrite Lb, Ld.
  ret_case; [cbn [length] in *; lia|]. cbn [out_num out_ptr nth_error orb sig_sign_len].
  rewrite u32_id by lia.
  destruct (Z.ltb_spec (zlen pk + 2 + zlen sig - zlen pk - 2) (zlen sig)); [lia|].
  destruct (Z.ltb_spec (zlen sig) 1); [lia|].
  assert (dup_bytes pk = if zlen pk =? 0 then None else Some pk) as ->; [|done].
  destruct (Z.eqb_spec (zlen pk) 0); [by apply dup_bytes_nil|].
  apply dup_bytes_some. unfold SILC_MAX_ALLOC. lia.
Qed.

(** What the sender signs with; without a public key nothing of it is sent. *)
Definition opt_encode (public_key : option SilcPublicKey) : option (option (list Z)) :=
  match public_key with
  | Some k => match silc_pkcs_public_key_encode k with Some pk => Some (Some pk) | None => None end
  | None => Some None
  end.

Lemma signed_payload_encode_spec payload public_key prv hash pk sig :
  payload <> [] -> zlen payload < 131072 ->
  opt_encode public_key = Some pk -> zlen (ptr_bytes pk) < 65536 ->
  silc_pkcs_sign prv (sign_wire payload (ptr_bytes pk) (u16 (silc_pkcs_get_type prv))) 65536 hash =
    Some sig -> zlen sig < 65536 ->
  silc_message_signed_payload_encode payload public_key (Some prv) (Some hash) =
  Some (silc_buffer_set (sig_wire (ptr_bytes pk) (u16 (silc_pkcs_get_type prv)) sig)).
Proof.
  intros Hne Hl Hpk Hpl Hsig Hsl. unfold silc_message_signed_payload_encode.
  fold (opt_encode public_key). rewrite Hpk.
  destruct (Z.eqb_spec (zlen payload) 0) as [E|]; [by apply zlen_0_nil in E|].
  rewrite signed_encode_data_spec by (unfold SILC_MAX_ALLOC; lia). cbn [b_data silc_buffer_set].
  rewrite Hsig. apply signed_payload_format_spec; lia.
Qed.
End signing.

(** * The data length *)

Definition is_signed (flags : Z) : bool := negb (Z.land flags SILC_MESSAGE_FLAG_SIGNED =? 0).

(** What silc_message_payload_datalen reserves for the key and the signature. *)
Definition key_room `{PkcsKeys} (flags : Z) (pub : option SilcPublicKey)
    (prv : option SilcPrivateKey) : Z :=
  if is_signed flags
  then match pub with Some k => silc_pkcs_public_key_get_len k | None => 0 end +
       match prv with Some k => silc_pkcs_private_key_get_len k / 8 | None => 0 end
  else 0.

Lemma datalen_eq `{PkcsKeys} n h flags pub prv :
  (is_signed flags = true -> prv <> None) ->
  silc_message_payload_datalen n h flags pub prv =
  let d := u32 (n + 22 + h + key_room flags pub prv) in
  Some (if 65529 <? d then u32 (n - u32 (d - 65541)) else n).
Proof.
  intros Hs. unfold silc_message_payload_datalen, key_room. fold (is_signed flags).
  unfold plus_SILC_MESSAGE_HLEN, gt_SILC_MESSAGE_MAX_LEN, minus_SILC_MESSAGE_MAX_LEN.
  change (SILC_PACKET_MAX_LEN - 6 + 16 - 16) with 65529. cbv zeta.
  assert (forall d, d - SILC_PACKET_MAX_LEN - 6 + 16 - 16 = d - 65541) as E
    by (intros; unfold SILC_PACKET_MAX_LEN; lia).
  assert (forall a b d d', d = d' -> Some (if 65529 <? u32 d then u32 (n - u32 (a (u32 d))) else b) =
    Some (if 65529 <? u32 d' then u32 (n - u32 (a (u32 d'))) else b)) as C by (by intros a b d d' ->).
  assert (forall d, n + 22 + h + d = n + 6 + 16 + h + d) as D by (intros; lia).
  rewrite D.
  destruct (is_signed flags); [destruct prv as [k|]; [|by destruct Hs]|]; destruct pub;
    rewrite E; apply (C (fun d => d - 65541)); lia.
Qed.

Lemma datalen_fits `{PkcsKeys} n h flags pub prv :
  (is_signed flags = true -> prv <> None) -> 0 <= n + 22 + h + key_room flags pub prv <= 65529 ->
  silc_message_payload_datalen n h flags pub prv = Some n.
Proof.
  intros Hs Hd. rewrite datalen_eq by done. cbv zeta. rewrite u32_id by lia.
  by destruct (Z.ltb_spec 65529 (n + 22 + h + key_room flags pub prv)); [lia|].
Qed.

(** * Formatting with callbacks *)

Lemma format_loop_app st a b :
  format_loop st (a ++ b) =
  match format_loop st a with (true, st) => format_loop st b | (false, st) => (false, st) end.
Proof.
  revert st; induction a as [|f a IH]; intros st; [done|]. cbn [format_loop app].
  by destruct (format_step st f) as [[] ?].
Qed.

(** A callback; the data pointer is moved by what it returns. *)
Lemma format_step_func st f n dst :
  f (fs_dst st) = (n, dst) -> 0 <= n -> st_room st n ->
  format_step st (F_FUNC f) = (true, fs_set_dst st (silc_buffer_pull dst n) (fs_flen st + n)).
Proof.
  intros Hf Hn [? ?]. cbn [format_step]. rewrite Hf. destruct (Z.ltb_spec n 0); [lia|].
  destruct (Z.eqb_spec n 0) as [->|].
  - by rewrite buffer_pull_0, Z.add_0_r.
  - by rewrite s32_id by lia.
Qed.

(** A callback that writes [x] at the data pointer. *)
Lemma format_step_write st f n dst x :
  f (fs_dst st) = (n, dst) -> n = zlen x -> silc_buffer_pull dst n = buf_write (fs_dst st) x ->
  st_room st n -> format_step st (F_FUNC f) = (true, st_write st x).
Proof.
  intros Hf Hn Hp Hr. rewrite (format_step_func st f n dst) by (done || lia).
  unfold st_write, fs_set_dst. by rewrite Hp, Hn.
Qed.

Lemma format_then_pull b ap :
  Forall fmt_plain ap -> buf_fits b (zlen (fmt_bytes ap)) -> zlen (fmt_bytes ap) < SILC_MAX_ALLOC ->
  exists dst, silc_buffer_format b ap = (zlen (fmt_bytes ap), dst) /\
    silc_buffer_pull dst (zlen (fmt_bytes ap)) = buf_write b (fmt_bytes ap).
Proof.
  intros Hp Hf Hl. rewrite format_plain by done. eexists. split; [done|].
  apply buffer_pull_app; [|done]. unfold buf_fits in Hf. buf_arith.
Qed.

Lemma mem_put_front (a b x : list Z) : zlen x = zlen a -> mem_put (a ++ b) 0 x = x ++ b.
Proof. intros Hx. unfold mem_put. rewrite ztake_0. by rewrite zdrop_app_exact by lia. Qed.

Lemma mem_put_at (a b c x : list Z) n :
  n = zlen a -> zlen x = zlen b -> mem_put (a ++ b ++ c) n x = a ++ x ++ c.
Proof.
  intros -> Hx. unfold mem_put. rewrite ztake_app_exact by done. do 2 f_equal.
  rewrite app_assoc. apply zdrop_app_exact. rewrite length_app. lia.
Qed.

(** * Encoding *)

Lemma zlen_mem_read_max l n : zlen (mem_read l n) = Z.max 0 n.
Proof. unfold mem_read. len. Qed.

Lemma message_id2str_len id : zlen (message_id2str id) <= 64.
Proof.
  unfold message_id2str, silc_id_id2str.
  destruct (Z.ltb_spec 32 (silc_id_get_len id)); [simpl; lia|].
  destruct (Z.ltb_spec SILC_PACKET_MAX_ID_LEN (silc_id_get_len id)); [simpl; lia|].
  destruct id as [s|c|c|?]; cbn [silc_id_get_len] in *; [..|simpl; lia];
    rewrite !length_app, !Nat2Z.inj_add, !zlen_mem_read_max, ?length_PUT16_MSB;
    unfold ID_SERVER_LEN_PART, ID_CLIENT_LEN_PART, ID_CHANNEL_LEN_PART, CLIENTID_HASH_LEN in *;
    cbn [length]; lia.
Qed.

Section encode.
Context `{CipherBlocks} `{HashLaws} `{PkcsKeys}.

(** The objects of a message: the key of the MAC, and its length. *)
Definition hmac_ready (h : SilcHmac) : Prop :=
  0 <= hmac_len h <= alg_hash_len /\ zlen (key_bytes h) < 2 ^ 31.

Definition message_ids (sid : SilcClientID) (rid : SilcID) : list Z :=
  message_id2str (IdClient sid) ++
  match rid with IdClient _ | IdChannel _ => message_id2str rid | _ => [] end.

Definition message_mac (h : SilcHmac) (data ids : list Z) : list Z :=
  hmac_fn (hmac_len h) (key_bytes h) (data ++ ids).

(** A cipher with the IV it uses: the message's, or its own. *)
Definition used_iv (c : SilcCipher) (iv : list Z) : list Z :=
  if zlen iv =? 0 then c_iv c else iv.

Definition after_cipher (c : SilcCipher) (iv iv2 : list Z) (ctx : cipher_context) : SilcCipher :=
  {| c_context := ctx; c_iv := if zlen iv =? 0 then iv2 else c_iv c |}.

Lemma encrypt_used c x iv y iv2 ctx :
  alg_encrypt (c_context c) x (used_iv c iv) = Some (y, iv2, ctx) ->
  exists o, silc_cipher_encrypt c x (if zlen iv =? 0 then None else Some iv) =
    Some (y, o, after_cipher c iv iv2 ctx).
Proof.
  unfold used_iv, silc_cipher_encrypt, after_cipher.
  destruct (zlen iv =? 0); intros ->; by eexists.
Qed.

Lemma message_mac_len h data ids : hmac_ready h -> zlen (message_mac h data ids) = hmac_len h.
Proof. intros [Hl _]. by apply hmac_fn_len. Qed.

(** silc_message_payload_encrypt, given what the cipher does. *)
Lemma payload_encrypt_spec plain rest room k n tl iv sid rid c h y iv2 ctx :
  n = zlen plain -> tl = zlen (plain ++ rest) -> zlen y = zlen plain ->
  zlen (plain ++ rest) < 2 ^ 31 -> hmac_ready h -> zlen room = hmac_len h ->
  alg_encrypt (c_context c) plain (used_iv c iv) = Some (y, iv2, ctx) ->
  exists o h',
    silc_message_payload_encrypt ((plain ++ rest) ++ room ++ k) n tl
      (if zlen iv =? 0 then None else Some iv) sid rid c h =
    Some ((y ++ rest) ++ message_mac h (y ++ rest) (message_ids sid rid) ++ k, o,
          after_cipher c iv iv2 ctx, h') /\
    hmac_len h' = hmac_len h /\ hmac_key h' = hmac_key h.
Proof.
  intros -> -> Hy Hl [Hh Hk] Hr He. unfold silc_message_payload_encrypt.
  rewrite length_app, Nat2Z.inj_add in Hl.
  rewrite mem_read_le by (rewrite !length_app; lia).
  rewrite <- (app_assoc plain rest), ztake_app_exact by done.
  destruct (encrypt_used _ _ _ _ _ _ He) as [o ->]. rewrite mem_put_front by done.
  assert (zlen (plain ++ rest) = zlen (y ++ rest)) as -> by (rewrite !length_app; lia).
  rewrite (app_assoc y). rewrite mem_read_le by (rewrite !length_app; lia).
  rewrite ztake_app_exact by done.
  set (rs := match rid with IdClient _ | IdChannel _ => message_id2str rid | _ => [] end).
  assert (zlen rs <= 64) as Hrs
    by (unfold rs; pose proof (message_id2str_len rid); destruct rid; simpl; lia).
  pose proof (message_id2str_len (IdClient sid)) as Hss.
  destruct (hmac_pieces h [y ++ rest; message_id2str (IdClient sid); rs]) as (h' & E & El & Ek);
    [done|done| |].
  { repeat apply Forall_cons_2; [|lia|lia|apply Forall_nil_2]. rewrite length_app. lia. }
  cbn [foldl] in E. rewrite E. exists o, h'. split; [|done].
  unfold message_mac, message_ids. fold rs. cbn [concat]. rewrite app_nil_r.
  rewrite mem_put_at; [done|done|]. by rewrite hmac_fn_len.
Qed.

Lemma encrypt_callback e b plain rest iv c h y iv2 ctx :
  b_head b = plain ++ rest -> buf_fits b (hmac_len h) -> e_payload_len e = zlen plain ->
  e_cipher e = Some c -> e_hmac e = Some h -> hmac_ready h ->
  e_iv e = (if zlen iv =? 0 then None else Some iv) ->
  alg_encrypt (c_context c) plain (used_iv c iv) = Some (y, iv2, ctx) -> zlen y = zlen plain ->
  exists dst e' h', silc_message_payload_encode_encrypt e b = (hmac_len h, dst, e') /\
    silc_buffer_pull dst (hmac_len h) =
      buf_write {| b_head := y ++ rest; b_data := b_data b; b_tail := b_tail b |}
        (message_mac h (y ++ rest) (message_ids (e_sid e) (e_rid e))) /\
    e_cipher e' = Some (after_cipher c iv iv2 ctx) /\ e_hmac e' = Some h' /\
    hmac_len h' = hmac_len h /\ hmac_key h' = hmac_key h.
Proof.
  intros Hb Hf Hn Hc Hh Hr Hiv He Hy. pose proof Hr as [[? ?] _].
  unfold silc_message_payload_encode_encrypt. rewrite Hc, Hh. unfold silc_hmac_len.
  destruct (buffer_enlarge_write b (hmac_len h)) as (b' & -> & Hok & Hle & Hw); [done..|].
  pose proof (Hw (zrepeat 0 (hmac_len h)) ltac:(unfold zrepeat; rewrite length_replicate; lia)) as W.
  unfold buf_write in W. injection W as Wh Wd Wt.
  apply app_inv_tail in Wh. rewrite buffer_headlen_ok by done. rewrite Wh.
  destruct (zsplit (hmac_len h) (b_data b')) as (m & k & Ed & Hm); [lia|]. rewrite Ed.
  assert (zlen (plain ++ rest) < 2 ^ 31) as Hl.
  { rewrite <- Hb, <- Wh. unfold buf_ok, b_size, SILC_MAX_ALLOC in Hok. lia. }
  rewrite Hiv, Hb.
  destruct (payload_encrypt_spec plain rest m k (e_payload_len e) (zlen (plain ++ rest)) iv
    (e_sid e) (e_rid e) c h y iv2 ctx) as (o & h' & -> & Hl' & Hk'); [done..|].
  eexists _, _, h'. split; [done|]. split; [|done].
  set (mac := message_mac h (y ++ rest) (message_ids (e_sid e) (e_rid e))).
  assert (zlen mac = hmac_len h) as Lm by (by apply message_mac_len).
  assert (zlen (plain ++ rest) = zlen (y ++ rest)) as -> by (rewrite !length_app; lia).
  rewrite ztake_app_exact, zdrop_app_exact by done.
  rewrite buffer_pull_app.
  2: { apply (f_equal (fun l => zlen l)) in Ed. rewrite length_app in Ed.
       assert (zlen (b_head b') = zlen (y ++ rest)) as E2 by (rewrite Wh, Hb, !length_app; lia).
       unfold buf_ok, b_size in Hok |- *. cbn [b_head b_data b_tail].
       rewrite (length_app mac). lia. }
  2: lia.
  unfold buf_write. cbn [b_head b_data b_tail].
  assert (zlen (zrepeat 0 (hmac_len h)) = hmac_len h) as Lz
    by (unfold zrepeat; rewrite length_replicate; lia).
  rewrite Lz in Wd, Wt. rewrite Lm, <- Wd, <- Wt. f_equal.
  - rewrite Ed. by rewrite zdrop_app_exact.
  - unfold zdrop. by replace (Z.to_nat _) with 0%nat by lia.
Qed.
(** The SILC_MESSAGE_FLAG_SIGNED Payload that follows the payload [plain]. *)
Definition sign_result (flags : Z) (pub : option SilcPublicKey) (prv : option SilcPrivateKey)
    (hash : option SilcHash) (plain sigb : list Z) : Prop :=
  if is_signed flags then
    exists k h pk sig, prv = Some k /\ hash = Some h /\ opt_encode pub = Some pk /\
      zlen (ptr_bytes pk) < 65536 /\ 1 <= zlen sig < 65536 /\
      silc_pkcs_sign k (sign_wire plain (ptr_bytes pk) (u16 (silc_pkcs_get_type k))) 65536 h =
        Some sig /\
      sigb = sig_wire (ptr_bytes pk) (u16 (silc_pkcs_get_type k)) sig
  else sigb = [].

Lemma sign_result_len flags pub prv hash plain sigb :
  sign_result flags pub prv hash plain sigb -> zlen sigb < 131080.
Proof.
  unfold sign_result. destruct (is_signed flags); [|intros ->; simpl; lia].
  intros (k & h & pk & sig & _ & _ & _ & ? & ? & _ & ->). rewrite sig_wire_len. lia.
Qed.

(** An empty buffer: everything it is given fits. *)
Lemma fits_empty t n :
  zlen t < SILC_MAX_ALLOC -> n < SILC_MAX_ALLOC ->
  buf_fits {| b_head := []; b_data := []; b_tail := t |} n.
Proof. intros. unfold buf_fits, b_size. simpl. lia. Qed.

Definition plain_params (flags n : Z) (data : list Z) (pad_len : Z) (pad : list Z)
  : list FormatParam :=
  [F_UI16_SHORT flags; F_UI16_SHORT n; F_DATA (Some data) n; F_UI16_SHORT pad_len;
   F_DATA (Some pad) pad_len].

Lemma plain_params_bytes flags data pad :
  fmt_bytes (plain_params flags (zlen data) data (zlen pad) pad) = plain_wire flags data pad.
Proof.
  unfold fmt_bytes, plain_params, plain_wire. cbn [map concat fmt_bytes1].
  by rewrite !mem_read_exact, !SILC_PUT16_MSB_u16, app_nil_r by done.
Qed.

Lemma plain_params_plain flags data pad :
  Forall fmt_plain (plain_params flags (zlen data) data (zlen pad) pad).
Proof. repeat constructor; simpl; lia. Qed.

(** Everything before the encryption. *)
Lemma format_before e t flags data pad sigb iv :
  let b0 := {| b_head := []; b_data := []; b_tail := t |} in
  let plain := plain_wire flags data pad in
  zlen t < SILC_MAX_ALLOC -> 0 < zlen plain < 131072 -> zlen iv < 65536 ->
  e_flags e = flags ->
  sign_result flags (e_public_key e) (e_private_key e) (e_hash e) plain sigb ->
  format_loop {| fs_dst := b0; fs_flen := 0; fs_advance := false |}
    (plain_params flags (zlen data) data (zlen pad) pad ++
     [F_FUNC (silc_message_payload_encode_sig e); F_DATA (Some iv) (zlen iv)]) =
  (true, st_write {| fs_dst := b0; fs_flen := 0; fs_advance := false |} (plain ++ sigb ++ iv)).
Proof.
  intros b0 plain Ht Hp Hiv He Hs. pose proof (sign_result_len _ _ _ _ _ _ Hs) as Hsl.
  assert (forall n, n < SILC_MAX_ALLOC -> buf_fits b0 n) as F by (intros; by apply fits_empty).
  rewrite format_loop_app.
  rewrite format_loop_plain; rewrite ?plain_params_bytes; fold plain;
    [|apply plain_params_plain|apply F; unfold SILC_MAX_ALLOC; lia|unfold st_room; cbn [fs_flen]; lia].
  set (st1 := st_write _ plain).
  assert (forall x : list Z, zlen x < 400000 -> buf_fits (fs_dst st1) (zlen x)) as F1.
  { intros x Hx. apply (buf_fits_app_r b0 plain x). apply F. rewrite length_app.
    unfold SILC_MAX_ALLOC. lia. }
  assert (forall n, n < 400000 -> st_room st1 n) as R1
    by (intros; unfold st_room, st1; cbn [fs_flen st_write]; lia).
  assert (format_step st1 (F_FUNC (silc_message_payload_encode_sig e)) =
    (true, st_write st1 sigb)) as E1.
  { unfold sign_result in Hs. destruct (is_signed flags) eqn:Es.
    - destruct Hs as (k & h & pk & sig & Hk & Hh & Hpk & Hpl & Hsig & Hsign & ->).
      pose proof (format_then_pull (fs_dst st1)
        [F_DATA (Some (sig_wire (ptr_bytes pk) (u16 (silc_pkcs_get_type k)) sig))
           (zlen (sig_wire (ptr_bytes pk) (u16 (silc_pkcs_get_type k)) sig))]) as P.
      rewrite fmt_data in P.
      destruct P as (dst & Ed & Hd);
        [apply fmt_data_plain|apply F1; lia|unfold SILC_MAX_ALLOC; lia|].
      apply (format_step_write st1 _ (zlen (sig_wire (ptr_bytes pk) (u16 (silc_pkcs_get_type k)) sig))
               dst); [|done|done|apply R1; lia].
      unfold silc_message_payload_encode_sig. rewrite He.
      unfold is_signed in Es. apply negb_true_iff in Es. rewrite Es, Hk, Hh.
      change (b_head (fs_dst st1)) with plain.
      rewrite (signed_payload_encode_spec _ (e_public_key e) k h pk sig);
        [|intros E%(f_equal (@length Z)); cbn [length] in E; lia|lia|done|done|done|lia].
      rewrite buffer_set_len by (unfold SILC_MAX_ALLOC; lia). done.
    - rewrite Hs. apply (format_step_write st1 _ 0 (fs_dst st1)); [|done| |apply R1; lia].
      + unfold silc_message_payload_encode_sig. rewrite He. unfold is_signed in Es.
        apply negb_false_iff in Es. by rewrite Es.
      + by rewrite buffer_pull_0, buf_write_nil. }
  change (format_loop st1 [F_FUNC (silc_message_payload_encode_sig e); F_DATA (Some iv) (zlen iv)])
    with (match format_step st1 (F_FUNC (silc_message_payload_encode_sig e)) with
          | (true, st) => format_loop st [F_DATA (Some iv) (zlen iv)]
          | (false, st) => (false, st) end).
  rewrite E1. rewrite format_loop_plain; rewrite ?fmt_data; [|apply fmt_data_plain| |].
  - unfold st1. by rewrite !st_write_app, app_assoc.
  - apply (buf_fits_app_r (fs_dst st1) sigb iv). apply F1. rewrite length_app. lia.
  - unfold st_room. change (fs_flen (st_write st1 sigb)) with (0 + zlen plain + zlen sigb). lia.
Qed.
(** The IV and the padding the random numbers give. *)
Definition sent_iv_len (priv gen : bool) (encrypted : bool) : Z :=
  if encrypted && (negb priv || gen) then 16 else 0.

Definition sent_pad_len (data : list Z) : Z := SILC_MESSAGE_PAD (6 + zlen data).

Definition sent_pad (encrypted : bool) (iv_len : Z) (rnd data : list Z) : list Z :=
  if encrypted then ztake (sent_pad_len data) (zdrop iv_len rnd)
  else zrepeat indet (sent_pad_len data).

Lemma sent_pad_len_range data : 1 <= sent_pad_len data <= 16.
Proof. unfold sent_pad_len, SILC_MESSAGE_PAD. pose proof (Z.mod_pos_bound (6 + zlen data) 16). lia. Qed.

Lemma sent_pad_spec encrypted iv_len rnd data :
  0 <= iv_len <= 16 -> (encrypted = true -> 32 <= zlen rnd) ->
  zlen (sent_pad encrypted iv_len rnd data) = sent_pad_len data.
Proof.
  intros Hi Hr. pose proof (sent_pad_len_range data). unfold sent_pad. destruct encrypted.
  - apply zlen_ztake. rewrite zlen_zdrop; specialize (Hr eq_refl); lia.
  - unfold zrepeat. rewrite length_replicate. lia.
Qed.

(** The buffer silc_message_payload_encode works on: empty, with room behind. *)
Lemma encode_buffer buffer :
  match buffer with Some b => buf_ok b | None => True end ->
  exists b t, (match buffer with Some b => Some b | None => silc_buffer_alloc 0 end) = Some b /\
    silc_buffer_reset b = {| b_head := []; b_data := []; b_tail := t |} /\
    zlen t < SILC_MAX_ALLOC.
Proof.
  intros Hb. destruct buffer as [b|].
  - exists b, (b_area b). split_and!; try done. rewrite zlen_b_area. done.
  - exists buffer_null, []. done.
Qed.

Lemma encode_encrypted flags data gen priv c h rnd pub prv hash sid rid buffer sigb y iv2 ctx :
  let iv_len := sent_iv_len priv gen true in
  let iv := ztake iv_len rnd in
  let plain := plain_wire flags data (sent_pad true iv_len rnd data) in
  let body := y ++ sigb ++ iv in
  data <> [] -> 32 <= zlen rnd -> hmac_ready h -> 0 <= key_room flags pub prv ->
  zlen data + 22 + (hmac_len h + iv_len) + key_room flags pub prv <= 65529 ->
  match buffer with Some b => buf_ok b | None => True end ->
  sign_result flags pub prv hash plain sigb ->
  alg_encrypt (c_context c) plain (used_iv c iv) = Some (y, iv2, ctx) -> zlen y = zlen plain ->
  exists b h',
    silc_message_payload_encode flags data (zlen data) gen priv (Some c) (Some h) rnd pub prv hash
      sid rid buffer = Some (Some b, Some (after_cipher c iv iv2 ctx), Some h') /\
    b_head b = [] /\ b_data b = body ++ message_mac h body (message_ids sid rid) /\
    hmac_len h' = hmac_len h /\ hmac_key h' = hmac_key h.
Proof.
  intros iv_len iv plain body Hne Hr Hh Hk Hd Hb Hs He Hy.
  assert (iv_len = 0 \/ iv_len = 16) as Hi
    by (unfold iv_len, sent_iv_len; destruct (true && _); lia).
  pose proof (sent_pad_len_range data) as Hp. destruct Hh as [Hh1 Hh2].
  assert (zlen (sent_pad true iv_len rnd data) = sent_pad_len data) as Lp
    by (apply sent_pad_spec; lia).
  set (pad := sent_pad true iv_len rnd data) in *.
  assert (zlen plain = 6 + zlen data + sent_pad_len data) as Lpl
    by (unfold plain; rewrite plain_wire_len; lia).
  assert (zlen iv = iv_len) as Liv by (apply zlen_ztake; lia).
  assert (0 < zlen data) as Hpos by (destruct data; [done|cbn [length]; lia]).
  assert (is_signed flags = true -> prv <> None) as Hpk.
  { unfold sign_result in Hs. intros E. rewrite E in Hs. by destruct Hs as (k & ? & ? & ? & -> & _). }
  destruct (encode_buffer buffer Hb) as (b & t & Eb & Er & Ht).
  unfold silc_message_payload_encode. destruct (Z.eqb_spec (zlen data) 0); [lia|].
  replace (negb priv && false) with false by (by rewrite andb_false_r). rewrite Eb, Er.
  unfold silc_cipher_get_block_len, silc_hmac_len. rewrite blk_block_len.
  replace (if (if negb priv then true else gen) then 16 else 0) with iv_len
    by (unfold iv_len, sent_iv_len; by destruct priv, gen).
  rewrite datalen_fits by (done || lia). rewrite u32_id by lia. fold (sent_pad_len data).
  rewrite (mem_read_le rnd) by lia. fold iv.
  rewrite (mem_read_le (zdrop iv_len rnd)) by (rewrite zlen_zdrop; lia).
  change (ztake (sent_pad_len data) (zdrop iv_len rnd)) with pad.
  rewrite u16_id by lia. rewrite <- Lp, <- Liv.
  set (e := {| e_flags := flags |}).
  change [F_UI16_SHORT flags; F_UI16_SHORT (zlen data); F_DATA (Some data) (zlen data);
    F_UI16_SHORT (zlen pad); F_DATA (Some pad) (zlen pad);
    F_FUNC (silc_message_payload_encode_sig e); F_DATA (Some iv) (zlen iv)]
    with (plain_params flags (zlen data) data (zlen pad) pad ++
     [F_FUNC (silc_message_payload_encode_sig e); F_DATA (Some iv) (zlen iv)]).
  set (before := _ ++ [F_FUNC (silc_message_payload_encode_sig e); _]).
  pose proof (format_before e t flags data pad sigb iv) as Fb. cbv zeta in Fb.
  fold before plain in Fb. specialize (Fb Ht ltac:(lia) ltac:(lia) eq_refl Hs).
  pose proof (sign_result_len _ _ _ _ _ _ Hs) as Hsl.
  unfold silc_buffer_format, encode_context. rewrite format_loop_app, Fb.
  set (st := st_write _ (plain ++ sigb ++ iv)).
  assert (buf_fits (fs_dst st) (hmac_len h)) as Ff.
  { pose proof (buf_fits_app_r {| b_head := []; b_data := []; b_tail := t |}
      (plain ++ sigb ++ iv) (zrepeat 0 (hmac_len h))) as F.
    unfold zrepeat in F. rewrite !length_app, length_replicate, Z2Nat.id in F by lia.
    apply F, fits_empty; [done|unfold SILC_MAX_ALLOC; lia]. }
  destruct (encrypt_callback e (fs_dst st) plain (sigb ++ iv) iv c h y iv2 ctx)
    as (dst & e' & h' & E & Ep & Ec & Eh & El & Ek); try done.
  { cbn [e_payload_len e]. lia. }
  assert (fs_flen st = zlen plain + zlen sigb + zlen iv) as Lst
    by (unfold st, st_write; cbn [fs_flen]; rewrite !length_app; lia).
  cbn [format_loop]. rewrite (format_step_func st _ (hmac_len h) dst);
    [|by rewrite E|lia|unfold st_room; lia].
  rewrite E, Ep, Lst. cbn [fs_advance fs_flen fs_dst fs_set_dst snd].
  change (fs_advance st) with false. cbv iota. cbn [e_sid e_rid e].
  fold body. set (mac := message_mac h body (message_ids sid rid)).
  assert (zlen mac = hmac_len h) as Lm by (by apply message_mac_len).
  destruct (Z.ltb_spec (zlen plain + zlen sigb + zlen iv + hmac_len h) 0); [lia|].
  unfold buf_write. cbn [b_head b_data b_tail].
  rewrite u32_id by lia. eexists _, h'. rewrite Ec, Eh. split; [reflexivity|].
  rewrite (buffer_push_app [] (body ++ mac)).
  2: { unfold body. rewrite !length_app. lia. }
  cbn [b_head b_data]. split; [done|]. split; [|done].
  change (b_data (fs_dst st)) with (zdrop (zlen (plain ++ sigb ++ iv)) (@nil Z)).
  by rewrite !zdrop_nil, app_nil_r.
Qed.

(** A private message without a key of its own: the padding is what the array
    on the stack held. *)
Lemma encode_clear flags data gen hmac rnd pub prv hash sid rid buffer sigb :
  let mac_len := match hmac with Some h => hmac_len h | None => 0 end in
  let plain := plain_wire flags data (sent_pad false 0 rnd data) in
  data <> [] -> 0 <= mac_len -> 0 <= key_room flags pub prv ->
  zlen data + 22 + mac_len + key_room flags pub prv <= 65529 ->
  match buffer with Some b => buf_ok b | None => True end ->
  sign_result flags pub prv hash plain sigb ->
  exists b,
    silc_message_payload_encode flags data (zlen data) gen true None hmac rnd pub prv hash
      sid rid buffer = Some (Some b, None, hmac) /\ b_head b = [] /\ b_data b = plain ++ sigb.
Proof.
  intros mac_len plain Hne Hm Hk Hd Hb Hs.
  pose proof (sent_pad_len_range data) as Hp.
  assert (zlen (sent_pad false 0 rnd data) = sent_pad_len data) as Lp
    by (apply sent_pad_spec; [lia|done]).
  set (pad := sent_pad false 0 rnd data) in *.
  assert (zlen plain = 6 + zlen data + sent_pad_len data) as Lpl
    by (unfold plain; rewrite plain_wire_len; lia).
  assert (0 < zlen data) as Hpos by (destruct data; [done|cbn [length]; lia]).
  assert (is_signed flags = true -> prv <> None) as Hpk.
  { unfold sign_result in Hs. intros E. rewrite E in Hs. by destruct Hs as (k & ? & ? & ? & -> & _). }
  destruct (encode_buffer buffer Hb) as (b & t & Eb & Er & Ht).
  unfold silc_message_payload_encode. destruct (Z.eqb_spec (zlen data) 0); [lia|].
  cbn [negb andb]. rewrite Eb, Er. unfold silc_hmac_len. fold mac_len.
  rewrite Z.add_0_r, datalen_fits by (done || lia). rewrite u32_id by lia.
  fold (sent_pad_len data). rewrite (mem_read_le rnd 0) by lia. change (ztake 0 rnd) with (@nil Z).
  change (zrepeat indet (sent_pad_len data)) with pad. rewrite <- Lp.
  set (e := {| e_flags := flags |}).
  change [F_UI16_SHORT flags; F_UI16_SHORT (zlen data); F_DATA (Some data) (zlen data);
    F_UI16_SHORT (zlen pad); F_DATA (Some pad) (zlen pad);
    F_FUNC (silc_message_payload_encode_sig e); F_DATA (Some []) 0]
    with (plain_params flags (zlen data) data (zlen pad) pad ++
     [F_FUNC (silc_message_payload_encode_sig e); F_DATA (Some []) (zlen (@nil Z))]).
  set (before := _ ++ [F_FUNC (silc_message_payload_encode_sig e); _]).
  pose proof (format_before e t flags data pad sigb []) as Fb. cbv zeta in Fb.
  fold before plain in Fb.
  specialize (Fb Ht ltac:(lia) ltac:(cbn [length]; lia) eq_refl Hs).
  pose proof (sign_result_len _ _ _ _ _ _ Hs) as Hsl.
  unfold silc_buffer_format, encode_context. rewrite format_loop_app, Fb.
  rewrite app_nil_r. set (st := st_write _ (plain ++ sigb)).
  assert (fs_flen st = zlen plain + zlen sigb) as Lst
    by (unfold st, st_write; cbn [fs_flen]; rewrite !length_app; lia).
  cbn [format_loop]. rewrite (format_step_func st _ 0 (fs_dst st));
    [|done|lia|unfold st_room; lia].
  rewrite buffer_pull_0, Lst. cbn [fs_advance fs_flen fs_dst fs_set_dst snd].
  change (fs_advance st) with false. cbv iota.
  destruct (Z.ltb_spec (zlen plain + zlen sigb + 0) 0); [lia|].
  rewrite u32_id by lia. eexists. split; [reflexivity|].
  change (fs_dst st) with (buf_write {| b_head := []; b_data := []; b_tail := t |} (plain ++ sigb)).
  unfold buf_write. cbn [b_head b_data b_tail].
  rewrite buffer_push_app by (rewrite length_app; lia).
  cbn [b_head b_data]. split; [done|]. by rewrite zdrop_nil, app_nil_r.
Qed.
End encode.
