(* ===== verification/MessageProps.v ===== *)
(** What silcmessage.c promises: a message that was encoded is parsed back and
    its signature verifies; a message with a wrong MAC is not accepted; and the
    lengths and frees that go wrong. *)

From S2P Require Import Prelude CTypes Buffer BufFmt BufFmtSpec Id Auth Cipher CipherBlocks Hash HashFns HashSpec Hmac Packet Message MessageSpec.

(** * Decryption *)

Section decrypt.
Context `{CipherBlocks} `{HashLaws} `{PkcsKeys}.

Lemma mac_matches data h ids :
  hmac_ready h -> hmac_len h <= zlen data < 2 ^ 31 -> hash_pieces ids ->
  exists h', message_mac_matches data h ids =
    (bool_decide (zdrop (zlen data - hmac_len h) data =
       message_mac h (ztake (zlen data - hmac_len h) data) (concat ids)), h') /\
    hmac_len h' = hmac_len h /\ hmac_key h' = hmac_key h.
Proof.
  intros [Hl Hk] Hd Hi. unfold message_mac_matches, silc_hmac_len.
  set (body := mem_read data (zlen data - hmac_len h)).
  assert (body = ztake (zlen data - hmac_len h) data) as Eb by (apply mem_read_le; lia).
  assert (zlen body < 2 ^ 31) as Hb by (rewrite Eb, zlen_ztake; lia).
  destruct (hmac_pieces h (body :: ids)) as (h' & E & El & Ek); [done|done|by constructor|].
  change (foldl silc_hmac_update (silc_hmac_init h) (body :: ids))
    with (foldl silc_hmac_update (silc_hmac_update (silc_hmac_init h) body) ids) in E.
  rewrite E. exists h'. split; [|done]. unfold message_mac. cbn [concat]. rewrite <- Eb.
  by rewrite (mem_read_exact (zdrop _ data)) by (rewrite zlen_zdrop; lia).
Qed.

(** The MAC of the body and the IDs is accepted. *)
Lemma check_mac_accepts body h s r :
  hmac_ready h -> zlen body + hmac_len h < 2 ^ 31 -> zlen s < 2 ^ 31 -> zlen r < 2 ^ 31 ->
  exists h', message_check_mac (body ++ message_mac h body (s ++ r)) h s r = (true, h') /\
    hmac_len h' = hmac_len h /\ hmac_key h' = hmac_key h.
Proof.
  intros Hr Hb Hs Hrr. pose proof (message_mac_len h body (s ++ r) Hr) as Lm. pose proof Hr as [Hl _].
  unfold message_check_mac.
  destruct (mac_matches (body ++ message_mac h body (s ++ r)) h [s; r])
    as (h' & -> & El & Ek); [done|rewrite length_app; lia|by repeat constructor|].
  rewrite length_app, Nat2Z.inj_add, Lm. rewrite ztake_app_exact, zdrop_app_exact by lia.
  cbn [concat]. rewrite app_nil_r. rewrite bool_decide_eq_true_2 by done. by exists h'.
Qed.

(** The IV in the payload after it was used. *)
Definition next_iv (iv iv2 : list Z) : list Z := if zlen iv =? 0 then [] else iv2.

Lemma used_next c iv iv2 ctx :
  zlen iv = 0 \/ zlen iv = 16 -> zlen iv2 = 16 ->
  used_iv (after_cipher c iv iv2 ctx) (next_iv iv iv2) = iv2 /\
  zlen (next_iv iv iv2) = zlen iv.
Proof.
  intros Hiv Hv2. unfold used_iv, next_iv, after_cipher.
  destruct (Z.eqb_spec (zlen iv) 0) as [E|E]; [by rewrite E|].
  destruct (Z.eqb_spec (zlen iv2) 0); [lia|]. split; [done|lia].
Qed.

Lemma after_next c iv iv1 iv2 ctx ctx2 :
  zlen iv = 0 \/ zlen iv = 16 -> zlen iv1 = 16 ->
  after_cipher (after_cipher c iv iv1 ctx) (next_iv iv iv1) iv2 ctx2 = after_cipher c iv iv2 ctx2 /\
  next_iv (next_iv iv iv1) iv2 = next_iv iv iv2.
Proof.
  intros Hiv Hv1. unfold after_cipher, next_iv. destruct (Z.eqb_spec (zlen iv) 0) as [E|E]; [done|].
  cbn [c_iv]. by destruct (Z.eqb_spec (zlen iv1) 0); [lia|].
Qed.

Lemma decrypt_at d a y k iv mac x iv2 ctx pos n ivp :
  zlen iv = 0 \/ zlen iv = 16 -> zlen iv2 = 16 -> zlen x = zlen y ->
  pos = zlen a -> n = zlen y -> ivp = zlen (a ++ y ++ k) ->
  alg_decrypt (c_context d) y (used_iv d iv) = Some (x, iv2, ctx) ->
  message_decrypt_at d (a ++ y ++ k ++ iv ++ mac) pos n
    (if zlen iv =? 0 then None else Some ivp) =
  Some (a ++ x ++ k ++ next_iv iv iv2 ++ mac, after_cipher d iv iv2 ctx).
Proof.
  intros Hiv Hv2 Hx -> -> -> He. unfold message_decrypt_at, silc_cipher_decrypt, next_iv, after_cipher.
  rewrite zdrop_app_exact by done. rewrite mem_read_le by (rewrite length_app; lia).
  rewrite ztake_app_exact by done. unfold used_iv in He. revert He.
  destruct (Z.eqb_spec (zlen iv) 0) as [E|E]; intros He.
  - rewrite He, mem_put_at by done. by rewrite (zlen_0_nil iv).
  - assert (a ++ y ++ k ++ iv ++ mac = (a ++ y ++ k) ++ iv ++ mac) as -> by (by rewrite <- !app_assoc).
    rewrite zdrop_app_exact by done. rewrite blk_iv_len.
    rewrite mem_read_le by (rewrite length_app; lia). rewrite ztake_app_exact by lia. rewrite He.
    do 2 f_equal. rewrite <- !app_assoc, mem_put_at by done.
    assert (a ++ x ++ k ++ iv ++ mac = (a ++ x ++ k) ++ iv ++ mac) as -> by (by rewrite <- !app_assoc).
    rewrite mem_put_at; [by rewrite <- !app_assoc|by rewrite !length_app; lia|lia].
Qed.
(** The length field in the first block. *)
Lemma first_block_len flags data pad rest :
  16 <= zlen (plain_wire flags data pad) -> zlen data < 65536 ->
  SILC_GET16_MSB (zdrop 2 (ztake 16 (plain_wire flags data pad) ++ rest)) = zlen data.
Proof.
  intros Hl Hd. unfold plain_wire.
  rewrite ztake_app_ge, <- app_assoc, zdrop_app_exact by done.
  rewrite ztake_app_ge, <- app_assoc, SILC_GET16_PUT16_MSB by done. apply u16_id. lia.
Qed.

Lemma plain_whole flags data pad :
  zlen pad = sent_pad_len data -> zlen (plain_wire flags data pad) mod 16 = 0 /\
  16 <= zlen (plain_wire flags data pad).
Proof.
  intros Hp. rewrite plain_wire_len, Hp. unfold sent_pad_len, SILC_MESSAGE_PAD.
  Z.to_euclidean_division_equations. lia.
Qed.

(** The two calls of silc_cipher_decrypt, on the first block and on the rest. *)
Lemma decrypt_payload_steps d flags data pad sigb iv mac y1 y2 iv1 iv2 d1 d2 :
  let plain := plain_wire flags data pad in
  let x1 := ztake 16 plain in
  let x2 := zdrop 16 plain in
  zlen pad = sent_pad_len data -> zlen plain < 65536 -> zlen iv = 0 \/ zlen iv = 16 ->
  zlen sigb < 2 ^ 30 -> zlen mac < 2 ^ 30 -> zlen y1 = 16 -> zlen y2 = zlen x2 ->
  zlen iv1 = 16 -> zlen iv2 = 16 ->
  alg_decrypt (c_context d) y1 (used_iv d iv) = Some (x1, iv1, d1) ->
  alg_decrypt d1 y2 iv1 = Some (x2, iv2, d2) ->
  message_decrypt_payload ((y1 ++ y2) ++ sigb ++ iv ++ mac) d (zlen mac) (zlen iv) =
  if 16 <=? 6 + zlen data
  then (true, plain ++ sigb ++ next_iv iv iv2 ++ mac, after_cipher d iv iv2 d2)
  else (true, x1 ++ y2 ++ sigb ++ next_iv iv iv1 ++ mac, after_cipher d iv iv1 d1).
Proof.
  intros plain x1 x2 Hp Hl Hiv Hsl Hmac Ly1 Ly2 Hv1 Hv2 Hd1 Hd2.
  destruct (plain_whole flags data pad Hp) as [_ H16]. fold plain in H16.
  pose proof (sent_pad_len_range data) as Hpr.
  assert (zlen plain = 6 + zlen data + zlen pad) as Lpl by apply plain_wire_len.
  assert (plain = x1 ++ x2) as Epl by (by rewrite <- (ztake_zdrop 16 plain) at 1).
  assert (zlen x1 = 16) as L1 by (apply zlen_ztake; lia).
  assert (zlen x2 = zlen plain - 16) as L2 by (apply zlen_zdrop; lia).
  destruct (used_next d iv iv1 d1 Hiv Hv1) as [Un Ln].
  destruct (after_next d iv iv1 iv2 d1 d2 Hiv Hv1) as [An Nn].
  unfold message_decrypt_payload, silc_cipher_get_block_len.
  rewrite blk_block_len. set (all := (y1 ++ y2) ++ sigb ++ iv ++ mac).
  assert (zlen all = zlen plain + zlen sigb + zlen iv + zlen mac) as La
    by (unfold all; rewrite !length_app; lia).
  assert (all = [] ++ y1 ++ (y2 ++ sigb) ++ iv ++ mac) as Eall
    by (unfold all; by rewrite <- !app_assoc).
  assert (zlen all - zlen iv - zlen mac = zlen ([] ++ y1 ++ y2 ++ sigb)) as Livp
    by (rewrite La; cbn [app]; rewrite !length_app; lia).
  rewrite Eall at 1.
  rewrite (decrypt_at d [] y1 (y2 ++ sigb) iv mac x1 iv1 d1); try done; try lia.
  cbn [app]. cbv beta iota zeta. pose proof (first_block_len flags data pad) as FB.
  fold plain in FB. fold x1 in FB. rewrite FB by lia.
  rewrite (u16_id (2 + _)) by lia.
  destruct (Z.ltb_spec (zlen all) (2 + (2 + zlen data) + zlen iv + zlen mac + 2)); [lia|].
  rewrite u16_id by lia. replace (2 + (2 + zlen data) + 2) with (6 + zlen data) by lia.
  destruct (Z.leb_spec 16 (6 + zlen data)); [|by rewrite <- !app_assoc].
  rewrite (u32_id (6 + zlen data - 16)) by lia.
  assert (SILC_MESSAGE_PAD (6 + zlen data) = zlen pad) as -> by (by rewrite Hp).
  rewrite u32_id by lia. rewrite <- Ln, <- !app_assoc.
  rewrite (decrypt_at (after_cipher d iv iv1 d1) x1 y2 sigb (next_iv iv iv1) mac x2 iv2 d2);
    try done; try lia.
  - rewrite An, Nn, Epl. by rewrite <- !app_assoc.
  - rewrite Ln, Livp. cbn [app]. rewrite !length_app. lia.
  - by rewrite Un.
Qed.

Lemma decrypt_payload_spec c d flags data pad sigb iv :
  let plain := plain_wire flags data pad in
  zlen pad = sent_pad_len data -> zlen plain < 65536 -> bytes_ok plain ->
  zlen iv = 0 \/ zlen iv = 16 -> blk_peer (c_context c) (c_context d) ->
  is_block (used_iv c iv) -> used_iv d iv = used_iv c iv -> zlen sigb < 2 ^ 30 ->
  exists y iv2 e2 d2,
    alg_encrypt (c_context c) plain (used_iv c iv) = Some (y, iv2, e2) /\
    zlen y = zlen plain /\ blk_peer e2 d2 /\ is_block iv2 /\
    forall mac, zlen mac < 2 ^ 30 ->
      message_decrypt_payload (y ++ sigb ++ iv ++ mac) d (zlen mac) (zlen iv) =
      (true, plain ++ sigb ++ next_iv iv iv2 ++ mac, after_cipher d iv iv2 d2).
Proof.
  intros plain Hp Hl Hb Hiv Hpeer Hblk Hused Hsl.
  destruct (plain_whole flags data pad Hp) as [Hm H16]. fold plain in Hm, H16.
  assert (zlen plain = 6 + zlen data + zlen pad) as Lpl by apply plain_wire_len.
  set (x1 := ztake 16 plain). set (x2 := zdrop 16 plain).
  assert (plain = x1 ++ x2) as Epl by (by rewrite <- (ztake_zdrop 16 plain) at 1).
  assert (zlen x1 = 16) as L1 by (apply zlen_ztake; lia).
  assert (zlen x2 = zlen plain - 16) as L2 by (apply zlen_zdrop; lia).
  destruct (bytes_ok_cut 16 plain Hb) as [Hb1 Hb2].
  destruct (blk_dec_two (c_context c) (c_context d) x1 x2 (used_iv c iv))
    as (y1 & y2 & iv1 & iv2 & e1 & e2 & d1 & d2 & He1 & Hd1 & He & Hd2 & Ly1 & Ly2 & _ & _ &
        [Hv1 _] & Hv2 & Hp1 & Hp2); try done.
  { by rewrite L1. }
  { rewrite L2. Z.to_euclidean_division_equations. lia. }
  rewrite <- Epl in He. rewrite <- Hused in Hd1. rewrite L1 in Ly1.
  pose proof (fun mac Hmac => decrypt_payload_steps d flags data pad sigb iv mac y1 y2 iv1 iv2 d1 d2
    Hp Hl Hiv Hsl Hmac Ly1 Ly2 Hv1 (proj1 Hv2) Hd1 Hd2) as D.
  destruct (Z.leb_spec 16 (6 + zlen data)).
  - exists (y1 ++ y2), iv2, e2, d2. rewrite He, length_app. split_and!; done || lia.
  - assert (x2 = []) as E2.
    { apply zlen_0_nil. rewrite L2, Lpl, Hp. unfold sent_pad_len, SILC_MESSAGE_PAD.
      rewrite Z.mod_small; lia. }
    assert (y2 = []) as Ey2 by (apply zlen_0_nil; rewrite Ly2, E2; done).
    rewrite Epl, E2, app_nil_r, He1 in He. injection He as Hyy <- <-.
    assert (plain = x1) as E1 by (by rewrite Epl, E2, app_nil_r).
    rewrite Ey2, app_nil_r in D. rewrite <- E1 in He1.
    exists y1, iv1, e1, d1. split_and!; try done; [by rewrite Ly1, E1|]. intros mac Hmac. rewrite D by done.
    change (ztake 16 (plain_wire flags data pad)) with x1. by rewrite <- E1.
Qed.
End decrypt.

(** * The plain payload *)

Section unformat.
Context `{PkcsLaws} `{!PkcsKeys H}.

(** What the parser finds where the sender put [sigb]. *)
Definition parsed_sig (flags : Z) (pub : option SilcPublicKey) (prv : option SilcPrivateKey)
    (hash : option SilcHash) (plain sigb : list Z) (s : SilcMessageSignedPayload) : Prop :=
  if is_signed flags then
    exists k h pk sig, prv = Some k /\ hash = Some h /\ opt_encode pub = Some pk /\
      zlen (ptr_bytes pk) < 65536 /\ 1 <= zlen sig < 65536 /\
      silc_pkcs_sign k (sign_wire plain (ptr_bytes pk) (u16 (silc_pkcs_get_type k))) 65536 h =
        Some sig /\
      s = {| sig_pk_data := if zlen (ptr_bytes pk) =? 0 then None else Some (ptr_bytes pk);
             sig_sign_data := Some sig; sig_pk_len := zlen (ptr_bytes pk);
             sig_pk_type := u16 (silc_pkcs_get_type k); sig_sign_len := zlen sig |}
  else s = sig_null.

Lemma unformat_plain flags data pad rest alloc :
  let payload := plain_wire flags data pad ++ rest in
  0 <= flags < 65536 -> 0 < zlen data < 65536 -> 0 < zlen pad < 65536 ->
  zlen payload < SILC_MAX_ALLOC ->
  silc_buffer_unformat (silc_buffer_set payload)
    (if alloc : bool
     then [U_UI16_SHORT true; U_NSTRING W16 true true; U_NSTRING W16 true true]
     else [U_UI16_SHORT true; U_NSTRING_ALLOC W16 true true; U_NSTRING_ALLOC W16 true true]) =
  (6 + zlen data + zlen pad,
   [ONum flags; ONum (zlen data); OPtr (Some data); ONum (zlen pad); OPtr (Some pad)],
   silc_buffer_set payload).
Proof.
  intros payload Hf Hd Hp Hl.
  assert (buf_ok (silc_buffer_set payload)) as Hok by (by apply buffer_set_ok).
  assert (zlen payload = 6 + zlen data + zlen pad + zlen rest) as Lp
    by (unfold payload; rewrite length_app, Nat2Z.inj_add, plain_wire_len; lia).
  rewrite (unformat_some _ _
    [ONum flags; ONum (zlen data); OPtr (Some data); ONum (zlen pad); OPtr (Some pad)] rest Hok).
  - cbn [b_data silc_buffer_set]. rewrite Lp. do 2 f_equal. lia.
  - destruct alloc; by repeat constructor.
  - cbn [b_data silc_buffer_set]. unfold payload, plain_wire. rewrite <- !app_assoc.
    destruct alloc; rewrite parse_U16, u16_id by lia.
    + by rewrite (parse_NSTRING16 _ _ _ data), (parse_NSTRING16 _ _ _ pad) by lia.
    + rewrite (parse_NSTRING16_ALLOC _ _ _ data), (parse_NSTRING16_ALLOC _ _ _ pad) by lia.
      by rewrite !dup_bytes_some by (unfold SILC_MAX_ALLOC; lia).
Qed.

Lemma message_unformat_spec flags data pad pub prv hash sigb iv mac no_alloc :
  let plain := plain_wire flags data pad in
  0 <= flags < 65536 -> 0 < zlen data < 65536 -> 0 < zlen pad < 65536 ->
  zlen iv < 65536 -> zlen mac < 65536 ->
  sign_result flags pub prv hash plain sigb ->
  exists s, parsed_sig flags pub prv hash plain sigb s /\
    message_unformat (plain ++ sigb ++ iv ++ mac) (zlen mac) (zlen iv) no_alloc =
    (true, {| msg_data := Some data; msg_pad := Some pad;
              msg_mac := if zlen mac =? 0 then None else Some mac; msg_sig := s;
              msg_flags := flags; msg_data_len := zlen data; msg_pad_len := zlen pad;
              msg_allocated := negb no_alloc |}, []).
Proof.
  intros plain Hf Hd Hp Hiv Hmac Hs. pose proof (sign_result_len _ _ _ _ _ _ Hs) as Hsl.
  set (payload := plain ++ sigb ++ iv ++ mac).
  assert (zlen plain = 6 + zlen data + zlen pad) as Lpl by apply plain_wire_len.
  assert (zlen payload = zlen plain + zlen sigb + zlen iv + zlen mac) as Lp
    by (unfold payload; rewrite !length_app; lia).
  assert (zlen payload < SILC_MAX_ALLOC) as Hpl by (unfold SILC_MAX_ALLOC; lia).
  pose proof (unformat_plain flags data pad (sigb ++ iv ++ mac) no_alloc) as U. cbv zeta in U.
  fold plain in U. fold payload in U.
  unfold message_unformat. rewrite U by done. rewrite buffer_set_len by done.
  cbn [out_num out_ptr nth_error]. ret_case; [lia|]. rewrite Lp, Lpl, u32_id by lia.
  destruct (Z.ltb_spec (6 + zlen data + zlen pad + zlen sigb + zlen iv + zlen mac - 6 - zlen mac -
    zlen iv) (zlen data)); [lia|].
  destruct (Z.ltb_spec (6 + zlen data + zlen pad + zlen sigb + zlen iv + zlen mac - 6 - zlen mac -
    zlen iv) (zlen pad + zlen data)); [lia|]. cbn [orb].
  assert (zdrop (6 + zlen data + zlen pad + zlen sigb + zlen iv + zlen mac - zlen mac) payload = mac)
    as Emac.
  { unfold payload. rewrite !app_assoc. apply zdrop_app_exact. rewrite !length_app. lia. }
  unfold sign_result in Hs. unfold parsed_sig. fold (is_signed flags). destruct (is_signed flags).
  - destruct Hs as (k & h & pk & sig & Hk & Hh & Hpk & Hpkl & Hsig & Hsign & ->).
    set (t := u16 (silc_pkcs_get_type k)) in *.
    pose proof (sig_wire_len (ptr_bytes pk) t sig) as Lsw.
    exists {| sig_pk_data := if zlen (ptr_bytes pk) =? 0 then None else Some (ptr_bytes pk);
              sig_sign_data := Some sig; sig_pk_len := zlen (ptr_bytes pk); sig_pk_type := t;
              sig_sign_len := zlen sig |}.
    split; [by exists k, h, pk, sig|]. cbn [andb].
    destruct (Z.ltb_spec (zlen data + zlen pad + 6 + zlen mac + zlen iv)
      (6 + zlen data + zlen pad + zlen (sig_wire (ptr_bytes pk) t sig) + zlen iv + zlen mac)); [|lia].
    unfold payload. rewrite (zdrop_app_exact _ plain) by lia.
    rewrite mem_read_le by (rewrite !length_app; lia). rewrite ztake_app_exact by lia.
    rewrite signed_parse_wire by (try lia; apply u16_range). fold payload. cbn [andb].
    rewrite Emac. by destruct (zlen mac =? 0).
  - subst sigb. exists sig_null. split; [done|]. cbn [andb]. rewrite Emac.
    by destruct (zlen mac =? 0).
Qed.

(** The signature of a parsed message verifies. *)
Lemma signed_verify_spec flags data pad pub prv hash sigb s m key k h :
  let plain := plain_wire flags data pad in
  parsed_sig flags pub prv hash plain sigb s -> is_signed flags = true ->
  0 < zlen data < 65536 -> 0 < zlen pad < 65536 ->
  msg_flags m = flags -> msg_data m = Some data -> msg_data_len m = zlen data ->
  msg_pad m = Some pad -> msg_pad_len m = zlen pad -> msg_sig m = s ->
  prv = Some k -> hash = Some h -> key_pair key k ->
  silc_message_signed_verify m (Some key) (Some h) = true.
Proof.
  intros plain Hs Es Hd Hp Ef Ed Edl Ep Epl Esig -> -> Hkey. unfold parsed_sig in Hs.
  rewrite Es in Hs.
  destruct Hs as (k' & h' & pk & sig & [= <-] & [= <-] & Hpk & Hpkl & Hsig & Hsign & ->).
  unfold silc_message_signed_verify. rewrite Ef, Ed, Edl, Ep, Epl, Esig.
  unfold is_signed in Es. apply negb_true_iff in Es. rewrite Es.
  cbn [sig_sign_len sig_pk_data sig_pk_len sig_pk_type sig_sign_data ptr_bytes orb].
  destruct (Z.eqb_spec (zlen sig) 0); [lia|].
  rewrite u32_id, buffer_alloc_size_ok by (unfold SILC_MAX_ALLOC; lia).
  change [F_UI16_SHORT flags; F_UI16_SHORT (zlen data); F_DATA (Some data) (zlen data);
    F_UI16_SHORT (zlen pad); F_DATA (Some pad) (zlen pad)]
    with (plain_params flags (zlen data) data (zlen pad) pad).
  rewrite format_exact; rewrite ?plain_params_bytes;
    [|apply plain_params_plain|by rewrite plain_wire_len|unfold SILC_MAX_ALLOC; lia].
  cbn [snd b_data silc_buffer_set]. fold plain.
  set (pk' := if zlen (ptr_bytes pk) =? 0 then None else Some (ptr_bytes pk)).
  assert (ptr_bytes pk' = ptr_bytes pk) as Epk by apply ptr_bytes_data.
  rewrite <- Epk in *. rewrite signed_encode_data_spec
    by (unfold plain; rewrite plain_wire_len; unfold SILC_MAX_ALLOC; lia).
  cbn [b_data silc_buffer_set]. rewrite mem_read_exact by done.
  by apply (pkcs_verify_sign key k _ 65536).
Qed.
End unformat.

(** * Properties *)

(** Sender's and receiver's ciphers of a message key: a private message without
    IV runs on with the IV the cipher holds. *)
Definition message_peer `{CipherBlocks} (own_iv : bool) (c d : SilcCipher) : Prop :=
  blk_peer (c_context c) (c_context d) /\
  (own_iv = true -> c_iv d = c_iv c /\ is_block (c_iv c)).

Definition same_key `{HashAlg} (h h' : SilcHmac) : Prop :=
  hmac_len h' = hmac_len h /\ hmac_key h' = hmac_key h.

(** The ID a packet carries for the receiver of a message. *)
Definition receiver_bytes (rid : SilcID) : list Z :=
  match rid with IdClient _ | IdChannel _ => message_id2str rid | _ => [] end.

Lemma same_key_mac `{HashLaws} h h' body ids :
  same_key h h' -> message_mac h' body ids = message_mac h body ids.
Proof. intros [El Ek]. unfold message_mac, key_bytes. by rewrite El, Ek. Qed.

Lemma same_key_ready `{HashLaws} h h' : same_key h h' -> hmac_ready h -> hmac_ready h'.
Proof. intros [El Ek]. unfold hmac_ready, key_bytes. by rewrite El, Ek. Qed.

Lemma message_iv_len_sent `{CipherBlocks} priv gen c :
  message_iv_len priv gen c = sent_iv_len priv gen true.
Proof.
  unfold message_iv_len, sent_iv_len, silc_cipher_get_block_len. rewrite blk_block_len.
  by destruct priv, gen.
Qed.

Lemma plain_wire_bytes flags data pad :
  bytes_ok data -> bytes_ok pad -> bytes_ok (plain_wire flags data pad).
Proof. intros. unfold plain_wire. repeat (apply Forall_app; split); auto with silc. Qed.

(** Decryption, from the MAC to the plain payload. *)
Lemma payload_decrypt_spec `{CipherBlocks} `{HashLaws} c d h flags data pad sigb iv priv static
    sid rid :
  let plain := plain_wire flags data pad in
  zlen pad = sent_pad_len data -> zlen plain < 65536 -> bytes_ok plain ->
  zlen iv = sent_iv_len priv static true -> blk_peer (c_context c) (c_context d) ->
  is_block (used_iv c iv) -> used_iv d iv = used_iv c iv -> zlen sigb < 2 ^ 20 ->
  hmac_ready h -> zlen sid < 2 ^ 31 -> zlen rid < 2 ^ 31 ->
  exists y iv2 e2 d2,
    alg_encrypt (c_context c) plain (used_iv c iv) = Some (y, iv2, e2) /\
    zlen y = zlen plain /\ blk_peer e2 d2 /\ is_block iv2 /\
    let body := y ++ sigb ++ iv in
    exists h', same_key h h' /\
      silc_message_payload_decrypt (body ++ message_mac h body (sid ++ rid)) priv static d h sid rid true =
      (true, plain ++ sigb ++ next_iv iv iv2 ++ message_mac h body (sid ++ rid),
       after_cipher d iv iv2 d2, h').
Proof.
  intros plain Hp Hl Hb Hiv Hpeer Hblk Hused Hsl Hr Hs Hrid.
  assert (zlen iv = 0 \/ zlen iv = 16) as Hi
    by (rewrite Hiv; unfold sent_iv_len; destruct (true && _); lia).
  destruct (decrypt_payload_spec c d flags data pad sigb iv Hp Hl Hb Hi Hpeer Hblk Hused
    ltac:(lia)) as (y & iv2 & e2 & d2 & He & Ly & Hp2 & Hv2 & Hdec).
  exists y, iv2, e2, d2. split; [done|]. split; [done|]. split; [done|]. split; [done|].
  intros body. pose proof (message_mac_len h body (sid ++ rid) Hr) as Lm.
  pose proof Hr as [Hhl _]. pose proof hash_len_block. pose proof hash_block_len_64.
  destruct (plain_whole flags data pad Hp) as [_ H16]. fold plain in H16, Ly, Hl.
  assert (zlen body = zlen plain + zlen sigb + zlen iv) as Lb
    by (unfold body; rewrite !length_app; lia).
  destruct (check_mac_accepts body h sid rid Hr) as (h' & Ec & El & Ek); [lia..|].
  exists h'. split; [done|]. unfold silc_message_payload_decrypt, silc_hmac_len,
    silc_cipher_get_block_len. rewrite message_iv_len_sent, <- Hiv, blk_block_len.
  rewrite length_app, Nat2Z.inj_add, Lm, Lb.
  destruct (Z.ltb_spec (zlen plain + zlen sigb + zlen iv + hmac_len h) (hmac_len h + zlen iv + 16));
    [lia|].
  rewrite Ec. cbn [negb]. rewrite <- Lm. unfold body at 1. rewrite <- !app_assoc.
  rewrite Hdec by lia. done.
Qed.

(** C32. A channel message or a private message with a message key, whether signed or
    not, is parsed back: what silc_message_payload_encode makes of the flags
    and the data, silc_message_payload_parse on the side that has the same keys
    accepts, returning the same flags and data; the signature verifies with the
    public key of the pair; and sender and receiver are ready for the next
    message. *)
Theorem silc_message_payload_roundtrip `{CipherBlocks} `{HashLaws} `{PkcsLaws} `{!PkcsKeys _}
    flags data gen priv c d h hr rnd pub prv hash sid rid buffer sigb no_alloc :
  let iv_len := sent_iv_len priv gen true in
  0 <= flags < 65536 -> data <> [] -> bytes_ok data -> bytes_ok rnd -> 32 <= zlen rnd ->
  hmac_ready h -> same_key h hr -> message_peer (priv && negb gen) c d ->
  0 <= key_room flags pub prv ->
  zlen data + 22 + (hmac_len h + iv_len) + key_room flags pub prv <= 65529 ->
  match buffer with Some b => buf_ok b | None => True end ->
  sign_result flags pub prv hash (plain_wire flags data (sent_pad true iv_len rnd data)) sigb ->
  exists b c' h' r m d' hr',
    silc_message_payload_encode flags data (zlen data) gen priv (Some c) (Some h) rnd pub prv hash
      sid rid buffer = Some (Some b, Some c', Some h') /\
    silc_message_payload_parse (b_data b) priv gen (Some d) (Some hr) (message_id2str (IdClient sid))
      (receiver_bytes rid) no_alloc false = Some r /\
    pr_ret r = Some m /\ pr_cipher r = Some d' /\ pr_hmac r = Some hr' /\ pr_freed r = [] /\
    silc_message_get_flags m = flags /\ silc_message_get_data m = (Some data, zlen data) /\
    (forall key k hh, is_signed flags = true -> prv = Some k -> hash = Some hh -> key_pair key k ->
      silc_message_signed_verify m (Some key) (Some hh) = true) /\
    message_peer (priv && negb gen) c' d' /\ same_key h h' /\ same_key h hr'.
Proof.
  intros iv_len Hf Hne Hdb Hrb Hrl Hh Hsk [Hpeer Hown] Hk Hsz Hb Hs.
  set (pad := sent_pad true iv_len rnd data) in *. set (iv := ztake iv_len rnd).
  set (plain := plain_wire flags data pad) in *.
  assert (0 <= iv_len <= 16) as Hi by (unfold iv_len, sent_iv_len; destruct (true && _); lia).
  assert (zlen pad = sent_pad_len data) as Lp by (apply sent_pad_spec; lia).
  assert (zlen iv = iv_len) as Liv by (apply zlen_ztake; lia).
  pose proof (sent_pad_len_range data) as Hpr. pose proof Hh as [Hhl _].
  pose proof hash_len_block. pose proof hash_block_len_64.
  assert (0 < zlen data) as Hpos by (destruct data; [done|cbn [length]; lia]).
  assert (zlen plain = 6 + zlen data + zlen pad) as Lpl by apply plain_wire_len.
  assert (bytes_ok plain) as Hpb.
  { apply plain_wire_bytes; [done|]. unfold pad, sent_pad. by apply bytes_ok_cut, bytes_ok_cut. }
  assert (is_block (used_iv c iv) /\ used_iv d iv = used_iv c iv) as [Hblk Hused].
  { unfold used_iv. rewrite Liv. destruct (Z.eqb_spec iv_len 0) as [E|E].
    - destruct Hown as [? ?]; [|done]. revert E. unfold iv_len, sent_iv_len.
      by destruct priv, gen.
    - split; [|done]. split; [|by apply bytes_ok_cut]. rewrite Liv.
      revert E. unfold iv_len, sent_iv_len. by destruct (true && _). }
  assert (zlen (receiver_bytes rid) < 2 ^ 31) as Hrid
    by (pose proof (message_id2str_len rid); destruct rid; simpl in *; lia).
  pose proof (sign_result_len _ _ _ _ _ _ Hs) as Hsl.
  destruct (payload_decrypt_spec c d hr flags data pad sigb iv priv gen
    (message_id2str (IdClient sid)) (receiver_bytes rid)) as
    (y & iv2 & e2 & d2 & He & Ly & Hp2 & Hv2 & h2 & Hk2 & Hdec);
    [done|fold plain; lia|done|done|done|done|done|lia|by eapply same_key_ready|
     pose proof (message_id2str_len (IdClient sid)); lia|done|].
  fold plain in He, Ly, Hdec. rewrite (same_key_mac h hr) in Hdec by done.
  destruct (encode_encrypted flags data gen priv c h rnd pub prv hash sid rid buffer sigb y iv2 e2)
    as (b & h' & Eenc & _ & Eb & El & Ek); [done..|].
  fold iv_len iv in Eenc, Eb. cbv zeta in Hdec.
  change (message_id2str (IdClient sid) ++ receiver_bytes rid) with (message_ids sid rid) in Hdec.
  set (body := y ++ sigb ++ iv) in *. set (mac := message_mac h body (message_ids sid rid)) in *.
  assert (zlen mac = hmac_len h) as Lm by (by apply message_mac_len).
  assert (zlen (next_iv iv iv2) = zlen iv) as Lni.
  { apply (used_next c iv iv2 e2); [|by destruct Hv2].
    rewrite Liv. unfold iv_len, sent_iv_len. destruct (true && _); lia. }
  destruct (message_unformat_spec flags data pad pub prv hash sigb (next_iv iv iv2) mac no_alloc)
    as (sg & Hsg & Eun); [done|lia..|done|].
  fold plain in Eun, Hsg.
  eexists b, _, h', _, _, _, h2. split; [exact Eenc|].
  split.
  { unfold silc_message_payload_parse. rewrite Eb, Hdec.
    destruct Hk2 as [El2 _]. destruct Hsk as [El3 _]. unfold silc_hmac_len.
    rewrite El2, El3, <- Lm, message_iv_len_sent. fold iv_len. rewrite <- Liv, <- Lni, Eun. done. }
  cbn [pr_ret pr_cipher pr_hmac pr_freed]. split; [done|]. split; [done|]. split; [done|].
  split; [done|]. split; [done|]. split; [done|]. split.
  { intros key k hh Es Hprv Hhash Hkey.
    eapply (signed_verify_spec flags data pad pub prv hash sigb sg); try done; lia. }
  split; [|split; [done|destruct Hsk, Hk2; split; congruence]].
  split; [done|]. intros Ho. unfold after_cipher. cbn [c_iv].
  assert ((zlen iv =? 0) = true) as ->; [|done].
  rewrite Liv. unfold iv_len, sent_iv_len. by destruct priv, gen.
Qed.

(** C33. A message is decrypted only when its MAC is right: silc_message_payload_parse
    with a cipher returns for every payload, and either the payload ends in the
    HMAC of what is before it and the two IDs (or, old style, without the IDs),
    or nothing is returned or stored and payload and cipher are untouched. *)
Theorem silc_message_payload_authentic `{CipherAlg} `{HashLaws} `{PkcsKeys} payload priv static c h
    sid rid no_alloc given :
  let n := zlen payload - hmac_len h in
  hmac_ready h -> 0 < alg_block_len -> zlen payload < 2 ^ 31 ->
  zlen sid < 2 ^ 31 -> zlen rid < 2 ^ 31 ->
  exists r,
    silc_message_payload_parse payload priv static (Some c) (Some h) sid rid no_alloc given = Some r /\
    (hmac_len h + message_iv_len priv static c + alg_block_len <= zlen payload /\
     (zdrop n payload = message_mac h (ztake n payload) (sid ++ rid) \/
      zdrop n payload = message_mac h (ztake n payload) [])
     \/
     pr_ret r = None /\ pr_message r = None /\ pr_payload r = payload /\ pr_cipher r = Some c /\
     pr_freed r = []).
Proof.
  intros n Hh Hbl Hl Hs Hr. pose proof Hh as [Hhl _].
  assert (0 <= message_iv_len priv static c) as Hiv
    by (unfold message_iv_len, silc_cipher_get_block_len; destruct (_ || _); lia).
  unfold silc_message_payload_parse, silc_message_payload_decrypt, silc_hmac_len,
    silc_cipher_get_block_len.
  destruct (Z.ltb_spec (zlen payload) (hmac_len h + message_iv_len priv static c + alg_block_len)).
  { eexists. split; [done|]. by right. }
  unfold message_check_mac.
  destruct (mac_matches payload h [sid; rid] Hh) as (h1 & -> & El1 & Ek1);
    [lia|by repeat constructor|].
  fold n. cbn [concat]. rewrite app_nil_r.
  assert (hmac_ready h1) as Hh1 by (by apply (same_key_ready h)).
  destruct (mac_matches payload h1 [] Hh1) as (h2 & E2 & El2 & Ek2); [lia|by constructor|].
  rewrite El1 in E2. fold n in E2.
  assert (message_mac h1 (ztake n payload) (concat []) = message_mac h (ztake n payload) []) as Em
    by (by apply same_key_mac).
  rewrite Em in E2.
  destruct (bool_decide (zdrop n payload = message_mac h (ztake n payload) (sid ++ rid))) eqn:B1.
  - apply bool_decide_eq_true in B1. cbn [negb].
    destruct (message_decrypt_payload _ _ _ _) as [[[] p] c2]; [|eexists; split; [done|]; left; by auto].
    destruct (message_unformat _ _ _ _) as [[ok m] f]. eexists. split; [done|]. left. by auto.
  - rewrite E2.
    destruct (bool_decide (zdrop n payload = message_mac h (ztake n payload) [])) eqn:B2; cbn [negb].
    + apply bool_decide_eq_true in B2.
      destruct (message_decrypt_payload _ _ _ _) as [[[] p] c2];
        [|eexists; split; [done|]; left; by auto].
      destruct (message_unformat _ _ _ _) as [[ok m] f]. eexists. split; [done|]. left. by auto.
    + eexists. split; [done|]. by right.
Qed.

(** * What goes wrong *)

Lemma zlen_mem_put data pos x :
  0 <= pos <= zlen data -> zlen (mem_put data pos x) = Z.max (zlen data) (pos + zlen x).
Proof. intros. unfold mem_put. len. Qed.

(** Ciphers that keep the length. *)
Definition keeps_length `{CipherAlg} : Prop :=
  forall ctx x iv y iv2 ctx2, alg_decrypt ctx x iv = Some (y, iv2, ctx2) -> zlen y = zlen x.

Lemma decrypt_at_len `{CipherAlg} d data pos n data2 d2 :
  keeps_length -> 0 <= pos <= zlen data -> 0 <= n ->
  message_decrypt_at d data pos n None = Some (data2, d2) ->
  zlen data2 = Z.max (zlen data) (pos + n) /\ ztake pos data2 = ztake pos data.
Proof.
  intros Hk Hp Hn. unfold message_decrypt_at, silc_cipher_decrypt.
  destruct (alg_decrypt _ _ _) as [[[y iv2] ctx]|] eqn:E; [|done]. intros [= <- _].
  apply Hk in E. rewrite zlen_mem_read in E by lia.
  rewrite zlen_mem_put, E by done. split; [done|]. unfold mem_put.
  rewrite ztake_app_exact; [done|]. by rewrite zlen_ztake.
Qed.

Lemma get16_front a b : ztake 16 a = ztake 16 b -> 16 <= zlen a -> 16 <= zlen b ->
  SILC_GET16_MSB (zdrop 2 a) = SILC_GET16_MSB (zdrop 2 b).
Proof.
  intros E La Lb. rewrite <- (ztake_zdrop 16 a), <- (ztake_zdrop 16 b), E.
  assert (zlen (ztake 16 b) = 16) as L by (apply zlen_ztake; lia).
  rewrite !zdrop_app_le by lia. unfold SILC_GET16_MSB.
  by rewrite !byte_at_app_l by (rewrite zlen_zdrop; lia).
Qed.

(** C39. The lengths silc_message_payload_datalen and silc_message_payload_decrypt
    compute.  With the headers counted as [d], data is cut only from d = 65541
    on: for 65530 <= d <= 65540 the unparenthesised macro makes it longer than
    the caller's data by 65541 - d bytes, which are read behind it.  A payload
    without IV is decrypted to the end of the padding its length field implies,
    which may lie 16 bytes less the length of the MAC behind the payload. *)
Theorem silc_message_payload_bounds `{CipherAlg} `{PkcsKeys} :
  (forall n h flags pub prv,
     (is_signed flags = true -> prv <> None) -> 0 <= n -> 0 <= h -> 0 <= key_room flags pub prv ->
     h + key_room flags pub prv <= 65519 -> n < 2 ^ 31 ->
     let d := n + 22 + h + key_room flags pub prv in
     silc_message_payload_datalen n h flags pub prv =
       Some (if d <=? 65529 then n else n + 65541 - d)) /\
  (forall data c mac_len data2 c2,
     keeps_length -> alg_block_len = 16 -> 16 <= zlen data < 2 ^ 31 -> 0 <= mac_len < 2 ^ 31 ->
     message_decrypt_payload data c mac_len 0 = (true, data2, c2) ->
     let len := SILC_GET16_MSB (zdrop 2 data2) in
     len < 65530 ->
     6 + len + mac_len <= zlen data /\
     zlen data2 = Z.max (zlen data) 
         (if 16 <=? 6 + len then 6 + len + SILC_MESSAGE_PAD (6 + len) else 16)).
Proof.
  split.
  - intros n h flags pub prv Hs Hn Hh Hk Hb Hl d. rewrite datalen_eq by done. cbv zeta. fold d.
    assert (0 <= d < 2 ^ 32) as Hd by (unfold d; lia). rewrite (u32_id d) by lia.
    destruct (Z.ltb_spec 65529 d), (Z.leb_spec d 65529); try lia; [|done]. f_equal.
    unfold u32. change (2 ^ 32) with 4294967296 in *. unfold d in *.
    Z.to_euclidean_division_equations. lia.
  - intros data c mac_len data2 c2 Hk Hbl Hd Hm. unfold message_decrypt_payload.
    unfold silc_cipher_get_block_len. rewrite Hbl. cbn [Z.eqb].
    destruct (message_decrypt_at c data 0 16 None) as [[data1 c1]|] eqn:E1; [|done].
    apply decrypt_at_len in E1 as [L1 _]; [|done|lia|lia].
    pose proof (SILC_GET16_MSB_range (zdrop 2 data1)) as Hr.
    set (len := SILC_GET16_MSB (zdrop 2 data1)) in *. cbv zeta.
    destruct (Z.ltb_spec (zlen data) (u16 (2 + (2 + len)) + 0 + mac_len + 2)); [done|].
    assert (forall data3, ztake 16 data3 = ztake 16 data1 -> 16 <= zlen data3 ->
      SILC_GET16_MSB (zdrop 2 data3) = len) as G by (intros; apply get16_front; lia || done).
    destruct (Z.leb_spec 16 (u16 (u16 (2 + (2 + len)) + 2))) as [H16|H16].
    + destruct (message_decrypt_at c1 data1 16 _ None) as [[data3 c3]|] eqn:E2; [|done].
      intros [= <- <-].
      assert (0 <= u32 (u32 (u16 (u16 (2 + (2 + len)) + 2) - 16) +
        SILC_MESSAGE_PAD (u16 (u16 (2 + (2 + len)) + 2)))) as Hn by apply u32_range.
      apply decrypt_at_len in E2 as [L2 T2]; [|done|lia|done].
      rewrite (G data3) by (done || lia). intros Hlen.
      rewrite (u16_id (2 + (2 + len))) in * by lia. rewrite u16_id in * by lia.
      replace (2 + (2 + len) + 2) with (6 + len) in * by lia.
      assert (1 <= SILC_MESSAGE_PAD (6 + len) <= 16) as Hp
        by (unfold SILC_MESSAGE_PAD; pose proof (Z.mod_pos_bound (6 + len) 16); lia).
      rewrite (u32_id (6 + len - 16)) in L2 by lia. rewrite u32_id in L2 by lia.
      destruct (Z.leb_spec 16 (6 + len)); lia.
    + intros [= <- <-]. rewrite (G data1) by (done || lia). intros Hlen.
      rewrite (u16_id (2 + (2 + len))) in * by lia. rewrite u16_id in * by lia.
      destruct (Z.leb_spec 16 (6 + len)); lia.
Qed.

Lemma signed_parse_freed data s f : silc_message_signed_payload_parse data = (true, s, f) -> f = [].
Proof.
  unfold silc_message_signed_payload_parse.
  destruct (silc_buffer_unformat _ _) as [[ret out] b]. destruct (_ || _); [done|].
  destruct (silc_buffer_unformat _ _) as [[ret2 out2] b2]. destruct (_ || _); [done|].
  destruct (_ <? 1); [done|]. by intros [= _ <-].
Qed.

(** A SILC_MESSAGE_FLAG_SIGNED Payload with a public key and an empty signature. *)
Lemma signed_parse_no_signature pk t :
  1 <= zlen pk < 65536 -> 0 <= t < 65536 ->
  silc_message_signed_payload_parse (sig_wire pk t []) =
  (false, {| sig_pk_data := Some pk; sig_sign_data := None; sig_pk_len := zlen pk;
             sig_pk_type := t; sig_sign_len := 0 |}, [FreePkData]).
Proof.
  intros Hp Ht. pose proof (sig_wire_len pk t []) as Hl. cbn [length] in Hl.
  unfold silc_message_signed_payload_parse. rewrite Hl.
  assert (buf_ok (silc_buffer_set (sig_wire pk t []))) as Hok
    by (apply buffer_set_ok; unfold SILC_MAX_ALLOC; lia).
  set (d := pk ++ SILC_PUT16_MSB 0). assert (zlen d = zlen pk + 2) as Ld by (unfold d; len).
  rewrite (unformat_some _ _ [ONum (zlen pk); ONum t] d Hok).
  2: { by repeat constructor. }
  2: { unfold sig_wire. cbn [b_data silc_buffer_set]. rewrite !parse_U16.
       rewrite !u16_id by lia. by rewrite app_nil_r. }
  cbn [b_data silc_buffer_set]. rewrite u32_id by lia.
  rewrite Hl, Ld. ret_case; [lia|]. cbn [out_num nth_error orb].
  destruct (Z.ltb_spec (6 + zlen pk + Z.of_nat 0 - 4) (zlen pk)); [lia|].
  set (b := silc_buffer_pull _ _).
  assert (b = {| b_head := SILC_PUT16_MSB (zlen pk) ++ SILC_PUT16_MSB t; b_data := d;
                 b_tail := [] |}) as Eb.
  { unfold b, silc_buffer_set, sig_wire in Hok |- *. rewrite app_assoc in Hok |- *.
    rewrite buffer_pull_app by done. by rewrite app_nil_r. }
  assert (buf_ok b) as Hokb by (rewrite Eb; unfold SILC_MAX_ALLOC; buf_arith).
  rewrite (unformat_some b _ [OPtr (Some pk); ONum 0; OPtr None] [] Hokb).
  2: { repeat constructor; simpl; lia. }
  2: { rewrite Eb. cbn [b_data]. unfold d. rewrite parse_DATA_ALLOC by done.
       rewrite (dup_bytes_some pk) by (unfold SILC_MAX_ALLOC; lia). done. }
  assert (zlen (b_data b) = zlen d) as Lb by (by rewrite Eb).
  rewrite buffer_len_ok by done. rewrite Lb, Ld.
  ret_case; [cbn [length] in *; lia|]. cbn [out_num out_ptr nth_error orb sig_sign_len].
  rewrite u32_id by lia. by destruct (Z.ltb_spec (zlen pk + 2 - zlen pk - 2) 0); [lia|].
Qed.

(** C40. What silc_message_payload_parse frees.  A parse that returns a payload frees
    nothing, and none is returned in a structure the caller passed; but after a
    SILC_MESSAGE_FLAG_SIGNED Payload with a public key and no signature the
    public key is freed twice. *)
Theorem silc_message_payload_parse_frees `{CipherAlg} `{HashAlg} `{PkcsKeys} :
  (forall payload priv static c h sid rid no_alloc given r m,
     silc_message_payload_parse payload priv static c h sid rid no_alloc given = Some r ->
     pr_ret r = Some m -> pr_freed r = [] /\ given = false) /\
  (forall flags data pad pk t static sid rid,
     0 <= flags < 65536 -> is_signed flags = true -> 0 < zlen data < 65536 ->
     0 < zlen pad < 65536 -> 1 <= zlen pk < 65536 -> 0 <= t < 65536 ->
     exists r,
       silc_message_payload_parse (plain_wire flags data pad ++ sig_wire pk t []) true static
         None None sid rid false false = Some r /\
       pr_ret r = None /\
       pr_freed r = [FreePkData; FreePkData; FreeData; FreePad; FreePayload]).
Proof.
  split.
  - intros payload priv static c h sid rid no_alloc given r m. unfold silc_message_payload_parse.
    destruct (match c with Some c => _ | None => _ end) as [[[[[] p] c'] h']|]; [| |done].
    2: { by intros [= <-]. }
    set (mac_len := match h' with Some h => silc_hmac_len h | None => 0 end).
    set (iv_len := match c' with Some c => message_iv_len priv static c | None => 0 end).
    destruct (message_unformat p mac_len iv_len no_alloc) as [[ok msg] f] eqn:E.
    destruct ok; [|by intros [= <-]]. intros [= <-]. cbn [pr_ret pr_freed].
    destruct given; [done|]. intros _. split; [|done]. revert E. unfold message_unformat.
    destruct (silc_buffer_unformat _ _) as [[ret out] b]. destruct (ret =? -1); [done|].
    destruct (_ || _); [done|]. destruct (_ && _); [|by intros [= _ <-]].
    destruct (silc_message_signed_payload_parse _) as [[ok s] f'] eqn:E2.
    intros [= -> _ <-]. by apply signed_parse_freed in E2.
  - intros flags data pad pk t static sid rid Hf Hs Hd Hp Hk Ht.
    unfold silc_message_payload_parse. set (rest := sig_wire pk t []).
    pose proof (sig_wire_len pk t []) as Lr. cbn [length] in Lr. fold rest in Lr.
    pose proof (plain_wire_len flags data pad) as Lpl.
    set (payload := plain_wire flags data pad ++ rest).
    assert (zlen payload = 12 + zlen data + zlen pad + zlen pk) as Lp
      by (unfold payload; rewrite length_app; lia).
    assert (zlen payload < SILC_MAX_ALLOC) as Hm by (unfold SILC_MAX_ALLOC; lia).
    pose proof (unformat_plain flags data pad rest false Hf Hd Hp Hm) as U.
    cbv zeta in U. fold payload in U. unfold message_unformat. rewrite U.
    rewrite buffer_set_len by done. cbn [out_num out_ptr nth_error]. ret_case; [lia|].
    rewrite Lp, u32_id by lia.
    destruct (Z.ltb_spec (12 + zlen data + zlen pad + zlen pk - 6 - 0 - 0) (zlen data)); [lia|].
    destruct (Z.ltb_spec (12 + zlen data + zlen pad + zlen pk - 6 - 0 - 0) (zlen pad + zlen data));
      [lia|]. cbn [orb]. fold (is_signed flags). rewrite Hs. cbn [andb].
    destruct (Z.ltb_spec (zlen data + zlen pad + 6 + 0 + 0) (12 + zlen data + zlen pad + zlen pk));
      [|lia].
    unfold payload. rewrite zdrop_app_exact by lia. rewrite mem_read_exact by lia.
    unfold rest. rewrite signed_parse_no_signature by done. eexists. split; [done|done].
Qed.

(** * Witnesses *)

#[local] Instance toy_keys : PkcsKeys toy_pkcs :=
  Build_PkcsKeys toy_pkcs (fun k : Z => 8) (fun k : Z => 8) (fun k : Z => 1)
    (fun t d => @Some Z (byte_at d 0)).

Definition witness_sha1_hmac : SilcHmac (H := sha1) :=
  @Build_SilcHmac sha1 12 sha1_wiped [] [] (Some (zrepeat 11 20)).

Definition witness_sender : SilcClientID :=
  {| cid_ip := {| ip_data := [127; 0; 0; 1]; ip_data_len := 4 |}; cid_rnd := 3;
     cid_hash := zrepeat 1 11 |}.

Lemma witness_hmac_ready : hmac_ready (H1 := sha1) witness_sha1_hmac.
Proof. by split. Qed.

(** A signed channel message with AES-CBC and HMAC-SHA1-96. *)
Lemma silc_message_payload_roundtrip_witness :
  exists b c' h' r m,
    silc_message_payload_encode (H := aes_cbc (H := toy_cipher)) (H0 := sha1) (H2 := toy_keys)
      0x20 [104; 105] 2 true false (Some witness_cbc) (Some witness_sha1_hmac) (zrepeat 9 32)
      (Some 5) (Some 5) (Some tt) witness_sender witness_channel_id None =
      Some (Some b, Some c', Some h') /\
    silc_message_payload_parse (b_data b) false true (Some witness_cbc) (Some witness_sha1_hmac)
      (message_id2str (IdClient witness_sender)) (receiver_bytes witness_channel_id) false false =
      Some r /\
    pr_ret r = Some m /\ msg_data m = Some [104; 105] /\
    silc_message_signed_verify (H1 := toy_pkcs) m (Some 5) (Some tt) = true.
Proof.
  destruct (silc_message_payload_roundtrip (H := aes_cbc (H := toy_cipher)) (H1 := sha1)
    (H3 := toy_pkcs) (H4 := toy_pkcs_laws) (PkcsKeys0 := toy_keys) 0x20 [104; 105] true false witness_cbc witness_cbc
    witness_sha1_hmac witness_sha1_hmac (zrepeat 9 32) (Some 5) (Some 5) (Some tt) witness_sender
    witness_channel_id None (sig_wire [5] 1 [5; 21]) false)
    as (b & c' & h' & r & m & d' & hr & He & Hp & Hm & _ & _ & _ & _ & Hd & Hv & _).
  - done.
  - done.
  - by apply bytes_ok_check.
  - by apply bytes_ok_check.
  - done.
  - exact witness_hmac_ready.
  - done.
  - split; [reflexivity|done].
  - done.
  - done.
  - done.
  - exists 5, tt, (Some [5]), [5; 21]. by split_and!.
  - exists b, c', h', r, m. split; [exact He|]. split; [exact Hp|]. split; [exact Hm|].
    split; [by injection Hd|]. apply (Hv 5 5 tt); reflexivity.
Defined.

(** Sixty bytes that do not end in their HMAC-SHA1-96. *)
Lemma silc_message_payload_authentic_witness :
  exists r,
    silc_message_payload_parse (H := aes_cbc (H := toy_cipher)) (H0 := sha1) 
      (zrepeat 1 60) false true (Some witness_cbc) (Some witness_sha1_hmac) [1; 2] [3] false false =
      Some r /\ pr_ret r = None /\ pr_payload r = zrepeat 1 60.
Proof.
  destruct (silc_message_payload_authentic (H := aes_cbc (H := toy_cipher)) (H0 := sha1)
    (H1 := sha1_laws) (H2 := toy_pkcs) (H3 := toy_keys) (zrepeat 1 60) false true witness_cbc
    witness_sha1_hmac [1; 2] [3] false false) as (r & E & Hr).
  - exact witness_hmac_ready.
  - done.
  - done.
  - done.
  - done.
  - exists r. split; [exact E|]. destruct Hr as [[_ [Hm|Hm]]|Hr].
    + exfalso. revert Hm. vm_compute. discriminate.
    + exfalso. revert Hm. vm_compute. discriminate.
    + destruct Hr as (Hn & _ & Hp & _). split; [exact Hn|exact Hp].
Defined.

Lemma cbc_decrypt_loop_len `{BlockCipher} k nb src iv :
  zlen (cbc_decrypt_loop k nb src iv).1 = 16 * Z.of_nat nb.
Proof.
  revert src iv; induction nb as [|nb IH]; intros src iv; [done|]. cbn [cbc_decrypt_loop].
  specialize (IH (zdrop 16 src) (ztake 16 src)).
  destruct (cbc_decrypt_loop k nb _ _) as [dst iv2]. cbn [fst] in *.
  rewrite length_app, Nat2Z.inj_add, zlen_xor_block, IH. lia.
Qed.

Lemma cbc_keeps_length `{BlockCipher} : keeps_length (H := aes_cbc).
Proof.
  intros ctx x iv y iv2 ctx2. cbn. unfold silc_aes_cbc_decrypt. rewrite land_15 by lia.
  destruct (Z.eqb_spec (zlen x mod 16) 0) as [Hm|]; cbn [negb]; [|done].
  pose proof (cbc_decrypt_loop_len ctx (Z.to_nat (Z.shiftr (zlen x) 4)) x iv) as L.
  rewrite <- whole_rounds in L by lia.
  destruct (cbc_decrypt_loop _ _ _ _) as [dst iv3]. by intros [= <- _ _].
Qed.

(** A payload of 28 bytes with a MAC of 12 and the length field 10. *)
Definition witness_overrun : list Z := [4; 4; 4; 14] ++ zrepeat 4 12 ++ zrepeat 0 12.

Definition witness_own_iv : SilcCipher (H := aes_cbc (H := toy_cipher)) :=
  @Build_SilcCipher (aes_cbc (H := toy_cipher)) (c_context witness_cbc) (zrepeat 7 16).

Lemma silc_message_payload_bounds_witness :
  silc_message_payload_datalen (H2 := toy_keys) 65500 12 0 None None = Some 65507 /\
  exists data2 c2,
    message_decrypt_payload witness_overrun witness_own_iv 12 0 = (true, data2, c2) /\
    zlen witness_overrun = 28 /\ zlen data2 = 32.
Proof.
  destruct (silc_message_payload_bounds (H := aes_cbc (H := toy_cipher)) (H1 := toy_keys))
    as [Hd Ho].
  split.
  - rewrite (Hd 65500 12 0 None None); [reflexivity|discriminate|done..].
  - destruct (message_decrypt_payload witness_overrun witness_own_iv 12 0) as [[ok data2] c2] eqn:E.
    assert ((message_decrypt_payload witness_overrun witness_own_iv 12 0).1.1 = true) as Eok
      by (vm_compute; reflexivity).
    rewrite E in Eok. cbn [fst] in Eok. subst ok. exists data2, c2. split; [done|].
    split; [reflexivity|].
    assert (SILC_GET16_MSB (zdrop 2 (message_decrypt_payload witness_overrun witness_own_iv 12 0).1.2)
      = 10) as El by (vm_compute; reflexivity).
    rewrite E in El. cbn [fst snd] in El.
    destruct (Ho witness_overrun witness_own_iv 12 data2 c2) as [_ L];
      [apply cbc_keeps_length|reflexivity|vm_compute; split; [discriminate|reflexivity]|
       split; [discriminate|reflexivity]|exact E|rewrite El; reflexivity|].
    rewrite El in L. rewrite L. reflexivity.
Defined.

Lemma silc_message_payload_parse_frees_witness :
  exists r,
    silc_message_payload_parse (H := aes_cbc (H := toy_cipher)) (H0 := toy_hash)
      (plain_wire 0x20 [104] (zrepeat 0 9) ++ sig_wire [5] 1 []) true false None None [] []
      false false = Some r /\ pr_freed r = [FreePkData; FreePkData; FreeData; FreePad; FreePayload].
Proof.
  destruct (silc_message_payload_parse_frees (H := aes_cbc (H := toy_cipher)) (H0 := toy_hash)
    (H2 := toy_keys)) as [_ Hf].
  destruct (Hf 0x20 [104] (zrepeat 0 9) [5] 1 false [] []) as (r & E & _ & Ef);
    [done|done|done|done|done|done|].
  exists r. split; [exact E|exact Ef].
Defined.
