(* ===== verification/Attrs.v ===== *)
(** lib/silccore/silcattrs.c: attributes, their payloads and lists, the data that
    is signed, and the objects of the attribute types.

    An object is a value of its type: a [void *] of another type has another
    object_size, for which the code returns NULL.  vCards and MIME messages are
    the interface [AttrCodecs].  A string is the characters before its NUL. *)

From S2P Require Import Prelude CTypes Buffer BufFmt.

Definition SILC_ATTRIBUTE_USER_INFO : Z := 1.
Definition SILC_ATTRIBUTE_SERVICE : Z := 2.
Definition SILC_ATTRIBUTE_STATUS_MOOD : Z := 3.
Definition SILC_ATTRIBUTE_STATUS_FREETEXT : Z := 4.
Definition SILC_ATTRIBUTE_STATUS_MESSAGE : Z := 5.
Definition SILC_ATTRIBUTE_PREFERRED_LANGUAGE : Z := 6.
Definition SILC_ATTRIBUTE_PREFERRED_CONTACT : Z := 7.
Definition SILC_ATTRIBUTE_TIMEZONE : Z := 8.
Definition SILC_ATTRIBUTE_GEOLOCATION : Z := 9.
Definition SILC_ATTRIBUTE_DEVICE_INFO : Z := 10.
Definition SILC_ATTRIBUTE_EXTENSION : Z := 11.
Definition SILC_ATTRIBUTE_USER_PUBLIC_KEY : Z := 12.
Definition SILC_ATTRIBUTE_SERVER_PUBLIC_KEY : Z := 13.
Definition SILC_ATTRIBUTE_USER_DIGITAL_SIGNATURE : Z := 14.
Definition SILC_ATTRIBUTE_SERVER_DIGITAL_SIGNATURE : Z := 15.
Definition SILC_ATTRIBUTE_USER_ICON : Z := 16.
Definition SILC_ATTRIBUTE_PHONE_NUMBER : Z := 17.

Definition SILC_ATTRIBUTE_FLAG_INVALID : Z := 1.
Definition SILC_ATTRIBUTE_FLAG_VALID : Z := 2.

(** silcvcard.h and silcmime.h. *)
Class AttrCodecs := {
  SilcVCard : Type;
  SilcMime : Type;
  silc_vcard_encode : SilcVCard -> option (list Z);
  silc_vcard_decode : list Z -> option SilcVCard;
  silc_mime_encode : SilcMime -> option (list Z);
  silc_mime_decode : list Z -> option SilcMime;
}.

(** The data is allocated with the payload; NULL when it has no bytes. *)
Record SilcAttributePayload := {
  at_attribute : Z;
  at_flags : Z;
  at_data_len : Z;
  at_data : option (list Z);
}.

(** [address] and [signon] are arrays of 256 and 64 bytes in the structure. *)
Record SilcAttributeObjService := {
  svc_port : Z;
  svc_idle : Z;
  svc_signon : list Z;
  svc_address : list Z;
  svc_status : Z;
}.

Record SilcAttributeObjGeo := {
  geo_longitude : option (list Z);
  geo_latitude : option (list Z);
  geo_altitude : option (list Z);
  geo_accuracy : option (list Z);
}.

Record SilcAttributeObjDevice := {
  dev_type : Z;
  dev_manufacturer : option (list Z);
  dev_version : option (list Z);
  dev_model : option (list Z);
  dev_language : option (list Z);
}.

Record SilcAttributeObjPk := {
  apk_type : option (list Z);
  apk_data : option (list Z);
  apk_data_len : Z;
}.

Record SilcAttributeObjPN := {
  pn_format : Z;
  pn_number : option (list Z);
}.

Section attrs.
Context `{AttrCodecs}.

(** [AO_mask]: a SilcUInt32 in the pointer; [AO_string]: an array of object_size
    bytes. *)
Inductive SilcAttributeObject :=
| AO_vcard (v : SilcVCard)
| AO_service (s : SilcAttributeObjService)
| AO_mask (mask : Z)
| AO_string (s : list Z)
| AO_mime (m : SilcMime)
| AO_geo (g : SilcAttributeObjGeo)
| AO_device (d : SilcAttributeObjDevice)
| AO_pk (p : SilcAttributeObjPk)
| AO_pn (p : SilcAttributeObjPN).

(** * Encoding objects *)

Definition str_len (s : option (list Z)) : Z := match s with Some s => zlen s | None => 0 end.

(** [len ? string : ""] *)
Definition str_or_empty (s : option (list Z)) : list FormatParam :=
  [F_UI16_SHORT (str_len s); F_STRING (if str_len s =? 0 then Some [] else s)].

(** silc_buffer_alloc_size and silc_buffer_format, whose result is not looked at. *)
Definition format_object (size : Z) (ap : list FormatParam) : option (list Z) :=
  match silc_buffer_alloc_size size with
  | None => None
  | Some b => Some (b_data (silc_buffer_format b ap).2)
  end.

Definition encode_service (s : SilcAttributeObjService) : option (list Z) :=
  let len := zlen (svc_address s) in
  let len2 := zlen (svc_signon s) in
  format_object (u32 (13 + len + len2))
    [F_UI32_INT (svc_port s); F_UI16_SHORT len; F_DATA (Some (svc_address s)) len;
     F_UI8_CHAR (svc_status s); F_UI16_SHORT len2; F_DATA (Some (svc_signon s)) len2;
     F_UI32_INT (svc_idle s)].

Definition encode_geo (g : SilcAttributeObjGeo) : option (list Z) :=
  let len := u32 (str_len (geo_longitude g) + str_len (geo_latitude g) + str_len (geo_altitude g) +
                  str_len (geo_accuracy g)) in
  if len =? 0 then None
  else
    format_object (u32 (8 + len))
      (str_or_empty (geo_longitude g) ++ str_or_empty (geo_latitude g) ++
       str_or_empty (geo_altitude g) ++ str_or_empty (geo_accuracy g)).

Definition encode_device (d : SilcAttributeObjDevice) : option (list Z) :=
  let len := u32 (str_len (dev_manufacturer d) + str_len (dev_version d) + str_len (dev_model d) +
                  str_len (dev_language d)) in
  if len =? 0 then None
  else
    format_object (u32 (4 + 8 + len))
      (F_UI32_INT (dev_type d) ::
       str_or_empty (dev_manufacturer d) ++ str_or_empty (dev_version d) ++
       str_or_empty (dev_model d) ++ str_or_empty (dev_language d)).

Definition encode_pn (p : SilcAttributeObjPN) : option (list Z) :=
  match pn_number p with
  | None => None
  | Some n =>
      if zlen n <? 5 then None
      else
        match silc_buffer_alloc 0 with
        | None => None
        | Some b =>
            let '(ret, b) := silc_buffer_format b
                               [F_UI32_INT (pn_format p); F_UI16_SHORT (zlen n); F_STRING (Some n)] in
            if ret <? 0 then None else Some (b_data b)
        end
  end.

Definition encode_pk (p : SilcAttributeObjPk) : option (list Z) :=
  let len := str_len (apk_type p) in
  format_object (u32 (2 + len + apk_data_len p))
    [F_UI16_SHORT len; F_STRING (apk_type p); F_DATA (apk_data p) (apk_data_len p)].

(** The bytes of an object of the type of the attribute. *)
Definition encode_object (attribute : Z) (object : SilcAttributeObject) : option (list Z) :=
  let ty := fun t => attribute =? t in
  if ty SILC_ATTRIBUTE_USER_INFO then
    match object with AO_vcard v => silc_vcard_encode v | _ => None end
  else if ty SILC_ATTRIBUTE_SERVICE then
    match object with AO_service s => encode_service s | _ => None end
  else if ty SILC_ATTRIBUTE_STATUS_MOOD || ty SILC_ATTRIBUTE_PREFERRED_CONTACT then
    match object with AO_mask mask => Some (SILC_PUT32_MSB (u32 mask)) | _ => None end
  else if ty SILC_ATTRIBUTE_STATUS_FREETEXT || ty SILC_ATTRIBUTE_PREFERRED_LANGUAGE ||
          ty SILC_ATTRIBUTE_TIMEZONE then
    match object with
    | AO_string s =>
        if silc_malloc_ok (u32 (2 + zlen s)) then Some (SILC_PUT16_MSB (zlen s) ++ s) else None
    | _ => None
    end
  else if ty SILC_ATTRIBUTE_STATUS_MESSAGE || ty SILC_ATTRIBUTE_EXTENSION ||
          ty SILC_ATTRIBUTE_USER_ICON then
    match object with AO_mime m => silc_mime_encode m | _ => None end
  else if ty SILC_ATTRIBUTE_GEOLOCATION then
    match object with AO_geo g => encode_geo g | _ => None end
  else if ty SILC_ATTRIBUTE_DEVICE_INFO then
    match object with AO_device d => encode_device d | _ => None end
  else if ty SILC_ATTRIBUTE_PHONE_NUMBER then
    match object with AO_pn p => encode_pn p | _ => None end
  else if ty SILC_ATTRIBUTE_USER_PUBLIC_KEY || ty SILC_ATTRIBUTE_SERVER_PUBLIC_KEY then
    match object with AO_pk p => encode_pk p | _ => None end
  else if ty SILC_ATTRIBUTE_USER_DIGITAL_SIGNATURE || ty SILC_ATTRIBUTE_SERVER_DIGITAL_SIGNATURE then
    match object with AO_pk p => Some (mem_read (match apk_data p with Some d => d | None => [] end)
                                         (apk_data_len p)) | _ => None end
  else None.

(** [None]: a NULL object.  object_size is 0 for an empty array only; a mask of 0 is
    the NULL pointer. *)
Definition silc_attribute_payload_encode_int (attribute flags : Z)
    (object : option SilcAttributeObject) : option (list Z) :=
  if Z.land flags SILC_ATTRIBUTE_FLAG_VALID =? 0 then None
  else
    match object with
    | None | Some (AO_string []) | Some (AO_mask 0) => None
    | Some object =>
        match encode_object attribute object with
        | None => None
        | Some d => silc_memdup d (zlen d)
        end
    end.

Definition silc_attribute_payload_alloc (attribute flags : Z) (object : option SilcAttributeObject)
  : option SilcAttributePayload :=
  match silc_attribute_payload_encode_int attribute flags object with
  | None => None
  | Some d => Some {| at_attribute := attribute; at_flags := flags; at_data_len := u16 (zlen d);
                      at_data := Some d |}
  end.

(** * Lists of payloads *)

Definition attribute_unformat (buffer : SilcBuffer) : option (SilcAttributePayload * SilcBuffer) :=
  let '(ret, out, buffer) :=
    silc_buffer_unformat buffer [U_UI8_CHAR true; U_UI8_CHAR true; U_NSTRING_ALLOC W16 true true] in
  if ret =? -1 then None
  else
    let newp := {| at_attribute := out_num out 0; at_flags := out_num out 1;
                   at_data_len := out_num out 2; at_data := out_ptr out 3 |} in
    if u32 (silc_buffer_len buffer - 4) <? at_data_len newp then None else Some (newp, buffer).

(** [fuel] bounds the loop; the payloads of the list, which is NULL on an error. *)
Fixpoint attribute_parse_loop (fuel : nat) (buffer : SilcBuffer) (l : list SilcAttributePayload)
  : option (option (list SilcAttributePayload)) :=
  match fuel with
  | O => None
  | S fuel =>
      if silc_buffer_len buffer =? 0 then Some (Some l)
      else
        match attribute_unformat buffer with
        | None => Some None
        | Some (newp, buffer) =>
            let len := u32 (4 + at_data_len newp) in
            if silc_buffer_len buffer <? len then Some (Some l)
            else attribute_parse_loop fuel (silc_buffer_pull buffer len) (l ++ [newp])
        end
  end.

Definition silc_attribute_payload_parse (fuel : nat) (payload : list Z)
  : option (option (list SilcAttributePayload)) :=
  attribute_parse_loop fuel (silc_buffer_set payload) [].

Definition silc_attribute_payload_encode_data (attrs : option SilcBuffer) (attribute flags : Z)
    (data : option (list Z)) (data_len : Z) : option SilcBuffer :=
  let len := u32 (4 + u16 data_len) in
  match silc_buffer_realloc attrs
          (match attrs with Some b => u32 (silc_buffer_truelen b + len) | None => len end) with
  | None => None
  | Some buffer =>
      let buffer := silc_buffer_pull buffer (silc_buffer_len buffer) in
      let buffer := silc_buffer_pull_tail buffer len in
      let buffer := (silc_buffer_format buffer
                       [F_UI8_CHAR attribute; F_UI8_CHAR flags; F_UI16_SHORT (u16 data_len);
                        F_DATA data (u16 data_len)]).2 in
      Some (silc_buffer_push buffer (silc_buffer_headlen buffer))
  end.

Definition silc_attribute_payload_encode (attrs : option SilcBuffer) (attribute flags : Z)
    (object : option SilcAttributeObject) : option SilcBuffer :=
  let d := silc_attribute_payload_encode_int attribute flags object in
  silc_attribute_payload_encode_data attrs attribute flags d (str_len d).

Definition silc_attribute_get_attribute (payload : SilcAttributePayload) : Z := at_attribute payload.
Definition silc_attribute_get_flags (payload : SilcAttributePayload) : Z := at_flags payload.
Definition silc_attribute_get_data (payload : SilcAttributePayload) : option (list Z) * Z :=
  (at_data payload, at_data_len payload).

(** ** The data that is signed *)

(** The inner [None]: out of memory.  The data is NULL as long as it is empty. *)
Fixpoint verify_data_loop (attrs : list SilcAttributePayload) (server_verification : bool)
    (data : option (list Z)) (len : Z) : option (option (list Z) * Z) :=
  match attrs with
  | [] => Some (data, len)
  | attr :: attrs =>
      if (at_attribute attr =? SILC_ATTRIBUTE_SERVER_DIGITAL_SIGNATURE) ||
         ((at_attribute attr =? SILC_ATTRIBUTE_USER_DIGITAL_SIGNATURE) && negb server_verification)
      then verify_data_loop attrs server_verification data len
      else if negb (silc_malloc_ok (u32 (4 + at_data_len attr + len))) then None
      else
        let b := silc_buffer_set (zrepeat indet (4 + at_data_len attr)) in
        let '(_, b) := silc_buffer_format b
                         [F_UI8_CHAR (at_attribute attr); F_UI8_CHAR (at_flags attr);
                          F_UI16_SHORT (at_data_len attr); F_DATA (at_data attr) (at_data_len attr)] in
        verify_data_loop attrs server_verification
          (Some (ztake len (match data with Some d => d | None => [] end) ++ b_data b))
          (u32 (len + (4 + at_data_len attr)))
  end.

Definition silc_attribute_get_verify_data (attrs : list SilcAttributePayload)
    (server_verification : bool) : option (option (list Z) * Z) :=
  verify_data_loop attrs server_verification None 0.

(** * Objects *)

(** memset and memcpy into an array of [size] bytes: the characters before its NUL. *)
Fixpoint before_nul (s : list Z) : list Z :=
  match s with
  | [] => []
  | c :: s => if c =? 0 then [] else c :: before_nul s
  end.

Definition copy_to_array (size : Z) (p : option (list Z)) (len : Z) : list Z :=
  before_nul (mem_read (match p with Some s => s | None => [] end)
                (if len <? size - 1 then len else size - 1)).

(** The characters of a string that was allocated with its NUL. *)
Definition ostring (p : option (list Z)) : option (list Z) := option_map before_nul p.

Definition get_service (data : list Z) (data_len : Z) : option SilcAttributeObjService :=
  if data_len <? 13 then None
  else
    let '(res, out, _) :=
      silc_buffer_unformat (silc_buffer_set (mem_read data data_len))
        [U_UI32_INT true; U_NSTRING W16 true true; U_UI8_CHAR true; U_NSTRING W16 true true;
         U_UI32_INT true] in
    if res =? -1 then None
    else Some {| svc_port := out_num out 0; svc_idle := out_num out 6;
                 svc_signon := copy_to_array 64 (out_ptr out 5) (out_num out 4);
                 svc_address := copy_to_array 256 (out_ptr out 2) (out_num out 1);
                 svc_status := out_num out 3 |}.

Definition get_geo (data : list Z) (data_len : Z) : option SilcAttributeObjGeo :=
  let '(res, out, _) :=
    silc_buffer_unformat (silc_buffer_set (mem_read data data_len))
      [U_STRING_ALLOC W16 true; U_STRING_ALLOC W16 true; U_STRING_ALLOC W16 true;
       U_STRING_ALLOC W16 true] in
  if res =? -1 then None
  else Some {| geo_longitude := ostring (out_ptr out 0); geo_latitude := ostring (out_ptr out 1);
               geo_altitude := ostring (out_ptr out 2); geo_accuracy := ostring (out_ptr out 3) |}.

Definition get_device (data : list Z) (data_len : Z) : option SilcAttributeObjDevice :=
  let '(res, out, _) :=
    silc_buffer_unformat (silc_buffer_set (mem_read data data_len))
      [U_UI32_INT true; U_STRING_ALLOC W16 true; U_STRING_ALLOC W16 true; U_STRING_ALLOC W16 true;
       U_STRING_ALLOC W16 true] in
  if res =? -1 then None
  else Some {| dev_type := out_num out 0; dev_manufacturer := ostring (out_ptr out 1);
               dev_version := ostring (out_ptr out 2); dev_model := ostring (out_ptr out 3);
               dev_language := ostring (out_ptr out 4) |}.

Definition get_pn (data : list Z) (data_len : Z) : option SilcAttributeObjPN :=
  let '(res, out, _) :=
    silc_buffer_unformat (silc_buffer_set (mem_read data data_len))
      [U_UI32_INT true; U_STRING_ALLOC W16 true] in
  if res =? -1 then None
  else Some {| pn_format := out_num out 0; pn_number := ostring (out_ptr out 1) |}.

Definition get_pk (data : list Z) (data_len : Z) : option SilcAttributeObjPk :=
  let '(res, out, buffer) :=
    silc_buffer_unformat (silc_buffer_set (mem_read data data_len)) [U_NSTRING_ALLOC W16 true true] in
  let len := out_num out 0 in
  if (res =? -1) || (u32 (silc_buffer_len buffer - 2) <? len) then None
  else
    let n := data_len - 2 - len in
    Some {| apk_type := ostring (out_ptr out 1);
            apk_data := silc_memdup (zdrop (2 + len) data) n; apk_data_len := n |}.

(** [string] is what is in the caller's array when the object is one. *)
Definition silc_attribute_get_object (payload : SilcAttributePayload) (string : list Z)
  : option SilcAttributeObject :=
  let data := match at_data payload with Some d => d | None => [] end in
  let data_len := at_data_len payload in
  let ty := fun t => at_attribute payload =? t in
  if negb (Z.land (at_flags payload) SILC_ATTRIBUTE_FLAG_INVALID =? 0) then None
  else if ty SILC_ATTRIBUTE_USER_INFO then
    option_map AO_vcard (silc_vcard_decode (mem_read data data_len))
  else if ty SILC_ATTRIBUTE_SERVICE then option_map AO_service (get_service data data_len)
  else if ty SILC_ATTRIBUTE_STATUS_MOOD || ty SILC_ATTRIBUTE_PREFERRED_CONTACT then
    if data_len <? 4 then None else Some (AO_mask (SILC_GET32_MSB data))
  else if ty SILC_ATTRIBUTE_STATUS_FREETEXT || ty SILC_ATTRIBUTE_PREFERRED_LANGUAGE ||
          ty SILC_ATTRIBUTE_TIMEZONE then
    if data_len <? 2 then None
    else
      let len := SILC_GET16_MSB data in
      if data_len <? 2 + len then None
      else if zlen string <? len then None
      else Some (AO_string (mem_read (zdrop 2 data) len ++ zdrop len string))
  else if ty SILC_ATTRIBUTE_STATUS_MESSAGE || ty SILC_ATTRIBUTE_EXTENSION ||
          ty SILC_ATTRIBUTE_USER_ICON then
    option_map AO_mime (silc_mime_decode (mem_read data data_len))
  else if ty SILC_ATTRIBUTE_GEOLOCATION then option_map AO_geo (get_geo data data_len)
  else if ty SILC_ATTRIBUTE_DEVICE_INFO then option_map AO_device (get_device data data_len)
  else if ty SILC_ATTRIBUTE_PHONE_NUMBER then option_map AO_pn (get_pn data data_len)
  else if ty SILC_ATTRIBUTE_USER_PUBLIC_KEY || ty SILC_ATTRIBUTE_SERVER_PUBLIC_KEY then
    option_map AO_pk (get_pk data data_len)
  else if ty SILC_ATTRIBUTE_USER_DIGITAL_SIGNATURE || ty SILC_ATTRIBUTE_SERVER_DIGITAL_SIGNATURE then
    Some (AO_pk {| apk_type := None; apk_data := silc_memdup data data_len;
                   apk_data_len := data_len |})
  else None.
End attrs.
