(* ===== verification/AttrsSpec.v ===== *)
(** What silcattrs.c promises: attribute lists are parsed exactly from what was
    encoded, the data that is signed is the encoding of the attributes it covers,
    and an attribute gives back the object it was made of. *)

From S2P Require Import Prelude CTypes Buffer BufFmt BufFmtSpec Attrs.

(** * Payloads on the wire *)

Definition at_wf (p : SilcAttributePayload) : Prop :=
  is_byte (at_attribute p) /\ is_byte (at_flags p) /\ oblk_wf (at_data p) (at_data_len p).

Definition at_wire (p : SilcAttributePayload) : list Z :=
  [at_attribute p; at_flags p] ++ blk_wire (at_data p).

Definition at_params (p : SilcAttributePayload) : list FormatParam :=
  [F_UI8_CHAR (at_attribute p); F_UI8_CHAR (at_flags p); F_UI16_SHORT (at_data_len p);
   F_DATA (at_data p) (at_data_len p)].

Definition at_fields : list UnformatParam :=
  [U_UI8_CHAR true; U_UI8_CHAR true; U_NSTRING_ALLOC W16 true true].

Lemma at_fields_plain : Forall unf_plain at_fields.
Proof. by repeat constructor. Qed.

Lemma at_wf_len p : at_wf p -> zlen (at_wire p) = 4 + at_data_len p /\ 0 <= at_data_len p < 65536.
Proof.
  intros (_ & _ & Hd). destruct (oblk_wf_len _ _ Hd). apply oblk_wire_len in Hd.
  unfold at_wire. len.
Qed.

Lemma at_params_bytes p : at_wf p -> Forall fmt_plain (at_params p) /\ fmt_bytes (at_params p) = at_wire p.
Proof.
  intros (Ha & Hf & Hd). unfold is_byte in *. destruct (oblk_wf_len _ _ Hd). split.
  - repeat constructor. unfold fmt_plain. lia.
  - unfold at_params, at_wire.
    transitivity ([u8 (at_attribute p); u8 (at_flags p)] ++
      fmt_bytes [F_UI16_SHORT (at_data_len p); F_DATA (at_data p) (at_data_len p)]); [done|].
    rewrite oblk_fmt, !u8_id by done. cbn [fmt_bytes map concat]. by rewrite app_nil_r.
Qed.

Lemma attribute_unformat_wire b p d :
  buf_ok b -> at_wf p -> b_data b = at_wire p ++ d -> attribute_unformat b = Some (p, b).
Proof.
  intros Hok Hwf Hd. destruct (at_wf_len p Hwf) as [Hl Hr]. destruct Hwf as (Ha & Hf & Hb).
  unfold attribute_unformat. fold at_fields.
  rewrite (unformat_some b at_fields
    [ONum (at_attribute p); ONum (at_flags p); ONum (at_data_len p); OPtr (at_data p)] d Hok
    at_fields_plain).
  2: { rewrite Hd. unfold at_wire, at_fields. rewrite <- app_assoc. cbn [app].
       by rewrite !parse_U8, (oblk_parse _ _ _ _ Hb). }
  assert (zlen (b_data b) = 4 + at_data_len p + zlen d) as Hlen by (rewrite Hd, length_app; lia).
  assert (zlen (b_data b) < SILC_MAX_ALLOC) by buf_arith.
  rewrite buffer_len_ok, Hlen by done. cbn [out_num nth_error out_ptr at_data_len].
  rewrite u32_id by (unfold SILC_MAX_ALLOC in *; lia). case_cmps. by destruct p.
Qed.

Lemma attribute_unformat_inv b p b' :
  buf_ok b -> bytes_ok (b_data b) -> attribute_unformat b = Some (p, b') ->
  b' = b /\ at_wf p /\ exists d, b_data b = at_wire p ++ d /\ bytes_ok d.
Proof.
  intros Hok Hb. unfold attribute_unformat. fold at_fields.
  destruct (parse at_fields (b_data b)) as [[outs rest]|] eqn:Ep.
  2: { destruct (unformat_none _ _ Hok at_fields_plain Ep) as (o & ->). done. }
  rewrite (unformat_some _ _ _ _ Hok at_fields_plain Ep). unfold at_fields in Ep.
  apply parse_U8_inv in Ep as (a & d1 & o1 & Hd & Ha & Hb1 & Ep & Ho); [|done].
  apply parse_U8_inv in Ep as (f & d2 & o2 & -> & Hf & Hb2 & Ep & Ho2); [|done].
  apply parse_block_inv in Ep as (x & n & d3 & o3 & -> & Hx & Hb3 & Ep & Ho3); [|done].
  apply parse_nil_inv in Ep. cbn [fst snd] in *. injection Ep as -> <-. subst.
  ret_case; [done|]. cbn [out_num nth_error out_ptr].
  destruct (_ <? _); [done|]. intros [= <- <-]. split_and!; [done|done|].
  exists rest. split; [|done]. by rewrite Hd.
Qed.

(** * The list loop *)

Definition ats_wire (l : list SilcAttributePayload) : list Z := concat (map at_wire l).

Lemma ats_wire_length l : Forall at_wf l -> (length l <= length (ats_wire l))%nat.
Proof.
  induction l as [|p l IH]; intros Hwf; [done|]. apply Forall_cons_iff in Hwf as [Hp Hwf].
  change (ats_wire (p :: l)) with (at_wire p ++ ats_wire l).
  destruct (at_wf_len p Hp). specialize (IH Hwf). rewrite length_app. cbn [length]. lia.
Qed.

(** One round on the wire form of a payload. *)
Lemma attribute_round b p d acc fuel :
  buf_ok b -> at_wf p -> b_data b = at_wire p ++ d ->
  exists b', attribute_parse_loop (S fuel) b acc = attribute_parse_loop fuel b' (acc ++ [p]) /\
    buf_ok b' /\ b_data b' = d.
Proof.
  intros Hok Hwf Hd. destruct (at_wf_len p Hwf) as [Hl Hr].
  assert (zlen (b_data b) = zlen (at_wire p) + zlen d) as Hlen by (rewrite Hd; len).
  assert (zlen (b_data b) < SILC_MAX_ALLOC) by buf_arith.
  exists (silc_buffer_pull b (zlen (at_wire p))). split_and!.
  - cbn [attribute_parse_loop]. rewrite buffer_len_ok by done. zcase; [lia|].
    rewrite (attribute_unformat_wire b p d) by done. rewrite u32_id by lia.
    rewrite buffer_len_ok by done. zcase; [lia|]. do 2 f_equal. lia.
  - by apply buffer_pull_ok.
  - destruct b as [h dd t]; cbn [b_data] in *. subst dd. by rewrite buffer_pull_app.
Qed.

Lemma attribute_loop_some l b acc fuel :
  buf_ok b -> Forall at_wf l -> b_data b = ats_wire l -> (length l < fuel)%nat ->
  attribute_parse_loop fuel b acc = Some (Some (acc ++ l)).
Proof.
  revert b acc fuel; induction l as [|p l IH]; intros b acc fuel Hok Hwf Hd Hf;
    (destruct fuel as [|fuel]; [exfalso; cbn [length] in Hf; lia|]).
  - cbn [attribute_parse_loop]. rewrite buffer_len_ok, Hd by done. cbn. by rewrite app_nil_r.
  - apply Forall_cons_iff in Hwf as [Hp Hwf].
    change (ats_wire (p :: l)) with (at_wire p ++ ats_wire l) in Hd.
    destruct (attribute_round b p _ acc fuel Hok Hp Hd) as (b' & E & Hok' & Hd').
    rewrite E, IH by (done || cbn [length] in Hf; lia). by rewrite <- app_assoc.
Qed.

(** Any bytes: the loop ends, and a list only comes from its wire form. *)
Lemma attribute_loop_inv fuel b acc :
  buf_ok b -> bytes_ok (b_data b) -> (length (b_data b) < fuel)%nat ->
  attribute_parse_loop fuel b acc = Some None \/
  exists l, attribute_parse_loop fuel b acc = Some (Some (acc ++ l)) /\
    Forall at_wf l /\ b_data b = ats_wire l.
Proof.
  revert b acc; induction fuel as [|fuel IH]; intros b acc Hok Hb Hf; [lia|].
  cbn [attribute_parse_loop]. rewrite buffer_len_ok by done.
  destruct (Z.eqb_spec (zlen (b_data b)) 0) as [E|].
  { right. exists []. rewrite app_nil_r. split_and!; [done|by constructor|].
    by rewrite (zlen_0_nil _ E). }
  destruct (attribute_unformat b) as [[p b1]|] eqn:Eu; [|by left].
  destruct (attribute_unformat_inv b p b1 Hok Hb Eu) as (-> & Hp & d & Hd & Hdb).
  destruct (attribute_round b p d acc fuel Hok Hp Hd) as (b' & Er & Hok' & Hd').
  cbn [attribute_parse_loop] in Er. rewrite buffer_len_ok, Eu in Er by done.
  destruct (Z.eqb_spec (zlen (b_data b)) 0); [done|]. rewrite buffer_len_ok in Er by done.
  rewrite buffer_len_ok, Er by done. destruct (at_wf_len p Hp) as [? ?].
  rewrite <- Hd' in Hdb.
  destruct (IH b' (acc ++ [p]) Hok' Hdb) as [->|(l & -> & Hwf & Hd2)].
  - rewrite Hd'. rewrite Hd, length_app in Hf. lia.
  - by left.
  - right. exists (p :: l). rewrite <- app_assoc. split_and!; [done|by constructor|].
    change (ats_wire (p :: l)) with (at_wire p ++ ats_wire l). by rewrite <- Hd2, Hd', Hd.
Qed.

(** * Encoding lists *)

Lemma attribute_encode_data_obuf sb p :
  obuf_full sb -> at_wf p -> zlen (obuf_data sb) < SILC_MAX_ALLOC ->
  silc_attribute_payload_encode_data sb (at_attribute p) (at_flags p) (at_data p) (at_data_len p) =
  if zlen (obuf_data sb ++ at_wire p) <? SILC_MAX_ALLOC
  then Some (silc_buffer_set (obuf_data sb ++ at_wire p)) else None.
Proof.
  intros Hsb Hp Hs. destruct (at_wf_len p Hp) as [Hl Hr].
  destruct (at_params_bytes p Hp) as [Hpl Hb]. unfold silc_attribute_payload_encode_data.
  rewrite !(u16_id (at_data_len p)), (u32_id (4 + _)), length_app by lia. fold (at_params p). zcase.
  - rewrite <- Hb. apply buffer_append_format; rewrite ?Hb; done || lia.
  - destruct sb as [b|].
    2: { cbn [obuf_data length] in *. unfold SILC_MAX_ALLOC in *. lia. }
    injection Hsb as ->. cbn [obuf_data silc_buffer_set b_data] in *.
    unfold silc_buffer_realloc. rewrite buffer_truelen_ok by by apply buffer_set_ok.
    unfold b_size, SILC_MAX_ALLOC in *; cbn [b_head b_data b_tail silc_buffer_set length].
    rewrite u32_id by lia. zcase; [lia|]. unfold silc_malloc_ok, SILC_MAX_ALLOC. by case_cmps.
Qed.

(** The payloads of a list appended to a buffer, up to the first failure. *)
Fixpoint attrs_encode (l : list SilcAttributePayload) (sb : option SilcBuffer)
  : option (option SilcBuffer) :=
  match l with
  | [] => Some sb
  | p :: l =>
      match silc_attribute_payload_encode_data sb (at_attribute p) (at_flags p) (at_data p)
              (at_data_len p) with
      | None => None
      | Some b => attrs_encode l (Some b)
      end
  end.

Lemma attrs_encode_spec l sb :
  obuf_full sb -> Forall at_wf l -> zlen (obuf_data sb) < SILC_MAX_ALLOC ->
  if zlen (obuf_data sb ++ ats_wire l) <? SILC_MAX_ALLOC
  then exists b, attrs_encode l sb = Some b /\ obuf_full b /\
    obuf_data b = obuf_data sb ++ ats_wire l
  else attrs_encode l sb = None.
Proof.
  revert sb; induction l as [|p l IH]; intros sb Hsb Hwf Hs; cbn [attrs_encode].
  { change (ats_wire []) with (@nil Z). rewrite app_nil_r. zcase; [by exists sb|lia]. }
  apply Forall_cons_iff in Hwf as [Hp Hwf].
  change (ats_wire (p :: l)) with (at_wire p ++ ats_wire l). rewrite app_assoc.
  rewrite attribute_encode_data_obuf by done.
  destruct (Z.ltb_spec (zlen (obuf_data sb ++ at_wire p)) SILC_MAX_ALLOC).
  - exact (IH (Some (silc_buffer_set (obuf_data sb ++ at_wire p))) eq_refl Hwf ltac:(done)).
  - rewrite (length_app (obuf_data sb ++ _)). zcase; [lia|done].
Qed.

(** * The data that is signed *)

Definition at_signed (server_verification : bool) (p : SilcAttributePayload) : bool :=
  negb ((at_attribute p =? SILC_ATTRIBUTE_SERVER_DIGITAL_SIGNATURE) ||
        ((at_attribute p =? SILC_ATTRIBUTE_USER_DIGITAL_SIGNATURE) && negb server_verification)).

Lemma verify_data_loop_spec l sv sb b :
  obuf_full sb -> Forall at_wf l -> zlen (obuf_data sb) < SILC_MAX_ALLOC ->
  attrs_encode (List.filter (at_signed sv) l) sb = Some b ->
  verify_data_loop l sv (option_map b_data sb) (zlen (obuf_data sb)) =
  Some (option_map b_data b, zlen (obuf_data b)).
Proof.
  revert sb; induction l as [|p l IH]; intros sb Hsb Hwf Hs; cbn [List.filter verify_data_loop].
  { by intros [= ->]. }
  apply Forall_cons_iff in Hwf as [Hp Hwf]. unfold at_signed at 1. destruct (_ || _); cbn [negb].
  { by apply IH. }
  cbn [attrs_encode]. rewrite attribute_encode_data_obuf by done.
  destruct (Z.ltb_spec (zlen (obuf_data sb ++ at_wire p)) SILC_MAX_ALLOC) as [Hlt|]; [|done].
  intros E. apply IH in E; [|done..]. cbn [option_map obuf_data silc_buffer_set b_data] in E.
  destruct (at_wf_len p Hp) as [Hl Hr]. destruct (at_params_bytes p Hp) as [Hpl Hb].
  rewrite length_app in Hlt, E. unfold SILC_MAX_ALLOC in *. rewrite !u32_id by lia.
  rewrite silc_malloc_ok_true by (unfold SILC_MAX_ALLOC; lia). cbn [negb].
  fold (at_params p). rewrite format_plain; rewrite ?Hb; try done.
  2: { unfold buf_fits, b_size, SILC_MAX_ALLOC; cbn [silc_buffer_set b_head b_data b_tail length]. len. }
  2: { unfold SILC_MAX_ALLOC; lia. }
  cbn [silc_buffer_set b_head b_data b_tail]. rewrite zdrop_all, app_nil_r by len.
  rewrite <- E. f_equal; [f_equal; f_equal|lia].
  destruct sb as [b0|]; cbn [option_map obuf_data]; [|done]. by rewrite ztake_all by lia.
Qed.

(** * Objects *)

Definition text_wf (s : list Z) : Prop := Forall (fun c => 0 < c < 256) s.

(** A member that is a string: NULL, or some characters. *)
Definition otext_wf (s : option (list Z)) : Prop :=
  match s with Some s => text_wf s /\ 1 <= zlen s < 65536 | None => True end.

Lemma text_bytes s : text_wf s -> bytes_ok s.
Proof. apply List.Forall_impl. unfold is_byte. lia. Qed.

Lemma text_before_nul s : text_wf s -> before_nul s = s.
Proof.
  induction s as [|c s IH]; intros Hs; [done|]. apply Forall_cons_iff in Hs as [Hc Hs].
  cbn [before_nul]. zcase; [lia|]. by rewrite IH.
Qed.

Lemma otext_oblk s : otext_wf s -> oblk_wf s (str_len s).
Proof.
  destruct s as [s|]; [|by left]. intros [Hs Hl]. right. cbn. auto using text_bytes.
Qed.

Lemma otext_before_nul s : otext_wf s -> ostring s = s.
Proof. destruct s as [s|]; [|done]. intros [Hs _]. cbn. by rewrite text_before_nul. Qed.

Lemma otext_fmt s ap :
  otext_wf s -> fmt_bytes (str_or_empty s ++ ap) = blk_wire s ++ fmt_bytes ap.
Proof.
  intros Hs. destruct s as [s|]; [|done]. destruct Hs as [_ Hl]. unfold str_or_empty. cbn [str_len].
  zcase; [lia|]. unfold fmt_bytes, blk_wire. cbn [app map concat fmt_bytes1 ptr_bytes].
  by rewrite u16_id, <- app_assoc by lia.
Qed.

Lemma otext_plain s ap : otext_wf s -> Forall fmt_plain ap -> Forall fmt_plain (str_or_empty s ++ ap).
Proof.
  intros Hs Hap. unfold str_or_empty. constructor; [done|]. constructor; [|done]. zcase; [done|].
  destruct s as [s|]; [|done]. destruct Hs. cbn. unfold SILC_MAX_ALLOC. lia.
Qed.

Lemma otext_parse s ap d :
  otext_wf s ->
  parse (U_STRING_ALLOC W16 true :: ap) (blk_wire s ++ d) = prepend [OPtr s] (parse ap d).
Proof.
  intros Hs. rewrite parse_cons. unfold parse1, blk_wire. rewrite <- app_assoc.
  rewrite (parse_prefixed_app W16 (fun s => optr true (dup_bytes s))) by
    (destruct s as [s|]; [destruct Hs; cbn; lia|done]).
  destruct s as [s|]; [|done]. destruct Hs as [_ Hl]. cbn [ptr_bytes].
  by rewrite dup_bytes_some by (unfold SILC_MAX_ALLOC; lia).
Qed.

(** An object is formatted into a buffer of its size, and read back. *)
Lemma format_object_exact ap n :
  Forall fmt_plain ap -> zlen (fmt_bytes ap) = n -> n < SILC_MAX_ALLOC ->
  format_object (u32 n) ap = Some (fmt_bytes ap).
Proof.
  intros Hp Hn Hlt. unfold format_object. unfold SILC_MAX_ALLOC in *. rewrite u32_id by lia.
  rewrite buffer_alloc_size_ok by (unfold SILC_MAX_ALLOC; lia). by rewrite format_exact.
Qed.

Lemma object_unformat fields outs data rest n :
  n = zlen data -> n < SILC_MAX_ALLOC -> Forall unf_plain fields ->
  parse fields data = Some (outs, rest) ->
  silc_buffer_unformat (silc_buffer_set (mem_read data n)) fields =
  (zlen data - zlen rest, outs, silc_buffer_set data).
Proof.
  intros -> Hlt Hp E. rewrite mem_read_exact by done.
  apply unformat_some; [by apply buffer_set_ok|done|done].
Qed.

Definition service_wf (s : SilcAttributeObjService) : Prop :=
  0 <= svc_port s < 2 ^ 32 /\ 0 <= svc_idle s < 2 ^ 32 /\ is_byte (svc_status s) /\
  text_wf (svc_signon s) /\ zlen (svc_signon s) < 64 /\
  text_wf (svc_address s) /\ zlen (svc_address s) < 256.

Lemma copy_to_array_text size s : text_wf s -> zlen s < size -> copy_to_array size (Some s) (zlen s) = s.
Proof.
  intros Hs Hl. unfold copy_to_array.
  replace (if zlen s <? size - 1 then zlen s else size - 1) with (zlen s) by (zcase; lia).
  by rewrite mem_read_exact, text_before_nul.
Qed.

(** What [encode_object] and [silc_attribute_get_object] promise each other. *)
Definition codes {A} (enc : option (list Z)) (dec : list Z -> Z -> option A) (x : A) : Prop :=
  exists d, enc = Some d /\ bytes_ok d /\ 1 <= zlen d < 65536 /\ dec d (zlen d) = Some x.

Lemma format_codes {A} ap n w (dec : list Z -> Z -> option A) x :
  Forall fmt_plain ap -> fmt_bytes ap = w -> zlen w = n -> 1 <= n < 65536 -> bytes_ok w ->
  dec w n = Some x -> codes (format_object (u32 n) ap) dec x.
Proof.
  intros Hp <- <- Hn Hb Hd. exists (fmt_bytes ap).
  rewrite format_object_exact by (done || unfold SILC_MAX_ALLOC; lia). done.
Qed.

Lemma service_codes s : service_wf s -> codes (encode_service s) get_service s.
Proof.
  intros (Hp & Hi & Hst & Hso & Hsl & Ha & Hal). unfold encode_service.
  set (w := SILC_PUT32_MSB (svc_port s) ++ blk_wire (Some (svc_address s)) ++
    [svc_status s] ++ blk_wire (Some (svc_signon s)) ++ SILC_PUT32_MSB (svc_idle s)).
  assert (zlen w = 13 + zlen (svc_address s) + zlen (svc_signon s)) as Hl
    by (unfold w, blk_wire; cbn [ptr_bytes]; len).
  apply (format_codes _ _ w); [| |done|lia| |].
  - repeat constructor; cbn; lia.
  - unfold w, fmt_bytes, blk_wire. cbn [map concat fmt_bytes1 ptr_bytes].
    rewrite !mem_read_exact, !u16_id, u8_id by (done || lia). rewrite <- !app_assoc.
    by rewrite app_nil_r.
  - unfold w, blk_wire. cbn [ptr_bytes]. rewrite !Forall_app. split_and!; auto using text_bytes with silc.
  - unfold get_service. zcase; [lia|]. erewrite object_unformat; [|done|unfold SILC_MAX_ALLOC; lia| |].
    3: { unfold w, blk_wire. cbn [ptr_bytes app]. rewrite <- !app_assoc.
         rewrite parse_U32, parse_NSTRING16 by (done || lia). cbn [app].
         rewrite parse_U8, parse_NSTRING16 by (done || lia).
         rewrite <- (app_nil_r (SILC_PUT32_MSB (svc_idle s))), parse_U32. done. }
    2: by repeat constructor.
    ret_case; [cbn [length] in *; lia|]. cbn [app out_num out_ptr nth_error].
    rewrite !copy_to_array_text, !u32_id by (done || lia). by destruct s.
Qed.

(** Four strings, of which one is not empty. *)
Definition strs4_wire (a b c d : option (list Z)) : list Z :=
  blk_wire a ++ blk_wire b ++ blk_wire c ++ blk_wire d.

Definition strs4_wf (a b c d : option (list Z)) : Prop :=
  (otext_wf a /\ otext_wf b /\ otext_wf c /\ otext_wf d) /\
  1 <= str_len a + str_len b + str_len c + str_len d < 65536 - 12.

Lemma strs4_bytes a b c d :
  strs4_wf a b c d ->
  zlen (strs4_wire a b c d) = 8 + (str_len a + str_len b + str_len c + str_len d) /\
  bytes_ok (strs4_wire a b c d).
Proof.
  intros ((Ha & Hb & Hc & Hd) & _). apply otext_oblk in Ha, Hb, Hc, Hd. unfold strs4_wire. split.
  - rewrite !length_app. apply oblk_wire_len in Ha, Hb, Hc, Hd. lia.
  - rewrite !Forall_app. split_and!; by eapply oblk_wire_ok.
Qed.

Lemma strs4_fmt a b c d :
  strs4_wf a b c d ->
  let ap := str_or_empty a ++ str_or_empty b ++ str_or_empty c ++ str_or_empty d in
  Forall fmt_plain ap /\ fmt_bytes ap = strs4_wire a b c d.
Proof.
  intros ((Ha & Hb & Hc & Hd) & _) ap. unfold ap. rewrite <- (app_nil_r (str_or_empty d)). split.
  - repeat (apply otext_plain; [done|]). by constructor.
  - rewrite !otext_fmt by done. unfold strs4_wire. cbn [fmt_bytes map concat]. by rewrite app_nil_r.
Qed.

Lemma strs4_parse a b c d :
  strs4_wf a b c d ->
  parse [U_STRING_ALLOC W16 true; U_STRING_ALLOC W16 true; U_STRING_ALLOC W16 true;
         U_STRING_ALLOC W16 true] (strs4_wire a b c d) =
  Some ([OPtr a; OPtr b; OPtr c; OPtr d], []).
Proof.
  intros ((Ha & Hb & Hc & Hd) & _). unfold strs4_wire. rewrite <- (app_nil_r (blk_wire d)).
  by rewrite !otext_parse.
Qed.

Definition geo_wf (g : SilcAttributeObjGeo) : Prop :=
  strs4_wf (geo_longitude g) (geo_latitude g) (geo_altitude g) (geo_accuracy g).

Lemma geo_codes g : geo_wf g -> codes (encode_geo g) get_geo g.
Proof.
  intros Hg. destruct (strs4_bytes _ _ _ _ Hg) as [Hl Hb]. destruct (strs4_fmt _ _ _ _ Hg) as [Hp Hf].
  pose proof Hg as ((Ha & Hb' & Hc & Hd) & Hn). unfold encode_geo.
  rewrite (u32_id (_ + _)) by lia. zcase; [lia|].
  apply (format_codes _ _ _ _ _ Hp Hf Hl); [lia|done|].
  unfold get_geo. erewrite object_unformat; [|done|unfold SILC_MAX_ALLOC; lia| |by apply strs4_parse].
  2: by repeat constructor.
  ret_case; [cbn [length] in *; lia|]. cbn [out_num out_ptr nth_error].
  rewrite !otext_before_nul by done. by destruct g.
Qed.

Definition device_wf (d : SilcAttributeObjDevice) : Prop :=
  0 <= dev_type d < 2 ^ 32 /\
  strs4_wf (dev_manufacturer d) (dev_version d) (dev_model d) (dev_language d).

Lemma device_codes d : device_wf d -> codes (encode_device d) get_device d.
Proof.
  intros [Ht Hg]. destruct (strs4_bytes _ _ _ _ Hg) as [Hl Hb].
  destruct (strs4_fmt _ _ _ _ Hg) as [Hp Hf].
  pose proof Hg as ((Ha & Hb' & Hc & Hd) & Hn). unfold encode_device.
  rewrite (u32_id (str_len _ + _ + _ + _)) by lia. zcase; [lia|].
  apply (format_codes _ _ (SILC_PUT32_MSB (dev_type d) ++ strs4_wire (dev_manufacturer d)
    (dev_version d) (dev_model d) (dev_language d))).
  - by constructor.
  - rewrite <- Hf. done.
  - rewrite length_app. len.
  - lia.
  - apply Forall_app. auto with silc.
  - unfold get_device. erewrite object_unformat; [| |unfold SILC_MAX_ALLOC; lia| |].
    4: { rewrite parse_U32, strs4_parse by done. done. }
    3: by repeat constructor.
    2: len.
    ret_case; [cbn [length] in *; lia|]. cbn [app out_num out_ptr nth_error].
    rewrite !otext_before_nul, u32_id by done. by destruct d.
Qed.

Definition pn_wf (p : SilcAttributeObjPN) : Prop :=
  0 <= pn_format p < 2 ^ 32 /\
  exists n, pn_number p = Some n /\ text_wf n /\ 5 <= zlen n < 65536 - 6.

Lemma pn_codes p : pn_wf p -> codes (encode_pn p) get_pn p.
Proof.
  intros (Hf & n & Hn & Ht & Hl). unfold encode_pn. rewrite Hn. zcase; [lia|].
  change (silc_buffer_alloc 0) with (Some buffer_null). cbv iota.
  set (ap := [_; _; _]). set (w := SILC_PUT32_MSB (pn_format p) ++ blk_wire (Some n)).
  assert (fmt_bytes ap = w) as Hw.
  { unfold ap, w, fmt_bytes, blk_wire. cbn [map concat fmt_bytes1 ptr_bytes].
    by rewrite u16_id, app_nil_r by lia. }
  assert (zlen w = 6 + zlen n) as Hwl by (unfold w, blk_wire; cbn [ptr_bytes]; len).
  rewrite format_plain; rewrite ?Hw.
  2: { repeat constructor. cbn. unfold SILC_MAX_ALLOC. lia. }
  2: { unfold buf_fits, b_size, buffer_null, SILC_MAX_ALLOC. cbn [b_head b_data b_tail length]. lia. }
  2: { unfold SILC_MAX_ALLOC. lia. }
  zcase; [lia|]. cbn [b_data buffer_null]. rewrite zdrop_nil, app_nil_r.
  assert (otext_wf (Some n)) as Ho by (cbn; split; [done|lia]).
  exists w. split; [done|]. split; [|split; [lia|]].
  - unfold w, blk_wire. cbn [ptr_bytes]. rewrite !Forall_app. auto using text_bytes with silc.
  - unfold get_pn. erewrite object_unformat; [|done|unfold SILC_MAX_ALLOC; lia| |].
    3: { unfold w. rewrite <- (app_nil_r (blk_wire (Some n))), parse_U32, otext_parse by done. done. }
    2: by repeat constructor.
    ret_case; [cbn [length] in *; lia|]. cbn [app out_num out_ptr nth_error].
    rewrite otext_before_nul, u32_id by done. rewrite <- Hn. by destruct p.
Qed.

Definition pk_wf (p : SilcAttributeObjPk) : Prop :=
  otext_wf (apk_type p) /\
  exists d, apk_data p = Some d /\ apk_data_len p = zlen d /\ bytes_ok d /\
    2 + str_len (apk_type p) + zlen d < 65536.

Lemma memdup_exact s : zlen s < 65536 -> silc_memdup s (zlen s) = Some s.
Proof.
  intros. unfold silc_memdup. rewrite u64_id, silc_malloc_ok_true by (unfold SILC_MAX_ALLOC; lia).
  by rewrite mem_read_exact.
Qed.

Lemma pk_codes p : pk_wf p -> codes (encode_pk p) get_pk p.
Proof.
  intros (Ht & d & Hd & Hdl & Hb & Hl). unfold encode_pk. rewrite Hd, Hdl.
  pose proof (otext_oblk _ Ht) as Ho. pose proof (oblk_wire_len _ _ Ho) as Hwl.
  destruct (oblk_wf_len _ _ Ho) as [Hpb Hr].
  apply (format_codes _ _ (blk_wire (apk_type p) ++ d)).
  - repeat constructor; [|cbn; lia]. cbn.
    destruct (apk_type p) as [t|]; [|done]. cbn in *. unfold SILC_MAX_ALLOC. lia.
  - unfold fmt_bytes, blk_wire. cbn [map concat fmt_bytes1]. rewrite Hpb, u16_id, mem_read_exact by done.
    rewrite <- !app_assoc, app_nil_r. by destruct (apk_type p).
  - rewrite length_app. lia.
  - lia.
  - apply Forall_app. eauto using oblk_wire_ok.
  - unfold get_pk. erewrite object_unformat; [| |unfold SILC_MAX_ALLOC; lia| |].
    4: { rewrite (oblk_parse _ _ _ _ Ho). done. }
    3: by repeat constructor.
    2: rewrite length_app; lia.
    cbn [app out_num out_ptr nth_error]. rewrite length_app.
    rewrite buffer_set_len by (rewrite length_app; unfold SILC_MAX_ALLOC; lia).
    rewrite length_app, u32_id by lia. ret_case; [lia|]. zcase; [lia|]. cbn [orb].
    rewrite zdrop_app_exact by lia.
    replace (2 + str_len (apk_type p) + zlen d - 2 - str_len (apk_type p)) with (zlen d) by lia.
    rewrite memdup_exact, otext_before_nul by (done || lia). rewrite <- Hd, <- Hdl. by destruct p.
Qed.

Section objects.
Context `{AttrCodecs}.

(** The objects that the code can give back, by the type of the attribute. *)
Definition object_wf (attribute : Z) (o : SilcAttributeObject) : Prop :=
  match o with
  | AO_vcard v =>
      attribute = SILC_ATTRIBUTE_USER_INFO /\
      codes (silc_vcard_encode v) (fun d n => silc_vcard_decode (mem_read d n)) v
  | AO_service s => attribute = SILC_ATTRIBUTE_SERVICE /\ service_wf s
  | AO_mask m =>
      List.In attribute [SILC_ATTRIBUTE_STATUS_MOOD; SILC_ATTRIBUTE_PREFERRED_CONTACT] /\ 0 < m < 2 ^ 32
  | AO_string s =>
      List.In attribute [SILC_ATTRIBUTE_STATUS_FREETEXT; SILC_ATTRIBUTE_PREFERRED_LANGUAGE;
                   SILC_ATTRIBUTE_TIMEZONE] /\ bytes_ok s /\ 1 <= zlen s < 65536 - 2
  | AO_mime m =>
      List.In attribute [SILC_ATTRIBUTE_STATUS_MESSAGE; SILC_ATTRIBUTE_EXTENSION;
                   SILC_ATTRIBUTE_USER_ICON] /\
      codes (silc_mime_encode m) (fun d n => silc_mime_decode (mem_read d n)) m
  | AO_geo g => attribute = SILC_ATTRIBUTE_GEOLOCATION /\ geo_wf g
  | AO_device d => attribute = SILC_ATTRIBUTE_DEVICE_INFO /\ device_wf d
  | AO_pn p => attribute = SILC_ATTRIBUTE_PHONE_NUMBER /\ pn_wf p
  | AO_pk p =>
      List.In attribute [SILC_ATTRIBUTE_USER_PUBLIC_KEY; SILC_ATTRIBUTE_SERVER_PUBLIC_KEY] /\ pk_wf p \/
      List.In attribute [SILC_ATTRIBUTE_USER_DIGITAL_SIGNATURE; SILC_ATTRIBUTE_SERVER_DIGITAL_SIGNATURE] /\
      exists d, p = {| apk_type := None; apk_data := Some d; apk_data_len := zlen d |} /\
        bytes_ok d /\ 1 <= zlen d < 65536
  end.

(** The caller's array is as long as the string. *)
Definition array_fits (o : SilcAttributeObject) (string : list Z) : Prop :=
  match o with AO_string s => zlen string = zlen s | _ => True end.

Lemma get_object_valid attribute flags n d string :
  Z.land flags SILC_ATTRIBUTE_FLAG_INVALID = 0 ->
  silc_attribute_get_object
    {| at_attribute := attribute; at_flags := flags; at_data_len := n; at_data := d |} string =
  silc_attribute_get_object
    {| at_attribute := attribute; at_flags := 0; at_data_len := n; at_data := d |} string.
Proof. intros Hf. unfold silc_attribute_get_object. cbn [at_flags]. by rewrite Hf. Qed.

(** Every type of attribute: the bytes of the object, and the object of the bytes. *)
Lemma encode_object_codes attribute o string :
  object_wf attribute o -> array_fits o string ->
  codes (encode_object attribute o)
    (fun d n => silc_attribute_get_object
       {| at_attribute := attribute; at_flags := 0; at_data_len := n; at_data := Some d |}
       string) o.
Proof.
  intros Hwf Hs.
  assert (forall A (f : A -> SilcAttributeObject) enc dec x, codes enc dec x -> o = f x ->
    codes enc (fun d n => option_map f (dec d n)) o) as Hmap.
  { intros A f enc dec x (d & He & Hb & Hl & Hd) ->. exists d. by rewrite Hd. }
  destruct o as [v|s|m|s|m|g|d|p|p]; cbn [object_wf array_fits] in *.
  - destruct Hwf as [-> Hc]. exact (Hmap _ _ _ _ _ Hc eq_refl).
  - destruct Hwf as [-> Hc]. exact (Hmap _ _ _ _ _ (service_codes _ Hc) eq_refl).
  - destruct Hwf as [Ha Hm].
    assert (codes (Some (SILC_PUT32_MSB (u32 m))) (fun d n =>
      if n <? 4 then None else Some (AO_mask (SILC_GET32_MSB d))) (AO_mask m)) as Hc.
    { exists (SILC_PUT32_MSB (u32 m)). split_and!; [done|auto with silc|done|done|].
      rewrite <- (app_nil_r (SILC_PUT32_MSB _)), SILC_GET32_PUT32_MSB, !u32_id by
        (try apply u32_range; lia). done. }
    by destruct Ha as [<-|[<-|[]]].
  - destruct Hwf as (Ha & Hb & Hl).
    assert (codes (Some (SILC_PUT16_MSB (zlen s) ++ s)) (fun d n =>
      if n <? 2 then None else if n <? 2 + SILC_GET16_MSB d then None
      else if zlen string <? SILC_GET16_MSB d then None
      else Some (AO_string (mem_read (zdrop 2 d) (SILC_GET16_MSB d) ++
                            zdrop (SILC_GET16_MSB d) string))) (AO_string s)) as Hc.
    { exists (SILC_PUT16_MSB (zlen s) ++ s). split; [done|].
      split; [apply Forall_app; auto with silc|]. rewrite SILC_GET16_PUT16_MSB, u16_id by lia.
      split; [len|]. zcase; [len|]. zcase; [len|]. zcase; [lia|].
      rewrite zdrop_app_exact, mem_read_exact, zdrop_all, app_nil_r by (done || lia). done. }
    assert (encode_object attribute (AO_string s) = if silc_malloc_ok (u32 (2 + zlen s))
      then Some (SILC_PUT16_MSB (zlen s) ++ s) else None) as ->
      by (by destruct Ha as [<-|[<-|[<-|[]]]]).
    rewrite u32_id, silc_malloc_ok_true by (unfold SILC_MAX_ALLOC; lia).
    by destruct Ha as [<-|[<-|[<-|[]]]].
  - destruct Hwf as [Ha Hc]. apply (Hmap _ AO_mime _ _ _) in Hc; [|done].
    by destruct Ha as [<-|[<-|[<-|[]]]].
  - destruct Hwf as [-> Hc]. exact (Hmap _ _ _ _ _ (geo_codes _ Hc) eq_refl).
  - destruct Hwf as [-> Hc]. exact (Hmap _ _ _ _ _ (device_codes _ Hc) eq_refl).
  - destruct Hwf as [[Ha Hc]|(Ha & d & -> & Hb & Hl)].
    + apply pk_codes in Hc. apply (Hmap _ AO_pk) in Hc; [|done]. by destruct Ha as [<-|[<-|[]]].
    + assert (codes (Some (mem_read d (zlen d))) (fun d n => Some (AO_pk {| apk_type := None;
        apk_data := silc_memdup d n; apk_data_len := n |}))
        (AO_pk {| apk_type := None; apk_data := Some d; apk_data_len := zlen d |})) as Hc.
      { exists d. rewrite mem_read_exact, memdup_exact by (done || lia). done. }
      by destruct Ha as [<-|[<-|[]]].
  - destruct Hwf as [-> Hc]. exact (Hmap _ _ _ _ _ (pn_codes _ Hc) eq_refl).
Qed.

Lemma encode_int_wf attribute flags o :
  object_wf attribute o -> Z.land flags SILC_ATTRIBUTE_FLAG_VALID <> 0 ->
  silc_attribute_payload_encode_int attribute flags (Some o) =
  match encode_object attribute o with None => None | Some d => silc_memdup d (zlen d) end.
Proof.
  intros Hwf Hf. unfold silc_attribute_payload_encode_int.
  destruct (Z.eqb_spec (Z.land flags SILC_ATTRIBUTE_FLAG_VALID) 0); [done|].
  destruct o as [v|x|m|x|m|g|d|p|p]; try done.
  - destruct Hwf as [_ Hm]. by destruct m; [lia|..].
  - destruct Hwf as (_ & _ & Hl). destruct x; [cbn in Hl; lia|done].
Qed.
End objects.

(** * Properties *)

(** C25. silc_attribute_payload_parse ends on every input, and it accepts exactly the
    bytes that silc_attribute_payload_encode_data makes when it appends the attributes
    of a list to a buffer one after another; it gives these attributes in order. *)
Theorem silc_attribute_payload_parse_iff fuel data l :
  bytes_ok data -> zlen data < SILC_MAX_ALLOC -> (length data < fuel)%nat ->
  silc_attribute_payload_parse fuel data <> None /\
  (silc_attribute_payload_parse fuel data = Some (Some l) <->
   Forall at_wf l /\ exists b, attrs_encode l None = Some b /\ obuf_data b = data).
Proof.
  intros Hb Hm Hf. unfold silc_attribute_payload_parse.
  pose proof (buffer_set_ok data Hm) as Hok.
  pose proof (attribute_loop_inv fuel (silc_buffer_set data) [] Hok Hb Hf) as Hinv.
  split; [by destruct Hinv as [->|(? & -> & _)]|]. split.
  - intros E. rewrite E in Hinv. destruct Hinv as [|(l' & Hl & Hwf & Hd)]; [done|].
    injection Hl as ->. split; [done|]. cbn [silc_buffer_set b_data] in Hd. subst data.
    pose proof (attrs_encode_spec _ None eq_refl Hwf ltac:(done)) as He. cbn [obuf_data app] in He.
    revert He. zcase; [|lia]. intros (b & He & _ & Hd). by exists b.
  - intros (Hwf & b & He & Hd).
    pose proof (attrs_encode_spec _ None eq_refl Hwf ltac:(done)) as Hs. cbn [obuf_data app] in Hs.
    rewrite He in Hs. revert Hs. zcase; [|done]. intros (b' & [= <-] & _ & Hw).
    apply (attribute_loop_some l); try done; [by rewrite <- Hw, Hd|].
    pose proof (ats_wire_length l Hwf). rewrite <- Hd, Hw in Hf. lia.
Qed.

(** Two attributes: a mood, and a user's signature of three bytes. *)
Definition witness_attrs : list SilcAttributePayload :=
  [{| at_attribute := 3; at_flags := 2; at_data_len := 4; at_data := Some [0; 0; 0; 5] |};
   {| at_attribute := 14; at_flags := 2; at_data_len := 3; at_data := Some [7; 8; 9] |}].

Definition witness_attrs_wire : list Z := [3; 2; 0; 4; 0; 0; 0; 5; 14; 2; 0; 3; 7; 8; 9].

Definition witness_mood_wire : list Z := [3; 2; 0; 4; 0; 0; 0; 5].

Lemma witness_attrs_wf : Forall at_wf witness_attrs.
Proof.
  repeat constructor; unfold is_byte; cbn; try lia; right; cbn; split_and!; try lia;
    repeat constructor; unfold is_byte; lia.
Qed.

Lemma silc_attribute_payload_parse_iff_witness :
  Forall at_wf witness_attrs /\
  exists b, attrs_encode witness_attrs None = Some b /\ obuf_data b = witness_attrs_wire.
Proof.
  apply (silc_attribute_payload_parse_iff 16 witness_attrs_wire witness_attrs).
  - by apply bytes_ok_check.
  - vm_compute; reflexivity.
  - vm_compute; lia.
  - vm_compute; reflexivity.
Defined.

(** For a list that was received, silc_attribute_get_verify_data gives the encoding
    of exactly the attributes that the signature covers: never the server's
    signature, and the user's signature only when the server's is verified.  Without
    a signature in the list it is the whole of what was received. *)
Theorem silc_attribute_get_verify_data_covers fuel data l server_verification :
  bytes_ok data -> zlen data < SILC_MAX_ALLOC -> (length data < fuel)%nat ->
  silc_attribute_payload_parse fuel data = Some (Some l) ->
  exists b,
    attrs_encode (List.filter (at_signed server_verification) l) None = Some b /\
    silc_attribute_get_verify_data l server_verification =
      Some (option_map b_data b, zlen (obuf_data b)) /\
    (Forall (fun p => at_signed server_verification p = true) l -> obuf_data b = data).
Proof.
  intros Hb Hm Hf E. pose proof (buffer_set_ok data Hm) as Hok.
  destruct (attribute_loop_inv fuel (silc_buffer_set data) [] Hok Hb Hf) as [E'|(l' & E' & Hwf & Hd)];
    unfold silc_attribute_payload_parse in E; rewrite E in E'; [done|].
  injection E' as <-. cbn [silc_buffer_set b_data] in Hd. set (f := at_signed server_verification).
  assert (Forall at_wf (List.filter f l)) as Hwf'.
  { rewrite List.Forall_forall in *. intros p [Hp _]%filter_In. by apply Hwf. }
  assert (zlen (ats_wire (List.filter f l)) <= zlen (ats_wire l)) as Hle.
  { clear. induction l as [|p l IH]; [done|]. cbn [List.filter].
    change (ats_wire (p :: l)) with (at_wire p ++ ats_wire l). rewrite length_app.
    destruct (f p); [|lia].
    change (ats_wire (p :: List.filter f l)) with (at_wire p ++ ats_wire (List.filter f l)).
    rewrite length_app. lia. }
  pose proof (attrs_encode_spec _ None eq_refl Hwf' ltac:(done)) as Hs. cbn [obuf_data app] in Hs.
  rewrite Hd in Hm. revert Hs. zcase; [|lia]. intros (b & He & _ & Hw). exists b. split_and!; [done| |].
  - by apply (verify_data_loop_spec l server_verification None b).
  - intros Hall. rewrite Hw, Hd. f_equal. apply forallb_filter_id, forallb_forall.
    by rewrite List.Forall_forall in Hall.
Qed.

Lemma silc_attribute_get_verify_data_covers_witness :
  exists b,
    attrs_encode (List.filter (at_signed false) witness_attrs) None = Some b /\
    silc_attribute_get_verify_data witness_attrs false = Some (option_map b_data b, zlen (obuf_data b)) /\
    (Forall (fun p => at_signed false p = true) witness_attrs -> obuf_data b = witness_attrs_wire).
Proof.
  apply (silc_attribute_get_verify_data_covers 16 witness_attrs_wire witness_attrs false).
  - by apply bytes_ok_check.
  - vm_compute; reflexivity.
  - vm_compute; lia.
  - vm_compute; reflexivity.
Defined.

(** C24. An object of an attribute of any type that is appended to a list of attributes
    by silc_attribute_payload_encode is given back by silc_attribute_payload_parse and
    silc_attribute_get_object of the last attribute, and the list before it is
    unchanged. *)
Theorem silc_attribute_object_roundtrip `{AttrCodecs} l sb attribute flags o string fuel :
  Forall at_wf l -> attrs_encode l None = Some sb ->
  zlen (obuf_data sb) + 4 + 65536 < SILC_MAX_ALLOC ->
  is_byte attribute -> is_byte flags ->
  Z.land flags SILC_ATTRIBUTE_FLAG_VALID <> 0 -> Z.land flags SILC_ATTRIBUTE_FLAG_INVALID = 0 ->
  object_wf attribute o -> array_fits o string ->
  exists b p,
    silc_attribute_payload_encode sb attribute flags (Some o) = Some b /\
    ((length (b_data b) < fuel)%nat ->
     silc_attribute_payload_parse fuel (b_data b) = Some (Some (l ++ [p]))) /\
    silc_attribute_payload_alloc attribute flags (Some o) = Some p /\
    silc_attribute_get_object p string = Some o.
Proof.
  intros Hwf He Hm Ha Hfl Hv Hi Ho Hs.
  destruct (encode_object_codes attribute o string Ho Hs) as (d & Hd & Hb & Hl & Hg).
  pose proof (encode_int_wf attribute flags o Ho Hv) as Hint. rewrite Hd, memdup_exact in Hint by lia.
  set (p := {| at_attribute := attribute; at_flags := flags; at_data_len := zlen d; at_data := Some d |}).
  assert (at_wf p) as Hp by (split_and!; [done|done|by right]).
  pose proof (attrs_encode_spec _ None eq_refl Hwf ltac:(done)) as Hsp. rewrite He in Hsp.
  cbn [obuf_data app] in Hsp. revert Hsp. zcase; [|done]. intros (b & [= <-] & Hfull & Hw).
  destruct (at_wf_len p Hp) as [Hpl Hpr]. cbn [p at_data_len] in Hpl.
  exists (silc_buffer_set (obuf_data sb ++ at_wire p)), p. split_and!.
  - unfold silc_attribute_payload_encode. rewrite Hint. cbn [str_len].
    pose proof (attribute_encode_data_obuf sb p Hfull Hp ltac:(lia)) as E.
    cbn [p at_attribute at_flags at_data at_data_len] in E. rewrite E, length_app.
    unfold SILC_MAX_ALLOC in *. by zcase; [|lia].
  - intros Hf. cbn [silc_buffer_set b_data] in *.
    assert (Forall at_wf (l ++ [p])) as Hwf' by (apply Forall_app; auto).
    assert (obuf_data sb ++ at_wire p = ats_wire (l ++ [p])) as Hwire
      by (unfold ats_wire; rewrite map_app, concat_app, Hw; cbn [map concat]; by rewrite app_nil_r).
    apply (attribute_loop_some (l ++ [p])); [|done|done|].
    + apply buffer_set_ok. rewrite length_app. unfold SILC_MAX_ALLOC in *. lia.
    + pose proof (ats_wire_length _ Hwf'). rewrite <- Hwire in *. lia.
  - unfold silc_attribute_payload_alloc. rewrite Hint. by rewrite u16_id by lia.
  - unfold p. by rewrite get_object_valid.
Qed.

(** vCards and MIME messages as their bytes. *)
Definition witness_codecs : AttrCodecs :=
  {| SilcVCard := list Z; SilcMime := list Z; silc_vcard_encode := Some; silc_vcard_decode := Some;
     silc_mime_encode := Some; silc_mime_decode := Some |}.

(** A device of a manufacturer and a language only, after the two attributes. *)
Definition witness_device : SilcAttributeObjDevice :=
  {| dev_type := 2; dev_manufacturer := Some [65; 66]; dev_version := None; dev_model := None;
     dev_language := Some [101; 110] |}.

Lemma silc_attribute_object_roundtrip_witness :
  exists b p,
    @silc_attribute_payload_encode witness_codecs (Some (silc_buffer_set witness_attrs_wire)) 10 2
      (Some (@AO_device witness_codecs witness_device)) = Some b /\
    ((length (b_data b) < 40)%nat ->
     silc_attribute_payload_parse 40 (b_data b) = Some (Some (witness_attrs ++ [p]))) /\
    @silc_attribute_payload_alloc witness_codecs 10 2 (Some (@AO_device witness_codecs witness_device)) =
      Some p /\
    @silc_attribute_get_object witness_codecs p [] = Some (@AO_device witness_codecs witness_device).
Proof.
  apply (@silc_attribute_object_roundtrip witness_codecs witness_attrs).
  - exact witness_attrs_wf.
  - vm_compute; reflexivity.
  - vm_compute; reflexivity.
  - unfold is_byte; lia.
  - unfold is_byte; lia.
  - vm_compute; discriminate.
  - vm_compute; reflexivity.
  - split; [reflexivity|]. split; [cbn; lia|]. split; [|cbn; lia]. cbn.
    unfold text_wf. split_and!; repeat constructor; lia.
  - exact I.
Defined.
