(* ===== verification/HashTable.v ===== *)
(** The collision resistant hash table of src/lib/silcutil/silchashtable.c. *)

From stdpp Require Import list strings.
From S2P Require Import Prelude CTypes.

(** * Sizes *)

Definition SILC_HASH_TABLE_SIZE : Z := 2.

Definition primesize : list Z :=
  [3; 5; 11; 17; 37; 67; 109; 131; 163; 257; 367; 521; 823; 1031;
   1237; 1447; 2053; 2389; 2777; 3323; 4099; 5059; 6247; 7001; 8209; 10993;
   14057; 16411; 19181; 21089; 25033; 32771; 40009; 47431; 65537; 106721;
   131101; 262147; 360163; 524309; 810343; 1048583; 2097169; 4194319;
   6153409; 8388617; 13845163; 16777259; 33554467; 67108879].

Definition primesize_at (i : Z) : Z := nth (Z.to_nat i) primesize 0.

(** The loop over the sizes: the first that is large enough and its index. *)
Fixpoint primesize_loop (l : list Z) (i size : Z) : option (Z * Z) :=
  match l with
  | [] => None
  | p :: l => if size <=? p then Some (p, i) else primesize_loop l (i + 1) size
  end.

Definition silc_hash_table_primesize (size : Z) : Z * Z :=
  match primesize_loop primesize 0 size with
  | Some r => r
  | None => let i := zlen primesize in (primesize_at (i - 1), i - 1)
  end.

(** * The table *)

Section table.
(** Keys and contexts are pointers ([None] is NULL), [U] is what the user contexts
    of the callbacks point to and [D] the destructor functions. *)
Context {K C U D : Type} `{EqDecision K} `{EqDecision C}.

Definition SilcHashFunction : Type := K -> option U -> Z.
Definition SilcHashCompare : Type := K -> K -> option U -> bool.

Record SilcHashTableEntry := { he_key : K; he_context : option C }.

(** A bucket is the chain of its entries. *)
Record SilcHashTable := {
  ht_table : list (list SilcHashTableEntry);
  ht_table_size : Z;
  ht_entry_count : Z;
  ht_hash : SilcHashFunction;
  ht_compare : option SilcHashCompare;
  ht_destructor : option D;
  ht_hash_user_context : option U;
  ht_compare_user_context : option U;
  ht_destructor_user_context : option U;
  ht_auto_rehash : bool;
}.

Definition set_table (t : list (list SilcHashTableEntry)) (size count : Z) (ht : SilcHashTable) :=
  {| ht_table := t; ht_table_size := size; ht_entry_count := count; ht_hash := ht_hash ht;
     ht_compare := ht_compare ht; ht_destructor := ht_destructor ht;
     ht_hash_user_context := ht_hash_user_context ht;
     ht_compare_user_context := ht_compare_user_context ht;
     ht_destructor_user_context := ht_destructor_user_context ht;
     ht_auto_rehash := ht_auto_rehash ht |}.

Definition set_auto_rehash (b : bool) (ht : SilcHashTable) :=
  {| ht_table := ht_table ht; ht_table_size := ht_table_size ht;
     ht_entry_count := ht_entry_count ht; ht_hash := ht_hash ht;
     ht_compare := ht_compare ht; ht_destructor := ht_destructor ht;
     ht_hash_user_context := ht_hash_user_context ht;
     ht_compare_user_context := ht_compare_user_context ht;
     ht_destructor_user_context := ht_destructor_user_context ht;
     ht_auto_rehash := b |}.

(** A call of a destructor. *)
Record ht_destroyed := {
  hd_destructor : D; hd_entry : SilcHashTableEntry; hd_user_context : option U;
}.

Definition SILC_HASH_TABLE_HASH (ht : SilcHashTable) (f : SilcHashFunction) (key : K)
    (c : option U) : Z :=
  u32 (f key c) mod primesize_at (ht_table_size ht).

Definition SILC_HASH_REHASH_INC (ht : SilcHashTable) : bool :=
  ht_auto_rehash ht && (primesize_at (ht_table_size ht) <? ht_entry_count ht / 2).

Definition SILC_HASH_REHASH_DEC (ht : SilcHashTable) : bool :=
  ht_auto_rehash ht && (u32 (ht_entry_count ht * 2) <? primesize_at (ht_table_size ht)) &&
  (primesize_at SILC_HASH_TABLE_SIZE <? ht_entry_count ht).

(** ht->table[i] *)
Definition ht_bucket (ht : SilcHashTable) (i : Z) : list SilcHashTableEntry :=
  nth (Z.to_nat i) (ht_table ht) [].

Definition set_bucket (i : Z) (chain : list SilcHashTableEntry) (t : list (list SilcHashTableEntry)) :=
  <[Z.to_nat i := chain]> t.

(** ** Finding *)

(** Walks a chain to the first entry with the property: what is before it (prev is
    the last of it) and the rest from it on (empty at the end of the chain). *)
Fixpoint find_chain (p : SilcHashTableEntry -> bool) (l : list SilcHashTableEntry)
  : list SilcHashTableEntry * list SilcHashTableEntry :=
  match l with
  | [] => ([], [])
  | e :: l' => if p e then ([], l) else let '(a, b) := find_chain p l' in (e :: a, b)
  end.

Definition keys_equal (compare : option SilcHashCompare) (c : option U) (k1 k2 : K) : bool :=
  match compare with
  | Some f => f k1 k2 c
  | None => bool_decide (k1 = k2)
  end.

Definition silc_hash_table_find_internal (ht : SilcHashTable) (key : K) (hash : SilcHashFunction)
    (hash_user_context : option U) (compare : option SilcHashCompare)
    (compare_user_context : option U)
  : Z * (list SilcHashTableEntry * list SilcHashTableEntry) :=
  let i := SILC_HASH_TABLE_HASH ht hash key hash_user_context in
  (i, find_chain (fun e => keys_equal compare compare_user_context (he_key e) key) (ht_bucket ht i)).

(** Whether there is a comparison function is asked of the table. *)
Definition silc_hash_table_find_internal_context (ht : SilcHashTable) (key : K)
    (context : option C) (hash : SilcHashFunction) (hash_user_context : option U)
    (compare : option SilcHashCompare) (compare_user_context : option U)
  : Z * (list SilcHashTableEntry * list SilcHashTableEntry) :=
  let i := SILC_HASH_TABLE_HASH ht hash key hash_user_context in
  let compare := match ht_compare ht with Some _ => compare | None => None end in
  (i, find_chain (fun e => keys_equal compare compare_user_context (he_key e) key &&
                           bool_decide (he_context e = context)) (ht_bucket ht i)).

Definition silc_hash_table_find_internal_simple (ht : SilcHashTable) (key : K)
    (hash : SilcHashFunction) (hash_user_context : option U) (compare : option SilcHashCompare)
    (compare_user_context : option U) : list SilcHashTableEntry :=
  let i := SILC_HASH_TABLE_HASH ht hash key hash_user_context in
  (find_chain (fun e => keys_equal compare compare_user_context (he_key e) key)
              (ht_bucket ht i)).2.

(** The callback [foreach] has a state of its own; it does not change the table. *)
Fixpoint find_all_loop {W} (p : SilcHashTableEntry -> bool) (foreach : K -> option C -> W -> W)
    (e : list SilcHashTableEntry) (found : bool) (w : W) : bool * W :=
  match e with
  | [] => (found, w)
  | x :: tmp =>
      if p x then find_all_loop p foreach tmp true (foreach (he_key x) (he_context x) w)
      else find_all_loop p foreach tmp found w
  end.

Definition silc_hash_table_find_internal_all {W} (ht : SilcHashTable) (key : K)
    (hash : SilcHashFunction) (hash_user_context : option U) (compare : option SilcHashCompare)
    (compare_user_context : option U) (foreach : K -> option C -> W -> W) (w : W)
  : SilcHashTable * W :=
  let i := SILC_HASH_TABLE_HASH ht hash key hash_user_context in
  let auto_rehash := ht_auto_rehash ht in
  let ht := set_auto_rehash false ht in
  let '(found, w) :=
    find_all_loop (fun e => keys_equal compare compare_user_context (he_key e) key) foreach
      (ht_bucket ht i) false w in
  let w := if negb found then foreach key None w else w in
  (set_auto_rehash auto_rehash ht, w).

(** ** Adding *)

(** The entry at the end of its chain, before the table grows. *)
Definition add_entry (ht : SilcHashTable) (key : K) (context : option C)
    (hash : SilcHashFunction) (hash_user_context : option U) : SilcHashTable :=
  let i := SILC_HASH_TABLE_HASH ht hash key hash_user_context in
  let e := {| he_key := key; he_context := context |} in
  let chain := match ht_bucket ht i with
               | [] => [e]
               | first :: tmp => (first :: tmp) ++ [e]
               end in
  set_table (set_bucket i chain (ht_table ht)) (ht_table_size ht) (u32 (ht_entry_count ht + 1)) ht.

(** The table grows only when it rehashes by itself, which silc_hash_table_rehash
    turns off while it adds: its calls of silc_hash_table_add are [add_entry]. *)
Definition silc_hash_table_rehash_ext (ht : SilcHashTable) (new_size : Z)
    (hash : SilcHashFunction) (hash_user_context : option U) : SilcHashTable :=
  let '(_, size_index) :=
    silc_hash_table_primesize (if negb (new_size =? 0) then new_size else ht_entry_count ht) in
  if size_index =? ht_table_size ht then ht
  else
    let auto_rehash := ht_auto_rehash ht in
    let table := ht_table ht in
    let ht := set_table (zrepeat [] (primesize_at size_index)) size_index 0
                        (set_auto_rehash false ht) in
    let ht := foldl (fun ht e => add_entry ht (he_key e) (he_context e) hash hash_user_context)
                    ht (concat table) in
    set_auto_rehash auto_rehash ht.

Definition silc_hash_table_rehash (ht : SilcHashTable) (new_size : Z) : SilcHashTable :=
  silc_hash_table_rehash_ext ht new_size (ht_hash ht) (ht_hash_user_context ht).

Definition silc_hash_table_add_internal (ht : SilcHashTable) (key : K) (context : option C)
    (hash : SilcHashFunction) (hash_user_context : option U) : bool * SilcHashTable :=
  let ht := add_entry ht key context hash hash_user_context in
  (true, if SILC_HASH_REHASH_INC ht then silc_hash_table_rehash ht 0 else ht).

(** The destructor of the table, when there is one. *)
Definition ht_destroy (ht : SilcHashTable) (e : SilcHashTableEntry) : list ht_destroyed :=
  match ht_destructor ht with
  | Some d => [{| hd_destructor := d; hd_entry := e;
                  hd_user_context := ht_destructor_user_context ht |}]
  | None => []
  end.

(** Replaces the first entry of the chain, whatever its key is. *)
Definition silc_hash_table_replace_internal (ht : SilcHashTable) (key : K) (context : option C)
    (hash : SilcHashFunction) (hash_user_context : option U)
  : bool * list ht_destroyed * SilcHashTable :=
  let i := SILC_HASH_TABLE_HASH ht hash key hash_user_context in
  let e := {| he_key := key; he_context := context |} in
  let '(calls, count, chain) :=
    match ht_bucket ht i with
    | old :: next => (ht_destroy ht old, ht_entry_count ht, e :: next)
    | [] => ([], u32 (ht_entry_count ht + 1), [e])
    end in
  let ht := set_table (set_bucket i chain (ht_table ht)) (ht_table_size ht) count ht in
  (true, calls, if SILC_HASH_REHASH_INC ht then silc_hash_table_rehash ht 0 else ht).

(** ** The interface *)

Definition silc_hash_table_alloc (table_size : Z) (hash : option SilcHashFunction)
    (hash_user_context : option U) (compare : option SilcHashCompare)
    (compare_user_context : option U) (destructor : option D)
    (destructor_user_context : option U) (auto_rehash : bool) : option SilcHashTable :=
  match hash with
  | None => None
  | Some hash =>
      let '(n, size_index) :=
        if negb (table_size =? 0) then silc_hash_table_primesize table_size
        else (primesize_at SILC_HASH_TABLE_SIZE, SILC_HASH_TABLE_SIZE) in
      Some {| ht_table := zrepeat [] n; ht_table_size := size_index; ht_entry_count := 0;
              ht_hash := hash; ht_compare := compare; ht_destructor := destructor;
              ht_hash_user_context := hash_user_context;
              ht_compare_user_context := compare_user_context;
              ht_destructor_user_context := destructor_user_context;
              ht_auto_rehash := auto_rehash |}
  end.

(** The calls of the destructor. *)
Definition silc_hash_table_free (ht : SilcHashTable) : list ht_destroyed :=
  concat (map (ht_destroy ht) (concat (ht_table ht))).

Definition silc_hash_table_size (ht : SilcHashTable) : Z := primesize_at (ht_table_size ht).

Definition silc_hash_table_count (ht : SilcHashTable) : Z := ht_entry_count ht.

Definition silc_hash_table_add (ht : SilcHashTable) (key : K) (context : option C) :=
  silc_hash_table_add_internal ht key context (ht_hash ht) (ht_hash_user_context ht).

Definition silc_hash_table_add_ext (ht : SilcHashTable) (key : K) (context : option C)
    (hash : SilcHashFunction) (hash_user_context : option U) :=
  silc_hash_table_add_internal ht key context hash hash_user_context.

Definition silc_hash_table_replace (ht : SilcHashTable) (key : K) (context : option C) :=
  silc_hash_table_replace_internal ht key context (ht_hash ht) (ht_hash_user_context ht).

Definition silc_hash_table_replace_ext (ht : SilcHashTable) (key : K) (context : option C)
    (hash : SilcHashFunction) (hash_user_context : option U) :=
  silc_hash_table_replace_internal ht key context hash hash_user_context.

(** The links around an entry [e] of a chain, without it. *)
Definition unlink_entry (before next : list SilcHashTableEntry) : list SilcHashTableEntry :=
  match before, next with
  | [], _ :: _ => next
  | [], [] => []
  | _, [] => before
  | _, _ :: _ => before ++ next
  end.

(** The end of the four functions that delete: [calls] is what the destructor
    does with the entry. *)
Definition del_found (ht : SilcHashTable)
    (entry : Z * (list SilcHashTableEntry * list SilcHashTableEntry))
    (calls : SilcHashTableEntry -> list ht_destroyed)
  : bool * list ht_destroyed * SilcHashTable :=
  match entry with
  | (i, (before, e :: next)) =>
      let ht := set_table (set_bucket i (unlink_entry before next) (ht_table ht))
                          (ht_table_size ht) (u32 (ht_entry_count ht - 1)) ht in
      (true, calls e, if SILC_HASH_REHASH_DEC ht then silc_hash_table_rehash ht 0 else ht)
  | (_, (_, [])) => (false, [], ht)
  end.

Definition silc_hash_table_del (ht : SilcHashTable) (key : K) :=
  del_found ht
    (silc_hash_table_find_internal ht key (ht_hash ht) (ht_hash_user_context ht)
       (ht_compare ht) (ht_compare_user_context ht))
    (ht_destroy ht).

(** x ? x : y *)
Definition ptr_or {A} (x y : option A) : option A :=
  match x with Some _ => x | None => y end.
Definition fun_or {A} (x : option A) (y : A) : A :=
  match x with Some x => x | None => y end.

Definition destroy_ext (ht : SilcHashTable) (destructor : option D)
    (destructor_user_context : option U) (e : SilcHashTableEntry) : list ht_destroyed :=
  match destructor with
  | Some d => [{| hd_destructor := d; hd_entry := e; hd_user_context := destructor_user_context |}]
  | None => ht_destroy ht e
  end.

Definition silc_hash_table_del_ext (ht : SilcHashTable) (key : K) (hash : option SilcHashFunction)
    (hash_user_context : option U) (compare : option SilcHashCompare)
    (compare_user_context : option U) (destructor : option D)
    (destructor_user_context : option U) :=
  del_found ht
    (silc_hash_table_find_internal ht key (fun_or hash (ht_hash ht))
       (ptr_or hash_user_context (ht_hash_user_context ht)) (ptr_or compare (ht_compare ht))
       (ptr_or compare_user_context (ht_compare_user_context ht)))
    (destroy_ext ht destructor destructor_user_context).

Definition silc_hash_table_del_by_context (ht : SilcHashTable) (key : K) (context : option C) :=
  del_found ht
    (silc_hash_table_find_internal_context ht key context (ht_hash ht) (ht_hash_user_context ht)
       (ht_compare ht) (ht_compare_user_context ht))
    (ht_destroy ht).

Definition silc_hash_table_del_by_context_ext (ht : SilcHashTable) (key : K) (context : option C)
    (hash : option SilcHashFunction) (hash_user_context : option U)
    (compare : option SilcHashCompare) (compare_user_context : option U) (destructor : option D)
    (destructor_user_context : option U) :=
  del_found ht
    (silc_hash_table_find_internal_context ht key context (fun_or hash (ht_hash ht))
       (ptr_or hash_user_context (ht_hash_user_context ht)) (ptr_or compare (ht_compare ht))
       (ptr_or compare_user_context (ht_compare_user_context ht)))
    (destroy_ext ht destructor destructor_user_context).

(** The entry that is found: its key and context are what is returned. *)
Definition silc_hash_table_find_ext (ht : SilcHashTable) (key : K)
    (hash : option SilcHashFunction) (hash_user_context : option U)
    (compare : option SilcHashCompare) (compare_user_context : option U)
  : option SilcHashTableEntry :=
  head (silc_hash_table_find_internal_simple ht key (fun_or hash (ht_hash ht))
         (ptr_or hash_user_context (ht_hash_user_context ht)) (ptr_or compare (ht_compare ht))
         (ptr_or compare_user_context (ht_compare_user_context ht))).

Definition silc_hash_table_find (ht : SilcHashTable) (key : K) : option SilcHashTableEntry :=
  silc_hash_table_find_ext ht key None None None None.

Definition silc_hash_table_find_by_context_ext (ht : SilcHashTable) (key : K) (context : option C)
    (hash : option SilcHashFunction) (hash_user_context : option U)
    (compare : option SilcHashCompare) (compare_user_context : option U)
  : option SilcHashTableEntry :=
  let '(_, (_, entry)) :=
    silc_hash_table_find_internal_context ht key context (fun_or hash (ht_hash ht))
      (ptr_or hash_user_context (ht_hash_user_context ht)) (ptr_or compare (ht_compare ht))
      (ptr_or compare_user_context (ht_compare_user_context ht)) in
  head entry.

Definition silc_hash_table_find_by_context (ht : SilcHashTable) (key : K) (context : option C) :=
  silc_hash_table_find_by_context_ext ht key context None None None None.

Definition silc_hash_table_find_foreach_ext {W} (ht : SilcHashTable) (key : K)
    (hash : option SilcHashFunction) (hash_user_context : option U)
    (compare : option SilcHashCompare) (compare_user_context : option U)
    (foreach : K -> option C -> W -> W) (w : W) : SilcHashTable * W :=
  silc_hash_table_find_internal_all ht key (fun_or hash (ht_hash ht))
    (ptr_or hash_user_context (ht_hash_user_context ht)) (ptr_or compare (ht_compare ht))
    (ptr_or compare_user_context (ht_compare_user_context ht)) foreach w.

Definition silc_hash_table_find_foreach {W} (ht : SilcHashTable) (key : K)
    (foreach : K -> option C -> W -> W) (w : W) : SilcHashTable * W :=
  silc_hash_table_find_internal_all ht key (ht_hash ht) (ht_hash_user_context ht)
    (ht_compare ht) (ht_compare_user_context ht) foreach w.

Definition silc_hash_table_foreach {W} (ht : SilcHashTable)
    (foreach : option (K -> option C -> W -> W)) (w : W) : SilcHashTable * W :=
  match foreach with
  | None => (ht, w)
  | Some f =>
      let auto_rehash := ht_auto_rehash ht in
      let ht := set_auto_rehash false ht in
      let w := foldl (fun w chain => foldl (fun w e => f (he_key e) (he_context e) w) w chain)
                     w (ht_table ht) in
      (set_auto_rehash auto_rehash ht, w)
  end.

(** ** Traversal *)

(** The entry pointer is the rest of the chain from the next entry on. *)
Record SilcHashTableList := {
  htl_entry : list SilcHashTableEntry;
  htl_index : Z;
  htl_auto_rehash : bool;
}.

Definition silc_hash_table_list (ht : SilcHashTable) : SilcHashTableList * SilcHashTable :=
  ({| htl_entry := []; htl_index := 0; htl_auto_rehash := ht_auto_rehash ht |},
   set_auto_rehash false ht).

Definition silc_hash_table_list_reset (htl : SilcHashTableList) (ht : SilcHashTable) :=
  set_auto_rehash (htl_auto_rehash htl) ht.

(** The loop to the next chain that is not empty. *)
Fixpoint list_get_loop (fuel : nat) (ht : SilcHashTable) (entry : list SilcHashTableEntry)
    (index : Z) : list SilcHashTableEntry * Z :=
  match fuel with
  | O => (entry, index)
  | S fuel =>
      match entry with
      | [] =>
          if index <? primesize_at (ht_table_size ht)
          then list_get_loop fuel ht (ht_bucket ht index) (index + 1) else (entry, index)
      | _ => (entry, index)
      end
  end.

Definition silc_hash_table_get (ht : SilcHashTable) (htl : SilcHashTableList)
  : option SilcHashTableEntry * SilcHashTableList :=
  if ht_entry_count ht =? 0 then (None, htl)
  else
    let '(entry, index) :=
      list_get_loop (Z.to_nat (primesize_at (ht_table_size ht) - htl_index htl) + 1) ht
        (htl_entry htl) (htl_index htl) in
    let upd := fun entry => {| htl_entry := entry; htl_index := index;
                               htl_auto_rehash := htl_auto_rehash htl |} in
    match entry with
    | [] => (None, upd (htl_entry htl))
    | e :: next => (Some e, upd next)
    end.
End table.

Arguments SilcHashFunction : clear implicits.
Arguments SilcHashCompare : clear implicits.
Arguments SilcHashTableEntry : clear implicits.
Arguments SilcHashTable : clear implicits.
Arguments ht_destroyed : clear implicits.
Arguments SilcHashTableList : clear implicits.
