(* ===== verification/HashTableSpec.v ===== *)
(** The hash table is a multimap: any sequence of operations, with the rehashing
    they cause, gives what a list of entries in the order of their addition
    gives. *)

From stdpp Require Import list strings.
From S2P Require Import Prelude CTypes HashTable.

(** * Chains *)

Section chains.
Context {A : Type}.
Implicit Types (p q : A -> bool) (l : list A).

(** A list without its first element that has the property. *)
Fixpoint remove_first p l : list A :=
  match l with [] => [] | x :: l => if p x then l else x :: remove_first p l end.

Lemma filter_none p l : (forall x, In x l -> p x = false) -> List.filter p l = [].
Proof.
  induction l as [|x l IH]; intros H; [done|]. cbn. rewrite H by by left.
  apply IH. intros y Hy. apply H. by right.
Qed.

Lemma remove_first_none p l : (forall x, In x l -> p x = false) -> remove_first p l = l.
Proof.
  induction l as [|x l IH]; intros H; [done|]. cbn. rewrite H by by left.
  f_equal. apply IH. intros y Hy. apply H. by right.
Qed.

Lemma remove_first_app p l k :
  (exists x, In x l /\ p x = true) -> remove_first p (l ++ k) = remove_first p l ++ k.
Proof.
  induction l as [|x l IH]; intros (y & Hin & Hy); [done|]. cbn.
  destruct (p x) eqn:E; [done|]. cbn. f_equal. apply IH.
  destruct Hin as [->|Hin]; [congruence|]. by exists y.
Qed.

(** Removing and selecting commute when what is removed is selected or not at all. *)
Lemma filter_remove_first p q l :
  (forall x, In x l -> p x = true -> q x = true) ->
  List.filter q (remove_first p l) = remove_first p (List.filter q l).
Proof.
  induction l as [|x l IH]; intros H; [done|]. cbn.
  destruct (p x) eqn:Ep.
  - rewrite (H x) by (by left || done). cbn. by rewrite Ep.
  - cbn. rewrite IH by (intros; apply H; [by right|done]).
    destruct (q x); [|done]. cbn. by rewrite Ep.
Qed.

Lemma filter_remove_other p q l :
  (forall x, In x l -> p x = true -> q x = false) ->
  List.filter q (remove_first p l) = List.filter q l.
Proof.
  induction l as [|x l IH]; intros H; [done|]. cbn.
  destruct (p x) eqn:Ep.
  - by rewrite (H x) by (by left || done).
  - cbn. rewrite IH by (intros; apply H; [by right|done]). done.
Qed.

Lemma remove_first_skip p X l :
  (forall x, In x X -> p x = false) -> remove_first p (X ++ l) = X ++ remove_first p l.
Proof.
  induction X as [|x X IH]; intros HX; [done|]. cbn. rewrite HX by by left.
  f_equal. apply IH. intros y Hy. apply HX. by right.
Qed.

Lemma remove_first_perm p l e tl :
  List.filter p l = e :: tl -> l ≡ₚ e :: remove_first p l.
Proof.
  induction l as [|x l IH]; [done|]. cbn. destruct (p x).
  - by intros [= -> _].
  - intros E. rewrite (IH E) at 1. constructor.
Qed.
End chains.

Section find.
Context {K C : Type}.
Implicit Types (p : SilcHashTableEntry K C -> bool) (l : list (SilcHashTableEntry K C)).

Lemma find_chain_spec p l :
  match find_chain p l with
  | (_, []) => List.filter p l = []
  | (before, e :: next) =>
      p e = true /\ List.filter p l = e :: List.filter p next /\
      before ++ next = remove_first p l
  end.
Proof.
  induction l as [|x l IH]; [done|]. cbn. destruct (p x) eqn:E; [done|].
  destruct (find_chain p l) as [before [|e next]]; [done|].
  destruct IH as (? & ? & IH). split_and!; try done. cbn. by rewrite IH.
Qed.

Lemma find_chain_head p l : head (find_chain p l).2 = head (List.filter p l).
Proof.
  pose proof (find_chain_spec p l) as H. destruct (find_chain p l) as [before [|e next]].
  - by rewrite H.
  - destruct H as (_ & H & _). by rewrite H.
Qed.

Lemma unlink_entry_app (before next : list (SilcHashTableEntry K C)) :
  unlink_entry before next = before ++ next.
Proof. destruct before, next; try done. by rewrite app_nil_r. Qed.

Lemma find_all_loop_spec {W} p (f : K -> option C -> W -> W) l found w :
  find_all_loop p f l found w =
  (found || negb (bool_decide (List.filter p l = [])),
   foldl (fun w e => f (he_key e) (he_context e) w) w (List.filter p l)).
Proof.
  revert found w; induction l as [|x l IH]; intros found w; cbn; [by rewrite orb_false_r|].
  destruct (p x); rewrite IH; [|done]. cbn. by rewrite orb_true_r.
Qed.
End find.

(** * Sizes *)

Lemma primesize_loop_index l i size p j :
  primesize_loop l i size = Some (p, j) ->
  i <= j < i + zlen l /\ nth (Z.to_nat (j - i)) l 0 = p /\ size <= p.
Proof.
  revert i; induction l as [|x l IH]; intros i; [done|]. cbn [primesize_loop].
  destruct (Z.leb_spec size x).
  - intros [= <- <-]. rewrite Z.sub_diag. split; [len|done].
  - intros (? & E & ?)%IH. split; [len|]. split; [|done].
    replace (Z.to_nat (j - i)) with (S (Z.to_nat (j - (i + 1)))) by lia. done.
Qed.

Lemma primesize_index size p i :
  silc_hash_table_primesize size = (p, i) -> 0 <= i < zlen primesize /\ primesize_at i = p.
Proof.
  unfold silc_hash_table_primesize. destruct (primesize_loop _ _ _) as [[q j]|] eqn:E.
  - intros [= -> ->]. apply primesize_loop_index in E as (? & E & _).
    split; [lia|]. unfold primesize_at. by rewrite Z.sub_0_r in E.
  - intros [= <- <-]. by split.
Qed.

Lemma primesize_pos i : 0 <= i < zlen primesize -> 0 < primesize_at i.
Proof.
  intros Hi. assert (Forall (fun p => 0 < p) primesize) as H by (repeat constructor).
  unfold primesize_at. apply (proj1 (Forall_forall _ _) H), nth_In. lia.
Qed.

(** * What a table holds *)

(** What the functions of a table promise: the comparison is an equivalence and
    equal keys have the same hash. *)
Class HashLaws {K U} `{EqDecision K} (hash : SilcHashFunction K U) (hctx : option U)
    (cmp : option (SilcHashCompare K U)) (cctx : option U) : Prop := {
  equal_refl k : keys_equal cmp cctx k k = true;
  equal_sym k1 k2 : keys_equal cmp cctx k1 k2 = keys_equal cmp cctx k2 k1;
  equal_trans k1 k2 k3 :
    keys_equal cmp cctx k1 k2 = true -> keys_equal cmp cctx k2 k3 = keys_equal cmp cctx k1 k3;
  hash_equal k1 k2 : keys_equal cmp cctx k1 k2 = true -> u32 (hash k1 hctx) = u32 (hash k2 hctx);
}.

(** Without a comparison function any hash function will do. *)
#[export] Instance pointer_keys {K U} `{EqDecision K} hash hctx cctx :
  @HashLaws K U _ hash hctx None cctx.
Proof.
  split; simpl.
  - intros k. by apply bool_decide_eq_true_2.
  - intros k1 k2. by apply bool_decide_ext.
  - intros k1 k2 k3 ->%bool_decide_eq_true_1. done.
  - by intros k1 k2 ->%bool_decide_eq_true_1.
Qed.

Section represents.
Context {K C U D : Type} `{EqDecision K} `{EqDecision C}.
Context (hash : SilcHashFunction K U) (hctx : option U)
  (cmp : option (SilcHashCompare K U)) (cctx : option U) `{!HashLaws hash hctx cmp cctx}.
Abbreviation entry := (SilcHashTableEntry K C).
Abbreviation table := (SilcHashTable K C U D).
Implicit Types (ht : table) (l : list entry) (e : entry) (k : K).

Definition same_key k e : bool := keys_equal cmp cctx (he_key e) k.

(** The functions of the table are these. *)
Definition configured (des : option D) (dctx : option U) ht : Prop :=
  ht_hash ht = hash /\ ht_hash_user_context ht = hctx /\ ht_compare ht = cmp /\
  ht_compare_user_context ht = cctx /\ ht_destructor ht = des /\
  ht_destructor_user_context ht = dctx.

(** The size is one of the primes, the count that of the entries, and every entry
    is in the bucket of its key. *)
Record ht_wf ht : Prop := {
  wf_size : 0 <= ht_table_size ht < zlen primesize;
  wf_table : zlen (ht_table ht) = primesize_at (ht_table_size ht);
  wf_count : ht_entry_count ht = u32 (zlen (concat (ht_table ht)));
  wf_placed i b e : ht_table ht !! i = Some b -> In e b ->
    Z.to_nat (SILC_HASH_TABLE_HASH ht hash (he_key e) hctx) = i;
}.

(** The table holds the entries of the list; entries with equal keys are found in
    the order of the list. *)
Record represents ht l : Prop := {
  rep_wf : ht_wf ht;
  rep_order k : List.filter (same_key k) (concat (ht_table ht)) = List.filter (same_key k) l;
  rep_entries : concat (ht_table ht) ≡ₚ l;
}.

Lemma same_key_trans k1 k2 e : same_key k1 e = true -> same_key k2 e = keys_equal cmp cctx k1 k2.
Proof. unfold same_key. intros H. by rewrite <- (equal_trans _ _ k2 H), equal_sym, (equal_sym k2). Qed.

Definition bucket_index ht k : nat := Z.to_nat (SILC_HASH_TABLE_HASH ht hash k hctx).

Lemma bucket_index_lt ht k : ht_wf ht -> (bucket_index ht k < length (ht_table ht))%nat.
Proof.
  intros [Hs Ht _ _]. unfold bucket_index, SILC_HASH_TABLE_HASH.
  pose proof (primesize_pos _ Hs). pose proof (Z.mod_pos_bound (u32 (hash k hctx)) _ H). lia.
Qed.

Lemma same_index ht k e : same_key k e = true -> bucket_index ht (he_key e) = bucket_index ht k.
Proof.
  unfold same_key, bucket_index, SILC_HASH_TABLE_HASH. intros E. by rewrite (hash_equal _ _ E).
Qed.

(** The entries around those of one bucket. *)
Lemma bucket_split ht k :
  ht_wf ht ->
  exists before after,
    (forall b, concat (set_bucket (SILC_HASH_TABLE_HASH ht hash k hctx) b (ht_table ht)) =
               before ++ b ++ after) /\
    concat (ht_table ht) = before ++ ht_bucket ht (SILC_HASH_TABLE_HASH ht hash k hctx) ++ after /\
    (forall k' e, bucket_index ht k' = bucket_index ht k -> In e (before ++ after) ->
       same_key k' e = false).
Proof.
  intros Hwf. pose proof (bucket_index_lt ht k Hwf) as Hlt.
  unfold set_bucket, ht_bucket. fold (bucket_index ht k). set (i := bucket_index ht k) in *.
  destruct (lookup_lt_is_Some_2 (ht_table ht) i Hlt) as [b Hb].
  exists (concat (take i (ht_table ht))), (concat (drop (S i) (ht_table ht))). split_and!.
  - intros b'. rewrite insert_take_drop by done. rewrite concat_app. cbn. done.
  - rewrite (nth_lookup_Some _ _ [] _ Hb).
    rewrite <- (take_drop_middle (ht_table ht) i b Hb) at 1. rewrite concat_app. done.
  - intros k' e Hk Hin. destruct (same_key k' e) eqn:E; [|done]. exfalso.
    pose proof (same_index ht k' e E) as Hi. rewrite Hk in Hi.
    assert (exists j b', ht_table ht !! j = Some b' /\ In e b' /\ j <> i) as (j & b' & Hj & He & Hne).
    { apply in_app_or in Hin as [Hin|Hin]; apply in_concat in Hin as (b' & Hin & He);
        apply list_elem_of_In, list_elem_of_lookup in Hin as [j Hj].
      - exists j, b'. pose proof (lookup_lt_Some _ _ _ Hj). rewrite length_take in *.
        rewrite lookup_take_lt in Hj by lia. split_and!; [done..|lia].
      - exists (S i + j)%nat, b'. rewrite lookup_drop in Hj. split_and!; [done..|lia]. }
    apply Hne. rewrite <- Hi. symmetry. exact (wf_placed _ Hwf _ _ _ Hj He).
Qed.

(** A selection of entries with one key is made from the bucket of the key. *)
Lemma select_bucket ht k (p : entry -> bool) :
  ht_wf ht -> (forall e, p e = true -> same_key k e = true) ->
  List.filter p (ht_bucket ht (SILC_HASH_TABLE_HASH ht hash k hctx)) =
  List.filter p (concat (ht_table ht)).
Proof.
  intros Hwf Hp. destruct (bucket_split ht k Hwf) as (before & after & _ & -> & Hn).
  rewrite !filter_app.
  assert (forall e, In e (before ++ after) -> p e = false) as Hf.
  { intros e Hin. destruct (p e) eqn:E; [|done]. rewrite <- (Hn k e); [symmetry; by apply Hp|done..]. }
  rewrite (filter_none p before), (filter_none p after); [by rewrite app_nil_r|..];
    intros e Hin; apply Hf, in_or_app; auto.
Qed.

Lemma select_filter (p q : entry -> bool) l :
  (forall e, p e = true -> q e = true) -> List.filter p (List.filter q l) = List.filter p l.
Proof.
  intros H. induction l as [|x l IH]; [done|]. cbn. destruct (q x) eqn:Eq; cbn.
  - by rewrite IH.
  - destruct (p x) eqn:Ep; [|done]. apply H in Ep. congruence.
Qed.

Lemma select_represents ht l k (p : entry -> bool) :
  represents ht l -> (forall e, p e = true -> same_key k e = true) ->
  List.filter p (ht_bucket ht (SILC_HASH_TABLE_HASH ht hash k hctx)) = List.filter p l.
Proof.
  intros [Hwf Ho _] Hp. rewrite (select_bucket ht k p Hwf Hp).
  by rewrite <- (select_filter p (same_key k) l), <- Ho, select_filter.
Qed.

Lemma u32_plus x y : u32 (u32 x + y) = u32 (x + y).
Proof. unfold u32. by rewrite Z.add_mod_idemp_l. Qed.

(** Another chain in the bucket of a key, of entries that belong there. *)
Lemma set_bucket_wf ht k chain count :
  ht_wf ht -> (forall e, In e chain -> bucket_index ht (he_key e) = bucket_index ht k) ->
  let t := set_bucket (SILC_HASH_TABLE_HASH ht hash k hctx) chain (ht_table ht) in
  count = u32 (zlen (concat t)) -> ht_wf (set_table t (ht_table_size ht) count ht).
Proof.
  intros Hwf Hc t ->. destruct Hwf as [Hs Ht Hn Hp]. split; [done| |done|].
  - cbn [ht_table set_table]. unfold t, set_bucket. by rewrite length_insert.
  - cbn [ht_table set_table]. intros i b e Hi He.
    change (bucket_index ht (he_key e) = i). revert Hi. unfold t, set_bucket.
    fold (bucket_index ht k). intros [(<- & <- & _)|(Hne & Hi)]%list_lookup_insert_Some.
    + by apply Hc.
    + by eapply Hp.
Qed.

Lemma in_bucket ht k e :
  ht_wf ht -> In e (ht_bucket ht (SILC_HASH_TABLE_HASH ht hash k hctx)) ->
  bucket_index ht (he_key e) = bucket_index ht k.
Proof.
  intros Hwf. unfold ht_bucket. fold (bucket_index ht k).
  destruct (lookup_lt_is_Some_2 _ _ (bucket_index_lt ht k Hwf)) as [b Hb].
  rewrite (nth_lookup_Some _ _ [] _ Hb). by apply (wf_placed _ Hwf).
Qed.

(** ** Adding *)

Lemma add_entry_represents ht l k (c : option C) :
  represents ht l ->
  represents (add_entry ht k c hash hctx) (l ++ [{| he_key := k; he_context := c |}]).
Proof.
  intros [Hwf Ho Hp]. unfold add_entry. set (e := {| he_key := k; he_context := c |}).
  set (i := SILC_HASH_TABLE_HASH ht hash k hctx).
  replace (match ht_bucket ht i with [] => [e] | first :: tmp => (first :: tmp) ++ [e] end)
    with (ht_bucket ht i ++ [e]) by by destruct (ht_bucket ht i).
  destruct (bucket_split ht k Hwf) as (before & after & Hset & Hall & Hn). fold i in Hset, Hall.
  specialize (Hset (ht_bucket ht i ++ [e])). split.
  - apply set_bucket_wf; [done| |].
    + intros x [Hin|[<-|[]]]%in_app_or; [by apply in_bucket|done].
    + rewrite (wf_count _ Hwf), u32_plus. f_equal. fold i. rewrite Hset, Hall. len.
  - cbn [ht_table set_table]. intros k'. rewrite Hset, (filter_app _ l), <- Ho, Hall, !filter_app.
    destruct (same_key k' e) eqn:E.
    + rewrite (filter_none _ after); [by rewrite !app_nil_r, app_assoc|].
      intros x Hin. apply Hn; [|apply in_or_app; by right].
      symmetry. exact (same_index ht k' e E).
    + cbn. rewrite E. by rewrite !app_nil_r.
  - cbn [ht_table set_table]. rewrite Hset, <- Hp, Hall. rewrite <- !app_assoc.
    do 2 f_equiv. by rewrite (Permutation_app_comm after).
Qed.

Lemma represents_wf_change ht ht' l :
  represents ht l -> ht_table ht' = ht_table ht -> ht_table_size ht' = ht_table_size ht ->
  ht_entry_count ht' = ht_entry_count ht -> represents ht' l.
Proof.
  intros [[] ??] Et Es Ec. split; [split|..]; rewrite ?Et, ?Es, ?Ec; try done.
  intros i b e. rewrite ?Et. unfold SILC_HASH_TABLE_HASH. rewrite Es. by apply wf_placed0.
Qed.

Lemma concat_empty {A} n : concat (replicate n ([] : list A)) = [].
Proof. by induction n. Qed.

Lemma represents_empty ht :
  0 <= ht_table_size ht < zlen primesize ->
  ht_table ht = zrepeat [] (primesize_at (ht_table_size ht)) -> ht_entry_count ht = 0 ->
  represents ht [].
Proof.
  intros Hs Ht Hc. pose proof (primesize_pos _ Hs).
  assert (concat (ht_table ht) = []) as E by (rewrite Ht; apply concat_empty).
  split; [split|..].
  - done.
  - rewrite Ht. len.
  - by rewrite Hc, E.
  - intros i b e. rewrite Ht. unfold zrepeat. by intros [-> _]%lookup_replicate.
  - intros k. by rewrite E.
  - by rewrite E.
Qed.

Lemma add_entries_represents es ht l :
  represents ht l ->
  represents (foldl (fun ht e => add_entry ht (he_key e) (he_context e) hash hctx) ht es) (l ++ es).
Proof.
  revert ht l; induction es as [|e es IH]; intros ht l Hr; cbn; [by rewrite app_nil_r|].
  rewrite (cons_middle e l es), app_assoc. apply IH. destruct e. by apply add_entry_represents.
Qed.

(** Another list of the same entries with the same order for every key. *)
Lemma represents_trans ht l l' :
  represents ht l' -> (forall k, List.filter (same_key k) l' = List.filter (same_key k) l) ->
  l' ≡ₚ l -> represents ht l.
Proof. intros [? Ho Hp] H1 H2. split; [done| |by rewrite Hp]. intros k. by rewrite Ho. Qed.

Lemma rehash_represents ht l n :
  represents ht l -> represents (silc_hash_table_rehash_ext ht n hash hctx) l.
Proof.
  intros Hr. unfold silc_hash_table_rehash_ext. destruct (silc_hash_table_primesize _) as [p i] eqn:E.
  apply primesize_index in E as [Hi _]. destruct (i =? _); [done|]. cbv zeta.
  set (ht0 := set_table _ _ _ _).
  match goal with
  | |- represents (set_auto_rehash _ ?h) _ => apply (represents_wf_change h); [|done..]
  end.
  apply represents_trans with ([] ++ concat (ht_table ht)); [|apply Hr..].
  by apply add_entries_represents, represents_empty.
Qed.

(** ** Deleting *)

Lemma remove_first_other (p : entry -> bool) l k :
  (forall e, p e = true -> same_key k e = true) -> forall k', keys_equal cmp cctx k k' = false ->
  List.filter (same_key k') (remove_first p l) = List.filter (same_key k') l.
Proof.
  intros Hp k' E. apply filter_remove_other. intros x _ Hx.
  by rewrite (same_key_trans k k' x (Hp _ Hx)).
Qed.

Lemma remove_first_same (p : entry -> bool) l k :
  (forall e, p e = true -> same_key k e = true) -> forall k', keys_equal cmp cctx k k' = true ->
  List.filter (same_key k') (remove_first p l) = remove_first p (List.filter (same_key k') l).
Proof.
  intros Hp k' E. apply filter_remove_first. intros x _ Hx.
  by rewrite (same_key_trans k k' x (Hp _ Hx)).
Qed.

Lemma remove_from_bucket ht k (p : entry -> bool) e tl :
  let i := SILC_HASH_TABLE_HASH ht hash k hctx in
  ht_wf ht -> (forall e, p e = true -> same_key k e = true) ->
  List.filter p (ht_bucket ht i) = e :: tl ->
  concat (set_bucket i (remove_first p (ht_bucket ht i)) (ht_table ht)) =
  remove_first p (concat (ht_table ht)).
Proof.
  intros i Hwf Hp Hf. destruct (bucket_split ht k Hwf) as (X & Y & Hset & Hall & Hn).
  fold i in Hset, Hall. rewrite Hset, Hall, remove_first_skip.
  - rewrite remove_first_app; [done|]. exists e.
    apply (filter_In p). rewrite Hf. by left.
  - intros x Hx. destruct (p x) eqn:E; [|done].
    rewrite <- (Hn k x); [symmetry; by apply Hp|done|apply in_or_app; by left].
Qed.

Lemma remove_represents ht l k (p : entry -> bool) e tl :
  let i := SILC_HASH_TABLE_HASH ht hash k hctx in
  represents ht l -> (forall e, p e = true -> same_key k e = true) ->
  List.filter p l = e :: tl ->
  represents (set_table (set_bucket i (remove_first p (ht_bucket ht i)) (ht_table ht))
                        (ht_table_size ht) (u32 (ht_entry_count ht - 1)) ht)
             (remove_first p l).
Proof.
  intros i Hr Hp Hl. pose proof (select_represents ht l k p Hr Hp) as Hf. fold i in Hf.
  rewrite Hl in Hf. destruct Hr as [Hwf Ho Hperm].
  pose proof (remove_from_bucket ht k p e tl Hwf Hp Hf) as Ht. fold i in Ht.
  assert (List.filter p (concat (ht_table ht)) = e :: tl) as Hc
    by by rewrite <- Hf, <- (select_bucket ht k p Hwf Hp).
  pose proof (remove_first_perm p _ e _ Hc) as Pt. split; cbn [ht_table set_table].
  - apply set_bucket_wf; [done| |].
    + intros x Hin. apply in_bucket; [done|]. fold i.
      eapply Permutation_in; [symmetry; by apply (remove_first_perm p _ e _ Hf)|by right].
    + fold i. pose proof (Permutation_length Pt) as L. cbn [length] in L.
      rewrite (wf_count _ Hwf), Ht, L. unfold u32. rewrite Zminus_mod_idemp_l. f_equal. lia.
  - intros k'. rewrite Ht. destruct (keys_equal cmp cctx k k') eqn:E.
    + rewrite !(remove_first_same p _ k Hp k' E). by rewrite Ho.
    + rewrite !(remove_first_other p _ k Hp k' E). apply Ho.
  - rewrite Ht. apply (Permutation_cons_inv (a := e)).
    etransitivity; [by symmetry|]. rewrite Hperm. by apply (remove_first_perm p l e tl).
Qed.

(** Deleting the first entry of a selection: the table and the list lose the same one. *)
Lemma del_found_represents ht l k (p : entry -> bool) calls :
  represents ht l -> ht_hash ht = hash -> ht_hash_user_context ht = hctx ->
  (forall e, p e = true -> same_key k e = true) ->
  let i := SILC_HASH_TABLE_HASH ht hash k hctx in
  let '(ok, log, ht') := del_found ht (i, find_chain p (ht_bucket ht i)) calls in
  match head (List.filter p l) with
  | Some e => ok = true /\ log = calls e
  | None => ok = false /\ log = []
  end /\ represents ht' (remove_first p l).
Proof.
  intros Hr Eh Ec Hp i. pose proof (select_represents ht l k p Hr Hp) as Hsel. fold i in Hsel.
  pose proof (find_chain_spec p (ht_bucket ht i)) as Hf. unfold del_found.
  destruct (find_chain p (ht_bucket ht i)) as [before [|e next]].
  - rewrite <- Hsel, Hf. split; [done|]. rewrite remove_first_none; [done|].
    intros x Hin. destruct (p x) eqn:E; [|done]. exfalso.
    assert (In x (List.filter p l)) as H by (by apply filter_In). by rewrite <- Hsel, Hf in H.
  - destruct Hf as (Hpe & Hf & Hrm). rewrite Hf in Hsel. rewrite <- Hsel. cbn [head]. split; [done|].
    rewrite unlink_entry_app, Hrm. symmetry in Hsel.
    pose proof (remove_represents ht l k p _ _ Hr Hp Hsel) as H1. fold i in H1.
    destruct (SILC_HASH_REHASH_DEC _); [|done].
    unfold silc_hash_table_rehash. cbn [ht_hash ht_hash_user_context set_table]. rewrite Eh, Ec.
    by apply rehash_represents.
Qed.
End represents.

(** * The table as a multimap *)

Section multimap.
Context {K C U D : Type} `{EqDecision K} `{EqDecision C}.
Abbreviation entry := (SilcHashTableEntry K C).

Inductive ht_op :=
| op_add (key : K) (context : option C)
| op_del (key : K)
| op_del_by_context (key : K) (context : option C)
| op_find (key : K)
| op_find_by_context (key : K) (context : option C)
| op_find_foreach (key : K)
| op_count
| op_rehash (new_size : Z).

(** What an operation returns: the destructor calls of a deletion, the entry that
    is found, the arguments of the callback. *)
Inductive ht_result :=
| res_added (ok : bool)
| res_deleted (ok : bool) (calls : list (ht_destroyed K C U D))
| res_entry (e : option entry)
| res_entries (l : list (K * option C))
| res_count (n : Z)
| res_done.

Definition note (k : K) (c : option C) (l : list (K * option C)) := l ++ [(k, c)].

Definition ht_step (ht : SilcHashTable K C U D) (op : ht_op) : ht_result * SilcHashTable K C U D :=
  match op with
  | op_add k c => let '(ok, ht) := silc_hash_table_add ht k c in (res_added ok, ht)
  | op_del k => let '(ok, calls, ht) := silc_hash_table_del ht k in (res_deleted ok calls, ht)
  | op_del_by_context k c =>
      let '(ok, calls, ht) := silc_hash_table_del_by_context ht k c in (res_deleted ok calls, ht)
  | op_find k => (res_entry (silc_hash_table_find ht k), ht)
  | op_find_by_context k c => (res_entry (silc_hash_table_find_by_context ht k c), ht)
  | op_find_foreach k =>
      let '(ht, l) := silc_hash_table_find_foreach ht k note [] in (res_entries l, ht)
  | op_count => (res_count (silc_hash_table_count ht), ht)
  | op_rehash n => (res_done, silc_hash_table_rehash ht n)
  end.

Context (hash : SilcHashFunction K U) (hctx : option U)
  (cmp : option (SilcHashCompare K U)) (cctx : option U)
  (des : option D) (dctx : option U).

(** The same on a list of entries. *)
Definition spec_delete (l : list entry) (p : entry -> bool) : ht_result * list entry :=
  match List.filter p l with
  | e :: _ =>
      (res_deleted true (match des with
                         | Some d => [{| hd_destructor := d; hd_entry := e;
                                         hd_user_context := dctx |}]
                         | None => []
                         end), remove_first p l)
  | [] => (res_deleted false [], l)
  end.

Definition spec_step (l : list entry) (op : ht_op) : ht_result * list entry :=
  let same k e := keys_equal cmp cctx (he_key e) k in
  let with_context c e := bool_decide (he_context e = c) in
  match op with
  | op_add k c => (res_added true, l ++ [{| he_key := k; he_context := c |}])
  | op_del k => spec_delete l (same k)
  | op_del_by_context k c => spec_delete l (fun e => same k e && with_context c e)
  | op_find k => (res_entry (head (List.filter (same k) l)), l)
  | op_find_by_context k c =>
      (res_entry (head (List.filter (fun e => same k e && with_context c e) l)), l)
  | op_find_foreach k =>
      (res_entries (match List.filter (same k) l with
                    | [] => [(k, None)]
                    | found => map (fun e => (he_key e, he_context e)) found
                    end), l)
  | op_count => (res_count (u32 (zlen l)), l)
  | op_rehash _ => (res_done, l)
  end.

Fixpoint run_ops {S} (step : S -> ht_op -> ht_result * S) (s : S) (ops : list ht_op)
  : list ht_result * S :=
  match ops with
  | [] => ([], s)
  | op :: ops =>
      let '(r, s) := step s op in let '(rs, s) := run_ops step s ops in (r :: rs, s)
  end.

Context `{!HashLaws hash hctx cmp cctx}.
Abbreviation configured := (configured (C := C) hash hctx cmp cctx des dctx).
Abbreviation represents := (represents (D := D) hash hctx cmp cctx).

Lemma configured_rehash ht n h c : configured ht -> configured (silc_hash_table_rehash_ext ht n h c).
Proof.
  intros Hc. unfold silc_hash_table_rehash_ext. destruct (silc_hash_table_primesize _) as [p i].
  destruct (i =? _); [done|]. cbv zeta. set (ht0 := set_table _ _ _ _).
  assert (configured ht0) as H0 by done. revert H0. generalize ht0, (concat (ht_table ht)).
  clear. intros ht0 l. revert ht0. induction l as [|e l IH]; intros ht0 H0; [done|by apply IH].
Qed.

Lemma add_represents ht l k c :
  configured ht -> represents ht l ->
  let '(ok, ht') := silc_hash_table_add ht k c in
  ok = true /\ configured ht' /\ represents ht' (l ++ [{| he_key := k; he_context := c |}]).
Proof.
  intros Hc Hr. pose proof Hc as (Eh & Ec & _). unfold silc_hash_table_add, silc_hash_table_add_internal.
  rewrite Eh, Ec. split; [done|].
  pose proof (add_entry_represents hash hctx cmp cctx ht l k c Hr) as H1.
  set (ht1 := add_entry _ _ _ _ _) in *. assert (configured ht1) as Hc1 by done.
  destruct (SILC_HASH_REHASH_INC ht1); [|done]. unfold silc_hash_table_rehash.
  pose proof Hc1 as (-> & -> & _). split; [by apply configured_rehash|by apply rehash_represents].
Qed.

Lemma configured_del ht entry calls : configured ht -> configured (del_found ht entry calls).2.
Proof.
  intros Hc. destruct entry as [i [before [|e next]]]; [done|]. cbn [del_found snd].
  destruct (SILC_HASH_REHASH_DEC _); [|done]. by apply configured_rehash.
Qed.

Lemma delete_represents ht l k (p : entry -> bool) :
  configured ht -> represents ht l ->
  (forall e, p e = true -> same_key cmp cctx k e = true) ->
  let i := SILC_HASH_TABLE_HASH ht hash k hctx in
  let '(ok, calls, ht') :=
    del_found ht (i, find_chain p (ht_bucket ht i)) (ht_destroy ht) in
  let '(r, l') := spec_delete l p in
  r = res_deleted ok calls /\ configured ht' /\ represents ht' l'.
Proof.
  intros Hc Hr Hp i. pose proof Hc as (Eh & Ec & _ & _ & Ed & Edc).
  pose proof (del_found_represents hash hctx cmp cctx ht l k p (ht_destroy ht) Hr Eh Ec Hp) as H.
  cbv zeta in H. fold i in H.
  pose proof (configured_del ht (i, find_chain p (ht_bucket ht i)) (ht_destroy ht) Hc) as Hc'.
  destruct (del_found _ _ _) as [[ok calls] ht']. destruct H as [Hres Hr'].
  unfold spec_delete. destruct (List.filter p l) as [|e tl] eqn:E; cbn [head] in Hres;
    destruct Hres as [-> ->].
  - split_and!; [done..|]. rewrite remove_first_none in Hr'; [done|].
    intros x Hin. destruct (p x) eqn:Ex; [|done]. exfalso.
    assert (In x (List.filter p l)) as Hx by (by apply filter_In). by rewrite E in Hx.
  - unfold ht_destroy. by rewrite Ed, Edc.
Qed.

Lemma find_represents ht l k (p : entry -> bool) :
  represents ht l -> (forall e, p e = true -> same_key cmp cctx k e = true) ->
  head (find_chain p (ht_bucket ht (SILC_HASH_TABLE_HASH ht hash k hctx))).2 =
  head (List.filter p l).
Proof. intros Hr Hp. rewrite find_chain_head. by erewrite select_represents by done. Qed.

Lemma note_entries (l : list entry) l0 :
  foldl (fun w e => note (he_key e) (he_context e) w) l0 l =
  l0 ++ map (fun e => (he_key e, he_context e)) l.
Proof.
  revert l0; induction l as [|e l IH]; intros l0; cbn; [by rewrite app_nil_r|].
  rewrite IH. unfold note. by rewrite <- app_assoc.
Qed.

(** What the callback is called with. *)
Lemma find_foreach_calls {W} (f : K -> option C -> W -> W) w ht l k :
  configured ht -> represents ht l ->
  silc_hash_table_find_foreach ht k f w =
  (ht, match List.filter (same_key cmp cctx k) l with
       | [] => f k None w
       | found => foldl (fun w e => f (he_key e) (he_context e) w) w found
       end).
Proof.
  intros Hc Hr. pose proof Hc as (Eh & Ec & Em & Emc & _).
  unfold silc_hash_table_find_foreach, silc_hash_table_find_internal_all. rewrite Eh, Ec, Em, Emc.
  rewrite find_all_loop_spec. cbn [orb].
  change (ht_bucket (set_auto_rehash false ht) ?i) with (ht_bucket ht i).
  change (SILC_HASH_TABLE_HASH (set_auto_rehash false ht)) with (SILC_HASH_TABLE_HASH ht).
  fold (same_key (C := C) cmp cctx k).
  rewrite (select_represents hash hctx cmp cctx ht l k _ Hr) by done. rewrite negb_involutive.
  replace (set_auto_rehash _ _) with ht by by destruct ht.
  by destruct (List.filter _ l).
Qed.

Lemma find_foreach_represents ht l k :
  configured ht -> represents ht l ->
  silc_hash_table_find_foreach ht k note [] =
  (ht, match List.filter (same_key cmp cctx k) l with
       | [] => [(k, None)]
       | found => map (fun e => (he_key e, he_context e)) found
       end).
Proof.
  intros Hc Hr. rewrite (find_foreach_calls note [] ht l k Hc Hr).
  destruct (List.filter _ l); [done|]. by rewrite note_entries.
Qed.

(** The simulation: a step of the table is the step of the list. *)
Lemma ht_step_refines ht l op :
  configured ht -> represents ht l ->
  let '(r, ht') := ht_step ht op in
  let '(r', l') := spec_step l op in
  r = r' /\ configured ht' /\ represents ht' l'.
Proof.
  intros Hc Hr. pose proof Hc as (Eh & Ec & Em & Emc & _). destruct op; cbn [ht_step spec_step].
  - pose proof (add_represents ht l key context Hc Hr) as H.
    destruct (silc_hash_table_add _ _ _) as [ok ht']. by destruct H as (-> & ? & ?).
  - pose proof (delete_represents ht l key (same_key cmp cctx key) Hc Hr ltac:(done)) as H.
    cbv zeta in H. unfold silc_hash_table_del, silc_hash_table_find_internal. rewrite Eh, Ec, Em, Emc.
    change (fun e : entry => _) with (same_key (C := C) cmp cctx key).
    destruct (del_found _ _ _) as [[ok calls] ht'], (spec_delete _ _) as [r l'].
    by destruct H as (-> & ? & ?).
  - pose proof (delete_represents ht l key
      (fun e => same_key cmp cctx key e && bool_decide (he_context e = context)) Hc Hr
      ltac:(by intros e [? _]%andb_true_iff)) as H.
    unfold silc_hash_table_del_by_context, silc_hash_table_find_internal_context.
    rewrite Eh, Ec, Em, Emc. replace (match cmp with Some _ => cmp | None => None end) with cmp
      by by destruct cmp.
    cbv zeta in H. unfold same_key in H. destruct (del_found _ _ _) as [[ok calls] ht'], (spec_delete _ _) as [r l'].
    by destruct H as (-> & ? & ?).
  - split; [|done]. f_equal. unfold silc_hash_table_find, silc_hash_table_find_ext.
    unfold silc_hash_table_find_internal_simple. cbn [fun_or ptr_or]. rewrite Eh, Ec, Em, Emc.
    by apply find_represents.
  - split; [|done]. f_equal. unfold silc_hash_table_find_by_context.
    unfold silc_hash_table_find_by_context_ext, silc_hash_table_find_internal_context.
    cbn [fun_or ptr_or]. rewrite Eh, Ec, Em, Emc.
    replace (match cmp with Some _ => cmp | None => None end) with cmp by by destruct cmp.
    pose proof (find_represents ht l key (fun e => keys_equal cmp cctx (he_key e) key &&
      bool_decide (he_context e = context)) Hr) as H.
    destruct (find_chain _ _) as [before rest]. apply H. by intros e [? _]%andb_true_iff.
  - by rewrite (find_foreach_represents ht l key Hc Hr).
  - split; [|done]. f_equal. unfold silc_hash_table_count.
    by rewrite (wf_count _ _ _ (rep_wf _ _ _ _ _ _ Hr)), (rep_entries _ _ _ _ _ _ Hr).
  - split; [done|]. unfold silc_hash_table_rehash. rewrite Eh, Ec.
    split; [by apply configured_rehash|by apply rehash_represents].
Qed.

Lemma run_refines ht l ops :
  configured ht -> represents ht l ->
  (run_ops ht_step ht ops).1 = (run_ops spec_step l ops).1 /\
  represents (run_ops ht_step ht ops).2 (run_ops spec_step l ops).2.
Proof.
  revert ht l; induction ops as [|op ops IH]; intros ht l Hc Hr; [done|]. cbn [run_ops].
  pose proof (ht_step_refines ht l op Hc Hr) as H.
  destruct (ht_step ht op) as [r ht'], (spec_step l op) as [r' l']. destruct H as (-> & Hc' & Hr').
  specialize (IH _ _ Hc' Hr'). destruct (run_ops ht_step ht' ops), (run_ops spec_step l' ops).
  cbn [fst snd] in *. destruct IH as [-> ?]. done.
Qed.

Lemma alloc_represents size auto_rehash ht :
  silc_hash_table_alloc size (Some hash) hctx cmp cctx des dctx auto_rehash = Some ht ->
  configured ht /\ represents ht [].
Proof.
  unfold silc_hash_table_alloc.
  destruct (if negb (size =? 0) then _ else _) as [n i] eqn:E. intros [= <-]. split; [done|].
  assert (0 <= i < zlen primesize /\ primesize_at i = n) as [Hi <-].
  { destruct (negb (size =? 0)); [by eapply primesize_index|]. injection E as <- <-. by split. }
  by apply represents_empty.
Qed.
End multimap.

(** * Traversal *)

Section traversal.
Context {K C U D : Type} `{EqDecision K} `{EqDecision C}.
Abbreviation entry := (SilcHashTableEntry K C).
Implicit Types (ht : SilcHashTable K C U D).

(** The entries silc_hash_table_get returns until it returns FALSE. *)
Fixpoint get_all (fuel : nat) ht (htl : SilcHashTableList K C) : option (list entry) :=
  match fuel with
  | O => None
  | S fuel =>
      match silc_hash_table_get ht htl with
      | (None, _) => Some []
      | (Some e, htl) => option_map (cons e) (get_all fuel ht htl)
      end
  end.

(** What is still to come. *)
Definition remaining ht (entry : list entry) (index : Z) : list (SilcHashTableEntry K C) :=
  entry ++ concat (drop (Z.to_nat index) (ht_table ht)).

Lemma list_get_loop_remaining ht fuel e i :
  zlen (ht_table ht) = primesize_at (ht_table_size ht) -> 0 <= i ->
  (Z.to_nat (primesize_at (ht_table_size ht) - i) < fuel)%nat ->
  let '(e', i') := list_get_loop fuel ht e i in
  remaining ht e' i' = remaining ht e i /\ i <= i' /\ (e' = [] -> remaining ht e i = []).
Proof.
  intros Ht. revert e i; induction fuel as [|fuel IH]; intros e i Hi Hf; [lia|]. cbn [list_get_loop].
  destruct e as [|x e]; [|split_and!; [done|lia|done]].
  destruct (Z.ltb_spec i (primesize_at (ht_table_size ht))) as [Hlt|Hge].
  - specialize (IH (ht_bucket ht i) (i + 1) ltac:(lia) ltac:(lia)).
    assert (remaining ht (ht_bucket ht i) (i + 1) = remaining ht [] i) as E.
    { unfold remaining, ht_bucket. replace (Z.to_nat (i + 1)) with (S (Z.to_nat i)) by lia.
      destruct (lookup_lt_is_Some_2 (ht_table ht) (Z.to_nat i)) as [b Hb]; [lia|].
      by rewrite (drop_S _ _ _ Hb), (nth_lookup_Some _ _ [] _ Hb). }
    rewrite E in IH. destruct (list_get_loop _ _ _ _) as [e' i'].
    destruct IH as (? & ? & ?). split_and!; [done|lia|done].
  - split_and!; [done|lia|]. intros _. unfold remaining. rewrite drop_ge by lia. done.
Qed.

Lemma get_all_remaining ht rest :
  zlen (ht_table ht) = primesize_at (ht_table_size ht) -> ht_entry_count ht <> 0 ->
  forall htl fuel, remaining ht (htl_entry htl) (htl_index htl) = rest -> 0 <= htl_index htl ->
  (length rest < fuel)%nat -> get_all fuel ht htl = Some rest.
Proof.
  intros Ht Hc. induction rest as [|x rest IH]; intros htl fuel Hr Hi Hf;
    (destruct fuel as [|fuel]; [cbn in Hf; lia|]); cbn [get_all]; unfold silc_hash_table_get;
    (destruct (Z.eqb_spec (ht_entry_count ht) 0) as [E0|_]; [contradiction|]);
    pose proof (list_get_loop_remaining ht
      (Z.to_nat (primesize_at (ht_table_size ht) - htl_index htl) + 1)
      (htl_entry htl) (htl_index htl) Ht Hi ltac:(lia)) as L;
    destruct (list_get_loop _ _ _ _) as [e i]; destruct L as (Er & Hle & Hnil); rewrite Hr in *.
  - destruct e as [|y e]; [done|]. by unfold remaining in Er.
  - destruct e as [|y e]; [by specialize (Hnil eq_refl)|].
    unfold remaining in Er. cbn in Er. injection Er as -> Er.
    rewrite (IH _ fuel); [done|done|cbn; lia|cbn in Hf; lia].
Qed.

Lemma foreach_calls {W} (f : K -> option C -> W -> W) w ht :
  silc_hash_table_foreach ht (Some f) w =
  (ht, foldl (fun w e => f (he_key e) (he_context e) w) w (concat (ht_table ht))).
Proof.
  unfold silc_hash_table_foreach. cbv zeta. f_equal; [by destruct ht|].
  cbn [ht_table set_auto_rehash]. generalize w. clear w.
  induction (ht_table ht) as [|b t IH]; intros w; cbn; [done|]. by rewrite IH, foldl_app.
Qed.

Lemma foreach_entries ht :
  silc_hash_table_foreach ht (Some (fun k c l => l ++ [{| he_key := k; he_context := c |}])) [] =
  (ht, concat (ht_table ht)).
Proof.
  rewrite foreach_calls. f_equal.
  assert (forall (l acc : list entry),
    foldl (fun w e => w ++ [{| he_key := he_key e; he_context := he_context e |}]) acc l = acc ++ l) as F.
  { induction l as [|[k c] l IH]; intros acc; cbn; [by rewrite app_nil_r|].
    by rewrite IH, <- app_assoc. }
  apply F.
Qed.
End traversal.

(** * The theorems *)

(** C21. The hash table is a multimap: whatever additions, deletions, searches and
    rehashes are made on a new table, with the rehashing they cause by themselves,
    each returns what it returns on the list of the entries in the order in which
    they were added, and deletions destroy the same entries, when the comparison
    is an equivalence that the hash function respects.  The table holds the entries
    of that list and counts them; its size is one of the primes, it has that many
    buckets, and every entry is in the bucket of its hash modulo the size. *)
Theorem silc_hash_table_multimap {K C U D} `{EqDecision K} `{EqDecision C}
    hash hctx cmp cctx (des : option D) dctx size auto_rehash (ht : SilcHashTable K C U D) ops :
  HashLaws hash hctx cmp cctx ->
  silc_hash_table_alloc size (Some hash) hctx cmp cctx des dctx auto_rehash = Some ht ->
  let ht' := (run_ops ht_step ht ops).2 in
  let l := (run_ops (spec_step cmp cctx des dctx) [] ops).2 in
  (run_ops ht_step ht ops).1 = (run_ops (spec_step cmp cctx des dctx) [] ops).1 /\
  concat (ht_table ht') ≡ₚ l /\ silc_hash_table_count ht' = u32 (zlen l) /\
  In (silc_hash_table_size ht') primesize /\ zlen (ht_table ht') = silc_hash_table_size ht' /\
  forall i b e, ht_table ht' !! i = Some b -> In e b ->
    Z.of_nat i = u32 (hash (he_key e) hctx) mod silc_hash_table_size ht'.
Proof.
  intros L Ha. destruct (alloc_represents hash hctx cmp cctx des dctx _ _ _ Ha) as [Hc Hr].
  destruct (run_refines hash hctx cmp cctx des dctx ht [] ops Hc Hr) as [E [[Hs Ht Hn Hp] _ He]].
  intros ht' l. fold ht' in Hs, Ht, Hn, Hp, He. fold l in He.
  split; [done|]. split; [done|]. unfold silc_hash_table_count, silc_hash_table_size.
  split; [by rewrite Hn, He|]. split; [apply nth_In; lia|]. split; [done|].
  intros i b e Hi Hb. rewrite <- (Hp i b e Hi Hb). unfold SILC_HASH_TABLE_HASH.
  apply Z2Nat.id, Z.mod_pos_bound, primesize_pos, Hs.
Qed.

(** Whatever was done on a table, silc_hash_table_get returns after
    silc_hash_table_list every entry once and then FALSE, and
    silc_hash_table_foreach calls its function for the same entries in the same
    order (entries are counted modulo 2^32, so there are fewer). *)
Theorem silc_hash_table_traversal {K C U D} `{EqDecision K} `{EqDecision C}
    hash hctx cmp cctx (des : option D) dctx size auto_rehash (ht0 : SilcHashTable K C U D) ops :
  HashLaws hash hctx cmp cctx ->
  silc_hash_table_alloc size (Some hash) hctx cmp cctx des dctx auto_rehash = Some ht0 ->
  let ht := (run_ops ht_step ht0 ops).2 in
  let l := (run_ops (spec_step cmp cctx des dctx) [] ops).2 in
  zlen l < 2 ^ 32 ->
  exists entries,
    entries ≡ₚ l /\
    (let '(htl, ht1) := silc_hash_table_list ht in
     get_all (S (length entries)) ht1 htl = Some entries /\
     silc_hash_table_list_reset htl ht1 = ht) /\
    silc_hash_table_foreach ht (Some (fun k c l => l ++ [{| he_key := k; he_context := c |}])) [] =
      (ht, entries).
Proof.
  intros L Ha ht l Hlt. destruct (alloc_represents hash hctx cmp cctx des dctx _ _ _ Ha) as [Hc Hr].
  destruct (run_refines hash hctx cmp cctx des dctx ht0 [] ops Hc Hr) as [_ [[_ Ht Hn _] _ Hp]].
  fold ht in Ht, Hn, Hp. fold l in Hp. exists (concat (ht_table ht)).
  split; [done|]. split; [|apply foreach_entries]. cbn [silc_hash_table_list].
  split; [|by destruct ht].
  destruct (concat (ht_table ht)) as [|e tl] eqn:E.
  - cbn [get_all]. unfold silc_hash_table_get. cbn [ht_entry_count set_auto_rehash]. by rewrite Hn.
  - rewrite <- E in *. apply get_all_remaining; try done; [|cbn; lia].
    cbn [ht_entry_count set_auto_rehash]. rewrite Hn, u32_id by (rewrite Hp; lia). rewrite E. done.
Qed.
