(* ===== verification/HashKeys.v ===== *)
(** The hash and comparison functions of src/lib/silcutil/silcutil.c for the keys of
    hash tables, and that each pair in use has the laws a table needs. *)

From stdpp Require Import list strings.
From S2P Require Import Prelude CTypes Id HashTable HashTableSpec.

(** A C string: the bytes before the NUL, or before the end of the list. *)
Fixpoint c_string (s : list Z) : list Z :=
  match s with [] => [] | c :: s => if c =? 0 then [] else c :: c_string s end.

(** tolower of the C locale. *)
Definition tolower (c : Z) : Z := if (65 <=? c) && (c <=? 90) then c + 32 else c.

(** (int)*s of a char, which is signed. *)
Definition schar (c : Z) : Z := if 128 <=? c then c - 256 else c.

(** h ^ (g >> 24) ^ g with the four upper bits g, when there are any. *)
Definition hash_fold (h : Z) : Z :=
  let g := Z.land h 0xf0000000 in
  if negb (g =? 0) then Z.lxor (Z.lxor h (Z.shiftr g 24)) g else h.

Definition hash_step (h c : Z) : Z := hash_fold (u32 (u32 (Z.shiftl h 4) + c)).

Fixpoint hash_string_loop (s : list Z) (h : Z) : Z :=
  match s with
  | [] => h
  | c :: s => if c =? 0 then h else hash_string_loop s (hash_step h (tolower (schar c)))
  end.

Definition silc_hash_string {U} (key : list Z) (user_context : option U) : Z :=
  hash_string_loop key 0.

Fixpoint hash_utf8_loop (s : list Z) (h : Z) : Z :=
  match s with
  | [] => h
  | c :: s => if c =? 0 then h else hash_utf8_loop s (hash_step h c)
  end.

Definition silc_hash_utf8_string {U} (key : list Z) (user_context : option U) : Z :=
  hash_utf8_loop key 0.

(** Pointers and integers cast to pointers are numbers. *)
Definition silc_hash_uint {U} (key : Z) (user_context : option U) : Z := u32 key.
Definition silc_hash_ptr {U} (key : Z) (user_context : option U) : Z := u32 key.

(** SILC_PTR_TO_32(user_context) *)
Definition ptr_to_32 (p : option Z) : Z := match p with Some n => u32 n | None => 0 end.

Definition silc_hash_client_id_hash {U} (hash : list Z) (user_context : option U) : Z :=
  foldl hash_step 0 (mem_read hash CLIENTID_HASH_LEN).

(** unsigned char data[16] *)
Definition ip_bytes (ip : SilcIDIP) : list Z := mem_read (ip_data ip) 16.

(** The address into the product of port and number, which are ints. *)
Definition hash_ip (port rnd : Z) (ip : SilcIDIP) : Z :=
  foldl Z.lxor (u32 (port * rnd)) (mem_read (ip_bytes ip) (ip_data_len ip)).

Definition silc_hash_id (key : SilcID) (user_context : option Z) : Z :=
  let id_type := u16 (ptr_to_32 user_context) in
  match key with
  | IdClient id => if id_type =? SILC_ID_CLIENT then silc_hash_client_id_hash (cid_hash id) None (U := Z) else 0
  | IdServer id => if id_type =? SILC_ID_SERVER then hash_ip (sid_port id) (sid_rnd id) (sid_ip id) else 0
  | IdChannel id =>
      if id_type =? SILC_ID_CHANNEL then hash_ip (chid_port id) (chid_rnd id) (chid_ip id) else 0
  | IdOther _ => 0
  end.

Definition silc_hash_data (data : list Z) (user_context : option Z) : Z :=
  let len := ptr_to_32 user_context in
  foldl Z.lxor (u32 ((byte_at data 0 * byte_at data (len - 1) + 1) * len)) (mem_read data len).

(** ** Comparisons *)

(** The difference of the first bytes that differ in lower case. *)
Fixpoint strcasecmp (s1 s2 : list Z) : Z :=
  match s1, s2 with
  | [], [] => 0
  | [], c :: _ => - tolower c
  | c :: _, [] => tolower c
  | c1 :: s1, c2 :: s2 =>
      if (c1 =? 0) || negb (tolower c1 =? tolower c2) then tolower c1 - tolower c2
      else strcasecmp s1 s2
  end.

Definition silc_hash_string_compare {U} (key1 key2 : list Z) (user_context : option U) : bool :=
  strcasecmp key1 key2 =? 0.

Definition silc_hash_utf8_compare {U} (key1 key2 : list Z) (user_context : option U) : bool :=
  let l1 := zlen (c_string key1) in
  let l2 := zlen (c_string key2) in
  if negb (l1 =? l2) then false else bool_decide (mem_read key1 l2 = mem_read key2 l2).

(** The bytes of an ID that memcmp compares (numbers for the 16-bit fields; the
    byte of padding in server and channel IDs is taken to be equal). *)
Definition id_struct (id : SilcID) : list Z :=
  let ip i := ip_bytes i ++ [ip_data_len i] in
  match id with
  | IdServer s => ip (sid_ip s) ++ [sid_port s; sid_rnd s]
  | IdClient c => ip (cid_ip c) ++ [cid_rnd c] ++ mem_read (cid_hash c) CLIENTID_HASH_LEN
  | IdChannel c => ip (chid_ip c) ++ [chid_port c; chid_rnd c]
  | IdOther _ => []
  end.

(** Both IDs are of the type. *)
Definition SILC_ID_COMPARE_TYPE (id1 id2 : SilcID) (type : Z) : bool :=
  bool_decide ((silc_id_type id1, id_struct id1) = (silc_id_type id2, id_struct id2)).

Definition client_hash (id : SilcID) : list Z :=
  match id with IdClient c => mem_read (cid_hash c) CLIENTID_HASH_LEN | _ => [] end.

Definition SILC_ID_COMPARE_HASH (id1 id2 : SilcID) : bool :=
  bool_decide (client_hash id1 = client_hash id2).

Definition silc_hash_id_compare (key1 key2 : SilcID) (user_context : option Z) : bool :=
  let id_type := u16 (ptr_to_32 user_context) in
  if id_type =? SILC_ID_CLIENT then SILC_ID_COMPARE_HASH key1 key2
  else SILC_ID_COMPARE_TYPE key1 key2 id_type.

Definition silc_hash_id_compare_full (key1 key2 : SilcID) (user_context : option Z) : bool :=
  SILC_ID_COMPARE_TYPE key1 key2 (u16 (ptr_to_32 user_context)).

Definition silc_hash_client_id_compare {U} (key1 key2 : SilcID) (user_context : option U) : bool :=
  SILC_ID_COMPARE_TYPE key1 key2 SILC_ID_CLIENT.

Definition silc_hash_data_compare (key1 key2 : list Z) (user_context : option Z) : bool :=
  let len := ptr_to_32 user_context in bool_decide (mem_read key1 len = mem_read key2 len).

(** * The laws *)

#[export] Instance SilcIDIP_eq_dec : EqDecision SilcIDIP.
Proof. solve_decision. Defined.
#[export] Instance SilcServerID_eq_dec : EqDecision SilcServerID.
Proof. solve_decision. Defined.
#[export] Instance SilcClientID_eq_dec : EqDecision SilcClientID.
Proof. solve_decision. Defined.
#[export] Instance SilcChannelID_eq_dec : EqDecision SilcChannelID.
Proof. solve_decision. Defined.
#[export] Instance SilcID_eq_dec : EqDecision SilcID.
Proof. solve_decision. Defined.

(** Keys that are compared by what the hash function reads. *)
Lemma view_equal_laws {K U V} `{EqDecision K} `{EqDecision V} (view : K -> V)
    (hash : SilcHashFunction K U) hctx (f : SilcHashCompare K U) cctx :
  (forall k1 k2, f k1 k2 cctx = bool_decide (view k1 = view k2)) ->
  (forall k1 k2, view k1 = view k2 -> hash k1 hctx = hash k2 hctx) ->
  HashLaws hash hctx (Some f) cctx.
Proof.
  intros Hf Hh. split; cbn [keys_equal]; intros *; rewrite ?Hf.
  - by apply bool_decide_eq_true_2.
  - by apply bool_decide_ext.
  - intros E%bool_decide_eq_true_1. apply bool_decide_ext. by rewrite E.
  - intros E%bool_decide_eq_true_1. by rewrite (Hh _ _ E).
Qed.

Lemma view_laws {K U V} `{EqDecision K} `{EqDecision V} (view : K -> V) (g : V -> Z)
    (hash : SilcHashFunction K U) hctx (f : SilcHashCompare K U) cctx :
  (forall k1 k2, f k1 k2 cctx = bool_decide (view k1 = view k2)) ->
  (forall k, hash k hctx = g (view k)) ->
  HashLaws hash hctx (Some f) cctx.
Proof. intros Hf Hh. apply (view_equal_laws view); [done|]. intros k1 k2 E. by rewrite !Hh, E. Qed.

Lemma hash_utf8_loop_fold s h : hash_utf8_loop s h = foldl hash_step h (c_string s).
Proof. revert h; induction s as [|c s IH]; intros h; cbn; [done|]. by destruct (c =? 0). Qed.

Lemma hash_string_loop_fold s h :
  hash_string_loop s h = foldl (fun h c => hash_step h (tolower (schar c))) h (c_string s).
Proof. revert h; induction s as [|c s IH]; intros h; cbn; [done|]. by destruct (c =? 0). Qed.

Lemma mem_read_c_string s : mem_read s (zlen (c_string s)) = c_string s.
Proof.
  assert (exists t, s = c_string s ++ t) as [t E].
  { induction s as [|c s [t IH]]; [by exists []|]. cbn. destruct (c =? 0); [by eexists|].
    exists t. cbn. by rewrite <- IH. }
  rewrite E at 1. rewrite mem_read_le by len. by apply ztake_app_exact.
Qed.

Lemma utf8_compare_equal {U} k1 k2 (c : option U) :
  silc_hash_utf8_compare k1 k2 c = bool_decide (c_string k1 = c_string k2).
Proof.
  unfold silc_hash_utf8_compare. cbv zeta.
  destruct (Z.eqb_spec (zlen (c_string k1)) (zlen (c_string k2))) as [E|E]; cbn [negb].
  - apply bool_decide_ext. rewrite <- E at 1. by rewrite !mem_read_c_string.
  - symmetry. apply bool_decide_eq_false_2. congruence.
Qed.

#[export] Instance utf8_string_keys {U} hctx cctx :
  HashLaws (U := U) silc_hash_utf8_string hctx (Some silc_hash_utf8_compare) cctx.
Proof.
  apply view_laws with c_string (foldl hash_step 0).
  - intros k1 k2. apply utf8_compare_equal.
  - intros k. apply hash_utf8_loop_fold.
Qed.

(** Lower case does not depend on the sign of a char. *)
Lemma tolower_schar c : tolower (schar c) = tolower (schar (tolower c)).
Proof. unfold tolower, schar. repeat (case_match; try lia). Qed.

Lemma tolower_zero c : tolower c = 0 <-> c = 0.
Proof. unfold tolower. case_match; lia. Qed.

Lemma strcasecmp_zero s1 s2 :
  strcasecmp s1 s2 = 0 <-> map tolower (c_string s1) = map tolower (c_string s2).
Proof.
  revert s2; induction s1 as [|c1 s1 IH]; intros [|c2 s2]; cbn; [done|..].
  - pose proof (tolower_zero c2). destruct (Z.eqb_spec c2 0); cbn; [|split; [lia|done]]. split; [done|lia].
  - pose proof (tolower_zero c1). destruct (Z.eqb_spec c1 0); cbn; [|split; [lia|done]]. split; [done|lia].
  - pose proof (tolower_zero c1). pose proof (tolower_zero c2).
    destruct (Z.eqb_spec c1 0); cbn; [destruct (Z.eqb_spec c2 0); cbn; split; (done || lia)|].
    destruct (Z.eqb_spec (tolower c1) (tolower c2)) as [E|E]; cbn.
    + destruct (Z.eqb_spec c2 0); [lia|]. cbn. rewrite IH, E. split; [by intros ->|by intros [= ->]].
    + split; [lia|]. destruct (Z.eqb_spec c2 0); cbn; [done|]. by intros [= ? _].
Qed.

#[export] Instance string_keys {U} hctx cctx :
  HashLaws (U := U) silc_hash_string hctx (Some silc_hash_string_compare) cctx.
Proof.
  apply view_laws with (fun k => map tolower (c_string k))
    (foldl (fun h c => hash_step h (tolower (schar c))) 0).
  - intros k1 k2. unfold silc_hash_string_compare. pose proof (strcasecmp_zero k1 k2).
    destruct (Z.eqb_spec (strcasecmp k1 k2) 0); symmetry;
      [apply bool_decide_eq_true_2|apply bool_decide_eq_false_2]; tauto.
  - intros k. unfold silc_hash_string. rewrite hash_string_loop_fold. generalize 0.
    induction (c_string k) as [|c l IH]; intros h; cbn; [done|].
    by rewrite IH, (tolower_schar c).
Qed.

(** The IDs of a cache: client IDs are found by their hash alone. *)
#[export] Instance client_id_keys :
  HashLaws silc_hash_id (Some SILC_ID_CLIENT) (Some silc_hash_id_compare) (Some SILC_ID_CLIENT).
Proof.
  apply view_laws with client_hash (foldl hash_step 0); [done|]. by intros [].
Qed.

Lemma ip_struct_inj ip1 ip2 l1 l2 :
  (ip_bytes ip1 ++ [ip_data_len ip1]) ++ l1 = (ip_bytes ip2 ++ [ip_data_len ip2]) ++ l2 ->
  ip_bytes ip1 = ip_bytes ip2 /\ ip_data_len ip1 = ip_data_len ip2 /\ l1 = l2.
Proof.
  rewrite <- !app_assoc. intros [E [= ? ?]]%app_inj_1; [done|].
  unfold ip_bytes. pose proof (zlen_mem_read (ip_data ip1) 16 ltac:(lia)).
  pose proof (zlen_mem_read (ip_data ip2) 16 ltac:(lia)). lia.
Qed.

(** Server and channel IDs are compared whole. *)
Lemma whole_id_keys type :
  type <> SILC_ID_CLIENT -> 0 <= type < 2 ^ 16 ->
  HashLaws silc_hash_id (Some type) (Some silc_hash_id_compare) (Some type).
Proof.
  intros Hn Ht. apply (view_equal_laws (fun id => (silc_id_type id, id_struct id))).
  - intros k1 k2. unfold silc_hash_id_compare. cbn [ptr_to_32].
    rewrite u32_id, u16_id by lia. by destruct (Z.eqb_spec type SILC_ID_CLIENT).
  - intros k1 k2 [= Et Es]. unfold silc_hash_id, hash_ip. cbn [ptr_to_32].
    rewrite u32_id, u16_id by lia.
    destruct k1, k2; try done; cbn in Et, Es;
      try (apply ip_struct_inj in Es as (-> & -> & [= -> ->]); done);
      try (by rewrite (proj2 (Z.eqb_neq _ _) Hn)); apply (f_equal length) in Es;
      rewrite ?length_app in Es; cbn in Es; lia.
Qed.

Lemma byte_at_mem_read l n i : 0 <= i < n -> byte_at (mem_read l n) i = byte_at l i.
Proof.
  intros Hi. unfold mem_read. destruct (Z.ltb_spec i (zlen l)).
  - destruct (Z.le_gt_cases n (zlen l)).
    + rewrite byte_at_app_l by len. rewrite <- (ztake_zdrop n l) at 2. by rewrite byte_at_app_l by len.
    + rewrite ztake_all by lia. by rewrite byte_at_app_l by len.
  - rewrite ztake_all, byte_at_app_r by lia. unfold byte_at, zrepeat.
    rewrite nth_overflow with (l := l) by lia.
    generalize (Z.to_nat (n - zlen l)), (Z.to_nat (i - zlen l)).
    intros m. induction m as [|m IH]; intros [|j]; cbn; [done..|by apply IH].
Qed.

#[export] Instance data_keys n : HashLaws silc_hash_data (Some n) (Some silc_hash_data_compare) (Some n).
Proof.
  unfold silc_hash_data, silc_hash_data_compare. cbn [ptr_to_32].
  apply view_laws with (fun k => mem_read k (u32 n))
    (fun d => foldl Z.lxor (u32 ((byte_at d 0 * byte_at d (u32 n - 1) + 1) * u32 n)) d); [done|].
  intros k. cbn [ptr_to_32]. cbv beta zeta. pose proof (u32_range n). destruct (Z.eq_dec (u32 n) 0) as [E|Hn].
  - by rewrite E, !Z.mul_0_r.
  - by rewrite !byte_at_mem_read by lia.
Qed.

(** * A table of strings *)

#[local] Definition bob : list Z := [98; 111; 98].

(** Entries with keys that differ in case are found, counted and deleted as those
    of one key, oldest first. *)
Lemma silc_hash_table_multimap_witness :
  exists ht, silc_hash_table_alloc (C := Z) 0 (Some silc_hash_string) None
               (Some silc_hash_string_compare) None (Some tt) None true = Some ht /\
    let ops := [op_add bob (Some 1); op_add [97] (Some 2); op_add [66; 79; 66] (Some 3);
                op_find_foreach bob; op_del bob; op_rehash 37; op_find bob; op_count] in
    let ht' := (run_ops (U := unit) ht_step ht ops).2 in
    (run_ops (U := unit) ht_step ht ops).1 =
    (run_ops (spec_step (Some silc_hash_string_compare) None (Some tt) None) [] ops).1 /\
    nth 3 (run_ops (U := unit) ht_step ht ops).1 res_done =
      res_entries [(bob, Some 1); ([66; 79; 66], Some 3)] /\
    silc_hash_table_size ht' = 37 /\ zlen (ht_table ht') = silc_hash_table_size ht'.
Proof.
  eexists. split; [reflexivity|]. cbv zeta.
  epose proof (silc_hash_table_multimap (U := unit) silc_hash_string None (Some silc_hash_string_compare) None
    (Some tt) None 0 true _ _ (string_keys None None) eq_refl) as H. cbv zeta in H.
  split; [exact (proj1 H)|]. split; [vm_compute; reflexivity|]. split; [vm_compute; reflexivity|].
  exact (proj1 (proj2 (proj2 (proj2 (proj2 H))))).
Defined.

Lemma silc_hash_table_traversal_witness :
  exists ht, silc_hash_table_alloc (C := Z) 0 (Some silc_hash_string) None
               (Some silc_hash_string_compare) None (Some tt) None true = Some ht /\
    let ops := [op_add bob (Some 1); op_add [97] (Some 2)] in
    exists entries,
      entries ≡ₚ [{| he_key := bob; he_context := Some 1 |};
                  {| he_key := [97]; he_context := Some 2 |}] /\
      let '(htl, ht1) := silc_hash_table_list (run_ops (U := unit) ht_step ht ops).2 in
      get_all (S (length entries)) ht1 htl = Some entries.
Proof.
  eexists. split; [reflexivity|]. cbv zeta.
  destruct (silc_hash_table_traversal (U := unit) silc_hash_string None (Some silc_hash_string_compare) None
    (Some tt) None 0 true _ [op_add bob (Some 1); op_add [97] (Some 2)] (string_keys None None)
    eq_refl ltac:(reflexivity)) as (entries & Hp & [Hg _] & _).
  exists entries. split; [exact Hp|exact Hg].
Defined.

(** silc_hash_table_replace with a key that is not in the table destroys the entry
    of another key that has the same bucket. *)
Lemma silc_hash_table_replace_loses :
  forall ht, silc_hash_table_alloc (K := Z) (C := Z) (U := unit) (D := unit) 3
               (Some silc_hash_uint) None None None None None true = Some ht ->
  let ht := (silc_hash_table_add ht 1 (Some 10)).2 in
  let ht := (silc_hash_table_replace ht 4 (Some 40)).2 in
  silc_hash_table_find ht 1 = None /\ silc_hash_table_count ht = 1.
Proof. by intros ht [= <-]. Qed.

(** An entry added with a hash function of its own is not found with it any more
    when the table has rehashed. *)
Lemma silc_hash_table_add_ext_lost :
  forall ht, silc_hash_table_alloc (K := Z) (C := Z) (U := unit) (D := unit) 0
               (Some silc_hash_uint) None None None None None true = Some ht ->
  let other k (_ : option unit) := k + 1 in
  let ht := (silc_hash_table_add_ext ht 1 (Some 10) other None).2 in
  let found ht := silc_hash_table_find_ext ht 1 (Some other) None None None in
  found ht = Some {| he_key := 1; he_context := Some 10 |} /\
  found (silc_hash_table_rehash ht 37) = None.
Proof. by intros ht [= <-]. Qed.
