(* ===== verification/SilcList.v ===== *)
(** Intrusive lists (src/lib/silcutil/silclist.h) and lists of contexts
    (silcdlist.h) in a memory of links, and that they are lists. *)

From stdpp Require Import sets list strings.
From S2P Require Import Prelude CTypes HashTableSpec.

(** * Memory *)

(** A pointer to an entry; [None] is NULL. *)
Definition ptr : Type := Z.

(** The list pointers of an entry. *)
Record Links := { l_next : option ptr; l_prev : option ptr }.

Definition Memory : Type := ptr -> Links.

Definition set_next (p : ptr) (v : option ptr) (h : Memory) : Memory :=
  fun q => if decide (q = p) then {| l_next := v; l_prev := l_prev (h q) |} else h q.
Definition set_prev (p : ptr) (v : option ptr) (h : Memory) : Memory :=
  fun q => if decide (q = p) then {| l_next := l_next (h q); l_prev := v |} else h q.

(** * SilcList *)

Record SilcList := {
  sl_head : option ptr;
  sl_tail : option ptr;
  sl_current : option ptr;
  sl_prev_set : bool;
  sl_end_set : bool;
  sl_count : Z;
}.

(** A field of 30 bits. *)
Definition bits30 (n : Z) : Z := n mod 2 ^ 30.

Definition silc_list_init : SilcList :=
  {| sl_head := None; sl_tail := None; sl_current := None; sl_prev_set := false;
     sl_end_set := false; sl_count := 0 |}.

Definition silc_list_init_prev : SilcList :=
  {| sl_head := None; sl_tail := None; sl_current := None; sl_prev_set := true;
     sl_end_set := false; sl_count := 0 |}.

Definition silc_list_count (list : SilcList) : Z := sl_count list.

Definition silc_list_start (list : SilcList) : SilcList :=
  {| sl_head := sl_head list; sl_tail := sl_tail list; sl_current := sl_head list;
     sl_prev_set := sl_prev_set list; sl_end_set := false; sl_count := sl_count list |}.

Definition silc_list_end (list : SilcList) : SilcList :=
  {| sl_head := sl_head list; sl_tail := sl_tail list; sl_current := sl_tail list;
     sl_prev_set := sl_prev_set list; sl_end_set := true; sl_count := sl_count list |}.

Definition with_ends (head tail : option ptr) (count : Z) (list : SilcList) : SilcList :=
  {| sl_head := head; sl_tail := tail; sl_current := sl_current list;
     sl_prev_set := sl_prev_set list; sl_end_set := sl_end_set list; sl_count := count |}.

Definition with_current (current : option ptr) (list : SilcList) : SilcList :=
  {| sl_head := sl_head list; sl_tail := sl_tail list; sl_current := current;
     sl_prev_set := sl_prev_set list; sl_end_set := sl_end_set list; sl_count := sl_count list |}.

(** A list that has a head has a tail; else the NULL pointer is followed. *)
Definition silc_list_add (h : Memory) (list : SilcList) (entry : ptr) : option (Memory * SilcList) :=
  let new_head := match sl_head list with None => Some entry | Some _ => sl_head list end in
  match (match sl_head list, sl_tail list with
         | None, _ => Some h
         | Some _, Some tail => Some (set_next tail (Some entry) h)
         | Some _, None => None
         end) with
  | None => None
  | Some h =>
      let h := if sl_prev_set list then set_prev entry (sl_tail list) h else h in
      let h := set_next entry None h in
      Some (h, with_ends new_head (Some entry) (bits30 (sl_count list + 1)) list)
  end.

Definition silc_list_insert (h : Memory) (list : SilcList) (current : option ptr) (entry : ptr)
  : Memory * SilcList :=
  match current with
  | None =>
      let h := set_next entry (sl_head list) h in
      let h := match sl_prev_set list, sl_head list with
               | true, Some head => set_prev head (Some entry) h
               | _, _ => h
               end in
      let tail := match sl_tail list with None => Some entry | Some _ => sl_tail list end in
      let h := if sl_prev_set list then set_prev entry None h else h in
      (h, with_ends (Some entry) tail (bits30 (sl_count list + 1)) list)
  | Some cur =>
      let h := set_next entry (l_next (h cur)) h in
      let h := set_next cur (Some entry) h in
      let h := if sl_prev_set list then
                 let h := set_prev entry (Some cur) h in
                 match l_next (h entry) with
                 | Some n => set_prev n (Some entry) h
                 | None => h
                 end
               else h in
      let tail := if bool_decide (sl_tail list = Some cur) then Some entry else sl_tail list in
      (h, with_ends (sl_head list) tail (bits30 (sl_count list + 1)) list)
  end.

(** The loop of silc_list_del: [prev] is the entry before the place [p] points to
    (none: the head of the list) and [at] what is there.  Gives whether the entry
    was found and the last [prev]. *)
Fixpoint del_loop (fuel : nat) (h : Memory) (entry : ptr) (prev at_p : option ptr)
  : option (bool * option ptr) :=
  match fuel with
  | O => None
  | S fuel =>
      match at_p with
      | None => Some (false, prev)
      | Some q => if decide (q = entry) then Some (true, prev) else
                  del_loop fuel h entry (Some q) (l_next (h q))
      end
  end.

(** [fuel] bounds the loop, which has no bound of its own. *)
Definition silc_list_del (fuel : nat) (h : Memory) (list : SilcList) (entry : ptr)
  : option (Memory * SilcList) :=
  match del_loop fuel h entry None (sl_head list) with
  | None => None
  | Some (found, prev) =>
      let '(h, list) :=
        if found then
          let next := l_next (h entry) in
          let '(head, h) := match prev with
                            | None => (next, h)
                            | Some q => (sl_head list, set_next q next h)
                            end in
          let h := match next, sl_prev_set list with
                   | Some n, true => set_prev n (l_prev (h entry)) h
                   | _, _ => h
                   end in
          let current := if bool_decide (sl_current list = Some entry) then next
                         else sl_current list in
          (h, with_current current
                (with_ends head (sl_tail list) (bits30 (sl_count list - 1)) list))
        else (h, list) in
      Some (h, with_ends (sl_head list)
                 (if bool_decide (sl_tail list = Some entry) then prev else sl_tail list)
                 (sl_count list) list)
  end.

Definition silc_list_get (h : Memory) (list : SilcList) : option ptr * SilcList :=
  match sl_current list with
  | None => (None, list)
  | Some pos =>
      (Some pos, with_current (if sl_end_set list then l_prev (h pos) else l_next (h pos)) list)
  end.

(** * What a list in memory is *)

Definition hd_or (l : list ptr) (o : option ptr) : option ptr :=
  match l with [] => o | p :: _ => Some p end.
Fixpoint last_or (o : option ptr) (l : list ptr) : option ptr :=
  match l with [] => o | p :: l => last_or (Some p) l end.

(** The next pointers lead through the entries to [o]. *)
Fixpoint nexts (h : Memory) (l : list ptr) (o : option ptr) : Prop :=
  match l with [] => True | p :: l => l_next (h p) = hd_or l o /\ nexts h l o end.

(** The prev pointers lead back through the entries to [o]. *)
Fixpoint prevs (h : Memory) (o : option ptr) (l : list ptr) : Prop :=
  match l with [] => True | p :: l => l_prev (h p) = o /\ prevs h (Some p) l end.

Record list_rep (h : Memory) (L : SilcList) (l : list ptr) : Prop := {
  lr_nodup : NoDup l;
  lr_head : sl_head L = hd_or l None;
  lr_tail : sl_tail L = last_or None l;
  lr_nexts : nexts h l None;
  lr_prevs : sl_prev_set L = true -> prevs h None l;
  lr_count : sl_count L = bits30 (zlen l);
}.

Lemma hd_or_app l k o : hd_or (l ++ k) o = hd_or l (hd_or k o).
Proof. by destruct l. Qed.

Lemma last_or_app o l k : last_or o (l ++ k) = last_or (last_or o l) k.
Proof. revert o; induction l as [|p l IH]; intros o; cbn; [done|apply IH]. Qed.

Lemma nexts_app h l k o : nexts h (l ++ k) o <-> nexts h l (hd_or k o) /\ nexts h k o.
Proof. induction l as [|p l IH]; cbn; [tauto|]. rewrite IH, hd_or_app. tauto. Qed.

Lemma prevs_app h o l k : prevs h o (l ++ k) <-> prevs h o l /\ prevs h (last_or o l) k.
Proof.
  revert o; induction l as [|p l IH]; intros o; cbn; [tauto|]. rewrite IH. tauto.
Qed.

(** Memories with the same pointers at the entries. *)
Lemma nexts_ext h h' l o :
  (forall p, p ∈ l -> l_next (h' p) = l_next (h p)) -> nexts h l o -> nexts h' l o.
Proof.
  induction l as [|p l IH]; cbn; [done|]. intros E [? ?].
  split; [by rewrite E by left|]. apply IH; [|done]. intros q Hq. apply E. by right.
Qed.

Lemma prevs_ext h h' o l :
  (forall p, p ∈ l -> l_prev (h' p) = l_prev (h p)) -> prevs h o l -> prevs h' o l.
Proof.
  revert o; induction l as [|p l IH]; intros o; cbn; [done|]. intros E [? ?].
  split; [by rewrite E by left|]. apply IH; [|done]. intros q Hq. apply E. by right.
Qed.

Lemma next_set_next p v h q :
  l_next (set_next p v h q) = if decide (q = p) then v else l_next (h q).
Proof. unfold set_next. by destruct (decide (q = p)). Qed.
Lemma next_set_prev p v h q : l_next (set_prev p v h q) = l_next (h q).
Proof. unfold set_prev. by destruct (decide (q = p)). Qed.
Lemma prev_set_prev p v h q :
  l_prev (set_prev p v h q) = if decide (q = p) then v else l_prev (h q).
Proof. unfold set_prev. by destruct (decide (q = p)). Qed.
Lemma prev_set_next p v h q : l_prev (set_next p v h q) = l_prev (h q).
Proof. unfold set_next. by destruct (decide (q = p)). Qed.

Create Rewrite HintDb links.
#[export] Hint Rewrite next_set_next next_set_prev prev_set_prev prev_set_next : links.

(** Reads of a memory after writes to entries that are not the ones read. *)
Ltac links :=
  repeat (intro || split); autorewrite with links; repeat case_decide; subst;
  try done; try set_solver; try congruence.

Lemma nexts_other h l o p v : p ∉ l -> nexts h l o -> nexts (set_next p v h) l o.
Proof. intros Hp. apply nexts_ext. intros q Hq. autorewrite with links. case_decide; set_solver. Qed.
Lemma nexts_set_prev h l o p v : nexts h l o -> nexts (set_prev p v h) l o.
Proof. apply nexts_ext. intros q _. by autorewrite with links. Qed.
Lemma prevs_other h o l p v : p ∉ l -> prevs h o l -> prevs (set_prev p v h) o l.
Proof. intros Hp. apply prevs_ext. intros q Hq. autorewrite with links. case_decide; set_solver. Qed.
Lemma prevs_set_next h o l p v : prevs h o l -> prevs (set_next p v h) o l.
Proof. apply prevs_ext. intros q _. by autorewrite with links. Qed.

#[local] Hint Resolve nexts_other nexts_set_prev prevs_other prevs_set_next : core.

Lemma bits30_plus x y : bits30 (bits30 x + y) = bits30 (x + y).
Proof. unfold bits30. by rewrite Z.add_mod_idemp_l. Qed.

Lemma count_rep n (l l' : list ptr) d :
  n = bits30 (zlen l) -> zlen l' = zlen l + d -> bits30 (n + d) = bits30 (zlen l').
Proof. intros -> ->. apply bits30_plus. Qed.

Definition flags (L : SilcList) := (sl_prev_set L, sl_end_set L).

Lemma list_init_rep h : list_rep h silc_list_init [] /\ list_rep h silc_list_init_prev [].
Proof. split; (split; [constructor|done..]). Qed.

Lemma silc_list_add_rep h L l e :
  list_rep h L l -> e ∉ l ->
  exists h' L', silc_list_add h L e = Some (h', L') /\ list_rep h' L' (l ++ [e]) /\
    sl_current L' = sl_current L /\ flags L' = flags L.
Proof.
  intros [Hn Hh Ht Hx Hp Hc] He. unfold silc_list_add.
  assert (bits30 (sl_count L + 1) = bits30 (zlen (l ++ [e]))) as Hc' by (eapply count_rep; [done|len]).
  assert (NoDup (l ++ [e])) as Hn' by (apply list.NoDup_app; split_and!;
    [done|set_solver|apply NoDup_singleton]).
  destruct l as [|t l _] using rev_ind.
  - cbn in Hh, Ht. rewrite Hh. eexists _, _. split; [done|]. split; [|done].
    split; try done; cbn.
    + by links.
    + intros ->. rewrite Ht. by links.
  - rewrite Hh, Ht, last_or_app. cbn [last_or]. rewrite hd_or_app. destruct (hd_or l _) eqn:Eh; [|by destruct l].
    eexists _, _. split; [done|]. split; [|done]. apply nexts_app in Hx as [Hx [Hxt _]].
    apply list.NoDup_app in Hn as (_ & Hd & _). assert (t ∉ l) by (intros ?; by eapply Hd; [|left]).
    assert ((e ∉ l) /\ e <> t) as [He1 He2] by set_solver.
    split; try done; cbn [sl_head sl_tail sl_prev_set with_ends].
    + by rewrite <- app_assoc, hd_or_app, <- Eh.
    + by rewrite last_or_app.
    + rewrite <- app_assoc. apply nexts_app. split; [destruct (sl_prev_set L); auto 6|].
      cbn. destruct (sl_prev_set L); by links.
    + intros Hs. rewrite Hs. specialize (Hp Hs). apply prevs_app in Hp as [Hp1 Hp2].
      rewrite <- app_assoc. apply prevs_app. split; [auto 6|]. cbn in *. links.
Qed.

(** An entry at the head. *)
Lemma silc_list_insert_head_rep h L l e :
  list_rep h L l -> e ∉ l ->
  let '(h', L') := silc_list_insert h L None e in
  list_rep h' L' (e :: l) /\ sl_current L' = sl_current L /\ flags L' = flags L.
Proof.
  intros [Hn Hh Ht Hx Hp Hc] He. cbn [silc_list_insert]. split; [|done].
  split; try done; cbn [sl_head sl_tail sl_prev_set sl_count with_ends].
  - by constructor.
  - rewrite Ht. destruct l; cbn; [done|]. by destruct (last_or (Some p) l) eqn:E; [|destruct l using rev_ind; [|rewrite last_or_app in E]].
  - cbn. split.
    + destruct (sl_prev_set L), (sl_head L); autorewrite with links; case_decide; congruence.
    + destruct (sl_prev_set L), (sl_head L); auto 6.
  - intros Hs. specialize (Hp Hs). rewrite Hs, Hh. cbn. split; [by destruct (hd_or l None); links|].
    apply prevs_other; [done|]. destruct l as [|p l]; [done|]. cbn in *.
    apply not_elem_of_cons in He as [Hne He].
    inversion Hn; subst. destruct Hp as [? ?]. split; [by links|]. auto 6.
  - eapply count_rep; [done|len].
Qed.

(** An entry behind an entry of the list. *)
Lemma silc_list_insert_after_rep h L a cur b e :
  list_rep h L (a ++ cur :: b) -> e ∉ a ++ cur :: b ->
  let '(h', L') := silc_list_insert h L (Some cur) e in
  list_rep h' L' (a ++ cur :: e :: b) /\ sl_current L' = sl_current L /\
  flags L' = flags L.
Proof.
  intros [Hn Hh Ht Hx Hp Hc] He. cbn [silc_list_insert]. split; [|done].
  apply nexts_app in Hx as [Hx [Hcur Hb]]. pose proof Hn as Hn0.
  apply list.NoDup_app in Hn as (Hna & Hab & [Hcb Hnb]%list.NoDup_cons).
  assert (cur ∉ a) as Hca by (intros ?; by eapply Hab; [|left]).
  apply not_elem_of_app in He as [Hea [Hec Heb]%not_elem_of_cons].
  set (h1 := set_next cur (Some e) _).
  assert (l_next (h1 e) = hd_or b None) as En
    by (unfold h1; autorewrite with links; repeat case_decide; congruence). set (h2 := if sl_prev_set L then _ else _).
  assert (forall q, l_next (h2 q) = l_next (h1 q)) as E2.
  { intros q. unfold h2. destruct (sl_prev_set L); [|done].
    destruct (l_next (set_prev e (Some cur) h1 e)); by autorewrite with links. }
  split; cbn [sl_head sl_tail sl_prev_set sl_count with_ends].
  - rewrite (cons_middle cur), app_assoc in *. apply list.NoDup_app in Hn0 as (? & Hd & ?).
    apply list.NoDup_app. split_and!; [done| |by constructor].
    intros x Hx1 [->|Hx2]%elem_of_cons; [|by eapply Hd].
    apply elem_of_app in Hx1 as [?|?%list_elem_of_singleton]; congruence.
  - rewrite Hh, !hd_or_app. done.
  - rewrite Ht, !last_or_app. cbn. destruct (list_eq_nil_dec b) as [->|Hnil].
    + cbn. by rewrite bool_decide_eq_true_2.
    + destruct b as [|t b _] using rev_ind; [done|]. rewrite !last_or_app. cbn.
      rewrite bool_decide_eq_false_2; [done|]. intros [= ->]. set_solver.
  - apply (nexts_ext h1); [intros; apply E2|]. apply nexts_app. split.
    + unfold h1. auto.
    + cbn. rewrite En. split; [by unfold h1; links|]. split; [done|]. unfold h1. auto.
  - intros Hs. specialize (Hp Hs). apply prevs_app in Hp as [Hpa [Hpc Hpb]].
    unfold h2. rewrite Hs. replace (l_next (set_prev e (Some cur) h1 e)) with (hd_or b None)
      by by rewrite next_set_prev.
    assert (prevs (set_prev e (Some cur) h1) None (a ++ [cur; e])) as Hpre.
    { unfold h1. apply prevs_app. split; [auto|]. cbn. links. }
    rewrite (app_assoc a [cur; e] b : a ++ cur :: e :: b = _). apply prevs_app.
    rewrite last_or_app. cbn [last_or].
    destruct b as [|p b]; cbn [hd_or]; [by split|]. inversion Hnb; subst.
    apply not_elem_of_cons in Heb as [? ?]. apply not_elem_of_cons in Hcb as [? ?].
    assert (p ∉ a) by (intros ?; by eapply Hab; [|right; left]).
    split; [apply prevs_other; [set_solver|done]|]. cbn in Hpb |- *. destruct Hpb as [? ?].
    split; [by links|]. unfold h1. auto 6.
  - eapply count_rep; [done|len].
Qed.

(** ** Deleting *)

Lemma del_loop_found h e a fuel o :
  nexts h a (Some e) -> e ∉ a -> (length a < fuel)%nat ->
  del_loop fuel h e o (hd_or a (Some e)) = Some (true, last_or o a).
Proof.
  revert o fuel; induction a as [|p a IH]; intros o [|fuel] Hx He Hf; cbn in *; try lia.
  - by rewrite decide_True.
  - apply not_elem_of_cons in He as [? ?]. destruct Hx as [Ep Hx].
    rewrite decide_False by done. rewrite Ep. by apply IH; [..|lia].
Qed.

Lemma del_loop_missing h e l fuel o :
  nexts h l None -> e ∉ l -> (length l < fuel)%nat ->
  del_loop fuel h e o (hd_or l None) = Some (false, last_or o l).
Proof.
  revert o fuel; induction l as [|p l IH]; intros o [|fuel] Hx He Hf; cbn in *; try lia; [done|].
  apply not_elem_of_cons in He as [? ?]. destruct Hx as [Ep Hx].
  rewrite decide_False by done. rewrite Ep. by apply IH; [..|lia].
Qed.

Lemma last_or_in o l p : last_or o l = Some p -> o = Some p \/ p ∈ l.
Proof.
  revert o; induction l as [|q l IH]; intros o; cbn; [by left|].
  intros [[= ->]|?]%IH; right; set_solver.
Qed.

Lemma silc_list_del_missing_rep h L l e fuel :
  list_rep h L l -> e ∉ l -> (length l < fuel)%nat ->
  exists L', silc_list_del fuel h L e = Some (h, L') /\ list_rep h L' l /\
    sl_current L' = sl_current L /\ flags L' = flags L.
Proof.
  intros [Hn Hh Ht Hx Hp Hc] He Hf. unfold silc_list_del. rewrite Hh, (del_loop_missing h e l) by done.
  eexists. split; [done|]. split; [|done]. split; try done. cbn. rewrite Ht. by case_bool_decide.
Qed.

Lemma silc_list_del_rep h L a e b fuel :
  list_rep h L (a ++ e :: b) -> (length (a ++ e :: b) < fuel)%nat ->
  exists h' L', silc_list_del fuel h L e = Some (h', L') /\ list_rep h' L' (a ++ b) /\
    sl_current L' = (if bool_decide (sl_current L = Some e) then hd_or b None else sl_current L) /\
    flags L' = flags L.
Proof.
  intros [Hn Hh Ht Hx Hp Hc] Hf. rewrite length_app in Hf. cbn in Hf.
  apply nexts_app in Hx as [Hxa [Hxe Hxb]].
  apply list.NoDup_app in Hn as (Hna & Hab & [Heb Hnb]%list.NoDup_cons).
  assert (e ∉ a) as Hea by (intros ?; by eapply Hab; [|left]).
  unfold silc_list_del. rewrite Hh, hd_or_app. cbn [hd_or].
  rewrite (del_loop_found h e a) by (done || lia). rewrite Hxe.
  assert (NoDup (a ++ b)) as Hn' by (apply list.NoDup_app; split_and!; [done| |done];
    intros x ? ?; by eapply Hab; [|right]).
  set (hh := match last_or None a with None => _ | Some q => _ end).
  assert (hh.1 = hd_or (a ++ b) None /\ nexts hh.2 (a ++ b) None /\
    (forall q, l_prev (hh.2 q) = l_prev (h q))) as (Eh & En & Eq).
  { unfold hh. rewrite nexts_app. destruct a as [|q a _] using rev_ind; [done|].
    rewrite !last_or_app. cbn [last_or fst snd]. apply nexts_app in Hxa as [Hxa [Hq _]].
    apply list.NoDup_app in Hna as (_ & Hd & _).
    assert (q ∉ a) by (intros ?; by eapply Hd; [|left]).
    assert (q ∉ b) by (intros ?; eapply Hab; [|by right]; apply elem_of_app; right; by left).
    split_and!; [by destruct a| |auto|intros; by autorewrite with links].
    apply nexts_app. split; [auto|]. cbn. by links. }
  destruct hh as [hd' h1]. cbn [fst snd] in *. subst hd'.
  eexists _, _. split; [done|]. split; [|split; [done|done]].
  split; cbn [sl_head sl_tail sl_prev_set sl_count with_ends with_current]; [done|done| | | |].
  - rewrite Ht, !last_or_app. cbn [last_or]. destruct b as [|t b _] using rev_ind.
    + by rewrite bool_decide_eq_true_2.
    + rewrite !last_or_app. cbn. rewrite bool_decide_eq_false_2; [done|]. set_solver.
  - destruct (hd_or b None), (sl_prev_set L); auto.
  - intros Hs. specialize (Hp Hs). rewrite Hs. apply prevs_app in Hp as [Hpa [Hpe Hpb]].
    assert (forall o l, prevs h o l -> prevs h1 o l) as K by (intros o l; by apply prevs_ext).
    apply prevs_app. rewrite Eq, Hpe. destruct b as [|n b]; cbn [hd_or]; [split; [auto|done]|].
    assert (n ∉ a) by (intros ?; by eapply Hab; [|right; left]).
    inversion Hnb; subst. destruct Hpb as [_ Hpb]. split; [auto|]. cbn. split; [by links|]. auto.
  - eapply count_rep; [exact Hc|]. rewrite !length_app. cbn [length]. lia.
Qed.

(** ** Traversal *)

(** The entries behind and before an entry. *)
Fixpoint after (l : list ptr) (p : ptr) : option ptr :=
  match l with [] => None | q :: l => if decide (q = p) then hd_or l None else after l p end.
Fixpoint before (o : option ptr) (l : list ptr) (p : ptr) : option ptr :=
  match l with [] => None | q :: l => if decide (q = p) then o else before (Some q) l p end.

Lemma nexts_after h l p : nexts h l None -> p ∈ l -> l_next (h p) = after l p.
Proof.
  induction l as [|q l IH]; cbn; [set_solver|]. intros [? ?] Hin.
  case_decide; [by subst|]. apply IH; [done|]. set_solver.
Qed.

Lemma prevs_before h o l p : prevs h o l -> p ∈ l -> l_prev (h p) = before o l p.
Proof.
  revert o; induction l as [|q l IH]; intros o; cbn; [set_solver|]. intros [? ?] Hin.
  case_decide; [by subst|]. apply IH; [done|]. set_solver.
Qed.

Lemma after_in l p q : after l p = Some q -> q ∈ l.
Proof.
  induction l as [|x l IH]; cbn; [done|]. case_decide.
  - destruct l; cbn; [done|]. intros [= ->]. set_solver.
  - intros ?%IH. set_solver.
Qed.

Lemma before_in o l p q : before o l p = Some q -> o = Some q \/ q ∈ l.
Proof.
  revert o; induction l as [|x l IH]; intros o; cbn; [done|]. case_decide; [by left|].
  intros [[= ->]|?]%IH; right; set_solver.
Qed.

Lemma after_split a e b : e ∉ a -> after (a ++ e :: b) e = hd_or b None.
Proof.
  induction a as [|x a IH]; cbn; [by rewrite decide_True|].
  intros [? ?]%not_elem_of_cons. rewrite decide_False by done. auto.
Qed.

(** * A list as a sequence with a cursor *)

Record cursor_list := { cl_items : list ptr; cl_current : option ptr; cl_backwards : bool }.

Inductive list_op :=
| lop_add (entry : ptr)
| lop_insert (current : option ptr) (entry : ptr)
| lop_del (entry : ptr)
| lop_start
| lop_end
| lop_get
| lop_count.

Inductive list_result := lres_done | lres_entry (e : option ptr) | lres_count (n : Z).

Fixpoint insert_after (l : list ptr) (cur e : ptr) : list ptr :=
  match l with
  | [] => []
  | p :: l => if decide (p = cur) then p :: e :: l else p :: insert_after l cur e
  end.

Definition without (e : ptr) (l : list ptr) : list ptr := remove_first (fun p => bool_decide (p = e)) l.

(** The operations as they are meant. *)
Definition cursor_step (s : cursor_list) (op : list_op) : list_result * cursor_list :=
  let items l := {| cl_items := l; cl_current := cl_current s; cl_backwards := cl_backwards s |} in
  match op with
  | lop_add e => (lres_done, items (cl_items s ++ [e]))
  | lop_insert None e => (lres_done, items (e :: cl_items s))
  | lop_insert (Some cur) e => (lres_done, items (insert_after (cl_items s) cur e))
  | lop_del e =>
      (lres_done, {| cl_items := without e (cl_items s);
                     cl_current := if bool_decide (cl_current s = Some e)
                                   then after (cl_items s) e else cl_current s;
                     cl_backwards := cl_backwards s |})
  | lop_start => (lres_done, {| cl_items := cl_items s; cl_current := hd_or (cl_items s) None;
                                cl_backwards := false |})
  | lop_end => (lres_done, {| cl_items := cl_items s; cl_current := last_or None (cl_items s);
                              cl_backwards := true |})
  | lop_get =>
      (lres_entry (cl_current s),
       {| cl_items := cl_items s;
          cl_current := match cl_current s with
                        | None => None
                        | Some p => if cl_backwards s then before None (cl_items s) p
                                    else after (cl_items s) p
                        end;
          cl_backwards := cl_backwards s |})
  | lop_count => (lres_count (bits30 (zlen (cl_items s))), s)
  end.

(** An entry is in a list once; an entry is inserted behind one of the list; only
    a list with prev pointers is walked from the end. *)
Definition op_allowed (prev_set : bool) (s : cursor_list) (op : list_op) : Prop :=
  match op with
  | lop_add e | lop_insert None e => e ∉ cl_items s
  | lop_insert (Some cur) e => (e ∉ cl_items s) /\ cur ∈ cl_items s
  | lop_end => prev_set = true
  | _ => True
  end.

Definition list_step (fuel : nat) (s : Memory * SilcList) (op : list_op)
  : option (list_result * (Memory * SilcList)) :=
  let '(h, L) := s in
  match op with
  | lop_add e => option_map (fun s => (lres_done, s)) (silc_list_add h L e)
  | lop_insert cur e => Some (lres_done, silc_list_insert h L cur e)
  | lop_del e => option_map (fun s => (lres_done, s)) (silc_list_del fuel h L e)
  | lop_start => Some (lres_done, (h, silc_list_start L))
  | lop_end => Some (lres_done, (h, silc_list_end L))
  | lop_get => let '(e, L) := silc_list_get h L in Some (lres_entry e, (h, L))
  | lop_count => Some (lres_count (silc_list_count L), (h, L))
  end.

(** ** The simulation *)

Definition cursor_rep (prev_set : bool) (s : Memory * SilcList) (c : cursor_list) : Prop :=
  list_rep s.1 s.2 (cl_items c) /\ sl_current s.2 = cl_current c /\
  flags s.2 = (prev_set, cl_backwards c) /\ (cl_backwards c = true -> prev_set = true) /\
  forall p, cl_current c = Some p -> p ∈ cl_items c.

Lemma without_split a e b : e ∉ a -> without e (a ++ e :: b) = a ++ b.
Proof.
  induction a as [|x a IH]; cbn; [by rewrite bool_decide_eq_true_2|].
  intros [? ?]%not_elem_of_cons. rewrite bool_decide_eq_false_2 by done. f_equal. by apply IH.
Qed.

Lemma insert_after_split a cur b e : cur ∉ a -> insert_after (a ++ cur :: b) cur e = a ++ cur :: e :: b.
Proof.
  induction a as [|x a IH]; cbn; [by rewrite decide_True|].
  intros [? ?]%not_elem_of_cons. rewrite decide_False by done. f_equal. by apply IH.
Qed.

Lemma split_in (l : list ptr) e : NoDup l -> e ∈ l -> exists a b, l = a ++ e :: b /\ (e ∉ a) /\ e ∉ b.
Proof.
  intros Hn [a [b ->]]%list_elem_of_split. exists a, b. split; [done|].
  apply list.NoDup_app in Hn as (_ & Hd & [? _]%list.NoDup_cons). split; [|done].
  intros ?. by eapply Hd; [|left].
Qed.

Lemma without_missing l e : e ∉ l -> without e l = l.
Proof.
  intros He. apply remove_first_none. intros x Hx%list_elem_of_In.
  apply bool_decide_eq_false_2. by intros ->.
Qed.

Lemma in_without l e p : p ∈ l -> p <> e -> p ∈ without e l.
Proof.
  induction l as [|x l IH]; cbn; [done|]. intros [->|Hp]%elem_of_cons Hne.
  - rewrite bool_decide_eq_false_2 by done. by left.
  - case_bool_decide; [done|]. right. by apply IH.
Qed.

Lemma del_cursor_rep prev_set fuel h L c e :
  cursor_rep prev_set (h, L) c -> (length (cl_items c) < fuel)%nat ->
  exists s', silc_list_del fuel h L e = Some s' /\
    cursor_rep prev_set s' (cursor_step c (lop_del e)).2.
Proof.
  intros (Hr & Hcur & Hfl & Hb & Hin) Hf. cbn [fst snd cursor_step] in *.
  destruct (decide (e ∈ cl_items c)) as [He|He].
  - destruct (split_in _ _ (lr_nodup _ _ _ Hr) He) as (a & b & E & Ha & Hbn). rewrite E in *.
    destruct (silc_list_del_rep h L a e b fuel Hr Hf) as (h' & L' & -> & Hr' & Hc' & Hfl').
    exists (h', L'). split; [done|]. unfold cursor_rep. cbn. rewrite Hcur in Hc'.
    rewrite ?E, without_split, after_split, Hc', Hfl', Hfl by done. split_and!; try done.
    clear Hc'. intros p. case_bool_decide as Hce.
    + destruct b; [done|]. intros [= ->]. apply elem_of_app. right. by left.
    + intros Hp. pose proof (Hin p Hp) as Hp'. rewrite <- (without_split a e b Ha).
      apply in_without; [done|]. congruence.
  - destruct (silc_list_del_missing_rep h L _ e fuel Hr He Hf) as (L' & -> & Hr' & Hc' & Hfl').
    exists (h, L'). split; [done|]. unfold cursor_rep. cbn.
    rewrite without_missing, Hc', Hcur, Hfl', Hfl by done.
    rewrite bool_decide_eq_false_2 by (intros Ec; by apply He, Hin). by split_and!.
Qed.

Lemma get_cursor_rep prev_set h L c :
  cursor_rep prev_set (h, L) c ->
  let '(e, L') := silc_list_get h L in
  e = cl_current c /\ cursor_rep prev_set (h, L') (cursor_step c lop_get).2.
Proof.
  intros (Hr & Hcur & Hfl & Hb & Hin). unfold silc_list_get. cbn [fst snd cursor_step] in *.
  injection Hfl as Hps Hes. rewrite Hcur.
  destruct (cl_current c) as [p|] eqn:Ec; split; try done.
  - pose proof (Hin p eq_refl) as Hp. destruct Hr as [? ? ? Hx Hpv ?].
    assert ((if sl_end_set L then l_prev (h p) else l_next (h p)) =
      if cl_backwards c then before None (cl_items c) p else after (cl_items c) p) as En.
    { rewrite Hes. destruct (cl_backwards c) eqn:Eb.
      - apply prevs_before; [|done]. apply Hpv. rewrite Hps. by apply Hb.
      - by apply nexts_after. }
    unfold cursor_rep. cbn. rewrite En. split_and!; try done; try (by unfold flags; cbn; congruence).
    intros q. destruct (cl_backwards c); [|apply after_in]. by intros [?|?]%before_in.
  - unfold cursor_rep, flags. cbn. split_and!; try done; congruence.
Qed.

Lemma list_step_refines prev_set fuel h L c op :
  cursor_rep prev_set (h, L) c -> op_allowed prev_set c op -> (length (cl_items c) < fuel)%nat ->
  exists s', list_step fuel (h, L) op = Some ((cursor_step c op).1, s') /\
    cursor_rep prev_set s' (cursor_step c op).2.
Proof.
  intros Hc Ha Hf. pose proof Hc as (Hr & Hcur & Hfl & Hb & Hin). cbn [fst snd] in *.
  destruct op as [e|[cur|] e|e| | | |]; cbn [op_allowed list_step] in *.
  - destruct (silc_list_add_rep h L _ e Hr Ha) as (h' & L' & -> & Hr' & Hc' & Hfl').
    eexists. split; [done|]. unfold cursor_rep. cbn. rewrite Hc', Hfl'. split_and!; try done.
    intros p Hp. apply elem_of_app. left. by apply Hin.
  - destruct Ha as [He Hcin]. destruct (split_in _ _ (lr_nodup _ _ _ Hr) Hcin) as (a & b & E & Hna & _).
    eexists. split; [done|]. cbn [cursor_step snd]. rewrite E in *. rewrite insert_after_split by done.
    pose proof (silc_list_insert_after_rep h L a cur b e Hr He) as H.
    destruct (silc_list_insert h L (Some cur) e) as [h' L']. destruct H as (Hr' & Hc' & Hfl').
    unfold cursor_rep. cbn. rewrite Hc', Hfl'. split_and!; try done.
    intros p Hp. specialize (Hin p Hp). set_solver.
  - eexists. split; [done|]. pose proof (silc_list_insert_head_rep h L _ e Hr Ha) as H.
    destruct (silc_list_insert h L None e) as [h' L']. destruct H as (Hr' & Hc' & Hfl').
    unfold cursor_rep. cbn. rewrite Hc', Hfl'. split_and!; try done.
    intros p Hp. right. by apply Hin.
  - destruct (del_cursor_rep _ _ _ _ _ e Hc Hf) as (s' & -> & Hs'). by exists s'.
  - eexists. split; [done|]. injection Hfl as Hps _. destruct Hr. unfold cursor_rep. cbn.
    split_and!; try done; try (by unfold flags; cbn; congruence). intros p Hp. destruct (cl_items c); [done|].
    injection Hp as ->. by left.
  - eexists. split; [done|]. injection Hfl as Hps _. destruct Hr. unfold cursor_rep. cbn.
    split_and!; try done; try (by unfold flags; cbn; congruence). by intros p [?|?]%last_or_in.
  - pose proof (get_cursor_rep _ _ _ _ Hc) as H. destruct (silc_list_get h L) as [e L'].
    destruct H as [-> H]. by exists (h, L').
  - eexists. split; [|exact Hc]. unfold silc_list_count. by rewrite (lr_count _ _ _ Hr).
Qed.

(** A run, the results first. *)
Fixpoint list_run (fuel : nat) (s : Memory * SilcList) (ops : list list_op)
  : option (list list_result) :=
  match ops with
  | [] => Some []
  | op :: ops =>
      match list_step fuel s op with
      | Some (r, s) => option_map (cons r) (list_run fuel s ops)
      | None => None
      end
  end.

Fixpoint cursor_run (c : cursor_list) (ops : list list_op) : list list_result :=
  match ops with
  | [] => []
  | op :: ops => let '(r, c) := cursor_step c op in r :: cursor_run c ops
  end.

Fixpoint ops_allowed (prev_set : bool) (c : cursor_list) (ops : list list_op) : Prop :=
  match ops with
  | [] => True
  | op :: ops => op_allowed prev_set c op /\ ops_allowed prev_set (cursor_step c op).2 ops
  end.

Lemma remove_first_length {A} (p : A -> bool) l : (length (remove_first p l) <= length l)%nat.
Proof. induction l as [|x l IH]; cbn; [done|]. destruct (p x); cbn; lia. Qed.

Lemma insert_after_length l cur e : (length (insert_after l cur e) <= S (length l))%nat.
Proof. induction l as [|x l IH]; cbn; [lia|]. case_decide; cbn; lia. Qed.

Lemma cursor_step_length c op :
  (length (cl_items (cursor_step c op).2) <= S (length (cl_items c)))%nat.
Proof.
  destruct op as [e|[cur|] e|e| | | |]; cbn; try lia.
  - rewrite length_app. cbn. lia.
  - apply insert_after_length.
  - pose proof (remove_first_length (fun p => bool_decide (p = e)) (cl_items c)). unfold without. lia.
Qed.

Lemma list_run_refines prev_set fuel ops s c :
  cursor_rep prev_set s c -> ops_allowed prev_set c ops ->
  (length (cl_items c) + length ops < fuel)%nat -> list_run fuel s ops = Some (cursor_run c ops).
Proof.
  revert s c; induction ops as [|op ops IH]; intros [h L] c Hc Ha Hf; [done|].
  cbn [list_run cursor_run]. destruct Ha as [Ha1 Ha2]. cbn [length] in Hf.
  destruct (list_step_refines prev_set fuel h L c op Hc Ha1 ltac:(lia)) as (s' & -> & Hc').
  pose proof (cursor_step_length c op).
  destruct (cursor_step c op) as [r c'] eqn:Es. cbn [fst snd] in *.
  rewrite (IH s' c'); [done..|lia].
Qed.

Definition no_items : cursor_list :=
  {| cl_items := []; cl_current := None; cl_backwards := false |}.

(** C23. A SilcList is a sequence with a cursor: additions at the end, at the head
    and behind an entry, deletions, silc_list_start, silc_list_end, silc_list_get
    and silc_list_count in any order give what they give on a sequence, whatever
    was in the links of the entries, for a list with or without prev pointers;
    deleting the entry that is to be returned next moves the cursor to the one
    behind it, also when the list is walked from its end. *)
Theorem silc_list_refines (prev_set : bool) (h : Memory) (ops : list list_op) :
  ops_allowed prev_set no_items ops ->
  list_run (S (length ops)) (h, if prev_set then silc_list_init_prev else silc_list_init) ops =
  Some (cursor_run no_items ops).
Proof.
  intros Ha. apply (list_run_refines prev_set); [|done|cbn; lia].
  destruct (list_init_rep h) as [H0 H1]. by destruct prev_set; split_and!.
Qed.

#[local] Definition walk : list list_op :=
  [lop_add 10; lop_add 20; lop_insert None 5; lop_insert (Some 10) 15; lop_end; lop_get; lop_del 15;
   lop_get; lop_get; lop_del 20; lop_start; lop_get; lop_get; lop_get; lop_count].

(** 5, 10, 15, 20 from the end, and 15 deleted while 15 is next: 20 comes again. *)
Lemma silc_list_refines_witness :
  ops_allowed true no_items walk /\
  list_run 16 (fun p => {| l_next := Some p; l_prev := Some 7 |}, silc_list_init_prev) walk =
    Some (cursor_run no_items walk) /\
  cursor_run no_items [lop_add 1; lop_add 2; lop_add 3; lop_end; lop_get; lop_del 2; lop_get] =
    [lres_done; lres_done; lres_done; lres_done; lres_entry (Some 3); lres_done;
     lres_entry (Some 3)].
Proof.
  assert (ops_allowed true no_items walk) as Ha.
  { cbn. repeat split; try (by intros ?%elem_of_nil); try done; set_solver. }
  split; [exact Ha|]. split; [|vm_compute; reflexivity].
  exact (silc_list_refines true _ walk Ha).
Defined.
