(* ===== verification/SilcDList.v ===== *)
(** Lists of contexts (src/lib/silcutil/silcdlist.h) on top of SilcList. *)

From stdpp Require Import sets list strings.
From S2P Require Import Prelude CTypes HashTableSpec SilcList.

(** A context is a pointer; [None] is NULL, SILC_LIST_END. *)
Definition context : Type := option Z.

Record SilcDList := {
  dl_list : SilcList;
  dl_current : option ptr;
  dl_prev : option ptr;
}.

(** The entries in memory: their links and contexts. *)
Record DMemory := { dm_links : Memory; dm_context : ptr -> context }.

Definition with_links (h : Memory) (m : DMemory) : DMemory :=
  {| dm_links := h; dm_context := dm_context m |}.

Definition set_context (p : ptr) (c : context) (m : DMemory) : DMemory :=
  {| dm_links := dm_links m;
     dm_context := fun q => if decide (q = p) then c else dm_context m q |}.

Definition silc_dlist_init : SilcDList :=
  {| dl_list := silc_list_init_prev; dl_current := None; dl_prev := None |}.

Definition silc_dlist_count (list : SilcDList) : Z := silc_list_count (dl_list list).

Definition silc_dlist_start (list : SilcDList) : SilcDList :=
  {| dl_list := silc_list_start (dl_list list); dl_current := None; dl_prev := None |}.

Definition silc_dlist_end (list : SilcDList) : SilcDList :=
  {| dl_list := silc_list_end (dl_list list); dl_current := None; dl_prev := None |}.

Definition with_list (l : SilcList) (list : SilcDList) : SilcDList :=
  {| dl_list := l; dl_current := dl_current list; dl_prev := dl_prev list |}.

(** [e] is the entry silc_malloc gives. *)
Definition silc_dlist_add (m : DMemory) (list : SilcDList) (e : option ptr) (context : context)
  : option (bool * DMemory * SilcDList) :=
  match e with
  | None => Some (false, m, list)
  | Some e =>
      let m := set_context e context m in
      match silc_list_add (dm_links m) (dl_list list) e with
      | None => None
      | Some (h, l) => Some (true, with_links h m, with_list l list)
      end
  end.

Definition silc_dlist_insert (m : DMemory) (list : SilcDList) (e : option ptr) (context : context)
  : bool * DMemory * SilcDList :=
  match e with
  | None => (false, m, list)
  | Some e =>
      let m := set_context e context m in
      let '(h, l) := silc_list_insert (dm_links m) (dl_list list) (dl_prev list) e in
      (true, with_links h m, with_list l list)
  end.

(** The loop of silc_dlist_del to the entry with the context. *)
Fixpoint dlist_find (fuel : nat) (m : DMemory) (l : SilcList) (entry : context)
  : option (option ptr * SilcList) :=
  match fuel with
  | O => None
  | S fuel =>
      match silc_list_get (dm_links m) l with
      | (None, l) => Some (None, l)
      | (Some e, l) =>
          if decide (dm_context m e = entry) then Some (Some e, l) else dlist_find fuel m l entry
      end
  end.

(** With the entry that is freed. *)
Definition silc_dlist_del (fuel : nat) (m : DMemory) (list : SilcDList) (entry : context)
  : option (option ptr * DMemory * SilcDList) :=
  match dlist_find fuel m (silc_list_start (dl_list list)) entry with
  | None => None
  | Some (None, l) => Some (None, m, with_list l list)
  | Some (Some e, l) =>
      match silc_list_del fuel (dm_links m) l e with
      | None => None
      | Some (h, l) =>
          let clear p := if bool_decide (p = Some e) then None else p in
          Some (Some e, with_links h m,
                {| dl_list := l; dl_current := clear (dl_current list);
                   dl_prev := clear (dl_prev list) |})
      end
  end.

Definition silc_dlist_get (m : DMemory) (list : SilcDList) : context * SilcDList :=
  let '(e, l) := silc_list_get (dm_links m) (dl_list list) in
  let list := {| dl_list := l; dl_current := e; dl_prev := dl_current list |} in
  match e with
  | Some e => (dm_context m e, list)
  | None => (None, list)
  end.

(** The entries that are freed, in order. *)
Fixpoint dlist_uninit_loop (fuel : nat) (h : Memory) (l : SilcList) (freed : list ptr)
  : option (list ptr) :=
  match fuel with
  | O => None
  | S fuel =>
      match silc_list_get h l with
      | (None, _) => Some freed
      | (Some e, l) =>
          match silc_list_del (S fuel) h l e with
          | None => None
          | Some (h, l) => dlist_uninit_loop fuel h l (freed ++ [e])
          end
      end
  end.

Definition silc_dlist_uninit (fuel : nat) (m : DMemory) (L : option SilcDList)
  : option (list ptr) :=
  match L with
  | None => Some []
  | Some L => dlist_uninit_loop fuel (dm_links m) (silc_list_start (dl_list L)) []
  end.

(** * What they do *)

(** The entries of the list, with a cursor that the next silc_dlist_get returns. *)
Definition dlist_rep (m : DMemory) (L : SilcDList) (l : list ptr) : Prop :=
  list_rep (dm_links m) (dl_list L) l /\ sl_prev_set (dl_list L) = true.

Lemma list_get_forward h L l a p b :
  list_rep h L l -> l = a ++ p :: b -> sl_current L = Some p -> sl_end_set L = false ->
  silc_list_get h L = (Some p, with_current (hd_or b None) L).
Proof.
  intros [_ _ _ Hx _ _] -> Hc He. unfold silc_list_get. rewrite Hc, He.
  apply nexts_app in Hx as [_ [-> _]]. done.
Qed.

Lemma list_rep_current h L l o : list_rep h L l -> list_rep h (with_current o L) l.
Proof. by intros []. Qed.

(** The search comes to the first entry with the context, the cursor behind it. *)
Lemma dlist_find_spec m L l c a b fuel :
  list_rep (dm_links m) L l -> l = a ++ b -> sl_current L = hd_or b None -> sl_end_set L = false ->
  (length b < fuel)%nat ->
  (forall p, p ∈ b -> dm_context m p <> c) /\
    dlist_find fuel m L c = Some (None, with_current None L) \/
  exists b1 p b2, b = b1 ++ p :: b2 /\ dm_context m p = c /\
    (forall q, q ∈ b1 -> dm_context m q <> c) /\
    dlist_find fuel m L c = Some (Some p, with_current (hd_or b2 None) L).
Proof.
  revert L a b; induction fuel as [|fuel IH]; intros L a b Hr E Hc He Hf; [lia|]. cbn [dlist_find].
  destruct b as [|p b]; cbn [hd_or] in Hc.
  - left. split; [by intros p ?%elem_of_nil|]. unfold silc_list_get. rewrite Hc.
    destruct L; cbn in *; by subst.
  - rewrite (list_get_forward _ _ l a p b) by done. case_decide as Hp.
    + right. exists [], p, b. split_and!; try done. by intros q ?%elem_of_nil.
    + cbn in Hf. destruct (IH (with_current (hd_or b None) L) (a ++ [p]) b) as
        [(Hno & ->)|(b1 & q & b2 & -> & Hq & Hno & ->)]; try done; try lia.
      * by apply list_rep_current.
      * by rewrite <- app_assoc.
      * left. split; [|done]. intros q [->|Hq]%elem_of_cons; [done|by apply Hno].
      * right. exists (p :: b1), q, b2. split_and!; try done.
        intros x [->|Hx]%elem_of_cons; [done|by apply Hno].
Qed.

(** silc_dlist_del removes the first entry with the context and frees it; a walk of
    the list goes on behind it, forwards, and ends when there is no such entry. *)
Lemma silc_dlist_del_spec m L l c fuel :
  dlist_rep m L l -> (length l < fuel)%nat ->
  (forall p, p ∈ l -> dm_context m p <> c) /\
    (exists L', silc_dlist_del fuel m L c = Some (None, m, L') /\ dlist_rep m L' l /\
       (silc_dlist_get m L').1 = None) \/
  exists a p b m' L', l = a ++ p :: b /\ dm_context m p = c /\
    (forall q, q ∈ a -> dm_context m q <> c) /\
    silc_dlist_del fuel m L c = Some (Some p, m', L') /\ dm_context m' = dm_context m /\
    dlist_rep m' L' (a ++ b) /\ sl_current (dl_list L') = hd_or b None /\
    sl_end_set (dl_list L') = false.
Proof.
  intros [Hr Hps] Hf. unfold silc_dlist_del.
  assert (list_rep (dm_links m) (silc_list_start (dl_list L)) l) as Hr0 by by destruct Hr.
  destruct (dlist_find_spec m _ l c [] l fuel Hr0) as
    [(Hno & ->)|(a & p & b & -> & Hp & Hno & ->)]; try done; [by destruct Hr|left|right].
  - split; [done|]. eexists. split; [done|]. split; [|done]. by split; [apply list_rep_current|].
  - set (L1 := with_current _ _).
    assert (list_rep (dm_links m) L1 (a ++ p :: b)) as Hr1 by by apply list_rep_current.
    destruct (silc_list_del_rep _ _ a p b fuel Hr1 Hf) as (h' & L' & -> & Hr' & Hc' & Hfl').
    exists a, p, b. eexists _, _. split_and!; try done.
    + split; [done|]. injection Hfl' as E _. exact (eq_trans E Hps).
    + cbn [dl_list]. rewrite Hc'. unfold L1. cbn. by destruct (bool_decide _).
    + injection Hfl' as _ E. exact E.
Qed.

#[local] Definition memory0 : DMemory :=
  {| dm_links := fun _ => {| l_next := None; l_prev := None |}; dm_context := fun _ => None |}.

Fixpoint add_all (m : DMemory) (L : SilcDList) (es : list (ptr * Z)) : option (DMemory * SilcDList) :=
  match es with
  | [] => Some (m, L)
  | (p, c) :: es =>
      match silc_dlist_add m L (Some p) (Some c) with
      | Some (_, m, L) => add_all m L es
      | None => None
      end
  end.

(** A walk from the end of 10, 20, 30 that deletes 30 when it gets it turns round:
    it ends at once instead of going on with 20. *)
Lemma silc_dlist_del_turns_round :
  match add_all memory0 silc_dlist_init [(1, 10); (2, 20); (3, 30)] with
  | Some (m, L) =>
      let '(c, L) := silc_dlist_get m (silc_dlist_end L) in
      c = Some 30 /\
      match silc_dlist_del 4 m L c with
      | Some (_, m, L) => (silc_dlist_get m L).1 = None
      | None => False
      end
  | None => False
  end.
Proof. vm_compute. done. Qed.
