(* ===== verification/IdCache.v ===== *)
(** The ID cache (src/lib/silcapputil/silcidcache.c): entries found by ID, name and
    context through three hash tables.  The functions that return FALSE or NULL at
    once for a NULL cache, entry or list are given those that are not. *)

From stdpp Require Import gmap sets list strings.
From S2P Require Import Prelude CTypes Id HashTable HashTableSpec HashKeys SilcList.

Record SilcIDCacheEntry := {
  ice_id : option SilcID;
  ice_name : option (list Z);
  ice_context : option Z;
}.

(** A table from keys to entries; user contexts are integers, there is no destructor. *)
Abbreviation cache_table K := (SilcHashTable K ptr Z unit).

Record SilcIDCache := {
  ic_id_table : cache_table SilcID;
  ic_name_table : cache_table (list Z);
  ic_context_table : cache_table Z;
  ic_destructor : bool;
  ic_context : option Z;
  ic_id_type : Z;
}.

(** The entries that are allocated. *)
Abbreviation EntryHeap := (gmap ptr SilcIDCacheEntry).

Definition set_tables (i : cache_table SilcID) (n : cache_table (list Z)) (x : cache_table Z)
    (c : SilcIDCache) : SilcIDCache :=
  {| ic_id_table := i; ic_name_table := n; ic_context_table := x;
     ic_destructor := ic_destructor c; ic_context := ic_context c; ic_id_type := ic_id_type c |}.

(** A call of the application's destructor. *)
Record destructor_call := {
  dc_entry : ptr; dc_context : option Z; dc_app_context : option Z;
}.

Definition silc_idcache_destructor (cache : SilcIDCache) (entry : ptr) (app_context : option Z)
    (H : EntryHeap) : list destructor_call * EntryHeap :=
  ((if ic_destructor cache
    then [{| dc_entry := entry; dc_context := ic_context cache; dc_app_context := app_context |}]
    else []), delete entry H).

Definition silc_idcache_alloc (count id_type : Z) (destructor : bool)
    (destructor_context : option Z) : option SilcIDCache :=
  match silc_hash_table_alloc count (Some silc_hash_id) (Some id_type)
          (Some silc_hash_id_compare) (Some id_type) None None true,
        silc_hash_table_alloc count (Some silc_hash_utf8_string) None
          (Some silc_hash_utf8_compare) None None None true,
        silc_hash_table_alloc count (Some silc_hash_ptr) None None None None None true with
  | Some i, Some n, Some x =>
      Some {| ic_id_table := i; ic_name_table := n; ic_context_table := x;
              ic_destructor := destructor; ic_context := destructor_context;
              ic_id_type := id_type |}
  | _, _, _ => None
  end.

(** The entries stay allocated. *)
Definition silc_idcache_free (cache : SilcIDCache) (H : EntryHeap) : EntryHeap := H.

(** ** Finding *)

(** Adds an entry to the list a search returns. *)
Definition silc_idcache_get_all_foreach {K} (key : K) (context : option ptr)
    (w : option (Memory * SilcList)) : option (Memory * SilcList) :=
  match context, w with
  | Some e, Some (h, l) => silc_list_add h l e
  | _, _ => w
  end.

(** What the searches return after the traversal: the list may be empty. *)
Definition found_list (w : option (Memory * SilcList)) : bool * option (Memory * SilcList) :=
  match w with
  | Some (_, l) => (negb (silc_list_count l =? 0), w)
  | None => (false, None)
  end.

Definition silc_idcache_get_all (cache : SilcIDCache) (h : Memory) (ret_list : SilcList)
  : bool * option (Memory * SilcList) :=
  if silc_hash_table_count (ic_id_table cache) =? 0 then (false, Some (h, ret_list))
  else found_list (silc_hash_table_foreach (ic_id_table cache) (Some silc_idcache_get_all_foreach)
                     (Some (h, silc_list_init))).2.

Definition silc_idcache_find_by_id (cache : SilcIDCache) (id : SilcID) (h : Memory)
    (ret_list : SilcList) : bool * option (Memory * SilcList) :=
  if silc_hash_table_count (ic_id_table cache) =? 0 then (false, Some (h, ret_list))
  else found_list (silc_hash_table_find_foreach (ic_id_table cache) id silc_idcache_get_all_foreach
                     (Some (h, silc_list_init))).2.

Definition silc_idcache_find_by_id_one (cache : SilcIDCache) (id : SilcID) : option (option ptr) :=
  option_map he_context
    (silc_hash_table_find_ext (ic_id_table cache) id None None (Some silc_hash_id_compare_full)
       (Some (ic_id_type cache))).

Definition silc_idcache_find_by_context (cache : SilcIDCache) (context : Z) : option (option ptr) :=
  option_map he_context (silc_hash_table_find (ic_context_table cache) context).

Definition silc_idcache_find_by_name (cache : SilcIDCache) (name : list Z) (h : Memory)
    (ret_list : SilcList) : bool * option (Memory * SilcList) :=
  if silc_hash_table_count (ic_name_table cache) =? 0 then (false, Some (h, ret_list))
  else found_list (silc_hash_table_find_foreach (ic_name_table cache) name
                     silc_idcache_get_all_foreach (Some (h, silc_list_init))).2.

Definition silc_idcache_find_by_name_one (cache : SilcIDCache) (name : list Z)
  : option (option ptr) :=
  option_map he_context (silc_hash_table_find (ic_name_table cache) name).

(** ** Adding and deleting *)

(** Adds to, and deletes from, a table under a key the entry has. *)
Definition table_add {K} `{EqDecision K} (t : cache_table K) (key : option K) (e : ptr)
  : bool * cache_table K :=
  match key with Some k => silc_hash_table_add t k (Some e) | None => (true, t) end.

Definition table_del {K} `{EqDecision K} (t : cache_table K) (key : option K) (e : ptr)
  : option bool * cache_table K :=
  match key with
  | Some k => let '(ok, _, t) := silc_hash_table_del_by_context t k (Some e) in (Some ok, t)
  | None => (None, t)
  end.

(** The last of the results, when there is one. *)
Definition ret_or {A} (ret : A) (r : option A) : A := match r with Some x => x | None => ret end.

(** [err:] *)
Definition idcache_add_err (cache : SilcIDCache) (H : EntryHeap) (e : ptr) (c : SilcIDCacheEntry)
  : option ptr * SilcIDCache * EntryHeap :=
  let '(_, n) := table_del (ic_name_table cache) (ice_name c) e in
  let '(_, x) := table_del (ic_context_table cache) (ice_context c) e in
  let '(_, i) := table_del (ic_id_table cache) (ice_id c) e in
  (None, set_tables i n x cache, delete e H).

(** The allocated entry [e] into the tables, unless its full ID is there. *)
Definition idcache_add_entry (cache : SilcIDCache) (H : EntryHeap) (e : ptr) (c : SilcIDCacheEntry)
  : option ptr * SilcIDCache * EntryHeap :=
  match (match ice_id c with
         | Some id => silc_idcache_find_by_id_one cache id
         | None => None
         end) with
  | Some _ => idcache_add_err cache H e c
  | None =>
      let '(ok, i) := table_add (ic_id_table cache) (ice_id c) e in
      let cache := set_tables i (ic_name_table cache) (ic_context_table cache) cache in
      if negb ok then idcache_add_err cache H e c
      else
        let '(ok, n) := table_add (ic_name_table cache) (ice_name c) e in
        let cache := set_tables i n (ic_context_table cache) cache in
        if negb ok then idcache_add_err cache H e c
        else
          let '(ok, x) := table_add (ic_context_table cache) (ice_context c) e in
          let cache := set_tables i n x cache in
          if negb ok then idcache_add_err cache H e c else (Some e, cache, H)
  end.

(** [alloc] is what silc_calloc gives. *)
Definition silc_idcache_add (cache : SilcIDCache) (H : EntryHeap) (alloc : option ptr)
    (name : option (list Z)) (id : option SilcID) (context : option Z)
  : option ptr * SilcIDCache * EntryHeap :=
  match name, id, context, alloc with
  | None, None, None, _ | _, _, _, None => (None, cache, H)
  | _, _, _, Some e =>
      let c := {| ice_id := id; ice_name := name; ice_context := context |} in
      idcache_add_entry cache (<[e := c]> H) e c
  end.

(** [None]: the entry is not allocated. *)
Definition silc_idcache_del (cache : SilcIDCache) (H : EntryHeap) (entry : ptr)
    (app_context : option Z) : option (bool * list destructor_call * SilcIDCache * EntryHeap) :=
  match H !! entry with
  | None => None
  | Some c =>
      let '(r1, n) := table_del (ic_name_table cache) (ice_name c) entry in
      let '(r2, x) := table_del (ic_context_table cache) (ice_context c) entry in
      let '(r3, i) := table_del (ic_id_table cache) (ice_id c) entry in
      let ret := ret_or (ret_or (ret_or false r1) r2) r3 in
      let cache := set_tables i n x cache in
      let '(calls, H) :=
        if ret then silc_idcache_destructor cache entry app_context H else ([], H) in
      Some (ret, calls, cache, H)
  end.

(** A found entry is not NULL. *)
Definition del_found_entry (cache : SilcIDCache) (H : EntryHeap) (found : option (option ptr))
    (app_context : option Z) :=
  match found with
  | None => Some (false, [], cache, H)
  | Some None => None
  | Some (Some e) => silc_idcache_del cache H e app_context
  end.

Definition silc_idcache_del_by_id (cache : SilcIDCache) (H : EntryHeap) (id : SilcID)
    (app_context : option Z) :=
  del_found_entry cache H (option_map he_context (silc_hash_table_find (ic_id_table cache) id))
    app_context.

Definition silc_idcache_del_by_context (cache : SilcIDCache) (H : EntryHeap) (context : Z)
    (app_context : option Z) :=
  del_found_entry cache H
    (option_map he_context (silc_hash_table_find (ic_context_table cache) context)) app_context.

(** ** Updating and moving *)

(** An ID is assigned to the one the entry has, when the cache is of its type. *)
Definition assign_id (id_type : Z) (old new : SilcID) : SilcID :=
  if (id_type =? SILC_ID_CLIENT) || (id_type =? SILC_ID_SERVER) || (id_type =? SILC_ID_CHANNEL)
  then new else old.

Definition update_id (cache : SilcIDCache) (H : EntryHeap) (entry : ptr) (c : SilcIDCacheEntry)
    (new_id : SilcID) : bool * SilcIDCache * EntryHeap :=
  let set_id id := {| ice_id := Some id; ice_name := ice_name c; ice_context := ice_context c |} in
  let '(ok, i, c) :=
    match ice_id c with
    | Some old =>
        let '(ok, i) := table_del (ic_id_table cache) (Some old) entry in
        (ret_or false ok, i, if ret_or false ok then set_id (assign_id (ic_id_type cache) old new_id) else c)
    | None => (true, ic_id_table cache, set_id new_id)
    end in
  let H := <[entry := c]> H in
  if negb ok then (false, set_tables i (ic_name_table cache) (ic_context_table cache) cache, H)
  else
    let '(ok, i) := table_add i (ice_id c) entry in
    (ok, set_tables i (ic_name_table cache) (ic_context_table cache) cache, H).

(** [free_old_name] frees a string of the application. *)
Definition update_name (cache : SilcIDCache) (H : EntryHeap) (entry : ptr) (c : SilcIDCacheEntry)
    (new_name : list Z) : bool * SilcIDCache * EntryHeap :=
  let '(ok, n) := table_del (ic_name_table cache) (ice_name c) entry in
  if negb (ret_or true ok)
  then (false, set_tables (ic_id_table cache) n (ic_context_table cache) cache, H)
  else
    let c := {| ice_id := ice_id c; ice_name := Some new_name; ice_context := ice_context c |} in
    let '(ok, n) := table_add n (ice_name c) entry in
    (ok, set_tables (ic_id_table cache) n (ic_context_table cache) cache, <[entry := c]> H).

Definition silc_idcache_update (cache : SilcIDCache) (H : EntryHeap) (entry : ptr)
    (new_id : option SilcID) (new_name : option (list Z))
  : option (bool * SilcIDCache * EntryHeap) :=
  match H !! entry with
  | None => None
  | Some c =>
      let '(ok, cache, H) := match new_id with
                             | Some id => update_id cache H entry c id
                             | None => (true, cache, H)
                             end in
      if negb ok then Some (false, cache, H)
      else
        match new_name, H !! entry with
        | Some name, Some c => Some (update_name cache H entry c name)
        | _, _ => Some (true, cache, H)
        end
  end.

Definition silc_idcache_update_by_context (cache : SilcIDCache) (H : EntryHeap) (context : Z)
    (new_id : option SilcID) (new_name : option (list Z)) :=
  match option_map he_context (silc_hash_table_find (ic_context_table cache) context) with
  | None => Some (false, cache, H)
  | Some None => None
  | Some (Some e) => silc_idcache_update cache H e new_id new_name
  end.

(** The entry that is found in the cache it is moved from; the assertion that
    follows a duplicate ID is for debugging. *)
Definition silc_idcache_move (from_cache to_cache : SilcIDCache) (H : EntryHeap) (entry : ptr)
  : option (bool * SilcIDCache * SilcIDCache) :=
  if negb (ic_id_type from_cache =? ic_id_type to_cache) then Some (false, from_cache, to_cache)
  else
    match H !! entry with
    | None => None
    | Some ent =>
        let found :=
          match ice_context ent, ice_name ent, ice_id ent with
          | Some x, _, _ => option_map he_context (silc_hash_table_find (ic_context_table from_cache) x)
          | None, Some n, _ => option_map he_context (silc_hash_table_find (ic_name_table from_cache) n)
          | None, None, Some i => option_map he_context (silc_hash_table_find (ic_id_table from_cache) i)
          | None, None, None => None
          end in
        if negb (bool_decide (found = Some (Some entry))) then Some (false, from_cache, to_cache)
        else
          match (match ice_id ent with
                 | Some id => silc_idcache_find_by_id_one to_cache id
                 | None => None
                 end) with
          | Some _ => Some (false, from_cache, to_cache)
          | None =>
              let '(_, n) := table_del (ic_name_table from_cache) (ice_name ent) entry in
              let '(_, x) := table_del (ic_context_table from_cache) (ice_context ent) entry in
              let '(_, i) := table_del (ic_id_table from_cache) (ice_id ent) entry in
              let '(_, ti) := table_add (ic_id_table to_cache) (ice_id ent) entry in
              let '(_, tn) := table_add (ic_name_table to_cache) (ice_name ent) entry in
              let '(_, tx) := table_add (ic_context_table to_cache) (ice_context ent) entry in
              Some (true, set_tables i n x from_cache, set_tables ti tn tx to_cache)
          end
    end.
