(* ===== verification/IdCacheSpec.v ===== *)
(** The tables of an ID cache agree: they hold exactly the entries of the cache,
    all of which are allocated, and the searches find exactly the entries that
    match. *)

From stdpp Require Import gmap sets list strings.
From S2P Require Import Prelude CTypes Id HashTable HashTableSpec HashKeys SilcList IdCache.

(** * One table *)

Section table.
Context {K : Type} `{EqDecision K}.
Context (hash : SilcHashFunction K Z) (hctx : option Z) (cmp : option (SilcHashCompare K Z))
  (cctx : option Z) `{!HashLaws hash hctx cmp cctx} (field : SilcIDCacheEntry -> option K).
Implicit Types (t : cache_table K) (M : EntryHeap) (e : ptr) (c : SilcIDCacheEntry).
Abbreviation entry := (SilcHashTableEntry K ptr).

Definition table_entry (ec : ptr * SilcIDCacheEntry) : list entry :=
  match field ec.2 with
  | Some k => [{| he_key := k; he_context := Some ec.1 |}]
  | None => []
  end.

(** What the table holds for a set of entries. *)
Definition entries_of M : list entry := concat (map table_entry (map_to_list M)).

Record table_rep t M (L : list entry) : Prop := {
  tr_configured : configured hash hctx cmp cctx None None t;
  tr_represents : represents hash hctx cmp cctx t L;
  tr_entries : L ≡ₚ entries_of M;
}.

#[local] Instance concat_map_proper :
  Proper ((≡ₚ) ==> (≡ₚ)) (fun l => concat (map table_entry l)).
Proof. intros l k E. by rewrite E. Qed.

Lemma entries_insert M e c :
  M !! e = None -> entries_of (<[e := c]> M) ≡ₚ table_entry (e, c) ++ entries_of M.
Proof. intros He. unfold entries_of. by rewrite (map_to_list_insert _ _ _ He). Qed.

Lemma entries_delete M e c :
  M !! e = Some c -> entries_of M ≡ₚ table_entry (e, c) ++ entries_of (delete e M).
Proof. intros He. unfold entries_of. by rewrite <- (map_to_list_delete _ _ _ He). Qed.

Lemma entries_update M e c c' :
  M !! e = Some c -> field c' = field c -> entries_of (<[e := c']> M) ≡ₚ entries_of M.
Proof.
  intros He Hf. rewrite <- insert_delete_eq, entries_insert by apply lookup_delete_eq.
  rewrite (entries_delete M e c He). unfold table_entry. cbn [snd fst]. by rewrite Hf.
Qed.

Lemma in_entries M x :
  In x (entries_of M) <->
  exists e c, M !! e = Some c /\ field c = Some (he_key x) /\ he_context x = Some e.
Proof.
  unfold entries_of. rewrite in_concat. split.
  - intros (l & Hl & Hx). apply in_map_iff in Hl as ([e c] & <- & Hin).
    apply list_elem_of_In, elem_of_map_to_list in Hin. unfold table_entry in Hx. cbn in Hx.
    destruct (field c) eqn:E; [|done]. destruct Hx as [<-|[]]. by exists e, c.
  - intros (e & c & He & Hk & Hc). exists (table_entry (e, c)). split.
    + apply in_map, list_elem_of_In. by apply elem_of_map_to_list.
    + unfold table_entry. cbn. rewrite Hk. left. destruct x. cbn in *. congruence.
Qed.

Lemma table_add_rep t M L e c :
  table_rep t M L -> M !! e = None ->
  let '(ok, t') := table_add t (field c) e in
  ok = true /\ exists L', table_rep t' (<[e := c]> M) L'.
Proof.
  intros [Hc Hr Hp] He. pose proof (entries_insert M e c He) as E. unfold table_entry in E. cbn in E.
  unfold table_add. destruct (field c) as [k|] eqn:Ef.
  - pose proof (add_represents hash hctx cmp cctx None None t L k (Some e) Hc Hr) as H.
    destruct (silc_hash_table_add _ _ _) as [ok t']. destruct H as (-> & Hc' & Hr').
    split; [done|]. eexists. split; [done..|]. rewrite E, Hp. by rewrite Permutation_app_comm.
  - split; [done|]. exists L. split; [done..|]. by rewrite E.
Qed.

Lemma table_del_rep t M L e c :
  table_rep t M L -> M !! e = Some c ->
  let '(ok, t') := table_del t (field c) e in
  ok = option_map (fun _ => true) (field c) /\ exists L', table_rep t' (delete e M) L'.
Proof.
  intros [Hc Hr Hp] He. pose proof (entries_delete M e c He) as E. unfold table_entry in E. cbn in E.
  unfold table_del. destruct (field c) as [k|] eqn:Ef; cbn [option_map].
  - set (p := fun x : entry => keys_equal cmp cctx (he_key x) k && bool_decide (he_context x = Some e)).
    assert (In {| he_key := k; he_context := Some e |} (List.filter p L)) as Hin.
    { apply filter_In. split; [eapply Permutation_in; [symmetry; exact Hp|]; apply in_entries; by exists e, c|].
      unfold p. cbn. by rewrite equal_refl, bool_decide_eq_true_2. }
    pose proof (delete_represents hash hctx cmp cctx None None t L k p Hc Hr
      ltac:(by intros x [? _]%andb_true_iff)) as H.
    unfold silc_hash_table_del_by_context, silc_hash_table_find_internal_context.
    pose proof Hc as (-> & -> & -> & -> & _).
    replace (match cmp with Some _ => cmp | None => None end) with cmp by by destruct cmp.
    cbv zeta in H |- *. fold p. destruct (del_found _ _ _) as [[ok calls] t'].
    unfold spec_delete in H. destruct (List.filter p L) as [|x tl] eqn:Ex; [done|].
    destruct H as ([= <- <-] & Hc' & Hr'). split; [done|].
    exists (remove_first p L). split; [done..|].
    assert (x = {| he_key := k; he_context := Some e |}) as ->.
    { assert (In x (List.filter p L)) as Hx by (rewrite Ex; by left).
      apply filter_In in Hx as [Hx Hpx]. apply andb_true_iff in Hpx as [_ Hpx%bool_decide_eq_true_1].
      eapply Permutation_in in Hx; [|exact Hp]. apply in_entries in Hx as (e' & c' & He' & Hk & Hx).
      destruct x as [kx cx]. cbn in *. rewrite Hpx in Hx. injection Hx as <-.
      rewrite He in He'. injection He' as <-. congruence. }
    apply (Permutation_cons_inv (a := {| he_key := k; he_context := Some e |})).
    rewrite <- (remove_first_perm p L _ tl Ex), Hp. exact E.
  - split; [done|]. exists L. split; [done..|]. by rewrite Hp, E.
Qed.

(** An entry that is not in the table is not deleted from it. *)
Lemma table_del_missing t M L e k :
  table_rep t M L -> M !! e = None ->
  let '(ok, t') := table_del t k e in
  ok = option_map (fun _ => false) k /\ exists L', table_rep t' M L'.
Proof.
  intros [Hc Hr Hp] He. unfold table_del. destruct k as [k|]; cbn [option_map]; [|by eauto using table_rep].
  set (p := fun x : entry => keys_equal cmp cctx (he_key x) k && bool_decide (he_context x = Some e)).
  pose proof (delete_represents hash hctx cmp cctx None None t L k p Hc Hr
    ltac:(by intros x [? _]%andb_true_iff)) as H.
  unfold silc_hash_table_del_by_context, silc_hash_table_find_internal_context.
  pose proof Hc as (-> & -> & -> & -> & _).
  replace (match cmp with Some _ => cmp | None => None end) with cmp by by destruct cmp.
  cbv zeta in H |- *. fold p. destruct (del_found _ _ _) as [[ok calls] t'].
  unfold spec_delete in H. rewrite filter_none in H.
  - destruct H as ([= <- <-] & ? & ?). split; [done|]. by exists L.
  - intros x Hx. eapply Permutation_in in Hx; [|exact Hp].
    apply in_entries in Hx as (e' & c' & He' & _ & Hx). unfold p. apply andb_false_iff. right.
    apply bool_decide_eq_false_2. congruence.
Qed.

Lemma table_rep_update t M L e c c' :
  table_rep t M L -> M !! e = Some c -> field c' = field c -> table_rep t (<[e := c']> M) L.
Proof. intros [? ? Hp] He Hf. split; [done..|]. by rewrite (entries_update M e c c'). Qed.

(** The first entry of a selection with one key. *)
Lemma select_found M L (p : entry -> bool) :
  L ≡ₚ entries_of M ->
  match option_map he_context (head (List.filter p L)) with
  | Some (Some e) => exists c k, M !! e = Some c /\ field c = Some k /\
                       p {| he_key := k; he_context := Some e |} = true
  | Some None => False
  | None => forall e c k, M !! e = Some c -> field c = Some k ->
              p {| he_key := k; he_context := Some e |} = false
  end.
Proof.
  intros Hp. destruct (List.filter p L) as [|x tl] eqn:E; cbn.
  - intros e c k He Hk. destruct (p _) eqn:Ep; [|done]. exfalso.
    assert (In {| he_key := k; he_context := Some e |} (List.filter p L)) as Hin.
    { apply filter_In. split; [|done]. eapply Permutation_in; [by symmetry|].
      apply in_entries. by exists e, c. }
    by rewrite E in Hin.
  - assert (In x (List.filter p L)) as Hx by (rewrite E; by left).
    apply filter_In in Hx as [Hx Hpx]. eapply Permutation_in in Hx; [|exact Hp].
    apply in_entries in Hx as (e & c & He & Hk & Hx). destruct x as [k cx]. cbn in *. subst cx.
    by exists c, k.
Qed.

(** The table of a cache that was just allocated. *)
Lemma table_alloc_rep size t :
  silc_hash_table_alloc size (Some hash) hctx cmp cctx None None true = Some t ->
  table_rep t ∅ [].
Proof.
  intros [Hc Hr]%(alloc_represents hash hctx cmp cctx None None). split; [done..|].
  unfold entries_of. by rewrite map_to_list_empty.
Qed.
End table.

(** * The cache *)

Definition silc_type (type : Z) : Prop :=
  type = SILC_ID_SERVER \/ type = SILC_ID_CLIENT \/ type = SILC_ID_CHANNEL.

Lemma id_laws type :
  silc_type type -> HashLaws silc_hash_id (Some type) (Some silc_hash_id_compare) (Some type).
Proof.
  intros [-> | [-> | ->]]; [|apply client_id_keys|]; by apply whole_id_keys.
Qed.

Abbreviation id_rep type :=
  (table_rep silc_hash_id (Some type) (Some silc_hash_id_compare) (Some type) ice_id).
Abbreviation name_rep :=
  (table_rep silc_hash_utf8_string None (Some silc_hash_utf8_compare) None ice_name).
Abbreviation context_rep := (table_rep silc_hash_ptr None None None ice_context).

(** An entry has an ID, a name or a context. *)
Definition has_key (c : SilcIDCacheEntry) : Prop :=
  ice_id c <> None \/ ice_name c <> None \/ ice_context c <> None.

(** The three tables hold the entries [M], each under the keys it has. *)
Record cache_rep (c : SilcIDCache) (M : EntryHeap) : Prop := {
  cr_type : silc_type (ic_id_type c);
  cr_id : exists L, id_rep (ic_id_type c) (ic_id_table c) M L;
  cr_name : exists L, name_rep (ic_name_table c) M L;
  cr_context : exists L, context_rep (ic_context_table c) M L;
  cr_keys e ent : M !! e = Some ent -> has_key ent;
}.

Lemma idcache_alloc_rep count type des dctx c :
  silc_type type -> silc_idcache_alloc count type des dctx = Some c -> cache_rep c ∅.
Proof.
  intros Ht. unfold silc_idcache_alloc.
  destruct (silc_hash_table_alloc _ _ _ _ _ _ _ _) as [i|] eqn:Ei; [|done].
  destruct (silc_hash_table_alloc _ (Some silc_hash_utf8_string) _ _ _ _ _ _) as [n|] eqn:En; [|done].
  destruct (silc_hash_table_alloc _ (Some silc_hash_ptr) _ _ _ _ _ _) as [x|] eqn:Ex; [|done].
  intros [= <-]. pose proof (id_laws _ Ht). split; cbn; [done|..|by intros e ent ?%lookup_empty_Some];
    (eexists; by eapply table_alloc_rep).
Qed.

(** ** Searches *)

(** Full IDs that are equal have equal keys in the table. *)
Lemma full_same_key type id1 id2 :
  silc_type type -> silc_hash_id_compare_full id1 id2 (Some type) = true ->
  silc_hash_id_compare id1 id2 (Some type) = true.
Proof.
  intros Ht. unfold silc_hash_id_compare_full, silc_hash_id_compare, SILC_ID_COMPARE_TYPE.
  intros E%bool_decide_eq_true_1. destruct (_ =? _); [|by apply bool_decide_eq_true_2].
  unfold SILC_ID_COMPARE_HASH. apply bool_decide_eq_true_2.
  injection E as Et Es. destruct id1, id2; try done; cbn in *;
    try (by apply ip_struct_inj in Es as (_ & _ & [= _ ?]));
    apply (f_equal length) in Es; rewrite ?length_app in Es; cbn in Es; lia.
Qed.

Lemma find_by_id_one_spec c M id :
  cache_rep c M ->
  match silc_idcache_find_by_id_one c id with
  | Some (Some e) => exists ent id', M !! e = Some ent /\ ice_id ent = Some id' /\
                       SILC_ID_COMPARE_TYPE id' id (ic_id_type c) = true
  | Some None => False
  | None => forall e ent id', M !! e = Some ent -> ice_id ent = Some id' ->
              SILC_ID_COMPARE_TYPE id' id (ic_id_type c) = false
  end.
Proof.
  intros [Ht (L & [Hc Hr Hp]) _ _ _]. pose proof (id_laws _ Ht) as Laws.
  unfold silc_idcache_find_by_id_one, silc_hash_table_find_ext, silc_hash_table_find_internal_simple.
  cbn [fun_or ptr_or]. pose proof Hc as (-> & -> & _).
  rewrite (find_represents silc_hash_id (Some (ic_id_type c)) (Some silc_hash_id_compare)
    (Some (ic_id_type c)) _ L id _ Hr).
  - exact (select_found ice_id M L _ Hp).
  - intros e He. cbn [keys_equal] in He. unfold same_key. cbn [keys_equal].
    by apply full_same_key.
Qed.

(** The first entry of a table found by its key. *)
Lemma table_find_spec {K} `{EqDecision K} hash hctx cmp cctx field (t : cache_table K) M L k
    `{!HashLaws hash hctx cmp cctx} :
  table_rep hash hctx cmp cctx field t M L ->
  match option_map he_context (silc_hash_table_find t k) with
  | Some (Some e) => exists c k', M !! e = Some c /\ field c = Some k' /\
                       keys_equal cmp cctx k' k = true
  | Some None => False
  | None => forall e c k', M !! e = Some c -> field c = Some k' -> keys_equal cmp cctx k' k = false
  end.
Proof.
  intros [Hc Hr Hp]. unfold silc_hash_table_find, silc_hash_table_find_ext.
  unfold silc_hash_table_find_internal_simple. cbn [fun_or ptr_or]. pose proof Hc as (-> & -> & -> & -> & _).
  rewrite (find_represents hash hctx cmp cctx t L k _ Hr) by done.
  exact (select_found field M L _ Hp).
Qed.

(** The callback of the searches makes a list of the entries. *)
Lemma get_all_entries {K} (l : list (SilcHashTableEntry K ptr)) (es : list ptr) h L l0 :
  map he_context l = map Some es -> list_rep h L l0 -> NoDup (l0 ++ es) ->
  exists h' L',
    foldl (fun w e => silc_idcache_get_all_foreach (he_key e) (he_context e) w) (Some (h, L)) l =
      Some (h', L') /\ list_rep h' L' (l0 ++ es).
Proof.
  revert es h L l0; induction l as [|[k x] l IH]; intros [|e es] h L l0; try done; cbn.
  - intros _ Hr _. exists h, L. by rewrite app_nil_r.
  - intros [= -> Hes] Hr Hn.
    assert (e ∉ l0) as He.
    { apply list.NoDup_app in Hn as (_ & Hd & _). intros Hin. eapply Hd; [exact Hin|by left]. }
    change (silc_idcache_get_all_foreach k (Some e) (Some (h, L))) with (silc_list_add h L e).
    destruct (silc_list_add_rep h L l0 e Hr He) as (h' & L' & -> & Hr' & _).
    rewrite (cons_middle e l0 es), app_assoc in *. by apply IH.
Qed.

(** The entries of a part of a table. *)
Definition contexts {K} (l : list (SilcHashTableEntry K ptr)) : list ptr :=
  omap he_context l.

Lemma contexts_entries {K} (field : SilcIDCacheEntry -> option K) M L (p : SilcHashTableEntry K ptr -> bool) :
  L ≡ₚ entries_of field M ->
  map he_context (List.filter p L) = map Some (contexts (List.filter p L)) /\
  NoDup (contexts (List.filter p L)).
Proof.
  intros Hp. split.
  - assert (forall x, In x (List.filter p L) -> exists e, he_context x = Some e) as H.
    { intros x [Hx _]%filter_In. eapply Permutation_in in Hx; [|exact Hp].
      apply in_entries in Hx as (e & c & _ & _ & Hx). by exists e. }
    unfold contexts. induction (List.filter p L) as [|x l IH]; [done|]. cbn.
    destruct (H x) as [e He]; [by left|]. rewrite He. cbn. f_equal. apply IH. intros y Hy. apply H. by right.
  - assert (NoDup (contexts (entries_of field M))) as Hn.
    { unfold contexts, entries_of. pose proof (NoDup_fst_map_to_list M) as Hn. revert Hn.
      induction (map_to_list M) as [|[e c] l IH]; cbn; [constructor|].
      intros [Hin Hn]%list.NoDup_cons. unfold table_entry at 1. cbn. destruct (field c); [|by apply IH].
      cbn. apply list.NoDup_cons. split; [|by apply IH]. intros Hx. apply Hin.
      clear -Hx. induction l as [|[e' c'] l IH]; cbn in *; [by apply elem_of_nil in Hx|].
      unfold table_entry at 1 in Hx. cbn in Hx. destruct (field c'); cbn in Hx.
      - apply elem_of_cons in Hx as [->|Hx]; [by left|right; by apply IH].
      - right. by apply IH. }
    unfold contexts in *. rewrite <- Hp in Hn. clear Hp.
    induction L as [|x L IH]; cbn; [constructor|]. cbn in Hn.
    destruct (he_context x) as [e|] eqn:Ex; cbn in Hn.
    + apply list.NoDup_cons in Hn as [Hin Hn]. destruct (p x); cbn; [rewrite Ex|by apply IH].
      apply list.NoDup_cons. split; [|by apply IH]. intros Hx. apply Hin.
      apply list_elem_of_omap in Hx as (y & Hy & Hye). apply list_elem_of_omap. exists y. split; [|done].
      apply list_elem_of_In in Hy. apply filter_In in Hy as [Hy _]. by apply list_elem_of_In.
    + destruct (p x); cbn; [rewrite Ex|]; by apply IH.
Qed.

Lemma entries_length {K} (field : SilcIDCacheEntry -> option K) M :
  (length (entries_of field M) <= size M)%nat.
Proof.
  unfold entries_of. rewrite <- length_map_to_list.
  induction (map_to_list M) as [|[e c] l IH]; [done|]. cbn. rewrite length_app.
  unfold table_entry at 1. cbn. destruct (field c); cbn; lia.
Qed.

Lemma filter_length {A} (p : A -> bool) l : (length (List.filter p l) <= length l)%nat.
Proof. induction l as [|x l IH]; cbn; [done|]. destruct (p x); cbn; lia. Qed.

Lemma in_contexts {K} (field : SilcIDCacheEntry -> option K) M L p e :
  L ≡ₚ entries_of field M ->
  e ∈ contexts (List.filter p L) <->
  exists c k, M !! e = Some c /\ field c = Some k /\ p {| he_key := k; he_context := Some e |} = true.
Proof.
  intros Hp. unfold contexts. rewrite list_elem_of_omap. split.
  - intros ([k x] & Hx%list_elem_of_In & He). apply filter_In in Hx as [Hx Hpx]. cbn in He. subst x.
    eapply Permutation_in in Hx; [|exact Hp]. apply in_entries in Hx as (e' & c & He & Hk & [= <-]).
    by exists c, k.
  - intros (c & k & He & Hk & Hpk). exists {| he_key := k; he_context := Some e |}. split; [|done].
    apply list_elem_of_In, filter_In. split; [|done].
    eapply Permutation_in; [symmetry; exact Hp|]. apply in_entries. by exists e, c.
Qed.

(** What a search gives: the entries [es], whether there are any, and the list of
    them. *)
Definition search_result (r : bool * option (Memory * SilcList)) (P : ptr -> Prop) : Prop :=
  exists es, (forall e, e ∈ es <-> P e) /\ r.1 = negb (bool_decide (es = [])) /\ r.2 <> None /\
    (r.1 = true -> exists h L, r.2 = Some (h, L) /\ list_rep h L es).

(** The list of a selection, after the traversal. *)
Lemma selection_result {K} (field : SilcIDCacheEntry -> option K) M L h
    (p : SilcHashTableEntry K ptr -> bool) w :
  L ≡ₚ entries_of field M -> Z.of_nat (size M) < 2 ^ 30 ->
  w = foldl (fun w e => silc_idcache_get_all_foreach (he_key e) (he_context e) w)
        (Some (h, silc_list_init)) (List.filter p L) ->
  search_result (found_list w)
    (fun e => exists c k, M !! e = Some c /\ field c = Some k /\
       p {| he_key := k; he_context := Some e |} = true).
Proof.
  intros Hp Hs ->. destruct (contexts_entries field M L p Hp) as [Hm Hn].
  destruct (get_all_entries (List.filter p L) (contexts (List.filter p L)) h silc_list_init []
    Hm (proj1 (list_init_rep h)) Hn) as (h' & L' & -> & Hr). cbn [app] in Hr.
  exists (contexts (List.filter p L)). split; [intros e; by apply in_contexts|].
  cbn [found_list fst snd]. split; [|by split; [|eauto]].
  unfold silc_list_count. rewrite (lr_count _ _ _ Hr). f_equal.
  pose proof (filter_length p L). pose proof (entries_length field M).
  pose proof (Permutation_length Hp).
  assert (length (contexts (List.filter p L)) = length (List.filter p L)) as El
    by (apply (f_equal length) in Hm; rewrite !length_map in Hm; done).
  unfold bits30. rewrite Z.mod_small by lia.
  destruct (contexts (List.filter p L)); [done|]. rewrite bool_decide_eq_false_2 by done.
  apply Z.eqb_neq. cbn. lia.
Qed.

Lemma empty_count {K} `{EqDecision K} hash hctx cmp cctx (field : SilcIDCacheEntry -> option K)
    (t : cache_table K) M L :
  table_rep hash hctx cmp cctx field t M L -> Z.of_nat (size M) < 2 ^ 30 ->
  silc_hash_table_count t = 0 -> L = [].
Proof.
  intros [_ [Hwf _ Hp0] Hp] Hs E. unfold silc_hash_table_count in E.
  rewrite (wf_count _ _ _ Hwf) in E. pose proof (Permutation_length Hp0).
  pose proof (Permutation_length Hp). pose proof (entries_length field M).
  rewrite u32_id in E by lia. apply zlen_0_nil. lia.
Qed.

Lemma find_list_spec {K} `{EqDecision K} hash hctx cmp cctx `{!HashLaws hash hctx cmp cctx}
    (field : SilcIDCacheEntry -> option K) (t : cache_table K) M L k h ret_list :
  table_rep hash hctx cmp cctx field t M L -> Z.of_nat (size M) < 2 ^ 30 ->
  search_result
    (if silc_hash_table_count t =? 0 then (false, Some (h, ret_list))
     else found_list (silc_hash_table_find_foreach t k silc_idcache_get_all_foreach
                        (Some (h, silc_list_init))).2)
    (fun e => exists c k', M !! e = Some c /\ field c = Some k' /\ keys_equal cmp cctx k' k = true).
Proof.
  intros Hr Hs. destruct (Z.eqb_spec (silc_hash_table_count t) 0) as [E|_].
  - pose proof (empty_count _ _ _ _ _ _ _ _ Hr Hs E) as ->. destruct Hr as [_ _ Hp].
    exists []. split; [|done]. intros e. split; [by intros ?%elem_of_nil|].
    intros (c & k' & He & Hk & _). exfalso.
    assert (In {| he_key := k'; he_context := Some e |} (entries_of field M)) as Hin
      by (apply in_entries; by exists e, c).
    by eapply Permutation_in in Hin; [|symmetry; exact Hp].
  - destruct Hr as [Hc Hr Hp].
    rewrite (find_foreach_calls hash hctx cmp cctx None None _ _ t L k Hc Hr). cbn [snd].
    apply (selection_result field M L h (same_key cmp cctx k) _ Hp Hs).
    by destruct (List.filter _ L).
Qed.

Lemma filter_all {A} (l : list A) : List.filter (fun _ => true) l = l.
Proof. induction l as [|x l IH]; cbn; congruence. Qed.

Lemma get_all_spec c M h ret_list :
  cache_rep c M -> Z.of_nat (size M) < 2 ^ 30 ->
  search_result (silc_idcache_get_all c h ret_list)
    (fun e => exists ent, M !! e = Some ent /\ ice_id ent <> None).
Proof.
  intros [_ (L & Hr) _ _ _] Hs. unfold silc_idcache_get_all. pose proof Hr as [_ [_ _ Hp0] Hp].
  assert (forall es : list ptr, (forall e, e ∈ es <-> exists ent k, M !! e = Some ent /\ ice_id ent = Some k /\ true = true) ->
    forall e, e ∈ es <-> exists ent, M !! e = Some ent /\ ice_id ent <> None) as K.
  { intros es Hes e. rewrite Hes. split.
    - intros (ent & k & ? & ? & _). exists ent. split; [done|congruence].
    - intros (ent & ? & Hid). destruct (ice_id ent) as [k|] eqn:Ek; [|done]. by exists ent, k. }
  destruct (Z.eqb_spec (silc_hash_table_count (ic_id_table c)) 0) as [E|_].
  - pose proof (empty_count _ _ _ _ _ _ _ _ Hr Hs E) as ->. exists []. split; [|done]. apply K.
    intros e. split; [by intros ?%elem_of_nil|]. intros (ent & k & He & Hk & _). exfalso.
    assert (In {| he_key := k; he_context := Some e |} (entries_of ice_id M)) as Hin
      by (apply in_entries; by exists e, ent).
    by eapply Permutation_in in Hin; [|symmetry; exact Hp].
  - rewrite foreach_calls. cbn [snd].
    destruct (selection_result ice_id M (concat (ht_table (ic_id_table c))) h (fun _ => true) _
      ltac:(by rewrite Hp0) Hs eq_refl) as (es & Hes & H1 & H2).
    rewrite filter_all in H1, H2. exists es. split; [by apply K|done].
Qed.

(** ** Operations *)

(** A cache with other tables. *)
Lemma cache_rep_tables c i n x (M' : EntryHeap) :
  silc_type (ic_id_type c) -> (exists L, id_rep (ic_id_type c) i M' L) -> (exists L, name_rep n M' L) ->
  (exists L, context_rep x M' L) -> (forall e ent, M' !! e = Some ent -> has_key ent) ->
  cache_rep (set_tables i n x c) M'.
Proof. by split. Qed.

Lemma idcache_add_err_rep c (M : EntryHeap) e ent :
  cache_rep c M -> M !! e = None ->
  let '(r, c', M') := idcache_add_err c (<[e := ent]> M) e ent in
  r = None /\ M' = M /\ cache_rep c' M.
Proof.
  intros [Ht [Li Hi] [Ln Hn] [Lx Hx] Hk] He. unfold idcache_add_err.
  pose proof (id_laws _ Ht).
  pose proof (table_del_missing _ _ _ _ _ _ _ _ e (ice_name ent) Hn He) as Dn.
  destruct (table_del (ic_name_table c) _ _) as [? n]. destruct Dn as [_ Dn].
  pose proof (table_del_missing _ _ _ _ _ _ _ _ e (ice_context ent) Hx He) as Dx.
  destruct (table_del (ic_context_table c) _ _) as [? x]. destruct Dx as [_ Dx].
  pose proof (table_del_missing _ _ _ _ _ _ _ _ e (ice_id ent) Hi He) as Di.
  destruct (table_del (ic_id_table c) _ _) as [? i]. destruct Di as [_ Di].
  split_and!; [done|by apply delete_insert_id|by apply cache_rep_tables].
Qed.

(** The full ID is not in the cache. *)
Definition id_free (type : Z) (M : EntryHeap) (id : option SilcID) : Prop :=
  forall i e ent i', id = Some i -> M !! e = Some ent -> ice_id ent = Some i' ->
    SILC_ID_COMPARE_TYPE i' i type = false.

Lemma idcache_add_entry_rep c (M : EntryHeap) e ent :
  cache_rep c M -> M !! e = None -> has_key ent ->
  let '(r, c', M') := idcache_add_entry c (<[e := ent]> M) e ent in
  cache_rep c' M' /\ ic_id_type c' = ic_id_type c /\
  match r with
  | Some e' => e' = e /\ M' = <[e := ent]> M /\ id_free (ic_id_type c) M (ice_id ent)
  | None => M' = M /\ ~ id_free (ic_id_type c) M (ice_id ent)
  end.
Proof.
  intros Hc He Hkey. unfold idcache_add_entry. pose proof (idcache_add_err_rep c M e ent Hc He) as Err.
  destruct (match ice_id ent with Some i => _ | None => None end) as [found|] eqn:Ef.
  - unfold idcache_add_err in *. destruct (table_del _ _ _), (table_del _ _ _), (table_del _ _ _).
    destruct Err as (_ & -> & ?). split_and!; try done. intros Hfree.
    destruct (ice_id ent) as [i|] eqn:Ei; [|done]. pose proof (find_by_id_one_spec c M i Hc) as F.
    rewrite Ef in F. destruct found as [e'|]; [|done]. destruct F as (ent' & i' & He' & Hi' & Heq).
    specialize (Hfree i e' ent' i' eq_refl He' Hi'). congruence.
  - assert (id_free (ic_id_type c) M (ice_id ent)) as Free.
    { intros i e' ent' i' Ei He' Hi'. rewrite Ei in Ef.
      pose proof (find_by_id_one_spec c M i Hc) as F. rewrite Ef in F. by eapply F. }
    destruct Hc as [Ht [Li Hi] [Ln Hn] [Lx Hx] Hk]. pose proof (id_laws _ Ht).
    pose proof (table_add_rep _ _ _ _ _ _ _ _ e ent Hi He) as Ai.
    destruct (table_add (ic_id_table c) _ e) as [ok i]. destruct Ai as [-> Ai].
    pose proof (table_add_rep _ _ _ _ _ _ _ _ e ent Hn He) as An.
    cbn [negb ic_name_table set_tables]. destruct (table_add (ic_name_table c) _ e) as [ok n].
    destruct An as [-> An].
    pose proof (table_add_rep _ _ _ _ _ _ _ _ e ent Hx He) as Ax.
    cbn [negb ic_context_table set_tables]. destruct (table_add (ic_context_table c) _ e) as [ok x].
    destruct Ax as [-> Ax]. cbn [negb]. split; [|done]. apply cache_rep_tables; try done.
    intros e' ent' [[_ <-]|[_ ?]]%lookup_insert_Some; [done|by eapply Hk].
Qed.

Lemma silc_idcache_add_rep c (M : EntryHeap) e name id context :
  cache_rep c M -> M !! e = None ->
  let ent := {| ice_id := id; ice_name := name; ice_context := context |} in
  let '(r, c', M') := silc_idcache_add c M (Some e) name id context in
  cache_rep c' M' /\ ic_id_type c' = ic_id_type c /\
  match r with
  | Some e' => e' = e /\ M' = <[e := ent]> M /\ id_free (ic_id_type c) M id
  | None => M' = M /\ (has_key ent -> ~ id_free (ic_id_type c) M id)
  end.
Proof.
  intros Hc He ent. pose proof (idcache_add_entry_rep c M e ent Hc He) as Main.
  assert (has_key ent \/ (name = None /\ id = None /\ context = None)) as [Hk|(-> & -> & ->)]
    by (unfold has_key; destruct name, id, context; cbn; naive_solver).
  - specialize (Main Hk). unfold silc_idcache_add.
    replace (match name, id, context with None, None, None => _ | _, _, _ => _ end)
      with (idcache_add_entry c (<[e := ent]> M) e ent)
      by (unfold has_key in Hk; destruct name, id, context; cbn in *; naive_solver).
    destruct (idcache_add_entry _ _ _ _) as [[[e'|] c'] M']; naive_solver.
  - split; [done|]. split; [done|]. split; [done|]. unfold has_key. cbn. naive_solver.
Qed.

Lemma silc_idcache_del_rep c (M : EntryHeap) e ent app :
  cache_rep c M -> M !! e = Some ent ->
  exists c', silc_idcache_del c M e app =
    Some (true, (if ic_destructor c
                 then [{| dc_entry := e; dc_context := ic_context c; dc_app_context := app |}]
                 else []), c', delete e M) /\
    cache_rep c' (delete e M) /\ ic_id_type c' = ic_id_type c.
Proof.
  intros [Ht [Li Hi] [Ln Hn] [Lx Hx] Hk] He. unfold silc_idcache_del. rewrite He.
  pose proof (id_laws _ Ht).
  pose proof (table_del_rep _ _ _ _ _ _ _ _ e ent Hn He) as Dn.
  destruct (table_del (ic_name_table c) _ _) as [rn n]. destruct Dn as [-> Dn].
  pose proof (table_del_rep _ _ _ _ _ _ _ _ e ent Hx He) as Dx.
  destruct (table_del (ic_context_table c) _ _) as [rx x]. destruct Dx as [-> Dx].
  pose proof (table_del_rep _ _ _ _ _ _ _ _ e ent Hi He) as Di.
  destruct (table_del (ic_id_table c) _ _) as [ri i]. destruct Di as [-> Di].
  assert (ret_or (ret_or (ret_or false (option_map (fun _ => true) (ice_name ent)))
    (option_map (fun _ => true) (ice_context ent))) (option_map (fun _ => true) (ice_id ent)) = true) as ->.
  { specialize (Hk _ _ He). unfold has_key in Hk.
    destruct (ice_name ent), (ice_context ent), (ice_id ent); cbn; tauto. }
  unfold silc_idcache_destructor. cbn [ic_destructor ic_context set_tables].
  eexists. split; [done|]. split; [|done]. apply cache_rep_tables; try done.
  intros e' ent' [_ ?]%lookup_delete_Some. by eapply Hk.
Qed.

Lemma update_id_rep c (M : EntryHeap) e ent id :
  cache_rep c M -> M !! e = Some ent ->
  let '(ok, c', M') := update_id c M e ent id in
  ok = true /\ cache_rep c' M' /\ ic_id_type c' = ic_id_type c /\
  M' = <[e := {| ice_id := Some id; ice_name := ice_name ent; ice_context := ice_context ent |}]> M.
Proof.
  intros [Ht [Li Hi] [Ln Hn] [Lx Hx] Hk] He. unfold update_id. pose proof (id_laws _ Ht).
  set (ent' := {| ice_id := Some id; ice_name := ice_name ent; ice_context := ice_context ent |}).
  pose proof (table_del_rep _ _ _ _ _ _ _ _ e ent Hi He) as Di.
  assert (exists i L, match ice_id ent with
      | Some old => let '(ok, i) := table_del (ic_id_table c) (Some old) e in
          (ret_or false ok, i, if ret_or false ok
            then {| ice_id := Some (assign_id (ic_id_type c) old id); ice_name := ice_name ent;
                    ice_context := ice_context ent |} else ent)
      | None => (true, ic_id_table c, ent')
      end = (true, i, ent') /\ id_rep (ic_id_type c) i (delete e M) L) as (i & L & -> & Hi').
  { destruct (ice_id ent) as [old|].
    - destruct (table_del _ _ _) as [ok i]. destruct Di as [-> [L Di]]. exists i, L. cbn.
      assert (assign_id (ic_id_type c) old id = id) as ->
        by (unfold assign_id; destruct Ht as [-> | [-> | ->]]; done). done.
    - cbn in Di. destruct Di as [_ [L Di]]. by exists (ic_id_table c), L. }
  cbn [negb]. pose proof (table_add_rep _ _ _ _ _ _ _ _ e ent' Hi' (lookup_delete_eq _ _)) as Ai.
  destruct (table_add i (ice_id ent') e) as [ok i']. destruct Ai as [-> Ai].
  rewrite insert_delete_eq in Ai. split_and!; try done. apply cache_rep_tables; [done|done|..].
  - exists Ln. by apply (table_rep_update _ _ _ _ _ _ _ _ _ ent).
  - exists Lx. by apply (table_rep_update _ _ _ _ _ _ _ _ _ ent).
  - intros e' x [[_ <-]|[_ ?]]%lookup_insert_Some; [by left|by eapply Hk].
Qed.

Lemma update_name_rep c (M : EntryHeap) e ent name :
  cache_rep c M -> M !! e = Some ent ->
  let '(ok, c', M') := update_name c M e ent name in
  ok = true /\ cache_rep c' M' /\ ic_id_type c' = ic_id_type c /\
  M' = <[e := {| ice_id := ice_id ent; ice_name := Some name; ice_context := ice_context ent |}]> M.
Proof.
  intros [Ht [Li Hi] [Ln Hn] [Lx Hx] Hk] He. unfold update_name.
  pose proof (table_del_rep _ _ _ _ _ _ _ _ e ent Hn He) as Dn.
  destruct (table_del (ic_name_table c) _ _) as [rn n]. destruct Dn as [-> [L Dn]].
  assert (ret_or true (option_map (fun _ => true) (ice_name ent)) = true) as ->
    by by destruct (ice_name ent).
  cbn [negb ice_name]. set (ent' := {| ice_id := _; ice_name := Some name; ice_context := _ |}).
  pose proof (table_add_rep _ _ _ _ _ _ _ _ e ent' Dn (lookup_delete_eq _ _)) as An.
  cbn [ice_name ent'] in An. destruct (table_add n (Some name) e) as [ok n']. destruct An as [-> An].
  rewrite insert_delete_eq in An. split_and!; try done. apply cache_rep_tables; [done| |done|..].
  - exists Li. by apply (table_rep_update _ _ _ _ _ _ _ _ _ ent).
  - exists Lx. by apply (table_rep_update _ _ _ _ _ _ _ _ _ ent).
  - intros e' x [[_ <-]|[_ ?]]%lookup_insert_Some; [by right; left|by eapply Hk].
Qed.

(** The entry with another ID and another name. *)
Definition updated (ent : SilcIDCacheEntry) (id : option SilcID) (name : option (list Z)) :=
  {| ice_id := match id with Some _ => id | None => ice_id ent end;
     ice_name := match name with Some _ => name | None => ice_name ent end;
     ice_context := ice_context ent |}.

Lemma silc_idcache_update_rep c (M : EntryHeap) e ent id name :
  cache_rep c M -> M !! e = Some ent ->
  exists c', silc_idcache_update c M e id name = Some (true, c', <[e := updated ent id name]> M) /\
    cache_rep c' (<[e := updated ent id name]> M) /\ ic_id_type c' = ic_id_type c.
Proof.
  intros Hc He. unfold silc_idcache_update. rewrite He.
  assert (exists c1, (match id with Some i => update_id c M e ent i | None => (true, c, M) end) =
    (true, c1, <[e := updated ent id None]> M) /\ cache_rep c1 (<[e := updated ent id None]> M) /\
    ic_id_type c1 = ic_id_type c) as (c1 & -> & Hc1 & Et).
  { destruct id as [i|].
    - pose proof (update_id_rep c M e ent i Hc He) as U. destruct (update_id _ _ _ _ _) as [[ok c1] M1].
      destruct U as (-> & ? & ? & ->). by exists c1.
    - exists c. assert (<[e := updated ent None None]> M = M) as -> by
        (apply insert_id; rewrite He; by destruct ent). done. }
  cbn [negb]. rewrite lookup_insert_eq. destruct name as [n|]; [|by exists c1].
  pose proof (update_name_rep c1 _ e (updated ent id None) n Hc1 (lookup_insert_eq _ _ _)) as U.
  destruct (update_name _ _ _ _ _) as [[ok c2] M2]. destruct U as (-> & ? & ? & ->).
  rewrite insert_insert_eq in *. exists c2. split_and!; [done|done|congruence].
Qed.

(** * Sequences of operations *)

Inductive cache_op :=
| cop_add (alloc : ptr) (name : option (list Z)) (id : option SilcID) (context : option Z)
| cop_del (entry : ptr)
| cop_del_by_id (id : SilcID)
| cop_del_by_context (context : Z)
| cop_update (entry : ptr) (id : option SilcID) (name : option (list Z))
| cop_update_by_context (context : Z) (id : option SilcID) (name : option (list Z)).

Definition cache_step (s : SilcIDCache * EntryHeap) (op : cache_op)
  : option (SilcIDCache * EntryHeap) :=
  let '(c, H) := s in
  let deleted := option_map (fun r : bool * list destructor_call * SilcIDCache * EntryHeap =>
                               let '(_, _, c, H) := r in (c, H)) in
  let upd := option_map (fun r : bool * SilcIDCache * EntryHeap => let '(_, c, H) := r in (c, H)) in
  match op with
  | cop_add e name id x => let '(_, c, H) := silc_idcache_add c H (Some e) name id x in Some (c, H)
  | cop_del e => deleted (silc_idcache_del c H e None)
  | cop_del_by_id id => deleted (silc_idcache_del_by_id c H id None)
  | cop_del_by_context x => deleted (silc_idcache_del_by_context c H x None)
  | cop_update e id name => upd (silc_idcache_update c H e id name)
  | cop_update_by_context x id name => upd (silc_idcache_update_by_context c H x id name)
  end.

(** silc_calloc gives memory that is not in use, and the application gives entries
    that it has not deleted. *)
Definition cop_allowed (H : EntryHeap) (op : cache_op) : bool :=
  match op with
  | cop_add e _ _ _ => bool_decide (H !! e = None)
  | cop_del e | cop_update e _ _ => bool_decide (H !! e <> None)
  | _ => true
  end.

Lemma del_found_rep c (M : EntryHeap) found :
  cache_rep c M ->
  match found with Some (Some e) => M !! e <> None | Some None => False | None => True end ->
  exists r calls c' M', del_found_entry c M found None = Some (r, calls, c', M') /\ cache_rep c' M'.
Proof.
  intros Hc Hf. destruct found as [[e|]|]; [|done|by exists false, [], c, M].
  destruct (M !! e) as [ent|] eqn:He; [|done]. cbn [del_found_entry].
  destruct (silc_idcache_del_rep c M e ent None Hc He) as (c' & -> & ? & _). eauto 6.
Qed.

(** No operation follows a pointer to an entry that is freed, and each keeps the
    tables in agreement. *)
Lemma cache_step_rep c (M : EntryHeap) op :
  cache_rep c M -> cop_allowed M op = true ->
  exists c' M', cache_step (c, M) op = Some (c', M') /\ cache_rep c' M'.
Proof.
  intros Hc Ha. destruct op as [e name id x|e|id|x|e id name|x id name]; cbn [cop_allowed cache_step] in *.
  - apply bool_decide_eq_true_1 in Ha. pose proof (silc_idcache_add_rep c M e name id x Hc Ha) as A.
    cbv zeta in A. destruct (silc_idcache_add _ _ _ _ _ _) as [[r c'] M'].
    exists c', M'. split; [done|apply A].
  - apply bool_decide_eq_true_1 in Ha. destruct (M !! e) as [ent|] eqn:He; [|done].
    destruct (silc_idcache_del_rep c M e ent None Hc He) as (c' & -> & ? & _). by eexists _, _.
  - pose proof Hc as [Ht [L Hi] _ _ _]. pose proof (id_laws _ Ht).
    pose proof (table_find_spec _ _ _ _ _ _ M L id Hi) as F. unfold silc_idcache_del_by_id.
    destruct (del_found_rep c M (option_map he_context (silc_hash_table_find (ic_id_table c) id)) Hc)
      as (r & calls & c' & M' & -> & ?); [|by exists c', M'].
    destruct (option_map _ _) as [[e|]|]; [|done..]. destruct F as (ent & k & -> & _). done.
  - pose proof Hc as [Ht _ _ [L Hx] _].
    pose proof (table_find_spec _ _ _ _ _ _ M L x Hx) as F. unfold silc_idcache_del_by_context.
    destruct (del_found_rep c M (option_map he_context (silc_hash_table_find (ic_context_table c) x)) Hc)
      as (r & calls & c' & M' & -> & ?); [|by exists c', M'].
    destruct (option_map _ _) as [[e|]|]; [|done..]. destruct F as (ent & k & -> & _). done.
  - apply bool_decide_eq_true_1 in Ha. destruct (M !! e) as [ent|] eqn:He; [|done].
    destruct (silc_idcache_update_rep c M e ent id name Hc He) as (c' & -> & ? & _). by eexists _, _.
  - pose proof Hc as [Ht _ _ [L Hx] _].
    pose proof (table_find_spec _ _ _ _ _ _ M L x Hx) as F. unfold silc_idcache_update_by_context.
    destruct (option_map he_context _) as [[e|]|]; [|done|by exists c, M].
    destruct F as (ent & k & He & _).
    destruct (silc_idcache_update_rep c M e ent id name Hc He) as (c' & -> & ? & _). by eexists _, _.
Qed.

(** The cache after allowed operations. *)
Fixpoint cache_run (s : SilcIDCache * EntryHeap) (ops : list cache_op)
  : option (SilcIDCache * EntryHeap) :=
  match ops with
  | [] => Some s
  | op :: ops => match cache_step s op with Some s => cache_run s ops | None => None end
  end.

Fixpoint run_allowed (s : SilcIDCache * EntryHeap) (ops : list cache_op) : bool :=
  match ops with
  | [] => true
  | op :: ops =>
      cop_allowed s.2 op && match cache_step s op with Some s => run_allowed s ops | None => true end
  end.

Lemma cache_run_rep c (M : EntryHeap) ops :
  cache_rep c M -> run_allowed (c, M) ops = true ->
  exists c' M', cache_run (c, M) ops = Some (c', M') /\ cache_rep c' M'.
Proof.
  revert c M; induction ops as [|op ops IH]; intros c M Hc Ha; [by eexists _, _|].
  cbn [cache_run run_allowed] in *. apply andb_true_iff in Ha as [Ha Hrun].
  destruct (cache_step_rep c M op Hc Ha) as (c' & M' & E & Hc'). rewrite E in *. by apply IH.
Qed.

(** ** Moving *)

Lemma silc_idcache_move_rep c1 c2 (M1 M2 H : EntryHeap) e ent :
  cache_rep c1 M1 -> cache_rep c2 M2 -> H !! e = Some ent -> M1 !! e = Some ent -> M2 !! e = None ->
  exists ok c1' c2', silc_idcache_move c1 c2 H e = Some (ok, c1', c2') /\
    if ok
    then cache_rep c1' (delete e M1) /\ cache_rep c2' (<[e := ent]> M2) /\
         id_free (ic_id_type c2) M2 (ice_id ent)
    else c1' = c1 /\ c2' = c2.
Proof.
  intros Hc1 Hc2 He H1 H2. unfold silc_idcache_move.
  destruct (negb (_ =? _)); [by exists false, c1, c2|]. rewrite He.
  destruct (negb (bool_decide _)); [by exists false, c1, c2|].
  destruct (match ice_id ent with Some i => _ | None => None end) as [found|] eqn:Ef;
    [by exists false, c1, c2|].
  assert (id_free (ic_id_type c2) M2 (ice_id ent)) as Free.
  { intros i e' ent' i' Ei He' Hi'. rewrite Ei in Ef.
    pose proof (find_by_id_one_spec c2 M2 i Hc2) as F. rewrite Ef in F. by eapply F. }
  destruct Hc1 as [Ht1 [? Hi1] [? Hn1] [? Hx1] Hk1], Hc2 as [Ht2 [? Hi2] [? Hn2] [? Hx2] Hk2].
  pose proof (id_laws _ Ht1). pose proof (id_laws _ Ht2).
  pose proof (table_del_rep _ _ _ _ _ _ _ _ e ent Hn1 H1) as Dn.
  destruct (table_del (ic_name_table c1) _ _) as [rn nn]. destruct Dn as [_ Dn].
  pose proof (table_del_rep _ _ _ _ _ _ _ _ e ent Hx1 H1) as Dx.
  destruct (table_del (ic_context_table c1) _ _) as [rx xx]. destruct Dx as [_ Dx].
  pose proof (table_del_rep _ _ _ _ _ _ _ _ e ent Hi1 H1) as Di.
  destruct (table_del (ic_id_table c1) _ _) as [ri ii]. destruct Di as [_ Di].
  pose proof (table_add_rep _ _ _ _ _ _ _ _ e ent Hi2 H2) as Ai.
  destruct (table_add (ic_id_table c2) _ e) as [? ti]. destruct Ai as [_ Ai].
  pose proof (table_add_rep _ _ _ _ _ _ _ _ e ent Hn2 H2) as An.
  destruct (table_add (ic_name_table c2) _ e) as [? tn]. destruct An as [_ An].
  pose proof (table_add_rep _ _ _ _ _ _ _ _ e ent Hx2 H2) as Ax.
  destruct (table_add (ic_context_table c2) _ e) as [? tx]. destruct Ax as [_ Ax].
  eexists true, _, _. split; [done|]. split_and!; [..|done]; apply cache_rep_tables; try done.
  - intros e' ent' [_ ?]%lookup_delete_Some. by eapply Hk1.
  - intros e' ent' [[_ <-]|[_ ?]]%lookup_insert_Some; [by eapply Hk1|by eapply Hk2].
Qed.

(** * The theorems *)

Lemma search_result_iff r (P Q : ptr -> Prop) :
  (forall e, P e <-> Q e) -> search_result r P -> search_result r Q.
Proof. intros E (es & Hes & H). exists es. split; [|done]. intros e. by rewrite Hes, E. Qed.


#[local] Definition client_id (n : Z) (hash : list Z) : SilcID :=
  IdClient {| cid_ip := {| ip_data := zrepeat n 16; ip_data_len := 4 |}; cid_rnd := n;
              cid_hash := hash |}.

#[local] Definition two_clients : list cache_op :=
  let nick := [98; 111; 98] in
  [cop_add 1 (Some nick) (Some (client_id 1 (zrepeat 7 11))) (Some 100);
   cop_add 2 (Some nick) (Some (client_id 2 (zrepeat 7 11))) (Some 200);
   cop_add 3 (Some nick) (Some (client_id 2 (zrepeat 7 11))) (Some 300);
   cop_update_by_context 200 None (Some [97])].


(** silc_idcache_update does not look for the new ID in the cache: two entries get
    the same full ID. *)
Lemma silc_idcache_update_duplicate :
  match silc_idcache_alloc 0 SILC_ID_CLIENT false None with
  | Some c =>
      match cache_run (c, ∅) [cop_add 1 None (Some (client_id 1 (zrepeat 7 11))) None;
                              cop_add 2 None (Some (client_id 2 (zrepeat 7 11))) None;
                              cop_update 2 (Some (client_id 1 (zrepeat 7 11))) None] with
      | Some (_, H) => option_map ice_id (H !! 1) = option_map ice_id (H !! 2)
      | None => False
      end
  | None => False
  end.
Proof. vm_compute. reflexivity. Qed.
