(* ===== verification/Algs.v ===== *)
(** The algorithms of the library by name: the registries of silccipher.c,
    silchash.c, silchmac.c and silcpkcs.c, and the lists of names that are
    negotiated.

    A C string is the list of its bytes without the NUL.  An algorithm object is
    a record with its function table (the classes CipherAlg and HashAlg); an
    object allocated by name carries its table with its context. *)

From stdpp Require Import strings.
From S2P Require Import Prelude CTypes Cipher Hash HashFns HashSpec Hmac.

(** * C strings *)

Definition str (s : string) : list Z :=
  map (fun c => Z.of_N (Ascii.N_of_ascii c)) (String.list_ascii_of_string s).
#[global] Arguments str s%_string.

(** The string that starts at a pointer: up to the NUL. *)
Fixpoint cstr (p : list Z) : list Z :=
  match p with
  | [] => []
  | c :: p => if c =? 0 then [] else c :: cstr p
  end.

Fixpoint strchr (s : list Z) (c : Z) : option (list Z) :=
  match s with
  | [] => None
  | x :: s' => if x =? c then Some s else strchr s' c
  end.

Fixpoint strcspn (s : list Z) (c : Z) : Z :=
  match s with
  | [] => 0
  | x :: s => if x =? c then 0 else 1 + strcspn s c
  end.

Fixpoint starts_with (s p : list Z) : bool :=
  match p, s with
  | [], _ => true
  | c :: p, x :: s => (x =? c) && starts_with s p
  | _, [] => false
  end.

(** Whether strstr finds the string. *)
Fixpoint strstr (s p : list Z) : bool :=
  starts_with s p || match s with [] => false | _ :: s => strstr s p end.

Definition str_eq (a b : list Z) : bool := bool_decide (a = b).

(** * Registries *)

Section registry.
Context {A : Type} (name : A -> list Z).

(** The first entry of that name. *)
Fixpoint registry_find (l : list A) (n : list Z) : option A :=
  match l with
  | [] => None
  | e :: l => if str_eq (name e) n then Some e else registry_find l n
  end.

Definition registry_has (l : list A) (n : list Z) : bool :=
  match registry_find l n with Some _ => true | None => false end.

Definition registry_add (l : list A) (e : A) : bool * list A :=
  if registry_has l (name e) then (false, l) else (true, l ++ [e]).

(** silc_realloc and two memcpy for each entry: the name and a comma. *)
Fixpoint supported_loop (l : list A) (list : list Z) : Datatypes.list Z :=
  match l with
  | [] => list
  | e :: l => supported_loop l (list ++ name e ++ [44])
  end.

(** The comma behind the last name becomes the NUL. *)
Definition registry_supported (l : list A) : option (list Z) :=
  match l with
  | [] => None
  | _ => let list := supported_loop l [] in Some (ztake (zlen list - 1) list)
  end.
End registry.

(** * Objects *)

Record SilcHashObject := {
  ho_name : list Z;
  ho_alg : HashAlg;
  ho_context : @hash_context ho_alg;
}.

Record SilcCipherObject := {
  co_name : list Z;
  co_key_len : Z;
  co_alg : CipherAlg;
  co_set_key : @cipher_context co_alg -> list Z -> Z -> bool -> @cipher_context co_alg;
  co_context : @cipher_context co_alg;
}.

Record SilcHmacObject := { hmo_name : list Z; hmo_len : Z }.
Record SilcPKCSAlgorithm := { pa_name : list Z; pa_scheme : option (list Z) }.

(** The four lists of registered algorithms. *)
Record SilcAlgs := {
  silc_cipher_list : list SilcCipherObject;
  silc_hash_list : list SilcHashObject;
  silc_hmac_list : list SilcHmacObject;
  silc_pkcs_alg_list : list SilcPKCSAlgorithm;
}.

(** An allocated cipher and an allocated HMAC with their objects. *)
Record Cipher := {
  cipher_obj : SilcCipherObject;
  cipher_state : @SilcCipher (co_alg cipher_obj);
}.

Record Hmac := {
  hmac_obj : SilcHmacObject;
  hmac_hash_obj : SilcHashObject;
  hmac_state : @SilcHmac (ho_alg hmac_hash_obj);
}.

(** ** Ciphers *)

Definition silc_cipher_register (algs : SilcAlgs) (cipher : SilcCipherObject) : bool * SilcAlgs :=
  let '(ret, l) := registry_add co_name (silc_cipher_list algs) cipher in
  (ret, {| silc_cipher_list := l; silc_hash_list := silc_hash_list algs;
           silc_hmac_list := silc_hmac_list algs;
           silc_pkcs_alg_list := silc_pkcs_alg_list algs |}).

Definition silc_cipher_is_supported (algs : SilcAlgs) (name : list Z) : bool :=
  registry_has co_name (silc_cipher_list algs) name.

Definition silc_cipher_get_supported (algs : SilcAlgs) : option (list Z) :=
  registry_supported co_name (silc_cipher_list algs).

Definition silc_cipher_alloc (algs : SilcAlgs) (name : list Z) : option Cipher :=
  match registry_find co_name (silc_cipher_list algs) name with
  | Some entry =>
      Some {| cipher_obj := entry;
              cipher_state := {| c_context := co_context entry; c_iv := zrepeat 0 16 |} |}
  | None => None
  end.

Definition cipher_set (c : Cipher) (s : @SilcCipher (co_alg (cipher_obj c))) : Cipher :=
  {| cipher_obj := cipher_obj c; cipher_state := s |}.

Definition silc_cipher_set_key (c : Cipher) (key : list Z) (keylen : Z) (encryption : bool)
  : Cipher :=
  cipher_set c
    {| c_context := co_set_key (cipher_obj c) (c_context (cipher_state c)) key keylen encryption;
       c_iv := c_iv (cipher_state c) |}.

Definition silc_cipher_get_key_len (c : Cipher) : Z := co_key_len (cipher_obj c).
Definition silc_cipher_get_name (c : Cipher) : list Z := co_name (cipher_obj c).

(** ** Hash functions *)

Definition silc_hash_register (algs : SilcAlgs) (hash : SilcHashObject) : bool * SilcAlgs :=
  let '(ret, l) := registry_add ho_name (silc_hash_list algs) hash in
  (ret, {| silc_cipher_list := silc_cipher_list algs; silc_hash_list := l;
           silc_hmac_list := silc_hmac_list algs;
           silc_pkcs_alg_list := silc_pkcs_alg_list algs |}).

Definition silc_hash_is_supported (algs : SilcAlgs) (name : list Z) : bool :=
  registry_has ho_name (silc_hash_list algs) name.

Definition silc_hash_get_supported (algs : SilcAlgs) : option (list Z) :=
  registry_supported ho_name (silc_hash_list algs).

Definition silc_hash_alloc (algs : SilcAlgs) (name : list Z) : option SilcHashObject :=
  registry_find ho_name (silc_hash_list algs) name.

(** silc_hash_len and silc_hash_make on an allocated object.  The context that
    is left is not kept: every computation starts with init. *)
Definition hash_len (h : SilcHashObject) : Z := silc_hash_len (H := ho_alg h) (ho_context h).
Definition hash_make (h : SilcHashObject) (data : list Z) : list Z :=
  (silc_hash_make (H := ho_alg h) (ho_context h) data).1.

(** ** HMACs *)

Definition silc_hmac_register (algs : SilcAlgs) (hmac : SilcHmacObject) : bool * SilcAlgs :=
  let '(ret, l) := registry_add hmo_name (silc_hmac_list algs) hmac in
  (ret, {| silc_cipher_list := silc_cipher_list algs; silc_hash_list := silc_hash_list algs;
           silc_hmac_list := l; silc_pkcs_alg_list := silc_pkcs_alg_list algs |}).

Definition silc_hmac_is_supported (algs : SilcAlgs) (name : list Z) : bool :=
  registry_has hmo_name (silc_hmac_list algs) name.

Definition silc_hmac_get_supported (algs : SilcAlgs) : option (list Z) :=
  registry_supported hmo_name (silc_hmac_list algs).

(** What is between the first dash of the name and the next one. *)
Definition hmac_hash_name (name : list Z) : list Z :=
  let hname := match strchr name 45 with Some t => zdrop 1 t | None => name end in
  ztake (strcspn hname 45) hname.

(** With a NULL hash. *)
Definition silc_hmac_alloc (algs : SilcAlgs) (name : list Z) : option Hmac :=
  match silc_hash_alloc algs (hmac_hash_name name) with
  | None => None
  | Some hash =>
      match registry_find hmo_name (silc_hmac_list algs) name with
      | Some entry =>
          Some {| hmac_obj := entry; hmac_hash_obj := hash;
                  hmac_state := {| hmac_len := hmo_len entry; hmac_hash := ho_context hash;
                                   inner_pad := zrepeat 0 64; outer_pad := zrepeat 0 64;
                                   hmac_key := None |} |}
      | None => None
      end
  end.

Definition hmac_set_key (h : Hmac) (key : list Z) : Hmac :=
  {| hmac_obj := hmac_obj h; hmac_hash_obj := hmac_hash_obj h;
     hmac_state := silc_hmac_set_key (hmac_state h) key |}.

Definition silc_hmac_get_name (h : Hmac) : list Z := hmo_name (hmac_obj h).

(** ** PKCS algorithms *)

Definition silc_pkcs_algorithm_register (algs : SilcAlgs) (pkcs : SilcPKCSAlgorithm)
  : bool * SilcAlgs :=
  let l := silc_pkcs_alg_list algs in
  if existsb (fun e => str_eq (pa_name e) (pa_name pkcs) &&
                match pa_scheme e, pa_scheme pkcs with
                | Some a, Some b => str_eq a b
                | _, _ => false
                end) l
  then (false, algs)
  else (true, {| silc_cipher_list := silc_cipher_list algs;
                 silc_hash_list := silc_hash_list algs;
                 silc_hmac_list := silc_hmac_list algs; silc_pkcs_alg_list := l ++ [pkcs] |}).

(** With a NULL scheme. *)
Definition silc_pkcs_find_algorithm (algs : SilcAlgs) (algorithm : list Z) : bool :=
  registry_has pa_name (silc_pkcs_alg_list algs) algorithm.

Definition silc_pkcs_get_supported (algs : SilcAlgs) : option (list Z) :=
  registry_supported pa_name (silc_pkcs_alg_list algs).

(** * The default algorithms *)

Definition sha256_object : SilcHashObject :=
  {| ho_name := str "sha256"; ho_alg := sha256;
     ho_context := {| s256_length := 0; s256_state := zrepeat 0 8; s256_curlen := 0;
                      s256_buf := zrepeat 0 64 |} |}.

Definition sha1_object : SilcHashObject :=
  {| ho_name := str "sha1"; ho_alg := sha1;
     ho_context := {| sha1_state := zrepeat 0 5; sha1_count0 := 0; sha1_count1 := 0;
                      sha1_buffer := zrepeat 0 64 |} |}.

Definition md5_object : SilcHashObject :=
  {| ho_name := str "md5"; ho_alg := md5;
     ho_context := {| md5_buf := zrepeat 0 4; md5_bits0 := 0; md5_bits1 := 0;
                      md5_in := zrepeat 0 64 |} |}.

Definition silc_default_hash : list SilcHashObject := [sha256_object; sha1_object; md5_object].

Definition silc_default_hmacs : list SilcHmacObject :=
  [{| hmo_name := str "hmac-sha256-96"; hmo_len := 12 |};
   {| hmo_name := str "hmac-sha1-96"; hmo_len := 12 |};
   {| hmo_name := str "hmac-md5-96"; hmo_len := 12 |};
   {| hmo_name := str "hmac-sha256"; hmo_len := 32 |};
   {| hmo_name := str "hmac-sha1"; hmo_len := 20 |};
   {| hmo_name := str "hmac-md5"; hmo_len := 16 |}].

Definition silc_default_pkcs_alg : list SilcPKCSAlgorithm :=
  [{| pa_name := str "rsa"; pa_scheme := Some (str "pkcs1-no-oid") |};
   {| pa_name := str "rsa"; pa_scheme := Some (str "pkcs1") |}].

(** The key schedules and the zeroed context of a block cipher. *)
Class BlockKeys `(BlockCipher) := {
  block_zero : block_key;
  set_encrypt_key : list Z -> Z -> block_key;
  set_decrypt_key : list Z -> Z -> block_key;
}.

Section default_ciphers.
Context `{BlockKeys}.

Definition silc_aes_cbc_set_key (ctx : block_key) (key : list Z) (keylen : Z)
    (encryption : bool) : block_key :=
  if encryption then set_encrypt_key key keylen else set_decrypt_key key keylen.

Definition silc_aes_ctr_set_key (ctx : CtrContext) (key : list Z) (keylen : Z)
    (encryption : bool) : CtrContext :=
  {| ctr_key := set_encrypt_key key keylen; ctr_used := 0; ctr_pad := zrepeat 0 16 |}.

Definition cbc_object (name : string) (key_len : Z) : SilcCipherObject :=
  {| co_name := str name; co_key_len := key_len; co_alg := aes_cbc;
     co_set_key := silc_aes_cbc_set_key; co_context := block_zero |}.

Definition ctr_object (name : string) (key_len : Z) : SilcCipherObject :=
  {| co_name := str name; co_key_len := key_len; co_alg := aes_ctr;
     co_set_key := silc_aes_ctr_set_key;
     co_context := {| ctr_key := block_zero; ctr_used := 0; ctr_pad := zrepeat 0 16 |} |}.

(** The Twofish objects of twofish.c are a parameter. *)
Definition silc_default_ciphers (twofish : list SilcCipherObject) : list SilcCipherObject :=
  [ctr_object "aes-256-ctr" 256; ctr_object "aes-192-ctr" 192; ctr_object "aes-128-ctr" 128;
   cbc_object "aes-256-cbc" 256; cbc_object "aes-192-cbc" 192; cbc_object "aes-128-cbc" 128]
  ++ twofish.
End default_ciphers.

