(* ===== verification/SkeGroup.v ===== *)
(** lib/silcske/groups.c: the Diffie-Hellman groups, and lib/silcmath/mpbin.c,
    multiple precision integers as bytes.

    A SilcMPInt is a non-negative Z.  The arithmetic of lib/silcmath that the key
    exchange calls is that of Z; silc_mp_sizeinbase gives 1 for 0. *)

From Stdlib Require Import Zpow_facts.
From stdpp Require Import strings.
From S2P Require Import Prelude CTypes SkePayload Algs.

(** * Multiple precision integers *)

Definition silc_mp_sizeinbase2 (x : Z) : Z := Z.max 1 (if x =? 0 then 0 else Z.log2 x + 1).
Definition silc_mp_pow_mod (b e m : Z) : Z := Zpow_mod b e m.
Definition silc_mp_mod_2exp (x n : Z) : Z := x mod 2 ^ n.

(** [for (i = size; i > 0; i--)], from the last byte of [dst]. *)
Fixpoint mp2bin_loop (i : nat) (tmp : Z) (dst : list Z) : list Z :=
  match i with
  | O => dst
  | S i => mp2bin_loop i (Z.shiftr tmp 8) (Z.land tmp 0xff :: dst)
  end.

Definition silc_mp_mp2bin_noalloc (val dst_len : Z) : list Z :=
  mp2bin_loop (Z.to_nat dst_len) val [].

(** With [len] = 0. *)
Definition silc_mp_mp2bin (val : Z) : list Z :=
  silc_mp_mp2bin_noalloc val ((silc_mp_sizeinbase2 val + 7) / 8).

Definition silc_mp_bin2mp (data : list Z) : Z :=
  foldl (fun ret b => Z.shiftl ret 8 + b) 0 data.

(** * Groups *)

Record SilcSKEDiffieHellmanGroup := {
  gr_number : Z;
  gr_name : list Z;
  gr_group : Z;
  gr_group_order : Z;
  gr_generator : Z;
}.

Definition silc_ske_groups : list SilcSKEDiffieHellmanGroup :=
  [{| gr_number := 2; gr_name := str "diffie-hellman-group2";
      gr_group := 0xFFFFFFFFFFFFFFFFC90FDAA22168C234C4C6628B80DC1CD129024E088A67CC74020BBEA63B139B22514A08798E3404DDEF9519B3CD3A431B302B0A6DF25F14374FE1356D6D51C245E485B576625E7EC6F44C42E9A637ED6B0BFF5CB6F406B7EDEE386BFB5A899FA5AE9F24117C4B1FE649286651ECE45B3DC2007CB8A163BF0598DA48361C55D39A69163FA8FD24CF5F83655D23DCA3AD961C62F356208552BB9ED529077096966D670C354E4ABC9804F1746C08CA237327FFFFFFFFFFFFFFFF;
      gr_group_order := 0x7FFFFFFFFFFFFFFFE487ED5110B4611A62633145C06E0E68948127044533E63A0105DF531D89CD9128A5043CC71A026EF7CA8CD9E69D218D98158536F92F8A1BA7F09AB6B6A8E122F242DABB312F3F637A262174D31BF6B585FFAE5B7A035BF6F71C35FDAD44CFD2D74F9208BE258FF324943328F6722D9EE1003E5C50B1DF82CC6D241B0E2AE9CD348B1FD47E9267AFC1B2AE91EE51D6CB0E3179AB1042A95DCF6A9483B84B4B36B3861AA7255E4C0278BA36046511B993FFFFFFFFFFFFFFFF;
      gr_generator := 2 |};
   {| gr_number := 1; gr_name := str "diffie-hellman-group1";
      gr_group := 0xFFFFFFFFFFFFFFFFC90FDAA22168C234C4C6628B80DC1CD129024E088A67CC74020BBEA63B139B22514A08798E3404DDEF9519B3CD3A431B302B0A6DF25F14374FE1356D6D51C245E485B576625E7EC6F44C42E9A637ED6B0BFF5CB6F406B7EDEE386BFB5A899FA5AE9F24117C4B1FE649286651ECE65381FFFFFFFFFFFFFFFF;
      gr_group_order := 0x7FFFFFFFFFFFFFFFE487ED5110B4611A62633145C06E0E68948127044533E63A0105DF531D89CD9128A5043CC71A026EF7CA8CD9E69D218D98158536F92F8A1BA7F09AB6B6A8E122F242DABB312F3F637A262174D31BF6B585FFAE5B7A035BF6F71C35FDAD44CFD2D74F9208BE258FF324943328F67329C0FFFFFFFFFFFFFFFF;
      gr_generator := 2 |}].

Fixpoint group_find (p : SilcSKEDiffieHellmanGroup -> bool) (l : list SilcSKEDiffieHellmanGroup)
  : option SilcSKEDiffieHellmanGroup :=
  match l with
  | [] => None
  | g :: l => if p g then Some g else group_find p l
  end.

(** SILC_SKE_STATUS_UNKNOWN_GROUP, or the group. *)
Definition silc_ske_group_get_by_number (number : Z) : option SilcSKEDiffieHellmanGroup :=
  group_find (fun g => gr_number g =? number) silc_ske_groups.

Definition silc_ske_group_get_by_name (name : list Z) : option SilcSKEDiffieHellmanGroup :=
  group_find (fun g => str_eq (gr_name g) name) silc_ske_groups.

(** [for (i = 0; silc_ske_groups[i].name && i < limit; i++)] *)
Fixpoint groups_limit (i limit : Z) (l : list SilcSKEDiffieHellmanGroup)
  : list SilcSKEDiffieHellmanGroup :=
  match l with
  | [] => []
  | g :: l => if i <? limit then g :: groups_limit (i + 1) limit l else []
  end.

Definition silc_ske_get_supported_groups (limit : Z) : option (list Z) :=
  let limit := if limit =? 0 then 2 ^ 32 - 1 else limit in
  registry_supported gr_name (groups_limit 0 limit silc_ske_groups).

Definition silc_ske_group_get_number (g : SilcSKEDiffieHellmanGroup) : Z := gr_number g.
Definition silc_ske_group_get_name (g : SilcSKEDiffieHellmanGroup) : list Z := gr_name g.

(** * Facts *)

Lemma mp2bin_loop_be n : forall x dst, mp2bin_loop n x dst = be_encode n x ++ dst.
Proof.
  induction n as [|n IH]; intros x dst; [done|]. cbn [mp2bin_loop be_encode].
  rewrite IH, <- app_assoc. rewrite Z.shiftr_div_pow2 by lia.
  change 0xff with (Z.ones 8). by rewrite Z.land_ones by lia.
Qed.

Lemma mp2bin_size x : 0 <= x -> 0 < (silc_mp_sizeinbase2 x + 7) / 8 /\
  x < 256 ^ ((silc_mp_sizeinbase2 x + 7) / 8).
Proof.
  intros Hx. unfold silc_mp_sizeinbase2. destruct (Z.eqb_spec x 0) as [->|Hn]; [done|].
  pose proof (Z.log2_nonneg x). rewrite Z.max_r by lia.
  split; [Z.to_euclidean_division_equations; lia|].
  change 256 with (2 ^ 8). rewrite <- Z.pow_mul_r by (Z.to_euclidean_division_equations; lia).
  apply Z.log2_lt_pow2; [lia|]. Z.to_euclidean_division_equations; lia.
Qed.

Lemma silc_mp_mp2bin_be x :
  silc_mp_mp2bin x = be_encode (Z.to_nat ((silc_mp_sizeinbase2 x + 7) / 8)) x.
Proof. unfold silc_mp_mp2bin, silc_mp_mp2bin_noalloc. by rewrite mp2bin_loop_be, app_nil_r. Qed.

Lemma silc_mp_bin2mp_be l : silc_mp_bin2mp l = be_decode l.
Proof.
  unfold silc_mp_bin2mp, be_decode. generalize 0.
  induction l as [|b l IH]; intros a; [done|]. cbn [foldl].
  rewrite Z.shiftl_mul_pow2 by lia. apply IH.
Qed.

Lemma silc_mp_bin2mp_mp2bin x : 0 <= x -> silc_mp_bin2mp (silc_mp_mp2bin x) = x.
Proof.
  intros Hx. destruct (mp2bin_size x Hx) as [Hs Hlt].
  rewrite silc_mp_bin2mp_be, silc_mp_mp2bin_be, be_decode_encode, Z2Nat.id by lia.
  by apply Z.mod_small.
Qed.

Lemma mp2bin_nonempty x : 0 <= x -> 1 <= zlen (silc_mp_mp2bin x).
Proof.
  intros Hx. destruct (mp2bin_size x Hx). rewrite silc_mp_mp2bin_be, length_be_encode. lia.
Qed.

Lemma bytes_ok_be_encode n : forall x, bytes_ok (be_encode n x).
Proof.
  induction n as [|n IH]; intros x; [done|]. cbn [be_encode].
  apply Forall_app. split; [apply IH|]. constructor; [|done]. apply Z.mod_pos_bound; lia.
Qed.

Lemma mp2bin_bytes x : bytes_ok (silc_mp_mp2bin x).
Proof. rewrite silc_mp_mp2bin_be. apply bytes_ok_be_encode. Qed.

Lemma silc_mp_pow_mod_spec b e m : 0 <= e -> 0 < m -> silc_mp_pow_mod b e m = b ^ e mod m.
Proof. intros. unfold silc_mp_pow_mod. apply Zpow_mod_correct; lia. Qed.

(** The Diffie-Hellman secret: both sides compute the same. *)
Lemma pow_mod_dh g x y p : 0 <= x -> 0 <= y -> 1 < p ->
  silc_mp_pow_mod (silc_mp_pow_mod g x p) y p = silc_mp_pow_mod (silc_mp_pow_mod g y p) x p.
Proof.
  intros. rewrite !silc_mp_pow_mod_spec by lia. rewrite <- !Zpower_mod by lia.
  by rewrite <- !Z.pow_mul_r, (Z.mul_comm x) by lia.
Qed.
