(* ===== verification/SkeKeys.v ===== *)
(** lib/silcske/silcske.c: from the shared secret to the keys in use.

    silc_ske_process_key_material_data derives the key material from the secret,
    silc_ske_set_keys allocates ciphers and HMACs and gives them their keys. *)

From S2P Require Import Prelude CTypes Buffer BufFmt BufFmtSpec Cipher Hash Hmac Algs SkeGroup.

Definition SILC_HASH_MAXLEN : Z := 64.
Definition SILC_SKE_SP_FLAG_IV_INCLUDED : Z := 1.
Definition SILC_SKE_SP_FLAG_PFS : Z := 2.

(** [enc_key_len] is in bits, the others in bytes. *)
Record SilcSKEKeyMaterial := {
  km_send_iv : list Z;
  km_receive_iv : list Z;
  km_iv_len : Z;
  km_send_enc_key : list Z;
  km_receive_enc_key : list Z;
  km_enc_key_len : Z;
  km_send_hmac_key : list Z;
  km_receive_hmac_key : list Z;
  km_hmac_key_len : Z;
}.

(** * Key material *)

(** silc_hash_make into a cleared array of SILC_HASH_MAXLEN bytes. *)
Definition hashd (hash : SilcHashObject) (data : list Z) : list Z :=
  let digest := hash_make hash data in
  digest ++ zrepeat 0 (SILC_HASH_MAXLEN - zlen digest).

(** The buffer with [buf->data[0] = k;]. *)
Definition set_first (buf : SilcBuffer) (k : Z) : SilcBuffer :=
  silc_buffer_put buf [k] 1.

(** silc_calloc of [len] bytes and memcpy from the array. *)
Definition key_part (src : list Z) (len : Z) : option (list Z) :=
  if silc_calloc_ok len 1 then Some (mem_read src len) else None.

Definition silc_ske_key_dist (hash : SilcHashObject) (buf : SilcBuffer) (data : list Z)
    (hash_len enc_key_len : Z) : option (list Z) :=
  let data_len := zlen data in
  if 3 * hash_len <? enc_key_len then None
  else
    let k1 := hashd hash (b_data buf) in
    match silc_buffer_alloc_size (u32 (data_len + hash_len)) with
    | None => None
    | Some dist =>
        let dist := (silc_buffer_format dist [F_DATA (Some data) data_len;
                                              F_DATA (Some k1) hash_len]).2 in
        let k2 := hashd hash (b_data dist) in
        match silc_buffer_realloc (Some dist) (data_len + hash_len + hash_len) with
        | None => None
        | Some dist =>
            let dist := silc_buffer_pull_tail dist hash_len in
            let dist := silc_buffer_pull dist (data_len + hash_len) in
            let dist := (silc_buffer_format dist [F_DATA (Some k2) hash_len]).2 in
            let dist := silc_buffer_push dist (data_len + hash_len) in
            let k3 := hashd hash (b_data dist) in
            if silc_calloc_ok (3 * hash_len) 1 then
              let dtmp := mem_read k1 hash_len ++ mem_read k2 hash_len ++ mem_read k3 hash_len in
              key_part dtmp enc_key_len
            else None
        end
    end.

(** The keys of one direction; the buffer starts with 2 or with 3. *)
Definition silc_ske_enc_key (hash : SilcHashObject) (buf : SilcBuffer) (data : list Z)
    (hash_len enc_key_len : Z) : option (list Z) :=
  if hash_len <? enc_key_len then silc_ske_key_dist hash buf data hash_len enc_key_len
  else key_part (hashd hash (b_data buf)) enc_key_len.

Definition silc_ske_process_key_material_data (data : list Z)
    (req_iv_len req_enc_key_len req_hmac_key_len : Z) (hash : SilcHashObject)
  : option SilcSKEKeyMaterial :=
  let hash_len := req_hmac_key_len in
  let enc_key_len := req_enc_key_len / 8 in
  if (req_iv_len =? 0) || (req_enc_key_len =? 0) || (req_hmac_key_len =? 0) then None
  else
    match silc_buffer_alloc_size (u32 (1 + zlen data)) with
    | None => None
    | Some buf =>
        let buf := (silc_buffer_format buf [F_UI8_CHAR 0; F_DATA (Some data) (zlen data)]).2 in
        let hashk := fun k => hashd hash (b_data (set_first buf k)) in
        match key_part (hashk 0) req_iv_len, key_part (hashk 1) req_iv_len,
              silc_ske_enc_key hash (set_first buf 2) data hash_len enc_key_len,
              silc_ske_enc_key hash (set_first buf 3) data hash_len enc_key_len,
              key_part (hashk 4) req_hmac_key_len, key_part (hashk 5) req_hmac_key_len with
        | Some siv, Some riv, Some se, Some re, Some sh, Some rh =>
            Some {| km_send_iv := siv; km_receive_iv := riv; km_iv_len := req_iv_len;
                    km_send_enc_key := se; km_receive_enc_key := re;
                    km_enc_key_len := req_enc_key_len; km_send_hmac_key := sh;
                    km_receive_hmac_key := rh; km_hmac_key_len := req_hmac_key_len |}
        | _, _, _, _, _, _ => None
        end
    end.

(** * Keys in use *)

(** What silc_ske_set_keys reads of the SKE context. *)
Record KeyContext := {
  kc_responder : bool;
  kc_rekeying : bool;
  kc_hash : option (list Z);
}.

(** What it returns through the pointers that are not NULL. *)
Record SetKeys := {
  sk_send_key : option Cipher;
  sk_receive_key : option Cipher;
  sk_hmac_send : option Hmac;
  sk_hmac_receive : option Hmac;
  sk_hash : option SilcHashObject;
}.

(** memcpy of [src] to [iv + off]. *)
Definition iv_put (iv : list Z) (off : Z) (src : list Z) (n : Z) : list Z :=
  ztake off iv ++ mem_read src n ++ zdrop (off + n) iv.

(** One direction: the key, then the IV; gives the cipher and the array [iv]
    the next direction finds. *)
Definition set_cipher_key (ctx : KeyContext) (hash : option SilcHashObject) (iv_included : bool)
    (iv : list Z) (c : Cipher) (key : list Z) (keylen : Z) (key_iv : list Z) (encryption : bool)
  : option (Cipher * list Z) :=
  let c := silc_cipher_set_key c key keylen encryption in
  if silc_cipher_get_mode (cipher_state c) =? SILC_CIPHER_MODE_CTR then
    let iv :=
      if negb (kc_rekeying ctx) then
        match kc_hash ctx with
        | None => None
        | Some h =>
            let iv := iv_put iv 0 h 4 in
            Some (if iv_included then iv else iv_put iv 4 key_iv 8)
        end
      else
        match hash with
        | None => None
        | Some hash =>
            let digest := hash_make hash (mem_read key_iv 8) in
            let iv := iv_put iv 0 digest (zlen digest) in
            Some (if iv_included then iv_put iv 4 (zrepeat 0 12) 12 else iv_put iv 4 key_iv 8)
        end in
    match iv with
    | None => None
    | Some iv => Some (cipher_set c (silc_cipher_set_iv (cipher_state c) (Some iv)), iv)
    end
  else Some (cipher_set c (silc_cipher_set_iv (cipher_state c) (Some key_iv)), iv).

(** [None]: a NULL pointer is used. *)
Definition set_cipher_keys (ctx : KeyContext) (hash : option SilcHashObject) (iv_included : bool)
    (keymat : SilcSKEKeyMaterial) (send receive : option Cipher)
  : option (option Cipher * option Cipher) :=
  let '(ks, ivs, kr, ivr) :=
    if kc_responder ctx
    then (km_receive_enc_key keymat, km_receive_iv keymat,
          km_send_enc_key keymat, km_send_iv keymat)
    else (km_send_enc_key keymat, km_send_iv keymat,
          km_receive_enc_key keymat, km_receive_iv keymat) in
  let iv := zrepeat 0 SILC_HASH_MAXLEN in
  let len := km_enc_key_len keymat in
  let sent :=
    match send with
    | Some c =>
        match set_cipher_key ctx hash iv_included iv c ks len ivs true with
        | Some (c, iv) => Some (Some c, iv)
        | None => None
        end
    | None => Some (None, iv)
    end in
  match sent with
  | None => None
  | Some (send, iv) =>
      match receive with
      | Some c =>
          match set_cipher_key ctx hash iv_included iv c kr len ivr false with
          | Some (c, _) => Some (send, Some c)
          | None => None
          end
      | None => Some (send, None)
      end
  end.

(** Results of calls that may use a NULL pointer ([None]) or fail ([Some None]). *)
Definition try {A B} (r : option (option A)) (f : A -> option (option B)) : option (option B) :=
  match r with
  | Some (Some a) => f a
  | Some None => Some None
  | None => None
  end.

(** [if (ret) if (!alloc(get_name(x), ret)) return FALSE;] *)
Definition alloc_want {A B} (want : bool) (x : option B) (name : B -> list Z)
    (alloc : list Z -> option A) : option (option (option A)) :=
  if want then
    match x with
    | None => None
    | Some x => match alloc (name x) with Some a => Some (Some (Some a)) | None => Some None end
    end
  else Some (Some None).

Definition hmac_key_want (h : option Hmac) (key : list Z) (len : Z) : option Hmac :=
  match h with Some h => Some (hmac_set_key h (mem_read key len)) | None => None end.

(** With the flags, the cipher, the HMAC and the hash of the security properties;
    which of the five results the caller wants.  [Some None] is FALSE. *)
Definition silc_ske_set_keys (algs : SilcAlgs) (ctx : KeyContext) (keymat : SilcSKEKeyMaterial)
    (flags : Z) (cipher : option Cipher) (hmac : option Hmac) (hash : option SilcHashObject)
    (want_send want_receive want_hmac_send want_hmac_receive want_hash : bool)
  : option (option SetKeys) :=
  let iv_included := negb (Z.land flags SILC_SKE_SP_FLAG_IV_INCLUDED =? 0) in
  let cipher_want := fun w => alloc_want w cipher silc_cipher_get_name (silc_cipher_alloc algs) in
  let hmac_want := fun w => alloc_want w hmac silc_hmac_get_name (silc_hmac_alloc algs) in
  try (cipher_want want_send) (fun sk =>
  try (cipher_want want_receive) (fun rk =>
  try (hmac_want want_hmac_send) (fun sh =>
  try (hmac_want want_hmac_receive) (fun rh =>
  try (alloc_want want_hash hash ho_name (silc_hash_alloc algs)) (fun hs =>
  match set_cipher_keys ctx hash iv_included keymat sk rk with
  | None => None
  | Some (sk, rk) =>
      let '(kh, kh') :=
        if kc_responder ctx
        then (km_receive_hmac_key keymat, km_send_hmac_key keymat)
        else (km_send_hmac_key keymat, km_receive_hmac_key keymat) in
      Some (Some {| sk_send_key := sk; sk_receive_key := rk;
                    sk_hmac_send := hmac_key_want sh kh (km_hmac_key_len keymat);
                    sk_hmac_receive := hmac_key_want rh kh' (km_hmac_key_len keymat);
                    sk_hash := hs |})
  end))))).
