(* ===== verification/SkeKeySpec.v ===== *)
(** The key material of the SKE protocol as functions of byte lists, and that the
    two ends of a key exchange set matching keys. *)

From stdpp Require Import strings.
From S2P Require Import Prelude CTypes Buffer BufFmt BufFmtSpec Cipher Hash HashFns HashSpec Hmac Packet PacketReceive PacketSpec Algs SkeGroup SkeKeys.

(** * Hash objects *)

(** The function table is that of a hash function. *)
Definition hash_obj_ok (h : SilcHashObject) : Prop := inhabited (HashLaws (ho_alg h)).

Lemma hash_make_ok h data :
  hash_obj_ok h -> zlen data < 2 ^ 31 ->
  zlen (hash_make h data) = hash_len h /\ bytes_ok (hash_make h data) /\ 0 < hash_len h <= 64.
Proof.
  intros [L] Hd. unfold hash_make, hash_len, silc_hash_len, silc_hash_make, silc_hash_final.
  pose proof (hash_final_fn (ho_context h) [data] ltac:(by constructor)) as E.
  cbn [foldl concat] in E. rewrite app_nil_r in E.
  unfold silc_hash_update, silc_hash_init. rewrite E, hash_fn_len.
  pose proof (@hash_len_block _ L). pose proof (@hash_block_len_64 _ L).
  split; [done|]. split; [apply hash_fn_bytes|lia].
Qed.

Lemma default_hash_ok : Forall hash_obj_ok silc_default_hash.
Proof.
  unfold silc_default_hash.
  apply Forall_cons_2; [exact (inhabits sha256_laws)|].
  apply Forall_cons_2; [exact (inhabits sha1_laws)|].
  apply Forall_cons_2; [exact (inhabits md5_laws)|apply Forall_nil_2].
Qed.

(** * Key material *)

(** hash(k || data) *)
Definition ske_k (h : SilcHashObject) (k : Z) (data : list Z) : list Z := hash_make h (k :: data).

(** K1 = hash(k || data), K2 = hash(data || K1), K3 = hash(data || K1 || K2). *)
Definition ske_long_key (h : SilcHashObject) (k : Z) (data : list Z) : list Z :=
  let k1 := ske_k h k data in
  let k2 := hash_make h (data ++ k1) in
  k1 ++ k2 ++ hash_make h (data ++ k1 ++ k2).

Definition ske_enc_key (h : SilcHashObject) (k : Z) (data : list Z) (len : Z) : list Z :=
  ztake len (if hash_len h <? len then ske_long_key h k data else ske_k h k data).

(** The key material for an initialization vector of [iv_len] bytes, encryption
    keys of [bits] bits and HMAC keys of the length of the hash. *)
Definition ske_keymat (h : SilcHashObject) (data : list Z) (iv_len bits : Z) : SilcSKEKeyMaterial :=
  {| km_send_iv := ztake iv_len (ske_k h 0 data);
     km_receive_iv := ztake iv_len (ske_k h 1 data);
     km_iv_len := iv_len;
     km_send_enc_key := ske_enc_key h 2 data (bits / 8);
     km_receive_enc_key := ske_enc_key h 3 data (bits / 8);
     km_enc_key_len := bits;
     km_send_hmac_key := ske_k h 4 data;
     km_receive_hmac_key := ske_k h 5 data;
     km_hmac_key_len := hash_len h |}.

Lemma set_first_set x l k :
  zlen l < 2 ^ 30 - 1 -> set_first (silc_buffer_set (x :: l)) k = silc_buffer_set (k :: l).
Proof.
  intros Hl. unfold set_first, silc_buffer_put, silc_buffer_set.
  rewrite buffer_len_ok by (unfold buf_ok, b_size, SILC_MAX_ALLOC; simpl; lia).
  cbn [b_data b_head b_tail]. zcase; [simpl in *; lia|]. done.
Qed.

Section material.
Variables (h : SilcHashObject) (data : list Z).
Hypothesis Hh : hash_obj_ok h.
Hypothesis Hdata : zlen data < 2 ^ 29.

Lemma hashd_read x n : zlen x < 2 ^ 31 -> 0 <= n <= hash_len h ->
  mem_read (hashd h x) n = ztake n (hash_make h x).
Proof.
  intros Hx Hn. destruct (hash_make_ok h x Hh Hx) as (Hl & _ & _).
  unfold hashd, SILC_HASH_MAXLEN. rewrite mem_read_le by len. by rewrite ztake_app_le by lia.
Qed.

Lemma hashd_whole x : zlen x < 2 ^ 31 -> mem_read (hashd h x) (hash_len h) = hash_make h x.
Proof.
  intros Hx. destruct (hash_make_ok h x Hh Hx) as (Hl & _ & _).
  rewrite hashd_read by lia. apply ztake_all. lia.
Qed.

Lemma key_part_hashd x n : zlen x < 2 ^ 31 -> 0 < n <= hash_len h ->
  key_part (hashd h x) n = Some (ztake n (hash_make h x)).
Proof.
  intros Hx Hn. destruct (hash_make_ok h x Hh Hx) as (_ & _ & ?).
  unfold key_part. rewrite silc_calloc_ok_true by (unfold SILC_MAX_ALLOC; lia).
  by rewrite hashd_read by lia.
Qed.

Lemma key_buffer : exists buf,
  silc_buffer_alloc_size (u32 (1 + zlen data)) = Some buf /\
  (silc_buffer_format buf [F_UI8_CHAR 0; F_DATA (Some data) (zlen data)]).2 =
    silc_buffer_set (0 :: data).
Proof.
  rewrite u32_id by lia. rewrite buffer_alloc_size_ok by (unfold SILC_MAX_ALLOC; lia).
  eexists. split; [done|].
  rewrite (format_exact _ (1 + zlen data)); unfold fmt_bytes; cbn [map fmt_bytes1 concat];
    rewrite ?mem_read_exact, ?app_nil_r by done; [done| | |].
  - repeat constructor; simpl; lia.
  - rewrite length_app. simpl length. lia.
  - unfold SILC_MAX_ALLOC. lia.
Qed.

Lemma key_dist_spec k len :
  hash_len h < len ->
  silc_ske_key_dist h (silc_buffer_set (k :: data)) data (hash_len h) len =
    if 3 * hash_len h <? len then None else Some (ztake len (ske_long_key h k data)).
Proof.
  intros Hlen. set (n := hash_len h) in *.
  destruct (hash_make_ok h [] Hh ltac:(done)) as (_ & _ & Hn). fold n in Hn.
  unfold silc_ske_key_dist. zcase; [done|]. cbn [b_data silc_buffer_set].
  rewrite u32_id by lia. rewrite buffer_alloc_size_ok by (unfold SILC_MAX_ALLOC; lia).
  set (k1 := hashd h (k :: data)).
  assert (mem_read k1 n = ske_k h k data) as E1 by (apply hashd_whole; simpl length; lia).
  assert (zlen (ske_k h k data) = n) as L1 by (apply hash_make_ok; [done|simpl length; lia]).
  rewrite (format_exact _ (zlen data + n)); unfold fmt_bytes; cbn [map fmt_bytes1 concat snd];
    rewrite ?(mem_read_exact data) by done; rewrite ?E1, ?app_nil_r;
    [|repeat constructor; simpl; lia|rewrite length_app; lia|unfold SILC_MAX_ALLOC; lia].
  cbn [b_data silc_buffer_set]. set (k2 := hashd h (data ++ ske_k h k data)).
  assert (mem_read k2 n = hash_make h (data ++ ske_k h k data)) as E2
    by (apply hashd_whole; rewrite length_app; lia).
  assert (zlen (hash_make h (data ++ ske_k h k data)) = n) as L2
    by (apply hash_make_ok; [done|rewrite length_app; lia]).
  set (K1 := ske_k h k data) in *. set (K2 := hash_make h (data ++ K1)) in *.
  unfold silc_buffer_realloc. unfold silc_buffer_set.
  rewrite buffer_truelen_ok by (unfold buf_ok, b_size, SILC_MAX_ALLOC; simpl; len).
  unfold b_size. cbn [b_head b_data b_tail length].
  zcase; [len|]. rewrite silc_malloc_ok_true by (unfold SILC_MAX_ALLOC; lia).
  replace (zlen data + n + n - _) with n by len. cbn [app].
  unfold silc_buffer_pull_tail.
  rewrite buffer_taillen_ok by (unfold buf_ok, b_size, SILC_MAX_ALLOC; simpl; len).
  cbn [b_head b_data b_tail]. zcase; [len|].
  rewrite ztake_all, zdrop_all by len.
  replace (zlen data + n) with (zlen (data ++ K1)) by len.
  rewrite buffer_pull_app by (done || unfold buf_ok, b_size, SILC_MAX_ALLOC; simpl; len).
  rewrite format_plain; unfold fmt_bytes; cbn [map fmt_bytes1 concat snd b_head b_data b_tail];
    rewrite ?E2, ?app_nil_r, ?L2;
    [|repeat constructor; simpl; lia
     |unfold buf_fits, b_size, SILC_MAX_ALLOC; cbn [b_head b_data b_tail]; len
     |unfold SILC_MAX_ALLOC; lia].
  rewrite zdrop_all by len. rewrite app_nil_r, zdrop_nil.
  rewrite (buffer_push_app [] (data ++ K1)) by done. cbn [b_data].
  rewrite silc_calloc_ok_true by (unfold SILC_MAX_ALLOC; lia).
  rewrite <- app_assoc, hashd_whole by (rewrite !length_app; lia).
  assert (zlen (hash_make h (data ++ K1 ++ K2)) = n) as L3
    by (apply hash_make_ok; [done|rewrite !length_app; lia]).
  unfold key_part. rewrite silc_calloc_ok_true by (unfold SILC_MAX_ALLOC; lia).
  f_equal. unfold ske_long_key. cbv zeta. fold K1 K2.
  rewrite mem_read_le by (rewrite !length_app; lia). done.
Qed.

Lemma enc_key_spec k len :
  0 < len ->
  silc_ske_enc_key h (silc_buffer_set (k :: data)) data (hash_len h) len =
    if 3 * hash_len h <? len then None else Some (ske_enc_key h k data len).
Proof.
  intros Hlen. destruct (hash_make_ok h [] Hh ltac:(done)) as (_ & _ & Hn).
  unfold silc_ske_enc_key, ske_enc_key. destruct (Z.ltb_spec (hash_len h) len).
  - by apply key_dist_spec.
  - zcase; [lia|]. cbn [b_data silc_buffer_set]. apply key_part_hashd; simpl length; lia.
Qed.
End material.

(** * Matching keys *)

(** The two ends of one direction: a cipher that encrypts and one that decrypts,
    with the same key and IV, are peers, whatever they held before. *)
Definition cipher_obj_ok (o : SilcCipherObject) (L : CipherLaws (co_alg o)) : Prop :=
  forall c d key len iv iv',
    alg_peer (alg_set_iv (co_set_key o c key len true) (Some iv))
             (alg_set_iv (co_set_key o d key len false) (Some iv')).

(** [block_key] is the key, of which an AesContext holds the schedule of one of
    the directions. *)
Class BlockKeysLaws `(BlockKeys) := {
  set_decrypt_encrypt key len : set_decrypt_key key len = set_encrypt_key key len;
}.

Section default.
Context `{BL : BlockLaws} {BK : BlockKeys H} {BKL : BlockKeysLaws BK}.

Lemma cbc_object_ok name len : cipher_obj_ok (cbc_object name len) aes_cbc_laws.
Proof. intros c d key n iv iv'. simpl. by rewrite set_decrypt_encrypt. Qed.

Lemma ctr_object_ok name len : cipher_obj_ok (ctr_object name len) aes_ctr_laws.
Proof. intros c d key n iv iv'. done. Qed.
End default.

(** The initialization vector of a counter mode cipher: four bytes of the hash
    of the key exchange (in a rekey of the hash of the IV), eight bytes of the
    IV or zeros when the IV is in the packets, and four bytes that are zero, but
    in a rekey bytes of that hash again. *)
Definition ske_ctr_iv (rekeying iv_included : bool) (hash : list Z) (h : SilcHashObject)
    (key_iv : list Z) : list Z :=
  let d := if rekeying then hash_make h (ztake 8 key_iv) else ztake 4 hash ++ zrepeat 0 12 in
  ztake 4 d ++ (if iv_included then zrepeat 0 12 else ztake 8 key_iv ++ ztake 4 (zdrop 12 d)).

Definition ske_iv (mode : Z) rekeying iv_included hash h (key_iv : list Z) : list Z :=
  if mode =? SILC_CIPHER_MODE_CTR then ske_ctr_iv rekeying iv_included hash h key_iv
  else ztake 16 key_iv.

(** The array [iv] before a direction is set. *)
Definition iv_array_ok (rekeying iv_included : bool) (iv : list Z) : Prop :=
  zlen iv = 64 /\
  (rekeying = false -> zdrop 12 iv = zrepeat 0 52 /\
     (iv_included = true -> zdrop 4 iv = zrepeat 0 60)).

Lemma iv_put_len iv off src n : 0 <= off -> 0 <= n -> off + n <= zlen iv ->
  zlen (iv_put iv off src n) = zlen iv.
Proof. intros. unfold iv_put, mem_read. len. Qed.

Lemma iv_put_drop iv off src n m : 0 <= off -> 0 <= n -> off + n <= m -> off + n <= zlen iv ->
  zdrop m (iv_put iv off src n) = zdrop m iv.
Proof.
  intros. unfold iv_put. rewrite app_assoc.
  replace m with (zlen (ztake off iv ++ mem_read src n) + (m - (off + n)))
    at 1 by (unfold mem_read; len).
  rewrite <- zdrop_zdrop, zdrop_app_exact by (done || lia).
  rewrite zdrop_zdrop by lia. f_equal. lia.
Qed.

Section set_cipher.
Variables (o : SilcCipherObject) (L : CipherLaws (co_alg o)) (ctx : KeyContext)
  (h : SilcHashObject) (iv_included : bool).

Lemma ctr_iv_array iv0 hash key_iv :
  hash_obj_ok h -> 16 <= hash_len h -> iv_array_ok (kc_rekeying ctx) iv_included iv0 ->
  kc_hash ctx = Some hash -> 4 <= zlen hash -> 16 <= zlen key_iv ->
  exists iv,
    (if negb (kc_rekeying ctx) then
       match kc_hash ctx with
       | None => None
       | Some h =>
           let iv := iv_put iv0 0 h 4 in
           Some (if iv_included then iv else iv_put iv 4 key_iv 8)
       end
     else
       let digest := hash_make h (mem_read key_iv 8) in
       let iv := iv_put iv0 0 digest (zlen digest) in
       Some (if iv_included then iv_put iv 4 (zrepeat 0 12) 12 else iv_put iv 4 key_iv 8)) = Some iv /\
    ztake 16 iv = ske_ctr_iv (kc_rekeying ctx) iv_included hash h key_iv /\
    iv_array_ok (kc_rekeying ctx) iv_included iv.
Proof.
  intros Hh Hn [Hl Hz] Ek Hhash Hk. unfold ske_ctr_iv.
  destruct (kc_rekeying ctx); cbn [negb].
  - rewrite (mem_read_le key_iv) by lia. set (d := hash_make h (ztake 8 key_iv)).
    assert (zlen d = hash_len h /\ hash_len h <= 64) as [Hd Hd64].
    { destruct (hash_make_ok h (ztake 8 key_iv) Hh ltac:(len)) as (? & _ & ?). split; [done|lia]. }
    cbv zeta. eexists. split; [done|].
    assert (zlen (iv_put iv0 0 d (zlen d)) = 64) as Hl1 by (rewrite iv_put_len; lia).
    assert (forall src n, zlen src = n -> 0 < n <= 12 ->
      ztake 16 (iv_put (iv_put iv0 0 d (zlen d)) 4 src n) =
      ztake 4 d ++ src ++ ztake (12 - n) (zdrop (4 + n) d)) as E.
    { intros src n Hs Hr. unfold iv_put at 1. rewrite (mem_read_exact src) by done.
      unfold iv_put. rewrite ztake_0, mem_read_exact by done. cbn [app].
      rewrite Z.add_0_l, (ztake_app_le 4), zdrop_app_le by lia.
      rewrite app_assoc, (ztake_app_ge 16) by len. rewrite <- app_assoc. do 2 f_equal.
      replace (16 - _) with (12 - n) by len. by rewrite ztake_app_le by len. }
    destruct iv_included.
    + rewrite E by len. change (12 - 12) with 0. rewrite ztake_0, app_nil_r.
      split; [done|]. split; [rewrite iv_put_len; lia|done].
    + split; [|split; [rewrite iv_put_len; lia|done]].
      etransitivity; [|exact (E (ztake 8 key_iv) 8 ltac:(len) ltac:(lia))]. f_equal.
      unfold iv_put at 1 3. by rewrite (mem_read_le key_iv), (mem_read_exact (ztake _ _)) by len.
  - destruct (Hz eq_refl) as [Hz12 Hz4]. rewrite Ek. cbv zeta. eexists. split; [done|].
    assert (iv_put iv0 0 hash 4 = ztake 4 hash ++ zdrop 4 iv0) as E.
    { unfold iv_put. by rewrite ztake_0, mem_read_le by lia. }
    assert (zlen (iv_put iv0 0 hash 4) = 64) as Hl1 by (rewrite iv_put_len; lia).
    destruct iv_included.
    + rewrite E, Hz4 by done. split; [|split; [len|]].
      * rewrite (ztake_app_ge 16), (ztake_app_le _ (ztake 4 hash)) by len.
        rewrite (ztake_all 4 (ztake 4 hash)) by len. f_equal.
        replace (16 - _) with 12 by len. done.
      * intros _. rewrite !zdrop_app_ge by len. replace (12 - _) with 8 by len.
        replace (4 - _) with 0 by len. done.
    + split; [|split; [rewrite iv_put_len; lia|]].
      * unfold iv_put at 1. rewrite mem_read_le, E by lia.
        rewrite (ztake_app_le _ (ztake 4 hash)), (ztake_all 4 (ztake 4 hash)) by len.
        rewrite zdrop_app_ge by len. replace (4 + 8 - _) with 8 by len.
        rewrite zdrop_zdrop by lia. change (4 + 8) with 12. rewrite Hz12.
        rewrite (app_assoc _ _ (zrepeat 0 52)), (ztake_app_ge 16) by len.
        replace (16 - _) with 4 by len.
        rewrite (ztake_app_le _ (ztake 4 hash)), (ztake_all 4 (ztake 4 hash)) by len.
        rewrite zdrop_app_ge by len. replace (12 - _) with 8 by len.
        by rewrite <- app_assoc.
      * intros _. split; [|done]. rewrite iv_put_drop by lia.
        rewrite E, zdrop_app_ge by len. replace (12 - _) with 8 by len.
        rewrite zdrop_zdrop by lia. done.
Qed.

(** A cipher just allocated, with the key and an IV of the direction. *)
Definition keyed (key : list Z) (len : Z) (enc : bool) (iv iv16 : list Z)
  : @SilcCipher (co_alg o) :=
  {| c_context := alg_set_iv (co_set_key o (co_context o) key len enc) (Some iv); c_iv := iv16 |}.

Lemma set_cipher_key_spec iv0 hash key len key_iv enc :
  hash_obj_ok h -> 16 <= hash_len h -> iv_array_ok (kc_rekeying ctx) iv_included iv0 ->
  kc_hash ctx = Some hash -> 4 <= zlen hash -> 16 <= zlen key_iv ->
  exists iv iv',
    set_cipher_key ctx (Some h) iv_included iv0
      {| cipher_obj := o;
         cipher_state := {| c_context := co_context o; c_iv := zrepeat 0 16 |} |}
      key len key_iv enc =
    Some ({| cipher_obj := o;
             cipher_state := keyed key len enc iv
               (ske_iv (alg_mode (CipherAlg := co_alg o)) (kc_rekeying ctx) iv_included hash h
                  key_iv) |}, iv') /\
    iv_array_ok (kc_rekeying ctx) iv_included iv'.
Proof.
  intros Hh Hn Hiv Ek Hhash Hk. unfold set_cipher_key, ske_iv.
  cbn [silc_cipher_set_key cipher_set cipher_obj cipher_state c_context c_iv].
  unfold silc_cipher_get_mode, silc_cipher_set_iv, keyed. rewrite alg_iv_len_16.
  cbn [c_context c_iv].
  assert (forall x, 16 <= zlen x -> mem_read x 16 ++ zdrop 16 (zrepeat 0 16) = ztake 16 x) as E
    by (intros x Hx; rewrite mem_read_le by lia; by rewrite (zdrop_all 16), app_nil_r by len).
  destruct (alg_mode =? SILC_CIPHER_MODE_CTR).
  - destruct (ctr_iv_array iv0 hash key_iv Hh Hn Hiv Ek Hhash Hk) as (iv & E1 & Ei & Hok).
    cbv zeta in E1 |- *. rewrite E1. exists iv, iv. rewrite E by (destruct Hok; lia). by rewrite Ei.
  - exists key_iv, iv0. by rewrite E.
Qed.
End set_cipher.

Lemma ske_ctr_iv_block rekeying iv_included hash h key_iv :
  hash_obj_ok h -> 16 <= hash_len h -> 4 <= zlen hash -> bytes_ok hash -> 16 <= zlen key_iv ->
  bytes_ok key_iv -> is_block (ske_ctr_iv rekeying iv_included hash h key_iv).
Proof.
  intros Hh Hn Hl Hb Hk Hkb. unfold ske_ctr_iv.
  set (d := if rekeying then _ else _).
  assert (16 <= zlen d /\ bytes_ok d) as [Hd Hdb].
  { unfold d. destruct rekeying.
    - destruct (hash_make_ok h (ztake 8 key_iv) Hh ltac:(len)) as (-> & ? & _). done.
    - split; [len|]. apply Forall_app. split; [by apply Forall_take|].
      by apply bytes_ok_check. }
  split; [destruct iv_included; len|].
  apply Forall_app. split; [by apply Forall_take|]. destruct iv_included.
  - by apply bytes_ok_check.
  - apply Forall_app. split; [by apply Forall_take|]. by apply Forall_take, Forall_drop.
Qed.

(** The requirements on what both ends hold. *)
Record keys_shared (algs : SilcAlgs) (km : SilcSKEKeyMaterial) (hash : list Z)
    (c : Cipher) (m : Hmac) (h : SilcHashObject) (o : SilcCipherObject) (m0 : Hmac) : Prop := {
  ksh_cipher : registry_find co_name (silc_cipher_list algs) (silc_cipher_get_name c) = Some o;
  ksh_hmac : silc_hmac_alloc algs (silc_hmac_get_name m) = Some m0;
  ksh_hmac_len : 0 <= hmac_len (hmac_state m0) <= hash_len (hmac_hash_obj m0);
  ksh_hash_ok : hash_obj_ok h;
  ksh_hash_len : 16 <= hash_len h;
  ksh_hash : 4 <= zlen hash /\ bytes_ok hash;
  ksh_send_iv : 16 <= zlen (km_send_iv km) /\ bytes_ok (km_send_iv km);
  ksh_receive_iv : 16 <= zlen (km_receive_iv km) /\ bytes_ok (km_receive_iv km);
  ksh_hmac_key : 0 <= km_hmac_key_len km < 2 ^ 30;
}.

(** Two ends of a direction. *)
Definition cipher_matches (o : SilcCipherObject) (L : CipherLaws (co_alg o))
    (s r : option Cipher) : Prop :=
  exists s' r', s = Some {| cipher_obj := o; cipher_state := s' |} /\
    r = Some {| cipher_obj := o; cipher_state := r' |} /\ cipher_sync s' r'.

Definition hmac_matches (m0 : Hmac) (s r : option Hmac) : Prop :=
  exists s' r',
    s = Some {| hmac_obj := hmac_obj m0; hmac_hash_obj := hmac_hash_obj m0; hmac_state := s' |} /\
    r = Some {| hmac_obj := hmac_obj m0; hmac_hash_obj := hmac_hash_obj m0; hmac_state := r' |} /\
    hmac_opt_sync (Some s') (Some r').

Lemma is_block_iv mode rekeying iv_included hash h key_iv :
  hash_obj_ok h -> 16 <= hash_len h -> 4 <= zlen hash -> bytes_ok hash -> 16 <= zlen key_iv ->
  bytes_ok key_iv -> is_block (ske_iv mode rekeying iv_included hash h key_iv).
Proof.
  intros. unfold ske_iv. destruct (_ =? _); [by apply ske_ctr_iv_block|].
  split; [len|by apply Forall_take].
Qed.

Lemma hmac_key_matches m0 key n :
  0 <= hmac_len (hmac_state m0) <= hash_len (hmac_hash_obj m0) -> 0 <= n < 2 ^ 30 ->
  hmac_matches m0 (hmac_key_want (Some m0) key n) (hmac_key_want (Some m0) key n).
Proof.
  intros Hm Hn. unfold hmac_matches, hmac_key_want, hmac_set_key. eexists _, _.
  split; [done|]. split; [done|]. cbn [hmac_opt_sync hmac_len silc_hmac_set_key].
  split; [done|]. split; [done|]. split; [exact Hm|].
  unfold key_bytes. cbn [hmac_key silc_hmac_set_key].
  destruct (silc_malloc_ok _); [|done]. rewrite zlen_mem_read by lia. lia.
Qed.

Lemma initial_iv_array rekeying iv_included :
  iv_array_ok rekeying iv_included (zrepeat 0 SILC_HASH_MAXLEN).
Proof. by split. Qed.

Section match_ends.
Context (algs : SilcAlgs) (km : SilcSKEKeyMaterial) (hash : list Z) (c : Cipher) (m : Hmac)
  (h : SilcHashObject) (o : SilcCipherObject) (m0 : Hmac) (L : CipherLaws (co_alg o)).
Hypothesis Hs : keys_shared algs km hash c m h o m0.

(** The sending and the receiving cipher of an end: keys, IVs of the directions. *)
Lemma set_cipher_keys_spec (responder rekeying iv_included : bool) :
  let k := silc_cipher_alloc algs (silc_cipher_get_name c) in
  let ks := if responder then km_receive_enc_key km else km_send_enc_key km in
  let ivs := if responder then km_receive_iv km else km_send_iv km in
  let kr := if responder then km_send_enc_key km else km_receive_enc_key km in
  let ivr := if responder then km_send_iv km else km_receive_iv km in
  let iv16 := ske_iv (alg_mode (CipherAlg := co_alg o)) rekeying iv_included hash h in
  exists iv iv' : list Z,
    set_cipher_keys {| kc_responder := responder; kc_rekeying := rekeying; kc_hash := Some hash |}
      (Some h) iv_included km k k =
    Some (Some {| cipher_obj := o;
                  cipher_state := keyed o ks (km_enc_key_len km) true iv (iv16 ivs) |},
          Some {| cipher_obj := o;
                  cipher_state := keyed o kr (km_enc_key_len km) false iv' (iv16 ivr) |}).
Proof.
  unfold silc_cipher_alloc. rewrite (ksh_cipher _ _ _ _ _ _ _ _ Hs). destruct Hs.
  unfold set_cipher_keys. cbn [kc_responder].
  assert (forall iv0 key len key_iv enc, iv_array_ok rekeying iv_included iv0 ->
    16 <= zlen key_iv -> exists iv iv',
    set_cipher_key {| kc_responder := responder; kc_rekeying := rekeying; kc_hash := Some hash |}
      (Some h) iv_included iv0
      {| cipher_obj := o;
         cipher_state := {| c_context := co_context o; c_iv := zrepeat 0 16 |} |}
      key len key_iv enc =
    Some ({| cipher_obj := o;
             cipher_state := keyed o key len enc iv
               (ske_iv (alg_mode (CipherAlg := co_alg o)) rekeying iv_included hash h key_iv) |},
          iv') /\
    iv_array_ok rekeying iv_included iv') as K.
  { intros iv0 key len key_iv enc Hi Hk.
    exact (set_cipher_key_spec o L
      {| kc_responder := responder; kc_rekeying := rekeying; kc_hash := Some hash |}
      h iv_included iv0 hash key len key_iv enc
      ksh_hash_ok0 ksh_hash_len0 Hi eq_refl (proj1 ksh_hash0) Hk). }
  destruct responder.
  - destruct (K _ (km_receive_enc_key km) (km_enc_key_len km) (km_receive_iv km) true
      (initial_iv_array _ _) (proj1 ksh_receive_iv0)) as (iv & iv1 & -> & H1).
    destruct (K _ (km_send_enc_key km) (km_enc_key_len km) (km_send_iv km) false
      H1 (proj1 ksh_send_iv0)) as (iv' & iv2 & -> & _).
    by exists iv, iv'.
  - destruct (K _ (km_send_enc_key km) (km_enc_key_len km) (km_send_iv km) true
      (initial_iv_array _ _) (proj1 ksh_send_iv0)) as (iv & iv1 & -> & H1).
    destruct (K _ (km_receive_enc_key km) (km_enc_key_len km) (km_receive_iv km) false
      H1 (proj1 ksh_receive_iv0)) as (iv' & iv2 & -> & _).
    by exists iv, iv'.
Qed.

Lemma keyed_match key len iv iv' rekeying iv_included key_iv :
  cipher_obj_ok o L -> 16 <= zlen key_iv -> bytes_ok key_iv ->
  let iv16 := ske_iv (alg_mode (CipherAlg := co_alg o)) rekeying iv_included hash h key_iv in
  cipher_matches o L (Some {| cipher_obj := o; cipher_state := keyed o key len true iv iv16 |})
    (Some {| cipher_obj := o; cipher_state := keyed o key len false iv' iv16 |}).
Proof.
  intros Ho Hk Hb. destruct Hs. eexists _, _. split; [done|]. split; [done|].
  split; [apply Ho|]. split; [done|]. by apply is_block_iv; try apply ksh_hash0.
Qed.
End match_ends.

(** C7. silc_ske_process_key_material_data derives from the secret [data] the
    key material of the protocol, with every part a prefix of hash(k || data) or,
    for encryption keys longer than the hash, of the three hashes K1, K2, K3, and
    gives NULL exactly when the key length in bytes is 0 or above three hashes. *)
Theorem silc_ske_process_key_material_data_spec h data iv_len bits :
  hash_obj_ok h -> zlen data < 2 ^ 29 -> 0 < iv_len <= hash_len h -> 0 <= bits < 2 ^ 32 ->
  silc_ske_process_key_material_data data iv_len bits (hash_len h) h =
    if (bits / 8 =? 0) || (3 * hash_len h <? bits / 8) then None
    else Some (ske_keymat h data iv_len bits).
Proof.
  intros Hh Hd Hiv Hb. destruct (hash_make_ok h [] Hh ltac:(done)) as (_ & _ & Hn).
  destruct (key_buffer data Hd) as (buf & E1 & E2).
  assert (forall k, hash_make h (k :: data) = ztake (hash_len h) (hash_make h (k :: data))) as W.
  { intros k. rewrite ztake_all; [done|].
    destruct (hash_make_ok h (k :: data) Hh ltac:(simpl length; lia)). lia. }
  unfold silc_ske_process_key_material_data. cbv beta zeta.
  rewrite E1, E2, !(set_first_set 0 data) by lia.
  cbn [b_data silc_buffer_set]. rewrite !key_part_hashd by (done || simpl length; lia).
  rewrite <- !W. destruct (Z.eqb_spec (bits / 8) 0) as [Z0|Z0]; cbn [orb].
  - unfold silc_ske_enc_key. rewrite Z0. zcase; [lia|].
    destruct ((_ =? 0) || _ || _); [done|]. done.
  - assert (0 < bits / 8) by (Z.to_euclidean_division_equations; lia).
    rewrite !enc_key_spec by done.
    destruct (Z.eqb_spec iv_len 0); [lia|]. destruct (Z.eqb_spec bits 0); [by subst|].
    destruct (Z.eqb_spec (hash_len h) 0); [lia|]. cbn [orb]. by destruct (_ <? _).
Qed.

(** A 256 bit key from SHA-1, with two hashes. *)
Lemma silc_ske_process_key_material_data_spec_witness :
  silc_ske_process_key_material_data (str "secret") 16 256 20 sha1_object =
    Some (ske_keymat sha1_object (str "secret") 16 256).
Proof.
  apply (silc_ske_process_key_material_data_spec sha1_object (str "secret") 16 256).
  - exact (inhabits sha1_laws).
  - reflexivity.
  - by split.
  - by split.
Defined.

(** C4. After a key exchange the two ends hold matching keys: silc_ske_set_keys at
    the initiator and at the responder, with the same key material and hash,
    succeed; in each direction the cipher that sends and the one that receives
    are peers with the same IV, and the HMACs have the same key and length.  These
    are the relations from which the packets of the stream are delivered. *)
Theorem silc_ske_set_keys_match algs km hash c m h o m0 (L : CipherLaws (co_alg o)) rekeying flags :
  keys_shared algs km hash c m h o m0 -> is_Some (silc_hash_alloc algs (ho_name h)) ->
  cipher_obj_ok o L ->
  let set responder :=
    silc_ske_set_keys algs
      {| kc_responder := responder; kc_rekeying := rekeying; kc_hash := Some hash |}
      km flags (Some c) (Some m) (Some h) true true true true true in
  exists i r, set false = Some (Some i) /\ set true = Some (Some r) /\
    cipher_matches o L (sk_send_key i) (sk_receive_key r) /\
    cipher_matches o L (sk_send_key r) (sk_receive_key i) /\
    hmac_matches m0 (sk_hmac_send i) (sk_hmac_receive r) /\
    hmac_matches m0 (sk_hmac_send r) (sk_hmac_receive i).
Proof.
  intros Hs [h' Eh] Ho. pose proof Hs as []. unfold silc_ske_set_keys. cbv zeta.
  set (ivi := negb _).
  pose proof (set_cipher_keys_spec algs km hash c m h o m0 L Hs false rekeying ivi)
    as (iv1 & iv2 & Ei).
  pose proof (set_cipher_keys_spec algs km hash c m h o m0 L Hs true rekeying ivi)
    as (iv3 & iv4 & Er).
  unfold alloc_want. rewrite Eh, ksh_hmac0.
  assert (exists k, silc_cipher_alloc algs (silc_cipher_get_name c) = Some k) as [k Ek]
    by (unfold silc_cipher_alloc; rewrite ksh_cipher0; by eexists).
  cbv zeta in Ei, Er. rewrite Ek in *. cbn [try kc_responder]. rewrite Ei, Er.
  eexists _, _. split; [done|]. split; [done|].
  cbn [sk_send_key sk_receive_key sk_hmac_send sk_hmac_receive].
  split; [apply (keyed_match algs km hash c m h o m0 L Hs); [done|apply ksh_send_iv0..]|].
  split; [apply (keyed_match algs km hash c m h o m0 L Hs); [done|apply ksh_receive_iv0..]|].
  split; by apply hmac_key_matches.
Qed.

(** The key schedule of the toy block function: the first 16 bytes. *)
Lemma toy_schedule_block key : is_block (ztake 16 (map u8 key ++ zrepeat 0 16)).
Proof.
  split; [len|]. apply Forall_take, Forall_app. split; [|by apply bytes_ok_check].
  apply Forall_map, Forall_true. intros x. apply u8_range.
Qed.

#[export] Instance toy_block_keys : BlockKeys toy_cipher :=
  {| block_zero := toy_key;
     set_encrypt_key key len := exist _ _ (toy_schedule_block key);
     set_decrypt_key key len := exist _ _ (toy_schedule_block key) |}.

#[export] Instance toy_block_keys_laws : BlockKeysLaws toy_block_keys.
Proof. by split. Defined.

Definition witness_algs : SilcAlgs :=
  {| silc_cipher_list := silc_default_ciphers []; silc_hash_list := silc_default_hash;
     silc_hmac_list := silc_default_hmacs; silc_pkcs_alg_list := silc_default_pkcs_alg |}.

Definition witness_cipher : SilcCipherObject := ctr_object "aes-256-ctr" 256.
Definition witness_negotiated : Cipher :=
  {| cipher_obj := witness_cipher;
     cipher_state := @Build_SilcCipher (co_alg witness_cipher) (co_context witness_cipher)
       (zrepeat 0 16) |}.
Definition witness_ske_hmac : Hmac :=
  @Build_Hmac {| hmo_name := str "hmac-sha1-96"; hmo_len := 12 |} sha1_object
    (@Build_SilcHmac (ho_alg sha1_object) 12 (ho_context sha1_object) (zrepeat 0 64)
      (zrepeat 0 64) None).

(** With the default algorithms, aes-256-ctr, hmac-sha1-96 and SHA-1. *)
Lemma silc_ske_set_keys_match_witness :
  let km := ske_keymat sha1_object (str "secret") 16 256 in
  let set responder :=
    silc_ske_set_keys witness_algs
      {| kc_responder := responder; kc_rekeying := false; kc_hash := Some (zrepeat 9 20) |}
      km 0 (Some witness_negotiated) (Some witness_ske_hmac) (Some sha1_object)
      true true true true true in
  exists i r, set false = Some (Some i) /\ set true = Some (Some r) /\
    cipher_matches witness_cipher aes_ctr_laws (sk_send_key i) (sk_receive_key r).
Proof.
  cbv zeta.
  destruct (silc_ske_set_keys_match witness_algs (ske_keymat sha1_object (str "secret") 16 256)
    (zrepeat 9 20) witness_negotiated witness_ske_hmac sha1_object witness_cipher
    witness_ske_hmac aes_ctr_laws false 0) as (i & r & Ei & Er & Hm & _).
  - split.
    + reflexivity.
    + reflexivity.
    + split; reflexivity || discriminate.
    + exact (inhabits sha1_laws).
    + discriminate.
    + split; [discriminate|]. by apply bytes_ok_check.
    + split; [vm_compute; discriminate|]. apply bytes_ok_check. vm_compute. reflexivity.
    + split; [vm_compute; discriminate|]. apply bytes_ok_check. vm_compute. reflexivity.
    + by split.
  - by eexists.
  - exact (ctr_object_ok "aes-256-ctr" 256).
  - exists i, r. split; [exact Ei|]. split; [exact Er|exact Hm].
Defined.
