(* ===== verification/SkeState.v ===== *)
(** lib/silcske/silcske_i.h and silcske.h: the SKE context and what is around it.

    The context of a key exchange is the record [SilcSKE], with one update
    function per field.  The state machine of silcfsm.c and the tasks of the
    scheduler that concern the context are fields of it; so are the calls it
    makes to its environment ([ske_out]) and the answers the environment gives
    at once ([ske_answers]). *)

From S2P Require Import Prelude CTypes Buffer BufFmt Id SkePayload Auth Cipher Hash Hmac Algs SkeGroup SkeKeys.

(** What silcpk.h and silcpkcs.h offer to the key exchange, next to PkcsOps:
    signatures of data that is hashed already, verified with a NULL hash. *)
Class SkePkcs `(PkcsOps) := {
  silc_pkcs_sign_hash : SilcPrivateKey -> list Z -> Z -> SilcHashObject -> option (list Z);
  silc_pkcs_verify_hash : SilcPublicKey -> list Z -> list Z -> bool;
  silc_pkcs_get_type : SilcPublicKey -> Z;
  silc_pkcs_public_key_alloc : Z -> list Z -> option SilcPublicKey;
}.

Coercion status_code (s : SilcSKEStatus) : Z :=
  match s with
  | SILC_SKE_STATUS_OK => 0
  | SILC_SKE_STATUS_ERROR => 1
  | SILC_SKE_STATUS_BAD_PAYLOAD => 2
  | SILC_SKE_STATUS_UNKNOWN_GROUP => 3
  | SILC_SKE_STATUS_UNKNOWN_CIPHER => 4
  | SILC_SKE_STATUS_UNKNOWN_PKCS => 5
  | SILC_SKE_STATUS_UNKNOWN_HASH_FUNCTION => 6
  | SILC_SKE_STATUS_UNKNOWN_HMAC => 7
  | SILC_SKE_STATUS_UNSUPPORTED_PUBLIC_KEY => 8
  | SILC_SKE_STATUS_INCORRECT_SIGNATURE => 9
  | SILC_SKE_STATUS_BAD_VERSION => 10
  | SILC_SKE_STATUS_INVALID_COOKIE => 11
  | SILC_SKE_STATUS_PUBLIC_KEY_NOT_PROVIDED => 12
  | SILC_SKE_STATUS_BAD_RESERVED_FIELD => 13
  | SILC_SKE_STATUS_BAD_PAYLOAD_LENGTH => 14
  | SILC_SKE_STATUS_SIGNATURE_ERROR => 15
  | SILC_SKE_STATUS_OUT_OF_MEMORY => 16
  | SILC_SKE_STATUS_TIMEOUT => 17
  | SILC_SKE_STATUS_PROBE_TIMEOUT => 18
  end.

Definition SILC_PACKET_SUCCESS : Z := 2.
Definition SILC_PACKET_FAILURE : Z := 3.
Definition SILC_PACKET_KEY_EXCHANGE : Z := 13.
Definition SILC_PACKET_KEY_EXCHANGE_1 : Z := 14.
Definition SILC_PACKET_KEY_EXCHANGE_2 : Z := 15.
Definition SILC_PACKET_REKEY : Z := 22.
Definition SILC_PACKET_REKEY_DONE : Z := 23.

Definition SILC_SKE_RETRY_COUNT : Z := 4.
Definition SILC_SKE_RETRY_MUL : Z := 2.
Definition SILC_SKE_RETRY_RAND : Z := 2.
Definition SILC_SKE_RETRY_MIN : Z := 1.

(** The state functions; [next_state] of the machine. *)
Inductive SkeSt :=
| silc_ske_st_initiator_start | silc_ske_st_initiator_phase1 | silc_ske_st_initiator_phase2
| silc_ske_st_initiator_phase3 | silc_ske_st_initiator_phase4 | silc_ske_st_initiator_end
| silc_ske_st_initiator_aborted | silc_ske_st_initiator_error | silc_ske_st_initiator_failure
| silc_ske_st_responder_start | silc_ske_st_responder_phase1 | silc_ske_st_responder_phase2
| silc_ske_st_responder_phase4 | silc_ske_st_responder_phase5 | silc_ske_st_responder_end
| silc_ske_st_responder_aborted | silc_ske_st_responder_failure | silc_ske_st_responder_error
| silc_ske_st_rekey_initiator_start | silc_ske_st_rekey_initiator_done
| silc_ske_st_rekey_initiator_end | silc_ske_st_rekey_responder_wait
| silc_ske_st_rekey_responder_start | silc_ske_st_rekey_responder_done
| silc_ske_st_rekey_responder_end.

(** The tasks of the scheduler with the SKE or its machine as context. *)
Inductive SkeTask :=
| silc_fsm_run | silc_fsm_finish_fsm | silc_ske_timeout | silc_ske_probe_timeout
| silc_ske_packet_send_retry.

#[export] Instance SkeTask_eq_dec : EqDecision SkeTask.
Proof. solve_decision. Defined.
#[export] Instance SkeSt_eq_dec : EqDecision SkeSt.
Proof. solve_decision. Defined.

Record SkePacket := {
  pkt_type : Z;
  pkt_buffer : SilcBuffer;
  pkt_src_id : list Z;
  pkt_src_id_len : Z;
  pkt_src_id_type : Z;
}.

(** [pfs] and [ske_group] are bit fields of 1 and 8 bits, [enc_key_len] of 23. *)
Record SilcSKERekeyMaterial := {
  rk_send_enc_key : option (list Z);
  rk_hash : option (list Z);
  rk_enc_key_len : Z;
  rk_ske_group : Z;
  rk_pfs : bool;
}.

(** The keys of the packet stream, and whether the SKE is linked to it. *)
Record SkeStream := {
  stm_udp : bool;
  stm_linked : bool;
  stm_send_key : option Cipher;
  stm_receive_key : option Cipher;
  stm_hmac_send : option Hmac;
  stm_hmac_receive : option Hmac;
}.

(** What the environment answers: whether the next packets are sent, and whether
    the key verification completes before the call returns, and how. *)
Record SkeAnswers := {
  ans_sent : list bool;
  ans_verified : list (option Z);
  ans_found : list (option bool);
}.

(** The payload over the integers of SkeGroup. *)
Abbreviation SilcSKEKEPayload := (@SilcSKEKEPayload Z).

Section state.
Context `{PkcsOps}.

Record SilcSKESecurityProperties := {
  pr_flags : Z;
  pr_group : option SilcSKEDiffieHellmanGroup;
  pr_cipher : option Cipher;
  pr_hmac : option Hmac;
  pr_hash : option SilcHashObject;
  pr_public_key : option SilcPublicKey;
  pr_remote_port : Z;
}.

(** What does not change while the protocol runs. *)
Record SkeConf := {
  cf_version : option (list Z);
  cf_flags : Z;
  cf_session_port : Z;
  cf_public_key : option SilcPublicKey;
  cf_private_key : option SilcPrivateKey;
  cf_verify_key : bool;
  cf_completed : bool;
  cf_repository : bool;
  cf_responder : bool;
  cf_rekeying : bool;
  cf_no_acks : bool;
  cf_timeout : Z;
  cf_probe_timeout : Z;
}.

(** The calls the SKE makes: a packet of a type and data; the completion callback
    with the status and, when it is OK, what was negotiated; ... *)
Inductive SkeOutput :=
| O_send (type : Z) (data : list Z)
| O_complete (status : Z)
    (result : option (option SilcSKESecurityProperties * option SilcSKEKeyMaterial *
                      option SilcSKERekeyMaterial))
| O_verify_key (pk : SilcPublicKey)
| O_skr_find (pk : SilcPublicKey)
| O_set_ids (type : Z) (id : option SilcID)
| O_set_keys (send receive : option Cipher) (hmac_send hmac_receive : option Hmac).

Record SilcSKE := Ske {
  ske_conf : SkeConf;
  ske_status : Z;
  ske_prop : option SilcSKESecurityProperties;
  ske_start_payload : option SilcSKEStartPayload;
  ske_ke1_payload : option SilcSKEKEPayload;
  ske_ke2_payload : option SilcSKEKEPayload;
  ske_start_payload_copy : option SilcBuffer;
  ske_x : option Z;
  ske_KEY : option Z;
  ske_hash : option (list Z);
  ske_remote_version : option (list Z);
  ske_packet : option SkePacket;
  ske_keymat : option SilcSKEKeyMaterial;
  ske_rekey : option SilcSKERekeyMaterial;
  ske_aborted : bool;
  ske_failure_notified : bool;
  ske_refcnt : Z;
  ske_retry_timer : Z;
  ske_retry_count : Z;
  ske_retrans : option (Z * list Z);
  ske_next_state : option SkeSt;
  ske_started : bool;
  ske_synchronous : bool;
  ske_tasks : list SkeTask;
  ske_rng : list Z;
  ske_answers : SkeAnswers;
  ske_stream : SkeStream;
  ske_out : list SkeOutput;
}.

(** The record from its fields, to update one of them. *)
Definition ske_eta (s : SilcSKE) : SilcSKE :=
  Ske
    (ske_conf s) (ske_status s) (ske_prop s) (ske_start_payload s) (ske_ke1_payload s)
    (ske_ke2_payload s) (ske_start_payload_copy s) (ske_x s) (ske_KEY s) (ske_hash s)
    (ske_remote_version s) (ske_packet s) (ske_keymat s) (ske_rekey s) (ske_aborted s)
    (ske_failure_notified s) (ske_refcnt s) (ske_retry_timer s) (ske_retry_count s)
    (ske_retrans s) (ske_next_state s) (ske_started s) (ske_synchronous s) (ske_tasks s)
    (ske_rng s) (ske_answers s) (ske_stream s) (ske_out s).

Ltac set_field s proj v :=
  let r := eval cbv beta delta [ske_eta] in (ske_eta s) in
  match r with context C [proj s] => let t := context C [v] in exact t end.

Definition set_status (v : Z) s := ltac:(set_field s ske_status v).
Definition set_prop (v : option SilcSKESecurityProperties) s := ltac:(set_field s ske_prop v).
Definition set_start_payload (v : option SilcSKEStartPayload) (s : SilcSKE) : SilcSKE :=
  ltac:(set_field s ske_start_payload v).
Definition set_ke1_payload (v : option SilcSKEKEPayload) (s : SilcSKE) : SilcSKE :=
  ltac:(set_field s ske_ke1_payload v).
Definition set_ke2_payload (v : option SilcSKEKEPayload) (s : SilcSKE) : SilcSKE :=
  ltac:(set_field s ske_ke2_payload v).
Definition set_start_payload_copy (v : option SilcBuffer) (s : SilcSKE) : SilcSKE :=
  ltac:(set_field s ske_start_payload_copy v).
Definition set_x (v : option Z) s := ltac:(set_field s ske_x v).
Definition set_KEY (v : option Z) s := ltac:(set_field s ske_KEY v).
Definition set_hash (v : option (list Z)) s := ltac:(set_field s ske_hash v).
Definition set_remote_version (v : option (list Z)) s := ltac:(set_field s ske_remote_version v).
Definition set_packet (v : option SkePacket) s := ltac:(set_field s ske_packet v).
Definition set_keymat (v : option SilcSKEKeyMaterial) s := ltac:(set_field s ske_keymat v).
Definition set_rekey (v : option SilcSKERekeyMaterial) s := ltac:(set_field s ske_rekey v).
Definition set_aborted (v : bool) s := ltac:(set_field s ske_aborted v).
Definition set_failure_notified (v : bool) s := ltac:(set_field s ske_failure_notified v).
Definition set_refcnt (v : Z) s := ltac:(set_field s ske_refcnt v).
Definition set_retry_timer (v : Z) s := ltac:(set_field s ske_retry_timer v).
Definition set_retry_count (v : Z) s := ltac:(set_field s ske_retry_count v).
Definition set_retrans (v : option (Z * list Z)) s := ltac:(set_field s ske_retrans v).
Definition set_next_state (v : option SkeSt) s := ltac:(set_field s ske_next_state v).
Definition set_started (v : bool) s := ltac:(set_field s ske_started v).
Definition set_synchronous (v : bool) s := ltac:(set_field s ske_synchronous v).
Definition set_tasks (v : list SkeTask) s := ltac:(set_field s ske_tasks v).
Definition set_rng (v : list Z) s := ltac:(set_field s ske_rng v).
Definition set_answers (v : SkeAnswers) s := ltac:(set_field s ske_answers v).
Definition set_stream (v : SkeStream) s := ltac:(set_field s ske_stream v).
Definition set_out (v : list SkeOutput) s := ltac:(set_field s ske_out v).

Definition output (o : SkeOutput) (s : SilcSKE) : SilcSKE := set_out (ske_out s ++ [o]) s.

(** A field of the security properties; [prop] must not be NULL. *)
Definition set_prop_public_key (k : option SilcPublicKey) (p : SilcSKESecurityProperties) :=
  {| pr_flags := pr_flags p; pr_group := pr_group p; pr_cipher := pr_cipher p;
     pr_hmac := pr_hmac p; pr_hash := pr_hash p; pr_public_key := k;
     pr_remote_port := pr_remote_port p |}.

Definition set_prop_keys (c : option Cipher) (h : option Hmac) (p : SilcSKESecurityProperties) :=
  {| pr_flags := pr_flags p; pr_group := pr_group p; pr_cipher := c; pr_hmac := h;
     pr_hash := pr_hash p; pr_public_key := pr_public_key p;
     pr_remote_port := pr_remote_port p |}.
End state.
