(* ===== verification/Ske.v ===== *)
(** lib/silcske/silcske.c: the parts of the key exchange the states are made of.

    Version check, selection of the security properties, random numbers, the
    HASH values, key and rekey material of a context, and the sending of packets
    with their retransmission. *)

From stdpp Require Import strings.
From S2P Require Import Prelude CTypes Buffer BufFmt Id SkePayload Auth Cipher Hash Hmac Algs SkeGroup SkeKeys SkeState.

Section ske.
Context `{SkePkcs} (algs : SilcAlgs).

(** * Version *)

(** With NULL for the results: whether the string has the form of a version. *)
Definition silc_parse_version_string (version : list Z) : bool :=
  if negb (strstr version (str "SILC-")) then false
  else
    let cp := zdrop 5 version in
    if zlen cp =? 0 then false
    else
      match strchr cp 46 with
      | None => false
      | Some t =>
          let cp := zdrop 1 t in
          if zlen cp =? 0 then false
          else
            match strchr cp 45 with
            | None => false
            | Some t => negb (zlen (zdrop 1 t) =? 0)
            end
      end.

Definition silc_ske_check_version (s : SilcSKE) : Z :=
  match ske_remote_version s, cf_version (ske_conf s) with
  | Some r, Some _ =>
      if silc_parse_version_string (cstr r) then SILC_SKE_STATUS_OK
      else SILC_SKE_STATUS_BAD_VERSION
  | _, _ => SILC_SKE_STATUS_BAD_VERSION
  end.

(** * Security properties *)

(** [while (cp)]: the first item between the commas that is supported. *)
Fixpoint select_item (fuel : nat) (supported : list Z -> bool) (cp : list Z) : option (list Z) :=
  match fuel with
  | O => None
  | S fuel =>
      let len := strcspn cp 44 in
      let item := ztake len cp in
      if supported item then Some item
      else
        let cp := zdrop len cp in
        if zlen cp =? 0 then None else select_item fuel supported (zdrop 1 cp)
  end.

Definition str_field (s : list Z) : SkeField := {| f_data := Some s; f_len := u16 (zlen s) |}.

(** A list with a comma is searched; a single name is taken as it is. *)
Definition select_alg (supported : list Z -> bool) (rp : SkeField) : option SkeField :=
  match f_data rp with
  | None => Some rp
  | Some d =>
      let cp := cstr d in
      match strchr cp 44 with
      | Some _ =>
          match select_item (S (length cp)) supported cp with
          | Some item => Some (str_field item)
          | None => None
          end
      | None => Some {| f_data := Some cp; f_len := f_len rp |}
      end
  end.

Definition null_field : SkeField := {| f_data := None; f_len := 0 |}.

(** Only a list is searched for "none". *)
Definition select_comp (rp : SkeField) : SkeField :=
  match f_data rp with
  | None => null_field
  | Some d =>
      let cp := cstr d in
      match strchr cp 44 with
      | Some _ =>
          match select_item (S (length cp)) (fun item => str_eq item (str "none")) cp with
          | Some item => str_field item
          | None => null_field
          end
      | None => null_field
      end
  end.

Definition start_len (version ke_grp pkcs enc hash hmac comp : SkeField) : Z :=
  u16 (1 + 1 + 2 + SILC_SKE_COOKIE_LEN + 2 + f_len version + 2 + f_len ke_grp +
       2 + f_len pkcs + 2 + f_len enc + 2 + f_len hash + 2 + f_len hmac + 2 + f_len comp).

(** [SILC_PUT16_MSB(port, cookie)] *)
Definition put_port (port : Z) (cookie : list Z) : list Z :=
  SILC_PUT16_MSB port ++ zdrop 2 cookie.

Definition field_str (f : SkeField) : list Z := ptr_bytes (f_data f).

(** The status, and the context with what was written to it: the security
    properties are there as far as they were set when it fails. *)
Definition silc_ske_select_security_properties (s : SilcSKE) (rp : SilcSKEStartPayload)
  : Z * SilcSKE :=
  if f_len (sp_ke_grp rp) =? 0 then (SILC_SKE_STATUS_BAD_PAYLOAD : Z, s)
  else if f_len (sp_pkcs_alg rp) =? 0 then (SILC_SKE_STATUS_BAD_PAYLOAD : Z, s)
  else if f_len (sp_enc_alg rp) =? 0 then (SILC_SKE_STATUS_BAD_PAYLOAD : Z, s)
  else if f_len (sp_hash_alg rp) =? 0 then (SILC_SKE_STATUS_BAD_PAYLOAD : Z, s)
  else if f_len (sp_hmac_alg rp) =? 0 then (SILC_SKE_STATUS_BAD_PAYLOAD : Z, s)
  else
    let prop := fun flags port g c h hm =>
      Some {| pr_flags := flags; pr_group := g; pr_cipher := c; pr_hmac := hm; pr_hash := h;
              pr_public_key := None; pr_remote_port := port |} in
    let s := set_prop (prop 0 0 None None None None) s in
    let s := set_remote_version (silc_memdup (field_str (sp_version rp))
                                             (f_len (sp_version rp))) s in
    let status := silc_ske_check_version s in
    if negb (status =? SILC_SKE_STATUS_OK) then (status, set_status status s)
    else
      let flags := sp_flags rp in
      let cookie := mem_read (field_str (sp_cookie rp)) SILC_SKE_COOKIE_LEN in
      let session_port := cf_session_port (ske_conf s) in
      let iv_port := negb (Z.land flags SILC_SKE_SP_FLAG_IV_INCLUDED =? 0) &&
                     negb (session_port =? 0) in
      let port := if iv_port then SILC_GET16_MSB cookie else 0 in
      let cookie := if iv_port then put_port session_port cookie else cookie in
      let version := str_field (ptr_bytes (cf_version (ske_conf s))) in
      let prop := prop flags port in
      match select_alg (fun n => match silc_ske_group_get_by_name n with
                                 | Some _ => true | None => false end) (sp_ke_grp rp) with
      | None => (SILC_SKE_STATUS_UNKNOWN_GROUP : Z, set_prop (prop None None None None) s)
      | Some ke_grp =>
      match silc_ske_group_get_by_name (field_str ke_grp) with
      | None => (SILC_SKE_STATUS_UNKNOWN_GROUP : Z, set_prop (prop None None None None) s)
      | Some g =>
      match select_alg (silc_pkcs_find_algorithm algs) (sp_pkcs_alg rp) with
      | None => (SILC_SKE_STATUS_UNKNOWN_PKCS : Z, set_prop (prop (Some g) None None None) s)
      | Some pkcs =>
      match select_alg (silc_cipher_is_supported algs) (sp_enc_alg rp) with
      | None => (SILC_SKE_STATUS_UNKNOWN_CIPHER : Z, set_prop (prop (Some g) None None None) s)
      | Some enc =>
      match silc_cipher_alloc algs (field_str enc) with
      | None => (SILC_SKE_STATUS_UNKNOWN_CIPHER : Z, set_prop (prop (Some g) None None None) s)
      | Some c =>
      match select_alg (silc_hash_is_supported algs) (sp_hash_alg rp) with
      | None => (SILC_SKE_STATUS_UNKNOWN_HASH_FUNCTION : Z,
                 set_prop (prop (Some g) (Some c) None None) s)
      | Some hash =>
      match silc_hash_alloc algs (field_str hash) with
      | None => (SILC_SKE_STATUS_UNKNOWN_HASH_FUNCTION : Z,
                 set_prop (prop (Some g) (Some c) None None) s)
      | Some h =>
      match select_alg (silc_hmac_is_supported algs) (sp_hmac_alg rp) with
      | None => (SILC_SKE_STATUS_UNKNOWN_HMAC : Z,
                 set_prop (prop (Some g) (Some c) (Some h) None) s)
      | Some hmac =>
      match silc_hmac_alloc algs (field_str hmac) with
      | None => (SILC_SKE_STATUS_UNKNOWN_HMAC : Z,
                 set_prop (prop (Some g) (Some c) (Some h) None) s)
      | Some hm =>
          let comp := select_comp (sp_comp_alg rp) in
          let s := set_prop (prop (Some g) (Some c) (Some h) (Some hm)) s in
          let payload :=
            {| sp_flags := flags; sp_len := start_len version ke_grp pkcs enc hash hmac comp;
               sp_cookie := {| f_data := Some cookie; f_len := SILC_SKE_COOKIE_LEN |};
               sp_version := version; sp_ke_grp := ke_grp; sp_pkcs_alg := pkcs;
               sp_enc_alg := enc; sp_hash_alg := hash; sp_hmac_alg := hmac;
               sp_comp_alg := comp |} in
          (SILC_SKE_STATUS_OK : Z, set_start_payload (Some payload) s)
      end end end end end end end end end.

Definition opt_field (o : option (list Z)) : SkeField :=
  match o with Some l => str_field l | None => null_field end.

(** [rng]: the random bytes. *)
Definition silc_ske_assemble_security_properties (rng : list Z) (session_port flags : Z)
    (version : list Z) (small_proposal : bool) : SilcSKEStartPayload * list Z :=
  let cookie := mem_read rng SILC_SKE_COOKIE_LEN in
  let cookie :=
    if negb (Z.land flags SILC_SKE_SP_FLAG_IV_INCLUDED =? 0) && negb (session_port =? 0)
    then put_port session_port cookie else cookie in
  let pick := fun name all => if small_proposal then str_field name else opt_field all in
  let ver := str_field version in
  let ke_grp := opt_field (silc_ske_get_supported_groups (Z.b2z small_proposal)) in
  let pkcs := pick (str "rsa") (silc_pkcs_get_supported algs) in
  let enc := pick (str "aes-256-ctr") (silc_cipher_get_supported algs) in
  let hash := pick (str "sha256") (silc_hash_get_supported algs) in
  let hmac := pick (str "hmac-sha256-96") (silc_hmac_get_supported algs) in
  let comp := if small_proposal then null_field else str_field (str "none") in
  ({| sp_flags := u8 flags; sp_len := start_len ver ke_grp pkcs enc hash hmac comp;
      sp_cookie := {| f_data := Some cookie; f_len := SILC_SKE_COOKIE_LEN |};
      sp_version := ver; sp_ke_grp := ke_grp; sp_pkcs_alg := pkcs; sp_enc_alg := enc;
      sp_hash_alg := hash; sp_hmac_alg := hmac; sp_comp_alg := comp |},
   zdrop SILC_SKE_COOKIE_LEN rng).

(** * Random numbers and hash values *)

(** The status, the number and the random bytes left. *)
Definition silc_ske_create_rnd (rng : list Z) (n len : Z) : Z * Z * list Z :=
  if len =? 0 then (SILC_SKE_STATUS_ERROR : Z, 0, rng)
  else
    let l := (len - 1) / 8 in
    let rnd := silc_mp_mod_2exp (silc_mp_bin2mp (mem_read rng l)) len in
    let status : SilcSKEStatus :=
      if rnd <? 1 then SILC_SKE_STATUS_ERROR
      else if n <=? rnd then SILC_SKE_STATUS_ERROR else SILC_SKE_STATUS_OK in
    (status : Z, rnd, zdrop l rng).

(** [None]: a NULL pointer is used.  The status and the hash. *)
Definition silc_ske_make_hash (s : SilcSKE) (initiator : bool) : option (Z * list Z) :=
  let '(s_data, s_len) :=
    match ske_start_payload_copy s with
    | Some b => (Some (b_data b), silc_buffer_len b)
    | None => (None, 0)
    end in
  match ske_ke1_payload s, ske_ke2_payload s, ske_KEY s, ske_prop s with
  | Some ke1, ke2, KEY, Some prop =>
      match initiator, ke2, KEY, pr_hash prop with
      | true, _, _, Some hash =>
          let e := silc_mp_mp2bin (ke_x ke1) in
          match silc_buffer_alloc_size (u32 (s_len + f_len (ke_pk ke1) + zlen e)) with
          | None => Some (SILC_SKE_STATUS_OUT_OF_MEMORY : Z, [])
          | Some buf =>
              let '(ret, buf) :=
                silc_buffer_format buf
                  [F_DATA s_data s_len; F_DATA (f_data (ke_pk ke1)) (f_len (ke_pk ke1));
                   F_DATA (Some e) (zlen e)] in
              if ret =? -1 then Some (SILC_SKE_STATUS_ERROR : Z, [])
              else Some (SILC_SKE_STATUS_OK : Z, hash_make hash (b_data buf))
          end
      | false, Some ke2, Some KEY, Some hash =>
          let e := silc_mp_mp2bin (ke_x ke1) in
          let f := silc_mp_mp2bin (ke_x ke2) in
          let k := silc_mp_mp2bin KEY in
          match silc_buffer_alloc_size
                  (u32 (s_len + f_len (ke_pk ke2) + f_len (ke_pk ke1) + zlen e + zlen f + zlen k)) with
          | None => Some (SILC_SKE_STATUS_OUT_OF_MEMORY : Z, [])
          | Some buf =>
              let pk1 := match f_data (ke_pk ke1) with
                         | None => []
                         | Some d => [F_DATA (Some d) (f_len (ke_pk ke1))]
                         end in
              let '(ret, buf) :=
                silc_buffer_format buf
                  ([F_DATA s_data s_len; F_DATA (f_data (ke_pk ke2)) (f_len (ke_pk ke2))] ++ pk1 ++
                   [F_DATA (Some e) (zlen e); F_DATA (Some f) (zlen f); F_DATA (Some k) (zlen k)]) in
              if ret =? -1 then Some (SILC_SKE_STATUS_ERROR : Z, [])
              else Some (SILC_SKE_STATUS_OK : Z, hash_make hash (b_data buf))
          end
      | _, _, _, _ => None
      end
  | _, _, _, _ => None
  end.

(** * Key material of a context *)

Definition silc_ske_make_rekey_material (prop : option SilcSKESecurityProperties)
    (keymat : option SilcSKEKeyMaterial) : option (option SilcSKERekeyMaterial) :=
  match keymat with
  | None => Some None
  | Some km =>
      let rekey :=
        match prop with
        | Some p =>
            match pr_hash p with
            | None => None
            | Some h =>
                Some (Some (ho_name h),
                      match pr_group p with Some g => u8 (gr_number g) | None => 0 end,
                      negb (Z.land (pr_flags p) SILC_SKE_SP_FLAG_PFS =? 0))
            end
        | None => Some (None, 0, false)
        end in
      match rekey with
      | None => None
      | Some (hash, group, pfs) =>
          if pfs then
            Some (Some {| rk_send_enc_key := None; rk_hash := hash; rk_enc_key_len := 0;
                          rk_ske_group := group; rk_pfs := true |})
          else
            match silc_memdup (km_send_enc_key km) (km_enc_key_len km / 8) with
            | None => Some None
            | Some key =>
                Some (Some {| rk_send_enc_key := Some key; rk_hash := hash;
                              rk_enc_key_len := km_enc_key_len km mod 2 ^ 23;
                              rk_ske_group := group; rk_pfs := false |})
            end
      end
  end.

(** [None]: a NULL pointer is used.  Writes [ske->rekey], as both callers do. *)
Definition silc_ske_process_key_material (s : SilcSKE)
    (req_iv_len req_enc_key_len req_hmac_key_len : Z)
  : option (option SilcSKEKeyMaterial * SilcSKE) :=
  match ske_KEY s, ske_prop s with
  | Some KEY, Some prop =>
      match pr_hash prop with
      | None => None
      | Some h =>
          let tmpbuf := silc_mp_mp2bin KEY in
          let hash := ptr_bytes (ske_hash s) in
          match silc_buffer_alloc_size (u32 (zlen tmpbuf + zlen hash)) with
          | None => Some (None, s)
          | Some buf =>
              let buf := (silc_buffer_format buf [F_DATA (Some tmpbuf) (zlen tmpbuf);
                                                  F_DATA (ske_hash s) (zlen hash)]).2 in
              let key := silc_ske_process_key_material_data (b_data buf)
                           req_iv_len req_enc_key_len req_hmac_key_len h in
              match silc_ske_make_rekey_material (Some prop) key with
              | None => None
              | Some rekey =>
                  let s := set_rekey rekey s in
                  Some (match rekey with Some _ => key | None => None end, s)
              end
          end
      end
  | _, _ => None
  end.

(** * Tasks, packets, completion *)

Definition task_add (t : SkeTask) (s : SilcSKE) : SilcSKE := set_tasks (ske_tasks s ++ [t]) s.

Definition task_del (p : SkeTask -> bool) (s : SilcSKE) : SilcSKE :=
  set_tasks (List.filter (fun t => negb (p t)) (ske_tasks s)) s.

Definition task_is (t t' : SkeTask) : bool := bool_decide (t = t').

(** silc_schedule_task_del_by_context with the SKE: the machine is another
    context. *)
Definition task_del_by_context (s : SilcSKE) : SilcSKE :=
  task_del (fun t => negb (task_is silc_fsm_run t) && negb (task_is silc_fsm_finish_fsm t)) s.

Definition set_linked (b : bool) (s : SilcSKE) : SilcSKE :=
  let st := ske_stream s in
  set_stream {| stm_udp := stm_udp st; stm_linked := b; stm_send_key := stm_send_key st;
                stm_receive_key := stm_receive_key st; stm_hmac_send := stm_hmac_send st;
                stm_hmac_receive := stm_hmac_receive st |} s.

Definition silc_ske_install_retransmission (s : SilcSKE) : bool * SilcSKE :=
  if negb (stm_udp (ske_stream s)) then (false, s)
  else
    let s := match ske_retrans s with
             | Some _ => task_add silc_ske_packet_send_retry s
             | None => s
             end in
    let rn16 := SILC_GET16_MSB (mem_read (ske_rng s) 2) in
    let s := set_rng (zdrop 2 (ske_rng s)) s in
    (true, set_retry_timer (u16 (ske_retry_timer s * SILC_SKE_RETRY_MUL +
                                 rn16 mod SILC_SKE_RETRY_RAND)) s).

(** silc_packet_send on the stream of the SKE. *)
Definition stream_send (s : SilcSKE) (type : Z) (data : list Z) : bool * SilcSKE :=
  let a := ske_answers s in
  let '(ok, rest) := match ans_sent a with b :: l => (b, l) | [] => (true, []) end in
  (ok, output (O_send type data)
         (set_answers {| ans_sent := rest; ans_verified := ans_verified a;
                         ans_found := ans_found a |} s)).

(** [copied]: the bytes that are copied for the retransmission after the old copy
    was freed. *)
Definition packet_send_copy (s : SilcSKE) (type : Z) (data copied : list Z) : bool * SilcSKE :=
  let '(ret, s) := stream_send s type data in
  if stm_udp (ske_stream s) && negb (type =? SILC_PACKET_FAILURE) &&
     negb (type =? SILC_PACKET_REKEY)
  then
    match silc_memdup copied (zlen data) with
    | Some d => (ret, (silc_ske_install_retransmission (set_retrans (Some (type, d)) s)).2)
    | None => (ret, set_retrans None s)
    end
  else (ret, s).

Definition silc_ske_packet_send (s : SilcSKE) (type : Z) (data : list Z) : bool * SilcSKE :=
  packet_send_copy s type data data.

Definition silc_ske_completion (s : SilcSKE) : SilcSKE :=
  if negb (ske_aborted s) && cf_completed (ske_conf s) then
    output (O_complete (ske_status s)
              (if negb (ske_status s =? SILC_SKE_STATUS_OK) then None
               else Some (ske_prop s, ske_keymat s, ske_rekey s))) s
  else s.

Definition silc_packet_free (s : SilcSKE) : SilcSKE := set_packet None s.
End ske.
