(* ===== verification/SkeFsm.v ===== *)
(** lib/silcske/silcske.c: the states of the key exchange, and lib/silcutil/silcfsm.c:
    the machine that runs them.

    A state function gives what it returns to the machine and the context it
    leaves; [None] is the use of a NULL pointer.  [ske_event] is what can happen
    to an SKE: a packet, a task of the scheduler, the end of a key verification,
    an abort, the release by the owner. *)

From stdpp Require Import strings.
From S2P Require Import Prelude CTypes Buffer BufFmt Id SkePayload Auth Cipher Hash Hmac Algs SkeGroup SkeKeys SkeState Ske.

Inductive SilcFSMStatus :=
| SILC_FSM_ST_CONTINUE | SILC_FSM_ST_YIELD | SILC_FSM_ST_WAIT | SILC_FSM_ST_FINISH.

Section fsm.
Context `{SkePkcs} (algs : SilcAlgs).

Abbreviation result := (option (SilcFSMStatus * SilcSKE)).

Definition fsm_next (st : SkeSt) (s : SilcSKE) : SilcSKE := set_next_state (Some st) s.
Definition goto (st : SkeSt) (s : SilcSKE) : result := Some (SILC_FSM_ST_CONTINUE, fsm_next st s).
Definition wait (st : SkeSt) (s : SilcSKE) : result := Some (SILC_FSM_ST_WAIT, fsm_next st s).

(** [ske->status = status; silc_fsm_next(fsm, error); return SILC_FSM_CONTINUE;] *)
Definition initiator_fail (status : Z) (s : SilcSKE) : result :=
  goto silc_ske_st_initiator_error (set_status status s).
Definition responder_fail (status : Z) (s : SilcSKE) : result :=
  goto silc_ske_st_responder_error (set_status status s).

Definition status_or_error (status : Z) : Z :=
  if status =? SILC_SKE_STATUS_OK then SILC_SKE_STATUS_ERROR else status.

(** A packet of another type: wait for a retransmission, or fail. *)
Definition old_packet (error : SkeSt) (s : SilcSKE) : result :=
  let '(again, s) := silc_ske_install_retransmission s in
  let s := silc_packet_free s in
  if again then Some (SILC_FSM_ST_WAIT, s)
  else goto error (set_status SILC_SKE_STATUS_ERROR s).

(** The source ID of the packet becomes the destination ID of the stream. *)
Definition take_remote_id (p : SkePacket) (s : SilcSKE) : SilcSKE :=
  let type := pkt_src_id_type p in
  if negb (pkt_src_id_len p =? 0) && ((type =? SILC_ID_SERVER) || (type =? SILC_ID_CLIENT))
  then output (O_set_ids type
         (silc_id_str2id (pkt_src_id p) (pkt_src_id_len p) type
            (if type =? SILC_ID_SERVER then sizeof_SilcServerID else sizeof_SilcClientID))) s
  else s.

Definition start_flags (s : SilcSKE) : option Z := option_map sp_flags (ske_start_payload s).

(** [prop->flags & flag] *)
Definition prop_flag (p : SilcSKESecurityProperties) (flag : Z) : bool :=
  negb (Z.land (pr_flags p) flag =? 0).

(** The group order and its length in bits go to silc_ske_create_rnd. *)
Definition create_exponent (s : SilcSKE) (g : SilcSKEDiffieHellmanGroup) : Z * Z * SilcSKE :=
  let '(status, x, rng) :=
    silc_ske_create_rnd (ske_rng s) (gr_group_order g) (silc_mp_sizeinbase2 (gr_group_order g)) in
  (status, x, set_rng rng s).

(** * Verification of the public key *)

Definition pop_verified (s : SilcSKE) : option Z * SilcSKE :=
  let a := ske_answers s in
  match ans_verified a with
  | v :: l => (v, set_answers {| ans_sent := ans_sent a; ans_verified := l;
                                 ans_found := ans_found a |} s)
  | [] => (None, s)
  end.

Definition pop_found (s : SilcSKE) : option bool * SilcSKE :=
  let a := ske_answers s in
  match ans_found a with
  | v :: l => (v, set_answers {| ans_sent := ans_sent a; ans_verified := ans_verified a;
                                 ans_found := l |} s)
  | [] => (None, s)
  end.

(** SILC_FSM_CALL of verify_key: it completes now, or later. *)
Definition call_verify_key (pk : SilcPublicKey) (s : SilcSKE) : result :=
  let '(v, s) := pop_verified (output (O_verify_key pk) s) in
  match v with
  | Some status => Some (SILC_FSM_ST_CONTINUE, set_status status s)
  | None => Some (SILC_FSM_ST_WAIT, s)
  end.

Definition found_status (ok : bool) : Z :=
  if ok then SILC_SKE_STATUS_OK else SILC_SKE_STATUS_UNSUPPORTED_PUBLIC_KEY.

(** SILC_FSM_CALL of silc_skr_find with silc_ske_skr_callback. *)
Definition call_skr_find (pk : SilcPublicKey) (s : SilcSKE) : result :=
  let '(v, s) := pop_found (output (O_skr_find pk) s) in
  match v with
  | Some ok =>
      if negb ok && cf_verify_key (ske_conf s) then call_verify_key pk s
      else Some (SILC_FSM_ST_CONTINUE, set_status (found_status ok) s)
  | None => Some (SILC_FSM_ST_WAIT, s)
  end.

(** * Initiator *)

Definition initiator_start (s : SilcSKE) : result :=
  if ske_aborted s then goto silc_ske_st_initiator_aborted s
  else
    let '(status, payload_buf) := silc_ske_payload_start_encode (ske_start_payload s) in
    match payload_buf with
    | None => initiator_fail status s
    | Some buf =>
        let s := set_start_payload_copy (Some buf) s in
        let '(ok, s) := silc_ske_packet_send s SILC_PACKET_KEY_EXCHANGE (b_data buf) in
        if negb ok then initiator_fail SILC_SKE_STATUS_ERROR s
        else wait silc_ske_st_initiator_phase1 s
    end.

(** The cookies from [off] on. *)
Definition cookie_eq (off : Z) (a b : SkeField) : bool :=
  bool_decide (mem_read (zdrop off (field_str a)) (SILC_SKE_COOKIE_LEN - off) =
               mem_read (zdrop off (field_str b)) (SILC_SKE_COOKIE_LEN - off)).

(** The security properties the responder selected, or why they cannot be used. *)
Definition take_properties (payload : SilcSKEStartPayload) (remote_port : Z)
  : SilcSKEStatus + SilcSKESecurityProperties :=
  match silc_ske_group_get_by_name (cstr (field_str (sp_ke_grp payload))) with
  | None => inl SILC_SKE_STATUS_UNKNOWN_GROUP
  | Some group =>
      if negb (silc_pkcs_find_algorithm algs (cstr (field_str (sp_pkcs_alg payload))))
      then inl SILC_SKE_STATUS_UNKNOWN_PKCS
      else
        match silc_cipher_alloc algs (cstr (field_str (sp_enc_alg payload))) with
        | None => inl SILC_SKE_STATUS_UNKNOWN_CIPHER
        | Some c =>
            match silc_hash_alloc algs (cstr (field_str (sp_hash_alg payload))) with
            | None => inl SILC_SKE_STATUS_UNKNOWN_HASH_FUNCTION
            | Some h =>
                match silc_hmac_alloc algs (cstr (field_str (sp_hmac_alg payload))) with
                | None => inl SILC_SKE_STATUS_UNKNOWN_HMAC
                | Some hm =>
                    inr {| pr_flags := sp_flags payload; pr_group := Some group;
                           pr_cipher := Some c; pr_hmac := Some hm; pr_hash := Some h;
                           pr_public_key := None; pr_remote_port := remote_port |}
                end
            end
        end
  end.

Definition initiator_phase1 (s : SilcSKE) : result :=
  match ske_packet s with
  | None => None
  | Some packet =>
      if negb (pkt_type packet =? SILC_PACKET_KEY_EXCHANGE)
      then old_packet silc_ske_st_initiator_error s
      else
        let s := task_del (task_is silc_ske_probe_timeout) s in
        match silc_ske_payload_start_decode (pkt_buffer packet) with
        | (status, None) => initiator_fail status (silc_packet_free s)
        | (_, Some payload) =>
            let s := silc_packet_free (take_remote_id packet s) in
            match ske_start_payload s with
            | None => None
            | Some own =>
                let iv_port :=
                  negb (Z.land (sp_flags payload) SILC_SKE_SP_FLAG_IV_INCLUDED =? 0) &&
                  negb (cf_session_port (ske_conf s) =? 0) in
                let remote_port :=
                  if iv_port then SILC_GET16_MSB (field_str (sp_cookie own)) else 0 in
                if negb (cookie_eq (if iv_port then 2 else 0) (sp_cookie own) (sp_cookie payload))
                then initiator_fail SILC_SKE_STATUS_INVALID_COOKIE s
                else
                  let s := set_remote_version
                             (silc_memdup (field_str (sp_version payload))
                                          (f_len (sp_version payload))) s in
                  let status := silc_ske_check_version s in
                  if negb (status =? SILC_SKE_STATUS_OK) then initiator_fail status s
                  else
                    let s := set_start_payload None s in
                    match take_properties payload remote_port with
                    | inl status => initiator_fail status (set_prop None s)
                    | inr prop =>
                        goto silc_ske_st_initiator_phase2
                          (set_start_payload (Some payload) (set_prop (Some prop) s))
                    end
            end
        end
  end.

(** The signature of HASH_i, or the status of the failure. *)
Definition sign_hash (s : SilcSKE) (prv : SilcPrivateKey) (hash_obj : SilcHashObject)
    (hash : list Z) : option SkeField :=
  match silc_pkcs_sign_hash prv hash 65536 hash_obj with
  | None => None
  | Some sign =>
      match silc_memdup sign (zlen sign) with
      | Some d => Some {| f_data := Some d; f_len := u16 (zlen sign) |}
      | None => Some null_field
      end
  end.

Definition ke_with_sign (p : SilcSKEKEPayload) (sign : SkeField) : SilcSKEKEPayload :=
  {| ke_pk := ke_pk p; ke_pk_type := ke_pk_type p; ke_x := ke_x p; ke_sign := sign |}.

(** The payload with the signature when authentication is mutual. *)
Definition sign_ke1 (s : SilcSKE) (prop : SilcSKESecurityProperties) (payload : SilcSKEKEPayload)
  : option (option SilcSKEKEPayload) :=
  match cf_private_key (ske_conf s) with
  | Some prv =>
      if prop_flag prop SILC_SKE_SP_FLAG_MUTUAL then
        match silc_ske_make_hash s true, pr_hash prop with
        | Some (status, hash), Some hash_obj =>
            if negb (status =? SILC_SKE_STATUS_OK) then Some None
            else
              match sign_hash s prv hash_obj hash with
              | None => Some None
              | Some sign => Some (Some (ke_with_sign payload sign))
              end
        | _, _ => None
        end
      else Some (Some payload)
  | None => Some (Some payload)
  end.

Definition initiator_phase2 (s : SilcSKE) : result :=
  match ske_prop s with
  | Some prop =>
  match pr_group prop with
  | Some g =>
      let '(status, x, s) := create_exponent s g in
      if negb (status =? SILC_SKE_STATUS_OK) then initiator_fail status s
      else
        let e := silc_mp_pow_mod (gr_generator g) x (gr_group g) in
        match cf_public_key (ske_conf s) with
        | None => None
        | Some pub =>
            match silc_pkcs_public_key_encode pub with
            | None => initiator_fail SILC_SKE_STATUS_ERROR (set_ke1_payload None s)
            | Some pk =>
                let payload := {| ke_pk := {| f_data := Some pk; f_len := u16 (zlen pk) |};
                                  ke_pk_type := u16 (silc_pkcs_get_type pub);
                                  ke_x := e; ke_sign := null_field |} in
                let s := set_ke1_payload (Some payload) s in
                match sign_ke1 s prop payload with
                | None => None
                | Some None =>
                    initiator_fail SILC_SKE_STATUS_SIGNATURE_ERROR (set_ke1_payload None s)
                | Some (Some payload) =>
                    let s := set_ke1_payload (Some payload) s in
                    match silc_ske_payload_ke_encode silc_mp_mp2bin (start_flags s) (Some payload) with
                    | (status, None) => initiator_fail status (set_ke1_payload None s)
                    | (_, Some buf) =>
                        let s := set_x (Some x) s in
                        let '(ok, s) :=
                          silc_ske_packet_send s SILC_PACKET_KEY_EXCHANGE_1 (b_data buf) in
                        if negb ok then initiator_fail SILC_SKE_STATUS_ERROR s
                        else wait silc_ske_st_initiator_phase3 s
                    end
                end
            end
        end
  | None => None
  end
  | None => None
  end.

(** [err:] of phase 3.  With the status still OK the status is returned to the
    machine, for which the value 1 is SILC_FSM_ST_YIELD. *)
Definition phase3_err (status : Z) (s : SilcSKE) : result :=
  let s := set_KEY None (set_ke2_payload None s) in
  if status =? SILC_SKE_STATUS_OK then Some (SILC_FSM_ST_YIELD, s)
  else initiator_fail status s.

Definition initiator_phase3 (s : SilcSKE) : result :=
  match ske_packet s with
  | None => None
  | Some packet =>
      if negb (pkt_type packet =? SILC_PACKET_KEY_EXCHANGE_2)
      then old_packet silc_ske_st_initiator_error s
      else
        match silc_ske_payload_ke_decode silc_mp_bin2mp (start_flags s) (pkt_buffer packet) with
        | (status, None, _) => initiator_fail status (silc_packet_free s)
        | (_, Some payload, _) =>
            let s := set_ke2_payload (Some payload) (silc_packet_free s) in
            let verifies := cf_verify_key (ske_conf s) || cf_repository (ske_conf s) in
            if is_null (f_data (ke_pk payload)) && verifies
            then phase3_err SILC_SKE_STATUS_OK
                   (set_status SILC_SKE_STATUS_PUBLIC_KEY_NOT_PROVIDED s)
            else
              match ske_x s, ske_prop s with
              | Some x, Some prop =>
              match pr_group prop with
              | Some g =>
                  let s := set_KEY (Some (silc_mp_pow_mod (ke_x payload) x (gr_group g))) s in
                  match f_data (ke_pk payload) with
                  | Some d =>
                      match silc_pkcs_public_key_alloc (ke_pk_type payload)
                              (mem_read d (f_len (ke_pk payload))) with
                      | None => phase3_err SILC_SKE_STATUS_UNSUPPORTED_PUBLIC_KEY s
                      | Some pk =>
                          let s := set_prop (Some (set_prop_public_key (Some pk) prop)) s in
                          let s := fsm_next silc_ske_st_initiator_phase4 s in
                          if cf_repository (ske_conf s) then call_skr_find pk s
                          else if cf_verify_key (ske_conf s) then call_verify_key pk s
                          else Some (SILC_FSM_ST_CONTINUE, s)
                      end
                  | None =>
                      match pr_public_key prop with
                      | Some pk =>
                          let s := fsm_next silc_ske_st_initiator_phase4 s in
                          if cf_repository (ske_conf s) then call_skr_find pk s
                          else if cf_verify_key (ske_conf s) then call_verify_key pk s
                          else Some (SILC_FSM_ST_CONTINUE, s)
                      | None => goto silc_ske_st_initiator_phase4 s
                      end
                  end
              | None => None
              end
              | _, _ => None
              end
        end
  end.

Definition phase4_err (status : Z) (s : SilcSKE) : result :=
  let s := set_hash None (set_KEY None (set_ke2_payload None s)) in
  initiator_fail (status_or_error status) s.

(** Key, block and hash length of the negotiated algorithms. *)
Definition process_negotiated (s : SilcSKE) : option (option SilcSKEKeyMaterial * SilcSKE) :=
  match ske_prop s with
  | Some p =>
      match pr_cipher p, pr_hash p with
      | Some c, Some h =>
          silc_ske_process_key_material s (silc_cipher_get_block_len (cipher_state c))
            (silc_cipher_get_key_len c) (hash_len h)
      | _, _ => None
      end
  | None => None
  end.

Definition initiator_phase4 (s : SilcSKE) : result :=
  if ske_aborted s then goto silc_ske_st_initiator_aborted s
  else if negb (ske_status s =? SILC_SKE_STATUS_OK) then goto silc_ske_st_initiator_error s
  else
    match silc_ske_make_hash s false with
    | None => None
    | Some (status, hash) =>
        if negb (status =? SILC_SKE_STATUS_OK) then phase4_err status s
        else
          let s := set_hash (Some hash) s in
          match ske_prop s, ske_ke2_payload s with
          | Some prop, Some payload =>
              if match pr_public_key prop with
                 | Some pk => negb (silc_pkcs_verify_hash pk
                                      (mem_read (field_str (ke_sign payload)) (f_len (ke_sign payload)))
                                      hash)
                 | None => false
                 end
              then phase4_err SILC_SKE_STATUS_INCORRECT_SIGNATURE s
              else
                let s := set_status SILC_SKE_STATUS_OK s in
                match ske_rekey s with
                | Some _ => goto silc_ske_st_rekey_initiator_done s
                | None =>
                    match process_negotiated s with
                    | None => None
                    | Some (None, s) => phase4_err SILC_SKE_STATUS_ERROR s
                    | Some (Some keymat, s) =>
                        let s := set_keymat (Some keymat) s in
                        if negb (cf_no_acks (ske_conf s)) then
                          let '(ok, s) := silc_ske_packet_send s SILC_PACKET_SUCCESS
                                            (SILC_PUT32_MSB SILC_SKE_STATUS_OK) in
                          if negb ok then initiator_fail SILC_SKE_STATUS_ERROR s
                          else wait silc_ske_st_initiator_end s
                        else goto silc_ske_st_initiator_end s
                    end
                end
          | _, _ => None
          end
    end.

(** Unlink from the stream, drop the tasks, call the completion. *)
Definition ske_finish (s : SilcSKE) : result :=
  Some (SILC_FSM_ST_FINISH, silc_ske_completion (task_del_by_context (set_linked false s))).

Definition initiator_end (s : SilcSKE) : result :=
  match cf_no_acks (ske_conf s), ske_packet s with
  | false, None => None
  | false, Some packet =>
      if negb (pkt_type packet =? SILC_PACKET_SUCCESS)
      then old_packet silc_ske_st_initiator_error s
      else ske_finish (silc_packet_free s)
  | true, _ => ske_finish (silc_packet_free s)
  end.

Definition send_failure (status : Z) (s : SilcSKE) : SilcSKE :=
  (silc_ske_packet_send s SILC_PACKET_FAILURE (SILC_PUT32_MSB status)).2.

(** The same for both sides. *)
Definition ske_aborted_state (s : SilcSKE) : result :=
  ske_finish (send_failure SILC_SKE_STATUS_ERROR s).

Definition ske_error_state (s : SilcSKE) : result :=
  let status := u32 (ske_status s) in
  ske_finish (send_failure (if SILC_SKE_STATUS_INVALID_COOKIE <? status
                            then SILC_SKE_STATUS_ERROR else status) s).

Definition ske_failure_state (s : SilcSKE) : result :=
  let '(error, s) :=
    match ske_packet s with
    | Some p =>
        if silc_buffer_len (pkt_buffer p) =? 4
        then (SILC_GET32_MSB (b_data (pkt_buffer p)), silc_packet_free s)
        else (u32 (ske_status s), s)
    | None => (u32 (ske_status s), s)
    end in
  ske_finish (set_status (status_or_error error) s).

(** * Responder *)

Definition responder_start (s : SilcSKE) : result :=
  if ske_aborted s then goto silc_ske_st_responder_aborted s
  else
    match ske_prop s with
    | None => wait silc_ske_st_responder_phase1 s
    | Some _ => wait silc_ske_st_responder_phase2 s
    end.

(** The flags the responder forces, and the one it may not support. *)
Definition forced_flags (own flags : Z) : Z :=
  let has := fun f x => negb (Z.land x f =? 0) in
  let flags := if has SILC_SKE_SP_FLAG_MUTUAL own
               then Z.lor flags SILC_SKE_SP_FLAG_MUTUAL else flags in
  let flags := if has SILC_SKE_SP_FLAG_PFS own then Z.lor flags SILC_SKE_SP_FLAG_PFS else flags in
  if has SILC_SKE_SP_FLAG_IV_INCLUDED flags && negb (has SILC_SKE_SP_FLAG_IV_INCLUDED own)
  then Z.ldiff flags SILC_SKE_SP_FLAG_IV_INCLUDED else flags.

Definition sp_with_flags (p : SilcSKEStartPayload) (flags : Z) : SilcSKEStartPayload :=
  {| sp_flags := flags; sp_len := sp_len p; sp_cookie := sp_cookie p; sp_version := sp_version p;
     sp_ke_grp := sp_ke_grp p; sp_pkcs_alg := sp_pkcs_alg p; sp_enc_alg := sp_enc_alg p;
     sp_hash_alg := sp_hash_alg p; sp_hmac_alg := sp_hmac_alg p;
     sp_comp_alg := sp_comp_alg p |}.

Definition responder_phase1 (s : SilcSKE) : result :=
  match ske_packet s with
  | None => None
  | Some packet =>
      match silc_ske_payload_start_decode (pkt_buffer packet) with
      | (status, None) => responder_fail status (silc_packet_free s)
      | (status, Some remote) =>
          let s := take_remote_id packet s in
          match silc_buffer_copy (pkt_buffer packet) with
          | None => responder_fail status (silc_packet_free s)
          | Some copy =>
              let s := silc_packet_free (set_start_payload_copy (Some copy) s) in
              let remote := sp_with_flags remote (forced_flags (cf_flags (ske_conf s))
                                                               (sp_flags remote)) in
              let '(status, s) := silc_ske_select_security_properties algs s remote in
              if negb (status =? SILC_SKE_STATUS_OK) then responder_fail status s
              else
                match silc_ske_payload_start_encode (ske_start_payload s) with
                | (status, None) => responder_fail (status_or_error status) (set_prop None s)
                | (_, Some buf) =>
                    let '(ok, s) :=
                      silc_ske_packet_send s SILC_PACKET_KEY_EXCHANGE (b_data buf) in
                    if negb ok then responder_fail SILC_SKE_STATUS_ERROR (set_prop None s)
                    else wait silc_ske_st_responder_phase2 s
                end
          end
      end
  end.

Definition responder_phase2 (s : SilcSKE) : result :=
  match ske_packet s with
  | None => None
  | Some packet =>
      if negb (pkt_type packet =? SILC_PACKET_KEY_EXCHANGE_1)
      then old_packet silc_ske_st_responder_error s
      else
        match silc_ske_payload_ke_decode silc_mp_bin2mp (start_flags s) (pkt_buffer packet) with
        | (status, None, _) => responder_fail status (silc_packet_free s)
        | (_, Some payload, _) =>
            let s := silc_packet_free (set_ke1_payload (Some payload) s) in
            match ske_rekey s with
            | Some _ => goto silc_ske_st_responder_phase4 s
            | None =>
                match f_data (ke_pk payload) with
                | None => responder_fail SILC_SKE_STATUS_PUBLIC_KEY_NOT_PROVIDED s
                | Some d =>
                    match silc_pkcs_public_key_alloc (ke_pk_type payload)
                            (mem_read d (f_len (ke_pk payload))) with
                    | None => responder_fail SILC_SKE_STATUS_UNSUPPORTED_PUBLIC_KEY s
                    | Some pk =>
                        match ske_prop s with
                        | None => None
                        | Some prop =>
                            let s := set_prop (Some (set_prop_public_key (Some pk) prop)) s in
                            let s := fsm_next silc_ske_st_responder_phase4 s in
                            if cf_repository (ske_conf s) then call_skr_find pk s
                            else if cf_verify_key (ske_conf s) then call_verify_key pk s
                            else Some (SILC_FSM_ST_CONTINUE, s)
                        end
                    end
                end
            end
        end
  end.

(** [err:] of phase 4. *)
Definition responder_phase4_err (s : SilcSKE) : result :=
  goto silc_ske_st_responder_error (set_ke2_payload None (set_x None s)).

(** Checks the signature of HASH_i: the status, or the use of a NULL pointer. *)
Definition check_ke1_signature (s : SilcSKE) (prop : SilcSKESecurityProperties)
    (recv : SilcSKEKEPayload) : option Z :=
  match silc_ske_make_hash s true with
  | None => None
  | Some (status, hash) =>
      if negb (status =? SILC_SKE_STATUS_OK) then Some status
      else
        match pr_public_key prop with
        | None => None
        | Some pk =>
            Some (if silc_pkcs_verify_hash pk
                       (mem_read (field_str (ke_sign recv)) (f_len (ke_sign recv))) hash
                  then SILC_SKE_STATUS_OK : Z else SILC_SKE_STATUS_INCORRECT_SIGNATURE : Z)
        end
  end.

Definition responder_phase4 (s : SilcSKE) : result :=
  if ske_aborted s then goto silc_ske_st_responder_aborted s
  else if negb (ske_status s =? SILC_SKE_STATUS_OK) then responder_phase4_err s
  else
    match ske_ke1_payload s, ske_prop s with
    | Some recv, Some prop =>
        let mutual :=
          match start_flags s with
          | Some f => negb (Z.land f SILC_SKE_SP_FLAG_MUTUAL =? 0)
          | None => false
          end || prop_flag prop SILC_SKE_SP_FLAG_MUTUAL in
        match (if mutual then check_ke1_signature s prop recv else Some (SILC_SKE_STATUS_OK : Z)) with
        | None => None
        | Some status =>
            if negb (status =? SILC_SKE_STATUS_OK) then responder_phase4_err (set_status status s)
            else
              match pr_group prop with
              | None => None
              | Some g =>
                  let '(status, x, s) := create_exponent s g in
                  if negb (status =? SILC_SKE_STATUS_OK)
                  then responder_phase4_err (set_status status s)
                  else
                    let f := silc_mp_pow_mod (gr_generator g) x (gr_group g) in
                    let send := {| ke_pk := null_field; ke_pk_type := 0; ke_x := f;
                                   ke_sign := null_field |} in
                    let s := set_ke2_payload (Some send) (set_x (Some x) s) in
                    let s := set_KEY (Some (silc_mp_pow_mod (ke_x recv) x (gr_group g))) s in
                    goto silc_ske_st_responder_phase5 s
              end
        end
    | _, _ => None
    end.

Definition ke_with_pk (p : SilcSKEKEPayload) (pk : SkeField) : SilcSKEKEPayload :=
  {| ke_pk := pk; ke_pk_type := ke_pk_type p; ke_x := ke_x p; ke_sign := ke_sign p |}.
Definition ke_with_type (p : SilcSKEKEPayload) (t : Z) : SilcSKEKEPayload :=
  {| ke_pk := ke_pk p; ke_pk_type := t; ke_x := ke_x p; ke_sign := ke_sign p |}.

(** The keys the responder sends and signs with: both or none. *)
Definition own_keys (s : SilcSKE) : option (SilcPublicKey * SilcPrivateKey) :=
  match cf_public_key (ske_conf s), cf_private_key (ske_conf s) with
  | Some pub, Some prv => Some (pub, prv)
  | _, _ => None
  end.

(** After HASH: the signature, the encoding and the packet. *)
Definition send_ke2 (s : SilcSKE) (payload : SilcSKEKEPayload) : result :=
  match cf_public_key (ske_conf s) with
  | None => None
  | Some pub =>
      let payload := ke_with_type payload (u16 (silc_pkcs_get_type pub)) in
      let s := set_ke2_payload (Some payload) s in
      match silc_ske_payload_ke_encode silc_mp_mp2bin (start_flags s) (Some payload) with
      | (status, None) => responder_fail status s
      | (_, Some buf) =>
          let '(ok, s) := silc_ske_packet_send s SILC_PACKET_KEY_EXCHANGE_2 (b_data buf) in
          if negb ok then responder_fail SILC_SKE_STATUS_ERROR s
          else
            match ske_rekey s with
            | Some _ => goto silc_ske_st_rekey_responder_done s
            | None =>
                if negb (cf_no_acks (ske_conf s)) then wait silc_ske_st_responder_end s
                else goto silc_ske_st_responder_end s
            end
      end
  end.

Definition responder_phase5 (s : SilcSKE) : result :=
  match ske_ke2_payload s, ske_prop s with
  | Some payload, Some prop =>
      match (match own_keys s with
             | Some (pub, _) =>
                 match silc_pkcs_public_key_encode pub with
                 | None => None
                 | Some pk => Some (ke_with_pk payload {| f_data := Some pk;
                                                          f_len := u16 (zlen pk) |})
                 end
             | None => Some payload
             end) with
      | None => responder_fail SILC_SKE_STATUS_OUT_OF_MEMORY s
      | Some payload =>
          let s := set_ke2_payload (Some payload) s in
          match silc_ske_make_hash s false, pr_hash prop with
          | Some (status, hash), Some hash_obj =>
              if negb (status =? SILC_SKE_STATUS_OK) then responder_fail status s
              else
                let s := set_hash (Some hash) s in
                match own_keys s with
                | Some (_, prv) =>
                    match sign_hash s prv hash_obj hash with
                    | None => responder_fail SILC_SKE_STATUS_SIGNATURE_ERROR s
                    | Some sign =>
                        match f_data sign with
                        | None => responder_fail SILC_SKE_STATUS_OUT_OF_MEMORY s
                        | Some _ => send_ke2 s (ke_with_sign payload sign)
                        end
                    end
                | None => send_ke2 s payload
                end
          | _, _ => None
          end
      end
  | _, _ => None
  end.

Definition responder_finish (s : SilcSKE) : result :=
  let s := silc_packet_free s in
  match process_negotiated s with
  | None => None
  | Some (None, s) => responder_fail SILC_SKE_STATUS_ERROR (set_keymat None s)
  | Some (Some keymat, s) =>
      let s := set_keymat (Some keymat) s in
      let s := if negb (cf_no_acks (ske_conf s))
               then (silc_ske_packet_send s SILC_PACKET_SUCCESS
                       (SILC_PUT32_MSB SILC_SKE_STATUS_OK)).2
               else s in
      ske_finish s
  end.

Definition responder_end (s : SilcSKE) : result :=
  match cf_no_acks (ske_conf s), ske_packet s with
  | false, None => None
  | false, Some packet =>
      if negb (pkt_type packet =? SILC_PACKET_SUCCESS)
      then old_packet silc_ske_st_responder_error s
      else responder_finish s
  | true, _ => responder_finish s
  end.
End fsm.
