(* ===== verification/SkeRun.v ===== *)
(** lib/silcske/silcske.c: rekey, the packet, timeout and verification callbacks
    and the entry points; lib/silcutil/silcfsm.c: the machine.

    [ske_event] is what can happen to an SKE and [ske_step] what it does then. *)

From stdpp Require Import strings.
From S2P Require Import Prelude CTypes Buffer BufFmt Id SkePayload Auth Cipher Hash Hmac Algs SkeGroup SkeKeys SkeState Ske SkeFsm.

Section run.
Context `{SkePkcs} (algs : SilcAlgs).

Abbreviation result := (option (SilcFSMStatus * SilcSKE)).

(** * Rekey *)

Definition empty_prop : SilcSKESecurityProperties :=
  {| pr_flags := 0; pr_group := None; pr_cipher := None; pr_hmac := None; pr_hash := None;
     pr_public_key := None; pr_remote_port := 0 |}.

Definition prop_with (h : SilcHashObject) (g : option SilcSKEDiffieHellmanGroup)
  : SilcSKESecurityProperties :=
  {| pr_flags := 0; pr_group := g; pr_cipher := None; pr_hmac := None; pr_hash := Some h;
     pr_public_key := None; pr_remote_port := 0 |}.

(** The properties of a rekey: the hash of the rekey material and, with PFS, the
    group.  [error] is the error state, [done] and [phase2] what comes then. *)
Definition rekey_properties (rk : SilcSKERekeyMaterial) (s : SilcSKE)
    (sent : SilcSKE -> bool * SilcSKE) (error : SkeSt) (done phase2 : SilcSKE -> result) : result :=
  let s := set_prop (Some empty_prop) s in
  match silc_hash_alloc algs (ptr_bytes (rk_hash rk)) with
  | None => goto error (set_status SILC_SKE_STATUS_OUT_OF_MEMORY s)
  | Some h =>
      let s := set_prop (Some (prop_with h None)) s in
      let '(ok, s) := sent s in
      if negb ok then goto error (set_status SILC_SKE_STATUS_ERROR s)
      else if negb (rk_pfs rk) then done s
      else
        match silc_ske_group_get_by_number (rk_ske_group rk) with
        | None => goto error s
        | Some g => phase2 (set_prop (Some (prop_with h (Some g))) s)
        end
  end.

Definition rekey_initiator_start (s : SilcSKE) : result :=
  match ske_rekey s with
  | None => None
  | Some rk =>
      if ske_aborted s then goto silc_ske_st_initiator_aborted s
      else rekey_properties rk (task_add silc_ske_timeout s)
             (fun s => silc_ske_packet_send s SILC_PACKET_REKEY [])
             silc_ske_st_initiator_error (goto silc_ske_st_rekey_initiator_done)
             (goto silc_ske_st_initiator_phase2)
  end.

Definition set_stream_send (c : option Cipher) (h : option Hmac) (s : SilcSKE) : SilcSKE :=
  let st := ske_stream s in
  set_stream {| stm_udp := stm_udp st; stm_linked := stm_linked st;
                stm_send_key := match c with Some _ => c | None => stm_send_key st end;
                stm_receive_key := stm_receive_key st;
                stm_hmac_send := match h with Some _ => h | None => stm_hmac_send st end;
                stm_hmac_receive := stm_hmac_receive st |} s.

Definition set_stream_receive (c : option Cipher) (h : option Hmac) (s : SilcSKE) : SilcSKE :=
  let st := ske_stream s in
  set_stream {| stm_udp := stm_udp st; stm_linked := stm_linked st;
                stm_send_key := stm_send_key st;
                stm_receive_key := match c with Some _ => c | None => stm_receive_key st end;
                stm_hmac_send := stm_hmac_send st;
                stm_hmac_receive := match h with Some _ => h | None => stm_hmac_receive st end |} s.

Definition key_context (s : SilcSKE) : KeyContext :=
  {| kc_responder := cf_responder (ske_conf s); kc_rekeying := cf_rekeying (ske_conf s);
     kc_hash := ske_hash s |}.

Definition rekey_material_data (s : SilcSKE) (rk : SilcSKERekeyMaterial) : option (list Z) :=
  if rk_pfs rk then option_map silc_mp_mp2bin (ske_KEY s)
  else Some (mem_read (ptr_bytes (rk_send_enc_key rk)) (rk_enc_key_len rk / 8)).

(** Both sides: new key material, new sending keys, REKEY_DONE. *)
Definition rekey_done (error next : SkeSt) (s : SilcSKE) : result :=
  match ske_prop s, ske_rekey s, stm_send_key (ske_stream s) with
  | Some prop, Some rk, Some send_key =>
      let hmac_send := stm_hmac_send (ske_stream s) in
      match pr_hash prop, rekey_material_data s rk with
      | Some hash, Some data =>
          match silc_ske_process_key_material_data data
                  (silc_cipher_get_block_len (cipher_state send_key))
                  (silc_cipher_get_key_len send_key) (hash_len hash) hash with
          | None => goto error (set_keymat None s)
          | Some keymat =>
              let s := set_keymat (Some keymat) s in
              match silc_ske_set_keys algs (key_context s) keymat (pr_flags prop)
                      (Some send_key) hmac_send (Some hash) true false true false false with
              | None => None
              | Some None =>
                  goto error (set_status SILC_SKE_STATUS_ERROR
                                (set_prop (Some (set_prop_keys None None prop)) s))
              | Some (Some k) =>
                  let s := set_prop (Some (set_prop_keys None None prop)) s in
                  let '(ok, s) := stream_send s SILC_PACKET_REKEY_DONE [] in
                  if negb ok then goto error (set_status SILC_SKE_STATUS_ERROR s)
                  else
                    let s := output (O_set_keys (sk_send_key k) None (sk_hmac_send k) None)
                               (set_stream_send (sk_send_key k) (sk_hmac_send k) s) in
                    wait next s
              end
          end
      | _, _ => None
      end
  | _, _, _ => None
  end.

(** Both sides: after REKEY_DONE the new receiving keys, and new rekey material
    with the PFS flag of the old one. *)
Definition rekey_end (error : SkeSt) (s : SilcSKE) : result :=
  match ske_packet s with
  | None => None
  | Some packet =>
      if negb (pkt_type packet =? SILC_PACKET_REKEY_DONE)
      then Some (SILC_FSM_ST_WAIT, silc_packet_free s)
      else
        match ske_prop s, ske_keymat s, ske_rekey s with
        | Some prop, Some keymat, Some rk =>
            match silc_ske_set_keys algs (key_context s) keymat (pr_flags prop)
                    (stm_receive_key (ske_stream s)) (stm_hmac_receive (ske_stream s))
                    (pr_hash prop) false true false true false with
            | None => None
            | Some None =>
                goto error (set_status SILC_SKE_STATUS_ERROR
                              (set_prop (Some (set_prop_keys None None prop)) s))
            | Some (Some k) =>
                let s := output (O_set_keys None (sk_receive_key k) None (sk_hmac_receive k))
                           (set_stream_receive (sk_receive_key k) (sk_hmac_receive k) s) in
                match silc_ske_make_rekey_material (Some prop) (Some keymat) with
                | None => None
                | Some None =>
                    goto error (set_status SILC_SKE_STATUS_OUT_OF_MEMORY
                                  (set_prop (Some (set_prop_keys None None prop)) s))
                | Some (Some new) =>
                    let new := {| rk_send_enc_key := rk_send_enc_key new; rk_hash := rk_hash new;
                                  rk_enc_key_len := rk_enc_key_len new;
                                  rk_ske_group := rk_ske_group new; rk_pfs := rk_pfs rk |} in
                    let s := set_prop (Some (set_prop_keys None None prop))
                               (set_rekey (Some new) s) in
                    ske_finish (silc_packet_free s)
                end
            end
        | _, _, _ => None
        end
  end.

Definition rekey_responder_wait (s : SilcSKE) : result :=
  match ske_rekey s with
  | None => None
  | Some _ =>
      if ske_aborted s then goto silc_ske_st_responder_aborted s
      else
        let s := fsm_next silc_ske_st_rekey_responder_start (task_add silc_ske_timeout s) in
        match ske_packet s with
        | Some p => if pkt_type p =? SILC_PACKET_REKEY then Some (SILC_FSM_ST_CONTINUE, s)
                    else Some (SILC_FSM_ST_WAIT, s)
        | None => Some (SILC_FSM_ST_WAIT, s)
        end
  end.

Definition rekey_responder_start (s : SilcSKE) : result :=
  match ske_packet s, ske_rekey s with
  | Some packet, Some rk =>
      if negb (pkt_type packet =? SILC_PACKET_REKEY)
      then responder_fail SILC_SKE_STATUS_ERROR (silc_packet_free s)
      else rekey_properties rk s (fun s => (true, s)) silc_ske_st_responder_error
             (goto silc_ske_st_rekey_responder_done) (wait silc_ske_st_responder_phase2)
  | _, _ => None
  end.

(** The two sides. *)
Definition rekey_initiator_done : SilcSKE -> result :=
  rekey_done silc_ske_st_initiator_error silc_ske_st_rekey_initiator_end.
Definition rekey_initiator_end : SilcSKE -> result := rekey_end silc_ske_st_initiator_error.
Definition rekey_responder_done : SilcSKE -> result :=
  rekey_done silc_ske_st_responder_error silc_ske_st_rekey_responder_end.
Definition rekey_responder_end : SilcSKE -> result := rekey_end silc_ske_st_responder_error.

(** * The machine *)

Definition state_fn (st : SkeSt) : SilcSKE -> result :=
  match st with
  | silc_ske_st_initiator_start => initiator_start
  | silc_ske_st_initiator_phase1 => initiator_phase1 algs
  | silc_ske_st_initiator_phase2 => initiator_phase2
  | silc_ske_st_initiator_phase3 => initiator_phase3
  | silc_ske_st_initiator_phase4 => initiator_phase4
  | silc_ske_st_initiator_end => initiator_end
  | silc_ske_st_initiator_aborted | silc_ske_st_responder_aborted => ske_aborted_state
  | silc_ske_st_initiator_error | silc_ske_st_responder_error => ske_error_state
  | silc_ske_st_initiator_failure | silc_ske_st_responder_failure => ske_failure_state
  | silc_ske_st_responder_start => responder_start
  | silc_ske_st_responder_phase1 => responder_phase1 algs
  | silc_ske_st_responder_phase2 => responder_phase2
  | silc_ske_st_responder_phase4 => responder_phase4
  | silc_ske_st_responder_phase5 => responder_phase5
  | silc_ske_st_responder_end => responder_end
  | silc_ske_st_rekey_initiator_start => rekey_initiator_start
  | silc_ske_st_rekey_initiator_done => rekey_initiator_done
  | silc_ske_st_rekey_initiator_end => rekey_initiator_end
  | silc_ske_st_rekey_responder_wait => rekey_responder_wait
  | silc_ske_st_rekey_responder_start => rekey_responder_start
  | silc_ske_st_rekey_responder_done => rekey_responder_done
  | silc_ske_st_rekey_responder_end => rekey_responder_end
  end.

(** What a call comes to: a NULL pointer or freed memory is used, the machine
    does not come to rest, or a context. *)
Inductive outcome :=
| Crash
| NoRest
| Rest (s : SilcSKE).

(** silc_fsm_next to the failure state, once. *)
Definition silc_ske_notify_failure (s : SilcSKE) : SilcSKE :=
  if ske_failure_notified s then s
  else
    fsm_next (if cf_responder (ske_conf s) then silc_ske_st_responder_failure
              else silc_ske_st_initiator_failure) (set_failure_notified true s).

Definition freed (s : SilcSKE) : bool := ske_refcnt s <=? 0.

(** silc_ske_free when the machine does not run. *)
Definition ske_free_stopped (s : SilcSKE) : SilcSKE :=
  let s := if ske_aborted s
           then silc_ske_notify_failure (set_status SILC_SKE_STATUS_ERROR (silc_packet_free s))
           else s in
  set_refcnt (u16 (ske_refcnt s - 1)) s.

(** silc_fsm_finish_fsm with silc_ske_finished. *)
Definition fsm_finish_fsm (s : SilcSKE) : SilcSKE := ske_free_stopped (set_next_state None s).

Definition fsm_finish (s : SilcSKE) : SilcSKE :=
  let s := task_del (task_is silc_fsm_run) (set_started false s) in
  if negb (ske_synchronous s) then task_add silc_fsm_finish_fsm s else fsm_finish_fsm s.

(** [do status = fsm->next_state(...); while (status == SILC_FSM_ST_CONTINUE);] *)
Fixpoint fsm_run (fuel : nat) (s : SilcSKE) : outcome :=
  match fuel with
  | O => NoRest
  | S fuel =>
      match ske_next_state s with
      | None => Crash
      | Some st =>
          match state_fn st s with
          | None => Crash
          | Some (SILC_FSM_ST_CONTINUE, s) => fsm_run fuel s
          | Some (SILC_FSM_ST_YIELD, s) => Rest (task_add silc_fsm_run s)
          | Some (SILC_FSM_ST_WAIT, s) => Rest (set_synchronous false s)
          | Some (SILC_FSM_ST_FINISH, s) => Rest (fsm_finish s)
          end
      end
  end.

(** The longest run of states has fewer. *)
Definition run_fuel : nat := 12.

Definition silc_fsm_continue_sync (s : SilcSKE) : outcome := fsm_run run_fuel s.
Definition silc_fsm_continue (s : SilcSKE) : SilcSKE := task_add silc_fsm_run s.

(** * Events *)

(** The types the SKE is linked for. *)
Definition linked_types (c : SkeConf) : list Z :=
  match cf_rekeying c, cf_responder c with
  | false, false => [SILC_PACKET_KEY_EXCHANGE; SILC_PACKET_KEY_EXCHANGE_2; SILC_PACKET_SUCCESS;
                     SILC_PACKET_FAILURE]
  | false, true => [SILC_PACKET_KEY_EXCHANGE; SILC_PACKET_KEY_EXCHANGE_1; SILC_PACKET_SUCCESS;
                    SILC_PACKET_FAILURE]
  | true, false => [SILC_PACKET_REKEY; SILC_PACKET_REKEY_DONE; SILC_PACKET_KEY_EXCHANGE_2;
                    SILC_PACKET_SUCCESS; SILC_PACKET_FAILURE]
  | true, true => [SILC_PACKET_REKEY; SILC_PACKET_REKEY_DONE; SILC_PACKET_KEY_EXCHANGE_1;
                   SILC_PACKET_SUCCESS; SILC_PACKET_FAILURE]
  end.

Definition silc_ske_packet_receive (p : SkePacket) (s : SilcSKE) : outcome :=
  let s := set_retry_count 0 (set_retry_timer SILC_SKE_RETRY_MIN s) in
  let s := task_del (task_is silc_ske_packet_send_retry) s in
  let s := set_packet (Some p) s in
  if ske_aborted s then
    silc_fsm_continue_sync
      (fsm_next (if cf_responder (ske_conf s) then silc_ske_st_responder_aborted
                 else silc_ske_st_initiator_aborted) (silc_packet_free s))
  else
    let s := if pkt_type p =? SILC_PACKET_FAILURE then silc_ske_notify_failure s else s in
    if cf_rekeying (ske_conf s) || (pkt_type p =? SILC_PACKET_SUCCESS)
    then silc_fsm_continue_sync s
    else Rest (silc_fsm_continue s).

(** The data is read by silc_packet_send; the copy for the next retransmission
    is taken from it after it was freed. *)
Definition packet_send_retry (s : SilcSKE) : outcome :=
  let count := ske_retry_count s in
  let s := set_retry_count (u16 (count + 1)) s in
  if (SILC_SKE_RETRY_COUNT <=? count) || ske_aborted s then
    let s := set_retrans None (set_retry_timer SILC_SKE_RETRY_MIN (set_retry_count 0 s)) in
    silc_fsm_continue_sync (silc_ske_notify_failure (set_status SILC_SKE_STATUS_TIMEOUT s))
  else
    match ske_retrans s with
    | Some (type, data) => Rest (packet_send_copy s type data (zrepeat indet (zlen data))).2
    | None => Rest (packet_send_copy s 0 [] []).2
    end.

Definition timed_out (status : Z) (s : SilcSKE) : outcome :=
  silc_fsm_continue_sync (silc_ske_notify_failure (set_status status (silc_packet_free s))).

Definition run_task (t : SkeTask) (s : SilcSKE) : outcome :=
  match t with
  | silc_fsm_run => fsm_run run_fuel s
  | silc_fsm_finish_fsm => Rest (fsm_finish_fsm s)
  | silc_ske_timeout => timed_out SILC_SKE_STATUS_TIMEOUT s
  | silc_ske_probe_timeout => timed_out SILC_SKE_STATUS_PROBE_TIMEOUT s
  | silc_ske_packet_send_retry => packet_send_retry s
  end.

(** The first task of that kind leaves the queue when it is run. *)
Fixpoint task_take (t : SkeTask) (l : list SkeTask) : list SkeTask :=
  match l with
  | [] => []
  | x :: l => if task_is t x then l else x :: task_take t l
  end.

Definition silc_ske_pk_verified (status : Z) (s : SilcSKE) : SilcSKE :=
  silc_fsm_continue (set_status status s).

Definition silc_ske_skr_callback (ok : bool) (s : SilcSKE) : outcome :=
  if negb ok && cf_verify_key (ske_conf s) then
    match ske_prop s with
    | Some prop =>
        match pr_public_key prop with
        | Some pk =>
            let '(v, s) := pop_verified (output (O_verify_key pk) s) in
            match v with
            | Some status => Rest (silc_ske_pk_verified status s)
            | None => Rest s
            end
        | None => Crash
        end
    | None => Crash
    end
  else Rest (silc_fsm_continue (set_status (found_status ok) s)).

Definition silc_ske_free (s : SilcSKE) : outcome :=
  let unref := fun s => Rest (set_refcnt (u16 (ske_refcnt s - 1)) s) in
  if ske_aborted s then
    let s := silc_ske_notify_failure (set_status SILC_SKE_STATUS_ERROR (silc_packet_free s)) in
    if ske_started s then
      match silc_fsm_continue_sync s with Rest s => unref s | r => r end
    else unref s
  else unref s.

Inductive ske_event :=
| Ev_packet (p : SkePacket)
| Ev_task (t : SkeTask)
| Ev_verified (status : Z)
| Ev_found (ok : bool)
| Ev_abort
| Ev_free.

Definition ske_step (s : SilcSKE) (ev : ske_event) : outcome :=
  if freed s then Crash
  else
    match ev with
    | Ev_packet p =>
        if stm_linked (ske_stream s) && existsb (Z.eqb (pkt_type p)) (linked_types (ske_conf s))
        then silc_ske_packet_receive p s else Rest s
    | Ev_task t =>
        if existsb (task_is t) (ske_tasks s)
        then run_task t (set_tasks (task_take t (ske_tasks s)) s) else Rest s
    | Ev_verified status => Rest (silc_ske_pk_verified status s)
    | Ev_found ok => silc_ske_skr_callback ok s
    | Ev_abort => Rest (set_aborted true s)
    | Ev_free => silc_ske_free s
    end.

Fixpoint ske_steps (s : SilcSKE) (l : list ske_event) : outcome :=
  match l with
  | [] => Rest s
  | ev :: l => match ske_step s ev with Rest s => ske_steps s l | r => r end
  end.

(** * Entry points *)

(** silc_ske_alloc with silc_ske_set_callbacks, and the fields silc_ske_initiator
    and silc_ske_responder set. *)
Definition ske_new (conf : SkeConf) (prop : option SilcSKESecurityProperties)
    (start_payload : option SilcSKEStartPayload) (rekey : option SilcSKERekeyMaterial)
    (packet : option SkePacket) (rng : list Z) (answers : SkeAnswers) (stream : SkeStream)
  : SilcSKE :=
  {| ske_conf := conf; ske_status := SILC_SKE_STATUS_OK; ske_prop := prop;
     ske_start_payload := start_payload; ske_ke1_payload := None; ske_ke2_payload := None;
     ske_start_payload_copy := None; ske_x := None; ske_KEY := None; ske_hash := None;
     ske_remote_version := None; ske_packet := packet; ske_keymat := None; ske_rekey := rekey;
     ske_aborted := false; ske_failure_notified := false; ske_refcnt := 2;
     ske_retry_timer := SILC_SKE_RETRY_MIN; ske_retry_count := 0; ske_retrans := None;
     ske_next_state := None; ske_started := false; ske_synchronous := false; ske_tasks := [];
     ske_rng := rng; ske_answers := answers; ske_stream := stream; ske_out := [] |}.

Definition fsm_start (st : SkeSt) (s : SilcSKE) : SilcSKE :=
  task_add silc_fsm_run (set_started true (set_synchronous false (fsm_next st s))).

Definition fsm_start_sync (st : SkeSt) (s : SilcSKE) : outcome :=
  fsm_run run_fuel (set_started true (set_synchronous true (fsm_next st s))).

(** Without a start payload and properties of the caller a proposal is made. *)
Definition silc_ske_initiator (conf : SkeConf) (prop : option SilcSKESecurityProperties)
    (start_payload : option SilcSKEStartPayload) (small_proposal : bool) (rng : list Z)
    (answers : SkeAnswers) (stream : SkeStream) : SilcSKE :=
  let '(start_payload, rng) :=
    match start_payload, prop with
    | None, None =>
        let '(p, rng) := silc_ske_assemble_security_properties algs rng (cf_session_port conf)
                           (cf_flags conf) (ptr_bytes (cf_version conf)) small_proposal in
        (Some p, rng)
    | p, _ => (p, rng)
    end in
  let s := set_linked true (ske_new conf prop start_payload None None rng answers stream) in
  let s := task_add silc_ske_timeout s in
  let s := if cf_timeout conf =? cf_probe_timeout conf then s
           else task_add silc_ske_probe_timeout s in
  fsm_start (match prop with None => silc_ske_st_initiator_start
                           | Some _ => silc_ske_st_initiator_phase2 end) s.

Definition silc_ske_responder (conf : SkeConf) (prop : option SilcSKESecurityProperties)
    (rng : list Z) (answers : SkeAnswers) (stream : SkeStream) : SilcSKE :=
  let s := set_linked true (ske_new conf prop None None None rng answers stream) in
  fsm_start silc_ske_st_responder_start (task_add silc_ske_timeout s).

Definition silc_ske_rekey_initiator (conf : SkeConf) (rekey : SilcSKERekeyMaterial)
    (rng : list Z) (answers : SkeAnswers) (stream : SkeStream) : SilcSKE :=
  fsm_start silc_ske_st_rekey_initiator_start
    (set_linked true (ske_new conf None None (Some rekey) None rng answers stream)).

Definition silc_ske_rekey_responder (conf : SkeConf) (rekey : SilcSKERekeyMaterial)
    (packet : option SkePacket) (rng : list Z) (answers : SkeAnswers) (stream : SkeStream)
  : outcome :=
  fsm_start_sync silc_ske_st_rekey_responder_wait
    (set_linked true (ske_new conf None None (Some rekey) packet rng answers stream)).
End run.
