(* ===== verification/SkeTotal.v ===== *)
(** The state machine of the key exchange: which state follows which, and that
    the machine always comes to rest. *)

From S2P Require Import Prelude CTypes Buffer BufFmt Id SkePayload Auth Cipher Hash Hmac Algs SkeGroup SkeKeys SkeState Ske SkeFsm SkeRun.

(** The states a state function continues with. *)
Definition ske_continues (st : SkeSt) : list SkeSt :=
  match st with
  | silc_ske_st_initiator_start => [silc_ske_st_initiator_aborted; silc_ske_st_initiator_error]
  | silc_ske_st_initiator_phase1 => [silc_ske_st_initiator_phase2; silc_ske_st_initiator_error]
  | silc_ske_st_initiator_phase2 => [silc_ske_st_initiator_error]
  | silc_ske_st_initiator_phase3 => [silc_ske_st_initiator_phase4; silc_ske_st_initiator_error]
  | silc_ske_st_initiator_phase4 =>
      [silc_ske_st_initiator_end; silc_ske_st_rekey_initiator_done; silc_ske_st_initiator_aborted;
       silc_ske_st_initiator_error]
  | silc_ske_st_initiator_end => [silc_ske_st_initiator_error]
  | silc_ske_st_responder_start => [silc_ske_st_responder_aborted]
  | silc_ske_st_responder_phase1 => [silc_ske_st_responder_error]
  | silc_ske_st_responder_phase2 => [silc_ske_st_responder_phase4; silc_ske_st_responder_error]
  | silc_ske_st_responder_phase4 =>
      [silc_ske_st_responder_phase5; silc_ske_st_responder_aborted; silc_ske_st_responder_error]
  | silc_ske_st_responder_phase5 =>
      [silc_ske_st_responder_end; silc_ske_st_rekey_responder_done; silc_ske_st_responder_error]
  | silc_ske_st_responder_end => [silc_ske_st_responder_error]
  | silc_ske_st_rekey_initiator_start =>
      [silc_ske_st_rekey_initiator_done; silc_ske_st_initiator_phase2;
       silc_ske_st_initiator_aborted; silc_ske_st_initiator_error]
  | silc_ske_st_rekey_initiator_done | silc_ske_st_rekey_initiator_end =>
      [silc_ske_st_initiator_error]
  | silc_ske_st_rekey_responder_wait =>
      [silc_ske_st_rekey_responder_start; silc_ske_st_responder_aborted]
  | silc_ske_st_rekey_responder_start =>
      [silc_ske_st_rekey_responder_done; silc_ske_st_responder_error]
  | silc_ske_st_rekey_responder_done | silc_ske_st_rekey_responder_end =>
      [silc_ske_st_responder_error]
  | _ => []
  end.

(** How many states can still follow without an event. *)
Definition ske_rank (st : SkeSt) : nat :=
  match st with
  | silc_ske_st_initiator_aborted | silc_ske_st_initiator_error | silc_ske_st_initiator_failure
  | silc_ske_st_responder_aborted | silc_ske_st_responder_error | silc_ske_st_responder_failure => 0
  | silc_ske_st_initiator_start | silc_ske_st_initiator_phase2 | silc_ske_st_initiator_end
  | silc_ske_st_responder_start | silc_ske_st_responder_phase1 | silc_ske_st_responder_end
  | silc_ske_st_rekey_initiator_end | silc_ske_st_rekey_responder_end
  | silc_ske_st_rekey_initiator_done | silc_ske_st_rekey_responder_done => 1
  | silc_ske_st_initiator_phase1 | silc_ske_st_initiator_phase4 | silc_ske_st_responder_phase5
  | silc_ske_st_rekey_initiator_start | silc_ske_st_rekey_responder_start => 2
  | silc_ske_st_initiator_phase3 | silc_ske_st_responder_phase4
  | silc_ske_st_rekey_responder_wait => 3
  | silc_ske_st_responder_phase2 => 4
  end.

Lemma ske_continues_rank st st' : In st' (ske_continues st) -> (ske_rank st' < ske_rank st)%nat.
Proof. destruct st; simpl; intuition (subst; simpl; lia). Qed.

Section total.
Context `{SkePkcs} (algs : SilcAlgs).

Abbreviation result := (option (SilcFSMStatus * SilcSKE)).

Definition continues_in (l : list SkeSt) (r : result) : Prop :=
  match r with
  | Some (SILC_FSM_ST_CONTINUE, s) => exists st, ske_next_state s = Some st /\ In st l
  | _ => True
  end.

Lemma goto_in l st s : In st l -> continues_in l (goto st s).
Proof. by exists st. Qed.

Lemma old_packet_in l st s : In st l -> continues_in l (old_packet st s).
Proof. intros Hl. unfold old_packet. repeat case_match; [done|]. by apply goto_in. Qed.

Lemma call_verify_key_in l pk st s :
  ske_next_state s = Some st -> In st l -> continues_in l (call_verify_key pk s).
Proof.
  intros Hs Hl. unfold call_verify_key, pop_verified, output.
  destruct (ans_verified _) as [|[v|] a]; cbn; [done| |done]. by exists st.
Qed.

Lemma call_skr_find_in l pk st s :
  ske_next_state s = Some st -> In st l -> continues_in l (call_skr_find pk s).
Proof.
  intros Hs Hl. unfold call_skr_find, pop_found, output.
  destruct (ans_found _) as [|[v|] a]; cbn; [done| |done].
  case_match; [by apply (call_verify_key_in l pk st)|by exists st].
Qed.

(** Follows the branches of a state function. *)
Ltac branches :=
  repeat first
    [ exact I
    | apply goto_in; simpl; tauto
    | apply old_packet_in; simpl; tauto
    | eapply call_verify_key_in; [reflexivity|simpl; tauto]
    | eapply call_skr_find_in; [reflexivity|simpl; tauto]
    | eexists; split; [reflexivity|simpl; tauto]
    | case_match ].

Lemma rekey_properties_in l rk s sent error done phase2 :
  In error l -> (forall s, continues_in l (done s)) -> (forall s, continues_in l (phase2 s)) ->
  continues_in l (rekey_properties algs rk s sent error done phase2).
Proof.
  intros He Hd Hp. unfold rekey_properties.
  repeat first [apply goto_in; exact He | apply Hd | apply Hp | case_match].
Qed.

Lemma rekey_done_in l error next s :
  In error l -> continues_in l (rekey_done algs error next s).
Proof.
  intros He. unfold rekey_done. repeat first [exact I | apply goto_in; exact He | case_match].
Qed.

Lemma rekey_end_in l error s : In error l -> continues_in l (rekey_end algs error s).
Proof.
  intros He. unfold rekey_end. repeat first [exact I | apply goto_in; exact He | case_match].
Qed.

(** Every state function. *)
Lemma state_fn_continues st s : continues_in (ske_continues st) (state_fn algs st s).
Proof.
  destruct st; cbn [state_fn].
  - unfold initiator_start, initiator_fail. branches.
  - unfold initiator_phase1, initiator_fail. branches.
  - unfold initiator_phase2, initiator_fail. branches.
  - unfold initiator_phase3, phase3_err, initiator_fail. branches.
  - unfold initiator_phase4, phase4_err, initiator_fail. branches.
  - unfold initiator_end. branches.
  - unfold ske_aborted_state. branches.
  - unfold ske_error_state. branches.
  - unfold ske_failure_state. branches.
  - unfold responder_start. branches.
  - unfold responder_phase1, responder_fail. branches.
  - unfold responder_phase2, responder_fail. branches.
  - unfold responder_phase4, responder_phase4_err. branches.
  - unfold responder_phase5, send_ke2, responder_fail. branches.
  - unfold responder_end, responder_finish, responder_fail. branches.
  - unfold ske_aborted_state. branches.
  - unfold ske_failure_state. branches.
  - unfold ske_error_state. branches.
  - unfold rekey_initiator_start. branches. apply rekey_properties_in; [simpl; tauto|intros; branches..].
  - unfold rekey_initiator_done, rekey_responder_done. apply rekey_done_in. simpl; tauto.
  - unfold rekey_initiator_end, rekey_responder_end. apply rekey_end_in. simpl; tauto.
  - unfold rekey_responder_wait. branches.
  - unfold rekey_responder_start, responder_fail. branches.
    apply rekey_properties_in; [simpl; tauto|intros; branches..].
  - unfold rekey_initiator_done, rekey_responder_done. apply rekey_done_in. simpl; tauto.
  - unfold rekey_initiator_end, rekey_responder_end. apply rekey_end_in. simpl; tauto.
Qed.

Lemma fsm_run_rests fuel s :
  match ske_next_state s with Some st => (ske_rank st < fuel)%nat | None => (0 < fuel)%nat end ->
  fsm_run algs fuel s <> NoRest.
Proof.
  revert s; induction fuel as [|fuel IH]; intros s Hr; [destruct (ske_next_state s); lia|].
  cbn [fsm_run]. destruct (ske_next_state s) as [st|]; [|done].
  pose proof (state_fn_continues st s) as C.
  destruct (state_fn algs st s) as [[[] s']|]; try done.
  destruct C as (st' & E & Hin). apply IH. rewrite E.
  pose proof (ske_continues_rank _ _ Hin). lia.
Qed.

Lemma run_fuel_rests s : fsm_run algs run_fuel s <> NoRest.
Proof.
  apply fsm_run_rests. destruct (ske_next_state s) as [st|]; [destruct st|]; unfold run_fuel; simpl; lia.
Qed.

(** C9. The machine of the key exchange comes to rest: whatever the state of the
    context and whatever event happens to it (a packet, a task, the end of a key
    verification, an abort, the release), the states that run one after the other
    end, within the fuel of the model. *)
Theorem ske_step_rests s ev : ske_step algs s ev <> NoRest.
Proof.
  unfold ske_step. case_match; [done|]. destruct ev; try done.
  - case_match; [|done]. unfold silc_ske_packet_receive, silc_fsm_continue_sync.
    repeat case_match; try done; apply run_fuel_rests.
  - case_match; [|done]. destruct t; cbn [run_task]; unfold timed_out; try done;
      try apply run_fuel_rests.
    unfold packet_send_retry. repeat case_match; try done; apply run_fuel_rests.
  - unfold silc_ske_skr_callback. by repeat case_match.
  - unfold silc_ske_free, silc_fsm_continue_sync. repeat case_match; try done; subst.
    by match goal with E : fsm_run _ _ ?s = NoRest |- _ => destruct (run_fuel_rests s E) end.
Qed.
End total.
