(* ===== verification/SkeInv.v ===== *)
(** Invariants of the key exchange, for both sides: what the helpers of the states
    leave alone, and the principle by which a property of the data of every state
    holds along all events (the class [SkeInvariant]). *)

From stdpp Require Import strings.
From S2P Require Import Prelude CTypes Buffer BufFmt BufFmtSpec Id SkePayload Auth Cipher Hash HashFns Hmac Algs SkeGroup SkeKeys SkeKeySpec SkeState Ske SkeFsm SkeRun.

(** * The transcript of HASH *)

(** The bytes of a field, and that its length is that of its data. *)
Definition field_bytes (f : SkeField) : list Z :=
  match f_data f with Some d => mem_read d (f_len f) | None => [] end.

Definition field_sized (f : SkeField) : Prop :=
  match f_data f with Some _ => 0 <= f_len f | None => f_len f = 0 end.

(** HASH = hash(start payload, responder's key, initiator's key, e, f, KEY) *)
Definition ske_transcript (copy : SilcBuffer) (ke1 ke2 : SilcSKEKEPayload) (KEY : Z) : list Z :=
  mem_read (b_data copy) (silc_buffer_len copy) ++ field_bytes (ke_pk ke2) ++
  field_bytes (ke_pk ke1) ++ silc_mp_mp2bin (ke_x ke1) ++ silc_mp_mp2bin (ke_x ke2) ++
  silc_mp_mp2bin KEY.

(** HASH_i = hash(start payload, initiator's key, e) *)
Definition ske_transcript_i (copy : SilcBuffer) (ke1 : SilcSKEKEPayload) : list Z :=
  mem_read (b_data copy) (silc_buffer_len copy) ++ field_bytes (ke_pk ke1) ++
  silc_mp_mp2bin (ke_x ke1).

Lemma field_bytes_len f : field_sized f -> zlen (field_bytes f) = f_len f.
Proof. unfold field_sized, field_bytes. destruct (f_data f); [intros; by rewrite zlen_mem_read|done]. Qed.

(** A buffer allocated for what is formatted into it. *)
Lemma format_whole n ap ret buf b :
  Forall fmt_plain ap -> n = zlen (fmt_bytes ap) -> n < 2 ^ 29 ->
  silc_buffer_alloc_size (u32 n) = Some b -> silc_buffer_format b ap = (ret, buf) ->
  b_data buf = fmt_bytes ap.
Proof.
  intros Hp Hn Hlt. rewrite u32_id by lia.
  rewrite buffer_alloc_size_ok by (unfold SILC_MAX_ALLOC; lia). intros [= <-].
  rewrite (format_exact ap n) by (done || unfold SILC_MAX_ALLOC; lia). by intros [= _ <-].
Qed.

Section hash.
Context `{SkePkcs}.

Lemma make_hash_spec s hash :
  silc_ske_make_hash s false = Some (SILC_SKE_STATUS_OK : Z, hash) ->
  exists ke1 ke2 KEY prop h,
    ske_ke1_payload s = Some ke1 /\ ske_ke2_payload s = Some ke2 /\ ske_KEY s = Some KEY /\
    ske_prop s = Some prop /\ pr_hash prop = Some h /\
    forall copy, ske_start_payload_copy s = Some copy ->
      field_sized (ke_pk ke1) -> field_sized (ke_pk ke2) ->
      zlen (ske_transcript copy ke1 ke2 KEY) < 2 ^ 29 ->
      hash = hash_make h (ske_transcript copy ke1 ke2 KEY).
Proof.
  unfold silc_ske_make_hash.
  destruct (match ske_start_payload_copy s with Some b => _ | None => _ end) as [sd sl] eqn:Es.
  destruct (ske_ke1_payload s) as [ke1|]; [|done]. destruct (ske_KEY s) as [KEY|];
    [|by destruct (ske_ke2_payload s), (ske_prop s)].
  destruct (ske_ke2_payload s) as [ke2|]; [|by destruct (ske_prop s)].
  destruct (ske_prop s) as [prop|]; [|done]. destruct (pr_hash prop) as [h|] eqn:Eh; [|done].
  destruct (silc_buffer_alloc_size _) as [b|] eqn:Ea; [|done].
  set (ap := _ ++ _) in *. destruct (silc_buffer_format b ap) as [ret buf] eqn:Ef.
  destruct (ret =? -1); [done|]. intros [= <-]. exists ke1, ke2, KEY, prop, h.
  split_and!; try done. intros copy Ec F1 F2 Hlt. rewrite Ec in Es. injection Es as <- <-.
  assert (fmt_bytes ap = ske_transcript copy ke1 ke2 KEY) as E.
  { unfold ap, ske_transcript, field_bytes, fmt_bytes. rewrite !map_app, !concat_app.
    destruct (f_data (ke_pk ke1)); cbn [map concat fmt_bytes1];
      rewrite !(mem_read_exact (silc_mp_mp2bin _)), ?app_nil_r, <- ?app_assoc by done; done. }
  rewrite <- E in Hlt |- *. f_equal. eapply format_whole; [| |exact Hlt| |exact Ef].
  - unfold ap. pose proof (u32_range (zlen (b_data copy))). unfold field_sized in *.
    repeat apply Forall_app_2; destruct (f_data (ke_pk ke1)), (f_data (ke_pk ke2));
      repeat constructor; simpl; try lia; unfold silc_buffer_len; lia.
  - reflexivity.
  - rewrite <- Ea. do 2 f_equal. rewrite E. unfold ske_transcript. rewrite !length_app.
    pose proof (field_bytes_len _ F1). pose proof (field_bytes_len _ F2).
    pose proof (zlen_mem_read (b_data copy) (silc_buffer_len copy)
      ltac:(apply u32_range)). lia.
Qed.

Lemma make_hash_i_spec s hash :
  silc_ske_make_hash s true = Some (SILC_SKE_STATUS_OK : Z, hash) ->
  exists ke1 prop h,
    ske_ke1_payload s = Some ke1 /\ ske_prop s = Some prop /\ pr_hash prop = Some h /\
    forall copy, ske_start_payload_copy s = Some copy ->
      field_sized (ke_pk ke1) -> zlen (ske_transcript_i copy ke1) < 2 ^ 29 ->
      hash = hash_make h (ske_transcript_i copy ke1).
Proof.
  unfold silc_ske_make_hash.
  destruct (match ske_start_payload_copy s with Some b => _ | None => _ end) as [sd sl] eqn:Es.
  destruct (ske_ke1_payload s) as [ke1|]; [|done].
  destruct (ske_prop s) as [prop|]; [|by destruct (ske_ke2_payload s), (ske_KEY s)].
  destruct (pr_hash prop) as [h|] eqn:Eh; [|by destruct (ske_ke2_payload s), (ske_KEY s)].
  cbv zeta. destruct (silc_buffer_alloc_size _) as [b|] eqn:Ea; [|done].
  set (ap := [_; _; _]). destruct (silc_buffer_format b ap) as [ret buf] eqn:Ef.
  destruct (ret =? -1); [done|]. intros [= <-]. exists ke1, prop, h.
  split_and!; try done. intros copy Ec F1 Hlt. rewrite Ec in Es. injection Es as <- <-.
  assert (fmt_bytes ap = ske_transcript_i copy ke1) as E.
  { unfold ap, ske_transcript_i, field_bytes, fmt_bytes. destruct (f_data (ke_pk ke1));
      cbn [map concat fmt_bytes1];
      rewrite !(mem_read_exact (silc_mp_mp2bin _)), ?app_nil_r, <- ?app_assoc by done; done. }
  rewrite <- E in Hlt |- *. f_equal. eapply format_whole; [| |exact Hlt| |exact Ef].
  - unfold ap. pose proof (u32_range (zlen (b_data copy))). unfold field_sized in *.
    destruct (f_data (ke_pk ke1)); repeat constructor; simpl; try lia; unfold silc_buffer_len; lia.
  - reflexivity.
  - rewrite <- Ea. do 2 f_equal. rewrite E. unfold ske_transcript_i. rewrite !length_app.
    pose proof (field_bytes_len _ F1).
    pose proof (zlen_mem_read (b_data copy) (silc_buffer_len copy)
      ltac:(apply u32_range)). lia.
Qed.
End hash.

(** * Statuses and frames *)

Lemma start_encode_error p st : silc_ske_payload_start_encode p = (st, None) -> st <> SILC_SKE_STATUS_OK.
Proof. unfold silc_ske_payload_start_encode. intros E. by repeat case_match; simplify_eq. Qed.

Lemma start_decode_error b st : silc_ske_payload_start_decode b = (st, None) -> st <> SILC_SKE_STATUS_OK.
Proof. unfold silc_ske_payload_start_decode. intros E. by repeat case_match; simplify_eq. Qed.

Lemma ke_encode_error fl (p : option SilcSKEKEPayload) st :
  silc_ske_payload_ke_encode silc_mp_mp2bin fl p = (st, None) -> st <> SILC_SKE_STATUS_OK.
Proof. unfold silc_ske_payload_ke_encode. intros E. by repeat case_match; simplify_eq. Qed.

Lemma ke_decode_error fl b st b' :
  silc_ske_payload_ke_decode silc_mp_bin2mp fl b = (st, None, b') -> st <> SILC_SKE_STATUS_OK.
Proof. unfold silc_ske_payload_ke_decode. intros E. by repeat case_match; simplify_eq. Qed.

Lemma status_code_ok (st : SilcSKEStatus) : st <> SILC_SKE_STATUS_OK -> (st : Z) <> SILC_SKE_STATUS_OK.
Proof. by destruct st. Qed.

Lemma status_or_error_ok status : status_or_error status <> SILC_SKE_STATUS_OK.
Proof. unfold status_or_error. destruct (Z.eqb_spec status SILC_SKE_STATUS_OK); done. Qed.

Section frames.
Context `{SkePkcs}.

Definition is_completion (o : SkeOutput) : bool :=
  match o with O_complete _ _ => true | _ => false end.

Definition ske_data (s : SilcSKE) :=
  (ske_prop s, ske_ke1_payload s, ske_ke2_payload s, ske_start_payload_copy s, ske_x s, ske_KEY s,
   ske_hash s, ske_keymat s, ske_rekey s).

Definition ske_control (s : SilcSKE) :=
  (ske_conf s, ske_next_state s, ske_status s, ske_aborted s, ske_started s, ske_start_payload s,
   ske_packet s).

(** More output, without a completion. *)
Definition out_grows (s s' : SilcSKE) : Prop :=
  exists l, ske_out s' = ske_out s ++ l /\ Forall (fun o => is_completion o = false) l.

(** What helpers leave alone. *)
Definition frame (s s' : SilcSKE) : Prop :=
  out_grows s s' /\ ske_data s' = ske_data s /\ ske_control s' = ske_control s.

Lemma out_grows_same s s' : ske_out s' = ske_out s -> out_grows s s'.
Proof. intros E. exists []. by rewrite E, app_nil_r. Qed.

#[export] Instance out_grows_preorder : PreOrder out_grows.
Proof.
  split.
  - intros s. by apply out_grows_same.
  - intros s s' s'' (l & E & Hl) (l' & E' & Hl'). exists (l ++ l').
    rewrite E', E, app_assoc. split; [done|]. by apply Forall_app.
Qed.

#[export] Instance frame_preorder : PreOrder frame.
Proof.
  split.
  - by intros s.
  - intros s s' s'' (O & D & C) (O' & D' & C'). split; [by etransitivity|]. split; congruence.
Qed.

Lemma frame_same s s' :
  ske_out s' = ske_out s -> ske_data s' = ske_data s -> ske_control s' = ske_control s -> frame s s'.
Proof. intros E. by split; [apply out_grows_same|]. Qed.

Lemma frame_output o s : is_completion o = false -> frame s (output o s).
Proof. intros Ho. split; [|done]. exists [o]. split; [done|by repeat constructor]. Qed.

Lemma frame_install_retransmission s : frame s (silc_ske_install_retransmission s).2.
Proof.
  unfold silc_ske_install_retransmission. destruct (negb _); [done|].
  destruct (ske_retrans s); by apply frame_same.
Qed.

Lemma frame_flags s s' : frame s s' -> ske_status s' = ske_status s /\ ske_aborted s' = ske_aborted s.
Proof. intros (_ & _ & C). by injection C. Qed.

Lemma stream_send_frame s type data :
  frame s (stream_send s type data).2 /\
  In (O_send type data) (ske_out (stream_send s type data).2).
Proof.
  unfold stream_send. destruct (ans_sent _) as [|b l]; cbn [snd]; (split; [|by apply in_elt]);
    (etransitivity; [|by apply frame_output]); by apply frame_same.
Qed.

Lemma out_grows_in s s' o : out_grows s s' -> In o (ske_out s) -> In o (ske_out s').
Proof. intros (l & -> & _) Hin. apply in_or_app. by left. Qed.

Lemma packet_send_frame s type data ok s' :
  silc_ske_packet_send s type data = (ok, s') ->
  frame s s' /\ In (O_send type data) (ske_out s').
Proof.
  unfold silc_ske_packet_send, packet_send_copy. pose proof (stream_send_frame s type data) as [F I].
  destruct (stream_send s type data) as [ret s1]. cbn [snd] in *.
  destruct (_ && _); [|by intros [= _ <-]].
  destruct (silc_memdup _ _) as [d|]; intros [= _ <-]; [|by split; [etransitivity; [exact F|by apply frame_same]|]].
  assert (frame s1 (silc_ske_install_retransmission (set_retrans (Some (type, d)) s1)).2) as F1.
  { etransitivity; [|apply frame_install_retransmission]. by apply frame_same. }
  split; [by etransitivity|]. eapply out_grows_in; [apply F1|done].
Qed.

Lemma frame_remote_id p s : frame s (take_remote_id p s).
Proof. unfold take_remote_id. destruct (_ && _); [by apply frame_output|done]. Qed.

Lemma create_exponent_frame s g st x s' : create_exponent s g = (st, x, s') -> frame s s'.
Proof.
  unfold create_exponent. destruct (silc_ske_create_rnd _ _ _) as [[? ?] ?].
  intros [= _ _ <-]. by apply frame_same.
Qed.

Lemma pop_verified_frame s v s' : pop_verified s = (v, s') -> frame s s'.
Proof.
  unfold pop_verified. destruct (ans_verified _) as [|? ?]; intros [= _ <-]; by apply frame_same.
Qed.

Lemma pop_found_frame s v s' : pop_found s = (v, s') -> frame s s'.
Proof.
  unfold pop_found. destruct (ans_found _) as [|? ?]; intros [= _ <-]; by apply frame_same.
Qed.

(** Key material of a context. *)
Lemma process_key_material_spec s a b c km s' :
  silc_ske_process_key_material s a b c = Some (Some km, s') ->
  exists KEY prop h rk, ske_KEY s = Some KEY /\ ske_prop s = Some prop /\ pr_hash prop = Some h /\
    s' = set_rekey rk s /\
    let data := silc_mp_mp2bin KEY ++ ptr_bytes (ske_hash s) in
    (zlen data < 2 ^ 29 -> silc_ske_process_key_material_data data a b c h = Some km).
Proof.
  unfold silc_ske_process_key_material.
  destruct (ske_KEY s) as [KEY|]; [|done]. destruct (ske_prop s) as [prop|]; [|done].
  destruct (pr_hash prop) as [h|] eqn:Eh; [|done].
  destruct (silc_buffer_alloc_size _) as [b0|] eqn:Ea; [|done].
  set (ap := [_; _]). destruct (silc_buffer_format b0 ap) as [ret buf] eqn:Ef. cbn [snd].
  destruct (silc_ske_make_rekey_material _ _) as [[rk|]|]; [| |done]; intros [= E <-].
  exists KEY, prop, h, (Some rk). split_and!; try done. cbv zeta. intros Hlt.
  assert (fmt_bytes ap = silc_mp_mp2bin KEY ++ ptr_bytes (ske_hash s)) as Eb.
  { unfold ap, fmt_bytes. cbn [map concat fmt_bytes1]. rewrite app_nil_r, mem_read_exact by done.
    destruct (ske_hash s); cbn [ptr_bytes]; [by rewrite mem_read_exact|done]. }
  rewrite <- Eb in Hlt |- *. rewrite <- E. f_equal. symmetry.
  eapply format_whole; [|reflexivity|exact Hlt| |exact Ef].
  - unfold ap. repeat constructor; simpl; lia.
  - rewrite <- Ea. do 2 f_equal. rewrite Eb, length_app. lia.
Qed.

Lemma process_key_material_frame s a b c km s' :
  silc_ske_process_key_material s a b c = Some (km, s') -> s' = s \/ exists rk, s' = set_rekey rk s.
Proof.
  unfold silc_ske_process_key_material.
  repeat case_match; intros; simplify_eq; eauto.
Qed.
End frames.

(** * Invariants *)

(** The common states of the two sides. *)
Definition error_st (responder : bool) : SkeSt :=
  if responder then silc_ske_st_responder_error else silc_ske_st_initiator_error.
Definition aborted_st (responder : bool) : SkeSt :=
  if responder then silc_ske_st_responder_aborted else silc_ske_st_initiator_aborted.
Definition failure_st (responder : bool) : SkeSt :=
  if responder then silc_ske_st_responder_failure else silc_ske_st_initiator_failure.

Lemma failure_not_error r : failure_st r <> error_st r.
Proof. by destruct r. Qed.

(** The result the completion callback gets. *)
Definition SkeResult `{PkcsOps} : Type :=
  option (option SilcSKESecurityProperties * option SilcSKEKeyMaterial *
          option SilcSKERekeyMaterial).

(** The buffer of the packet the context holds is one of the packet engine. *)
Definition packet_ok `{PkcsOps} (s : SilcSKE) : Prop :=
  match ske_packet s with Some p => buf_ok (pkt_buffer p) | None => True end.

Lemma packet_ok_same `{PkcsOps} s s' : ske_packet s' = ske_packet s -> packet_ok s -> packet_ok s'.
Proof. unfold packet_ok. by intros ->. Qed.

(** An invariant of one side: what a result with the status OK means, and what
    the data of the context is when the machine is about to run a state. *)
Class SkeInvariant `{SkePkcs} (c : SkeConf) (responder : bool) := {
  result_ok : list SkeOutput -> SkeResult -> Prop;
  phase_ok : SkeSt -> SilcSKE -> Prop;
  side : cf_responder c = responder;
  result_grows out out' res :
    (forall o, In o out -> In o out') -> result_ok out res -> result_ok out' res;
  phase_frame st s s' :
    out_grows s s' -> ske_data s' = ske_data s -> (ske_aborted s = true -> ske_aborted s' = true) ->
    (packet_ok s -> packet_ok s') -> (st = error_st responder -> ske_status s' = ske_status s) ->
    phase_ok st s -> phase_ok st s';
  phase_error s : phase_ok (error_st responder) s <-> ske_status s <> SILC_SKE_STATUS_OK;
  phase_aborted s : phase_ok (aborted_st responder) s <-> ske_aborted s = true;
  phase_failure s : phase_ok (failure_st responder) s;
}.

Section machine.
Context `{Inv : SkeInvariant} (algs : SilcAlgs).

(** Every completion with the status OK was justified by what came before. *)
Definition completions_ok (out : list SkeOutput) : Prop :=
  forall res, In (O_complete (SILC_SKE_STATUS_OK : Z) res) out -> result_ok out res.

Lemma completions_ok_grows s s' :
  out_grows s s' -> completions_ok (ske_out s) -> completions_ok (ske_out s').
Proof.
  intros (l & E & Hl) Hc res Hin. rewrite E in *.
  apply result_grows with (ske_out s); [intros; apply in_or_app; by left|].
  apply Hc. apply in_app_or in Hin as [?|Hin]; [done|].
  rewrite Forall_forall in Hl. by apply Hl in Hin.
Qed.

(** The machine runs, and its past is justified. *)
Definition base (s : SilcSKE) : Prop :=
  ske_conf s = c /\ ske_started s = true /\ completions_ok (ske_out s).

(** The machine is finished: no packet and no task of the SKE comes any more. *)
Definition ended (s : SilcSKE) : Prop :=
  ske_conf s = c /\ completions_ok (ske_out s) /\ stm_linked (ske_stream s) = false /\
  Forall (fun t => t = silc_fsm_run \/ t = silc_fsm_finish_fsm) (ske_tasks s).

Definition at_rest (s : SilcSKE) : Prop :=
  base s /\ forall st, ske_next_state s = Some st -> phase_ok st s /\ st <> error_st responder.

Definition good (r : option (SilcFSMStatus * SilcSKE)) : Prop :=
  match r with
  | None => True
  | Some (SILC_FSM_ST_CONTINUE, s) =>
      base s /\ forall st, ske_next_state s = Some st -> phase_ok st s
  | Some (SILC_FSM_ST_WAIT, s) | Some (SILC_FSM_ST_YIELD, s) => at_rest s
  | Some (SILC_FSM_ST_FINISH, s) => ended s
  end.

Lemma base_frame s s' : frame s s' -> base s -> base s'.
Proof.
  intros (O & _ & C) (? & ? & ?). injection C; intros. split; [congruence|]. split; [congruence|].
  by eapply completions_ok_grows.
Qed.

Lemma phase_ok_next st st' s : phase_ok st s -> phase_ok st (fsm_next st' s).
Proof. apply phase_frame; try done. by apply out_grows_same. Qed.

(** The status and the fields the invariant does not read may change. *)
Lemma phase_set st s s' :
  st <> error_st responder -> phase_ok st s -> ske_out s' = ske_out s ->
  ske_data s' = ske_data s -> ske_aborted s' = ske_aborted s -> (packet_ok s -> packet_ok s') ->
  phase_ok st s'.
Proof.
  intros Hn Hp O D A K. apply (phase_frame st s); try done; [by apply out_grows_same|congruence].
Qed.

Lemma goto_good st s : base s -> phase_ok st s -> good (goto st s).
Proof. intros Hb Hp. split; [done|]. intros st' [= <-]. by apply phase_ok_next. Qed.

Lemma wait_good st s :
  base s -> phase_ok st s -> st <> error_st responder -> good (wait st s).
Proof. intros Hb Hp Hn. split; [done|]. intros st' [= <-]. split; [by apply phase_ok_next|done]. Qed.

Lemma fail_good (status : Z) s :
  base s -> status <> SILC_SKE_STATUS_OK -> good (goto (error_st responder) (set_status status s)).
Proof. intros Hb Hs. apply goto_good; [done|]. by apply phase_error. Qed.

Lemma frame_at st s s' :
  frame s s' -> base s -> ske_next_state s = Some st -> phase_ok st s ->
  base s' /\ ske_next_state s' = Some st /\ phase_ok st s'.
Proof.
  intros F Hb Hn Hp. split; [by eapply base_frame|]. destruct F as (O & D & C).
  injection C; intros. split; [congruence|]. apply (phase_frame st s); [done|done|congruence|by apply packet_ok_same|congruence|done].
Qed.

Lemma old_packet_good st s :
  base s -> ske_next_state s = Some st -> phase_ok st s -> st <> error_st responder ->
  good (old_packet (error_st responder) s).
Proof.
  intros Hb Hn Hp Hst. unfold old_packet.
  destruct (frame_at st s (silc_ske_install_retransmission s).2) as (Hb' & Hn' & Hp');
    [apply frame_install_retransmission|done..|].
  destruct (silc_ske_install_retransmission s) as [again s']. cbn [snd] in *. destruct again.
  - split; [done|]. intros st' E. cbn in E. assert (st' = st) as -> by congruence.
    split; [by eapply phase_set|done].
  - apply goto_good; [done|]. by apply phase_error.
Qed.

Lemma finish_good s :
  base s ->
  (ske_status s = SILC_SKE_STATUS_OK ->
   result_ok (ske_out s) (Some (ske_prop s, ske_keymat s, ske_rekey s))) ->
  good (ske_finish s).
Proof.
  intros (Hc & _ & Ho) Hr. unfold ske_finish, silc_ske_completion. simpl ske_aborted.
  assert (Forall (fun t => t = silc_fsm_run \/ t = silc_fsm_finish_fsm)
    (ske_tasks (task_del_by_context (set_linked false s)))) as Ht.
  { apply Forall_forall. intros t Hin. simpl in Hin. apply filter_In in Hin as [_ Hin].
    destruct t; try done; by auto. }
  destruct (_ && _); [|by split].
  split; [done|]. split; [|by split]. intros res Hin. simpl ske_out in *.
  apply in_app_or in Hin as [Hin|[Hin|[]]].
  - eapply result_grows; [|by apply Ho]. intros; apply in_or_app; by left.
  - injection Hin as Es <-. change (ske_status s = 0) in Es.
    eapply result_grows; [|simpl; rewrite Es; by apply Hr].
    intros; apply in_or_app; by left.
Qed.

Lemma continue_good st s : base s -> ske_next_state s = Some st -> phase_ok st s ->
  good (Some (SILC_FSM_ST_CONTINUE, s)).
Proof. intros Hb Hn Hp. split; [done|]. intros st' E. by assert (st' = st) as -> by congruence. Qed.

(** The verification functions are called with the machine at [st]. *)
Lemma call_verify_key_good st pk s :
  base s -> ske_next_state s = Some st -> phase_ok st (output (O_verify_key pk) s) ->
  st <> error_st responder -> good (call_verify_key pk s).
Proof.
  intros Hb Hn Hp Hst. unfold call_verify_key.
  destruct (pop_verified _) as [v s'] eqn:E. apply pop_verified_frame in E.
  destruct (frame_at st (output (O_verify_key pk) s) s' E) as (Hb' & Hn' & Hp');
    [eapply base_frame; [by apply frame_output|done]|done|done|].
  destruct v as [v|].
  - apply (continue_good st); [done..|]. by eapply phase_set.
  - split; [done|]. intros st' E'. by assert (st' = st) as -> by congruence.
Qed.

Lemma call_skr_find_good st pk s :
  base s -> ske_next_state s = Some st -> phase_ok st s ->
  st <> error_st responder -> good (call_skr_find pk s).
Proof.
  intros Hb Hn Hp Hst. unfold call_skr_find.
  destruct (pop_found _) as [v s'] eqn:E. apply pop_found_frame in E.
  assert (frame s s') as F by (etransitivity; [|exact E]; by apply frame_output).
  destruct (frame_at st s s' F) as (Hb' & Hn' & Hp'); [done..|].
  destruct v as [v|].
  - destruct (_ && _).
    + apply (call_verify_key_good st); [done..| |done]. eapply phase_frame; [..|exact Hp'];
        try done. by apply frame_output.
    + apply (continue_good st); [done..|]. by eapply phase_set.
  - split; [done|]. intros st' E'. by assert (st' = st) as -> by congruence.
Qed.

Lemma send_failure_frame status s : frame s (send_failure status s).
Proof.
  unfold send_failure. destruct (silc_ske_packet_send _ _ _) as [ok s'] eqn:E.
  by apply packet_send_frame in E as [? _].
Qed.

Lemma ske_error_state_good s :
  base s -> phase_ok (error_st responder) s -> good (ske_error_state s).
Proof.
  intros Hb Hs%phase_error. unfold ske_error_state. set (s1 := send_failure _ _).
  assert (frame s s1) as F by apply send_failure_frame.
  apply finish_good; [by eapply base_frame|]. intros E. destruct Hs. by rewrite <- E, (proj1 (frame_flags _ _ F)).
Qed.

(** Nothing is reported when the exchange was aborted. *)
Lemma ske_aborted_state_good s :
  base s -> phase_ok (aborted_st responder) s -> good (ske_aborted_state s).
Proof.
  intros Hb Hs%phase_aborted. unfold ske_aborted_state, ske_finish, silc_ske_completion.
  pose proof (send_failure_frame SILC_SKE_STATUS_ERROR s) as F. revert F.
  generalize (send_failure SILC_SKE_STATUS_ERROR s). intros s1 F.
  pose proof (base_frame _ _ F Hb) as (Hc & _ & Ho). pose proof (proj2 (frame_flags _ _ F)) as Ea.
  simpl. rewrite (eq_trans Ea Hs). cbn [negb andb].
  split; [done|]. split; [done|]. split; [done|].
  apply Forall_forall. intros t Hin. simpl in Hin. apply filter_In in Hin as [_ Hin].
  destruct t; try done; by auto.
Qed.

Lemma ske_failure_state_good s : base s -> good (ske_failure_state s).
Proof.
  intros Hb. unfold ske_failure_state.
  destruct (match ske_packet s with Some _ => _ | None => _ end) as [error s1] eqn:E.
  assert (base s1) as Hb1.
  { destruct (ske_packet s) as [p|]; [destruct (_ =? 4)|]; injection E as _ <-; done. }
  apply finish_good; [done|]. intros Hs. by destruct (status_or_error_ok error).
Qed.

(** ** The machine *)

(** The obligation of an invariant: every state function keeps it. *)
Definition states_good : Prop :=
  forall st s, base s -> ske_next_state s = Some st -> phase_ok st s -> good (state_fn algs st s).

(** The machine is finished and is not started again. *)
Definition over (s : SilcSKE) : Prop :=
  ske_conf s = c /\ completions_ok (ske_out s) /\ stm_linked (ske_stream s) = false /\
  ske_started s = false /\ Forall (fun t => t = silc_fsm_finish_fsm) (ske_tasks s).

Definition ske_inv (s : SilcSKE) : Prop := at_rest s \/ over s.

Hypothesis Hstates : states_good.

(** A call that does not run the machine. *)
Lemma at_rest_call s s' :
  out_grows s s' -> ske_data s' = ske_data s -> ske_conf s' = ske_conf s ->
  ske_started s' = ske_started s -> (ske_aborted s = true -> ske_aborted s' = true) ->
  (packet_ok s -> packet_ok s') ->
  ske_next_state s' = ske_next_state s \/ ske_next_state s' = Some (failure_st responder) \/
    ske_next_state s' = None ->
  at_rest s -> at_rest s'.
Proof.
  intros O D C S A K N [(? & ? & ?) Hp]. split.
  - split; [congruence|]. split; [congruence|]. by eapply completions_ok_grows.
  - intros st E. destruct N as [N|[N|N]].
    + rewrite N in E. apply Hp in E as [E Hn]. split; [|done].
      by apply (phase_frame st s).
    + assert (st = (failure_st responder)) as -> by congruence. split; [apply phase_failure|apply failure_not_error].
    + congruence.
Qed.

Lemma notify_failure_next s :
  ske_conf s = c ->
  ske_next_state (silc_ske_notify_failure s) = ske_next_state s \/
  ske_next_state (silc_ske_notify_failure s) = Some (failure_st responder).
Proof.
  intros Hc. unfold silc_ske_notify_failure. destruct (ske_failure_notified s); [by left|].
  right. simpl. by rewrite Hc, side.
Qed.

Lemma notify_failure_keeps s :
  ske_out (silc_ske_notify_failure s) = ske_out s /\
  ske_data (silc_ske_notify_failure s) = ske_data s /\
  ske_conf (silc_ske_notify_failure s) = ske_conf s /\
  ske_started (silc_ske_notify_failure s) = ske_started s /\
  ske_aborted (silc_ske_notify_failure s) = ske_aborted s /\
  ske_stream (silc_ske_notify_failure s) = ske_stream s /\
  ske_tasks (silc_ske_notify_failure s) = ske_tasks s /\
  ske_packet (silc_ske_notify_failure s) = ske_packet s.
Proof. unfold silc_ske_notify_failure. by destruct (ske_failure_notified s). Qed.

Lemma at_rest_notify s : at_rest s -> at_rest (silc_ske_notify_failure s).
Proof.
  intros Hr. destruct (notify_failure_keeps s) as (O & D & C & S & A & _ & _ & P).
  eapply at_rest_call; [by apply out_grows_same|done..|congruence|by apply packet_ok_same| |exact Hr].
  destruct (notify_failure_next s) as [N|N]; [apply Hr|by left|by right; left].
Qed.

(** Setting fields the invariant does not read. *)
Lemma at_rest_set s s' :
  ske_out s' = ske_out s -> ske_data s' = ske_data s -> ske_conf s' = ske_conf s ->
  ske_started s' = ske_started s -> (ske_aborted s = true -> ske_aborted s' = true) ->
  (packet_ok s -> packet_ok s') ->
  ske_next_state s' = ske_next_state s -> at_rest s -> at_rest s'.
Proof. intros O ? ? ? ? ? ?. apply at_rest_call; auto. by apply out_grows_same. Qed.

Lemma fsm_finish_fsm_inv s : ske_inv s -> ske_inv (fsm_finish_fsm s).
Proof.
  intros Hi. unfold fsm_finish_fsm, ske_free_stopped.
  set (s1 := set_status SILC_SKE_STATUS_ERROR (silc_packet_free (set_next_state None s))).
  destruct (notify_failure_keeps s1) as (O & D & C & S & A & T & K & P).
  destruct Hi as [Hr|(? & ? & ? & ? & ?)]; [left|right].
  - assert (forall s', ske_data s' = ske_data s -> ske_out s' = ske_out s ->
      ske_conf s' = ske_conf s -> ske_started s' = ske_started s -> ske_aborted s' = ske_aborted s ->
      (packet_ok s -> packet_ok s') -> ske_next_state s' = None \/ ske_next_state s' = Some (failure_st responder) ->
      at_rest s') as K1.
    { intros s' ? ? ? ? Ea Kp N.
      apply (at_rest_call s); [by apply out_grows_same|done..|congruence|done| |exact Hr].
      right. by destruct N; [right|left]. }
    destruct (ske_aborted (set_next_state None s)); [|apply K1; [done..|by left]].
    apply K1; [exact D|exact O|exact C|exact S|exact A|intros _; by apply (packet_ok_same s1)|].
    destruct (notify_failure_next s1) as [N|N]; [apply Hr|left|right]; done.
  - destruct (ske_aborted (set_next_state None s)); [|done]. unfold over. simpl.
    fold s1. rewrite O, C, S, T, K. done.
Qed.

Lemma fsm_run_inv fuel s s' :
  base s -> (forall st, ske_next_state s = Some st -> phase_ok st s) ->
  fsm_run algs fuel s = Rest s' -> ske_inv s'.
Proof.
  revert s; induction fuel as [|fuel IH]; intros s Hb Hp; [done|]. cbn [fsm_run].
  destruct (ske_next_state s) as [st|] eqn:En; [|done].
  pose proof (Hstates st s Hb En (Hp st eq_refl)) as G.
  destruct (state_fn algs st s) as [[[] s1]|]; [| | | |done]; cbn [good] in G.
  - destruct G. by apply IH.
  - intros [= <-]. left. by eapply at_rest_set; [..|exact G].
  - intros [= <-]. left. by eapply at_rest_set; [..|exact G].
  - intros [= <-]. destruct G as (Hc & Ho & Hl & Ht). unfold fsm_finish.
    set (s2 := task_del _ _).
    assert (Forall (fun t => t = silc_fsm_finish_fsm) (ske_tasks s2)) as Ht2.
    { apply Forall_forall. intros t Hin. simpl in Hin. apply filter_In in Hin as [Hin Hb2].
      rewrite Forall_forall in Ht. by destruct (Ht t Hin); subst. }
    assert (over s2) as H2 by done.
    destruct (negb _); [|by apply fsm_finish_fsm_inv; right].
    right. destruct H2 as (? & ? & ? & ? & ?). split_and!; try done. simpl.
    apply Forall_app. split; [done|by repeat constructor].
Qed.

Lemma at_rest_run fuel s s' : at_rest s -> fsm_run algs fuel s = Rest s' -> ske_inv s'.
Proof. intros [Hb Hp]. apply fsm_run_inv; [done|]. intros st E. by apply Hp. Qed.

(** ** The events *)

Lemma unref_inv s : ske_inv s -> ske_inv (set_refcnt (u16 (ske_refcnt s - 1)) s).
Proof. intros [Hr|Ho]; [left|by right]. by eapply at_rest_set; [..|exact Hr]. Qed.

Lemma packet_receive_inv p s s' :
  buf_ok (pkt_buffer p) -> at_rest s -> silc_ske_packet_receive algs p s = Rest s' -> ske_inv s'.
Proof.
  intros Hp Hr. unfold silc_ske_packet_receive, silc_fsm_continue_sync. set (s1 := set_packet _ _).
  assert (at_rest s1) as H1 by (by eapply at_rest_set; [..|exact Hr]). simpl ske_aborted.
  destruct (ske_aborted s) eqn:A.
  - apply fsm_run_inv; [apply H1|]. intros st. cbn.
    change (ske_conf s1) with (ske_conf s). rewrite (proj1 (proj1 Hr)), side.
    intros [= <-]. by apply phase_aborted.
  - set (s2 := if pkt_type p =? SILC_PACKET_FAILURE then silc_ske_notify_failure s1 else s1).
    assert (at_rest s2) as H2 by (unfold s2; destruct (_ =? _); [by apply at_rest_notify|done]).
    destruct (_ || _); [by apply at_rest_run|]. intros [= <-]. left.
    by eapply at_rest_set; [..|exact H2].
Qed.

Lemma timed_out_inv status s s' :
  at_rest s -> timed_out algs status s = Rest s' -> ske_inv s'.
Proof.
  intros Hr. apply at_rest_run, at_rest_notify. by eapply at_rest_set; [..|exact Hr].
Qed.

Lemma packet_send_copy_frame (s : SilcSKE) type data copied : frame s (packet_send_copy s type data copied).2.
Proof.
  unfold packet_send_copy. pose proof (stream_send_frame s type data) as [F _].
  destruct (stream_send s type data) as [ret s1]. cbn [snd] in *.
  destruct (_ && _); [|done]. destruct (silc_memdup _ _) as [d|]; cbn [snd];
    (etransitivity; [exact F|]); [|by apply frame_same].
  etransitivity; [|apply frame_install_retransmission]. by apply frame_same.
Qed.

Lemma at_rest_frame s s' : frame s s' -> at_rest s -> at_rest s'.
Proof.
  intros (O & D & C). injection C; intros. apply (at_rest_call s);
    [done|done|congruence|congruence|congruence|by apply packet_ok_same|by left|done].
Qed.

Lemma packet_send_retry_inv s s' :
  at_rest s -> packet_send_retry algs s = Rest s' -> ske_inv s'.
Proof.
  intros Hr. unfold packet_send_retry, silc_fsm_continue_sync. cbv zeta.
  destruct (_ || _).
  - apply at_rest_run, at_rest_notify. by eapply at_rest_set; [..|exact Hr].
  - assert (forall s', frame (set_retry_count (u16 (ske_retry_count s + 1)) s) s' -> ske_inv s') as K.
    { intros s2 F. left. apply (at_rest_frame _ _ F). by eapply at_rest_set; [..|exact Hr]. }
    destruct (ske_retrans _) as [[type data]|]; intros [= <-]; apply K, packet_send_copy_frame.
Qed.

Lemma pk_verified_inv status (s : SilcSKE) : at_rest s -> at_rest (silc_ske_pk_verified status s).
Proof. intros Hr. by eapply at_rest_set; [..|exact Hr]. Qed.

Lemma skr_callback_inv ok s s' :
  at_rest s -> silc_ske_skr_callback ok s = Rest s' -> ske_inv s'.
Proof.
  intros Hr. unfold silc_ske_skr_callback.
  destruct (_ && _); [|intros [= <-]; left; by eapply at_rest_set; [..|exact Hr]].
  destruct (ske_prop s) as [prop|]; [|done]. destruct (pr_public_key prop) as [pk|]; [|done].
  destruct (pop_verified _) as [v s1] eqn:E. apply pop_verified_frame in E.
  assert (at_rest s1) as H1.
  { apply (at_rest_frame s); [|done]. etransitivity; [|exact E]. by apply frame_output. }
  destruct v; intros [= <-]; left; [by apply pk_verified_inv|done].
Qed.

Lemma free_inv s s' : ske_inv s -> silc_ske_free algs s = Rest s' -> ske_inv s'.
Proof.
  intros Hi. unfold silc_ske_free, silc_fsm_continue_sync. cbv zeta.
  destruct (ske_aborted s); [|intros [= <-]; by apply unref_inv].
  set (s1 := silc_ske_notify_failure _).
  assert (ske_inv s1) as H1.
  { destruct Hi as [Hr|(? & ? & ? & ? & ?)]; [left|right].
    - apply at_rest_notify. by eapply at_rest_set; [..|exact Hr].
    - destruct (notify_failure_keeps (set_status SILC_SKE_STATUS_ERROR (silc_packet_free s)))
        as (O & D & C & S & A & T & K & _).
      unfold over, s1. rewrite O, C, S, T, K. done. }
  destruct (ske_started s1) eqn:Es; [|intros [= <-]; by apply unref_inv].
  destruct H1 as [H1|(_ & _ & _ & Hf & _)]; [|congruence].
  destruct (fsm_run algs run_fuel s1) as [| |s2] eqn:Er; try done. intros [= <-].
  apply unref_inv. by eapply at_rest_run.
Qed.

(** The verification functions call back while the machine runs, and packets come
    from the packet engine. *)
Definition ev_allowed (s : SilcSKE) (ev : ske_event) : bool :=
  match ev with
  | Ev_verified _ | Ev_found _ => ske_started s
  | Ev_packet p => b_size (pkt_buffer p) <? SILC_MAX_ALLOC
  | _ => true
  end.

Lemma task_take_in t t' l : In t' (task_take t l) -> In t' l.
Proof.
  induction l as [|x l IH]; [done|]. cbn [task_take]. destruct (task_is t x); cbn; intuition.
Qed.

Lemma ske_step_inv s ev s' :
  ske_inv s -> ev_allowed s ev = true -> ske_step algs s ev = Rest s' -> ske_inv s'.
Proof.
  intros Hi Ha. unfold ske_step. destruct (freed s); [done|].
  destruct Hi as [Hr|Ho]; [|pose proof Ho as (? & ? & Hl & Hs & Ht)].
  - destruct ev as [p|t|status|ok| |].
    + destruct (_ && _); [apply packet_receive_inv; [by apply Z.ltb_lt|done]|].
      intros [= <-]. by left.
    + destruct (existsb _ _); [|intros [= <-]; by left].
      set (s1 := set_tasks _ s).
      assert (at_rest s1) as H1 by (by eapply at_rest_set; [..|exact Hr]).
      destruct t; cbn [run_task].
      * by apply at_rest_run.
      * intros [= <-]. apply fsm_finish_fsm_inv. by left.
      * by apply timed_out_inv.
      * by apply timed_out_inv.
      * by apply packet_send_retry_inv.
    + intros [= <-]. left. by apply pk_verified_inv.
    + by apply skr_callback_inv.
    + intros [= <-]. left. by eapply at_rest_set; [..|exact Hr].
    + apply free_inv. by left.
  - destruct ev as [p|t|status|ok| |]; cbn [ev_allowed] in Ha; try congruence.
    + rewrite Hl. intros [= <-]. by right.
    + destruct (existsb _ _) eqn:E; [|intros [= <-]; by right].
      apply existsb_exists in E as (t' & Hin & Et). unfold task_is in Et.
      apply bool_decide_eq_true_1 in Et as <-. rewrite Forall_forall in Ht.
      pose proof (Ht t Hin) as ->. intros [= <-]. apply fsm_finish_fsm_inv. right.
      split_and!; try done. apply Forall_forall. intros t Hin'. apply Ht. exact (task_take_in _ _ _ Hin').
    + intros [= <-]. by right.
    + apply free_inv. by right.
Qed.
End machine.

(** The states a context comes to. *)
Inductive ske_reaches `{SkePkcs} (algs : SilcAlgs) (s0 : SilcSKE) : SilcSKE -> Prop :=
| reaches_start : ske_reaches algs s0 s0
| reaches_step s ev s' :
    ske_reaches algs s0 s -> ev_allowed s ev = true -> ske_step algs s ev = Rest s' ->
    ske_reaches algs s0 s'.

(** The completions of a context whose start keeps the invariant. *)
Lemma ske_reaches_ok `{Inv : SkeInvariant} (algs : SilcAlgs) s0 s :
  states_good algs -> at_rest s0 -> ske_reaches algs s0 s -> completions_ok (ske_out s).
Proof.
  intros Hst H0' Hr. assert (ske_inv s) as [[(_ & _ & Ho) _]|(_ & Ho & _)]; [|exact Ho..].
  induction Hr as [|s ev s' Hr IH Ha E]; [by left|by eapply ske_step_inv].
Qed.
