(* ===== verification/SkeAuth.v ===== *)
(** Safety of the key exchange: what has happened when the completion callback
    of an initiator gives the status OK. *)

From stdpp Require Import strings.
From S2P Require Import Prelude CTypes Buffer BufFmt BufFmtSpec Id SkePayload Auth Cipher Hash HashFns Hmac Algs SkeGroup SkeKeys SkeKeySpec SkeState Ske SkeFsm SkeRun SkeInv.

(** * The initiator *)

Section initiator.
Context `{SkePkcs} (algs : SilcAlgs) (c : SkeConf).

(** The number g^x mod p of a group. *)
Definition group_power (g : SilcSKEDiffieHellmanGroup) (b x : Z) : Z :=
  silc_mp_pow_mod b x (gr_group g).

(** The key of the peer was received; the application was asked to verify it when
    it gave a function for that and no repository. *)
Definition key_asked (out : list SkeOutput) (pk : SilcPublicKey) : Prop :=
  cf_verify_key c = true -> cf_repository c = false -> In (O_verify_key pk) out.

(** What two parties have agreed on.  The secret is f^x, the key material comes
    from the secret and HASH, and the signature the responder sent is a
    signature of HASH with its public key. *)
Record agreed (out : list SkeOutput) (prop : SilcSKESecurityProperties) (km : SilcSKEKeyMaterial)
    (g : SilcSKEDiffieHellmanGroup) (cipher : Cipher) (h : SilcHashObject) (x : Z)
    (ke1 ke2 : SilcSKEKEPayload) (copy : SilcBuffer) (hash : list Z) : Prop := {
  ag_group : pr_group prop = Some g;
  ag_cipher : pr_cipher prop = Some cipher;
  ag_hash_obj : pr_hash prop = Some h;
  ag_e : ke_x ke1 = group_power g (gr_generator g) x;
  ag_sent : In (O_send SILC_PACKET_KEY_EXCHANGE (b_data copy)) out;
  ag_hash :
    let KEY := group_power g (ke_x ke2) x in
    field_sized (ke_pk ke1) -> field_sized (ke_pk ke2) ->
    zlen (ske_transcript copy ke1 ke2 KEY) < 2 ^ 29 ->
    hash = hash_make h (ske_transcript copy ke1 ke2 KEY);
  ag_signed :
    match pr_public_key prop with
    | Some pk =>
        key_asked out pk /\
        silc_pkcs_verify_hash pk (mem_read (field_str (ke_sign ke2)) (f_len (ke_sign ke2))) hash =
          true
    | None => cf_verify_key c = false /\ cf_repository c = false
    end;
  ag_keymat :
    let data := silc_mp_mp2bin (group_power g (ke_x ke2) x) ++ hash in
    zlen data < 2 ^ 29 ->
    silc_ske_process_key_material_data data (silc_cipher_get_block_len (cipher_state cipher))
      (silc_cipher_get_key_len cipher) (hash_len h) h = Some km;
}.

(** The result the completion callback gets. *)
Definition result_agreed (out : list SkeOutput) (res : SkeResult) : Prop :=
  exists prop km rk g cipher h x ke1 ke2 copy hash,
    res = Some (Some prop, Some km, rk) /\
    agreed out prop km g cipher h x ke1 ke2 copy hash.

Lemma agreed_grows out out' prop km g cipher h x ke1 ke2 copy hash :
  (forall o, In o out -> In o out') ->
  agreed out prop km g cipher h x ke1 ke2 copy hash ->
  agreed out' prop km g cipher h x ke1 ke2 copy hash.
Proof.
  intros Hi []. split; try done; [by apply Hi|].
  destruct (pr_public_key prop) as [pk|]; [|done]. destruct ag_signed0 as [Ha ?].
  split; [|done]. intros Hv Hr. by apply Hi, Ha.
Qed.

Lemma result_agreed_grows out out' res :
  (forall o, In o out -> In o out') -> result_agreed out res -> result_agreed out' res.
Proof.
  intros Hi (prop & km & rk & g & cipher & h & x & ke1 & ke2 & copy & hash & E & Ha).
  exists prop, km, rk, g, cipher, h, x, ke1, ke2, copy, hash.
  split; [done|by eapply agreed_grows].
Qed.

(** ** The invariant *)

(** The start payload was sent. *)
Definition proposed (s : SilcSKE) : Prop :=
  exists copy, ske_start_payload_copy s = Some copy /\
    In (O_send SILC_PACKET_KEY_EXCHANGE (b_data copy)) (ske_out s).

(** e was sent. *)
Definition own_half (s : SilcSKE) prop g x ke1 : Prop :=
  ske_prop s = Some prop /\ pr_group prop = Some g /\ ske_x s = Some x /\
  ske_ke1_payload s = Some ke1 /\ ke_x ke1 = group_power g (gr_generator g) x.

Definition peer_key (s : SilcSKE) (prop : SilcSKESecurityProperties) : Prop :=
  match pr_public_key prop with
  | Some pk => key_asked (ske_out s) pk
  | None => cf_verify_key c = false /\ cf_repository c = false
  end.

(** What the data of the context is when the machine is about to run a state. *)
Definition initiator_phase_ok (st : SkeSt) (s : SilcSKE) : Prop :=
  match st with
  | silc_ske_st_initiator_start => ske_rekey s = None
  | silc_ske_st_initiator_phase1 => ske_rekey s = None /\ proposed s
  | silc_ske_st_initiator_phase2 =>
      ske_rekey s = None /\ proposed s /\
      exists prop, ske_prop s = Some prop /\ pr_public_key prop = None
  | silc_ske_st_initiator_phase3 =>
      ske_rekey s = None /\ proposed s /\
      exists prop g x ke1, own_half s prop g x ke1 /\ pr_public_key prop = None
  | silc_ske_st_initiator_phase4 =>
      ske_rekey s = None /\ proposed s /\
      exists prop g x ke1 ke2, own_half s prop g x ke1 /\ peer_key s prop /\
        ske_ke2_payload s = Some ke2 /\ ske_KEY s = Some (group_power g (ke_x ke2) x)
  | silc_ske_st_initiator_end =>
      exists prop km g cipher h x ke1 ke2 copy hash,
        ske_prop s = Some prop /\ ske_keymat s = Some km /\
        agreed (ske_out s) prop km g cipher h x ke1 ke2 copy hash
  | silc_ske_st_initiator_error => ske_status s <> SILC_SKE_STATUS_OK
  | silc_ske_st_initiator_aborted => ske_aborted s = true
  | silc_ske_st_initiator_failure => True
  | _ => False
  end.

Lemma initiator_phase_ok_frame st s s' :
  out_grows s s' -> ske_data s' = ske_data s ->
  (ske_aborted s = true -> ske_aborted s' = true) ->
  (st = silc_ske_st_initiator_error -> ske_status s' = ske_status s) ->
  initiator_phase_ok st s -> initiator_phase_ok st s'.
Proof.
  intros O D A S Hs. pose proof (fun o => out_grows_in s s' o O) as I. injection D; intros.
  assert (proposed s -> proposed s') as P.
  { intros (copy & E & Hin). exists copy. split; [congruence|by apply I]. }
  destruct st; cbn [initiator_phase_ok] in Hs |- *; try done; try congruence.
  - destruct Hs as [? ?]. split; [congruence|by apply P].
  - destruct Hs as (? & ? & prop & ? & ?). split; [congruence|]. split; [by apply P|].
    exists prop. split; [congruence|done].
  - destruct Hs as (? & ? & prop & g & x & ke1 & (? & ? & ? & ? & ?) & ?).
    split; [congruence|]. split; [by apply P|]. exists prop, g, x, ke1.
    split; [split_and!; congruence|done].
  - destruct Hs as (? & ? & prop & g & x & ke1 & ke2 & (? & ? & ? & ? & ?) & Hp & ? & ?).
    split; [congruence|]. split; [by apply P|]. exists prop, g, x, ke1, ke2.
    split; [split_and!; congruence|]. split; [|split; congruence].
    unfold peer_key in *. destruct (pr_public_key prop); [|done].
    intros Hv Hr. apply I. by apply Hp.
  - destruct Hs as (prop & km & g & cipher & h & x & ke1 & ke2 & copy & hash & ? & ? & Ha).
    exists prop, km, g, cipher, h, x, ke1, ke2, copy, hash. split; [congruence|].
    split; [congruence|]. by eapply agreed_grows.
  - by apply A.
  - by rewrite S.
Qed.

Hypothesis Hinitiator : cf_responder c = false.

#[local] Instance initiator_invariant : SkeInvariant c false.
Proof.
  refine {| result_ok := result_agreed; phase_ok := initiator_phase_ok; side := Hinitiator;
            result_grows := result_agreed_grows |}; try done.
  intros st s s' O D A _ S. by apply initiator_phase_ok_frame.
Defined.

(** ** The states *)

Lemma initiator_start_good s :
  base s -> phase_ok silc_ske_st_initiator_start s -> good (initiator_start s).
Proof.
  intros Hb Hr. unfold initiator_start. destruct (ske_aborted s) eqn:A; [by apply goto_good|].
  destruct (silc_ske_payload_start_encode _) as [status [buf|]] eqn:E.
  2: { apply (fail_good (responder := false)); [done|]. by eapply status_code_ok, start_encode_error. }
  destruct (silc_ske_packet_send _ _ _) as [ok s'] eqn:Es. apply packet_send_frame in Es as [F I].
  assert (base s') as Hb' by (by eapply base_frame).
  destruct ok; [|by apply (fail_good (responder := false))]. apply wait_good; [done| |done].
  destruct F as (_ & D & _). injection D; intros.
  split; [congruence|]. by exists buf.
Qed.

Lemma take_properties_result payload port :
  match take_properties algs payload port with
  | inl status => status <> SILC_SKE_STATUS_OK
  | inr prop => pr_public_key prop = None
  end.
Proof. unfold take_properties. by repeat (case_match; simplify_eq). Qed.

Lemma initiator_phase1_good s :
  base s -> ske_next_state s = Some silc_ske_st_initiator_phase1 ->
  phase_ok silc_ske_st_initiator_phase1 s -> good (initiator_phase1 algs s).
Proof.
  intros Hb Hn Hp. unfold initiator_phase1. destruct (ske_packet s) as [packet|]; [|done].
  destruct (negb _); [by apply (old_packet_good (responder := false) silc_ske_st_initiator_phase1)|].
  cbv zeta. destruct (silc_ske_payload_start_decode _) as [status [payload|]] eqn:E.
  2: { apply (fail_good (responder := false)); [done|]. by eapply status_code_ok, start_decode_error. }
  set (s1 := take_remote_id _ _).
  assert (frame s s1) as F by (etransitivity; [|apply frame_remote_id]; by apply frame_same).
  destruct (frame_at _ _ _ F Hb Hn Hp) as (Hb1 & _ & Hr & Hc).
  simpl. destruct (ske_start_payload s1) as [own|]; [|done].
  destruct (negb (cookie_eq _ _ _)); [by apply (fail_good (responder := false))|].
  destruct (negb (_ =? 0)) eqn:Ev.
  { apply negb_true_iff, Z.eqb_neq in Ev. by apply (fail_good (responder := false)). }
  pose proof (take_properties_result payload (if negb (Z.land (sp_flags payload)
    SILC_SKE_SP_FLAG_IV_INCLUDED =? 0) && negb (cf_session_port (ske_conf s1) =? 0)
    then SILC_GET16_MSB (field_str (sp_cookie own)) else 0)) as T.
  destruct (take_properties _ _ _) as [status'|prop].
  - apply (fail_good (responder := false)); [done|]. by apply status_code_ok.
  - apply goto_good; [done|]. split; [done|]. split; [done|]. by exists prop.
Qed.

Lemma sign_ke1_x s prop payload payload' :
  sign_ke1 s prop payload = Some (Some payload') -> ke_x payload' = ke_x payload.
Proof. unfold sign_ke1. intros E. by repeat case_match; simplify_eq. Qed.

Lemma initiator_phase2_good s :
  base s -> phase_ok silc_ske_st_initiator_phase2 s -> good (initiator_phase2 s).
Proof.
  intros Hb Hp. pose proof Hp as (_ & _ & prop & Ep & Epk).
  unfold initiator_phase2. rewrite Ep. destruct (pr_group prop) as [g|] eqn:Eg; [|done].
  destruct (create_exponent s g) as [[status x] s1] eqn:E. apply create_exponent_frame in E.
  assert (base s1) as Hb1 by (by eapply base_frame).
  assert (phase_ok silc_ske_st_initiator_phase2 s1) as (Hr1 & Hc1 & _ & _)
    by (apply (initiator_phase_ok_frame silc_ske_st_initiator_phase2 s); [apply E|apply E| |done|exact Hp];
        rewrite (proj2 (frame_flags _ _ E)); done).
  assert (ske_prop s1 = Some prop) as Ep1
    by (destruct E as (_ & D & _); injection D; intros; congruence).
  destruct (Z.eqb_spec status SILC_SKE_STATUS_OK); [|by apply (fail_good (responder := false))]. cbn [negb]. cbv zeta.
  destruct (cf_public_key _) as [pub|]; [|done].
  destruct (silc_pkcs_public_key_encode pub) as [pk|]; [|by apply (fail_good (responder := false))].
  destruct (sign_ke1 _ _ _) as [[payload|]|] eqn:Es; [|by apply (fail_good (responder := false))|done].
  apply sign_ke1_x in Es. cbn [ke_x] in Es.
  destruct (silc_ske_payload_ke_encode _ _ _) as [st [buf|]] eqn:Ee.
  2: { apply (fail_good (responder := false)); [done|]. by eapply status_code_ok, ke_encode_error. }
  destruct (silc_ske_packet_send _ _ _) as [ok s2] eqn:Ek. apply packet_send_frame in Ek as [F _].
  assert (base s2) as Hb2 by (by eapply base_frame; [exact F|]).
  destruct ok; [|by apply (fail_good (responder := false))]. apply wait_good; [done| |done].
  pose proof F as (O & D & _). injection D; intros. split; [congruence|]. split.
  - destruct Hc1 as (copy & Ec & Hin). exists copy. split; [congruence|].
    by eapply out_grows_in; [exact O|].
  - exists prop, g, x, payload. split; [|done]. split_and!; try congruence. done.
Qed.

Lemma phase3_err_good status s :
  base s -> ske_next_state s = Some silc_ske_st_initiator_phase3 ->
  phase_ok silc_ske_st_initiator_phase3 s -> good (phase3_err status s).
Proof.
  intros Hb Hn Hp. unfold phase3_err. destruct (Z.eqb_spec status SILC_SKE_STATUS_OK).
  - split; [done|]. intros st E. assert (st = silc_ske_st_initiator_phase3) as -> by
      (cbn in E; congruence). done.
  - by apply (fail_good (responder := false)).
Qed.

Lemma initiator_phase3_good s :
  base s -> ske_next_state s = Some silc_ske_st_initiator_phase3 ->
  phase_ok silc_ske_st_initiator_phase3 s -> good (initiator_phase3 s).
Proof.
  intros Hb Hn Hp. unfold initiator_phase3. destruct (ske_packet s) as [packet|]; [|done].
  destruct (negb (_ =? _)); [by apply (old_packet_good (responder := false) silc_ske_st_initiator_phase3)|].
  destruct (silc_ske_payload_ke_decode _ _ _) as [[status [payload|]] b] eqn:E.
  2: { apply (fail_good (responder := false)); [done|]. by eapply status_code_ok, ke_decode_error. }
  cbv zeta. pose proof Hp as (Hr & Hc & prop & g & x & ke1 & (Ep & Eg & Ex & Ek & Ee) & Epk).
  pose proof Hb as (Econf & _).
  destruct (_ && _) eqn:Ev; [by apply phase3_err_good|].
  simpl in Ev |- *. rewrite Econf in Ev |- *. rewrite Ex, Ep, Eg.
  set (s1 := set_KEY _ _).
  assert (forall pk prop', pr_group prop' = Some g -> pr_public_key prop' = Some pk ->
    (cf_repository c = false -> cf_verify_key c = true ->
      phase_ok silc_ske_st_initiator_phase4
       (output (O_verify_key pk) (fsm_next silc_ske_st_initiator_phase4 (set_prop (Some prop') s1)))) /\
    (cf_repository c = true \/ cf_verify_key c = false -> phase_ok silc_ske_st_initiator_phase4
       (fsm_next silc_ske_st_initiator_phase4 (set_prop (Some prop') s1)))) as P.
  { intros pk prop' Eg' Epk'. split; [intros Hrep Hver|intros Hno].
    - split; [done|]. split.
      + destruct Hc as (copy & Ec & Hin). exists copy. split; [done|]. apply in_or_app. by left.
      + exists prop', g, x, ke1, payload. split; [done|]. split; [|done].
        unfold peer_key. rewrite Epk'. intros _ _. apply in_or_app. right. by left.
    - split; [done|]. split; [done|]. exists prop', g, x, ke1, payload. split; [done|].
      split; [|done]. unfold peer_key. rewrite Epk'. intros ??. destruct Hno; congruence. }
  destruct (f_data (ke_pk payload)) as [d|].
  - destruct (silc_pkcs_public_key_alloc _ _) as [pk|].
    2: { by apply phase3_err_good. }
    destruct (P pk (set_prop_public_key (Some pk) prop)) as [P1 P2]; [done..|].
    destruct (cf_repository c) eqn:R.
    + apply (call_skr_find_good silc_ske_st_initiator_phase4); [done|done| |done].
      apply P2. by left.
    + destruct (cf_verify_key c) eqn:V.
      * apply (call_verify_key_good silc_ske_st_initiator_phase4); [done|done| |done]. by apply P1.
      * apply (continue_good silc_ske_st_initiator_phase4); [done|done|]. apply P2. by right.
  - rewrite Epk. apply goto_good; [done|]. split; [done|]. split; [done|].
    exists prop, g, x, ke1, payload. split; [done|]. split; [|done].
    unfold peer_key. rewrite Epk. by apply orb_false_iff.
Qed.

Lemma phase4_err_good status s : base s -> good (phase4_err status s).
Proof.
  intros Hb. apply (fail_good (responder := false)); [done|]. apply status_or_error_ok.
Qed.

Lemma initiator_phase4_good s :
  base s -> phase_ok silc_ske_st_initiator_phase4 s -> good (initiator_phase4 s).
Proof.
  intros Hb (Hr & (copy & Ec & Hin) & prop & g & x & ke1 & ke2 & (Ep & Eg & Ex & E1 & Ee) & Hk & E2 & EK).
  unfold initiator_phase4. destruct (ske_aborted s) eqn:A; [by apply goto_good|].
  destruct (negb _) eqn:Es.
  { apply goto_good; [done|]. by apply negb_true_iff, Z.eqb_neq in Es. }
  destruct (silc_ske_make_hash s false) as [[status hash]|] eqn:Em; [|done].
  destruct (Z.eqb_spec status SILC_SKE_STATUS_OK) as [->|]; cbn [negb]; [|by apply phase4_err_good].
  apply make_hash_spec in Em as (ke1' & ke2' & KEY' & prop' & h & E1' & E2' & EK' & Ep' & Eh & T).
  assert (ke1' = ke1) as -> by congruence. assert (ke2' = ke2) as -> by congruence.
  assert (prop' = prop) as -> by congruence. rewrite EK in EK'. injection EK' as <-.
  specialize (T copy Ec). simpl. rewrite Ep, E2. unfold peer_key in Hk.
  destruct (match pr_public_key prop with Some _ => _ | None => false end) eqn:Ev;
    [by apply phase4_err_good|].
  rewrite Hr. unfold process_negotiated. simpl. rewrite Ep, Eh.
  destruct (pr_cipher prop) as [cipher|] eqn:Eci; [|done].
  destruct (silc_ske_process_key_material _ _ _ _) as [[[km|] s1]|] eqn:Epk; [| |done].
  2: { apply process_key_material_frame in Epk as [->|[rk ->]]; by apply phase4_err_good. }
  apply process_key_material_spec in Epk as (KEY' & prop' & h' & rk & EK' & Ep'' & Eh' & -> & Hkm).
  simpl in EK', Ep'', Hkm. rewrite EK in EK'. injection EK' as <-.
  assert (prop' = prop) as -> by congruence. assert (h' = h) as -> by congruence.
  assert (agreed (ske_out s) prop km g cipher h x ke1 ke2 copy hash) as Ha.
  { split; try done. destruct (pr_public_key prop) as [pk|]; [|done].
    split; [done|]. by apply negb_false_iff in Ev. }
  destruct (negb (cf_no_acks _)).
  - destruct (silc_ske_packet_send _ _ _) as [ok s2] eqn:Ek. apply packet_send_frame in Ek as [F _].
    assert (base s2) as Hb2 by (by eapply base_frame; [exact F|]).
    destruct ok; [|by apply (fail_good (responder := false))]. apply wait_good; [done| |done].
    destruct F as (O & D & _). injection D; intros.
    exists prop, km, g, cipher, h, x, ke1, ke2, copy, hash. split; [congruence|].
    split; [congruence|]. eapply agreed_grows; [|exact Ha]. intros o. by apply (out_grows_in _ _ _ O).
  - apply goto_good; [done|]. by exists prop, km, g, cipher, h, x, ke1, ke2, copy, hash.
Qed.

Lemma initiator_end_good s :
  base s -> ske_next_state s = Some silc_ske_st_initiator_end ->
  phase_ok silc_ske_st_initiator_end s -> good (initiator_end s).
Proof.
  intros Hb Hn Hp.
  assert (good (ske_finish (silc_packet_free s))) as Hf.
  { apply finish_good; [done|]. intros _. simpl.
    destruct Hp as (prop & km & g & cipher & h & x & ke1 & ke2 & copy & hash & -> & -> & Ha).
    by exists prop, km, (ske_rekey s), g, cipher, h, x, ke1, ke2, copy, hash. }
  unfold initiator_end. destruct (cf_no_acks _); [done|].
  destruct (ske_packet s) as [packet|]; [|done].
  destruct (negb _); [|done]. by apply (old_packet_good (responder := false) silc_ske_st_initiator_end).
Qed.

(** The obligation of the invariant. *)
Lemma initiator_states_good : states_good algs.
Proof.
  intros st s Hb Hn Hp. destruct st; try done; cbn [state_fn].
  - by apply initiator_start_good.
  - by apply initiator_phase1_good.
  - by apply initiator_phase2_good.
  - by apply initiator_phase3_good.
  - by apply initiator_phase4_good.
  - by apply initiator_end_good.
  - by apply ske_aborted_state_good.
  - by apply ske_error_state_good.
  - by apply ske_failure_state_good.
Qed.
End initiator.

(** C2. Authenticity of the key exchange for the initiator: whatever packets,
    tasks, callbacks, aborts and releases happen, when the completion callback
    gets the status OK then the secret is the responder's number to the power of
    the initiator's own, the key material is derived from it and from HASH of the
    start payload that was sent, and the signature received is a signature of HASH
    under the public key the application was asked to verify. *)
Theorem silc_ske_initiator_authentic `{SkePkcs} algs c start_payload small rng answers stream s res :
  cf_responder c = false ->
  ske_reaches algs (silc_ske_initiator algs c None start_payload small rng answers stream) s ->
  In (O_complete (SILC_SKE_STATUS_OK : Z) res) (ske_out s) ->
  result_agreed c (ske_out s) res.
Proof.
  intros Hc Hr. pose (initiator_invariant c Hc) as Inv.
  refine (ske_reaches_ok (Inv := Inv) algs _ s (initiator_states_good algs c Hc) _ Hr res).
  unfold silc_ske_initiator. destruct (match start_payload with Some _ => _ | None => _ end).
  destruct (_ =? _); (split; [split_and!; [done|done|by intros ? []]|]);
    intros st [= <-]; by split.
Qed.

(** * An exchange *)

(** A hash function of 32 bytes: the sum of the bytes. *)
Definition wide_hash : HashAlg :=
  {| hash_context := Z; alg_hash_init _ := 0; alg_hash_update c x := foldl Z.add c x;
     alg_hash_final c := (zrepeat (u8 c) 32, c); alg_hash_len := 32; alg_hash_block_len := 64 |}.

Definition wide_algs : SilcAlgs :=
  {| silc_cipher_list := [ctr_object "aes-256-ctr" 256];
     silc_hash_list := [{| ho_name := str "wide"; ho_alg := wide_hash; ho_context := 0 |}];
     silc_hmac_list := [{| hmo_name := str "hmac-wide"; hmo_len := 12 |}];
     silc_pkcs_alg_list := silc_default_pkcs_alg |}.

(** A key is a byte string, a signature the key and what is signed. *)
#[local] Instance byte_pkcs : PkcsOps :=
  {| SilcPublicKey := list Z; SilcPrivateKey := list Z; Auth.SilcHash := unit;
     silc_pkcs_public_key_encode k := Some k;
     silc_pkcs_sign k d n h := Some (k ++ d);
     silc_pkcs_verify k s d h := bool_decide (s = k ++ d) |}.

#[local] Instance byte_ske_pkcs : SkePkcs byte_pkcs :=
  {| silc_pkcs_sign_hash k d n h := Some (k ++ d);
     silc_pkcs_verify_hash k s d := bool_decide (s = k ++ d);
     silc_pkcs_get_type k := 1; silc_pkcs_public_key_alloc t k := Some k |}.

Definition witness_conf : SkeConf :=
  {| cf_version := Some (str "SILC-1.2-1.1"); cf_flags := 0; cf_session_port := 0;
     cf_public_key := Some [6]; cf_private_key := Some [6]; cf_verify_key := true;
     cf_completed := true; cf_repository := false; cf_responder := false; cf_rekeying := false;
     cf_no_acks := false; cf_timeout := 30; cf_probe_timeout := 30 |}.

Definition witness_stream : SkeStream :=
  {| stm_udp := false; stm_linked := false; stm_send_key := None; stm_receive_key := None;
     stm_hmac_send := None; stm_hmac_receive := None |}.

Definition witness_proposal : SilcSKEStartPayload :=
  let p := fun len =>
    {| sp_flags := 0; sp_len := len; sp_cookie := {| f_data := Some (zrepeat 7 16); f_len := 16 |};
       sp_version := str_field (str "SILC-1.2-1.1");
       sp_ke_grp := str_field (str "diffie-hellman-group1"); sp_pkcs_alg := str_field (str "rsa");
       sp_enc_alg := str_field (str "aes-256-ctr"); sp_hash_alg := str_field (str "wide");
       sp_hmac_alg := str_field (str "hmac-wide"); sp_comp_alg := null_field |} in
  p (sp_total (p 0)).

Definition witness_packet (type : Z) (data : list Z) : SkePacket :=
  {| pkt_type := type; pkt_buffer := silc_buffer_set data; pkt_src_id := []; pkt_src_id_len := 0;
     pkt_src_id_type := 0 |}.

(** The responder's number is 1. *)
Definition witness_ke2 : list Z :=
  SILC_PUT16_MSB 1 ++ SILC_PUT16_MSB 1 ++ [5] ++ SILC_PUT16_MSB 16 ++ zrepeat 0 15 ++ [1] ++
  SILC_PUT16_MSB 33 ++ [5] ++ zrepeat 180 32.

Definition witness_events : list ske_event :=
  [Ev_task silc_fsm_run; Ev_packet (witness_packet SILC_PACKET_KEY_EXCHANGE (sp_wire witness_proposal));
   Ev_task silc_fsm_run; Ev_packet (witness_packet SILC_PACKET_KEY_EXCHANGE_2 witness_ke2);
   Ev_task silc_fsm_run; Ev_packet (witness_packet SILC_PACKET_SUCCESS [0; 0; 0; 0])].

Definition witness_exchange : SilcSKE :=
  silc_ske_initiator wide_algs witness_conf None (Some witness_proposal) false
    (zrepeat 0 126 ++ [125])
    {| ans_sent := []; ans_verified := [Some 0]; ans_found := [] |} witness_stream.

(** The statuses the completion callback got. *)
Definition completed `{PkcsOps} (r : outcome) : list Z :=
  match r with
  | Rest s => concat (map (fun o => match o with O_complete st _ => [st] | _ => [] end) (ske_out s))
  | _ => []
  end.

(** The context after allowed events, from a run that checks them. *)
Fixpoint ske_events `{SkePkcs} (algs : SilcAlgs) (s : SilcSKE) (l : list ske_event) : outcome :=
  match l with
  | [] => Rest s
  | ev :: l =>
      if ev_allowed s ev
      then match ske_step algs s ev with Rest s => ske_events algs s l | r => r end else Crash
  end.

Lemma ske_events_reaches `{SkePkcs} algs s0 l s s' :
  ske_reaches algs s0 s -> ske_events algs s l = Rest s' -> ske_reaches algs s0 s'.
Proof.
  revert s; induction l as [|ev l IH]; intros s Hr; cbn [ske_events]; [by intros [= <-]|].
  destruct (ev_allowed s ev) eqn:Ea; [|done].
  destruct (ske_step algs s ev) as [| |s1] eqn:Es; try done. apply IH. by eapply reaches_step.
Qed.

Lemma completed_in `{SkePkcs} (s : SilcSKE) :
  completed (Rest s) = [0] -> exists res, In (O_complete (SILC_SKE_STATUS_OK : Z) res) (ske_out s).
Proof.
  intros E. assert (In 0 (completed (Rest s))) as Hin by (rewrite E; by left).
  apply in_concat in Hin as (x & Hin & H0'). apply in_map_iff in Hin as (o & <- & Hin).
  destruct o as [| st res| | | |]; try done. destruct H0' as [->|[]]. by exists res.
Qed.

(** A whole exchange: the start payload, KE2 with a signature, SUCCESS. *)
Lemma silc_ske_initiator_authentic_witness :
  exists s res,
    ske_events wide_algs witness_exchange witness_events = Rest s /\
    In (O_complete 0 res) (ske_out s) /\ result_agreed witness_conf (ske_out s) res.
Proof.
  assert (completed (ske_events wide_algs witness_exchange witness_events) = [0]) as R
    by (vm_compute; reflexivity).
  destruct (ske_events wide_algs witness_exchange witness_events) as [| |s] eqn:E;
    [discriminate R..|].
  destruct (completed_in s R) as (res & Hin).
  exists s, res. split; [reflexivity|]. split; [exact Hin|].
  apply (silc_ske_initiator_authentic wide_algs witness_conf (Some witness_proposal) false
    (zrepeat 0 126 ++ [125]) {| ans_sent := []; ans_verified := [Some 0]; ans_found := [] |}
    witness_stream).
  - reflexivity.
  - eapply ske_events_reaches; [apply reaches_start|exact E].
  - exact Hin.
Defined.

(** The same, while the application is still verifying the public key. *)
Definition witness_pending : SilcSKE :=
  silc_ske_initiator wide_algs witness_conf None (Some witness_proposal) false
    (zrepeat 0 126 ++ [125])
    {| ans_sent := []; ans_verified := []; ans_found := [] |} witness_stream.

(** The application is asked to verify the public key of the responder and has
    not answered: two SUCCESS packets complete the exchange with the status OK. *)
Lemma silc_ske_verification_bypass :
  completed (ske_events wide_algs witness_pending
    (witness_events ++
     [Ev_packet (witness_packet SILC_PACKET_SUCCESS [0; 0; 0; 0])])) = [0].
Proof. vm_compute. reflexivity. Qed.

(** Two KEY_EXCHANGE packets before the scheduler runs the machine: the second
    run finds no packet in phase 3. *)
Lemma silc_ske_second_packet_crash :
  let reply := Ev_packet (witness_packet SILC_PACKET_KEY_EXCHANGE (sp_wire witness_proposal)) in
  ske_events wide_algs witness_exchange
    [Ev_task silc_fsm_run; reply; reply; Ev_task silc_fsm_run; Ev_task silc_fsm_run] = Crash.
Proof. vm_compute. reflexivity. Qed.
