(* ===== verification/SkeResp.v ===== *)
(** Safety of the key exchange: what has happened when the completion callback
    of a responder gives the status OK. *)

From stdpp Require Import strings.
From S2P Require Import Prelude CTypes Buffer BufFmt BufFmtSpec Id SkePayload Auth Cipher Hash HashFns Hmac Algs SkeGroup SkeKeys SkeKeySpec SkeState Ske SkeFsm SkeRun SkeInv SkeAuth.

(** * The responder *)

Section responder.
Context `{SkePkcs} (algs : SilcAlgs) (c : SkeConf).

(** A start payload came in, and its bytes are the copy that HASH covers. *)
Definition received (s : SilcSKE) (buf : SilcBuffer) : Prop :=
  ske_start_payload_copy s = Some (silc_buffer_set (b_data buf)) /\
  exists remote, silc_ske_payload_start_decode buf = (SILC_SKE_STATUS_OK, Some remote).

(** The initiator signed HASH_i, when the properties ask for it. *)
Definition ke1_signed (prop : SilcSKESecurityProperties) (h : SilcHashObject) (pk : SilcPublicKey)
    (start : SilcBuffer) (ke1 : SilcSKEKEPayload) : Prop :=
  let hash_i := hash_make h (ske_transcript_i start ke1) in
  prop_flag prop SILC_SKE_SP_FLAG_MUTUAL = true ->
  field_sized (ke_pk ke1) -> zlen (ske_transcript_i start ke1) < 2 ^ 29 ->
  silc_pkcs_verify_hash pk (mem_read (field_str (ke_sign ke1)) (f_len (ke_sign ke1))) hash_i = true.

(** KE2 was sent. *)
Definition answered (out : list SkeOutput) (ke2 : SilcSKEKEPayload) : Prop :=
  exists flags buf,
    silc_ske_payload_ke_encode silc_mp_mp2bin flags (Some ke2) = (SILC_SKE_STATUS_OK, Some buf) /\
    In (O_send SILC_PACKET_KEY_EXCHANGE_2 (b_data buf)) out.

(** HASH covers the start payload that came in, both keys and both numbers. *)
Definition hash_covers (h : SilcHashObject) (start : SilcBuffer) (ke1 ke2 : SilcSKEKEPayload)
    (KEY : Z) (hash : list Z) : Prop :=
  field_sized (ke_pk ke1) -> field_sized (ke_pk ke2) ->
  zlen (ske_transcript start ke1 ke2 KEY) < 2 ^ 29 ->
  hash = hash_make h (ske_transcript start ke1 ke2 KEY).

(** The signature in KE2 is one of HASH with the private key. *)
Definition ke2_signed (ke2 : SilcSKEKEPayload) (h : SilcHashObject) (hash : list Z) : Prop :=
  match cf_public_key c, cf_private_key c with
  | Some _, Some prv =>
      exists sign, silc_pkcs_sign_hash prv hash 65536 h = Some sign /\
        f_data (ke_sign ke2) = silc_memdup sign (zlen sign)
  | _, _ => True
  end.

(** What the responder has agreed on: the secret is e^x for the exponent whose
    power was sent, and the key of the initiator was verified. *)
Record responder_agreed (out : list SkeOutput) (prop : SilcSKESecurityProperties)
    (km : SilcSKEKeyMaterial) (g : SilcSKEDiffieHellmanGroup) (cipher : Cipher)
    (h : SilcHashObject) (pk : SilcPublicKey) (x : Z) (ke1 ke2 : SilcSKEKEPayload)
    (buf : SilcBuffer) (hash : list Z) : Prop := {
  ra_start : exists remote, silc_ske_payload_start_decode buf = (SILC_SKE_STATUS_OK, Some remote);
  ra_group : pr_group prop = Some g;
  ra_cipher : pr_cipher prop = Some cipher;
  ra_hash_obj : pr_hash prop = Some h;
  ra_public_key : pr_public_key prop = Some pk;
  ra_asked : key_asked c out pk;
  ra_ke1_signed : ke1_signed prop h pk (silc_buffer_set (b_data buf)) ke1;
  ra_f : ke_x ke2 = group_power g (gr_generator g) x;
  ra_answered : answered out ke2;
  ra_hash : hash_covers h (silc_buffer_set (b_data buf)) ke1 ke2 (group_power g (ke_x ke1) x) hash;
  ra_ke2_signed : ke2_signed ke2 h hash;
  ra_keymat :
    let data := silc_mp_mp2bin (group_power g (ke_x ke1) x) ++ hash in
    zlen data < 2 ^ 29 ->
    silc_ske_process_key_material_data data (silc_cipher_get_block_len (cipher_state cipher))
      (silc_cipher_get_key_len cipher) (hash_len h) h = Some km;
}.

Definition responder_result (out : list SkeOutput) (res : SkeResult) : Prop :=
  exists prop km rk g cipher h pk x ke1 ke2 buf hash,
    res = Some (Some prop, Some km, rk) /\
    responder_agreed out prop km g cipher h pk x ke1 ke2 buf hash.

Lemma responder_result_grows out out' res :
  (forall o, In o out -> In o out') -> responder_result out res -> responder_result out' res.
Proof.
  intros Hi (prop & km & rk & g & cipher & h & pk & x & ke1 & ke2 & buf & hash & E & []).
  exists prop, km, rk, g, cipher, h, pk, x, ke1, ke2, buf, hash.
  split; [done|]. split; try done.
  - intros ??. by apply Hi, ra_asked0.
  - destruct ra_answered0 as (fl & b & ? & ?). exists fl, b. split; [done|by apply Hi].
Qed.

(** ** The invariant *)

(** The key of the initiator came, and the application was asked about it. *)
Definition initiator_key (s : SilcSKE) prop pk ke1 : Prop :=
  ske_prop s = Some prop /\ pr_public_key prop = Some pk /\ ske_ke1_payload s = Some ke1 /\
  key_asked c (ske_out s) pk.

(** The responder's half of the exchange. *)
Definition responder_half (s : SilcSKE) prop g x ke1 ke2 : Prop :=
  pr_group prop = Some g /\ ske_x s = Some x /\ ske_ke2_payload s = Some ke2 /\
  ke_x ke2 = group_power g (gr_generator g) x /\
  ske_KEY s = Some (group_power g (ke_x ke1) x).

Definition initiator_signed prop pk buf ke1 : Prop :=
  forall h, pr_hash prop = Some h -> ke1_signed prop h pk (silc_buffer_set (b_data buf)) ke1.

(** What the data of the context is when the machine is about to run a state. *)
Definition responder_phase_ok (st : SkeSt) (s : SilcSKE) : Prop :=
  match st with
  | silc_ske_st_responder_start => ske_rekey s = None /\ ske_prop s = None /\ packet_ok s
  | silc_ske_st_responder_phase1 => ske_rekey s = None /\ packet_ok s
  | silc_ske_st_responder_phase2 => ske_rekey s = None /\ exists buf, received s buf
  | silc_ske_st_responder_phase4 =>
      ske_rekey s = None /\ exists buf, received s buf /\
      exists prop pk ke1, initiator_key s prop pk ke1
  | silc_ske_st_responder_phase5 =>
      ske_rekey s = None /\ exists buf, received s buf /\
      exists prop pk ke1 g x ke2, initiator_key s prop pk ke1 /\
        initiator_signed prop pk buf ke1 /\ responder_half s prop g x ke1 ke2
  | silc_ske_st_responder_end =>
      exists buf, received s buf /\
      exists prop pk ke1 g x ke2, initiator_key s prop pk ke1 /\
        initiator_signed prop pk buf ke1 /\ responder_half s prop g x ke1 ke2 /\
        answered (ske_out s) ke2 /\
        exists h hash, pr_hash prop = Some h /\ ske_hash s = Some hash /\
          hash_covers h (silc_buffer_set (b_data buf)) ke1 ke2 (group_power g (ke_x ke1) x) hash /\
          ke2_signed ke2 h hash
  | silc_ske_st_responder_error => ske_status s <> SILC_SKE_STATUS_OK
  | silc_ske_st_responder_aborted => ske_aborted s = true
  | silc_ske_st_responder_failure => True
  | _ => False
  end.

Lemma initiator_key_grows s s' prop pk ke1 :
  out_grows s s' -> ske_data s' = ske_data s ->
  initiator_key s prop pk ke1 -> initiator_key s' prop pk ke1.
Proof.
  intros O D (? & ? & ? & K). injection D; intros. split_and!; try congruence.
  intros ??. by eapply out_grows_in, K.
Qed.

Lemma responder_phase_ok_frame st s s' :
  out_grows s s' -> ske_data s' = ske_data s ->
  (ske_aborted s = true -> ske_aborted s' = true) -> (packet_ok s -> packet_ok s') ->
  (st = silc_ske_st_responder_error -> ske_status s' = ske_status s) ->
  responder_phase_ok st s -> responder_phase_ok st s'.
Proof.
  intros O D A P S Hs. injection D; intros.
  assert (forall buf, received s buf -> received s' buf) as R
    by (intros buf [? ?]; split; [congruence|done]).
  assert (forall prop g x ke1 ke2, responder_half s prop g x ke1 ke2 ->
    responder_half s' prop g x ke1 ke2) as Rh
    by (intros * (? & ? & ? & ? & ?); split_and!; congruence).
  destruct st; cbn [responder_phase_ok] in Hs |- *; try done.
  - destruct Hs as (? & ? & ?). split_and!; [congruence..|by apply P].
  - destruct Hs as (? & ?). split; [congruence|by apply P].
  - destruct Hs as (? & buf & ?). split; [congruence|]. exists buf. by apply R.
  - destruct Hs as (? & buf & ? & prop & pk & ke1 & K). split; [congruence|].
    exists buf. split; [by apply R|]. exists prop, pk, ke1. by eapply initiator_key_grows.
  - destruct Hs as (? & buf & ? & prop & pk & ke1 & g & x & ke2 & K & ? & ?).
    split; [congruence|]. exists buf. split; [by apply R|]. exists prop, pk, ke1, g, x, ke2.
    split; [by eapply initiator_key_grows|]. split; [done|by apply Rh].
  - destruct Hs as (buf & ? & prop & pk & ke1 & g & x & ke2 & K & ? & ? & (fl & b & ? & ?) &
      h & hash & ? & ? & ? & ?).
    exists buf. split; [by apply R|]. exists prop, pk, ke1, g, x, ke2.
    split; [by eapply initiator_key_grows|]. split; [done|]. split; [by apply Rh|].
    split; [exists fl, b; split; [done|by eapply out_grows_in]|].
    exists h, hash. split_and!; try done. congruence.
  - by apply A.
  - by rewrite S.
Qed.

Hypothesis Hresponder : cf_responder c = true.

#[local] Instance responder_invariant : SkeInvariant c true.
Proof.
  refine {| result_ok := responder_result; phase_ok := responder_phase_ok; side := Hresponder;
            result_grows := responder_result_grows; phase_frame := responder_phase_ok_frame |};
    done.
Defined.

(** ** The states *)

Lemma responder_start_good s :
  base s -> phase_ok silc_ske_st_responder_start s -> good (responder_start s).
Proof.
  intros Hb (Hr & Hp & Hk). unfold responder_start.
  destruct (ske_aborted s) eqn:A; [by apply goto_good|].
  rewrite Hp. by apply wait_good.
Qed.

Lemma select_properties_frame s rp status s' :
  silc_ske_select_security_properties algs s rp = (status, s') ->
  out_grows s s' /\ ske_conf s' = ske_conf s /\ ske_started s' = ske_started s /\
  ske_rekey s' = ske_rekey s /\ ske_start_payload_copy s' = ske_start_payload_copy s.
Proof.
  unfold silc_ske_select_security_properties. intros E.
  assert (ske_out s' = ske_out s /\ ske_conf s' = ske_conf s /\ ske_started s' = ske_started s /\
    ske_rekey s' = ske_rekey s /\ ske_start_payload_copy s' = ske_start_payload_copy s) as (? & ?)
    by (repeat case_match; simplify_eq; done).
  split; [by apply out_grows_same|done].
Qed.

Lemma base_same s s' :
  out_grows s s' -> ske_conf s' = ske_conf s -> ske_started s' = ske_started s ->
  base (responder := true) s -> base (responder := true) s'.
Proof.
  intros O C S (? & ? & ?). split; [congruence|]. split; [congruence|].
  by eapply completions_ok_grows.
Qed.

Lemma responder_phase1_good s :
  base s -> phase_ok silc_ske_st_responder_phase1 s -> good (responder_phase1 algs s).
Proof.
  intros Hb (Hr & Hk). unfold responder_phase1, packet_ok in *.
  destruct (ske_packet s) as [packet|]; [|done].
  destruct (silc_ske_payload_start_decode _) as [status [remote|]] eqn:E.
  2: { apply (fail_good (responder := true)); [done|]. by eapply status_code_ok, start_decode_error. }
  cbv zeta. rewrite (proj1 (buffer_copy_clone _ Hk)).
  pose proof (frame_remote_id packet s) as F. set (s0 := take_remote_id _ _) in *.
  set (s1 := silc_packet_free _).
  assert (base s1) as Hb1 by exact (base_frame _ _ F Hb).
  assert (ske_rekey s1 = None) as Hr1
    by (destruct F as (_ & D & _); injection D; intros; simpl; congruence).
  assert (received s1 (pkt_buffer packet)) as Hc.
  { split; [done|]. exists remote. rewrite E. f_equal.
    revert E. unfold silc_ske_payload_start_decode. intros E. by repeat case_match; simplify_eq. }
  destruct (silc_ske_select_security_properties _ _ _) as [st s2] eqn:Es.
  apply select_properties_frame in Es as (O & C & S & R & P).
  assert (base s2) as Hb2 by (by eapply base_same).
  destruct (Z.eqb_spec st SILC_SKE_STATUS_OK); cbn [negb]; [|by apply (fail_good (responder := true))].
  destruct (silc_ske_payload_start_encode _) as [status' [buf|]] eqn:Ee.
  2: { apply (fail_good (responder := true)); [done|]. apply status_or_error_ok. }
  destruct (silc_ske_packet_send _ _ _) as [ok s3] eqn:Ek. apply packet_send_frame in Ek as [F3 _].
  assert (base s3) as Hb3 by (by eapply base_frame).
  destruct ok; [|by apply (fail_good (responder := true))]. apply wait_good; [done| |done].
  destruct F3 as (_ & D & _). injection D; intros. split; [congruence|].
  exists (pkt_buffer packet). destruct Hc. split; [congruence|done].
Qed.

Lemma responder_phase2_good s :
  base s -> ske_next_state s = Some silc_ske_st_responder_phase2 ->
  phase_ok silc_ske_st_responder_phase2 s -> good (responder_phase2 s).
Proof.
  intros Hb Hn Hp. unfold responder_phase2. destruct (ske_packet s) as [packet|]; [|done].
  destruct (negb (_ =? _));
    [by apply (old_packet_good (responder := true) silc_ske_st_responder_phase2)|].
  destruct (silc_ske_payload_ke_decode _ _ _) as [[status [ke1|]] b] eqn:E.
  2: { apply (fail_good (responder := true)); [done|]. by eapply status_code_ok, ke_decode_error. }
  cbv zeta. destruct Hp as (Hr & buf & Hc). simpl. rewrite Hr. pose proof Hb as (Econf & _).
  destruct (f_data (ke_pk ke1)) as [d|]; [|by apply (fail_good (responder := true))].
  destruct (silc_pkcs_public_key_alloc _ _) as [pk|]; [|by apply (fail_good (responder := true))].
  destruct (ske_prop s) as [prop|]; [|done]. rewrite Econf.
  set (prop' := set_prop_public_key (Some pk) prop). set (s1 := fsm_next _ _).
  assert (cf_repository c = true \/ cf_verify_key c = false ->
    phase_ok silc_ske_st_responder_phase4 s1) as P.
  { intros Hno. split; [done|]. exists buf. split; [done|]. exists prop', pk, ke1.
    split_and!; try done. intros ??. destruct Hno; congruence. }
  destruct (cf_repository c) eqn:R.
  - apply (call_skr_find_good silc_ske_st_responder_phase4); [done|done| |done]. apply P. by left.
  - destruct (cf_verify_key c) eqn:V.
    + apply (call_verify_key_good silc_ske_st_responder_phase4); [done|done| |done].
      split; [done|]. exists buf. split; [done|]. exists prop', pk, ke1.
      split_and!; try done. intros ??. apply in_or_app. right. by left.
    + apply (continue_good silc_ske_st_responder_phase4); [done|done|]. apply P. by right.
Qed.

Lemma responder_phase4_err_good s :
  base s -> ske_status s <> SILC_SKE_STATUS_OK -> good (responder_phase4_err s).
Proof. intros Hb Hs. by apply goto_good. Qed.

(** The signature was verified when the properties ask for it. *)
Lemma check_ke1_signature_ok s prop pk buf ke1 :
  received s buf -> initiator_key s prop pk ke1 ->
  (if match start_flags s with
      | Some f => negb (Z.land f SILC_SKE_SP_FLAG_MUTUAL =? 0)
      | None => false
      end || prop_flag prop SILC_SKE_SP_FLAG_MUTUAL
   then check_ke1_signature s prop ke1 else Some (SILC_SKE_STATUS_OK : Z)) =
  Some (SILC_SKE_STATUS_OK : Z) ->
  initiator_signed prop pk buf ke1.
Proof.
  intros [Hc _] (Ep & Epk & Ek & _) E h Eh Hm Hf Hlt. rewrite Hm, orb_true_r in E.
  unfold check_ke1_signature in E.
  destruct (silc_ske_make_hash s true) as [[status hash]|] eqn:Em; [|done].
  destruct (Z.eqb_spec status SILC_SKE_STATUS_OK) as [->|]; cbn [negb] in E; [|by injection E].
  apply make_hash_i_spec in Em as (ke1' & prop' & h' & Ek' & Ep' & Eh' & T).
  assert (ke1' = ke1) as -> by congruence. assert (prop' = prop) as -> by congruence.
  assert (h' = h) as -> by congruence. rewrite <- (T _ Hc Hf Hlt). rewrite Epk in E.
  by destruct (silc_pkcs_verify_hash _ _ _).
Qed.

Lemma responder_phase4_good s :
  base s -> phase_ok silc_ske_st_responder_phase4 s -> good (responder_phase4 s).
Proof.
  intros Hb (Hr & buf & Hc & prop & pk & ke1 & Hk). pose proof Hk as (Ep & Epk & Ek & Ha).
  unfold responder_phase4. destruct (ske_aborted s) eqn:A; [by apply goto_good|].
  destruct (negb _) eqn:Es.
  { apply responder_phase4_err_good; [done|]. by apply negb_true_iff, Z.eqb_neq in Es. }
  rewrite Ek, Ep. cbv zeta. pose proof (check_ke1_signature_ok s prop pk buf ke1 Hc Hk) as V.
  destruct (if _ || _ then _ else _) as [status|]; [|done].
  destruct (Z.eqb_spec status SILC_SKE_STATUS_OK) as [->|]; cbn [negb];
    [|by apply responder_phase4_err_good].
  specialize (V eq_refl). destruct (pr_group prop) as [g|] eqn:Eg; [|done].
  destruct (create_exponent s g) as [[status x] s1] eqn:E. apply create_exponent_frame in E.
  assert (base s1) as Hb1 by (by eapply base_frame).
  destruct (Z.eqb_spec status SILC_SKE_STATUS_OK); cbn [negb]; [|by apply responder_phase4_err_good].
  apply goto_good; [done|]. destruct E as (O & D & _). injection D; intros.
  split; [simpl; congruence|]. exists buf. split; [destruct Hc; split; [simpl; congruence|done]|].
  exists prop, pk, ke1, g, x. eexists. split; [|split; [exact V|by split_and!]].
  split_and!; try (simpl; congruence); try done. intros ??. eapply out_grows_in; [exact O|]. by apply Ha.
Qed.

Lemma send_ke2_good s buf prop pk ke1 g x ke2 h hash :
  base s -> ske_rekey s = None -> received s buf -> initiator_key s prop pk ke1 ->
  initiator_signed prop pk buf ke1 -> responder_half s prop g x ke1 ke2 ->
  pr_hash prop = Some h -> ske_hash s = Some hash ->
  hash_covers h (silc_buffer_set (b_data buf)) ke1 ke2 (group_power g (ke_x ke1) x) hash ->
  forall ke2', ke_x ke2' = ke_x ke2 -> ke_pk ke2' = ke_pk ke2 -> ke2_signed ke2' h hash ->
  good (send_ke2 s ke2').
Proof.
  intros Hb Hr Hc Hk Hs (Eg & Ex & E2 & Ef & EK) Eh Ehash Hh ke2' X2 P2 S2. unfold send_ke2.
  destruct (cf_public_key _) as [pub|]; [|done]. cbv zeta. set (send := ke_with_type _ _).
  set (s1 := set_ke2_payload (Some send) s).
  destruct (silc_ske_payload_ke_encode _ _ _) as [status [b|]] eqn:E.
  2: { apply (fail_good (responder := true)); [done|]. by eapply status_code_ok, ke_encode_error. }
  assert (status = SILC_SKE_STATUS_OK) as ->.
  { revert E. unfold silc_ske_payload_ke_encode. intros E. by repeat case_match; simplify_eq. }
  destruct (silc_ske_packet_send _ _ _) as [ok s2] eqn:Ek. apply packet_send_frame in Ek as [F I].
  assert (base s2) as Hb2 by (by eapply base_frame; [exact F|]).
  destruct ok; cbn [negb]; [|by apply (fail_good (responder := true))].
  assert (phase_ok silc_ske_st_responder_end s2) as Hp.
  { pose proof F as (O & D & _). injection D; intros. exists buf.
    split; [destruct Hc; split; [simpl in *; congruence|done]|].
    exists prop, pk, ke1, g, x, send. split; [by eapply initiator_key_grows; [exact O|exact D|]|].
    split; [done|]. split.
    { split_and!; try done; try (simpl in *; congruence). }
    split; [by exists (start_flags s1), b|].
    exists h, hash. split; [done|]. split; [simpl in *; congruence|]. split; [|done].
    revert Hh. unfold hash_covers, ske_transcript. simpl. by rewrite X2, P2. }
  assert (ske_rekey s2 = None) as ->.
  { pose proof F as (O & D & _). injection D; intros. simpl in *; congruence. }
  destruct (negb _); [by apply wait_good|by apply goto_good].
Qed.

Lemma own_keys_none s ke2 h hash :
  ske_conf s = c -> own_keys s = None -> ke2_signed ke2 h hash.
Proof.
  unfold own_keys, ke2_signed. intros ->.
  by destruct (cf_public_key c), (cf_private_key c).
Qed.

Lemma own_keys_some s pub prv sign sign0 ke2 h hash :
  ske_conf s = c -> own_keys s = Some (pub, prv) ->
  sign_hash sign0 prv h hash = Some sign -> ke2_signed (ke_with_sign ke2 sign) h hash.
Proof.
  unfold own_keys, ke2_signed. intros ->.
  destruct (cf_public_key c), (cf_private_key c); try done. intros [= _ <-]. unfold sign_hash.
  destruct (silc_pkcs_sign_hash _ _ _ _) as [sg|]; [|done]. intros E. exists sg. split; [done|].
  by destruct (silc_memdup _ _); injection E as <-.
Qed.

Lemma responder_phase5_good s :
  base s -> phase_ok silc_ske_st_responder_phase5 s -> good (responder_phase5 s).
Proof.
  intros Hb (Hr & buf & Hc & prop & pk & ke1 & g & x & ke2 & Hk & Hs & Hh).
  pose proof Hk as (Ep & Epk & Ek & Ha). pose proof Hh as (Eg & Ex & E2 & Ef & EK).
  unfold responder_phase5. rewrite E2, Ep.
  destruct (match own_keys s with Some (pub, _) => _ | None => _ end) as [ke2'|] eqn:Ew.
  2: { by apply (fail_good (responder := true)). }
  assert (ke_x ke2' = ke_x ke2) as Ex'
    by (destruct (own_keys s) as [[pub ?]|]; [|by injection Ew as <-];
        destruct (silc_pkcs_public_key_encode pub); simplify_eq; done).
  cbv zeta. set (s1 := set_ke2_payload _ _).
  destruct (silc_ske_make_hash s1 false) as [[status hash]|] eqn:Em; [|done].
  destruct (pr_hash prop) as [h|] eqn:Eh; [|done].
  destruct (Z.eqb_spec status SILC_SKE_STATUS_OK) as [->|]; cbn [negb];
    [|by apply (fail_good (responder := true))].
  apply make_hash_spec in Em as (ke1' & k2 & KEY & prop' & h' & Ek' & E2' & EK' & Ep' & Eh' & T).
  simpl in Ek', E2', EK', Ep', T. injection E2' as <-.
  assert (ke1' = ke1) as -> by congruence. assert (prop' = prop) as -> by congruence.
  assert (h' = h) as -> by congruence. rewrite EK in EK'. injection EK' as <-.
  specialize (T _ (proj1 Hc)). simpl own_keys. change (own_keys (set_hash _ s1)) with (own_keys s).
  pose proof (proj1 Hb) as Econf.
  assert (forall k, ke_x k = ke_x ke2' -> ke_pk k = ke_pk ke2' -> ke2_signed k h hash ->
    good (send_ke2 (set_hash (Some hash) s1) k)) as G.
  { intros k Hkx Hkp Hks.
    eapply (send_ke2_good (set_hash (Some hash) s1) buf prop pk ke1 g x ke2' h hash); try done.
    split_and!; try done. by rewrite Ex'. }
  destruct (own_keys s) as [[pub prv]|] eqn:Eo; [|by apply G; [..|eapply own_keys_none]].
  destruct (sign_hash _ _ _ _) as [sign|] eqn:Esg; [|by apply (fail_good (responder := true))].
  destruct (f_data sign) as [d|]; [|by apply (fail_good (responder := true))].
  apply G; [done..|]. by eapply own_keys_some.
Qed.

Lemma responder_finish_good s :
  base s -> phase_ok silc_ske_st_responder_end s -> good (responder_finish s).
Proof.
  intros Hb (buf & Hc & prop & pk & ke1 & g & x & ke2 & Hk & Hs & Hh & Hans & h & hash &
    Eh & Ehash & Hcov & Hsig).
  pose proof Hk as (Ep & Epk & Ek & Ha). pose proof Hh as (Eg & Ex & E2 & Ef & EK).
  unfold responder_finish, process_negotiated. simpl ske_prop. rewrite Ep, Eh.
  destruct (pr_cipher prop) as [cipher|] eqn:Eci; [|done].
  destruct (silc_ske_process_key_material _ _ _ _) as [[[km|] s1]|] eqn:E; [| |done].
  2: { apply process_key_material_frame in E as [->|[rk ->]]; by apply (fail_good (responder := true)). }
  apply process_key_material_spec in E as (KEY & prop' & h' & rk & EK' & Ep' & Eh' & -> & Hkm).
  simpl in EK', Ep', Hkm. rewrite EK in EK'. injection EK' as <-.
  assert (prop' = prop) as -> by congruence. assert (h' = h) as -> by congruence.
  rewrite Ehash in Hkm.
  assert (responder_agreed (ske_out s) prop km g cipher h pk x ke1 ke2 buf hash) as Hag.
  { split; try done; [apply Hc|]. by apply Hs. }
  set (s1 := set_keymat _ _). set (s2 := if negb _ then _ else _).
  assert (frame s1 s2) as F.
  { unfold s2. destruct (negb _); [|done].
    destruct (silc_ske_packet_send _ _ _) as [ok s3] eqn:Es. by apply packet_send_frame in Es as [? _]. }
  apply finish_good; [by eapply base_frame; [exact F|]|]. intros _.
  destruct F as (O & D & _). injection D as Dp _ _ _ _ _ _ Dk Dr. rewrite Dp, Dk, Dr.
  apply responder_result_grows with (ske_out s); [intros o; by apply (out_grows_in _ _ _ O)|].
  simpl. rewrite Ep. by exists prop, km, rk, g, cipher, h, pk, x, ke1, ke2, buf, hash.
Qed.

Lemma responder_end_good s :
  base s -> ske_next_state s = Some silc_ske_st_responder_end ->
  phase_ok silc_ske_st_responder_end s -> good (responder_end s).
Proof.
  intros Hb Hn Hp. pose proof (responder_finish_good s Hb Hp) as Hf.
  unfold responder_end. destruct (cf_no_acks _); [done|].
  destruct (ske_packet s) as [packet|]; [|done].
  destruct (negb _); [|done].
  by apply (old_packet_good (responder := true) silc_ske_st_responder_end).
Qed.

(** The obligation of the invariant. *)
Lemma responder_states_good : states_good algs.
Proof.
  intros st s Hb Hn Hp. destruct st; try done; cbn [state_fn].
  - by apply responder_start_good.
  - by apply responder_phase1_good.
  - by apply responder_phase2_good.
  - by apply responder_phase4_good.
  - by apply responder_phase5_good.
  - by apply responder_end_good.
  - by apply ske_aborted_state_good.
  - by apply ske_failure_state_good.
  - by apply ske_error_state_good.
Qed.
End responder.


(** * An exchange *)

#[local] Existing Instance byte_pkcs.
#[local] Existing Instance byte_ske_pkcs.

Definition responder_conf : SkeConf :=
  {| cf_version := Some (str "SILC-1.2-1.1"); cf_flags := SILC_SKE_SP_FLAG_MUTUAL;
     cf_session_port := 0; cf_public_key := Some [5]; cf_private_key := Some [5];
     cf_verify_key := true; cf_completed := true; cf_repository := false; cf_responder := true;
     cf_rekeying := false; cf_no_acks := false; cf_timeout := 30; cf_probe_timeout := 30 |}.

Definition witness_responder : SilcSKE :=
  silc_ske_responder responder_conf None (zrepeat 0 126 ++ [125])
    {| ans_sent := []; ans_verified := [Some 0]; ans_found := [] |} witness_stream.

(** The initiator's number is 1; its signature, or bytes that are not one. *)
Definition witness_ke1 (sign : Z) : list Z :=
  SILC_PUT16_MSB 1 ++ SILC_PUT16_MSB 1 ++ [6] ++ SILC_PUT16_MSB 16 ++ zrepeat 0 15 ++ [1] ++
  SILC_PUT16_MSB 33 ++ [6] ++ zrepeat sign 32.

Definition responder_events (sign : Z) : list ske_event :=
  [Ev_task silc_fsm_run;
   Ev_packet (witness_packet SILC_PACKET_KEY_EXCHANGE
     (sp_wire {| sp_flags := SILC_SKE_SP_FLAG_MUTUAL; sp_len := sp_len witness_proposal;
                 sp_cookie := sp_cookie witness_proposal; sp_version := sp_version witness_proposal;
                 sp_ke_grp := sp_ke_grp witness_proposal;
                 sp_pkcs_alg := sp_pkcs_alg witness_proposal;
                 sp_enc_alg := sp_enc_alg witness_proposal;
                 sp_hash_alg := sp_hash_alg witness_proposal;
                 sp_hmac_alg := sp_hmac_alg witness_proposal;
                 sp_comp_alg := sp_comp_alg witness_proposal |}));
   Ev_task silc_fsm_run; Ev_packet (witness_packet SILC_PACKET_KEY_EXCHANGE_1 (witness_ke1 sign));
   Ev_task silc_fsm_run; Ev_packet (witness_packet SILC_PACKET_SUCCESS [0; 0; 0; 0])].


(** A signature that is not one of HASH_i ends the exchange with the status
    INCORRECT_SIGNATURE. *)
Lemma silc_ske_responder_rejects :
  completed (ske_events wide_algs witness_responder (responder_events 147)) =
  [SILC_SKE_STATUS_INCORRECT_SIGNATURE : Z].
Proof. vm_compute. reflexivity. Qed.
