(* ===== verification/SkeNego.v ===== *)
(** Negotiation of the security properties: the responder takes the first
    supported item of every list of the initiator, and the initiator reads the
    same properties from the answer. *)

From stdpp Require Import strings.
From S2P Require Import Prelude CTypes Buffer BufFmt BufFmtSpec Id SkePayload Auth Cipher Hash HashFns HashSpec Hmac Algs SkeGroup SkeKeys SkeKeySpec SkeState Ske SkeFsm SkeRun SkeAuth.

(** * Lists of names *)

(** The pieces between the separators. *)
Fixpoint split_on (c : Z) (s : list Z) : list (list Z) :=
  match s with
  | [] => [[]]
  | x :: s =>
      if x =? c then [] :: split_on c s
      else match split_on c s with p :: l => (x :: p) :: l | [] => [[x]] end
  end.

Lemma strcspn_range c s : 0 <= strcspn s c <= zlen s.
Proof. induction s as [|x s IH]; simpl strcspn; [done|]. destruct (x =? c); simpl length; lia. Qed.

Lemma split_on_cons c s :
  let n := strcspn s c in
  split_on c s = ztake n s :: match zdrop n s with [] => [] | _ :: t => split_on c t end.
Proof.
  cbv zeta. induction s as [|x s IH]; [done|]. cbn [split_on strcspn].
  pose proof (strcspn_range c s). destruct (x =? c); [done|]. rewrite IH.
  replace (1 + strcspn s c) with (Z.succ (strcspn s c)) by lia.
  unfold ztake, zdrop. by rewrite Z2Nat.inj_succ by lia.
Qed.

Lemma select_item_find supported cp fuel :
  (length cp < fuel)%nat -> select_item fuel supported cp = List.find supported (split_on 44 cp).
Proof.
  revert cp; induction fuel as [|fuel IH]; intros cp Hf; [lia|].
  rewrite split_on_cons. cbn [select_item List.find]. cbv zeta.
  pose proof (strcspn_range 44 cp).
  destruct (supported _); [done|]. destruct (zdrop (strcspn cp 44) cp) as [|x t] eqn:E; [done|].
  assert (zlen (zdrop (strcspn cp 44) cp) = zlen cp - strcspn cp 44) as Hl by len.
  rewrite E in Hl. simpl length in Hl. zcase; [simpl length in *; lia|].
  change (zdrop 1 (x :: t)) with t. apply IH. lia.
Qed.

(** The item that is taken from a field of the start payload: with a comma the
    first supported one, otherwise the name itself. *)
Definition chosen (supported : list Z -> bool) (f : SkeField) (n : list Z) : Prop :=
  exists d, f_data f = Some d /\
    if existsb (Z.eqb 44) (cstr d)
    then exists before after, split_on 44 (cstr d) = before ++ n :: after /\
           Forall (fun m => supported m = false) before /\ supported n = true
    else n = cstr d.

Lemma strchr_existsb s c : match strchr s c with Some _ => true | None => false end = existsb (Z.eqb c) s.
Proof. induction s as [|x s IH]; [done|]. cbn. rewrite (Z.eqb_sym c). by destruct (x =? c). Qed.

Lemma find_first {A} (p : A -> bool) l x :
  List.find p l = Some x ->
  exists before after, l = before ++ x :: after /\ Forall (fun y => p y = false) before /\ p x = true.
Proof.
  induction l as [|y l IH]; [done|]. cbn [List.find]. destruct (p y) eqn:E.
  - intros [= <-]. by exists [], l.
  - intros (b & a & -> & Hb & Hx)%IH. exists (y :: b), a. split; [done|]. split; [by constructor|done].
Qed.

(** No NUL in a C string and in its pieces. *)
Definition no_nul (s : list Z) : Prop := Forall (fun c => c <> 0) s.

Lemma cstr_no_nul p : no_nul (cstr p).
Proof.
  induction p as [|c p IH]; [by constructor|]. cbn [cstr].
  destruct (Z.eqb_spec c 0); [by constructor|]. by constructor.
Qed.

Lemma cstr_id s : no_nul s -> cstr s = s.
Proof.
  induction 1 as [|c s Hc Hs IH]; [done|]. cbn [cstr]. destruct (Z.eqb_spec c 0); [done|].
  by rewrite IH.
Qed.

Lemma split_no_nul c s p : no_nul s -> In p (split_on c s) -> no_nul p.
Proof.
  intros Hs. revert p. induction Hs as [|x s Hx Hs IH]; intros p; cbn [split_on].
  - intros [<-|[]]. constructor.
  - destruct (x =? c); [intros [<-|Hin]; [constructor|by apply IH]|].
    destruct (split_on c s) as [|q l]; [intros [<-|[]]; by repeat constructor|].
    intros [<-|Hin]; [constructor; [done|]; apply IH; by left|]. apply IH. by right.
Qed.

Lemma select_alg_chosen supported f r :
  is_Some (f_data f) -> select_alg supported f = Some r ->
  exists n, f_data r = Some n /\ chosen supported f n /\ no_nul n.
Proof.
  intros [d Ed]. unfold select_alg, chosen. rewrite Ed. cbv zeta.
  pose proof (strchr_existsb (cstr d) 44) as Ex.
  destruct (strchr (cstr d) 44) as [t|].
  - rewrite select_item_find by lia. destruct (List.find _ _) as [n|] eqn:Ef; [|done].
    intros [= <-]. exists n. split; [done|].
    apply find_first in Ef as (before & after & E & Hb & Hn). split.
    + exists d. split; [done|]. rewrite <- Ex. by exists before, after.
    + apply (split_no_nul 44 (cstr d)); [apply cstr_no_nul|]. rewrite E. apply in_elt.
  - intros [= <-]. exists (cstr d). split; [done|]. split; [|apply cstr_no_nul].
    exists d. split; [done|]. by rewrite <- Ex.
Qed.

(** A list made of the names of a registry has these names as its pieces. *)
Lemma supported_loop_app {A} (name : A -> list Z) l acc :
  supported_loop name l acc = acc ++ concat (map (fun e => name e ++ [44]) l).
Proof.
  revert acc; induction l as [|e l IH]; intros acc; cbn [supported_loop map concat];
    [by rewrite app_nil_r|]. by rewrite IH, <- !app_assoc.
Qed.

Lemma split_on_name n s : Forall (fun c => c <> 44) n -> split_on 44 (n ++ 44 :: s) = n :: split_on 44 s.
Proof.
  induction 1 as [|x n Hx Hn IH]; [done|]. cbn [app split_on].
  destruct (Z.eqb_spec x 44); [done|]. by rewrite IH.
Qed.

Lemma split_on_last n : Forall (fun c => c <> 44) n -> split_on 44 n = [n].
Proof.
  induction 1 as [|x n Hx Hn IH]; [done|]. cbn [split_on].
  destruct (Z.eqb_spec x 44); [done|]. by rewrite IH.
Qed.

Lemma split_on_join {A} (name : A -> list Z) e l :
  Forall (fun e => Forall (fun c => c <> 44) (name e)) (e :: l) ->
  split_on 44 (removelast (concat (map (fun e => name e ++ [44]) (e :: l)))) = map name (e :: l).
Proof.
  revert e; induction l as [|e' l IH]; intros e Hf; apply Forall_cons_iff in Hf as [He Hl].
  - cbn [map concat]. rewrite app_nil_r, removelast_last. by apply split_on_last.
  - cbn [map concat] in IH |- *. rewrite removelast_app.
    2: { intros E. apply (f_equal length) in E. rewrite !length_app in E. cbn in E. lia. }
    rewrite <- app_assoc. cbn [app]. rewrite split_on_name by done. f_equal. by apply IH.
Qed.

(** What *_get_supported gives is read back as the names of the registry. *)
Lemma registry_supported_split {A} (name : A -> list Z) l s :
  Forall (fun e => Forall (fun c => c <> 44) (name e)) l ->
  registry_supported name l = Some s -> split_on 44 s = map name l.
Proof.
  intros Hf. destruct l as [|e l]; [done|]. unfold registry_supported. cbv zeta.
  rewrite supported_loop_app. cbn [app]. intros [= <-]. rewrite <- (split_on_join name e l Hf). f_equal.
  cbn [map concat]. generalize (concat (map (fun e => name e ++ [44]) l)). intros t.
  destruct (exists_last (l := (name e ++ [44]) ++ t)) as (y & z & ->).
  { intros E. apply (f_equal length) in E. rewrite !length_app in E. cbn in E. lia. }
  rewrite removelast_last, length_app. cbn [length]. rewrite ztake_app_exact by lia. done.
Qed.

(** * Selection *)

Definition field_given (f : SkeField) : Prop := is_Some (f_data f).

Lemma find_name {A} (name : A -> list Z) l n e : registry_find name l n = Some e -> name e = n.
Proof.
  induction l as [|x l IH]; [done|]. cbn [registry_find]. unfold str_eq at 1.
  destruct (bool_decide (name x = n)) eqn:E; [|done]. intros [= <-].
  by apply bool_decide_eq_true_1 in E.
Qed.

Lemma group_name n g : silc_ske_group_get_by_name n = Some g -> gr_name g = n.
Proof.
  unfold silc_ske_group_get_by_name. induction silc_ske_groups as [|x l IH]; [done|].
  cbn [group_find]. destruct (str_eq (gr_name x) n) eqn:E; [|done]. intros [= <-].
  by apply bool_decide_eq_true_1 in E.
Qed.

Section select.
Context `{SkePkcs} (algs : SilcAlgs).

(** Everything but the remote port, which each side has for itself. *)
Definition same_algorithms (p q : SilcSKESecurityProperties) : Prop :=
  pr_flags p = pr_flags q /\ pr_group p = pr_group q /\ pr_cipher p = pr_cipher q /\
  pr_hash p = pr_hash q /\ pr_hmac p = pr_hmac q.

(** What the responder selected from the payload [rp], and what it answers. *)
Record selected (rp : SilcSKEStartPayload) (prop : SilcSKESecurityProperties)
    (answer : SilcSKEStartPayload) : Prop := {
  sel_flags : pr_flags prop = sp_flags rp /\ sp_flags answer = sp_flags rp;
  sel_group : exists g, pr_group prop = Some g /\
    chosen (fun n => match silc_ske_group_get_by_name n with Some _ => true | None => false end)
      (sp_ke_grp rp) (gr_name g);
  sel_pkcs : exists n, f_data (sp_pkcs_alg answer) = Some n /\
    chosen (silc_pkcs_find_algorithm algs) (sp_pkcs_alg rp) n;
  sel_cipher : exists c, pr_cipher prop = Some c /\
    chosen (silc_cipher_is_supported algs) (sp_enc_alg rp) (silc_cipher_get_name c);
  sel_hash : exists h, pr_hash prop = Some h /\
    chosen (silc_hash_is_supported algs) (sp_hash_alg rp) (ho_name h);
  sel_hmac : exists hm, pr_hmac prop = Some hm /\
    chosen (silc_hmac_is_supported algs) (sp_hmac_alg rp) (silc_hmac_get_name hm);
}.

(** C8. Negotiation: when silc_ske_select_security_properties gives OK, the group,
    the cipher, the hash and the HMAC are each the first supported item of the
    initiator's list (or the only item), and an initiator with the same
    algorithms that reads the answer takes the same security properties,
    provided the public key algorithm is supported, which is checked for an item
    of a list only. *)
Theorem silc_ske_select_security_properties_agree s rp s' port :
  field_given (sp_ke_grp rp) -> field_given (sp_pkcs_alg rp) -> field_given (sp_enc_alg rp) ->
  field_given (sp_hash_alg rp) -> field_given (sp_hmac_alg rp) ->
  silc_ske_select_security_properties algs s rp = (SILC_SKE_STATUS_OK : Z, s') ->
  exists prop answer,
    ske_prop s' = Some prop /\ ske_start_payload s' = Some answer /\ selected rp prop answer /\
    (silc_pkcs_find_algorithm algs (field_str (sp_pkcs_alg answer)) = true ->
     exists p, take_properties algs answer port = inr p /\ same_algorithms p prop).
Proof.
  intros G1 G2 G3 G4 G5. unfold silc_ske_select_security_properties.
  destruct (_ =? 0); [done|]. destruct (f_len (sp_pkcs_alg rp) =? 0); [done|].
  destruct (f_len (sp_enc_alg rp) =? 0); [done|]. destruct (f_len (sp_hash_alg rp) =? 0); [done|].
  destruct (f_len (sp_hmac_alg rp) =? 0); [done|]. cbv zeta.
  destruct (negb (silc_ske_check_version _ =? _)) eqn:Ev.
  { intros [= E _]. by rewrite E in Ev. }
  destruct (select_alg _ (sp_ke_grp rp)) as [grp|] eqn:E1; [|done].
  destruct (silc_ske_group_get_by_name _) as [g|] eqn:Eg; [|done].
  destruct (select_alg _ (sp_pkcs_alg rp)) as [pkcs|] eqn:E2; [|done].
  destruct (select_alg _ (sp_enc_alg rp)) as [enc|] eqn:E3; [|done].
  destruct (silc_cipher_alloc _ _) as [c|] eqn:Ec; [|done].
  destruct (select_alg _ (sp_hash_alg rp)) as [hash|] eqn:E4; [|done].
  destruct (silc_hash_alloc _ _) as [h|] eqn:Eh; [|done].
  destruct (select_alg _ (sp_hmac_alg rp)) as [hmac|] eqn:E5; [|done].
  destruct (silc_hmac_alloc _ _) as [hm|] eqn:Em; [|done]. intros [= <-].
  apply select_alg_chosen in E1 as (n1 & D1 & C1 & N1); [|done].
  apply select_alg_chosen in E2 as (n2 & D2 & C2 & N2); [|done].
  apply select_alg_chosen in E3 as (n3 & D3 & C3 & N3); [|done].
  apply select_alg_chosen in E4 as (n4 & D4 & C4 & N4); [|done].
  apply select_alg_chosen in E5 as (n5 & D5 & C5 & N5); [|done].
  unfold field_str in *. rewrite D1, D3, D4, D5 in *. cbn [ptr_bytes] in *.
  assert (silc_cipher_get_name c = n3) as Nc.
  { unfold silc_cipher_alloc in Ec. destruct (registry_find _ _ _) as [o|] eqn:Eo; [|done].
    injection Ec as <-. by apply find_name in Eo. }
  assert (silc_hmac_get_name hm = n5) as Nm.
  { unfold silc_hmac_alloc in Em. destruct (silc_hash_alloc algs (hmac_hash_name n5)); [|done].
    destruct (registry_find hmo_name _ _) as [o|] eqn:Eo; [|done]. injection Em as <-.
    by apply find_name in Eo. }
  eexists _, _. split; [reflexivity|]. split; [reflexivity|]. split.
  - split; cbn; [done|exists g|exists n2|exists c|exists h|exists hm]; (split; [done|]); try done.
    + by rewrite (group_name _ _ Eg).
    + by rewrite Nc.
    + by rewrite (find_name _ _ _ _ Eh).
    + by rewrite Nm.
  - unfold take_properties, field_str. cbn [sp_ke_grp sp_pkcs_alg sp_enc_alg sp_hash_alg sp_hmac_alg].
    rewrite D1, D2, D3, D4, D5. cbn [ptr_bytes]. rewrite !cstr_id by done.
    rewrite Eg, Ec, Eh, Em. intros ->. cbn [negb]. eexists. split; [reflexivity|]. done.
Qed.
End select.

#[local] Existing Instance byte_pkcs.
#[local] Existing Instance byte_ske_pkcs.

(** A proposal with a cipher that is not known before the one that is. *)
Definition witness_list_proposal : SilcSKEStartPayload :=
  {| sp_flags := 0; sp_len := 0; sp_cookie := sp_cookie witness_proposal;
     sp_version := sp_version witness_proposal; sp_ke_grp := sp_ke_grp witness_proposal;
     sp_pkcs_alg := sp_pkcs_alg witness_proposal;
     sp_enc_alg := str_field (str "rc5-ctr,aes-256-ctr,none");
     sp_hash_alg := sp_hash_alg witness_proposal; sp_hmac_alg := sp_hmac_alg witness_proposal;
     sp_comp_alg := null_field |}.

Lemma silc_ske_select_security_properties_agree_witness :
  exists s' prop answer,
    silc_ske_select_security_properties wide_algs witness_exchange witness_list_proposal = (0, s') /\
    ske_prop s' = Some prop /\ ske_start_payload s' = Some answer /\
    f_data (sp_enc_alg answer) = Some (str "aes-256-ctr") /\
    exists p, take_properties wide_algs answer 0 = inr p /\ same_algorithms p prop.
Proof.
  assert ((silc_ske_select_security_properties wide_algs witness_exchange
    witness_list_proposal).1 = 0) as E0 by (vm_compute; reflexivity).
  assert (match ske_start_payload (silc_ske_select_security_properties wide_algs witness_exchange
    witness_list_proposal).2 with
    | Some a => Some (f_data (sp_enc_alg a), silc_pkcs_find_algorithm wide_algs
        (field_str (sp_pkcs_alg a))) | None => None end =
    Some (Some (str "aes-256-ctr"), true)) as E1 by (vm_compute; reflexivity).
  destruct (silc_ske_select_security_properties wide_algs witness_exchange witness_list_proposal)
    as [st s'] eqn:E. cbn [fst snd] in E0, E1. subst st.
  destruct (silc_ske_select_security_properties_agree wide_algs witness_exchange
    witness_list_proposal s' 0) as (prop & answer & Ep & Ea & _ & Hp).
  - by eexists.
  - by eexists.
  - by eexists.
  - by eexists.
  - by eexists.
  - exact E.
  - rewrite Ea in E1. injection E1 as E1 E2. exists s', prop, answer.
    split; [reflexivity|]. split; [exact Ep|]. split; [exact Ea|]. split; [exact E1|by apply Hp].
Defined.
