(* ===== verification/ConnAuth.v ===== *)
(** lib/silcske/silcconnauth.c: the connection authentication that follows a key
    exchange.

    The context with its machine and tasks is the record [ConnAuth]; a state
    function gives its status and the context, [None] is the use of a NULL
    pointer.  [ca_event] is what can happen to it.  The authentication data is
    read from the packet after silc_packet_free, which only puts the packet back
    into the pool of its engine: its bytes are still there. *)

From S2P Require Import Prelude CTypes Buffer BufFmt Id Cipher Hash Hmac Packet SkePayload Auth Algs SkeGroup SkeKeys SkeState Ske SkeFsm SkeRun.

(** The rest of what silcpk.h and silcpkcs.h offer: the hash object as the hash
    argument of a signature, and the length of a private key in bits. *)
Class ConnPkcs `(SkePkcs) := {
  pkcs_hash : SilcHashObject -> SilcHash;
  silc_pkcs_private_key_get_len : SilcPrivateKey -> Z;
}.

Definition SILC_PACKET_CONNECTION_AUTH : Z := 17.
Definition SILC_AUTH_OK : Z := 0.
Definition SILC_AUTH_FAILED : Z := 1.
Definition SILC_CONN_CLIENT : Z := 1.
Definition SILC_CONN_ROUTER : Z := 3.
Definition SILC_SKR_OK : Z := 1.

Inductive CaSt :=
| silc_connauth_st_initiator_start | silc_connauth_st_initiator_result
| silc_connauth_st_initiator_failure
| silc_connauth_st_responder_start | silc_connauth_st_responder_authenticate
| silc_connauth_st_responder_authenticate_pk | silc_connauth_st_responder_success
| silc_connauth_st_responder_failure.

Inductive CaTask := ca_fsm_run | ca_fsm_finish | silc_connauth_timeout.

#[export] Instance CaTask_eq_dec : EqDecision CaTask.
Proof. solve_decision. Defined.

Section connauth.
Context `{ConnPkcs}.

(** [void *auth_data]: a passphrase or signature, or the private key. *)
Inductive CaAuthData :=
| CA_null
| CA_bytes (l : list Z)
| CA_private_key (prv : SilcPrivateKey).

(** A key repository: status and keys that silc_skr_find calls its callback with
    when it looks for a public key, its type and its usage; the [key] of an
    element may be NULL. *)
Definition SilcSKR : Type := SilcPublicKey -> Z * option (list (option SilcPublicKey)).

(** What the application stores through the pointers of its callback. *)
Record CaAnswer := {
  ga_passphrase : option (list Z);
  ga_passphrase_len : Z;
  ga_repository : option SilcSKR;
}.

Inductive CaOutput :=
| CA_send (type flags : Z) (data : list Z)
| CA_complete (success : bool).

Record ConnAuth := Ca {
  ca_ske : SilcSKE;
  ca_conn_type : Z;
  ca_auth_method : Z;
  ca_auth_data : CaAuthData;
  ca_auth_data_len : Z;
  ca_get_auth_data : Z -> option CaAnswer;
  ca_public_keys : option (list (option SilcPublicKey));
  ca_skr_status : Z;
  ca_timeout_secs : Z;
  ca_packet : option SkePacket;
  ca_aborted : bool;
  ca_success : bool;
  ca_linked : list Z;
  ca_next_state : option CaSt;
  ca_tasks : list CaTask;
  ca_sent : list bool;
  ca_out : list CaOutput;
}.

Definition ca_eta (s : ConnAuth) : ConnAuth :=
  Ca
    (ca_ske s) (ca_conn_type s) (ca_auth_method s) (ca_auth_data s) (ca_auth_data_len s)
    (ca_get_auth_data s) (ca_public_keys s) (ca_skr_status s) (ca_timeout_secs s) (ca_packet s)
    (ca_aborted s) (ca_success s) (ca_linked s) (ca_next_state s) (ca_tasks s) (ca_sent s)
    (ca_out s).

Ltac set_field s proj v :=
  let r := eval cbv beta delta [ca_eta] in (ca_eta s) in
  match r with context C [proj s] => let t := context C [v] in exact t end.

Definition ca_set_auth_data (v : CaAuthData) (n : Z) (s : ConnAuth) : ConnAuth :=
  Ca
    (ca_ske s) (ca_conn_type s) (ca_auth_method s) v n
    (ca_get_auth_data s) (ca_public_keys s) (ca_skr_status s) (ca_timeout_secs s) (ca_packet s)
    (ca_aborted s) (ca_success s) (ca_linked s) (ca_next_state s) (ca_tasks s) (ca_sent s)
    (ca_out s).
Definition ca_set_found (status : Z) (v : option (list (option SilcPublicKey))) (s : ConnAuth)
  : ConnAuth :=
  Ca
    (ca_ske s) (ca_conn_type s) (ca_auth_method s) (ca_auth_data s) (ca_auth_data_len s)
    (ca_get_auth_data s) v status (ca_timeout_secs s) (ca_packet s)
    (ca_aborted s) (ca_success s) (ca_linked s) (ca_next_state s) (ca_tasks s) (ca_sent s)
    (ca_out s).
Definition ca_set_ske (v : SilcSKE) s := ltac:(set_field s ca_ske v).
Definition ca_set_packet (v : option SkePacket) s := ltac:(set_field s ca_packet v).
Definition ca_set_aborted (v : bool) s := ltac:(set_field s ca_aborted v).
Definition ca_set_success (v : bool) s := ltac:(set_field s ca_success v).
Definition ca_set_linked (v : list Z) s := ltac:(set_field s ca_linked v).
Definition ca_set_next_state (v : option CaSt) s := ltac:(set_field s ca_next_state v).
Definition ca_set_tasks (v : list CaTask) s := ltac:(set_field s ca_tasks v).
Definition ca_set_sent (v : list bool) s := ltac:(set_field s ca_sent v).
Definition ca_set_out (v : list CaOutput) s := ltac:(set_field s ca_out v).

Abbreviation result := (option (SilcFSMStatus * ConnAuth)).

Definition ca_output (o : CaOutput) (s : ConnAuth) : ConnAuth := ca_set_out (ca_out s ++ [o]) s.

Definition ca_next (st : CaSt) (s : ConnAuth) : ConnAuth := ca_set_next_state (Some st) s.
Definition ca_goto (st : CaSt) (s : ConnAuth) : result := Some (SILC_FSM_ST_CONTINUE, ca_next st s).
Definition ca_wait (st : CaSt) (s : ConnAuth) : result := Some (SILC_FSM_ST_WAIT, ca_next st s).

Definition ca_task_add (t : CaTask) (s : ConnAuth) : ConnAuth := ca_set_tasks (ca_tasks s ++ [t]) s.
Definition ca_task_del (t : CaTask) (s : ConnAuth) : ConnAuth :=
  ca_set_tasks (List.filter (fun t' => negb (bool_decide (t = t'))) (ca_tasks s)) s.

(** The packet is handed to the stream; whether it could be sent is the next
    answer of the environment. *)
Definition ca_packet_send (type flags : Z) (data : list Z) (s : ConnAuth) : bool * ConnAuth :=
  let '(ok, rest) := match ca_sent s with b :: l => (b, l) | [] => (true, []) end in
  (ok, ca_output (CA_send type flags data) (ca_set_sent rest s)).

(** silc_packet_stream_unlink and silc_schedule_task_del_by_context: the timeout is
    the only task with the context. *)
Definition ca_unlink (s : ConnAuth) : ConnAuth :=
  ca_task_del silc_connauth_timeout (ca_set_linked [] s).

Definition ca_completion (success : bool) (s : ConnAuth) : ConnAuth :=
  ca_output (CA_complete success) s.

(** * Signatures *)

(** HASH plus KE Start Payload; the outer [None] is a NULL start payload. *)
Definition connauth_data (ske : SilcSKE) : option (option SilcBuffer) :=
  match ske_start_payload_copy ske with
  | None => None
  | Some copy =>
      let hash_len := zlen (ptr_bytes (ske_hash ske)) in
      let len := s32 (hash_len + silc_buffer_len copy) in
      match silc_buffer_alloc_size len with
      | None => Some None
      | Some auth =>
          let '(_, auth) := silc_buffer_format auth
                              [F_DATA (ske_hash ske) hash_len;
                               F_DATA (Some (b_data copy)) (silc_buffer_len copy)] in
          Some (Some auth)
      end
  end.

Definition silc_connauth_get_signature (s : ConnAuth) (prv : SilcPrivateKey)
  : option (option (list Z)) :=
  match connauth_data (ca_ske s), ske_prop (ca_ske s) with
  | None, _ => None
  | Some None, _ => Some None
  | Some (Some auth), prop =>
      let len := u32 (silc_pkcs_private_key_get_len prv + 7) / 8 + 1 in
      if negb (silc_calloc_ok len 1) then Some None
      else
        match prop with
        | None => None
        | Some prop =>
            match pr_hash prop with
            | None => None
            | Some hash => Some (silc_pkcs_sign prv (b_data auth) len (pkcs_hash hash))
            end
        end
  end.

Definition silc_connauth_verify_signature (s : ConnAuth) (pub_key : option SilcPublicKey)
    (sign : option (list Z)) (sign_len : Z) : option bool :=
  match pub_key, sign with
  | Some pub_key, Some sign =>
      match connauth_data (ca_ske s), ske_prop (ca_ske s) with
      | None, _ => None
      | Some None, _ => Some false
      | Some (Some auth), Some prop =>
          match pr_hash prop with
          | None => None
          | Some hash =>
              Some (silc_pkcs_verify pub_key (mem_read sign sign_len) (b_data auth) (pkcs_hash hash))
          end
      | Some (Some _), None => None
      end
  | _, _ => Some false
  end.

(** * Initiator *)

(** The authentication data of the method, its length, and the packet flags; the
    middle [None] is the failure state. *)
Definition initiator_auth_data (s : ConnAuth) : option (option (option (list Z) * Z * Z)) :=
  let method := ca_auth_method s in
  if method =? SILC_AUTH_PASSWORD then
    match ca_auth_data s with
    | CA_bytes l =>
        match silc_memdup l (ca_auth_data_len s) with
        | None => Some None
        | Some d => Some (Some (Some d, ca_auth_data_len s, SILC_PACKET_FLAG_LONG_PAD))
        end
    | _ => None
    end
  else if method =? SILC_AUTH_PUBLIC_KEY then
    match ca_auth_data s with
    | CA_private_key prv =>
        match silc_connauth_get_signature s prv with
        | None => None
        | Some None => Some None
        | Some (Some sign) => Some (Some (Some sign, zlen sign, 0))
        end
    | _ => None
    end
  else Some (Some (None, 0, 0)).

Definition ca_initiator_start (s : ConnAuth) : result :=
  if ca_aborted s then ca_goto silc_connauth_st_initiator_failure s
  else
    let s := if negb (ca_timeout_secs s =? 0) then ca_task_add silc_connauth_timeout s else s in
    match initiator_auth_data s with
    | None => None
    | Some None => ca_goto silc_connauth_st_initiator_failure s
    | Some (Some (auth_data, auth_data_len, flags)) =>
        let payload_len := s32 (4 + auth_data_len) in
        match silc_buffer_alloc_size payload_len with
        | None => ca_goto silc_connauth_st_initiator_failure s
        | Some packet =>
            let '(_, packet) := silc_buffer_format packet
                                  [F_UI16_SHORT payload_len; F_UI16_SHORT (ca_conn_type s);
                                   F_DATA auth_data auth_data_len] in
            let '(ok, s) := ca_packet_send SILC_PACKET_CONNECTION_AUTH flags (b_data packet) s in
            if negb ok then ca_goto silc_connauth_st_initiator_failure s
            else ca_wait silc_connauth_st_initiator_result s
        end
    end.

Definition ca_initiator_result (s : ConnAuth) : result :=
  if ca_aborted s then ca_goto silc_connauth_st_initiator_failure s
  else
    match ca_packet s with
    | None => None
    | Some p =>
        let s := ca_set_success (pkt_type p =? SILC_PACKET_SUCCESS) s in
        Some (SILC_FSM_ST_FINISH, ca_completion (ca_success s) (ca_unlink s))
    end.

(** The failure states of both sides. *)
Definition ca_failure (s : ConnAuth) : result :=
  if negb (ca_aborted s) then
    let '(_, s) := ca_packet_send SILC_PACKET_FAILURE 0 (SILC_PUT32_MSB SILC_AUTH_FAILED) s in
    Some (SILC_FSM_ST_FINISH, ca_completion false (ca_unlink s))
  else Some (SILC_FSM_ST_FINISH, ca_unlink s).

(** * Responder *)

Definition ca_responder_start (s : ConnAuth) : result :=
  if ca_aborted s then ca_goto silc_connauth_st_responder_failure s
  else
    ca_wait silc_connauth_st_responder_authenticate
      (if negb (ca_timeout_secs s =? 0) then ca_task_add silc_connauth_timeout s else s).

(** The Connection Auth Payload: the connection type, and the authentication data
    with its length. *)
Definition parse_auth_payload (b : SilcBuffer) : option (Z * option (list Z) * Z) :=
  let '(ret, out, b) := silc_buffer_unformat b [U_UI16_SHORT true; U_UI16_SHORT true] in
  let payload_len := out_num out 0 in
  let conn_type := out_num out 1 in
  if ret =? -1 then None
  else if negb (payload_len =? silc_buffer_len b) then None
  else
    let payload_len := u16 (payload_len - 4) in
    if (conn_type <? SILC_CONN_CLIENT) || (SILC_CONN_ROUTER <? conn_type) then None
    else if 0 <? payload_len then
      let '(ret, out, _) := silc_buffer_unformat b [U_OFFSET 4; U_DATA true payload_len] in
      if ret =? -1 then None else Some (conn_type, out_ptr out 0, payload_len)
    else Some (conn_type, None, payload_len).

(** SILC_FSM_CALL of silc_skr_find, which calls silc_connauth_skr_callback before
    it returns. *)
Definition ca_skr_find (repository : SilcSKR) (pk : SilcPublicKey) (s : ConnAuth) : result :=
  let '(status, results) := repository pk in
  Some (SILC_FSM_ST_CONTINUE, ca_set_found status results s).

(** Digital signature, or no authentication. *)
Definition ca_responder_signature (a : CaAnswer) (auth_data : option (list Z)) (payload_len : Z)
    (s : ConnAuth) : result :=
  match ga_repository a with
  | Some repository =>
      match auth_data with
      | None => ca_goto silc_connauth_st_responder_failure s
      | Some d =>
          let dup := silc_memdup d payload_len in
          let s := ca_set_auth_data (match dup with Some l => CA_bytes l | None => CA_null end)
                     payload_len s in
          match ske_prop (ca_ske s) with
          | None => None
          | Some prop =>
              match dup, pr_public_key prop with
              | Some _, Some pk =>
                  ca_skr_find repository pk
                    (ca_next silc_connauth_st_responder_authenticate_pk s)
              | _, _ => ca_goto silc_connauth_st_responder_failure s
              end
          end
      end
  | None => ca_goto silc_connauth_st_responder_success s
  end.

Definition ca_responder_verify (a : CaAnswer) (auth_data : option (list Z)) (payload_len : Z)
    (s : ConnAuth) : result :=
  match ga_passphrase a, negb (ga_passphrase_len a =? 0) with
  | Some passphrase, true =>
      match auth_data with
      | Some d =>
          if negb (payload_len =? ga_passphrase_len a) ||
             negb (bool_decide (mem_read d (ga_passphrase_len a) =
                                mem_read passphrase (ga_passphrase_len a)))
          then ca_goto silc_connauth_st_responder_failure s
          else ca_goto silc_connauth_st_responder_success s
      | None => ca_goto silc_connauth_st_responder_failure s
      end
  | _, _ => ca_responder_signature a auth_data payload_len s
  end.

Definition ca_responder_authenticate (s : ConnAuth) : result :=
  if ca_aborted s then ca_goto silc_connauth_st_responder_failure (ca_set_packet None s)
  else
    match ca_packet s with
    | None => None
    | Some p =>
        if negb (pkt_type p =? SILC_PACKET_CONNECTION_AUTH)
        then ca_goto silc_connauth_st_responder_failure (ca_set_packet None s)
        else
          let s := ca_set_packet None s in
          match parse_auth_payload (pkt_buffer p) with
          | None => ca_goto silc_connauth_st_responder_failure s
          | Some (conn_type, auth_data, payload_len) =>
              match ca_get_auth_data s conn_type with
              | None => ca_goto silc_connauth_st_responder_failure s
              | Some a => ca_responder_verify a auth_data payload_len s
              end
          end
    end.

Definition ca_responder_authenticate_pk (s : ConnAuth) : result :=
  if ca_aborted s then ca_goto silc_connauth_st_responder_failure s
  else if negb (ca_skr_status s =? SILC_SKR_OK) then ca_goto silc_connauth_st_responder_failure s
  else
    match ca_public_keys s with
    | Some (key :: _) =>
        let sign := match ca_auth_data s with CA_bytes l => Some l | _ => None end in
        match silc_connauth_verify_signature s key sign (ca_auth_data_len s) with
        | None => None
        | Some false => ca_goto silc_connauth_st_responder_failure s
        | Some true => ca_goto silc_connauth_st_responder_success s
        end
    | _ => None
    end.

Definition ca_responder_success (s : ConnAuth) : result :=
  let '(_, s) := ca_packet_send SILC_PACKET_SUCCESS 0 (SILC_PUT32_MSB SILC_AUTH_OK) s in
  Some (SILC_FSM_ST_FINISH, ca_completion true (ca_unlink s)).

(** * The machine *)

Definition ca_state_fn (st : CaSt) : ConnAuth -> result :=
  match st with
  | silc_connauth_st_initiator_start => ca_initiator_start
  | silc_connauth_st_initiator_result => ca_initiator_result
  | silc_connauth_st_initiator_failure | silc_connauth_st_responder_failure => ca_failure
  | silc_connauth_st_responder_start => ca_responder_start
  | silc_connauth_st_responder_authenticate => ca_responder_authenticate
  | silc_connauth_st_responder_authenticate_pk => ca_responder_authenticate_pk
  | silc_connauth_st_responder_success => ca_responder_success
  end.

Inductive ca_outcome :=
| CaCrash
| CaNoRest
| CaRest (s : ConnAuth).

(** silc_fsm_run of a machine that silc_fsm_start has started; silc_fsm_finish
    goes through the scheduler then. *)
Fixpoint ca_run (fuel : nat) (s : ConnAuth) : ca_outcome :=
  match fuel with
  | O => CaNoRest
  | S fuel =>
      match ca_next_state s with
      | None => CaCrash
      | Some st =>
          match ca_state_fn st s with
          | None => CaCrash
          | Some (SILC_FSM_ST_CONTINUE, s) => ca_run fuel s
          | Some (SILC_FSM_ST_YIELD, s) => CaRest (ca_task_add ca_fsm_run s)
          | Some (SILC_FSM_ST_WAIT, s) => CaRest s
          | Some (SILC_FSM_ST_FINISH, s) => CaRest (ca_task_add ca_fsm_finish (ca_task_del ca_fsm_run s))
          end
      end
  end.

(** The longest run of states has three. *)
Definition ca_fuel : nat := 5.

Definition silc_connauth_packet_receive (p : SkePacket) (s : ConnAuth) : ConnAuth :=
  ca_task_add ca_fsm_run (ca_set_packet (Some p) s).

Definition silc_connauth_abort (s : ConnAuth) : ConnAuth := ca_set_aborted true s.

Definition ca_run_task (t : CaTask) (s : ConnAuth) : ca_outcome :=
  match t with
  | ca_fsm_run => ca_run ca_fuel s
  | ca_fsm_finish => CaRest (ca_set_next_state None s)
  | silc_connauth_timeout => ca_run ca_fuel (ca_set_aborted true s)
  end.

Fixpoint ca_task_take (t : CaTask) (l : list CaTask) : list CaTask :=
  match l with
  | [] => []
  | x :: l => if bool_decide (t = x) then l else x :: ca_task_take t l
  end.

Inductive ca_event :=
| CaEv_packet (p : SkePacket)
| CaEv_task (t : CaTask)
| CaEv_abort.

Definition ca_step (s : ConnAuth) (ev : ca_event) : ca_outcome :=
  match ev with
  | CaEv_packet p =>
      CaRest (if existsb (Z.eqb (pkt_type p)) (ca_linked s) then silc_connauth_packet_receive p s
              else s)
  | CaEv_task t =>
      if existsb (fun t' => bool_decide (t = t')) (ca_tasks s)
      then ca_run_task t (ca_set_tasks (ca_task_take t (ca_tasks s)) s) else CaRest s
  | CaEv_abort => CaRest (silc_connauth_abort s)
  end.

Fixpoint ca_steps (s : ConnAuth) (l : list ca_event) : ca_outcome :=
  match l with
  | [] => CaRest s
  | ev :: l => match ca_step s ev with CaRest s => ca_steps s l | r => r end
  end.

(** * Entry points *)

(** [schedule]: whether there is a scheduler. *)
Definition silc_connauth_alloc (schedule : bool) (ske : option SilcSKE) (timeout_secs : Z)
    (sent : list bool) : option ConnAuth :=
  match schedule, ske with
  | true, Some ske =>
      Some {| ca_ske := set_refcnt (u16 (ske_refcnt ske + 1)) ske; ca_conn_type := 0;
              ca_auth_method := 0; ca_auth_data := CA_null; ca_auth_data_len := 0;
              ca_get_auth_data := fun _ => None; ca_public_keys := None; ca_skr_status := 0;
              ca_timeout_secs := timeout_secs; ca_packet := None; ca_aborted := false;
              ca_success := false; ca_linked := []; ca_next_state := None; ca_tasks := [];
              ca_sent := sent; ca_out := [] |}
  | _, _ => None
  end.

(** What becomes of the SKE. *)
Definition silc_connauth_free (algs : SilcAlgs) (s : ConnAuth) : outcome :=
  silc_ske_free algs (ca_ske s).

Definition silc_connauth_get_ske (s : ConnAuth) : SilcSKE := ca_ske s.

Definition ca_start (types : list Z) (st : CaSt) (s : ConnAuth) : ConnAuth :=
  ca_task_add ca_fsm_run (ca_next st (ca_set_linked types s)).

Definition silc_connauth_initiator (s : ConnAuth) (conn_type auth_method : Z)
    (auth_data : CaAuthData) (auth_data_len : Z) : ConnAuth :=
  match auth_data with
  | CA_null =>
      if (auth_method =? SILC_AUTH_PASSWORD) || (auth_method =? SILC_AUTH_PUBLIC_KEY)
      then ca_completion false s
      else
        ca_start [SILC_PACKET_SUCCESS; SILC_PACKET_FAILURE] silc_connauth_st_initiator_start
          (Ca (ca_ske s) conn_type auth_method auth_data auth_data_len (ca_get_auth_data s)
             (ca_public_keys s) (ca_skr_status s) (ca_timeout_secs s) (ca_packet s) (ca_aborted s)
             (ca_success s) (ca_linked s) (ca_next_state s) (ca_tasks s) (ca_sent s) (ca_out s))
  | _ =>
      ca_start [SILC_PACKET_SUCCESS; SILC_PACKET_FAILURE] silc_connauth_st_initiator_start
        (Ca (ca_ske s) conn_type auth_method auth_data auth_data_len (ca_get_auth_data s)
           (ca_public_keys s) (ca_skr_status s) (ca_timeout_secs s) (ca_packet s) (ca_aborted s)
           (ca_success s) (ca_linked s) (ca_next_state s) (ca_tasks s) (ca_sent s) (ca_out s))
  end.

Definition silc_connauth_responder (s : ConnAuth) (get_auth_data : Z -> option CaAnswer) : ConnAuth :=
  ca_start [SILC_PACKET_CONNECTION_AUTH; SILC_PACKET_FAILURE] silc_connauth_st_responder_start
    (Ca (ca_ske s) (ca_conn_type s) (ca_auth_method s) (ca_auth_data s) (ca_auth_data_len s)
       get_auth_data (ca_public_keys s) (ca_skr_status s) (ca_timeout_secs s) (ca_packet s)
       (ca_aborted s) (ca_success s) (ca_linked s) (ca_next_state s) (ca_tasks s) (ca_sent s)
       (ca_out s)).
End connauth.
