(* ===== verification/ConnAuthSpec.v ===== *)
(** The connection authentication: its payload as a byte list, what the responder
    accepts ([ca_accepts]), the invariant of the machine under any sequence of
    events, and that both ends come to the same verdict. *)

From S2P Require Import Prelude CTypes Buffer BufFmt BufFmtSpec Id Cipher Hash Hmac Packet SkePayload Auth Algs SkeGroup SkeKeys SkeState Ske SkeFsm SkeRun ConnAuth.

(** * The payload *)

Definition ca_wire (conn_type : Z) (auth : list Z) : list Z :=
  SILC_PUT16_MSB (4 + zlen auth) ++ SILC_PUT16_MSB conn_type ++ auth.

Lemma zlen_ca_wire t auth : zlen (ca_wire t auth) = 4 + zlen auth.
Proof. unfold ca_wire. rewrite !length_app, !length_PUT16_MSB. lia. Qed.

Definition conn_type_ok (t : Z) : Prop := SILC_CONN_CLIENT <= t <= SILC_CONN_ROUTER.

(** [auth_data] of the responder: NULL without data. *)
Definition opt_auth (auth : list Z) : option (list Z) :=
  match auth with [] => None | _ => Some auth end.

Lemma parse_auth_payload_wire b t auth :
  buf_ok b -> b_data b = ca_wire t auth -> 4 + zlen auth < 65536 -> conn_type_ok t ->
  parse_auth_payload b = Some (t, opt_auth auth, zlen auth).
Proof.
  unfold conn_type_ok, parse_auth_payload, SILC_CONN_CLIENT, SILC_CONN_ROUTER.
  intros Hok Hd Hl Ht. pose proof (zlen_ca_wire t auth) as Hw. rewrite <- Hd in Hw.
  rewrite (unformat_some b _ [ONum (4 + zlen auth); ONum t] auth Hok); [|by repeat constructor|].
  2: { rewrite Hd. unfold ca_wire. rewrite !parse_U16, !u16_id by lia. done. }
  cbn [out_num nth_error]. rewrite buffer_len_ok, Hw by done.
  replace (4 + zlen auth - 4) with (zlen auth) by lia. rewrite u16_id by lia.
  case_cmps; [|destruct auth; [done|cbn in *; lia]].
  assert (Forall unf_plain [U_DATA true (zlen auth)]) as Hpl by (constructor; [cbn; lia|constructor]).
  destruct (unformat_OFFSET b 4 _ Hok ltac:(lia) Hpl) as (_ & _ & E).
  rewrite (E ltac:(lia) [OPtr (Some auth)] []).
  - destruct (_ =? -1) eqn:Hz; [apply Z.eqb_eq in Hz; cbn in Hz; lia|].
    cbn [out_ptr nth_error]. destruct auth; [cbn in *; lia|done].
  - assert (zdrop 4 (b_data b) = auth) as ->.
    { rewrite Hd. unfold ca_wire. rewrite app_assoc, zdrop_app_exact; [done|].
      rewrite length_app, !length_PUT16_MSB. done. }
    cbn [parse parse1]. unfold parse_data. rewrite ztake_all, zdrop_all by lia.
    case_cmps. done.
Qed.

Lemma parse_auth_payload_some b t ad n :
  buf_ok b -> bytes_ok (b_data b) -> parse_auth_payload b = Some (t, ad, n) ->
  exists auth, b_data b = ca_wire t auth /\ 4 + zlen auth < 65536 /\ conn_type_ok t /\
    ad = opt_auth auth /\ n = zlen auth.
Proof.
  intros Hok Hb Hp. pose proof Hp as Hp'. unfold parse_auth_payload in Hp'.
  destruct (parse [U_UI16_SHORT true; U_UI16_SHORT true] (b_data b)) as [r|] eqn:E.
  2: { assert (Forall unf_plain [U_UI16_SHORT true; U_UI16_SHORT true]) as Hpl by (by repeat constructor).
       destruct (unformat_none b _ Hok Hpl E) as [outs E'].
       rewrite E' in Hp'. discriminate Hp'. }
  apply parse_U16_inv in E as (n' & d1 & os1 & E1 & Hn' & Hb1 & E & Hr1); [|done].
  apply parse_U16_inv in E as (t' & auth & os2 & E2 & Ht' & _ & E & Hr2); [|done].
  injection E as <- Hrest. cbn [fst snd] in *. subst os1. destruct r as [outs rest].
  cbn [fst snd] in *. subst outs rest. subst d1.
  assert (zlen (b_data b) = 4 + zlen auth) as Hl
    by (rewrite E1, !length_app, !length_PUT16_MSB; lia).
  rewrite (unformat_some b _ [ONum n'; ONum t'] auth Hok) in Hp'; [|by repeat constructor|].
  2: { rewrite E1. rewrite !parse_U16, !u16_id by lia. done. }
  cbn [out_num nth_error] in Hp'. rewrite buffer_len_ok in Hp' by done.
  destruct (Z.eqb_spec (zlen (b_data b) - zlen auth) (-1)); [done|].
  destruct (Z.eqb_spec n' (zlen (b_data b))) as [Hn|]; [|done]. cbn [negb] in Hp'.
  assert (conn_type_ok t') as Ht.
  { unfold conn_type_ok. destruct (_ || _) eqn:Eo in Hp'; [done|].
    apply orb_false_iff in Eo as [? ?]. lia. }
  assert (b_data b = ca_wire t' auth) as Hw.
  { rewrite E1. unfold ca_wire. do 2 f_equal. lia. }
  rewrite (parse_auth_payload_wire b t' auth Hok Hw) in Hp by (done || lia).
  injection Hp as <- <- <-. exists auth. split_and!; done || lia.
Qed.

Section spec.
Context `{ConnPkcs}.

(** * What is signed *)

Definition connauth_bytes (ske : SilcSKE) : list Z :=
  match ske_start_payload_copy ske with
  | Some copy => ptr_bytes (ske_hash ske) ++ b_data copy
  | None => []
  end.

(** A completed key exchange has the properties, the start payload and HASH. *)
Definition ske_ready (ske : SilcSKE) : Prop :=
  (exists copy, ske_start_payload_copy ske = Some copy /\ buf_ok copy) /\
  zlen (connauth_bytes ske) < SILC_MAX_ALLOC /\
  exists prop h, ske_prop ske = Some prop /\ pr_hash prop = Some h.

Lemma connauth_data_spec ske :
  ske_ready ske -> connauth_data ske = Some (Some (silc_buffer_set (connauth_bytes ske))).
Proof.
  intros ((copy & Hc & Hok) & Hl & _). unfold connauth_data, connauth_bytes, SILC_MAX_ALLOC in *.
  rewrite Hc in *. rewrite length_app in Hl. rewrite buffer_len_ok by done.
  rewrite s32_id, buffer_alloc_size_ok by (unfold SILC_MAX_ALLOC; lia).
  assert (fmt_bytes [F_DATA (ske_hash ske) (zlen (ptr_bytes (ske_hash ske)));
    F_DATA (Some (b_data copy)) (zlen (b_data copy))] = ptr_bytes (ske_hash ske) ++ b_data copy) as E.
  { unfold fmt_bytes. cbn [map concat fmt_bytes1]. rewrite app_nil_r, mem_read_exact by done.
    f_equal. destruct (ske_hash ske); [|done]. cbn [ptr_bytes]. by rewrite mem_read_exact. }
  rewrite format_exact; rewrite ?E, ?length_app; try (done || unfold SILC_MAX_ALLOC; lia).
  repeat constructor; cbn; lia.
Qed.

(** * What the responder accepts *)

(** The signature of the first key found in the repository. *)
Definition accepts_signature (ske : SilcSKE) (a : CaAnswer) (auth : list Z) : bool :=
  match ga_repository a, auth, ske_prop ske with
  | None, _, _ => true
  | Some repository, _ :: _, Some prop =>
      match pr_public_key prop, pr_hash prop with
      | Some pk, Some h =>
          match repository pk with
          | (status, Some (Some key :: _)) =>
              (status =? SILC_SKR_OK) && silc_pkcs_verify key auth (connauth_bytes ske) (pkcs_hash h)
          | _ => false
          end
      | _, _ => false
      end
  | _, _, _ => false
  end.

(** [auth] as the authentication data of a peer, [a] being what the application
    has for its type of connection: the passphrase if there is one, else a
    signature if there is a repository, else anything. *)
Definition ca_accepts (ske : SilcSKE) (a : CaAnswer) (auth : list Z) : bool :=
  match ga_passphrase a, negb (ga_passphrase_len a =? 0) with
  | Some passphrase, true =>
      (zlen auth =? ga_passphrase_len a) && bool_decide (auth = mem_read passphrase (ga_passphrase_len a))
  | _, _ => accepts_signature ske a auth
  end.

(** Whether the responder accepts a packet. *)
Definition responder_verdict (ske : SilcSKE) (get : Z -> option CaAnswer) (p : SkePacket) : bool :=
  (pkt_type p =? SILC_PACKET_CONNECTION_AUTH) &&
  match parse_auth_payload (pkt_buffer p) with
  | Some (t, ad, _) => match get t with Some a => ca_accepts ske a (ptr_bytes ad) | None => false end
  | None => false
  end.

Definition initiator_verdict (p : SkePacket) : bool := pkt_type p =? SILC_PACKET_SUCCESS.

(** A repository answers SILC_SKR_OK only with a key, and passphrase lengths fit
    their type. *)
Definition answer_ok (a : CaAnswer) : Prop :=
  0 <= ga_passphrase_len a < 2 ^ 32 /\
  forall r pk, ga_repository a = Some r -> (r pk).1 = SILC_SKR_OK ->
    exists key l, (r pk).2 = Some (key :: l).

(** * Runs of the machine *)

Definition completions_of (os : list CaOutput) : list bool :=
  omap (fun o => match o with CA_complete b => Some b | _ => None end) os.
Definition completions (s : ConnAuth) : list bool := completions_of (ca_out s).

(** What a side that sends its verdict puts out. *)
Definition verdict_out (v : bool) : list CaOutput :=
  [CA_send (if v then SILC_PACKET_SUCCESS else SILC_PACKET_FAILURE) 0
     (SILC_PUT32_MSB (if v then SILC_AUTH_OK else SILC_AUTH_FAILED)); CA_complete v].

Definition nruns (s : ConnAuth) : nat := count_occ CaTask_eq_dec (ca_tasks s) ca_fsm_run.

(** The machine has finished and has put out [os]. *)
Record stopped (s s' : ConnAuth) (os : list CaOutput) : Prop := {
  st_ske : ca_ske s' = ca_ske s;
  st_packet p : ca_packet s' = Some p -> ca_packet s = Some p;
  st_linked : ca_linked s' = [];
  st_tasks t : In t (ca_tasks s') -> t = ca_fsm_finish;
  st_out : ca_out s' = ca_out s ++ os;
}.

Record waiting (wait : CaSt) (s s' : ConnAuth) : Prop := {
  wt_ske : ca_ske s' = ca_ske s;
  wt_get : ca_get_auth_data s' = ca_get_auth_data s;
  wt_packet : ca_packet s' = ca_packet s;
  wt_linked : ca_linked s' = ca_linked s;
  wt_next : ca_next_state s' = Some wait;
  wt_runs : nruns s' = nruns s;
  wt_finish : In ca_fsm_finish (ca_tasks s') -> In ca_fsm_finish (ca_tasks s);
  wt_out : completions s' = completions s;
}.

Lemma task_del_In t t' (s : ConnAuth) :
  In t' (ca_tasks (ca_task_del t s)) <-> In t' (ca_tasks s) /\ t' <> t.
Proof.
  unfold ca_task_del. cbn [ca_tasks ca_set_tasks]. rewrite filter_In, negb_true_iff, bool_decide_eq_false.
  naive_solver.
Qed.

Lemma finish_tasks_In (s : ConnAuth) t :
  In t (ca_tasks (ca_task_add ca_fsm_finish (ca_task_del ca_fsm_run (ca_task_del silc_connauth_timeout s)))) ->
  t = ca_fsm_finish.
Proof.
  unfold ca_task_add. cbn [ca_tasks ca_set_tasks]. rewrite in_app_iff, !task_del_In.
  intros [[[_ ?] ?]|[<-|[]]]; [by destruct t|done].
Qed.

Lemma completions_app s o :
  completions (ca_output o s) = completions s ++ completions_of [o].
Proof. unfold completions, completions_of, ca_output. cbn [ca_out ca_set_out]. apply omap_app. Qed.

(** Changes that [stopped] does not see. *)
Lemma stopped_from (s0 s s' : ConnAuth) os pre :
  stopped s s' os -> ca_ske s = ca_ske s0 -> ca_out s = ca_out s0 ++ pre ->
  (forall p, ca_packet s = Some p -> ca_packet s0 = Some p) -> stopped s0 s' (pre ++ os).
Proof.
  intros [Hs Hp Hl Ht Ho] Es Ec Ep. split; try done; [congruence|auto|]. by rewrite Ho, Ec, app_assoc.
Qed.

Lemma packet_send_eq type flags d (s : ConnAuth) :
  exists ok sent, ca_packet_send type flags d s =
    (ok, ca_output (CA_send type flags d) (ca_set_sent sent s)).
Proof. unfold ca_packet_send. by destruct (ca_sent s) as [|ok l]; eexists _, _. Qed.

Lemma run_failure f st (s : ConnAuth) :
  ca_state_fn st = ca_failure -> ca_next_state s = Some st ->
  exists s', ca_run (S f) s = CaRest s' /\
    stopped s s' (if ca_aborted s then [] else verdict_out false).
Proof.
  intros Hst Hn. cbn [ca_run]. rewrite Hn, Hst. unfold ca_failure.
  destruct (ca_aborted s); cbn [negb].
  - eexists. split; [done|]. split; try done; [apply finish_tasks_In|by rewrite app_nil_r].
  - destruct (packet_send_eq SILC_PACKET_FAILURE 0 (SILC_PUT32_MSB SILC_AUTH_FAILED) s)
      as (ok & sent & ->).
    eexists. split; [done|]. split; try done; [apply (finish_tasks_In (ca_set_linked [] s))|].
    symmetry. exact (app_assoc (ca_out s) [_] [_]).
Qed.

Lemma run_success f (s : ConnAuth) :
  ca_next_state s = Some silc_connauth_st_responder_success ->
  exists s', ca_run (S f) s = CaRest s' /\ stopped s s' (verdict_out true).
Proof.
  intros Hn. cbn [ca_run]. rewrite Hn. cbn [ca_state_fn]. unfold ca_responder_success.
  destruct (packet_send_eq SILC_PACKET_SUCCESS 0 (SILC_PUT32_MSB SILC_AUTH_OK) s)
    as (ok & sent & ->).
  eexists. split; [done|]. split; try done; [apply (finish_tasks_In (ca_set_linked [] s))|].
  symmetry. exact (app_assoc (ca_out s) [_] [_]).
Qed.

(** A state that leads to the failure state. *)
Lemma goto_failure f st failure (s s1 : ConnAuth) pre :
  ca_next_state s = Some st -> ca_state_fn st s = ca_goto failure s1 ->
  ca_state_fn failure = ca_failure ->
  ca_ske s1 = ca_ske s -> ca_out s1 = ca_out s ++ pre ->
  (forall p, ca_packet s1 = Some p -> ca_packet s = Some p) ->
  exists s', ca_run (S (S f)) s = CaRest s' /\
    stopped s s' (pre ++ if ca_aborted s1 then [] else verdict_out false).
Proof.
  intros Hn Hst Hf Es Ec Ep. destruct (run_failure f failure (ca_next failure s1) Hf eq_refl)
    as (s' & Hr & Hs). exists s'. split; [|by eapply stopped_from].
  cbn [ca_run]. rewrite Hn, Hst. exact Hr.
Qed.

(** ** The states that start *)

Definition started (wait : CaSt) (s s' : ConnAuth) : Prop :=
  (exists os, stopped s s' os /\ completions_of os = if ca_aborted s then [] else [false]) \/
  (ca_aborted s = false /\ waiting wait s s').

(** Adding the timeout. *)
Definition with_timeout (s : ConnAuth) : ConnAuth :=
  if negb (ca_timeout_secs s =? 0) then ca_task_add silc_connauth_timeout s else s.

Lemma with_timeout_waiting wait (s : ConnAuth) : waiting wait s (ca_next wait (with_timeout s)).
Proof.
  unfold with_timeout. destruct (negb _); split; try done; unfold nruns, ca_task_add; cbn.
  - rewrite count_occ_app. cbn. lia.
  - rewrite in_app_iff. intros [?|[[=]|[]]]; done.
Qed.

Lemma responder_start_run f (s : ConnAuth) :
  ca_next_state s = Some silc_connauth_st_responder_start ->
  exists s', ca_run (S (S f)) s = CaRest s' /\
    started silc_connauth_st_responder_authenticate s s'.
Proof.
  intros Hn. destruct (ca_aborted s) eqn:Ea.
  - destruct (goto_failure f _ silc_connauth_st_responder_failure s s [] Hn) as (s' & Hr & Hs);
      try done; [cbn; unfold ca_responder_start; by rewrite Ea|by rewrite app_nil_r|].
    exists s'. split; [done|]. left. eexists. split; [exact Hs|]. by rewrite Ea.
  - exists (ca_next silc_connauth_st_responder_authenticate (with_timeout s)).
    cbn [ca_run]. rewrite Hn. cbn [ca_state_fn]. unfold ca_responder_start. rewrite Ea.
    split; [done|]. right. split; [done|]. apply with_timeout_waiting.
Qed.

(** The data fits the method. *)
Definition initiator_data_ok (s : ConnAuth) : Prop :=
  (ca_auth_method s = SILC_AUTH_PASSWORD -> exists l, ca_auth_data s = CA_bytes l) /\
  (ca_auth_method s = SILC_AUTH_PUBLIC_KEY -> exists prv, ca_auth_data s = CA_private_key prv).

Lemma get_signature_defined (s : ConnAuth) prv :
  ske_ready (ca_ske s) -> silc_connauth_get_signature s prv <> None.
Proof.
  intros Hr. unfold silc_connauth_get_signature. rewrite connauth_data_spec by done.
  destruct Hr as (_ & _ & prop & h & -> & Hh). destruct (negb _); [done|]. by rewrite Hh.
Qed.

Lemma initiator_auth_data_defined (s : ConnAuth) :
  initiator_data_ok s -> ske_ready (ca_ske s) -> initiator_auth_data s <> None.
Proof.
  intros [Hp Hk] Hr. unfold initiator_auth_data.
  destruct (Z.eqb_spec (ca_auth_method s) SILC_AUTH_PASSWORD) as [E|_].
  { destruct (Hp E) as [l ->]. by destruct (silc_memdup _ _). }
  destruct (Z.eqb_spec (ca_auth_method s) SILC_AUTH_PUBLIC_KEY) as [E|_]; [|done].
  destruct (Hk E) as [prv ->]. pose proof (get_signature_defined s prv Hr).
  by destruct (silc_connauth_get_signature s prv) as [[]|].
Qed.

Lemma initiator_auth_data_timeout (s : ConnAuth) :
  initiator_auth_data (with_timeout s) = initiator_auth_data s.
Proof. unfold with_timeout. by destruct (negb _). Qed.

Lemma initiator_start_run f (s : ConnAuth) :
  ca_next_state s = Some silc_connauth_st_initiator_start ->
  initiator_data_ok s -> ske_ready (ca_ske s) ->
  exists s', ca_run (S (S f)) s = CaRest s' /\ started silc_connauth_st_initiator_result s s'.
Proof.
  intros Hn Hd Hr.
  assert (forall s1 pre, ca_state_fn silc_connauth_st_initiator_start s =
            ca_goto silc_connauth_st_initiator_failure s1 ->
          ca_ske s1 = ca_ske s -> ca_out s1 = ca_out s ++ pre -> completions_of pre = [] ->
          ca_packet s1 = ca_packet s -> ca_aborted s1 = ca_aborted s ->
          exists s', ca_run (S (S f)) s = CaRest s' /\ started silc_connauth_st_initiator_result s s')
    as Hfail.
  { intros s1 pre Hg E1 E2 E3 E4 E5.
    destruct (goto_failure f _ silc_connauth_st_initiator_failure s s1 pre Hn Hg) as (s' & ? & Hs);
      try done; [by intros p; rewrite E4|].
    exists s'. split; [done|]. left. eexists. split; [exact Hs|]. unfold completions_of in *.
    rewrite omap_app, E3, E5. by destruct (ca_aborted s). }
  assert (forall s1, ca_state_fn silc_connauth_st_initiator_start s = Some (SILC_FSM_ST_WAIT, s1) ->
          ca_aborted s = false -> waiting silc_connauth_st_initiator_result s s1 ->
          exists s', ca_run (S (S f)) s = CaRest s' /\ started silc_connauth_st_initiator_result s s')
    as Hwait.
  { intros s1 Hw Ha Hs. exists s1. cbn [ca_run]. rewrite Hn, Hw. split; [done|]. by right. }
  cbn [ca_state_fn] in Hfail, Hwait. unfold ca_initiator_start in Hfail, Hwait.
  destruct (ca_aborted s) eqn:Ea; [by apply (Hfail s []); rewrite ?app_nil_r|].
  fold (with_timeout s) in *. pose proof (initiator_auth_data_defined s Hd Hr) as Hdef.
  rewrite initiator_auth_data_timeout in *.
  assert (ca_ske (with_timeout s) = ca_ske s /\ ca_out (with_timeout s) = ca_out s ++ [] /\
          ca_packet (with_timeout s) = ca_packet s /\ ca_aborted (with_timeout s) = false)
    as (E1 & E2 & E3 & E4) by (rewrite app_nil_r; unfold with_timeout; by destruct (negb _)).
  destruct (initiator_auth_data s) as [[[[ad n] fl]|]|]; [|by apply (Hfail (with_timeout s) [])|done].
  destruct (silc_buffer_alloc_size _) as [packet|]; [|by apply (Hfail (with_timeout s) [])].
  destruct (silc_buffer_format _ _) as [ret packet'].
  destruct (packet_send_eq SILC_PACKET_CONNECTION_AUTH fl (b_data packet') (with_timeout s))
    as (ok & sent & Es). rewrite Es in *. destruct ok; cbn [negb] in *.
  - eapply Hwait; [done|done|].
    destruct (with_timeout_waiting silc_connauth_st_initiator_result s) as [? ? ? ? ? ? ? Ho].
    split; try done. rewrite <- Ho, <- (app_nil_r (completions (ca_next _ (with_timeout s)))).
    apply (completions_app (ca_set_sent sent (with_timeout s)) (CA_send _ _ _)).
  - eapply (Hfail _ [CA_send _ _ _]); try done. cbn [ca_out ca_output ca_set_out ca_set_sent].
    by rewrite E2, app_nil_r.
Qed.

(** ** The states that wait for a packet *)

Lemma initiator_result_run f (s : ConnAuth) :
  ca_next_state s = Some silc_connauth_st_initiator_result ->
  (ca_aborted s = true -> exists s', ca_run (S (S f)) s = CaRest s' /\ stopped s s' []) /\
  (forall p, ca_aborted s = false -> ca_packet s = Some p ->
   exists s', ca_run (S (S f)) s = CaRest s' /\ stopped s s' [CA_complete (initiator_verdict p)]).
Proof.
  intros Hn. split.
  - intros Ha. destruct (goto_failure f _ silc_connauth_st_initiator_failure s s [] Hn)
      as (s' & Hr & Hs); try done; [cbn; unfold ca_initiator_result; by rewrite Ha|by rewrite app_nil_r|].
    exists s'. by rewrite Ha in Hs.
  - intros p Ha Hp. cbn [ca_run]. rewrite Hn. cbn [ca_state_fn]. unfold ca_initiator_result.
    rewrite Ha, Hp. eexists. split; [done|]. split; try done.
    apply (finish_tasks_In (ca_set_linked [] s)).
Qed.

Definition packet_ok (p : SkePacket) : Prop := buf_ok (pkt_buffer p) /\ bytes_ok (b_data (pkt_buffer p)).

(** A state function's result with the packet gone, as a run to the end. *)
Lemma goto_verdict f (s s1 : ConnAuth) (v : bool) :
  ca_next_state s = Some silc_connauth_st_responder_authenticate ->
  ca_responder_authenticate s =
    ca_goto (if v then silc_connauth_st_responder_success else silc_connauth_st_responder_failure) s1 ->
  ca_ske s1 = ca_ske s -> ca_out s1 = ca_out s -> ca_packet s1 = None ->
  ca_aborted s1 = false ->
  exists s', ca_run (S (S f)) s = CaRest s' /\ stopped s s' (verdict_out v).
Proof.
  intros Hn Hg E1 E2 E3 E4. cbn [ca_run]. rewrite Hn. cbn [ca_state_fn]. rewrite Hg. unfold ca_goto.
  destruct v.
  - destruct (run_success f (ca_next silc_connauth_st_responder_success s1) eq_refl) as (s' & Hr & Hs).
    exists s'. split; [exact Hr|]. eapply (stopped_from _ _ _ _ [] Hs); try done;
      [by rewrite app_nil_r|]. intros p. cbn. by rewrite E3.
  - destruct (run_failure f silc_connauth_st_responder_failure
           (ca_next silc_connauth_st_responder_failure s1) eq_refl eq_refl)
      as (s' & Hr & Hs).
    cbn [ca_aborted ca_next ca_set_next_state] in Hs. rewrite E4 in Hs. exists s'.
    split; [exact Hr|]. eapply (stopped_from _ _ _ _ [] Hs); try done;
      [by rewrite app_nil_r|]. intros p. cbn. by rewrite E3.
Qed.

(** The search in the repository and the state that verifies the signature. *)
Lemma authenticate_pk_run f (s s0 : ConnAuth) repository pk prop h auth :
  ca_responder_authenticate s =
    ca_skr_find repository pk (ca_next silc_connauth_st_responder_authenticate_pk s0) ->
  ca_next_state s = Some silc_connauth_st_responder_authenticate ->
  ca_ske s0 = ca_ske s -> ca_out s0 = ca_out s -> ca_packet s0 = None ->
  ca_aborted s0 = false -> ca_auth_data s0 = CA_bytes auth -> ca_auth_data_len s0 = zlen auth ->
  ske_ready (ca_ske s) -> ske_prop (ca_ske s) = Some prop -> pr_hash prop = Some h ->
  ((repository pk).1 = SILC_SKR_OK -> exists key l, (repository pk).2 = Some (key :: l)) ->
  exists s', ca_run (S (S (S f))) s = CaRest s' /\
    stopped s s' (verdict_out
      match repository pk with
      | (status, Some (Some key :: _)) =>
          (status =? SILC_SKR_OK) &&
          silc_pkcs_verify key auth (connauth_bytes (ca_ske s)) (pkcs_hash h)
      | _ => false
      end).
Proof.
  intros Hg Hn E1 E2 E3 E4 E5 E6 Hrdy Hp Hh Hrep.
  unfold ca_skr_find in Hg. destruct (repository pk) as [status results]. cbn [fst snd] in Hrep.
  set (s1 := ca_set_found status results (ca_next silc_connauth_st_responder_authenticate_pk s0)) in *.
  assert (forall v : bool, ca_responder_authenticate_pk s1 =
            ca_goto (if v then silc_connauth_st_responder_success
                     else silc_connauth_st_responder_failure) s1 ->
          exists s', ca_run (S (S (S f))) s = CaRest s' /\ stopped s s' (verdict_out v)) as Hgo.
  { intros v Hv. cbn [ca_run]. rewrite Hn. cbn [ca_state_fn]. rewrite Hg.
    change (ca_next_state s1) with (Some silc_connauth_st_responder_authenticate_pk).
    cbn [ca_state_fn]. rewrite Hv. unfold ca_goto. destruct v.
    - destruct (run_success f (ca_next silc_connauth_st_responder_success s1) eq_refl)
        as (s' & Hr & Hs).
      exists s'. split; [exact Hr|]. eapply (stopped_from _ _ _ _ [] Hs); try done;
        [by rewrite app_nil_r|]. intros q. cbn. by rewrite E3.
    - destruct (run_failure f silc_connauth_st_responder_failure
           (ca_next silc_connauth_st_responder_failure s1) eq_refl eq_refl)
        as (s' & Hr & Hs).
      cbn [ca_aborted ca_next ca_set_next_state ca_set_found s1] in Hs. rewrite E4 in Hs. exists s'.
      split; [exact Hr|]. eapply (stopped_from _ _ _ _ [] Hs); try done;
        [by rewrite app_nil_r|]. intros q. cbn. by rewrite E3. }
  unfold ca_responder_authenticate_pk in Hgo. subst s1.
  cbn [ca_aborted ca_next ca_set_next_state ca_set_found ca_skr_status ca_public_keys ca_auth_data
    ca_auth_data_len] in Hgo.
  rewrite E4, E5, E6 in Hgo.
  destruct (Z.eqb_spec status SILC_SKR_OK) as [->|Hne]; cbn [negb andb] in *.
  - destruct (Hrep eq_refl) as (key & l & ->). unfold silc_connauth_verify_signature in Hgo.
    destruct key as [key|]; [|by apply (Hgo false)].
    cbn [ca_ske ca_next ca_set_next_state ca_set_found] in Hgo. rewrite E1 in Hgo.
    rewrite connauth_data_spec, Hp, Hh, mem_read_exact in Hgo by done.
    cbn [b_data silc_buffer_set] in Hgo. apply Hgo. by destruct (silc_pkcs_verify _ _ _ _).
  - destruct results as [[|[key|] l]|]; apply (Hgo false); done.
Qed.

Lemma responder_signature_run f (s s0 : ConnAuth) a auth :
  ca_responder_authenticate s = ca_responder_signature a (opt_auth auth) (zlen auth) s0 ->
  ca_next_state s = Some silc_connauth_st_responder_authenticate ->
  ca_ske s0 = ca_ske s -> ca_out s0 = ca_out s -> ca_packet s0 = None ->
  ca_aborted s0 = false -> 4 + zlen auth < 65536 ->
  ske_ready (ca_ske s) -> answer_ok a ->
  exists s', ca_run (S (S (S f))) s = CaRest s' /\
    stopped s s' (verdict_out (accepts_signature (ca_ske s) a auth)).
Proof.
  intros Hg Hn E1 E2 E3 E4 Hl Hrdy [_ Hrep].
  unfold ca_responder_signature in Hg. unfold accepts_signature.
  destruct (ga_repository a) as [repository|]; [|by apply (goto_verdict (S f) s s0 true)].
  pose proof Hrdy as (_ & _ & prop & h & Hp & Hh).
  destruct auth as [|c auth]; [by apply (goto_verdict (S f) s s0 false)|].
  cbn [opt_auth] in Hg. cbv zeta in Hg. cbn [ca_ske ca_set_auth_data] in Hg.
  rewrite E1, Hp in Hg. rewrite Hp.
  unfold silc_memdup in Hg. rewrite silc_malloc_ok_true, mem_read_exact in Hg
    by (done || unfold SILC_MAX_ALLOC; rewrite u64_id by lia; lia).
  destruct (pr_public_key prop) as [pk|].
  2: { eapply (goto_verdict (S f) s _ false); [done|exact Hg|..]; done. }
  rewrite Hh. eapply authenticate_pk_run; [exact Hg|..]; try done. by apply Hrep.
Qed.

Lemma responder_verify_run f (s s0 : ConnAuth) a auth :
  ca_responder_authenticate s = ca_responder_verify a (opt_auth auth) (zlen auth) s0 ->
  ca_next_state s = Some silc_connauth_st_responder_authenticate ->
  ca_ske s0 = ca_ske s -> ca_out s0 = ca_out s -> ca_packet s0 = None ->
  ca_aborted s0 = false -> 4 + zlen auth < 65536 ->
  ske_ready (ca_ske s) -> answer_ok a ->
  exists s', ca_run (S (S (S f))) s = CaRest s' /\ 
    stopped s s' (verdict_out (ca_accepts (ca_ske s) a auth)).
Proof.
  intros Hg Hn E1 E2 E3 E4 Hl Hrdy Ha. unfold ca_responder_verify in Hg. unfold ca_accepts.
  destruct (ga_passphrase a) as [pass|]; [|by apply (responder_signature_run f s s0)].
  destruct (Z.eqb_spec (ga_passphrase_len a) 0) as [|Hne]; cbn [negb] in *;
    [by apply (responder_signature_run f s s0)|].
  apply (goto_verdict (S f) s s0); try done. rewrite Hg. destruct Ha as [Hpl _].
  destruct auth as [|c auth]; cbn [opt_auth].
  - destruct (Z.eqb_spec (zlen (@nil Z)) (ga_passphrase_len a)) as [Hz|]; [|done]. cbn in Hz. lia.
  - destruct (Z.eqb_spec (zlen (c :: auth)) (ga_passphrase_len a)) as [Hz|]; [|done].
    rewrite (mem_read_exact (c :: auth)) by done. cbn [negb orb andb].
    by destruct (bool_decide (c :: auth = _)).
Qed.

Lemma responder_authenticate_run f (s : ConnAuth) :
  ca_next_state s = Some silc_connauth_st_responder_authenticate ->
  (ca_aborted s = true -> exists s', ca_run (S (S (S f))) s = CaRest s' /\ stopped s s' []) /\
  (forall p, ca_aborted s = false -> ca_packet s = Some p -> packet_ok p ->
   ske_ready (ca_ske s) -> (forall t a, ca_get_auth_data s t = Some a -> answer_ok a) ->
   exists s', ca_run (S (S (S f))) s = CaRest s' /\
     stopped s s' (verdict_out (responder_verdict (ca_ske s) (ca_get_auth_data s) p))).
Proof.
  intros Hn. split.
  - intros Ha. destruct (goto_failure (S f) _ silc_connauth_st_responder_failure s
      (ca_set_packet None s) [] Hn) as (s' & Hr & Hs); try done;
      [cbn; unfold ca_responder_authenticate; by rewrite Ha|by rewrite app_nil_r|].
    exists s'. cbn [ca_aborted ca_set_packet] in Hs. by rewrite Ha in Hs.
  - intros p Ha Hp [Hok Hb] Hrdy Hans. unfold responder_verdict.
    pose proof (goto_verdict (S f) s (ca_set_packet None s)) as Hgo.
    unfold ca_responder_authenticate in Hgo. rewrite Ha, Hp in Hgo.
    destruct (pkt_type p =? SILC_PACKET_CONNECTION_AUTH) eqn:Et; cbn [andb negb] in *;
      [|by apply (Hgo false)].
    destruct (parse_auth_payload (pkt_buffer p)) as [[[t ad] n]|] eqn:Ep; [|by apply (Hgo false)].
    cbn [ca_get_auth_data ca_set_packet] in Hgo.
    destruct (ca_get_auth_data s t) as [a|] eqn:Eg; [|by apply (Hgo false)].
    apply parse_auth_payload_some in Ep as Ep'; [|done..].
    destruct Ep' as (auth & _ & Hl & _ & -> & ->).
    replace (ptr_bytes (opt_auth auth)) with auth by (by destruct auth).
    apply (responder_verify_run f s (ca_set_packet None s)); try done; [|by eapply Hans].
    unfold ca_responder_authenticate. rewrite Ha, Hp, Et. cbn [negb]. rewrite Ep.
    cbn [ca_get_auth_data ca_set_packet]. by rewrite Eg.
Qed.

(** * Any sequence of events *)

(** One side of the protocol: its first state, the state in which it waits for the
    packet of the other side, the packets it is linked for and its verdict. *)
Class ConnSide (ske : SilcSKE) (get : Z -> option CaAnswer) := {
  side_start : CaSt;
  side_wait : CaSt;
  side_types : list Z;
  side_verdict : SkePacket -> bool;
  side_ok : ConnAuth -> Prop;
  side_ok_set_packet p s : side_ok s -> side_ok (ca_set_packet p s);
  side_ok_set_tasks l s : side_ok s -> side_ok (ca_set_tasks l s);
  side_ok_set_aborted b s : side_ok s -> side_ok (ca_set_aborted b s);
  side_start_run s :
    ca_next_state s = Some side_start -> ca_ske s = ske -> side_ok s ->
    exists s', ca_run ca_fuel s = CaRest s' /\ started side_wait s s';
  side_abort_run s :
    ca_next_state s = Some side_wait -> ca_aborted s = true ->
    exists s', ca_run ca_fuel s = CaRest s' /\ stopped s s' [];
  side_wait_run s p :
    ca_next_state s = Some side_wait -> ca_aborted s = false -> ca_packet s = Some p ->
    packet_ok p -> ca_ske s = ske -> ca_get_auth_data s = get ->
    exists s' os, ca_run ca_fuel s = CaRest s' /\ stopped s s' os /\
      completions_of os = [side_verdict p];
}.

Section inv.
Context {ske : SilcSKE} {get : Z -> option CaAnswer} `{ConnSide ske get}.

(** While the protocol runs: a run of the machine is queued for the start and for
    every packet that came. *)
Record live (P : SkePacket -> Prop) (s : ConnAuth) : Prop := {
  lv_ske : ca_ske s = ske;
  lv_get : ca_get_auth_data s = get;
  lv_linked : ca_linked s = side_types;
  lv_out : completions s = [];
  lv_finish : ~ In ca_fsm_finish (ca_tasks s);
  lv_packet p : ca_packet s = Some p -> P p;
  lv_state :
    (ca_next_state s = Some side_start /\ side_ok s /\ (ca_packet s = None -> (nruns s <= 1)%nat)) \/
    (ca_next_state s = Some side_wait /\ (ca_packet s = None -> nruns s = 0%nat));
}.

(** The completion callback was called once, or not at all after an abort. *)
Definition verdict_of (P : SkePacket -> Prop) (vs : list bool) : Prop :=
  vs = [] \/ vs = [false] \/ vs = [true] /\ exists p, P p /\ side_verdict p = true.

Record done_ (P : SkePacket -> Prop) (s : ConnAuth) : Prop := {
  dn_linked : ca_linked s = [];
  dn_tasks t : In t (ca_tasks s) -> t = ca_fsm_finish;
  dn_out : verdict_of P (completions s);
}.

Definition ca_inv (P : SkePacket -> Prop) (s : ConnAuth) : Prop := live P s \/ done_ P s.

Definition packets_ok (P : SkePacket -> Prop) : Prop := forall p, P p -> packet_ok p.

Lemma stopped_done P s s' v :
  completions s = [] -> stopped s s' v -> verdict_of P (completions_of v) -> done_ P s'.
Proof.
  unfold completions, completions_of. intros Hc [_ _ Hl Ht Ho] Hv. split; [done|done|].
  unfold completions, completions_of. by rewrite Ho, omap_app, Hc.
Qed.

Lemma task_take_In t t' l : In t' (ca_task_take t l) -> In t' l.
Proof. induction l as [|x l IH]; [done|]. cbn. case_bool_decide; cbn; tauto. Qed.

Lemma task_take_runs t l :
  In t l -> count_occ CaTask_eq_dec l ca_fsm_run =
    (count_occ CaTask_eq_dec (ca_task_take t l) ca_fsm_run + if decide (t = ca_fsm_run) then 1 else 0)%nat.
Proof.
  induction l as [|x l IH]; [done|]. intros Hin. cbn [ca_task_take count_occ].
  case_bool_decide as E.
  - subst x. destruct (CaTask_eq_dec t ca_fsm_run), (decide (t = ca_fsm_run)); done || lia.
  - destruct Hin as [->|Hin]; [done|]. cbn [count_occ]. rewrite (IH Hin).
    destruct (CaTask_eq_dec x ca_fsm_run); lia.
Qed.

(** The machine is run, by its task or by the timeout. *)
Lemma live_run P s :
  packets_ok P -> ca_ske s = ske -> ca_get_auth_data s = get -> ca_linked s = side_types ->
  completions s = [] -> ~ In ca_fsm_finish (ca_tasks s) -> (forall p, ca_packet s = Some p -> P p) ->
  (ca_next_state s = Some side_start /\ side_ok s /\
     (ca_packet s = None -> ca_aborted s = true \/ nruns s = 0%nat)) \/
  (ca_next_state s = Some side_wait /\ (ca_packet s = None -> ca_aborted s = true)) ->
  exists s', ca_run ca_fuel s = CaRest s' /\ ca_inv P s'.
Proof.
  intros HP Hs Hg Hl Ho Hf Hp [(Hn & Hok & Hr)|(Hn & Hr)].
  - destruct (side_start_run s Hn Hs Hok) as (s' & Hrun & [(os & Hst & Eos)|[Ha Hw]]); exists s'; (split; [done|]).
    + right. eapply stopped_done; try done. rewrite Eos.
      destruct (ca_aborted s); [by left|by right; left].
    + left. destruct Hw as [Wske Wget Wpacket Wlinked Wnext Wruns Wfinish Wout].
      split; try congruence; [auto|intros p; rewrite Wpacket; apply Hp|]. right. split; [done|].
      rewrite Wpacket, Wruns. intros E. destruct (Hr E); congruence.
  - destruct (ca_aborted s) eqn:Ea.
    + destruct (side_abort_run s Hn Ea) as (s' & ? & ?). exists s'. split; [done|]. right.
      eapply stopped_done; try done. by left.
    + destruct (ca_packet s) as [p|] eqn:Ep; [|by specialize (Hr eq_refl)].
      destruct (side_wait_run s p Hn Ea Ep (HP p (Hp p eq_refl)) Hs Hg) as (s' & os & ? & ? & Eos).
      exists s'. split; [done|]. right. eapply stopped_done; try done. rewrite Eos.
      destruct (side_verdict p) eqn:Ev; [|by right; left]. right; right. split; [done|]. by exists p; auto.
Qed.

Lemma live_task P s t :
  packets_ok P -> live P s -> In t (ca_tasks s) ->
  exists s', ca_run_task t (ca_set_tasks (ca_task_take t (ca_tasks s)) s) = CaRest s' /\ ca_inv P s'.
Proof.
  intros HP [Hs Hg Hl Ho Hf Hp Hst] Hin.
  pose proof (task_take_runs t (ca_tasks s) Hin) as Hr.
  assert (~ In ca_fsm_finish (ca_task_take t (ca_tasks s))) as Hf'
    by (intros Hx; by apply Hf, (task_take_In t)).
  unfold nruns in Hst. destruct t; cbn [ca_run_task].
  - apply live_run; try done. cbn [ca_next_state ca_packet ca_set_tasks ca_aborted].
    rewrite decide_True in Hr by done. unfold nruns. cbn [ca_tasks ca_set_tasks].
    destruct Hst as [(? & Hok & Hx)|(? & Hx)]; [left|right].
    + split_and!; [done|by apply side_ok_set_tasks|]. intros Hn. specialize (Hx Hn). right. lia.
    + split; [done|]. intros Hn. specialize (Hx Hn). lia.
  - done.
  - apply live_run; try done. rewrite decide_False in Hr by done.
    destruct Hst as [(? & Hok & _)|(? & _)]; [left|by right].
    split_and!; [done|by apply side_ok_set_aborted, side_ok_set_tasks|by left].
Qed.

(** Every event keeps the invariant; a packet becomes one that has come. *)
Lemma ca_step_inv P s ev :
  packets_ok P -> ca_inv P s ->
  (forall p, ev = CaEv_packet p -> P p) ->
  exists s', ca_step s ev = CaRest s' /\ ca_inv P s'.
Proof.
  intros HP Hinv Hev. destruct ev as [p|t|]; cbn [ca_step].
  - eexists. split; [done|]. destruct (existsb _ _) eqn:El; [|done].
    destruct Hinv as [Hl|[Hl _ _]]; [|by rewrite Hl in El]. left.
    destruct Hl as [Hs Hg Hl Ho Hf _ Hst]. split; try done.
    + unfold silc_connauth_packet_receive, ca_task_add. cbn. rewrite in_app_iff.
      intros [?|[[=]|[]]]. done.
    + cbn. intros q [= <-]. by apply Hev.
    + destruct Hst as [(? & Hok & _)|(? & _)]; [left|by right].
      split_and!; [done|by apply side_ok_set_tasks, side_ok_set_packet|done].
  - destruct (existsb _ _) eqn:Et; [|by eexists].
    apply existsb_exists in Et as (t' & Hin & E%bool_decide_eq_true). subst t'.
    destruct Hinv as [Hl|[Hl Ht Ho]]; [by apply live_task|].
    pose proof (Ht t Hin) as ->. cbn [ca_run_task]. eexists. split; [done|]. right. split; [done| |done].
    intros t' Hin'. by apply Ht, (task_take_In ca_fsm_finish).
  - eexists. split; [done|]. destruct Hinv as [Hl|[Hl Ht Ho]]; [left|by right].
    destruct Hl as [Hs Hg Hl Ho Hf Hp Hst]. split; try done.
    destruct Hst as [(? & Hok & ?)|?]; [left|by right].
    split_and!; [done|by apply side_ok_set_aborted|done].
Qed.

Lemma ca_steps_inv P s evs :
  packets_ok P -> ca_inv P s -> (forall p, In (CaEv_packet p) evs -> P p) ->
  exists s', ca_steps s evs = CaRest s' /\ ca_inv P s'.
Proof.
  intros HP. revert s. induction evs as [|ev evs IH]; intros s Hinv Hev; [by exists s|].
  destruct (ca_step_inv P s ev HP Hinv) as (s' & Hs & Hinv').
  { intros p ->. apply Hev. by left. }
  cbn [ca_steps]. rewrite Hs. apply IH; [done|]. intros p Hp. apply Hev. by right.
Qed.
End inv.

(** ** The two sides *)

Lemma ready_refcnt n ske : ske_ready ske -> ske_ready (set_refcnt n ske).
Proof. done. Qed.

#[refine] Definition responder_side (ske : SilcSKE) (get : Z -> option CaAnswer)
    (Hrdy : ske_ready ske) (Hans : forall t a, get t = Some a -> answer_ok a) : ConnSide ske get :=
  {| side_start := silc_connauth_st_responder_start;
     side_wait := silc_connauth_st_responder_authenticate;
     side_types := [SILC_PACKET_CONNECTION_AUTH; SILC_PACKET_FAILURE];
     side_verdict := responder_verdict ske get;
     side_ok := fun _ => True |}.
Proof.
  1-3: done.
  - intros s Hn _ _. by apply (responder_start_run 3).
  - intros s Hn. by apply (responder_authenticate_run 2).
  - intros s p Hn Ha Hp Hok Hs Hg.
    destruct (responder_authenticate_run 2 s Hn) as [_ Hr].
    destruct (Hr p Ha Hp Hok) as (s' & Hrun & Hst); [by rewrite Hs|by rewrite Hg|].
    rewrite Hs, Hg in Hst. by exists s', (verdict_out (responder_verdict ske get p)).
Defined.

#[refine] Definition initiator_side (ske : SilcSKE) (get : Z -> option CaAnswer)
    (Hrdy : ske_ready ske) : ConnSide ske get :=
  {| side_start := silc_connauth_st_initiator_start;
     side_wait := silc_connauth_st_initiator_result;
     side_types := [SILC_PACKET_SUCCESS; SILC_PACKET_FAILURE];
     side_verdict := initiator_verdict;
     side_ok := initiator_data_ok |}.
Proof.
  1-3: done.
  - intros s Hn Hs Hok. apply (initiator_start_run 3); try done. by rewrite Hs.
  - intros s Hn. by apply (initiator_result_run 3).
  - intros s p Hn Ha Hp _ _ _. destruct (initiator_result_run 3 s Hn) as [_ Hr].
    destruct (Hr p Ha Hp) as (s' & Hrun & Hst). by exists s', [CA_complete (initiator_verdict p)].
Defined.

(** The packets of a run. *)
Definition came (evs : list ca_event) (p : SkePacket) : Prop := In (CaEv_packet p) evs.

Lemma responder_verdict_true ske get p :
  packet_ok p -> responder_verdict ske get p = true ->
  pkt_type p = SILC_PACKET_CONNECTION_AUTH /\
  exists t auth a, b_data (pkt_buffer p) = ca_wire t auth /\ conn_type_ok t /\ get t = Some a /\
    ca_accepts ske a auth = true.
Proof.
  intros [Hok Hb] Hv. unfold responder_verdict in Hv. apply andb_true_iff in Hv as [Ht Hv].
  split; [lia|]. destruct (parse_auth_payload (pkt_buffer p)) as [[[t ad] n]|] eqn:Ep; [|done].
  apply parse_auth_payload_some in Ep as (auth & Hd & _ & Ht' & -> & _); [|done..].
  destruct (get t) as [a|] eqn:Eg; [|done].
  replace (ptr_bytes (opt_auth auth)) with auth in Hv by (by destruct auth).
  by exists t, auth, a.
Qed.
End spec.

(** * Two ends *)

Section ends.
Context `{ConnPkcs}.

(** The packets in what a side has put out, and their arrival at the other side. *)
Definition sent_packets (os : list CaOutput) : list SkePacket :=
  omap (fun o => match o with
                 | CA_send type _ d =>
                     Some {| pkt_type := type; pkt_buffer := silc_buffer_set d; pkt_src_id := [];
                             pkt_src_id_len := 0; pkt_src_id_type := 0 |}
                 | _ => None
                 end) os.

Definition deliver (ps : list SkePacket) : list ca_event :=
  concat (map (fun p => [CaEv_packet p; CaEv_task ca_fsm_run]) ps).

(** What the completion callbacks of initiator and responder get when the packets
    of each arrive at the other. *)
Definition connauth_exchange (i r : ConnAuth) : option (list bool * list bool) :=
  match ca_steps i [CaEv_task ca_fsm_run] with
  | CaRest i =>
      match ca_steps r (CaEv_task ca_fsm_run :: deliver (sent_packets (ca_out i))) with
      | CaRest r =>
          match ca_steps i (deliver (sent_packets (ca_out r))) with
          | CaRest i => Some (completions i, completions r)
          | _ => None
          end
      | _ => None
      end
  | _ => None
  end.

Lemma task_run_step (s : ConnAuth) :
  In ca_fsm_run (ca_tasks s) ->
  ca_step s (CaEv_task ca_fsm_run) =
  ca_run ca_fuel (ca_set_tasks (ca_task_take ca_fsm_run (ca_tasks s)) s).
Proof.
  intros Hin. cbn [ca_step]. assert (existsb (fun t' => bool_decide (ca_fsm_run = t')) (ca_tasks s) = true)
    as ->; [|done]. apply existsb_exists. exists ca_fsm_run. split; [done|]. by apply bool_decide_eq_true_2.
Qed.

Lemma packet_step (s : ConnAuth) p :
  In (pkt_type p) (ca_linked s) -> ca_step s (CaEv_packet p) = CaRest (silc_connauth_packet_receive p s).
Proof.
  intros Hin. cbn [ca_step]. assert (existsb (Z.eqb (pkt_type p)) (ca_linked s) = true) as ->; [|done].
  apply existsb_exists. exists (pkt_type p). split; [done|lia].
Qed.

(** The first run of the initiator, when it can send. *)
Lemma initiator_first_run f (s : ConnAuth) ad n fl :
  ca_next_state s = Some silc_connauth_st_initiator_start -> ca_aborted s = false ->
  ca_sent s = [] -> initiator_auth_data s = Some (Some (ad, n, fl)) ->
  n = zlen (ptr_bytes ad) -> 4 + n < 65536 -> conn_type_ok (ca_conn_type s) ->
  exists s', ca_run (S f) s = CaRest s' /\
    ca_out s' = ca_out s ++ [CA_send SILC_PACKET_CONNECTION_AUTH fl
                               (ca_wire (ca_conn_type s) (ptr_bytes ad))] /\
    ca_next_state s' = Some silc_connauth_st_initiator_result /\ ca_aborted s' = false /\
    ca_linked s' = ca_linked s.
Proof.
  unfold conn_type_ok, SILC_CONN_CLIENT, SILC_CONN_ROUTER. intros Hn Ha Hs Hd En Hl Ht.
  cbn [ca_run]. rewrite Hn. cbn [ca_state_fn]. unfold ca_initiator_start. rewrite Ha.
  fold (with_timeout s). rewrite initiator_auth_data_timeout, Hd.
  rewrite s32_id, buffer_alloc_size_ok by (unfold SILC_MAX_ALLOC; lia).
  assert (fmt_bytes [F_UI16_SHORT (4 + n); F_UI16_SHORT (ca_conn_type (with_timeout s)); F_DATA ad n] =
    ca_wire (ca_conn_type s) (ptr_bytes ad)) as E.
  { replace (ca_conn_type (with_timeout s)) with (ca_conn_type s)
      by (unfold with_timeout; by destruct (negb _)).
    unfold fmt_bytes, ca_wire. cbn [map concat fmt_bytes1]. rewrite !u16_id, app_nil_r by lia. subst n.
    destruct ad; [|done]. cbn [ptr_bytes]. by rewrite mem_read_exact. }
  rewrite format_exact; rewrite ?E, ?zlen_ca_wire; try (done || unfold SILC_MAX_ALLOC; lia).
  2: { repeat constructor. cbn. lia. }
  unfold ca_packet_send. replace (ca_sent (with_timeout s)) with (@nil bool)
    by (rewrite <- Hs; unfold with_timeout; by destruct (negb _)).
  cbn [negb]. eexists. split; [done|]. cbn. unfold with_timeout. by destruct (negb _).
Qed.

(** The responder from its start to its verdict on a packet. *)
Lemma responder_answer ske get timeout_secs sent s p :
  silc_connauth_alloc true (Some ske) timeout_secs sent = Some s ->
  ske_ready ske -> (forall t a, get t = Some a -> answer_ok a) ->
  packet_ok p -> pkt_type p = SILC_PACKET_CONNECTION_AUTH ->
  exists r, ca_steps (silc_connauth_responder s get)
              [CaEv_task ca_fsm_run; CaEv_packet p; CaEv_task ca_fsm_run] = CaRest r /\
    ca_out r = verdict_out (responder_verdict ske get p).
Proof.
  intros [= <-] Hrdy Hans Hp Ht. set (r0 := silc_connauth_responder _ get). cbn [ca_steps].
  rewrite task_run_step by (by left). set (r1 := ca_set_tasks _ r0).
  set (r2 := ca_next silc_connauth_st_responder_authenticate (with_timeout r1)).
  change (ca_run ca_fuel r1) with (CaRest r2).
  assert (ca_linked r2 = [SILC_PACKET_CONNECTION_AUTH; SILC_PACKET_FAILURE] /\ ca_aborted r2 = false /\
    ca_out r2 = [] /\ ca_get_auth_data r2 = get /\ ca_ske r2 = set_refcnt (u16 (ske_refcnt ske + 1)) ske)
    as (El & Ea & Eo & Eg & Es) by (unfold r2, with_timeout; by destruct (negb _)).
  rewrite packet_step by (rewrite El, Ht; by left).
  rewrite task_run_step by (apply in_or_app; right; by left).
  set (r4 := ca_set_tasks _ (silc_connauth_packet_receive p r2)).
  destruct (responder_authenticate_run 2 r4 eq_refl) as [_ Hr].
  destruct (Hr p Ea eq_refl Hp) as (r' & Hrun & Hst).
  { change (ca_ske r4) with (ca_ske r2). by rewrite Es. }
  { change (ca_get_auth_data r4) with (ca_get_auth_data r2). by rewrite Eg. }
  change 5%nat with ca_fuel in Hrun. rewrite Hrun. exists r'. split; [done|].
  rewrite (st_out _ _ _ Hst). change (ca_out r4) with (ca_out r2).
  change (ca_ske r4) with (ca_ske r2). change (ca_get_auth_data r4) with (ca_get_auth_data r2).
  by rewrite Eo, Eg, Es.
Qed.

Lemma initiator_answer (i : ConnAuth) q :
  ca_next_state i = Some silc_connauth_st_initiator_result -> ca_aborted i = false ->
  In (pkt_type q) (ca_linked i) ->
  exists i', ca_steps i [CaEv_packet q; CaEv_task ca_fsm_run] = CaRest i' /\
    ca_out i' = ca_out i ++ [CA_complete (initiator_verdict q)].
Proof.
  intros Hn Ha Hl. cbn [ca_steps]. rewrite packet_step by done.
  rewrite task_run_step by (apply in_or_app; right; by left).
  set (i2 := ca_set_tasks _ (silc_connauth_packet_receive q i)).
  destruct (initiator_result_run 3 i2 Hn) as [_ Hi].
  destruct (Hi q Ha eq_refl) as (i' & Hrun & Hst). change 5%nat with ca_fuel in Hrun.
  rewrite Hrun. exists i'. split; [done|]. by rewrite (st_out _ _ _ Hst).
Qed.

(** Both ends come to the verdict of the responder on the data of the initiator. *)
Lemma connauth_exchange_verdict ske get timeout_secs sent (i s : ConnAuth) ad n fl :
  ca_next_state i = Some silc_connauth_st_initiator_start -> ca_aborted i = false ->
  ca_sent i = [] -> ca_out i = [] -> In ca_fsm_run (ca_tasks i) ->
  ca_linked i = [SILC_PACKET_SUCCESS; SILC_PACKET_FAILURE] ->
  initiator_auth_data i = Some (Some (ad, n, fl)) ->
  n = zlen (ptr_bytes ad) -> bytes_ok (ptr_bytes ad) -> 4 + n < 65536 ->
  conn_type_ok (ca_conn_type i) ->
  ske_ready ske -> (forall t a, get t = Some a -> answer_ok a) ->
  silc_connauth_alloc true (Some ske) timeout_secs sent = Some s ->
  let v := match get (ca_conn_type i) with
           | Some a => ca_accepts ske a (ptr_bytes ad)
           | None => false
           end in
  connauth_exchange i (silc_connauth_responder s get) = Some ([v], [v]).
Proof.
  intros Hn Ha Hs Ho Hin Hli Hd En Hb Hl Ht Hrdy Hans Hall v.
  destruct (initiator_first_run 4 (ca_set_tasks (ca_task_take ca_fsm_run (ca_tasks i)) i) ad n fl)
    as (i1 & Hr1 & Ho1 & Hn1 & Ha1 & Hl1); try done.
  assert (ca_steps i [CaEv_task ca_fsm_run] = CaRest i1) as Hi1
    by (cbn [ca_steps]; rewrite task_run_step by done; change ca_fuel with 5%nat; by rewrite Hr1).
  unfold connauth_exchange. rewrite Hi1.
  cbn [ca_out ca_linked ca_conn_type ca_set_tasks] in Ho1, Hl1. rewrite Ho in Ho1.
  set (p := {| pkt_type := SILC_PACKET_CONNECTION_AUTH;
               pkt_buffer := silc_buffer_set (ca_wire (ca_conn_type i) (ptr_bytes ad));
               pkt_src_id := []; pkt_src_id_len := 0; pkt_src_id_type := 0 |}).
  assert (packet_ok p) as Hp.
  { split; cbn [pkt_buffer p]; [apply buffer_set_ok|cbn [b_data silc_buffer_set]].
    - rewrite zlen_ca_wire. unfold SILC_MAX_ALLOC. lia.
    - unfold ca_wire. rewrite !Forall_app. by repeat split; try apply bytes_ok_PUT16_MSB. }
  destruct (responder_answer ske get timeout_secs sent s p Hall Hrdy Hans Hp eq_refl) as (r' & Hrun & Hor).
  assert (responder_verdict ske get p = v) as Ev.
  { unfold responder_verdict. cbn [pkt_type p]. rewrite Z.eqb_refl. cbn [andb].
    rewrite (parse_auth_payload_wire _ (ca_conn_type i) (ptr_bytes ad)); [|apply Hp|done|lia|done].
    unfold v. destruct (get _); [|done].
    by replace (ptr_bytes (opt_auth (ptr_bytes ad))) with (ptr_bytes ad) by (by destruct (ptr_bytes ad)). }
  assert (deliver (sent_packets (ca_out i1)) = [CaEv_packet p; CaEv_task ca_fsm_run]) as ->
    by (by rewrite Ho1).
  rewrite Hrun. set (code := if v then SILC_AUTH_OK else SILC_AUTH_FAILED).
  set (q := {| pkt_type := if v then SILC_PACKET_SUCCESS else SILC_PACKET_FAILURE;
               pkt_buffer := silc_buffer_set (SILC_PUT32_MSB code);
               pkt_src_id := []; pkt_src_id_len := 0; pkt_src_id_type := 0 |}).
  assert (deliver (sent_packets (ca_out r')) = [CaEv_packet q; CaEv_task ca_fsm_run]) as ->
    by (by rewrite Hor, Ev).
  destruct (initiator_answer i1 q Hn1 Ha1) as (i' & Hruni & Hoi).
  { rewrite Hl1, Hli. destruct v; cbn; auto. }
  rewrite Hruni. unfold completions. rewrite Hor, Ev, Hoi, Ho1.
  unfold initiator_verdict. by destruct v.
Qed.

(** ** The data of the two methods *)

Lemma initiator_password_data (s : ConnAuth) l :
  ca_auth_method s = SILC_AUTH_PASSWORD -> ca_auth_data s = CA_bytes l ->
  ca_auth_data_len s = zlen l -> zlen l < 65532 ->
  initiator_auth_data s = Some (Some (Some l, zlen l, SILC_PACKET_FLAG_LONG_PAD)).
Proof.
  intros Hm Hd Hl Hs. unfold initiator_auth_data. rewrite Hm, Hd, Hl, Z.eqb_refl.
  unfold silc_memdup. rewrite silc_malloc_ok_true, mem_read_exact
    by (done || unfold SILC_MAX_ALLOC; rewrite u64_id by lia; lia). done.
Qed.

Lemma initiator_signature_data (s : ConnAuth) prv prop h sig :
  ca_auth_method s = SILC_AUTH_PUBLIC_KEY -> ca_auth_data s = CA_private_key prv ->
  ske_ready (ca_ske s) -> ske_prop (ca_ske s) = Some prop -> pr_hash prop = Some h ->
  0 <= silc_pkcs_private_key_get_len prv < 65536 ->
  silc_pkcs_sign prv (connauth_bytes (ca_ske s))
    ((silc_pkcs_private_key_get_len prv + 7) / 8 + 1) (pkcs_hash h) = Some sig ->
  initiator_auth_data s = Some (Some (Some sig, zlen sig, 0)).
Proof.
  intros Hm Hd Hrdy Hp Hh Hl Hs. unfold initiator_auth_data. rewrite Hm, Hd. cbn [Z.eqb Pos.eqb].
  unfold silc_connauth_get_signature. rewrite connauth_data_spec, Hp by done.
  rewrite u32_id by lia. rewrite silc_calloc_ok_true
    by (unfold SILC_MAX_ALLOC; Z.to_euclidean_division_equations; lia).
  cbn [negb b_data silc_buffer_set]. by rewrite Hh, Hs.
Qed.

Lemma accepts_passphrase ske a q l :
  ga_passphrase a = Some q -> ga_passphrase_len a = zlen q -> q <> [] ->
  ca_accepts ske a l = bool_decide (l = q).
Proof.
  intros Hq Hl Hne. unfold ca_accepts. rewrite Hq, Hl, mem_read_exact by done.
  destruct (Z.eqb_spec (zlen q) 0); [destruct q; [done|cbn in *; lia]|]. cbn [negb].
  destruct (Z.eqb_spec (zlen l) (zlen q)); [done|]. cbn [andb]. symmetry.
  apply bool_decide_eq_false_2. by intros ->.
Qed.
End ends.

(** * The theorems *)

(** C10. Whatever packets, tasks and aborts come in whatever order, a responder that
    has completed a key exchange never uses a NULL pointer and calls the completion
    callback at most once, and only with TRUE when a Connection Auth Payload came
    whose data is accepted: the passphrase that the application has for the
    connection type of the payload, or without one a signature of HASH and the
    start payload by the first key that the repository has for the peer's public
    key, or anything when the application has neither. *)
Theorem silc_connauth_responder_authentic `{ConnPkcs} ske timeout_secs sent s get evs :
  ske_ready ske -> (forall t a, get t = Some a -> answer_ok a) ->
  (forall p, came evs p -> packet_ok p) ->
  silc_connauth_alloc true (Some ske) timeout_secs sent = Some s ->
  exists s', ca_steps (silc_connauth_responder s get) evs = CaRest s' /\
    (completions s' = [] \/ completions s' = [false] \/
     completions s' = [true] /\ exists p t auth a,
       came evs p /\ pkt_type p = SILC_PACKET_CONNECTION_AUTH /\
       b_data (pkt_buffer p) = ca_wire t auth /\ conn_type_ok t /\ get t = Some a /\
       ca_accepts ske a auth = true).
Proof.
  intros Hrdy Hans Hev Ha. set (ske' := set_refcnt (u16 (ske_refcnt ske + 1)) ske).
  pose (side := responder_side ske' get Hrdy Hans).
  assert (ca_inv (came evs) (silc_connauth_responder s get)) as Hinit.
  { injection Ha as <-. left. split; try done; cbn; [by intros [[=]|[]]|]. by left. }
  destruct (ca_steps_inv (came evs) _ evs Hev Hinit) as (s' & Hrun & Hinv); [done|].
  exists s'. split; [exact Hrun|]. destruct Hinv as [Hl|[_ _ Ho]]; [left; apply Hl|].
  destruct Ho as [|[|(Ho & p & Hp & Hv)]]; [by left|by right; left|]. right; right. split; [done|].
  apply responder_verdict_true in Hv as (Ht & t & auth & a & ?); [|by apply Hev].
  by exists p, t, auth, a.
Qed.

(** Of an initiator: whatever comes in whatever order, it
    never uses a NULL pointer, calls the completion callback at most once, and with
    TRUE only when a SUCCESS packet came. *)
Lemma silc_connauth_initiator_completion `{ConnPkcs} ske timeout_secs sent s t method data len evs :
  ske_ready ske ->
  (method = SILC_AUTH_PASSWORD -> exists l, data = CA_bytes l) ->
  (method = SILC_AUTH_PUBLIC_KEY -> exists prv, data = CA_private_key prv) ->
  (forall p, came evs p -> packet_ok p) ->
  silc_connauth_alloc true (Some ske) timeout_secs sent = Some s ->
  exists s', ca_steps (silc_connauth_initiator s t method data len) evs = CaRest s' /\
    (completions s' = [] \/ completions s' = [false] \/
     completions s' = [true] /\ exists p, came evs p /\ pkt_type p = SILC_PACKET_SUCCESS).
Proof.
  intros Hrdy Hpw Hpk Hev [= <-]. set (ske' := set_refcnt (u16 (ske_refcnt ske + 1)) ske).
  pose (side := initiator_side ske' (fun _ => None) Hrdy).
  match goal with |- exists s', ca_steps ?s0 _ = _ /\ _ => assert (ca_inv (came evs) s0) as Hinit end.
  { assert (forall d, d = data -> ca_inv (came evs)
      (ca_start [SILC_PACKET_SUCCESS; SILC_PACKET_FAILURE] silc_connauth_st_initiator_start
        (Ca ske' t method d len (fun _ => None) None 0 timeout_secs None false false [] None []
           sent []))) as Hgo.
    { intros d ->. left. split; try done; cbn; [by intros [[=]|[]]|]. left. by split_and!. }
    destruct data as [|l|prv]; cbn [silc_connauth_initiator]; [|by apply Hgo..].
    destruct (_ || _) eqn:E; [|by apply Hgo]. right. split; try done. by right; left. }
  destruct (ca_steps_inv (came evs) _ evs Hev Hinit) as (s' & Hrun & Hinv); [done|].
  exists s'. split; [exact Hrun|]. destruct Hinv as [Hl|[_ _ Ho]]; [left; apply Hl|].
  destruct Ho as [|[|(Ho & p & Hp & Hv)]]; [by left|by right; left|]. right; right. split; [done|].
  exists p. split; [done|]. by apply Z.eqb_eq.
Qed.

(** C11. Two ends with the same HASH and start payload: with a passphrase both
    completion callbacks get TRUE exactly when the responder has that passphrase
    for the connection type, FALSE otherwise; with a private key both get TRUE when
    the responder's repository finds the public key of the pair first. *)
Theorem silc_connauth_exchange_outcome `{ConnPkcs} `{!PkcsLaws _} ski skr ti tr i r t get :
  ske_ready ski -> ske_ready skr ->
  silc_connauth_alloc true (Some ski) ti [] = Some i ->
  silc_connauth_alloc true (Some skr) tr [] = Some r ->
  conn_type_ok t -> (forall t a, get t = Some a -> answer_ok a) ->
  (forall l q a, bytes_ok l -> zlen l < 65532 -> get t = Some a ->
     ga_passphrase a = Some q -> ga_passphrase_len a = zlen q -> q <> [] ->
     connauth_exchange (silc_connauth_initiator i t SILC_AUTH_PASSWORD (CA_bytes l) (zlen l))
       (silc_connauth_responder r get) =
     Some ([bool_decide (l = q)], [bool_decide (l = q)])) /\
  (forall prv pub prop h sig a rep rprop rh pk keys,
     key_pair pub prv -> 0 <= silc_pkcs_private_key_get_len prv < 65536 ->
     ske_prop ski = Some prop -> pr_hash prop = Some h ->
     silc_pkcs_sign prv (connauth_bytes ski)
       ((silc_pkcs_private_key_get_len prv + 7) / 8 + 1) (pkcs_hash h) = Some sig ->
     connauth_bytes skr = connauth_bytes ski ->
     ske_prop skr = Some rprop -> pr_hash rprop = Some rh -> pkcs_hash rh = pkcs_hash h ->
     pr_public_key rprop = Some pk ->
     get t = Some a -> ga_passphrase a = None -> ga_repository a = Some rep ->
     rep pk = (SILC_SKR_OK, Some (Some pub :: keys)) ->
     connauth_exchange (silc_connauth_initiator i t SILC_AUTH_PUBLIC_KEY (CA_private_key prv) 0)
       (silc_connauth_responder r get) = Some ([true], [true])).
Proof.
  intros Hri Hrr [= <-] Hr Ht Hans. split.
  - intros l q a Hb Hl Hg Hq Hlen Hne.
    rewrite (connauth_exchange_verdict skr get tr [] _ r (Some l) (zlen l) SILC_PACKET_FLAG_LONG_PAD);
      try (done || cbn; lia); [|by left|by apply initiator_password_data].
    match goal with |- context [ca_conn_type ?x] => change (ca_conn_type x) with t end. rewrite Hg.
    by rewrite (accepts_passphrase skr a q l).
  - intros prv pub prop h sig a rep rprop rh pk keys Hkp Hkl Hp Hh Hsig Hc Hrp Hrh Heq Hpk Hg Hpass Hrep Hf.
    destruct (pkcs_sign_bytes _ _ _ _ _ Hsig) as [Hb Hl].
    assert ((silc_pkcs_private_key_get_len prv + 7) / 8 + 1 <= 8193) as Hn
      by (Z.to_euclidean_division_equations; lia).
    rewrite (connauth_exchange_verdict skr get tr [] _ r (Some sig) (zlen sig) 0);
      try (done || cbn [ptr_bytes]; lia); [|by left|by eapply initiator_signature_data].
    match goal with |- context [ca_conn_type ?x] => change (ca_conn_type x) with t end. rewrite Hg.
    cbn [ptr_bytes]. assert (ca_accepts skr a sig = true) as ->; [|done].
    unfold ca_accepts. rewrite Hpass. unfold accepts_signature. rewrite Hrep, Hrp, Hpk, Hrh, Hf, Hc, Heq.
    destruct sig as [|c sig]; [cbn in Hl; lia|]. rewrite Z.eqb_refl. by eapply pkcs_verify_sign.
Qed.

(** * Runs *)

#[local] Existing Instance toy_pkcs.
#[local] Existing Instance toy_pkcs_laws.

#[local] Instance toy_ske_pkcs : SkePkcs toy_pkcs :=
  {| silc_pkcs_sign_hash (k : SilcPrivateKey) d n h := silc_pkcs_sign k d n tt;
     silc_pkcs_verify_hash (k : SilcPublicKey) s d := silc_pkcs_verify k s d tt;
     silc_pkcs_get_type _ := 1; silc_pkcs_public_key_alloc t k := None |}.

#[local] Instance toy_conn_pkcs : ConnPkcs toy_ske_pkcs :=
  {| pkcs_hash _ := tt; silc_pkcs_private_key_get_len _ := 16 |}.

(** A completed exchange with a peer whose public key is 7. *)
#[local] Definition completed_ske : SilcSKE :=
  let conf := {| cf_version := None; cf_flags := 0; cf_session_port := 0; cf_public_key := Some (7 : Z);
                 cf_private_key := Some (7 : Z); cf_verify_key := false; cf_completed := true;
                 cf_repository := false; cf_responder := true; cf_rekeying := false;
                 cf_no_acks := false; cf_timeout := 30; cf_probe_timeout := 30 |} in
  let prop := {| pr_flags := 0; pr_group := None; pr_cipher := None; pr_hmac := None;
                 pr_hash := Some sha1_object; pr_public_key := Some (7 : Z); pr_remote_port := 0 |} in
  let s := ske_new conf (Some prop) None None None []
             {| ans_sent := []; ans_verified := []; ans_found := [] |}
             {| stm_udp := false; stm_linked := false; stm_send_key := None; stm_receive_key := None;
                stm_hmac_send := None; stm_hmac_receive := None |} in
  set_hash (Some [1; 2; 3]) (set_start_payload_copy (Some (silc_buffer_set [4; 5])) s).

(** Clients have a passphrase, servers a key. *)
#[local] Definition get_auth (t : Z) : option CaAnswer :=
  if t =? 1 then Some {| ga_passphrase := Some [112; 119]; ga_passphrase_len := 2; ga_repository := None |}
  else if t =? 2 then
    Some {| ga_passphrase := None; ga_passphrase_len := 0;
            ga_repository := Some (fun pk => (SILC_SKR_OK, Some [Some pk])) |}
  else None.

Lemma completed_ske_ready : ske_ready completed_ske.
Proof.
  split; [by eexists|]. split; [done|]. by eexists _, _.
Qed.

Lemma get_auth_ok t a : get_auth t = Some a -> answer_ok a.
Proof.
  unfold get_auth. destruct (t =? 1); [intros [= <-]; by split|].
  destruct (t =? 2); [|done]. intros [= <-]. split; [done|]. cbn. intros r pk [= <-] _. by eexists _, _.
Qed.

#[local] Definition conn_packet (type : Z) (d : list Z) : ca_event :=
  CaEv_packet {| pkt_type := type; pkt_buffer := silc_buffer_set d; pkt_src_id := [];
                 pkt_src_id_len := 0; pkt_src_id_type := 0 |}.

(** The right passphrase and, after it, a second packet. *)
Lemma silc_connauth_responder_authentic_witness :
  let evs := [CaEv_task ca_fsm_run; conn_packet SILC_PACKET_CONNECTION_AUTH (ca_wire 1 [112; 119]);
              CaEv_task ca_fsm_run; conn_packet SILC_PACKET_FAILURE [0; 0; 0; 1]] in
  exists s s', silc_connauth_alloc true (Some completed_ske) 30 [] = Some s /\
    ca_steps (silc_connauth_responder s get_auth) evs = CaRest s' /\
    completions s' = [true] /\
    exists p t auth a, came evs p /\ pkt_type p = SILC_PACKET_CONNECTION_AUTH /\
      b_data (pkt_buffer p) = ca_wire t auth /\ conn_type_ok t /\ get_auth t = Some a /\
      ca_accepts completed_ske a auth = true.
Proof.
  set (evs := [CaEv_task ca_fsm_run; _; _; _]). cbv zeta.
  destruct (silc_connauth_alloc true (Some completed_ske) 30 []) as [s|] eqn:Es; [|discriminate Es].
  exists s.
  assert (forall p, came evs p -> packet_ok p) as Hev.
  { intros p [Hp|[Hp|[Hp|[Hp|[]]]]]; try discriminate Hp; injection Hp as <-;
      (split; [vm_compute; reflexivity|apply bytes_ok_check; vm_compute; reflexivity]). }
  destruct (silc_connauth_responder_authentic completed_ske 30 [] s get_auth evs completed_ske_ready
    get_auth_ok Hev Es) as (s' & Hrun & Hv).
  exists s'. split; [reflexivity|]. split; [exact Hrun|].
  assert (completions s' = [true]) as Hc.
  { assert (match ca_steps (silc_connauth_responder s get_auth) evs with
            | CaRest s' => completions s' | _ => [] end = [true]) as Hc
      by (injection Es as <-; vm_compute; reflexivity).
    by rewrite Hrun in Hc. }
  split; [exact Hc|]. rewrite Hc in Hv. destruct Hv as [Hv|[Hv|[_ Hv]]]; [discriminate Hv..|exact Hv].
Defined.

(** A wrong passphrase, and a server's key. *)
Lemma silc_connauth_exchange_outcome_witness :
  exists i r, silc_connauth_alloc true (Some completed_ske) 30 [] = Some i /\
    silc_connauth_alloc true (Some completed_ske) 0 [] = Some r /\
    connauth_exchange (silc_connauth_initiator i 1 SILC_AUTH_PASSWORD (CA_bytes [112; 120]) 2)
      (silc_connauth_responder r get_auth) = Some ([false], [false]) /\
    connauth_exchange (silc_connauth_initiator i 2 SILC_AUTH_PUBLIC_KEY (CA_private_key (7 : Z)) 0)
      (silc_connauth_responder r get_auth) = Some ([true], [true]).
Proof.
  eexists _, _. split; [reflexivity|]. split; [reflexivity|]. split.
  - apply (silc_connauth_exchange_outcome completed_ske completed_ske 30 0 _ _ 1 get_auth
      completed_ske_ready completed_ske_ready eq_refl eq_refl ltac:(split; vm_compute; congruence) get_auth_ok)
      with (q := [112; 119]) (l := [112; 120]) (a := {| ga_passphrase := Some [112; 119];
        ga_passphrase_len := 2; ga_repository := None |}).
    + apply bytes_ok_check. reflexivity.
    + vm_compute. reflexivity.
    + reflexivity.
    + reflexivity.
    + reflexivity.
    + discriminate.
  - eapply (silc_connauth_exchange_outcome completed_ske completed_ske 30 0 _ _ 2 get_auth
      completed_ske_ready completed_ske_ready eq_refl eq_refl ltac:(split; vm_compute; congruence) get_auth_ok)
      with (prv := 7) (pub := 7); try reflexivity.
    split; vm_compute; congruence.
Defined.

(** An authentication that times out ends without a call of the completion
    callback. *)
Lemma silc_connauth_timeout_silent :
  match silc_connauth_alloc true (Some completed_ske) 30 [] with
  | Some s =>
      match ca_steps (silc_connauth_responder s get_auth)
              [CaEv_task ca_fsm_run; CaEv_task silc_connauth_timeout; CaEv_task ca_fsm_finish] with
      | CaRest s => (length (ca_out s), length (ca_tasks s), length (ca_linked s)) = (0, 0, 0)%nat
      | _ => False
      end
  | None => False
  end.
Proof. vm_compute. reflexivity. Qed.
