(* ===== verification/ClientState.v ===== *)
(** The state of a connection of the client library: src/lib/silcclient/client.h,
    silcclient_entry.h and silcclient.h.

    Entries are in memory: an address that is not in its map is not allocated, and
    using it is a fault.  Addresses are given out once.  The library is taken to run
    in one thread (its locks guard against others).  Cipher, HMAC and public key
    objects are only passed on here. *)

From stdpp Require Import gmap sets list strings.
From S2P Require Import Prelude CTypes Id HashTable HashTableSpec HashKeys SilcList IdCache.

Class ClientObjects := {
  SilcCipherPtr : Type;
  SilcHmacPtr : Type;
  SilcPublicKeyPtr : Type;
  silc_cipher_get_name : SilcCipherPtr -> list Z;
  silc_hmac_get_name : SilcHmacPtr -> list Z;
}.

(** A table from the addresses of entries to SilcChannelUser structures. *)
Abbreviation UserTable := (SilcHashTable Z ptr Z unit).

Record SilcClientParams := {
  cp_nickname_format : list Z;
  cp_nickname_force_format : bool;
  cp_full_nicknames : bool;
  cp_full_channel_names : bool;
}.

Record SilcChannelUser := {
  chu_client : Z;
  chu_mode : Z;
  chu_channel : Z;
}.

Section state.
Context `{ClientObjects}.

(** The strings are in arrays of 257, 129, 257 and 257 bytes. *)
Record SilcClientEntry := {
  ce_nickname : list Z;
  ce_username : list Z;
  ce_hostname : list Z;
  ce_server : list Z;
  ce_realname : option (list Z);
  ce_nickname_normalized : option (list Z);
  ce_id : SilcID;
  ce_mode : Z;
  ce_public_key : option SilcPublicKeyPtr;
  ce_channels : UserTable;
  ce_ke : option Z;
  ce_op : option Z;
  ce_refcnt : Z;
  ce_deleted : Z;
  ce_resolve_cmd_ident : Z;
  ce_valid : bool;
}.

(** [cpk_address] is its address. *)
Record SilcChannelPrivateKey := {
  cpk_address : Z;
  cpk_name : option (list Z);
  cpk_send_key : SilcCipherPtr;
  cpk_receive_key : SilcCipherPtr;
  cpk_hmac : SilcHmacPtr;
}.

(** [ch_hmac_key] is the HMAC in use, [ch_hmac] the name of one. *)
Record SilcChannelEntry := {
  ch_channel_name : list Z;
  ch_server : list Z;
  ch_topic : option (list Z);
  ch_founder_key : option SilcPublicKeyPtr;
  ch_channel_pubkeys : option (list (Z * SilcPublicKeyPtr));
  ch_id : SilcID;
  ch_mode : Z;
  ch_user_limit : Z;
  ch_user_list : UserTable;
  ch_cipher : option (list Z);
  ch_hmac : option (list Z);
  ch_old_channel_keys : option (list (option SilcCipherPtr));
  ch_old_hmacs : option (list (option SilcHmacPtr));
  ch_private_keys : option (list SilcChannelPrivateKey);
  ch_curr_key : option Z;
  ch_send_key : option SilcCipherPtr;
  ch_receive_key : option SilcCipherPtr;
  ch_hmac_key : option SilcHmacPtr;
  ch_refcnt : Z;
  ch_deleted : Z;
  ch_resolve_cmd_ident : Z;
}.

Record SilcServerEntry := {
  se_server_name : option (list Z);
  se_server_info : option (list Z);
  se_id : SilcID;
  se_public_key : option SilcPublicKeyPtr;
  se_refcnt : Z;
  se_deleted : Z;
  se_resolve_cmd_ident : Z;
}.

(** What the library does outside of the entries: operations of the application and
    calls of its other parts. *)
Inductive NotifyArg :=
| NA_client (c : option Z) | NA_channel (c : option Z) | NA_server (c : option Z)
| NA_string (s : option (list Z)) | NA_num (n : Z) | NA_clients (l : list Z)
| NA_public_key (k : option SilcPublicKeyPtr).

Inductive ClientEvent :=
| silc_client_ftp_session_free_client (c : Z)
| silc_async_abort (op : Z)
| silc_client_abort_key_agreement (c : Z)
| silc_schedule_task_del_by_context (c : Z)
| local_idp_put (idp : list Z)
| silc_packet_set_ids (src : SilcID)
| op_notify (type : Z) (args : list NotifyArg).

(** Each cache has a memory of entries of its own. *)
Record ClientConn := {
  cc_clients : gmap Z SilcClientEntry;
  cc_channels : gmap Z SilcChannelEntry;
  cc_servers : gmap Z SilcServerEntry;
  cc_users : gmap Z SilcChannelUser;
  cc_client_cache : SilcIDCache;
  cc_client_ids : EntryHeap;
  cc_channel_cache : SilcIDCache;
  cc_channel_ids : EntryHeap;
  cc_server_cache : SilcIDCache;
  cc_server_ids : EntryHeap;
  cc_links : Memory;
  cc_next : Z;
  cc_local_entry : option Z;
  cc_current_channel : option Z;
  cc_log : list ClientEvent;
}.

Definition set_ce_nickname (x : list Z) (e : SilcClientEntry) : SilcClientEntry :=
  {| ce_nickname := x; ce_username := ce_username e; ce_hostname := ce_hostname e; ce_server :=
     ce_server e; ce_realname := ce_realname e; ce_nickname_normalized := ce_nickname_normalized
     e; ce_id := ce_id e; ce_mode := ce_mode e; ce_public_key := ce_public_key e; ce_channels :=
     ce_channels e; ce_ke := ce_ke e; ce_op := ce_op e; ce_refcnt := ce_refcnt e; ce_deleted :=
     ce_deleted e; ce_resolve_cmd_ident := ce_resolve_cmd_ident e; ce_valid := ce_valid e |}.
Definition set_ce_username (x : list Z) (e : SilcClientEntry) : SilcClientEntry :=
  {| ce_nickname := ce_nickname e; ce_username := x; ce_hostname := ce_hostname e; ce_server :=
     ce_server e; ce_realname := ce_realname e; ce_nickname_normalized := ce_nickname_normalized
     e; ce_id := ce_id e; ce_mode := ce_mode e; ce_public_key := ce_public_key e; ce_channels :=
     ce_channels e; ce_ke := ce_ke e; ce_op := ce_op e; ce_refcnt := ce_refcnt e; ce_deleted :=
     ce_deleted e; ce_resolve_cmd_ident := ce_resolve_cmd_ident e; ce_valid := ce_valid e |}.
Definition set_ce_hostname (x : list Z) (e : SilcClientEntry) : SilcClientEntry :=
  {| ce_nickname := ce_nickname e; ce_username := ce_username e; ce_hostname := x; ce_server :=
     ce_server e; ce_realname := ce_realname e; ce_nickname_normalized := ce_nickname_normalized
     e; ce_id := ce_id e; ce_mode := ce_mode e; ce_public_key := ce_public_key e; ce_channels :=
     ce_channels e; ce_ke := ce_ke e; ce_op := ce_op e; ce_refcnt := ce_refcnt e; ce_deleted :=
     ce_deleted e; ce_resolve_cmd_ident := ce_resolve_cmd_ident e; ce_valid := ce_valid e |}.
Definition set_ce_server (x : list Z) (e : SilcClientEntry) : SilcClientEntry :=
  {| ce_nickname := ce_nickname e; ce_username := ce_username e; ce_hostname := ce_hostname e;
     ce_server := x; ce_realname := ce_realname e; ce_nickname_normalized :=
     ce_nickname_normalized e; ce_id := ce_id e; ce_mode := ce_mode e; ce_public_key :=
     ce_public_key e; ce_channels := ce_channels e; ce_ke := ce_ke e; ce_op := ce_op e; ce_refcnt
     := ce_refcnt e; ce_deleted := ce_deleted e; ce_resolve_cmd_ident := ce_resolve_cmd_ident e;
     ce_valid := ce_valid e |}.
Definition set_ce_realname (x : option (list Z)) (e : SilcClientEntry) : SilcClientEntry :=
  {| ce_nickname := ce_nickname e; ce_username := ce_username e; ce_hostname := ce_hostname e;
     ce_server := ce_server e; ce_realname := x; ce_nickname_normalized := ce_nickname_normalized
     e; ce_id := ce_id e; ce_mode := ce_mode e; ce_public_key := ce_public_key e; ce_channels :=
     ce_channels e; ce_ke := ce_ke e; ce_op := ce_op e; ce_refcnt := ce_refcnt e; ce_deleted :=
     ce_deleted e; ce_resolve_cmd_ident := ce_resolve_cmd_ident e; ce_valid := ce_valid e |}.
Definition set_ce_nickname_normalized (x : option (list Z)) (e : SilcClientEntry) : SilcClientEntry :=
  {| ce_nickname := ce_nickname e; ce_username := ce_username e; ce_hostname := ce_hostname e;
     ce_server := ce_server e; ce_realname := ce_realname e; ce_nickname_normalized := x; ce_id
     := ce_id e; ce_mode := ce_mode e; ce_public_key := ce_public_key e; ce_channels :=
     ce_channels e; ce_ke := ce_ke e; ce_op := ce_op e; ce_refcnt := ce_refcnt e; ce_deleted :=
     ce_deleted e; ce_resolve_cmd_ident := ce_resolve_cmd_ident e; ce_valid := ce_valid e |}.
Definition set_ce_id (x : SilcID) (e : SilcClientEntry) : SilcClientEntry :=
  {| ce_nickname := ce_nickname e; ce_username := ce_username e; ce_hostname := ce_hostname e;
     ce_server := ce_server e; ce_realname := ce_realname e; ce_nickname_normalized :=
     ce_nickname_normalized e; ce_id := x; ce_mode := ce_mode e; ce_public_key := ce_public_key
     e; ce_channels := ce_channels e; ce_ke := ce_ke e; ce_op := ce_op e; ce_refcnt := ce_refcnt
     e; ce_deleted := ce_deleted e; ce_resolve_cmd_ident := ce_resolve_cmd_ident e; ce_valid :=
     ce_valid e |}.
Definition set_ce_mode (x : Z) (e : SilcClientEntry) : SilcClientEntry :=
  {| ce_nickname := ce_nickname e; ce_username := ce_username e; ce_hostname := ce_hostname e;
     ce_server := ce_server e; ce_realname := ce_realname e; ce_nickname_normalized :=
     ce_nickname_normalized e; ce_id := ce_id e; ce_mode := x; ce_public_key := ce_public_key e;
     ce_channels := ce_channels e; ce_ke := ce_ke e; ce_op := ce_op e; ce_refcnt := ce_refcnt e;
     ce_deleted := ce_deleted e; ce_resolve_cmd_ident := ce_resolve_cmd_ident e; ce_valid :=
     ce_valid e |}.
Definition set_ce_public_key (x : option SilcPublicKeyPtr) (e : SilcClientEntry) : SilcClientEntry :=
  {| ce_nickname := ce_nickname e; ce_username := ce_username e; ce_hostname := ce_hostname e;
     ce_server := ce_server e; ce_realname := ce_realname e; ce_nickname_normalized :=
     ce_nickname_normalized e; ce_id := ce_id e; ce_mode := ce_mode e; ce_public_key := x;
     ce_channels := ce_channels e; ce_ke := ce_ke e; ce_op := ce_op e; ce_refcnt := ce_refcnt e;
     ce_deleted := ce_deleted e; ce_resolve_cmd_ident := ce_resolve_cmd_ident e; ce_valid :=
     ce_valid e |}.
Definition set_ce_channels (x : UserTable) (e : SilcClientEntry) : SilcClientEntry :=
  {| ce_nickname := ce_nickname e; ce_username := ce_username e; ce_hostname := ce_hostname e;
     ce_server := ce_server e; ce_realname := ce_realname e; ce_nickname_normalized :=
     ce_nickname_normalized e; ce_id := ce_id e; ce_mode := ce_mode e; ce_public_key :=
     ce_public_key e; ce_channels := x; ce_ke := ce_ke e; ce_op := ce_op e; ce_refcnt :=
     ce_refcnt e; ce_deleted := ce_deleted e; ce_resolve_cmd_ident := ce_resolve_cmd_ident e;
     ce_valid := ce_valid e |}.
Definition set_ce_ke (x : option Z) (e : SilcClientEntry) : SilcClientEntry :=
  {| ce_nickname := ce_nickname e; ce_username := ce_username e; ce_hostname := ce_hostname e;
     ce_server := ce_server e; ce_realname := ce_realname e; ce_nickname_normalized :=
     ce_nickname_normalized e; ce_id := ce_id e; ce_mode := ce_mode e; ce_public_key :=
     ce_public_key e; ce_channels := ce_channels e; ce_ke := x; ce_op := ce_op e; ce_refcnt :=
     ce_refcnt e; ce_deleted := ce_deleted e; ce_resolve_cmd_ident := ce_resolve_cmd_ident e;
     ce_valid := ce_valid e |}.
Definition set_ce_op (x : option Z) (e : SilcClientEntry) : SilcClientEntry :=
  {| ce_nickname := ce_nickname e; ce_username := ce_username e; ce_hostname := ce_hostname e;
     ce_server := ce_server e; ce_realname := ce_realname e; ce_nickname_normalized :=
     ce_nickname_normalized e; ce_id := ce_id e; ce_mode := ce_mode e; ce_public_key :=
     ce_public_key e; ce_channels := ce_channels e; ce_ke := ce_ke e; ce_op := x; ce_refcnt :=
     ce_refcnt e; ce_deleted := ce_deleted e; ce_resolve_cmd_ident := ce_resolve_cmd_ident e;
     ce_valid := ce_valid e |}.
Definition set_ce_refcnt (x : Z) (e : SilcClientEntry) : SilcClientEntry :=
  {| ce_nickname := ce_nickname e; ce_username := ce_username e; ce_hostname := ce_hostname e;
     ce_server := ce_server e; ce_realname := ce_realname e; ce_nickname_normalized :=
     ce_nickname_normalized e; ce_id := ce_id e; ce_mode := ce_mode e; ce_public_key :=
     ce_public_key e; ce_channels := ce_channels e; ce_ke := ce_ke e; ce_op := ce_op e; ce_refcnt
     := x; ce_deleted := ce_deleted e; ce_resolve_cmd_ident := ce_resolve_cmd_ident e; ce_valid
     := ce_valid e |}.
Definition set_ce_deleted (x : Z) (e : SilcClientEntry) : SilcClientEntry :=
  {| ce_nickname := ce_nickname e; ce_username := ce_username e; ce_hostname := ce_hostname e;
     ce_server := ce_server e; ce_realname := ce_realname e; ce_nickname_normalized :=
     ce_nickname_normalized e; ce_id := ce_id e; ce_mode := ce_mode e; ce_public_key :=
     ce_public_key e; ce_channels := ce_channels e; ce_ke := ce_ke e; ce_op := ce_op e; ce_refcnt
     := ce_refcnt e; ce_deleted := x; ce_resolve_cmd_ident := ce_resolve_cmd_ident e; ce_valid :=
     ce_valid e |}.
Definition set_ce_resolve_cmd_ident (x : Z) (e : SilcClientEntry) : SilcClientEntry :=
  {| ce_nickname := ce_nickname e; ce_username := ce_username e; ce_hostname := ce_hostname e;
     ce_server := ce_server e; ce_realname := ce_realname e; ce_nickname_normalized :=
     ce_nickname_normalized e; ce_id := ce_id e; ce_mode := ce_mode e; ce_public_key :=
     ce_public_key e; ce_channels := ce_channels e; ce_ke := ce_ke e; ce_op := ce_op e; ce_refcnt
     := ce_refcnt e; ce_deleted := ce_deleted e; ce_resolve_cmd_ident := x; ce_valid := ce_valid
     e |}.
Definition set_ce_valid (x : bool) (e : SilcClientEntry) : SilcClientEntry :=
  {| ce_nickname := ce_nickname e; ce_username := ce_username e; ce_hostname := ce_hostname e;
     ce_server := ce_server e; ce_realname := ce_realname e; ce_nickname_normalized :=
     ce_nickname_normalized e; ce_id := ce_id e; ce_mode := ce_mode e; ce_public_key :=
     ce_public_key e; ce_channels := ce_channels e; ce_ke := ce_ke e; ce_op := ce_op e; ce_refcnt
     := ce_refcnt e; ce_deleted := ce_deleted e; ce_resolve_cmd_ident := ce_resolve_cmd_ident e;
     ce_valid := x |}.

Definition set_ch_topic (x : option (list Z)) (c : SilcChannelEntry) : SilcChannelEntry :=
  {| ch_channel_name := ch_channel_name c; ch_server := ch_server c; ch_topic := x;
     ch_founder_key := ch_founder_key c; ch_channel_pubkeys := ch_channel_pubkeys c; ch_id :=
     ch_id c; ch_mode := ch_mode c; ch_user_limit := ch_user_limit c; ch_user_list :=
     ch_user_list c; ch_cipher := ch_cipher c; ch_hmac := ch_hmac c; ch_old_channel_keys :=
     ch_old_channel_keys c; ch_old_hmacs := ch_old_hmacs c; ch_private_keys := ch_private_keys c;
     ch_curr_key := ch_curr_key c; ch_send_key := ch_send_key c; ch_receive_key := ch_receive_key
     c; ch_hmac_key := ch_hmac_key c; ch_refcnt := ch_refcnt c; ch_deleted := ch_deleted c;
     ch_resolve_cmd_ident := ch_resolve_cmd_ident c |}.
Definition set_ch_founder_key (x : option SilcPublicKeyPtr) (c : SilcChannelEntry) : SilcChannelEntry :=
  {| ch_channel_name := ch_channel_name c; ch_server := ch_server c; ch_topic := ch_topic c;
     ch_founder_key := x; ch_channel_pubkeys := ch_channel_pubkeys c; ch_id := ch_id c; ch_mode
     := ch_mode c; ch_user_limit := ch_user_limit c; ch_user_list := ch_user_list c; ch_cipher :=
     ch_cipher c; ch_hmac := ch_hmac c; ch_old_channel_keys := ch_old_channel_keys c;
     ch_old_hmacs := ch_old_hmacs c; ch_private_keys := ch_private_keys c; ch_curr_key :=
     ch_curr_key c; ch_send_key := ch_send_key c; ch_receive_key := ch_receive_key c; ch_hmac_key
     := ch_hmac_key c; ch_refcnt := ch_refcnt c; ch_deleted := ch_deleted c; ch_resolve_cmd_ident
     := ch_resolve_cmd_ident c |}.
Definition set_ch_channel_pubkeys (x : option (list (Z * SilcPublicKeyPtr))) (c : SilcChannelEntry) : SilcChannelEntry :=
  {| ch_channel_name := ch_channel_name c; ch_server := ch_server c; ch_topic := ch_topic c;
     ch_founder_key := ch_founder_key c; ch_channel_pubkeys := x; ch_id := ch_id c; ch_mode :=
     ch_mode c; ch_user_limit := ch_user_limit c; ch_user_list := ch_user_list c; ch_cipher :=
     ch_cipher c; ch_hmac := ch_hmac c; ch_old_channel_keys := ch_old_channel_keys c;
     ch_old_hmacs := ch_old_hmacs c; ch_private_keys := ch_private_keys c; ch_curr_key :=
     ch_curr_key c; ch_send_key := ch_send_key c; ch_receive_key := ch_receive_key c; ch_hmac_key
     := ch_hmac_key c; ch_refcnt := ch_refcnt c; ch_deleted := ch_deleted c; ch_resolve_cmd_ident
     := ch_resolve_cmd_ident c |}.
Definition set_ch_id (x : SilcID) (c : SilcChannelEntry) : SilcChannelEntry :=
  {| ch_channel_name := ch_channel_name c; ch_server := ch_server c; ch_topic := ch_topic c;
     ch_founder_key := ch_founder_key c; ch_channel_pubkeys := ch_channel_pubkeys c; ch_id := x;
     ch_mode := ch_mode c; ch_user_limit := ch_user_limit c; ch_user_list := ch_user_list c;
     ch_cipher := ch_cipher c; ch_hmac := ch_hmac c; ch_old_channel_keys := ch_old_channel_keys
     c; ch_old_hmacs := ch_old_hmacs c; ch_private_keys := ch_private_keys c; ch_curr_key :=
     ch_curr_key c; ch_send_key := ch_send_key c; ch_receive_key := ch_receive_key c; ch_hmac_key
     := ch_hmac_key c; ch_refcnt := ch_refcnt c; ch_deleted := ch_deleted c; ch_resolve_cmd_ident
     := ch_resolve_cmd_ident c |}.
Definition set_ch_mode (x : Z) (c : SilcChannelEntry) : SilcChannelEntry :=
  {| ch_channel_name := ch_channel_name c; ch_server := ch_server c; ch_topic := ch_topic c;
     ch_founder_key := ch_founder_key c; ch_channel_pubkeys := ch_channel_pubkeys c; ch_id :=
     ch_id c; ch_mode := x; ch_user_limit := ch_user_limit c; ch_user_list := ch_user_list c;
     ch_cipher := ch_cipher c; ch_hmac := ch_hmac c; ch_old_channel_keys := ch_old_channel_keys
     c; ch_old_hmacs := ch_old_hmacs c; ch_private_keys := ch_private_keys c; ch_curr_key :=
     ch_curr_key c; ch_send_key := ch_send_key c; ch_receive_key := ch_receive_key c; ch_hmac_key
     := ch_hmac_key c; ch_refcnt := ch_refcnt c; ch_deleted := ch_deleted c; ch_resolve_cmd_ident
     := ch_resolve_cmd_ident c |}.
Definition set_ch_user_limit (x : Z) (c : SilcChannelEntry) : SilcChannelEntry :=
  {| ch_channel_name := ch_channel_name c; ch_server := ch_server c; ch_topic := ch_topic c;
     ch_founder_key := ch_founder_key c; ch_channel_pubkeys := ch_channel_pubkeys c; ch_id :=
     ch_id c; ch_mode := ch_mode c; ch_user_limit := x; ch_user_list := ch_user_list c; ch_cipher
     := ch_cipher c; ch_hmac := ch_hmac c; ch_old_channel_keys := ch_old_channel_keys c;
     ch_old_hmacs := ch_old_hmacs c; ch_private_keys := ch_private_keys c; ch_curr_key :=
     ch_curr_key c; ch_send_key := ch_send_key c; ch_receive_key := ch_receive_key c; ch_hmac_key
     := ch_hmac_key c; ch_refcnt := ch_refcnt c; ch_deleted := ch_deleted c; ch_resolve_cmd_ident
     := ch_resolve_cmd_ident c |}.
Definition set_ch_user_list (x : UserTable) (c : SilcChannelEntry) : SilcChannelEntry :=
  {| ch_channel_name := ch_channel_name c; ch_server := ch_server c; ch_topic := ch_topic c;
     ch_founder_key := ch_founder_key c; ch_channel_pubkeys := ch_channel_pubkeys c; ch_id :=
     ch_id c; ch_mode := ch_mode c; ch_user_limit := ch_user_limit c; ch_user_list := x;
     ch_cipher := ch_cipher c; ch_hmac := ch_hmac c; ch_old_channel_keys := ch_old_channel_keys
     c; ch_old_hmacs := ch_old_hmacs c; ch_private_keys := ch_private_keys c; ch_curr_key :=
     ch_curr_key c; ch_send_key := ch_send_key c; ch_receive_key := ch_receive_key c; ch_hmac_key
     := ch_hmac_key c; ch_refcnt := ch_refcnt c; ch_deleted := ch_deleted c; ch_resolve_cmd_ident
     := ch_resolve_cmd_ident c |}.
Definition set_ch_cipher (x : option (list Z)) (c : SilcChannelEntry) : SilcChannelEntry :=
  {| ch_channel_name := ch_channel_name c; ch_server := ch_server c; ch_topic := ch_topic c;
     ch_founder_key := ch_founder_key c; ch_channel_pubkeys := ch_channel_pubkeys c; ch_id :=
     ch_id c; ch_mode := ch_mode c; ch_user_limit := ch_user_limit c; ch_user_list :=
     ch_user_list c; ch_cipher := x; ch_hmac := ch_hmac c; ch_old_channel_keys :=
     ch_old_channel_keys c; ch_old_hmacs := ch_old_hmacs c; ch_private_keys := ch_private_keys c;
     ch_curr_key := ch_curr_key c; ch_send_key := ch_send_key c; ch_receive_key := ch_receive_key
     c; ch_hmac_key := ch_hmac_key c; ch_refcnt := ch_refcnt c; ch_deleted := ch_deleted c;
     ch_resolve_cmd_ident := ch_resolve_cmd_ident c |}.
Definition set_ch_hmac (x : option (list Z)) (c : SilcChannelEntry) : SilcChannelEntry :=
  {| ch_channel_name := ch_channel_name c; ch_server := ch_server c; ch_topic := ch_topic c;
     ch_founder_key := ch_founder_key c; ch_channel_pubkeys := ch_channel_pubkeys c; ch_id :=
     ch_id c; ch_mode := ch_mode c; ch_user_limit := ch_user_limit c; ch_user_list :=
     ch_user_list c; ch_cipher := ch_cipher c; ch_hmac := x; ch_old_channel_keys :=
     ch_old_channel_keys c; ch_old_hmacs := ch_old_hmacs c; ch_private_keys := ch_private_keys c;
     ch_curr_key := ch_curr_key c; ch_send_key := ch_send_key c; ch_receive_key := ch_receive_key
     c; ch_hmac_key := ch_hmac_key c; ch_refcnt := ch_refcnt c; ch_deleted := ch_deleted c;
     ch_resolve_cmd_ident := ch_resolve_cmd_ident c |}.
Definition set_ch_old_channel_keys (x : option (list (option SilcCipherPtr))) (c : SilcChannelEntry) : SilcChannelEntry :=
  {| ch_channel_name := ch_channel_name c; ch_server := ch_server c; ch_topic := ch_topic c;
     ch_founder_key := ch_founder_key c; ch_channel_pubkeys := ch_channel_pubkeys c; ch_id :=
     ch_id c; ch_mode := ch_mode c; ch_user_limit := ch_user_limit c; ch_user_list :=
     ch_user_list c; ch_cipher := ch_cipher c; ch_hmac := ch_hmac c; ch_old_channel_keys := x;
     ch_old_hmacs := ch_old_hmacs c; ch_private_keys := ch_private_keys c; ch_curr_key :=
     ch_curr_key c; ch_send_key := ch_send_key c; ch_receive_key := ch_receive_key c; ch_hmac_key
     := ch_hmac_key c; ch_refcnt := ch_refcnt c; ch_deleted := ch_deleted c; ch_resolve_cmd_ident
     := ch_resolve_cmd_ident c |}.
Definition set_ch_old_hmacs (x : option (list (option SilcHmacPtr))) (c : SilcChannelEntry) : SilcChannelEntry :=
  {| ch_channel_name := ch_channel_name c; ch_server := ch_server c; ch_topic := ch_topic c;
     ch_founder_key := ch_founder_key c; ch_channel_pubkeys := ch_channel_pubkeys c; ch_id :=
     ch_id c; ch_mode := ch_mode c; ch_user_limit := ch_user_limit c; ch_user_list :=
     ch_user_list c; ch_cipher := ch_cipher c; ch_hmac := ch_hmac c; ch_old_channel_keys :=
     ch_old_channel_keys c; ch_old_hmacs := x; ch_private_keys := ch_private_keys c; ch_curr_key
     := ch_curr_key c; ch_send_key := ch_send_key c; ch_receive_key := ch_receive_key c;
     ch_hmac_key := ch_hmac_key c; ch_refcnt := ch_refcnt c; ch_deleted := ch_deleted c;
     ch_resolve_cmd_ident := ch_resolve_cmd_ident c |}.
Definition set_ch_private_keys (x : option (list SilcChannelPrivateKey)) (c : SilcChannelEntry) : SilcChannelEntry :=
  {| ch_channel_name := ch_channel_name c; ch_server := ch_server c; ch_topic := ch_topic c;
     ch_founder_key := ch_founder_key c; ch_channel_pubkeys := ch_channel_pubkeys c; ch_id :=
     ch_id c; ch_mode := ch_mode c; ch_user_limit := ch_user_limit c; ch_user_list :=
     ch_user_list c; ch_cipher := ch_cipher c; ch_hmac := ch_hmac c; ch_old_channel_keys :=
     ch_old_channel_keys c; ch_old_hmacs := ch_old_hmacs c; ch_private_keys := x; ch_curr_key :=
     ch_curr_key c; ch_send_key := ch_send_key c; ch_receive_key := ch_receive_key c; ch_hmac_key
     := ch_hmac_key c; ch_refcnt := ch_refcnt c; ch_deleted := ch_deleted c; ch_resolve_cmd_ident
     := ch_resolve_cmd_ident c |}.
Definition set_ch_curr_key (x : option Z) (c : SilcChannelEntry) : SilcChannelEntry :=
  {| ch_channel_name := ch_channel_name c; ch_server := ch_server c; ch_topic := ch_topic c;
     ch_founder_key := ch_founder_key c; ch_channel_pubkeys := ch_channel_pubkeys c; ch_id :=
     ch_id c; ch_mode := ch_mode c; ch_user_limit := ch_user_limit c; ch_user_list :=
     ch_user_list c; ch_cipher := ch_cipher c; ch_hmac := ch_hmac c; ch_old_channel_keys :=
     ch_old_channel_keys c; ch_old_hmacs := ch_old_hmacs c; ch_private_keys := ch_private_keys c;
     ch_curr_key := x; ch_send_key := ch_send_key c; ch_receive_key := ch_receive_key c;
     ch_hmac_key := ch_hmac_key c; ch_refcnt := ch_refcnt c; ch_deleted := ch_deleted c;
     ch_resolve_cmd_ident := ch_resolve_cmd_ident c |}.
Definition set_ch_send_key (x : option SilcCipherPtr) (c : SilcChannelEntry) : SilcChannelEntry :=
  {| ch_channel_name := ch_channel_name c; ch_server := ch_server c; ch_topic := ch_topic c;
     ch_founder_key := ch_founder_key c; ch_channel_pubkeys := ch_channel_pubkeys c; ch_id :=
     ch_id c; ch_mode := ch_mode c; ch_user_limit := ch_user_limit c; ch_user_list :=
     ch_user_list c; ch_cipher := ch_cipher c; ch_hmac := ch_hmac c; ch_old_channel_keys :=
     ch_old_channel_keys c; ch_old_hmacs := ch_old_hmacs c; ch_private_keys := ch_private_keys c;
     ch_curr_key := ch_curr_key c; ch_send_key := x; ch_receive_key := ch_receive_key c;
     ch_hmac_key := ch_hmac_key c; ch_refcnt := ch_refcnt c; ch_deleted := ch_deleted c;
     ch_resolve_cmd_ident := ch_resolve_cmd_ident c |}.
Definition set_ch_receive_key (x : option SilcCipherPtr) (c : SilcChannelEntry) : SilcChannelEntry :=
  {| ch_channel_name := ch_channel_name c; ch_server := ch_server c; ch_topic := ch_topic c;
     ch_founder_key := ch_founder_key c; ch_channel_pubkeys := ch_channel_pubkeys c; ch_id :=
     ch_id c; ch_mode := ch_mode c; ch_user_limit := ch_user_limit c; ch_user_list :=
     ch_user_list c; ch_cipher := ch_cipher c; ch_hmac := ch_hmac c; ch_old_channel_keys :=
     ch_old_channel_keys c; ch_old_hmacs := ch_old_hmacs c; ch_private_keys := ch_private_keys c;
     ch_curr_key := ch_curr_key c; ch_send_key := ch_send_key c; ch_receive_key := x; ch_hmac_key
     := ch_hmac_key c; ch_refcnt := ch_refcnt c; ch_deleted := ch_deleted c; ch_resolve_cmd_ident
     := ch_resolve_cmd_ident c |}.
Definition set_ch_hmac_key (x : option SilcHmacPtr) (c : SilcChannelEntry) : SilcChannelEntry :=
  {| ch_channel_name := ch_channel_name c; ch_server := ch_server c; ch_topic := ch_topic c;
     ch_founder_key := ch_founder_key c; ch_channel_pubkeys := ch_channel_pubkeys c; ch_id :=
     ch_id c; ch_mode := ch_mode c; ch_user_limit := ch_user_limit c; ch_user_list :=
     ch_user_list c; ch_cipher := ch_cipher c; ch_hmac := ch_hmac c; ch_old_channel_keys :=
     ch_old_channel_keys c; ch_old_hmacs := ch_old_hmacs c; ch_private_keys := ch_private_keys c;
     ch_curr_key := ch_curr_key c; ch_send_key := ch_send_key c; ch_receive_key := ch_receive_key
     c; ch_hmac_key := x; ch_refcnt := ch_refcnt c; ch_deleted := ch_deleted c;
     ch_resolve_cmd_ident := ch_resolve_cmd_ident c |}.
Definition set_ch_refcnt (x : Z) (c : SilcChannelEntry) : SilcChannelEntry :=
  {| ch_channel_name := ch_channel_name c; ch_server := ch_server c; ch_topic := ch_topic c;
     ch_founder_key := ch_founder_key c; ch_channel_pubkeys := ch_channel_pubkeys c; ch_id :=
     ch_id c; ch_mode := ch_mode c; ch_user_limit := ch_user_limit c; ch_user_list :=
     ch_user_list c; ch_cipher := ch_cipher c; ch_hmac := ch_hmac c; ch_old_channel_keys :=
     ch_old_channel_keys c; ch_old_hmacs := ch_old_hmacs c; ch_private_keys := ch_private_keys c;
     ch_curr_key := ch_curr_key c; ch_send_key := ch_send_key c; ch_receive_key := ch_receive_key
     c; ch_hmac_key := ch_hmac_key c; ch_refcnt := x; ch_deleted := ch_deleted c;
     ch_resolve_cmd_ident := ch_resolve_cmd_ident c |}.
Definition set_ch_deleted (x : Z) (c : SilcChannelEntry) : SilcChannelEntry :=
  {| ch_channel_name := ch_channel_name c; ch_server := ch_server c; ch_topic := ch_topic c;
     ch_founder_key := ch_founder_key c; ch_channel_pubkeys := ch_channel_pubkeys c; ch_id :=
     ch_id c; ch_mode := ch_mode c; ch_user_limit := ch_user_limit c; ch_user_list :=
     ch_user_list c; ch_cipher := ch_cipher c; ch_hmac := ch_hmac c; ch_old_channel_keys :=
     ch_old_channel_keys c; ch_old_hmacs := ch_old_hmacs c; ch_private_keys := ch_private_keys c;
     ch_curr_key := ch_curr_key c; ch_send_key := ch_send_key c; ch_receive_key := ch_receive_key
     c; ch_hmac_key := ch_hmac_key c; ch_refcnt := ch_refcnt c; ch_deleted := x;
     ch_resolve_cmd_ident := ch_resolve_cmd_ident c |}.
Definition set_ch_resolve_cmd_ident (x : Z) (c : SilcChannelEntry) : SilcChannelEntry :=
  {| ch_channel_name := ch_channel_name c; ch_server := ch_server c; ch_topic := ch_topic c;
     ch_founder_key := ch_founder_key c; ch_channel_pubkeys := ch_channel_pubkeys c; ch_id :=
     ch_id c; ch_mode := ch_mode c; ch_user_limit := ch_user_limit c; ch_user_list :=
     ch_user_list c; ch_cipher := ch_cipher c; ch_hmac := ch_hmac c; ch_old_channel_keys :=
     ch_old_channel_keys c; ch_old_hmacs := ch_old_hmacs c; ch_private_keys := ch_private_keys c;
     ch_curr_key := ch_curr_key c; ch_send_key := ch_send_key c; ch_receive_key := ch_receive_key
     c; ch_hmac_key := ch_hmac_key c; ch_refcnt := ch_refcnt c; ch_deleted := ch_deleted c;
     ch_resolve_cmd_ident := x |}.

Definition set_se_server_name (x : option (list Z)) (e : SilcServerEntry) : SilcServerEntry :=
  {| se_server_name := x; se_server_info := se_server_info e; se_id := se_id e; se_public_key :=
     se_public_key e; se_refcnt := se_refcnt e; se_deleted := se_deleted e; se_resolve_cmd_ident
     := se_resolve_cmd_ident e |}.
Definition set_se_server_info (x : option (list Z)) (e : SilcServerEntry) : SilcServerEntry :=
  {| se_server_name := se_server_name e; se_server_info := x; se_id := se_id e; se_public_key :=
     se_public_key e; se_refcnt := se_refcnt e; se_deleted := se_deleted e; se_resolve_cmd_ident
     := se_resolve_cmd_ident e |}.
Definition set_se_refcnt (x : Z) (e : SilcServerEntry) : SilcServerEntry :=
  {| se_server_name := se_server_name e; se_server_info := se_server_info e; se_id := se_id e;
     se_public_key := se_public_key e; se_refcnt := x; se_deleted := se_deleted e;
     se_resolve_cmd_ident := se_resolve_cmd_ident e |}.
Definition set_se_deleted (x : Z) (e : SilcServerEntry) : SilcServerEntry :=
  {| se_server_name := se_server_name e; se_server_info := se_server_info e; se_id := se_id e;
     se_public_key := se_public_key e; se_refcnt := se_refcnt e; se_deleted := x;
     se_resolve_cmd_ident := se_resolve_cmd_ident e |}.
Definition set_se_resolve_cmd_ident (x : Z) (e : SilcServerEntry) : SilcServerEntry :=
  {| se_server_name := se_server_name e; se_server_info := se_server_info e; se_id := se_id e;
     se_public_key := se_public_key e; se_refcnt := se_refcnt e; se_deleted := se_deleted e;
     se_resolve_cmd_ident := x |}.

Definition set_cc_clients (x : gmap Z SilcClientEntry) (s : ClientConn) : ClientConn :=
  {| cc_clients := x; cc_channels := cc_channels s; cc_servers := cc_servers s; cc_users :=
     cc_users s; cc_client_cache := cc_client_cache s; cc_client_ids := cc_client_ids s;
     cc_channel_cache := cc_channel_cache s; cc_channel_ids := cc_channel_ids s; cc_server_cache
     := cc_server_cache s; cc_server_ids := cc_server_ids s; cc_links := cc_links s; cc_next :=
     cc_next s; cc_local_entry := cc_local_entry s; cc_current_channel := cc_current_channel s;
     cc_log := cc_log s |}.
Definition set_cc_channels (x : gmap Z SilcChannelEntry) (s : ClientConn) : ClientConn :=
  {| cc_clients := cc_clients s; cc_channels := x; cc_servers := cc_servers s; cc_users :=
     cc_users s; cc_client_cache := cc_client_cache s; cc_client_ids := cc_client_ids s;
     cc_channel_cache := cc_channel_cache s; cc_channel_ids := cc_channel_ids s; cc_server_cache
     := cc_server_cache s; cc_server_ids := cc_server_ids s; cc_links := cc_links s; cc_next :=
     cc_next s; cc_local_entry := cc_local_entry s; cc_current_channel := cc_current_channel s;
     cc_log := cc_log s |}.
Definition set_cc_servers (x : gmap Z SilcServerEntry) (s : ClientConn) : ClientConn :=
  {| cc_clients := cc_clients s; cc_channels := cc_channels s; cc_servers := x; cc_users :=
     cc_users s; cc_client_cache := cc_client_cache s; cc_client_ids := cc_client_ids s;
     cc_channel_cache := cc_channel_cache s; cc_channel_ids := cc_channel_ids s; cc_server_cache
     := cc_server_cache s; cc_server_ids := cc_server_ids s; cc_links := cc_links s; cc_next :=
     cc_next s; cc_local_entry := cc_local_entry s; cc_current_channel := cc_current_channel s;
     cc_log := cc_log s |}.
Definition set_cc_users (x : gmap Z SilcChannelUser) (s : ClientConn) : ClientConn :=
  {| cc_clients := cc_clients s; cc_channels := cc_channels s; cc_servers := cc_servers s;
     cc_users := x; cc_client_cache := cc_client_cache s; cc_client_ids := cc_client_ids s;
     cc_channel_cache := cc_channel_cache s; cc_channel_ids := cc_channel_ids s; cc_server_cache
     := cc_server_cache s; cc_server_ids := cc_server_ids s; cc_links := cc_links s; cc_next :=
     cc_next s; cc_local_entry := cc_local_entry s; cc_current_channel := cc_current_channel s;
     cc_log := cc_log s |}.
Definition set_cc_links (x : Memory) (s : ClientConn) : ClientConn :=
  {| cc_clients := cc_clients s; cc_channels := cc_channels s; cc_servers := cc_servers s;
     cc_users := cc_users s; cc_client_cache := cc_client_cache s; cc_client_ids := cc_client_ids
     s; cc_channel_cache := cc_channel_cache s; cc_channel_ids := cc_channel_ids s;
     cc_server_cache := cc_server_cache s; cc_server_ids := cc_server_ids s; cc_links := x;
     cc_next := cc_next s; cc_local_entry := cc_local_entry s; cc_current_channel :=
     cc_current_channel s; cc_log := cc_log s |}.
Definition set_cc_next (x : Z) (s : ClientConn) : ClientConn :=
  {| cc_clients := cc_clients s; cc_channels := cc_channels s; cc_servers := cc_servers s;
     cc_users := cc_users s; cc_client_cache := cc_client_cache s; cc_client_ids := cc_client_ids
     s; cc_channel_cache := cc_channel_cache s; cc_channel_ids := cc_channel_ids s;
     cc_server_cache := cc_server_cache s; cc_server_ids := cc_server_ids s; cc_links := cc_links
     s; cc_next := x; cc_local_entry := cc_local_entry s; cc_current_channel :=
     cc_current_channel s; cc_log := cc_log s |}.
Definition set_cc_local_entry (x : option Z) (s : ClientConn) : ClientConn :=
  {| cc_clients := cc_clients s; cc_channels := cc_channels s; cc_servers := cc_servers s;
     cc_users := cc_users s; cc_client_cache := cc_client_cache s; cc_client_ids := cc_client_ids
     s; cc_channel_cache := cc_channel_cache s; cc_channel_ids := cc_channel_ids s;
     cc_server_cache := cc_server_cache s; cc_server_ids := cc_server_ids s; cc_links := cc_links
     s; cc_next := cc_next s; cc_local_entry := x; cc_current_channel := cc_current_channel s;
     cc_log := cc_log s |}.
Definition set_cc_current_channel (x : option Z) (s : ClientConn) : ClientConn :=
  {| cc_clients := cc_clients s; cc_channels := cc_channels s; cc_servers := cc_servers s;
     cc_users := cc_users s; cc_client_cache := cc_client_cache s; cc_client_ids := cc_client_ids
     s; cc_channel_cache := cc_channel_cache s; cc_channel_ids := cc_channel_ids s;
     cc_server_cache := cc_server_cache s; cc_server_ids := cc_server_ids s; cc_links := cc_links
     s; cc_next := cc_next s; cc_local_entry := cc_local_entry s; cc_current_channel := x; cc_log
     := cc_log s |}.
Definition set_cc_log (x : list ClientEvent) (s : ClientConn) : ClientConn :=
  {| cc_clients := cc_clients s; cc_channels := cc_channels s; cc_servers := cc_servers s;
     cc_users := cc_users s; cc_client_cache := cc_client_cache s; cc_client_ids := cc_client_ids
     s; cc_channel_cache := cc_channel_cache s; cc_channel_ids := cc_channel_ids s;
     cc_server_cache := cc_server_cache s; cc_server_ids := cc_server_ids s; cc_links := cc_links
     s; cc_next := cc_next s; cc_local_entry := cc_local_entry s; cc_current_channel :=
     cc_current_channel s; cc_log := x |}.

Definition set_client_cache (x : SilcIDCache * EntryHeap) (s : ClientConn) : ClientConn :=
  {| cc_clients := cc_clients s; cc_channels := cc_channels s; cc_servers := cc_servers s;
     cc_users := cc_users s; cc_client_cache := x.1; cc_client_ids := x.2; cc_channel_cache :=
     cc_channel_cache s; cc_channel_ids := cc_channel_ids s; cc_server_cache := cc_server_cache
     s; cc_server_ids := cc_server_ids s; cc_links := cc_links s; cc_next := cc_next s;
     cc_local_entry := cc_local_entry s; cc_current_channel := cc_current_channel s; cc_log :=
     cc_log s |}.
Definition set_channel_cache (x : SilcIDCache * EntryHeap) (s : ClientConn) : ClientConn :=
  {| cc_clients := cc_clients s; cc_channels := cc_channels s; cc_servers := cc_servers s;
     cc_users := cc_users s; cc_client_cache := cc_client_cache s; cc_client_ids := cc_client_ids
     s; cc_channel_cache := x.1; cc_channel_ids := x.2; cc_server_cache := cc_server_cache s;
     cc_server_ids := cc_server_ids s; cc_links := cc_links s; cc_next := cc_next s;
     cc_local_entry := cc_local_entry s; cc_current_channel := cc_current_channel s; cc_log :=
     cc_log s |}.
Definition set_server_cache (x : SilcIDCache * EntryHeap) (s : ClientConn) : ClientConn :=
  {| cc_clients := cc_clients s; cc_channels := cc_channels s; cc_servers := cc_servers s;
     cc_users := cc_users s; cc_client_cache := cc_client_cache s; cc_client_ids := cc_client_ids
     s; cc_channel_cache := cc_channel_cache s; cc_channel_ids := cc_channel_ids s;
     cc_server_cache := x.1; cc_server_ids := x.2; cc_links := cc_links s; cc_next := cc_next s;
     cc_local_entry := cc_local_entry s; cc_current_channel := cc_current_channel s; cc_log :=
     cc_log s |}.

(** * Programs on the state *)

(** [BadPointer]: a NULL pointer, or one to memory that is not allocated. *)
Inductive Fault := BadPointer | BufferOverflow | NoFuel.

Definition CM (A : Type) : Type := ClientConn -> Fault + (A * ClientConn).

Definition ret {A} (a : A) : CM A := fun s => inr (a, s).
Definition fault {A} (f : Fault) : CM A := fun _ => inl f.
Definition bind {A B} (m : CM A) (k : A -> CM B) : CM B :=
  fun s => match m s with inl f => inl f | inr (a, s) => k a s end.
Definition gets {A} (f : ClientConn -> A) : CM A := fun s => inr (f s, s).
Definition modify (f : ClientConn -> ClientConn) : CM unit := fun s => inr (tt, f s).

Definition read {A} (map : ClientConn -> gmap Z A) (p : Z) : CM A :=
  fun s => match map s !! p with Some a => inr (a, s) | None => inl BadPointer end.

Definition read_client : Z -> CM SilcClientEntry := read cc_clients.
Definition read_channel : Z -> CM SilcChannelEntry := read cc_channels.
Definition read_server : Z -> CM SilcServerEntry := read cc_servers.
Definition read_user : Z -> CM SilcChannelUser := read cc_users.

Definition write_client (p : Z) (e : SilcClientEntry) : CM unit :=
  modify (fun s => set_cc_clients (<[p := e]> (cc_clients s)) s).
Definition write_channel (p : Z) (c : SilcChannelEntry) : CM unit :=
  modify (fun s => set_cc_channels (<[p := c]> (cc_channels s)) s).
Definition write_server (p : Z) (e : SilcServerEntry) : CM unit :=
  modify (fun s => set_cc_servers (<[p := e]> (cc_servers s)) s).

(** A member of an allocated entry is assigned. *)
Definition update_client (p : Z) (f : SilcClientEntry -> SilcClientEntry) : CM unit :=
  bind (read_client p) (fun e => write_client p (f e)).
Definition update_channel (p : Z) (f : SilcChannelEntry -> SilcChannelEntry) : CM unit :=
  bind (read_channel p) (fun c => write_channel p (f c)).
Definition update_server (p : Z) (f : SilcServerEntry -> SilcServerEntry) : CM unit :=
  bind (read_server p) (fun e => write_server p (f e)).

(** silc_free *)
Definition free_client (p : Z) : CM unit :=
  bind (read_client p) (fun _ => modify (fun s => set_cc_clients (delete p (cc_clients s)) s)).
Definition free_channel (p : Z) : CM unit :=
  bind (read_channel p) (fun _ => modify (fun s => set_cc_channels (delete p (cc_channels s)) s)).
Definition free_server (p : Z) : CM unit :=
  bind (read_server p) (fun _ => modify (fun s => set_cc_servers (delete p (cc_servers s)) s)).
Definition free_user (p : Z) : CM unit :=
  bind (read_user p) (fun _ => modify (fun s => set_cc_users (delete p (cc_users s)) s)).

(** silc_calloc: an address that was never given out. *)
Definition alloc : CM Z :=
  fun s => inr (cc_next s, set_cc_next (cc_next s + 1) s).

Definition event (e : ClientEvent) : CM unit :=
  modify (fun s => set_cc_log (cc_log s ++ [e]) s).
End state.

Declare Scope client_scope.
Delimit Scope client_scope with client.
Notation "x <- m ;; k" := (bind m (fun x => k))
  (at level 100, m at next level, right associativity) : client_scope.
Notation "m ;; k" := (bind m (fun _ => k))
  (at level 100, right associativity) : client_scope.
