(* ===== verification/ClientNick.v ===== *)
(** Names of the client library: silc_parse_userfqdn of silcutil.c, and the format of
    nicknames of src/lib/silcclient/client_entry.c.  A string is the list of its bytes
    before the NUL; string preparation and the comparison of strings without case are
    the class [ClientStrings]. *)

From stdpp Require Import list strings.
From S2P Require Import Prelude CTypes Algs.

Class ClientStrings := {
  silc_identifier_check : list Z -> Z -> option (list Z);
  silc_channel_name_check : list Z -> Z -> option (list Z);
  silc_utf8_strcasecmp : list Z -> list Z -> bool;
  silc_utf8_strncasecmp : list Z -> list Z -> Z -> bool;
}.

(** silc_strncat into an empty array of [dest_size] bytes. *)
Definition strncat_new (dest_size : Z) (src : list Z) : list Z := ztake (dest_size - 1) src.

(** The return value, [user] and [fqdn], neither of which is NULL. *)
Definition silc_parse_userfqdn (string : option (list Z)) (user_size fqdn_size : Z)
  : Z * list Z * list Z :=
  match string with
  | None => (0, [], [])
  | Some s =>
      if bool_decide (head s = Some 64) then (1, strncat_new user_size s, [])
      else
        match strchr s 64 with
        | Some _ =>
            let tlen := strcspn s 64 in
            (2, strncat_new user_size (ztake tlen s), strncat_new fqdn_size (zdrop (tlen + 1) s))
        | None => (1, strncat_new user_size s, [])
        end
  end.

(** What is found in a format: whether there is a nickname, and the separators before
    and after it (0: none). *)
Definition format_char (r : bool * Z * Z) (c : Z) : bool * Z * Z :=
  let '(n, s, e) := r in
  if c =? 37 then r                                            (* % *)
  else if c =? 110 then (true, s, e)                           (* n *)
  else if (c =? 104) || (c =? 72) || (c =? 97) then r          (* h, H, a *)
  else if n then (n, s, c) else (n, c, e).

(** [None] is FALSE; the nickname may be NULL.  Without the second separator the
    number of bytes that is copied is the length of the whole nickname: what lies
    behind the NUL is not part of the string. *)
Definition silc_client_nickname_parse (format nickname : list Z) : option (option (list Z)) :=
  match format, nickname with
  | [], _ => Some None
  | _, [] => None
  | _, _ =>
      let '(n, s, e) := foldl format_char (false, 0, 0) format in
      if negb n then None
      else
        let nick := match (if s =? 0 then None else strchr nickname s) with
                    | Some r => zdrop 1 r
                    | None => nickname
                    end in
        let len := match (if e =? 0 then None else strchr nick e) with
                   | Some _ => strcspn nick e
                   | None => zlen nickname
                   end in
        if len =? 0 then None else Some (Some (ztake len nick))
  end.

(** * Numbers *)

(** atoi of the digits at the start, after white space and a sign. *)
Fixpoint atoi_digits (acc : Z) (s : list Z) : Z :=
  match s with
  | c :: s => if (48 <=? c) && (c <=? 57) then atoi_digits (acc * 10 + (c - 48)) s else acc
  | [] => acc
  end.

Fixpoint atoi (s : list Z) : Z :=
  match s with
  | c :: s' =>
      if (c =? 32) || ((9 <=? c) && (c <=? 13)) then atoi s'
      else if c =? 45 then - atoi_digits 0 s'
      else if c =? 43 then atoi_digits 0 s'
      else atoi_digits 0 s
  | [] => 0
  end.

Fixpoint decimal (fuel : nat) (n : Z) (acc : list Z) : list Z :=
  match fuel with
  | O => acc
  | S fuel =>
      let acc := (48 + n mod 10) :: acc in
      if n / 10 =? 0 then acc else decimal fuel (n / 10) acc
  end.

(** "%d" of an int, which has at most ten digits. *)
Definition print_int (n : Z) : list Z :=
  if n <? 0 then 45 :: decimal 10 (- n) [] else decimal 10 n [].

(** * Formatting *)

Section format.
Context `{ClientStrings}.

(** [newnick] has 129 bytes: what is written behind them is [None]. *)
Definition newnick_put (newnick x : list Z) : option (list Z) :=
  if 129 <? zlen newnick + zlen x then None else Some (newnick ++ x).

(** The ascending number: one more than the largest behind the same prefix. *)
Definition next_number (clients : list (list Z)) (newnick : list Z) : Z :=
  foldl (fun max nickname =>
           if negb (silc_utf8_strncasecmp nickname newnick (zlen newnick)) then max
           else if zlen nickname <=? zlen newnick then max
           else let num := s32 (atoi (zdrop (zlen newnick) nickname)) in
                if max <? num then num else max)
        1 clients.

(** One character of the format; [clients] are the nicknames of the list. *)
Definition nick_step (nickname hostname : list Z) (clients : list (list Z)) (cp : Z)
    (newnick : list Z) : option (list Z) :=
  if cp =? 37 then Some newnick
  else if cp =? 110 then newnick_put newnick nickname
  else if cp =? 104 then
    newnick_put newnick (ztake (Z.min (strcspn hostname 46) (strcspn hostname 45)) hostname)
  else if cp =? 72 then newnick_put newnick hostname
  else if cp =? 97 then
    if zlen clients =? 1 then Some newnick
    else newnick_put newnick (ztake 4 (print_int (s32 (next_number clients newnick + 1))))
  else newnick_put newnick [cp].

Fixpoint nick_loop (nickname hostname : list Z) (clients : list (list Z)) (format : list Z)
    (newnick : list Z) : option (list Z) :=
  match format with
  | [] => if 128 <? zlen newnick then None else Some newnick
  | cp :: format =>
      match nick_step nickname hostname clients cp newnick with
      | Some newnick => nick_loop nickname hostname clients format newnick
      | None => None
      end
  end.
End format.
