(* ===== verification/ClientEntry.v ===== *)
(** Entries of the client library: src/lib/silcclient/client_entry.c, and who is on
    which channel (the utility routines of client_channel.c).

    silc_client_unref_client and silc_client_unref_channel free entries, which empties
    channels and releases more entries: they call each other, up to a depth of
    [unref_depth]. *)

From stdpp Require Import gmap sets list strings.
From S2P Require Import Prelude CTypes Id HashTable HashTableSpec HashKeys SilcList IdCache ClientNick ClientState.

#[local] Open Scope client_scope.

Section entry.
Context `{ClientObjects}.

(** * Tables and caches *)

(** silc_hash_table_alloc(1, silc_hash_ptr, NULL, NULL, NULL, NULL, NULL, TRUE) *)
Definition user_table_alloc : option UserTable :=
  silc_hash_table_alloc 1 (Some silc_hash_ptr) None None None None None true.

Definition user_table_add (key chu : Z) (t : UserTable) : UserTable :=
  (silc_hash_table_add t key (Some chu)).2.

Definition user_table_del (key : Z) (t : UserTable) : UserTable := (silc_hash_table_del t key).2.

(** What an operation of a cache gives; a bad pointer is [None]. *)
Definition cache_result {A} (r : option (A * SilcIDCache * EntryHeap))
    (set : SilcIDCache * EntryHeap -> ClientConn -> ClientConn) : CM A :=
  fun s => match r with
           | Some (a, c, h) => inr (a, set (c, h) s)
           | None => inl BadPointer
           end.

Definition cache_deleted {A B} (r : option (A * B * SilcIDCache * EntryHeap))
  : option (A * SilcIDCache * EntryHeap) :=
  option_map (fun r => let '(a, _, c, h) := r in (a, c, h)) r.

(** id_cache->context of an entry that was found. *)
Definition cache_context (ids : EntryHeap) (found : option (option ptr)) : CM (option Z) :=
  match found with
  | None => ret None
  | Some None => fault BadPointer
  | Some (Some e) =>
      match ids !! e with
      | Some ent => match ice_context ent with Some p => ret (Some p) | None => fault BadPointer end
      | None => fault BadPointer
      end
  end.

(** The entries of a list that a search returned, from its start. *)
Fixpoint list_walk (fuel : nat) (h : Memory) (l : SilcList) : option (list ptr) :=
  match fuel with
  | O => None
  | S fuel =>
      match silc_list_get h l with
      | (None, _) => Some []
      | (Some p, l) => option_map (cons p) (list_walk fuel h l)
      end
  end.

(** The contexts of what silc_idcache_find_by_name finds; NULL ones are [None]. *)
Fixpoint cache_contexts (ids : EntryHeap) (es : list ptr) : CM (list (option Z)) :=
  match es with
  | [] => ret []
  | e :: es =>
      match ids !! e with
      | None => fault BadPointer
      | Some ent => l <- cache_contexts ids es;; ret (ice_context ent :: l)
      end
  end.

Definition find_by_name (cache : SilcIDCache) (ids : EntryHeap) (name : list Z)
  : CM (option (list (option Z))) :=
  fun s =>
    match silc_idcache_find_by_name cache name (cc_links s) silc_list_init with
    | (_, None) => inl BadPointer
    | (false, Some (h, _)) => inr (None, set_cc_links h s)
    | (true, Some (h, l)) =>
        match list_walk (S (Z.to_nat (silc_list_count l))) h (silc_list_start l) with
        | None => inl NoFuel
        | Some es => bind (cache_contexts ids es) (fun l => ret (Some l)) (set_cc_links h s)
        end
    end.

(** silc_rwlock_wrlock and silc_rwlock_unlock use the entry. *)
Definition lock_client (p : Z) : CM unit := read_client p;; ret tt.
Definition lock_channel (p : Z) : CM unit := read_channel p;; ret tt.

(** * References *)

Definition silc_client_ref_client (p : Z) : CM unit :=
  update_client p (fun e => set_ce_refcnt (u32 (ce_refcnt e + 1)) e).

Definition silc_client_ref_channel (p : Z) : CM unit :=
  update_channel p (fun c => set_ch_refcnt (u32 (ch_refcnt c + 1)) c).

Definition silc_client_ref_server (p : Z) : CM unit :=
  update_server p (fun e => set_se_refcnt (u32 (se_refcnt e + 1)) e).

Definition silc_client_del_channel_private_keys (p : Z) : CM bool :=
  c <- read_channel p;;
  match ch_private_keys c with
  | None => ret false
  | Some _ =>
      write_channel p
        (set_ch_private_keys None
          (set_ch_hmac (option_map silc_hmac_get_name (ch_hmac_key c))
            (set_ch_cipher (option_map silc_cipher_get_name (ch_send_key c))
              (set_ch_curr_key None c))));;
      ret true
  end.

Definition silc_client_del_client_entry (p : Z) : CM unit :=
  e <- read_client p;;
  event (silc_client_ftp_session_free_client p);;
  match ce_op e with Some op => event (silc_async_abort op) | None => ret tt end;;
  update_client p (set_ce_op None);;
  match ce_ke e with Some _ => event (silc_client_abort_key_agreement p) | None => ret tt end;;
  free_client p.

(** silc_hash_table_get into a SilcChannelUser. *)
Definition get_user (t : UserTable) (htl : SilcHashTableList Z ptr)
  : CM (option (Z * SilcChannelUser) * SilcHashTableList Z ptr) :=
  match silc_hash_table_get t htl with
  | (None, htl) => ret (None, htl)
  | (Some e, htl) =>
      match he_context e with
      | None => fault BadPointer
      | Some chu => u <- read_user chu;; ret (Some (chu, u), htl)
      end
  end.

(** silc_hash_table_del(chu->client->channels, chu->channel) and the reverse. *)
Definition unlink_user (u : SilcChannelUser) : CM unit :=
  update_client (chu_client u)
    (fun e => set_ce_channels (user_table_del (chu_channel u) (ce_channels e)) e);;
  update_channel (chu_channel u)
    (fun c => set_ch_user_list (user_table_del (chu_client u) (ch_user_list c)) c).

Section unref.
Variables unref_client unref_channel : Z -> CM unit.

(** silc_client_del_channel, of a channel that is not NULL. *)
Definition del_channel_with (p : Z) : CM bool :=
  update_channel p (fun c => set_ch_deleted (u32 (ch_deleted c - 1)) c);;
  c <- read_channel p;;
  if negb (ch_deleted c =? 0) then ret false else unref_channel p;; ret true.

(** If channel became empty, delete it. *)
Definition del_if_empty (p : Z) : CM unit :=
  c <- read_channel p;;
  if silc_hash_table_count (ch_user_list c) =? 0 then del_channel_with p;; ret tt else ret tt.

(** The body of the loop of silc_client_remove_from_channels. *)
Definition remove_user (chu : Z) (u : SilcChannelUser) : CM unit :=
  lock_channel (chu_channel u);;
  unlink_user u;;
  del_if_empty (chu_channel u);;
  lock_channel (chu_channel u);;
  unref_client (chu_client u);;
  unref_channel (chu_channel u);;
  free_user chu.

Fixpoint remove_loop (fuel : nat) (p : Z) (htl : SilcHashTableList Z ptr)
  : CM (SilcHashTableList Z ptr) :=
  match fuel with
  | O => fault NoFuel
  | S fuel =>
      e <- read_client p;;
      r <- get_user (ce_channels e) htl;;
      match r with
      | (None, htl) => ret htl
      | (Some (chu, u), htl) => remove_user chu u;; remove_loop fuel p htl
      end
  end.

Definition remove_from_channels_with (p : Z) : CM unit :=
  e <- read_client p;;
  if silc_hash_table_count (ce_channels e) =? 0 then ret tt
  else
    let '(htl, t) := silc_hash_table_list (ce_channels e) in
    write_client p (set_ce_channels t e);;
    htl <- remove_loop (S (Z.to_nat (silc_hash_table_count t))) p htl;;
    update_client p (fun e => set_ce_channels (silc_hash_table_list_reset htl (ce_channels e)) e).

(** The body of the loop of silc_client_empty_channel. *)
Definition empty_user (chu : Z) (u : SilcChannelUser) : CM unit :=
  unlink_user u;;
  unref_client (chu_client u);;
  unref_channel (chu_channel u);;
  free_user chu.

Fixpoint empty_loop (fuel : nat) (p : Z) (htl : SilcHashTableList Z ptr)
  : CM (SilcHashTableList Z ptr) :=
  match fuel with
  | O => fault NoFuel
  | S fuel =>
      c <- read_channel p;;
      r <- get_user (ch_user_list c) htl;;
      match r with
      | (None, htl) => ret htl
      | (Some (chu, u), htl) => empty_user chu u;; empty_loop fuel p htl
      end
  end.

Definition empty_channel_with (p : Z) : CM unit :=
  c <- read_channel p;;
  let '(htl, t) := silc_hash_table_list (ch_user_list c) in
  write_channel p (set_ch_user_list t c);;
  htl <- empty_loop (S (Z.to_nat (silc_hash_table_count t))) p htl;;
  update_channel p (fun c => set_ch_user_list (silc_hash_table_list_reset htl (ch_user_list c)) c).

Definition unref_client_body (p : Z) : CM unit :=
  update_client p (fun e => set_ce_refcnt (u32 (ce_refcnt e - 1)) e);;
  e <- read_client p;;
  if 0 <? ce_refcnt e then ret tt
  else
    cache <- gets cc_client_cache;;
    ids <- gets cc_client_ids;;
    ok <- cache_result (cache_deleted (silc_idcache_del_by_context cache ids p None)) set_client_cache;;
    if (ok : bool) then remove_from_channels_with p;; silc_client_del_client_entry p else ret tt.

Definition unref_channel_body (p : Z) : CM unit :=
  update_channel p (fun c => set_ch_refcnt (u32 (ch_refcnt c - 1)) c);;
  c <- read_channel p;;
  if 0 <? ch_refcnt c then ret tt
  else
    cache <- gets cc_channel_cache;;
    ids <- gets cc_channel_ids;;
    ok <- match silc_idcache_find_by_context cache p with
          | Some _ => cache_result (cache_deleted (silc_idcache_del_by_context cache ids p None))
                        set_channel_cache
          | None => ret true
          end;;
    if (ok : bool) then
      empty_channel_with p;;
      silc_client_del_channel_private_keys p;;
      event (silc_schedule_task_del_by_context p);;
      free_channel p
    else ret tt.
End unref.

Definition unref_depth : nat := 2.

(** Both functions, by the depth of the calls. *)
Fixpoint unref (depth : nat) (client : bool) (p : Z) : CM unit :=
  match depth with
  | O => fault NoFuel
  | S depth =>
      if client then unref_client_body (unref depth true) (unref depth false) p
      else unref_channel_body (unref depth true) (unref depth false) p
  end.

Definition silc_client_unref_client (p : option Z) : CM unit :=
  match p with Some p => unref unref_depth true p | None => ret tt end.

Definition silc_client_unref_channel (p : option Z) : CM unit :=
  match p with Some p => unref unref_depth false p | None => ret tt end.

Definition silc_client_unref_server (p : option Z) : CM unit :=
  match p with
  | None => ret tt
  | Some p =>
      update_server p (fun e => set_se_refcnt (u32 (se_refcnt e - 1)) e);;
      e <- read_server p;;
      if 0 <? se_refcnt e then ret tt
      else
        cache <- gets cc_server_cache;;
        ids <- gets cc_server_ids;;
        match silc_idcache_find_by_context cache p with
        | Some _ => cache_result (cache_deleted (silc_idcache_del_by_context cache ids p None))
                      set_server_cache;; ret tt
        | None => ret tt
        end;;
        free_server p
  end.

Definition silc_client_del_channel (p : option Z) : CM bool :=
  match p with
  | Some p => del_channel_with (fun p => silc_client_unref_channel (Some p)) p
  | None => ret false
  end.

Definition silc_client_del_client (p : option Z) : CM bool :=
  match p with
  | None => ret false
  | Some p =>
      update_client p (fun e => set_ce_deleted (u32 (ce_deleted e - 1)) e);;
      e <- read_client p;;
      if negb (ce_deleted e =? 0) then ret false
      else
        match ce_op e with
        | Some op => event (silc_async_abort op);; update_client p (set_ce_op None)
        | None => ret tt
        end;;
        silc_client_unref_client (Some p);;
        ret true
  end.

Definition silc_client_del_server (p : option Z) : CM bool :=
  match p with
  | None => ret false
  | Some p =>
      update_server p (fun e => set_se_deleted (u32 (se_deleted e - 1)) e);;
      e <- read_server p;;
      if negb (se_deleted e =? 0) then ret false else silc_client_unref_server (Some p);; ret true
  end.

(** silc_client_list_free and its variants. *)
Fixpoint unref_all (unref : option Z -> CM unit) (l : list Z) : CM unit :=
  match l with [] => ret tt | p :: l => unref (Some p);; unref_all unref l end.

Definition silc_client_list_free (l : option (list Z)) : CM unit :=
  match l with Some l => unref_all silc_client_unref_client l | None => ret tt end.
Definition silc_client_list_free_channels (l : option (list Z)) : CM unit :=
  match l with Some l => unref_all silc_client_unref_channel l | None => ret tt end.
Definition silc_client_list_free_servers (l : option (list Z)) : CM unit :=
  match l with Some l => unref_all silc_client_unref_server l | None => ret tt end.

(** * Who is on a channel *)

Definition silc_client_on_channel (channel client_entry : Z) : CM (option Z) :=
  c <- read_channel channel;;
  ret (match silc_hash_table_find (ch_user_list c) client_entry with
       | Some e => he_context e
       | None => None
       end).

Definition silc_client_add_to_channel (channel client_entry cumode : Z) : CM bool :=
  on <- silc_client_on_channel channel client_entry;;
  match on with
  | Some _ => ret true
  | None =>
      chu <- alloc;;
      modify (fun s => set_cc_users
        (<[chu := {| chu_client := client_entry; chu_mode := cumode; chu_channel := channel |}]>
           (cc_users s)) s);;
      silc_client_ref_client client_entry;;
      silc_client_ref_channel channel;;
      update_channel channel
        (fun c => set_ch_user_list (user_table_add client_entry chu (ch_user_list c)) c);;
      update_client client_entry
        (fun e => set_ce_channels (user_table_add channel chu (ce_channels e)) e);;
      ret true
  end.

Definition silc_client_remove_from_channel (channel client_entry : Z) : CM bool :=
  on <- silc_client_on_channel channel client_entry;;
  match on with
  | None => ret false
  | Some chu =>
      lock_client client_entry;;
      lock_channel channel;;
      u <- read_user chu;;
      unlink_user u;;
      free_user chu;;
      del_if_empty (fun p => silc_client_unref_channel (Some p)) channel;;
      lock_client client_entry;;
      lock_channel channel;;
      silc_client_unref_client (Some client_entry);;
      silc_client_unref_channel (Some channel);;
      ret true
  end.

Definition silc_client_remove_from_channels (client_entry : Z) : CM unit :=
  remove_from_channels_with (fun p => silc_client_unref_client (Some p))
    (fun p => silc_client_unref_channel (Some p)) client_entry.

Definition silc_client_empty_channel (channel : Z) : CM unit :=
  empty_channel_with (fun p => silc_client_unref_client (Some p))
    (fun p => silc_client_unref_channel (Some p)) channel.

(** * Finding entries *)

Definition silc_client_get_client_by_id (client_id : option SilcID) : CM (option Z) :=
  match client_id with
  | None => ret None
  | Some id =>
      cache <- gets cc_client_cache;;
      ids <- gets cc_client_ids;;
      found <- cache_context ids (silc_idcache_find_by_id_one cache id);;
      match found with
      | Some p => silc_client_ref_client p;; ret (Some p)
      | None => ret None
      end
  end.

Definition silc_client_get_channel_by_id (channel_id : option SilcID) : CM (option Z) :=
  match channel_id with
  | None => ret None
  | Some id =>
      cache <- gets cc_channel_cache;;
      ids <- gets cc_channel_ids;;
      found <- cache_context ids (silc_idcache_find_by_id_one cache id);;
      match found with
      | Some p => silc_client_ref_channel p;; ret (Some p)
      | None => ret None
      end
  end.

Definition silc_client_get_server_by_id (server_id : option SilcID) : CM (option Z) :=
  match server_id with
  | None => ret None
  | Some id =>
      cache <- gets cc_server_cache;;
      ids <- gets cc_server_ids;;
      found <- cache_context ids (silc_idcache_find_by_id_one cache id);;
      match found with
      | Some p => silc_client_ref_server p;; ret (Some p)
      | None => ret None
      end
  end.
End entry.
