(* ===== verification/ClientDb.v ===== *)
(** Finding, adding and changing the entries of the client library by name:
    src/lib/silcclient/client_entry.c. *)

From stdpp Require Import gmap sets list strings.
From S2P Require Import Prelude CTypes Id HashTable HashTableSpec HashKeys SilcList IdCache ClientNick ClientState ClientEntry.

#[local] Open Scope client_scope.

Section db.
Context `{ClientObjects} `{ClientStrings} (params : SilcClientParams).

(** * Clients *)

(** Which of the clients with the name are taken: the first loop. *)
Fixpoint take_all (get_valid : bool) (l : list (option Z)) : CM (list Z) :=
  match l with
  | [] => ret []
  | None :: l => take_all get_valid l
  | Some p :: l =>
      entry <- read_client p;;
      if negb get_valid || ce_valid entry
      then silc_client_ref_client p;; l <- take_all get_valid l;; ret (p :: l)
      else take_all get_valid l
  end.

(** The second loop: [nick] is compared with the nicknames, [first] stops at the
    first match. *)
Fixpoint take_matching (get_valid first : bool) (server nick : list Z) (l : list (option Z))
  : CM (list Z) :=
  match l with
  | [] => ret []
  | None :: l => take_matching get_valid first server nick l
  | Some p :: l =>
      entry <- read_client p;;
      if negb (bool_decide (server = [])) && negb (silc_utf8_strcasecmp (ce_server entry) server)
      then take_matching get_valid first server nick l
      else if silc_utf8_strcasecmp (ce_nickname entry) nick && (negb get_valid || ce_valid entry)
      then
        silc_client_ref_client p;;
        if first then ret [p]
        else l <- take_matching get_valid first server nick l;; ret (p :: l)
      else take_matching get_valid first server nick l
  end.

(** The list is NULL, or has clients. *)
Definition silc_client_get_clients_local_ext (nickname : list Z) (get_all get_valid : bool)
  : CM (option (list Z)) :=
  let '(_, nick, server) := silc_parse_userfqdn (Some nickname) 129 257 in
  match silc_client_nickname_parse (cp_nickname_format params) nick with
  | None => ret None
  | Some parsed =>
      let format := if negb get_all then match parsed with Some _ => Some nick | None => None end
                    else None in
      let parsed := match parsed with Some p => p | None => nick end in
      match silc_identifier_check parsed 128 with
      | None => ret None
      | Some nicknamec =>
          cache <- gets cc_client_cache;;
          ids <- gets cc_client_ids;;
          list <- find_by_name cache ids nicknamec;;
          match list with
          | None => ret None
          | Some list =>
              clients <- (if match format with None => get_all | Some _ => false end
                          then take_all get_valid list
                          else take_matching get_valid
                                 match format with None => true | Some _ => false end server
                                 match format with Some f => f | None => parsed end list);;
              ret (if bool_decide (clients = []) then None else Some clients)
          end
      end
  end.

Definition silc_client_get_clients_local (nickname : list Z) (return_all : bool) :=
  silc_client_get_clients_local_ext nickname return_all true.

(** The first other client of the list that is valid and has its nickname as it is. *)
Fixpoint find_unformatted (p : Z) (clients : list Z) : CM (option Z) :=
  match clients with
  | [] => ret None
  | c :: clients =>
      entry <- read_client c;;
      if negb (ce_valid entry) then find_unformatted p clients
      else if c =? p then find_unformatted p clients
      else
        match ce_nickname_normalized entry with
        | None => fault BadPointer
        | Some n => if silc_utf8_strcasecmp (ce_nickname entry) n then ret (Some c)
                    else find_unformatted p clients
        end
  end.

Fixpoint nicknames (clients : list Z) : CM (list (list Z)) :=
  match clients with
  | [] => ret []
  | c :: clients => e <- read_client c;; l <- nicknames clients;; ret (ce_nickname e :: l)
  end.

(** The nickname by the format, for the client that gets one. *)
Definition format_client (client_entry : Z) (formatted : bool) (clients : list Z)
  : CM (option Z) :=
  if formatted then silc_client_list_free (Some clients);; ret (Some client_entry)
  else
    e <- read_client client_entry;;
    names <- nicknames clients;;
    match nick_loop (ce_nickname e) (ce_hostname e) names (cp_nickname_format params) [] with
    | None => fault BufferOverflow
    | Some newnick =>
        update_client client_entry (set_ce_nickname newnick);;
        silc_client_list_free (Some clients);;
        ret (Some client_entry)
    end.

(** The client that was formatted. *)
Definition silc_client_nickname_format (client_entry : Z) (priority : bool) : CM (option Z) :=
  match cp_nickname_format params with
  | [] => ret (Some client_entry)
  | _ =>
      e <- read_client client_entry;;
      match ce_nickname e with
      | [] => ret None
      | _ =>
          clients <- silc_client_get_clients_local_ext (ce_nickname e) true false;;
          match clients with
          | None => ret None
          | Some clients =>
              if (zlen clients =? 1) && negb priority && negb (cp_nickname_force_format params)
              then silc_client_list_free (Some clients);; ret (Some client_entry)
              else
                let formatted :=
                  match ce_nickname_normalized e with
                  | Some n => negb (silc_utf8_strcasecmp (ce_nickname e) n)
                  | None => false
                  end && negb (cp_nickname_force_format params) in
                unformatted <- find_unformatted client_entry clients;;
                if bool_decide (unformatted = None) && negb formatted
                then silc_client_list_free (Some clients);; ret (Some client_entry)
                else if priority then
                  cp <- (if formatted
                         then ret (silc_client_nickname_parse (cp_nickname_format params)
                                     (ce_nickname e))
                         else ret (Some None));;
                  match cp with
                  | None => ret None
                  | Some cp =>
                      match cp with
                      | Some n => update_client client_entry (set_ce_nickname (strncat_new 257 n))
                      | None => ret tt
                      end;;
                      match unformatted with
                      | None => silc_client_list_free (Some clients);; ret (Some client_entry)
                      | Some u => format_client u false clients
                      end
                  end
                else format_client client_entry formatted clients
          end
      end
  end.

(** The structure that silc_calloc gives, with its counters. *)
Definition client_new (id : SilcID) (mode : Z) (channels : UserTable) : SilcClientEntry :=
  {| ce_nickname := []; ce_username := []; ce_hostname := []; ce_server := []; ce_realname := None;
     ce_nickname_normalized := None; ce_id := id; ce_mode := mode; ce_public_key := None;
     ce_channels := channels; ce_ke := None; ce_op := None; ce_refcnt := 0; ce_deleted := 1;
     ce_resolve_cmd_ident := 0; ce_valid := false |}.

(** The members that come from the names. *)
Definition client_named (nickname username : option (list Z)) (userinfo : option (list Z))
    (e : SilcClientEntry) : list Z * SilcClientEntry :=
  let '(_, parsed, server) := silc_parse_userfqdn nickname 129 257 in
  let '(_, user, host) := silc_parse_userfqdn username 129 257 in
  let nick := match nickname with
              | Some n => if cp_full_nicknames params then strncat_new 257 n else strncat_new 257 parsed
              | None => []
              end in
  (parsed, set_ce_realname userinfo (set_ce_server server (set_ce_nickname nick
             (set_ce_username user (set_ce_hostname host e))))).

(** The entry is in use from the time it is in the cache on. *)
Definition silc_client_add_client (nickname username userinfo : option (list Z)) (id : SilcID)
    (mode : Z) : CM (option Z) :=
  match user_table_alloc with
  | None => ret None
  | Some channels =>
      let '(parsed, e) := client_named nickname username userinfo (client_new id mode channels) in
      let nick := match ce_nickname e with
                  | [] => Some None
                  | _ => option_map Some (silc_identifier_check parsed 128)
                  end in
      match nick with
      | None => ret None
      | Some nick =>
          p <- alloc;;
          a <- alloc;;
          cache <- gets cc_client_cache;;
          ids <- gets cc_client_ids;;
          let '(added, cache, ids) := silc_idcache_add cache ids (Some a) nick (Some id) (Some p) in
          modify (set_client_cache (cache, ids));;
          match added with
          | None => ret None
          | Some _ =>
              write_client p (set_ce_nickname_normalized nick e);;
              silc_client_ref_client p;;
              silc_client_nickname_format p false;;
              update_client p
                (fun e => if bool_decide (ce_nickname e = []) then e else set_ce_valid true e);;
              ret (Some p)
          end
      end
  end.

(** An ID that is updated in the cache is the one in the entry. *)
Definition client_cache_update (p : Z) (new_id : option SilcID) (name : option (list Z)) : CM bool :=
  cache <- gets cc_client_cache;;
  ids <- gets cc_client_ids;;
  ok <- cache_result (silc_idcache_update_by_context cache ids p new_id name) set_client_cache;;
  match new_id with
  | Some id => if (ok : bool) then update_client p (set_ce_id id);; ret ok else ret ok
  | None => ret ok
  end.

(** [client_entry == conn->local_entry] *)
Definition is_local (p : Z) : CM bool :=
  local <- gets cc_local_entry;; ret (bool_decide (local = Some p)).

(** The hostname gets at most the size of the user name. *)
Definition silc_client_update_client (p : Z) (nickname username userinfo : option (list Z))
    (mode : Z) : CM unit :=
  update_client p (fun e => match ce_realname e, userinfo with
                            | None, Some u => set_ce_realname (Some u) e
                            | _, _ => e
                            end);;
  update_client p (fun e =>
    match username with
    | Some u =>
        if bool_decide (ce_username e = []) || bool_decide (ce_hostname e = [])
        then let '(_, user, host) := silc_parse_userfqdn (Some u) 129 129 in
             set_ce_username user (set_ce_hostname host e)
        else e
    | None => e
    end);;
  e <- read_client p;;
  go_on <-
    match ce_nickname e, nickname with
    | [], Some n =>
        let '(_, parsed, server) := silc_parse_userfqdn (Some n) 129 257 in
        update_client p (set_ce_server server);;
        update_client p (set_ce_nickname (strncat_new 257 (if cp_full_nicknames params then n else parsed)));;
        match silc_identifier_check parsed 128 with
        | None => ret false
        | Some nick =>
            local <- is_local p;;
            silc_client_nickname_format p local;;
            client_cache_update p None (Some nick);;
            update_client p (fun e => set_ce_valid true (set_ce_nickname_normalized (Some nick) e));;
            ret true
        end
    | _, _ => ret true
    end;;
  if (go_on : bool) then update_client p (set_ce_mode mode) else ret tt.

(** A nickname that does not fit its array is written behind it. *)
Definition silc_client_change_nickname (p : Z) (new_nick : list Z) (new_id : option SilcID)
    (idp : list Z) : CM bool :=
  match silc_identifier_check new_nick 128 with
  | None => ret false
  | Some tmp =>
      ok <- client_cache_update p new_id (Some tmp);;
      if negb ok then ret false
      else if 256 <? zlen new_nick then fault BufferOverflow
      else
        update_client p (fun e => set_ce_nickname_normalized (Some tmp) (set_ce_nickname new_nick e));;
        local <- is_local p;;
        silc_client_nickname_format p local;;
        (if (local : bool) then
           match idp with [] => ret tt | _ => event (local_idp_put idp) end;;
           match new_id with
           | Some _ => e <- read_client p;; event (silc_packet_set_ids (ce_id e))
           | None => ret tt
           end
         else ret tt);;
        update_client p (set_ce_valid true);;
        ret true
  end.

Definition silc_client_get_client (client_id : SilcID) : CM (option Z) :=
  found <- silc_client_get_client_by_id (Some client_id);;
  match found with
  | Some p => ret (Some p)
  | None =>
      p <- silc_client_add_client None None None client_id 0;;
      match p with
      | None => ret None
      | Some p => silc_client_ref_client p;; ret (Some p)
      end
  end.

(** * Channels *)

(** The channel of the list with the server, or the first of this server. *)
Fixpoint find_on_server (server remote_host : list Z) (l : list (option Z)) : CM (option Z) :=
  match l with
  | [] => ret None
  | None :: _ => fault BadPointer
  | Some p :: l =>
      entry <- read_channel p;;
      let found :=
        match server with
        | [] => bool_decide (ch_server entry = []) || silc_utf8_strcasecmp (ch_server entry) remote_host
        | _ => negb (bool_decide (ch_server entry = [])) && silc_utf8_strcasecmp (ch_server entry) server
        end in
      if found then ret (Some p) else find_on_server server remote_host l
  end.

Definition silc_client_get_channel (remote_host channel : list Z) : CM (option Z) :=
  let '(_, chname, server) := silc_parse_userfqdn (Some channel) 257 257 in
  match silc_channel_name_check chname 256 with
  | None => ret None
  | Some channel =>
      cache <- gets cc_channel_cache;;
      ids <- gets cc_channel_ids;;
      list <- find_by_name cache ids channel;;
      match list with
      | None => ret None
      | Some list =>
          entry <- find_on_server server remote_host list;;
          match entry with
          | None => ret None
          | Some p => silc_client_ref_channel p;; ret (Some p)
          end
      end
  end.

Definition channel_new (name server : list Z) (id : SilcID) (mode : Z) (users : UserTable)
  : SilcChannelEntry :=
  {| ch_channel_name := name; ch_server := server; ch_topic := None; ch_founder_key := None;
     ch_channel_pubkeys := None; ch_id := id; ch_mode := mode; ch_user_limit := 0;
     ch_user_list := users; ch_cipher := None; ch_hmac := None; ch_old_channel_keys := None;
     ch_old_hmacs := None; ch_private_keys := None; ch_curr_key := None; ch_send_key := None;
     ch_receive_key := None; ch_hmac_key := None; ch_refcnt := 0; ch_deleted := 1;
     ch_resolve_cmd_ident := 0 |}.

Definition silc_client_add_channel (channel_name : list Z) (mode : Z) (channel_id : SilcID)
  : CM (option Z) :=
  let '(_, name, server) := silc_parse_userfqdn (Some channel_name) 257 257 in
  match user_table_alloc, silc_channel_name_check name 256 with
  | Some users, Some namec =>
      let c := channel_new (if cp_full_channel_names params then channel_name else name) server
                 channel_id mode users in
      p <- alloc;;
      a <- alloc;;
      cache <- gets cc_channel_cache;;
      ids <- gets cc_channel_ids;;
      let '(added, cache, ids) :=
        silc_idcache_add cache ids (Some a) (Some namec) (Some channel_id) (Some p) in
      modify (set_channel_cache (cache, ids));;
      match added with
      | None => ret None
      | Some _ => write_channel p c;; silc_client_ref_channel p;; ret (Some p)
      end
  | _, _ => ret None
  end.

(** The return value is FALSE whatever happens. *)
Definition silc_client_replace_channel_id (p : Z) (new_id : option SilcID) : CM bool :=
  let ret_value := false in
  match new_id with
  | None => ret false
  | Some id =>
      lock_channel p;;
      cache <- gets cc_channel_cache;;
      ids <- gets cc_channel_ids;;
      ok <- cache_result (silc_idcache_update_by_context cache ids p (Some id) None) set_channel_cache;;
      (if (ok : bool) then update_channel p (set_ch_id id) else ret tt);;
      ret ret_value
  end.

(** * Servers *)

Definition silc_client_get_server (server_name : list Z) : CM (option Z) :=
  match silc_identifier_check server_name 256 with
  | None => ret None
  | Some name =>
      cache <- gets cc_server_cache;;
      ids <- gets cc_server_ids;;
      found <- cache_context ids (silc_idcache_find_by_name_one cache name);;
      match found with
      | Some p => silc_client_ref_server p;; ret (Some p)
      | None => ret None
      end
  end.

Definition silc_client_add_server (server_name server_info : option (list Z))
    (server_id : option SilcID) : CM (option Z) :=
  match server_id with
  | None => ret None
  | Some id =>
      let namec := match server_name with
                   | None => Some None
                   | Some n => option_map Some (silc_identifier_check n 256)
                   end in
      match namec with
      | None => ret None
      | Some namec =>
          p <- alloc;;
          a <- alloc;;
          cache <- gets cc_server_cache;;
          ids <- gets cc_server_ids;;
          let '(added, cache, ids) := silc_idcache_add cache ids (Some a) namec (Some id) (Some p) in
          modify (set_server_cache (cache, ids));;
          match added with
          | None => ret None
          | Some _ =>
              write_server p {| se_server_name := server_name; se_server_info := server_info;
                                se_id := id; se_public_key := None; se_refcnt := 0;
                                se_deleted := 1; se_resolve_cmd_ident := 0 |};;
              silc_client_ref_server p;;
              ret (Some p)
          end
      end
  end.

(** Whether a name or info is not there, or another one. *)
Definition differs (old : option (list Z)) (new : list Z) : bool :=
  match old with None => true | Some old => negb (silc_utf8_strcasecmp old new) end.

Definition silc_client_update_server (p : Z) (server_name server_info : option (list Z)) : CM unit :=
  e <- read_server p;;
  go_on <-
    match server_name with
    | Some n =>
        if differs (se_server_name e) n then
          match silc_identifier_check n 256 with
          | None => ret false
          | Some namec =>
              update_server p (set_se_server_name (Some n));;
              cache <- gets cc_server_cache;;
              ids <- gets cc_server_ids;;
              cache_result (silc_idcache_update_by_context cache ids p None (Some namec))
                set_server_cache;;
              ret true
          end
        else ret true
    | None => ret true
    end;;
  match server_info with
  | Some i =>
      if (go_on : bool) && differs (se_server_info e) i
      then update_server p (set_se_server_info (Some i)) else ret tt
  | None => ret tt
  end.
End db.
