(* ===== verification/ClientTables.v ===== *)
(** The tables of who is on a channel hold a finite map from the addresses of entries
    to those of the SilcChannelUser structures, also while they are walked and the
    users that are found are taken out. *)

From stdpp Require Import gmap sets list strings.
From S2P Require Import Prelude CTypes Id HashTable HashTableSpec HashKeys SilcList IdCache ClientNick ClientState ClientEntry.

(** * The map of a table *)

Abbreviation user_entry := (SilcHashTableEntry Z ptr).

Definition entry_pair (e : user_entry) : option (Z * Z) := pair (he_key e) <$> he_context e.

Definition user_map (t : UserTable) : gmap Z Z :=
  list_to_map (omap entry_pair (concat (ht_table t))).

Definition map_entry (kv : Z * Z) : user_entry := {| he_key := kv.1; he_context := Some kv.2 |}.
Definition map_entries (m : gmap Z Z) : list user_entry := map_entry <$> map_to_list m.

Record table_holds (t : UserTable) (m : gmap Z Z) : Prop := {
  th_configured : configured silc_hash_ptr None None None None None t;
  th_wf : ht_wf silc_hash_ptr None t;
  th_entries : concat (ht_table t) ≡ₚ map_entries m;
}.

Lemma omap_map_entry (l : list (Z * Z)) : omap entry_pair (map_entry <$> l) = l.
Proof. induction l as [|[k v] l IH]; [done|]. cbn. by f_equal. Qed.

Lemma holds_map t m : table_holds t m -> user_map t = m.
Proof.
  intros [_ _ He]. unfold user_map.
  assert (omap entry_pair (concat (ht_table t)) ≡ₚ map_to_list m) as Hp.
  { rewrite He. unfold map_entries. by rewrite omap_map_entry. }
  rewrite <- (list_to_map_to_list m). apply list_to_map_proper; [|done].
  rewrite Hp. apply NoDup_fst_map_to_list.
Qed.

Lemma in_map_entries m (e : user_entry) :
  In e (map_entries m) <-> exists v : Z, m !! he_key e = Some v /\ he_context e = Some v.
Proof.
  unfold map_entries. rewrite <- list_elem_of_In, list_elem_of_fmap. split.
  - intros ([k v] & -> & Hin%elem_of_map_to_list). by exists v.
  - intros (v & Hk & Hc). exists (he_key e, v). split; [|by apply elem_of_map_to_list].
    destruct e as [k c]. cbn in *. by subst.
Qed.

Lemma holds_in t m e :
  table_holds t m -> In e (concat (ht_table t)) <->
  exists v : Z, m !! he_key e = Some v /\ he_context e = Some v.
Proof.
  intros [_ _ He]. rewrite <- in_map_entries.
  split; apply Permutation_in; [done|by symmetry].
Qed.

Abbreviation with_key := (same_key (K := Z) (C := ptr) (U := Z) None None).

Lemma with_key_iff k e : with_key k e = true <-> he_key e = k.
Proof. unfold same_key. cbn. apply bool_decide_eq_true. Qed.

Lemma filter_unique (l : list user_entry) e :
  base.NoDup (he_key <$> l) -> In e l -> List.filter (with_key (he_key e)) l = [e].
Proof.
  induction l as [|x l IH]; [done|]. cbn [fmap list_fmap List.filter].
  intros [Hx Hn]%list.NoDup_cons [->|He].
  - rewrite (proj2 (with_key_iff (he_key e) e) eq_refl). f_equal. apply filter_none. intros y Hy.
    apply not_true_iff_false. intros E%with_key_iff. apply Hx. rewrite <- E.
    by apply list_elem_of_fmap_2, list_elem_of_In.
  - destruct (with_key (he_key e) x) eqn:E; [|by apply IH]. exfalso.
    apply with_key_iff in E. apply Hx. rewrite E. by apply list_elem_of_fmap_2, list_elem_of_In.
Qed.

Lemma filter_of_map m (l : list user_entry) k :
  l ≡ₚ map_entries m ->
  List.filter (with_key k) l = match m !! k with Some v => [map_entry (k, v)] | None => [] end.
Proof.
  intros Hl.
  assert (base.NoDup (he_key <$> l)) as Hn.
  { rewrite Hl. unfold map_entries. rewrite <- list_fmap_compose. apply NoDup_fst_map_to_list. }
  assert (forall e, In e l <-> exists v : Z, m !! he_key e = Some v /\ he_context e = Some v) as Hin.
  { intros e. rewrite <- in_map_entries. split; apply Permutation_in; [done|by symmetry]. }
  destruct (m !! k) as [v|] eqn:Ek.
  - apply (filter_unique l (map_entry (k, v)) Hn). apply Hin. by exists v.
  - apply filter_none. intros e He. apply not_true_iff_false. intros <-%with_key_iff.
    apply Hin in He as (v & Hv & _). by rewrite Ek in Hv.
Qed.

Lemma holds_represents t m :
  table_holds t m -> represents silc_hash_ptr None None None t (map_entries m).
Proof.
  intros [_ Hwf He]. split; [done| |done]. intros k.
  by rewrite (filter_of_map m _ k He), (filter_of_map m (map_entries m) k).
Qed.

Lemma represents_holds t m l :
  configured silc_hash_ptr None None None None None t ->
  represents silc_hash_ptr None None None t l -> l ≡ₚ map_entries m -> table_holds t m.
Proof. intros Hc [Hwf _ He] Hl. split; [done..|]. by rewrite He. Qed.

(** * Operations *)

Lemma user_table_alloc_holds : exists t, user_table_alloc = Some t /\ table_holds t ∅.
Proof.
  unfold user_table_alloc. destruct (silc_hash_table_alloc _ _ _ _ _ _ _ _) as [t|] eqn:E; [|done].
  exists t. split; [done|].
  apply (alloc_represents silc_hash_ptr None None None None None) in E as [Hc Hr].
  apply (represents_holds t ∅ [] Hc Hr). unfold map_entries. by rewrite map_to_list_empty.
Qed.

Lemma user_table_find t m k :
  table_holds t m -> silc_hash_table_find t k = (fun v => map_entry (k, v)) <$> m !! k.
Proof.
  intros Ht. pose proof (holds_represents t m Ht) as Hr. destruct Ht as [(E1 & E2 & E3 & E4 & _) _ _].
  unfold silc_hash_table_find, silc_hash_table_find_ext, silc_hash_table_find_internal_simple.
  cbn [fun_or ptr_or]. rewrite E1, E2, E3, E4.
  rewrite (find_represents silc_hash_ptr None None None t (map_entries m) k _ Hr) by done.
  fold (with_key k). rewrite (filter_of_map m _ k) by done. by destruct (m !! k).
Qed.

Lemma user_table_add_holds t m k v :
  table_holds t m -> m !! k = None -> table_holds (user_table_add k v t) (<[k := v]> m).
Proof.
  intros Ht Hk. pose proof (holds_represents t m Ht) as Hr. destruct Ht as [Hc _ _].
  pose proof (add_represents silc_hash_ptr None None None None None t _ k (Some v) Hc Hr) as A.
  unfold user_table_add. destruct (silc_hash_table_add _ _ _) as [ok t']. destruct A as (_ & Hc' & Hr').
  apply (represents_holds t' _ _ Hc' Hr'). unfold map_entries.
  rewrite (map_to_list_insert m k v Hk). cbn. by rewrite Permutation_app_comm.
Qed.

(** A deletion by the table's own functions. *)
Lemma user_table_del_eq t k :
  configured silc_hash_ptr None None None None None t ->
  user_table_del k t =
  (let i := SILC_HASH_TABLE_HASH t silc_hash_ptr k None in
   del_found t (i, find_chain (with_key k) (ht_bucket t i)) (ht_destroy t)).2.
Proof.
  intros (E1 & E2 & E3 & E4 & _). unfold user_table_del, silc_hash_table_del.
  unfold silc_hash_table_find_internal. by rewrite E1, E2, E3, E4.
Qed.

Lemma user_table_del_holds t m k :
  table_holds t m -> table_holds (user_table_del k t) (delete k m).
Proof.
  intros Ht. pose proof (holds_represents t m Ht) as Hr. destruct Ht as [Hc _ _].
  rewrite (user_table_del_eq t k Hc).
  pose proof (delete_represents silc_hash_ptr None None None None None t _ k (with_key k) Hc Hr
    ltac:(done)) as D. cbv zeta in D |- *. destruct (del_found _ _ _) as [[ok calls] t'].
  unfold spec_delete in D. rewrite (filter_of_map m _ k) in D by done.
  destruct (m !! k) as [v|] eqn:Ek.
  - destruct D as (_ & Hc' & Hr'). apply (represents_holds t' _ _ Hc' Hr').
    apply (Permutation_cons_inv (a := map_entry (k, v))).
    rewrite <- (remove_first_perm (with_key k) (map_entries m) (map_entry (k, v)) []).
    + unfold map_entries. rewrite <- (map_to_list_delete m k v Ek). done.
    + rewrite (filter_of_map m _ k) by done. by rewrite Ek.
  - destruct D as (_ & Hc' & Hr'). rewrite delete_id by done. by apply (represents_holds t' _ _ Hc' Hr').
Qed.

Lemma user_table_count t m :
  table_holds t m -> Z.of_nat (size m) < 2 ^ 32 -> silc_hash_table_count t = Z.of_nat (size m).
Proof.
  intros [_ Hwf He] Hs. unfold silc_hash_table_count. rewrite (wf_count _ _ _ Hwf), He.
  unfold map_entries. rewrite length_fmap, length_map_to_list. by apply u32_id; lia.
Qed.

Lemma set_auto_rehash_holds t m b : table_holds t m -> table_holds (set_auto_rehash b t) m.
Proof. by intros [? [] ?]. Qed.

(** * Walking a table and taking out what is found *)

Abbreviation bucket t k := (bucket_index (K := Z) (C := ptr) (U := Z) (D := unit) silc_hash_ptr None t k).

(** What silc_hash_table_get still finds is what the table holds. *)
Record walking (t : UserTable) (htl : SilcHashTableList Z ptr) (m : gmap Z Z) : Prop := {
  wk_holds : table_holds t m;
  wk_static : ht_auto_rehash t = false;
  wk_index : 0 <= htl_index htl;
  wk_entry e : In e (htl_entry htl) -> (bucket t (he_key e) < Z.to_nat (htl_index htl))%nat;
  wk_remaining : remaining t (htl_entry htl) (htl_index htl) ≡ₚ map_entries m;
}.

Lemma walking_start t m :
  table_holds t m ->
  let '(htl, t') := silc_hash_table_list t in walking t' htl m.
Proof.
  intros Ht. cbn [silc_hash_table_list]. split; [by apply set_auto_rehash_holds|done..|].
  unfold remaining. cbn. by destruct Ht.
Qed.

(** The entries of the chain that is reached are in buckets before the index. *)
Lemma list_get_loop_buckets t fuel e i :
  ht_wf silc_hash_ptr None t -> 0 <= i ->
  (forall x, In x e -> (bucket t (he_key x) < Z.to_nat i)%nat) ->
  let '(e', i') := list_get_loop fuel t e i in
  forall x, In x e' -> (bucket t (he_key x) < Z.to_nat i')%nat.
Proof.
  intros Hwf. revert e i; induction fuel as [|fuel IH]; intros e i Hi He; [done|]. cbn [list_get_loop].
  destruct e as [|y e]; [|done].
  destruct (Z.ltb_spec i (primesize_at (ht_table_size t))) as [Hlt|]; [|done].
  apply IH; [lia|]. intros x Hx. pose proof Hwf as [_ Hz _ Hp].
  destruct (lookup_lt_is_Some_2 (ht_table t) (Z.to_nat i)) as [b Hb]; [lia|].
  unfold ht_bucket in Hx. rewrite (nth_lookup_Some _ _ [] _ Hb) in Hx.
  unfold bucket_index. rewrite (Hp _ _ _ Hb Hx). lia.
Qed.

(** Without rehashing a deletion changes one bucket. *)
Lemma user_table_del_static t k :
  configured silc_hash_ptr None None None None None t -> ht_auto_rehash t = false ->
  ht_auto_rehash (user_table_del k t) = false /\
  ht_table_size (user_table_del k t) = ht_table_size t /\
  forall n, (bucket t k < n)%nat -> drop n (ht_table (user_table_del k t)) = drop n (ht_table t).
Proof.
  intros Hc Hs. rewrite (user_table_del_eq t k Hc). cbv zeta.
  destruct (find_chain _ _) as [before [|e next]]; [done|]. cbn [del_found snd].
  unfold SILC_HASH_REHASH_DEC. cbn [ht_auto_rehash set_table]. rewrite Hs. cbn [andb].
  split_and!; [done..|]. intros n Hn. cbn [ht_table set_table]. unfold set_bucket.
  by rewrite drop_insert_lt.
Qed.

Lemma walking_step t htl m :
  walking t htl m -> Z.of_nat (size m) < 2 ^ 32 ->
  (m = ∅ /\ (silc_hash_table_get t htl).1 = None) \/
  (exists k v htl', m !! k = Some v /\ silc_hash_table_get t htl = (Some (map_entry (k, v)), htl') /\
     walking (user_table_del k t) htl' (delete k m)).
Proof.
  intros [Ht Hs Hi He Hr] Hm. unfold silc_hash_table_get.
  pose proof (user_table_count t m Ht Hm) as Hn. unfold silc_hash_table_count in Hn. rewrite Hn.
  destruct (Z.eqb_spec (Z.of_nat (size m)) 0) as [E|Hne].
  { left. split; [|done]. apply map_size_empty_iff. lia. }
  right. set (fuel := (_ + 1)%nat). pose proof Ht as [Hc Hwf Hp].
  pose proof (list_get_loop_remaining t fuel (htl_entry htl) (htl_index htl) (wf_table _ _ _ Hwf) Hi
    ltac:(lia)) as L.
  pose proof (list_get_loop_buckets t fuel (htl_entry htl) (htl_index htl) Hwf Hi He) as B.
  destruct (list_get_loop _ _ _ _) as [[|e next] i]; destruct L as (Er & Hle & Hnil).
  - rewrite (Hnil eq_refl) in Hr. exfalso. apply Hne.
    apply Permutation_length in Hr. unfold map_entries in Hr.
    rewrite length_fmap, length_map_to_list in Hr. cbn in Hr. lia.
  - rewrite <- Er in Hr. unfold remaining in Hr. cbn [app] in Hr.
    assert (In e (map_entries m)) as Hin by (eapply Permutation_in; [exact Hr|by left]).
    apply in_map_entries in Hin as (v & Hk & Hv).
    exists (he_key e), v. eexists. split; [done|]. split.
    { destruct e as [k c]. cbn in *. by subst. }
    destruct (user_table_del_static t (he_key e) Hc Hs) as (Hs' & Hz & Hd). split.
    + by apply user_table_del_holds.
    + done.
    + cbn. lia.
    + cbn [htl_entry htl_index]. intros x Hx. unfold bucket_index, SILC_HASH_TABLE_HASH. rewrite Hz.
      apply B. by right.
    + cbn [htl_entry htl_index]. unfold remaining. rewrite Hd by (apply B; by left).
      apply (Permutation_cons_inv (a := e)). rewrite Hr. unfold map_entries.
      rewrite <- (map_to_list_delete m (he_key e) v Hk). cbn.
      destruct e as [k c]. cbn in *. by subst.
Qed.
