(* ===== verification/ClientCache.v ===== *)
(** The ID caches of the client library: each holds one entry for every client,
    channel or server that is allocated, with its address as context and its ID. *)

From stdpp Require Import gmap sets list strings.
From S2P Require Import Prelude CTypes Id HashTable HashTableSpec HashKeys SilcList IdCache IdCacheSpec ClientNick ClientState ClientEntry.

(** [ids] are the IDs of the entries that are allocated. *)
Record cache_ok (type : Z) (c : SilcIDCache) (M : EntryHeap) (next : Z) (ids : gmap Z SilcID)
  : Prop := {
  ck_rep : cache_rep c M;
  ck_type : ic_id_type c = type;
  ck_entry (e : ptr) ent : M !! e = Some ent ->
    e < next /\ exists (p : Z) i, ice_context ent = Some p /\ ice_id ent = Some i /\ ids !! p = Some i;
  ck_has p : is_Some (ids !! p) -> exists e ent, M !! e = Some ent /\ ice_context ent = Some p;
  ck_once e e' ent ent' : M !! e = Some ent -> M !! e' = Some ent' ->
    ice_context ent = ice_context ent' -> e = e';
}.

Lemma cache_alloc_ok type c next :
  silc_type type -> silc_idcache_alloc 0 type false None = Some c -> cache_ok type c ∅ next ∅.
Proof.
  intros Ht Ha. split; [by eapply idcache_alloc_rep| |by intros ? ? ?%lookup_empty_Some
    |by intros p [? ?%lookup_empty_Some]|by intros ? ? ? ? ?%lookup_empty_Some].
  unfold silc_idcache_alloc in Ha. repeat case_match; try done. by injection Ha as <-.
Qed.

Section cache.
Context `{ClientObjects} (type : Z) (c : SilcIDCache) (M : EntryHeap) (next : Z) (ids : gmap Z SilcID).
Hypothesis Hok : cache_ok type c M next ids.

Lemma cache_ok_next next' : next <= next' -> cache_ok type c M next' ids.
Proof.
  intros Hle. destruct Hok as [? ? He ? ?]. split; try done.
  intros e ent Hent. destruct (He e ent Hent). split; [lia|done].
Qed.

(** An address that is not in use is added with an entry at the next address. *)
Lemma cache_add_ok (a : ptr) name id p next' :
  ids !! p = None -> next <= a < next' ->
  let '(r, c', M') := silc_idcache_add c M (Some a) name (Some id) (Some p) in
  match r with
  | Some _ => cache_ok type c' M' next' (<[p := id]> ids)
  | None => cache_ok type c' M' next' ids
  end /\ (size M' <= S (size M))%nat.
Proof.
  intros Hp Ha. destruct (cache_ok_next next' ltac:(lia)) as [Hr Ht He Hh Ho].
  assert (M !! a = None) as Hn.
  { destruct (M !! a) eqn:E; [|done]. destruct Hok as [_ _ He' _ _]. apply He' in E as [? _]. lia. }
  pose proof (silc_idcache_add_rep c M a name (Some id) (Some p) Hr Hn) as A. cbv zeta in A.
  destruct (silc_idcache_add _ _ _ _ _ _) as [[[r|] c'] M'].
  2: { destruct A as (? & ? & -> & _). split; [|lia]. split; [done|congruence|done..]. }
  destruct A as (Hr' & Ht' & -> & -> & _).
  split; [|by rewrite map_size_insert_None]. split; [done|congruence|..].
  - intros e ent [[<- <-]|[Hne Hent]]%lookup_insert_Some; cbn.
    + split; [lia|]. exists p, id. by rewrite lookup_insert_eq.
    + destruct (He e ent Hent) as (? & q & i & Hc & Hi & Hq). split; [done|]. exists q, i.
      rewrite lookup_insert_ne by congruence. done.
  - intros q Hq. destruct (decide (q = p)) as [->|Hne].
    + exists a. rewrite lookup_insert_eq. by eexists.
    + rewrite lookup_insert_ne in Hq by done. destruct (Hh q Hq) as (e & ent & Hent & Hc).
      exists e, ent. rewrite lookup_insert_ne by congruence. done.
  - assert (forall e ent, M !! e = Some ent -> ice_context ent <> Some p) as Hnp.
    { intros e ent Hent Hc. destruct (He e ent Hent) as (_ & q & i & Hc' & _ & Hq). congruence. }
    intros e e' ent ent' [[<- <-]|[? H1]]%lookup_insert_Some [[<- <-]|[? H2]]%lookup_insert_Some;
      cbn; intros E; [done|by destruct (Hnp _ _ H2)|by destruct (Hnp _ _ H1)|by eapply Ho].
Qed.

(** The entry of an address. *)
Lemma cache_found p i :
  ids !! p = Some i ->
  exists e ent, silc_idcache_find_by_context c p = Some (Some e) /\ M !! e = Some ent /\
    ice_context ent = Some p.
Proof.
  intros Hp. destruct Hok as [[_ _ _ [L Hx] _] _ He Hh Ho].
  pose proof (table_find_spec _ _ _ _ _ _ M L p Hx) as F. unfold silc_idcache_find_by_context.
  destruct (Hh p (mk_is_Some _ _ Hp)) as (e & ent & Hent & Hc).
  destruct (option_map he_context _) as [[e'|]|]; [|done|].
  - destruct F as (ent' & q & Hent' & Hq & ->%bool_decide_eq_true_1). by exists e', ent'.
  - specialize (F e ent p Hent Hc). by apply bool_decide_eq_false_1 in F.
Qed.

Lemma cache_del_ok p i :
  ids !! p = Some i ->
  exists calls c' M', silc_idcache_del_by_context c M p None = Some (true, calls, c', M') /\
    cache_ok type c' M' next (delete p ids).
Proof.
  intros Hp. destruct (cache_found p i Hp) as (e & ent & Hf & Hent & Hc).
  destruct Hok as [Hr Ht He Hh Ho].
  destruct (silc_idcache_del_rep c M e ent None Hr Hent) as (c' & E & Hr' & Ht').
  unfold silc_idcache_find_by_context in Hf. unfold silc_idcache_del_by_context. rewrite Hf.
  eexists _, c', _. split; [exact E|]. split; [done|congruence|..].
  - intros e' ent' [Hne Hent']%lookup_delete_Some. destruct (He _ _ Hent') as (? & q & j & Hq & Hj & Hqi).
    split; [done|]. exists q, j. rewrite lookup_delete_ne; [done|]. intros <-. apply Hne.
    apply (Ho e e' ent ent' Hent Hent'). congruence.
  - intros q [j [Hne Hq]%lookup_delete_Some]. destruct (Hh q) as (e' & ent' & Hent' & Hq'); [by eexists|].
    exists e', ent'. rewrite lookup_delete_ne by congruence. done.
  - intros e1 e2 ent1 ent2 [_ ?]%lookup_delete_Some [_ ?]%lookup_delete_Some. by eapply Ho.
Qed.

Lemma cache_update_ok p i new_id name :
  ids !! p = Some i ->
  exists c' M', silc_idcache_update_by_context c M p new_id name = Some (true, c', M') /\
    cache_ok type c' M' next (match new_id with Some j => <[p := j]> ids | None => ids end) /\
    size M' = size M.
Proof.
  intros Hp. destruct (cache_found p i Hp) as (e & ent & Hf & Hent & Hc).
  destruct Hok as [Hr Ht He Hh Ho].
  destruct (silc_idcache_update_rep c M e ent new_id name Hr Hent) as (c' & E & Hr' & Ht').
  unfold silc_idcache_find_by_context in Hf. unfold silc_idcache_update_by_context. rewrite Hf.
  exists c', (<[e := updated ent new_id name]> M). split; [exact E|].
  destruct (He e ent Hent) as (Hlt & q & i' & Hq & Hi' & Hqi).
  assert (q = p) as -> by congruence. assert (i' = i) as -> by congruence.
  split; [|by rewrite map_size_insert_Some by (by eexists)]. split; [done|congruence|..].
  - intros e' ent' [[<- <-]|[Hne Hent']]%lookup_insert_Some.
    + split; [done|]. exists p. destruct new_id as [j|]; cbn.
      * exists j. by rewrite lookup_insert_eq.
      * by exists i.
    + destruct (He e' ent' Hent') as (? & q & k & Hq' & Hk & Hqk). split; [done|]. exists q, k.
      destruct new_id; [|done]. rewrite lookup_insert_ne; [done|]. intros <-. apply Hne.
      apply (Ho e e' ent ent' Hent Hent'). congruence.
  - intros q Hq'. assert (is_Some (ids !! q)) as Hs.
    { destruct new_id; [|done]. destruct Hq' as [k [[<- _]|[_ ?]]%lookup_insert_Some]; by eexists. }
    destruct (Hh q Hs) as (e' & ent' & Hent' & Hc'). destruct (decide (e' = e)) as [->|Hne].
    + exists e. rewrite lookup_insert_eq. eexists. split; [done|]. cbn. congruence.
    + exists e', ent'. by rewrite lookup_insert_ne by done.
  - intros e1 e2 ent1 ent2 [[<- <-]|[? H1]]%lookup_insert_Some [[<- <-]|[? H2]]%lookup_insert_Some;
      cbn; intros E'; [done|by eapply (Ho e e2)|by eapply (Ho e1 e)|by eapply (Ho e1 e2)].
Qed.

(** * Finding by ID and by name *)

Lemma cache_find_id id s :
  (exists p i, cache_context M (silc_idcache_find_by_id_one c id) s = inr (Some p, s) /\
     ids !! p = Some i /\ SILC_ID_COMPARE_TYPE i id type = true) \/
  (cache_context M (silc_idcache_find_by_id_one c id) s = inr (None, s) /\
   forall p i, ids !! p = Some i -> SILC_ID_COMPARE_TYPE i id type = false).
Proof.
  destruct Hok as [Hr Ht He Hh Ho]. pose proof (find_by_id_one_spec c M id Hr) as F. rewrite Ht in F.
  unfold cache_context. destruct (silc_idcache_find_by_id_one c id) as [[e|]|]; [|done|].
  - destruct F as (ent & i & Hent & Hi & Hcmp). left.
    destruct (He e ent Hent) as (_ & p & j & Hc & Hj & Hp). exists p, j. rewrite Hent, Hc.
    split_and!; [done..|congruence].
  - right. split; [done|]. intros p i Hp. destruct (Hh p (mk_is_Some _ _ Hp)) as (e & ent & Hent & Hc).
    destruct (He e ent Hent) as (_ & q & j & Hc' & Hj & Hq). apply (F e ent i Hent). congruence.
Qed.

Lemma cache_find_name_one name s :
  exists r, cache_context M (silc_idcache_find_by_name_one c name) s = inr (r, s) /\
    match r with Some p => is_Some (ids !! p) | None => True end.
Proof.
  destruct Hok as [[_ _ [L Hn] _ _] Ht He Hh Ho].
  pose proof (table_find_spec _ _ _ _ _ _ M L name Hn) as F.
  unfold cache_context, silc_idcache_find_by_name_one.
  destruct (option_map he_context _) as [[e|]|]; [|done|by exists None].
  destruct F as (ent & n & Hent & _). destruct (He e ent Hent) as (_ & p & j & Hc & Hj & Hp).
  exists (Some p). rewrite Hent, Hc. by split.
Qed.

Lemma list_walk_nexts h l fuel L :
  nexts h l None -> sl_current L = hd_or l None -> sl_end_set L = false -> (length l < fuel)%nat ->
  list_walk fuel h L = Some l.
Proof.
  revert fuel L; induction l as [|p l IH]; intros fuel L Hn Hc Hs Hf;
    (destruct fuel as [|fuel]; [cbn in Hf; lia|]); cbn [list_walk]; unfold silc_list_get;
    rewrite Hc; cbn [hd_or]; [done|].
  rewrite Hs. destruct Hn as [Hn Hns].
  rewrite (IH fuel); [done|done|by rewrite Hn|done|cbn in Hf; lia].
Qed.

Lemma cache_contexts_found es s :
  Forall (fun e => is_Some (M !! e)) es -> base.NoDup es ->
  exists ps, cache_contexts M es s = inr (Some <$> ps, s) /\ base.NoDup ps /\
    (forall p, p ∈ ps -> exists e ent, e ∈ es /\ M !! e = Some ent /\ ice_context ent = Some p) /\
    Forall (fun p => is_Some (ids !! p)) ps.
Proof.
  induction es as [|e es IH]; intros HF Hn.
  { exists []. split_and!; [done|constructor|by intros p ?%elem_of_nil|constructor]. }
  apply list.Forall_cons in HF as [[ent Hent] HF]. apply list.NoDup_cons in Hn as [He Hn].
  destruct (IH HF Hn) as (ps & E & Hps & Hin & Hids). destruct Hok as [_ _ Hce _ Ho].
  destruct (Hce e ent Hent) as (_ & p & i & Hc & _ & Hp). exists (p :: ps). cbn [cache_contexts].
  rewrite Hent. unfold bind, ret. rewrite E. split_and!.
  - by rewrite Hc.
  - apply list.NoDup_cons. split; [|done]. intros (e' & ent' & He' & Hent' & Hc')%Hin.
    apply He. rewrite (Ho e e' ent ent' Hent Hent'); [done|congruence].
  - intros q [->|Hq]%elem_of_cons.
    + exists e, ent. split; [by left|done].
    + destruct (Hin q Hq) as (e' & ent' & ? & ?). exists e', ent'. split; [by right|done].
  - constructor; [by eexists|done].
Qed.

(** A search by name gives the addresses of entries, each once. *)
Lemma find_by_name_ok name s :
  Z.of_nat (size M) < 2 ^ 30 ->
  exists h, find_by_name c M name s = inr (None, set_cc_links h s) \/
  exists ps, find_by_name c M name s = inr (Some (Some <$> ps), set_cc_links h s) /\
    base.NoDup ps /\ Forall (fun p => is_Some (ids !! p)) ps.
Proof.
  intros Hs. destruct Hok as [[_ _ [L Hn] _ _] _ _ _ _].
  pose proof (find_list_spec _ _ _ _ _ _ M L name (cc_links s) silc_list_init Hn Hs) as F.
  change (if silc_hash_table_count _ =? 0 then _ else _)
    with (silc_idcache_find_by_name c name (cc_links s) silc_list_init) in F.
  unfold find_by_name. destruct F as (es & Hes & Hb & Hsome & Hl).
  destruct (silc_idcache_find_by_name _ _ _ _) as [found r]. cbn [fst snd] in *.
  destruct found.
  - destruct (Hl eq_refl) as (h & L' & -> & Hr). exists h. right.
    assert (Forall (fun e => is_Some (M !! e)) es) as HF.
    { apply list.Forall_forall. intros e (ent & n & He & _)%Hes. by eexists. }
    destruct (cache_contexts_found es (set_cc_links h s) HF (lr_nodup _ _ _ Hr))
      as (ps & E & Hps & _ & Hids).
    assert (Z.of_nat (length es) < 2 ^ 30) as Hlen.
    { assert (length es <= size M)%nat; [|lia].
      rewrite <- (size_dom (D := gset Z) M), <- (size_list_to_set (C := gset Z) es) by exact (lr_nodup _ _ _ Hr).
      apply subseteq_size. intros e He%elem_of_list_to_set. apply elem_of_dom.
      by apply (proj1 (list.Forall_forall _ _) HF). }
    rewrite (list_walk_nexts h es); [|apply (lr_nexts _ _ _ Hr)|by rewrite <- (lr_head _ _ _ Hr)|done|].
    + exists ps. unfold bind, ret. by rewrite E.
    + unfold silc_list_count. rewrite (lr_count _ _ _ Hr). unfold bits30. rewrite Z.mod_small by lia. lia.
  - destruct r as [[h l]|]; [|done]. exists h. by left.
Qed.
End cache.
