(* ===== verification/ClientInv.v ===== *)
(** What the state of the client library keeps between its operations: every entry is
    in its cache, the lists of channels and of users agree, and the reference counts
    count the references there are. *)

From stdpp Require Import gmap gmultiset sets list strings.
From S2P Require Import Prelude CTypes Id HashTable HashTableSpec SilcList IdCache IdCacheSpec ClientNick ClientState ClientEntry ClientTables ClientCache.

#[local] Open Scope client_scope.

(** * Runs *)

Section wp.
Context `{ClientObjects}.

(** A run that ends, ends in a state of [Q]; one that faults writes behind an array: it
    does not use memory that is not allocated, and has enough fuel. *)
Definition wp {A} (m : CM A) (Q : A -> ClientConn -> Prop) (s : ClientConn) : Prop :=
  match m s with inl f => f = BufferOverflow | inr (a, s') => Q a s' end.

Lemma wp_bind {A B} (m : CM A) (k : A -> CM B) Q s :
  wp m (fun a s' => wp (k a) Q s') s -> wp (bind m k) Q s.
Proof. unfold wp, bind. by destruct (m s) as [f|[a s']]. Qed.

Lemma wp_mono {A} (m : CM A) (Q Q' : A -> ClientConn -> Prop) s :
  wp m Q s -> (forall a s', Q a s' -> Q' a s') -> wp m Q' s.
Proof. unfold wp. destruct (m s) as [f|[a s']]; auto. Qed.

(** The rest of a program after a part with a specification. *)
Lemma wp_call {A B} (m : CM A) (k : A -> CM B) Q Q' s :
  wp m Q s -> (forall a s', Q a s' -> wp (k a) Q' s') -> wp (bind m k) Q' s.
Proof. intros Hm Hk. apply wp_bind. by eapply wp_mono. Qed.

Lemma wp_read {A B} (map : ClientConn -> gmap Z A) p a (k : A -> CM B) Q s :
  map s !! p = Some a -> wp (k a) Q s -> wp (bind (read map p) k) Q s.
Proof. intros Hp Hk. unfold wp, bind, read. by rewrite Hp. Qed.

Lemma wp_update_client {B} p e f (k : unit -> CM B) Q s :
  cc_clients s !! p = Some e -> wp (k tt) Q (set_cc_clients (<[p := f e]> (cc_clients s)) s) ->
  wp (bind (update_client p f) k) Q s.
Proof. intros Hp Hk. unfold wp, bind, update_client, read_client, read, bind. by rewrite Hp. Qed.

Lemma wp_update_channel {B} p c f (k : unit -> CM B) Q s :
  cc_channels s !! p = Some c -> wp (k tt) Q (set_cc_channels (<[p := f c]> (cc_channels s)) s) ->
  wp (bind (update_channel p f) k) Q s.
Proof. intros Hp Hk. unfold wp, bind, update_channel, read_channel, read, bind. by rewrite Hp. Qed.

Lemma wp_update_server {B} p c f (k : unit -> CM B) Q s :
  cc_servers s !! p = Some c -> wp (k tt) Q (set_cc_servers (<[p := f c]> (cc_servers s)) s) ->
  wp (bind (update_server p f) k) Q s.
Proof. intros Hp Hk. unfold wp, bind, update_server, read_server, read, bind. by rewrite Hp. Qed.

Lemma wp_gets {A B} (f : ClientConn -> A) (k : A -> CM B) Q s :
  wp (k (f s)) Q s -> wp (bind (gets f) k) Q s.
Proof. done. Qed.

Lemma wp_modify {B} f (k : unit -> CM B) Q s : wp (k tt) Q (f s) -> wp (bind (modify f) k) Q s.
Proof. done. Qed.

Lemma wp_event {B} v (k : unit -> CM B) Q s :
  wp (k tt) Q (set_cc_log (cc_log s ++ [v]) s) -> wp (bind (event v) k) Q s.
Proof. done. Qed.

Lemma wp_alloc {B} (k : Z -> CM B) Q s :
  wp (k (cc_next s)) Q (set_cc_next (cc_next s + 1) s) -> wp (bind alloc k) Q s.
Proof. done. Qed.

Lemma wp_ret {A} (a : A) (Q : A -> ClientConn -> Prop) s : Q a s -> wp (ret a) Q s.
Proof. done. Qed.

Lemma wp_ret_bind {A B} (a : A) (k : A -> CM B) Q s : wp (k a) Q s -> wp (bind (ret a) k) Q s.
Proof. done. Qed.

Lemma wp_last {A} (m : CM A) Q s : wp (bind m ret) Q s -> wp m Q s.
Proof. unfold wp, bind, ret. by destruct (m s) as [f|[a s']]. Qed.

Lemma wp_free_client p e Q s :
  cc_clients s !! p = Some e -> Q tt (set_cc_clients (delete p (cc_clients s)) s) ->
  wp (free_client p) Q s.
Proof. intros Hp Hq. unfold wp, free_client, read_client, read, bind. by rewrite Hp. Qed.

Lemma wp_free_channel p e Q s :
  cc_channels s !! p = Some e -> Q tt (set_cc_channels (delete p (cc_channels s)) s) ->
  wp (free_channel p) Q s.
Proof. intros Hp Hq. unfold wp, free_channel, read_channel, read, bind. by rewrite Hp. Qed.

Lemma wp_free_server p e Q s :
  cc_servers s !! p = Some e -> Q tt (set_cc_servers (delete p (cc_servers s)) s) ->
  wp (free_server p) Q s.
Proof. intros Hp Hq. unfold wp, free_server, read_server, read, bind. by rewrite Hp. Qed.

Lemma wp_free_user p e Q s :
  cc_users s !! p = Some e -> Q tt (set_cc_users (delete p (cc_users s)) s) ->
  wp (free_user p) Q s.
Proof. intros Hp Hq. unfold wp, free_user, read_user, read, bind. by rewrite Hp. Qed.
End wp.

(** * References *)

Inductive RefKind := RClient | RChannel | RServer.

#[export] Instance RefKind_eq_dec : EqDecision RefKind.
Proof. solve_decision. Defined.
#[export] Instance RefKind_countable : Countable RefKind.
Proof.
  apply (inj_countable' (fun k => match k with RClient => 0 | RChannel => 1 | RServer => 2 end)
    (fun n => match n with 0 => RClient | 1 => RChannel | _ => RServer end)).
  by intros [].
Defined.

(** The references that are held besides those of the lists of users. *)
Abbreviation Held := (gmultiset (RefKind * Z)).
Definition held (R : Held) (k : RefKind) (p : Z) : Z := Z.of_nat (multiplicity (k, p) R).

Lemma held_nonneg R k p : 0 <= held R k p.
Proof. unfold held. lia. Qed.

Lemma held_add R k p k' p' :
  held (R ⊎ {[+ (k', p') +]}) k p = held R k p + if decide ((k, p) = (k', p')) then 1 else 0.
Proof.
  unfold held. rewrite multiplicity_disj_union, multiplicity_singleton.
  destruct (decide _); lia.
Qed.

Lemma held_add_eq R k p : held (R ⊎ {[+ (k, p) +]}) k p = held R k p + 1.
Proof. rewrite held_add. by destruct (decide _). Qed.

Lemma held_add_ne R k p k' p' :
  (k, p) <> (k', p') -> held (R ⊎ {[+ (k', p') +]}) k p = held R k p.
Proof. intros Hne. rewrite held_add. destruct (decide _); [done|lia]. Qed.

(** An entry that is not deleted has the reference it was created with. *)
Definition creation (deleted : Z) : Z := if deleted =? 1 then 1 else 0.

Lemma creation_cases d : (d = 1 /\ creation d = 1) \/ (d <> 1 /\ creation d = 0).
Proof. unfold creation. destruct (Z.eqb_spec d 1); auto. Qed.

(** The counter of deletions is 2^32 - 1 after the second one: only from 2 would it be
    1 again. *)
Lemma creation_deleted d :
  0 <= d < 2 ^ 32 -> d <> 2 ->
  (d = 1 /\ u32 (d - 1) = 0) \/
  (d <> 1 /\ u32 (d - 1) <> 0 /\ creation (u32 (d - 1)) = creation d /\ 0 <= u32 (d - 1) < 2 ^ 32).
Proof.
  intros Hd Hne. destruct (decide (d = 1)) as [->|]; [by left|]. right.
  destruct (decide (d = 0)) as [->|]; [done|]. rewrite u32_id by lia. unfold creation.
  rewrite (proj2 (Z.eqb_neq d 1)), (proj2 (Z.eqb_neq (d - 1) 1)) by lia. lia.
Qed.

(** What the reference count of an entry is. *)
Record counted (refcnt deleted users held : Z) : Prop := {
  cn_refs : refcnt = creation deleted + users + held;
  cn_range : 0 < refcnt < 2 ^ 32;
  cn_deleted : 0 <= deleted < 2 ^ 32;
}.

(** * Who is on which channel *)

Section users.
Implicit Types (clients channels : gmap Z (gmap Z Z)) (users : gmap Z SilcChannelUser) (out : gset Z).

(** The tables of the clients and those of the channels hold the same users, all of
    which are allocated; those in [out] are not in a table. *)
Record users_ok clients channels users out : Prop := {
  uo_client p m ch chu : clients !! p = Some m -> m !! ch = Some chu ->
    chu ∉ out /\ exists u, users !! chu = Some u /\ chu_client u = p /\ chu_channel u = ch;
  uo_channel ch m p chu : channels !! ch = Some m -> m !! p = Some chu ->
    chu ∉ out /\ exists u, users !! chu = Some u /\ chu_client u = p /\ chu_channel u = ch;
  uo_user chu u : users !! chu = Some u -> chu ∉ out ->
    (exists m, clients !! chu_client u = Some m /\ m !! chu_channel u = Some chu) /\
    (exists m, channels !! chu_channel u = Some m /\ m !! chu_client u = Some chu);
}.

(** A client is in the table of a channel when the channel is in that of the client. *)
Lemma users_symmetric clients channels users out p m ch chu :
  users_ok clients channels users out -> clients !! p = Some m -> m !! ch = Some chu ->
  exists m', channels !! ch = Some m' /\ m' !! p = Some chu.
Proof.
  intros [Hc _ Hu] Hp Hm. destruct (Hc _ _ _ _ Hp Hm) as (Ho & u & Hchu & <- & <-).
  by apply (Hu chu u Hchu Ho).
Qed.

Lemma users_symmetric_channel clients channels users out ch m p chu :
  users_ok clients channels users out -> channels !! ch = Some m -> m !! p = Some chu ->
  exists m', clients !! p = Some m' /\ m' !! ch = Some chu.
Proof.
  intros [_ Hc Hu] Hp Hm. destruct (Hc _ _ _ _ Hp Hm) as (Ho & u & Hchu & <- & <-).
  by apply (Hu chu u Hchu Ho).
Qed.

(** Taking a user out of both tables. *)
Lemma users_unlink clients channels users out chu u m m' :
  users_ok clients channels users out -> users !! chu = Some u -> chu ∉ out ->
  clients !! chu_client u = Some m -> channels !! chu_channel u = Some m' ->
  users_ok (<[chu_client u := delete (chu_channel u) m]> clients)
    (<[chu_channel u := delete (chu_client u) m']> channels) users ({[chu]} ∪ out).
Proof.
  intros [Hc Hch Hu] Hchu Ho Hm Hm'. split.
  - intros p n ch x Hp Hn.
    assert (exists n0, clients !! p = Some n0 /\ n0 !! ch = Some x /\ (p <> chu_client u \/ ch <> chu_channel u))
      as (n0 & Hp0 & Hn0 & Hne).
    { apply lookup_insert_Some in Hp as [[<- <-]|[? Hp]].
      - apply lookup_delete_Some in Hn as [? ?]. exists m. auto.
      - exists n. auto. }
    destruct (Hc _ _ _ _ Hp0 Hn0) as (Hx & v & Hv & Ev & Ec). split; [|by exists v].
    rewrite not_elem_of_union, not_elem_of_singleton. split; [|done]. intros ->.
    assert (v = u) as -> by congruence. destruct Hne; congruence.
  - intros ch n p x Hp Hn.
    assert (exists n0, channels !! ch = Some n0 /\ n0 !! p = Some x /\ (p <> chu_client u \/ ch <> chu_channel u))
      as (n0 & Hp0 & Hn0 & Hne).
    { apply lookup_insert_Some in Hp as [[<- <-]|[? Hp]].
      - apply lookup_delete_Some in Hn as [? ?]. exists m'. auto.
      - exists n. auto. }
    destruct (Hch _ _ _ _ Hp0 Hn0) as (Hx & v & Hv & Ev & Ec). split; [|by exists v].
    rewrite not_elem_of_union, not_elem_of_singleton. split; [|done]. intros ->.
    assert (v = u) as -> by congruence. destruct Hne; congruence.
  - intros x v Hx [Hxc%not_elem_of_singleton Hxo]%not_elem_of_union.
    destruct (Hu x v Hx Hxo) as [(n & Hn & Hnx) (n' & Hn' & Hnx')].
    destruct (Hu chu u Hchu Ho) as [(k & Hk & Hkx) (k' & Hk' & Hkx')]. split.
    + destruct (decide (chu_client v = chu_client u)) as [E|]; [|exists n; by rewrite lookup_insert_ne].
      exists (delete (chu_channel u) m). rewrite E, lookup_insert_eq. split; [done|].
      rewrite lookup_delete_ne; [congruence|]. intros E'. congruence.
    + destruct (decide (chu_channel v = chu_channel u)) as [E|]; [|exists n'; by rewrite lookup_insert_ne].
      exists (delete (chu_client u) m'). rewrite E, lookup_insert_eq. split; [done|].
      rewrite lookup_delete_ne; [congruence|]. intros E'. congruence.
Qed.

(** A user that is in no table is freed. *)
Lemma users_free clients channels users out chu :
  users_ok clients channels users ({[chu]} ∪ out) -> chu ∉ out ->
  users_ok clients channels (delete chu users) out.
Proof.
  intros [Hc Hch Hu] Ho. split.
  - intros p m ch x Hp Hm. destruct (Hc _ _ _ _ Hp Hm) as (Hx & v & Hv & ?).
    apply not_elem_of_union in Hx as [Hxc%not_elem_of_singleton Hxo]. split; [done|].
    exists v. by rewrite lookup_delete_ne.
  - intros p m ch x Hp Hm. destruct (Hch _ _ _ _ Hp Hm) as (Hx & v & Hv & ?).
    apply not_elem_of_union in Hx as [Hxc%not_elem_of_singleton Hxo]. split; [done|].
    exists v. by rewrite lookup_delete_ne.
  - intros x v [Hne Hv]%lookup_delete_Some Hx. apply (Hu x v Hv).
    rewrite not_elem_of_union, not_elem_of_singleton. auto.
Qed.

(** A new user is put into both tables. *)
Lemma users_link clients channels users out chu u m m' :
  users_ok clients channels users out -> users !! chu = None -> chu ∉ out ->
  clients !! chu_client u = Some m -> channels !! chu_channel u = Some m' ->
  m !! chu_channel u = None -> m' !! chu_client u = None ->
  users_ok (<[chu_client u := <[chu_channel u := chu]> m]> clients)
    (<[chu_channel u := <[chu_client u := chu]> m']> channels) (<[chu := u]> users) out.
Proof.
  intros [Hc Hch Hu] Hchu Ho Hm Hm' Hn Hn'.
  assert (forall p n ch x, clients !! p = Some n -> n !! ch = Some x -> x ∉ out /\
    exists v, <[chu := u]> users !! x = Some v /\ chu_client v = p /\ chu_channel v = ch) as Hold.
  { intros p n ch x Hp Hx. destruct (Hc _ _ _ _ Hp Hx) as (? & v & Hv & ?). split; [done|].
    exists v. rewrite lookup_insert_ne by congruence. done. }
  assert (forall ch n p x, channels !! ch = Some n -> n !! p = Some x -> x ∉ out /\
    exists v, <[chu := u]> users !! x = Some v /\ chu_client v = p /\ chu_channel v = ch) as Hold'.
  { intros p n ch x Hp Hx. destruct (Hch _ _ _ _ Hp Hx) as (? & v & Hv & ?). split; [done|].
    exists v. rewrite lookup_insert_ne by congruence. done. }
  split.
  - intros p n ch x [[<- <-]|[? Hp]]%lookup_insert_Some; [|by apply Hold].
    intros [[<- <-]|[? Hx]]%lookup_insert_Some; [|by eapply Hold].
    split; [done|]. exists u. by rewrite lookup_insert_eq.
  - intros ch n p x [[<- <-]|[? Hp]]%lookup_insert_Some; [|by apply Hold'].
    intros [[<- <-]|[? Hx]]%lookup_insert_Some; [|by eapply Hold'].
    split; [done|]. exists u. by rewrite lookup_insert_eq.
  - intros x v [[<- <-]|[Hne Hv]]%lookup_insert_Some Hx.
    + split; eexists; (split; [apply lookup_insert_eq|]); apply lookup_insert_eq.
    + destruct (Hu x v Hv Hx) as [(k & Hk & Hkx) (k' & Hk' & Hkx')]. split.
      * destruct (decide (chu_client v = chu_client u)) as [E|]; [|exists k; by rewrite lookup_insert_ne].
        eexists. rewrite E, lookup_insert_eq. split; [done|].
        rewrite lookup_insert_ne; [congruence|]. intros E'. congruence.
      * destruct (decide (chu_channel v = chu_channel u)) as [E|]; [|exists k'; by rewrite lookup_insert_ne].
        eexists. rewrite E, lookup_insert_eq. split; [done|].
        rewrite lookup_insert_ne; [congruence|]. intros E'. congruence.
Qed.

(** An entry without users comes and goes. *)
Lemma users_new_client clients channels users out p :
  users_ok clients channels users out -> clients !! p = None ->
  users_ok (<[p := ∅]> clients) channels users out.
Proof.
  intros [Hc Hch Hu] Hp. split; [|done|].
  - intros q m ch x [[<- <-]|[? Hq]]%lookup_insert_Some; [by intros ?%lookup_empty_Some|by apply Hc].
  - intros x v Hv Hx. destruct (Hu x v Hv Hx) as [(m & ? & ?) ?]. split; [|done].
    exists m. by rewrite lookup_insert_ne by congruence.
Qed.

Lemma users_new_channel clients channels users out p :
  users_ok clients channels users out -> channels !! p = None ->
  users_ok clients (<[p := ∅]> channels) users out.
Proof.
  intros [Hc Hch Hu] Hp. split; [done|..].
  - intros q m ch x [[<- <-]|[? Hq]]%lookup_insert_Some; [by intros ?%lookup_empty_Some|by apply Hch].
  - intros x v Hv Hx. destruct (Hu x v Hv Hx) as [? (m & ? & ?)]. split; [done|].
    exists m. by rewrite lookup_insert_ne by congruence.
Qed.

Lemma users_free_client clients channels users out p :
  users_ok clients channels users out -> clients !! p = Some ∅ ->
  users_ok (delete p clients) channels users out.
Proof.
  intros [Hc Hch Hu] Hp. split; [|done|].
  - intros q m ch x [? Hq]%lookup_delete_Some. by apply Hc.
  - intros x v Hv Hx. destruct (Hu x v Hv Hx) as [(m & Hm & Hmx) ?]. split; [|done].
    exists m. rewrite lookup_delete_ne; [done|]. intros ->. rewrite Hp in Hm. by injection Hm as <-.
Qed.

Lemma users_free_channel clients channels users out p :
  users_ok clients channels users out -> channels !! p = Some ∅ ->
  users_ok clients (delete p channels) users out.
Proof.
  intros [Hc Hch Hu] Hp. split; [done|..].
  - intros q m ch x [? Hq]%lookup_delete_Some. by apply Hch.
  - intros x v Hv Hx. destruct (Hu x v Hv Hx) as [? (m & Hm & Hmx)]. split; [done|].
    exists m. rewrite lookup_delete_ne; [done|]. intros ->. rewrite Hp in Hm. by injection Hm as <-.
Qed.
End users.

(** * The invariant *)

Section inv.
Context `{ClientObjects}.
Implicit Types (R : Held) (out : gset Z) (s : ClientConn).

(** An entry as it is whatever its references are. *)
Record client_shape (next p : Z) (e : SilcClientEntry) : Prop := {
  cs_table : table_holds (ce_channels e) (user_map (ce_channels e));
  cs_valid : ce_valid e = true -> ce_nickname_normalized e <> None;
  cs_next : p < next;
}.

Record channel_shape (next p : Z) (c : SilcChannelEntry) : Prop := {
  hs_table : table_holds (ch_user_list c) (user_map (ch_user_list c));
  hs_next : p < next;
}.

Definition client_counted R p (e : SilcClientEntry) : Prop :=
  counted (ce_refcnt e) (ce_deleted e) (Z.of_nat (size (user_map (ce_channels e)))) (held R RClient p).
Definition channel_counted R p (c : SilcChannelEntry) : Prop :=
  counted (ch_refcnt c) (ch_deleted c) (Z.of_nat (size (user_map (ch_user_list c)))) (held R RChannel p).
Definition server_counted R p (e : SilcServerEntry) : Prop :=
  counted (se_refcnt e) (se_deleted e) 0 (held R RServer p).

Definition client_tables s : gmap Z (gmap Z Z) := (fun e => user_map (ce_channels e)) <$> cc_clients s.
Definition channel_tables s : gmap Z (gmap Z Z) := (fun c => user_map (ch_user_list c)) <$> cc_channels s.

Definition allocated s (k : RefKind) (p : Z) : Prop :=
  match k with
  | RClient => is_Some (cc_clients s !! p)
  | RChannel => is_Some (cc_channels s !! p)
  | RServer => is_Some (cc_servers s !! p)
  end.

(** [R] are the references that are held, [out] the users that are not in a list. *)
Record inv R out s : Prop := {
  in_client p e : cc_clients s !! p = Some e -> client_shape (cc_next s) p e /\ client_counted R p e;
  in_channel p c : cc_channels s !! p = Some c -> channel_shape (cc_next s) p c /\ channel_counted R p c;
  in_server p e : cc_servers s !! p = Some e -> p < cc_next s /\ server_counted R p e;
  in_users : users_ok (client_tables s) (channel_tables s) (cc_users s) out;
  in_user_next chu u : cc_users s !! chu = Some u -> chu < cc_next s;
  in_held k p : 0 < held R k p -> allocated s k p;
  in_client_cache : cache_ok SILC_ID_CLIENT (cc_client_cache s) (cc_client_ids s) (cc_next s)
    (ce_id <$> cc_clients s);
  in_channel_cache : cache_ok SILC_ID_CHANNEL (cc_channel_cache s) (cc_channel_ids s) (cc_next s)
    (ch_id <$> cc_channels s);
  in_server_cache : cache_ok SILC_ID_SERVER (cc_server_cache s) (cc_server_ids s) (cc_next s)
    (se_id <$> cc_servers s);
}.

(** The parts of the state that matter. *)
Definition same_entries s s' : Prop :=
  cc_clients s' = cc_clients s /\ cc_channels s' = cc_channels s /\ cc_servers s' = cc_servers s /\
  cc_users s' = cc_users s /\ cc_client_cache s' = cc_client_cache s /\
  cc_client_ids s' = cc_client_ids s /\ cc_channel_cache s' = cc_channel_cache s /\
  cc_channel_ids s' = cc_channel_ids s /\ cc_server_cache s' = cc_server_cache s /\
  cc_server_ids s' = cc_server_ids s /\ cc_next s' = cc_next s.

Lemma inv_same R out s s' : inv R out s -> same_entries s s' -> inv R out s'.
Proof.
  intros [] (E1 & E2 & E3 & E4 & E5 & E6 & E7 & E8 & E9 & E10 & E11).
  split; unfold client_tables, channel_tables, allocated in *;
    rewrite ?E1, ?E2, ?E3, ?E4, ?E5, ?E6, ?E7, ?E8, ?E9, ?E10, ?E11; done.
Qed.

Lemma same_entries_refl s : same_entries s s.
Proof. done. Qed.

(** The references to other entries are the same. *)
Definition same_but R R' k p : Prop := forall k' p', (k', p') <> (k, p) -> held R' k' p' = held R k' p'.

Lemma same_but_refl R k p : same_but R R k p.
Proof. done. Qed.

Lemma same_but_add R k p : same_but R (R ⊎ {[+ (k, p) +]}) k p.
Proof. intros k' p' Hne. by apply held_add_ne. Qed.

Lemma same_but_remove R k p : same_but (R ⊎ {[+ (k, p) +]}) R k p.
Proof. intros k' p' Hne. symmetry. by apply held_add_ne. Qed.

(** ** One entry changes *)

Lemma inv_set_client R R' out s p e e' :
  inv R out s -> cc_clients s !! p = Some e -> same_but R R' RClient p ->
  user_map (ce_channels e') = user_map (ce_channels e) -> ce_id e' = ce_id e ->
  client_shape (cc_next s) p e' -> client_counted R' p e' ->
  inv R' out (set_cc_clients (<[p := e']> (cc_clients s)) s).
Proof.
  intros [] Hp Hr Hm Hi Hs Hc. split; cbn -[SILC_ID_CLIENT SILC_ID_CHANNEL SILC_ID_SERVER].
  - intros q x [[<- <-]|[Hne Hx]]%lookup_insert_Some; [done|].
    unfold client_counted. rewrite Hr by congruence. by apply in_client0.
  - intros q x Hx. unfold channel_counted. rewrite Hr by congruence. by apply in_channel0.
  - intros q x Hx. unfold server_counted. rewrite Hr by congruence. by apply in_server0.
  - unfold client_tables. cbn. rewrite fmap_insert, Hm, insert_id; [done|].
    by rewrite lookup_fmap, Hp.
  - done.
  - intros k q Hq. destruct (decide ((k, q) = (RClient, p))) as [[= -> ->]|Hne].
    + cbn. rewrite lookup_insert_eq. by eexists.
    + rewrite Hr in Hq by done. apply in_held0 in Hq. destruct k; try done. cbn in *.
      rewrite lookup_insert_ne; [done|congruence].
  - rewrite fmap_insert, Hi, insert_id; [done|]. by rewrite lookup_fmap, Hp.
  - done.
  - done.
Qed.

Lemma inv_set_channel R R' out s p e e' :
  inv R out s -> cc_channels s !! p = Some e -> same_but R R' RChannel p ->
  user_map (ch_user_list e') = user_map (ch_user_list e) -> ch_id e' = ch_id e ->
  channel_shape (cc_next s) p e' -> channel_counted R' p e' ->
  inv R' out (set_cc_channels (<[p := e']> (cc_channels s)) s).
Proof.
  intros [] Hp Hr Hm Hi Hs Hc. split; cbn -[SILC_ID_CLIENT SILC_ID_CHANNEL SILC_ID_SERVER].
  - intros q x Hx. unfold client_counted. rewrite Hr by congruence. by apply in_client0.
  - intros q x [[<- <-]|[Hne Hx]]%lookup_insert_Some; [done|].
    unfold channel_counted. rewrite Hr by congruence. by apply in_channel0.
  - intros q x Hx. unfold server_counted. rewrite Hr by congruence. by apply in_server0.
  - unfold channel_tables. cbn. rewrite fmap_insert, Hm, insert_id; [done|].
    by rewrite lookup_fmap, Hp.
  - done.
  - intros k q Hq. destruct (decide ((k, q) = (RChannel, p))) as [[= -> ->]|Hne].
    + cbn. rewrite lookup_insert_eq. by eexists.
    + rewrite Hr in Hq by done. apply in_held0 in Hq. destruct k; try done. cbn in *.
      rewrite lookup_insert_ne; [done|congruence].
  - done.
  - rewrite fmap_insert, Hi, insert_id; [done|]. by rewrite lookup_fmap, Hp.
  - done.
Qed.

Lemma inv_set_server R R' out s p e e' :
  inv R out s -> cc_servers s !! p = Some e -> same_but R R' RServer p -> se_id e' = se_id e ->
  server_counted R' p e' ->
  inv R' out (set_cc_servers (<[p := e']> (cc_servers s)) s).
Proof.
  intros [] Hp Hr Hi Hc. split; cbn -[SILC_ID_CLIENT SILC_ID_CHANNEL SILC_ID_SERVER].
  - intros q x Hx. unfold client_counted. rewrite Hr by congruence. by apply in_client0.
  - intros q x Hx. unfold channel_counted. rewrite Hr by congruence. by apply in_channel0.
  - intros q x [[<- <-]|[Hne Hx]]%lookup_insert_Some.
    + split; [|done]. by apply (in_server0 p e).
    + unfold server_counted. rewrite Hr by congruence. by apply in_server0.
  - done.
  - done.
  - intros k q Hq. destruct (decide ((k, q) = (RServer, p))) as [[= -> ->]|Hne].
    + cbn. rewrite lookup_insert_eq. by eexists.
    + rewrite Hr in Hq by done. apply in_held0 in Hq. destruct k; try done. cbn in *.
      rewrite lookup_insert_ne; [done|congruence].
  - done.
  - done.
  - rewrite fmap_insert, Hi, insert_id; [done|]. by rewrite lookup_fmap, Hp.
Qed.

(** ** An entry is freed *)

Lemma inv_free_client R out s p e c' M' :
  inv (R ⊎ {[+ (RClient, p) +]}) out s -> cc_clients s !! p = Some e -> ce_refcnt e = 1 ->
  cache_ok SILC_ID_CLIENT c' M' (cc_next s) (delete p (ce_id <$> cc_clients s)) ->
  inv R out (set_cc_clients (delete p (cc_clients s)) (set_client_cache (c', M') s)).
Proof.
  intros [] Hp H1 Hok. destruct (in_client0 p e Hp) as [Hsh [Hn _ _]].
  rewrite H1, held_add_eq in Hn. pose proof (held_nonneg R RClient p) as Hnn.
  assert (user_map (ce_channels e) = ∅ /\ held R RClient p = 0) as [Hm H0].
  { destruct (creation_cases (ce_deleted e)) as [[_ Hc]|[_ Hc]]; rewrite Hc in Hn;
      (split; [apply map_size_empty_iff|]; lia). }
  split; cbn -[SILC_ID_CLIENT SILC_ID_CHANNEL SILC_ID_SERVER].
  - intros q x [Hne Hx]%lookup_delete_Some. destruct (in_client0 q x Hx) as [? Hc]. split; [done|].
    unfold client_counted in *. rewrite held_add_ne in Hc; [done|congruence].
  - intros q x Hx. destruct (in_channel0 q x Hx) as [? Hc]. split; [done|].
    unfold channel_counted in *. rewrite held_add_ne in Hc; [done|congruence].
  - intros q x Hx. destruct (in_server0 q x Hx) as [? Hc]. split; [done|].
    unfold server_counted in *. rewrite held_add_ne in Hc; [done|congruence].
  - unfold client_tables, channel_tables in *. cbn. rewrite fmap_delete. apply users_free_client; [done|].
    by rewrite lookup_fmap, Hp, <- Hm.
  - done.
  - intros k q Hq. assert ((k, q) <> (RClient, p)) as Hne by (intros [= -> ->]; lia).
    specialize (in_held0 k q). rewrite held_add_ne in in_held0 by done. specialize (in_held0 Hq).
    destruct k; try done. cbn in *. rewrite lookup_delete_ne; [done|congruence].
  - by rewrite fmap_delete.
  - done.
  - done.
Qed.

Lemma inv_free_channel R out s p e c' M' :
  inv (R ⊎ {[+ (RChannel, p) +]}) out s -> cc_channels s !! p = Some e -> ch_refcnt e = 1 ->
  cache_ok SILC_ID_CHANNEL c' M' (cc_next s) (delete p (ch_id <$> cc_channels s)) ->
  inv R out (set_cc_channels (delete p (cc_channels s)) (set_channel_cache (c', M') s)).
Proof.
  intros [] Hp H1 Hok. destruct (in_channel0 p e Hp) as [Hsh [Hn _ _]].
  rewrite H1, held_add_eq in Hn. pose proof (held_nonneg R RChannel p) as Hnn.
  assert (user_map (ch_user_list e) = ∅ /\ held R RChannel p = 0) as [Hm H0].
  { destruct (creation_cases (ch_deleted e)) as [[_ Hc]|[_ Hc]]; rewrite Hc in Hn;
      (split; [apply map_size_empty_iff|]; lia). }
  split; cbn -[SILC_ID_CLIENT SILC_ID_CHANNEL SILC_ID_SERVER].
  - intros q x Hx. destruct (in_client0 q x Hx) as [? Hc]. split; [done|].
    unfold client_counted in *. rewrite held_add_ne in Hc; [done|congruence].
  - intros q x [Hne Hx]%lookup_delete_Some. destruct (in_channel0 q x Hx) as [? Hc]. split; [done|].
    unfold channel_counted in *. rewrite held_add_ne in Hc; [done|congruence].
  - intros q x Hx. destruct (in_server0 q x Hx) as [? Hc]. split; [done|].
    unfold server_counted in *. rewrite held_add_ne in Hc; [done|congruence].
  - unfold client_tables, channel_tables in *. cbn. rewrite fmap_delete. apply users_free_channel; [done|].
    by rewrite lookup_fmap, Hp, <- Hm.
  - done.
  - intros k q Hq. assert ((k, q) <> (RChannel, p)) as Hne by (intros [= -> ->]; lia).
    specialize (in_held0 k q). rewrite held_add_ne in in_held0 by done. specialize (in_held0 Hq).
    destruct k; try done. cbn in *. rewrite lookup_delete_ne; [done|congruence].
  - done.
  - by rewrite fmap_delete.
  - done.
Qed.

Lemma inv_free_server R out s p e c' M' :
  inv (R ⊎ {[+ (RServer, p) +]}) out s -> cc_servers s !! p = Some e -> se_refcnt e = 1 ->
  cache_ok SILC_ID_SERVER c' M' (cc_next s) (delete p (se_id <$> cc_servers s)) ->
  inv R out (set_cc_servers (delete p (cc_servers s)) (set_server_cache (c', M') s)).
Proof.
  intros [] Hp H1 Hok. destruct (in_server0 p e Hp) as [_ [Hn _ _]].
  rewrite H1, held_add_eq in Hn. pose proof (held_nonneg R RServer p) as Hnn.
  assert (held R RServer p = 0) as H0.
  { destruct (creation_cases (se_deleted e)) as [[_ Hc]|[_ Hc]]; rewrite Hc in Hn; lia. }
  split; cbn -[SILC_ID_CLIENT SILC_ID_CHANNEL SILC_ID_SERVER].
  - intros q x Hx. destruct (in_client0 q x Hx) as [? Hc]. split; [done|].
    unfold client_counted in *. rewrite held_add_ne in Hc; [done|congruence].
  - intros q x Hx. destruct (in_channel0 q x Hx) as [? Hc]. split; [done|].
    unfold channel_counted in *. rewrite held_add_ne in Hc; [done|congruence].
  - intros q x [Hne Hx]%lookup_delete_Some. destruct (in_server0 q x Hx) as [? Hc]. split; [done|].
    unfold server_counted in *. rewrite held_add_ne in Hc; [done|congruence].
  - done.
  - done.
  - intros k q Hq. assert ((k, q) <> (RServer, p)) as Hne by (intros [= -> ->]; lia).
    specialize (in_held0 k q). rewrite held_add_ne in in_held0 by done. specialize (in_held0 Hq).
    destruct k; try done. cbn in *. rewrite lookup_delete_ne; [done|congruence].
  - done.
  - done.
  - by rewrite fmap_delete.
Qed.

(** ** A user is linked and unlinked *)

Lemma user_tables R out s chu u :
  inv R out s -> cc_users s !! chu = Some u -> chu ∉ out ->
  exists e c, cc_clients s !! chu_client u = Some e /\ cc_channels s !! chu_channel u = Some c /\
    user_map (ce_channels e) !! chu_channel u = Some chu /\
    user_map (ch_user_list c) !! chu_client u = Some chu.
Proof.
  intros [] Hchu Ho. destruct (uo_user _ _ _ _ in_users0 chu u Hchu Ho) as [(m & Hm & Hmx) (m' & Hm' & Hmx')].
  unfold client_tables, channel_tables in *. rewrite lookup_fmap in Hm. rewrite lookup_fmap in Hm'.
  apply fmap_Some in Hm as (e & He & ->), Hm' as (c & Hc & ->). by exists e, c.
Qed.
End inv.
