(* ===== verification/ClientRefs.v ===== *)
(** Taking and giving back references, deleting entries, and putting clients on
    channels keep the state of the client library as it should be. *)

From stdpp Require Import gmap gmultiset sets list strings.
From S2P Require Import Prelude CTypes Id HashTable HashTableSpec SilcList IdCache IdCacheSpec ClientNick ClientState ClientEntry ClientTables ClientCache ClientInv.

#[local] Open Scope client_scope.

Section refs.
Context `{ClientObjects}.
Implicit Types (R : Held) (out : gset Z) (s : ClientConn).

Lemma cache_result_ok {A B} (r : option (A * SilcIDCache * EntryHeap)) set (k : A -> CM B) Q s a c M :
  r = Some (a, c, M) -> wp (k a) Q (set (c, M) s) -> wp (bind (cache_result r set) k) Q s.
Proof. intros -> Hk. exact Hk. Qed.

(** * References *)

Lemma ref_client_ok R out s p e :
  inv R out s -> cc_clients s !! p = Some e -> ce_refcnt e + 1 < 2 ^ 32 ->
  wp (silc_client_ref_client p)
     (fun _ s' => inv (R ⊎ {[+ (RClient, p) +]}) out s' /\
        s' = set_cc_clients (<[p := set_ce_refcnt (ce_refcnt e + 1) e]> (cc_clients s)) s) s.
Proof.
  intros Hi Hp Hlt. apply wp_last, (wp_update_client p e); [done|]. apply wp_ret.
  destruct (in_client _ _ _ Hi p e Hp) as [[] [Hn Hr Hd]].
  rewrite u32_id by lia. split; [|done]. eapply inv_set_client; try done; [apply same_but_add|].
  split; cbn; [|lia|done]. rewrite held_add_eq. lia.
Qed.

Lemma ref_channel_ok R out s p c :
  inv R out s -> cc_channels s !! p = Some c -> ch_refcnt c + 1 < 2 ^ 32 ->
  wp (silc_client_ref_channel p)
     (fun _ s' => inv (R ⊎ {[+ (RChannel, p) +]}) out s' /\
        s' = set_cc_channels (<[p := set_ch_refcnt (ch_refcnt c + 1) c]> (cc_channels s)) s) s.
Proof.
  intros Hi Hp Hlt. apply wp_last, (wp_update_channel p c); [done|]. apply wp_ret.
  destruct (in_channel _ _ _ Hi p c Hp) as [[] [Hn Hr Hd]].
  rewrite u32_id by lia. split; [|done]. eapply inv_set_channel; try done; [apply same_but_add|].
  split; cbn; [|lia|done]. rewrite held_add_eq. lia.
Qed.

Lemma ref_server_ok R out s p e :
  inv R out s -> cc_servers s !! p = Some e -> se_refcnt e + 1 < 2 ^ 32 ->
  wp (silc_client_ref_server p)
     (fun _ s' => inv (R ⊎ {[+ (RServer, p) +]}) out s' /\
        s' = set_cc_servers (<[p := set_se_refcnt (se_refcnt e + 1) e]> (cc_servers s)) s) s.
Proof.
  intros Hi Hp Hlt. apply wp_last, (wp_update_server p e); [done|]. apply wp_ret.
  destruct (in_server _ _ _ Hi p e Hp) as [_ [Hn Hr Hd]].
  rewrite u32_id by lia. split; [|done]. eapply inv_set_server; try done; [apply same_but_add|].
  split; cbn; [|lia|done]. rewrite held_add_eq. lia.
Qed.

(** What giving a reference back changes: the count, or the entry is gone. *)
Definition client_unreferenced p s s' : Prop :=
  exists e, cc_clients s !! p = Some e /\
    cc_clients s' = (if ce_refcnt e =? 1 then delete p (cc_clients s)
                     else <[p := set_ce_refcnt (ce_refcnt e - 1) e]> (cc_clients s)) /\
    cc_channels s' = cc_channels s /\ cc_servers s' = cc_servers s /\ cc_users s' = cc_users s /\
    cc_next s' = cc_next s.

Definition channel_unreferenced p s s' : Prop :=
  exists c, cc_channels s !! p = Some c /\
    cc_channels s' = (if ch_refcnt c =? 1 then delete p (cc_channels s)
                      else <[p := set_ch_refcnt (ch_refcnt c - 1) c]> (cc_channels s)) /\
    cc_clients s' = cc_clients s /\ cc_servers s' = cc_servers s /\ cc_users s' = cc_users s /\
    cc_next s' = cc_next s.

Lemma del_client_entry_ok p e Q s :
  cc_clients s !! p = Some e ->
  (forall log, Q tt (set_cc_clients (delete p (cc_clients s)) (set_cc_log log s))) ->
  wp (silc_client_del_client_entry p) Q s.
Proof.
  intros Hp HQ. unfold silc_client_del_client_entry. apply (wp_read cc_clients p e); [done|].
  apply wp_event. apply wp_bind.
  assert (forall log, wp (update_client p (set_ce_op None);;
      match ce_ke e with Some _ => event (silc_client_abort_key_agreement p) | None => ret tt end;;
      free_client p) Q (set_cc_log log s)) as Hrest.
  { intros log. apply (wp_update_client p e); [done|]. apply wp_bind.
    assert (forall log', wp (free_client p) Q (set_cc_log log' (set_cc_clients
      (<[p := set_ce_op None e]> (cc_clients s)) (set_cc_log log s)))) as Hfree.
    { intros log'. apply (wp_free_client p (set_ce_op None e)); [apply lookup_insert_eq|].
      cbn. rewrite delete_insert_eq. apply (HQ log'). }
    destruct (ce_ke e); [apply wp_last, wp_event, wp_ret; exact (Hfree _)|]. apply wp_ret, (Hfree log). }
  destruct (ce_op e); [apply wp_last, wp_event, wp_ret; exact (Hrest _)|]. apply wp_ret. exact (Hrest _).
Qed.

(** A client without channels is not removed from any. *)
Lemma remove_from_no_channels uc uch p e Q s :
  cc_clients s !! p = Some e -> table_holds (ce_channels e) ∅ -> Q tt s ->
  wp (remove_from_channels_with uc uch p) Q s.
Proof.
  intros Hp Ht HQ. unfold remove_from_channels_with. apply (wp_read cc_clients p e); [done|].
  by rewrite (user_table_count _ _ Ht).
Qed.

Lemma unref_client_body_ok uc uch R out s p :
  inv (R ⊎ {[+ (RClient, p) +]}) out s ->
  wp (unref_client_body uc uch p) (fun _ s' => inv R out s' /\ client_unreferenced p s s') s.
Proof.
  intros Hi. destruct (in_held _ _ _ Hi RClient p) as [e Hp].
  { rewrite held_add_eq. pose proof (held_nonneg R RClient p). lia. }
  destruct (in_client _ _ _ Hi p e Hp) as [Hsh [Hn Hr Hd]].
  unfold unref_client_body. apply (wp_update_client p e); [done|].
  set (e1 := set_ce_refcnt _ e). eapply (wp_read cc_clients p e1); [apply lookup_insert_eq|].
  cbn [ce_refcnt set_ce_refcnt e1]. rewrite u32_id by lia.
  destruct (Z.ltb_spec 0 (ce_refcnt e - 1)) as [Hlt|Hge].
  - apply wp_ret. split.
    + eapply inv_set_client; try done; [apply same_but_remove|by destruct Hsh|].
      unfold e1. rewrite u32_id by lia. split; cbn; [|lia|done]. rewrite held_add_eq in Hn. lia.
    + exists e. rewrite (proj2 (Z.eqb_neq _ _)) by lia. unfold e1. rewrite u32_id by lia. done.
  - do 2 apply wp_gets. assert ((ce_id <$> cc_clients s) !! p = Some (ce_id e)) as Hid
      by by rewrite lookup_fmap, Hp.
    destruct (cache_del_ok _ _ _ _ _ (in_client_cache _ _ _ Hi) p _ Hid) as (calls & c' & M' & E & Hok).
    eapply cache_result_ok; [cbn [cc_client_cache cc_client_ids set_cc_clients]; by rewrite E|].
    cbv iota. apply wp_bind. assert (ce_refcnt e = 1) as H1 by lia.
    apply (remove_from_no_channels _ _ _ e1); [apply lookup_insert_eq|..].
    + assert (user_map (ce_channels e) = ∅) as <-; [|by destruct Hsh].
      apply map_size_empty_iff. rewrite held_add_eq in Hn. pose proof (held_nonneg R RClient p).
      destruct (creation_cases (ce_deleted e)) as [[_ ?]|[_ ?]]; lia.
    + eapply del_client_entry_ok; [apply lookup_insert_eq|]. intros log. cbn.
      rewrite delete_insert_eq. split.
      * pose proof (inv_free_client R out s p e c' M' Hi Hp H1 Hok) as Hf.
        by eapply inv_same; [exact Hf|].
      * exists e. by rewrite H1.
Qed.

(** silc_hash_table_get at the end of a table, and at an entry of it. *)
Lemma get_user_end t htl Q s :
  (silc_hash_table_get t htl).1 = None -> (forall htl', Q (None, htl') s) -> wp (get_user t htl) Q s.
Proof.
  unfold get_user. destruct (silc_hash_table_get t htl) as [[e|] htl']; [done|]. intros _ HQ. apply HQ.
Qed.

Lemma get_user_next t htl k chu u htl' Q s :
  silc_hash_table_get t htl = (Some (map_entry (k, chu)), htl') -> cc_users s !! chu = Some u ->
  Q (Some (chu, u), htl') s -> wp (get_user t htl) Q s.
Proof.
  intros E Hu HQ. unfold get_user. rewrite E. cbn [map_entry he_context fst snd].
  by apply (wp_read cc_users chu u).
Qed.

Lemma empty_no_users uc uch p c Q s :
  cc_channels s !! p = Some c -> table_holds (ch_user_list c) ∅ ->
  (forall t, Q tt (set_cc_channels (<[p := set_ch_user_list t c]> (cc_channels s)) s)) ->
  wp (empty_channel_with uc uch p) Q s.
Proof.
  intros Hp Ht HQ. unfold empty_channel_with. apply (wp_read cc_channels p c); [done|].
  pose proof (walking_start _ _ Ht) as W. destruct (silc_hash_table_list _) as [htl t].
  apply wp_modify, wp_bind. rewrite (user_table_count t ∅) by (by destruct W).
  cbn [size Z.of_nat Z.to_nat empty_loop]. eapply (wp_read cc_channels p); [apply lookup_insert_eq|].
  apply wp_bind, get_user_end.
  { destruct (walking_step t htl ∅ W) as [[_ E]|(k & v & htl' & Hk & _)]; [done|exact E|].
    by rewrite lookup_empty in Hk. }
  intros htl'. apply wp_ret, wp_last. eapply (wp_update_channel p); [apply lookup_insert_eq|].
  apply wp_ret. cbn. rewrite insert_insert_eq. apply (HQ (silc_hash_table_list_reset htl' t)).
Qed.

Lemma del_private_keys_ok p c Q s :
  cc_channels s !! p = Some c ->
  (forall b c', user_map (ch_user_list c') = user_map (ch_user_list c) ->
     Q b (set_cc_channels (<[p := c']> (cc_channels s)) s)) ->
  wp (silc_client_del_channel_private_keys p) Q s.
Proof.
  intros Hp HQ. unfold silc_client_del_channel_private_keys. apply (wp_read cc_channels p c); [done|].
  destruct (ch_private_keys c).
  - apply wp_modify, wp_ret. by apply HQ.
  - apply wp_ret. specialize (HQ false c eq_refl). rewrite insert_id in HQ by done.
    by destruct s.
Qed.

Lemma unref_channel_body_ok uc uch R out s p :
  inv (R ⊎ {[+ (RChannel, p) +]}) out s ->
  wp (unref_channel_body uc uch p) (fun _ s' => inv R out s' /\ channel_unreferenced p s s') s.
Proof.
  intros Hi. destruct (in_held _ _ _ Hi RChannel p) as [c Hp].
  { rewrite held_add_eq. pose proof (held_nonneg R RChannel p). lia. }
  destruct (in_channel _ _ _ Hi p c Hp) as [Hsh [Hn Hr Hd]].
  unfold unref_channel_body. apply (wp_update_channel p c); [done|].
  set (c1 := set_ch_refcnt _ c). eapply (wp_read cc_channels p c1); [apply lookup_insert_eq|].
  cbn [ch_refcnt set_ch_refcnt c1]. rewrite u32_id by lia.
  destruct (Z.ltb_spec 0 (ch_refcnt c - 1)) as [Hlt|Hge].
  - apply wp_ret. split.
    + eapply inv_set_channel; try done; [apply same_but_remove|by destruct Hsh|].
      unfold c1. rewrite u32_id by lia. split; cbn; [|lia|done]. rewrite held_add_eq in Hn. lia.
    + exists c. rewrite (proj2 (Z.eqb_neq _ _)) by lia. unfold c1. rewrite u32_id by lia. done.
  - do 2 apply wp_gets. assert ((ch_id <$> cc_channels s) !! p = Some (ch_id c)) as Hid
      by by rewrite lookup_fmap, Hp.
    pose proof (in_channel_cache _ _ _ Hi) as Hcache.
    cbn [cc_channel_cache cc_channel_ids set_cc_channels].
    destruct (cache_found _ _ _ _ _ Hcache p _ Hid) as (x & ent & -> & _).
    destruct (cache_del_ok _ _ _ _ _ Hcache p _ Hid) as (calls & c' & M' & E & Hok).
    eapply cache_result_ok; [by rewrite E|].
    cbv iota. assert (ch_refcnt c = 1) as H1 by lia.
    assert (user_map (ch_user_list c) = ∅) as Hm.
    { apply map_size_empty_iff. rewrite held_add_eq in Hn. pose proof (held_nonneg R RChannel p).
      destruct (creation_cases (ch_deleted c)) as [[_ ?]|[_ ?]]; lia. }
    apply wp_bind, (empty_no_users _ _ p c1); [apply lookup_insert_eq|..].
    { cbn. rewrite <- Hm. by destruct Hsh. }
    intros t. apply wp_bind. eapply del_private_keys_ok; [apply lookup_insert_eq|].
    intros b c2 _. apply wp_event. eapply wp_free_channel; [apply lookup_insert_eq|]. cbn.
    rewrite !delete_insert_eq. split.
    + pose proof (inv_free_channel R out s p c c' M' Hi Hp H1 Hok) as Hf.
      by eapply inv_same; [exact Hf|].
    + exists c. by rewrite H1.
Qed.

Lemma unref_client_ok R out s p depth :
  inv (R ⊎ {[+ (RClient, p) +]}) out s ->
  wp (unref (S depth) true p) (fun _ s' => inv R out s' /\ client_unreferenced p s s') s.
Proof. apply unref_client_body_ok. Qed.

Lemma unref_channel_ok R out s p depth :
  inv (R ⊎ {[+ (RChannel, p) +]}) out s ->
  wp (unref (S depth) false p) (fun _ s' => inv R out s' /\ channel_unreferenced p s s') s.
Proof. apply unref_channel_body_ok. Qed.

Lemma unref_server_ok R out s p :
  inv (R ⊎ {[+ (RServer, p) +]}) out s ->
  wp (silc_client_unref_server (Some p)) (fun _ s' => inv R out s') s.
Proof.
  intros Hi. destruct (in_held _ _ _ Hi RServer p) as [e Hp].
  { rewrite held_add_eq. pose proof (held_nonneg R RServer p). lia. }
  destruct (in_server _ _ _ Hi p e Hp) as [Hlt0 [Hn Hr Hd]].
  unfold silc_client_unref_server. apply (wp_update_server p e); [done|].
  set (e1 := set_se_refcnt _ e). eapply (wp_read cc_servers p e1); [apply lookup_insert_eq|].
  cbn [se_refcnt set_se_refcnt e1]. rewrite u32_id by lia.
  destruct (Z.ltb_spec 0 (se_refcnt e - 1)) as [Hlt|Hge].
  - apply wp_ret. eapply inv_set_server; try done; [apply same_but_remove|].
    unfold e1. rewrite u32_id by lia. split; cbn; [|lia|done]. rewrite held_add_eq in Hn. lia.
  - do 2 apply wp_gets. assert ((se_id <$> cc_servers s) !! p = Some (se_id e)) as Hid
      by by rewrite lookup_fmap, Hp.
    pose proof (in_server_cache _ _ _ Hi) as Hcache.
    cbn [cc_server_cache cc_server_ids set_cc_servers].
    destruct (cache_found _ _ _ _ _ Hcache p _ Hid) as (x & ent & -> & _).
    destruct (cache_del_ok _ _ _ _ _ Hcache p _ Hid) as (calls & c' & M' & E & Hok).
    apply wp_bind. eapply cache_result_ok; [by rewrite E|].
    apply wp_ret. assert (se_refcnt e = 1) as H1 by lia.
    eapply wp_free_server; [apply lookup_insert_eq|]. cbn. rewrite delete_insert_eq.
    eapply inv_same; [exact (inv_free_server R out s p e c' M' Hi Hp H1 Hok)|done].
Qed.
End refs.
