(* ===== verification/ClientUsers.v ===== *)
(** Deleting channels, and putting clients on channels and taking them off, keep the
    state of the client library as it should be. *)

From stdpp Require Import gmap gmultiset sets list strings.
From S2P Require Import Prelude CTypes Id HashTable HashTableSpec SilcList IdCache IdCacheSpec ClientNick ClientState ClientEntry ClientTables ClientCache ClientInv ClientRefs.

#[local] Open Scope client_scope.

Section users.
Context `{ClientObjects}.
Implicit Types (R : Held) (out : gset Z) (s : ClientConn).

Lemma user_table_del_ok t k :
  table_holds t (user_map t) ->
  user_map (user_table_del k t) = delete k (user_map t) /\
  table_holds (user_table_del k t) (user_map (user_table_del k t)).
Proof.
  intros Ht. pose proof (user_table_del_holds t _ k Ht) as Hd.
  rewrite (holds_map _ _ Hd). done.
Qed.

Lemma user_table_add_ok t k v :
  table_holds t (user_map t) -> user_map t !! k = None ->
  user_map (user_table_add k v t) = <[k := v]> (user_map t) /\
  table_holds (user_table_add k v t) (user_map (user_table_add k v t)).
Proof.
  intros Ht Hk. pose proof (user_table_add_holds t _ k v Ht Hk) as Hd.
  rewrite (holds_map _ _ Hd). done.
Qed.

(** The state after a user was taken out of, or put into, the tables of its client and
    its channel. *)
Definition with_users (u : SilcChannelUser) (ft gt : UserTable -> UserTable) e c s : ClientConn :=
  set_cc_channels (<[chu_channel u := set_ch_user_list (gt (ch_user_list c)) c]> (cc_channels s))
    (set_cc_clients (<[chu_client u := set_ce_channels (ft (ce_channels e)) e]> (cc_clients s)) s).

(** The invariant when both tables of a user change. *)
Lemma inv_with_users R R' out out' s u ft gt e c users m m' :
  inv R out s -> cc_clients s !! chu_client u = Some e -> cc_channels s !! chu_channel u = Some c ->
  table_holds (ft (ce_channels e)) m -> table_holds (gt (ch_user_list c)) m' ->
  Z.of_nat (size m) + held R' RClient (chu_client u) =
    Z.of_nat (size (user_map (ce_channels e))) + held R RClient (chu_client u) ->
  Z.of_nat (size m') + held R' RChannel (chu_channel u) =
    Z.of_nat (size (user_map (ch_user_list c))) + held R RChannel (chu_channel u) ->
  (forall k p, (k, p) <> (RClient, chu_client u) -> (k, p) <> (RChannel, chu_channel u) ->
     held R' k p = held R k p) ->
  (forall chu v, users !! chu = Some v -> chu < cc_next s) ->
  users_ok (<[chu_client u := m]> (client_tables s)) (<[chu_channel u := m']> (channel_tables s))
    users out' ->
  inv R' out' (set_cc_users users (with_users u ft gt e c s)).
Proof.
  intros [Icl Ich Isv Ius Iun Ihe Ic1 Ic2 Ic3] He Hc Hm Hm' Hs Hs' Hr Hnext Hu.
  split; cbn -[SILC_ID_CLIENT SILC_ID_CHANNEL SILC_ID_SERVER].
  - intros q x [[<- <-]|[Hne Hx]]%lookup_insert_Some.
    + destruct (Icl _ _ He) as [[] []]. split; [split; try done; cbn|split; cbn; try done];
        rewrite (holds_map _ _ Hm); [done|lia].
    + unfold client_counted. rewrite Hr by congruence. by apply Icl.
  - intros q x [[<- <-]|[Hne Hx]]%lookup_insert_Some.
    + destruct (Ich _ _ Hc) as [[] []]. split; [split; try done; cbn|split; cbn; try done];
        rewrite (holds_map _ _ Hm'); [done|lia].
    + unfold channel_counted. rewrite Hr by congruence. by apply Ich.
  - intros q x Hx. unfold server_counted. rewrite Hr by congruence. by apply Isv.
  - unfold client_tables, channel_tables in *. cbn. rewrite !fmap_insert. cbn.
    by rewrite (holds_map _ _ Hm), (holds_map _ _ Hm').
  - done.
  - intros k q Hq. destruct (decide ((k, q) = (RClient, chu_client u))) as [[= -> ->]|Hne].
    { cbn. rewrite lookup_insert_eq. by eexists. }
    destruct (decide ((k, q) = (RChannel, chu_channel u))) as [[= -> ->]|Hne'].
    { cbn. rewrite lookup_insert_eq. by eexists. }
    rewrite Hr in Hq by done. apply Ihe in Hq. destruct k; cbn in *; try done;
      (rewrite lookup_insert_ne; [done|congruence]).
  - rewrite fmap_insert. cbn. rewrite insert_id; [done|]. by rewrite lookup_fmap, He.
  - rewrite fmap_insert. cbn. rewrite insert_id; [done|]. by rewrite lookup_fmap, Hc.
  - done.
Qed.

Lemma size_delete_member (m : gmap Z Z) k v :
  m !! k = Some v -> Z.of_nat (size (delete k m)) + 1 = Z.of_nat (size m).
Proof.
  intros Hk. rewrite map_size_delete, Hk. cbn.
  assert (size m <> 0%nat) as Hne; [|lia]. rewrite map_size_non_empty_iff. intros ->.
  by rewrite lookup_empty in Hk.
Qed.

(** The references of a user that was taken out are held until they are given back. *)
Abbreviation user_refs R u := (R ⊎ {[+ (RChannel, chu_channel u) +]} ⊎ {[+ (RClient, chu_client u) +]}).

Lemma held_user_refs R u k p :
  (k, p) <> (RClient, chu_client u) -> (k, p) <> (RChannel, chu_channel u) ->
  held (user_refs R u) k p = held R k p.
Proof. intros H1 H2. by rewrite !held_add_ne. Qed.

Lemma unlink_user_ok R out s chu u :
  inv R out s -> cc_users s !! chu = Some u -> chu ∉ out ->
  exists e c, cc_clients s !! chu_client u = Some e /\ cc_channels s !! chu_channel u = Some c /\
    wp (unlink_user u) (fun _ s' => inv (user_refs R u) ({[chu]} ∪ out) s' /\
      s' = with_users u (user_table_del (chu_channel u)) (user_table_del (chu_client u)) e c s) s.
Proof.
  intros Hi Hchu Ho. destruct (user_tables R out s chu u Hi Hchu Ho) as (e & c & He & Hc & Hek & Hck).
  exists e, c. split; [done|]. split; [done|]. unfold unlink_user.
  apply (wp_update_client _ e); [done|]. apply wp_last, (wp_update_channel _ c); [done|]. apply wp_ret.
  split; [|done].
  destruct (in_client _ _ _ Hi _ _ He) as [[Ht _ _] _], (in_channel _ _ _ Hi _ _ Hc) as [[Ht' _] _].
  eapply (inv_same _ _ (set_cc_users (cc_users s) (with_users u (user_table_del (chu_channel u))
    (user_table_del (chu_client u)) e c s))); [|by split_and!].
  eapply (inv_with_users R _ out); try done;
    [by apply user_table_del_holds|by apply user_table_del_holds| | |intros k p; apply held_user_refs|..].
  - rewrite held_add_eq, held_add_ne by done. pose proof (size_delete_member _ _ _ Hek). lia.
  - rewrite held_add_ne, held_add_eq by done. pose proof (size_delete_member _ _ _ Hck). lia.
  - intros x v Hv. by eapply (in_user_next _ _ _ Hi).
  - apply users_unlink with (u := u); [apply Hi|done|done|..]; unfold client_tables, channel_tables;
      by rewrite lookup_fmap, ?He, ?Hc.
Qed.

Lemma free_user_ok R out s chu u :
  inv R ({[chu]} ∪ out) s -> cc_users s !! chu = Some u -> chu ∉ out ->
  wp (free_user chu) (fun _ s' => inv R out s' /\ s' = set_cc_users (delete chu (cc_users s)) s) s.
Proof.
  intros Hi Hchu Ho. apply (wp_free_user chu u); [done|]. split; [|done]. destruct Hi as [Icl Ich Isv Ius Iun Ihe Ic1 Ic2 Ic3]. split; try done.
  - by apply users_free.
  - cbn. intros x v [_ Hv]%lookup_delete_Some. by eapply Iun.
Qed.

(** Nothing but one channel changes. *)
Definition only_channel p s s' : Prop :=
  cc_clients s' = cc_clients s /\ cc_servers s' = cc_servers s /\ cc_users s' = cc_users s /\
  cc_next s' = cc_next s /\ forall q, q <> p -> cc_channels s' !! q = cc_channels s !! q.

Lemma channel_unreferenced_only p s s' : channel_unreferenced p s s' -> only_channel p s s'.
Proof.
  intros (c & Hp & E & ? & ? & ? & ?). split_and!; [done..|]. intros q Hq. rewrite E.
  destruct (_ =? _); [by rewrite lookup_delete_ne|by rewrite lookup_insert_ne].
Qed.

Section with_unref.
Variables uc uch : Z -> CM unit.
Hypothesis uc_ok : forall R out s p, inv (R ⊎ {[+ (RClient, p) +]}) out s ->
  wp (uc p) (fun _ s' => inv R out s' /\ client_unreferenced p s s') s.
Hypothesis uch_ok : forall R out s p, inv (R ⊎ {[+ (RChannel, p) +]}) out s ->
  wp (uch p) (fun _ s' => inv R out s' /\ channel_unreferenced p s s') s.

Lemma del_channel_with_ok R out s p c :
  inv R out s -> cc_channels s !! p = Some c -> ch_deleted c <> 2 ->
  wp (del_channel_with uch p) (fun b s' => inv R out s' /\ only_channel p s s') s.
Proof.
  intros Hi Hp Hne. destruct (in_channel _ _ _ Hi p c Hp) as [[Ht Hlt] [Hn Hr Hd]].
  unfold del_channel_with. apply (wp_update_channel p c); [done|].
  eapply (wp_read cc_channels p); [apply lookup_insert_eq|]. cbn [ch_deleted set_ch_deleted].
  set (c1 := set_ch_deleted _ c).
  destruct (creation_deleted (ch_deleted c) Hd Hne) as [[H1 E]|(H1 & E & Ec & Hd')]; [rewrite E|].
  - assert (inv (R ⊎ {[+ (RChannel, p) +]}) out (set_cc_channels (<[p := c1]> (cc_channels s)) s)) as Hi1.
    { eapply inv_set_channel; try done; [apply same_but_add|].
      split; cbn; rewrite ?E; [|lia..]. rewrite held_add_eq, H1 in *. cbn in *. lia. }
    eapply wp_call; [by apply uch_ok|]. intros _ s' [Hi' Hu]. apply wp_ret. split; [done|].
    apply channel_unreferenced_only in Hu as (E1 & E2 & E3 & E4 & E5). split_and!; [done..|].
    intros q Hq. rewrite E5 by done. cbn. by rewrite lookup_insert_ne.
  - rewrite (proj2 (Z.eqb_neq _ _)) by done. apply wp_ret. split.
    + eapply inv_set_channel; try done. split; cbn; [by rewrite Ec|lia|done].
    + split_and!; try done. intros q Hq. cbn. by rewrite lookup_insert_ne.
Qed.

Lemma del_if_empty_ok R out s p c :
  inv R out s -> cc_channels s !! p = Some c -> ch_deleted c <> 2 ->
  wp (del_if_empty uch p) (fun b s' => inv R out s' /\ only_channel p s s') s.
Proof.
  intros Hi Hp Hne. unfold del_if_empty. apply (wp_read cc_channels p c); [done|].
  destruct (_ =? 0); [|by apply wp_ret].
  eapply wp_call; [by eapply del_channel_with_ok|]. intros b s' Hs'. by apply wp_ret.
Qed.

(** Both references of a user that was taken out are given back, and it is freed. *)
Lemma give_back_ok R out s chu u :
  inv (user_refs R u) ({[chu]} ∪ out) s -> cc_users s !! chu = Some u -> chu ∉ out ->
  wp (uc (chu_client u);; uch (chu_channel u);; free_user chu)
     (fun _ s' => inv R out s' /\ exists s1 s2, client_unreferenced (chu_client u) s s1 /\
        channel_unreferenced (chu_channel u) s1 s2 /\ s' = set_cc_users (delete chu (cc_users s2)) s2) s.
Proof.
  intros Hi Hu Ho. eapply wp_call; [by apply uc_ok|]. intros _ s1 [Hi1 Hs1].
  eapply wp_call; [by apply uch_ok|]. intros _ s2 [Hi2 Hs2].
  assert (cc_users s2 !! chu = Some u) as Hu2.
  { destruct Hs1 as (? & _ & _ & _ & _ & E1 & _), Hs2 as (? & _ & _ & _ & _ & E2 & _). congruence. }
  eapply wp_mono; [by eapply free_user_ok|]. intros _ s' [Hi' ->]. split; [done|]. by exists s1, s2.
Qed.

(** The list of a channel that keeps a reference: the creation's or one that is held. *)
Definition channel_kept R p (c : SilcChannelEntry) : Prop :=
  0 < creation (ch_deleted c) + held R RChannel p.
Definition client_kept R p (e : SilcClientEntry) : Prop :=
  0 < creation (ce_deleted e) + held R RClient p.

Lemma counted_size R p c :
  channel_counted R p c -> Z.of_nat (size (user_map (ch_user_list c))) < 2 ^ 32.
Proof.
  intros [Hn Hr _]. pose proof (held_nonneg R RChannel p).
  destruct (creation_cases (ch_deleted c)) as [[_ ?]|[_ ?]]; lia.
Qed.

Lemma client_counted_size R p e :
  client_counted R p e -> Z.of_nat (size (user_map (ce_channels e))) < 2 ^ 32.
Proof.
  intros [Hn Hr _]. pose proof (held_nonneg R RClient p).
  destruct (creation_cases (ce_deleted e)) as [[_ ?]|[_ ?]]; lia.
Qed.

Lemma size_pos (m : gmap Z Z) k v : m !! k = Some v -> (0 < size m)%nat.
Proof. intros Hk. pose proof (size_delete_member m k v Hk). lia. Qed.

(** The user of an entry of a table. *)
Lemma channel_user R out s p c k v :
  inv R out s -> cc_channels s !! p = Some c -> user_map (ch_user_list c) !! k = Some v ->
  v ∉ out /\ cc_users s !! v = Some {| chu_client := k; chu_mode := chu_mode (default
    {| chu_client := 0; chu_mode := 0; chu_channel := 0 |} (cc_users s !! v)); chu_channel := p |}.
Proof.
  intros Hi Hp Hk. destruct (uo_channel _ _ _ _ (in_users _ _ _ Hi) p (user_map (ch_user_list c)) k v)
    as (Ho & u & Hu & <- & <-).
  - unfold channel_tables. by rewrite lookup_fmap, Hp.
  - done.
  - split; [done|]. rewrite Hu. by destruct u.
Qed.

Lemma client_user R out s p e k v :
  inv R out s -> cc_clients s !! p = Some e -> user_map (ce_channels e) !! k = Some v ->
  v ∉ out /\ cc_users s !! v = Some {| chu_client := p; chu_mode := chu_mode (default
    {| chu_client := 0; chu_mode := 0; chu_channel := 0 |} (cc_users s !! v)); chu_channel := k |}.
Proof.
  intros Hi Hp Hk. destruct (uo_client _ _ _ _ (in_users _ _ _ Hi) p (user_map (ce_channels e)) k v)
    as (Ho & u & Hu & <- & <-).
  - unfold client_tables. by rewrite lookup_fmap, Hp.
  - done.
  - split; [done|]. rewrite Hu. by destruct u.
Qed.

Lemma empty_loop_ok fuel R out s p c htl m :
  inv R out s -> cc_channels s !! p = Some c -> walking (ch_user_list c) htl m -> channel_kept R p c ->
  (size m < fuel)%nat ->
  wp (empty_loop uc uch fuel p htl) (fun _ s' => inv R out s' /\ exists c',
      cc_channels s' !! p = Some c' /\ user_map (ch_user_list c') = ∅) s.
Proof.
  revert s c htl m; induction fuel as [|fuel IH]; intros s c htl m Hi Hp W Hk Hf; [lia|].
  destruct (in_channel _ _ _ Hi p c Hp) as [Hsh Hcn].
  pose proof (wk_holds _ _ _ W) as Ht. pose proof (holds_map _ _ Ht) as Hm. subst m.
  cbn [empty_loop]. apply (wp_read cc_channels p c); [done|]. apply wp_bind.
  destruct (walking_step _ _ _ W (counted_size _ _ _ Hcn)) as [[Hm E]|(k & v & htl' & Hkv & E & W')].
  { apply get_user_end; [done|]. intros htl'. apply wp_ret. split; [done|]. by exists c. }
  destruct (channel_user R out s p c k v Hi Hp Hkv) as [Ho Hu]. set (u := {| chu_client := k |}) in Hu.
  eapply get_user_next; [done|done|].
  destruct (unlink_user_ok R out s v u Hi Hu Ho) as (e & c0 & He & Hc0 & Hun).
  cbn [chu_channel u] in Hc0. assert (c0 = c) as -> by congruence.
  cbv beta iota. unfold empty_user. eapply wp_call.
  { eapply wp_call; [exact Hun|]. intros _ s1 [Hi1 E1]. subst s1. by apply (give_back_ok R out _ v u Hi1 Hu Ho). }
  intros _ s4 (Hi4 & s2' & s3' & Hs2 & Hs3 & ->).
  assert (cc_channels s3' !! p = Some (set_ch_refcnt (ch_refcnt c - 1)
    (set_ch_user_list (user_table_del k (ch_user_list c)) c))) as Hc4.
  { destruct Hs2 as (? & _ & _ & E2 & _), Hs3 as (c3 & Hc3 & E3 & _). rewrite E2 in Hc3, E3.
    cbn in Hc3. rewrite lookup_insert_eq in Hc3. injection Hc3 as <-. rewrite E3. cbn [ch_refcnt set_ch_user_list].
    rewrite (proj2 (Z.eqb_neq _ _)); [cbn; by rewrite lookup_insert_eq|].
    destruct Hcn as [-> _ _]. pose proof (size_pos _ _ _ Hkv). unfold channel_kept in Hk. lia. }
  eapply IH; [exact Hi4|exact Hc4|exact W'|done|].
  pose proof (size_delete_member _ _ _ Hkv). lia.
Qed.

Lemma lock_channel_ok {B} R out s p (k : unit -> CM B) Q :
  inv R out s -> 0 < held R RChannel p -> wp (k tt) Q s -> wp (bind (lock_channel p) k) Q s.
Proof.
  intros Hi Hh Hk. destruct (in_held _ _ _ Hi RChannel p Hh) as [c Hc].
  unfold lock_channel. apply wp_bind, (wp_read cc_channels p c); [done|]. by apply wp_ret.
Qed.

Lemma held_channel_ref R u : 0 < held (user_refs R u) RChannel (chu_channel u).
Proof. rewrite held_add_ne, held_add_eq by done. pose proof (held_nonneg R RChannel (chu_channel u)). lia. Qed.

(** One user is taken out of both tables, and its channel is deleted when it has no
    other. *)
Lemma remove_user_ok R out s v u e c :
  inv R out s -> cc_users s !! v = Some u -> v ∉ out -> cc_clients s !! chu_client u = Some e ->
  cc_channels s !! chu_channel u = Some c -> ch_deleted c <> 2 ->
  wp (remove_user uc uch v u)
     (fun _ s' => inv R out s' /\ (forall q, q <> chu_channel u -> cc_channels s' !! q = cc_channels s !! q) /\
        exists s1, cc_clients s1 = <[chu_client u := set_ce_channels (user_table_del (chu_channel u) (ce_channels e)) e]> (cc_clients s) /\
          exists s2, client_unreferenced (chu_client u) s1 s2 /\ cc_clients s' = cc_clients s2) s.
Proof.
  intros Hi Hu Ho He Hc Hd. unfold remove_user, lock_channel at 1.
  apply wp_bind, (wp_read cc_channels _ c); [done|]. apply wp_ret.
  destruct (unlink_user_ok R out s v u Hi Hu Ho) as (e0 & c0 & He0 & Hc0 & Hun).
  rewrite He in He0. rewrite Hc in Hc0. injection He0 as <-. injection Hc0 as <-.
  eapply wp_call; [exact Hun|]. intros _ s1 [Hi1 E1].
  eapply wp_call.
  { eapply del_if_empty_ok; [exact Hi1|rewrite E1; apply lookup_insert_eq|exact Hd]. }
  intros _ s2 [Hi2 (F1 & F2 & F3 & F4 & F5)].
  eapply lock_channel_ok; [exact Hi2|apply held_channel_ref|].
  eapply wp_mono; [eapply give_back_ok; [exact Hi2|by rewrite F3, E1|done]|].
  intros _ s5 (Hi5 & s3 & s4 & H3 & H4 & ->). split; [done|].
  pose proof (channel_unreferenced_only _ _ _ H4) as (G1 & _ & _ & _ & G5). split.
  - intros q Hq. cbn. rewrite G5 by done. destruct H3 as (? & _ & _ & -> & _).
    rewrite F5 by done. rewrite E1. cbn. by rewrite lookup_insert_ne.
  - exists s2. split; [by rewrite F1, E1|]. by exists s3.
Qed.

Lemma remove_loop_ok fuel R out s p e htl m :
  inv R out s -> cc_clients s !! p = Some e -> walking (ce_channels e) htl m -> client_kept R p e ->
  (forall k v c, m !! k = Some v -> cc_channels s !! k = Some c -> ch_deleted c <> 2) ->
  (size m < fuel)%nat ->
  wp (remove_loop uc uch fuel p htl) (fun _ s' => inv R out s' /\ exists e',
      cc_clients s' !! p = Some e' /\ user_map (ce_channels e') = ∅) s.
Proof.
  revert s e htl m; induction fuel as [|fuel IH]; intros s e htl m Hi Hp W Hk Hroom Hf; [lia|].
  destruct (in_client _ _ _ Hi p e Hp) as [Hsh Hcn].
  pose proof (wk_holds _ _ _ W) as Ht. pose proof (holds_map _ _ Ht) as Hm. subst m.
  cbn [remove_loop]. apply (wp_read cc_clients p e); [done|]. apply wp_bind.
  destruct (walking_step _ _ _ W (client_counted_size _ _ _ Hcn)) as [[Hm E]|(k & v & htl' & Hkv & E & W')].
  { apply get_user_end; [done|]. intros htl'. apply wp_ret. split; [done|]. by exists e. }
  destruct (client_user R out s p e k v Hi Hp Hkv) as [Ho Hu]. set (u := {| chu_client := p |}) in Hu.
  eapply get_user_next; [done|done|].
  destruct (user_tables R out s v u Hi Hu Ho) as (e0 & c & He0 & Hc & _).
  cbv beta iota. eapply wp_call; [by apply (remove_user_ok R out s v u e c Hi Hu Ho Hp Hc), (Hroom k v)|].
  intros _ s4 (Hi4 & Hother & s1 & E1 & s2 & Hs2 & E2).
  assert (cc_clients s4 !! p = Some (set_ce_refcnt (ce_refcnt e - 1)
    (set_ce_channels (user_table_del k (ce_channels e)) e))) as Hc4.
  { destruct Hs2 as (e2 & He2 & E3 & _). rewrite E1, lookup_insert_eq in He2.
    injection He2 as <-. rewrite E2, E3. cbn [ce_refcnt set_ce_channels].
    rewrite (proj2 (Z.eqb_neq _ _)); [by rewrite lookup_insert_eq|].
    destruct Hcn as [-> _ _]. pose proof (size_pos _ _ _ Hkv). unfold client_kept in Hk. lia. }
  eapply IH; [exact Hi4|exact Hc4|exact W'|done|..].
  - intros k' v' c' [Hne Hk']%lookup_delete_Some. rewrite Hother by done. by eapply Hroom.
  - pose proof (size_delete_member _ _ _ Hkv). lia.
Qed.

Lemma silc_hash_table_list_map t : user_map (silc_hash_table_list t).2 = user_map t.
Proof. done. Qed.

Lemma remove_from_channels_with_ok R out s p e :
  inv R out s -> cc_clients s !! p = Some e -> client_kept R p e ->
  (forall k v c, user_map (ce_channels e) !! k = Some v -> cc_channels s !! k = Some c -> ch_deleted c <> 2) ->
  wp (remove_from_channels_with uc uch p) (fun _ s' => inv R out s') s.
Proof.
  intros Hi Hp Hk Hroom. destruct (in_client _ _ _ Hi p e Hp) as [[Ht Hv Hlt] Hcn].
  unfold remove_from_channels_with. apply (wp_read cc_clients p e); [done|].
  destruct (_ =? 0); [by apply wp_ret|].
  pose proof (walking_start _ _ Ht) as W. destruct (silc_hash_table_list _) as [htl t] eqn:El.
  assert (user_map t = user_map (ce_channels e)) as Em
    by (rewrite <- (silc_hash_table_list_map (ce_channels e)); by rewrite El).
  pose proof (wk_holds _ _ _ W) as Ht'. apply wp_modify.
  rewrite (user_table_count t _ Ht') by exact (client_counted_size _ _ _ Hcn). rewrite Nat2Z.id.
  eapply wp_call.
  - eapply (remove_loop_ok _ R out); [|apply lookup_insert_eq|exact W|done|exact Hroom|lia].
    eapply inv_set_client; try done.
    + split; cbn; [by rewrite Em|done|done].
    + unfold client_counted. cbn. by rewrite Em.
  - intros htl' s' (Hi' & e' & Hp' & Hm'). apply wp_last, (wp_update_client p e'); [done|]. apply wp_ret.
    destruct (in_client _ _ _ Hi' p e' Hp') as [[Ht2 ? ?] Hcn2].
    eapply inv_set_client; try done. split; try done. cbn. by apply (set_auto_rehash_holds _ _ _ Ht2).
Qed.

Lemma empty_channel_with_ok R out s p c :
  inv R out s -> cc_channels s !! p = Some c -> channel_kept R p c ->
  wp (empty_channel_with uc uch p) (fun _ s' => inv R out s') s.
Proof.
  intros Hi Hp Hk. destruct (in_channel _ _ _ Hi p c Hp) as [[Ht Hlt] Hcn].
  unfold empty_channel_with. apply (wp_read cc_channels p c); [done|].
  pose proof (walking_start _ _ Ht) as W. destruct (silc_hash_table_list _) as [htl t] eqn:El.
  assert (user_map t = user_map (ch_user_list c)) as Em
    by (rewrite <- (silc_hash_table_list_map (ch_user_list c)); by rewrite El).
  pose proof (wk_holds _ _ _ W) as Ht'. apply wp_modify.
  rewrite (user_table_count t _ Ht') by exact (counted_size _ _ _ Hcn). rewrite Nat2Z.id.
  eapply wp_call.
  - eapply (empty_loop_ok _ R out); [|apply lookup_insert_eq|exact W|done|lia].
    eapply inv_set_channel; try done.
    + split; cbn; [by rewrite Em|done].
    + unfold channel_counted. cbn. by rewrite Em.
  - intros htl' s' (Hi' & c' & Hp' & Hm'). apply wp_last, (wp_update_channel p c'); [done|]. apply wp_ret.
    destruct (in_channel _ _ _ Hi' p c' Hp') as [[Ht2 ?] Hcn2].
    eapply inv_set_channel; try done. split; try done. cbn. by apply (set_auto_rehash_holds _ _ _ Ht2).
Qed.
End with_unref.

(** * The functions *)

Abbreviation uclient := (fun p => silc_client_unref_client (Some p)).
Abbreviation uchannel := (fun p => silc_client_unref_channel (Some p)).

Lemma uclient_ok R out s p :
  inv (R ⊎ {[+ (RClient, p) +]}) out s ->
  wp (uclient p) (fun _ s' => inv R out s' /\ client_unreferenced p s s') s.
Proof. apply unref_client_ok. Qed.

Lemma uchannel_ok R out s p :
  inv (R ⊎ {[+ (RChannel, p) +]}) out s ->
  wp (uchannel p) (fun _ s' => inv R out s' /\ channel_unreferenced p s s') s.
Proof. apply unref_channel_ok. Qed.

Lemma silc_client_del_channel_ok R out s p c :
  inv R out s -> cc_channels s !! p = Some c -> ch_deleted c <> 2 ->
  wp (silc_client_del_channel (Some p)) (fun _ s' => inv R out s') s.
Proof.
  intros Hi Hp Hd. eapply wp_mono; [by apply (del_channel_with_ok uchannel uchannel_ok R out s p c)|].
  by intros b s' [? _].
Qed.

Lemma silc_client_del_client_ok R out s p e :
  inv R out s -> cc_clients s !! p = Some e -> ce_deleted e <> 2 ->
  wp (silc_client_del_client (Some p)) (fun _ s' => inv R out s') s.
Proof.
  intros Hi Hp Hne. destruct (in_client _ _ _ Hi p e Hp) as [[Ht Hv Hlt] [Hn Hr Hd]].
  unfold silc_client_del_client. apply (wp_update_client p e); [done|].
  eapply (wp_read cc_clients p); [apply lookup_insert_eq|]. cbn [ce_deleted set_ce_deleted ce_op].
  set (e1 := set_ce_deleted _ e).
  destruct (creation_deleted (ce_deleted e) Hd Hne) as [[H1 E]|(H1 & E & Ec & Hd')]; [rewrite E|].
  - assert (forall log e2, user_map (ce_channels e2) = user_map (ce_channels e) -> ce_id e2 = ce_id e ->
        client_shape (cc_next s) p e2 -> ce_refcnt e2 = ce_refcnt e -> ce_deleted e2 = 0 ->
        inv (R ⊎ {[+ (RClient, p) +]}) out (set_cc_log log (set_cc_clients (<[p := e2]> (cc_clients s)) s))) as Hi1.
    { intros log e2 E1 E2 Hs2 E3 E4. eapply inv_same; [eapply inv_set_client|]; try done; [apply same_but_add|].
      split; rewrite ?E3, ?E4, ?E1; [|lia..]. rewrite held_add_eq, H1 in *. cbn in *. lia. }
    assert (forall log e2, user_map (ce_channels e2) = user_map (ce_channels e) -> ce_id e2 = ce_id e ->
        client_shape (cc_next s) p e2 -> ce_refcnt e2 = ce_refcnt e -> ce_deleted e2 = 0 ->
        wp (uclient p;; ret true) (fun _ s' => inv R out s')
          (set_cc_log log (set_cc_clients (<[p := e2]> (cc_clients s)) s))) as Hun.
    { intros log e2 E1 E2 Hs2 E3 E4. eapply wp_call; [apply uclient_ok; by apply Hi1|].
      intros _ s' [? _]. by apply wp_ret. }
    cbn [negb Z.eqb]. apply wp_bind. destruct (ce_op e) as [op|].
    + apply wp_event, wp_last. eapply (wp_update_client p); [apply lookup_insert_eq|]. apply wp_ret.
      cbn [set_cc_log set_cc_clients cc_clients]. rewrite insert_insert_eq.
      apply (Hun (cc_log s ++ [silc_async_abort op]) (set_ce_op None e1)); [done|done|by split|done|exact E].
    + apply wp_ret, (Hun (cc_log s) e1); [done|done|by split|done|exact E].
  - rewrite (proj2 (Z.eqb_neq _ _)) by done. apply wp_ret.
    eapply inv_set_client; try done. split; cbn; [by rewrite Ec|lia|done].
Qed.

Lemma silc_client_del_server_ok R out s p e :
  inv R out s -> cc_servers s !! p = Some e -> se_deleted e <> 2 ->
  wp (silc_client_del_server (Some p)) (fun _ s' => inv R out s') s.
Proof.
  intros Hi Hp Hne. destruct (in_server _ _ _ Hi p e Hp) as [Hlt [Hn Hr Hd]].
  unfold silc_client_del_server. apply (wp_update_server p e); [done|].
  eapply (wp_read cc_servers p); [apply lookup_insert_eq|]. cbn [se_deleted set_se_deleted].
  set (e1 := set_se_deleted _ e).
  destruct (creation_deleted (se_deleted e) Hd Hne) as [[H1 E]|(H1 & E & Ec & Hd')]; [rewrite E|].
  - eapply wp_call; [apply unref_server_ok|intros a s' Hs'; apply wp_ret; exact Hs'].
    eapply inv_set_server; try done; [apply same_but_add|].
    split; cbn; rewrite ?E; [|lia..]. rewrite held_add_eq, H1 in *. cbn in *. lia.
  - rewrite (proj2 (Z.eqb_neq _ _)) by done. apply wp_ret.
    eapply inv_set_server; try done. split; cbn; [by rewrite Ec|lia|done].
Qed.

Lemma silc_client_on_channel_eq R out s ch cl c :
  inv R out s -> cc_channels s !! ch = Some c ->
  silc_client_on_channel ch cl s = inr (user_map (ch_user_list c) !! cl, s).
Proof.
  intros Hi Hc. destruct (in_channel _ _ _ Hi ch c Hc) as [[Ht _] _].
  unfold silc_client_on_channel, bind, read_channel, read. rewrite Hc, (user_table_find _ _ _ Ht).
  unfold ret. by destruct (user_map _ !! cl).
Qed.

(** The next address moves on. *)
Lemma inv_next R out s n : inv R out s -> cc_next s <= n -> inv R out (set_cc_next n s).
Proof.
  intros [Icl Ich Isv Ius Iun Ihe Ic1 Ic2 Ic3] Hn. split; cbn -[SILC_ID_CLIENT SILC_ID_CHANNEL SILC_ID_SERVER];
    try done; try by eapply cache_ok_next.
  - intros p e He. destruct (Icl p e He) as [[] ?]. split; [split; [done..|lia]|done].
  - intros p e He. destruct (Ich p e He) as [[] ?]. split; [split; [done..|lia]|done].
  - intros p e He. destruct (Isv p e He). split; [lia|done].
  - intros p e He. pose proof (Iun p e He). lia.
Qed.

Lemma silc_client_add_to_channel_ok R s ch cl mode e c :
  inv R ∅ s -> cc_clients s !! cl = Some e -> cc_channels s !! ch = Some c ->
  ce_refcnt e + 1 < 2 ^ 32 -> ch_refcnt c + 1 < 2 ^ 32 ->
  wp (silc_client_add_to_channel ch cl mode) (fun _ s' => inv R ∅ s') s.
Proof.
  intros Hi He Hc Hre Hrc. unfold silc_client_add_to_channel. apply wp_bind. unfold wp at 1.
  rewrite (silc_client_on_channel_eq R ∅ s ch cl c Hi Hc).
  destruct (user_map (ch_user_list c) !! cl) as [chu|] eqn:Ecl; [by apply wp_ret|].
  apply wp_alloc, wp_modify. set (u := {| chu_client := cl |}).
  apply (wp_update_client cl e); [done|]. apply (wp_update_channel ch c); [done|].
  eapply (wp_update_channel ch); [apply lookup_insert_eq|].
  eapply (wp_update_client cl); [apply lookup_insert_eq|]. apply wp_ret.
  cbn [cc_clients cc_channels set_cc_clients set_cc_channels set_cc_users set_cc_next].
  rewrite !insert_insert_eq. cbn [ch_refcnt ce_refcnt].
  destruct (in_client _ _ _ Hi _ _ He) as [Hsh [Hn Hr Hd]], (in_channel _ _ _ Hi _ _ Hc) as [Hsh' [Hn' Hr' Hd']].
  rewrite !u32_id by lia. pose proof (inv_next R ∅ s (cc_next s + 1) Hi ltac:(lia)) as Hi1.
  set (s1 := set_cc_next (cc_next s + 1) s) in Hi1.
  assert (inv (R ⊎ {[+ (RClient, cl) +]}) ∅
    (set_cc_clients (<[cl := set_ce_refcnt (ce_refcnt e + 1) e]> (cc_clients s1)) s1)) as Hi2.
  { eapply inv_set_client; try done; [apply same_but_add|unfold s1; destruct Hsh; split; cbn; [done..|lia]|].
    split; cbn; [|lia|done]. rewrite held_add_eq. lia. }
  set (s2 := set_cc_clients _ s1) in Hi2.
  assert (inv (R ⊎ {[+ (RClient, cl) +]} ⊎ {[+ (RChannel, ch) +]}) ∅
    (set_cc_channels (<[ch := set_ch_refcnt (ch_refcnt c + 1) c]> (cc_channels s2)) s2)) as Hi3.
  { eapply inv_set_channel; try done; [apply same_but_add|unfold s2, s1; destruct Hsh'; split; cbn; [done|lia]|].
    split; cbn; [|lia|done]. rewrite held_add_eq, held_add_ne by done. lia. }
  set (s3 := set_cc_channels _ s2) in Hi3.
  assert (cc_users s !! cc_next s = None) as Hfree.
  { destruct (cc_users s !! cc_next s) as [v|] eqn:E; [|done].
    pose proof (in_user_next _ _ _ Hi _ _ E). lia. }
  assert (user_map (ce_channels e) !! ch = None) as Ech.
  { destruct (user_map (ce_channels e) !! ch) as [v|] eqn:E; [|done].
    destruct (users_symmetric _ _ _ _ cl (user_map (ce_channels e)) ch v (in_users _ _ _ Hi))
      as (m' & Hm' & Hv); [by unfold client_tables; rewrite lookup_fmap, He|done|].
    unfold channel_tables in Hm'. rewrite lookup_fmap, Hc in Hm'. injection Hm' as <-. congruence. }
  destruct Hsh as [Ht _ _], Hsh' as [Ht' _].
  eapply inv_same.
  - eapply (inv_with_users _ R ∅ ∅ s3 u (user_table_add ch (cc_next s)) (user_table_add cl (cc_next s))
      _ _ (<[cc_next s := u]> (cc_users s)));
      [exact Hi3|apply lookup_insert_eq|apply lookup_insert_eq|by apply user_table_add_holds
      |by apply user_table_add_holds|..].
    + cbn [ce_channels set_ce_refcnt chu_client u]. rewrite map_size_insert_None by done.
      rewrite held_add_ne, held_add_eq by done. lia.
    + cbn [ch_user_list set_ch_refcnt chu_channel u]. rewrite map_size_insert_None by done.
      rewrite held_add_eq, held_add_ne by done. lia.
    + intros k p Hk1 Hk2. by rewrite !held_add_ne.
    + intros x v [[<- <-]|[_ Hv]]%lookup_insert_Some;
        change (cc_next s3) with (cc_next s + 1); [lia|].
      pose proof (in_user_next _ _ _ Hi _ _ Hv). lia.
    + apply (users_link _ _ (cc_users s) ∅ (cc_next s) u); [exact (in_users _ _ _ Hi3)|done|done|..|done|done];
        unfold client_tables, channel_tables; cbn; rewrite lookup_fmap, lookup_insert_eq; done.
  - unfold with_users, s3, s2, s1. split_and!; try done; cbn; by rewrite insert_insert_eq.
Qed.

Lemma silc_client_remove_from_channel_ok R out s ch cl e c :
  inv R out s -> cc_clients s !! cl = Some e -> cc_channels s !! ch = Some c -> ch_deleted c <> 2 ->
  wp (silc_client_remove_from_channel ch cl) (fun _ s' => inv R out s') s.
Proof.
  intros Hi He Hc Hd. unfold silc_client_remove_from_channel. apply wp_bind. unfold wp at 1.
  rewrite (silc_client_on_channel_eq R out s ch cl c Hi Hc).
  destruct (user_map (ch_user_list c) !! cl) as [chu|] eqn:Ecl; [|by apply wp_ret].
  destruct (channel_user R out s ch c cl chu Hi Hc Ecl) as [Ho Hu]. set (u := {| chu_client := cl |}) in Hu.
  unfold lock_client, lock_channel at 1.
  apply wp_bind, (wp_read cc_clients cl e); [done|]. apply wp_ret.
  apply wp_bind, (wp_read cc_channels ch c); [done|]. apply wp_ret.
  apply (wp_read cc_users chu u); [done|].
  destruct (unlink_user_ok R out s chu u Hi Hu Ho) as (e0 & c0 & _ & Hc0 & Hun).
  assert (c0 = c) as -> by (cbn in Hc0; congruence).
  eapply wp_call; [exact Hun|]. intros _ s1 [Hi1 E1].
  eapply wp_call; [eapply (free_user_ok _ out); [exact Hi1|by rewrite E1|done]|]. intros _ s2 [Hi2 E2].
  eapply wp_call.
  { eapply del_if_empty_ok; [exact uchannel_ok|exact Hi2|rewrite E2, E1; apply lookup_insert_eq|exact Hd]. }
  intros _ s3 [Hi3 _].
  destruct (in_held _ _ _ Hi3 RClient cl) as [e3 He3].
  { change cl with (chu_client u). rewrite held_add_eq, held_add_ne by done.
    pose proof (held_nonneg R RClient (chu_client u)). lia. }
  apply wp_bind, (wp_read cc_clients cl e3); [done|]. apply wp_ret.
  eapply lock_channel_ok; [exact Hi3|apply (held_channel_ref R u)|].
  eapply wp_call; [exact (uclient_ok _ _ _ _ Hi3)|]. intros _ s4 [Hi4 _].
  eapply wp_call; [exact (uchannel_ok _ _ _ _ Hi4)|]. intros _ s5 [Hi5 _]. by apply wp_ret.
Qed.

Lemma silc_client_remove_from_channels_ok R out s p e :
  inv R out s -> cc_clients s !! p = Some e -> client_kept R p e ->
  (forall k v c, user_map (ce_channels e) !! k = Some v -> cc_channels s !! k = Some c -> ch_deleted c <> 2) ->
  wp (silc_client_remove_from_channels p) (fun _ s' => inv R out s') s.
Proof. apply (remove_from_channels_with_ok uclient uchannel); [apply uclient_ok|apply uchannel_ok]. Qed.

Lemma silc_client_empty_channel_ok R out s p c :
  inv R out s -> cc_channels s !! p = Some c -> channel_kept R p c ->
  wp (silc_client_empty_channel p) (fun _ s' => inv R out s') s.
Proof. apply (empty_channel_with_ok uclient uchannel); [apply uclient_ok|apply uchannel_ok]. Qed.
End users.
