(* ===== verification/ClientNames.v ===== *)
(** Finding clients by name and formatting their nicknames take and give back
    references: what is not given back is held. *)

From stdpp Require Import gmap gmultiset sets list strings.
From S2P Require Import Prelude CTypes Id HashTable HashTableSpec SilcList IdCache IdCacheSpec ClientNick ClientState ClientEntry ClientDb ClientTables ClientCache ClientInv ClientRefs ClientUsers.

#[local] Open Scope client_scope.

Section names.
Context `{ClientObjects} `{ClientStrings} (params : SilcClientParams).
Implicit Types (R : Held) (s : ClientConn).

(** The references of a list of clients. *)
Definition client_refs (l : list Z) : Held := list_to_set_disj (pair RClient <$> l).

Lemma client_refs_nil R : R ⊎ client_refs [] = R.
Proof. apply (right_id_L ∅ (⊎)). Qed.

Lemma client_refs_cons R p l : R ⊎ client_refs (p :: l) = (R ⊎ {[+ (RClient, p) +]}) ⊎ client_refs l.
Proof. unfold client_refs. cbn [fmap list_fmap]. rewrite list_to_set_disj_cons. apply (assoc_L (⊎)). Qed.

Lemma client_refs_cons' R p l : R ⊎ client_refs (p :: l) = (R ⊎ client_refs l) ⊎ {[+ (RClient, p) +]}.
Proof.
  unfold client_refs. cbn [fmap list_fmap]. rewrite list_to_set_disj_cons, <- (assoc_L (⊎)).
  f_equal. apply (comm_L (⊎)).
Qed.

Lemma held_union R R' k p : held (R ⊎ R') k p = held R k p + held R' k p.
Proof. unfold held. rewrite multiplicity_disj_union. lia. Qed.

(** * Entries that stay *)

(** The client has a reference besides those that are not in [R]; [name] is its name in
    the cache. *)
Definition alive R s p (name : option (list Z)) : Prop :=
  exists e, cc_clients s !! p = Some e /\ ce_nickname_normalized e = name /\
    0 < creation (ce_deleted e) + Z.of_nat (size (user_map (ce_channels e))) + held R RClient p.

Definition keeps R s s' : Prop := forall p name, alive R s p name -> alive R s' p name.

Lemma keeps_refl R s : keeps R s s.
Proof. by intros p name. Qed.

Lemma keeps_trans R s1 s2 s3 : keeps R s1 s2 -> keeps R s2 s3 -> keeps R s1 s3.
Proof. unfold keeps. auto. Qed.

Lemma inv_alive R out s p e :
  inv R out s -> cc_clients s !! p = Some e -> alive R s p (ce_nickname_normalized e).
Proof.
  intros Hi He. exists e. split; [done|]. split; [done|]. destruct (in_client _ _ _ Hi p e He) as [_ [Hn Hr _]]. lia.
Qed.

Lemma alive_union R R' s p name : alive R s p name -> alive (R ⊎ R') s p name.
Proof.
  intros (e & He & Hn & Hlt). exists e. split; [done|]. split; [done|]. rewrite held_union.
  pose proof (held_nonneg R' RClient p). lia.
Qed.

(** One client changes, but not its references. *)
Lemma keeps_set_client R s p e e' :
  cc_clients s !! p = Some e -> ce_deleted e' = ce_deleted e -> ce_channels e' = ce_channels e ->
  ce_nickname_normalized e' = ce_nickname_normalized e ->
  keeps R s (set_cc_clients (<[p := e']> (cc_clients s)) s).
Proof.
  intros Hp Hd Hc Hn q name (x & Hx & <- & Hlt). destruct (decide (q = p)) as [->|Hne].
  - exists e'. cbn. rewrite lookup_insert_eq, Hd, Hc, Hn. split; [done|]. split; congruence.
  - exists x. cbn. by rewrite lookup_insert_ne.
Qed.

Lemma keeps_unref R R' out s s' p :
  inv ((R ⊎ R') ⊎ {[+ (RClient, p) +]}) out s -> client_unreferenced p s s' -> keeps R s s'.
Proof.
  intros Hi (e & Hp & E & _) q name (x & Hx & <- & Hlt). destruct (decide (q = p)) as [->|Hne].
  - rewrite Hp in Hx. injection Hx as <-. destruct (in_client _ _ _ Hi p e Hp) as [_ [Hn _ _]].
    rewrite held_add_eq, held_union in Hn. pose proof (held_nonneg R' RClient p).
    rewrite (proj2 (Z.eqb_neq _ _)) in E by lia.
    exists (set_ce_refcnt (ce_refcnt e - 1) e). by rewrite E, lookup_insert_eq.
  - exists x. split; [|done]. rewrite E.
    destruct (_ =? _); [by rewrite lookup_delete_ne|by rewrite lookup_insert_ne].
Qed.

Lemma list_free_ok R s l :
  inv (R ⊎ client_refs l) ∅ s ->
  wp (silc_client_list_free (Some l)) (fun _ s' => inv R ∅ s' /\ keeps R s s') s.
Proof.
  cbn [silc_client_list_free]. revert s; induction l as [|p l IH]; intros s Hi.
  { apply wp_ret. rewrite client_refs_nil in Hi. split; [done|apply keeps_refl]. }
  rewrite client_refs_cons' in Hi. cbn [unref_all].
  eapply wp_call; [exact (uclient_ok _ _ _ _ Hi)|]. intros _ s1 [Hi1 Hs1].
  eapply wp_mono; [by apply IH|]. intros _ s2 [Hi2 Hk]. split; [done|].
  eapply keeps_trans; [by eapply keeps_unref|done].
Qed.

(** * Clients by name *)

(** There is room in the counters for more references. *)
Definition clients_room s : Prop :=
  (forall p e, cc_clients s !! p = Some e -> ce_refcnt e + 2 < 2 ^ 32) /\
  Z.of_nat (size (cc_client_ids s)) < 2 ^ 30.

(** Only reference counts of clients change. *)
Definition more_refs s s' : Prop :=
  (forall p e, cc_clients s !! p = Some e -> exists n, cc_clients s' !! p = Some (set_ce_refcnt n e)) /\
  cc_local_entry s' = cc_local_entry s.

Lemma more_refs_trans s1 s2 s3 : more_refs s1 s2 -> more_refs s2 s3 -> more_refs s1 s3.
Proof.
  intros [H1 E1] [H2 E2]. split; [|congruence]. intros p e He. destruct (H1 p e He) as [n Hn].
  destruct (H2 p _ Hn) as [k Hk]. by exists k.
Qed.

Lemma more_refs_keeps R s s' : more_refs s s' -> keeps R s s'.
Proof.
  intros [Hm _] p name (e & He & <- & Hlt). destruct (Hm p e He) as [n Hn].
  by exists (set_ce_refcnt n e).
Qed.

Lemma more_refs_one s p e n :
  cc_clients s !! p = Some e ->
  more_refs s (set_cc_clients (<[p := set_ce_refcnt n e]> (cc_clients s)) s).
Proof.
  intros Hp. split; [|done]. intros q x Hx. cbn. destruct (decide (q = p)) as [->|Hne].
  - exists n. rewrite lookup_insert_eq. congruence.
  - exists (ce_refcnt x). rewrite lookup_insert_ne, Hx by done. by destruct x.
Qed.

Definition takeable s (ps : list Z) : Prop :=
  base.NoDup ps /\ forall p, p ∈ ps -> exists e, cc_clients s !! p = Some e /\ ce_refcnt e + 1 < 2 ^ 32.

(** A reference to the first of the clients. *)
Lemma take_one R s p ps :
  inv R ∅ s -> takeable s (p :: ps) ->
  wp (silc_client_ref_client p) (fun _ s' => inv (R ⊎ {[+ (RClient, p) +]}) ∅ s' /\
    takeable s' ps /\ more_refs s s') s.
Proof.
  intros Hi [[Hp Hn]%list.NoDup_cons HF]. destruct (HF p) as (e & He & Hlt); [by left|].
  eapply wp_mono; [by eapply ref_client_ok|]. intros _ s' [Hi' ->]. split; [done|].
  split; [|by apply more_refs_one]. split; [done|]. intros q Hq.
  destruct (HF q) as (x & Hx & ?); [by right|]. exists x. cbn. rewrite lookup_insert_ne; [done|congruence].
Qed.

Lemma takeable_tail s p ps : takeable s (p :: ps) -> takeable s ps.
Proof. intros [[_ ?]%list.NoDup_cons HF]. split; [done|]. intros q Hq. apply HF. by right. Qed.

(** What the loops over a list of clients give. *)
Definition taken R s (r : list Z) s' : Prop := inv (R ⊎ client_refs r) ∅ s' /\ more_refs s s'.

Lemma taken_none R s : inv R ∅ s -> taken R s [] s.
Proof.
  intros Hi. split; [by rewrite client_refs_nil|]. split; [|done]. intros p e He.
  exists (ce_refcnt e). rewrite He. by destruct e.
Qed.

Lemma take_all_ok gv ps R s :
  inv R ∅ s -> takeable s ps ->
  wp (take_all gv (Some <$> ps)) (taken R s) s.
Proof.
  revert R s; induction ps as [|p ps IH]; intros R s Hi Ht; cbn [take_all fmap list_fmap].
  { by apply wp_ret, taken_none. }
  destruct (proj2 Ht p) as (e & He & _); [by left|]. apply (wp_read cc_clients p e); [done|].
  destruct (_ || _); [|by apply IH; [|by eapply takeable_tail]].
  eapply wp_call; [by eapply take_one|]. intros _ s1 (Hi1 & Ht1 & Hm1).
  eapply wp_call; [by apply IH|]. intros l s2 [Hi2 Hm2]. apply wp_ret.
  split; [by rewrite client_refs_cons|by eapply more_refs_trans].
Qed.

Lemma take_matching_ok gv first server nick ps R s :
  inv R ∅ s -> takeable s ps ->
  wp (take_matching gv first server nick (Some <$> ps)) (taken R s) s.
Proof.
  revert R s; induction ps as [|p ps IH]; intros R s Hi Ht; cbn [take_matching fmap list_fmap].
  { by apply wp_ret, taken_none. }
  destruct (proj2 Ht p) as (e & He & _); [by left|]. apply (wp_read cc_clients p e); [done|].
  destruct (_ && _); [by apply IH; [|by eapply takeable_tail]|].
  destruct (_ && _); [|by apply IH; [|by eapply takeable_tail]].
  eapply wp_call; [by eapply take_one|]. intros _ s1 (Hi1 & Ht1 & Hm1). destruct first.
  - apply wp_ret. split; [|done]. by rewrite client_refs_cons, client_refs_nil.
  - eapply wp_call; [by apply IH|]. intros l s2 [Hi2 Hm2]. apply wp_ret.
    split; [by rewrite client_refs_cons|by eapply more_refs_trans].
Qed.

Definition opt_refs (r : option (list Z)) : list Z := default [] r.

Lemma get_clients_local_ext_ok R s nickname get_all get_valid :
  inv R ∅ s -> clients_room s ->
  wp (silc_client_get_clients_local_ext params nickname get_all get_valid)
     (fun r s' => taken R s (opt_refs r) s') s.
Proof.
  intros Hi [Hroom Hsize]. unfold silc_client_get_clients_local_ext.
  destruct (silc_parse_userfqdn _ _ _) as [[ok nick] server].
  pose proof (taken_none R s Hi) as Hnone.
  destruct (silc_client_nickname_parse _ _) as [parsed|]; [|by apply wp_ret].
  destruct (silc_identifier_check _ _) as [nicknamec|]; [|by apply wp_ret].
  do 2 apply wp_gets. apply wp_bind. unfold wp at 1.
  destruct (find_by_name_ok _ _ _ _ _ (in_client_cache _ _ _ Hi) nicknamec s Hsize)
    as (h & [-> | (ps & -> & Hn & HF)]).
  { apply wp_ret. destruct Hnone. split; [by eapply inv_same|done]. }
  assert (inv R ∅ (set_cc_links h s)) as Hi1 by by eapply inv_same.
  assert (takeable (set_cc_links h s) ps) as Ht.
  { split; [done|]. intros p Hp. apply (proj1 (list.Forall_forall _ _) HF) in Hp as [i Hp].
    rewrite lookup_fmap in Hp. apply fmap_Some in Hp as (e & He & _). exists e. split; [done|].
    specialize (Hroom p e He). lia. }
  apply wp_bind. eapply (wp_mono _ (taken R (set_cc_links h s))).
  - destruct (match _ with Some _ => false | None => get_all end);
      [by apply take_all_ok|by apply take_matching_ok].
  - intros l s' Hl. apply wp_ret. change (more_refs s s') with (more_refs (set_cc_links h s) s').
    destruct (bool_decide (l = [])) eqn:E; [|done].
    apply bool_decide_eq_true_1 in E as ->. done.
Qed.

(** * Formatting a nickname *)

Lemma held_refs_some R s l p :
  inv (R ⊎ client_refs l) ∅ s -> p ∈ l -> is_Some (cc_clients s !! p).
Proof.
  intros Hi Hp. apply (in_held _ _ _ Hi RClient p). apply list_elem_of_split in Hp as (l1 & l2 & ->).
  assert (client_refs (l1 ++ p :: l2) = client_refs l1 ⊎ client_refs (p :: l2)) as ->.
  { unfold client_refs. rewrite fmap_app. apply list_to_set_disj_app. }
  rewrite !held_union. unfold client_refs at 2. cbn [fmap list_fmap]. rewrite list_to_set_disj_cons.
  rewrite held_union. unfold held at 3. rewrite multiplicity_singleton_eq.
  pose proof (held_nonneg R RClient p). pose proof (held_nonneg (client_refs l1) RClient p).
  pose proof (held_nonneg (list_to_set_disj (pair RClient <$> l2)) RClient p). lia.
Qed.

Lemma find_unformatted_ok R s p l :
  inv R ∅ s -> (forall q, q ∈ l -> is_Some (cc_clients s !! q)) ->
  wp (find_unformatted p l) (fun r s' => s' = s /\ forall q, r = Some q -> q ∈ l) s.
Proof.
  intros Hi. induction l as [|q l IH]; intros Hl; cbn [find_unformatted].
  { by apply wp_ret. }
  assert (wp (find_unformatted p l) (fun r s' => s' = s /\ forall x, r = Some x -> x ∈ q :: l) s) as Hrec.
  { eapply wp_mono; [apply IH; intros x Hx; apply Hl; by right|]. intros r s' [-> Hr].
    split; [done|]. intros x Hx. right. by apply Hr. }
  destruct (Hl q) as [e He]; [by left|]. apply (wp_read cc_clients q e); [done|].
  destruct (ce_valid e) eqn:Ev; cbn [negb]; [|done]. destruct (q =? p); [done|].
  destruct (in_client _ _ _ Hi q e He) as [[_ Hv _] _]. destruct (ce_nickname_normalized e) as [n|]; [|by destruct (Hv Ev)].
  destruct (silc_utf8_strcasecmp _ _); [|done]. apply wp_ret. split; [done|]. intros x [= <-]. by left.
Qed.

Lemma nicknames_ok l s :
  (forall q, q ∈ l -> is_Some (cc_clients s !! q)) -> wp (nicknames l) (fun _ s' => s' = s) s.
Proof.
  induction l as [|q l IH]; intros Hl; cbn [nicknames]; [by apply wp_ret|].
  destruct (Hl q) as [e He]; [by left|]. apply (wp_read cc_clients q e); [done|].
  eapply wp_call; [apply IH; intros x Hx; apply Hl; by right|]. intros names s' ->. by apply wp_ret.
Qed.

(** An update of a client that leaves its references as they are. *)
Lemma update_client_ok {B} R s p e f (k : unit -> CM B) Q :
  inv R ∅ s -> cc_clients s !! p = Some e -> ce_channels (f e) = ce_channels e -> ce_id (f e) = ce_id e ->
  ce_refcnt (f e) = ce_refcnt e -> ce_deleted (f e) = ce_deleted e ->
  (ce_valid (f e) = true -> ce_nickname_normalized (f e) <> None) ->
  (forall s', s' = set_cc_clients (<[p := f e]> (cc_clients s)) s -> inv R ∅ s' -> wp (k tt) Q s') ->
  wp (bind (update_client p f) k) Q s.
Proof.
  intros Hi He E1 E2 E3 E4 Ev Hk. apply (wp_update_client p e); [done|].
  destruct (in_client _ _ _ Hi p e He) as [[Ht Hv Hlt] Hc]. apply Hk; [done|].
  eapply inv_set_client; try done; [by rewrite E1|split; [by rewrite E1|done..]|].
  unfold client_counted. by rewrite E1, E3, E4.
Qed.

Lemma format_client_ok R s p formatted l :
  inv (R ⊎ client_refs l) ∅ s -> is_Some (cc_clients s !! p) ->
  wp (format_client params p formatted l) (fun _ s' => inv R ∅ s' /\ keeps R s s') s.
Proof.
  intros Hi [e He]. unfold format_client. destruct formatted.
  { eapply wp_call; [by apply list_free_ok|]. intros _ s' [? ?]. by apply wp_ret. }
  apply (wp_read cc_clients p e); [done|].
  eapply wp_call; [apply nicknames_ok; intros q Hq; by eapply held_refs_some|]. intros names s' ->.
  destruct (nick_loop _ _ _ _ _) as [newnick|]; [|done].
  destruct (in_client _ _ _ Hi p e He) as [[_ Hv _] _].
  eapply update_client_ok; try done. intros s1 -> Hi1.
  eapply wp_call; [by apply list_free_ok|]. intros _ s2 [? ?]. apply wp_ret. split; [done|].
  eapply keeps_trans; [by apply (keeps_set_client R s p e (set_ce_nickname newnick e))|done].
Qed.

(** References that are never given back: there are none without a format. *)
Definition leaked (L : Held) : Prop := cp_nickname_format params = [] -> L = ∅.

Definition leaks R s s' : Prop := exists L, leaked L /\ inv (R ⊎ L) ∅ s' /\ keeps R s s'.

Lemma no_leak R s s' : inv R ∅ s' -> keeps R s s' -> leaks R s s'.
Proof. intros Hi Hk. exists ∅. split; [done|]. by rewrite (right_id_L ∅ (⊎)). Qed.

Lemma list_free_leaks {A} R s s0 l (a : A) :
  inv (R ⊎ client_refs l) ∅ s -> keeps R s0 s ->
  wp (silc_client_list_free (Some l);; ret a) (fun _ s' => leaks R s0 s') s.
Proof.
  intros Hi Hk. eapply wp_call; [by apply list_free_ok|]. intros _ s' [Hi' Hk']. apply wp_ret.
  apply no_leak; [done|by eapply keeps_trans].
Qed.

Lemma nickname_format_empty s p e priority :
  cc_clients s !! p = Some e -> ce_nickname e = [] ->
  wp (silc_client_nickname_format params p priority) (fun _ s' => s' = s) s.
Proof.
  intros He Hn. unfold silc_client_nickname_format.
  destruct (cp_nickname_format params); [by apply wp_ret|].
  apply (wp_read cc_clients p e); [done|]. rewrite Hn. by apply wp_ret.
Qed.

Lemma silc_client_nickname_format_ok R s p priority :
  inv R ∅ s -> clients_room s -> is_Some (cc_clients s !! p) ->
  wp (silc_client_nickname_format params p priority) (fun _ s' => leaks R s s') s.
Proof.
  intros Hi Hroom [e He]. pose proof (no_leak R s s Hi (keeps_refl R s)) as Hsame.
  unfold silc_client_nickname_format.
  destruct (cp_nickname_format params) as [|f fmt] eqn:Efmt; [by apply wp_ret|].
  apply (wp_read cc_clients p e); [done|]. destruct (ce_nickname e) as [|n0 nick] eqn:Enick; [by apply wp_ret|].
  eapply wp_call; [by apply get_clients_local_ext_ok|]. intros [l|] s1 [Hi1 Hm1]; cbn [opt_refs default] in Hi1.
  2: { apply wp_ret, no_leak; [by rewrite client_refs_nil in Hi1|by apply more_refs_keeps]. }
  pose proof (more_refs_keeps R _ _ Hm1) as Hk1.
  destruct (_ && _); [by apply list_free_leaks|].
  eapply wp_call; [eapply (find_unformatted_ok _ _ p l Hi1); intros q Hq; by eapply held_refs_some|].
  intros unf s' [-> Hunf]. destruct (bool_decide _ && _); [by apply list_free_leaks|].
  destruct (proj1 Hm1 p e He) as [n Hp1].
  assert (forall q formatted s2, inv (R ⊎ client_refs l) ∅ s2 -> keeps R s s2 -> is_Some (cc_clients s2 !! q) ->
    wp (format_client params q formatted l) (fun _ s' => leaks R s s') s2) as Hformat.
  { intros q formatted s2 Hi2 Hk2 Hq. eapply wp_mono; [by apply format_client_ok|].
    intros r s3 [? ?]. apply no_leak; [done|by eapply keeps_trans]. }
  destruct priority; [|by apply Hformat].
  apply wp_bind. assert (forall cp, wp (match cp with
      | Some cp => match cp with Some n => update_client p (set_ce_nickname (strncat_new 257 n)) | None => ret tt end;;
          match unf with
          | Some u => format_client params u false l
          | None => silc_client_list_free (Some l);; ret (Some p)
          end
      | None => ret None
      end) (fun _ s' => leaks R s s') s1) as Hrest.
  { assert (forall s2, inv (R ⊎ client_refs l) ∅ s2 -> keeps R s s2 -> wp (match unf with
          | Some u => format_client params u false l
          | None => silc_client_list_free (Some l);; ret (Some p)
          end) (fun _ s' => leaks R s s') s2) as Hend.
    { intros s2 Hi2 Hk2. destruct unf as [u|]; [|by apply list_free_leaks].
      apply Hformat; [done..|]. eapply held_refs_some; [done|by apply Hunf]. }
    intros [[x|]|].
    - destruct (in_client _ _ _ Hi1 p _ Hp1) as [[_ Hv _] _].
      eapply update_client_ok; try done. intros s2 -> Hi2. apply Hend; [done|].
      eapply keeps_trans; [exact Hk1|by eapply keeps_set_client].
    - apply wp_ret_bind. by apply Hend.
    - apply wp_ret. exists (client_refs l). split; [by intros E; rewrite E in Efmt|done]. }
  destruct (_ && _); apply wp_ret; [apply Hrest|exact (Hrest (Some None))].
Qed.
End names.
