(* ===== verification/ClientAdd.v ===== *)
(** Adding, finding and changing entries keep the state of the client library as it
    should be. *)

From stdpp Require Import gmap gmultiset sets list strings.
From S2P Require Import Prelude CTypes Id HashTable HashTableSpec HashKeys SilcList IdCache IdCacheSpec ClientNick ClientState ClientEntry ClientDb ClientTables ClientCache ClientInv ClientRefs ClientUsers ClientNames.

#[local] Open Scope client_scope.

Section add.
Context `{ClientObjects} `{ClientStrings} (params : SilcClientParams).
Implicit Types (R L : Held) (s : ClientConn).

Definition opt_ref (k : RefKind) (r : option Z) : Held :=
  match r with Some p => {[+ (k, p) +]} | None => ∅ end.

Lemma no_ref R k : R ⊎ opt_ref k None = R.
Proof. apply (right_id_L ∅ (⊎)). Qed.

(** * New entries *)

Lemma fresh_client R out s : inv R out s -> cc_clients s !! cc_next s = None.
Proof.
  intros Hi. destruct (cc_clients s !! cc_next s) as [x|] eqn:E; [|done].
  destruct (in_client _ _ _ Hi _ x E) as [[_ _ Hx] _]. lia.
Qed.

Lemma fresh_channel R out s : inv R out s -> cc_channels s !! cc_next s = None.
Proof.
  intros Hi. destruct (cc_channels s !! cc_next s) as [x|] eqn:E; [|done].
  destruct (in_channel _ _ _ Hi _ x E) as [[_ Hx] _]. lia.
Qed.

Lemma fresh_server R out s : inv R out s -> cc_servers s !! cc_next s = None.
Proof.
  intros Hi. destruct (cc_servers s !! cc_next s) as [x|] eqn:E; [|done].
  destruct (in_server _ _ _ Hi _ x E) as [Hx _]. lia.
Qed.

(** Two addresses are given out, and the entry is in the cache. *)
Lemma inv_new_client R s e c' M' next' :
  let p := cc_next s in
  inv R ∅ s -> p < next' -> ce_refcnt e = 1 -> ce_deleted e = 1 -> table_holds (ce_channels e) ∅ ->
  (ce_valid e = true -> ce_nickname_normalized e <> None) ->
  cache_ok SILC_ID_CLIENT c' M' next' (<[p := ce_id e]> (ce_id <$> cc_clients s)) ->
  inv R ∅ (set_cc_clients (<[p := e]> (cc_clients s)) (set_client_cache (c', M') (set_cc_next next' s))).
Proof.
  intros p Hi Hlt Hr Hd Ht Hv Hok. pose proof (inv_next R ∅ s next' Hi ltac:(lia)) as Hn.
  pose proof (fresh_client _ _ _ Hi) as Hp. fold p in Hp.
  pose proof (holds_map _ _ Ht) as Hm.
  assert (held R RClient p = 0) as Hz.
  { pose proof (held_nonneg R RClient p). destruct (decide (held R RClient p = 0)); [done|].
    destruct (in_held _ _ _ Hi RClient p) as [x Hx]; [lia|]. congruence. }
  destruct Hn as [Icl Ich Isv Ius Iun Ihe Ic1 Ic2 Ic3]. split; cbn -[SILC_ID_CLIENT SILC_ID_CHANNEL SILC_ID_SERVER]; try done.
  - intros q x [[<- <-]|[_ Hx]]%lookup_insert_Some; [|by apply Icl].
    split; [split; [by rewrite Hm|done|done]|].
    split; rewrite ?Hr, ?Hd, ?Hm, ?Hz; [done|lia|lia].
  - unfold client_tables in *. cbn. rewrite fmap_insert, Hm. apply users_new_client; [exact Ius|].
    by rewrite lookup_fmap, Hp.
  - intros k q Hq. apply Ihe in Hq. destruct k; try done. cbn in *.
    destruct (decide (q = p)) as [->|]; [by rewrite lookup_insert_eq|by rewrite lookup_insert_ne].
  - by rewrite fmap_insert.
Qed.

Lemma inv_new_channel R s c c' M' next' :
  let p := cc_next s in
  inv R ∅ s -> p < next' -> ch_refcnt c = 1 -> ch_deleted c = 1 -> table_holds (ch_user_list c) ∅ ->
  cache_ok SILC_ID_CHANNEL c' M' next' (<[p := ch_id c]> (ch_id <$> cc_channels s)) ->
  inv R ∅ (set_cc_channels (<[p := c]> (cc_channels s)) (set_channel_cache (c', M') (set_cc_next next' s))).
Proof.
  intros p Hi Hlt Hr Hd Ht Hok. pose proof (inv_next R ∅ s next' Hi ltac:(lia)) as Hn.
  pose proof (fresh_channel _ _ _ Hi) as Hp. fold p in Hp.
  pose proof (holds_map _ _ Ht) as Hm.
  assert (held R RChannel p = 0) as Hz.
  { pose proof (held_nonneg R RChannel p). destruct (decide (held R RChannel p = 0)); [done|].
    destruct (in_held _ _ _ Hi RChannel p) as [x Hx]; [lia|]. congruence. }
  destruct Hn as [Icl Ich Isv Ius Iun Ihe Ic1 Ic2 Ic3]. split; cbn -[SILC_ID_CLIENT SILC_ID_CHANNEL SILC_ID_SERVER]; try done.
  - intros q x [[<- <-]|[_ Hx]]%lookup_insert_Some; [|by apply Ich].
    split; [split; [by rewrite Hm|done]|].
    split; rewrite ?Hr, ?Hd, ?Hm, ?Hz; [done|lia|lia].
  - unfold channel_tables in *. cbn. rewrite fmap_insert, Hm. apply users_new_channel; [exact Ius|].
    by rewrite lookup_fmap, Hp.
  - intros k q Hq. apply Ihe in Hq. destruct k; try done. cbn in *.
    destruct (decide (q = p)) as [->|]; [by rewrite lookup_insert_eq|by rewrite lookup_insert_ne].
  - by rewrite fmap_insert.
Qed.

Lemma inv_new_server R s e c' M' next' :
  let p := cc_next s in
  inv R ∅ s -> p < next' -> se_refcnt e = 1 -> se_deleted e = 1 ->
  cache_ok SILC_ID_SERVER c' M' next' (<[p := se_id e]> (se_id <$> cc_servers s)) ->
  inv R ∅ (set_cc_servers (<[p := e]> (cc_servers s)) (set_server_cache (c', M') (set_cc_next next' s))).
Proof.
  intros p Hi Hlt Hr Hd Hok. pose proof (inv_next R ∅ s next' Hi ltac:(lia)) as Hn.
  pose proof (fresh_server _ _ _ Hi) as Hp. fold p in Hp.
  assert (held R RServer p = 0) as Hz.
  { pose proof (held_nonneg R RServer p). destruct (decide (held R RServer p = 0)); [done|].
    destruct (in_held _ _ _ Hi RServer p) as [x Hx]; [lia|]. congruence. }
  destruct Hn as [Icl Ich Isv Ius Iun Ihe Ic1 Ic2 Ic3]. split; cbn -[SILC_ID_CLIENT SILC_ID_CHANNEL SILC_ID_SERVER]; try done.
  - intros q x [[<- <-]|[_ Hx]]%lookup_insert_Some; [|by apply Isv].
    split; [done|]. split; rewrite ?Hr, ?Hd, ?Hz; [done|lia|lia].
  - intros k q Hq. apply Ihe in Hq. destruct k; try done. cbn in *.
    destruct (decide (q = p)) as [->|]; [by rewrite lookup_insert_eq|by rewrite lookup_insert_ne].
  - by rewrite fmap_insert.
Qed.

(** Only a cache changes, and addresses are given out. *)
Lemma inv_client_cache R s c' M' next' :
  inv R ∅ s -> cc_next s <= next' ->
  cache_ok SILC_ID_CLIENT c' M' next' (ce_id <$> cc_clients s) ->
  inv R ∅ (set_client_cache (c', M') (set_cc_next next' s)).
Proof. intros Hi Hn Hok. destruct (inv_next R ∅ s next' Hi Hn). by split. Qed.

Lemma inv_channel_cache R s c' M' next' :
  inv R ∅ s -> cc_next s <= next' ->
  cache_ok SILC_ID_CHANNEL c' M' next' (ch_id <$> cc_channels s) ->
  inv R ∅ (set_channel_cache (c', M') (set_cc_next next' s)).
Proof. intros Hi Hn Hok. destruct (inv_next R ∅ s next' Hi Hn). by split. Qed.

Lemma inv_server_cache R s c' M' next' :
  inv R ∅ s -> cc_next s <= next' ->
  cache_ok SILC_ID_SERVER c' M' next' (se_id <$> cc_servers s) ->
  inv R ∅ (set_server_cache (c', M') (set_cc_next next' s)).
Proof. intros Hi Hn Hok. destruct (inv_next R ∅ s next' Hi Hn). by split. Qed.

(** * Finding by ID *)

(** The client with the ID that is found has it, and when none is found none has. *)
Definition client_found s (id : option SilcID) (r : option Z) s' : Prop :=
  match r with
  | Some p => exists e i, id = Some i /\ cc_clients s !! p = Some e /\
                SILC_ID_COMPARE_TYPE (ce_id e) i SILC_ID_CLIENT = true
  | None => s' = s /\ forall i p e, id = Some i -> cc_clients s !! p = Some e ->
              SILC_ID_COMPARE_TYPE (ce_id e) i SILC_ID_CLIENT = false
  end.

Lemma get_client_by_id_ok R s id :
  inv R ∅ s -> (forall p e, cc_clients s !! p = Some e -> ce_refcnt e + 1 < 2 ^ 32) ->
  wp (silc_client_get_client_by_id id)
     (fun r s' => inv (R ⊎ opt_ref RClient r) ∅ s' /\ client_found s id r s') s.
Proof.
  intros Hi Hroom. unfold silc_client_get_client_by_id.
  destruct id as [id|]; [|apply wp_ret; rewrite no_ref; by split_and!].
  do 2 apply wp_gets. apply wp_bind. unfold wp at 1.
  destruct (cache_find_id _ _ _ _ _ (in_client_cache _ _ _ Hi) id s) as [(p & i & -> & Hp & Hc)|[-> Hnone]].
  - rewrite lookup_fmap in Hp. apply fmap_Some in Hp as (e & He & ->).
    eapply wp_call; [eapply ref_client_ok; [done..|by eapply Hroom]|]. intros _ s' [Hi' _].
    apply wp_ret. split; [done|]. by exists e, id.
  - apply wp_ret. rewrite no_ref. split; [done|]. split; [done|]. intros j p e [= <-] He.
    apply (Hnone p). by rewrite lookup_fmap, He.
Qed.

Lemma get_channel_by_id_ok R s id :
  inv R ∅ s -> (forall p c, cc_channels s !! p = Some c -> ch_refcnt c + 1 < 2 ^ 32) ->
  wp (silc_client_get_channel_by_id id) (fun r s' => inv (R ⊎ opt_ref RChannel r) ∅ s') s.
Proof.
  intros Hi Hroom. unfold silc_client_get_channel_by_id. destruct id as [id|]; [|apply wp_ret; by rewrite no_ref].
  do 2 apply wp_gets. apply wp_bind. unfold wp at 1.
  destruct (cache_find_id _ _ _ _ _ (in_channel_cache _ _ _ Hi) id s) as [(p & i & -> & Hp & _)|[-> _]].
  - rewrite lookup_fmap in Hp. apply fmap_Some in Hp as (e & He & _).
    eapply wp_call; [eapply ref_channel_ok; [done..|by eapply Hroom]|]. intros _ s' [Hi' _]. by apply wp_ret.
  - apply wp_ret. by rewrite no_ref.
Qed.

Lemma get_server_by_id_ok R s id :
  inv R ∅ s -> (forall p e, cc_servers s !! p = Some e -> se_refcnt e + 1 < 2 ^ 32) ->
  wp (silc_client_get_server_by_id id) (fun r s' => inv (R ⊎ opt_ref RServer r) ∅ s') s.
Proof.
  intros Hi Hroom. unfold silc_client_get_server_by_id. destruct id as [id|]; [|apply wp_ret; by rewrite no_ref].
  do 2 apply wp_gets. apply wp_bind. unfold wp at 1.
  destruct (cache_find_id _ _ _ _ _ (in_server_cache _ _ _ Hi) id s) as [(p & i & -> & Hp & _)|[-> _]].
  - rewrite lookup_fmap in Hp. apply fmap_Some in Hp as (e & He & _).
    eapply wp_call; [eapply ref_server_ok; [done..|by eapply Hroom]|]. intros _ s' [Hi' _]. by apply wp_ret.
  - apply wp_ret. by rewrite no_ref.
Qed.

(** * Channels *)

Lemma find_on_server_ok s server host ps :
  (forall p, p ∈ ps -> is_Some (cc_channels s !! p)) ->
  wp (find_on_server server host (Some <$> ps)) (fun r s' => s' = s /\ forall p, r = Some p -> p ∈ ps) s.
Proof.
  induction ps as [|q ps IH]; intros Hps; cbn [find_on_server fmap list_fmap]; [by apply wp_ret|].
  destruct (Hps q) as [c Hc]; [by left|]. apply (wp_read cc_channels q c); [done|].
  match goal with |- context [if ?b then _ else _] => destruct b end.
  - apply wp_ret. split; [done|]. intros p [= <-]. by left.
  - eapply wp_mono; [apply IH; intros p Hp; apply Hps; by right|]. intros r s' [-> Hr].
    split; [done|]. intros p Hp. right. by apply Hr.
Qed.

Definition channels_room s : Prop :=
  (forall p c, cc_channels s !! p = Some c -> ch_refcnt c + 2 < 2 ^ 32) /\
  Z.of_nat (size (cc_channel_ids s)) < 2 ^ 30.

Lemma get_channel_ok R s host name :
  inv R ∅ s -> channels_room s ->
  wp (silc_client_get_channel host name) (fun r s' => inv (R ⊎ opt_ref RChannel r) ∅ s') s.
Proof.
  intros Hi [Hroom Hsize]. unfold silc_client_get_channel.
  destruct (silc_parse_userfqdn _ _ _) as [[ok chname] server].
  destruct (silc_channel_name_check _ _) as [namec|]; [|apply wp_ret; by rewrite no_ref].
  do 2 apply wp_gets. apply wp_bind. unfold wp at 1.
  destruct (find_by_name_ok _ _ _ _ _ (in_channel_cache _ _ _ Hi) namec s Hsize)
    as (h & [-> | (ps & -> & Hn & HF)]); (assert (inv R ∅ (set_cc_links h s)) as Hi1 by by eapply inv_same).
  { apply wp_ret. by rewrite no_ref. }
  eapply wp_call.
  { apply find_on_server_ok. intros p Hp. apply (proj1 (list.Forall_forall _ _) HF) in Hp as [i Hp].
    rewrite lookup_fmap in Hp. apply fmap_Some in Hp as (c & Hc & _). by exists c. }
  intros [p|] s' [-> Hp]; [|apply wp_ret; by rewrite no_ref].
  destruct (proj1 (list.Forall_forall _ _) HF p (Hp p eq_refl)) as [i Hi'].
  rewrite lookup_fmap in Hi'. apply fmap_Some in Hi' as (c & Hc & _). specialize (Hroom p c Hc).
  eapply wp_call; [eapply ref_channel_ok; [exact Hi1|exact Hc|lia]|]. intros _ s' [Hi2 _]. by apply wp_ret.
Qed.

Lemma add_channel_ok R s name mode id :
  inv R ∅ s ->
  wp (silc_client_add_channel params name mode id) (fun _ s' => inv R ∅ s') s.
Proof.
  intros Hi. unfold silc_client_add_channel.
  destruct (silc_parse_userfqdn _ _ _) as [[ok chname] server].
  destruct user_table_alloc_holds as (users & -> & Ht).
  destruct (silc_channel_name_check _ _) as [namec|]; [|by apply wp_ret].
  do 2 apply wp_alloc. do 2 apply wp_gets. cbn [cc_next set_cc_next cc_channel_cache cc_channel_ids].
  pose proof (cache_add_ok _ _ _ _ _ (in_channel_cache _ _ _ Hi) (cc_next s + 1) (Some namec) id (cc_next s)
    (cc_next s + 1 + 1)) as A.
  destruct (silc_idcache_add _ _ _ _ _ _) as [[[added|] c'] M'].
  - destruct A as [Hok _]; [by rewrite lookup_fmap, (fresh_channel _ _ _ Hi)|lia|]. apply wp_modify, wp_modify.
    set (c0 := channel_new _ server id mode users).
    apply (wp_update_channel _ c0); [apply lookup_insert_eq|]. apply wp_ret. cbn [cc_channels set_cc_channels]. rewrite insert_insert_eq.
    change (u32 (ch_refcnt _ + 1)) with 1.
    eapply inv_same;
      [eapply (inv_new_channel R s (set_ch_refcnt 1 c0) c' M' (cc_next s + 1 + 1) Hi); [lia|reflexivity..|exact Ht|exact Hok]|done].
  - destruct A as [Hok _]; [by rewrite lookup_fmap, (fresh_channel _ _ _ Hi)|lia|]. apply wp_modify, wp_ret.
    eapply inv_same; [eapply (inv_channel_cache R s c' M' (cc_next s + 1 + 1) Hi)|]; [lia|done|done].
Qed.

Lemma replace_channel_id_ok R s p c id :
  inv R ∅ s -> cc_channels s !! p = Some c ->
  wp (silc_client_replace_channel_id p id) (fun _ s' => inv R ∅ s') s.
Proof.
  intros Hi Hc. unfold silc_client_replace_channel_id. destruct id as [id|]; [|by apply wp_ret].
  unfold lock_channel. apply wp_bind, (wp_read cc_channels p c); [done|]. apply wp_ret.
  do 2 apply wp_gets. assert ((ch_id <$> cc_channels s) !! p = Some (ch_id c)) as Hid
    by by rewrite lookup_fmap, Hc.
  destruct (cache_update_ok _ _ _ _ _ (in_channel_cache _ _ _ Hi) p _ (Some id) None Hid)
    as (c' & M' & E & Hok & _).
  eapply cache_result_ok; [exact E|]. cbv iota.
  eapply (wp_update_channel p); [exact Hc|]. apply wp_ret.
  destruct Hi as [Icl Ich Isv Ius Iun Ihe Ic1 Ic2 Ic3].
  split; cbn -[SILC_ID_CLIENT SILC_ID_CHANNEL SILC_ID_SERVER]; try done.
  - intros q x [[<- <-]|[_ Hx]]%lookup_insert_Some; [|by apply Ich].
    destruct (Ich p c Hc) as [[] []]. by split; split.
  - unfold channel_tables in *. cbn. rewrite fmap_insert, insert_id; [done|]. by rewrite lookup_fmap, Hc.
  - intros k q Hq. apply Ihe in Hq. destruct k; try done. cbn in *.
    destruct (decide (q = p)) as [->|]; [by rewrite lookup_insert_eq|by rewrite lookup_insert_ne].
  - by rewrite fmap_insert.
Qed.

(** * Servers *)

Lemma get_server_ok R s name :
  inv R ∅ s -> (forall p e, cc_servers s !! p = Some e -> se_refcnt e + 1 < 2 ^ 32) ->
  wp (silc_client_get_server name) (fun r s' => inv (R ⊎ opt_ref RServer r) ∅ s') s.
Proof.
  intros Hi Hroom. unfold silc_client_get_server.
  destruct (silc_identifier_check _ _) as [namec|]; [|apply wp_ret; by rewrite no_ref].
  do 2 apply wp_gets. apply wp_bind. unfold wp at 1.
  destruct (cache_find_name_one _ _ _ _ _ (in_server_cache _ _ _ Hi) namec s) as ([p|] & -> & Hp).
  - destruct Hp as [i Hp]. rewrite lookup_fmap in Hp. apply fmap_Some in Hp as (e & He & _).
    eapply wp_call; [eapply ref_server_ok; [done..|by eapply Hroom]|]. intros _ s' [Hi' _]. by apply wp_ret.
  - apply wp_ret. by rewrite no_ref.
Qed.

Lemma add_server_ok R s name info id :
  inv R ∅ s -> wp (silc_client_add_server name info id) (fun _ s' => inv R ∅ s') s.
Proof.
  intros Hi. unfold silc_client_add_server. destruct id as [id|]; [|by apply wp_ret].
  destruct (match name with None => _ | Some n => _ end) as [namec|]; [|by apply wp_ret].
  do 2 apply wp_alloc. do 2 apply wp_gets. cbn [cc_next set_cc_next cc_server_cache cc_server_ids].
  pose proof (cache_add_ok _ _ _ _ _ (in_server_cache _ _ _ Hi) (cc_next s + 1) namec id (cc_next s)
    (cc_next s + 1 + 1)) as A.
  destruct (silc_idcache_add _ _ _ _ _ _) as [[[added|] c'] M'].
  - destruct A as [Hok _]; [by rewrite lookup_fmap, (fresh_server _ _ _ Hi)|lia|]. apply wp_modify, wp_modify.
    set (e0 := {| se_server_name := name |}).
    apply (wp_update_server _ e0); [apply lookup_insert_eq|]. apply wp_ret. cbn [cc_servers set_cc_servers]. rewrite insert_insert_eq.
    change (u32 (se_refcnt _ + 1)) with 1.
    eapply inv_same;
      [eapply (inv_new_server R s (set_se_refcnt 1 e0) c' M' (cc_next s + 1 + 1) Hi); [lia|reflexivity..|exact Hok]|done].
  - destruct A as [Hok _]; [by rewrite lookup_fmap, (fresh_server _ _ _ Hi)|lia|]. apply wp_modify, wp_ret.
    eapply inv_same; [eapply (inv_server_cache R s c' M' (cc_next s + 1 + 1) Hi)|]; [lia|done|done].
Qed.

Lemma update_server_step {B} R s p e f (k : unit -> CM B) Q :
  inv R ∅ s -> cc_servers s !! p = Some e -> se_id (f e) = se_id e ->
  se_refcnt (f e) = se_refcnt e -> se_deleted (f e) = se_deleted e ->
  (forall s', s' = set_cc_servers (<[p := f e]> (cc_servers s)) s -> inv R ∅ s' -> wp (k tt) Q s') ->
  wp (bind (update_server p f) k) Q s.
Proof.
  intros Hi He E1 E2 E3 Hk. apply (wp_update_server p e); [done|].
  destruct (in_server _ _ _ Hi p e He) as [Hlt Hc]. apply Hk; [done|].
  eapply inv_set_server; try done. unfold server_counted. by rewrite E2, E3.
Qed.

Lemma silc_client_update_server_ok R s p e name info :
  inv R ∅ s -> cc_servers s !! p = Some e ->
  wp (silc_client_update_server p name info) (fun _ s' => inv R ∅ s') s.
Proof.
  intros Hi He. unfold silc_client_update_server. apply (wp_read cc_servers p e); [done|].
  assert (forall s' e' go_on, inv R ∅ s' -> cc_servers s' !! p = Some e' -> wp (match info with
      | Some i => if (go_on : bool) && differs (se_server_info e) i
                  then update_server p (set_se_server_info (Some i)) else ret tt
      | None => ret tt end) (fun _ s' => inv R ∅ s') s') as Hinfo.
  { intros s' e' go_on Hi' He'. destruct info as [i|]; [|by apply wp_ret].
    destruct (_ && _); [|by apply wp_ret]. apply wp_last.
    by eapply update_server_step. }
  apply wp_bind. destruct name as [n|]; [|apply wp_ret; by apply (Hinfo s e true)].
  destruct (differs _ _); [|apply wp_ret; by apply (Hinfo s e true)].
  destruct (silc_identifier_check n 256) as [namec|]; [|apply wp_ret; by apply (Hinfo s e false)].
  eapply update_server_step; try done. intros s2 E2 Hi2.
  do 2 apply wp_gets. set (e2 := set_se_server_name (Some n) e) in *.
  assert (cc_servers s2 !! p = Some e2) as He2 by (rewrite E2; apply lookup_insert_eq).
  assert ((se_id <$> cc_servers s2) !! p = Some (se_id e)) as Hid by by rewrite lookup_fmap, He2.
  destruct (cache_update_ok _ _ _ _ _ (in_server_cache _ _ _ Hi2) p _ None (Some namec) Hid)
    as (c' & M' & E & Hok & _).
  eapply cache_result_ok; [exact E|]. apply wp_ret. apply (Hinfo _ e2 true); [|exact He2].
  eapply inv_same; [exact (inv_server_cache R s2 c' M' (cc_next s2) Hi2 ltac:(lia) Hok)|done].
Qed.

(** * Clients *)

Lemma client_named_new nickname username info id mode channels :
  let e := (client_named params nickname username info (client_new id mode channels)).2 in
  ce_id e = id /\ ce_channels e = channels /\ ce_refcnt e = 0 /\ ce_deleted e = 1 /\ ce_valid e = false /\
  (nickname = None -> ce_nickname e = []).
Proof.
  unfold client_named. destruct (silc_parse_userfqdn nickname _ _) as [[? ?] ?].
  destruct (silc_parse_userfqdn username _ _) as [[? ?] ?]. split_and!; [done..|]. by intros ->.
Qed.

Lemma leaks_weaken R s s1 s2 : leaks params R s1 s2 -> keeps R s s1 -> leaks params R s s2.
Proof. intros (L & HL & Hi & Hk) Hk'. exists L. split; [done|]. split; [done|]. by eapply keeps_trans. Qed.

Lemma silc_client_add_client_ok R s nickname username info id mode :
  inv R ∅ s -> clients_room s -> Z.of_nat (size (cc_client_ids s)) + 1 < 2 ^ 30 ->
  wp (silc_client_add_client params nickname username info id mode)
     (fun r s' => exists L, leaked params L /\ inv (R ⊎ L) ∅ s' /\
        forall p, r = Some p -> exists e, cc_clients s' !! p = Some e /\ (nickname = None -> ce_refcnt e = 1)) s.
Proof.
  intros Hi [Hroom Hsize] Hsize1. unfold silc_client_add_client.
  assert (exists L, leaked params L /\ inv (R ⊎ L) ∅ s /\
    forall p, @None Z = Some p -> exists e, cc_clients s !! p = Some e /\ (nickname = None -> ce_refcnt e = 1)) as Hnone.
  { exists ∅. split; [done|]. split; [by rewrite (right_id_L ∅ (⊎))|done]. }
  destruct user_table_alloc_holds as (channels & -> & Ht).
  pose proof (client_named_new nickname username info id mode channels) as Hnew. cbv zeta in Hnew.
  destruct (client_named _ _ _ _ _) as [parsed e]. cbn [snd] in Hnew.
  destruct Hnew as (Eid & Ech & Er & Ed & Ev & Enone).
  set (nick := match ce_nickname e with [] => Some None | _ => _ end).
  assert (nick = None \/ (ce_nickname e = [] /\ nick = Some None) \/
    (ce_nickname e <> [] /\ exists n, nick = Some (Some n))) as Hnick.
  { unfold nick. destruct (ce_nickname e); [tauto|].
    destruct (silc_identifier_check parsed 128) as [n|]; [|by left]. right. right. split; [done|by exists n]. }
  destruct nick as [nn|]; [|by apply wp_ret].
  do 2 apply wp_alloc. do 2 apply wp_gets. cbn [cc_next set_cc_next cc_client_cache cc_client_ids].
  pose proof (cache_add_ok _ _ _ _ _ (in_client_cache _ _ _ Hi) (cc_next s + 1) nn id (cc_next s)
    (cc_next s + 1 + 1)) as A.
  destruct (silc_idcache_add _ _ _ _ _ _) as [[[added|] c'] M'].
  2: { destruct A as [Hok _]; [by rewrite lookup_fmap, (fresh_client _ _ _ Hi)|lia|]. apply wp_modify, wp_ret.
    exists ∅. split; [done|]. rewrite (right_id_L ∅ (⊎)). split; [|done].
    eapply inv_same; [eapply (inv_client_cache R s c' M' (cc_next s + 1 + 1) Hi)|]; [lia|done|done]. }
  destruct A as [Hok Hsz]; [by rewrite lookup_fmap, (fresh_client _ _ _ Hi)|lia|]. apply wp_modify, wp_modify.
  set (p := cc_next s). set (e0 := set_ce_nickname_normalized nn e).
  apply (wp_update_client _ e0); [apply lookup_insert_eq|].
  cbn [cc_clients set_cc_clients]. rewrite insert_insert_eq.
  replace (u32 (ce_refcnt e0 + 1)) with 1 by (unfold e0; cbn; by rewrite Er).
  set (e1 := set_ce_refcnt 1 e0). set (s1 := set_cc_clients _ _).
  assert (inv R ∅ s1) as Hi1.
  { eapply inv_same; [eapply (inv_new_client R s e1 c' M' (cc_next s + 1 + 1) Hi); [lia|done|done|..]|done].
    - cbn. by rewrite Ech.
    - cbn. by rewrite Ev.
    - cbn. by rewrite Eid. }
  assert (cc_clients s1 !! p = Some e1) as Hp1 by apply lookup_insert_eq.
  assert (clients_room s1) as Hroom1.
  { split; [|cbn; lia]. intros q x. unfold s1. cbn.
    intros [[<- <-]|[_ Hx]]%lookup_insert_Some; [cbn; lia|by eapply Hroom]. }
  assert (forall L s2 name, leaked params L -> inv (R ⊎ L) ∅ s2 -> alive (R ⊎ L) s2 p name ->
    (name = None \/ nickname = None -> exists e2, cc_clients s2 !! p = Some e2 /\ ce_nickname e2 = [] /\ ce_refcnt e2 = 1) ->
    wp (update_client p (fun e => if bool_decide (ce_nickname e = []) then e else set_ce_valid true e);; ret (Some p))
      (fun r s' => exists L, leaked params L /\ inv (R ⊎ L) ∅ s' /\
        forall p, r = Some p -> exists e, cc_clients s' !! p = Some e /\ (nickname = None -> ce_refcnt e = 1)) s2) as Hend.
  { intros L s2 name HL Hi2 (e2 & He2 & Hn2 & _) Hempty.
    eapply wp_call; [apply wp_last, (update_client_ok (R ⊎ L) s2 p e2)
      with (Q := fun _ s' => inv (R ⊎ L) ∅ s' /\ exists e, cc_clients s' !! p = Some e /\ (nickname = None -> ce_refcnt e = 1))|]; try done;
      try (by destruct (bool_decide _)).
    - destruct (in_client _ _ _ Hi2 p e2 He2) as [[_ Hv _] _].
      destruct (bool_decide (ce_nickname e2 = [])) eqn:Eb; [done|]. cbn. intros _ Hc.
      destruct Hempty as (e3 & He3 & Hn3 & _); [left; congruence|]. rewrite He2 in He3. injection He3 as <-.
      by apply bool_decide_eq_false_1 in Eb.
    - intros s3 E3 Hi3. apply wp_ret. split; [done|]. rewrite E3. cbn. rewrite lookup_insert_eq.
      eexists. split; [done|]. intros E. destruct Hempty as (e3 & He3 & _ & Hr3); [by right|].
      rewrite He2 in He3. injection He3 as <-. by destruct (bool_decide _).
    - intros _ s3 [Hi3 Hs3]. apply wp_ret. exists L. split; [done|]. split; [done|]. by intros q [= <-]. }
  destruct Hnick as [?|[(Hn & [= ->])|(Hn & n & [= ->])]]; [done|..].
  - eapply wp_call; [by apply (nickname_format_empty params s1 p e1)|]. intros _ s2 ->.
    apply (Hend ∅ s1 None); [done|by rewrite (right_id_L ∅ (⊎))|..].
    + apply (inv_alive (R ⊎ ∅) ∅ s1 p e1); [by rewrite (right_id_L ∅ (⊎))|done].
    + intros _. by exists e1.
  - eapply wp_call; [apply (silc_client_nickname_format_ok params R s1 p false Hi1 Hroom1); by exists e1|].
    intros _ s2 (L & HL & Hi2 & Hk2). apply (Hend L s2 (Some n)); [done|done|..].
    + apply alive_union, Hk2. by apply (inv_alive R ∅ s1 p e1).
    + intros [?|E]; [done|]. by destruct (Hn (Enone E)).
Qed.

Lemma client_cache_update_ok R s p e new_id name :
  inv R ∅ s -> cc_clients s !! p = Some e ->
  wp (client_cache_update p new_id name)
     (fun ok s' => ok = true /\ inv R ∅ s' /\ (clients_room s -> clients_room s') /\
        exists e', cc_clients s' !! p = Some e' /\ ce_nickname_normalized e' = ce_nickname_normalized e) s.
Proof.
  intros Hi Hp. unfold client_cache_update. do 2 apply wp_gets.
  assert ((ce_id <$> cc_clients s) !! p = Some (ce_id e)) as Hid by by rewrite lookup_fmap, Hp.
  destruct (cache_update_ok _ _ _ _ _ (in_client_cache _ _ _ Hi) p _ new_id name Hid)
    as (c' & M' & E & Hok & Hsz).
  eapply cache_result_ok; [exact E|]. destruct new_id as [id|].
  2: { apply wp_ret. split; [done|]. split; [|split].
    - eapply inv_same; [exact (inv_client_cache R s c' M' (cc_next s) Hi ltac:(lia) Hok)|done].
    - intros [Hroom Hsize]. split; [done|cbn; lia].
    - by exists e. }
  eapply (wp_update_client p); [exact Hp|]. apply wp_ret. split; [done|].
  destruct Hi as [Icl Ich Isv Ius Iun Ihe Ic1 Ic2 Ic3]. split; [|split].
  - split; cbn -[SILC_ID_CLIENT SILC_ID_CHANNEL SILC_ID_SERVER]; try done.
    + intros q x [[<- <-]|[_ Hx]]%lookup_insert_Some; [|by apply Icl].
      destruct (Icl p e Hp) as [[] []]. by split; split.
    + unfold client_tables in *. cbn. rewrite fmap_insert, insert_id; [done|]. by rewrite lookup_fmap, Hp.
    + intros k q Hq. apply Ihe in Hq. destruct k; try done. cbn in *.
      destruct (decide (q = p)) as [->|]; [by rewrite lookup_insert_eq|by rewrite lookup_insert_ne].
    + by rewrite fmap_insert.
  - intros [Hroom Hsize]. split; [|cbn; lia]. cbn.
    intros q x [[<- <-]|[_ Hx]]%lookup_insert_Some; [exact (Hroom p e Hp)|by eapply Hroom].
  - exists (set_ce_id id e). cbn. by rewrite lookup_insert_eq.
Qed.

(** An update of a client that leaves its references, and the room for more. *)
Lemma update_client_room {B} R s p e f (k : unit -> CM B) Q :
  inv R ∅ s -> clients_room s -> cc_clients s !! p = Some e ->
  ce_channels (f e) = ce_channels e -> ce_id (f e) = ce_id e ->
  ce_refcnt (f e) = ce_refcnt e -> ce_deleted (f e) = ce_deleted e ->
  (ce_valid (f e) = true -> ce_nickname_normalized (f e) <> None) ->
  (forall s', inv R ∅ s' -> clients_room s' -> cc_clients s' !! p = Some (f e) -> wp (k tt) Q s') ->
  wp (bind (update_client p f) k) Q s.
Proof.
  intros Hi [Hroom Hsize] He E1 E2 E3 E4 Hv Hk. eapply update_client_ok; try done.
  intros s' -> Hi'. apply Hk; [done| |apply lookup_insert_eq]. split; [|done]. cbn.
  intros q x [[<- <-]|[_ Hx]]%lookup_insert_Some; [rewrite E3; by apply (Hroom p)|by eapply Hroom].
Qed.

Lemma is_local_ok {B} p (k : bool -> CM B) Q s :
  (forall b, wp (k b) Q s) -> wp (bind (is_local p) k) Q s.
Proof. intros Hk. apply wp_bind, wp_gets, wp_ret, Hk. Qed.

Lemma leaks_exists R s s' : leaks params R s s' -> exists L, leaked params L /\ inv (R ⊎ L) ∅ s'.
Proof. intros (L & HL & Hi & _). by exists L. Qed.

Definition leaky R s : Prop := exists L, leaked params L /\ inv (R ⊎ L) ∅ s.

Lemma leaky_none R s : inv R ∅ s -> leaky R s.
Proof. intros Hi. exists ∅. split; [done|]. by rewrite (right_id_L ∅ (⊎)). Qed.

(** Whether a client is valid does not depend on what else it has. *)
Lemma valid_kept R out s p e e' :
  inv R out s -> cc_clients s !! p = Some e -> ce_valid e' = ce_valid e ->
  ce_nickname_normalized e' = ce_nickname_normalized e ->
  ce_valid e' = true -> ce_nickname_normalized e' <> None.
Proof. intros Hi He -> ->. by destruct (in_client _ _ _ Hi p e He) as [[] _]. Qed.

(** The end of a change of the nickname: formatting it, the cache and the flag. *)
Lemma format_client_entry_ok {B} R s p e priority (k : option Z -> CM B) Q :
  inv R ∅ s -> clients_room s -> cc_clients s !! p = Some e ->
  (forall L r s' e', leaked params L -> inv (R ⊎ L) ∅ s' -> cc_clients s' !! p = Some e' ->
     ce_nickname_normalized e' = ce_nickname_normalized e -> wp (k r) Q s') ->
  wp (bind (silc_client_nickname_format params p priority) k) Q s.
Proof.
  intros Hi Hroom He Hk. eapply wp_call; [apply silc_client_nickname_format_ok; [done|done|by exists e]|].
  intros r s' (L & HL & Hi' & Hkeep). destruct (Hkeep p _ (inv_alive R ∅ s p e Hi He)) as (e' & He' & Hn & _).
  by eapply Hk.
Qed.

Lemma silc_client_change_nickname_ok R s p e new_nick new_id idp :
  inv R ∅ s -> clients_room s -> cc_clients s !! p = Some e ->
  wp (silc_client_change_nickname params p new_nick new_id idp) (fun _ s' => leaky R s') s.
Proof.
  intros Hi Hroom He. unfold silc_client_change_nickname.
  destruct (silc_identifier_check new_nick 128) as [tmp|]; [|by apply wp_ret, leaky_none].
  eapply wp_call; [by eapply client_cache_update_ok|]. intros ok s1 (-> & Hi1 & Hroom1 & e1 & He1 & Hn1).
  specialize (Hroom1 Hroom).   cbn [negb]. destruct (256 <? zlen new_nick); [done|].
  eapply update_client_room; [exact Hi1|exact Hroom1|exact He1|done..|]. intros s2 Hi2 Hroom2 He2.
  apply is_local_ok. intros local.
  eapply format_client_entry_ok; [exact Hi2|exact Hroom2|exact He2|].
  intros L r s3 e3 HL Hi3 He3 Hn3. cbn in Hn3.
  assert (forall s4, same_entries s3 s4 ->
    wp (update_client p (set_ce_valid true);; ret true) (fun _ s' => leaky R s') s4) as Hend.
  { intros s4 E4. pose proof (inv_same _ _ _ _ Hi3 E4) as Hi4. destruct E4 as [E4 _].
    eapply update_client_ok; [exact Hi4|by rewrite E4|done..| |].
    - cbn. by rewrite Hn3.
    - intros s5 _ Hi5. apply wp_ret. by exists L. }
  apply wp_bind. destruct local; [|by apply wp_ret, Hend].
  assert (forall s4, same_entries s3 s4 -> wp (match new_id with
      | Some _ => e <- read_client p;; event (silc_packet_set_ids (ce_id e))
      | None => ret tt end) (fun _ s' => wp (update_client p (set_ce_valid true);; ret true) (fun _ s' => leaky R s') s') s4) as Hids.
  { intros s4 E4. destruct new_id; [|by apply wp_ret, Hend]. pose proof E4 as [E4' _].
    apply (wp_read cc_clients p e3); [by rewrite E4'|]. apply wp_last, wp_event, wp_ret. by apply Hend. }
  apply wp_bind. destruct idp; [by apply wp_ret, Hids|]. apply wp_last, wp_event, wp_ret. by apply Hids.
Qed.

#[local] Ltac generalize_client :=
  match goal with |- _ !! _ = Some ?e -> _ => generalize e end.

Lemma silc_client_update_client_ok R s p e nickname username userinfo mode :
  inv R ∅ s -> clients_room s -> cc_clients s !! p = Some e ->
  wp (silc_client_update_client params p nickname username userinfo mode) (fun _ s' => leaky R s') s.
Proof.
  intros Hi Hroom He. unfold silc_client_update_client.
  eapply update_client_room; [exact Hi|exact Hroom|exact He|..];
    try (by destruct (ce_realname e), userinfo).
  { destruct (in_client _ _ _ Hi p e He) as [[_ Hv _] _]. by destruct (ce_realname e), userinfo. }
  cbv beta. intros s1 Hi1 Hroom1. generalize_client. clear e He Hi Hroom s.
  revert s1 Hi1 Hroom1. intros s Hi Hroom e He.
  eapply update_client_room; [exact Hi|exact Hroom|exact He|..];
    try (by destruct username; [destruct (_ || _); [destruct (silc_parse_userfqdn _ _ _) as [[? ?] ?]|]|]).
  { destruct (in_client _ _ _ Hi p e He) as [[_ Hv _] _].
    by destruct username; [destruct (_ || _); [destruct (silc_parse_userfqdn _ _ _) as [[? ?] ?]|]|]. }
  cbv beta. intros s1 Hi1 Hroom1. generalize_client. clear e He Hi Hroom s.
  revert s1 Hi1 Hroom1. intros s Hi Hroom e He. apply (wp_read cc_clients p e); [done|].
  assert (forall L s' e' (go : bool), leaked params L -> inv (R ⊎ L) ∅ s' -> cc_clients s' !! p = Some e' ->
    wp (if go then update_client p (set_ce_mode mode) else ret tt) (fun _ s' => leaky R s') s') as Hend.
  { intros L s' e' go HL Hi' He'. destruct go; [|by apply wp_ret; exists L]. apply wp_last.
    eapply update_client_ok; [exact Hi'|exact He'|done..| |].
    - by eapply valid_kept.
    - intros s2 _ Hi2. apply wp_ret. by exists L. }
  assert (inv (R ⊎ ∅) ∅ s) as Hi0 by by rewrite (right_id_L ∅ (⊎)).
  apply wp_bind. destruct (ce_nickname e) as [|c l], nickname as [n|];
    try (apply wp_ret; by apply (Hend ∅ s e true)).
  destruct (silc_parse_userfqdn _ _ _) as [[ok parsed] server].
  eapply update_client_room; [exact Hi|exact Hroom|exact He|done..|by eapply valid_kept|].
  intros s1 Hi1 Hroom1 He1.
  eapply update_client_room; [exact Hi1|exact Hroom1|exact He1|done..|by eapply valid_kept|].
  intros s2 Hi2 Hroom2 He2. set (e2 := set_ce_nickname _ _) in He2.
  assert (inv (R ⊎ ∅) ∅ s2) as Hi20 by by rewrite (right_id_L ∅ (⊎)).
  destruct (silc_identifier_check parsed 128) as [nick|]; [|apply wp_ret; by apply (Hend ∅ s2 e2 false)].
  apply is_local_ok. intros local.
  eapply format_client_entry_ok; [exact Hi2|exact Hroom2|exact He2|].
  intros L r s3 e3 HL Hi3 He3 Hn3.
  eapply wp_call; [by eapply client_cache_update_ok|]. intros b s4 (-> & Hi4 & _ & e4 & He4 & Hn4).
  eapply update_client_ok; [exact Hi4|exact He4|done..|].
  intros s5 -> Hi5. apply wp_ret. eapply (Hend L _ _ true HL Hi5). apply lookup_insert_eq.
Qed.

Lemma silc_client_get_client_ok R s id :
  inv R ∅ s -> clients_room s -> Z.of_nat (size (cc_client_ids s)) + 1 < 2 ^ 30 ->
  wp (silc_client_get_client params id)
     (fun r s' => exists L, leaked params L /\ inv (R ⊎ L ⊎ opt_ref RClient r) ∅ s') s.
Proof.
  intros Hi Hroom Hsize. unfold silc_client_get_client.
  eapply wp_call; [apply get_client_by_id_ok; [exact Hi|]|].
  { intros p e He. pose proof (proj1 Hroom p e He). lia. }
  intros [p|] s1 [Hi1 Hf].
  { apply wp_ret. exists ∅. split; [done|]. by rewrite (right_id_L ∅ (⊎)). }
  destruct Hf as [-> _]. rewrite no_ref in Hi1. eapply wp_call; [by apply silc_client_add_client_ok|].
  intros [p|] s2 (L & HL & Hi2 & Hp).
  - destruct (Hp p eq_refl) as (e & He & Hr). specialize (Hr eq_refl).
    eapply wp_call; [eapply ref_client_ok; [exact Hi2|exact He|lia]|]. intros _ s3 [Hi3 _].
    apply wp_ret. exists L. split; [done|exact Hi3].
  - apply wp_ret. exists L. split; [done|]. by rewrite no_ref.
Qed.
End add.
