(* ===== verification/ClientRun.v ===== *)
(** The entries of the client library under any sequence of its operations: no entry is
    used after it was freed, the reference counts are right and the lists of channels
    and of users agree. *)

From stdpp Require Import gmap gmultiset sets list strings.
From S2P Require Import Prelude CTypes Id HashTable HashTableSpec HashKeys SilcList IdCache IdCacheSpec ClientNick ClientState ClientEntry ClientDb ClientTables ClientCache ClientInv ClientRefs ClientUsers ClientNames ClientAdd.

#[local] Open Scope client_scope.

(** * Operations *)

Inductive entry_op :=
| eo_set_local (p : option Z)
| eo_add_client (nickname username userinfo : option (list Z)) (id : SilcID) (mode : Z)
| eo_get_client (id : SilcID)
| eo_get_client_by_id (id : option SilcID)
| eo_get_clients_local (nickname : list Z) (get_all get_valid : bool)
| eo_list_free (l : list Z)
| eo_ref_client (p : Z)
| eo_unref_client (p : Z)
| eo_del_client (p : Z)
| eo_update_client (p : Z) (nickname username userinfo : option (list Z)) (mode : Z)
| eo_change_nickname (p : Z) (new_nick : list Z) (new_id : option SilcID) (idp : list Z)
| eo_add_channel (name : list Z) (mode : Z) (id : SilcID)
| eo_get_channel (remote_host name : list Z)
| eo_get_channel_by_id (id : option SilcID)
| eo_ref_channel (p : Z)
| eo_unref_channel (p : Z)
| eo_del_channel (p : Z)
| eo_replace_channel_id (p : Z) (id : option SilcID)
| eo_add_server (name info : option (list Z)) (id : option SilcID)
| eo_get_server (name : list Z)
| eo_get_server_by_id (id : option SilcID)
| eo_ref_server (p : Z)
| eo_unref_server (p : Z)
| eo_del_server (p : Z)
| eo_update_server (p : Z) (name info : option (list Z))
| eo_add_to_channel (channel client mode : Z)
| eo_remove_from_channel (channel client : Z)
| eo_remove_from_channels (client : Z)
| eo_empty_channel (channel : Z).

Section run.
Context `{ClientObjects} `{ClientStrings} (params : SilcClientParams).
Implicit Types (R L : Held) (s : ClientConn).

(** An operation, and the references that are held after it. *)
Definition entry_step (op : entry_op) R : CM Held :=
  match op with
  | eo_set_local p => modify (set_cc_local_entry p);; ret R
  | eo_add_client n u i id m => silc_client_add_client params n u i id m;; ret R
  | eo_get_client id => r <- silc_client_get_client params id;; ret (R ⊎ opt_ref RClient r)
  | eo_get_client_by_id id => r <- silc_client_get_client_by_id id;; ret (R ⊎ opt_ref RClient r)
  | eo_get_clients_local n a v =>
      r <- silc_client_get_clients_local_ext params n a v;; ret (R ⊎ client_refs (default [] r))
  | eo_list_free l => silc_client_list_free (Some l);; ret (R ∖ client_refs l)
  | eo_ref_client p => silc_client_ref_client p;; ret (R ⊎ {[+ (RClient, p) +]})
  | eo_unref_client p => silc_client_unref_client (Some p);; ret (R ∖ {[+ (RClient, p) +]})
  | eo_del_client p => silc_client_del_client (Some p);; ret R
  | eo_update_client p n u i m => silc_client_update_client params p n u i m;; ret R
  | eo_change_nickname p n id idp => silc_client_change_nickname params p n id idp;; ret R
  | eo_add_channel n m id => silc_client_add_channel params n m id;; ret R
  | eo_get_channel h n => r <- silc_client_get_channel h n;; ret (R ⊎ opt_ref RChannel r)
  | eo_get_channel_by_id id => r <- silc_client_get_channel_by_id id;; ret (R ⊎ opt_ref RChannel r)
  | eo_ref_channel p => silc_client_ref_channel p;; ret (R ⊎ {[+ (RChannel, p) +]})
  | eo_unref_channel p => silc_client_unref_channel (Some p);; ret (R ∖ {[+ (RChannel, p) +]})
  | eo_del_channel p => silc_client_del_channel (Some p);; ret R
  | eo_replace_channel_id p id => silc_client_replace_channel_id p id;; ret R
  | eo_add_server n i id => silc_client_add_server n i id;; ret R
  | eo_get_server n => r <- silc_client_get_server n;; ret (R ⊎ opt_ref RServer r)
  | eo_get_server_by_id id => r <- silc_client_get_server_by_id id;; ret (R ⊎ opt_ref RServer r)
  | eo_ref_server p => silc_client_ref_server p;; ret (R ⊎ {[+ (RServer, p) +]})
  | eo_unref_server p => silc_client_unref_server (Some p);; ret (R ∖ {[+ (RServer, p) +]})
  | eo_del_server p => silc_client_del_server (Some p);; ret R
  | eo_update_server p n i => silc_client_update_server p n i;; ret R
  | eo_add_to_channel ch cl m => silc_client_add_to_channel ch cl m;; ret R
  | eo_remove_from_channel ch cl => silc_client_remove_from_channel ch cl;; ret R
  | eo_remove_from_channels cl => silc_client_remove_from_channels cl;; ret R
  | eo_empty_channel ch => silc_client_empty_channel ch;; ret R
  end.

Fixpoint entry_run (ops : list entry_op) R : CM Held :=
  match ops with [] => ret R | op :: ops => R <- entry_step op R;; entry_run ops R end.

(** An entry may be used that is allocated, a reference given back that is held, and a
    client or channel emptied that keeps a reference.  *)
Definition op_allowed R s (op : entry_op) : bool :=
  let client p := bool_decide (is_Some (cc_clients s !! p)) in
  let channel p := bool_decide (is_Some (cc_channels s !! p)) in
  let server p := bool_decide (is_Some (cc_servers s !! p)) in
  let holds k p := bool_decide ((k, p) ∈ R) in
  match op with
  | eo_ref_client p | eo_del_client p | eo_update_client p _ _ _ _ | eo_change_nickname p _ _ _ => client p
  | eo_ref_channel p | eo_del_channel p | eo_replace_channel_id p _ => channel p
  | eo_ref_server p | eo_del_server p | eo_update_server p _ _ => server p
  | eo_unref_client p => holds RClient p
  | eo_unref_channel p => holds RChannel p
  | eo_unref_server p => holds RServer p
  | eo_list_free l => bool_decide (client_refs l ⊆ R)
  | eo_add_to_channel ch cl _ | eo_remove_from_channel ch cl => channel ch && client cl
  | eo_remove_from_channels p =>
      match cc_clients s !! p with Some e => (ce_deleted e =? 1) || holds RClient p | None => false end
  | eo_empty_channel p =>
      match cc_channels s !! p with Some c => (ch_deleted c =? 1) || holds RChannel p | None => false end
  | _ => true
  end.

(** No counter of 32 bits is about to wrap around, and the counts of the lists are
    below 2^30. *)
Definition room_left s : bool :=
  bool_decide (map_Forall (fun _ e => ce_refcnt e + 2 < 2 ^ 32 /\ ce_deleted e <> 2) (cc_clients s)) &&
  bool_decide (map_Forall (fun _ c => ch_refcnt c + 2 < 2 ^ 32 /\ ch_deleted c <> 2) (cc_channels s)) &&
  bool_decide (map_Forall (fun _ e => se_refcnt e + 2 < 2 ^ 32 /\ se_deleted e <> 2) (cc_servers s)) &&
  (Z.of_nat (size (cc_client_ids s)) + 1 <? 2 ^ 30) && (Z.of_nat (size (cc_channel_ids s)) + 1 <? 2 ^ 30).

Fixpoint entry_ops_allowed (ops : list entry_op) R s : bool :=
  match ops with
  | [] => true
  | op :: ops =>
      room_left s && op_allowed R s op &&
      match entry_step op R s with inr (R, s) => entry_ops_allowed ops R s | inl _ => true end
  end.

(** A connection whose caches were just allocated. *)
Definition connection_caches (links : Memory) (next : Z) : option ClientConn :=
  match silc_idcache_alloc 0 SILC_ID_CLIENT false None, silc_idcache_alloc 0 SILC_ID_CHANNEL false None,
        silc_idcache_alloc 0 SILC_ID_SERVER false None with
  | Some client_cache, Some channel_cache, Some server_cache =>
      Some {| cc_clients := ∅; cc_channels := ∅; cc_servers := ∅; cc_users := ∅;
              cc_client_cache := client_cache; cc_client_ids := ∅;
              cc_channel_cache := channel_cache; cc_channel_ids := ∅;
              cc_server_cache := server_cache; cc_server_ids := ∅; cc_links := links;
              cc_next := next; cc_local_entry := None; cc_current_channel := None; cc_log := [] |}
  | _, _, _ => None
  end.

Lemma connection_caches_ok links next s : connection_caches links next = Some s -> inv ∅ ∅ s.
Proof.
  unfold connection_caches.
  destruct (silc_idcache_alloc 0 SILC_ID_CLIENT _ _) as [c1|] eqn:E1; [|done].
  destruct (silc_idcache_alloc 0 SILC_ID_CHANNEL _ _) as [c2|] eqn:E2; [|done].
  destruct (silc_idcache_alloc 0 SILC_ID_SERVER _ _) as [c3|] eqn:E3; [|done]. intros [= <-].
  split; cbn -[SILC_ID_CLIENT SILC_ID_CHANNEL SILC_ID_SERVER];
    try (by intros ? ? ?%lookup_empty_Some); rewrite ?fmap_empty.
  - split; [by intros ? ? ? ? ?%lookup_empty_Some..|by intros ? ? ?%lookup_empty_Some].
  - intros k p Hk. unfold held in Hk. rewrite multiplicity_empty in Hk. lia.
  - apply cache_alloc_ok; [right; by left|done].
  - apply cache_alloc_ok; [right; by right|done].
  - apply cache_alloc_ok; [by left|done].
Qed.

(** * Each operation keeps the invariant *)

Lemma room_left_iff s :
  room_left s = true ->
  clients_room s /\ channels_room s /\ Z.of_nat (size (cc_client_ids s)) + 1 < 2 ^ 30 /\
  (forall p e, cc_servers s !! p = Some e -> se_refcnt e + 2 < 2 ^ 32) /\
  (forall p e, cc_clients s !! p = Some e -> ce_deleted e <> 2) /\
  (forall p c, cc_channels s !! p = Some c -> ch_deleted c <> 2) /\
  (forall p e, cc_servers s !! p = Some e -> se_deleted e <> 2).
Proof.
  unfold room_left. rewrite !andb_true_iff, !bool_decide_eq_true. unfold map_Forall.
  intros [[[[H1 H2] H3] H4%Z.ltb_lt] H5%Z.ltb_lt]. unfold clients_room, channels_room.
  split_and!; try lia; intros p e He; by first [apply (H1 p e He)|apply (H2 p e He)|apply (H3 p e He)].
Qed.

Lemma held_elem R k p : (k, p) ∈ R -> 0 < held R k p.
Proof. rewrite elem_of_multiplicity. unfold held. lia. Qed.

Lemma take_from R L x : x ∈ R -> R ⊎ L = (R ∖ {[+ x +]} ⊎ L) ⊎ {[+ x +]}.
Proof.
  intros Hx. rewrite <- (assoc_L (⊎)), (comm_L (⊎) L), (assoc_L (⊎)), (comm_L (⊎) _ {[+ x +]}).
  by rewrite <- gmultiset_disj_union_difference'.
Qed.

(** What is not given back is leaked. *)
Definition after_step L (R' : Held) s' : Prop := exists L', leaked params L' /\ inv (R' ⊎ L ⊎ L') ∅ s'.

Lemma after_exact R' L s' : inv (R' ⊎ L) ∅ s' -> after_step L R' s'.
Proof. intros Hi. exists ∅. split; [done|]. by rewrite (right_id_L ∅ (⊎)). Qed.

Lemma step_keep {A} (m : CM A) L s R' :
  wp m (fun _ s' => inv (R' ⊎ L) ∅ s') s -> wp (m;; ret R') (after_step L) s.
Proof. intros Hm. eapply wp_call; [exact Hm|]. intros a s' Hi. by apply wp_ret, after_exact. Qed.

Lemma step_leaky {A} (m : CM A) R L s :
  wp m (fun _ s' => leaky params (R ⊎ L) s') s -> wp (m;; ret R) (after_step L) s.
Proof. intros Hm. eapply wp_call; [exact Hm|]. intros a s' Hi. by apply wp_ret. Qed.

Lemma swap_refs R L X : R ⊎ X ⊎ L = R ⊎ L ⊎ X.
Proof. by rewrite <- !(assoc_L (⊎)), (comm_L (⊎) X). Qed.

Lemma step_ref {A} (m : CM A) (f : A -> Held) R L s :
  wp m (fun r s' => inv (R ⊎ L ⊎ f r) ∅ s') s -> wp (r <- m;; ret (R ⊎ f r)) (after_step L) s.
Proof.
  intros Hm. eapply wp_call; [exact Hm|]. intros r s' Hi. apply wp_ret, after_exact. by rewrite swap_refs.
Qed.

Lemma take_all_from R L X : X ⊆ R -> R ⊎ L = (R ∖ X ⊎ L) ⊎ X.
Proof. intros HX. rewrite <- swap_refs. f_equal. rewrite (comm_L (⊎)). by apply gmultiset_disj_union_difference. Qed.

Lemma step_client op R L s :
  inv (R ⊎ L) ∅ s -> room_left s = true -> op_allowed R s op = true ->
  match op with
  | eo_set_local _ | eo_add_client _ _ _ _ _ | eo_get_client _ | eo_get_client_by_id _
  | eo_get_clients_local _ _ _ | eo_list_free _ | eo_ref_client _ | eo_unref_client _ | eo_del_client _
  | eo_update_client _ _ _ _ _ | eo_change_nickname _ _ _ _ => True
  | _ => False
  end -> wp (entry_step op R) (after_step L) s.
Proof.
  intros Hi Hroom Ha. apply room_left_iff in Hroom as (Hc & Hch & Hsz & Hsv & Dc & Dch & Dsv).
  assert (forall p e, cc_clients s !! p = Some e -> ce_refcnt e + 1 < 2 ^ 32) as Hc1.
  { intros p e He. pose proof (proj1 Hc p e He). lia. }
  destruct op; try done; intros _; cbn [entry_step op_allowed] in *;
    try (apply bool_decide_eq_true_1 in Ha).
  - apply wp_modify, wp_ret, after_exact. by eapply inv_same.
  - apply step_leaky. eapply wp_mono; [by apply silc_client_add_client_ok|].
    intros r s' (L' & ? & ? & _). by exists L'.
  - eapply wp_call; [by apply silc_client_get_client_ok|]. intros r s' (L' & HL & Hi'). apply wp_ret.
    exists L'. split; [done|]. by rewrite (swap_refs R L), swap_refs.
  - apply step_ref. eapply wp_mono; [by apply get_client_by_id_ok|]. by intros r s' [? _].
  - apply step_ref. eapply wp_mono; [by apply get_clients_local_ext_ok|]. by intros r s' [? _].
  - apply step_keep. rewrite (take_all_from R L (client_refs l)) in Hi by done.
    eapply wp_mono; [by apply list_free_ok|]. by intros r s' [? _].
  - destruct Ha as [e He]. apply step_ref with (f := fun _ => {[+ (RClient, p) +]}).
    eapply wp_mono; [eapply ref_client_ok; [done|exact He|by eapply Hc1]|]. by intros r s' [? _].
  - apply step_keep. rewrite (take_from R L _ Ha) in Hi.
    eapply wp_mono; [exact (uclient_ok _ _ _ _ Hi)|]. by intros r s' [? _].
  - destruct Ha as [e He]. apply step_keep. eapply silc_client_del_client_ok; [done|exact He|by eapply Dc].
  - destruct Ha as [e He]. apply step_leaky. by eapply silc_client_update_client_ok.
  - destruct Ha as [e He]. apply step_leaky. by eapply silc_client_change_nickname_ok.
Qed.

Lemma step_channel op R L s :
  inv (R ⊎ L) ∅ s -> room_left s = true -> op_allowed R s op = true ->
  match op with
  | eo_add_channel _ _ _ | eo_get_channel _ _ | eo_get_channel_by_id _ | eo_ref_channel _
  | eo_unref_channel _ | eo_del_channel _ | eo_replace_channel_id _ _ => True
  | _ => False
  end -> wp (entry_step op R) (after_step L) s.
Proof.
  intros Hi Hroom Ha. apply room_left_iff in Hroom as (Hc & Hch & Hsz & Hsv & Dc & Dch & Dsv).
  assert (forall p c, cc_channels s !! p = Some c -> ch_refcnt c + 1 < 2 ^ 32) as Hch1.
  { intros p e He. pose proof (proj1 Hch p e He). lia. }
  destruct op; try done; intros _; cbn [entry_step op_allowed] in *;
    try (apply bool_decide_eq_true_1 in Ha).
  - apply step_keep. by apply add_channel_ok.
  - apply step_ref. by apply get_channel_ok.
  - apply step_ref. by apply get_channel_by_id_ok.
  - destruct Ha as [e He]. apply step_ref with (f := fun _ => {[+ (RChannel, p) +]}).
    eapply wp_mono; [eapply ref_channel_ok; [done|exact He|by eapply Hch1]|]. by intros r s' [? _].
  - apply step_keep. rewrite (take_from R L _ Ha) in Hi.
    eapply wp_mono; [exact (uchannel_ok _ _ _ _ Hi)|]. by intros r s' [? _].
  - destruct Ha as [e He]. apply step_keep. eapply silc_client_del_channel_ok; [done|exact He|by eapply Dch].
  - destruct Ha as [e He]. apply step_keep. by eapply replace_channel_id_ok.
Qed.

Lemma step_server op R L s :
  inv (R ⊎ L) ∅ s -> room_left s = true -> op_allowed R s op = true ->
  match op with
  | eo_add_server _ _ _ | eo_get_server _ | eo_get_server_by_id _ | eo_ref_server _
  | eo_unref_server _ | eo_del_server _ | eo_update_server _ _ _ => True
  | _ => False
  end -> wp (entry_step op R) (after_step L) s.
Proof.
  intros Hi Hroom Ha. apply room_left_iff in Hroom as (Hc & Hch & Hsz & Hsv & Dc & Dch & Dsv).
  assert (forall p e, cc_servers s !! p = Some e -> se_refcnt e + 1 < 2 ^ 32) as Hsv1.
  { intros p e He. pose proof (Hsv p e He). lia. }
  destruct op; try done; intros _; cbn [entry_step op_allowed] in *;
    try (apply bool_decide_eq_true_1 in Ha).
  - apply step_keep. by apply add_server_ok.
  - apply step_ref. by apply get_server_ok.
  - apply step_ref. by apply get_server_by_id_ok.
  - destruct Ha as [e He]. apply step_ref with (f := fun _ => {[+ (RServer, p) +]}).
    eapply wp_mono; [eapply ref_server_ok; [done|exact He|by eapply Hsv1]|]. by intros r s' [? _].
  - apply step_keep. rewrite (take_from R L _ Ha) in Hi. exact (unref_server_ok _ _ _ _ Hi).
  - destruct Ha as [e He]. apply step_keep. eapply silc_client_del_server_ok; [done|exact He|by eapply Dsv].
  - destruct Ha as [e He]. apply step_keep. by eapply silc_client_update_server_ok.
Qed.

Lemma held_kept R L k p deleted :
  (deleted =? 1) || bool_decide ((k, p) ∈ R) = true -> 0 < creation deleted + held (R ⊎ L) k p.
Proof.
  rewrite held_union. pose proof (held_nonneg R k p). pose proof (held_nonneg L k p).
  intros [->%Z.eqb_eq|Hb%bool_decide_eq_true_1]%orb_true_iff; [cbn; lia|].
  pose proof (held_elem R k p Hb). destruct (creation_cases deleted) as [[_ ->]|[_ ->]]; lia.
Qed.

Lemma step_users op R L s :
  inv (R ⊎ L) ∅ s -> room_left s = true -> op_allowed R s op = true ->
  match op with
  | eo_add_to_channel _ _ _ | eo_remove_from_channel _ _ | eo_remove_from_channels _
  | eo_empty_channel _ => True
  | _ => False
  end -> wp (entry_step op R) (after_step L) s.
Proof.
  intros Hi Hroom Ha. apply room_left_iff in Hroom as (Hc & Hch & Hsz & Hsv & Dc & Dch & Dsv).
  destruct op; try done; intros _; cbn [entry_step op_allowed] in *; apply step_keep.
  - apply andb_true_iff in Ha as [[c Hc']%bool_decide_eq_true_1 [e He]%bool_decide_eq_true_1].
    pose proof (proj1 Hc _ _ He). pose proof (proj1 Hch _ _ Hc').
    by apply (silc_client_add_to_channel_ok _ s channel client mode e c); [..|lia|lia].
  - apply andb_true_iff in Ha as [[c Hc']%bool_decide_eq_true_1 [e He]%bool_decide_eq_true_1].
    eapply silc_client_remove_from_channel_ok; [done|exact He|exact Hc'|by eapply Dch].
  - destruct (cc_clients s !! client) as [e|] eqn:He; [|done].
    eapply silc_client_remove_from_channels_ok; [done|exact He|by apply held_kept|].
    intros k v c _ Hk. by eapply Dch.
  - destruct (cc_channels s !! channel) as [c|] eqn:Hc'; [|done].
    eapply silc_client_empty_channel_ok; [done|exact Hc'|by apply held_kept].
Qed.

Lemma entry_step_ok op R L s :
  inv (R ⊎ L) ∅ s -> room_left s = true -> op_allowed R s op = true ->
  wp (entry_step op R) (after_step L) s.
Proof.
  intros Hi Hr Ha. destruct op;
    first [by apply step_client|by apply step_channel|by apply step_server|by apply step_users].
Qed.

Lemma leaked_union L L' : leaked params L -> leaked params L' -> leaked params (L ⊎ L').
Proof. intros H1 H2 E. rewrite H1, H2 by done. apply (right_id_L ∅ (⊎)). Qed.

Lemma entry_run_ok ops R L s :
  inv (R ⊎ L) ∅ s -> leaked params L -> entry_ops_allowed ops R s = true ->
  wp (entry_run ops R) (fun R' s' => exists L', leaked params L' /\ inv (R' ⊎ L') ∅ s') s.
Proof.
  revert R L s; induction ops as [|op ops IH]; intros R L s Hi HL Ha; cbn [entry_run entry_ops_allowed] in *.
  { apply wp_ret. by exists L. }
  apply andb_true_iff in Ha as [[Hroom Hop]%andb_true_iff Ha].
  pose proof (entry_step_ok op R L s Hi Hroom Hop) as Hs. apply wp_bind. unfold wp in *.
  destruct (entry_step op R s) as [f|[R' s']]; [done|]. destruct Hs as (L' & HL' & Hi').
  rewrite <- (assoc_L (⊎)) in Hi'. by apply (IH R' (L ⊎ L')); [|apply leaked_union|].
Qed.

(** * The theorems *)

(** The references of the entries: that of their creation until they are deleted, one
    for each user of their lists, and those that are held; held ones are of entries
    that are allocated. *)
Definition references_right R s : Prop :=
  (forall p e, cc_clients s !! p = Some e -> 0 < ce_refcnt e /\
     ce_refcnt e = creation (ce_deleted e) + silc_hash_table_count (ce_channels e) + held R RClient p) /\
  (forall p c, cc_channels s !! p = Some c -> 0 < ch_refcnt c /\
     ch_refcnt c = creation (ch_deleted c) + silc_hash_table_count (ch_user_list c) + held R RChannel p) /\
  (forall p e, cc_servers s !! p = Some e -> 0 < se_refcnt e /\
     se_refcnt e = creation (se_deleted e) + held R RServer p) /\
  (forall k p, (k, p) ∈ R -> allocated s k p).

(** A user is found in the list of its client, and in that of its channel, when it is
    allocated. *)
Definition lists_agree s : Prop :=
  forall p ch chu,
    ((exists e x, cc_clients s !! p = Some e /\ silc_hash_table_find (ce_channels e) ch = Some x /\
        he_context x = Some chu) <->
     exists u, cc_users s !! chu = Some u /\ chu_client u = p /\ chu_channel u = ch) /\
    ((exists c x, cc_channels s !! ch = Some c /\ silc_hash_table_find (ch_user_list c) p = Some x /\
        he_context x = Some chu) <->
     exists u, cc_users s !! chu = Some u /\ chu_client u = p /\ chu_channel u = ch).

Lemma inv_references R s : inv R ∅ s -> references_right R s.
Proof.
  intros Hi. split_and!.
  - intros p e He. destruct (in_client _ _ _ Hi p e He) as [[Ht _ _] Hc].
    rewrite (user_table_count _ _ Ht (client_counted_size _ _ _ Hc)). destruct Hc as [-> ? _]. lia.
  - intros p c Hc. destruct (in_channel _ _ _ Hi p c Hc) as [[Ht _] Hn].
    rewrite (user_table_count _ _ Ht (counted_size _ _ _ Hn)). destruct Hn as [-> ? _]. lia.
  - intros p e He. destruct (in_server _ _ _ Hi p e He) as [_ [-> ? _]]. lia.
  - intros k p Hk. apply (in_held _ _ _ Hi), (held_elem _ _ _ Hk).
Qed.

Lemma inv_lists R s : inv R ∅ s -> lists_agree s.
Proof.
  intros Hi p ch chu. split; split.
  - intros (e & x & He & Hf & Hx). destruct (in_client _ _ _ Hi p e He) as [[Ht _ _] _].
    rewrite (user_table_find _ _ _ Ht) in Hf. apply fmap_Some in Hf as (v & Hv & ->).
    injection Hx as <-. destruct (client_user _ _ _ _ _ _ _ Hi He Hv) as [_ Hu]. by eexists.
  - intros (u & Hu & <- & <-). destruct (user_tables _ _ _ _ _ Hi Hu ltac:(set_solver))
      as (e & c & He & Hc & Hek & Hck). destruct (in_client _ _ _ Hi _ e He) as [[Ht _ _] _].
    exists e, (map_entry (chu_channel u, chu)). by rewrite (user_table_find _ _ _ Ht), Hek.
  - intros (c & x & Hc & Hf & Hx). destruct (in_channel _ _ _ Hi ch c Hc) as [[Ht _] _].
    rewrite (user_table_find _ _ _ Ht) in Hf. apply fmap_Some in Hf as (v & Hv & ->).
    injection Hx as <-. destruct (channel_user _ _ _ _ _ _ _ Hi Hc Hv) as [_ Hu]. by eexists.
  - intros (u & Hu & <- & <-). destruct (user_tables _ _ _ _ _ Hi Hu ltac:(set_solver))
      as (e & c & He & Hc & Hek & Hck). destruct (in_channel _ _ _ Hi _ c Hc) as [[Ht _] _].
    exists c, (map_entry (chu_client u, chu)). by rewrite (user_table_find _ _ _ Ht), Hck.
Qed.

(** C12. Whatever the library and the application do with the clients, channels and
    servers of a connection (add, find, rename, delete them, put clients on channels
    and take them off), no operation uses an entry or user that was freed; the only
    fault is a nickname longer than its array.  An entry is allocated while it is not
    deleted, is in a list or has a reference that is held, and its count is the number
    of these; the lists of the channels and those of the clients agree, and every
    allocated user is in both.  Without a format of nicknames no reference is lost. *)
Theorem silc_client_references links next s0 ops :
  connection_caches links next = Some s0 -> entry_ops_allowed ops ∅ s0 = true ->
  match entry_run ops ∅ s0 with
  | inl f => f = BufferOverflow
  | inr (R, s) => exists L, (cp_nickname_format params = [] -> L = ∅) /\
                    references_right (R ⊎ L) s /\ lists_agree s
  end.
Proof.
  intros H1 H2. pose proof (connection_caches_ok _ _ _ H1) as Hi.
  pose proof (entry_run_ok ops ∅ ∅ s0) as Hrun. rewrite (right_id_L ∅ (⊎)) in Hrun.
  specialize (Hrun Hi ltac:(done) H2). unfold wp in Hrun.
  destruct (entry_run ops ∅ s0) as [f|[R s]]; [done|]. destruct Hrun as (L & HL & Hi').
  exists L. split; [done|]. split; [by apply inv_references|by eapply inv_lists].
Qed.

(** After any such operations silc_client_get_client_by_id finds a client that has
    the ID, by its entry, when there is one, and otherwise none. *)
Theorem silc_client_get_client_by_id_finds links next s0 ops :
  connection_caches links next = Some s0 -> entry_ops_allowed ops ∅ s0 = true ->
  match entry_run ops ∅ s0 with
  | inl f => f = BufferOverflow
  | inr (_, s) => forall id,
      match silc_client_get_client_by_id id s with
      | inl _ => False
      | inr (r, s') => client_found s id r s'
      end
  end.
Proof.
  intros H1 H2. pose proof (connection_caches_ok _ _ _ H1) as Hi.
  pose proof (entry_run_ok ops ∅ ∅ s0) as Hrun. rewrite (right_id_L ∅ (⊎)) in Hrun.
  specialize (Hrun Hi ltac:(done) H2). unfold wp in Hrun.
  destruct (entry_run ops ∅ s0) as [f|[R s]]; [done|]. destruct Hrun as (L & HL & Hi').
  intros id. pose proof (in_client_cache _ _ _ Hi') as Hcache.
  unfold silc_client_get_client_by_id, bind, gets. destruct id as [id|]; [|by split].
  destruct (cache_find_id _ _ _ _ _ Hcache id s) as [(p & i & -> & Hp & Hc)|[-> Hnone]].
  - rewrite lookup_fmap in Hp. apply fmap_Some in Hp as (e & He & ->).
    unfold silc_client_ref_client, update_client, bind, read_client, read. rewrite He. by exists e, id.
  - split; [done|]. intros j p e [= <-] He. apply (Hnone p). by rewrite lookup_fmap, He.
Qed.
End run.

#[local] Instance objects : ClientObjects :=
  {| SilcCipherPtr := unit; SilcHmacPtr := unit; SilcPublicKeyPtr := unit;
     silc_cipher_get_name := fun _ => []; silc_hmac_get_name := fun _ => [] |}.

(** Names of at most the length, compared byte for byte. *)
#[local] Instance strings : ClientStrings :=
  {| silc_identifier_check := fun s max => if zlen s <=? max then Some s else None;
     silc_channel_name_check := fun s max => if zlen s <=? max then Some s else None;
     silc_utf8_strcasecmp := fun a b => bool_decide (a = b);
     silc_utf8_strncasecmp := fun a b n => bool_decide (ztake n a = ztake n b) |}.

#[local] Definition no_format : SilcClientParams :=
  {| cp_nickname_format := []; cp_nickname_force_format := false; cp_full_nicknames := false;
     cp_full_channel_names := false |}.

#[local] Definition nick_id (n : Z) : SilcID :=
  IdClient {| cid_ip := {| ip_data := zrepeat n 16; ip_data_len := 4 |}; cid_rnd := n;
              cid_hash := zrepeat n 11 |}.
#[local] Definition chan_id (n : Z) : SilcID :=
  IdChannel {| chid_ip := {| ip_data := zrepeat n 16; ip_data_len := 4 |}; chid_port := n; chid_rnd := n |}.

(** Two clients on a channel; one leaves, the channel and the other are deleted, while
    the application still has a reference. *)
#[local] Definition join_and_leave : list entry_op :=
  let bob := [98; 111; 98] in let amy := [97; 109; 121] in let chat := [99; 104; 97; 116] in
  [eo_add_client (Some bob) (Some bob) None (nick_id 1) 0;
   eo_add_client (Some amy) (Some amy) None (nick_id 2) 0;
   eo_add_channel chat 0 (chan_id 1);
   eo_add_to_channel 104 100 0; eo_add_to_channel 104 102 0;
   eo_get_clients_local bob true true; eo_get_channel [] chat;
   eo_remove_from_channel 104 102; eo_del_client 102; eo_del_channel 104;
   eo_remove_from_channels 100; eo_unref_channel 104].

#[local] Definition no_links : Memory := fun _ => {| l_next := None; l_prev := None |}.

#[local] Definition left_over (r : Fault + Held * ClientConn) : option (nat * nat * nat * nat) :=
  match r with
  | inl _ => None
  | inr (R, s) => Some (size R, size (cc_clients s), size (cc_channels s), size (cc_users s))
  end.

(** What is left is the client that is not deleted and has a reference. *)
Lemma silc_client_references_witness :
  match connection_caches no_links 100 with
  | Some s0 =>
      entry_ops_allowed no_format join_and_leave ∅ s0 = true /\
      left_over (entry_run no_format join_and_leave ∅ s0) = Some (1, 1, 0, 0)%nat /\
      match entry_run no_format join_and_leave ∅ s0 with
      | inl f => False
      | inr (R, s) => exists L, L = ∅ /\ references_right (R ⊎ L) s /\ lists_agree s
      end
  | None => False
  end.
Proof.
  destruct (connection_caches no_links 100) as [s0|] eqn:Es; [|discriminate Es].
  assert (entry_ops_allowed no_format join_and_leave ∅ s0 = true) as Ha.
  { injection Es as <-. vm_compute. reflexivity. }
  assert (left_over (entry_run no_format join_and_leave ∅ s0) = Some (1, 1, 0, 0)%nat) as Hl.
  { injection Es as <-. vm_compute. reflexivity. }
  split; [exact Ha|]. split; [exact Hl|].
  pose proof (silc_client_references no_format no_links 100 s0 join_and_leave Es Ha) as T.
  destruct (entry_run no_format join_and_leave ∅ s0) as [f|[R s]]; [discriminate Hl|].
  destruct T as (L & HL & T). exists L. split; [exact (HL eq_refl)|exact T].
Defined.

Lemma silc_client_get_client_by_id_finds_witness :
  match connection_caches no_links 100 with
  | Some s0 =>
      match entry_run no_format join_and_leave ∅ s0 with
      | inl f => False
      | inr (_, s) =>
          match silc_client_get_client_by_id (Some (nick_id 1)) s, silc_client_get_client_by_id (Some (nick_id 2)) s with
          | inr (r1, s1), inr (r2, s2) =>
              r1 = Some 100 /\ r2 = None /\ client_found s (Some (nick_id 1)) r1 s1 /\
              client_found s (Some (nick_id 2)) r2 s2
          | _, _ => False
          end
      end
  | None => False
  end.
Proof.
  destruct (connection_caches no_links 100) as [s0|] eqn:Es; [|discriminate Es].
  assert (entry_ops_allowed no_format join_and_leave ∅ s0 = true) as Ha.
  { injection Es as <-. vm_compute. reflexivity. }
  assert (match entry_run no_format join_and_leave ∅ s0 with
          | inl f => None
          | inr (_, s) => Some (match silc_client_get_client_by_id (Some (nick_id 1)) s with inr (r, _) => r | inl _ => None end,
                                match silc_client_get_client_by_id (Some (nick_id 2)) s with inr (r, _) => r | inl _ => None end)
          end = Some (Some 100, None)) as Hl.
  { injection Es as <-. vm_compute. reflexivity. }
  pose proof (silc_client_get_client_by_id_finds no_format no_links 100 s0 join_and_leave Es Ha) as T.
  destruct (entry_run no_format join_and_leave ∅ s0) as [f|[R s]]; [discriminate Hl|].
  pose proof (T (Some (nick_id 1))) as T1. pose proof (T (Some (nick_id 2))) as T2.
  destruct (silc_client_get_client_by_id (Some (nick_id 1)) s) as [f1|[r1 s1]]; [destruct T1|].
  destruct (silc_client_get_client_by_id (Some (nick_id 2)) s) as [f2|[r2 s2]]; [destruct T2|].
  injection Hl as -> ->. split; [reflexivity|]. split; [reflexivity|]. split; [exact T1|exact T2].
Defined.
