(* ===== verification/Aes.v ===== *)
(** lib/silccrypt/aes.c and rijndael_internal.h: the AES block function, its
    tables and its key schedules, in the C version (SILC_AES_ASM not defined)
    on a little-endian machine (WORDS_BIGENDIAN not defined).

    A word is a [Z] below 2^32, an array of words a list; the macros that write
    [cx->ks] and [ss] take both and give both back.  AesSpec compares them with
    FIPS-197. *)

From S2P Require Import Prelude CTypes.

Definition KS_LENGTH : Z := 60.
Definition N_COLS : Z := 4.
Definition WPOLY : Z := 0x11b.

(** aes_encrypt_ctx and aes_decrypt_ctx, the members of the union in
    AesContext: [b0] and [b2] are [inf.b[0]] and [inf.b[2]]; aes_decrypt_ctx has
    no [pad]. *)
Record aes_ctx := { ks : list Z; b0 : Z; b2 : Z; pad : list Z }.

(** * Words and bytes *)

Definition bval (x n : Z) : Z := u8 (Z.shiftr x (8 * n)).

Definition bytes2word (b0 b1 b2 b3 : Z) : Z :=
  Z.lor (Z.lor (Z.lor (u32 (Z.shiftl b3 24)) (u32 (Z.shiftl b2 16))) (u32 (Z.shiftl b1 8))) b0.

Definition word_in (x : list Z) (c : Z) : Z :=
  bytes2word (byte_at x (4 * c)) (byte_at x (4 * c + 1)) (byte_at x (4 * c + 2))
    (byte_at x (4 * c + 3)).

(** The four bytes [word_out] stores. *)
Definition word_out (v : Z) : list Z := [bval v 0; bval v 1; bval v 2; bval v 3].

(** [s(x,c)], and the store to it. *)
Definition s (x : list Z) (c : Z) : Z := byte_at x c.
Definition put (x : list Z) (c v : Z) : list Z := <[Z.to_nat c := v]> x.

(** * Multiplication in the field *)

Definition f2 (x : Z) : Z := Z.lxor (Z.shiftl x 1) (Z.land (Z.shiftr x 7) 1 * WPOLY).

Definition f4 (x : Z) : Z :=
  Z.lxor (Z.lxor (Z.shiftl x 2) (Z.land (Z.shiftr x 6) 1 * WPOLY))
    (Z.land (Z.shiftr x 6) 2 * WPOLY).

Definition f8 (x : Z) : Z :=
  Z.lxor (Z.lxor (Z.lxor (Z.shiftl x 3) (Z.land (Z.shiftr x 5) 1 * WPOLY))
    (Z.land (Z.shiftr x 5) 2 * WPOLY)) (Z.land (Z.shiftr x 5) 4 * WPOLY).

Definition f3 (x : Z) : Z := Z.lxor (f2 x) x.
Definition f9 (x : Z) : Z := Z.lxor (f8 x) x.
Definition fb (x : Z) : Z := Z.lxor (Z.lxor (f8 x) (f2 x)) x.
Definition fd (x : Z) : Z := Z.lxor (Z.lxor (f8 x) (f4 x)) x.
Definition fe (x : Z) : Z := Z.lxor (Z.lxor (f8 x) (f4 x)) (f2 x).

Definition w0 (p : Z) : Z := bytes2word p 0 0 0.
Definition w1 (p : Z) : Z := bytes2word 0 p 0 0.
Definition w2 (p : Z) : Z := bytes2word 0 0 p 0.
Definition w3 (p : Z) : Z := bytes2word 0 0 0 p.

Definition u0 (p : Z) : Z := bytes2word (f2 p) p p (f3 p).
Definition u1 (p : Z) : Z := bytes2word (f3 p) (f2 p) p p.
Definition u2 (p : Z) : Z := bytes2word p (f3 p) (f2 p) p.
Definition u3 (p : Z) : Z := bytes2word p p (f3 p) (f2 p).

Definition v0 (p : Z) : Z := bytes2word (fe p) (f9 p) (fd p) (fb p).
Definition v1 (p : Z) : Z := bytes2word (fb p) (fe p) (f9 p) (fd p).
Definition v2 (p : Z) : Z := bytes2word (fd p) (fb p) (fe p) (f9 p).
Definition v3 (p : Z) : Z := bytes2word (f9 p) (fd p) (fb p) (fe p).

(** * The tables *)

Definition sb_data (w : Z -> Z) : list Z := map w
  [0x63; 0x7c; 0x77; 0x7b; 0xf2; 0x6b; 0x6f; 0xc5; 0x30; 0x01; 0x67; 0x2b; 0xfe; 0xd7; 0xab; 0x76;
   0xca; 0x82; 0xc9; 0x7d; 0xfa; 0x59; 0x47; 0xf0; 0xad; 0xd4; 0xa2; 0xaf; 0x9c; 0xa4; 0x72; 0xc0;
   0xb7; 0xfd; 0x93; 0x26; 0x36; 0x3f; 0xf7; 0xcc; 0x34; 0xa5; 0xe5; 0xf1; 0x71; 0xd8; 0x31; 0x15;
   0x04; 0xc7; 0x23; 0xc3; 0x18; 0x96; 0x05; 0x9a; 0x07; 0x12; 0x80; 0xe2; 0xeb; 0x27; 0xb2; 0x75;
   0x09; 0x83; 0x2c; 0x1a; 0x1b; 0x6e; 0x5a; 0xa0; 0x52; 0x3b; 0xd6; 0xb3; 0x29; 0xe3; 0x2f; 0x84;
   0x53; 0xd1; 0x00; 0xed; 0x20; 0xfc; 0xb1; 0x5b; 0x6a; 0xcb; 0xbe; 0x39; 0x4a; 0x4c; 0x58; 0xcf;
   0xd0; 0xef; 0xaa; 0xfb; 0x43; 0x4d; 0x33; 0x85; 0x45; 0xf9; 0x02; 0x7f; 0x50; 0x3c; 0x9f; 0xa8;
   0x51; 0xa3; 0x40; 0x8f; 0x92; 0x9d; 0x38; 0xf5; 0xbc; 0xb6; 0xda; 0x21; 0x10; 0xff; 0xf3; 0xd2;
   0xcd; 0x0c; 0x13; 0xec; 0x5f; 0x97; 0x44; 0x17; 0xc4; 0xa7; 0x7e; 0x3d; 0x64; 0x5d; 0x19; 0x73;
   0x60; 0x81; 0x4f; 0xdc; 0x22; 0x2a; 0x90; 0x88; 0x46; 0xee; 0xb8; 0x14; 0xde; 0x5e; 0x0b; 0xdb;
   0xe0; 0x32; 0x3a; 0x0a; 0x49; 0x06; 0x24; 0x5c; 0xc2; 0xd3; 0xac; 0x62; 0x91; 0x95; 0xe4; 0x79;
   0xe7; 0xc8; 0x37; 0x6d; 0x8d; 0xd5; 0x4e; 0xa9; 0x6c; 0x56; 0xf4; 0xea; 0x65; 0x7a; 0xae; 0x08;
   0xba; 0x78; 0x25; 0x2e; 0x1c; 0xa6; 0xb4; 0xc6; 0xe8; 0xdd; 0x74; 0x1f; 0x4b; 0xbd; 0x8b; 0x8a;
   0x70; 0x3e; 0xb5; 0x66; 0x48; 0x03; 0xf6; 0x0e; 0x61; 0x35; 0x57; 0xb9; 0x86; 0xc1; 0x1d; 0x9e;
   0xe1; 0xf8; 0x98; 0x11; 0x69; 0xd9; 0x8e; 0x94; 0x9b; 0x1e; 0x87; 0xe9; 0xce; 0x55; 0x28; 0xdf;
   0x8c; 0xa1; 0x89; 0x0d; 0xbf; 0xe6; 0x42; 0x68; 0x41; 0x99; 0x2d; 0x0f; 0xb0; 0x54; 0xbb; 0x16].

Definition isb_data (w : Z -> Z) : list Z := map w
  [0x52; 0x09; 0x6a; 0xd5; 0x30; 0x36; 0xa5; 0x38; 0xbf; 0x40; 0xa3; 0x9e; 0x81; 0xf3; 0xd7; 0xfb;
   0x7c; 0xe3; 0x39; 0x82; 0x9b; 0x2f; 0xff; 0x87; 0x34; 0x8e; 0x43; 0x44; 0xc4; 0xde; 0xe9; 0xcb;
   0x54; 0x7b; 0x94; 0x32; 0xa6; 0xc2; 0x23; 0x3d; 0xee; 0x4c; 0x95; 0x0b; 0x42; 0xfa; 0xc3; 0x4e;
   0x08; 0x2e; 0xa1; 0x66; 0x28; 0xd9; 0x24; 0xb2; 0x76; 0x5b; 0xa2; 0x49; 0x6d; 0x8b; 0xd1; 0x25;
   0x72; 0xf8; 0xf6; 0x64; 0x86; 0x68; 0x98; 0x16; 0xd4; 0xa4; 0x5c; 0xcc; 0x5d; 0x65; 0xb6; 0x92;
   0x6c; 0x70; 0x48; 0x50; 0xfd; 0xed; 0xb9; 0xda; 0x5e; 0x15; 0x46; 0x57; 0xa7; 0x8d; 0x9d; 0x84;
   0x90; 0xd8; 0xab; 0x00; 0x8c; 0xbc; 0xd3; 0x0a; 0xf7; 0xe4; 0x58; 0x05; 0xb8; 0xb3; 0x45; 0x06;
   0xd0; 0x2c; 0x1e; 0x8f; 0xca; 0x3f; 0x0f; 0x02; 0xc1; 0xaf; 0xbd; 0x03; 0x01; 0x13; 0x8a; 0x6b;
   0x3a; 0x91; 0x11; 0x41; 0x4f; 0x67; 0xdc; 0xea; 0x97; 0xf2; 0xcf; 0xce; 0xf0; 0xb4; 0xe6; 0x73;
   0x96; 0xac; 0x74; 0x22; 0xe7; 0xad; 0x35; 0x85; 0xe2; 0xf9; 0x37; 0xe8; 0x1c; 0x75; 0xdf; 0x6e;
   0x47; 0xf1; 0x1a; 0x71; 0x1d; 0x29; 0xc5; 0x89; 0x6f; 0xb7; 0x62; 0x0e; 0xaa; 0x18; 0xbe; 0x1b;
   0xfc; 0x56; 0x3e; 0x4b; 0xc6; 0xd2; 0x79; 0x20; 0x9a; 0xdb; 0xc0; 0xfe; 0x78; 0xcd; 0x5a; 0xf4;
   0x1f; 0xdd; 0xa8; 0x33; 0x88; 0x07; 0xc7; 0x31; 0xb1; 0x12; 0x10; 0x59; 0x27; 0x80; 0xec; 0x5f;
   0x60; 0x51; 0x7f; 0xa9; 0x19; 0xb5; 0x4a; 0x0d; 0x2d; 0xe5; 0x7a; 0x9f; 0x93; 0xc9; 0x9c; 0xef;
   0xa0; 0xe0; 0x3b; 0x4d; 0xae; 0x2a; 0xf5; 0xb0; 0xc8; 0xeb; 0xbb; 0x3c; 0x83; 0x53; 0x99; 0x61;
   0x17; 0x2b; 0x04; 0x7e; 0xba; 0x77; 0xd6; 0x26; 0xe1; 0x69; 0x14; 0x63; 0x55; 0x21; 0x0c; 0x7d].

Definition mm_data (w : Z -> Z) : list Z := map w
  [0x00; 0x01; 0x02; 0x03; 0x04; 0x05; 0x06; 0x07; 0x08; 0x09; 0x0a; 0x0b; 0x0c; 0x0d; 0x0e; 0x0f;
   0x10; 0x11; 0x12; 0x13; 0x14; 0x15; 0x16; 0x17; 0x18; 0x19; 0x1a; 0x1b; 0x1c; 0x1d; 0x1e; 0x1f;
   0x20; 0x21; 0x22; 0x23; 0x24; 0x25; 0x26; 0x27; 0x28; 0x29; 0x2a; 0x2b; 0x2c; 0x2d; 0x2e; 0x2f;
   0x30; 0x31; 0x32; 0x33; 0x34; 0x35; 0x36; 0x37; 0x38; 0x39; 0x3a; 0x3b; 0x3c; 0x3d; 0x3e; 0x3f;
   0x40; 0x41; 0x42; 0x43; 0x44; 0x45; 0x46; 0x47; 0x48; 0x49; 0x4a; 0x4b; 0x4c; 0x4d; 0x4e; 0x4f;
   0x50; 0x51; 0x52; 0x53; 0x54; 0x55; 0x56; 0x57; 0x58; 0x59; 0x5a; 0x5b; 0x5c; 0x5d; 0x5e; 0x5f;
   0x60; 0x61; 0x62; 0x63; 0x64; 0x65; 0x66; 0x67; 0x68; 0x69; 0x6a; 0x6b; 0x6c; 0x6d; 0x6e; 0x6f;
   0x70; 0x71; 0x72; 0x73; 0x74; 0x75; 0x76; 0x77; 0x78; 0x79; 0x7a; 0x7b; 0x7c; 0x7d; 0x7e; 0x7f;
   0x80; 0x81; 0x82; 0x83; 0x84; 0x85; 0x86; 0x87; 0x88; 0x89; 0x8a; 0x8b; 0x8c; 0x8d; 0x8e; 0x8f;
   0x90; 0x91; 0x92; 0x93; 0x94; 0x95; 0x96; 0x97; 0x98; 0x99; 0x9a; 0x9b; 0x9c; 0x9d; 0x9e; 0x9f;
   0xa0; 0xa1; 0xa2; 0xa3; 0xa4; 0xa5; 0xa6; 0xa7; 0xa8; 0xa9; 0xaa; 0xab; 0xac; 0xad; 0xae; 0xaf;
   0xb0; 0xb1; 0xb2; 0xb3; 0xb4; 0xb5; 0xb6; 0xb7; 0xb8; 0xb9; 0xba; 0xbb; 0xbc; 0xbd; 0xbe; 0xbf;
   0xc0; 0xc1; 0xc2; 0xc3; 0xc4; 0xc5; 0xc6; 0xc7; 0xc8; 0xc9; 0xca; 0xcb; 0xcc; 0xcd; 0xce; 0xcf;
   0xd0; 0xd1; 0xd2; 0xd3; 0xd4; 0xd5; 0xd6; 0xd7; 0xd8; 0xd9; 0xda; 0xdb; 0xdc; 0xdd; 0xde; 0xdf;
   0xe0; 0xe1; 0xe2; 0xe3; 0xe4; 0xe5; 0xe6; 0xe7; 0xe8; 0xe9; 0xea; 0xeb; 0xec; 0xed; 0xee; 0xef;
   0xf0; 0xf1; 0xf2; 0xf3; 0xf4; 0xf5; 0xf6; 0xf7; 0xf8; 0xf9; 0xfa; 0xfb; 0xfc; 0xfd; 0xfe; 0xff].

Definition rc_data (w : Z -> Z) : list Z := map w
  [0x01; 0x02; 0x04; 0x08; 0x10; 0x20; 0x40; 0x80; 0x1b; 0x36].

Definition t_rc : list Z := rc_data w0.
Definition t_fn : list (list Z) := [sb_data u0; sb_data u1; sb_data u2; sb_data u3].
Definition t_fl : list (list Z) := [sb_data w0; sb_data w1; sb_data w2; sb_data w3].
Definition t_in : list (list Z) := [isb_data v0; isb_data v1; isb_data v2; isb_data v3].
Definition t_il : list (list Z) := [isb_data w0; isb_data w1; isb_data w2; isb_data w3].
Definition t_im : list (list Z) := [mm_data v0; mm_data v1; mm_data v2; mm_data v3].

(** [tab[r][b]] *)
Definition tab_at (tab : list (list Z)) (r b : Z) : Z := byte_at (nth (Z.to_nat r) tab []) b.

Definition four_tables {X} (x : X) (tab : list (list Z)) (vf : X -> Z -> Z -> Z)
    (rf : Z -> Z -> Z) (c : Z) : Z :=
  Z.lxor (Z.lxor (Z.lxor (tab_at tab 0 (bval (vf x 0 c) (rf 0 c)))
    (tab_at tab 1 (bval (vf x 1 c) (rf 1 c))))
    (tab_at tab 2 (bval (vf x 2 c) (rf 2 c))))
    (tab_at tab 3 (bval (vf x 3 c) (rf 3 c))).

Definition vf1 (x r c : Z) : Z := x.
Definition rf1 (r c : Z) : Z := r.
Definition rf2 (r c : Z) : Z := Z.land (8 + r - c) 3.

Definition ls_box (x c : Z) : Z := four_tables x t_fl vf1 rf2 c.
Definition inv_mcol (x : Z) : Z := four_tables x t_im vf1 rf1 0.
Definition ff (x : Z) : Z := inv_mcol x.

(** * The key schedule of encryption *)

(** [x[i] ^= y] *)
Definition xor_at (x : list Z) (i y : Z) : list Z := put x i (Z.lxor (s x i) y).

(** [k[n] = ss[i] ^= y], on the arrays [k] and [ss]. *)
Definition ks_step (p : list Z * list Z) (n i y : Z) : list Z * list Z :=
  let ss := xor_at p.2 i y in (put p.1 n (s ss i), ss).

Definition ke4 (p : list Z * list Z) (i : Z) : list Z * list Z :=
  let p := ks_step p (4 * i + 4) 0 (Z.lxor (ls_box (s p.2 3) 3) (s t_rc i)) in
  let p := ks_step p (4 * i + 5) 1 (s p.2 0) in
  let p := ks_step p (4 * i + 6) 2 (s p.2 1) in
  ks_step p (4 * i + 7) 3 (s p.2 2).

(** [cx->ks[i] = ss[i] = word_in(key, i)] for the [n] words of the key, [ss] an
    array of [m] words not yet set. *)
Definition key_in (key : list Z) (n : nat) (m : Z) (k : list Z) : list Z * list Z :=
  fold_left (fun p i => (put p.1 i (word_in key i), put p.2 i (word_in key i)))
    (map Z.of_nat (seq 0 n)) (k, zrepeat indet m).

(** What the key schedules leave: [inf.l = 0; inf.b[0] = nr * 16]. *)
Definition ks_out (cx : aes_ctx) (k : list Z) (nr : Z) : aes_ctx :=
  {| ks := k; b0 := u8 (nr * 16); b2 := 0; pad := pad cx |}.

Definition aes_encrypt_key128 (key : list Z) (cx : aes_ctx) : aes_ctx :=
  let p := key_in key 4 4 (ks cx) in
  let p := ke4 p 0 in let p := ke4 p 1 in
  let p := ke4 p 2 in let p := ke4 p 3 in
  let p := ke4 p 4 in let p := ke4 p 5 in
  let p := ke4 p 6 in let p := ke4 p 7 in
  let p := ke4 p 8 in
  let p := ke4 p 9 in
  ks_out cx p.1 10.

Definition kef6 (p : list Z * list Z) (i : Z) : list Z * list Z :=
  let p := ks_step p (6 * i + 6) 0 (Z.lxor (ls_box (s p.2 5) 3) (s t_rc i)) in
  let p := ks_step p (6 * i + 7) 1 (s p.2 0) in
  let p := ks_step p (6 * i + 8) 2 (s p.2 1) in
  ks_step p (6 * i + 9) 3 (s p.2 2).

Definition ke6 (p : list Z * list Z) (i : Z) : list Z * list Z :=
  let p := kef6 p i in
  let p := ks_step p (6 * i + 10) 4 (s p.2 3) in
  ks_step p (6 * i + 11) 5 (s p.2 4).

Definition aes_encrypt_key192 (key : list Z) (cx : aes_ctx) : aes_ctx :=
  let p := key_in key 6 6 (ks cx) in
  let p := ke6 p 0 in let p := ke6 p 1 in
  let p := ke6 p 2 in let p := ke6 p 3 in
  let p := ke6 p 4 in let p := ke6 p 5 in
  let p := ke6 p 6 in
  let p := kef6 p 7 in
  ks_out cx p.1 12.

Definition kef8 (p : list Z * list Z) (i : Z) : list Z * list Z :=
  let p := ks_step p (8 * i + 8) 0 (Z.lxor (ls_box (s p.2 7) 3) (s t_rc i)) in
  let p := ks_step p (8 * i + 9) 1 (s p.2 0) in
  let p := ks_step p (8 * i + 10) 2 (s p.2 1) in
  ks_step p (8 * i + 11) 3 (s p.2 2).

Definition ke8 (p : list Z * list Z) (i : Z) : list Z * list Z :=
  let p := kef8 p i in
  let p := ks_step p (8 * i + 12) 4 (ls_box (s p.2 3) 0) in
  let p := ks_step p (8 * i + 13) 5 (s p.2 4) in
  let p := ks_step p (8 * i + 14) 6 (s p.2 5) in
  ks_step p (8 * i + 15) 7 (s p.2 6).

Definition aes_encrypt_key256 (key : list Z) (cx : aes_ctx) : aes_ctx :=
  let p := key_in key 8 8 (ks cx) in
  let p := ke8 p 0 in let p := ke8 p 1 in
  let p := ke8 p 2 in let p := ke8 p 3 in
  let p := ke8 p 4 in let p := ke8 p 5 in
  let p := kef8 p 6 in
  ks_out cx p.1 14.

(** Any other length leaves the context as it is. *)
Definition aes_encrypt_key (key : list Z) (key_len : Z) (cx : aes_ctx) : aes_ctx :=
  if (key_len =? 16) || (key_len =? 128) then aes_encrypt_key128 key cx
  else if (key_len =? 24) || (key_len =? 192) then aes_encrypt_key192 key cx
  else if (key_len =? 32) || (key_len =? 256) then aes_encrypt_key256 key cx
  else cx.

(** * The key schedule of decryption *)

Definition v (n i : Z) : Z := n - i + 2 * Z.land i 3.

(** [ss[i] ^= y; k[n] = ff(ss[i])] *)
Definition ks_step_ff (p : list Z * list Z) (n i y : Z) : list Z * list Z :=
  let ss := xor_at p.2 i y in (put p.1 n (ff (s ss i)), ss).

Definition kdf4 (p : list Z * list Z) (i : Z) : list Z * list Z :=
  let '(k, ss) := p in
  let ss := put ss 0 (Z.lxor (Z.lxor (Z.lxor (s ss 0) (s ss 2)) (s ss 1)) (s ss 3)) in
  let ss := put ss 1 (Z.lxor (s ss 1) (s ss 3)) in
  let ss := put ss 2 (Z.lxor (s ss 2) (s ss 3)) in
  let ss := put ss 4 (Z.lxor (ls_box (s ss ((i + 3) mod 4)) 3) (s t_rc i)) in
  let ss := xor_at ss (i mod 4) (s ss 4) in
  let p := (k, ss) in
  let p := ks_step_ff p (v 40 (4 * i + 4)) 4 (s p.1 (v 40 (4 * i))) in
  let p := ks_step_ff p (v 40 (4 * i + 5)) 4 (s p.1 (v 40 (4 * i + 1))) in
  let p := ks_step_ff p (v 40 (4 * i + 6)) 4 (s p.1 (v 40 (4 * i + 2))) in
  ks_step_ff p (v 40 (4 * i + 7)) 4 (s p.1 (v 40 (4 * i + 3))).

Definition kd4 (p : list Z * list Z) (i : Z) : list Z * list Z :=
  let '(k, ss) := p in
  let ss := put ss 4 (Z.lxor (ls_box (s ss ((i + 3) mod 4)) 3) (s t_rc i)) in
  let ss := xor_at ss (i mod 4) (s ss 4) in
  let ss := put ss 4 (ff (s ss 4)) in
  let p := (k, ss) in
  let p := ks_step p (v 40 (4 * i + 4)) 4 (s p.1 (v 40 (4 * i))) in
  let p := ks_step p (v 40 (4 * i + 5)) 4 (s p.1 (v 40 (4 * i + 1))) in
  let p := ks_step p (v 40 (4 * i + 6)) 4 (s p.1 (v 40 (4 * i + 2))) in
  ks_step p (v 40 (4 * i + 7)) 4 (s p.1 (v 40 (4 * i + 3))).

Definition kdl4 (p : list Z * list Z) (i : Z) : list Z * list Z :=
  let '(k, ss) := p in
  let ss := put ss 4 (Z.lxor (ls_box (s ss ((i + 3) mod 4)) 3) (s t_rc i)) in
  let ss := xor_at ss (i mod 4) (s ss 4) in
  let ss := xor_at ss 0 (s ss 1) in
  let k := put k (v 40 (4 * i + 4)) (Z.lxor (Z.lxor (s ss 0) (s ss 2)) (s ss 3)) in
  let k := put k (v 40 (4 * i + 5)) (Z.lxor (s ss 1) (s ss 3)) in
  let k := put k (v 40 (4 * i + 6)) (s ss 0) in
  let k := put k (v 40 (4 * i + 7)) (s ss 1) in
  (k, ss).

(** [cx->ks[v(n,i)] = g(ss[i]); ss[i] = word_in(key, i)]: the words of the key
    that are in the first round key as they are, the others through [ff]. *)
Definition dkey_in (key : list Z) (n : nat) (m kn : Z) (k : list Z) : list Z * list Z :=
  fold_left (fun p i =>
      let w := word_in key i in
      (put p.1 (v kn i) (if i <? 4 then w else ff w), put p.2 i w))
    (map Z.of_nat (seq 0 n)) (k, zrepeat indet m).

Definition aes_decrypt_key128 (key : list Z) (cx : aes_ctx) : aes_ctx :=
  let p := dkey_in key 4 5 40 (ks cx) in
  let p := kdf4 p 0 in let p := kd4 p 1 in
  let p := kd4 p 2 in let p := kd4 p 3 in
  let p := kd4 p 4 in let p := kd4 p 5 in
  let p := kd4 p 6 in let p := kd4 p 7 in
  let p := kd4 p 8 in let p := kdl4 p 9 in
  ks_out cx p.1 10.

Definition kdf6 (p : list Z * list Z) (i : Z) : list Z * list Z :=
  let p := ks_step_ff p (v 48 (6 * i + 6)) 0 (Z.lxor (ls_box (s p.2 5) 3) (s t_rc i)) in
  let p := ks_step_ff p (v 48 (6 * i + 7)) 1 (s p.2 0) in
  let p := ks_step_ff p (v 48 (6 * i + 8)) 2 (s p.2 1) in
  let p := ks_step_ff p (v 48 (6 * i + 9)) 3 (s p.2 2) in
  let p := ks_step_ff p (v 48 (6 * i + 10)) 4 (s p.2 3) in
  ks_step_ff p (v 48 (6 * i + 11)) 5 (s p.2 4).

(** [ss[j] ^= y; k[v(n,b+j)] = ss[t] ^= k[v(n,a+j)]] *)
Definition kd_next (n t a b j : Z) (p : list Z * list Z) : list Z * list Z :=
  let '(k, ss) := p in
  let ss := xor_at ss j (s ss (j - 1)) in
  ks_step (k, ss) (v n (b + j)) t (s k (v n (a + j))).

(** [ss[t] = y; ss[j] ^= ss[t]; ss[t] = ff(ss[t]);
     k[v(n,b+j)] = ss[t] ^= k[v(n,a+j)]] *)
Definition kd_first (n t a b j y : Z) (p : list Z * list Z) : list Z * list Z :=
  let '(k, ss) := p in
  let ss := put ss t y in
  let ss := xor_at ss j (s ss t) in
  let ss := put ss t (ff (s ss t)) in
  ks_step (k, ss) (v n (b + j)) t (s k (v n (a + j))).

Definition kd6 (p : list Z * list Z) (i : Z) : list Z * list Z :=
  let p := kd_first 48 6 (6 * i) (6 * i + 6) 0 (Z.lxor (ls_box (s p.2 5) 3) (s t_rc i)) p in
  let p := kd_next 48 6 (6 * i) (6 * i + 6) 1 p in
  let p := kd_next 48 6 (6 * i) (6 * i + 6) 2 p in
  let p := kd_next 48 6 (6 * i) (6 * i + 6) 3 p in
  let p := kd_next 48 6 (6 * i) (6 * i + 6) 4 p in
  kd_next 48 6 (6 * i) (6 * i + 6) 5 p.

Definition kdl6 (p : list Z * list Z) (i : Z) : list Z * list Z :=
  let p := ks_step p (v 48 (6 * i + 6)) 0 (Z.lxor (ls_box (s p.2 5) 3) (s t_rc i)) in
  let p := ks_step p (v 48 (6 * i + 7)) 1 (s p.2 0) in
  let p := ks_step p (v 48 (6 * i + 8)) 2 (s p.2 1) in
  ks_step p (v 48 (6 * i + 9)) 3 (s p.2 2).

Definition aes_decrypt_key192 (key : list Z) (cx : aes_ctx) : aes_ctx :=
  let p := dkey_in key 6 7 48 (ks cx) in
  let p := kdf6 p 0 in let p := kd6 p 1 in
  let p := kd6 p 2 in let p := kd6 p 3 in
  let p := kd6 p 4 in let p := kd6 p 5 in
  let p := kd6 p 6 in let p := kdl6 p 7 in
  ks_out cx p.1 12.

Definition kdf8 (p : list Z * list Z) (i : Z) : list Z * list Z :=
  let p := ks_step_ff p (v 56 (8 * i + 8)) 0 (Z.lxor (ls_box (s p.2 7) 3) (s t_rc i)) in
  let p := ks_step_ff p (v 56 (8 * i + 9)) 1 (s p.2 0) in
  let p := ks_step_ff p (v 56 (8 * i + 10)) 2 (s p.2 1) in
  let p := ks_step_ff p (v 56 (8 * i + 11)) 3 (s p.2 2) in
  let p := ks_step_ff p (v 56 (8 * i + 12)) 4 (ls_box (s p.2 3) 0) in
  let p := ks_step_ff p (v 56 (8 * i + 13)) 5 (s p.2 4) in
  let p := ks_step_ff p (v 56 (8 * i + 14)) 6 (s p.2 5) in
  ks_step_ff p (v 56 (8 * i + 15)) 7 (s p.2 6).

Definition kd8 (p : list Z * list Z) (i : Z) : list Z * list Z :=
  let p := kd_first 56 8 (8 * i) (8 * i + 8) 0 (Z.lxor (ls_box (s p.2 7) 3) (s t_rc i)) p in
  let p := kd_next 56 8 (8 * i) (8 * i + 8) 1 p in
  let p := kd_next 56 8 (8 * i) (8 * i + 8) 2 p in
  let p := kd_next 56 8 (8 * i) (8 * i + 8) 3 p in
  let p := kd_first 56 8 (8 * i) (8 * i + 8) 4 (ls_box (s p.2 3) 0) p in
  let p := kd_next 56 8 (8 * i) (8 * i + 8) 5 p in
  let p := kd_next 56 8 (8 * i) (8 * i + 8) 6 p in
  kd_next 56 8 (8 * i) (8 * i + 8) 7 p.

Definition kdl8 (p : list Z * list Z) (i : Z) : list Z * list Z :=
  let p := ks_step p (v 56 (8 * i + 8)) 0 (Z.lxor (ls_box (s p.2 7) 3) (s t_rc i)) in
  let p := ks_step p (v 56 (8 * i + 9)) 1 (s p.2 0) in
  let p := ks_step p (v 56 (8 * i + 10)) 2 (s p.2 1) in
  ks_step p (v 56 (8 * i + 11)) 3 (s p.2 2).

Definition aes_decrypt_key256 (key : list Z) (cx : aes_ctx) : aes_ctx :=
  let p := dkey_in key 8 9 56 (ks cx) in
  let p := kdf8 p 0 in let p := kd8 p 1 in
  let p := kd8 p 2 in let p := kd8 p 3 in
  let p := kd8 p 4 in let p := kd8 p 5 in
  let p := kdl8 p 6 in
  ks_out cx p.1 14.

Definition aes_decrypt_key (key : list Z) (key_len : Z) (cx : aes_ctx) : aes_ctx :=
  if (key_len =? 16) || (key_len =? 128) then aes_decrypt_key128 key cx
  else if (key_len =? 24) || (key_len =? 192) then aes_decrypt_key192 key cx
  else if (key_len =? 32) || (key_len =? 256) then aes_decrypt_key256 key cx
  else cx.

(** * The block functions *)

(** [state_in(y,x,k)]: [si] for each of the columns. *)
Definition state_in (x k : list Z) : list Z :=
  [Z.lxor (word_in x 0) (s k 0); Z.lxor (word_in x 1) (s k 1);
   Z.lxor (word_in x 2) (s k 2); Z.lxor (word_in x 3) (s k 3)].

Definition state_out (x : list Z) : list Z :=
  word_out (s x 0) ++ word_out (s x 1) ++ word_out (s x 2) ++ word_out (s x 3).

(** [round(rm,y,x,k)]: the array [y] it fills, from [x]. *)
Definition round (rm : list Z -> list Z -> Z -> Z) (x k : list Z) : list Z :=
  [rm x k 0; rm x k 1; rm x k 2; rm x k 3].

Definition fwd_var (x : list Z) (r c : Z) : Z :=
  if r =? 0 then if c =? 0 then s x 0 else if c =? 1 then s x 1 else if c =? 2 then s x 2 else s x 3
  else if r =? 1 then if c =? 0 then s x 1 else if c =? 1 then s x 2 else if c =? 2 then s x 3 else s x 0
  else if r =? 2 then if c =? 0 then s x 2 else if c =? 1 then s x 3 else if c =? 2 then s x 0 else s x 1
  else if c =? 0 then s x 3 else if c =? 1 then s x 0 else if c =? 2 then s x 1 else s x 2.

Definition fwd_rnd (x k : list Z) (c : Z) : Z :=
  Z.lxor (s k c) (four_tables x t_fn fwd_var rf1 c).

Definition fwd_lrnd (x k : list Z) (c : Z) : Z :=
  Z.lxor (s k c) (four_tables x t_fl fwd_var rf1 c).

(** The cases of the switch, each falling through to the next; [kp] is
    advanced. *)
Definition enc_10 (x kp : list Z) : list Z :=
  let y := round fwd_rnd x (zdrop (1 * N_COLS) kp) in
  let x := round fwd_rnd y (zdrop (2 * N_COLS) kp) in
  let y := round fwd_rnd x (zdrop (3 * N_COLS) kp) in
  let x := round fwd_rnd y (zdrop (4 * N_COLS) kp) in
  let y := round fwd_rnd x (zdrop (5 * N_COLS) kp) in
  let x := round fwd_rnd y (zdrop (6 * N_COLS) kp) in
  let y := round fwd_rnd x (zdrop (7 * N_COLS) kp) in
  let x := round fwd_rnd y (zdrop (8 * N_COLS) kp) in
  let y := round fwd_rnd x (zdrop (9 * N_COLS) kp) in
  round fwd_lrnd y (zdrop (10 * N_COLS) kp).

Definition enc_12 (x kp : list Z) : list Z :=
  let y := round fwd_rnd x (zdrop (1 * N_COLS) kp) in
  let x := round fwd_rnd y (zdrop (2 * N_COLS) kp) in
  enc_10 x (zdrop (2 * N_COLS) kp).

Definition enc_14 (x kp : list Z) : list Z :=
  let y := round fwd_rnd x (zdrop (1 * N_COLS) kp) in
  let x := round fwd_rnd y (zdrop (2 * N_COLS) kp) in
  enc_12 x (zdrop (2 * N_COLS) kp).

Definition aes_encrypt (in_ : list Z) (cx : aes_ctx) : list Z :=
  let kp := ks cx in
  let x := state_in in_ kp in
  let x :=
    if b0 cx =? 14 * 16 then enc_14 x kp
    else if b0 cx =? 12 * 16 then enc_12 x kp
    else if b0 cx =? 10 * 16 then enc_10 x kp
    else x in
  state_out x.

Definition inv_var (x : list Z) (r c : Z) : Z :=
  if r =? 0 then if c =? 0 then s x 0 else if c =? 1 then s x 1 else if c =? 2 then s x 2 else s x 3
  else if r =? 1 then if c =? 0 then s x 3 else if c =? 1 then s x 0 else if c =? 2 then s x 1 else s x 2
  else if r =? 2 then if c =? 0 then s x 2 else if c =? 1 then s x 3 else if c =? 2 then s x 0 else s x 1
  else if c =? 0 then s x 1 else if c =? 1 then s x 2 else if c =? 2 then s x 3 else s x 0.

Definition inv_rnd (x k : list Z) (c : Z) : Z :=
  Z.lxor (s k c) (four_tables x t_in inv_var rf1 c).

Definition inv_lrnd (x k : list Z) (c : Z) : Z :=
  Z.lxor (s k c) (four_tables x t_il inv_var rf1 c).

(** [rnd_key(n)], [kp] at word [ofs] of the array. *)
Definition rnd_key (k : list Z) (ofs n : Z) : list Z := zdrop (ofs + n * N_COLS) k.

Definition dec_10 (x k : list Z) (ofs : Z) : list Z :=
  let y := round inv_rnd x (rnd_key k ofs (-9)) in
  let x := round inv_rnd y (rnd_key k ofs (-8)) in
  let y := round inv_rnd x (rnd_key k ofs (-7)) in
  let x := round inv_rnd y (rnd_key k ofs (-6)) in
  let y := round inv_rnd x (rnd_key k ofs (-5)) in
  let x := round inv_rnd y (rnd_key k ofs (-4)) in
  let y := round inv_rnd x (rnd_key k ofs (-3)) in
  let x := round inv_rnd y (rnd_key k ofs (-2)) in
  let y := round inv_rnd x (rnd_key k ofs (-1)) in
  round inv_lrnd y (rnd_key k ofs 0).

Definition dec_12 (x k : list Z) (ofs : Z) : list Z :=
  let y := round inv_rnd x (rnd_key k ofs (-11)) in
  let x := round inv_rnd y (rnd_key k ofs (-10)) in
  dec_10 x k ofs.

Definition dec_14 (x k : list Z) (ofs : Z) : list Z :=
  let y := round inv_rnd x (rnd_key k ofs (-13)) in
  let x := round inv_rnd y (rnd_key k ofs (-12)) in
  dec_12 x k ofs.

Definition aes_decrypt (in_ : list Z) (cx : aes_ctx) : list Z :=
  let x := state_in in_ (ks cx) in
  let ofs := Z.shiftr (b0 cx) 2 in
  let x :=
    if b0 cx =? 14 * 16 then dec_14 x (ks cx) ofs
    else if b0 cx =? 12 * 16 then dec_12 x (ks cx) ofs
    else if b0 cx =? 10 * 16 then dec_10 x (ks cx) ofs
    else x in
  state_out x.

(** [memset(&aes->u.enc, 0, sizeof(aes->u.enc))], before aes_encrypt_key in
    silc_aes_ctr_set_key. *)
Definition aes_ctx0 : aes_ctx :=
  {| ks := zrepeat 0 KS_LENGTH; b0 := 0; b2 := 0; pad := zrepeat 0 16 |}.

(** The keys and the block of the vectors of FIPS-197, appendix C. *)
Definition fips_key (n : nat) : list Z := map Z.of_nat (seq 0 n).
Definition fips_in : list Z := map (fun i => Z.of_nat i * 17) (seq 0 16).
Definition ctx_any : aes_ctx := {| ks := zrepeat indet 60; b0 := 0; b2 := 0; pad := [] |}.
