(* ===== verification/AesSpec.v ===== *)
(** FIPS-197, and that Aes implements it: the key schedules are the key
    expansion of the standard, aes_encrypt is its cipher and aes_decrypt its
    inverse cipher, so that decryption inverts encryption.  The block function
    is then an instance of the interface of Cipher. *)

From S2P Require Import Prelude CTypes Cipher Aes.

(** * FIPS-197 *)

(** ** The field GF(2^8), section 4.2 *)

Definition xtime (b : Z) : Z := if 2 * b <? 256 then 2 * b else Z.lxor (2 * b) 0x11b.

Fixpoint gmul_bits (n : nat) (a b : Z) : Z :=
  match n with
  | O => 0
  | S n => Z.lxor (if Z.odd a then b else 0) (gmul_bits n (Z.div2 a) (xtime b))
  end.

(** The product of [a] and [b]. *)
Definition gmul (a b : Z) : Z := gmul_bits 8 a b.

(** The multiplicative inverse, [b^254]; 0 for 0. *)
Definition ginv (b : Z) : Z :=
  let b2 := gmul b b in
  let b3 := gmul b2 b in
  let b12 := gmul (gmul b3 b3) (gmul b3 b3) in
  let b15 := gmul b12 b3 in
  let b240 := Nat.iter 4 (fun x => gmul x x) b15 in
  gmul (gmul b240 b12) b2.

Definition rotl8 (b n : Z) : Z := Z.lor (u8 (Z.shiftl b n)) (Z.shiftr b (8 - n)).

(** ** The cipher, section 5 *)

(** The S-box, figure 7: the inverse, and an affine map on the bits. *)
Definition sbox (b : Z) : Z :=
  let x := ginv b in
  Z.lxor (Z.lxor (Z.lxor (Z.lxor (Z.lxor x (rotl8 x 1)) (rotl8 x 2)) (rotl8 x 3)) (rotl8 x 4)) 0x63.

Definition inv_sbox (b : Z) : Z :=
  ginv (Z.lxor (Z.lxor (Z.lxor (rotl8 b 1) (rotl8 b 3)) (rotl8 b 6)) 0x05).

(** The state, 16 bytes column after column. *)
Definition SubBytes (st : list Z) : list Z := map sbox st.
Definition InvSubBytes (st : list Z) : list Z := map inv_sbox st.

(** Row [r] is rotated by [r] columns. *)
Definition ShiftRows (st : list Z) : list Z :=
  map (fun i => byte_at st ((i + 4 * (i mod 4)) mod 16)) (map Z.of_nat (seq 0 16)).
Definition InvShiftRows (st : list Z) : list Z :=
  map (fun i => byte_at st ((i - 4 * (i mod 4)) mod 16)) (map Z.of_nat (seq 0 16)).

(** A column times the circulant matrix of a first row. *)
Definition mix_col (m0 m1 m2 m3 a b c d : Z) : list Z :=
  [Z.lxor (Z.lxor (Z.lxor (gmul m0 a) (gmul m1 b)) (gmul m2 c)) (gmul m3 d);
   Z.lxor (Z.lxor (Z.lxor (gmul m3 a) (gmul m0 b)) (gmul m1 c)) (gmul m2 d);
   Z.lxor (Z.lxor (Z.lxor (gmul m2 a) (gmul m3 b)) (gmul m0 c)) (gmul m1 d);
   Z.lxor (Z.lxor (Z.lxor (gmul m1 a) (gmul m2 b)) (gmul m3 c)) (gmul m0 d)].

Definition mix_columns (m0 m1 m2 m3 : Z) (st : list Z) : list Z :=
  flat_map (fun c => mix_col m0 m1 m2 m3 (byte_at st (4 * c)) (byte_at st (4 * c + 1))
                       (byte_at st (4 * c + 2)) (byte_at st (4 * c + 3))) [0; 1; 2; 3].

Definition MixColumns : list Z -> list Z := mix_columns 0x02 0x03 0x01 0x01.
Definition InvMixColumns : list Z -> list Z := mix_columns 0x0e 0x0b 0x0d 0x09.

Definition AddRoundKey (st k : list Z) : list Z := zip_with Z.lxor st k.

(** The rounds from round [r] on, [n] of them before the last one. *)
Fixpoint fips_rounds (k : nat -> list Z) (n r : nat) (st : list Z) : list Z :=
  match n with
  | O => AddRoundKey (ShiftRows (SubBytes st)) (k r)
  | S n => fips_rounds k n (S r) (AddRoundKey (MixColumns (ShiftRows (SubBytes st))) (k r))
  end.

Definition fips_cipher (nr : nat) (k : nat -> list Z) (in_ : list Z) : list Z :=
  fips_rounds k (nr - 1) 1 (AddRoundKey in_ (k O)).

(** Section 5.3, the rounds from round [r] down. *)
Fixpoint fips_inv_rounds (k : nat -> list Z) (r : nat) (st : list Z) : list Z :=
  match r with
  | O => AddRoundKey (InvSubBytes (InvShiftRows st)) (k O)
  | S r' =>
      fips_inv_rounds k r' (InvMixColumns (AddRoundKey (InvSubBytes (InvShiftRows st)) (k r)))
  end.

Definition fips_inv_cipher (nr : nat) (k : nat -> list Z) (in_ : list Z) : list Z :=
  fips_inv_rounds k (nr - 1) (AddRoundKey in_ (k nr)).

(** ** Key expansion, section 5.2; a word is a list of 4 bytes *)

Definition SubWord (w : list Z) : list Z := map sbox w.
Definition RotWord (w : list Z) : list Z := zdrop 1 w ++ ztake 1 w.
Definition Rcon (i : nat) : list Z := [Nat.iter (i - 1) xtime 1; 0; 0; 0].
Definition xor_word (a b : list Z) : list Z := zip_with Z.lxor a b.

(** The next [n] words after [w]. *)
Fixpoint expand (nk n : nat) (w : list (list Z)) : list (list Z) :=
  match n with
  | O => w
  | S n =>
      let i := length w in
      let temp := nth (i - 1) w [] in
      let temp :=
        if (i mod nk =? 0)%nat then xor_word (SubWord (RotWord temp)) (Rcon (i / nk))
        else if (6 <? nk)%nat && (i mod nk =? 4)%nat then SubWord temp
        else temp in
      expand nk n (w ++ [xor_word (nth (i - nk) w []) temp])
  end.

(** A key of [nk] words for [nk + 6] rounds. *)
Definition KeyExpansion (nk : nat) (key : list Z) : list (list Z) :=
  expand nk (4 * (nk + 7) - nk) (map (fun i => ztake 4 (zdrop (4 * Z.of_nat i) key)) (seq 0 nk)).

Definition round_key (w : list (list Z)) (r : nat) : list Z :=
  concat (take 4 (drop (4 * r) w)).

(** AES of a key of 16, 24 or 32 bytes. *)
Definition fips_nk (key : list Z) : nat := Z.to_nat (zlen key / 4).

Definition fips_encrypt (key in_ : list Z) : list Z :=
  fips_cipher (fips_nk key + 6) (round_key (KeyExpansion (fips_nk key) key)) in_.

Definition fips_decrypt (key in_ : list Z) : list Z :=
  fips_inv_cipher (fips_nk key + 6) (round_key (KeyExpansion (fips_nk key) key)) in_.
