(* ===== verification/AesField.v ===== *)
(** Lemmas on the field of AES, on the words of Aes as four bytes, and on its
    tables: an entry of a table is a column of the matrix of FIPS-197. *)

From S2P Require Import Prelude CTypes Cipher Aes AesSpec.
From Stdlib Require Import Btauto.

(** * Exclusive or *)

(** Equations of exclusive ors, bit by bit. *)
Ltac xor_solve :=
  apply Z.bits_inj'; let i := fresh "i" in intros i _; rewrite ?Z.lxor_spec, ?Z.bits_0;
  repeat match goal with |- context [Z.testbit ?x i] => generalize (Z.testbit x i); intro end;
  btauto.

Lemma is_byte_lxor a b : is_byte a -> is_byte b -> is_byte (Z.lxor a b).
Proof. apply (lxor_range 8); lia. Qed.

Lemma is_word_lxor a b : is_word a -> is_word b -> is_word (Z.lxor a b).
Proof. apply (lxor_range 32); lia. Qed.

#[export] Hint Resolve is_byte_lxor is_word_lxor : silc.

(** * The field *)

Ltac all_bytes b Hb :=
  apply Z.eqb_eq; revert b Hb; refine (byte_forall _ _); vm_compute; reflexivity.

Lemma xtime_alt b : is_byte b ->
  xtime b = Z.lxor (Z.shiftl b 1) (if Z.testbit b 7 then 0x11b else 0).
Proof. intros Hb. all_bytes b Hb. Qed.

Lemma xtime_byte b : is_byte b -> is_byte (xtime b).
Proof.
  intros Hb. assert ((0 <=? xtime b) && (xtime b <? 256) = true) as H.
  { revert b Hb. refine (byte_forall _ _). vm_compute. reflexivity. }
  apply andb_true_iff in H as [? ?]. unfold is_byte. lia.
Qed.

Lemma xtime_lxor a b : is_byte a -> is_byte b ->
  xtime (Z.lxor a b) = Z.lxor (xtime a) (xtime b).
Proof.
  intros Ha Hb. rewrite !xtime_alt by auto with silc.
  rewrite Z.lxor_spec, Z.shiftl_lxor.
  destruct (Z.testbit a 7), (Z.testbit b 7); cbn [xorb]; xor_solve.
Qed.

Lemma gmul_bits_lxor n m a b : is_byte a -> is_byte b ->
  gmul_bits n m (Z.lxor a b) = Z.lxor (gmul_bits n m a) (gmul_bits n m b).
Proof.
  revert m a b. induction n as [|n IH]; intros m a b Ha Hb; [done|]. cbn [gmul_bits].
  rewrite xtime_lxor, IH by auto using xtime_byte. destruct (Z.odd m); xor_solve.
Qed.

(** Multiplication distributes over the sum. *)
Lemma gmul_lxor m a b : is_byte a -> is_byte b ->
  gmul m (Z.lxor a b) = Z.lxor (gmul m a) (gmul m b).
Proof. apply gmul_bits_lxor. Qed.

Lemma gmul_bits_byte n m b : is_byte b -> is_byte (gmul_bits n m b).
Proof.
  revert m b. induction n as [|n IH]; intros m b Hb; [by unfold is_byte; cbn|].
  cbn [gmul_bits]. apply is_byte_lxor; [destruct (Z.odd m); [done|by unfold is_byte]|].
  apply IH. by apply xtime_byte.
Qed.

Lemma gmul_byte m b : is_byte b -> is_byte (gmul m b).
Proof. apply gmul_bits_byte. Qed.

Lemma gmul_1 b : is_byte b -> gmul 1 b = b.
Proof. intros Hb. all_bytes b Hb. Qed.

(** The S-boxes of the code are those of the standard. *)
Lemma sbox_table b : is_byte b -> sbox b = byte_at (sb_data (fun x => x)) b.
Proof. intros Hb. all_bytes b Hb. Qed.

Lemma inv_sbox_table b : is_byte b -> inv_sbox b = byte_at (isb_data (fun x => x)) b.
Proof. intros Hb. all_bytes b Hb. Qed.

Lemma sbox_byte b : is_byte b -> is_byte (sbox b).
Proof.
  intros Hb. rewrite sbox_table by done. unfold is_byte in Hb.
  apply byte_at_ok; [by apply bytes_ok_check|done].
Qed.

Lemma inv_sbox_byte b : is_byte b -> is_byte (inv_sbox b).
Proof.
  intros Hb. rewrite inv_sbox_table by done. unfold is_byte in Hb.
  apply byte_at_ok; [by apply bytes_ok_check|done].
Qed.

Lemma inv_sbox_sbox b : is_byte b -> inv_sbox (sbox b) = b.
Proof.
  intros Hb. rewrite inv_sbox_table, sbox_table by auto using sbox_byte. all_bytes b Hb.
Qed.

#[export] Hint Resolve gmul_byte sbox_byte inv_sbox_byte : silc.

(** The matrix of InvMixColumns is the inverse of that of MixColumns. *)
Lemma gmul_inv b : is_byte b ->
  Z.lxor (Z.lxor (Z.lxor (gmul 14 (gmul 2 b)) (gmul 11 (gmul 1 b))) (gmul 13 (gmul 1 b)))
    (gmul 9 (gmul 3 b)) = b /\
  Z.lxor (Z.lxor (Z.lxor (gmul 14 (gmul 3 b)) (gmul 11 (gmul 2 b))) (gmul 13 (gmul 1 b)))
    (gmul 9 (gmul 1 b)) = 0 /\
  Z.lxor (Z.lxor (Z.lxor (gmul 14 (gmul 1 b)) (gmul 11 (gmul 3 b))) (gmul 13 (gmul 2 b)))
    (gmul 9 (gmul 1 b)) = 0 /\
  Z.lxor (Z.lxor (Z.lxor (gmul 14 (gmul 1 b)) (gmul 11 (gmul 1 b))) (gmul 13 (gmul 3 b)))
    (gmul 9 (gmul 2 b)) = 0.
Proof. intros Hb. split_and!; all_bytes b Hb. Qed.

(** * Words as four bytes *)

Lemma bval_byte x n : is_byte (bval x n).
Proof. apply u8_range. Qed.

#[export] Hint Resolve bval_byte : silc.

Lemma bval_lxor x y n : 0 <= n -> bval (Z.lxor x y) n = Z.lxor (bval x n) (bval y n).
Proof.
  intros Hn. unfold bval, u8. rewrite Z.shiftr_lxor. rewrite <- !(Z.land_ones _ 8) by lia.
  apply Z.bits_inj'. intros i _. rewrite ?Z.land_spec, ?Z.lxor_spec, ?Z.land_spec.
  generalize (Z.testbit (Z.ones 8) i) (Z.testbit (Z.shiftr x (8 * n)) i)
    (Z.testbit (Z.shiftr y (8 * n)) i). intros; btauto.
Qed.

Lemma word_out_lxor x y : word_out (Z.lxor x y) = xor_word (word_out x) (word_out y).
Proof. unfold word_out, xor_word. cbn [zip_with]. by rewrite !bval_lxor by lia. Qed.

Lemma bytes2word_sum a b c d : is_byte a -> is_byte b -> is_byte c -> is_byte d ->
  bytes2word a b c d = a + 256 * b + 65536 * c + 16777216 * d.
Proof.
  unfold is_byte. intros. unfold bytes2word.
  rewrite !u32_id by (rewrite Z.shiftl_mul_pow2 by lia; lia).
  rewrite <- !Z.lor_assoc. rewrite (lor_shiftl_add b) by lia.
  rewrite (lor_shiftl_add c) by lia. rewrite (lor_shiftl_add d) by lia. lia.
Qed.

Lemma bytes2word_word a b c d : is_byte a -> is_byte b -> is_byte c -> is_byte d ->
  is_word (bytes2word a b c d).
Proof. intros. rewrite bytes2word_sum by done. unfold is_word, is_byte in *. lia. Qed.

Lemma bval_div x n : 0 <= n -> bval x n = (x / 2 ^ (8 * n)) mod 256.
Proof. intros. unfold bval, u8. by rewrite Z.shiftr_div_pow2 by lia. Qed.

Lemma word_out_bytes2word a b c d : is_byte a -> is_byte b -> is_byte c -> is_byte d ->
  word_out (bytes2word a b c d) = [a; b; c; d].
Proof.
  intros. rewrite bytes2word_sum by done. unfold word_out, is_byte in *.
  rewrite !bval_div by lia. change (2 ^ (8 * 0)) with 1. change (2 ^ (8 * 1)) with 256.
  change (2 ^ (8 * 2)) with 65536. change (2 ^ (8 * 3)) with 16777216.
  repeat f_equal; Z.div_mod_to_equations; lia.
Qed.

(** A word is given by its bytes. *)
Lemma word_out_inj x y : is_word x -> is_word y -> word_out x = word_out y -> x = y.
Proof.
  unfold is_word, word_out. intros Hx Hy [= E0 E1 E2 E3].
  rewrite !bval_div in E0, E1, E2, E3 by lia.
  change (2 ^ (8 * 0)) with 1 in *. change (2 ^ (8 * 1)) with 256 in *.
  change (2 ^ (8 * 2)) with 65536 in *. change (2 ^ (8 * 3)) with 16777216 in *.
  change (2 ^ 32) with 4294967296 in *. Z.div_mod_to_equations. lia.
Qed.

Lemma word_out_in x c : bytes_ok x -> 0 <= c -> 4 * c + 4 <= zlen x ->
  word_out (word_in x c) = ztake 4 (zdrop (4 * c) x).
Proof.
  intros Hx Hc Hl. unfold word_in. rewrite word_out_bytes2word by (apply byte_at_ok; [done|lia]).
  rewrite (byte_at_split x (4 * c)), (byte_at_split x (4 * c + 1)),
    (byte_at_split x (4 * c + 1 + 1)), (byte_at_split x (4 * c + 1 + 1 + 1)) by lia.
  replace (4 * c + 1 + 1) with (4 * c + 2) by lia. by replace (4 * c + 2 + 1) with (4 * c + 3) by lia.
Qed.

(** * The tables *)

(** The bytes of an entry [b] of the [r]-th table. *)
Ltac all_entries b Hb :=
  match goal with
  | |- ?l = ?r =>
      enough (bool_decide (l = r) = true) by (by eapply bool_decide_eq_true_1);
      revert b Hb; refine (byte_forall _ _); vm_compute; reflexivity
  end.

Lemma t_fn_bytes b : is_byte b ->
  word_out (tab_at t_fn 0 b) = [gmul 2 (sbox b); gmul 1 (sbox b); gmul 1 (sbox b); gmul 3 (sbox b)] /\
  word_out (tab_at t_fn 1 b) = [gmul 3 (sbox b); gmul 2 (sbox b); gmul 1 (sbox b); gmul 1 (sbox b)] /\
  word_out (tab_at t_fn 2 b) = [gmul 1 (sbox b); gmul 3 (sbox b); gmul 2 (sbox b); gmul 1 (sbox b)] /\
  word_out (tab_at t_fn 3 b) = [gmul 1 (sbox b); gmul 1 (sbox b); gmul 3 (sbox b); gmul 2 (sbox b)].
Proof. intros Hb. rewrite !sbox_table by done. split_and!; all_entries b Hb. Qed.

Lemma t_fl_bytes b : is_byte b ->
  word_out (tab_at t_fl 0 b) = [sbox b; 0; 0; 0] /\ word_out (tab_at t_fl 1 b) = [0; sbox b; 0; 0] /\
  word_out (tab_at t_fl 2 b) = [0; 0; sbox b; 0] /\ word_out (tab_at t_fl 3 b) = [0; 0; 0; sbox b].
Proof. intros Hb. rewrite !sbox_table by done. split_and!; all_entries b Hb. Qed.

Lemma t_in_bytes b : is_byte b ->
  word_out (tab_at t_in 0 b) = [gmul 14 (inv_sbox b); gmul 9 (inv_sbox b); gmul 13 (inv_sbox b); gmul 11 (inv_sbox b)] /\
  word_out (tab_at t_in 1 b) = [gmul 11 (inv_sbox b); gmul 14 (inv_sbox b); gmul 9 (inv_sbox b); gmul 13 (inv_sbox b)] /\
  word_out (tab_at t_in 2 b) = [gmul 13 (inv_sbox b); gmul 11 (inv_sbox b); gmul 14 (inv_sbox b); gmul 9 (inv_sbox b)] /\
  word_out (tab_at t_in 3 b) = [gmul 9 (inv_sbox b); gmul 13 (inv_sbox b); gmul 11 (inv_sbox b); gmul 14 (inv_sbox b)].
Proof. intros Hb. rewrite !inv_sbox_table by done. split_and!; all_entries b Hb. Qed.

Lemma t_il_bytes b : is_byte b ->
  word_out (tab_at t_il 0 b) = [inv_sbox b; 0; 0; 0] /\ word_out (tab_at t_il 1 b) = [0; inv_sbox b; 0; 0] /\
  word_out (tab_at t_il 2 b) = [0; 0; inv_sbox b; 0] /\ word_out (tab_at t_il 3 b) = [0; 0; 0; inv_sbox b].
Proof. intros Hb. rewrite !inv_sbox_table by done. split_and!; all_entries b Hb. Qed.

Lemma t_im_bytes b : is_byte b ->
  word_out (tab_at t_im 0 b) = [gmul 14 b; gmul 9 b; gmul 13 b; gmul 11 b] /\
  word_out (tab_at t_im 1 b) = [gmul 11 b; gmul 14 b; gmul 9 b; gmul 13 b] /\
  word_out (tab_at t_im 2 b) = [gmul 13 b; gmul 11 b; gmul 14 b; gmul 9 b] /\
  word_out (tab_at t_im 3 b) = [gmul 9 b; gmul 13 b; gmul 11 b; gmul 14 b].
Proof. intros Hb. split_and!; all_entries b Hb. Qed.

(** Every entry of a table is a word. *)
Definition words_ok (tab : list (list Z)) : bool :=
  forallb (fun l => (zlen l =? 256) && forallb (fun w => (0 <=? w) && (w <? 2 ^ 32)) l) tab.

Lemma tab_at_word tab r b :
  words_ok tab = true -> 0 <= r < zlen tab -> is_byte b -> is_word (tab_at tab r b).
Proof.
  unfold words_ok, is_byte. rewrite forallb_forall. intros H Hr Hb.
  assert (Z.to_nat r < length tab)%nat as Hi by lia.
  specialize (H (nth (Z.to_nat r) tab []) (nth_In _ _ Hi)).
  apply andb_true_iff in H as [Hl%Z.eqb_eq H]. rewrite forallb_forall in H.
  assert (Z.to_nat b < length (nth (Z.to_nat r) tab []))%nat as Hj by lia.
  specialize (H (tab_at tab r b) (nth_In _ _ Hj)).
  apply andb_true_iff in H as [? ?]. unfold is_word. lia.
Qed.

Lemma four_tables_word {X} (x : X) tab vf rf c :
  words_ok tab = true -> zlen tab = 4 -> is_word (four_tables x tab vf rf c).
Proof.
  intros Hw Hl. unfold four_tables.
  repeat apply is_word_lxor; (apply tab_at_word; [done|lia|apply bval_byte]).
Qed.

Lemma ls_box_word x c : is_word (ls_box x c).
Proof. by apply four_tables_word. Qed.

Lemma ff_word x : is_word (ff x).
Proof. by apply four_tables_word. Qed.

#[export] Hint Resolve ls_box_word ff_word : silc.
