(* ===== verification/AesRounds.v ===== *)
(** The rounds of aes_encrypt and aes_decrypt are those of FIPS-197, given that
    [cx->ks] holds the round keys, and the inverse cipher of FIPS-197 undoes the
    cipher. *)

From S2P Require Import Prelude CTypes Cipher Aes AesSpec AesField.
From Stdlib Require Import Btauto.

(** * The steps of FIPS-197 on a state written out *)

Lemma block_bytes st : is_block st -> exists a0 a1 a2 a3 a4 a5 a6 a7 a8 a9 a10 a11 a12 a13 a14 a15,
  st = [a0; a1; a2; a3; a4; a5; a6; a7; a8; a9; a10; a11; a12; a13; a14; a15] /\
  Forall is_byte [a0; a1; a2; a3; a4; a5; a6; a7; a8; a9; a10; a11; a12; a13; a14; a15].
Proof.
  intros [Hl Hb]. do 16 (destruct st as [|? st]; [exfalso; cbn [length] in Hl; lia|]).
  destruct st; [|exfalso; cbn [length] in Hl; lia]. by repeat eexists.
Qed.

Lemma ShiftRows_list a0 a1 a2 a3 a4 a5 a6 a7 a8 a9 a10 a11 a12 a13 a14 a15 :
  ShiftRows [a0; a1; a2; a3; a4; a5; a6; a7; a8; a9; a10; a11; a12; a13; a14; a15] =
    [a0; a5; a10; a15; a4; a9; a14; a3; a8; a13; a2; a7; a12; a1; a6; a11].
Proof. reflexivity. Qed.

Lemma InvShiftRows_list a0 a1 a2 a3 a4 a5 a6 a7 a8 a9 a10 a11 a12 a13 a14 a15 :
  InvShiftRows [a0; a1; a2; a3; a4; a5; a6; a7; a8; a9; a10; a11; a12; a13; a14; a15] =
    [a0; a13; a10; a7; a4; a1; a14; a11; a8; a5; a2; a15; a12; a9; a6; a3].
Proof. reflexivity. Qed.

Lemma mix_columns_list m0 m1 m2 m3 a0 a1 a2 a3 a4 a5 a6 a7 a8 a9 a10 a11 a12 a13 a14 a15 :
  mix_columns m0 m1 m2 m3 [a0; a1; a2; a3; a4; a5; a6; a7; a8; a9; a10; a11; a12; a13; a14; a15] =
    mix_col m0 m1 m2 m3 a0 a1 a2 a3 ++ mix_col m0 m1 m2 m3 a4 a5 a6 a7 ++
    mix_col m0 m1 m2 m3 a8 a9 a10 a11 ++ mix_col m0 m1 m2 m3 a12 a13 a14 a15.
Proof. reflexivity. Qed.

#[local] Opaque gmul sbox inv_sbox.

Ltac bytes_of H :=
  repeat match type of H with
  | Forall _ (_ :: _) => let H1 := fresh "B" in apply list.Forall_cons in H as [H1 H]
  end.

Ltac block_cases H := apply block_bytes in H as
  (? & ? & ? & ? & ? & ? & ? & ? & ? & ? & ? & ? & ? & ? & ? & ? & -> & H); bytes_of H.

(** * The inverse cipher undoes the cipher *)

Lemma SubBytes_block st : is_block st -> is_block (SubBytes st).
Proof.
  intros [Hl Hb]. split; [unfold SubBytes; by rewrite length_map|].
  unfold SubBytes. clear Hl. induction Hb; cbn [map]; constructor; auto with silc.
Qed.

Lemma ShiftRows_block st : is_block st -> is_block (ShiftRows st).
Proof.
  intros H. block_cases H. rewrite ShiftRows_list. split; [done|].
  repeat (apply list.Forall_cons; split; [done|]). done.
Qed.

Lemma mix_col_bytes m0 m1 m2 m3 a b c d : is_byte a -> is_byte b -> is_byte c -> is_byte d ->
  bytes_ok (mix_col m0 m1 m2 m3 a b c d).
Proof.
  intros. unfold mix_col.
  repeat (apply list.Forall_cons; split; [repeat apply is_byte_lxor; auto with silc|]). constructor.
Qed.

Lemma mix_columns_block m0 m1 m2 m3 st :
  is_block st -> is_block (mix_columns m0 m1 m2 m3 st).
Proof.
  intros H. block_cases H. rewrite mix_columns_list. split; [done|].
  repeat apply Forall_app_2; by apply mix_col_bytes.
Qed.

Lemma AddRoundKey_block st k : is_block st -> is_block k -> is_block (AddRoundKey st k).
Proof.
  intros [Hl Hb] [Hlk Hk]. split; [unfold AddRoundKey; rewrite length_zip_with; lia|].
  unfold AddRoundKey. clear Hl Hlk. revert k Hk. induction Hb; intros k Hk; [done|].
  destruct Hk; [done|]. cbn. constructor; auto with silc.
Qed.

Lemma AddRoundKey_twice st k : is_block st -> is_block k -> AddRoundKey (AddRoundKey st k) k = st.
Proof.
  intros H K. block_cases H. block_cases K. unfold AddRoundKey. cbn [zip_with].
  repeat f_equal; rewrite Z.lxor_assoc, Z.lxor_nilpotent; apply Z.lxor_0_r.
Qed.

Lemma InvShiftRows_ShiftRows st : is_block st -> InvShiftRows (ShiftRows st) = st.
Proof. intros H. block_cases H. by rewrite ShiftRows_list, InvShiftRows_list. Qed.

Lemma InvSubBytes_SubBytes st : is_block st -> InvSubBytes (SubBytes st) = st.
Proof.
  intros [_ Hb]. unfold InvSubBytes, SubBytes. induction Hb; [done|]. cbn.
  rewrite IHHb. by rewrite inv_sbox_sbox.
Qed.

(** A sum by rows is a sum by columns. *)
Lemma xor_grid x0 x1 x2 x3 y0 y1 y2 y3 z0 z1 z2 z3 t0 t1 t2 t3 p q r u :
  Z.lxor (Z.lxor (Z.lxor x0 x1) x2) x3 = p -> Z.lxor (Z.lxor (Z.lxor y0 y1) y2) y3 = q ->
  Z.lxor (Z.lxor (Z.lxor z0 z1) z2) z3 = r -> Z.lxor (Z.lxor (Z.lxor t0 t1) t2) t3 = u ->
  Z.lxor (Z.lxor (Z.lxor
    (Z.lxor (Z.lxor (Z.lxor x0 y0) z0) t0) (Z.lxor (Z.lxor (Z.lxor x1 y1) z1) t1))
    (Z.lxor (Z.lxor (Z.lxor x2 y2) z2) t2)) (Z.lxor (Z.lxor (Z.lxor x3 y3) z3) t3) =
  Z.lxor (Z.lxor (Z.lxor p q) r) u.
Proof. intros <- <- <- <-. xor_solve. Qed.

Ltac transitivity_to A := etransitivity; [|exact A]; xor_solve.

(** By columns, each known up to its order. *)
Ltac grid A B C D :=
  etransitivity;
  [eapply xor_grid;
   [transitivity_to A|transitivity_to B|transitivity_to C|transitivity_to D]
  |by rewrite ?Z.lxor_0_l, ?Z.lxor_0_r].

Lemma inv_mix_col a b c d : is_byte a -> is_byte b -> is_byte c -> is_byte d ->
  match mix_col 2 3 1 1 a b c d with
  | [p; q; r; t] => mix_col 14 11 13 9 p q r t = [a; b; c; d]
  | _ => False
  end.
Proof.
  intros Ha Hb Hc Hd. unfold mix_col.
  destruct (gmul_inv a Ha) as (A0 & A1 & A2 & A3), (gmul_inv b Hb) as (B0 & B1 & B2 & B3),
    (gmul_inv c Hc) as (C0 & C1 & C2 & C3), (gmul_inv d Hd) as (D0 & D1 & D2 & D3).
  rewrite !gmul_lxor by (repeat apply is_byte_lxor; auto with silc).
  f_equal; [|f_equal; [|f_equal; [|f_equal]]].
  - grid A0 B1 C2 D3.
  - grid A3 B0 C1 D2.
  - grid A2 B3 C0 D1.
  - grid A1 B2 C3 D0.
Qed.

Lemma InvMixColumns_MixColumns st : is_block st -> InvMixColumns (MixColumns st) = st.
Proof.
  intros H. block_cases H. unfold InvMixColumns, MixColumns. rewrite mix_columns_list.
  repeat match goal with
  | |- context [mix_col 2 3 1 1 ?a ?b ?c ?d] =>
      let P := fresh in
      pose proof (inv_mix_col a b c d ltac:(assumption) ltac:(assumption)
        ltac:(assumption) ltac:(assumption)) as P;
      let E := fresh in destruct (mix_col 2 3 1 1 a b c d) as [|? [|? [|? [|? [|]]]]] eqn:E;
      try contradiction; clear E
  end.
  cbn [app]. rewrite mix_columns_list.
  repeat match goal with E : mix_col 14 11 13 9 _ _ _ _ = _ |- _ => rewrite E; clear E end.
  reflexivity.
Qed.

(** InvMixColumns is linear. *)
Lemma InvMixColumns_AddRoundKey st k : is_block st -> is_block k ->
  InvMixColumns (AddRoundKey st k) = AddRoundKey (InvMixColumns st) (InvMixColumns k).
Proof.
  intros H K. block_cases H. block_cases K. unfold AddRoundKey. cbn [zip_with].
  unfold InvMixColumns. rewrite !mix_columns_list. unfold mix_col. cbn [app zip_with].
  rewrite !gmul_lxor by assumption. repeat (apply (f_equal2 cons); [xor_solve|]). reflexivity.
Qed.

Lemma inv_round st k : is_block st -> is_block k ->
  InvSubBytes (InvShiftRows (AddRoundKey (AddRoundKey (ShiftRows (SubBytes st)) k) k)) = st.
Proof.
  intros H K. rewrite AddRoundKey_twice by auto using ShiftRows_block, SubBytes_block.
  rewrite InvShiftRows_ShiftRows by auto using SubBytes_block. by apply InvSubBytes_SubBytes.
Qed.

#[export] Hint Resolve SubBytes_block ShiftRows_block mix_columns_block AddRoundKey_block : silc.

Lemma MixColumns_block st : is_block st -> is_block (MixColumns st).
Proof. apply mix_columns_block. Qed.

#[export] Hint Resolve MixColumns_block : silc.

(** [n] rounds from round [r] on, undone from round [r + n] down. *)
Lemma fips_inv_rounds_rounds k n r st :
  (forall i, (i <= n + S r)%nat -> is_block (k i)) -> is_block st ->
  exists st', AddRoundKey (fips_rounds k n (S r) st) (k (n + S r)%nat) = st' /\
    fips_inv_rounds k (n + r) st' = fips_inv_rounds k r (AddRoundKey
       (AddRoundKey (ShiftRows (SubBytes st)) (k (S r))) (k (S r))).
Proof.
  revert r st. induction n as [|n IH]; intros r st Hk Hs.
  { by eexists. }
  assert (is_block (k (S r)) /\ is_block (k (S (S r)))) as [K1 K2] by (split; apply Hk; lia).
  destruct (IH (S r) (AddRoundKey (MixColumns (ShiftRows (SubBytes st))) (k (S r))))
    as (st' & E & E'); [intros; apply Hk; lia|auto with silc|].
  exists st'. split; [cbn [fips_rounds]; by replace (S n + S r)%nat with (n + S (S r))%nat by lia|].
  replace (S n + r)%nat with (n + S r)%nat by lia. rewrite E'.
  cbn [fips_inv_rounds]. rewrite inv_round by auto with silc.
  rewrite AddRoundKey_twice by auto with silc.
  rewrite InvMixColumns_MixColumns by auto with silc.
  by rewrite AddRoundKey_twice by auto with silc.
Qed.

Lemma fips_inverse nr k in_ :
  (1 <= nr)%nat -> (forall i, (i <= nr)%nat -> is_block (k i)) -> is_block in_ ->
  fips_inv_cipher nr k (fips_cipher nr k in_) = in_.
Proof.
  intros Hn Hk Hi. unfold fips_inv_cipher, fips_cipher.
  assert (is_block (k O) /\ is_block (k 1%nat)) as [K0 K1] by (split; apply Hk; lia).
  destruct (fips_inv_rounds_rounds k (nr - 1) 0 (AddRoundKey in_ (k O))) as (st' & E & E');
    [intros; apply Hk; lia|auto with silc|].
  replace (nr - 1 + 1)%nat with nr in E by lia. rewrite E.
  rewrite Nat.add_0_r in E'. rewrite E'. cbn [fips_inv_rounds].
  rewrite inv_round by auto with silc. by apply AddRoundKey_twice.
Qed.

Lemma fips_rounds_block k n r st :
  (forall i, (i <= n + r)%nat -> is_block (k i)) -> is_block st -> is_block (fips_rounds k n r st).
Proof.
  revert r st. induction n as [|n IH]; intros r st Hk Hs; cbn [fips_rounds].
  - assert (is_block (k r)) by (apply Hk; lia). auto with silc.
  - assert (is_block (k r)) by (apply Hk; lia).
    apply IH; [intros; apply Hk; lia|auto with silc].
Qed.

Lemma fips_cipher_block nr k in_ :
  (1 <= nr)%nat -> (forall i, (i <= nr)%nat -> is_block (k i)) -> is_block in_ ->
  is_block (fips_cipher nr k in_).
Proof.
  intros Hn Hk Hi. assert (is_block (k O)) by (apply Hk; lia).
  apply fips_rounds_block; [intros; apply Hk; lia|auto with silc].
Qed.

(** * The rounds of the code *)

Lemma state_out_block x : is_block (state_out x).
Proof.
  split; [done|]. unfold state_out, word_out.
  repeat (apply list.Forall_cons; split; [apply bval_byte|]). constructor.
Qed.

#[export] Hint Resolve state_out_block : silc.

(** The bytes of the columns a round computes. *)
Lemma word_out_fwd_rnd k w0 w1 w2 w3 :
  word_out (Z.lxor k (Z.lxor (Z.lxor (Z.lxor (tab_at t_fn 0 (bval w0 0)) (tab_at t_fn 1 (bval w1 1)))
    (tab_at t_fn 2 (bval w2 2))) (tab_at t_fn 3 (bval w3 3)))) =
  AddRoundKey (mix_col 2 3 1 1 (sbox (bval w0 0)) (sbox (bval w1 1)) (sbox (bval w2 2))
    (sbox (bval w3 3))) (word_out k).
Proof.
  rewrite !word_out_lxor.
  destruct (t_fn_bytes _ (bval_byte w0 0)) as (-> & _), (t_fn_bytes _ (bval_byte w1 1)) as (_ & -> & _),
    (t_fn_bytes _ (bval_byte w2 2)) as (_ & _ & -> & _), (t_fn_bytes _ (bval_byte w3 3)) as (_ & _ & _ & ->).
  unfold xor_word, AddRoundKey, mix_col, word_out. cbn [zip_with].
  repeat (apply (f_equal2 cons); [xor_solve|]). reflexivity.
Qed.

Lemma word_out_inv_rnd k w0 w1 w2 w3 :
  word_out (Z.lxor k (Z.lxor (Z.lxor (Z.lxor (tab_at t_in 0 (bval w0 0)) (tab_at t_in 1 (bval w1 1)))
    (tab_at t_in 2 (bval w2 2))) (tab_at t_in 3 (bval w3 3)))) =
  AddRoundKey (mix_col 14 11 13 9 (inv_sbox (bval w0 0)) (inv_sbox (bval w1 1))
    (inv_sbox (bval w2 2)) (inv_sbox (bval w3 3))) (word_out k).
Proof.
  rewrite !word_out_lxor.
  destruct (t_in_bytes _ (bval_byte w0 0)) as (-> & _), (t_in_bytes _ (bval_byte w1 1)) as (_ & -> & _),
    (t_in_bytes _ (bval_byte w2 2)) as (_ & _ & -> & _), (t_in_bytes _ (bval_byte w3 3)) as (_ & _ & _ & ->).
  unfold xor_word, AddRoundKey, mix_col, word_out. cbn [zip_with].
  repeat (apply (f_equal2 cons); [xor_solve|]). reflexivity.
Qed.

Lemma word_out_fwd_lrnd k w0 w1 w2 w3 :
  word_out (Z.lxor k (Z.lxor (Z.lxor (Z.lxor (tab_at t_fl 0 (bval w0 0)) (tab_at t_fl 1 (bval w1 1)))
    (tab_at t_fl 2 (bval w2 2))) (tab_at t_fl 3 (bval w3 3)))) =
  AddRoundKey [sbox (bval w0 0); sbox (bval w1 1); sbox (bval w2 2); sbox (bval w3 3)] (word_out k).
Proof.
  rewrite !word_out_lxor.
  destruct (t_fl_bytes _ (bval_byte w0 0)) as (-> & _), (t_fl_bytes _ (bval_byte w1 1)) as (_ & -> & _),
    (t_fl_bytes _ (bval_byte w2 2)) as (_ & _ & -> & _), (t_fl_bytes _ (bval_byte w3 3)) as (_ & _ & _ & ->).
  unfold xor_word, AddRoundKey, word_out. cbn [zip_with].
  repeat (apply (f_equal2 cons); [xor_solve|]). reflexivity.
Qed.

Lemma word_out_inv_lrnd k w0 w1 w2 w3 :
  word_out (Z.lxor k (Z.lxor (Z.lxor (Z.lxor (tab_at t_il 0 (bval w0 0)) (tab_at t_il 1 (bval w1 1)))
    (tab_at t_il 2 (bval w2 2))) (tab_at t_il 3 (bval w3 3)))) =
  AddRoundKey [inv_sbox (bval w0 0); inv_sbox (bval w1 1); inv_sbox (bval w2 2);
    inv_sbox (bval w3 3)] (word_out k).
Proof.
  rewrite !word_out_lxor.
  destruct (t_il_bytes _ (bval_byte w0 0)) as (-> & _), (t_il_bytes _ (bval_byte w1 1)) as (_ & -> & _),
    (t_il_bytes _ (bval_byte w2 2)) as (_ & _ & -> & _), (t_il_bytes _ (bval_byte w3 3)) as (_ & _ & _ & ->).
  unfold xor_word, AddRoundKey, word_out. cbn [zip_with].
  repeat (apply (f_equal2 cons); [xor_solve|]). reflexivity.
Qed.

Lemma round_fwd x k :
  state_out (round fwd_rnd x k) =
    AddRoundKey (MixColumns (ShiftRows (SubBytes (state_out x)))) (state_out k).
Proof.
  transitivity (word_out (fwd_rnd x k 0) ++ word_out (fwd_rnd x k 1) ++
    word_out (fwd_rnd x k 2) ++ word_out (fwd_rnd x k 3)); [reflexivity|].
  unfold fwd_rnd, four_tables, rf1. rewrite !word_out_fwd_rnd. reflexivity.
Qed.

Lemma round_lfwd x k :
  state_out (round fwd_lrnd x k) =
    AddRoundKey (ShiftRows (SubBytes (state_out x))) (state_out k).
Proof.
  transitivity (word_out (fwd_lrnd x k 0) ++ word_out (fwd_lrnd x k 1) ++
    word_out (fwd_lrnd x k 2) ++ word_out (fwd_lrnd x k 3)); [reflexivity|].
  unfold fwd_lrnd, four_tables, rf1. rewrite !word_out_fwd_lrnd. reflexivity.
Qed.

Lemma round_inv x k :
  state_out (round inv_rnd x k) =
    AddRoundKey (InvMixColumns (InvSubBytes (InvShiftRows (state_out x)))) (state_out k).
Proof.
  transitivity (word_out (inv_rnd x k 0) ++ word_out (inv_rnd x k 1) ++
    word_out (inv_rnd x k 2) ++ word_out (inv_rnd x k 3)); [reflexivity|].
  unfold inv_rnd, four_tables, rf1. rewrite !word_out_inv_rnd. reflexivity.
Qed.

Lemma round_linv x k :
  state_out (round inv_lrnd x k) =
    AddRoundKey (InvSubBytes (InvShiftRows (state_out x))) (state_out k).
Proof.
  transitivity (word_out (inv_lrnd x k 0) ++ word_out (inv_lrnd x k 1) ++
    word_out (inv_lrnd x k 2) ++ word_out (inv_lrnd x k 3)); [reflexivity|].
  unfold inv_lrnd, four_tables, rf1. rewrite !word_out_inv_lrnd. reflexivity.
Qed.

Lemma state_out_in x k : is_block x -> state_out (state_in x k) = AddRoundKey x (state_out k).
Proof.
  intros [Hl Hb].
  transitivity (word_out (Z.lxor (word_in x 0) (s k 0)) ++ word_out (Z.lxor (word_in x 1) (s k 1)) ++
    word_out (Z.lxor (word_in x 2) (s k 2)) ++ word_out (Z.lxor (word_in x 3) (s k 3))); [reflexivity|].
  rewrite !word_out_lxor, !word_out_in by (done || lia).
  assert (is_block x) as H by done. block_cases H. reflexivity.
Qed.

(** The round keys of encryption in [cx->ks]. *)
Definition enc_keys (cx : aes_ctx) (nr : nat) (k : nat -> list Z) : Prop :=
  b0 cx = 16 * Z.of_nat nr /\
  forall r, (r <= nr)%nat -> state_out (zdrop (4 * Z.of_nat r) (ks cx)) = k r.

Lemma enc_10_rounds x kp k st :
  state_out x = st ->
  (forall r, (r <= 10)%nat -> state_out (zdrop (4 * Z.of_nat r) kp) = k r) ->
  state_out (enc_10 x kp) = fips_rounds k 9 1 st.
Proof.
  intros <- Hk. unfold enc_10, N_COLS. rewrite round_lfwd, !round_fwd.
  cbn [fips_rounds].
  rewrite <- (Hk 1%nat), <- (Hk 2%nat), <- (Hk 3%nat), <- (Hk 4%nat), <- (Hk 5%nat),
    <- (Hk 6%nat), <- (Hk 7%nat), <- (Hk 8%nat), <- (Hk 9%nat), <- (Hk 10%nat) by lia.
  reflexivity.
Qed.

(** Two rounds more, before the rounds of the next case. *)
Lemma enc_case_rounds (f : list Z -> list Z -> list Z) n x kp k st :
  (forall x st k, state_out x = st ->
     (forall r, (r <= S n)%nat ->
        state_out (zdrop (4 * Z.of_nat r) (zdrop (2 * N_COLS) kp)) = k r) ->
     state_out (f x (zdrop (2 * N_COLS) kp)) = fips_rounds k n 1 st) ->
  state_out x = st ->
  (forall r, (r <= S (S (S n)))%nat -> state_out (zdrop (4 * Z.of_nat r) kp) = k r) ->
  state_out (f (round fwd_rnd (round fwd_rnd x (zdrop (1 * N_COLS) kp)) (zdrop (2 * N_COLS) kp))
    (zdrop (2 * N_COLS) kp)) = fips_rounds k (S (S n)) 1 st.
Proof.
  intros Hf <- Hk. cbn [fips_rounds].
  assert (forall m r st, fips_rounds (fun r => k (S (S r))) m r st = fips_rounds k m (S (S r)) st) as E.
  { induction m as [|m IH]; intros; cbn [fips_rounds]; [done|]. apply IH. }
  rewrite <- E. apply Hf.
  - rewrite !round_fwd. rewrite <- (Hk 1%nat), <- (Hk 2%nat) by lia. reflexivity.
  - intros r Hr. rewrite zdrop_zdrop by (unfold N_COLS; lia). rewrite <- Hk by lia.
    f_equal. f_equal. unfold N_COLS. lia.
Qed.

Lemma enc_12_rounds x kp k st :
  state_out x = st ->
  (forall r, (r <= 12)%nat -> state_out (zdrop (4 * Z.of_nat r) kp) = k r) ->
  state_out (enc_12 x kp) = fips_rounds k 11 1 st.
Proof. intros. apply enc_case_rounds; [|done|done]. intros. by apply enc_10_rounds. Qed.

Lemma enc_14_rounds x kp k st :
  state_out x = st ->
  (forall r, (r <= 14)%nat -> state_out (zdrop (4 * Z.of_nat r) kp) = k r) ->
  state_out (enc_14 x kp) = fips_rounds k 13 1 st.
Proof. intros. apply enc_case_rounds; [|done|done]. intros. by apply enc_12_rounds. Qed.

(** With 10, 12 or 14 rounds aes_encrypt is the cipher of FIPS-197. *)
Lemma aes_encrypt_cipher cx nr k in_ :
  nr = 10%nat \/ nr = 12%nat \/ nr = 14%nat -> enc_keys cx nr k -> is_block in_ ->
  aes_encrypt in_ cx = fips_cipher nr k in_.
Proof.
  intros Hn [Hb Hk] Hi. unfold aes_encrypt, fips_cipher.
  assert (state_out (state_in in_ (ks cx)) = AddRoundKey in_ (k O)) as E.
  { rewrite state_out_in by done. by rewrite <- Hk by lia. }
  destruct Hn as [-> | [-> | ->]]; rewrite Hb; cbn [Z.eqb Nat.sub];
    [apply enc_10_rounds|apply enc_12_rounds|apply enc_14_rounds]; done.
Qed.

(** Those of decryption: the last one first, and all but the first and the last
    through InvMixColumns. *)
Definition dec_keys (cx : aes_ctx) (nr : nat) (k : nat -> list Z) : Prop :=
  b0 cx = 16 * Z.of_nat nr /\
  (forall r, (r <= nr)%nat ->
     state_out (zdrop (4 * Z.of_nat (nr - r)) (ks cx)) =
       if (r =? 0)%nat || (r =? nr)%nat then k r else InvMixColumns (k r)).

Lemma InvShiftRows_block st : is_block st -> is_block (InvShiftRows st).
Proof.
  intros H. block_cases H. rewrite InvShiftRows_list. split; [done|].
  repeat (apply list.Forall_cons; split; [done|]). constructor.
Qed.

Lemma InvSubBytes_block st : is_block st -> is_block (InvSubBytes st).
Proof.
  intros [Hl Hb]. split; [unfold InvSubBytes; by rewrite length_map|].
  unfold InvSubBytes. clear Hl. induction Hb; cbn [map]; constructor; auto with silc.
Qed.

#[export] Hint Resolve InvSubBytes_block InvShiftRows_block : silc.

Section dec_rounds.
Context (kp : list Z) (ofs : Z) (nr : nat) (k : nat -> list Z).
Hypothesis Hofs : ofs = 4 * Z.of_nat nr.
Hypothesis Hb : forall r, (r <= nr)%nat -> is_block (k r).
Hypothesis Hk : forall r, (r <= nr)%nat ->
  state_out (zdrop (4 * Z.of_nat (nr - r)) kp) =
    if (r =? 0)%nat || (r =? nr)%nat then k r else InvMixColumns (k r).

(** One round of the code is one of the standard. *)
Lemma dec_step r n x :
  n = - Z.of_nat (S r) -> (S r < nr)%nat ->
  fips_inv_rounds k (S r) (state_out x) =
    fips_inv_rounds k r (state_out (round inv_rnd x (rnd_key kp ofs n))).
Proof.
  intros -> Hr. cbn [fips_inv_rounds]. f_equal. rewrite round_inv.
  specialize (Hk (S r) ltac:(lia)). specialize (Hb (S r) ltac:(lia)).
  replace (S r =? 0)%nat with false in Hk by done.
  replace (S r =? nr)%nat with false in Hk by (symmetry; apply Nat.eqb_neq; lia).
  unfold rnd_key, N_COLS. replace (ofs + - Z.of_nat (S r) * 4) with (4 * Z.of_nat (nr - S r)) by lia.
  rewrite Hk. cbn [orb]. by rewrite InvMixColumns_AddRoundKey by auto with silc.
Qed.

Lemma dec_10_rounds x : (10 <= nr)%nat ->
  state_out (dec_10 x kp ofs) = fips_inv_rounds k 9 (state_out x).
Proof.
  intros Hn. unfold dec_10.
  rewrite (dec_step 8 (-9)), (dec_step 7 (-8)), (dec_step 6 (-7)), (dec_step 5 (-6)),
    (dec_step 4 (-5)), (dec_step 3 (-4)), (dec_step 2 (-3)), (dec_step 1 (-2)),
    (dec_step 0 (-1)) by lia.
  cbn [fips_inv_rounds]. rewrite round_linv. f_equal.
  unfold rnd_key, N_COLS. replace (ofs + 0 * 4) with (4 * Z.of_nat (nr - 0)) by lia.
  by rewrite (Hk 0) by lia.
Qed.

Lemma dec_12_rounds x : (12 <= nr)%nat ->
  state_out (dec_12 x kp ofs) = fips_inv_rounds k 11 (state_out x).
Proof.
  intros Hn. unfold dec_12. rewrite dec_10_rounds by lia.
  by rewrite (dec_step 10 (-11)), (dec_step 9 (-10)) by lia.
Qed.

Lemma dec_14_rounds x : (14 <= nr)%nat ->
  state_out (dec_14 x kp ofs) = fips_inv_rounds k 13 (state_out x).
Proof.
  intros Hn. unfold dec_14. rewrite dec_12_rounds by lia.
  by rewrite (dec_step 12 (-13)), (dec_step 11 (-12)) by lia.
Qed.
End dec_rounds.

(** With 10, 12 or 14 rounds aes_decrypt is the inverse cipher of FIPS-197. *)
Lemma aes_decrypt_inv_cipher cx nr k in_ :
  nr = 10%nat \/ nr = 12%nat \/ nr = 14%nat -> dec_keys cx nr k ->
  (forall r, (r <= nr)%nat -> is_block (k r)) -> is_block in_ ->
  aes_decrypt in_ cx = fips_inv_cipher nr k in_.
Proof.
  intros Hn [Hb Hk] Hkb Hi. unfold aes_decrypt, fips_inv_cipher.
  assert (AddRoundKey in_ (k nr) = state_out (state_in in_ (ks cx))) as ->.
  { rewrite state_out_in by done. f_equal. specialize (Hk nr ltac:(lia)).
    rewrite Nat.sub_diag in Hk. rewrite zdrop_0 in Hk. rewrite Hk.
    by rewrite Nat.eqb_refl, orb_true_r. }
  assert (Z.shiftr (b0 cx) 2 = 4 * Z.of_nat nr) as Ho.
  { rewrite Hb, Z.shiftr_div_pow2 by lia. change (2 ^ 2) with 4.
    rewrite <- (Z.div_unique_exact (16 * Z.of_nat nr) 4 (4 * Z.of_nat nr)); lia. }
  destruct Hn as [-> | [-> | ->]]; rewrite Ho, Hb; cbn [Z.eqb Nat.sub].
  - by apply (dec_10_rounds _ _ 10).
  - by apply (dec_12_rounds _ _ 12).
  - by apply (dec_14_rounds _ _ 14).
Qed.
