(* ===== verification/AesKeys.v ===== *)
(** The key schedules of Aes: [cx->ks] gets the words of a sequence that follows
    the recurrence of the key expansion, for decryption in the order of use and
    through InvMixColumns where the rounds need it. *)

From S2P Require Import Prelude CTypes Cipher Aes AesSpec AesField.
From Stdlib Require Import Btauto.

(** * Stores to the arrays *)

Lemma zlen_put x i w : zlen (put x i w) = zlen x.
Proof. unfold put. by rewrite length_insert. Qed.

Lemma s_put x i j w : 0 <= i < zlen x -> 0 <= j -> s (put x i w) j = if j =? i then w else s x j.
Proof.
  intros Hi Hj. unfold s, put, byte_at. rewrite !nth_lookup. destruct (Z.eqb_spec j i) as [->|Hn].
  - by rewrite list_lookup_insert_eq by lia.
  - by rewrite list_lookup_insert_ne by lia.
Qed.

Lemma zlen_xor_at x i w : zlen (xor_at x i w) = zlen x.
Proof. apply zlen_put. Qed.

Lemma s_xor_at x i j w : 0 <= i < zlen x -> 0 <= j ->
  s (xor_at x i w) j = if j =? i then Z.lxor (s x i) w else s x j.
Proof. apply s_put. Qed.

Lemma mod_window n m j : 0 < n -> m - n < j < m -> j mod n <> m mod n.
Proof.
  intros Hn Hj E. assert ((m - j) mod n = 0) as H.
  { rewrite Zminus_mod, E, Z.sub_diag. by apply Z.mod_0_l; lia. }
  rewrite Z.mod_small in H; lia.
Qed.

Lemma mod_back n m : 0 < n -> (m - n) mod n = m mod n.
Proof. intros. rewrite <- (Z_mod_plus_full (m - n) 1 n). f_equal. lia. Qed.

(** [v] orders the words by rounds from the last one. *)
Lemma v_spec n i : 0 <= i -> v n i = n - 4 * (i / 4) + i mod 4.
Proof.
  intros. unfold v. change 3 with (Z.ones 2). rewrite Z.land_ones by lia. change (2 ^ 2) with 4.
  Z.div_mod_to_equations. lia.
Qed.

Lemma v_range n i : 0 <= i < n + 4 -> n mod 4 = 0 -> 0 <= v n i < n + 4.
Proof. intros. rewrite v_spec by lia. Z.div_mod_to_equations. lia. Qed.

Lemma v_inj n i j : 0 <= i -> 0 <= j -> v n i = v n j -> i = j.
Proof. intros ??. rewrite !v_spec by lia. Z.div_mod_to_equations. lia. Qed.

(** * InvMixColumns on a word *)

Lemma word_out_ff x :
  word_out (ff x) = mix_col 14 11 13 9 (bval x 0) (bval x 1) (bval x 2) (bval x 3).
Proof.
  unfold ff, inv_mcol, four_tables, vf1, rf1. rewrite !word_out_lxor.
  destruct (t_im_bytes _ (bval_byte x 0)) as (-> & _), (t_im_bytes _ (bval_byte x 1)) as (_ & -> & _),
    (t_im_bytes _ (bval_byte x 2)) as (_ & _ & -> & _), (t_im_bytes _ (bval_byte x 3)) as (_ & _ & _ & ->).
  reflexivity.
Qed.

Lemma ff_lxor x y : ff (Z.lxor x y) = Z.lxor (ff x) (ff y).
Proof.
  apply word_out_inj; [auto with silc..|]. rewrite word_out_lxor, !word_out_ff.
  unfold mix_col, xor_word. cbn [zip_with]. rewrite !bval_lxor by lia.
  rewrite !gmul_lxor by auto with silc.
  repeat (apply (f_equal2 cons); [xor_solve|]). reflexivity.
Qed.

#[local] Opaque ls_box ff t_rc.

Section schedule.
(** The words of the expanded key of [nk] words. *)
Context (nk : Z) (E : Z -> Z).
Hypothesis Hnk : nk = 4 \/ nk = 6 \/ nk = 8.

Definition temp (n : Z) : Z :=
  if n mod nk =? 0 then Z.lxor (ls_box (E (n - 1)) 3) (s t_rc (n / nk - 1))
  else if (6 <? nk) && (n mod nk =? 4) then ls_box (E (n - 1)) 0
  else E (n - 1).

Hypothesis E_next : forall n, nk <= n < 4 * (nk + 7) -> E n = Z.lxor (E (n - nk)) (temp n).

(** * Encryption *)

(** [n] words are in [k], the last [nk] of them in [ss], of [m] words. *)
Definition sched_inv (f : Z -> Z) (D : Z -> Z) (m n : Z) (p : list Z * list Z) : Prop :=
  zlen p.1 = 60 /\ zlen p.2 = m /\ (forall j, 0 <= j < n -> s p.1 (f j) = D j) /\
  (forall j, n - nk <= j < n -> s p.2 (j mod nk) = E j).

Lemma sched_prev f D m n p i :
  sched_inv f D m n p -> i = (n - 1) mod nk -> s p.2 i = E (n - 1).
Proof. intros (_ & _ & _ & H) ->. apply H. lia. Qed.

(** One word more, at [f n], when [ss[i]] becomes its word. *)
Lemma sched_next f D m n p i y a b :
  sched_inv f D m n p -> nk <= m -> i = n mod nk -> E n = Z.lxor (E (n - nk)) y ->
  0 <= f n < 60 -> a = f n -> b = D n -> (forall j, 0 <= j < n -> 0 <= f j /\ f j <> f n) ->
  sched_inv f D m (n + 1) (put p.1 a b, xor_at p.2 i y).
Proof.
  intros (L1 & L2 & H1 & H2) Hm -> HE Hf -> -> Hinj.
  pose proof (Z.mod_pos_bound n nk ltac:(lia)) as Hmod.
  split; [by rewrite <- L1; apply zlen_put|]. split; [by rewrite <- L2; apply zlen_xor_at|].
  cbn [fst snd] in *. split; intros j Hj.
  - destruct (Z.eq_dec j n) as [->|Hn].
    + by rewrite s_put, Z.eqb_refl by lia.
    + destruct (Hinj j ltac:(lia)) as [? ?].
      rewrite s_put by lia. rewrite (proj2 (Z.eqb_neq _ _)) by done. apply H1. lia.
  - pose proof (Z.mod_pos_bound j nk ltac:(lia)). rewrite s_xor_at by lia.
    destruct (Z.eq_dec j n) as [->|Hn].
    + rewrite Z.eqb_refl. rewrite <- (mod_back nk n) by lia. rewrite H2 by lia. by rewrite HE.
    + rewrite (proj2 (Z.eqb_neq _ _)) by (apply mod_window; lia). apply H2. lia.
Qed.

Definition enc_inv : Z -> list Z * list Z -> Prop := sched_inv (fun j => j) E nk.

(** What [ss[i] ^= y] leaves in [ss[i]]. *)
Lemma sched_value f D m n p i y :
  sched_inv f D m n p -> nk <= m -> i = n mod nk -> E n = Z.lxor (E (n - nk)) y ->
  s (xor_at p.2 i y) i = E n.
Proof.
  intros (_ & L & _ & H) Hm -> HE. pose proof (Z.mod_pos_bound n nk ltac:(lia)).
  rewrite s_xor_at, Z.eqb_refl by lia. rewrite <- (mod_back nk n) by lia.
  rewrite H by lia. by rewrite HE.
Qed.

Lemma enc_step n i y p :
  enc_inv n p -> nk <= n < 60 -> i = n mod nk -> E n = Z.lxor (E (n - nk)) y ->
  enc_inv (n + 1) (ks_step p n i y).
Proof.
  intros I Hn Hi HE. unfold ks_step. cbv zeta.
  apply sched_next; try done; try lia. by eapply sched_value.
Qed.

(** The recurrence, as the macros use it. *)
Lemma E_first n : nk <= n < 4 * (nk + 7) -> n mod nk = 0 ->
  E n = Z.lxor (E (n - nk)) (Z.lxor (ls_box (E (n - 1)) 3) (s t_rc (n / nk - 1))).
Proof. intros Hn H0. rewrite E_next by done. unfold temp. by rewrite H0. Qed.

Lemma E_other n : nk <= n < 4 * (nk + 7) -> n mod nk <> 0 -> n mod nk <> 4 \/ nk <= 6 ->
  E n = Z.lxor (E (n - nk)) (E (n - 1)).
Proof.
  intros Hn H0 H4. rewrite E_next by done. unfold temp.
  rewrite (proj2 (Z.eqb_neq _ _)) by done.
  destruct (Z.ltb_spec 6 nk); cbn [andb]; [|done]. by rewrite (proj2 (Z.eqb_neq _ _)) by lia.
Qed.

Lemma E_fourth n : nk = 8 -> nk <= n < 60 -> n mod nk = 4 ->
  E n = Z.lxor (E (n - nk)) (ls_box (E (n - 1)) 0).
Proof.
  intros Hk Hn H4. rewrite E_next by lia. unfold temp. rewrite H4.
  by rewrite (proj2 (Z.ltb_lt 6 nk)) by lia.
Qed.

(** The words of the key. *)
Lemma key_in_inv (n : nat) key k m :
  zlen k = 60 -> Z.of_nat n <= m -> 0 <= m -> Z.of_nat n <= 60 ->
  let p := key_in key n m k in
  zlen p.1 = 60 /\ zlen p.2 = m /\
  (forall j, 0 <= j < Z.of_nat n -> s p.1 j = word_in key j /\ s p.2 j = word_in key j).
Proof.
  intros Hk. unfold key_in. induction n as [|n IH]; intros Hm H0 Hn.
  { cbn. split; [done|]. split; [unfold zrepeat; rewrite length_replicate; lia|]. intros. lia. }
  rewrite seq_S, map_app, fold_left_app. cbn [map fold_left fst snd plus].
  destruct IH as (L1 & L2 & H); [lia..|]. cbv zeta. rewrite !zlen_put.
  split; [done|]. split; [done|]. intros j Hj. rewrite !s_put by lia.
  destruct (Z.eqb_spec j (Z.of_nat n)) as [->|]; [done|]. apply H. lia.
Qed.

Lemma key_in_enc key k :
  zlen k = 60 -> (forall j, 0 <= j < nk -> E j = word_in key j) ->
  enc_inv nk (key_in key (Z.to_nat nk) nk k).
Proof.
  intros Hk HE. destruct (key_in_inv (Z.to_nat nk) key k nk) as (L1 & L2 & H); [done|lia..|].
  split_and!; try done; intros j Hj.
  - rewrite HE by lia. apply H. lia.
  - rewrite Z.mod_small by lia. rewrite HE by lia. apply H. lia.
Qed.

(** The macro's next store, with the value of [ss] it uses. *)
Ltac mods := lia || (Z.div_mod_to_equations; lia).
Ltac enc_next :=
  match goal with
  | I : enc_inv ?m ?p |- context [ks_step ?p ?n ?i ?y] =>
      let J := fresh in
      assert (enc_inv (m + 1) (ks_step p n i y)) as J;
      [replace n with m by lia; apply enc_step; [exact I|lia|mods|];
       rewrite (sched_prev _ _ _ _ p _ I) by mods;
       first [rewrite E_first by mods; do 2 f_equal; f_equal; mods
             |rewrite E_other by mods; reflexivity
             |rewrite E_fourth by mods; reflexivity]
      |revert J; generalize (ks_step p n i y); clear I; intros ? I]
  end.

Ltac enc_done I := match goal with |- enc_inv ?n _ => eassert (n = _) as ->; [|exact I]; lia end.

Lemma ke4_inv m i p : nk = 4 -> 0 <= i <= 9 -> enc_inv (4 * i + 4) p ->
  m = 4 * i + 8 -> enc_inv m (ke4 p i).
Proof.
  intros Hk Hi I ->. unfold ke4. cbv zeta. do 4 enc_next. enc_done I.
Qed.

Lemma kef6_inv m i p : nk = 6 -> 0 <= i <= 7 -> enc_inv (6 * i + 6) p ->
  m = 6 * i + 10 -> enc_inv m (kef6 p i).
Proof. intros Hk Hi I ->. unfold kef6. cbv zeta. do 4 enc_next. enc_done I. Qed.

Lemma ke6_inv m i p : nk = 6 -> 0 <= i <= 6 -> enc_inv (6 * i + 6) p ->
  m = 6 * i + 12 -> enc_inv m (ke6 p i).
Proof.
  intros Hk Hi I ->. eapply kef6_inv in I; [|done|lia|done]. unfold ke6. cbv zeta. revert I.
  generalize (kef6 p i). intros q I. do 2 enc_next. enc_done I.
Qed.

Lemma kef8_inv m i p : nk = 8 -> 0 <= i <= 6 -> enc_inv (8 * i + 8) p ->
  m = 8 * i + 12 -> enc_inv m (kef8 p i).
Proof. intros Hk Hi I ->. unfold kef8. cbv zeta. do 4 enc_next. enc_done I. Qed.

Lemma ke8_inv m i p : nk = 8 -> 0 <= i <= 5 -> enc_inv (8 * i + 8) p ->
  m = 8 * i + 16 -> enc_inv m (ke8 p i).
Proof.
  intros Hk Hi I ->. eapply kef8_inv in I; [|done|lia|done]. unfold ke8. cbv zeta. revert I.
  generalize (kef8 p i). intros q I. do 4 enc_next. enc_done I.
Qed.

(** The words of the schedule of decryption, in [kn + 4] words. *)
Definition kn : Z := 4 * (nk + 6).

(** Word [j] as the rounds of decryption use it. *)
Definition dword (j : Z) : Z := if (4 <=? j) && (j <? kn) then ff (E j) else E j.

Lemma dword_in n : 4 <= n < kn -> dword n = ff (E n).
Proof. intros. unfold dword. by rewrite (proj2 (Z.leb_le _ _)), (proj2 (Z.ltb_lt _ _)) by lia. Qed.

Lemma dword_out n : n < 4 \/ kn <= n -> dword n = E n.
Proof.
  intros. unfold dword. destruct (Z.leb_spec 4 n), (Z.ltb_spec n kn); cbn [andb]; done || lia.
Qed.

(** A context and a key of [nk] words. *)
Context (key : list Z) (cx : aes_ctx).
Hypothesis Hcx : zlen (ks cx) = KS_LENGTH.
Hypothesis E_key : forall j, 0 <= j < nk -> E j = word_in key j.

(** The number of rounds. *)
Definition enc_words (cx' : aes_ctx) : Prop :=
  b0 cx' = 16 * (nk + 6) /\ forall j, 0 <= j < 4 * (nk + 7) -> s (ks cx') j = E j.

Lemma enc_words_out p :
  enc_inv (4 * (nk + 7)) p -> enc_words (ks_out cx p.1 (nk + 6)).
Proof.
  intros (_ & _ & H & _). split; [|exact H]. cbn [b0 ks_out].
  rewrite u8_id; lia.
Qed.

Lemma aes_encrypt_key128_words : nk = 4 -> enc_words (aes_encrypt_key128 key cx).
Proof.
  intros Hk. unfold aes_encrypt_key128. cbv zeta. replace 10 with (nk + 6) by lia.
  apply enc_words_out. do 10 (eapply ke4_inv; [lia|lia| |lia]).
  pose proof (key_in_enc key (ks cx) Hcx E_key) as I. by rewrite Hk in I at 1 2 3.
Qed.

Lemma aes_encrypt_key192_words : nk = 6 -> enc_words (aes_encrypt_key192 key cx).
Proof.
  intros Hk. unfold aes_encrypt_key192. cbv zeta. replace 12 with (nk + 6) by lia.
  apply enc_words_out. eapply kef6_inv; [lia|lia| |lia].
  do 7 (eapply ke6_inv; [lia|lia| |lia]).
  pose proof (key_in_enc key (ks cx) Hcx E_key) as I. by rewrite Hk in I at 1 2 3.
Qed.

Lemma aes_encrypt_key256_words : nk = 8 -> enc_words (aes_encrypt_key256 key cx).
Proof.
  intros Hk. unfold aes_encrypt_key256. cbv zeta. replace 14 with (nk + 6) by lia.
  apply enc_words_out. eapply kef8_inv; [lia|lia| |lia].
  do 6 (eapply ke8_inv; [lia|lia| |lia]).
  pose proof (key_in_enc key (ks cx) Hcx E_key) as I. by rewrite Hk in I at 1 2 3.
Qed.

Lemma aes_encrypt_key_words len :
  len = 4 * nk \/ len = 32 * nk -> enc_words (aes_encrypt_key key len cx).
Proof.
  intros Hl. unfold aes_encrypt_key.
  destruct Hnk as [Hk | [Hk | Hk]]; destruct Hl as [-> | ->]; rewrite Hk; cbn [Z.mul Z.eqb orb];
    auto using aes_encrypt_key128_words, aes_encrypt_key192_words, aes_encrypt_key256_words.
Qed.

(** * Decryption *)

Definition dec_inv (n : Z) (p : list Z * list Z) : Prop := sched_inv (v kn) dword (nk + 1) n p.

(** Within a block of words [ss[nk]] is the last word stored. *)
Definition dec_mid (n : Z) (p : list Z * list Z) : Prop :=
  dec_inv n p /\ s p.2 nk = dword (n - 1).

Lemma v_kn n : 0 <= n < kn + 4 ->
  0 <= v kn n < 60 /\ forall j, 0 <= j < n -> 0 <= v kn j /\ v kn j <> v kn n.
Proof.
  intros Hn. assert (kn mod 4 = 0) as H4 by (unfold kn; by rewrite Z.mul_comm, Z.mod_mul).
  split; [pose proof (v_range kn n Hn H4); unfold kn in *; lia|].
  intros j Hj. split; [apply v_range; [lia|done]|]. intros Hv. apply v_inj in Hv; lia.
Qed.

Lemma sched_ext f D m n k ss ss' :
  sched_inv f D m n (k, ss) -> zlen ss' = m -> (forall j, 0 <= j < nk -> s ss' j = s ss j) ->
  sched_inv f D m n (k, ss').
Proof.
  intros (L1 & L2 & H1 & H2) L H. split_and!; try done. cbn [snd] in *. intros j Hj.
  rewrite H; [by apply H2|]. apply Z.mod_pos_bound. lia.
Qed.

Lemma dec_ff_step n a i y p :
  dec_inv n p -> nk <= n < kn -> a = v kn n -> i = n mod nk -> E n = Z.lxor (E (n - nk)) y ->
  dec_inv (n + 1) (ks_step_ff p a i y).
Proof.
  intros I Hn Ha Hi HE. destruct (v_kn n) as [Hv Hj]; [lia|]. unfold ks_step_ff. cbv zeta.
  apply sched_next; try done; try lia. rewrite (sched_value _ _ _ _ _ _ _ I) by (done || lia).
  by rewrite dword_in by lia.
Qed.

Lemma dec_last_step n a i y p :
  dec_inv n p -> kn <= n < kn + 4 -> a = v kn n -> i = n mod nk ->
  E n = Z.lxor (E (n - nk)) y -> dec_inv (n + 1) (ks_step p a i y).
Proof.
  intros I Hn Ha Hi HE. destruct (v_kn n) as [Hv Hj]; [unfold kn in *; lia|].
  assert (nk <= n) by (unfold kn in *; lia). unfold ks_step. cbv zeta.
  apply sched_next; try done; try lia. rewrite (sched_value _ _ _ _ _ _ _ I) by (done || lia).
  by rewrite dword_out by lia.
Qed.

(** [ss] gets word [n] at [i], its transform goes through [ss[nk]] to [k]. *)
Lemma dec_store n i y p ss w :
  dec_inv n p -> nk + 4 <= n < kn -> i = n mod nk -> E n = Z.lxor (E (n - nk)) y ->
  zlen ss = nk + 1 -> (forall j, 0 <= j < nk -> s ss j = s (xor_at p.2 i y) j) ->
  s ss nk = ff y -> w = s p.1 (v kn (n - nk)) ->
  dec_mid (n + 1) (ks_step (p.1, ss) (v kn n) nk w).
Proof.
  intros I Hn Hi HE L Hss Ht ->. destruct (v_kn n) as [Hv Hj]; [lia|].
  assert (s p.1 (v kn (n - nk)) = ff (E (n - nk))) as Hw.
  { destruct I as (_ & _ & H & _). rewrite H by lia. apply dword_in. lia. }
  assert (s (xor_at ss nk (s p.1 (v kn (n - nk)))) nk = dword n) as Hd.
  { rewrite s_xor_at, Z.eqb_refl, Ht, Hw by lia. rewrite dword_in by lia.
    rewrite HE, ff_lxor. apply Z.lxor_comm. }
  unfold ks_step. cbv zeta. cbn [fst snd]. split.
  - eapply sched_ext; [|by rewrite zlen_xor_at|].
    + apply (sched_next (v kn) dword (nk + 1) n p i y); try done; lia.
    + cbn [snd]. intros j Hjn. rewrite s_xor_at by lia.
      rewrite (proj2 (Z.eqb_neq _ _)) by lia. by apply Hss.
  - cbn [snd]. rewrite Hd. f_equal. lia.
Qed.

Lemma kd_first_inv c t n a b j y p :
  c = kn -> t = nk ->
  dec_inv n p -> nk + 4 <= n < kn -> j = n mod nk -> a + j = n - nk -> b + j = n ->
  E n = Z.lxor (E (n - nk)) y -> dec_mid (n + 1) (kd_first c t a b j y p).
Proof.
  destruct p as [k ss]. intros -> -> I Hn Hj Ha Hb HE. unfold kd_first. rewrite Ha, Hb.
  pose proof (Z.mod_pos_bound n nk ltac:(lia)). destruct I as (L1 & L2 & I') eqn:Hi.
  cbn [fst snd] in L1, L2. clear Hi.
  apply (dec_store n j y (k, ss)); try done.
  - by rewrite zlen_put, zlen_xor_at, zlen_put.
  - intros i Hi. cbn [snd].
    rewrite s_put by (rewrite ?zlen_xor_at, ?zlen_put; lia). rewrite (proj2 (Z.eqb_neq i nk)) by lia.
    rewrite !s_xor_at by (rewrite ?zlen_put; lia). rewrite !s_put, Z.eqb_refl by lia.
    rewrite (proj2 (Z.eqb_neq i nk)), (proj2 (Z.eqb_neq j nk)) by lia. done.
  - rewrite s_put by (rewrite ?zlen_xor_at, ?zlen_put; lia). rewrite Z.eqb_refl.
    rewrite s_xor_at by (rewrite ?zlen_put; lia). rewrite (proj2 (Z.eqb_neq nk j)) by lia.
    by rewrite s_put, Z.eqb_refl by lia.
Qed.

Lemma kd_next_inv c t n a b j p :
  c = kn -> t = nk ->
  dec_mid n p -> nk + 5 <= n < kn -> j = n mod nk -> j <> 0 -> a + j = n - nk -> b + j = n ->
  E n = Z.lxor (E (n - nk)) (E (n - 1)) -> dec_mid (n + 1) (kd_next c t a b j p).
Proof.
  destruct p as [k ss]. intros -> -> [I Ht] Hn Hj H0 Ha Hb HE. unfold kd_next. rewrite Ha, Hb.
  pose proof (Z.mod_pos_bound n nk ltac:(lia)).
  assert (s ss (j - 1) = E (n - 1)) as ->.
  { apply (sched_prev (v kn) dword (nk + 1) n (k, ss) (j - 1) I).
    subst j. apply (Z.mod_unique _ _ (n / nk)); [lia|]. pose proof (Z.div_mod n nk). lia. }
  pose proof I as (L1 & L2 & _). cbn [fst snd] in *.
  apply (dec_store n j (E (n - 1)) (k, ss)); try done; [lia|by rewrite zlen_xor_at|].
  rewrite s_xor_at by lia. rewrite (proj2 (Z.eqb_neq nk j)) by lia.
  rewrite Ht. by rewrite dword_in by lia.
Qed.

(** The words of the key. *)
Lemma dkey_in_inv (n : nat) k :
  zlen k = 60 -> Z.of_nat n <= nk ->
  let p := dkey_in key n (nk + 1) kn k in
  zlen p.1 = 60 /\ zlen p.2 = nk + 1 /\
  (forall j, 0 <= j < Z.of_nat n -> s p.1 (v kn j) = dword j /\ s p.2 j = E j).
Proof.
  intros Hk. unfold dkey_in. induction n as [|n IH]; intros Hm.
  { cbn. split; [done|]. split; [unfold zrepeat; rewrite length_replicate; lia|]. intros. lia. }
  rewrite seq_S, map_app, fold_left_app. cbn [map fold_left fst snd plus].
  destruct IH as (L1 & L2 & H); [lia..|]. cbv zeta. rewrite !zlen_put.
  split; [done|]. split; [done|]. intros j Hj.
  assert (nk < kn) by (unfold kn; lia). destruct (v_kn (Z.of_nat n)) as [Hv Hi]; [lia|].
  destruct (v_kn j) as [Hvj _]; [lia|]. rewrite !s_put by lia.
  destruct (Z.eqb_spec j (Z.of_nat n)) as [->|Hn].
  - rewrite Z.eqb_refl. rewrite <- E_key by lia. unfold dword.
    destruct (Z.ltb_spec (Z.of_nat n) 4), (Z.leb_spec 4 (Z.of_nat n)); try lia; [done|].
    by rewrite (proj2 (Z.ltb_lt _ _)) by lia.
  - rewrite (proj2 (Z.eqb_neq (v kn j) _)) by (apply Hi; lia). apply H. lia.
Qed.

Lemma dkey_in_dec k :
  zlen k = 60 -> dec_inv nk (dkey_in key (Z.to_nat nk) (nk + 1) kn k).
Proof.
  intros Hk. destruct (dkey_in_inv (Z.to_nat nk) k) as (L1 & L2 & H); [done|lia..|].
  split_and!; try done; intros j Hj.
  - apply H. lia.
  - rewrite Z.mod_small by lia. apply H. lia.
Qed.

(** The next store of a macro, of each kind. *)
Ltac dec_rec I n :=
  first [rewrite (E_first n) by mods; do 2 f_equal; f_equal; mods
        |rewrite (E_other n) by mods; reflexivity
        |rewrite (E_fourth n) by mods; reflexivity].
Ltac dec_new p' I := revert I; generalize p'; intros ? I.
Ltac dec_ff :=
  match goal with
  | I : dec_inv ?m ?p |- context [ks_step_ff ?p ?a ?i ?y] =>
      let J := fresh in
      assert (dec_inv (m + 1) (ks_step_ff p a i y)) as J;
      [apply dec_ff_step; [exact I|mods|f_equal; lia|mods|];
       rewrite (sched_prev _ _ _ _ p _ I) by mods; dec_rec I m
      |clear I; dec_new (ks_step_ff p a i y) J]
  end.
Ltac dec_last :=
  match goal with
  | I : dec_inv ?m ?p |- context [ks_step ?p ?a ?i ?y] =>
      let J := fresh in
      assert (dec_inv (m + 1) (ks_step p a i y)) as J;
      [apply dec_last_step; [exact I|mods|f_equal; lia|mods|];
       rewrite (sched_prev _ _ _ _ p _ I) by mods; dec_rec I m
      |clear I; dec_new (ks_step p a i y) J]
  end.
Ltac dec_first :=
  match goal with
  | I : dec_inv ?m ?p |- context [kd_first ?n ?t ?a ?b ?j ?y ?p] =>
      let J := fresh in
      assert (dec_mid (m + 1) (kd_first n t a b j y p)) as J;
      [apply kd_first_inv; [lia|lia|exact I|mods|mods|lia|lia|];
       rewrite (sched_prev _ _ _ _ p _ I) by mods; dec_rec I m
      |clear I; dec_new (kd_first n t a b j y p) J]
  end.
Ltac dec_next :=
  match goal with
  | I : dec_mid ?m ?p |- context [kd_next ?n ?t ?a ?b ?j ?p] =>
      let J := fresh in
      assert (dec_mid (m + 1) (kd_next n t a b j p)) as J;
      [apply kd_next_inv; [lia|lia|exact I|mods|mods|lia|lia|lia|dec_rec I m]
      |clear I; dec_new (kd_next n t a b j p) J]
  end.
Ltac dec_done :=
  match goal with
  | I : dec_mid _ ?p |- dec_inv _ ?p => destruct I as [I _]; dec_done
  | I : dec_inv ?m ?p |- dec_inv ?n ?p => replace n with m by lia; exact I
  end.

Lemma kdf6_inv p : nk = 6 -> dec_inv 6 p -> dec_inv 12 (kdf6 p 0).
Proof.
  intros Hk I. assert (kn = 48) as Hn by (unfold kn; lia). unfold kdf6. rewrite <- Hn. cbv zeta.
  do 6 dec_ff. dec_done.
Qed.

Lemma kdl6_inv p : nk = 6 -> dec_inv 48 p -> dec_inv 52 (kdl6 p 7).
Proof.
  intros Hk I. assert (kn = 48) as Hn by (unfold kn; lia). unfold kdl6. rewrite <- Hn. cbv zeta.
  do 4 dec_last. dec_done.
Qed.

Lemma kd6_inv m i p : nk = 6 -> 1 <= i <= 6 -> dec_inv (6 * i + 6) p ->
  m = 6 * i + 12 -> dec_inv m (kd6 p i).
Proof.
  intros Hk Hi I ->. assert (kn = 48) as Hn by (unfold kn; lia). unfold kd6. cbv zeta.
  dec_first. do 5 dec_next. dec_done.
Qed.

Lemma kdf8_inv p : nk = 8 -> dec_inv 8 p -> dec_inv 16 (kdf8 p 0).
Proof.
  intros Hk I. assert (kn = 56) as Hn by (unfold kn; lia). unfold kdf8. rewrite <- Hn. cbv zeta.
  do 8 dec_ff. dec_done.
Qed.

Lemma kdl8_inv p : nk = 8 -> dec_inv 56 p -> dec_inv 60 (kdl8 p 6).
Proof.
  intros Hk I. assert (kn = 56) as Hn by (unfold kn; lia). unfold kdl8. rewrite <- Hn. cbv zeta.
  do 4 dec_last. dec_done.
Qed.

Lemma dec_mid_inv n p : dec_mid n p -> dec_inv n p.
Proof. by intros [H _]. Qed.

(** A block of eight words starts afresh at its fourth. *)
Lemma kd8_inv m i p : nk = 8 -> 1 <= i <= 5 -> dec_inv (8 * i + 8) p ->
  m = 8 * i + 16 -> dec_inv m (kd8 p i).
Proof.
  intros Hk Hi I ->. assert (kn = 56) as Hn by (unfold kn; lia). unfold kd8. cbv zeta.
  dec_first. do 3 dec_next.
  match goal with J : dec_mid _ _ |- _ => apply dec_mid_inv in J end.
  dec_first. do 3 dec_next. dec_done.
Qed.

(** ** The schedule of 128 bits *)

(** [ss] holds sums of the last four words, turned by one place each time. *)
Definition ss_inv (i : Z) (ss : list Z) : Prop :=
  let e j := E (4 * i + j) in
  zlen ss = 5 /\
  s ss (i mod 4) = Z.lxor (Z.lxor (Z.lxor (e 0) (e 1)) (e 2)) (e 3) /\
  s ss ((i + 1) mod 4) = Z.lxor (e 1) (e 3) /\
  s ss ((i + 2) mod 4) = Z.lxor (e 2) (e 3) /\
  s ss ((i + 3) mod 4) = e 3.

(** The first [m] words in [k], [x] in [ss[4]], the rest of [ss] as in [ss0]. *)
Definition k4_inv (ss0 : list Z) (m x : Z) (p : list Z * list Z) : Prop :=
  zlen p.1 = 60 /\ zlen p.2 = 5 /\ (forall j, 0 <= j < m -> s p.1 (v kn j) = dword j) /\
  s p.2 4 = x /\ (forall j, 0 <= j < 4 -> s p.2 j = s ss0 j).

Definition dec4_inv (i : Z) (p : list Z * list Z) : Prop :=
  zlen p.1 = 60 /\ (forall j, 0 <= j < 4 * i + 4 -> s p.1 (v kn j) = dword j) /\ ss_inv i p.2.

(** The four words of the next round key. *)
Lemma E_round i : nk = 4 -> 0 <= i <= 9 ->
  let e j := E (4 * i + j) in
  let t := Z.lxor (ls_box (e 3) 3) (s t_rc i) in
  e 4 = Z.lxor (e 0) t /\ e 5 = Z.lxor (e 1) (e 4) /\ e 6 = Z.lxor (e 2) (e 5) /\
  e 7 = Z.lxor (e 3) (e 6).
Proof.
  intros Hk Hi. cbv zeta. split_and!.
  - rewrite E_first by mods. replace (4 * i + 4 - 1) with (4 * i + 3) by lia.
    replace ((4 * i + 4) / nk - 1) with i by mods.
    by replace (4 * i + 4 - nk) with (4 * i + 0) by lia.
  - rewrite E_other by mods. f_equal; f_equal; lia.
  - rewrite E_other by mods. f_equal; f_equal; lia.
  - rewrite E_other by mods. f_equal; f_equal; lia.
Qed.

(** A store to [k] of the word it takes next. *)
Lemma k_store k m n a w :
  zlen k = 60 -> 0 <= m < kn + 4 -> n = m + 1 -> a = v kn m -> w = dword m ->
  (forall j, 0 <= j < m -> s k (v kn j) = dword j) ->
  zlen (put k a w) = 60 /\ forall j, 0 <= j < n -> s (put k a w) (v kn j) = dword j.
Proof.
  intros L Hm -> -> -> H. destruct (v_kn m Hm) as [Hv Hi]. rewrite zlen_put. split; [done|].
  intros j Hj. destruct (Z.eq_dec j m) as [->|Hn].
  - by rewrite s_put, Z.eqb_refl by lia.
  - rewrite s_put by (try apply Hi; lia). rewrite (proj2 (Z.eqb_neq _ _)) by (apply Hi; lia).
    apply H. lia.
Qed.

(** [ss[i % 4]] becomes the last word of the next round key. *)
Lemma ss_next i ss ss' : nk = 4 -> 0 <= i <= 9 -> ss_inv i ss -> zlen ss' = 5 ->
  (forall j, 0 <= j < 4 -> s ss' j =
     s (xor_at ss (i mod 4) (Z.lxor (ls_box (E (4 * i + 3)) 3) (s t_rc i))) j) ->
  ss_inv (i + 1) ss'.
Proof.
  intros Hk Hi (L & H0 & H1 & H2 & H3) L' H. destruct (E_round i Hk Hi) as (E4 & E5 & E6 & E7).
  split; [done|]. cbv zeta in *.
  assert (forall j, 0 <= j mod 4 < 4) as B by (intros; apply Z.mod_pos_bound; lia).
  replace (4 * (i + 1) + 0) with (4 * i + 4) by lia. replace (4 * (i + 1) + 1) with (4 * i + 5) by lia.
  replace (4 * (i + 1) + 2) with (4 * i + 6) by lia. replace (4 * (i + 1) + 3) with (4 * i + 7) by lia.
  replace ((i + 1 + 1) mod 4) with ((i + 2) mod 4) by (f_equal; lia).
  replace ((i + 1 + 2) mod 4) with ((i + 3) mod 4) by (f_equal; lia).
  replace ((i + 1 + 3) mod 4) with (i mod 4) by mods.
  rewrite !H by apply B. rewrite !s_xor_at by (rewrite ?L; pose proof (B i); lia || apply B).
  rewrite Z.eqb_refl.
  rewrite (proj2 (Z.eqb_neq ((i + 1) mod 4) _)) by mods.
  rewrite (proj2 (Z.eqb_neq ((i + 2) mod 4) _)) by mods.
  rewrite (proj2 (Z.eqb_neq ((i + 3) mod 4) _)) by mods.
  rewrite H0, H1, H2, H3, E7, E6, E5, E4. split_and!; xor_solve.
Qed.

Lemma k4_step ss0 m n a x p :
  nk = 4 -> k4_inv ss0 m (ff x) p -> 8 <= m < kn -> a = v kn m -> n = v kn (m - 4) ->
  E m = Z.lxor (E (m - 4)) x ->
  k4_inv ss0 (m + 1) (ff (E m)) (ks_step p a 4 (s p.1 n)).
Proof.
  intros Hk (L1 & L2 & H1 & H4 & H) Hm -> -> HE.
  assert (s (xor_at p.2 4 (s p.1 (v kn (m - 4)))) 4 = ff (E m)) as Hs.
  { rewrite s_xor_at, Z.eqb_refl, H4, H1, dword_in by lia.
    rewrite HE, ff_lxor. apply Z.lxor_comm. }
  destruct (k_store p.1 m (m + 1) (v kn m) (ff (E m))) as [L' H']; try done; [lia| |].
  { by rewrite dword_in by lia. }
  unfold ks_step, k4_inv. cbv zeta. cbn [fst snd]. rewrite Hs, zlen_xor_at.
  split_and!; try done. intros j Hj. rewrite s_xor_at by lia.
  rewrite (proj2 (Z.eqb_neq j 4)) by lia. by apply H.
Qed.

(** The first round key is there as it is. *)
Lemma k4_step_ff ss0 m n a x p :
  nk = 4 -> k4_inv ss0 m x p -> 4 <= m < 8 -> a = v kn m -> n = v kn (m - 4) ->
  E m = Z.lxor (E (m - 4)) x ->
  k4_inv ss0 (m + 1) (E m) (ks_step_ff p a 4 (s p.1 n)).
Proof.
  intros Hk (L1 & L2 & H1 & H4 & H) Hm -> -> HE. assert (8 < kn) by (unfold kn; lia).
  assert (s (xor_at p.2 4 (s p.1 (v kn (m - 4)))) 4 = E m) as Hs.
  { rewrite s_xor_at, Z.eqb_refl, H4, H1, dword_out by lia. rewrite HE. apply Z.lxor_comm. }
  destruct (k_store p.1 m (m + 1) (v kn m) (ff (E m))) as [L' H']; try done; [lia| |].
  { by rewrite dword_in by lia. }
  unfold ks_step_ff, k4_inv. cbv zeta. cbn [fst snd]. rewrite Hs, zlen_xor_at.
  split_and!; try done. intros j Hj. rewrite s_xor_at by lia.
  rewrite (proj2 (Z.eqb_neq j 4)) by lia. by apply H.
Qed.

(** [ss[4] = T; ss[i % 4] ^= ss[4]] *)
Lemma ss_turn i ss : nk = 4 -> 0 <= i <= 9 -> ss_inv i ss ->
  let t := Z.lxor (ls_box (s ss ((i + 3) mod 4)) 3) (s t_rc i) in
  let ss1 := put ss 4 t in
  let ss2 := xor_at ss1 (i mod 4) (s ss1 4) in
  t = Z.lxor (ls_box (E (4 * i + 3)) 3) (s t_rc i) /\ s ss2 4 = t /\ ss_inv (i + 1) ss2.
Proof.
  intros Hk Hi I. pose proof I as (L & _ & _ & _ & ->). cbv zeta in *.
  pose proof (Z.mod_pos_bound i 4 ltac:(lia)).
  set (t := Z.lxor _ _). rewrite (s_put ss 4 4), Z.eqb_refl by lia.
  split; [done|]. split.
  - rewrite s_xor_at by (rewrite ?zlen_put; lia). rewrite (proj2 (Z.eqb_neq 4 _)) by lia.
    by rewrite s_put, Z.eqb_refl by lia.
  - apply (ss_next i ss); try done; [by rewrite zlen_xor_at, zlen_put|].
    intros j Hj. rewrite !s_xor_at by (rewrite ?zlen_put; lia).
    rewrite !s_put by lia. rewrite (proj2 (Z.eqb_neq j 4)), (proj2 (Z.eqb_neq (i mod 4) 4)) by lia.
    done.
Qed.

(** The end of a block. *)
Lemma k4_done i ss0 m x p : nk = 4 -> k4_inv ss0 m x p -> ss_inv i ss0 -> m = 4 * i + 4 ->
  dec4_inv i p.
Proof.
  intros Hk (L1 & L2 & H1 & _ & H) (L & H0) ->. split; [done|]. split; [done|]. split; [done|].
  rewrite !H by (apply Z.mod_pos_bound; lia). exact H0.
Qed.

Lemma k4_start ss m x k : zlen k = 60 -> zlen ss = 5 ->
  (forall j, 0 <= j < m -> s k (v kn j) = dword j) -> k4_inv ss m x (k, put ss 4 x).
Proof.
  intros. split_and!; cbn [fst snd]; try done.
  - by rewrite zlen_put.
  - by rewrite s_put, Z.eqb_refl by lia.
  - intros j Hj. rewrite s_put by lia. by rewrite (proj2 (Z.eqb_neq j 4)) by lia.
Qed.

Ltac k4_next :=
  match goal with
  | J : k4_inv ?ss ?m _ ?p |- context [ks_step ?p ?a 4 ?y] =>
      let J' := fresh in
      eassert (k4_inv ss (m + 1) _ (ks_step p a 4 y)) as J';
      [eapply k4_step; [lia|exact J|lia|f_equal; lia|f_equal; lia|]
      |revert J'; generalize (ks_step p a 4 y); clear J; intros ? J']
  end.

Ltac k4_next_ff :=
  match goal with
  | J : k4_inv ?ss ?m _ ?p |- context [ks_step_ff ?p ?a 4 ?y] =>
      let J' := fresh in
      eassert (k4_inv ss (m + 1) _ (ks_step_ff p a 4 y)) as J';
      [eapply k4_step_ff; [lia|exact J|lia|f_equal; lia|f_equal; lia|]
      |revert J'; generalize (ks_step_ff p a 4 y); clear J; intros ? J']
  end.

Ltac e_eq H := etransitivity; [etransitivity; [|exact H]; f_equal; lia|f_equal; f_equal; lia].

Lemma kd4_inv m i p : nk = 4 -> 1 <= i <= 8 -> dec4_inv i p -> m = i + 1 ->
  dec4_inv m (kd4 p i).
Proof.
  intros Hk Hi (L1 & H1 & I) ->. destruct p as [k ss]. cbn [fst snd] in *.
  assert (kn = 40) as Hn by (unfold kn; lia).
  destruct (E_round i Hk ltac:(lia)) as (E4 & E5 & E6 & E7).
  destruct (ss_turn i ss Hk ltac:(lia) I) as (HT & H4 & I'). cbv zeta in *.
  unfold kd4. rewrite <- Hn. cbv zeta. rewrite H4, HT in *. clear HT. revert H4 I'.
  generalize (xor_at (put ss 4 (Z.lxor (ls_box (E (4 * i + 3)) 3) (s t_rc i))) (i mod 4)
    (s (put ss 4 (Z.lxor (ls_box (E (4 * i + 3)) 3) (s t_rc i))) 4)).
  intros ss2 H4 I'. pose proof I' as (L2 & _).
  pose proof (k4_start ss2 (4 * i + 4) (ff (Z.lxor (ls_box (E (4 * i + 3)) 3) (s t_rc i))) k
    L1 L2 H1) as J.
  revert J. generalize (put ss2 4 (ff (Z.lxor (ls_box (E (4 * i + 3)) 3) (s t_rc i)))).
  intros ss3 J. revert J. generalize (k, ss3). intros p J.
  k4_next; [e_eq E4|]. k4_next; [e_eq E5|]. k4_next; [e_eq E6|]. k4_next; [e_eq E7|].
  eapply k4_done; [done|eassumption|done|lia].
Qed.

Lemma kdf4_inv p : nk = 4 -> zlen p.1 = 60 -> zlen p.2 = 5 ->
  (forall j, 0 <= j < 4 -> s p.1 (v kn j) = dword j /\ s p.2 j = E j) ->
  dec4_inv 1 (kdf4 p 0).
Proof.
  intros Hk L1 L H. destruct p as [k ss]. cbn [fst snd] in *.
  assert (kn = 40) as Hn by (unfold kn; lia).
  unfold kdf4. rewrite <- Hn. cbv zeta.
  set (ssa := put ss 0 _). set (ssb := put ssa 1 _). set (ssc := put ssb 2 _).
  assert (ss_inv 0 ssc) as I.
  { assert (zlen ssa = 5) as La by (unfold ssa; by rewrite zlen_put).
    assert (zlen ssb = 5) as Lb by (unfold ssb; by rewrite zlen_put).
    split; [unfold ssc; by rewrite zlen_put|]. cbv zeta.
    change (0 mod 4) with 0. change ((0 + 1) mod 4) with 1. change ((0 + 2) mod 4) with 2.
    change ((0 + 3) mod 4) with 3.
    unfold ssc. rewrite !(s_put ssb) by lia. cbn [Z.eqb]. unfold ssb.
    rewrite !(s_put ssa) by lia. cbn [Z.eqb]. unfold ssa. rewrite !(s_put ss) by lia. cbn [Z.eqb].
    cbn [Pos.eqb]. cbv iota.
    rewrite (proj2 (H 0 ltac:(lia))), (proj2 (H 1 ltac:(lia))), (proj2 (H 2 ltac:(lia))),
      (proj2 (H 3 ltac:(lia))).
    change (4 * 0 + 0) with 0. change (4 * 0 + 1) with 1. change (4 * 0 + 2) with 2.
    change (4 * 0 + 3) with 3. split_and!; xor_solve || done. }
  destruct (E_round 0 Hk ltac:(lia)) as (E4 & E5 & E6 & E7).
  destruct (ss_turn 0 ssc Hk ltac:(lia) I) as (HT & H4 & I'). cbv zeta in *.
  rewrite HT in *. clear HT. revert H4 I'.
  generalize (xor_at (put ssc 4 (Z.lxor (ls_box (E (4 * 0 + 3)) 3) (s t_rc 0))) (0 mod 4)
    (s (put ssc 4 (Z.lxor (ls_box (E (4 * 0 + 3)) 3) (s t_rc 0))) 4)).
  intros ss2 H4 I'. pose proof I' as (L2 & _).
  assert (k4_inv ss2 4 (Z.lxor (ls_box (E (4 * 0 + 3)) 3) (s t_rc 0)) (k, ss2)) as J.
  { split_and!; try done. intros j Hj. apply H. lia. }
  revert J. generalize (k, ss2). intros p J.
  k4_next_ff; [e_eq E4|]. k4_next_ff; [e_eq E5|]. k4_next_ff; [e_eq E6|]. k4_next_ff; [e_eq E7|].
  eapply k4_done; [done|eassumption|done|lia].
Qed.

Lemma k_last k m n a w :
  zlen k = 60 /\ (forall j, 0 <= j < m -> s k (v kn j) = dword j) -> 0 <= m < kn + 4 ->
  n = m + 1 -> a = m -> w = dword m ->
  zlen (put k (v kn a) w) = 60 /\ forall j, 0 <= j < n -> s (put k (v kn a) w) (v kn j) = dword j.
Proof. intros [L H] ? ? -> ?. by apply (k_store k m). Qed.

Lemma kdl4_inv p : nk = 4 -> dec4_inv 9 p ->
  zlen (kdl4 p 9).1 = 60 /\ forall j, 0 <= j < 44 -> s (kdl4 p 9).1 (v kn j) = dword j.
Proof.
  intros Hk (L1 & H1 & I). destruct p as [k ss]. cbn [fst snd] in *.
  assert (kn = 40) as Hn by (unfold kn; lia).
  destruct (E_round 9 Hk ltac:(lia)) as (E4 & E5 & E6 & E7).
  destruct (ss_turn 9 ss Hk ltac:(lia) I) as (HT & H4 & I'). cbv zeta in *.
  unfold kdl4. rewrite <- Hn. cbv zeta. rewrite HT in *. clear HT H4. revert I'.
  generalize (xor_at (put ss 4 (Z.lxor (ls_box (E (4 * 9 + 3)) 3) (s t_rc 9))) (9 mod 4)
    (s (put ss 4 (Z.lxor (ls_box (E (4 * 9 + 3)) 3) (s t_rc 9))) 4)).
  intros ss2 (L & S2 & S3 & S0 & S1). cbn [fst].
  change ((9 + 1) mod 4) with 2 in S2. change ((9 + 1 + 1) mod 4) with 3 in S3.
  change ((9 + 1 + 2) mod 4) with 0 in S0. change ((9 + 1 + 3) mod 4) with 1 in S1.
  change (4 * (9 + 1) + 0) with 40 in *. change (4 * (9 + 1) + 1) with 41 in *.
  change (4 * (9 + 1) + 2) with 42 in *. change (4 * (9 + 1) + 3) with 43 in *.
  rewrite !(s_xor_at ss2) by lia. cbn [Z.eqb]. rewrite S0, S1, S2, S3.
  repeat match goal with
  | |- zlen (put (put _ _ _) (v kn (4 * 9 + ?c)) _) = _ /\ _ =>
      let m := eval compute in (36 + c) in apply (k_last _ m); [|lia..|rewrite dword_out by lia; xor_solve]
  end.
  apply (k_last _ 40); [done|lia..|rewrite dword_out by lia; xor_solve].
Qed.

(** * The schedules of decryption *)

Definition dec_words (cx' : aes_ctx) : Prop :=
  b0 cx' = 16 * (nk + 6) /\ forall j, 0 <= j < 4 * (nk + 7) -> s (ks cx') (v kn j) = dword j.

Lemma dec_words_out (p : list Z * list Z) :
  (forall j, 0 <= j < 4 * (nk + 7) -> s p.1 (v kn j) = dword j) ->
  dec_words (ks_out cx p.1 (nk + 6)).
Proof. intros H. split; [|exact H]. cbn [b0 ks_out]. rewrite u8_id; lia. Qed.

Lemma aes_decrypt_key128_words : nk = 4 -> dec_words (aes_decrypt_key128 key cx).
Proof.
  intros Hk. unfold aes_decrypt_key128. cbv zeta. replace 10 with (nk + 6) by lia.
  apply dec_words_out. rewrite Hk. apply kdl4_inv; [done|].
  do 8 (eapply kd4_inv; [done|lia| |lia]).
  destruct (dkey_in_inv 4 (ks cx) Hcx ltac:(lia)) as (L1 & L2 & H).
  replace (dkey_in key 4 (nk + 1) kn) with (dkey_in key 4 5 40) in * by (unfold kn; by rewrite Hk).
  apply kdf4_inv; by rewrite ?Hk in *.
Qed.

Lemma aes_decrypt_key192_words : nk = 6 -> dec_words (aes_decrypt_key192 key cx).
Proof.
  intros Hk. unfold aes_decrypt_key192. cbv zeta. replace 12 with (nk + 6) by lia.
  apply dec_words_out. rewrite Hk. apply kdl6_inv; [done|].
  do 6 (eapply kd6_inv; [done|lia| |lia]). apply kdf6_inv; [done|].
  pose proof (dkey_in_dec (ks cx) Hcx) as I. unfold kn in I. by rewrite Hk in I at 1 2 3 4.
Qed.

Lemma aes_decrypt_key256_words : nk = 8 -> dec_words (aes_decrypt_key256 key cx).
Proof.
  intros Hk. unfold aes_decrypt_key256. cbv zeta. replace 14 with (nk + 6) by lia.
  apply dec_words_out. rewrite Hk. apply kdl8_inv; [done|].
  do 5 (eapply kd8_inv; [done|lia| |lia]). apply kdf8_inv; [done|].
  pose proof (dkey_in_dec (ks cx) Hcx) as I. unfold kn in I. by rewrite Hk in I at 1 2 3 4.
Qed.

Lemma aes_decrypt_key_words len :
  len = 4 * nk \/ len = 32 * nk -> dec_words (aes_decrypt_key key len cx).
Proof.
  intros Hl. unfold aes_decrypt_key.
  destruct Hnk as [Hk | [Hk | Hk]]; destruct Hl as [-> | ->]; rewrite Hk; cbn [Z.mul Z.eqb orb];
    auto using aes_decrypt_key128_words, aes_decrypt_key192_words, aes_decrypt_key256_words.
Qed.
End schedule.
