(* ===== verification/AesProps.v ===== *)
(** AES as in FIPS-197: the two key schedules and the two block functions of
    Aes against AesSpec, decryption inverts encryption. *)

From S2P Require Import Prelude CTypes Cipher Aes AesSpec AesField AesRounds AesKeys.

(** * The key expansion *)

Definition word_ok (w : list Z) : Prop := length w = 4%nat /\ bytes_ok w.

Definition expand_temp (nk : nat) (w : list (list Z)) (i : nat) : list Z :=
  let temp := nth (i - 1) w [] in
  if (i mod nk =? 0)%nat then xor_word (SubWord (RotWord temp)) (Rcon (i / nk))
  else if (6 <? nk)%nat && (i mod nk =? 4)%nat then SubWord temp
  else temp.

Lemma expand_spec nk n w :
  (1 <= nk <= length w)%nat ->
  length (expand nk n w) = (length w + n)%nat /\
  (forall i, (i < length w)%nat -> nth i (expand nk n w) [] = nth i w []) /\
  (forall i, (length w <= i < length w + n)%nat ->
     nth i (expand nk n w) [] =
       xor_word (nth (i - nk) (expand nk n w) []) (expand_temp nk (expand nk n w) i)).
Proof.
  revert w. induction n as [|n IH]; intros w Hw.
  { cbn [expand]. split_and!; [lia|done|intros; lia]. }
  cbn [expand]. fold (expand_temp nk w (length w)).
  set (x := xor_word _ _). destruct (IH (w ++ [x])) as (L & H1 & H2).
  { rewrite length_app. cbn [length]. lia. }
  rewrite length_app in L, H1, H2. cbn [length] in L, H1, H2.
  assert (forall i, (i < length w)%nat -> nth i (expand nk n (w ++ [x])) [] = nth i w []) as H3.
  { intros i Hi. rewrite H1 by lia. by rewrite app_nth1 by lia. }
  split_and!; [lia|done|]. intros i Hi. destruct (decide (i = length w)) as [->|]; [|apply H2; lia].
  rewrite H1 by lia. rewrite app_nth2, Nat.sub_diag by lia. cbn [nth].
  unfold x, expand_temp. rewrite !H3 by lia. done.
Qed.

Lemma word_ok_cases w : word_ok w -> exists a b c d,
  w = [a; b; c; d] /\ is_byte a /\ is_byte b /\ is_byte c /\ is_byte d.
Proof.
  intros [Hl Hb]. destruct w as [|a [|b [|c [|d [|]]]]]; try done. exists a, b, c, d.
  repeat (apply list.Forall_cons in Hb as [? Hb]). done.
Qed.

Lemma word_ok_xor a b : word_ok a -> word_ok b -> word_ok (xor_word a b).
Proof.
  intros (a0 & a1 & a2 & a3 & -> & ? & ? & ? & ?)%word_ok_cases
    (b0 & b1 & b2 & b3 & -> & ? & ? & ? & ?)%word_ok_cases.
  split; [done|]. unfold xor_word. cbn [zip_with].
  repeat (apply list.Forall_cons; split; [auto with silc|]). constructor.
Qed.

Lemma word_ok_SubWord w : word_ok w -> word_ok (SubWord w).
Proof.
  intros (a & b & c & d & -> & ? & ? & ? & ?)%word_ok_cases. split; [done|].
  unfold SubWord. cbn [map]. repeat (apply list.Forall_cons; split; [by apply sbox_byte|]). constructor.
Qed.

Lemma word_ok_RotWord w : word_ok w -> word_ok (RotWord w).
Proof.
  intros (a & b & c & d & -> & ? & ? & ? & ?)%word_ok_cases. split; [done|].
  change (RotWord [a; b; c; d]) with [b; c; d; a].
  repeat (apply list.Forall_cons; split; [done|]). constructor.
Qed.

Lemma xtime_iter_byte n : is_byte (Nat.iter n xtime 1).
Proof. induction n; cbn [Nat.iter]; [by unfold is_byte|by apply xtime_byte]. Qed.

Lemma word_ok_Rcon i : word_ok (Rcon i).
Proof.
  split; [done|]. unfold Rcon. apply list.Forall_cons. split; [apply xtime_iter_byte|].
  by apply bytes_ok_check.
Qed.

Lemma word_ok_temp nk w i : word_ok (nth (i - 1) w []) -> word_ok (expand_temp nk w i).
Proof.
  intros H. unfold expand_temp. cbv zeta.
  repeat case_match; auto using word_ok_xor, word_ok_SubWord, word_ok_RotWord, word_ok_Rcon.
Qed.

Section keys.
Context (key : list Z) (nk : nat).
Hypothesis Hnk : nk = 4%nat \/ nk = 6%nat \/ nk = 8%nat.
Hypothesis Hlen : zlen key = 4 * Z.of_nat nk.
Hypothesis Hkey : bytes_ok key.

Notation words := (KeyExpansion nk key).
Notation W i := (nth i words []).

Lemma KeyExpansion_spec :
  length words = (4 * (nk + 7))%nat /\
  (forall i, (i < nk)%nat -> W i = ztake 4 (zdrop (4 * Z.of_nat i) key)) /\
  (forall i, (nk <= i < 4 * (nk + 7))%nat -> W i = xor_word (W (i - nk)) (expand_temp nk words i)).
Proof.
  unfold KeyExpansion. set (w := map _ (seq 0 nk)).
  assert (length w = nk) as Hw by (unfold w; by rewrite length_map, length_seq).
  destruct (expand_spec nk (4 * (nk + 7) - nk) w ltac:(lia)) as (L & H1 & H2).
  rewrite Hw in *. split_and!; [rewrite L; lia| |intros; apply H2; lia].
  intros i Hi. rewrite H1 by lia. unfold w.
  rewrite (nth_indep _ [] (ztake 4 (zdrop (4 * Z.of_nat 0) key))) by (rewrite length_map, length_seq; lia).
  rewrite (map_nth (fun i => ztake 4 (zdrop (4 * Z.of_nat i) key))). by rewrite seq_nth by lia.
Qed.

Lemma words_ok_key i : (i < 4 * (nk + 7))%nat -> word_ok (W i).
Proof.
  destruct KeyExpansion_spec as (L & H1 & H2).
  induction i as [i IH] using lt_wf_ind. intros Hi.
  destruct (Nat.lt_ge_cases i nk).
  - rewrite H1 by lia. split.
    + apply Nat2Z.inj. rewrite zlen_ztake; [done|]. rewrite zlen_zdrop; lia.
    + by apply bytes_ok_cut, bytes_ok_cut.
  - rewrite H2 by lia. apply word_ok_xor; [apply IH; lia|]. apply word_ok_temp. apply IH; lia.
Qed.

(** The words as the code has them. *)
Definition kword (n : Z) : Z := word_in (W (Z.to_nat n)) 0.

Lemma word_out_in_word w : word_ok w -> word_out (word_in w 0) = w.
Proof.
  intros (a & b & c & d & -> & ? & ? & ? & ?)%word_ok_cases. change (word_in [a; b; c; d] 0) with (bytes2word a b c d). by apply word_out_bytes2word.
Qed.

Lemma word_in_word w : word_ok w -> is_word (word_in w 0).
Proof.
  intros (a & b & c & d & -> & ? & ? & ? & ?)%word_ok_cases. change (word_in [a; b; c; d] 0) with (bytes2word a b c d). by apply bytes2word_word.
Qed.

Lemma word_out_kword n : 0 <= n < 4 * (Z.of_nat nk + 7) -> word_out (kword n) = W (Z.to_nat n).
Proof. intros. unfold kword. rewrite word_out_in_word; [done|]. apply words_ok_key; (done || lia). Qed.

Lemma kword_word n : 0 <= n < 4 * (Z.of_nat nk + 7) -> is_word (kword n).
Proof. intros. unfold kword. apply word_in_word. apply words_ok_key; (done || lia). Qed.
End keys.

(** The S-box on the bytes of a word, turned by a byte or not. *)
Lemma word_out_ls_box x :
  word_out (ls_box x 0) = SubWord (word_out x) /\
  word_out (ls_box x 3) = SubWord (RotWord (word_out x)).
Proof.
  unfold ls_box, four_tables, vf1.
  change (rf2 0 0) with 0. change (rf2 1 0) with 1. change (rf2 2 0) with 2. change (rf2 3 0) with 3.
  change (rf2 0 3) with 1. change (rf2 1 3) with 2. change (rf2 2 3) with 3. change (rf2 3 3) with 0.
  rewrite !word_out_lxor.
  assert (forall n, word_out (tab_at t_fl 0 (bval x n)) = [sbox (bval x n); 0; 0; 0] /\
    word_out (tab_at t_fl 1 (bval x n)) = [0; sbox (bval x n); 0; 0] /\
    word_out (tab_at t_fl 2 (bval x n)) = [0; 0; sbox (bval x n); 0] /\
    word_out (tab_at t_fl 3 (bval x n)) = [0; 0; 0; sbox (bval x n)]) as T
    by (intros; apply t_fl_bytes, bval_byte).
  split.
  - destruct (T 0) as (-> & _), (T 1) as (_ & -> & _), (T 2) as (_ & _ & -> & _), (T 3) as (_ & _ & _ & ->).
    unfold xor_word, word_out. cbn [zip_with SubWord map]. by rewrite ?Z.lxor_0_r, ?Z.lxor_0_l.
  - destruct (T 1) as (-> & _), (T 2) as (_ & -> & _), (T 3) as (_ & _ & -> & _), (T 0) as (_ & _ & _ & ->).
    unfold xor_word, word_out. change (RotWord [bval x 0; bval x 1; bval x 2; bval x 3])
      with [bval x 1; bval x 2; bval x 3; bval x 0].
    cbn [zip_with SubWord map]. by rewrite ?Z.lxor_0_r, ?Z.lxor_0_l.
Qed.

Lemma word_out_rc i : (1 <= i <= 10)%nat -> word_out (s t_rc (Z.of_nat i - 1)) = Rcon i.
Proof. intros H. do 11 (destruct i as [|i]; [lia || reflexivity|]). lia. Qed.

Lemma t_rc_word i : 0 <= i < 10 -> is_word (s t_rc i).
Proof.
  intros Hi. assert (forallb (fun w => (0 <=? w) && (w <? 2 ^ 32)) t_rc = true) as H by reflexivity.
  rewrite forallb_forall in H. specialize (H (s t_rc i)).
  assert (Z.to_nat i < length t_rc)%nat as Hl by (change (length t_rc) with 10%nat; lia).
  specialize (H (nth_In _ _ Hl)). apply andb_true_iff in H as [? ?]. unfold is_word. lia.
Qed.

(** * The schedules hold the expanded key *)

Section schedules.
Context (key : list Z) (nk : nat).
Hypothesis Hnk : nk = 4%nat \/ nk = 6%nat \/ nk = 8%nat.
Hypothesis Hlen : zlen key = 4 * Z.of_nat nk.
Hypothesis Hkey : bytes_ok key.

Notation words := (KeyExpansion nk key).
Notation W i := (nth i words []).
Notation E := (kword key nk).
Notation nr := (nk + 6)%nat.

Lemma temp_word n : Z.of_nat nk <= n < 4 * (Z.of_nat nk + 7) ->
  is_word (temp (Z.of_nat nk) E n) /\
  word_out (temp (Z.of_nat nk) E n) = expand_temp nk words (Z.to_nat n).
Proof.
  intros Hn. unfold temp, expand_temp. cbv zeta.
  assert (Z.to_nat (n - 1) = Z.to_nat n - 1)%nat as Hp by lia.
  assert (is_word (E (n - 1))) as Hw by (apply kword_word; (done || lia)).
  assert (word_out (E (n - 1)) = W (Z.to_nat n - 1)) as He
    by (rewrite <- Hp; apply word_out_kword; (done || lia)).
  destruct (word_out_ls_box (E (n - 1))) as [L0 L3]. rewrite He in L0, L3.
  assert (n mod Z.of_nat nk = Z.of_nat (Z.to_nat n mod nk)) as Hm
    by (rewrite Nat2Z.inj_mod, Z2Nat.id by lia; done).
  assert (n / Z.of_nat nk = Z.of_nat (Z.to_nat n / nk)) as Hd
    by (rewrite Nat2Z.inj_div, Z2Nat.id by lia; done).
  assert (1 <= Z.to_nat n / nk <= 10)%nat as Hr.
  { split; [apply Nat.div_le_lower_bound; lia|].
    apply Nat.lt_succ_r, Nat.Div0.div_lt_upper_bound; lia. }
  rewrite Hm, Hd. destruct (Nat.eqb_spec (Z.to_nat n mod nk) 0) as [H0|H0].
  - rewrite H0. change (Z.of_nat 0 =? 0) with true. cbv iota. split.
    + apply is_word_lxor; [apply ls_box_word|apply t_rc_word; lia].
    + by rewrite word_out_lxor, L3, word_out_rc by lia.
  - rewrite (proj2 (Z.eqb_neq _ _)) by lia.
    destruct (Nat.ltb_spec 6 nk), (Z.ltb_spec 6 (Z.of_nat nk)); try lia; cbn [andb]; [|done].
    destruct (Nat.eqb_spec (Z.to_nat n mod nk) 4) as [H4|H4].
    + rewrite H4. change (Z.of_nat 4 =? 4) with true. split; [apply ls_box_word|done].
    + by rewrite (proj2 (Z.eqb_neq _ _)) by lia.
Qed.

Lemma kword_next n : Z.of_nat nk <= n < 4 * (Z.of_nat nk + 7) ->
  E n = Z.lxor (E (n - Z.of_nat nk)) (temp (Z.of_nat nk) E n).
Proof.
  intros Hn. destruct (temp_word n Hn) as [Tw To].
  apply word_out_inj; [apply kword_word; (done || lia)|
    apply is_word_lxor; [apply kword_word; (done || lia)|done]|].
  rewrite word_out_lxor, To, !word_out_kword by (done || lia).
  destruct (KeyExpansion_spec key nk Hnk) as (_ & _ & ->); [|lia].
  by replace (Z.to_nat (n - Z.of_nat nk)) with (Z.to_nat n - nk)%nat by lia.
Qed.

Lemma kword_key j : 0 <= j < Z.of_nat nk -> E j = word_in key j.
Proof.
  intros Hj. apply word_out_inj; [apply kword_word; (done || lia)| |].
  - unfold word_in. apply bytes2word_word; apply byte_at_ok; (done || lia).
  - rewrite word_out_kword, word_out_in by (done || lia).
    destruct (KeyExpansion_spec key nk Hnk) as (_ & H & _). rewrite H by lia.
    by rewrite Z2Nat.id by lia.
Qed.

(** ** Round keys *)

Lemma round_key_words r : (r <= nr)%nat ->
  round_key words r = W (4 * r) ++ W (4 * r + 1) ++ W (4 * r + 2) ++ W (4 * r + 3).
Proof.
  intros Hr. destruct (KeyExpansion_spec key nk Hnk) as (L & _).
  unfold round_key. assert (forall l m : list (list Z), (4 <= length l)%nat ->
    concat (take 4 l) = nth 0 l [] ++ nth 1 l [] ++ nth 2 l [] ++ nth 3 l []) as C.
  { intros [|a [|b [|c [|d l]]]] _ Hl; cbn [length] in Hl; try lia. cbn. by rewrite app_nil_r. }
  rewrite (C _ []) by (rewrite length_drop; lia).
  assert (forall i, nth i (drop (4 * r) words) [] = W (4 * r + i)) as D.
  { intros i. rewrite !nth_lookup, lookup_drop. done. }
  by rewrite !D, Nat.add_0_r.
Qed.

Lemma round_key_block r : (r <= nr)%nat -> is_block (round_key words r).
Proof.
  intros Hr. rewrite round_key_words by done.
  assert (forall i, (i < 4)%nat -> word_ok (W (4 * r + i))) as H
    by (intros; apply words_ok_key; (done || lia)).
  pose proof (H 0%nat) as H0. rewrite Nat.add_0_r in H0.
  destruct (H0 ltac:(lia)) as [? ?], (H 1%nat ltac:(lia)) as [? ?], (H 2%nat ltac:(lia)) as [? ?],
    (H 3%nat ltac:(lia)) as [? ?].
  split; [rewrite !length_app; lia|]. by repeat apply Forall_app_2.
Qed.

(** Four words of [cx->ks] as bytes. *)
Lemma state_out_drop k a : 0 <= a ->
  state_out (zdrop a k) =
    word_out (s k a) ++ word_out (s k (a + 1)) ++ word_out (s k (a + 2)) ++ word_out (s k (a + 3)).
Proof.
  intros Ha. assert (forall c, 0 <= c -> s (zdrop a k) c = s k (a + c)) as H.
  { intros c Hc. unfold s, byte_at, zdrop. rewrite !nth_lookup, lookup_drop. do 2 f_equal. lia. }
  unfold state_out. by rewrite !H, Z.add_0_r by lia.
Qed.

Lemma word_out_key r c : (r <= nr)%nat -> 0 <= c < 4 ->
  word_out (E (4 * Z.of_nat r + c)) = W (4 * r + Z.to_nat c).
Proof.
  intros Hr Hc. rewrite word_out_kword by (done || lia). f_equal. lia.
Qed.

Lemma round_key_out r : (r <= nr)%nat ->
  round_key words r =
    word_out (E (4 * Z.of_nat r + 0)) ++ word_out (E (4 * Z.of_nat r + 1)) ++
    word_out (E (4 * Z.of_nat r + 2)) ++ word_out (E (4 * Z.of_nat r + 3)).
Proof.
  intros Hr. rewrite round_key_words by done. rewrite !word_out_key by lia. by rewrite Nat.add_0_r.
Qed.

Lemma enc_words_keys cx :
  enc_words (Z.of_nat nk) E cx -> enc_keys cx nr (round_key words).
Proof.
  intros [Hb H]. split; [rewrite Hb; lia|]. intros r Hr.
  rewrite round_key_out, state_out_drop by lia. rewrite !H by lia. by rewrite Z.add_0_r.
Qed.

(** The words of a round key through InvMixColumns. *)
Lemma InvMixColumns_words x0 x1 x2 x3 :
  InvMixColumns (word_out x0 ++ word_out x1 ++ word_out x2 ++ word_out x3) =
    word_out (ff x0) ++ word_out (ff x1) ++ word_out (ff x2) ++ word_out (ff x3).
Proof. rewrite !word_out_ff. reflexivity. Qed.

Lemma dec_words_keys cx :
  dec_words (Z.of_nat nk) E cx -> dec_keys cx nr (round_key words).
Proof.
  intros [Hb H]. split; [rewrite Hb; lia|]. intros r Hr.
  assert (forall c, 0 <= c < 4 -> s (ks cx) (4 * Z.of_nat (nr - r) + c) =
    dword (Z.of_nat nk) E (4 * Z.of_nat r + c)) as Hs.
  { intros c Hc. rewrite <- H by lia. f_equal. rewrite v_spec by lia. unfold kn.
    Z.div_mod_to_equations. lia. }
  rewrite state_out_drop by lia. rewrite !Hs by lia.
  replace (4 * Z.of_nat (nr - r)) with (4 * Z.of_nat (nr - r) + 0) by lia. rewrite Hs by lia.
  rewrite round_key_out, InvMixColumns_words by done.
  destruct (Nat.eqb_spec r 0), (Nat.eqb_spec r nr); cbn [orb];
    try (rewrite !dword_out by (unfold kn; lia); done).
  by rewrite !dword_in by (unfold kn; lia).
Qed.
End schedules.

(** * The theorems *)

(** A key of AES. *)
Definition aes_key_ok (key : list Z) : Prop :=
  bytes_ok key /\ (zlen key = 16 \/ zlen key = 24 \/ zlen key = 32).

(** Its length as aes_encrypt_key takes it, in bytes or in bits. *)
Definition key_len_ok (key : list Z) (len : Z) : Prop := len = zlen key \/ len = 8 * zlen key.

Lemma aes_key_nk key : aes_key_ok key ->
  bytes_ok key /\ zlen key = 4 * Z.of_nat (fips_nk key) /\
  (fips_nk key = 4 \/ fips_nk key = 6 \/ fips_nk key = 8)%nat.
Proof.
  intros [Hb H]. unfold fips_nk. split; [done|]. destruct H as [-> | [-> | ->]]; auto.
Qed.

Lemma aes_encrypt_key_keys key len cx :
  aes_key_ok key -> key_len_ok key len -> zlen (ks cx) = KS_LENGTH ->
  enc_keys (aes_encrypt_key key len cx) (fips_nk key + 6)
    (round_key (KeyExpansion (fips_nk key) key)).
Proof.
  intros (Hb & Hl & Hn)%aes_key_nk Hlen Hcx. apply enc_words_keys; [done..|].
  apply aes_encrypt_key_words; [lia|apply kword_next; done|done|apply kword_key; done|].
  destruct Hlen; lia.
Qed.

Lemma aes_decrypt_key_keys key len cx :
  aes_key_ok key -> key_len_ok key len -> zlen (ks cx) = KS_LENGTH ->
  dec_keys (aes_decrypt_key key len cx) (fips_nk key + 6)
    (round_key (KeyExpansion (fips_nk key) key)).
Proof.
  intros (Hb & Hl & Hn)%aes_key_nk Hlen Hcx. apply dec_words_keys; [done..|].
  apply aes_decrypt_key_words; [lia|apply kword_next; done|done|apply kword_key; done|].
  destruct Hlen; lia.
Qed.

Lemma aes_encrypt_is_fips key len cx in_ :
  aes_key_ok key -> key_len_ok key len -> zlen (ks cx) = KS_LENGTH -> is_block in_ ->
  aes_encrypt in_ (aes_encrypt_key key len cx) = fips_encrypt key in_.
Proof.
  intros Hk Hl Hcx Hi. pose proof (aes_key_nk key Hk) as (_ & _ & Hn).
  apply aes_encrypt_cipher; [lia|by apply aes_encrypt_key_keys|done].
Qed.

Lemma fips_keys_block key r : aes_key_ok key -> (r <= fips_nk key + 6)%nat ->
  is_block (round_key (KeyExpansion (fips_nk key) key) r).
Proof. intros (Hb & Hl & Hn)%aes_key_nk Hr. by apply round_key_block. Qed.

Lemma aes_decrypt_is_fips key len cx in_ :
  aes_key_ok key -> key_len_ok key len -> zlen (ks cx) = KS_LENGTH -> is_block in_ ->
  aes_decrypt in_ (aes_decrypt_key key len cx) = fips_decrypt key in_.
Proof.
  intros Hk Hl Hcx Hi. pose proof (aes_key_nk key Hk) as (_ & _ & Hn).
  apply aes_decrypt_inv_cipher; [lia|by apply aes_decrypt_key_keys| |done].
  intros. by apply fips_keys_block.
Qed.

Lemma fips_encrypt_block key in_ : aes_key_ok key -> is_block in_ -> is_block (fips_encrypt key in_).
Proof.
  intros Hk Hi. apply fips_cipher_block; [lia| |done]. intros. by apply fips_keys_block.
Qed.

Lemma fips_decrypt_encrypt key in_ : aes_key_ok key -> is_block in_ ->
  fips_decrypt key (fips_encrypt key in_) = in_.
Proof. intros Hk Hi. apply fips_inverse; [lia| |done]. intros. by apply fips_keys_block. Qed.

(** With a key of another length silc_aes_ctr_set_key leaves a context that
    encrypts every block to itself. *)
Lemma aes_ctr_bad_key_len key len in_ :
  ~ In len [16; 128; 24; 192; 32; 256] -> is_block in_ ->
  aes_encrypt in_ (aes_encrypt_key key len aes_ctx0) = in_.
Proof.
  intros Hl Hi. unfold aes_encrypt_key.
  cbn [In] in Hl. repeat (rewrite (proj2 (Z.eqb_neq _ _)) by (intros ->; apply Hl; tauto); cbn [orb]).
  unfold aes_encrypt, aes_ctx0. cbn [b0 ks]. change (0 =? 14 * 16) with false.
  change (0 =? 12 * 16) with false. change (0 =? 10 * 16) with false. cbv iota.
  rewrite state_out_in by done. change (state_out (zrepeat 0 KS_LENGTH)) with (zrepeat 0 16).
  block_cases Hi. unfold AddRoundKey. change (zrepeat 0 16) with [0;0;0;0;0;0;0;0;0;0;0;0;0;0;0;0].
  cbn [zip_with]. by rewrite !Z.lxor_0_r.
Qed.

(** C29. AES is the cipher of FIPS-197: for a key of 16, 24 or 32 bytes, given
    by its length in bytes or in bits, and whatever the contexts held before,
    aes_encrypt with the schedule of aes_encrypt_key is the cipher of the
    standard under the expanded key, and aes_decrypt with the schedule of
    aes_decrypt_key its inverse cipher; the standard's S-box, MixColumns and
    key expansion are computed in GF(2^8), the code's through its tables. *)
Theorem aes_fips_197 key len cx in_ :
  aes_key_ok key -> key_len_ok key len -> zlen (ks cx) = KS_LENGTH -> is_block in_ ->
  aes_encrypt in_ (aes_encrypt_key key len cx) = fips_encrypt key in_ /\
  aes_decrypt in_ (aes_decrypt_key key len cx) = fips_decrypt key in_.
Proof. intros. split; [by apply aes_encrypt_is_fips|by apply aes_decrypt_is_fips]. Qed.

(** C30. Decryption inverts encryption: for a key of 16, 24 or 32 bytes, and
    whatever the contexts held before, aes_decrypt with the schedule of
    aes_decrypt_key gives back any block aes_encrypt made with that of
    aes_encrypt_key. *)
Theorem aes_decrypt_inverts key len cx cx' in_ :
  aes_key_ok key -> key_len_ok key len -> zlen (ks cx) = KS_LENGTH ->
  zlen (ks cx') = KS_LENGTH -> is_block in_ ->
  aes_decrypt (aes_encrypt in_ (aes_encrypt_key key len cx)) (aes_decrypt_key key len cx') = in_.
Proof.
  intros Hk Hl Hcx Hcx' Hi. rewrite aes_encrypt_is_fips by done.
  rewrite aes_decrypt_is_fips by auto using fips_encrypt_block. by apply fips_decrypt_encrypt.
Qed.

Definition witness_key : list Z := fips_key 24.

Lemma aes_fips_197_witness :
  aes_encrypt fips_in (aes_encrypt_key witness_key 192 ctx_any) = fips_encrypt witness_key fips_in /\
  aes_decrypt fips_in (aes_decrypt_key witness_key 192 ctx_any) = fips_decrypt witness_key fips_in.
Proof.
  apply (aes_fips_197 witness_key 192 ctx_any fips_in).
  - split; [apply bytes_ok_check; reflexivity|]. right. left. reflexivity.
  - right. reflexivity.
  - reflexivity.
  - split; [reflexivity|]. apply bytes_ok_check. reflexivity.
Defined.

Lemma aes_decrypt_inverts_witness :
  aes_decrypt (aes_encrypt fips_in (aes_encrypt_key witness_key 192 ctx_any))
    (aes_decrypt_key witness_key 192 ctx_any) = fips_in.
Proof.
  apply (aes_decrypt_inverts witness_key 192 ctx_any ctx_any fips_in).
  - split; [apply bytes_ok_check; reflexivity|]. right. left. reflexivity.
  - right. reflexivity.
  - reflexivity.
  - reflexivity.
  - split; [reflexivity|]. apply bytes_ok_check. reflexivity.
Defined.

(** The vectors of FIPS-197, appendix C. *)
Example fips_c1 :
  aes_encrypt fips_in (aes_encrypt_key (fips_key 16) 128 ctx_any) =
    [0x69; 0xc4; 0xe0; 0xd8; 0x6a; 0x7b; 0x04; 0x30;
     0xd8; 0xcd; 0xb7; 0x80; 0x70; 0xb4; 0xc5; 0x5a] /\
  aes_decrypt (aes_encrypt fips_in (aes_encrypt_key (fips_key 16) 128 ctx_any))
    (aes_decrypt_key (fips_key 16) 128 ctx_any) = fips_in.
Proof. split; vm_compute; reflexivity. Qed.

Example fips_c2 :
  aes_encrypt fips_in (aes_encrypt_key (fips_key 24) 192 ctx_any) =
    [0xdd; 0xa9; 0x7c; 0xa4; 0x86; 0x4c; 0xdf; 0xe0;
     0x6e; 0xaf; 0x70; 0xa0; 0xec; 0x0d; 0x71; 0x91] /\
  aes_decrypt (aes_encrypt fips_in (aes_encrypt_key (fips_key 24) 192 ctx_any))
    (aes_decrypt_key (fips_key 24) 192 ctx_any) = fips_in.
Proof. split; vm_compute; reflexivity. Qed.

Example fips_c3 :
  aes_encrypt fips_in (aes_encrypt_key (fips_key 32) 256 ctx_any) =
    [0x8e; 0xa2; 0xb7; 0xca; 0x51; 0x67; 0x45; 0xbf;
     0xea; 0xfc; 0x49; 0x90; 0x4b; 0x49; 0x60; 0x89] /\
  aes_decrypt (aes_encrypt fips_in (aes_encrypt_key (fips_key 32) 256 ctx_any))
    (aes_decrypt_key (fips_key 32) 256 ctx_any) = fips_in.
Proof. split; vm_compute; reflexivity. Qed.

Example fips_encrypt_c3 :
  fips_encrypt (fips_key 32) fips_in = aes_encrypt fips_in (aes_encrypt_key (fips_key 32) 256 ctx_any)
  /\ fips_decrypt (fips_key 24) (fips_encrypt (fips_key 24) fips_in) = fips_in.
Proof. split; vm_compute; reflexivity. Qed.
