(* ===== verification/AesInstance.v ===== *)
(** AES as the block cipher of Cipher, with the key schedules Algs takes as
    given: what the ciphers, the key exchange and the packet engine assume of a
    block function and of its keys holds of the code of aes.c. *)

From S2P Require Import Prelude CTypes Cipher Algs SkeKeySpec Aes AesSpec AesProps.

Definition aes_key_valid (key : list Z) : bool :=
  forallb (fun x => (0 <=? x) && (x <? 256)) key &&
  ((zlen key =? 16) || (zlen key =? 24) || (zlen key =? 32)).

Lemma aes_key_valid_ok key : aes_key_valid key = true -> aes_key_ok key.
Proof.
  unfold aes_key_valid, aes_key_ok. intros [Hb H]%andb_true_iff. split; [by apply bytes_ok_check|].
  apply orb_true_iff in H as [H|H]; [apply orb_true_iff in H as [H|H]|]; lia.
Qed.

(** A context that holds the schedule of a key; those of other lengths, which
    the code leaves without one, are left out. *)
Definition AesKey : Type := { key : list Z | aes_key_valid key = true }.

Definition aes_key_zero : AesKey := exist _ (zrepeat 0 16) eq_refl.

(** The first [len] bits of a key. *)
Definition aes_key_of (key : list Z) (len : Z) : AesKey :=
  match Bool.bool_dec (aes_key_valid (ztake (len / 8) key)) true with
  | left H => exist _ (ztake (len / 8) key) H
  | right _ => aes_key_zero
  end.

#[export] Instance aes_block : BlockCipher :=
  {| block_key := AesKey;
     Cipher.aes_encrypt k b :=
       Aes.aes_encrypt b (aes_encrypt_key (proj1_sig k) (8 * zlen (proj1_sig k)) aes_ctx0);
     Cipher.aes_decrypt k b :=
       Aes.aes_decrypt b (aes_decrypt_key (proj1_sig k) (8 * zlen (proj1_sig k)) aes_ctx0) |}.

#[export] Instance aes_block_laws : BlockLaws aes_block.
Proof.
  split; intros [key Hv] b Hb; pose proof (aes_key_valid_ok key Hv) as Hk;
    cbn [Cipher.aes_encrypt Cipher.aes_decrypt aes_block proj1_sig].
  - rewrite aes_encrypt_is_fips by (try done; by right). by apply fips_encrypt_block.
  - rewrite aes_encrypt_is_fips by (try done; by right).
    rewrite aes_decrypt_is_fips; [|done|by right|done|by apply fips_encrypt_block].
    by apply fips_decrypt_encrypt.
Qed.

#[export] Instance aes_block_keys : BlockKeys aes_block :=
  {| block_zero := aes_key_zero;
     set_encrypt_key := aes_key_of;
     set_decrypt_key := aes_key_of |}.

#[export] Instance aes_block_keys_laws : BlockKeysLaws aes_block_keys.
Proof. by split. Qed.

(** For the keys of the default ciphers the schedule is that of the key. *)
Lemma aes_key_of_valid key len :
  bytes_ok key -> len = 128 \/ len = 192 \/ len = 256 -> zlen key = len / 8 ->
  proj1_sig (aes_key_of key len) = key.
Proof.
  intros Hb Hl Hk. unfold aes_key_of. rewrite ztake_all by lia.
  destruct (Bool.bool_dec _ _) as [H|H]; [done|]. exfalso. apply H. unfold aes_key_valid.
  rewrite Hk. apply andb_true_iff. split.
  - apply forallb_forall. intros x Hx. rewrite List.Forall_forall in Hb. specialize (Hb x Hx).
    unfold is_byte in Hb. apply andb_true_iff. lia.
  - by destruct Hl as [-> | [-> | ->]].
Qed.

(** The default ciphers, with the AES of aes.c. *)
Definition aes_default_ciphers : list SilcCipherObject :=
  @silc_default_ciphers aes_block aes_block_keys [].

(** NIST SP 800-38A, F.2.1: CBC-AES128, the first block. *)
Example sp800_38a_cbc :
  match silc_aes_cbc_encrypt (H := aes_block)
    (aes_key_of [0x2b; 0x7e; 0x15; 0x16; 0x28; 0xae; 0xd2; 0xa6;
                 0xab; 0xf7; 0x15; 0x88; 0x09; 0xcf; 0x4f; 0x3c] 128)
    [0x6b; 0xc1; 0xbe; 0xe2; 0x2e; 0x40; 0x9f; 0x96;
     0xe9; 0x3d; 0x7e; 0x11; 0x73; 0x93; 0x17; 0x2a] (map Z.of_nat (seq 0 16)) with
  | Some (dst, _, _) => dst
  | None => []
  end = [0x76; 0x49; 0xab; 0xac; 0x81; 0x19; 0xb2; 0x46;
         0xce; 0xe9; 0x8e; 0x9b; 0x12; 0xe9; 0x19; 0x7d].
Proof. vm_compute. reflexivity. Qed.
