(* ===== verification/Sched.v ===== *)
(** The scheduler's timeout tasks: src/lib/silcutil/silcschedule.c.

    Tasks are in memory: an address that is not in [heap] is not allocated, and
    using it is a fault ([None]).  Their [next] pointers are in [links], under the
    operations of SilcList.  A callback is a program: the operations it performs,
    which may depend on everything that happened ([script]); the callback
    silc_schedule_timeout_gc of the scheduler itself is translated.  [trace] and
    [t_id] are ghosts: what was added, deleted, called and removed, each addition
    with a number of its own.  File descriptor tasks appear as the operations
    their callbacks perform; there is no notify callback and no signal task. *)

From stdpp Require Import gmap sets list.
From S2P Require Import Prelude CTypes HashTableSpec SilcList.

Record timeval := { tv_sec : Z; tv_usec : Z }.

Record SilcTaskTimeout := {
  t_callback : Z;
  t_context : Z;
  t_valid : bool;
  t_timeout : timeval;
  t_id : Z;
}.

Inductive event :=
| ev_added (id : Z) (task : ptr) (timeout : timeval)
| ev_deleted (id : Z)
| ev_called (id : Z) (now : timeval) (dispatch_all : bool)
| ev_removed (id : Z).

#[export] Instance timeval_eq_dec : EqDecision timeval.
Proof. solve_decision. Defined.
#[export] Instance event_eq_dec : EqDecision event.
Proof. solve_decision. Defined.

(** SilcScheduleStruct; [brk] is the next address silc_calloc gives, [reads]
    counts the readings of the clock, [adds] the additions. *)
Record SilcSchedule := {
  heap : gmap ptr SilcTaskTimeout;
  links : Memory;
  timeout_queue : SilcList;
  free_tasks : SilcList;
  timeout : timeval;
  has_timeout : bool;
  valid : bool;
  brk : ptr;
  reads : nat;
  adds : Z;
  trace : list event;
}.

Definition set_heap (x : gmap ptr SilcTaskTimeout) (s : SilcSchedule) : SilcSchedule :=
  {| heap := x; links := links s; timeout_queue := timeout_queue s; free_tasks := free_tasks s;
     timeout := timeout s; has_timeout := has_timeout s; valid := valid s; brk := brk s;
     reads := reads s; adds := adds s; trace := trace s |}.
Definition set_queue (h : Memory) (x : SilcList) (s : SilcSchedule) : SilcSchedule :=
  {| heap := heap s; links := h; timeout_queue := x; free_tasks := free_tasks s;
     timeout := timeout s; has_timeout := has_timeout s; valid := valid s; brk := brk s;
     reads := reads s; adds := adds s; trace := trace s |}.
Definition set_free (h : Memory) (x : SilcList) (s : SilcSchedule) : SilcSchedule :=
  {| heap := heap s; links := h; timeout_queue := timeout_queue s; free_tasks := x;
     timeout := timeout s; has_timeout := has_timeout s; valid := valid s; brk := brk s;
     reads := reads s; adds := adds s; trace := trace s |}.
Definition set_timeout (x : timeval) (b : bool) (s : SilcSchedule) : SilcSchedule :=
  {| heap := heap s; links := links s; timeout_queue := timeout_queue s; free_tasks := free_tasks s;
     timeout := x; has_timeout := b; valid := valid s; brk := brk s;
     reads := reads s; adds := adds s; trace := trace s |}.
Definition set_valid (b : bool) (s : SilcSchedule) : SilcSchedule :=
  {| heap := heap s; links := links s; timeout_queue := timeout_queue s; free_tasks := free_tasks s;
     timeout := timeout s; has_timeout := has_timeout s; valid := b; brk := brk s;
     reads := reads s; adds := adds s; trace := trace s |}.
Definition set_brk (x : ptr) (s : SilcSchedule) : SilcSchedule :=
  {| heap := heap s; links := links s; timeout_queue := timeout_queue s; free_tasks := free_tasks s;
     timeout := timeout s; has_timeout := has_timeout s; valid := valid s; brk := x;
     reads := reads s; adds := adds s; trace := trace s |}.
Definition log (e : event) (s : SilcSchedule) : SilcSchedule :=
  {| heap := heap s; links := links s; timeout_queue := timeout_queue s; free_tasks := free_tasks s;
     timeout := timeout s; has_timeout := has_timeout s; valid := valid s; brk := brk s;
     reads := reads s;
     adds := match e with ev_added _ _ _ => adds s + 1 | _ => adds s end;
     trace := trace s ++ [e] |}.
Definition clock_read (s : SilcSchedule) : SilcSchedule :=
  {| heap := heap s; links := links s; timeout_queue := timeout_queue s; free_tasks := free_tasks s;
     timeout := timeout s; has_timeout := has_timeout s; valid := valid s; brk := brk s;
     reads := S (reads s); adds := adds s; trace := trace s |}.

(** silctime.c *)
Definition silc_compare_timeval (t1 t2 : timeval) : Z :=
  let s := s32 (tv_sec t1 - tv_sec t2) in
  if s =? 0 then s32 (tv_usec t1 - tv_usec t2) else s.

Definition task_invalid (t : SilcTaskTimeout) : SilcTaskTimeout :=
  {| t_callback := t_callback t; t_context := t_context t; t_valid := false;
     t_timeout := t_timeout t; t_id := t_id t |}.

(** silc_list_get on a list of tasks: the entry it moves on from is read. *)
Definition task_get (s : SilcSchedule) (l : SilcList) : option (option ptr * SilcList) :=
  match sl_current l with
  | Some p => match heap s !! p with
              | Some _ => Some (silc_list_get (links s) l)
              | None => None
              end
  | None => Some (silc_list_get (links s) l)
  end.

(** The bound of the loops over a list: no list has more entries than there are
    tasks. *)
Definition list_fuel (s : SilcSchedule) : nat := S (size (heap s)).

(** * Removing *)

(** silc_schedule_task_remove, of a timeout task. *)
Definition silc_schedule_task_remove (s : SilcSchedule) (task : ptr) : option SilcSchedule :=
  t ← heap s !! task;
  '(h, q) ← silc_list_del (list_fuel s) (links s) (timeout_queue s) task;
  let s := set_queue h q s in
  '(h, f) ← silc_list_add (links s) (free_tasks s) task;
  Some (log (ev_removed (t_id t)) (set_free h f s)).

(** SILC_ALL_TASKS: while ((task = silc_list_get(queue))) ... *)
Fixpoint remove_all_loop (fuel : nat) (s : SilcSchedule) : option SilcSchedule :=
  match fuel with
  | O => None
  | S fuel =>
      '(task, q) ← task_get s (timeout_queue s);
      let s := set_queue (links s) q s in
      match task with
      | None => Some s
      | Some p =>
          t ← heap s !! p;
          '(h, q) ← silc_list_del (list_fuel s) (links s) (timeout_queue s) p;
          remove_all_loop fuel
            (log (ev_removed (t_id t)) (set_heap (delete p (heap s)) (set_queue h q s)))
      end
  end.

Definition silc_schedule_task_remove_all (s : SilcSchedule) : option SilcSchedule :=
  remove_all_loop (list_fuel s) (set_queue (links s) (silc_list_start (timeout_queue s)) s).

Section scheduler.
(** The n-th reading of the clock. *)
Context (clock : nat -> timeval).

(** * Adding *)

(** The loop that looks for the place: the entry the task goes behind, when there
    is an entry with a later timeout. *)
Fixpoint place_loop (fuel : nat) (s : SilcSchedule) (time : timeval) (list : SilcList)
    (prev : option ptr) : option (option (option ptr)) :=
  match fuel with
  | O => None
  | S fuel =>
      '(tmp, list) ← task_get s list;
      match tmp with
      | None => Some None
      | Some q =>
          t ← heap s !! q;
          if silc_compare_timeval time (t_timeout t) <? 0 then Some (Some prev)
          else place_loop fuel s time list (Some q)
      end
  end.

Definition add_time (now : timeval) (seconds useconds : Z) : timeval :=
  if seconds + useconds >? 0 then
    let sec := tv_sec now + (seconds + Z.quot useconds 1000000) in
    let usec := tv_usec now + Z.rem useconds 1000000 in
    if usec >=? 1000000 then {| tv_sec := sec + 1; tv_usec := usec - 1000000 |}
    else {| tv_sec := sec; tv_usec := usec |}
  else now.

(** A task from the free list, or a new one. *)
Definition task_alloc (s : SilcSchedule) : option (ptr * SilcSchedule) :=
  '(e, f) ← task_get s (silc_list_start (free_tasks s));
  match e with
  | None => Some (brk s, set_brk (brk s + 1) (set_free (links s) f s))
  | Some p =>
      '(h, f) ← silc_list_del (list_fuel s) (links s) f p;
      Some (p, set_free h f s)
  end.

Definition silc_schedule_task_add_timeout (s : SilcSchedule) (callback context seconds useconds : Z)
  : option (option ptr * SilcSchedule) :=
  if negb (valid s) then Some (None, s)
  else
    '(p, s) ← task_alloc s;
    let time := add_time (clock (reads s)) seconds useconds in
    let s := clock_read s in
    let s := set_heap (<[p := {| t_callback := callback; t_context := context; t_valid := true;
                                 t_timeout := time; t_id := adds s |}]> (heap s)) s in
    place ← place_loop (list_fuel s) s time (silc_list_start (timeout_queue s)) None;
    '(h, q) ← (match place with
               | Some prev => Some (silc_list_insert (links s) (timeout_queue s) prev p)
               | None => silc_list_add (links s) (timeout_queue s) p
               end);
    Some (Some p, log (ev_added (adds s) p time) (set_queue h q s)).

(** * Deleting *)

Definition silc_schedule_task_del (s : SilcSchedule) (task : ptr) : option SilcSchedule :=
  t ← heap s !! task;
  Some (log (ev_deleted (t_id t)) (set_heap (<[task := task_invalid t]> (heap s)) s)).

(** The tasks of a list that [sel] selects. *)
Fixpoint del_list_loop (fuel : nat) (sel : SilcTaskTimeout -> bool) (s : SilcSchedule)
    (list : SilcList) (ret : bool) : option (bool * SilcList * SilcSchedule) :=
  match fuel with
  | O => None
  | S fuel =>
      '(task, list) ← task_get s list;
      match task with
      | None => Some (ret, list, s)
      | Some p =>
          t ← heap s !! p;
          if sel t then
            s ← silc_schedule_task_del s p;
            del_list_loop fuel sel s list true
          else del_list_loop fuel sel s list ret
      end
  end.

(** silc_schedule_task_del(schedule, SILC_ALL_TASKS) walks the queue with the
    queue's own cursor, the others with that of a copy. *)
Definition silc_schedule_task_del_all (s : SilcSchedule) : option SilcSchedule :=
  let q := silc_list_start (timeout_queue s) in
  '(_, q, s) ← del_list_loop (list_fuel s) (fun _ => true) s q false;
  Some (set_queue (links s) q s).

Definition del_selected (s : SilcSchedule) (sel : SilcTaskTimeout -> bool)
  : option (bool * SilcSchedule) :=
  '(ret, _, s) ← del_list_loop (list_fuel s) sel s (silc_list_start (timeout_queue s)) false;
  Some (ret, s).

Definition silc_schedule_task_del_by_callback (s : SilcSchedule) (callback : Z) :=
  del_selected s (fun t => t_callback t =? callback).

Definition silc_schedule_task_del_by_context (s : SilcSchedule) (context : Z) :=
  del_selected s (fun t => t_context t =? context).

(** With no file descriptor. *)
Definition silc_schedule_task_del_by_all (s : SilcSchedule) (callback context : Z) :=
  del_selected s (fun t => (t_callback t =? callback) && (t_context t =? context)).

Definition silc_schedule_stop (s : SilcSchedule) : SilcSchedule := set_valid false s.

(** * Callbacks *)

Definition silc_schedule_timeout_gc_cb : Z := 0.

(** while ((t = silc_list_get(free_tasks)) && c-- > 0), [c] as far as it counts. *)
Fixpoint gc_loop (c : nat) (s : SilcSchedule) : option SilcSchedule :=
  '(t, f) ← task_get s (free_tasks s);
  let s := set_free (links s) f s in
  match t, c with
  | Some p, S c =>
      '(h, f) ← silc_list_del (list_fuel s) (links s) (free_tasks s) p;
      gc_loop c (set_heap (delete p (heap s)) (set_free h f s))
  | _, _ => Some s
  end.

(** How many tasks of the free list are freed. *)
Definition gc_count (free queue : Z) : Z :=
  let c := Z.quot free 2 in
  let c := if c >? queue then free - queue else c in
  if free - c <? 10 then c - (10 - (free - c)) else c.

Definition gc_again (s : SilcSchedule) : option SilcSchedule :=
  '(_, s) ← silc_schedule_task_add_timeout s silc_schedule_timeout_gc_cb 0 3600 0;
  Some s.

Definition silc_schedule_timeout_gc (s : SilcSchedule) : option SilcSchedule :=
  if negb (valid s) then Some s
  else if silc_list_count (free_tasks s) <=? 10 then gc_again s
  else if silc_list_count (timeout_queue s) >? silc_list_count (free_tasks s) then gc_again s
  else
    let c := gc_count (silc_list_count (free_tasks s)) (silc_list_count (timeout_queue s)) in
    s ← gc_loop (Z.to_nat c) (set_free (links s) (silc_list_start (free_tasks s)) s);
    gc_again (set_free (links s) (silc_list_start (free_tasks s)) s).

(** What a callback, or the application, may do with the scheduler; it deletes
    tasks by the numbers of their additions. *)
Inductive operation :=
| op_add_timeout (callback context seconds useconds : Z)
| op_del (id : Z)
| op_del_all
| op_del_by_callback (callback : Z)
| op_del_by_context (context : Z)
| op_del_by_all (callback context : Z)
| op_stop.

(** The task of an addition, while the application may use it: until it is
    removed. *)
Definition is_removed (id : Z) (e : event) : bool :=
  match e with ev_removed i => i =? id | _ => false end.

Fixpoint added_as (id : Z) (tr : list event) : option ptr :=
  match tr with
  | [] => None
  | ev_added i p _ :: tr => if i =? id then Some p else added_as id tr
  | _ :: tr => added_as id tr
  end.

Definition task_of (tr : list event) (id : Z) : option ptr :=
  if existsb (is_removed id) tr then None else added_as id tr.

Definition run_op (s : SilcSchedule) (op : operation) : option SilcSchedule :=
  match op with
  | op_add_timeout cb ctx sec usec => option_map snd (silc_schedule_task_add_timeout s cb ctx sec usec)
  | op_del id => match task_of (trace s) id with
                 | Some p => silc_schedule_task_del s p
                 | None => Some s
                 end
  | op_del_all => silc_schedule_task_del_all s
  | op_del_by_callback cb => option_map snd (silc_schedule_task_del_by_callback s cb)
  | op_del_by_context ctx => option_map snd (silc_schedule_task_del_by_context s ctx)
  | op_del_by_all cb ctx => option_map snd (silc_schedule_task_del_by_all s cb ctx)
  | op_stop => Some (silc_schedule_stop s)
  end.

Fixpoint run_ops (s : SilcSchedule) (ops : list operation) : option SilcSchedule :=
  match ops with
  | [] => Some s
  | op :: ops => s ← run_op s op; run_ops s ops
  end.

(** The operations of the callback called last. *)
Context (script : list event -> list operation).

Definition run_callback (s : SilcSchedule) (callback : Z) : option SilcSchedule :=
  if callback =? silc_schedule_timeout_gc_cb then silc_schedule_timeout_gc s
  else run_ops s (script (trace s)).

(** * Dispatching *)

(** if (!t->valid) { silc_schedule_task_remove(schedule, t); continue; }: to the
    first valid task from [task] on. *)
Fixpoint skip_invalid (fuel : nat) (s : SilcSchedule) (task : ptr)
  : option (option ptr * SilcSchedule) :=
  match fuel with
  | O => None
  | S fuel =>
      t ← heap s !! task;
      if t_valid t then Some (Some task, s)
      else
        s ← silc_schedule_task_remove s task;
        '(next, q) ← task_get s (timeout_queue s);
        let s := set_queue (links s) q s in
        match next with
        | None => Some (None, s)
        | Some next => skip_invalid fuel s next
        end
  end.

(** One task whose time has come: silc_schedule_dispatch_timeout calls it and
    removes it. *)
Definition dispatch_task (s : SilcSchedule) (task : ptr) (t : SilcTaskTimeout) (now : timeval)
    (dispatch_all : bool) : option SilcSchedule :=
  let s := set_heap (<[task := task_invalid t]> (heap s)) s in
  let s := log (ev_called (t_id t) now dispatch_all) s in
  s ← run_callback s (t_callback t);
  silc_schedule_task_remove s task.

(** [n] more calls until ++count > 40. *)
Fixpoint dispatch_timeout_loop (n : nat) (s : SilcSchedule) (task : ptr) (now : timeval)
    (dispatch_all : bool) : option SilcSchedule :=
  '(next, s) ← skip_invalid (list_fuel s) s task;
  match next with
  | None => Some s
  | Some p =>
      t ← heap s !! p;
      if (silc_compare_timeval (t_timeout t) now >? 0) && negb dispatch_all then Some s
      else
        s ← dispatch_task s p t now dispatch_all;
        match n with
        | O => Some s
        | S n =>
            '(next, q) ← task_get s (timeout_queue s);
            let s := set_queue (links s) q s in
            match next with
            | None => Some s
            | Some p => dispatch_timeout_loop n s p now dispatch_all
            end
        end
  end.

(** silc_list_start(queue); task = silc_list_get(queue) *)
Definition queue_first (s : SilcSchedule) : option (option ptr * SilcSchedule) :=
  '(task, q) ← task_get s (silc_list_start (timeout_queue s));
  Some (task, set_queue (links s) q s).

Definition silc_schedule_dispatch_timeout (s : SilcSchedule) (dispatch_all : bool)
  : option SilcSchedule :=
  let now := clock (reads s) in
  '(task, s) ← queue_first (clock_read s);
  match task with
  | None => Some s
  | Some p => dispatch_timeout_loop 40 s p now dispatch_all
  end.

(** The time from [now] until [time], as it is saved. *)
Definition next_timeout (time now : timeval) : timeval :=
  let sec := tv_sec time - tv_sec now in
  let usec := tv_usec time - tv_usec now in
  let sec := if sec <? 0 then 0 else sec in
  if usec <? 0 then
    {| tv_sec := if sec - 1 <? 0 then 0 else sec - 1; tv_usec := usec + 1000000 |}
  else {| tv_sec := sec; tv_usec := usec |}.

(** From the first valid task on, without dispatching. *)
Definition save_timeout (s : SilcSchedule) (task : option ptr) (now : timeval)
  : option SilcSchedule :=
  match task with
  | None => Some s
  | Some p => t ← heap s !! p; Some (set_timeout (next_timeout (t_timeout t) now) true s)
  end.

Definition skip_from (s : SilcSchedule) (task : option ptr) : option (option ptr * SilcSchedule) :=
  match task with
  | None => Some (None, s)
  | Some p => skip_invalid (list_fuel s) s p
  end.

(** The first valid task; the invalid ones before it are removed. *)
Definition first_valid (s : SilcSchedule) : option (option ptr * SilcSchedule) :=
  '(task, s) ← queue_first s;
  skip_from s task.

Definition silc_schedule_select_timeout (s : SilcSchedule) : option SilcSchedule :=
  let now := clock (reads s) in
  let s := set_timeout (timeout s) false (clock_read s) in
  '(task, s) ← first_valid s;
  match task with
  | None => Some s
  | Some p =>
      t ← heap s !! p;
      if silc_compare_timeval (t_timeout t) now <=? 0 then
        s ← silc_schedule_dispatch_timeout s false;
        if negb (valid s) then Some s
        else
          '(task, s) ← first_valid s;
          save_timeout s task now
      else save_timeout s task now
  end.

(** * The scheduler *)

(** What schedule_ops.schedule gives: the timeout; file descriptor tasks, with the
    operations their callbacks perform; or an error. *)
Inductive select_result := sel_timeout | sel_tasks (ops : list operation) | sel_error.

(** One round of silc_schedule_iterate; FALSE when the scheduler is stopped. *)
Definition silc_schedule_iterate (s : SilcSchedule) (timeout_usecs : Z) (ret : select_result)
  : option (bool * SilcSchedule) :=
  if negb (valid s) then Some (false, s)
  else
    s ← silc_schedule_select_timeout s;
    if negb (valid s) then Some (false, s)
    else
      let s := if timeout_usecs >=? 0
               then set_timeout {| tv_sec := 0; tv_usec := timeout_usecs |} true s else s in
      match ret with
      | sel_timeout =>
          if negb (silc_list_count (timeout_queue s) =? 0) then
            s ← silc_schedule_dispatch_timeout s false; Some (true, s)
          else Some (true, s)
      | sel_tasks ops =>
          s ← run_ops s ops;
          if has_timeout s && (tv_sec (timeout s) =? 0) && (tv_usec (timeout s) <? 50000) then
            s ← silc_schedule_dispatch_timeout s false; Some (true, s)
          else Some (true, s)
      | sel_error => Some (true, s)
      end.

Definition schedule_zero : SilcSchedule :=
  {| heap := ∅; links := fun _ => {| l_next := None; l_prev := None |};
     timeout_queue := silc_list_init; free_tasks := silc_list_init;
     timeout := {| tv_sec := 0; tv_usec := 0 |}; has_timeout := false; valid := true; brk := 1;
     reads := 0; adds := 0; trace := [] |}.

Definition silc_schedule_init : option SilcSchedule := gc_again schedule_zero.

(** while ((task = silc_list_get(schedule->free_tasks))) silc_free(task); *)
Fixpoint free_loop (fuel : nat) (s : SilcSchedule) : option SilcSchedule :=
  match fuel with
  | O => None
  | S fuel =>
      '(task, f) ← task_get s (free_tasks s);
      let s := set_free (links s) f s in
      match task with
      | None => Some s
      | Some p => _ ← heap s !! p; free_loop fuel (set_heap (delete p (heap s)) s)
      end
  end.

Definition silc_schedule_uninit (s : SilcSchedule) : option (bool * SilcSchedule) :=
  if valid s then Some (false, s)
  else
    s ← silc_schedule_dispatch_timeout s true;
    s ← silc_schedule_task_del_all s;
    s ← silc_schedule_task_remove_all s;
    s ← free_loop (list_fuel s) (set_free (links s) (silc_list_start (free_tasks s)) s);
    Some (true, s).

(** What happens to a scheduler: the application's operations, and rounds. *)
Inductive happening := hap_ops (ops : list operation) | hap_round (timeout_usecs : Z) (ret : select_result).

Definition run_happening (s : SilcSchedule) (x : happening) : option SilcSchedule :=
  match x with
  | hap_ops ops => run_ops s ops
  | hap_round t ret => option_map snd (silc_schedule_iterate s t ret)
  end.

Fixpoint run_all (s : SilcSchedule) (l : list happening) : option SilcSchedule :=
  match l with
  | [] => Some s
  | x :: l => s ← run_happening s x; run_all s l
  end.
End scheduler.
