(* ===== verification/SchedSpec.v ===== *)
(** What the scheduler promises: the invariant of its lists, tasks and ghosts, and
    that every operation keeps it; a task is called at most once, not after it was
    deleted and not before its time; a round calls every task that is due. *)

From stdpp Require Import gmap sets list sorting.
From S2P Require Import Prelude CTypes HashTableSpec SilcList Sched.

(** * Lists of tasks in memory *)

(** An operation on a list changes no link of other entries. *)
Definition same_links (h h' : Memory) (l : list ptr) : Prop :=
  forall p, p ∉ l -> h' p = h p.

Lemma set_next_other p v (h : Memory) q : q <> p -> set_next p v h q = h q.
Proof. intros H. unfold set_next. by rewrite decide_False. Qed.

Lemma list_rep_frame h h' L l k :
  list_rep h L l -> same_links h h' k -> (forall p, p ∈ l -> p ∉ k) -> list_rep h' L l.
Proof.
  intros [Hn Hh Ht Hx Hp Hc] Hs Hd. split; try done.
  - eapply nexts_ext; [|exact Hx]. intros p Hin. by rewrite Hs by auto.
  - intros E. eapply prevs_ext; [|by apply Hp]. intros p Hin. by rewrite Hs by auto.
Qed.

Lemma last_or_some l o p : last_or o l = Some p -> l <> [] -> p ∈ l.
Proof.
  intros H Hn. destruct l as [|x l _] using rev_ind; [done|].
  rewrite last_or_app in H. cbn in H. injection H as ->. set_solver.
Qed.

Lemma list_add_frame h L l e h' L' :
  list_rep h L l -> sl_prev_set L = false -> silc_list_add h L e = Some (h', L') ->
  same_links h h' (e :: l).
Proof.
  intros [Hn Hh Ht Hx Hp Hc] Hs. unfold silc_list_add. rewrite Hs.
  destruct (sl_head L) eqn:Eh; [|intros [= <- <-]].
  - destruct (sl_tail L) as [t|] eqn:Et; [|done]. intros [= <- <-] q [? ?]%not_elem_of_cons.
    assert (t ∈ l) as Hin by (apply (last_or_some l None); [done|by intros ->]).
    rewrite !set_next_other; [done|by intros ->|done].
  - intros p [? ?]%not_elem_of_cons. by rewrite set_next_other.
Qed.

Lemma list_insert_frame h L l cur e h' L' :
  sl_prev_set L = false -> silc_list_insert h L cur e = (h', L') ->
  (forall c, cur = Some c -> c ∈ l) -> same_links h h' (e :: l).
Proof.
  intros Hs. unfold silc_list_insert. rewrite Hs. destruct cur as [c|]; intros [= <- <-] Hc p
    [? ?]%not_elem_of_cons.
  - assert (p <> c) by (intros ->; eauto). by rewrite !set_next_other.
  - by rewrite set_next_other.
Qed.

Lemma del_loop_in h e fuel o at_p prev l :
  nexts h l None -> at_p = hd_or l None -> del_loop fuel h e o at_p = Some (true, prev) ->
  prev = o \/ exists q, prev = Some q /\ q ∈ l.
Proof.
  revert o at_p l. induction fuel as [|fuel IH]; intros o at_p l Hx ->; cbn; [done|].
  destruct l as [|q l]; cbn; [done|]. destruct Hx as [Hq Hx].
  destruct (decide (q = e)); [intros [= <-]; by left|]. rewrite Hq. intros H.
  destruct (IH _ _ l Hx eq_refl H) as [->|(q' & -> & ?)]; right; eexists; (split; [done|]); [by left|by right].
Qed.

Lemma list_del_frame h L l e fuel h' L' :
  list_rep h L l -> sl_prev_set L = false -> silc_list_del fuel h L e = Some (h', L') ->
  same_links h h' l.
Proof.
  intros [Hn Hh Ht Hx Hp Hc] Hs. unfold silc_list_del. rewrite Hs.
  destruct (del_loop fuel h e None (sl_head L)) as [[[] prev]|] eqn:E; [| |done].
  - destruct (del_loop_in h e fuel None (sl_head L) prev l) as [->|(q & -> & Hq)]; [done..| |].
    + destruct (l_next (h e)); by intros [= <- <-].
    + destruct (l_next (h e)); intros [= <- <-] x Hpl;
        (rewrite set_next_other; [done|by intros ->]).
  - by intros [= <- <-].
Qed.

(** * Time *)

(** The comparison subtracts seconds in 32 bits: times are compared right when they
    lie within 2^31 seconds of a base time, which is any. *)
Class TimeBase := time_base : Z.

Section base.
Context {base : TimeBase}.

Definition time_ok (t : timeval) : Prop :=
  time_base <= tv_sec t < time_base + 2 ^ 31 /\ 0 <= tv_usec t < 1000000.

Definition time_lt (t1 t2 : timeval) : Prop :=
  tv_sec t1 < tv_sec t2 \/ (tv_sec t1 = tv_sec t2 /\ tv_usec t1 < tv_usec t2).
Definition time_le (t1 t2 : timeval) : Prop := ~ time_lt t2 t1.

Lemma compare_timeval_spec t1 t2 : time_ok t1 -> time_ok t2 ->
  (silc_compare_timeval t1 t2 < 0 <-> time_lt t1 t2) /\
  (silc_compare_timeval t1 t2 > 0 <-> time_lt t2 t1).
Proof.
  unfold time_ok, time_lt, silc_compare_timeval. intros. rewrite !s32_id by lia.
  destruct (Z.eqb_spec (tv_sec t1 - tv_sec t2) 0); lia.
Qed.

#[export] Instance time_le_trans : Transitive time_le.
Proof. intros x y z. unfold time_le, time_lt. lia. Qed.

Lemma time_le_refl t : time_le t t.
Proof. unfold time_le, time_lt. lia. Qed.

(** * The invariant *)

Definition was_called (id : Z) (tr : list event) : Prop := exists now all, ev_called id now all ∈ tr.
Definition was_deleted (id : Z) (tr : list event) : Prop := ev_deleted id ∈ tr.
Definition was_removed (id : Z) (tr : list event) : Prop := ev_removed id ∈ tr.

Definition event_id (e : event) : Z :=
  match e with ev_added id _ _ | ev_deleted id | ev_called id _ _ | ev_removed id => id end.

(** A call as it may be after what happened before. *)
Definition call_ok (tr : list event) (e : event) : Prop :=
  match e with
  | ev_called id now all =>
      ~ was_called id tr /\ ~ was_deleted id tr /\ ~ was_removed id tr /\
      exists p time, ev_added id p time ∈ tr /\ (all = false -> time_le time now)
  | _ => True
  end.

Definition trace_ok (tr : list event) : Prop :=
  forall tr1 e tr2, tr = tr1 ++ e :: tr2 -> call_ok tr1 e.

(** A task of the queue and what happened to it. *)
Record task_ok (tr : list event) (p : ptr) (t : SilcTaskTimeout) : Prop := {
  to_added : ev_added (t_id t) p (t_timeout t) ∈ tr;
  to_there : ~ was_removed (t_id t) tr;
  to_valid : t_valid t = true -> ~ was_called (t_id t) tr /\ ~ was_deleted (t_id t) tr;
  to_invalid : t_valid t = false -> was_called (t_id t) tr \/ was_deleted (t_id t) tr;
  to_time : time_ok (t_timeout t);
}.

Definition time_at (s : SilcSchedule) (p : ptr) : timeval :=
  match heap s !! p with Some t => t_timeout t | None => {| tv_sec := 0; tv_usec := 0 |} end.

(** The queue is [a ++ b] with its cursor at [b], the free list [f]. *)
Record lists_ok (s : SilcSchedule) (a b f : list ptr) : Prop := {
  lo_queue : list_rep (links s) (timeout_queue s) (a ++ b);
  lo_cursor : sl_current (timeout_queue s) = hd_or b None;
  lo_flags : flags (timeout_queue s) = (false, false);
  lo_free : list_rep (links s) (free_tasks s) f;
  lo_free_flags : sl_prev_set (free_tasks s) = false;
  lo_nodup : NoDup ((a ++ b) ++ f);
  lo_heap : forall p, is_Some (heap s !! p) <-> p ∈ (a ++ b) ++ f;
  lo_brk : forall p, is_Some (heap s !! p) -> p < brk s;
}.

Record inv (s : SilcSchedule) (a b f : list ptr) : Prop := {
  i_lists : lists_ok s a b f;
  i_sorted : StronglySorted time_le (map (time_at s) (a ++ b));
  i_tasks : forall p t, p ∈ a ++ b -> heap s !! p = Some t -> task_ok (trace s) p t;
  i_live : forall id p time, ev_added id p time ∈ trace s -> ~ was_removed id (trace s) ->
    p ∈ a ++ b /\ exists t, heap s !! p = Some t /\ t_id t = id;
  i_unique : forall id p time p' time', ev_added id p time ∈ trace s ->
    ev_added id p' time' ∈ trace s -> p = p' /\ time = time';
  i_bound : forall e, e ∈ trace s -> event_id e < adds s;
  i_removed : forall id, was_removed id (trace s) -> was_called id (trace s) \/ was_deleted id (trace s);
  i_trace : trace_ok (trace s);
}.

(** What operations leave of the queue: tasks stay, those at the cursor stay
    behind it or are deleted. *)
Record evolves (s : SilcSchedule) (a b : list ptr) (s' : SilcSchedule) (a' b' : list ptr) : Prop := {
  ev_trace : trace s `prefix_of` trace s';
  ev_passed : a ⊆ a';
  ev_queue : b ⊆ a' ++ b';
  ev_coming : forall p t, p ∈ b -> heap s !! p = Some t -> p ∈ b' \/ was_deleted (t_id t) (trace s');
  ev_tasks : forall p t, p ∈ a ++ b -> heap s !! p = Some t ->
    exists t', heap s' !! p = Some t' /\ t_id t' = t_id t /\ t_timeout t' = t_timeout t;
  ev_has : has_timeout s' = has_timeout s;
}.

Lemma prefix_elem (tr tr' : list event) e : tr `prefix_of` tr' -> e ∈ tr -> e ∈ tr'.
Proof. intros [k ->] H. set_solver. Qed.

Lemma was_deleted_mono id tr tr' : tr `prefix_of` tr' -> was_deleted id tr -> was_deleted id tr'.
Proof. apply prefix_elem. Qed.

Lemma was_called_mono id tr tr' : tr `prefix_of` tr' -> was_called id tr -> was_called id tr'.
Proof. intros Hp (n & b & H). exists n, b. by eapply prefix_elem. Qed.

Lemma ended_mono id tr tr' : tr `prefix_of` tr' ->
  was_called id tr \/ was_deleted id tr -> was_called id tr' \/ was_deleted id tr'.
Proof. intros Hp [H|H]; [left; by eapply was_called_mono|right; by eapply was_deleted_mono]. Qed.

Lemma evolves_refl s a b : evolves s a b s a b.
Proof.
  split; [done|done|set_solver|by left| |done]. intros p t _ H. by exists t.
Qed.

Lemma evolves_same s s' a b : trace s' = trace s -> heap s' = heap s ->
  has_timeout s' = has_timeout s -> evolves s a b s' a b.
Proof.
  intros Et Eh Eb. split; [by rewrite Et|done|set_solver|by left| |done]. intros p t _ H. rewrite Eh. by exists t.
Qed.

Lemma evolves_trans s a b s1 a1 b1 s2 a2 b2 :
  evolves s a b s1 a1 b1 -> evolves s1 a1 b1 s2 a2 b2 -> evolves s a b s2 a2 b2.
Proof.
  intros [T1 P1 Q1 C1 K1 B1] [T2 P2 Q2 C2 K2 B2]. split.
  - by etransitivity.
  - by etransitivity.
  - set_solver.
  - intros p t Hp Ht. destruct (C1 p t Hp Ht) as [Hb|Hd]; [|right; by eapply was_deleted_mono].
    destruct (K1 p t) as (t1 & H1 & E1 & _); [set_solver|done|].
    destruct (C2 p t1 Hb H1) as [|Hd]; [by left|right; by rewrite <- E1].
  - intros p t Hp Ht. destruct (K1 p t Hp Ht) as (t1 & H1 & E1 & F1).
    destruct (K2 p t1) as (t2 & H2 & E2 & F2); [set_solver|done|].
    exists t2. split; [done|]. by rewrite E2, F2.
  - by rewrite B2.
Qed.

Lemma trace_ok_snoc tr e : trace_ok tr -> call_ok tr e -> trace_ok (tr ++ [e]).
Proof.
  intros H He tr1 x tr2 E. destruct tr2 as [|y tr2 _] using rev_ind.
  - apply app_inj_tail in E as [-> ->]. done.
  - rewrite app_comm_cons, app_assoc in E. apply app_inj_tail in E as [-> ->]. by eapply H.
Qed.

(** * The bound of the loops *)

Lemma length_heap (h : gmap ptr SilcTaskTimeout) (l : list ptr) :
  NoDup l -> (forall p, p ∈ l -> is_Some (h !! p)) -> (length l <= size h)%nat.
Proof.
  intros Hn H. rewrite <- size_dom.
  rewrite <- (size_list_to_set (C := gset ptr) l) by done. apply subseteq_size.
  intros p Hp%elem_of_list_to_set. apply elem_of_dom. auto.
Qed.

Lemma lists_fuel s a b f l k :
  lists_ok s a b f -> l ++ k = (a ++ b) \/ l ++ k = f -> (length l < list_fuel s)%nat.
Proof.
  intros H E. unfold list_fuel. apply Nat.lt_succ_r.
  assert (l ⊆ (a ++ b) ++ f) as Hs by (destruct E as [<- | <-]; set_solver).
  apply length_heap.
  - pose proof (lo_nodup _ _ _ _ H) as (N1 & _ & N2)%list.NoDup_app.
    destruct E as [E|E]; [rewrite <- E in N1; by apply list.NoDup_app in N1 as (? & _)|].
    rewrite <- E in N2. by apply list.NoDup_app in N2 as (? & _).
  - intros p Hp. apply (lo_heap _ _ _ _ H). by apply Hs.
Qed.

(** * Walking *)

(** A cursor at the rest of a list of tasks. *)
Definition at_rest (L : SilcList) (y : list ptr) : Prop :=
  sl_current L = hd_or y None /\ sl_end_set L = false.

Lemma task_get_nil s L : at_rest L [] -> task_get s L = Some (None, L).
Proof. intros [Hc _]. unfold task_get, silc_list_get. cbn in Hc. by rewrite Hc. Qed.

Lemma task_get_cons s L x p y :
  nexts (links s) (x ++ p :: y) None -> is_Some (heap s !! p) -> at_rest L (p :: y) ->
  task_get s L = Some (Some p, with_current (hd_or y None) L) /\
  at_rest (with_current (hd_or y None) L) y.
Proof.
  intros [_ [Hn _]]%nexts_app [t Ht] [Hc He]. unfold task_get, silc_list_get. cbn in Hc.
  rewrite Hc, Ht, He, Hn. done.
Qed.

Lemma list_start_rest L l h : list_rep h L l -> at_rest (silc_list_start L) l.
Proof. intros H. split; [apply (lr_head _ _ _ H)|done]. Qed.

Lemma list_rep_cursor h L l c e :
  list_rep h L l ->
  list_rep h {| sl_head := sl_head L; sl_tail := sl_tail L; sl_current := c;
                sl_prev_set := sl_prev_set L; sl_end_set := e; sl_count := sl_count L |} l.
Proof. intros [Hn Hh Ht Hx Hp Hc]. by split. Qed.

Lemma list_start_rep h L l : list_rep h L l -> list_rep h (silc_list_start L) l.
Proof. apply list_rep_cursor. Qed.

Lemma with_current_rep h L l c : list_rep h L l -> list_rep h (with_current c L) l.
Proof. apply list_rep_cursor. Qed.

(** * Parts of the state *)

Lemma lists_ok_heap s s' a b f :
  lists_ok s a b f -> links s' = links s -> timeout_queue s' = timeout_queue s ->
  free_tasks s' = free_tasks s -> brk s' = brk s ->
  (forall p, is_Some (heap s' !! p) <-> is_Some (heap s !! p)) -> lists_ok s' a b f.
Proof.
  intros [Hq Hc Hf Hfr Hff Hn Hh Hb] El Eq Ef Eb Eh.
  split; rewrite ?El, ?Eq, ?Ef, ?Eb; try done.
  - intros p. by rewrite Eh.
  - intros p. rewrite Eh. apply Hb.
Qed.

(** The cursor moved to another place. *)
Lemma lists_ok_cursor s a b a' b' f q :
  lists_ok s a b f -> a ++ b = a' ++ b' -> list_rep (links s) q (a ++ b) ->
  sl_current q = hd_or b' None -> flags q = (false, false) ->
  lists_ok (set_queue (links s) q s) a' b' f.
Proof.
  intros [Hq Hc Hf Hfr Hff Hn Hh Hb] E Hq' Hc' Hf'. split; rewrite <- ?E; done.
Qed.

Lemma inv_cursor s a b a' b' f q :
  inv s a b f -> a ++ b = a' ++ b' -> list_rep (links s) q (a ++ b) ->
  sl_current q = hd_or b' None -> flags q = (false, false) ->
  inv (set_queue (links s) q s) a' b' f.
Proof.
  intros [L S T Lv U B Rm Tr] E Hq Hc Hf. split; rewrite <- ?E; try done. by eapply lists_ok_cursor.
Qed.

Lemma inv_free_cursor s a b f L :
  inv s a b f -> list_rep (links s) L f -> sl_prev_set L = false ->
  inv (set_free (links s) L s) a b f.
Proof.
  intros [[Hq Hc Hf Hfr Hff Hn Hh Hb] S T Lv U B Rm Tr] HL HF. by repeat (split; try done).
Qed.

(** Logging. *)
Lemma lists_ok_log s a b f e : lists_ok s a b f -> lists_ok (log e s) a b f.
Proof. intros H. by apply (lists_ok_heap s). Qed.

(** * The queue's own cursor *)

Lemma queue_get s a b f :
  inv s a b f ->
  match b with
  | [] => task_get s (timeout_queue s) = Some (None, timeout_queue s)
  | p :: b' => exists q, task_get s (timeout_queue s) = Some (Some p, q) /\
      inv (set_queue (links s) q s) (a ++ [p]) b' f
  end.
Proof.
  intros I. pose proof (i_lists _ _ _ _ I) as L. pose proof (lo_flags _ _ _ _ L) as F.
  injection F as F1 F2. assert (at_rest (timeout_queue s) b) as R
    by (split; [apply (lo_cursor _ _ _ _ L)|done]).
  destruct b as [|p b].
  - by apply task_get_nil.
  - destruct (task_get_cons s (timeout_queue s) a p b) as [E R'].
    + apply (lr_nexts _ _ _ (lo_queue _ _ _ _ L)).
    + apply (lo_heap _ _ _ _ L). set_solver.
    + done.
    + eexists. split; [exact E|]. eapply inv_cursor; [exact I|by rewrite <- app_assoc| | |].
      * apply with_current_rep, (lo_queue _ _ _ _ L).
      * done.
      * unfold flags. cbn. by rewrite F1, F2.
Qed.

Lemma queue_first_spec s a b f :
  inv s a b f ->
  match a ++ b with
  | [] => exists s', queue_first s = Some (None, s') /\ inv s' [] [] f /\
            heap s' = heap s /\ trace s' = trace s /\ valid s' = valid s /\ reads s' = reads s /\
            has_timeout s' = has_timeout s
  | p :: b' => exists s', queue_first s = Some (Some p, s') /\ inv s' [p] b' f /\
            heap s' = heap s /\ trace s' = trace s /\ valid s' = valid s /\ reads s' = reads s /\
            has_timeout s' = has_timeout s
  end.
Proof.
  intros I. unfold queue_first. pose proof (i_lists _ _ _ _ I) as L.
  pose proof (lo_queue _ _ _ _ L) as Hq. pose proof (lo_flags _ _ _ _ L) as F.
  injection F as F1 F2.
  assert (inv (set_queue (links s) (silc_list_start (timeout_queue s)) s) [] (a ++ b) f) as I'.
  { eapply inv_cursor; [exact I|done|by apply list_start_rep|apply (lr_head _ _ _ Hq)|].
    unfold flags. cbn. by rewrite F1. }
  pose proof (queue_get _ _ _ _ I') as G. destruct (a ++ b) as [|p b'].
  - assert (task_get s (silc_list_start (timeout_queue s)) =
      Some (None, silc_list_start (timeout_queue s))) as -> by exact G.
    eexists. split; [done|]. done.
  - destruct G as (q & G & I2).
    assert (task_get s (silc_list_start (timeout_queue s)) = Some (Some p, q)) as -> by exact G.
    eexists. split; [done|]. done.
Qed.

(** * Removing *)

Lemma list_fuel_queue s a b f : lists_ok s a b f -> (length (a ++ b) < list_fuel s)%nat.
Proof. intros L. apply (lists_fuel s a b f (a ++ b) [] L). left. by rewrite app_nil_r. Qed.

Lemma list_fuel_free s a b f : lists_ok s a b f -> (length f < list_fuel s)%nat.
Proof. intros L. apply (lists_fuel s a b f f [] L). right. by rewrite app_nil_r. Qed.

Lemma remove_lists s x p y b f t :
  lists_ok s (x ++ p :: y) b f -> heap s !! p = Some t ->
  exists s', silc_schedule_task_remove s p = Some s' /\ lists_ok s' (x ++ y) b (f ++ [p]) /\
    heap s' = heap s /\ trace s' = trace s ++ [ev_removed (t_id t)] /\ adds s' = adds s /\
    valid s' = valid s /\ reads s' = reads s /\ has_timeout s' = has_timeout s.
Proof.
  intros L Ht. pose proof (list_fuel_queue _ _ _ _ L) as Hfuel.
  destruct L as [Hq Hc Hf Hfr Hff Hn Hh Hb]. injection Hf as F1 F2.
  unfold silc_schedule_task_remove. rewrite Ht. cbn [mbind option_bind].
  rewrite <- app_assoc in Hq, Hfuel. cbn [app] in Hq, Hfuel.
  destruct (silc_list_del_rep (links s) (timeout_queue s) x p (y ++ b) (list_fuel s) Hq Hfuel)
    as (h1 & q1 & E1 & R1 & C1 & G1).
  rewrite E1. cbn [mbind option_bind set_queue free_tasks links].
  assert (NoDup (x ++ p :: y ++ b ++ f)) as Hn2.
  { rewrite <- !app_assoc in Hn. exact Hn. }
  assert ((p ∉ f) /\ p ∉ x ++ y ++ b) as [Hpf Hpq].
  { apply list.NoDup_app in Hn2 as (_ & Hx & [Hp _]%list.NoDup_cons). set_solver. }
  assert (same_links (links s) h1 (x ++ p :: y ++ b)) as Fr1
    by (eapply list_del_frame; [exact Hq|done|exact E1]).
  assert (list_rep h1 (free_tasks s) f) as Hfr1.
  { eapply list_rep_frame; [exact Hfr|exact Fr1|]. intros q Hqf Hqq.
    apply list.NoDup_app in Hn as (_ & Hd & _). apply (Hd q); [|done].
    rewrite <- app_assoc. exact Hqq. }
  destruct (silc_list_add_rep h1 (free_tasks s) f p Hfr1 Hpf) as (h2 & f2 & E2 & R2 & C2 & G2).
  rewrite E2. cbn [mbind option_bind]. injection G2 as G3 G4. injection G1 as G5 G6.
  assert (same_links h1 h2 (p :: f)) as Fr2
    by (eapply list_add_frame; [exact Hfr1|done|exact E2]).
  eexists. split; [done|]. split; [|done].
  split; cbn [links timeout_queue free_tasks heap brk log set_free set_queue].
  - rewrite <- app_assoc. eapply list_rep_frame; [exact R1|exact Fr2|]. intros q Hqin Hin.
    apply elem_of_cons in Hin as [->|Hin]; [by apply Hpq|].
    apply list.NoDup_app in Hn as (_ & Hd & _). apply (Hd q); [set_solver|done].
  - rewrite C1, Hc, bool_decide_eq_false_2; [done|]. intros Hcur. apply Hpq.
    destruct b as [|z b]; [done|]. injection Hcur as ->. set_solver.
  - unfold flags. by rewrite G5, G6, F1, F2.
  - exact R2.
  - by rewrite G3.
  - assert (((x ++ y) ++ b) ++ f ++ [p] ≡ₚ x ++ p :: y ++ b ++ f) as -> by solve_Permutation.
    exact Hn2.
  - intros q. rewrite Hh. set_solver.
  - exact Hb.
Qed.

Lemma sorted_sublist {A} (R : A -> A -> Prop) k l :
  StronglySorted R l -> k `sublist_of` l -> StronglySorted R k.
Proof.
  intros Hs Hk. revert Hs. induction Hk as [|x k l Hk IH|x k l Hk IH]; intros Hs; [constructor| |];
    inversion Hs as [|? ? Hl Hx]; subst.
  - constructor; [auto|]. rewrite list.Forall_forall in *. intros z Hz. apply Hx.
    by eapply elem_of_sublist.
  - auto.
Qed.

(** An event of a task after the others. *)
Lemma not_removed_snoc id tr e : ~ was_removed id tr -> e <> ev_removed id -> ~ was_removed id (tr ++ [e]).
Proof. unfold was_removed. intros H He [?|?%list_elem_of_singleton]%elem_of_app; congruence. Qed.

Lemma task_id_inj s a b f p q t u :
  inv s a b f -> p ∈ a ++ b -> q ∈ a ++ b -> heap s !! p = Some t -> heap s !! q = Some u ->
  t_id t = t_id u -> p = q.
Proof.
  intros I Hp Hq Ht Hu E. pose proof (to_added _ _ _ (i_tasks _ _ _ _ I p t Hp Ht)) as A1.
  pose proof (to_added _ _ _ (i_tasks _ _ _ _ I q u Hq Hu)) as A2. rewrite E in A1.
  by destruct (i_unique _ _ _ _ I _ _ _ _ _ A1 A2).
Qed.

(** A task of the queue is removed. *)
Lemma remove_inv s x p y b f :
  inv s (x ++ p :: y) b f -> (forall t, heap s !! p = Some t -> t_valid t = false) ->
  exists s' t, silc_schedule_task_remove s p = Some s' /\ inv s' (x ++ y) b (f ++ [p]) /\
    heap s !! p = Some t /\ heap s' = heap s /\ trace s' = trace s ++ [ev_removed (t_id t)] /\
    valid s' = valid s /\ reads s' = reads s /\ has_timeout s' = has_timeout s.
Proof.
  intros I Hv. pose proof (i_lists _ _ _ _ I) as L.
  destruct (proj2 (lo_heap _ _ _ _ L p)) as [t Ht]; [set_solver|].
  destruct (remove_lists _ _ _ _ _ _ _ L Ht) as (s' & E & L' & Eh & Et & Ea & Ev & Er & Eb).
  exists s', t. split; [done|]. split; [|done].
  assert (p ∉ x ++ y ++ b) as Hpq.
  { pose proof (lo_nodup _ _ _ _ L) as (Hn & _ & _)%list.NoDup_app.
    rewrite <- app_assoc in Hn. apply list.NoDup_app in Hn as (_ & Hd & [Hp _]%list.NoDup_cons).
    set_solver. }
  assert (forall q, q ∈ (x ++ y) ++ b -> q ∈ (x ++ p :: y) ++ b /\ q <> p) as Hin
    by (intros q Hq; split; [set_solver|intros ->; set_solver]).
  assert (task_ok (trace s) p t) as Hp by (apply (i_tasks _ _ _ _ I); [set_solver|done]).
  split; [done| | | | | | |].
  - assert (map (time_at s') ((x ++ y) ++ b) = map (time_at s) ((x ++ y) ++ b)) as ->
      by (apply map_ext; intros q; unfold time_at; by rewrite Eh).
    eapply sorted_sublist; [apply (i_sorted _ _ _ _ I)|]. apply (fmap_sublist (time_at s)).
    apply sublist_app; [|done]. apply sublist_app; [done|]. by apply sublist_cons.
  - intros q u Hq Hu. rewrite Eh in Hu. destruct (Hin q Hq) as [Hq' Hne].
    destruct (i_tasks _ _ _ _ I q u Hq' Hu) as [A R V Iv T]. rewrite Et. split; try done.
    + set_solver.
    + apply not_removed_snoc; [done|]. intros [= E']. apply Hne.
      eapply (task_id_inj s _ _ f q p u t); eauto; [set_solver].
    + intros Hi; destruct (V Hi) as [Hc Hd]. split; [intros (n & al & [Hx|Hx]%elem_of_app); [apply Hc; by exists n, al|]|].
      * by apply list_elem_of_singleton in Hx.
      * intros [Hx|Hx%list_elem_of_singleton]%elem_of_app; [done|done].
    + intros Hi; destruct (Iv Hi) as [Hc|Hd]; [left; eapply was_called_mono; [|done]|right; eapply was_deleted_mono; [|done]];
        by apply prefix_app_r.
  - rewrite Et. intros id q time [Ha|Ha%list_elem_of_singleton]%elem_of_app Hr; [|done].
    assert (~ was_removed id (trace s)) as Hr' by (unfold was_removed in *; set_solver).
    destruct (i_live _ _ _ _ I id q time Ha Hr') as (Hq & u & Hu & Hid).
    rewrite Eh. split; [|by exists u].
    assert (q <> p) by (intros ->; apply Hr; unfold was_removed; assert (u = t) as <- by congruence;
      rewrite Hid; set_solver).
    set_solver.
  - rewrite Et. intros id q time q' time' [Ha|Ha%list_elem_of_singleton]%elem_of_app
      [Hb|Hb%list_elem_of_singleton]%elem_of_app; try done. by eapply (i_unique _ _ _ _ I).
  - rewrite Et, Ea. intros e [He|He%list_elem_of_singleton]%elem_of_app; [by apply (i_bound _ _ _ _ I)|subst e].
    apply (i_bound _ _ _ _ I _ (to_added _ _ _ Hp)).
  - rewrite Et. intros id Hr. eapply ended_mono; [by apply prefix_app_r|].
    apply elem_of_app in Hr as [Hr|Hr%list_elem_of_singleton]; [by apply (i_removed _ _ _ _ I)|].
    injection Hr as ->. apply (to_invalid _ _ _ Hp). by apply Hv.
  - rewrite Et. by apply trace_ok_snoc; [apply (i_trace _ _ _ _ I)|].
Qed.

(** * Invalidating a task *)

Definition ends (e : event) (id : Z) : Prop :=
  e = ev_deleted id \/ exists now all, e = ev_called id now all.

Lemma ends_was e id tr : ends e id -> was_called id (tr ++ [e]) \/ was_deleted id (tr ++ [e]).
Proof.
  intros [->|(n & al & ->)]; [right|left; exists n, al]; apply elem_of_app; right; by left.
Qed.

Lemma ends_id e id : ends e id -> event_id e = id /\ (forall i, e <> ev_removed i) /\
  (forall i p t, e <> ev_added i p t).
Proof. by intros [->|(n & al & ->)]. Qed.

Lemma was_snoc_other id tr e : event_id e <> id ->
  (was_called id (tr ++ [e]) <-> was_called id tr) /\
  (was_deleted id (tr ++ [e]) <-> was_deleted id tr).
Proof.
  intros He. split; split.
  - intros (n & al & [Hx|Hx%list_elem_of_singleton]%elem_of_app); [by exists n, al|].
    subst e. by destruct He.
  - apply was_called_mono, prefix_app_r. done.
  - intros [Hx|Hx%list_elem_of_singleton]%elem_of_app; [done|]. subst e. by destruct He.
  - apply was_deleted_mono, prefix_app_r. done.
Qed.

Lemma was_snoc_added id tr i p t :
  (was_called id (tr ++ [ev_added i p t]) <-> was_called id tr) /\
  (was_deleted id (tr ++ [ev_added i p t]) <-> was_deleted id tr).
Proof.
  split; split.
  - intros (n & al & [Hx|Hx%list_elem_of_singleton]%elem_of_app); [by exists n, al|done].
  - apply was_called_mono, prefix_app_r. done.
  - by intros [Hx|Hx%list_elem_of_singleton]%elem_of_app.
  - apply was_deleted_mono, prefix_app_r. done.
Qed.

Lemma invalidate_inv s a b f p t e :
  inv s a b f -> p ∈ a ++ b -> heap s !! p = Some t -> ends e (t_id t) -> call_ok (trace s) e ->
  let s' := log e (set_heap (<[p := task_invalid t]> (heap s)) s) in
  inv s' a b f /\ evolves s a b s' a b.
Proof.
  intros I Hp Ht He Hc. cbv zeta. pose proof (i_tasks _ _ _ _ I p t Hp Ht) as Hok.
  destruct (ends_id e _ He) as (Eid & Enr & Ena).
  assert (forall q, is_Some (<[p := task_invalid t]> (heap s) !! q) <-> is_Some (heap s !! q)) as Hd.
  { intros q. rewrite lookup_insert_is_Some'. split; [intros [<-|?]; [by exists t|done]|by right]. }
  assert (forall q, time_at (log e (set_heap (<[p := task_invalid t]> (heap s)) s)) q = time_at s q) as Hm.
  { intros q. unfold time_at. cbn [log set_heap heap]. destruct (decide (q = p)) as [->|].
    - by rewrite lookup_insert_eq, Ht.
    - by rewrite lookup_insert_ne. }
  split; [split|].
  - eapply lists_ok_heap; [apply (i_lists _ _ _ _ I)|done..].
  - rewrite (map_ext _ _ Hm). apply (i_sorted _ _ _ _ I).
  - intros q u Hq. cbn [log set_heap heap trace]. destruct (decide (q = p)) as [->|Hne].
    + rewrite lookup_insert_eq. intros [= <-]. cbn. destruct Hok as [A R V Iv T]. split; cbn; try done.
      * set_solver.
      * by apply not_removed_snoc.
      * intros _. by apply ends_was.
    + rewrite lookup_insert_ne by done. intros Hu.
      destruct (i_tasks _ _ _ _ I q u Hq Hu) as [A R V Iv T].
      assert (event_id e <> t_id u) as Hid.
      { rewrite Eid. intros E'. apply Hne. by eapply (task_id_inj s a b f q p u t). }
      destruct (was_snoc_other _ (trace s) e Hid) as [W1 W2]. split; try done.
      * set_solver.
      * by apply not_removed_snoc.
      * intros Hv. rewrite W1, W2. by apply V.
      * intros Hv. rewrite W1, W2. by apply Iv.
  - cbn [log set_heap heap trace]. intros id q time [Ha|Ha%list_elem_of_singleton]%elem_of_app Hr;
      [|by destruct (Ena id q time)].
    destruct (i_live _ _ _ _ I id q time Ha) as (Hq & u & Hu & Hid).
    { unfold was_removed in *. set_solver. }
    split; [done|]. destruct (decide (q = p)) as [->|Hne].
    + rewrite lookup_insert_eq. eexists. split; [done|]. cbn. congruence.
    + rewrite lookup_insert_ne by done. by exists u.
  - cbn [log set_heap trace]. intros id q time q' time' [Ha|Ha%list_elem_of_singleton]%elem_of_app
      [Hb|Hb%list_elem_of_singleton]%elem_of_app;
      [by eapply (i_unique _ _ _ _ I)|exfalso; by eapply Ena..].
  - cbn [log set_heap trace adds]. intros x [Hx|Hx%list_elem_of_singleton]%elem_of_app.
    + pose proof (i_bound _ _ _ _ I x Hx). destruct e; lia.
    + subst x. rewrite Eid. pose proof (i_bound _ _ _ _ I _ (to_added _ _ _ Hok)). cbn in *. destruct e; lia.
  - cbn [log set_heap trace]. intros id Hr. eapply ended_mono; [by apply prefix_app_r|].
    apply (i_removed _ _ _ _ I). apply elem_of_app in Hr as [Hr|Hr%list_elem_of_singleton]; [done|].
    by destruct (Enr id).
  - cbn [log set_heap trace]. by apply trace_ok_snoc; [apply (i_trace _ _ _ _ I)|].
  - split; cbn [log set_heap trace heap]; [by apply prefix_app_r|done|set_solver|by left| |done].
    intros q u Hq Hu. destruct (decide (q = p)) as [->|Hne].
    + rewrite lookup_insert_eq. eexists. split; [done|]. cbn. by replace u with t by congruence.
    + rewrite lookup_insert_ne by done. by exists u.
Qed.

Lemma task_del_spec s a b f p :
  inv s a b f -> p ∈ a ++ b ->
  exists s' t, silc_schedule_task_del s p = Some s' /\ heap s !! p = Some t /\ inv s' a b f /\
    evolves s a b s' a b /\ was_deleted (t_id t) (trace s') /\
    links s' = links s /\ timeout_queue s' = timeout_queue s /\ valid s' = valid s.
Proof.
  intros I Hp. destruct (proj2 (lo_heap _ _ _ _ (i_lists _ _ _ _ I) p)) as [t Ht]; [set_solver|].
  unfold silc_schedule_task_del. rewrite Ht. cbn [mbind option_bind].
  destruct (invalidate_inv s a b f p t (ev_deleted (t_id t)) I Hp Ht) as [I' Ev]; [by left|done|].
  eexists _, t. split; [done|]. split; [done|]. split; [exact I'|]. split; [exact Ev|].
  split; [apply elem_of_app; right; by left|]. done.
Qed.

(** * Deleting tasks of the queue *)

Lemma del_list_loop_spec fuel sel s a b f L x y ret :
  inv s a b f -> a ++ b = x ++ y -> at_rest L y -> (length y < fuel)%nat ->
  exists ret' L' s', del_list_loop fuel sel s L ret = Some (ret', L', s') /\
    inv s' a b f /\ evolves s a b s' a b /\ links s' = links s /\
    timeout_queue s' = timeout_queue s /\ valid s' = valid s /\
    (list_rep (links s) L (a ++ b) -> list_rep (links s) L' (a ++ b)) /\
    sl_current L' = None /\ flags L' = flags L /\
    ((forall t, sel t = true) ->
     forall p t, p ∈ y -> heap s !! p = Some t -> was_deleted (t_id t) (trace s')).
Proof.
  revert s L x y ret. induction fuel as [|fuel IH]; intros s L x y ret I E R Hf; [lia|].
  cbn [del_list_loop]. destruct y as [|p y].
  { rewrite task_get_nil by done. cbn. eexists _, _, _. split; [done|].
    destruct R as [Rc _]. split_and!; try done; [apply evolves_refl|set_solver]. }
  pose proof (i_lists _ _ _ _ I) as Lo.
  assert (p ∈ a ++ b) as Hp by (rewrite E; set_solver).
  destruct (task_get_cons s L x p y) as [G R']; [| |done|].
  { rewrite <- E. apply (lr_nexts _ _ _ (lo_queue _ _ _ _ Lo)). }
  { apply (lo_heap _ _ _ _ Lo). set_solver. }
  rewrite G. cbn [mbind option_bind].
  destruct (proj2 (lo_heap _ _ _ _ Lo p)) as [t Ht]; [set_solver|]. rewrite Ht.
  cbn [mbind option_bind]. rewrite (cons_middle p), app_assoc in E. cbn [length] in Hf.
  destruct (sel t) eqn:Hs.
  - destruct (task_del_spec s a b f p I Hp) as (s1 & t1 & E1 & Ht1 & I1 & V1 & D1 & El & Eq & Ev).
    rewrite E1. cbn [mbind option_bind].
    destruct (IH s1 (with_current (hd_or y None) L) (x ++ [p]) y true I1 E R' ltac:(lia))
      as (ret' & L' & s' & E2 & I2 & V2 & El2 & Eq2 & Ev2 & Hr & Hc & Hfl & Ha).
    exists ret', L', s'. split; [done|]. split; [done|]. split; [by eapply evolves_trans|].
    rewrite El2, Eq2, Ev2, El, Eq, Ev. split_and!; try done.
    + intros Hl. rewrite El in Hr. apply Hr. by apply with_current_rep.
    + intros Hsel q u [->|Hq]%elem_of_cons Hu.
      * replace u with t1 by congruence. eapply was_deleted_mono; [apply (ev_trace _ _ _ _ _ _ V2)|done].
      * destruct (ev_tasks _ _ _ _ _ _ V1 q u) as (u' & Hu' & Eu & _); [rewrite E; set_solver|done|].
        rewrite <- Eu. by apply (Ha Hsel q u').
  - destruct (IH s (with_current (hd_or y None) L) (x ++ [p]) y ret I E R' ltac:(lia))
      as (ret' & L' & s' & E2 & I2 & V2 & El2 & Eq2 & Ev2 & Hr & Hc & Hfl & Ha).
    exists ret', L', s'. split_and!; try done.
    + intros Hl. apply Hr. by apply with_current_rep.
    + intros Hsel. by rewrite Hsel in Hs.
Qed.

(** What an operation does. *)
Definition goes_on (s : SilcSchedule) (a b : list ptr) (r : option SilcSchedule) : Prop :=
  exists s' a' b' f', r = Some s' /\ inv s' a' b' f' /\ evolves s a b s' a' b'.

Lemma del_selected_spec s a b f sel :
  inv s a b f -> goes_on s a b (option_map snd (del_selected s sel)).
Proof.
  intros I. unfold del_selected. pose proof (i_lists _ _ _ _ I) as Lo.
  pose proof (list_start_rest _ _ _ (lo_queue _ _ _ _ Lo)) as R.
  destruct (del_list_loop_spec (list_fuel s) sel s a b f (silc_list_start (timeout_queue s)) [] (a ++ b)
    false I eq_refl R (list_fuel_queue _ _ _ _ Lo)) as (ret' & L' & s' & E & I' & V & _).
  rewrite E. cbn. exists s', a, b, f. done.
Qed.

(** After deleting all tasks the cursor of the queue is at its end. *)
Lemma del_all_spec s a b f :
  inv s a b f -> exists s', silc_schedule_task_del_all s = Some s' /\ inv s' (a ++ b) [] f /\
    evolves s a b s' (a ++ b) [] /\
    (forall p t, p ∈ a ++ b -> heap s !! p = Some t -> was_deleted (t_id t) (trace s')).
Proof.
  intros I. unfold silc_schedule_task_del_all. pose proof (i_lists _ _ _ _ I) as Lo.
  pose proof (lo_queue _ _ _ _ Lo) as Hq. pose proof (list_start_rest _ _ _ Hq) as R.
  destruct (del_list_loop_spec (list_fuel s) (fun _ => true) s a b f (silc_list_start (timeout_queue s))
    [] (a ++ b) false I eq_refl R (list_fuel_queue _ _ _ _ Lo))
    as (ret' & L' & s' & E & I' & V & El & Eq & Ev & Hr & Hc & Hfl & Ha).
  rewrite E. cbn [mbind option_bind]. eexists. split; [done|]. split; [|split; [|by apply Ha]].
  - eapply inv_cursor; [exact I'|by rewrite app_nil_r| |done|].
    + rewrite El. apply Hr. by apply list_start_rep.
    + rewrite Hfl. pose proof (lo_flags _ _ _ _ Lo) as F. injection F as F1 F2.
      unfold flags. cbn. by rewrite F1.
  - destruct V as [T P Q C K B]. split; try done.
    + set_solver.
    + set_solver.
    + intros p t Hp Ht. right. apply (Ha ltac:(done) p t); [set_solver|done].
Qed.

Lemma goes_on_del s a b f id :
  inv s a b f ->
  goes_on s a b (match task_of (trace s) id with
                 | Some p => silc_schedule_task_del s p
                 | None => Some s
                 end).
Proof.
  intros I. destruct (task_of (trace s) id) as [p|] eqn:E.
  2: { exists s, a, b, f. split; [done|]. split; [done|]. apply evolves_refl. }
  unfold task_of in E. destruct (existsb _ _) eqn:Er; [done|].
  assert (exists time, ev_added id p time ∈ trace s) as [time Ha].
  { clear Er I. induction (trace s) as [|[i q u| | |] tr IH]; cbn in E; [done| | | |];
      try (destruct (IH E) as [u' ?]; exists u'; by right).
    destruct (Z.eqb_spec i id) as [->|]; [injection E as ->; exists u; by left|].
    destruct (IH E) as [u' ?]; exists u'; by right. }
  assert (~ was_removed id (trace s)) as Hr.
  { intros Hx%list_elem_of_In. apply not_true_iff_false in Er. apply Er, existsb_exists.
    exists (ev_removed id). split; [done|]. apply Z.eqb_refl. }
  destruct (i_live _ _ _ _ I id p time Ha Hr) as (Hp & _).
  destruct (task_del_spec s a b f p I Hp) as (s' & t & E' & _ & I' & V & _).
  exists s', a, b, f. done.
Qed.

Lemma goes_on_stop s a b f : inv s a b f -> goes_on s a b (Some (silc_schedule_stop s)).
Proof.
  intros [L S T Lv U B Rm Tr]. exists (silc_schedule_stop s), a, b, f. split; [done|]. split.
  - split; try done. by apply (lists_ok_heap s).
  - by apply evolves_same.
Qed.

(** * Adding a task *)

(** The state after task_alloc: the queue as it was, a task that is in no list. *)
Record alloc_ok (s : SilcSchedule) (a b : list ptr) (p : ptr) (s1 : SilcSchedule) (f1 : list ptr) : Prop := {
  al_queue : list_rep (links s1) (timeout_queue s1) (a ++ b);
  al_same_queue : timeout_queue s1 = timeout_queue s;
  al_free : list_rep (links s1) (free_tasks s1) f1;
  al_free_flags : sl_prev_set (free_tasks s1) = false;
  al_nodup : NoDup ((a ++ b) ++ f1);
  al_new : p ∉ (a ++ b) ++ f1;
  al_heap : heap s1 = heap s;
  al_dom : forall q, q <> p -> is_Some (heap s !! q) <-> q ∈ (a ++ b) ++ f1;
  al_brk : p < brk s1 /\ brk s <= brk s1;
  al_rest : trace s1 = trace s /\ adds s1 = adds s /\ reads s1 = reads s /\ valid s1 = valid s /\
    has_timeout s1 = has_timeout s;
}.

Lemma task_alloc_spec s a b f :
  inv s a b f -> exists p s1 f1, task_alloc s = Some (p, s1) /\ alloc_ok s a b p s1 f1.
Proof.
  intros I. pose proof (i_lists _ _ _ _ I) as Lo. destruct Lo as [Hq Hc Hf Hfr Hff Hn Hh Hb] eqn:ELo.
  pose proof (list_start_rest _ _ _ Hfr) as R. pose proof (list_start_rep _ _ _ Hfr) as Hfs.
  unfold task_alloc. destruct f as [|p f].
  - rewrite task_get_nil by done. cbn [mbind option_bind].
    exists (brk s), (set_brk (brk s + 1) (set_free (links s) (silc_list_start (free_tasks s)) s)), [].
    split; [done|]. split; cbn; try done.
    + intros Hin%Hh%Hb. lia.
    + lia.
  - assert (is_Some (heap s !! p)) as Hp by (apply Hh; set_solver).
    destruct (task_get_cons s (silc_list_start (free_tasks s)) [] p f) as [G R'];
      [apply (lr_nexts _ _ _ Hfs)|done|done|].
    rewrite G. cbn [mbind option_bind].
    assert (length (p :: f) < list_fuel s)%nat as Hfuel by (by eapply list_fuel_free).
    destruct (silc_list_del_rep (links s) (with_current (hd_or f None) (silc_list_start (free_tasks s)))
      [] p f (list_fuel s)) as (h' & L' & E & Rp & C & G2); [by apply with_current_rep|done|].
    rewrite E. cbn [mbind option_bind].
    assert (same_links (links s) h' (p :: f)) as Fr
      by (eapply list_del_frame; [| |exact E]; [by apply with_current_rep|done]).
    assert (NoDup (p :: ((a ++ b) ++ f))) as Hn'.
    { assert (p :: ((a ++ b) ++ f) ≡ₚ (a ++ b) ++ p :: f) as -> by solve_Permutation. done. }
    apply list.NoDup_cons in Hn' as [Hpn Hn'].
    exists p, (set_free h' L' s), f. split; [done|]. split; cbn [set_free links timeout_queue free_tasks heap brk trace adds reads valid]; try done.
    + eapply list_rep_frame; [exact Hq|exact Fr|]. intros q Hq1 Hq2.
      by apply (proj1 (proj2 (proj1 (list.NoDup_app _ _) Hn)) q).
    + injection G2 as G3 G4. by rewrite G3.
    + intros q Hne. rewrite Hh. set_solver.
    + split; [by apply Hb|lia].
Qed.

Lemma place_loop_spec fuel s time l L x y :
  nexts (links s) l None -> l = x ++ y -> at_rest L y ->
  (forall q, q ∈ l -> exists t, heap s !! q = Some t /\ time_ok (t_timeout t)) -> time_ok time ->
  (forall q, q ∈ x -> ~ time_lt time (time_at s q)) -> (length y < fuel)%nat ->
  exists x' y', l = x' ++ y' /\ (forall q, q ∈ x' -> ~ time_lt time (time_at s q)) /\
    ((y' = [] /\ place_loop fuel s time L (last_or None x) = Some None) \/
     exists q y'', y' = q :: y'' /\ time_lt time (time_at s q) /\
       place_loop fuel s time L (last_or None x) = Some (Some (last_or None x'))).
Proof.
  intros Hx -> R Hh Ht. revert L x Hx R Hh. revert y. induction fuel as [|fuel IH];
    intros y L x Hx R Hh Hle Hf; [lia|]. cbn [place_loop]. destruct y as [|p y].
  { exists x, []. split; [done|]. split; [done|]. left. split; [done|].
    by rewrite task_get_nil. }
  destruct (Hh p) as (t & Hp & Hok); [set_solver|].
  destruct (task_get_cons s L x p y Hx ltac:(by exists t) R) as [G R'].
  rewrite G. cbn [mbind option_bind]. rewrite Hp. cbn [mbind option_bind].
  destruct (compare_timeval_spec time (t_timeout t) Ht Hok) as [Clt _].
  destruct (Z.ltb_spec (silc_compare_timeval time (t_timeout t)) 0) as [H|H].
  - exists x, (p :: y). split; [done|]. split; [done|]. right. exists p, y.
    split; [done|]. split; [|done]. unfold time_at. rewrite Hp. by apply Clt.
  - rewrite (cons_middle p), app_assoc in *. cbn [length] in Hf.
    replace (Some p) with (last_or None (x ++ [p])) by (by rewrite last_or_app).
    apply IH; try done; [|lia].
    intros q [Hq|Hq%list_elem_of_singleton]%elem_of_app; [by apply Hle|]. subst q.
    unfold time_at. rewrite Hp. rewrite <- Clt. lia.
Qed.

(** At the place, by one of the two operations. *)
Lemma place_insert_spec h L l x y e :
  list_rep h L l -> sl_prev_set L = false -> l = x ++ y -> e ∉ l ->
  exists h' L', (match y with
                 | [] => silc_list_add h L e
                 | _ => Some (silc_list_insert h L (last_or None x) e)
                 end) = Some (h', L') /\
    list_rep h' L' (x ++ e :: y) /\ sl_current L' = sl_current L /\ flags L' = flags L /\
    same_links h h' (e :: l).
Proof.
  intros Hl Hs -> He. destruct y as [|q y].
  - rewrite app_nil_r in *. destruct (silc_list_add_rep h L x e Hl He) as (h' & L' & E & R & C & F).
    exists h', L'. split; [done|]. split; [done|]. split; [done|]. split; [done|].
    by eapply list_add_frame.
  - destruct x as [|c x _] using rev_ind.
    + cbn [app last_or] in *. pose proof (silc_list_insert_head_rep h L (q :: y) e Hl He) as H.
      destruct (silc_list_insert h L None e) as [h' L'] eqn:E. destruct H as (R & C & F).
      exists h', L'. split_and!; try done. by eapply list_insert_frame; [|exact E|].
    + rewrite last_or_app. cbn [last_or]. rewrite <- app_assoc in *. cbn [app] in *.
      pose proof (silc_list_insert_after_rep h L x c (q :: y) e Hl He) as H.
      destruct (silc_list_insert h L (Some c) e) as [h' L'] eqn:E. destruct H as (R & C & F).
      exists h', L'. split_and!; try done. eapply list_insert_frame; [done|exact E|].
      intros z [= <-]. set_solver.
Qed.

(** The cursor stays where it is. *)
Lemma split_insert (a b x y : list ptr) e :
  a ++ b = x ++ y ->
  exists a' b', a' ++ b' = x ++ e :: y /\ hd_or b' None = hd_or b None /\ a ⊆ a' /\ b ⊆ b' /\
    (a' ++ b' ≡ₚ e :: a ++ b).
Proof.
  intros E. assert (forall u v : list ptr, u ++ e :: v ≡ₚ e :: u ++ v) as Pm by (intros; solve_Permutation).
  destruct (app_eq_inv _ _ _ _ E) as [(k & -> & ->)|(k & -> & ->)].
  - exists (x ++ e :: k), b. rewrite <- app_assoc. split_and!; [done|done|set_solver|done|].
    cbn [app]. rewrite Pm. by rewrite <- app_assoc.
  - destruct k as [|z k].
    + rewrite app_nil_r. cbn [app] in *. exists (a ++ [e]), y. rewrite <- app_assoc.
      split_and!; [done|done|set_solver|done|apply Pm].
    + exists a, (z :: k ++ e :: y). split_and!; [by rewrite <- app_assoc|done|done|set_solver|].
      rewrite (app_comm_cons k), (app_assoc a). rewrite Pm. by rewrite <- app_assoc.
Qed.

(** The queue with a new task at its place. *)
Lemma add_inv s a b f p s1 f1 t a' b' x y h' q' :
  inv s a b f -> alloc_ok s a b p s1 f1 ->
  a ++ b = x ++ y -> a' ++ b' = x ++ p :: y -> hd_or b' None = hd_or b None ->
  a' ++ b' ≡ₚ p :: a ++ b -> a ⊆ a' -> b ⊆ b' ->
  t_valid t = true -> t_id t = adds s -> time_ok (t_timeout t) ->
  (forall q, q ∈ x -> ~ time_lt (t_timeout t) (time_at s q)) ->
  (forall q, q ∈ y -> ~ time_lt (time_at s q) (t_timeout t)) ->
  list_rep h' q' (a' ++ b') -> sl_current q' = sl_current (timeout_queue s) ->
  flags q' = flags (timeout_queue s) -> same_links (links s1) h' (p :: a ++ b) ->
  let s' := log (ev_added (adds s) p (t_timeout t))
              (set_queue h' q' (set_heap (<[p := t]> (heap s)) (clock_read s1))) in
  inv s' a' b' f1 /\ evolves s a b s' a' b'.
Proof.
  intros I [Aq Asq Af Aff And An Ah Ad [Ab1 Ab2] (At & Aa & Ar & Av & Ahas)] E E' Hh Pm Ha Hb Hv Hid Ht Hx Hy
    R C F Fr. cbv zeta. pose proof (i_lists _ _ _ _ I) as Lo.
  assert (p ∉ a ++ b /\ p ∉ f1) as [Hpq Hpf] by (split; set_solver).
  assert (forall q, q ∈ a' ++ b' <-> q = p \/ q ∈ a ++ b) as Hin by (intros q; rewrite Pm; set_solver).
  assert (forall id, id = adds s -> ~ was_called id (trace s) /\ ~ was_deleted id (trace s) /\
    ~ was_removed id (trace s) /\ forall q tm, ev_added id q tm ∉ trace s) as Hfresh.
  { intros id ->. split_and!; [intros (n & al & H)|intros H|intros H|intros q tm H];
      apply (i_bound _ _ _ _ I) in H; cbn in H; lia. }
  assert (forall q, q <> p -> time_at (log (ev_added (adds s) p (t_timeout t))
    (set_queue h' q' (set_heap (<[p := t]> (heap s)) (clock_read s1)))) q = time_at s q) as Hm.
  { intros q Hq. unfold time_at. cbn. by rewrite lookup_insert_ne. }
  split; [split|].
  - split; cbn [log set_queue set_heap clock_read links timeout_queue free_tasks heap brk].
    + done.
    + by rewrite C, (lo_cursor _ _ _ _ Lo).
    + by rewrite F, (lo_flags _ _ _ _ Lo).
    + eapply list_rep_frame; [exact Af|exact Fr|]. intros q Hq [->|Hq']%elem_of_cons; [done|].
      by apply (proj1 (proj2 (proj1 (list.NoDup_app _ _) And)) q).
    + done.
    + assert ((a' ++ b') ++ f1 ≡ₚ p :: (a ++ b) ++ f1) as -> by (by rewrite Pm). by constructor.
    + intros q. rewrite lookup_insert_is_Some'. rewrite elem_of_app, Hin.
      destruct (decide (q = p)) as [->|Hne]; [split; intros _; [left; by left|by left]|].
      rewrite Ad by done. rewrite elem_of_app. split; [intros [E2|H2]; [by destruct Hne|]|]; tauto.
    + intros q [<-|[u Hu]]%lookup_insert_is_Some'; [done|].
      pose proof (lo_brk _ _ _ _ Lo q). rewrite Hu in H. cut (q < brk s); [lia|]. apply H. by exists u.
  - rewrite E', map_app. cbn [map]. pose proof (i_sorted _ _ _ _ I) as S. rewrite E, map_app in S.
    assert (p ∉ x /\ p ∉ y) as [Hpx Hpy] by (rewrite E in Hpq; split; set_solver).
    assert (forall l, p ∉ l -> map (time_at (log (ev_added (adds s) p (t_timeout t))
      (set_queue h' q' (set_heap (<[p := t]> (heap s)) (clock_read s1))))) l = map (time_at s) l) as Hml.
    { intros l Hl. apply map_ext_in. intros z Hz%list_elem_of_In. apply Hm. by intros ->. }
    rewrite !Hml by done.
    assert (time_at (log (ev_added (adds s) p (t_timeout t))
      (set_queue h' q' (set_heap (<[p := t]> (heap s)) (clock_read s1)))) p = t_timeout t) as ->
      by (unfold time_at; cbn; by rewrite lookup_insert_eq).
    apply StronglySorted_app in S as (Sxy & Sx & Sy). apply StronglySorted_app. split; [|split; [done|]].
    + intros u w Hu [->|Hw]%elem_of_cons; [|by apply Sxy].
      apply list_elem_of_fmap in Hu as (z & -> & Hz). by apply Hx.
    + constructor; [done|]. apply list.Forall_forall. intros w (z & -> & Hz)%list_elem_of_fmap. by apply Hy.
  - cbn [log set_queue set_heap clock_read trace heap]. rewrite At.
    intros q u [->|Hq]%Hin.
    + rewrite lookup_insert_eq. intros [= <-]. destruct (Hfresh (t_id t) Hid) as (F1 & F2 & F3 & F4).
      split; try done.
      * rewrite Hid. apply elem_of_app. right. by left.
      * by apply not_removed_snoc.
      * intros _. by rewrite (proj1 (was_snoc_added _ _ _ _ _)), (proj2 (was_snoc_added _ _ _ _ _)).
      * by rewrite Hv.
    + assert (q <> p) by (intros ->; done). rewrite lookup_insert_ne by done. intros Hu.
      destruct (i_tasks _ _ _ _ I q u Hq Hu) as [A Rm V Iv T].
      assert (t_id u < adds s) as Hlt by (apply (i_bound _ _ _ _ I _ A)).
      split; try done.
      * set_solver.
      * by apply not_removed_snoc.
      * intros Hvu. rewrite (proj1 (was_snoc_added _ _ _ _ _)), (proj2 (was_snoc_added _ _ _ _ _)). by apply V.
      * intros Hvu. rewrite (proj1 (was_snoc_added _ _ _ _ _)), (proj2 (was_snoc_added _ _ _ _ _)). by apply Iv.
  - cbn [log set_queue set_heap clock_read trace heap]. rewrite At.
    intros id q time [Hq|Hq%list_elem_of_singleton]%elem_of_app Hr.
    + assert (~ was_removed id (trace s)) as Hr' by (unfold was_removed in *; set_solver).
      destruct (i_live _ _ _ _ I id q time Hq Hr') as (Hqi & u & Hu & Hui).
      split; [apply Hin; by right|]. rewrite lookup_insert_ne by (by intros ->). by exists u.
    + injection Hq as -> -> ->. split; [apply Hin; by left|]. rewrite lookup_insert_eq. by exists t.
  - cbn [log set_queue set_heap clock_read trace]. rewrite At.
    intros id q time q1 time1 [H1|H1%list_elem_of_singleton]%elem_of_app
      [H2|H2%list_elem_of_singleton]%elem_of_app.
    + by eapply (i_unique _ _ _ _ I).
    + injection H2 as -> -> ->. exfalso. by eapply (Hfresh (adds s) eq_refl).
    + injection H1 as -> -> ->. exfalso. by eapply (Hfresh (adds s) eq_refl).
    + injection H1 as -> -> ->. by injection H2 as -> ->.
  - cbn [log set_queue set_heap clock_read trace adds]. rewrite At, Aa.
    intros e [He|He%list_elem_of_singleton]%elem_of_app.
    + pose proof (i_bound _ _ _ _ I e He). lia.
    + subst e. cbn. lia.
  - cbn [log set_queue set_heap clock_read trace]. rewrite At. intros id Hr.
    eapply ended_mono; [by apply prefix_app_r|]. apply (i_removed _ _ _ _ I).
    by apply elem_of_app in Hr as [Hr|Hr%list_elem_of_singleton].
  - cbn [log set_queue set_heap clock_read trace]. rewrite At.
    by apply trace_ok_snoc; [apply (i_trace _ _ _ _ I)|].
  - split; cbn [log set_queue set_heap clock_read trace heap]; try done.
    + rewrite At. by apply prefix_app_r.
    + intros q Hq. apply Hin. right. set_solver.
    + intros q u Hq _. left. by apply Hb.
    + intros q u Hq Hu. rewrite lookup_insert_ne by (by intros ->). by exists u.
Qed.


(** * Freeing tasks of the free list *)

(** The first task of the free list is freed. *)
Lemma free_first_inv s a b p f :
  inv s a b (p :: f) -> at_rest (free_tasks s) (p :: f) ->
  exists L h' L', task_get s (free_tasks s) = Some (Some p, L) /\
    let s1 := set_free (links s) L s in
    silc_list_del (list_fuel s1) (links s1) (free_tasks s1) p = Some (h', L') /\
    let s' := set_heap (delete p (heap s)) (set_free h' L' s1) in
    inv s' a b f /\ at_rest (free_tasks s') f /\ evolves s a b s' a b /\
    inv s1 a b (p :: f).
Proof.
  intros I R. pose proof (i_lists _ _ _ _ I) as Lo. pose proof (list_fuel_free _ _ _ _ Lo) as Hfuel.
  destruct Lo as [Hq Hc Hf Hfr Hff Hn Hh Hb].
  destruct (task_get_cons s (free_tasks s) [] p f) as [G R']; [apply (lr_nexts _ _ _ Hfr)| |done|].
  { apply Hh. set_solver. }
  exists (with_current (hd_or f None) (free_tasks s)).
  destruct (silc_list_del_rep (links s) (with_current (hd_or f None) (free_tasks s)) [] p f (list_fuel s))
    as (h' & L' & E & Rp & C & F); [by apply with_current_rep|done|].
  exists h', L'. split; [done|]. cbv zeta. split; [exact E|].
  assert (same_links (links s) h' (p :: f)) as Fr
    by (eapply list_del_frame; [| |exact E]; [by apply with_current_rep|done]).
  assert (NoDup (p :: (a ++ b) ++ f)) as [Hp Hn']%list.NoDup_cons.
  { assert (p :: (a ++ b) ++ f ≡ₚ (a ++ b) ++ p :: f) as -> by solve_Permutation. done. }
  assert (forall q, q ∈ a ++ b -> delete p (heap s) !! q = heap s !! q) as Hl
    by (intros q Hqi; apply lookup_delete_ne; set_solver).
  injection F as F1 F2.
  split; [split|split; [|split]].
  - split; cbn [set_heap set_free links timeout_queue free_tasks heap brk]; try done.
    + eapply list_rep_frame; [exact Hq|exact Fr|]. intros q Hq1 Hq2.
      by apply (proj1 (proj2 (proj1 (list.NoDup_app _ _) Hn)) q).
    + by rewrite F1.
    + intros q. rewrite lookup_delete_is_Some, Hh. set_solver.
    + intros q [_ Hs]%lookup_delete_is_Some. by apply Hb.
  - erewrite map_ext_in; [apply (i_sorted _ _ _ _ I)|]. intros q Hqi%list_elem_of_In.
    unfold time_at. cbn [set_heap heap]. by rewrite Hl.
  - cbn [set_heap set_free trace heap]. intros q t Hqi. rewrite Hl by done. by apply (i_tasks _ _ _ _ I).
  - cbn [set_heap set_free trace heap]. intros id q time Ha Hr.
    destruct (i_live _ _ _ _ I id q time Ha Hr) as (Hqi & u & Hu & Hid). split; [done|]. rewrite Hl by done.
    by exists u.
  - apply (i_unique _ _ _ _ I).
  - apply (i_bound _ _ _ _ I).
  - apply (i_removed _ _ _ _ I).
  - apply (i_trace _ _ _ _ I).
  - cbn [set_heap set_free free_tasks]. destruct R as [_ Re]. split; [|by rewrite F2].
    rewrite C, bool_decide_eq_false_2; [done|]. cbn. destruct f as [|z f]; [done|].
    intros [= ->]. apply Hp. set_solver.
  - split; cbn [set_heap set_free trace heap]; [done|done|set_solver|by left| |done].
    intros q t Hqi Ht. rewrite Hl by done. by exists t.
  - apply inv_free_cursor; [exact I|by apply with_current_rep|done].
Qed.

Lemma gc_loop_spec c s a b f :
  inv s a b f -> at_rest (free_tasks s) f ->
  exists s' f', gc_loop c s = Some s' /\ inv s' a b f' /\ evolves s a b s' a b /\
    valid s' = valid s.
Proof.
  revert s f. induction c as [|c IH]; intros s f I R; cbn [gc_loop]; destruct f as [|p f].
  1, 3: rewrite task_get_nil by done; eexists _, _; split; [done|]; split;
    [apply inv_free_cursor; [exact I|apply (lo_free _ _ _ _ (i_lists _ _ _ _ I))|
       apply (lo_free_flags _ _ _ _ (i_lists _ _ _ _ I))]|split; [by apply evolves_same|done]].
  all: destruct (free_first_inv s a b p f I R) as (L & h' & L' & -> & E & I' & R' & V & I1);
    cbn [mbind option_bind].
  - eexists _, _; split; [done|]; split; [exact I1|]. split; [by apply evolves_same|done].
  - rewrite E. cbn [mbind option_bind].
    destruct (IH _ _ I' R') as (s' & f' & E' & I2 & V2 & Ev). exists s', f'. split; [exact E'|].
    split; [done|]. split; [by eapply evolves_trans|]. by rewrite Ev.
Qed.

(** * The clock and the operations *)

(** The readings of the clock lie within 2^30 seconds (34 years) of the base time,
    and tasks wait up to 2^29 seconds (17 years): the differences of all times fit
    into 32 bits. *)
Definition clock_ok (clock : nat -> timeval) : Prop :=
  forall n, time_base <= tv_sec (clock n) < time_base + 2 ^ 30 /\ 0 <= tv_usec (clock n) < 1000000.

Definition op_ok (op : operation) : Prop :=
  match op with
  | op_add_timeout _ _ seconds useconds => 0 <= seconds < 2 ^ 29 /\ 0 <= useconds < 2 ^ 31
  | _ => True
  end.

Lemma add_time_ok now seconds useconds :
  time_base <= tv_sec now < time_base + 2 ^ 30 -> 0 <= tv_usec now < 1000000 -> 0 <= seconds < 2 ^ 29 ->
  0 <= useconds < 2 ^ 31 ->
  time_ok (add_time now seconds useconds) /\ time_le now (add_time now seconds useconds).
Proof.
  intros H1 H2 H3 H4. unfold add_time, time_ok, time_le, time_lt.
  pose proof (Z.quot_rem' useconds 1000000). pose proof (Z.rem_bound_pos useconds 1000000).
  destruct (seconds + useconds >? 0); [|cbn; lia].
  destruct (tv_usec now + Z.rem useconds 1000000 >=? 1000000) eqn:E; cbn; lia.
Qed.

Lemma sorted_first s q y :
  StronglySorted time_le (map (time_at s) (q :: y)) ->
  forall z, z ∈ q :: y -> time_le (time_at s q) (time_at s z).
Proof.
  intros S z Hz. inversion S as [|? ? _ Hf]; subst. rewrite list.Forall_forall in Hf.
  apply elem_of_cons in Hz as [->|Hz]; [apply time_le_refl|]. apply Hf.
  apply list_elem_of_fmap. by exists z.
Qed.

Lemma sorted_behind s x q y time :
  StronglySorted time_le (map (time_at s) (x ++ q :: y)) -> time_lt time (time_at s q) ->
  forall z, z ∈ q :: y -> time_lt time (time_at s z).
Proof.
  rewrite map_app. intros (_ & _ & S)%StronglySorted_app Hl z Hz.
  pose proof (sorted_first _ _ _ S z Hz). unfold time_le, time_lt in *. lia.
Qed.

(** The place for a task in the queue, after task_alloc. *)
Lemma place_spec s a b f p s1 f1 t :
  inv s a b f -> alloc_ok s a b p s1 f1 -> time_ok (t_timeout t) ->
  let s2 := set_heap (<[p := t]> (heap s1)) (clock_read s1) in
  exists x y h' q', a ++ b = x ++ y /\
    (place ← place_loop (list_fuel s2) s2 (t_timeout t) (silc_list_start (timeout_queue s2)) None;
     match place with
     | Some prev => Some (silc_list_insert (links s2) (timeout_queue s2) prev p)
     | None => silc_list_add (links s2) (timeout_queue s2) p
     end) = Some (h', q') /\
    list_rep h' q' (x ++ p :: y) /\ sl_current q' = sl_current (timeout_queue s) /\
    flags q' = flags (timeout_queue s) /\ same_links (links s1) h' (p :: a ++ b) /\
    (forall q, q ∈ x -> ~ time_lt (t_timeout t) (time_at s q)) /\
    (forall q, q ∈ y -> ~ time_lt (time_at s q) (t_timeout t)).
Proof.
  intros I A Ht. cbv zeta. set (s2 := set_heap _ _). pose proof (i_lists _ _ _ _ I) as Lo.
  pose proof (al_queue _ _ _ _ _ _ A) as Rq. pose proof (al_new _ _ _ _ _ _ A) as Hnew.
  assert (p ∉ a ++ b) as Hp by set_solver.
  assert (forall q, q ∈ a ++ b -> heap s2 !! q = heap s !! q) as Hh.
  { intros q Hq. cbn. rewrite (al_heap _ _ _ _ _ _ A). apply lookup_insert_ne. by intros ->. }
  assert (forall q, q ∈ a ++ b -> time_at s2 q = time_at s q) as Hm
    by (intros q Hq; unfold time_at; by rewrite Hh).
  pose proof (lo_flags _ _ _ _ Lo) as F. injection F as F1 F2.
  assert (sl_prev_set (timeout_queue s2) = false) as Fp
    by (cbn; by rewrite (al_same_queue _ _ _ _ _ _ A)).
  destruct (place_loop_spec (list_fuel s2) s2 (t_timeout t) (a ++ b)
    (silc_list_start (timeout_queue s2)) [] (a ++ b)) as (x & y & E & Hx & HR).
  - apply (lr_nexts _ _ _ Rq).
  - done.
  - apply (list_start_rest _ _ _ Rq).
  - intros q Hq. rewrite Hh by done. destruct (proj2 (lo_heap _ _ _ _ Lo q)) as [u Hu]; [set_solver|].
    exists u. split; [done|]. apply (to_time _ _ _ (i_tasks _ _ _ _ I q u Hq Hu)).
  - done.
  - set_solver.
  - unfold list_fuel. apply Nat.lt_succ_r. apply length_heap.
    + by apply (proj1 (proj1 (list.NoDup_app _ _) (lo_nodup _ _ _ _ Lo))).
    + intros q Hq. rewrite Hh by done. apply (lo_heap _ _ _ _ Lo). set_solver.
  - cbn [last_or] in HR.
    destruct (place_insert_spec (links s2) (timeout_queue s2) (a ++ b) x y p Rq Fp E Hp)
      as (h' & q' & Ei & Ri & Ci & Fi & Si).
    exists x, y, h', q'. split; [done|]. split.
    { destruct HR as [(-> & ->)|(q & y' & -> & _ & ->)]; exact Ei. }
    split; [done|]. rewrite <- (al_same_queue _ _ _ _ _ _ A). split; [done|]. split; [done|].
    split; [done|]. split.
    + intros q Hq. rewrite <- Hm by (rewrite E; set_solver). by apply Hx.
    + destruct HR as [(-> & _)|(q & y' & -> & Hl & _)]; [set_solver|].
      rewrite Hm in Hl by (rewrite E; set_solver). intros z Hz. cut (time_lt (t_timeout t) (time_at s z)); [unfold time_lt; lia|].
      apply (sorted_behind s x q y'); [|done..]. rewrite <- E. apply (i_sorted _ _ _ _ I).
Qed.

Lemma mbind_pair_assoc {A B C D} (o : option A) (g : A -> option (B * C)) (k : B * C -> option D) h q :
  mbind g o = Some (h, q) -> mbind (fun x => mbind k (g x)) o = k (h, q).
Proof. destruct o as [x|]; cbn; [|done]. by intros ->. Qed.

Section run.
Context (clock : nat -> timeval) (Hclock : clock_ok clock).

Lemma add_timeout_spec s a b f cb ctx seconds useconds :
  inv s a b f -> 0 <= seconds < 2 ^ 29 -> 0 <= useconds < 2 ^ 31 ->
  exists r s' a' b' f', silc_schedule_task_add_timeout clock s cb ctx seconds useconds = Some (r, s') /\
    inv s' a' b' f' /\ evolves s a b s' a' b' /\ valid s' = valid s.
Proof.
  intros I H1 H2. unfold silc_schedule_task_add_timeout.
  destruct (valid s) eqn:Ev; cbn [negb].
  2: { exists None, s, a, b, f. split; [done|]. split; [done|]. split; [apply evolves_refl|done]. }
  destruct (task_alloc_spec s a b f I) as (p & s1 & f1 & E & A). rewrite E. cbn [mbind option_bind].
  set (t := {| t_callback := cb; t_context := ctx; t_valid := true;
    t_timeout := add_time (clock (reads s1)) seconds useconds; t_id := adds (clock_read s1) |}).
  assert (time_ok (t_timeout t)) as Ht by (apply add_time_ok; try done; apply Hclock).
  destruct (place_spec s a b f p s1 f1 t I A Ht) as (x & y & h' & q' & Ei & Ep & R & C & F & Fr & Hx & Hy).
  destruct (split_insert a b x y p Ei) as (a' & b' & E' & Hh & Ha & Hb & Pm).
  change (adds (clock_read s1)) with (adds s1) in *.
  destruct (al_rest _ _ _ _ _ _ A) as (At & Aa & Ar & Av & Ahas).
  destruct (add_inv s a b f p s1 f1 t a' b' x y h' q') as [I' V]; try done; [by rewrite E'|].
  set (s2 := set_heap (<[p := t]> (heap s1)) (clock_read s1)) in *.
  exists (Some p), (log (ev_added (adds s) p (t_timeout t)) (set_queue h' q' s2)), a', b', f1.
  split; [|split; [|split]].
  - rewrite <- Aa. exact (mbind_pair_assoc _ _ (fun '(h, q) =>
      Some (Some p, log (ev_added (adds s1) p (t_timeout t)) (set_queue h q s2))) _ _ Ep).
  - unfold s2. by rewrite (al_heap _ _ _ _ _ _ A).
  - unfold s2. by rewrite (al_heap _ _ _ _ _ _ A).
  - cbn. by rewrite Av.
Qed.
Lemma gc_again_spec s a b f : inv s a b f -> goes_on s a b (gc_again clock s).
Proof.
  intros I. unfold gc_again.
  destruct (add_timeout_spec s a b f silc_schedule_timeout_gc_cb 0 3600 0 I)
    as (r & s' & a' & b' & f' & -> & I' & V & _); [lia..|].
  by exists s', a', b', f'.
Qed.

Lemma gc_spec s a b f : inv s a b f -> goes_on s a b (silc_schedule_timeout_gc clock s).
Proof.
  intros I. unfold silc_schedule_timeout_gc.
  destruct (negb (valid s)); [exists s, a, b, f; split; [done|]; split; [done|apply evolves_refl]|].
  destruct (_ <=? 10); [by eapply gc_again_spec|].
  destruct (_ >? _); [by eapply gc_again_spec|].
  pose proof (i_lists _ _ _ _ I) as Lo. pose proof (lo_free _ _ _ _ Lo) as Hfr.
  set (s0 := set_free (links s) (silc_list_start (free_tasks s)) s).
  assert (inv s0 a b f) as I0 by (apply inv_free_cursor; [done|by apply list_start_rep|
    apply (lo_free_flags _ _ _ _ Lo)]).
  destruct (gc_loop_spec (Z.to_nat (gc_count (silc_list_count (free_tasks s))
    (silc_list_count (timeout_queue s)))) s0 a b f I0) as (s1 & f1 & E1 & I1 & V1 & _);
    [by eapply list_start_rest|].
  rewrite E1. cbn [mbind option_bind]. pose proof (i_lists _ _ _ _ I1) as Lo1.
  set (s2 := set_free (links s1) (silc_list_start (free_tasks s1)) s1).
  assert (inv s2 a b f1) as I2 by (apply inv_free_cursor; [done|
    apply list_start_rep, (lo_free _ _ _ _ Lo1)|apply (lo_free_flags _ _ _ _ Lo1)]).
  destruct (gc_again_spec s2 a b f1 I2) as (s3 & a3 & b3 & f3 & E3 & I3 & V3).
  exists s3, a3, b3, f3. split; [done|]. split; [done|].
  eapply evolves_trans; [by apply (evolves_same s s0)|]. eapply evolves_trans; [exact V1|].
  eapply evolves_trans; [by apply (evolves_same s1 s2)|exact V3].
Qed.

Lemma run_op_spec s a b f op : inv s a b f -> op_ok op -> goes_on s a b (run_op clock s op).
Proof.
  intros I Hop. destruct op as [cb ctx sec usec|id| |cb|ctx|cb ctx|]; cbn [run_op].
  - destruct (add_timeout_spec s a b f cb ctx sec usec I) as (r & s' & a' & b' & f' & -> & I' & V & _);
      [apply Hop..|]. by exists s', a', b', f'.
  - by eapply goes_on_del.
  - destruct (del_all_spec s a b f I) as (s' & -> & I' & V & _). by exists s', (a ++ b), [], f.
  - by eapply del_selected_spec.
  - by eapply del_selected_spec.
  - by eapply del_selected_spec.
  - by eapply goes_on_stop.
Qed.

Lemma run_ops_spec ops s a b f :
  inv s a b f -> Forall op_ok ops -> goes_on s a b (run_ops clock s ops).
Proof.
  intros I H. revert s a b f I. induction H as [|op ops Hop _ IH]; intros s a b f I; cbn [run_ops].
  { exists s, a, b, f. split; [done|]. split; [done|apply evolves_refl]. }
  destruct (run_op_spec s a b f op I Hop) as (s1 & a1 & b1 & f1 & -> & I1 & V1).
  cbn [mbind option_bind]. destruct (IH _ _ _ _ I1) as (s2 & a2 & b2 & f2 & E & I2 & V2).
  exists s2, a2, b2, f2. split; [done|]. split; [done|]. by eapply evolves_trans.
Qed.

Context (script : list event -> list operation) (Hscript : forall tr, Forall op_ok (script tr)).

Lemma run_callback_spec s a b f cb :
  inv s a b f -> goes_on s a b (run_callback clock script s cb).
Proof.
  intros I. unfold run_callback. destruct (_ =? _); [by eapply gc_spec|].
  by eapply run_ops_spec.
Qed.

(** How many tasks were called. *)
Definition is_call (e : event) : bool := match e with ev_called _ _ _ => true | _ => false end.
Definition calls (tr : list event) : Z := zlen (List.filter is_call tr).

Lemma calls_app tr k : calls (tr ++ k) = calls tr + calls k.
Proof. unfold calls. rewrite List.filter_app. len. Qed.

Lemma calls_mono tr tr' : tr `prefix_of` tr' -> calls tr <= calls tr'.
Proof. intros [k ->]. rewrite calls_app. unfold calls. lia. Qed.

(** What has become of the tasks at the cursor: over, or still to come. *)
Definition ended (id : Z) (tr : list event) : Prop := was_called id tr \/ was_deleted id tr.

Record comes (s : SilcSchedule) (b : list ptr) (s' : SilcSchedule) (b' : list ptr) : Prop := {
  co_trace : trace s `prefix_of` trace s';
  co_tasks : forall z u, z ∈ b -> heap s !! z = Some u -> ended (t_id u) (trace s') \/
    z ∈ b' /\ exists u', heap s' !! z = Some u' /\ t_id u' = t_id u /\ t_timeout u' = t_timeout u;
  co_has : has_timeout s' = has_timeout s;
}.

Lemma comes_trans s b s1 b1 s2 b2 : comes s b s1 b1 -> comes s1 b1 s2 b2 -> comes s b s2 b2.
Proof.
  intros [T1 C1 B1] [T2 C2 B2]. split; [by etransitivity| |by rewrite B2]. intros z u Hz Hu.
  destruct (C1 z u Hz Hu) as [He|(Hz1 & u1 & Hu1 & E1 & E1')]; [left; by eapply ended_mono|].
  destruct (C2 z u1 Hz1 Hu1) as [He|(Hz2 & u2 & Hu2 & E2 & E2')]; [left; by rewrite <- E1|].
  right. split; [done|]. exists u2. by rewrite E2, E2'.
Qed.

Lemma evolves_comes s a b s' a' b' : evolves s a b s' a' b' -> comes s b s' b'.
Proof.
  intros [T P Q C K B]. split; [done| |done]. intros z u Hz Hu.
  destruct (C z u Hz Hu) as [Hb|Hd]; [|left; by right]. right. split; [done|].
  destruct (K z u) as (u' & Hu' & Ei & Et); [set_solver|done|]. by exists u'.
Qed.

Lemma comes_all s b s' z u : comes s b s' [] -> z ∈ b -> heap s !! z = Some u -> ended (t_id u) (trace s').
Proof. intros [_ C _] Hz Hu. destruct (C z u Hz Hu) as [?|[? _]]; [done|set_solver]. Qed.

(** * A round *)

(** From the task that was got last to the first valid one. *)
Lemma skip_invalid_spec fuel s a p b f :
  inv s (a ++ [p]) b f -> (length b < fuel)%nat ->
  exists next s' k b' f', skip_invalid fuel s p = Some (next, s') /\
    trace s `prefix_of` trace s' /\ heap s' = heap s /\ valid s' = valid s /\ reads s' = reads s /\
    has_timeout s' = has_timeout s /\ (forall z t, z ∈ k -> heap s !! z = Some t -> t_valid t = false) /\
    match next with
    | Some q => p :: b = k ++ q :: b' /\ inv s' (a ++ [q]) b' f' /\
        exists t, heap s !! q = Some t /\ t_valid t = true
    | None => p :: b = k /\ inv s' a [] f'
    end.
Proof.
  revert s p b f. induction fuel as [|fuel IH]; intros s p b f I Hf; [lia|]. cbn [skip_invalid].
  destruct (proj2 (lo_heap _ _ _ _ (i_lists _ _ _ _ I) p)) as [t Ht]; [set_solver|].
  rewrite Ht. cbn [mbind option_bind]. destruct (t_valid t) eqn:Hv.
  { exists (Some p), s, [], b, f. split_and!; try done; [set_solver|]. by exists t. }
  destruct (remove_inv s a p [] b f I) as (s1 & t1 & E1 & I1 & Ht1 & Eh & Et & Ev & Er & Eb);
    [intros u Hu; congruence|].
  rewrite E1. cbn [mbind option_bind]. rewrite app_nil_r in I1. pose proof (queue_get _ _ _ _ I1) as G.
  assert (trace s `prefix_of` trace s1) as Hp1 by (rewrite Et; by apply prefix_app_r).
  destruct b as [|z b].
  - rewrite G. cbn [mbind option_bind]. eexists None, _, [p], [], _.
    split; [done|]. cbn [set_queue trace heap valid reads has_timeout]. split_and!; try done.
    + intros z u Hz%list_elem_of_singleton Hu. subst z. congruence.
    + eapply inv_cursor; [exact I1|done|..]; apply (i_lists _ _ _ _ I1).
  - destruct G as (q & G & I2). rewrite G. cbn [mbind option_bind]. cbn [length] in Hf.
    destruct (IH _ z b _ I2 ltac:(lia)) as (next & s' & k & b' & f' & E & Hp & Hh & Hva & Hr & Hb & Hk & Hn).
    rewrite E. exists next, s', (p :: k), b', f'. cbn [set_queue heap trace valid reads has_timeout] in *.
    rewrite Eh in *. split; [done|]. split; [by etransitivity|]. split; [done|].
    split; [by rewrite Hva|]. split; [by rewrite Hr|]. split; [by rewrite Hb|]. split.
    + intros x u [->|Hx]%elem_of_cons Hu; [congruence|by eapply Hk].
    + destruct next as [x|]; destruct Hn as (-> & Hn); done.
Qed.

(** The tasks that are skipped are over. *)
Lemma skip_comes s a p b f k s' l :
  inv s (a ++ [p]) b f -> trace s `prefix_of` trace s' -> heap s' = heap s ->
  has_timeout s' = has_timeout s -> (forall z t, z ∈ k -> heap s !! z = Some t -> t_valid t = false) -> p :: b = k ++ l ->
  comes s (p :: b) s' l.
Proof.
  intros I Hp Hh Hb Hk E. split; [done| |done]. intros z u Hz Hu.
  assert (z ∈ (a ++ [p]) ++ b) as Hz' by set_solver.
  rewrite E in Hz. apply elem_of_app in Hz as [Hz|Hz].
  - left. eapply ended_mono; [exact Hp|]. apply (to_invalid _ _ _ (i_tasks _ _ _ _ I z u Hz' Hu)).
    by eapply Hk.
  - right. split; [done|]. rewrite Hh. by exists u.
Qed.

Lemma dispatch_task_spec s a q b f t now all :
  inv s (a ++ [q]) b f -> heap s !! q = Some t -> t_valid t = true ->
  (all = false -> time_le (t_timeout t) now) ->
  exists s' a' b' f', dispatch_task clock script s q t now all = Some s' /\ inv s' a' b' f' /\
    comes s (q :: b) s' b' /\ calls (trace s) + 1 <= calls (trace s').
Proof.
  intros I Hq Hv Hdue. unfold dispatch_task.
  assert (q ∈ (a ++ [q]) ++ b) as Hin by set_solver.
  pose proof (i_tasks _ _ _ _ I q t Hin Hq) as Ok. destruct (to_valid _ _ _ Ok Hv) as [Hc Hd].
  destruct (invalidate_inv s (a ++ [q]) b f q t (ev_called (t_id t) now all) I Hin Hq) as [I1 V1].
  { right. by eexists _, _. }
  { split; [done|]. split; [done|]. split; [apply (to_there _ _ _ Ok)|].
    exists q, (t_timeout t). split; [apply (to_added _ _ _ Ok)|done]. }
  set (s1 := log _ _) in *.
  destruct (run_callback_spec s1 (a ++ [q]) b f (t_callback t) I1) as (s2 & a2 & b2 & f2 & E2 & I2 & V2).
  rewrite E2. cbn [mbind option_bind].
  assert (was_called (t_id t) (trace s2)) as Hcall.
  { eapply was_called_mono; [apply (ev_trace _ _ _ _ _ _ V2)|]. exists now, all.
    apply elem_of_app. right. by left. }
  assert (heap s1 !! q = Some (task_invalid t)) as Hq1 by apply lookup_insert_eq.
  destruct (ev_tasks _ _ _ _ _ _ V2 q _ Hin Hq1) as (t2 & Hq2 & Eid & _). cbn in Eid.
  assert (q ∈ a2) as Hqa by (apply (ev_passed _ _ _ _ _ _ V2); set_solver).
  apply list_elem_of_split in Hqa as (x & y & ->).
  destruct (remove_inv s2 x q y b2 f2 I2) as (s3 & t3 & E3 & I3 & _ & Eh & Et & _ & _ & Eb).
  { intros u Hu. replace u with t2 by congruence. destruct (t_valid t2) eqn:Hv2; [|done].
    destruct (to_valid _ _ _ (i_tasks _ _ _ _ I2 q t2 ltac:(set_solver) Hq2) Hv2) as [[] _].
    by rewrite Eid. }
  exists s3, (x ++ y), b2, (f2 ++ [q]). split; [done|]. split; [done|].
  assert (trace s2 `prefix_of` trace s3) as P3 by (rewrite Et; by apply prefix_app_r).
  split.
  - destruct (comes_trans _ _ _ _ _ _ (evolves_comes _ _ _ _ _ _ V1) (evolves_comes _ _ _ _ _ _ V2)) as [T C B].
    split; [by etransitivity| |by rewrite Eb]. intros z u Hz Hu. apply elem_of_cons in Hz as [->|Hz].
    + left. left. replace u with t by congruence. by eapply was_called_mono.
    + rewrite Eh. destruct (C z u Hz Hu) as [He|Hr]; [left; by eapply ended_mono|by right].
  - pose proof (calls_mono _ _ P3). pose proof (calls_mono _ _ (ev_trace _ _ _ _ _ _ V2)) as H2.
    assert (calls (trace s1) = calls (trace s) + 1) by (unfold s1; cbn [log trace set_heap]; by rewrite calls_app).
    lia.
Qed.

Definition due (now : timeval) (all : bool) (time : timeval) : Prop := all = true \/ time_le time now.

(** What dispatch_timeout_loop does after a call. *)
Definition dispatch_next (n : nat) (s : SilcSchedule) (now : timeval) (all : bool) : option SilcSchedule :=
  match n with
  | O => Some s
  | S n =>
      '(next, q) ← task_get s (timeout_queue s);
      let s := set_queue (links s) q s in
      match next with
      | None => Some s
      | Some p => dispatch_timeout_loop clock script n s p now all
      end
  end.

(** One turn of the loop: it ends when nothing that is due is left, or calls a task. *)
Lemma dispatch_turn s a p b f now all :
  inv s (a ++ [p]) b f -> time_ok now ->
  exists s' a' b' f', inv s' a' b' f' /\ trace s `prefix_of` trace s' /\
    has_timeout s' = has_timeout s /\
    (((forall n, dispatch_timeout_loop clock script n s p now all = Some s') /\
      forall z u, z ∈ p :: b -> heap s !! z = Some u -> due now all (t_timeout u) ->
        ended (t_id u) (trace s')) \/
     ((forall n, dispatch_timeout_loop clock script n s p now all = dispatch_next n s' now all) /\
      comes s (p :: b) s' b' /\ calls (trace s) + 1 <= calls (trace s'))).
Proof.
  intros I Hnow. pose proof (list_fuel_queue _ _ _ _ (i_lists _ _ _ _ I)) as Hfuel.
  rewrite !length_app in Hfuel.
  destruct (skip_invalid_spec (list_fuel s) s a p b f I ltac:(lia))
    as (next & s1 & k & b1 & f1 & Es & P1 & Hh & _ & _ & Hb1 & Hk & Hn). destruct next as [q|].
  2: { destruct Hn as (E & I1). exists s1, a, [], f1. split; [done|]. split; [done|]. split; [done|]. left. split.
    - intros n. destruct n; cbn [dispatch_timeout_loop]; by rewrite Es.
    - intros z u Hz Hu _. apply (comes_all s (p :: b) s1 z u); [|done|done].
      eapply skip_comes; [done..|by rewrite app_nil_r]. }
  destruct Hn as (E & I1 & t & Hq & Hv).
  pose proof (skip_comes s a p b f k s1 (q :: b1) I P1 Hh Hb1 Hk E) as C1. rewrite <- Hh in Hq.
  assert (time_ok (t_timeout t)) as Htok
    by (apply (to_time _ _ _ (i_tasks _ _ _ _ I1 q t ltac:(set_solver) Hq))).
  destruct (compare_timeval_spec (t_timeout t) now Htok Hnow) as [_ Cgt].
  destruct ((silc_compare_timeval (t_timeout t) now >? 0) && negb all) eqn:Eb.
  - exists s1, (a ++ [q]), b1, f1. split; [done|]. split; [done|]. split; [done|]. left. split.
    { intros n. destruct n; cbn [dispatch_timeout_loop]; rewrite Es; cbn [mbind option_bind]; rewrite Hq;
        cbn [mbind option_bind]; by rewrite Eb. }
    apply andb_true_iff in Eb as [Eb Hall]. intros z u Hz Hu [->|Hd]; [done|].
    destruct (co_tasks _ _ _ _ C1 z u Hz Hu) as [He|(Hz1 & u1 & Hu1 & _ & Et)]; [done|]. exfalso.
    pose proof (i_sorted _ _ _ _ I1) as S. rewrite <- app_assoc in S. cbn [app] in S.
    apply Hd. replace (t_timeout u) with (time_at s1 z) by (unfold time_at; by rewrite Hu1).
    apply (sorted_behind s1 a q b1 now S); [|done]. unfold time_at. rewrite Hq. apply Cgt. lia.
  - destruct (dispatch_task_spec s1 a q b1 f1 t now all I1 Hq Hv) as (s2 & a2 & b2 & f2 & E2 & I2 & C2 & Hc).
    { intros ->. rewrite andb_true_r in Eb. unfold time_le. rewrite <- Cgt. lia. }
    exists s2, a2, b2, f2. split; [done|]. split; [by etransitivity; [|apply (co_trace _ _ _ _ C2)]|].
    split; [by rewrite (co_has _ _ _ _ C2)|]. right. pose proof (calls_mono _ _ P1) as H1.
    split; [|split; [by eapply comes_trans|lia]].
    intros n. destruct n; cbn [dispatch_timeout_loop dispatch_next]; rewrite Es; cbn [mbind option_bind]; rewrite Hq;
        cbn [mbind option_bind]; rewrite Eb, E2; done.
Qed.

Lemma dispatch_timeout_loop_spec n s a p b f now all :
  inv s (a ++ [p]) b f -> time_ok now ->
  exists s' a' b' f', dispatch_timeout_loop clock script n s p now all = Some s' /\ inv s' a' b' f' /\
    trace s `prefix_of` trace s' /\ has_timeout s' = has_timeout s /\
    ((forall z u, z ∈ p :: b -> heap s !! z = Some u -> due now all (t_timeout u) ->
        ended (t_id u) (trace s')) \/
     calls (trace s) + Z.of_nat (S n) <= calls (trace s')).
Proof.
  intros I Hnow. revert s a p b f I. induction n as [|n IH]; intros s a p b f I;
    destruct (dispatch_turn s a p b f now all I Hnow)
      as (s1 & a1 & b1 & f1 & I1 & P1 & B1 & [[E Hd]|(E & C & Hc)]).
  1, 3: exists s1, a1, b1, f1; split; [apply E|]; split; [done|]; split; [done|]; split; [done|]; by left.
  - exists s1, a1, b1, f1. split; [apply E|]. split; [done|]. split; [done|]. split; [done|]. right. lia.
  - rewrite E. cbn [dispatch_next]. pose proof (queue_get _ _ _ _ I1) as G. destruct b1 as [|q b1].
    + rewrite G. cbn [mbind option_bind]. eexists _, a1, [], f1. split; [done|]. split.
      { eapply inv_cursor; [exact I1|done|..]; apply (i_lists _ _ _ _ I1). }
      split; [done|]. split; [done|]. left. intros z u Hz Hu _. exact (comes_all _ _ _ _ _ C Hz Hu).
    + destruct G as (L & G & I2). rewrite G. cbn [mbind option_bind].
      destruct (IH _ a1 q b1 f1 I2) as (s3 & a3 & b3 & f3 & E3 & I3 & P3 & B3 & Hor).
      exists s3, a3, b3, f3. split; [done|]. split; [done|]. cbn [set_queue trace heap has_timeout] in *.
      split; [by etransitivity|]. split; [by rewrite B3|]. destruct Hor as [Hall|Hcalls]; [left|right; lia].
      intros z u Hz Hu Hdue. destruct (co_tasks _ _ _ _ C z u Hz Hu) as [He|(Hz1 & u1 & Hu1 & Ei & Et)];
        [by eapply ended_mono|]. rewrite <- Ei. eapply Hall; [done..|by rewrite Et].
Qed.

Definition okay (s : SilcSchedule) : Prop := exists a b f, inv s a b f.

Definition live (id : Z) (time : timeval) (tr : list event) : Prop :=
  (exists p, ev_added id p time ∈ tr) /\ ~ ended id tr.

(** A task that is in no list any more is over. *)
Lemma added_there s a b f id p time :
  inv s a b f -> ev_added id p time ∈ trace s ->
  ended id (trace s) \/ p ∈ a ++ b /\ exists t, heap s !! p = Some t /\ t_id t = id /\ t_timeout t = time.
Proof.
  intros I Ha. destruct (decide (ev_removed id ∈ trace s)) as [Hr|Hr].
  { left. by apply (i_removed _ _ _ _ I). }
  right. destruct (i_live _ _ _ _ I id p time Ha Hr) as (Hp & t & Ht & Hid). split; [done|].
  exists t. split; [done|]. split; [done|].
  pose proof (to_added _ _ _ (i_tasks _ _ _ _ I p t Hp Ht)) as Ha'. rewrite Hid in Ha'.
  by destruct (i_unique _ _ _ _ I _ _ _ _ _ Ha' Ha).
Qed.

Lemma dispatch_spec s all :
  okay s ->
  exists s', silc_schedule_dispatch_timeout clock script s all = Some s' /\ okay s' /\
    trace s `prefix_of` trace s' /\ has_timeout s' = has_timeout s /\
    ((forall id p time, ev_added id p time ∈ trace s -> due (clock (reads s)) all time ->
        ended id (trace s')) \/
     calls (trace s) + 41 <= calls (trace s')).
Proof.
  intros (a & b & f & I). unfold silc_schedule_dispatch_timeout.
  assert (inv (clock_read s) a b f) as I0 by (destruct I; by split; [by apply (lists_ok_heap s)|..]).
  pose proof (queue_first_spec _ _ _ _ I0) as Q. destruct (a ++ b) as [|p l] eqn:El.
  - destruct Q as (s1 & -> & I1 & Eh & Et & _ & _ & Eb). cbn [mbind option_bind]. exists s1.
    split; [done|]. split; [by eexists _, _, _|]. rewrite Et. split; [done|]. split; [done|]. left.
    intros id p time Ha _. destruct (added_there s a b f id p time I Ha) as [He|[Hp _]]; [done|].
    rewrite El in Hp. set_solver.
  - destruct Q as (s1 & -> & I1 & Eh & Et & _ & _ & Eb). cbn [mbind option_bind].
    cbn [clock_read trace heap has_timeout] in *.
    destruct (dispatch_timeout_loop_spec 40 s1 [] p l f (clock (reads s)) all I1)
      as (s2 & a2 & b2 & f2 & -> & I2 & P2 & B2 & Hor).
    { destruct (Hclock (reads s)). split; lia. }
    rewrite Et in *. exists s2. split; [done|]. split; [by eexists _, _, _|]. split; [done|].
    split; [by rewrite B2|]. destruct Hor as [Hall|Hc]; [left|right; lia].
    intros id q time Ha Hd. destruct (added_there s a b f id q time I Ha) as [He|(Hq & t & Ht & <- & <-)].
    + by eapply ended_mono.
    + rewrite El in Hq. apply (Hall q t); [done|by rewrite Eh|done].
Qed.
(** The first valid task of the queue: the earliest that is to be called. *)
Definition earliest (s : SilcSchedule) (time : timeval) : Prop :=
  exists id, live id time (trace s) /\
    forall id' time', live id' time' (trace s) -> time_le time time'.

Lemma valid_live s a b f p t :
  inv s a b f -> p ∈ a ++ b -> heap s !! p = Some t -> t_valid t = true -> live (t_id t) (t_timeout t) (trace s).
Proof.
  intros I Hp Ht Hv. pose proof (i_tasks _ _ _ _ I p t Hp Ht) as Ok. split.
  - exists p. apply (to_added _ _ _ Ok).
  - destruct (to_valid _ _ _ Ok Hv) as [Nc Nd]. by intros [Hc|Hd].
Qed.

Lemma first_valid_spec s :
  okay s ->
  exists next s', first_valid s = Some (next, s') /\ okay s' /\
    trace s `prefix_of` trace s' /\ valid s' = valid s /\ has_timeout s' = has_timeout s /\
    match next with
    | Some p => exists t, heap s' !! p = Some t /\ time_ok (t_timeout t) /\ earliest s' (t_timeout t)
    | None => forall id time, ~ live id time (trace s')
    end.
Proof.
  intros (a & b & f & I). unfold first_valid. pose proof (queue_first_spec _ _ _ _ I) as Q.
  destruct (a ++ b) as [|p l] eqn:El.
  - destruct Q as (s1 & -> & I1 & Eh & Et & Ev & _ & Eb). exists None, s1. split; [done|].
    split; [by eexists _, _, _|]. rewrite Et. split_and!; try done.
    intros id time [[q Ha] Hn]. destruct (added_there s a b f id q time I Ha) as [|[Hq _]]; [done|].
    rewrite El in Hq. set_solver.
  - destruct Q as (s1 & -> & I1 & Eh & Et & Ev & _ & Eb). cbn [mbind option_bind skip_from].
    pose proof (list_fuel_queue _ _ _ _ (i_lists _ _ _ _ I1)) as Hfuel. cbn [app length] in Hfuel.
    destruct (skip_invalid_spec (list_fuel s1) s1 [] p l f I1 ltac:(lia))
      as (next & s2 & k & l2 & f2 & -> & P & Hh & Hv & _ & Hb & Hk & Hn). rewrite Et in P.
    exists next, s2. split; [done|].
    destruct next as [q|]; [destruct Hn as (_ & I2 & t & Hq & Hvq)|destruct Hn as (_ & I2)].
    + split; [by eexists _, _, _|]. rewrite Hv, Hb, Ev, Eb. split_and!; try done. exists t.
      assert (q ∈ ([] ++ [q]) ++ l2) as Hin by set_solver. rewrite <- Hh in Hq. split; [done|].
      split; [apply (to_time _ _ _ (i_tasks _ _ _ _ I2 q t Hin Hq))|].
      exists (t_id t). split; [by eapply valid_live|]. intros id' time' [[r Ha] Hn].
      destruct (added_there _ _ _ _ _ _ _ I2 Ha) as [|(Hr & u & Hu & _ & <-)]; [done|].
      replace (t_timeout t) with (time_at s2 q) by (unfold time_at; by rewrite Hq).
      replace (t_timeout u) with (time_at s2 r) by (unfold time_at; by rewrite Hu).
      by apply (sorted_first s2 q l2), Hr; apply (i_sorted _ _ _ _ I2).
    + split; [by eexists _, _, _|]. rewrite Hv, Hb, Ev, Eb. split_and!; try done.
      intros id time [[r Ha] Hn]. destruct (added_there _ _ _ _ _ _ _ I2 Ha) as [|[Hr _]]; [done|set_solver].
Qed.

(** ** The time to wait *)

(** What select_timeout leaves: the time from [now] until the earliest task, when
    there is one. *)
Definition waits (s : SilcSchedule) (now : timeval) : Prop :=
  if has_timeout s then exists time, time_ok time /\ earliest s time /\ timeout s = next_timeout time now
  else forall id time, ~ live id time (trace s).

Lemma okay_ext s s' :
  okay s -> heap s' = heap s -> links s' = links s -> timeout_queue s' = timeout_queue s ->
  free_tasks s' = free_tasks s -> brk s' = brk s -> adds s' = adds s -> trace s' = trace s -> okay s'.
Proof.
  intros (a & b & f & [L S T Lv U B Rm Tr]) Eh El Eq Ef Eb Ea Et. exists a, b, f.
  split; rewrite ?Et, ?Ea, ?Eh; try done.
  - apply (lists_ok_heap s); try done. intros p. by rewrite Eh.
  - erewrite map_ext; [exact S|]. intros p. unfold time_at. by rewrite Eh.
Qed.

Lemma save_timeout_spec s next now :
  okay s -> has_timeout s = false ->
  match next with
  | Some p => exists t, heap s !! p = Some t /\ time_ok (t_timeout t) /\ earliest s (t_timeout t)
  | None => forall id time, ~ live id time (trace s)
  end ->
  exists s', save_timeout s next now = Some s' /\ okay s' /\ trace s' = trace s /\ waits s' now.
Proof.
  intros K Hb H. unfold waits. destruct next as [p|]; cbn [save_timeout].
  - destruct H as (t & Ht & Hok & He). rewrite Ht. cbn [mbind option_bind]. eexists. split; [done|].
    split; [by eapply okay_ext|]. split; [done|]. by exists (t_timeout t).
  - exists s. split; [done|]. split; [done|]. by rewrite Hb.
Qed.

Lemma select_spec s :
  okay s ->
  exists s', silc_schedule_select_timeout clock script s = Some s' /\ okay s' /\
    trace s `prefix_of` trace s' /\ (valid s' = true -> waits s' (clock (reads s))).
Proof.
  intros K. unfold silc_schedule_select_timeout.
  set (s0 := set_timeout (timeout s) false (clock_read s)).
  assert (okay s0) as K0 by (by apply (okay_ext s)).
  destruct (first_valid_spec s0 K0) as (next & s1 & -> & K1 & P1 & V1 & B1 & Hn).
  cbn [mbind option_bind]. cbn [s0 set_timeout clock_read trace has_timeout] in P1, B1.
  destruct next as [p|].
  2: { exists s1. split; [done|]. split; [done|]. split; [done|]. intros _. unfold waits. by rewrite B1. }
  pose proof Hn as (t & Ht & _). rewrite Ht. cbn [mbind option_bind].
  destruct (_ <=? 0).
  - destruct (dispatch_spec s1 false K1) as (s2 & -> & K2 & P2 & B2 & _). cbn [mbind option_bind].
    destruct (valid s2) eqn:V2; cbn [negb].
    + destruct (first_valid_spec s2 K2) as (next & s3 & -> & K3 & P3 & V3 & B3 & Hn3).
      cbn [mbind option_bind].
      destruct (save_timeout_spec s3 next (clock (reads s)) K3) as (s4 & -> & K4 & E4 & W);
        [by rewrite B3, B2|done|].
      exists s4. split; [done|]. split; [done|]. rewrite E4. split; [|done].
      by etransitivity; [|etransitivity].
    + exists s2. split; [done|]. split; [done|]. split; [by etransitivity|]. by rewrite V2.
  - destruct (save_timeout_spec s1 (Some p) (clock (reads s)) K1 B1 Hn) as (s2 & -> & K2 & E2 & W).
    exists s2. split; [done|]. split; [done|]. by rewrite E2.
Qed.

(** ** The application's operations and rounds *)

Definition happening_ok (x : happening) : Prop :=
  match x with
  | hap_ops ops => Forall op_ok ops
  | hap_round _ (sel_tasks ops) => Forall op_ok ops
  | _ => True
  end.

Lemma run_ops_okay ops s : okay s -> Forall op_ok ops ->
  exists s', run_ops clock s ops = Some s' /\ okay s' /\ trace s `prefix_of` trace s'.
Proof.
  intros (a & b & f & I) H. destruct (run_ops_spec ops s a b f I H) as (s' & a' & b' & f' & E & I' & V).
  exists s'. split; [done|]. split; [by eexists _, _, _|apply (ev_trace _ _ _ _ _ _ V)].
Qed.

Lemma iterate_spec s usecs ret :
  okay s -> happening_ok (hap_round usecs ret) ->
  exists r s', silc_schedule_iterate clock script s usecs ret = Some (r, s') /\ okay s' /\
    trace s `prefix_of` trace s'.
Proof.
  intros K H. unfold silc_schedule_iterate. destruct (valid s); cbn [negb].
  2: { by exists false, s. }
  destruct (select_spec s K) as (s1 & -> & K1 & P1 & _). cbn [mbind option_bind].
  destruct (valid s1); cbn [negb]; [|by exists false, s1].
  set (s2 := if _ >=? _ then _ else _).
  assert (okay s2 /\ trace s2 = trace s1) as [K2 E2] by (unfold s2; destruct (_ >=? _);
    [split; [by apply (okay_ext s1)|done]|done]).
  assert (forall s3, okay s3 -> trace s2 `prefix_of` trace s3 ->
    exists r s', ('s ← silc_schedule_dispatch_timeout clock script s3 false; Some (true, s)) = Some (r, s') /\
      okay s' /\ trace s `prefix_of` trace s') as D.
  { intros s3 K3 P3. destruct (dispatch_spec s3 false K3) as (s4 & -> & K4 & P4 & _).
    exists true, s4. split; [done|]. split; [done|]. rewrite E2 in P3. by etransitivity; [|etransitivity]. }
  destruct ret as [|ops|].
  - destruct (negb _); [by apply D|]. exists true, s2. by rewrite E2.
  - destruct (run_ops_okay ops s2 K2 H) as (s3 & -> & K3 & P3). cbn [mbind option_bind].
    destruct (_ && _); [by apply D|]. exists true, s3. split; [done|]. split; [done|].
    rewrite E2 in P3. by etransitivity.
  - exists true, s2. by rewrite E2.
Qed.

Lemma run_all_spec l s :
  okay s -> Forall happening_ok l ->
  exists s', run_all clock script s l = Some s' /\ okay s' /\ trace s `prefix_of` trace s'.
Proof.
  intros K H. revert s K. induction H as [|x l Hx _ IH]; intros s K; cbn [run_all]; [by exists s|].
  assert (exists s1, run_happening clock script s x = Some s1 /\ okay s1 /\ trace s `prefix_of` trace s1)
    as (s1 & -> & K1 & P1).
  { destruct x as [ops|usecs ret]; cbn [run_happening]; [by apply run_ops_okay|].
    destruct (iterate_spec s usecs ret K Hx) as (r & s1 & -> & ? & ?). by exists s1. }
  cbn [mbind option_bind]. destruct (IH s1 K1) as (s2 & E & K2 & P2). exists s2. split; [done|].
  split; [done|]. by etransitivity.
Qed.

End run.

Lemma init_spec clock : clock_ok clock -> exists s, silc_schedule_init clock = Some s /\ okay s.
Proof.
  intros Hclock. assert (inv schedule_zero [] [] []) as I.
  { split; [split| | | | | | |].
    all: try done.
    all: try (cbn; intros; set_solver).
    all: cbn.
    - apply list_init_rep.
    - apply list_init_rep.
    - constructor.
    - intros p. rewrite lookup_empty. by split; [intros []|intros ?%not_elem_of_nil].
    - intros p. rewrite lookup_empty. by intros [].
    - constructor.
    - by intros id ?%not_elem_of_nil.
    - by intros [|e tr1] x tr2. }
  destruct (gc_again_spec clock Hclock _ _ _ _ I) as (s & a & b & f & E & I' & _).
  exists s. split; [done|]. by exists a, b, f.
Qed.
End base.
