(* ===== verification/SchedProps.v ===== *)
(** What holds of every run of the scheduler's timeout tasks: no fault and no call
    that should not be, the calls a round owes, the time that is waited, and that
    uninitialising frees every task. *)

From stdpp Require Import gmap sets list sorting.
From S2P Require Import Prelude CTypes HashTableSpec SilcList Sched SchedSpec.

(** * Uninitialising *)

(** The first task of the queue is freed. *)
Lemma remove_first_lists s p b f :
  lists_ok s [] (p :: b) f ->
  exists t L h' L', task_get s (timeout_queue s) = Some (Some p, L) /\ heap s !! p = Some t /\
    let s1 := set_queue (links s) L s in
    silc_list_del (list_fuel s1) (links s1) (timeout_queue s1) p = Some (h', L') /\
    lists_ok (log (ev_removed (t_id t)) (set_heap (delete p (heap s)) (set_queue h' L' s1))) [] b f.
Proof.
  intros Lo. pose proof (list_fuel_queue _ _ _ _ Lo) as Hfuel.
  destruct Lo as [Hq Hc Hf Hfr Hff Hn Hh Hb]. cbn [app] in *. injection Hf as F1 F2.
  destruct (proj2 (Hh p)) as [t Ht]; [set_solver|].
  destruct (task_get_cons s (timeout_queue s) [] p b) as [G R']; [apply (lr_nexts _ _ _ Hq)|by exists t|done|].
  exists t, (with_current (hd_or b None) (timeout_queue s)).
  destruct (silc_list_del_rep (links s) (with_current (hd_or b None) (timeout_queue s)) [] p b (list_fuel s))
    as (h' & L' & E & Rp & C & F); [by apply with_current_rep|done|].
  exists h', L'. split; [done|]. split; [done|]. cbv zeta. split; [exact E|].
  assert (same_links (links s) h' (p :: b)) as Fr
    by (eapply list_del_frame; [| |exact E]; [by apply with_current_rep|done]).
  injection F as F3 F4. apply list.NoDup_cons in Hn as [Hp Hn].
  split; cbn [log set_heap set_queue links timeout_queue free_tasks heap brk app]; try done.
  - rewrite C, bool_decide_eq_false_2; [done|]. cbn. destruct b as [|z b]; [done|].
    intros [= ->]. apply Hp. set_solver.
  - unfold flags. by rewrite F3, F4, F1, F2.
  - eapply list_rep_frame; [exact Hfr|exact Fr|]. intros q Hq1 [->|Hq2]%elem_of_cons; [set_solver|].
    by apply (proj1 (proj2 (proj1 (list.NoDup_app _ _) Hn)) q).
  - intros q. rewrite lookup_delete_is_Some, Hh. set_solver.
  - intros q [_ Hs]%lookup_delete_is_Some. by apply Hb.
Qed.

Lemma remove_all_loop_spec fuel s b f :
  lists_ok s [] b f -> (length b < fuel)%nat -> trace_ok (trace s) ->
  exists s', remove_all_loop fuel s = Some s' /\ lists_ok s' [] [] f /\
    trace s `prefix_of` trace s' /\ trace_ok (trace s') /\
    (forall id p time, ev_added id p time ∈ trace s' -> ev_added id p time ∈ trace s).
Proof.
  revert s b. induction fuel as [|fuel IH]; intros s b Lo Hf T; [lia|]. cbn [remove_all_loop].
  destruct b as [|p b].
  - pose proof (lo_flags _ _ _ _ Lo) as F. injection F as F1 F2.
    rewrite task_get_nil by (split; [apply (lo_cursor _ _ _ _ Lo)|done]). cbn [mbind option_bind].
    eexists. split; [done|]. split; [|done].
    eapply lists_ok_cursor; [exact Lo|done|apply (lo_queue _ _ _ _ Lo)|apply (lo_cursor _ _ _ _ Lo)|
      apply (lo_flags _ _ _ _ Lo)].
  - destruct (remove_first_lists s p b f Lo) as (t & L & h' & L' & -> & Ht & E & Lo').
    cbn [mbind option_bind]. cbn [set_queue heap]. rewrite Ht. cbn [mbind option_bind].
    cbv zeta in E. rewrite E. cbn [mbind option_bind]. cbn [length] in Hf.
    destruct (IH _ b Lo' ltac:(lia)) as (s' & E' & L2 & P & T' & Ha).
    { cbn. by apply trace_ok_snoc. }
    exists s'. split; [exact E'|]. split; [done|]. cbn in P, Ha. split.
    { etransitivity; [by apply prefix_app_r|exact P]. }
    split; [done|]. intros id q time Hin. apply Ha in Hin.
    by apply elem_of_app in Hin as [Hin|Hin%list_elem_of_singleton].
Qed.

Lemma free_loop_spec fuel s x y :
  nexts (links s) (x ++ y) None -> at_rest (free_tasks s) y -> NoDup y ->
  (forall p, is_Some (heap s !! p) <-> p ∈ y) -> (length y < fuel)%nat ->
  exists s', free_loop fuel s = Some s' /\ heap s' = ∅ /\ trace s' = trace s.
Proof.
  revert s x y. induction fuel as [|fuel IH]; intros s x y Hx R Hn Hh Hf; [lia|]. cbn [free_loop].
  destruct y as [|p y].
  - rewrite task_get_nil by done. cbn [mbind option_bind]. eexists. split; [done|]. split; [|done].
    cbn. apply map_empty. intros p. apply eq_None_not_Some. rewrite Hh. apply not_elem_of_nil.
  - destruct (proj2 (Hh p)) as [t Ht]; [by left|].
    destruct (task_get_cons s (free_tasks s) x p y Hx ltac:(by exists t) R) as [-> R'].
    cbn [mbind option_bind set_free heap]. rewrite Ht. cbn [mbind option_bind length] in *.
    apply list.NoDup_cons in Hn as [Hp Hn].
    destruct (IH (set_heap (delete p (heap s)) (set_free (links s)
      (with_current (hd_or y None) (free_tasks s)) s)) (x ++ [p]) y) as (s' & E & H1 & H2); try done.
    + by rewrite <- app_assoc.
    + cbn. intros q. rewrite lookup_delete_is_Some, Hh. set_solver.
    + lia.
    + exists s'. by split.
Qed.

Section run.
Context {base : TimeBase} (clock : nat -> timeval) (Hclock : clock_ok clock).
Context (script : list event -> list operation) (Hscript : forall tr, Forall op_ok (script tr)).

Lemma uninit_spec s :
  okay s -> valid s = false ->
  exists s', silc_schedule_uninit clock script s = Some (true, s') /\ heap s' = ∅ /\
    trace s `prefix_of` trace s' /\ trace_ok (trace s') /\
    forall id p time, ev_added id p time ∈ trace s' -> ended id (trace s').
Proof.
  intros K Hv. unfold silc_schedule_uninit. rewrite Hv.
  destruct (dispatch_spec clock Hclock script Hscript s true K) as (s1 & -> & (a & b & f & I1) & P1 & _).
  cbn [mbind option_bind].
  destruct (del_all_spec s1 a b f I1) as (s2 & -> & I2 & V2 & D2). cbn [mbind option_bind].
  unfold silc_schedule_task_remove_all.
  pose proof (i_lists _ _ _ _ I2) as Lo2. pose proof (lo_queue _ _ _ _ Lo2) as Rq.
  pose proof (lo_flags _ _ _ _ Lo2) as F. injection F as F1 F2.
  assert (lists_ok (set_queue (links s2) (silc_list_start (timeout_queue s2)) s2) [] (a ++ b) f) as Lo2'.
  { eapply lists_ok_cursor; [exact Lo2|by rewrite app_nil_r|by apply list_start_rep| |].
    - rewrite app_nil_r in Rq. apply (lr_head _ _ _ Rq).
    - unfold flags. cbn. by rewrite F1. }
  pose proof (list_fuel_queue _ _ _ _ Lo2) as Hfuel. rewrite app_nil_r in Hfuel.
  destruct (remove_all_loop_spec (list_fuel s2) _ (a ++ b) f Lo2' Hfuel (i_trace _ _ _ _ I2))
    as (s3 & -> & Lo3 & P3 & T3 & A3). cbn [mbind option_bind]. cbn [set_queue trace] in P3, A3.
  pose proof (lo_free _ _ _ _ Lo3) as Hfr.
  destruct (free_loop_spec (list_fuel s3)
    (set_free (links s3) (silc_list_start (free_tasks s3)) s3) [] f) as (s4 & E4 & H4 & T4).
  { apply (lr_nexts _ _ _ Hfr). }
  { by eapply list_start_rest. }
  { apply (lo_nodup _ _ _ _ Lo3). }
  { apply (lo_heap _ _ _ _ Lo3). }
  { by eapply list_fuel_free. }
  rewrite E4. cbn [mbind option_bind]. exists s4. split; [done|]. split; [done|]. rewrite T4.
  cbn [set_free trace]. split; [etransitivity; [exact P1|]; etransitivity; [apply (ev_trace _ _ _ _ _ _ V2)|done]|].
  split; [done|]. intros id p time Ha%A3.
  eapply ended_mono; [exact P3|].
  destruct (added_there _ _ _ _ _ _ _ I2 Ha) as [He|(Hp & t & Ht & <- & _)]; [done|]. right.
  rewrite app_nil_r in Hp.
  destruct (proj2 (lo_heap _ _ _ _ (i_lists _ _ _ _ I1) p)) as [u Hu]; [set_solver|].
  destruct (ev_tasks _ _ _ _ _ _ V2 p u Hp Hu) as (u' & Hu' & Ei & _).
  replace t with u' by congruence. rewrite Ei. by eapply D2.
Qed.
End run.

(** * Runs *)

(** The scheduler after [l]. *)
Definition reached (clock : nat -> timeval) (script : list event -> list operation) (l : list happening)
  : option SilcSchedule :=
  s ← silc_schedule_init clock;
  run_all clock script s l.

(** What is asked of a run: from some time on, which a 64 bit time_t can hold, the
    clock stays within 34 years, and the application and its callbacks ask for
    waiting times that are not negative, of up to 2^29 seconds (17 years) and 2^31
    microseconds: then the differences of times fit into the 32 bits in which they
    are compared. *)
Definition run_ok (clock : nat -> timeval) (script : list event -> list operation) (l : list happening)
  : Prop :=
  exists base : TimeBase, 0 <= base /\ base + 2 ^ 31 <= 2 ^ 63 /\
    @clock_ok base clock /\ (forall tr, Forall op_ok (script tr)) /\ Forall happening_ok l.

Lemma reached_okay {base : TimeBase} clock script l :
  clock_ok clock -> (forall tr, Forall op_ok (script tr)) -> Forall happening_ok l ->
  exists s, reached clock script l = Some s /\ okay s.
Proof.
  intros Hc Hs Hl. unfold reached. destruct (init_spec clock Hc) as (s0 & -> & K0).
  cbn [mbind option_bind].
  destruct (run_all_spec clock Hc script Hs l s0 K0 Hl) as (s & E & K & _). by exists s.
Qed.

Definition usecs (t : timeval) : Z := tv_sec t * 1000000 + tv_usec t.

Lemma next_timeout_spec {base : TimeBase} time now : time_ok time -> time_ok now ->
  (time_le now time -> usecs (next_timeout time now) = usecs time - usecs now) /\
  (time_lt time now -> 0 <= usecs (next_timeout time now) < 1000000).
Proof.
  unfold time_ok, time_le, time_lt, usecs, next_timeout. intros H1 H2.
  destruct (Z.ltb_spec (tv_sec time - tv_sec now) 0), (Z.ltb_spec (tv_usec time - tv_usec now) 0);
    cbn [tv_sec tv_usec]; try lia;
    match goal with |- context [?x <? 0] => destruct (Z.ltb_spec x 0) end; cbn [tv_sec tv_usec]; lia.
Qed.

(** C17. Whatever the application and the callbacks do (add tasks, delete them one by
    one, by callback, by context or all, stop the scheduler), at any point of any
    sequence of rounds: no task is used after it was freed and no loop fails to end;
    and every call is right: a task is called at most once for each time it was
    added, not after it was deleted or taken off the queue, and in a round not
    before its time has come.  The clock may go backwards as well; from any time on,
    its readings stay within 34 years and waiting times within 17 ([run_ok]). *)
Theorem silc_schedule_runs clock script l : run_ok clock script l ->
  exists s, reached clock script l = Some s /\ trace_ok (trace s).
Proof.
  intros (base & _ & _ & Hc & Hs & Hl). destruct (reached_okay clock script l Hc Hs Hl) as (s & E & a & b & f & I).
  exists s. split; [done|]. apply (i_trace _ _ _ _ I).
Qed.

(** C18. silc_schedule_dispatch_timeout leaves nothing behind: in any state of the
    scheduler it ends, and every task whose time has come (every task, when it
    dispatches all) was called or had been deleted; unless it called 41 tasks, where
    it stops to let others run.  The clock and the waiting times are as in [run_ok]. *)
Theorem silc_schedule_dispatch_timeout_calls clock script l all : run_ok clock script l ->
  exists s s', reached clock script l = Some s /\
    silc_schedule_dispatch_timeout clock script s all = Some s' /\
    ((forall id p time, ev_added id p time ∈ trace s -> all = true \/ time_le time (clock (reads s)) ->
        was_called id (trace s') \/ was_deleted id (trace s')) \/
     calls (trace s) + 41 <= calls (trace s')).
Proof.
  intros (base & _ & _ & Hc & Hs & Hl). destruct (reached_okay clock script l Hc Hs Hl) as (s & E & K).
  destruct (dispatch_spec clock Hc script Hs s all K) as (s' & E' & _ & _ & _ & Hor).
  by exists s, s'.
Qed.

(** C19. The time silc_schedule_select_timeout saves for select: none when no task is
    left to call, and otherwise the time from its reading of the clock until the
    earliest of the tasks that are left, to the microsecond, whatever the callbacks
    it ran added or deleted; less than a second when that task is already late.
    The clock and the waiting times are as in [run_ok]. *)
Theorem silc_schedule_select_timeout_waits clock script l : run_ok clock script l ->
  exists s s', reached clock script l = Some s /\
    silc_schedule_select_timeout clock script s = Some s' /\
    let now := clock (reads s) in
    (valid s' = true ->
      if has_timeout s' then
        exists id time, live id time (trace s') /\
          (forall id' time', live id' time' (trace s') -> time_le time time') /\
          (time_le now time -> usecs (timeout s') = usecs time - usecs now) /\
          (time_lt time now -> 0 <= usecs (timeout s') < 1000000)
      else forall id time, ~ live id time (trace s')).
Proof.
  intros (base & _ & _ & Hc & Hs & Hl). destruct (reached_okay clock script l Hc Hs Hl) as (s & E & K).
  destruct (select_spec clock Hc script Hs s K) as (s' & E' & _ & _ & W).
  exists s, s'. split; [done|]. split; [done|]. intros now Hv. specialize (W Hv). unfold waits in W.
  destruct (has_timeout s'); [|done]. destruct W as (time & Ht & (id & Hlive & He) & ->).
  exists id, time. split; [done|]. split; [done|]. apply next_timeout_spec; [done|].
  destruct (Hc (reads s)). split; lia.
Qed.

(** C20. silc_schedule_uninit refuses while the scheduler is valid; once it was
    stopped it ends, frees every task that was ever allocated, each once and none
    used after that, and every task ever added was called or deleted, by the rules
    of the calls.  The clock and the waiting times are as in [run_ok]. *)
Theorem silc_schedule_uninit_frees clock script l : run_ok clock script l ->
  exists s, reached clock script l = Some s /\
    if valid s then silc_schedule_uninit clock script s = Some (false, s)
    else exists s', silc_schedule_uninit clock script s = Some (true, s') /\ heap s' = ∅ /\
      trace s `prefix_of` trace s' /\ trace_ok (trace s') /\
      forall id p time, ev_added id p time ∈ trace s' ->
        was_called id (trace s') \/ was_deleted id (trace s').
Proof.
  intros (base & _ & _ & Hc & Hs & Hl). destruct (reached_okay clock script l Hc Hs Hl) as (s & E & K).
  exists s. split; [done|]. destruct (valid s) eqn:Hv.
  - unfold silc_schedule_uninit. by rewrite Hv.
  - by apply uninit_spec.
Qed.

(** * Runs of the model *)

Ltac oks := repeat first [apply list.Forall_nil_2|apply list.Forall_cons_2]; cbn; try done; try lia.

(** A clock that goes by a microsecond with each reading, in February 2009; a callback that deletes
    the other task and adds one. *)
Definition usec_clock (n : nat) : timeval :=
  {| tv_sec := 1234567890; tv_usec := Z.min (Z.of_nat n) 999999 |}.

Lemma usec_clock_ok : @clock_ok 1234567890 usec_clock.
Proof. intros n. unfold usec_clock, time_base. cbn [tv_sec tv_usec]. lia. Qed.

Definition del_script (tr : list event) : list operation :=
  match list.last tr with
  | Some (ev_called 1 _ _) => [op_del 2; op_add_timeout 9 0 0 1; op_stop]
  | _ => []
  end.

Lemma del_script_ok tr : Forall op_ok (del_script tr).
Proof.
  unfold del_script. repeat case_match; oks.
Qed.

Definition del_run : list happening :=
  [hap_ops [op_add_timeout 7 0 0 0; op_add_timeout 8 0 0 0; op_add_timeout 8 0 5 0];
   hap_round 0 sel_timeout].

Lemma del_run_ok : run_ok usec_clock del_script del_run.
Proof.
  exists 1234567890. split; [done|]. split; [done|]. split; [apply usec_clock_ok|]. split; [apply del_script_ok|].
  oks.
Qed.

(** The first task deletes the second, which is due as well, before it is called. *)
Example del_run_trace :
  option_map trace (reached usec_clock del_script del_run) =
  Some ([ev_added 0 1 {| tv_sec := 1234571490; tv_usec := 0 |};
         ev_added 1 2 {| tv_sec := 1234567890; tv_usec := 1 |};
         ev_added 2 3 {| tv_sec := 1234567890; tv_usec := 2 |};
         ev_added 3 4 {| tv_sec := 1234567895; tv_usec := 3 |};
         ev_called 1 {| tv_sec := 1234567890; tv_usec := 5 |} false; ev_deleted 2;
         ev_added 4 5 {| tv_sec := 1234567890; tv_usec := 7 |}; ev_removed 1; ev_removed 2]).
Proof. vm_compute. reflexivity. Qed.

Lemma silc_schedule_runs_witness :
  exists s, reached usec_clock del_script del_run = Some s /\ trace_ok (trace s).
Proof. apply (silc_schedule_runs usec_clock del_script del_run), del_run_ok. Defined.

Lemma silc_schedule_dispatch_timeout_calls_witness :
  exists s s', reached usec_clock del_script del_run = Some s /\
    silc_schedule_dispatch_timeout usec_clock del_script s true = Some s' /\
    ((forall id p time, ev_added id p time ∈ trace s ->
        true = true \/ time_le time (usec_clock (reads s)) ->
        was_called id (trace s') \/ was_deleted id (trace s')) \/
     calls (trace s) + 41 <= calls (trace s')).
Proof. apply (silc_schedule_dispatch_timeout_calls usec_clock del_script del_run true), del_run_ok. Defined.

Lemma silc_schedule_select_timeout_waits_witness :
  exists s s', reached usec_clock del_script [] = Some s /\
    silc_schedule_select_timeout usec_clock del_script s = Some s' /\
    let now := usec_clock (reads s) in
    (valid s' = true ->
      if has_timeout s' then
        exists id time, live id time (trace s') /\
          (forall id' time', live id' time' (trace s') -> time_le time time') /\
          (time_le now time -> usecs (timeout s') = usecs time - usecs now) /\
          (time_lt time now -> 0 <= usecs (timeout s') < 1000000)
      else forall id time, ~ live id time (trace s')).
Proof.
  apply (silc_schedule_select_timeout_waits usec_clock del_script []).
  exists 1234567890. split; [done|]. split; [done|]. split; [apply usec_clock_ok|]. split; [apply del_script_ok|constructor].
Defined.

Lemma silc_schedule_uninit_frees_witness :
  exists s, reached usec_clock del_script del_run = Some s /\
    if valid s then silc_schedule_uninit usec_clock del_script s = Some (false, s)
    else exists s', silc_schedule_uninit usec_clock del_script s = Some (true, s') /\ heap s' = ∅ /\
      trace s `prefix_of` trace s' /\ trace_ok (trace s') /\
      forall id p time, ev_added id p time ∈ trace s' ->
        was_called id (trace s') \/ was_deleted id (trace s').
Proof. apply (silc_schedule_uninit_frees usec_clock del_script del_run), del_run_ok. Defined.

(** The wait for a task that is late is not zero: with 42 tasks due, the round calls
    41 and then waits 999999 microseconds for the one that is left. *)
Example late_wait :
  (s ← reached usec_clock (fun _ => []) [hap_ops (replicate 42 (op_add_timeout 7 0 0 0))];
   s ← silc_schedule_select_timeout usec_clock (fun _ => []) s;
   Some (has_timeout s, timeout s, calls (trace s),
         existsb (fun e => match e with ev_called 42 _ _ => true | _ => false end) (trace s))) =
  Some (true, {| tv_sec := 0; tv_usec := 999999 |}, 41, false).
Proof. vm_compute. reflexivity. Qed.

(** A clock that goes by a second each time it is read: a task in three seconds, a
    task now, and the time to wait that is computed. *)
Example sched_run :
  let clock n := {| tv_sec := 100 + Z.of_nat n; tv_usec := 0 |} in
  (s ← silc_schedule_init clock;
   s ← run_all clock (fun _ => []) s
     [hap_ops [op_add_timeout 7 0 3 0; op_add_timeout 8 0 0 0]; hap_round (-1) sel_timeout;
      hap_round (-1) sel_timeout];
   Some (trace s, has_timeout s, timeout s)) =
  Some ([ev_added 0 1 {| tv_sec := 3700; tv_usec := 0 |};
         ev_added 1 2 {| tv_sec := 104; tv_usec := 0 |};
         ev_added 2 3 {| tv_sec := 102; tv_usec := 0 |};
         ev_called 2 {| tv_sec := 104; tv_usec := 0 |} false; ev_removed 2;
         ev_called 1 {| tv_sec := 104; tv_usec := 0 |} false; ev_removed 1], true,
        {| tv_sec := 3594; tv_usec := 0 |}).
Proof. vm_compute. reflexivity. Qed.
