(* ===== verification/Mp.v ===== *)
(** lib/silcmath: multiplicative inverses (modinv.c) and the generation of primes
    (silcprimegen.c) over the integers; the operations of silcmp.h that rsa.c
    uses are those of Z.

    [rng] is the stream of bytes the random number generator gives, from the
    position an operation gets; none of them is zero (silc_rng_get_byte). *)

From Stdlib Require Import Zpow_facts Zcong Zdivisibility ZmodInv.
From stdpp Require Import list.
From S2P Require Import Prelude CTypes SkeGroup.

Definition silc_mp_div (a b : Z) : Z := a / b.
Definition silc_mp_mod (a b : Z) : Z := a mod b.
Definition silc_mp_gcd (a b : Z) : Z := Z.gcd a b.
Definition silc_mp_get_ui (a : Z) : Z := u32 a.

(** * Multiplicative inverse *)

(** g[3] and v[3] of silc_mp_modinv. *)
Definition plus1 (i : nat) : nat := if Nat.eqb i 2 then 0 else S i.
Definition minus1 (i : nat) : nat := if Nat.eqb i 0 then 2 else Nat.pred i.

Definition at3 (l : list Z) (i : nat) : Z := nth i l 0.

(** while (silc_mp_cmp_ui(&g[i].x, 0) != 0) *)
Fixpoint modinv_loop (fuel : nat) (g v : list Z) (i : nat) : option (list Z * list Z * nat) :=
  match fuel with
  | O => None
  | S fuel =>
      if at3 g i =? 0 then Some (g, v, i)
      else
        let y := silc_mp_div (at3 g (minus1 i)) (at3 g i) in
        let g := <[plus1 i := silc_mp_mod (at3 g (minus1 i)) (at3 g i)]> g in
        let x := y * at3 v i in
        let v := <[plus1 i := at3 v (minus1 i)]> v in
        let v := <[plus1 i := at3 v (plus1 i) - x]> v in
        modinv_loop fuel g v (plus1 i)
  end.

(** Euclid's algorithm on numbers of so many bits. *)
Definition modinv_fuel (a n : Z) : nat := Z.to_nat (Z.log2 a + Z.log2 n + 4).

Definition silc_mp_modinv (a n : Z) : option Z :=
  '(_, v, i) ← modinv_loop (modinv_fuel a n) [n; a; 0] [0; 1; 0] 1;
  let inv := at3 v (minus1 i) in
  Some (if inv <? 0 then inv + n else inv).

(** * Primes *)

Definition primetable : list Z :=
  [
    2; 3; 5; 7; 11; 13; 17; 19; 23; 29; 31; 37; 41; 43; 47; 53; 59; 61; 67; 71; 73; 79; 83; 89;
    97; 101; 103; 107; 109; 113; 127; 131; 137; 139; 149; 151; 157; 163; 167; 173; 179; 181;
    191; 193; 197; 199; 211; 223; 227; 229; 233; 239; 241; 251; 257; 263; 269; 271; 277; 281;
    283; 293; 307; 311; 313; 317; 331; 337; 347; 349; 353; 359; 367; 373; 379; 383; 389; 397;
    401; 409; 419; 421; 431; 433; 439; 443; 449; 457; 461; 463; 467; 479; 487; 491; 499; 503;
    509; 521; 523; 541; 547; 557; 563; 569; 571; 577; 587; 593; 599; 601; 607; 613; 617; 619;
    631; 641; 643; 647; 653; 659; 661; 673; 677; 683; 691; 701; 709; 719; 727; 733; 739; 743;
    751; 757; 761; 769; 773; 787; 797; 809; 811; 821; 823; 827; 829; 839; 853; 857; 859; 863;
    877; 881; 883; 887; 907; 911; 919; 929; 937; 941; 947; 953; 967; 971; 977; 983; 991; 997;
    1009; 1013; 1019; 1021; 1031; 1033; 1039; 1049; 1051; 1061; 1063; 1069; 1087; 1091; 1093;
    1097; 1103; 1109; 1117; 1123; 1129; 1151; 1153; 1163; 1171; 1181; 1187; 1193; 1201; 1213;
    1217; 1223; 1229; 1231; 1237; 1249; 1259; 1277; 1279; 1283; 1289; 1291; 1297; 1301; 1303;
    1307; 1319; 1321; 1327; 1361; 1367; 1373; 1381; 1399; 1409; 1423; 1427; 1429; 1433; 1439;
    1447; 1451; 1453; 1459; 1471; 1481; 1483; 1487; 1489; 1493; 1499; 1511; 1523; 1531; 1543;
    1549; 1553; 1559; 1567; 1571; 1579; 1583; 1597; 1601; 1607; 1609; 1613; 1619; 1621; 1627;
    1637; 1657; 1663; 1667; 1669; 1693; 1697; 1699; 1709; 1721; 1723; 1733; 1741; 1747; 1753;
    1759; 1777; 1783; 1787; 1789; 1801; 1811; 1823; 1831; 1847; 1861; 1867; 1871; 1873; 1877;
    1879; 1889; 1901; 1907; 1913; 1931; 1933; 1949; 1951; 1973; 1979; 1987; 1993; 1997; 1999;
    2003; 2011; 2017; 2027; 2029; 2039; 2053; 2063; 2069; 2081; 2083; 2087; 2089; 2099; 2111;
    2113; 2129; 2131; 2137; 2141; 2143; 2153; 2161; 2179; 2203; 2207; 2213; 2221; 2237; 2239;
    2243; 2251; 2267; 2269; 2273; 2281; 2287; 2293; 2297; 2309; 2311; 2333; 2339; 2341; 2347;
    2351; 2357; 2371; 2377; 2381; 2383; 2389; 2393; 2399; 2411; 2417; 2423; 2437; 2441; 2447;
    2459; 2467; 2473; 2477; 2503; 2521; 2531; 2539; 2543; 2549; 2551; 2557; 2579; 2591; 2593;
    2609; 2617; 2621; 2633; 2647; 2657; 2659; 2663; 2671; 2677; 2683; 2687; 2689; 2693; 2699;
    2707; 2711; 2713; 2719; 2729; 2731; 2741; 2749; 2753; 2767; 2777; 2789; 2791; 2797; 2801;
    2803; 2819; 2833; 2837; 2843; 2851; 2857; 2861; 2879; 2887; 2897; 2903; 2909; 2917; 2927;
    2939; 2953; 2957; 2963; 2969; 2971; 2999; 3001; 3011; 3019; 3023; 3037; 3041; 3049; 3061;
    3067; 3079; 3083; 3089; 3109; 3119; 3121; 3137; 3163; 3167; 3169; 3181; 3187; 3191; 3203;
    3209; 3217; 3221; 3229; 3251; 3253; 3257; 3259; 3271; 3299; 3301; 3307; 3313; 3319; 3323;
    3329; 3331; 3343; 3347; 3359; 3361; 3371; 3373; 3389; 3391; 3407; 3413; 3433; 3449; 3457;
    3461; 3463; 3467; 3469; 3491; 3499; 3511; 3517; 3527; 3529; 3533; 3539; 3541; 3547; 3557;
    3559; 3571; 3581; 3583; 3593; 3607; 3613; 3617; 3623; 3631; 3637; 3643; 3659; 3671; 3673;
    3677; 3691; 3697; 3701; 3709; 3719; 3727; 3733; 3739; 3761; 3767; 3769; 3779; 3793; 3797;
    3803; 3821; 3823; 3833; 3847; 3851; 3853; 3863; 3877; 3881; 3889; 3907; 3911; 3917; 3919;
    3923; 3929; 3931; 3943; 3947; 3967; 3989; 4001; 4003; 4007; 4013; 4019; 4021; 4027; 4049;
    4051; 4057; 4073; 4079; 4091; 4093; 4099; 4111; 4127; 4129; 4133; 4139; 4153; 4157; 4159;
    4177; 4201; 4211; 4217; 4219; 4229; 4231; 4241; 4243; 4253; 4259; 4261; 4271; 4273; 4283;
    4289; 4297; 4327; 4337; 4339; 4349; 4357; 4363; 4373; 4391; 4397; 4409; 4421; 4423; 4441;
    4447; 4451; 4457; 4463; 4481; 4483; 4493; 4507; 4513; 4517; 4519; 4523; 4547; 4549; 4561;
    4567; 4583; 4591; 4597; 4603; 4621; 4637; 4639; 4643; 4649; 4651; 4657; 4663; 4673; 4679;
    4691; 4703; 4721; 4723; 4729; 4733; 4751; 4759; 4783; 4787; 4789; 4793; 4799; 4801; 4813;
    4817; 4831; 4861; 4871; 4877; 4889; 4903; 4909; 4919; 4931; 4933; 4937; 4943; 4951; 4957;
    4967; 4969; 4973; 4987; 4993; 4999; 5003; 5009; 5011; 5021; 5023; 5039; 5051; 5059; 5077;
    5081; 5087; 5099; 5101; 5107; 5113; 5119; 5147; 5153; 5167; 5171; 5179; 5189; 5197; 5209;
    5227; 5231; 5233; 5237; 5261; 5273; 5279; 5281; 5297; 5303; 5309; 5323; 5333; 5347; 5351;
    5381; 5387; 5393; 5399; 5407; 5413; 5417; 5419; 5431; 5437; 5441; 5443; 5449; 5471; 5477;
    5479; 5483; 5501; 5503; 5507; 5519; 5521; 5527; 5531; 5557; 5563; 5569; 5573; 5581; 5591;
    5623; 5639; 5641; 5647; 5651; 5653; 5657; 5659; 5669; 5683; 5689; 5693; 5701; 5711; 5717;
    5737; 5741; 5743; 5749; 5779; 5783; 5791; 5801; 5807; 5813; 5821; 5827; 5839; 5843; 5849;
    5851; 5857; 5861; 5867; 5869; 5879; 5881; 5897; 5903; 5923; 5927; 5939; 5953; 5981; 5987;
    6007; 6011; 6029; 6037; 6043; 6047; 6053; 6067; 6073; 6079; 6089; 6091; 6101; 6113; 6121;
    6131; 6133; 6143; 6151; 6163; 6173; 6197; 6199; 6203; 6211; 6217; 6221; 6229; 6247; 6257;
    6263; 6269; 6271; 6277; 6287; 6299; 6301; 6311; 6317; 6323; 6329; 6337; 6343; 6353; 6359;
    6361; 6367; 6373; 6379; 6389; 6397; 6421; 6427; 6449; 6451; 6469; 6473; 6481; 6491; 6521;
    6529; 6547; 6551; 6553; 6563; 6569; 6571; 6577; 6581; 6599; 6607; 6619; 6637; 6653; 6659;
    6661; 6673; 6679; 6689; 6691; 6701; 6703; 6709; 6719; 6733; 6737; 6761; 6763; 6779; 6781;
    6791; 6793; 6803; 6823; 6827; 6829; 6833; 6841; 6857; 6863; 6869; 6871; 6883; 6899; 6907;
    6911; 6917; 6947; 6949; 6959; 6961; 6967; 6971; 6977; 6983; 6991; 6997; 7001; 7013; 7019;
    7027; 7039; 7043; 7057; 7069; 7079; 7103; 7109; 7121; 7127; 7129; 7151; 7159; 7177; 7187;
    7193; 7207; 7211; 7213; 7219; 7229; 7237; 7243; 7247; 7253; 7283; 7297; 7307; 7309; 7321;
    7331; 7333; 7349; 7351; 7369; 7393; 7411; 7417; 7433; 7451; 7457; 7459; 7477; 7481; 7487;
    7489; 7499; 7507; 7517; 7523; 7529; 7537; 7541; 7547; 7549; 7559; 7561; 7573; 7577; 7583;
    7589; 7591; 7603; 7607; 7621; 7639; 7643; 7649; 7669; 7673; 7681; 7687; 7691; 7699; 7703;
    7717; 7723; 7727; 7741; 7753; 7757; 7759; 7789; 7793; 7817; 7823; 7829; 7841; 7853; 7867;
    7873; 7877; 7879; 7883; 7901; 7907; 7919; 7927; 7933; 7937; 7949; 7951; 7963; 7993; 8009;
    8011; 8017; 8039; 8053; 8059; 8069; 8081; 8087; 8089; 8093; 8101; 8111; 8117; 8123; 8147;
    8161; 8167; 8171; 8179; 8191
  ].

(** The trial division: spmods[b] + k for every b. *)
Definition has_divisor (spmods : list Z) (k : Z) : bool :=
  existsb (fun '(m, p) => silc_mp_mod (m + k) p =? 0) (combine spmods primetable).

(** r = 2 ^ p mod p *)
Definition fermat_test (p : Z) : bool := silc_mp_pow_mod 2 p p =? 2.

(** for (k = 0;; k += 2) *)
Fixpoint prime_search (fuel : nat) (prime : Z) (spmods : list Z) (k : Z) : option Z :=
  match fuel with
  | O => None
  | S fuel =>
      let oprime := prime + k in
      if has_divisor spmods k then prime_search fuel prime spmods (u32 (k + 2))
      else if negb (fermat_test oprime) then prime_search fuel prime spmods (u32 (k + 2))
      else Some oprime
  end.

Definition rng_data (rng : nat -> Z) (pos : nat) (len : Z) : list Z :=
  map rng (seq pos (Z.to_nat len)).

(** The first candidate: random, with the highest and the lowest bit set. *)
Definition prime_start (data : list Z) (bits : Z) : Z :=
  let prime := silc_mp_mod_2exp (silc_mp_bin2mp data) bits in
  let prime := Z.lor prime (Z.shiftl 1 (bits - 1)) in
  Z.lor prime 1.

(** while (valid == FALSE); [steps] bounds the search from one candidate. *)
Fixpoint silc_math_gen_prime (tries steps : nat) (bits : Z) (rng : nat -> Z) (pos : nat)
  : option (Z * nat) :=
  match tries with
  | O => None
  | S tries =>
      let prime := prime_start (rng_data rng pos (bits / 8)) bits in
      let pos := (pos + Z.to_nat (bits / 8))%nat in
      let spmods := map (fun p => silc_mp_get_ui (silc_mp_mod prime p)) primetable in
      prime ← prime_search steps prime spmods 0;
      if silc_mp_get_ui (Z.shiftr prime (bits - 1)) =? 1 then Some (prime, pos)
      else silc_math_gen_prime tries steps bits rng pos
  end.

Definition silc_math_prime_test (p : Z) : bool :=
  negb (existsb (fun q => silc_mp_mod p q =? 0) primetable) && fermat_test p.

(** * Facts *)

(** Euclid's loop: what the last two remainders and their coefficients are. *)
Record euclid (a n gp gc vp vc : Z) : Prop := {
  eu_pos : 0 < gp /\ 0 <= gc;
  eu_gcd : Z.gcd gp gc = Z.gcd a n;
  eu_prev : (vp * a) mod n = gp mod n;
  eu_cur : (vc * a) mod n = gc mod n;
  eu_sign : vp * vc <= 0;
  eu_size : Z.abs vc * gp + Z.abs vp * gc = n;
}.

Lemma mod_sub_mul x y z a n q : (x * a) mod n = y mod n -> (z * a) mod n = q mod n ->
  forall k, ((x - k * z) * a) mod n = (y - k * q) mod n.
Proof.
  intros H1 H2 k. replace ((x - k * z) * a) with (x * a - k * (z * a)) by ring.
  rewrite Zminus_mod, H1, <- Zmult_mod_idemp_r, H2, Zmult_mod_idemp_r, <- Zminus_mod. done.
Qed.

Lemma euclid_step a n gp gc vp vc : euclid a n gp gc vp vc -> 0 < gc ->
  euclid a n gc (gp mod gc) vc (vp - gp / gc * vc).
Proof.
  intros [[P1 P2] G V1 V2 S N] Hc.
  pose proof (Z.mod_pos_bound gp gc Hc) as Hm. pose proof (Z.div_mod gp gc ltac:(lia)) as Hd.
  pose proof (Z.div_pos gp gc ltac:(lia) Hc) as Hq.
  set (q := gp / gc) in *. set (r := gp mod gc) in *.
  assert (r = gp - q * gc) as Hr by lia. split; [lia| | | | |].
  - rewrite <- G, Hr, Z.gcd_comm. replace (gp - q * gc) with (gp + (- q) * gc) by ring.
    rewrite Z.gcd_comm, Z.gcd_add_mult_diag_r, Z.gcd_comm. done.
  - done.
  - rewrite Hr. by apply mod_sub_mul.
  - nia.
  - assert (Z.abs (vp - q * vc) = Z.abs vp + q * Z.abs vc) as -> by nia. rewrite Hr. nia.
Qed.

(** How many turns are left. *)
Definition euclid_turns (gp gc : Z) : Z :=
  if gc =? 0 then 1 else Z.log2 gp + Z.log2 gc + (if gp <? gc then 1 else 0) + 2.

Lemma euclid_turns_bound gp gc :
  0 < euclid_turns gp gc <= Z.log2 gp + Z.log2 gc + 3.
Proof.
  unfold euclid_turns. pose proof (Z.log2_nonneg gp). pose proof (Z.log2_nonneg gc).
  destruct (gc =? 0), (gp <? gc); lia.
Qed.

Lemma euclid_turns_step gp gc : 0 < gp -> 0 < gc ->
  euclid_turns gc (gp mod gc) < euclid_turns gp gc.
Proof.
  intros Hp Hc. unfold euclid_turns. pose proof (Z.mod_pos_bound gp gc Hc) as Hm.
  pose proof (Z.log2_nonneg gp). pose proof (Z.log2_nonneg gc).
  destruct (Z.eqb_spec gc 0); [lia|]. destruct (Z.eqb_spec (gp mod gc) 0); [destruct (gp <? gc); lia|].
  destruct (Z.ltb_spec gc (gp mod gc)); [lia|]. destruct (Z.ltb_spec gp gc).
  - rewrite Z.mod_small by lia. lia.
  - assert (2 * (gp mod gc) <= gp).
    { pose proof (Z.div_mod gp gc ltac:(lia)). pose proof (Z.div_le_lower_bound gp gc 1 ltac:(lia) ltac:(lia)). nia. }
    pose proof (Z.log2_le_mono (2 * (gp mod gc)) gp ltac:(lia)) as Hl.
    rewrite Z.log2_double in Hl by lia. lia.
Qed.

Lemma modinv_loop_spec fuel : forall a n g v i,
  length g = 3%nat -> length v = 3%nat -> (i < 3)%nat ->
  euclid a n (at3 g (minus1 i)) (at3 g i) (at3 v (minus1 i)) (at3 v i) ->
  euclid_turns (at3 g (minus1 i)) (at3 g i) <= Z.of_nat fuel ->
  exists g' v' i', modinv_loop fuel g v i = Some (g', v', i') /\
    euclid a n (at3 g' (minus1 i')) 0 (at3 v' (minus1 i')) (at3 v' i') /\
    Z.abs (at3 v' (minus1 i')) <= Z.max n (Z.abs (at3 v (minus1 i))).
Proof.
  induction fuel as [|fuel IH]; intros a n g v i Hg Hv Hi He Hf.
  { exfalso. pose proof (euclid_turns_bound (at3 g (minus1 i)) (at3 g i)). lia. }
  cbn [modinv_loop]. destruct (Z.eqb_spec (at3 g i) 0) as [E|E].
  { exists g, v, i. split; [done|]. rewrite E in He. split; [done|lia]. }
  destruct (eu_pos _ _ _ _ _ _ He) as [Hgp Hgc]. assert (0 < at3 g i) as Hpos by lia.
  pose proof (euclid_step _ _ _ _ _ _ He Hpos) as He'.
  pose proof (euclid_turns_step _ _ Hgp Hpos) as Ht.
  set (g' := <[plus1 i := _]> g). set (v' := <[plus1 i := _]> (<[plus1 i := _]> v)).
  assert (length g' = 3%nat /\ length v' = 3%nat) as [Hg' Hv'] by (unfold g', v'; by rewrite !length_insert).
  assert (at3 g' (minus1 (plus1 i)) = at3 g i /\ at3 g' (plus1 i) = at3 g (minus1 i) mod at3 g i /\
    at3 v' (minus1 (plus1 i)) = at3 v i /\
    at3 v' (plus1 i) = at3 v (minus1 i) - at3 g (minus1 i) / at3 g i * at3 v i) as (E1 & E2 & E3 & E4).
  { destruct g as [|g0 [|g1 [|g2 [|? ?]]]]; try done. destruct v as [|v0 [|v1 [|v2 [|? ?]]]]; try done.
    destruct i as [|[|[|?]]]; try lia; done. }
  destruct (IH a n g' v' (plus1 i) Hg' Hv') as (g2 & v2 & i2 & R & He2 & Hb).
  { destruct i as [|[|[|?]]]; cbn; lia. }
  { by rewrite E1, E2, E3, E4. }
  { rewrite E1, E2. lia. }
  exists g2, v2, i2. split; [exact R|]. split; [done|]. rewrite E3 in Hb.
  pose proof (eu_size _ _ _ _ _ _ He). assert (Z.abs (at3 v i) <= n) by nia. lia.
Qed.

(** silc_mp_modinv(inv, a, n): an inverse up to the greatest common divisor. *)
Lemma silc_mp_modinv_spec a n : 0 < a -> 0 < n ->
  exists inv, silc_mp_modinv a n = Some inv /\ (inv * a) mod n = Z.gcd a n mod n /\ 0 <= inv <= n.
Proof.
  intros Ha Hn. unfold silc_mp_modinv.
  destruct (modinv_loop_spec (modinv_fuel a n) a n [n; a; 0] [0; 1; 0] 1) as (g & v & i & E & He & Hb);
    [done..|lia| | |].
  - cbn. split; try lia. + apply Z.gcd_comm. + by rewrite Z.mul_0_l, Z.mod_same, Z.mod_0_l by lia.
    + by rewrite Z.mul_1_l.
  - cbn [at3 minus1 nth Nat.eqb Nat.pred]. unfold modinv_fuel.
    pose proof (Z.log2_nonneg a). pose proof (Z.log2_nonneg n). pose proof (euclid_turns_bound n a). lia.
  - rewrite E. cbn [mbind option_bind]. eexists. split; [done|].
    cbn [at3 minus1 nth Nat.eqb Nat.pred] in Hb. rewrite Z.abs_0, Z.max_l in Hb by lia.
    pose proof (eu_prev _ _ _ _ _ _ He) as Hp. pose proof (eu_gcd _ _ _ _ _ _ He) as Hg.
    destruct (eu_pos _ _ _ _ _ _ He) as [Hpos _]. rewrite Z.gcd_0_r, Z.abs_eq in Hg by lia.
    set (x := at3 v (minus1 i)) in *. rewrite Hg in Hp. destruct (Z.ltb_spec x 0).
    + split; [|lia]. rewrite <- Hp. replace ((x + n) * a) with (x * a + a * n) by ring.
      by rewrite Z.mod_add by lia.
    + split; [done|lia].
Qed.

Lemma silc_mp_modinv_coprime a n : 0 < a -> 2 <= n -> Z.gcd a n = 1 ->
  exists inv, silc_mp_modinv a n = Some inv /\ (inv * a) mod n = 1 /\ 0 < inv < n.
Proof.
  intros Ha Hn Hg. destruct (silc_mp_modinv_spec a n) as (inv & E & Hm & Hr); [lia..|].
  exists inv. split; [done|]. rewrite Hg, (Z.mod_small 1) in Hm by lia. split; [done|].
  assert (inv <> 0) by (intros ->; rewrite Z.mul_0_l, Z.mod_0_l in Hm; lia).
  assert (inv <> n) by (intros ->; rewrite Z.mul_comm, Z.mod_mul in Hm; lia). lia.
Qed.

(** ** Primes *)

(** What silc_math_gen_prime and silc_math_prime_test ask of a number. *)
Definition table_divides (c : Z) : bool := existsb (fun p => c mod p =? 0) primetable.
Definition passes (c : Z) : bool := negb (table_divides c) && fermat_test c.

Lemma primetable_range p : In p primetable -> 2 <= p < 2 ^ 32.
Proof.
  assert (forallb (fun p => (2 <=? p) && (p <? 2 ^ 32)) primetable = true) as H by (vm_compute; done).
  rewrite forallb_forall in H. intros Hp%H. lia.
Qed.

Lemma has_divisor_spec prime k : 0 <= k ->
  has_divisor (map (fun p => silc_mp_get_ui (silc_mp_mod prime p)) primetable) k = table_divides (prime + k).
Proof.
  intros Hk. unfold has_divisor, table_divides. pose proof primetable_range as H.
  induction primetable as [|p l IH]; [done|]. cbn [map combine existsb].
  pose proof (H p ltac:(by left)) as Hp. rewrite IH by (intros q Hq; apply H; by right). f_equal.
  unfold silc_mp_get_ui, silc_mp_mod. pose proof (Z.mod_pos_bound prime p ltac:(lia)).
  rewrite u32_id by lia. by rewrite Zplus_mod_idemp_l.
Qed.

(** The search finds the first number that passes. *)
Lemma prime_search_spec fuel : forall prime k c,
  let spmods := map (fun p => silc_mp_get_ui (silc_mp_mod prime p)) primetable in
  0 <= k -> passes c = true -> prime + k <= c -> (c - prime - k) mod 2 = 0 ->
  c - prime < 2 ^ 32 -> c - prime - k < 2 * Z.of_nat fuel ->
  exists r, prime_search fuel prime spmods k = Some r /\ passes r = true /\
    prime + k <= r <= c /\ (r - prime - k) mod 2 = 0 /\
    forall z, prime + k <= z < r -> (z - prime - k) mod 2 = 0 -> passes z = false.
Proof.
  induction fuel as [|fuel IH]; intros prime k c spmods Hk Hc Hle Hev Hlt Hf; [lia|].
  cbn [prime_search]. unfold spmods. rewrite has_divisor_spec by done.
  destruct (passes (prime + k)) eqn:Hp.
  - pose proof Hp as Hp'. unfold passes in Hp'. apply andb_true_iff in Hp' as [H1%negb_true_iff H2].
    rewrite H1, H2. cbn [negb]. exists (prime + k). split; [done|]. split; [done|]. split; [lia|].
    split; [by rewrite Z.sub_add_distr, Z.sub_diag with (n := prime + k) || (replace (prime + k - prime - k) with 0 by lia)|].
    lia.
  - assert (prime + k <> c) by (intros E; congruence).
    assert (prime + (k + 2) <= c) as Hle2.
    { apply Z.mod_divide in Hev as [j Hj]; [|lia]. lia. }
    destruct (IH prime (k + 2) c) as (r & E & Hr & Hb & He & Hmin); try done; try lia.
    { replace (c - prime - (k + 2)) with (c - prime - k + (-1) * 2) by lia. by rewrite Z.mod_add by lia. }
    exists r. rewrite u32_id by lia. split.
    { unfold passes in Hp. destruct (table_divides (prime + k)); [done|].
      cbn [negb andb] in Hp. by rewrite Hp. }
    split; [done|]. split; [lia|]. split.
    { replace (r - prime - k) with (r - prime - (k + 2) + 1 * 2) by lia. by rewrite Z.mod_add by lia. }
    intros z Hz Hze. destruct (decide (z = prime + k)) as [->|Hne]; [done|]. apply Hmin.
    + apply Z.mod_divide in Hze as [j Hj]; lia.
    + replace (z - prime - (k + 2)) with (z - prime - k + (-1) * 2) by lia. by rewrite Z.mod_add by lia.
Qed.

(** A prime beyond the table passes. *)
Lemma prime_passes c : Z.prime c -> 8191 < c -> passes c = true.
Proof.
  intros Hc Hlt. unfold passes. apply andb_true_iff. split.
  - apply negb_true_iff, not_true_iff_false. unfold table_divides. rewrite existsb_exists.
    intros (p & Hp & Hm%Z.eqb_eq).
    assert (forallb (fun p => (2 <=? p) && (p <=? 8191)) primetable = true) as H by (vm_compute; done).
    rewrite forallb_forall in H. specialize (H p Hp).
    apply Z.mod_divide in Hm; [|lia]. pose proof (Z.coprime_prime_small c p Hc ltac:(lia)) as Hcp.
    unfold Z.coprime in Hcp. rewrite Z.gcd_comm in Hcp.
    apply Z.divide_gcd_iff in Hm; [|lia]. lia.
  - unfold fermat_test. rewrite silc_mp_pow_mod_spec by lia. rewrite Z.fermat by done.
    by rewrite Z.mod_small by lia.
Qed.

Lemma lor_range a b n : 0 <= n -> 0 <= a < 2 ^ n -> 0 <= b < 2 ^ n -> b <= Z.lor a b < 2 ^ n.
Proof.
  intros Hn Ha Hb. assert (0 <= Z.lor a b) by (apply Z.lor_nonneg; lia). split.
  - apply Z.ldiff_le; [done|]. apply Z.bits_inj'. intros i _. rewrite Z.ldiff_spec, Z.lor_spec, Z.bits_0.
    by destruct (Z.testbit a i), (Z.testbit b i).
  - destruct (Z.eq_dec (Z.lor a b) 0) as [->|]; [lia|]. apply Z.log2_lt_pow2; [lia|].
    rewrite Z.log2_lor by lia. destruct (Z.eq_dec a 0) as [->|], (Z.eq_dec b 0) as [->|].
    + by rewrite Z.lor_0_l in *.
    + rewrite Z.max_r by apply Z.log2_nonneg. apply Z.log2_lt_pow2; lia.
    + rewrite Z.max_l by apply Z.log2_nonneg. apply Z.log2_lt_pow2; lia.
    + apply Z.max_lub_lt; apply Z.log2_lt_pow2; lia.
Qed.

Lemma prime_start_range data bits : 2 <= bits ->
  2 ^ (bits - 1) <= prime_start data bits < 2 ^ bits /\ prime_start data bits mod 2 = 1.
Proof.
  intros Hb. unfold prime_start, silc_mp_mod_2exp.
  assert (2 ^ bits = 2 * 2 ^ (bits - 1)) as E2 by (rewrite <- Z.pow_succ_r by lia; f_equal; lia).
  assert (2 <= 2 ^ (bits - 1)) by (change 2 with (2 ^ 1) at 1; apply Z.pow_le_mono_r; lia).
  pose proof (Z.mod_pos_bound (silc_mp_bin2mp data) (2 ^ bits) ltac:(lia)) as H0.
  set (x := _ mod _) in *. rewrite Z.shiftl_mul_pow2, Z.mul_1_l by lia.
  pose proof (lor_range x (2 ^ (bits - 1)) bits ltac:(lia) ltac:(lia) ltac:(lia)) as H1.
  set (y := Z.lor x _) in *.
  pose proof (lor_range 1 y bits ltac:(lia) ltac:(lia) ltac:(lia)) as H2. rewrite (Z.lor_comm 1) in H2.
  split; [lia|]. rewrite Zmod_odd, <- Z.bit0_odd, Z.lor_spec, orb_true_r. done.
Qed.

Lemma silc_math_gen_prime_spec tries steps bits rng pos c :
  2 <= bits -> Z.odd c = true -> passes c = true ->
  let start := prime_start (rng_data rng pos (bits / 8)) bits in
  start <= c < 2 ^ bits -> c - start < 2 ^ 32 -> c - start < 2 * Z.of_nat steps ->
  exists p, silc_math_gen_prime (S tries) steps bits rng pos = Some (p, (pos + Z.to_nat (bits / 8))%nat) /\
    passes p = true /\ Z.odd p = true /\ start <= p <= c /\
    forall z, start <= z < p -> Z.odd z = true -> passes z = false.
Proof.
  intros Hb Ho Hc start Hr H32 Hs. cbn [silc_math_gen_prime]. fold start.
  destruct (prime_start_range (rng_data rng pos (bits / 8)) bits Hb) as [Hst Hodd]. fold start in Hst, Hodd.
  assert (forall z, Z.odd z = true -> (z - start - 0) mod 2 = 0) as Hz.
  { intros z Hz. rewrite Zmod_odd in *. rewrite Z.sub_0_r, Z.odd_sub, Hz.
    by destruct (Z.odd start). }
  destruct (prime_search_spec steps start 0 c) as (p & E & Hp & Hle & He & Hmin); try done; try lia.
  { by apply Hz. }
  rewrite E. cbn [mbind option_bind]. unfold silc_mp_get_ui.
  assert (Z.shiftr p (bits - 1) = 1) as ->.
  { rewrite Z.shiftr_div_pow2 by lia. symmetry. apply Z.div_unique with (p - 2 ^ (bits - 1)); [|lia].
    assert (2 ^ bits = 2 * 2 ^ (bits - 1)) by (rewrite <- Z.pow_succ_r by lia; f_equal; lia). lia. }
  exists p. split; [done|]. split; [done|]. split; [|split; [lia|]].
  - rewrite Z.sub_0_r, Zmod_odd, Z.odd_sub in He. rewrite Zmod_odd in Hodd.
    by destruct (Z.odd p), (Z.odd start).
  - intros z Hzr Hzo. apply Hmin; [lia|by apply Hz].
Qed.

(** Whatever the search and the generation give is of that kind. *)
Lemma prime_search_some fuel : forall prime k r,
  0 <= k < 2 ^ 32 -> k mod 2 = 0 ->
  prime_search fuel prime (map (fun p => silc_mp_get_ui (silc_mp_mod prime p)) primetable) k = Some r ->
  passes r = true /\ prime <= r < prime + 2 ^ 32 /\ (r - prime) mod 2 = 0.
Proof.
  induction fuel as [|fuel IH]; intros prime k r Hk Hk2; cbn [prime_search]; [done|].
  rewrite has_divisor_spec by lia.
  assert (0 <= u32 (k + 2) < 2 ^ 32 /\ u32 (k + 2) mod 2 = 0) as [Hu Hu2].
  { split; [apply u32_range|]. unfold u32. rewrite <- (Znumtheory.Zmod_div_mod 2 (2 ^ 32)) by (lia || by exists (2 ^ 31)).
    by rewrite Zplus_mod, Hk2. }
  destruct (table_divides (prime + k)) eqn:E1; [by apply IH|].
  destruct (fermat_test (prime + k)) eqn:E2; cbn [negb]; [|by apply IH].
  intros [= <-]. unfold passes. rewrite E1, E2. split; [done|]. split; [lia|].
  by replace (prime + k - prime) with k by lia.
Qed.

Lemma silc_math_gen_prime_some tries steps bits rng : forall pos p pos', 34 <= bits ->
  silc_math_gen_prime tries steps bits rng pos = Some (p, pos') ->
  2 ^ (bits - 1) <= p < 2 ^ bits /\ passes p = true /\ Z.odd p = true.
Proof.
  induction tries as [|tries IH]; intros pos p pos' Hb; cbn [silc_math_gen_prime]; [done|].
  set (start := prime_start _ _). destruct (prime_start_range (rng_data rng pos (bits / 8)) bits ltac:(lia)) as [Hst Ho].
  fold start in Hst, Ho. destruct (prime_search steps start _ 0) as [r|] eqn:E; cbn [mbind option_bind]; [|done].
  apply prime_search_some in E as (Hp & Hr & He); [|lia|done].
  assert (2 ^ bits = 2 * 2 ^ (bits - 1)) as E2 by (rewrite <- Z.pow_succ_r by lia; f_equal; lia).
  assert (2 ^ 33 <= 2 ^ (bits - 1)) as E33 by (apply Z.pow_le_mono_r; lia).
  unfold silc_mp_get_ui. rewrite Z.shiftr_div_pow2 by lia.
  pose proof (Z.div_mod r (2 ^ (bits - 1)) ltac:(lia)) as Hd.
  pose proof (Z.mod_pos_bound r (2 ^ (bits - 1)) ltac:(lia)) as Hm.
  destruct (Z.eqb_spec (u32 (r / 2 ^ (bits - 1))) 1) as [Hu|]; [|by apply IH].
  intros [= <- <-]. assert (0 <= r / 2 ^ (bits - 1) < 3) as Hq by nia.
  rewrite u32_id in Hu by lia. split; [lia|]. split; [done|].
  rewrite !Zmod_odd in *. rewrite Z.odd_sub in He. destruct (Z.odd r), (Z.odd start); done.
Qed.
