(* ===== verification/Rsa.v ===== *)
(** lib/silccrypt/rsa.c: RSA keys and the two RSA operations, over the integers. *)

From Stdlib Require Import Zpow_facts Zcong Zdivisibility ZmodInv.
From S2P Require Import Prelude CTypes SkeGroup Mp.

Record RsaPublicKey := { pub_n : Z; pub_e : Z; pub_bits : Z }.

Record RsaPrivateKey := {
  prv_n : Z; prv_e : Z; prv_d : Z;
  prv_p : Z; prv_q : Z;
  prv_dP : Z; prv_dQ : Z; prv_qP : Z;
  prv_bits : Z;
}.

(** retry_e: the first exponent from [e] on that is relatively prime to [phi]. *)
Fixpoint retry_e (fuel : nat) (e phi : Z) : option Z :=
  match fuel with
  | O => None
  | S fuel => if silc_mp_gcd e phi >? 1 then retry_e fuel (e + 2) phi else Some e
  end.

Definition silc_rsa_generate_keys (fuel : nat) (bits p q : Z) : option (RsaPublicKey * RsaPrivateKey) :=
  let n := p * q in
  let pm1 := p - 1 in
  let qm1 := q - 1 in
  let phi := pm1 * qm1 in
  e ← retry_e fuel 65533 phi;
  let div := silc_mp_gcd pm1 qm1 in
  let lcm := silc_mp_div phi div in
  d ← silc_mp_modinv e lcm;
  let dP := silc_mp_mod d pm1 in
  let dQ := silc_mp_mod d qm1 in
  qP ← silc_mp_modinv q p;
  Some ({| pub_n := n; pub_e := e; pub_bits := bits |},
        {| prv_n := n; prv_e := e; prv_d := d; prv_p := p; prv_q := q; prv_dP := dP; prv_dQ := dQ;
           prv_qP := qP; prv_bits := bits |}).

Definition silc_rsa_public_operation (key : RsaPublicKey) (src : Z) : Z :=
  silc_mp_pow_mod src (pub_e key) (pub_n key).

Definition silc_rsa_private_operation (key : RsaPrivateKey) (src : Z) : Z :=
  let dst := silc_mp_pow_mod src (prv_dP key) (prv_p key) in
  let tmp := silc_mp_pow_mod src (prv_dQ key) (prv_q key) in
  let dst := dst - tmp in
  let dst := dst * prv_qP key in
  let dst := silc_mp_mod dst (prv_p key) in
  let dst := dst * prv_q key in
  dst + tmp.

(** * Keys *)

(** What makes two keys a pair: the relations between their numbers. *)
Record rsa_pair (pub : RsaPublicKey) (prv : RsaPrivateKey) : Prop := {
  rp_n : prv_n prv = prv_p prv * prv_q prv;
  rp_pub : pub_n pub = prv_n prv /\ pub_e pub = prv_e prv /\ pub_bits pub = prv_bits prv;
  rp_p : Z.prime (prv_p prv) /\ 2 < prv_p prv;
  rp_q : Z.prime (prv_q prv) /\ 2 < prv_q prv;
  rp_ne : prv_p prv <> prv_q prv;
  rp_e : 0 < prv_e prv;
  rp_d : 0 < prv_d prv;
  rp_ed_p : (prv_e prv * prv_d prv) mod (prv_p prv - 1) = 1;
  rp_ed_q : (prv_e prv * prv_d prv) mod (prv_q prv - 1) = 1;
  rp_dP : prv_dP prv = prv_d prv mod (prv_p prv - 1);
  rp_dQ : prv_dQ prv = prv_d prv mod (prv_q prv - 1);
  rp_qP : (prv_qP prv * prv_q prv) mod prv_p prv = 1;
}.

(** ** Generation *)

Lemma retry_e_spec fuel : forall e phi k,
  0 < e -> 0 < phi -> e <= k -> (k - e) mod 2 = 0 -> Z.gcd k phi = 1 -> k - e < 2 * Z.of_nat fuel ->
  exists r, retry_e fuel e phi = Some r /\ e <= r <= k /\ Z.gcd r phi = 1.
Proof.
  induction fuel as [|fuel IH]; intros e phi k He Hp Hle Hev Hg Hf; [lia|]. cbn [retry_e].
  unfold silc_mp_gcd. pose proof (Z.gcd_nonneg e phi) as Hn.
  assert (Z.gcd e phi <> 0) by (intros Hz; apply Z.gcd_eq_0_l in Hz; lia).
  destruct (Z.gtb_spec (Z.gcd e phi) 1) as [H1|H1].
  - assert (e <> k) by (intros ->; lia).
    assert (e + 2 <= k) by (apply Z.mod_divide in Hev as [j Hj]; lia).
    destruct (IH (e + 2) phi k) as (r & E & Hr & Hgr); try done; try lia.
    + replace (k - (e + 2)) with (k - e + (-1) * 2) by lia. by rewrite Z.mod_add by lia.
    + exists r. split; [done|]. split; [lia|done].
  - exists e. split; [done|]. split; [lia|]. lia.
Qed.

(** A number among the odd ones that is relatively prime to an even [phi]. *)
Lemma coprime_above phi e : 0 < phi -> phi mod 2 = 0 -> e mod 2 = 1 ->
  exists k, e <= k < e + phi + 1 /\ (k - e) mod 2 = 0 /\ Z.gcd k phi = 1.
Proof.
  intros Hp H2 He. exists (phi * ((e + phi - 1) / phi) + 1).
  pose proof (Z.div_mod (e + phi - 1) phi ltac:(lia)) as Hd.
  pose proof (Z.mod_pos_bound (e + phi - 1) phi Hp) as Hm. set (j := (e + phi - 1) / phi) in *.
  split; [nia|]. split.
  - apply Z.mod_divide in H2 as [i ->]; [|lia]. pose proof (Z.div_mod e 2 ltac:(lia)) as He2. rewrite He in He2.
    replace (i * 2 * j + 1 - e) with ((i * j - e / 2) * 2) by lia. by apply Z.mod_mul.
  - rewrite Z.gcd_comm, Z.add_comm, Z.mul_comm. rewrite Z.gcd_add_mult_diag_r. apply Z.gcd_1_r.
Qed.

Lemma mod_of_divide x m l : 0 < m -> (m | l) -> x mod l = 1 -> 1 < m -> x mod m = 1.
Proof.
  intros Hm [k ->] Hx H1. destruct (Z.eq_dec k 0) as [->|].
  - rewrite Z.mul_0_l, Zmod_0_r in Hx. subst. by apply Z.mod_small; lia.
  - pose proof (Z.div_mod x (k * m) ltac:(nia)) as Hd. rewrite Hx in Hd. rewrite Hd.
    replace (k * m * (x / (k * m)) + 1) with (1 + (k * (x / (k * m))) * m) by ring.
    rewrite Z.mod_add by lia. apply Z.mod_small. lia.
Qed.

Lemma prime_coprime p q : Z.prime p -> Z.prime q -> p <> q -> Z.gcd p q = 1.
Proof.
  intros Hp Hq Hne. apply Z.coprime_prime_l; [done|]. intros Hd.
  apply Z.divide_prime_prime in Hd; done.
Qed.

Lemma odd_prime p : Z.prime p -> 2 < p -> p mod 2 = 1.
Proof.
  intros Hp Hlt. pose proof (Z.mod_pos_bound p 2 ltac:(lia)).
  destruct (Z.eq_dec (p mod 2) 0) as [H0|]; [|lia].
  apply Z.mod_divide in H0; [|lia]. apply Z.divide_prime_prime in H0; [lia| |done]. apply Z.prime_2.
Qed.

Lemma retry_e_some fuel : forall e phi r,
  0 < e -> 0 < phi -> retry_e fuel e phi = Some r -> 0 < r /\ Z.gcd r phi = 1.
Proof.
  induction fuel as [|fuel IH]; intros e phi r He Hp; cbn [retry_e]; [done|]. unfold silc_mp_gcd.
  pose proof (Z.gcd_nonneg e phi). assert (Z.gcd e phi <> 0) by (intros Hz; apply Z.gcd_eq_0_l in Hz; lia).
  destruct (Z.gtb_spec (Z.gcd e phi) 1); [apply IH; lia|]. intros [= <-]. lia.
Qed.

(** With the exponent found, silc_rsa_generate_keys gives a pair. *)
Lemma generate_keys_exponent fuel bits p q e :
  Z.prime p -> Z.prime q -> 2 < p -> 2 < q -> p <> q ->
  retry_e fuel 65533 ((p - 1) * (q - 1)) = Some e -> 0 < e -> Z.gcd e ((p - 1) * (q - 1)) = 1 ->
  exists pub prv, silc_rsa_generate_keys fuel bits p q = Some (pub, prv) /\ rsa_pair pub prv /\
    prv_p prv = p /\ prv_q prv = q /\ prv_bits prv = bits.
Proof.
  intros Hp Hq Hp2 Hq2 Hne Ee He Hge. unfold silc_rsa_generate_keys.
  set (phi := (p - 1) * (q - 1)) in *. assert (0 < phi) as Hphi by (unfold phi; nia).
  rewrite Ee. cbn [mbind option_bind]. unfold silc_mp_gcd, silc_mp_div, silc_mp_mod.
  set (g := Z.gcd (p - 1) (q - 1)).
  assert (0 < g) as Hg.
  { pose proof (Z.gcd_nonneg (p - 1) (q - 1)). assert (g <> 0); [|unfold g in *; lia].
    intros Hz. apply Z.gcd_eq_0_l in Hz. lia. }
  destruct (Z.gcd_divide_l (p - 1) (q - 1)) as [u Hu]. destruct (Z.gcd_divide_r (p - 1) (q - 1)) as [w Hw].
  fold g in Hu, Hw.
  assert (phi / g = (p - 1) * w) as El1.
  { unfold phi. rewrite Hw at 1. rewrite Z.mul_assoc. by apply Z.div_mul; lia. }
  assert (phi / g = (q - 1) * u) as El2.
  { unfold phi. rewrite Hu at 1. replace (u * g * (q - 1)) with ((q - 1) * u * g) by ring.
    by apply Z.div_mul; lia. }
  assert (0 < w /\ 0 < u) as [Hwp Hup] by nia.
  set (lcm := phi / g) in *. assert (2 <= lcm) as Hl by nia.
  assert (Z.gcd e lcm = 1) as Hgl.
  { apply Z.gcd_unique; [lia|apply Z.divide_1_l..|]. intros z Hz1 Hz2. rewrite <- Hge.
    apply Z.gcd_greatest; [done|]. transitivity lcm; [done|]. exists g.
    rewrite El1. unfold phi. rewrite Hw at 1. ring. }
  destruct (silc_mp_modinv_coprime e lcm) as (d & -> & Hd & Hdr); [lia..|done|]. cbn [mbind option_bind].
  destruct (silc_mp_modinv_coprime q p) as (qP & -> & HqP & _); [lia..|by apply prime_coprime; auto|].
  cbn [mbind option_bind]. eexists _, _. split; [done|]. split; [|done].
  rewrite Z.mul_comm in Hd.
  split; cbn; try done; try lia.
  - by apply (mod_of_divide _ _ lcm); [lia|exists w; lia|done|lia].
  - by apply (mod_of_divide _ _ lcm); [lia|exists u; lia|done|lia].
Qed.

Lemma phi_even p q : Z.prime p -> 2 < p -> ((p - 1) * (q - 1)) mod 2 = 0.
Proof. intros Hp Hp2. by rewrite Zmult_mod, Zminus_mod, (odd_prime p Hp Hp2). Qed.

(** silc_rsa_generate_keys ends, and gives a pair. *)
Lemma silc_rsa_generate_keys_total bits p q :
  Z.prime p -> Z.prime q -> 2 < p -> 2 < q -> p <> q ->
  exists fuel, forall fuel', (fuel <= fuel')%nat ->
  exists pub prv, silc_rsa_generate_keys fuel' bits p q = Some (pub, prv) /\ rsa_pair pub prv /\
    prv_p prv = p /\ prv_q prv = q /\ prv_bits prv = bits.
Proof.
  intros Hp Hq Hp2 Hq2 Hne. set (phi := (p - 1) * (q - 1)). assert (0 < phi) as Hphi by (unfold phi; nia).
  exists (Z.to_nat phi). intros fuel' Hf.
  destruct (coprime_above phi 65533 Hphi (phi_even p q Hp Hp2) eq_refl) as (k & Hk & Hkm & Hkg).
  destruct (retry_e_spec fuel' 65533 phi k) as (e & Ee & He & Hge); try done; try lia.
  apply (generate_keys_exponent fuel' bits p q e); (done || lia).
Qed.

Lemma silc_rsa_generate_keys_some fuel bits p q pub prv :
  Z.prime p -> Z.prime q -> 2 < p -> 2 < q -> p <> q ->
  silc_rsa_generate_keys fuel bits p q = Some (pub, prv) ->
  rsa_pair pub prv /\ prv_p prv = p /\ prv_q prv = q /\ prv_bits prv = bits.
Proof.
  intros Hp Hq Hp2 Hq2 Hne E. destruct (retry_e fuel 65533 ((p - 1) * (q - 1))) as [e|] eqn:Ee.
  - assert (0 < (p - 1) * (q - 1)) as Hphi by nia.
    destruct (retry_e_some fuel 65533 _ e ltac:(lia) Hphi Ee) as [He Hge].
    destruct (generate_keys_exponent fuel bits p q e) as (pub' & prv' & E' & H); try done.
    rewrite E in E'. by injection E' as <- <-.
  - unfold silc_rsa_generate_keys in E. by rewrite Ee in E.
Qed.

(** * The operations *)

Lemma pow_mod_exponent p x k r : Z.prime p -> 2 < p -> 0 < r -> 0 <= k ->
  x ^ (r + (p - 1) * k) mod p = x ^ r mod p.
Proof.
  intros Hp Hlt Hr Hk. rewrite Z.pow_add_r by nia. rewrite Z.pow_mul_r by lia.
  destruct (Z.eq_dec (x mod p) 0) as [H0|H0].
  - rewrite Zmult_mod. assert (x ^ r mod p = 0) as ->.
    { rewrite Zpower_mod, H0, Z.pow_0_l by lia. done. }
    by rewrite Z.mul_0_l.
  - rewrite <- Zmult_mod_idemp_r. rewrite (Zpower_mod (x ^ (p - 1))) by lia.
    rewrite Z.fermat_nz by done. rewrite Z.pow_1_l by lia. rewrite (Z.mod_small 1) by lia.
    by rewrite Z.mul_1_r.
Qed.

Lemma pow_mod_reduce p x e d : Z.prime p -> 2 < p -> 0 < d -> (e * d) mod (p - 1) = 1 ->
  x ^ (d mod (p - 1)) mod p = x ^ d mod p.
Proof.
  intros Hp Hlt Hd Hed. pose proof (Z.mod_pos_bound d (p - 1) ltac:(lia)) as Hm.
  assert (d mod (p - 1) <> 0) as Hn.
  { intros Hz. rewrite <- Zmult_mod_idemp_r, Hz, Z.mul_0_r, Zmod_0_l in Hed. lia. }
  rewrite (Z.div_mod d (p - 1)) at 2 by lia. rewrite Z.add_comm.
  by rewrite pow_mod_exponent by (done || lia || (apply Z.div_pos; lia)).
Qed.

Lemma pow_mod_inverse p x e d : Z.prime p -> 2 < p -> 0 < e -> 0 < d -> (e * d) mod (p - 1) = 1 ->
  x ^ (e * d) mod p = x mod p.
Proof.
  intros Hp Hlt He Hd Hed. rewrite (Z.div_mod (e * d) (p - 1)) by lia. rewrite Hed, Z.add_comm.
  rewrite pow_mod_exponent by (done || lia || (apply Z.div_pos; nia)). by rewrite Z.pow_1_r.
Qed.

(** Two numbers below p * q that agree modulo p and modulo q. *)
Lemma crt_unique p q x y : Z.gcd p q = 1 -> 0 < p -> 0 < q ->
  0 <= x < p * q -> 0 <= y < p * q -> x mod p = y mod p -> x mod q = y mod q -> x = y.
Proof.
  intros Hg Hp Hq Hx Hy H1 H2.
  assert ((p | x - y) /\ (q | x - y)) as [D1 D2].
  { split; apply Z.mod_divide; try lia; rewrite Zminus_mod, ?H1, ?H2, Z.sub_diag; done. }
  destruct D1 as [k Hk]. rewrite Hk in D2. rewrite Z.mul_comm in D2.
  apply Z.gauss in D2; [|by rewrite Z.gcd_comm]. destruct D2 as [j ->].
  assert (x - y = j * (p * q)) as E by (rewrite Hk; ring).
  assert (j = 0) as -> by (assert (-1 < j < 1) by nia; lia). lia.
Qed.

Section pair.
Context (pub : RsaPublicKey) (prv : RsaPrivateKey) (Hpair : rsa_pair pub prv).

Lemma rsa_pair_gcd : Z.gcd (prv_p prv) (prv_q prv) = 1.
Proof. destruct Hpair. apply prime_coprime; tauto. Qed.

(** The private operation, with the Chinese remainder theorem, is the power of d. *)
Lemma silc_rsa_private_operation_spec x :
  silc_rsa_private_operation prv x = x ^ prv_d prv mod prv_n prv.
Proof.
  pose proof rsa_pair_gcd as Hg.
  destruct Hpair as [N Pub [Pp P2] [Qp Q2] Ne E D EP EQ DP DQ QP].
  unfold silc_rsa_private_operation, silc_mp_mod. rewrite N, DP, DQ.
  assert (0 <= prv_d prv mod (prv_p prv - 1) /\ 0 <= prv_d prv mod (prv_q prv - 1)) as [D1 D2]
    by (split; apply Z.mod_pos_bound; lia).
  rewrite !silc_mp_pow_mod_spec by lia.
  rewrite (pow_mod_reduce _ x (prv_e prv)), (pow_mod_reduce _ x (prv_e prv)) by done.
  set (p := prv_p prv) in *. set (q := prv_q prv) in *. set (y := x ^ prv_d prv).
  assert (0 < p /\ 0 < q) as [Hp0 Hq0] by (unfold p, q; lia).
  pose proof (Z.mod_pos_bound y p Hp0). pose proof (Z.mod_pos_bound y q Hq0).
  set (h := ((y mod p - y mod q) * prv_qP prv) mod p).
  pose proof (Z.mod_pos_bound ((y mod p - y mod q) * prv_qP prv) p Hp0) as Hh. fold h in Hh.
  apply (crt_unique p q); try done; try lia.
  - nia.
  - apply Z.mod_pos_bound. nia.
  - rewrite <- (Znumtheory.Zmod_div_mod p (p * q)) by (lia || nia || (exists q; ring)).
    rewrite Zplus_mod, <- Zmult_mod_idemp_l. unfold h. rewrite Zmod_mod, Zmult_mod_idemp_l, <- Z.mul_assoc.
    rewrite <- Zmult_mod_idemp_r. fold p q in QP. rewrite QP, Z.mul_1_r, <- Zplus_mod, Z.sub_add.
    apply Zmod_mod.
  - rewrite <- (Znumtheory.Zmod_div_mod q (p * q)) by (lia || nia || (exists p; ring)).
    by rewrite Z.add_comm, Z.mod_add, Zmod_mod by lia.
Qed.

Lemma silc_rsa_public_operation_spec x :
  silc_rsa_public_operation pub x = x ^ prv_e prv mod prv_n prv.
Proof.
  destruct Hpair as [N (Pn & Pe & _) [Pp P2] [Qp Q2] Ne E _ _ _ _ _ _].
  unfold silc_rsa_public_operation. rewrite Pn, Pe, silc_mp_pow_mod_spec; [done|lia|nia].
Qed.

Lemma rsa_range x : 0 <= x mod prv_n prv < prv_n prv.
Proof. apply Z.mod_pos_bound. destruct Hpair. nia. Qed.

Lemma pow_ed_n x : 0 <= x < prv_n prv -> x ^ (prv_e prv * prv_d prv) mod prv_n prv = x.
Proof.
  intros Hx. pose proof rsa_pair_gcd as Hg. pose proof (rsa_range (x ^ (prv_e prv * prv_d prv))) as Hr.
  destruct Hpair as [N _ [Pp P2] [Qp Q2] Ne E D EP EQ _ _ _]. rewrite N in *.
  apply (crt_unique (prv_p prv) (prv_q prv)); try done; try lia.
  - rewrite <- Znumtheory.Zmod_div_mod by (lia || nia || (eexists; apply Z.mul_comm)).
    by apply pow_mod_inverse.
  - rewrite <- Znumtheory.Zmod_div_mod by (lia || nia || (eexists; reflexivity)).
    by apply pow_mod_inverse.
Qed.

(** The operations undo each other. *)
Lemma silc_rsa_public_private x : 0 <= x < prv_n prv ->
  silc_rsa_public_operation pub (silc_rsa_private_operation prv x) = x.
Proof.
  intros Hx. rewrite silc_rsa_public_operation_spec, silc_rsa_private_operation_spec.
  destruct Hpair. rewrite <- Zpower_mod by nia. rewrite <- Z.pow_mul_r by lia.
  rewrite Z.mul_comm. by apply pow_ed_n.
Qed.

Lemma silc_rsa_private_public x : 0 <= x < prv_n prv ->
  silc_rsa_private_operation prv (silc_rsa_public_operation pub x) = x.
Proof.
  intros Hx. rewrite silc_rsa_public_operation_spec, silc_rsa_private_operation_spec.
  destruct Hpair. rewrite <- Zpower_mod by nia. rewrite <- Z.pow_mul_r by lia.
  by apply pow_ed_n.
Qed.
End pair.

(** * Primes of Proth's form

    p = h * 2^k + 1 with h below 2^k is a prime when some a has a^((p-1)/2) = -1
    modulo p: every prime divisor of p is then above 2^k. *)

Lemma prime_divisor : forall n, 1 < n -> exists q, Z.prime q /\ (q | n).
Proof.
  intros n. induction n as [n IH] using (well_founded_induction (Z.lt_wf 0)). intros Hn.
  destruct (Znumtheory.prime_dec n) as [Hp|Hp]; [exists n; by rewrite Znumtheory.prime_alt|].
  destruct (Znumtheory.not_prime_divide n Hn Hp) as (d & Hd & Hdn).
  destruct (IH d ltac:(lia) ltac:(lia)) as (q & Hq & Hqd). exists q. split; [done|]. by transitivity d.
Qed.

Lemma minus_one_odd_power x m q : 2 < q -> x mod q = q - 1 -> 0 <= m -> Z.odd m = true -> x ^ m mod q = q - 1.
Proof.
  intros Hq Hx Hm Ho. rewrite (Zpower_mod x) by lia. rewrite Hx.
  replace ((q - 1) ^ m mod q) with ((-1) ^ m mod q).
  - apply Z.odd_spec in Ho as [j ->]. rewrite Z.pow_add_r, Z.pow_mul_r by lia. change ((-1) ^ 2) with 1.
    rewrite Z.pow_1_l by lia. symmetry. by apply (Z.mod_unique _ _ (-1)); lia.
  - rewrite (Zpower_mod (q - 1)), (Zpower_mod (-1)) by lia. do 2 f_equal.
    replace (q - 1) with (-1 + 1 * q) by ring. by rewrite Z.mod_add by lia.
Qed.

(** n is a power of two times an odd number. *)
Lemma pow2_odd : forall n, 0 < n -> exists j m, 0 <= j /\ 0 < m /\ n = 2 ^ j * m /\ Z.odd m = true.
Proof.
  intros n. induction n as [n IH] using (well_founded_induction (Z.lt_wf 0)). intros Hn.
  destruct (Z.odd n) eqn:Ho; [by exists 0, n; split_and!; lia || done|].
  assert (Z.even n = true) as [i ->]%Z.even_spec by (by rewrite <- Z.negb_odd, Ho).
  destruct (IH i ltac:(lia) ltac:(lia)) as (j & m & Hj & Hm & -> & Hom).
  exists (j + 1), m. rewrite Z.pow_add_r by lia. split_and!; try done; lia.
Qed.

Lemma proth_divisor h k a q : 0 < h -> 0 < k -> Z.prime q -> 2 < q ->
  (a ^ (h * 2 ^ (k - 1))) mod q = q - 1 -> 2 ^ k < q.
Proof.
  intros Hh Hk Hq H2 Ha. destruct (pow2_odd (q - 1) ltac:(lia)) as (j & m & Hj & Hm & Eq & Ho).
  destruct (Z.le_gt_cases k j) as [Hle|Hgt].
  { pose proof (Z.pow_le_mono_r 2 k j ltac:(lia) Hle). pose proof (Z.pow_pos_nonneg 2 j ltac:(lia) Hj). nia. }
  exfalso. pose proof (minus_one_odd_power _ m q H2 Ha ltac:(lia) Ho) as H1.
  pose proof (Z.pow_pos_nonneg 2 (k - 1) ltac:(lia) ltac:(lia)).
  pose proof (Z.pow_pos_nonneg 2 (k - 1 - j) ltac:(lia) ltac:(lia)).
  rewrite <- Z.pow_mul_r in H1 by nia.
  replace (h * 2 ^ (k - 1) * m) with ((q - 1) * (h * 2 ^ (k - 1 - j))) in H1.
  2: { rewrite Eq. replace (k - 1) with (j + (k - 1 - j)) at 2 by lia. rewrite Z.pow_add_r by lia. ring. }
  destruct (Z.eq_dec (a mod q) 0) as [E|E].
  - rewrite Zpower_mod, E, Z.pow_0_l, Zmod_0_l in H1 by nia. lia.
  - rewrite Z.pow_mul_r, Zpower_mod, Z.fermat_nz, Z.pow_1_l, Z.mod_small in H1 by (done || nia). lia.
Qed.

Lemma proth_prime h k a p :
  p = h * 2 ^ k + 1 -> 0 < h < 2 ^ k -> 0 < k -> silc_mp_pow_mod a ((p - 1) / 2) p = p - 1 -> Z.prime p.
Proof.
  intros Ep Hh Hk Ha.
  assert (2 ^ k = 2 * 2 ^ (k - 1)) as E2 by (rewrite <- Z.pow_succ_r by lia; f_equal; lia).
  assert ((p - 1) / 2 = h * 2 ^ (k - 1)) as Eh.
  { rewrite Ep, E2. replace (_ - 1) with (h * 2 ^ (k - 1) * 2) by ring. by apply Z.div_mul. }
  pose proof (Z.pow_pos_nonneg 2 (k - 1) ltac:(lia) ltac:(lia)). assert (3 <= p) by nia.
  rewrite Eh, silc_mp_pow_mod_spec in Ha by nia.
  assert (forall q, Z.prime q -> (q | p) -> 2 ^ k < q) as Hdiv.
  { intros q Hq Hqp. assert (2 < q).
    { destruct Hq as [Hq _]. assert (q <> 2); [|lia]. intros ->. destruct Hqp as [i Hi]. nia. }
    apply (proth_divisor h k a q); try done; try lia.
    rewrite (Znumtheory.Zmod_div_mod q p) by (done || lia). rewrite Ha.
    destruct Hqp as [i ->]. symmetry. apply (Z.mod_unique _ _ (i - 1)); lia. }
  rewrite Znumtheory.prime_alt. destruct (Znumtheory.prime_dec p) as [|Hn]; [done|]. exfalso.
  destruct (Znumtheory.not_prime_divide p ltac:(lia) Hn) as (d & Hd & [c Hc]).
  assert (1 < c) by nia.
  destruct (prime_divisor d ltac:(lia)) as (q1 & P1 & D1). destruct (prime_divisor c ltac:(lia)) as (q2 & P2 & D2).
  assert (2 ^ k < q1) by (apply Hdiv; [done|transitivity d; [done|by exists c]]).
  assert (2 ^ k < q2) by (apply Hdiv; [done|transitivity c; [done|exists d; lia]]).
  apply Z.divide_pos_le in D1, D2; [|lia..]. nia.
Qed.

(** C14. RSA keys.  For any two different primes p and q above 2,
    silc_rsa_generate_keys finds an exponent after finitely many tries and gives
    a key pair with the modulus p * q, with which the private operation, done
    modulo p and q apart and put together by the Chinese remainder theorem, is the
    power of the private exponent modulo p * q, and the private and the public
    operation undo each other on every number below the modulus. *)
Theorem silc_rsa_generate_keys_pair bits p q :
  Z.prime p -> Z.prime q -> 2 < p -> 2 < q -> p <> q ->
  exists fuel, forall fuel', (fuel <= fuel')%nat ->
  exists pub prv, silc_rsa_generate_keys fuel' bits p q = Some (pub, prv) /\
    pub_n pub = p * q /\ prv_n prv = p * q /\ pub_bits pub = bits /\ prv_bits prv = bits /\
    forall x, 0 <= x < p * q ->
      silc_rsa_private_operation prv x = x ^ prv_d prv mod (p * q) /\
      silc_rsa_public_operation pub (silc_rsa_private_operation prv x) = x /\
      silc_rsa_private_operation prv (silc_rsa_public_operation pub x) = x.
Proof.
  intros Hp Hq Hp2 Hq2 Hne.
  destruct (silc_rsa_generate_keys_total bits p q Hp Hq Hp2 Hq2 Hne) as (fuel & H).
  exists fuel. intros fuel' Hf. destruct (H fuel' Hf) as (pub & prv & E & Hpair & E1 & E2 & E3).
  assert (prv_n prv = p * q) as En by (destruct Hpair as [N]; by rewrite N, E1, E2).
  destruct (rp_pub _ _ Hpair) as (Pn & _ & Pb). exists pub, prv.
  split_and!; try done; try congruence. intros x Hx. rewrite <- En in *. split_and!.
  - by apply (silc_rsa_private_operation_spec pub).
  - by apply (silc_rsa_public_private pub prv).
  - by apply (silc_rsa_private_public pub prv).
Qed.

Lemma silc_rsa_generate_keys_pair_witness : Z.prime 13 /\ Z.prime 17 /\
  exists fuel, forall fuel', (fuel <= fuel')%nat ->
  exists pub prv, silc_rsa_generate_keys fuel' 8 13 17 = Some (pub, prv) /\ pub_n pub = 221 /\
    silc_rsa_public_operation pub (silc_rsa_private_operation prv 100) = 100.
Proof.
  assert (Z.prime 13) as H13 by (apply (proth_prime 3 2 2); done).
  assert (Z.prime 17) as H17 by (apply (proth_prime 1 4 3); done).
  split; [done|]. split; [done|].
  destruct (silc_rsa_generate_keys_pair 8 13 17 H13 H17 ltac:(lia) ltac:(lia) ltac:(lia)) as (fuel & H).
  exists fuel. intros fuel' Hf. destruct (H fuel' Hf) as (pub & prv & E & En & _ & _ & _ & Hx).
  exists pub, prv. split; [done|]. split; [done|]. apply Hx. lia.
Defined.
