(* ===== verification/Pkcs1.v ===== *)
(** lib/silccrypt/silcpkcs1.c: PKCS #1 blocks, key generation, encryption, and
    signatures without hash OIDs (the scheme pkcs1-no-oid), on the RSA of Rsa.

    Pointers to data are those of arrays.  [dest] is what the memory of the block
    held before; [rng] is the stream of bytes the random number generator gives
    from [pos] on. *)

From S2P Require Import Prelude CTypes Hash SkeGroup Mp Rsa.

Definition SILC_PKCS1_MIN_PADDING : Z := 8.

Inductive SilcPkcs1BlockType := SILC_PKCS1_BT_PRV0 | SILC_PKCS1_BT_PRV1 | SILC_PKCS1_BT_PUB.

Definition bt_value (bt : SilcPkcs1BlockType) : Z :=
  match bt with SILC_PKCS1_BT_PRV0 => 0 | SILC_PKCS1_BT_PRV1 => 1 | SILC_PKCS1_BT_PUB => 2 end.

(** The [padlen] bytes of the block from its third on: set, or random; the loop
    for (i = 2; i < padlen; i++) leaves the last two as they were. *)
Definition pkcs1_padding (bt : SilcPkcs1BlockType) (dest : list Z) (padlen : Z)
    (rng : option (nat -> Z)) (pos : nat) : option (list Z) :=
  match bt with
  | SILC_PKCS1_BT_PRV0 => Some (zrepeat 0x00 padlen)
  | SILC_PKCS1_BT_PRV1 => Some (zrepeat 0xff padlen)
  | SILC_PKCS1_BT_PUB =>
      rng ← rng;
      Some (rng_data rng pos (padlen - 2) ++ ztake 2 (zdrop padlen dest))
  end.

(** [dest_data_size] is the length of [dest]. *)
Definition silc_pkcs1_encode (bt : SilcPkcs1BlockType) (data : list Z) (dest : list Z)
    (rng : option (nat -> Z)) (pos : nat) : option (list Z) :=
  if (zlen dest <? SILC_PKCS1_MIN_PADDING + 3) || (zlen dest <? zlen data) then None
  else
    let padlen := zlen dest - zlen data - 3 in
    if padlen <? SILC_PKCS1_MIN_PADDING then None
    else
      padding ← pkcs1_padding bt dest padlen rng pos;
      Some ([0x00; bt_value bt] ++ padding ++ [0x00] ++ data).

(** for (i = 2; i < data_len; i++) if (stop(data[i])) break *)
Fixpoint scan (stop : Z -> bool) (l : list Z) (i : Z) : Z :=
  match l with
  | [] => i
  | b :: l => if stop b then i else scan stop l (i + 1)
  end.

Definition decode_index (bt : SilcPkcs1BlockType) (data : list Z) : Z :=
  match bt with
  | SILC_PKCS1_BT_PRV0 => 0
  | SILC_PKCS1_BT_PRV1 => scan (fun b => negb (b =? 0xff)) (zdrop 2 data) 2
  | SILC_PKCS1_BT_PUB => scan (fun b => b =? 0x00) (zdrop 2 data) 2
  end.

(** The data that is copied to [dest_data]. *)
Definition silc_pkcs1_decode (bt : SilcPkcs1BlockType) (data : list Z) (dest_data_size : Z)
  : option (list Z) :=
  if (dest_data_size <? 3) || negb (byte_at data 0 =? 0x00) || negb (byte_at data 1 =? bt_value bt)
  then None
  else
    let i := decode_index bt data in
    if i >=? zlen data then None
    else if i <? SILC_PKCS1_MIN_PADDING then None
    else if negb (byte_at data i =? 0x00) then None
    else
      let i := i + 1 in
      if i >=? zlen data then None
      else if dest_data_size <? zlen data - i then None
      else Some (zdrop i data).

(** silc_mp_mp2bin with a length. *)
Definition mp2bin_len (val len : Z) : list Z :=
  silc_mp_mp2bin_noalloc val (if len =? 0 then (silc_mp_sizeinbase2 val + 7) / 8 else len).

Definition pkcs1_len (bits : Z) : Z := (bits + 7) / 8.

(** sizeof(padded), sizeof(unpadded) *)
Definition PADDED_SIZE : Z := 65536 + 1.

(** * Key generation *)

(** while (!found): until two different numbers are found. *)
Fixpoint generate_primes (fuel tries steps : nat) (prime_bits : Z) (rng : nat -> Z) (pos : nat)
  : option (Z * Z * nat) :=
  match fuel with
  | O => None
  | S fuel =>
      '(p, pos) ← silc_math_gen_prime tries steps prime_bits rng pos;
      '(q, pos) ← silc_math_gen_prime tries steps prime_bits rng pos;
      if p =? q then generate_primes fuel tries steps prime_bits rng pos else Some (p, q, pos)
  end.

(** The loops of the search for primes and of the exponent are unbounded; FALSE
    is [Some None]. *)
Definition silc_pkcs1_generate_key (fuel tries steps efuel : nat) (keylen : Z) (rng : nat -> Z) (pos : nat)
  : option (option (RsaPublicKey * RsaPrivateKey)) :=
  let prime_bits := keylen / 2 in
  if (keylen <? 768) || (keylen >? 16384) then Some None
  else
    '(p, q, _) ← generate_primes fuel tries steps prime_bits rng pos;
    let '(p, q) := if p >? q then (q, p) else (p, q) in
    keys ← silc_rsa_generate_keys efuel keylen p q;
    Some (Some keys).

(** * Encryption *)

(** [padded] is the array on the stack before the call. *)
Definition silc_pkcs1_encrypt (key : RsaPublicKey) (src : list Z) (dst_size : Z) (padded : list Z)
    (rng : nat -> Z) (pos : nat) : option (list Z) :=
  let len := pkcs1_len (pub_bits key) in
  if PADDED_SIZE <? len then None
  else if dst_size <? len then None
  else
    padded ← silc_pkcs1_encode SILC_PKCS1_BT_PUB src (ztake len padded) (Some rng) pos;
    let mp_tmp := silc_mp_bin2mp padded in
    let mp_dst := silc_rsa_public_operation key mp_tmp in
    Some (silc_mp_mp2bin_noalloc mp_dst len).

Definition silc_pkcs1_decrypt (key : RsaPrivateKey) (src : list Z) (dst_size : Z) : option (list Z) :=
  if dst_size <? pkcs1_len (prv_bits key) then None
  else
    let mp_tmp := silc_mp_bin2mp src in
    let mp_dst := silc_rsa_private_operation key mp_tmp in
    let padded := mp2bin_len mp_dst (pkcs1_len (prv_bits key)) in
    silc_pkcs1_decode SILC_PKCS1_BT_PUB padded PADDED_SIZE.

(** * Signatures *)

Section sign.
Context `{HashAlg}.

Definition silc_pkcs1_sign_no_oid (key : RsaPrivateKey) (src : list Z) (signature_size : Z)
    (compute_hash : bool) (hash : hash_context) (padded : list Z) : option (list Z) :=
  let len := pkcs1_len (prv_bits key) in
  if PADDED_SIZE <? len then None
  else if signature_size <? len then None
  else
    let src := if compute_hash then (silc_hash_make hash src).1 else src in
    padded ← silc_pkcs1_encode SILC_PKCS1_BT_PRV1 src (ztake len padded) None 0;
    let mp_tmp := silc_mp_bin2mp padded in
    let mp_dst := silc_rsa_private_operation key mp_tmp in
    Some (silc_mp_mp2bin_noalloc mp_dst len).

Definition silc_pkcs1_verify_no_oid (key : RsaPublicKey) (signature data : list Z)
    (hash : option hash_context) : bool :=
  let mp_tmp2 := silc_mp_bin2mp signature in
  let mp_dst := silc_rsa_public_operation key mp_tmp2 in
  let verify := mp2bin_len mp_dst (pkcs1_len (pub_bits key)) in
  match silc_pkcs1_decode SILC_PKCS1_BT_PRV1 verify PADDED_SIZE with
  | None => false
  | Some unpadded =>
      let data := match hash with Some hash => (silc_hash_make hash data).1 | None => data end in
      (zlen unpadded =? zlen data) && bool_decide (data = unpadded)
  end.
End sign.

(** Copies and comparison of public keys. *)
Definition silc_pkcs1_public_key_compare (k1 k2 : RsaPublicKey) : bool :=
  (pub_bits k1 =? pub_bits k2) && (pub_e k1 =? pub_e k2) && (pub_n k1 =? pub_n k2).
Definition silc_pkcs1_public_key_copy (key : RsaPublicKey) : RsaPublicKey :=
  {| pub_n := pub_n key; pub_e := pub_e key; pub_bits := pub_bits key |}.
Definition silc_pkcs1_public_key_bitlen (key : RsaPublicKey) : Z := pub_bits key.
Definition silc_pkcs1_private_key_bitlen (key : RsaPrivateKey) : Z := prv_bits key.

(** * Blocks *)

(** The block of a signature: 00 01 FF ... FF 00 and the data. *)
Definition prv1_block (k : Z) (d : list Z) : list Z := [0x00; 0x01] ++ zrepeat 0xff k ++ [0x00] ++ d.
Definition pub_block (r d : list Z) : list Z := [0x00; 0x02] ++ r ++ [0x00] ++ d.

Lemma scan_spec stop l : forall i, exists a b, l = a ++ b /\ scan stop l i = i + zlen a /\
  Forall (fun x => stop x = false) a /\ (b = [] \/ exists x b', b = x :: b' /\ stop x = true).
Proof.
  induction l as [|x l IH]; intros i; cbn [scan].
  - exists [], []. split_and!; [done|cbn; lia|done|by left].
  - destruct (stop x) eqn:E.
    + exists [], (x :: l). split_and!; [done|cbn; lia|done|]. right. by exists x, l.
    + destruct (IH (i + 1)) as (a & b & -> & -> & Ha & Hb). exists (x :: a), b.
      split_and!; [done|len|by constructor|done].
Qed.

(** A scan that stops at a given place. *)
Lemma scan_stop stop a x b i : Forall (fun y => stop y = false) a -> stop x = true ->
  scan stop (a ++ x :: b) i = i + zlen a.
Proof.
  intros Ha Hx. revert i. induction Ha as [|y a Hy _ IH]; intros i; cbn [scan app].
  - rewrite Hx. cbn. lia.
  - rewrite Hy, IH. len.
Qed.

(** Decoding takes exactly the blocks of the type with six bytes of padding. *)
Lemma decode_two bt data size :
  zlen data < 2 \/ byte_at data 0 <> 0 \/ byte_at data 1 <> bt_value bt ->
  bytes_ok data -> silc_pkcs1_decode bt data size = None.
Proof.
  intros H Hb. unfold silc_pkcs1_decode.
  destruct (size <? 3); [done|]. cbn [orb].
  destruct (Z.eqb_spec (byte_at data 0) 0), (Z.eqb_spec (byte_at data 1) (bt_value bt)); try done.
  destruct H as [H|[|]]; [|congruence..]. exfalso. destruct data as [|x [|y data]]; [| |len].
  - done.
  - destruct bt; done.
Qed.

Lemma decode_rest bt data l size :
  data = [0; bt_value bt] ++ l -> 3 <= size ->
  silc_pkcs1_decode bt data size =
    (let i := decode_index bt data in
     if i >=? zlen data then None
     else if i <? SILC_PKCS1_MIN_PADDING then None
     else if negb (byte_at data i =? 0x00) then None
     else if i + 1 >=? zlen data then None
     else if size <? zlen data - (i + 1) then None
     else Some (zdrop (i + 1) data)).
Proof.
  intros -> Hs. unfold silc_pkcs1_decode. destruct (Z.ltb_spec size 3); [lia|].
  change (byte_at ([0; bt_value bt] ++ l) 0) with 0.
  change (byte_at ([0; bt_value bt] ++ l) 1) with (bt_value bt). by rewrite !Z.eqb_refl.
Qed.

Lemma decode_index_block bt r d :
  match bt with
  | SILC_PKCS1_BT_PRV0 => False
  | SILC_PKCS1_BT_PRV1 => Forall (fun x => x = 255) r
  | SILC_PKCS1_BT_PUB => Forall (fun x => x <> 0) r
  end ->
  decode_index bt ([0; bt_value bt] ++ r ++ [0] ++ d) = 2 + zlen r.
Proof.
  intros H. destruct bt; [done| |]; cbn [decode_index bt_value].
  - change (zdrop 2 _) with (r ++ 0 :: d). apply scan_stop; [|done].
    eapply Forall_impl; [|exact H]. by intros x ->.
  - change (zdrop 2 _) with (r ++ 0 :: d). apply scan_stop; [|done].
    eapply Forall_impl; [|exact H]. intros x Hx. by apply Z.eqb_neq.
Qed.

(** A block of a type with its padding [r], decoded. *)
Lemma decode_block bt r d size :
  match bt with
  | SILC_PKCS1_BT_PRV0 => False
  | SILC_PKCS1_BT_PRV1 => Forall (fun x => x = 255) r
  | SILC_PKCS1_BT_PUB => Forall (fun x => x <> 0) r
  end ->
  6 <= zlen r -> d <> [] -> 3 <= size -> zlen d <= size ->
  silc_pkcs1_decode bt ([0; bt_value bt] ++ r ++ [0] ++ d) size = Some d.
Proof.
  intros Hr H6 Hd Hs Hl. rewrite (decode_rest bt _ (r ++ [0] ++ d)) by done. cbv zeta.
  rewrite decode_index_block by done. set (data := _ ++ r ++ _).
  assert (1 <= zlen d) by (destruct d; [done|len]).
  assert (zlen data = zlen r + zlen d + 3) as El by (unfold data; len).
  assert (byte_at data (2 + zlen r) = 0) as ->.
  { unfold data. rewrite byte_at_app_r, byte_at_app_r by len.
    replace (2 + zlen r - zlen [0; bt_value bt] - zlen r) with 0 by len. done. }
  assert (zdrop (2 + zlen r + 1) data = d) as ->.
  { unfold data. rewrite !app_assoc. apply zdrop_app_exact. len. }
  rewrite El. unfold SILC_PKCS1_MIN_PADDING. repeat (zcase; try lia; cbn [negb]). done.
Qed.

Lemma silc_pkcs1_decode_prv1 data size d : bytes_ok data -> 3 <= size -> zlen data <= size ->
  silc_pkcs1_decode SILC_PKCS1_BT_PRV1 data size = Some d <->
  exists k, 6 <= k /\ data = prv1_block k d /\ d <> [].
Proof.
  intros Hb Hs Hl. split.
  2: { intros (k & Hk & -> & Hd). apply (decode_block SILC_PKCS1_BT_PRV1); try done.
    - unfold zrepeat. by apply Forall_replicate.
    - len.
    - unfold prv1_block in Hl. len. }
  destruct (decide (zlen data < 2 \/ byte_at data 0 <> 0 \/ byte_at data 1 <> 1)) as [Hn|Hy];
    [by rewrite decode_two|].
  destruct data as [|x [|y l]]; [cbn in Hy; lia..|].
  assert (x = 0 /\ y = 1) as [-> ->] by (change (byte_at (x :: y :: l) 0) with x in Hy; change (byte_at (x :: y :: l) 1) with y in Hy; len).
  rewrite (decode_rest SILC_PKCS1_BT_PRV1 _ l) by done. cbv zeta.
  change (0 :: 1 :: l) with ([0; 1] ++ l) in *. cbn [decode_index].
  change (zdrop 2 ([0; 1] ++ l)) with l.
  destruct (scan_spec (fun b => negb (b =? 255)) l 2) as (a & b & -> & -> & Ha & Hab).
  assert (a = zrepeat 255 (zlen a)) as Ear.
  { unfold zrepeat. rewrite Nat2Z.id. clear -Ha. induction Ha as [|x a Hx _ IH]; [done|].
    cbn. rewrite <- IH. f_equal. by destruct (Z.eqb_spec x 255). }
  destruct (Z.geb_spec (2 + zlen a) (zlen ([0; 1] ++ a ++ b))); [done|].
  destruct (Z.ltb_spec (2 + zlen a) SILC_PKCS1_MIN_PADDING) as [|Hp]; [done|].
  destruct Hab as [->|(x & b' & -> & Hx)]; [exfalso; len|].
  assert (byte_at ([0; 1] ++ a ++ x :: b') (2 + zlen a) = x) as ->.
  { rewrite byte_at_app_r, byte_at_app_r by len.
    replace (2 + zlen a - zlen [0; 1] - zlen a) with 0 by len. done. }
  destruct (Z.eqb_spec x 0) as [->|]; [|done]. cbn [negb].
  assert (zdrop (2 + zlen a + 1) ([0; 1] ++ a ++ 0 :: b') = b') as ->.
  { rewrite (cons_middle 0 a b'), !app_assoc. apply zdrop_app_exact. len. }
  destruct (Z.geb_spec (2 + zlen a + 1) (zlen ([0; 1] ++ a ++ 0 :: b'))); [done|].
  destruct (size <? _); [done|].
  intros [= <-]. exists (zlen a). unfold SILC_PKCS1_MIN_PADDING in Hp. split; [lia|].
  unfold prv1_block. rewrite <- Ear. split; [done|]. intros ->. len.
Qed.

Lemma silc_pkcs1_encode_prv1 data dest rng pos :
  silc_pkcs1_encode SILC_PKCS1_BT_PRV1 data dest rng pos =
    if zlen data + 11 <=? zlen dest then Some (prv1_block (zlen dest - zlen data - 3) data) else None.
Proof.
  unfold silc_pkcs1_encode, SILC_PKCS1_MIN_PADDING. destruct (Z.leb_spec (zlen data + 11) (zlen dest)).
  - destruct (Z.ltb_spec (zlen dest) (8 + 3)); [lia|]. destruct (Z.ltb_spec (zlen dest) (zlen data)); [lia|].
    cbn [orb]. destruct (Z.ltb_spec (zlen dest - zlen data - 3) 8); [lia|]. done.
  - destruct (_ || _); [done|]. destruct (Z.ltb_spec (zlen dest - zlen data - 3) 8); [done|lia].
Qed.

Lemma silc_pkcs1_encode_pub data dest rng pos :
  silc_pkcs1_encode SILC_PKCS1_BT_PUB data dest (Some rng) pos =
    if zlen data + 11 <=? zlen dest
    then let padlen := zlen dest - zlen data - 3 in
         Some (pub_block (rng_data rng pos (padlen - 2) ++ ztake 2 (zdrop padlen dest)) data)
    else None.
Proof.
  unfold silc_pkcs1_encode, SILC_PKCS1_MIN_PADDING. destruct (Z.leb_spec (zlen data + 11) (zlen dest)).
  - destruct (Z.ltb_spec (zlen dest) (8 + 3)); [lia|]. destruct (Z.ltb_spec (zlen dest) (zlen data)); [lia|].
    cbn [orb]. destruct (Z.ltb_spec (zlen dest - zlen data - 3) 8); [lia|]. done.
  - destruct (_ || _); [done|]. destruct (Z.ltb_spec (zlen dest - zlen data - 3) 8); [done|lia].
Qed.

(** * Blocks as numbers *)

Lemma mp2bin_noalloc_be x len : silc_mp_mp2bin_noalloc x len = be_encode (Z.to_nat len) x.
Proof. unfold silc_mp_mp2bin_noalloc. by rewrite mp2bin_loop_be, app_nil_r. Qed.

Lemma mp2bin_len_be x len : 0 < len -> mp2bin_len x len = be_encode (Z.to_nat len) x.
Proof.
  intros Hl. unfold mp2bin_len. destruct (Z.eqb_spec len 0); [lia|]. apply mp2bin_noalloc_be.
Qed.

Lemma be_decode_cons b l : be_decode (b :: l) = b * 256 ^ zlen l + be_decode l.
Proof.
  induction l as [|x l IH] using rev_ind; [cbn; lia|].
  rewrite app_comm_cons, !be_decode_snoc, IH. rewrite length_app. cbn [length].
  rewrite Nat2Z.inj_add, Z.pow_add_r by lia. cbn. lia.
Qed.

(** The modulus takes as many bytes as the length of the key says. *)
Definition key_sized (n bits : Z) : Prop :=
  0 < pkcs1_len bits <= PADDED_SIZE /\ 256 ^ (pkcs1_len bits - 1) <= n < 256 ^ pkcs1_len bits.

(** A block that begins with 00, through an operation [g], bytes, and the operation
    [f] that undoes it. *)
Lemma block_there_back (f g : Z -> Z) n len block :
  0 < len -> 256 ^ (len - 1) <= n < 256 ^ len ->
  (forall x, 0 <= x < n -> f (g x) = x) -> (forall x, 0 <= g x < n) ->
  zlen block = len -> bytes_ok block -> byte_at block 0 = 0 ->
  mp2bin_len (f (silc_mp_bin2mp (silc_mp_mp2bin_noalloc (g (silc_mp_bin2mp block)) len))) len = block.
Proof.
  intros Hk Hn Hfg Hg Hl Hb H0.
  rewrite mp2bin_len_be, mp2bin_noalloc_be, !silc_mp_bin2mp_be, be_decode_encode by done.
  destruct block as [|b block]; [exfalso; len|]. change (byte_at (b :: block) 0) with b in H0. subst b.
  rewrite Z2Nat.id by lia. rewrite Z.mod_small by (specialize (Hg (be_decode (0 :: block))); lia).
  rewrite Hfg.
  - replace (Z.to_nat len) with (length (0 :: block)) by lia. by apply be_encode_decode.
  - rewrite be_decode_cons. inversion Hb; subst. pose proof (be_decode_range block ltac:(done)).
    replace (zlen (0 :: block) - 1) with (zlen block) in Hn by len. lia.
Qed.

Section key.
Context (pub : RsaPublicKey) (prv : RsaPrivateKey) (Hpair : rsa_pair pub prv)
  (Hsize : key_sized (prv_n prv) (prv_bits prv)).

Lemma pkcs1_len_pair : pkcs1_len (pub_bits pub) = pkcs1_len (prv_bits prv).
Proof. destruct Hpair as [_ (_ & _ & ->) _ _ _ _ _ _ _ _ _ _]. done. Qed.

Lemma private_range x : 0 <= silc_rsa_private_operation prv x < prv_n prv.
Proof. rewrite (silc_rsa_private_operation_spec pub prv) by done. by apply (rsa_range pub). Qed.

Lemma public_range x : 0 <= silc_rsa_public_operation pub x < prv_n prv.
Proof. rewrite (silc_rsa_public_operation_spec pub prv) by done. by apply (rsa_range pub). Qed.

Lemma block_private_public block :
  zlen block = pkcs1_len (prv_bits prv) -> bytes_ok block -> byte_at block 0 = 0 ->
  mp2bin_len (silc_rsa_public_operation pub (silc_mp_bin2mp
    (silc_mp_mp2bin_noalloc (silc_rsa_private_operation prv (silc_mp_bin2mp block))
      (pkcs1_len (prv_bits prv))))) (pkcs1_len (pub_bits pub)) = block.
Proof.
  destruct Hsize as [[Hk _] Hn]. rewrite pkcs1_len_pair. apply (block_there_back _ _ (prv_n prv)); try done.
  - by apply (silc_rsa_public_private pub prv).
  - apply private_range.
Qed.

Lemma block_public_private block :
  zlen block = pkcs1_len (prv_bits prv) -> bytes_ok block -> byte_at block 0 = 0 ->
  mp2bin_len (silc_rsa_private_operation prv (silc_mp_bin2mp
    (silc_mp_mp2bin_noalloc (silc_rsa_public_operation pub (silc_mp_bin2mp block))
      (pkcs1_len (pub_bits pub))))) (pkcs1_len (prv_bits prv)) = block.
Proof.
  destruct Hsize as [[Hk _] Hn]. rewrite pkcs1_len_pair. apply (block_there_back _ _ (prv_n prv)); try done.
  - by apply (silc_rsa_private_public pub prv).
  - apply public_range.
Qed.
End key.

Lemma prv1_block_props k d : 0 <= k -> bytes_ok d ->
  zlen (prv1_block k d) = k + zlen d + 3 /\ bytes_ok (prv1_block k d) /\ byte_at (prv1_block k d) 0 = 0.
Proof.
  intros Hk Hd. unfold prv1_block. split; [len|]. split; [|done].
  repeat (apply Forall_app; split); try done; try (repeat constructor; done).
  unfold zrepeat. by apply Forall_replicate.
Qed.
