(* ===== verification/Pkcs1Spec.v ===== *)
(** What the PKCS #1 operations of Pkcs1 promise: the keys that are generated, the
    signatures that are accepted, and what encryption and decryption give. *)

From S2P Require Import Prelude CTypes Hash HashFns HashSpec SkeGroup Mp Rsa Pkcs1.

(** * Generated keys *)

Lemma generate_primes_some fuel tries steps bits rng : forall pos p q pos', 34 <= bits ->
  generate_primes fuel tries steps bits rng pos = Some (p, q, pos') ->
  p <> q /\ (2 ^ (bits - 1) <= p < 2 ^ bits /\ passes p = true) /\ (2 ^ (bits - 1) <= q < 2 ^ bits /\ passes q = true).
Proof.
  induction fuel as [|fuel IH]; intros pos p q pos' Hb; cbn [generate_primes]; [done|].
  destruct (silc_math_gen_prime tries steps bits rng pos) as [[p1 pos1]|] eqn:E1; cbn [mbind option_bind]; [|done].
  destruct (silc_math_gen_prime tries steps bits rng pos1) as [[q1 pos2]|] eqn:E2; cbn [mbind option_bind]; [|done].
  destruct (Z.eqb_spec p1 q1); [by apply IH|]. intros [= <- <- <-].
  apply silc_math_gen_prime_some in E1 as (? & ? & _), E2 as (? & ? & _); done.
Qed.

(** The modulus of a generated key has the length of the key, when that is not one
    more than a multiple of eight. *)
Lemma prime_product_sized keylen p q :
  768 <= keylen <= 16384 -> keylen mod 8 <> 1 ->
  2 ^ (keylen / 2 - 1) <= p < 2 ^ (keylen / 2) -> 2 ^ (keylen / 2 - 1) <= q < 2 ^ (keylen / 2) ->
  key_sized (p * q) keylen.
Proof.
  intros Hl H8 Hp Hq. unfold key_sized, pkcs1_len, PADDED_SIZE.
  pose proof (Z.div_mod keylen 8 ltac:(lia)). pose proof (Z.mod_pos_bound keylen 8 ltac:(lia)).
  pose proof (Z.div_mod (keylen + 7) 8 ltac:(lia)). pose proof (Z.mod_pos_bound (keylen + 7) 8 ltac:(lia)).
  pose proof (Z.div_mod keylen 2 ltac:(lia)). pose proof (Z.mod_pos_bound keylen 2 ltac:(lia)).
  set (b := keylen / 2) in *. set (len := (keylen + 7) / 8) in *. split; [lia|].
  change 256 with (2 ^ 8). rewrite <- !Z.pow_mul_r by lia.
  assert (2 ^ (8 * (len - 1)) <= 2 ^ ((b - 1) + (b - 1))) by (apply Z.pow_le_mono_r; lia).
  assert (2 ^ (b + b) <= 2 ^ (8 * len)) by (apply Z.pow_le_mono_r; lia).
  rewrite !Z.pow_add_r in * by lia. pose proof (Z.pow_pos_nonneg 2 (b - 1) ltac:(lia) ltac:(lia)). nia.
Qed.

(** What silc_pkcs1_generate_key gives: a pair whose modulus has the length of the
    key, when the numbers that pass its test are primes. *)
Lemma silc_pkcs1_generate_key_pair fuel tries steps efuel keylen rng pos pub prv :
  silc_pkcs1_generate_key fuel tries steps efuel keylen rng pos = Some (Some (pub, prv)) ->
  (forall z, passes z = true -> 2 ^ (keylen / 2 - 1) <= z < 2 ^ (keylen / 2) -> Z.prime z) ->
  768 <= keylen <= 16384 /\ rsa_pair pub prv /\ prv_p prv < prv_q prv /\
  (keylen mod 8 <> 1 -> key_sized (prv_n prv) (prv_bits prv)).
Proof.
  intros E Hprime. unfold silc_pkcs1_generate_key in E.
  destruct (_ || _) eqn:Hr; [done|]. assert (768 <= keylen <= 16384) as Hl by lia. split; [done|].
  assert (34 <= keylen / 2) as Hb by (apply Z.div_le_lower_bound; lia).
  destruct (generate_primes _ _ _ _ _ _) as [[[p q] pos']|] eqn:Eg; cbn [mbind option_bind] in E; [|done].
  apply generate_primes_some in Eg as (Hne & [Hp Pp] & [Hq Pq]); [|done].
  assert (2 ^ 33 <= 2 ^ (keylen / 2 - 1)) as H33 by (apply Z.pow_le_mono_r; lia).
  assert (exists p' q', (if p >? q then (q, p) else (p, q)) = (p', q') /\ p' < q' /\
    (2 ^ (keylen / 2 - 1) <= p' < 2 ^ (keylen / 2) /\ Z.prime p') /\
    (2 ^ (keylen / 2 - 1) <= q' < 2 ^ (keylen / 2) /\ Z.prime q')) as (p' & q' & Es & Hlt & [Hp' Pp'] & [Hq' Pq']).
  { destruct (Z.gtb_spec p q); eexists _, _; (split; [done|]); split_and!; auto; lia. }
  rewrite Es in E. destruct (silc_rsa_generate_keys efuel keylen p' q') as [keys|] eqn:Ek; cbn [mbind option_bind] in E; [|done].
  injection E as ->. apply silc_rsa_generate_keys_some in Ek as (Hpair & E1 & E2 & E3); try done; try lia.
  split; [done|]. split; [lia|]. intros H8. destruct Hpair as [N]. rewrite N, E1, E2, E3.
  by apply prime_product_sized.
Qed.

(** * Signatures *)

(** The data a signature is about: its hash, or itself. *)
Definition signed_data `{HashAlg} (hash : option hash_context) (data : list Z) : list Z :=
  match hash with Some h => (silc_hash_make h data).1 | None => data end.

Lemma signed_data_bytes `{HashLaws} hash data :
  bytes_ok data -> zlen data < 2 ^ 31 -> bytes_ok (signed_data hash data).
Proof.
  intros Hb Hl. destruct hash as [h|]; [|done]. unfold signed_data, silc_hash_make, silc_hash_final,
    silc_hash_update, silc_hash_init. 
  change (alg_hash_update (alg_hash_init h) data) with (foldl alg_hash_update (alg_hash_init h) [data]).
  rewrite hash_final_fn by (by constructor). apply hash_fn_bytes.
Qed.

(** C13. Which signatures silc_pkcs1_verify_no_oid accepts, for any key, signature and
    data: exactly those whose public operation gives, as a number of the key's
    length, the block 00 01 FF ... FF 00 followed by the data (or its hash) and by
    nothing else, with at least six bytes FF.  No other encoding, padding or length
    is accepted. *)
Theorem silc_pkcs1_verify_no_oid_iff `{HashLaws} pub sig data hash :
  0 <= pub_e pub -> 0 < pub_n pub -> 0 < pkcs1_len (pub_bits pub) <= PADDED_SIZE ->
  bytes_ok data -> zlen data < 2 ^ 31 ->
  silc_pkcs1_verify_no_oid pub sig data hash = true <->
    signed_data hash data <> [] /\
    let len := pkcs1_len (pub_bits pub) in
    let k := len - zlen (signed_data hash data) - 3 in
    6 <= k /\
    be_encode (Z.to_nat len) (be_decode sig ^ pub_e pub mod pub_n pub) = prv1_block k (signed_data hash data).
Proof.
  intros He Hn Hlen Hb Hd. unfold silc_pkcs1_verify_no_oid, silc_rsa_public_operation.
  rewrite silc_mp_pow_mod_spec, silc_mp_bin2mp_be, mp2bin_len_be by lia.
  set (len := pkcs1_len (pub_bits pub)) in *. set (v := be_encode _ _).
  assert (zlen v = len) as Hv by (unfold v; rewrite length_be_encode; lia).
  assert (bytes_ok v) as Hvb by apply bytes_ok_be_encode.
  assert (3 <= PADDED_SIZE) as H3 by (unfold PADDED_SIZE; lia).
  fold (signed_data hash data). cbv zeta. set (H0' := signed_data hash data) in *. split.
  - destruct (silc_pkcs1_decode _ _ _) as [d|] eqn:E; [|done]. intros [_ Hd'%bool_decide_eq_true]%andb_true_iff.
    apply silc_pkcs1_decode_prv1 in E as (k & Hk & Ev & Hne); [|done|lia|lia]. subst d. split; [done|].
    assert (k = len - zlen H0' - 3) as -> by (rewrite <- Hv, Ev; unfold prv1_block; len). done.
  - intros (Hne & Hk & Ev). assert (silc_pkcs1_decode SILC_PKCS1_BT_PRV1 v PADDED_SIZE = Some H0') as ->.
    { apply silc_pkcs1_decode_prv1; [done|lia|lia|]. by eexists. }
    rewrite Z.eqb_refl. by apply bool_decide_eq_true.
Qed.

(** Signing and verifying, for data of which what is signed is bytes. *)
Lemma sign_no_oid_verifies `{HashAlg} pub prv data size (hash : bool) h padded :
  rsa_pair pub prv -> key_sized (prv_n prv) (prv_bits prv) ->
  bytes_ok (signed_data (if hash then Some h else None) data) -> zlen padded = PADDED_SIZE ->
  let len := pkcs1_len (prv_bits prv) in
  let signed := signed_data (if hash then Some h else None) data in
  match silc_pkcs1_sign_no_oid prv data size hash h padded with
  | None => size < len \/ len < zlen signed + 11
  | Some sig =>
      len <= size /\ zlen signed + 11 <= len /\ zlen sig = len /\ bytes_ok sig /\
      silc_pkcs1_verify_no_oid pub sig data (if hash then Some h else None) = negb (bool_decide (signed = []))
  end.
Proof.
  intros Hp Hs Hsb Hpad len signed. destruct Hs as [Hl Hn]. fold len in Hl, Hn. fold signed in Hsb.
  unfold silc_pkcs1_sign_no_oid. fold len. destruct (Z.ltb_spec PADDED_SIZE len); [lia|].
  destruct (Z.ltb_spec size len); [by left|].
  assert ((if hash then (silc_hash_make h data).1 else data) = signed) as ->
    by (unfold signed; by destruct hash).
  rewrite silc_pkcs1_encode_prv1. rewrite zlen_ztake by lia.
  destruct (Z.leb_spec (zlen signed + 11) len); [|right; lia]. cbn [mbind option_bind].
  set (k := len - zlen signed - 3). assert (8 <= k) by (unfold k; lia).
  destruct (prv1_block_props k signed ltac:(lia) Hsb) as (Bl & Bb & B0).
  split; [done|]. split; [done|]. split; [rewrite mp2bin_noalloc_be, length_be_encode; lia|].
  split; [rewrite mp2bin_noalloc_be; apply bytes_ok_be_encode|].
  unfold silc_pkcs1_verify_no_oid.
  rewrite (block_private_public pub prv Hp); [|by split|rewrite Bl; unfold k; fold len; lia|done|done].
  fold (signed_data (if hash then Some h else None) data). fold signed.
  assert (zlen (prv1_block k signed) <= PADDED_SIZE) as HL by (rewrite Bl; unfold k; lia).
  assert (3 <= PADDED_SIZE) as HP3 by (unfold PADDED_SIZE; lia).
  destruct (decide (signed = [])) as [E|E].
  - rewrite bool_decide_eq_true_2 by done. rewrite E in *.
    destruct (silc_pkcs1_decode _ _ _) as [d|] eqn:Ed; [|done].
    apply silc_pkcs1_decode_prv1 in Ed as (j & _ & Ej & Hne);
      [|done..].
    rewrite (bool_decide_eq_false_2 ([] = d)) by (by intros <-). apply andb_false_r.
  - assert (silc_pkcs1_decode SILC_PKCS1_BT_PRV1 (prv1_block k signed) PADDED_SIZE = Some signed) as ->.
    { apply silc_pkcs1_decode_prv1; [done..|].
      exists k. split; [lia|done]. }
    rewrite Z.eqb_refl, !bool_decide_eq_true_2, bool_decide_eq_false_2 by done. done.
Qed.

(** C15. Signatures of silc_pkcs1_sign_no_oid verify.  With the private key of a pair
    whose modulus has the length the key says, signing gives a signature of that
    length exactly when the data (or its hash) and eleven bytes fit into it and the
    buffer of the caller takes it; and silc_pkcs1_verify_no_oid accepts it under the
    public key for the same data, whatever was on the stack before.  Empty data that
    is not hashed is signed too, but its signature is refused. *)
Theorem silc_pkcs1_sign_verify_no_oid `{HashLaws} pub prv data size hash h padded :
  rsa_pair pub prv -> key_sized (prv_n prv) (prv_bits prv) -> bytes_ok data -> zlen data < 2 ^ 31 ->
  zlen padded = PADDED_SIZE ->
  let len := pkcs1_len (prv_bits prv) in
  let signed := signed_data (if hash : bool then Some h else None) data in
  match silc_pkcs1_sign_no_oid prv data size hash h padded with
  | None => size < len \/ len < zlen signed + 11
  | Some sig =>
      len <= size /\ zlen signed + 11 <= len /\ zlen sig = len /\ bytes_ok sig /\
      silc_pkcs1_verify_no_oid pub sig data (if hash then Some h else None) = negb (bool_decide (signed = []))
  end.
Proof.
  intros Hp Hs Hb Hd Hpad. apply sign_no_oid_verifies; try done. by apply signed_data_bytes.
Qed.

(** * Encryption *)

Definition rng_nonzero (rng : nat -> Z) : Prop := forall n, 1 <= rng n < 256.

Lemma rng_data_props rng pos n : rng_nonzero rng -> 0 <= n ->
  zlen (rng_data rng pos n) = n /\ bytes_ok (rng_data rng pos n) /\ Forall (fun x => x <> 0) (rng_data rng pos n).
Proof.
  intros H Hn. unfold rng_data. split; [rewrite length_map, length_seq; lia|].
  split; apply List.Forall_forall; intros x (i & <- & _)%List.in_map_iff; specialize (H i); unfold is_byte; lia.
Qed.

Lemma ztake_2 padded i : 0 <= i -> i + 1 < zlen padded ->
  ztake 2 (zdrop i padded) = [byte_at padded i; byte_at padded (i + 1)].
Proof.
  intros Hi Hl. rewrite byte_at_split by lia. rewrite (byte_at_split _ (i + 1)) by lia. done.
Qed.

Lemma byte_at_ztake l n i : 0 <= i < n -> n <= zlen l -> byte_at (ztake n l) i = byte_at l i.
Proof.
  intros Hi Hn. rewrite <- (ztake_zdrop n l) at 2. rewrite byte_at_app_l; [done|]. rewrite zlen_ztake; lia.
Qed.

(** C16. What silc_pkcs1_encrypt makes of data, decrypted with the private key of the
    pair.  The random padding ends two bytes before it should: two bytes of the
    block are whatever was on the stack.  If both are not zero, decryption gives the
    data back; if one of them is zero, the padding ends there, and decryption
    succeeds with one or two bytes too much in front of the data. *)
Theorem silc_pkcs1_encrypt_decrypt pub prv src size padded rng pos :
  rsa_pair pub prv -> key_sized (prv_n prv) (prv_bits prv) -> bytes_ok src -> src <> [] ->
  zlen padded = PADDED_SIZE -> bytes_ok padded -> rng_nonzero rng ->
  let len := pkcs1_len (prv_bits prv) in
  let padlen := len - zlen src - 3 in
  let s1 := byte_at padded padlen in
  let s2 := byte_at padded (padlen + 1) in
  match silc_pkcs1_encrypt pub src size padded rng pos with
  | None => size < len \/ len < zlen src + 11
  | Some enc =>
      zlen enc = len /\ bytes_ok enc /\
      forall dsize, len <= dsize ->
        silc_pkcs1_decrypt prv enc dsize =
          Some (if s1 =? 0 then s2 :: 0 :: src else if s2 =? 0 then 0 :: src else src)
  end.
Proof.
  intros Hp Hs Hb Hne Hpad Hpb Hr len padlen s1 s2. pose proof Hs as [Hl Hn]. fold len in Hl, Hn.
  unfold silc_pkcs1_encrypt. rewrite (pkcs1_len_pair pub prv) by done. fold len.
  destruct (Z.ltb_spec PADDED_SIZE len); [lia|]. destruct (Z.ltb_spec size len); [by left|].
  rewrite silc_pkcs1_encode_pub, zlen_ztake by lia.
  destruct (Z.leb_spec (zlen src + 11) len); [|right; lia]. cbn [mbind option_bind]. fold padlen.
  assert (8 <= padlen) as H8 by (unfold padlen; lia).
  rewrite ztake_2, !byte_at_ztake by (rewrite ?zlen_ztake; unfold padlen; lia). fold s1 s2.
  assert (is_byte s1 /\ is_byte s2) as [B1 B2] by (split; apply byte_at_ok; unfold padlen; (done || lia)).
  destruct (rng_data_props rng pos (padlen - 2) Hr ltac:(lia)) as (Rl & Rb & Rn).
  set (r := rng_data rng pos (padlen - 2)) in *. set (block := pub_block (r ++ [s1; s2]) src).
  assert (zlen block = len) as Bl by (unfold block, pub_block, padlen in *; len).
  assert (bytes_ok block) as Bb.
  { unfold block, pub_block. repeat (apply Forall_app; split); try done; repeat (constructor; try done). }
  split; [rewrite mp2bin_noalloc_be, length_be_encode; lia|].
  split; [rewrite mp2bin_noalloc_be; apply bytes_ok_be_encode|].
  intros dsize Hd. unfold silc_pkcs1_decrypt. fold len. destruct (Z.ltb_spec dsize len); [lia|].
  pose proof (block_public_private pub prv Hp Hs block Bl Bb eq_refl) as E.
  rewrite (pkcs1_len_pair pub prv) in E by done. fold len in E. rewrite E.
  assert (3 <= PADDED_SIZE) as H3 by (unfold PADDED_SIZE; lia).
  unfold block, pub_block. destruct (Z.eqb_spec s1 0) as [->|N1]; [|destruct (Z.eqb_spec s2 0) as [->|N2]].
  - replace ([0; 2] ++ (r ++ [0; s2]) ++ [0] ++ src) with ([0; 2] ++ r ++ [0] ++ (s2 :: 0 :: src))
      by (by rewrite <- !app_assoc).
    apply (decode_block SILC_PKCS1_BT_PUB); (done || lia || (unfold padlen in *; len)).
  - replace ([0; 2] ++ (r ++ [s1; 0]) ++ [0] ++ src) with ([0; 2] ++ (r ++ [s1]) ++ [0] ++ (0 :: src))
      by (by rewrite <- !app_assoc).
    apply (decode_block SILC_PKCS1_BT_PUB); try (done || lia || (unfold padlen in *; len)).
    apply Forall_app; split; [done|by repeat constructor].
  - apply (decode_block SILC_PKCS1_BT_PUB); try (done || lia || (unfold padlen in *; len)).
    apply Forall_app; split; [done|by repeat constructor].
Qed.

(** * Keys for the witnesses *)

Definition ex_p : Z := 35185697488897.
Definition ex_q : Z := 35186368577537.

Lemma ex_p_prime : Z.prime ex_p.
Proof. apply (proth_prime 2097231 24 5); [done|lia|lia|vm_compute; done]. Qed.

Lemma ex_q_prime : Z.prime ex_q.
Proof. apply (proth_prime 2097271 24 3); [done|lia|lia|vm_compute; done]. Qed.

Definition ex_pub : RsaPublicKey := {| pub_n := 1238056920502047926741106689; pub_e := 65533; pub_bits := 96 |}.
Definition ex_prv : RsaPrivateKey :=
  {| prv_n := 1238056920502047926741106689; prv_e := 65533; prv_d := 1292714304488625493; prv_p := ex_p; prv_q := ex_q;
     prv_dP := 26964444075349; prv_dQ := 2309318530389; prv_qP := 20231776003685; prv_bits := 96 |}.

Lemma ex_pair : rsa_pair ex_pub ex_prv.
Proof.
  apply (silc_rsa_generate_keys_some 1 96 ex_p ex_q ex_pub ex_prv ex_p_prime ex_q_prime); [done..|].
  vm_compute. done.
Qed.

Lemma ex_sized : key_sized (prv_n ex_prv) (prv_bits ex_prv).
Proof. vm_compute. split; split; done. Qed.

Definition ex_sig : list Z := [2; 107; 93; 165; 227; 124; 92; 67; 161; 236; 48; 112].
Definition ex_stack : list Z := zrepeat 0 PADDED_SIZE.

Lemma ex_stack_len : zlen ex_stack = PADDED_SIZE.
Proof. unfold ex_stack. by apply length_zrepeat. Qed.

Lemma byte_at_zrepeat x n i : 0 <= i < n -> byte_at (zrepeat x n) i = x.
Proof.
  intros Hi. unfold byte_at, zrepeat. rewrite nth_lookup, lookup_replicate_2 by lia. done.
Qed.

(** The signature of the byte 5, accepted; a key pair and data as the theorem asks. *)
Lemma silc_pkcs1_verify_no_oid_iff_witness :
  silc_pkcs1_verify_no_oid (H := sha1) ex_pub ex_sig [5] None = true.
Proof.
  apply (silc_pkcs1_verify_no_oid_iff (H := sha1) ex_pub ex_sig [5] None).
  - done.
  - done.
  - done.
  - by repeat constructor.
  - done.
  - split; [done|]. cbv zeta. split; [done|]. rewrite <- silc_mp_pow_mod_spec by done. vm_compute. done.
Defined.

Lemma silc_pkcs1_sign_verify_no_oid_witness :
  match silc_pkcs1_sign_no_oid (H := sha1) ex_prv [5] 12 false sha1_wiped ex_stack with
  | Some sig => zlen sig = 12 /\ silc_pkcs1_verify_no_oid (H := sha1) ex_pub sig [5] None = true
  | None => False
  end.
Proof.
  pose proof (silc_pkcs1_sign_verify_no_oid (H := sha1) ex_pub ex_prv [5] 12 false sha1_wiped ex_stack
    ex_pair ex_sized ltac:(by repeat constructor) ltac:(done) ex_stack_len) as E. cbv zeta in E.
  destruct (silc_pkcs1_sign_no_oid _ _ _ _ _ _).
  - destruct E as (_ & _ & El & _ & Ev). split; [exact El|exact Ev].
  - destruct E as [E|E]; by vm_compute in E.
Defined.

(** On a stack of zeros the two bytes that are not set end the padding: the byte 5
    comes back with two zero bytes in front of it. *)
Lemma silc_pkcs1_encrypt_decrypt_witness :
  match silc_pkcs1_encrypt ex_pub [5] 12 ex_stack (fun _ => 7) 0 with
  | Some enc => zlen enc = 12 /\ silc_pkcs1_decrypt ex_prv enc 12 = Some [0; 0; 5]
  | None => False
  end.
Proof.
  pose proof (silc_pkcs1_encrypt_decrypt ex_pub ex_prv [5] 12 ex_stack (fun _ => 7) 0
    ex_pair ex_sized ltac:(by repeat constructor) ltac:(done) ex_stack_len) as E. cbv zeta in E.
  assert (bytes_ok ex_stack) as Hb by (unfold ex_stack, zrepeat; by apply Forall_replicate).
  specialize (E Hb ltac:(intros n; done)).
  destruct (silc_pkcs1_encrypt _ _ _ _ _ _).
  - destruct E as (El & _ & Ed). split; [exact El|].
    rewrite (Ed 12) by done. unfold ex_stack. rewrite !byte_at_zrepeat by done. done.
  - destruct E as [E|E]; by vm_compute in E.
Defined.
