(* ===== verification/PkcsRsa.v ===== *)
(** The scheme pkcs1-no-oid as the public key cryptosystem of Auth: what the
    authentication routines assume of signatures holds of the code of
    silcpkcs1.c and rsa.c, with the two hash functions silcpkcs.c names for
    the scheme.  The encoding of public keys is silcpk.c's, a parameter here. *)

From S2P Require Import Prelude CTypes Hash HashFns HashSpec Auth SkeGroup Mp Rsa Pkcs1 Pkcs1Spec.

(** Digests are bytes, and not empty, whatever was hashed. *)
Class HashDigest `(HashAlg) := {
  digest_bytes h data : bytes_ok (silc_hash_make h data).1;
  digest_nonempty h data : (silc_hash_make h data).1 <> [];
}.

#[local] Opaque SHA1Transform MD5Transform.

#[export] Instance md5_digest : HashDigest md5.
Proof.
  split; intros h data; unfold silc_hash_make, silc_hash_final; cbn [alg_hash_final md5]; unfold MD5Final;
    case_match; cbn [fst]; [apply (concat_words_bytes _ bytes_ok_PUT32_LSB)|done].
Qed.

Lemma sha1_update_loop_words fuel : forall st data i,
  zlen st = 5 -> zlen (sha1_update_loop fuel st data i).1 = 5.
Proof.
  induction fuel as [|fuel IH]; intros st data i Hs; cbn [sha1_update_loop]; [done|].
  destruct (_ <? _); [|done]. apply IH, length_SHA1Transform.
Qed.

Lemma SHA1Update_words ctx data : zlen (sha1_state ctx) = 5 -> zlen (sha1_state (SHA1Update ctx data)) = 5.
Proof.
  intros Hs. unfold SHA1Update. destruct (_ <? u32 _); [|done]. cbv zeta.
  match goal with |- context [sha1_update_loop ?f ?st ?d ?i] =>
    pose proof (sha1_update_loop_words f st d i (length_SHA1Transform _ _)) as H;
    destruct (sha1_update_loop f st d i) as [st' i'] end. exact H.
Qed.

Lemma sha1_pad_loop_words fuel : forall ctx, zlen (sha1_state ctx) = 5 -> zlen (sha1_state (sha1_pad_loop fuel ctx)) = 5.
Proof.
  induction fuel as [|fuel IH]; intros ctx Hs; cbn [sha1_pad_loop]; [done|].
  destruct (negb _); [|done]. by apply IH, SHA1Update_words.
Qed.

#[export] Instance sha1_digest : HashDigest sha1.
Proof.
  split; intros h data; unfold silc_hash_make, silc_hash_final; cbn [alg_hash_final sha1]; unfold SHA1Final; cbn [fst].
  - apply (concat_words_bytes _ bytes_ok_PUT32_MSB).
  - match goal with |- concat (map SILC_PUT32_MSB (sha1_state ?c)) <> [] =>
      assert (zlen (sha1_state c) = 5) as Hl end.
    { by apply SHA1Update_words, sha1_pad_loop_words, SHA1Update_words, SHA1Update_words. }
    intros E%(f_equal (fun l : list Z => zlen l)). rewrite (concat_words_len SILC_PUT32_MSB) in E by done. rewrite Hl in E. done.
Qed.

Section rsa.
Context `{HashDigest} (public_key_encode : RsaPublicKey -> option (list Z)).

(** The array on the stack; signing does not depend on it. *)
Definition sign_stack : list Z := zrepeat 0 PADDED_SIZE.

#[export] Instance rsa_pkcs : PkcsOps :=
  {| SilcPublicKey := RsaPublicKey; SilcPrivateKey := RsaPrivateKey; SilcHash := hash_context;
     silc_pkcs_public_key_encode := public_key_encode;
     silc_pkcs_sign key d n h := silc_pkcs1_sign_no_oid key d n true h sign_stack;
     silc_pkcs_verify key sig d h := silc_pkcs1_verify_no_oid key sig d (Some h) |}.

#[export] Instance rsa_pkcs_laws : PkcsLaws rsa_pkcs.
Proof.
  exists (fun pub prv => rsa_pair pub prv /\ key_sized (prv_n prv) (prv_bits prv)).
  - intros prv d n h sig. cbn. unfold silc_pkcs1_sign_no_oid. set (len := pkcs1_len (prv_bits prv)).
    destruct (Z.ltb_spec PADDED_SIZE len); [done|]. destruct (Z.ltb_spec n len); [done|].
    rewrite silc_pkcs1_encode_prv1. destruct (Z.leb_spec (zlen (silc_hash_make h d).1 + 11) (zlen (ztake len sign_stack))) as [Hl|];
      cbn [mbind option_bind]; [|done].
    intros [= <-]. rewrite mp2bin_noalloc_be, length_be_encode. split; [apply bytes_ok_be_encode|].
    assert (zlen (ztake len sign_stack) <= Z.max 0 len) by (unfold ztake; rewrite length_take; lia). lia.
  - intros pub prv d n h sig [Hp Hs]. cbn. intros E.
    pose proof (sign_no_oid_verifies pub prv d n true h sign_stack Hp Hs (digest_bytes h d)) as Hv. cbv zeta in Hv.
    rewrite E in Hv. destruct Hv as (_ & _ & _ & _ & ->); [by apply length_zrepeat|].
    cbn [signed_data]. by rewrite bool_decide_eq_false_2 by apply digest_nonempty.
Defined.
End rsa.
